(* ===== verification/_CoqProject ===== *)
-Q . S2P
Prelude.v
BlockDev.v
SourceStore.v
SourceStoreLog.v
SourceStoreSpec.v
SourceStoreCompact.v
SourceStoreStream.v
Zrecv.v
SourceStoreThms.v
MmioMap.v
MmioMapWalk.v
MmioMapSpec.v
MmioMapThms.v
Fat32.v
Fat32Spec.v
Fat32Thms.v
A64.v
A64Sem.v
HcIr.v
HcIrSem.v
HcIrGen.v
HcIrLayout.v
HcIrRun.v
HcIrBlocks.v
HcIrSim.v
HcIrThms.v
Editor.v
EditorSpec.v
EditorRefine.v
EditorCmds.v
EditorStore.v
EditorThms.v
PciDma.v
PciDmaSpec.v
PciDmaThms.v
Fdt.v
FdtSpec.v
FdtThms.v
Hid.v
HidSpec.v
HidDescr.v
HidThms.v
HcFront.v
HcFrontPrim.v
HcFrontOps.v
HcFrontCode.v
HcFrontSpec.v
HcFrontRun.v
HcFrontThms.v
HcFrontExpr.v
HcFrontExprRun.v
HcFrontCompile.v
HcFrontStmt.v
HcFrontFile.v
HcFrontStmtSpec.v
HcFrontTables.v
HcFrontStmtRun.v
HcFrontFileRun.v
HcFrontFileThms.v
Arena.v
ArenaSpec.v
ArenaRun.v
ArenaOps.v
ArenaThms.v
ArenaProps.v
ArenaCheckpoint.v
ArenaRollback.v
RedSea.v
RedSeaVol.v
RedSeaThms.v
RedSeaNames.v
RedSeaProps.v
Zinstall.v
ZinstallThms.v
HcMacro.v
HcMacroThms.v
HcStr.v
HcStrThms.v
