(* ===== verification/Prelude.v ===== *)
(** * A verification library for the ZealOS aarch64 bring-up

    The repository boots a HolyC environment on AArch64 (QEMU virt and the Raspberry Pi 4).  A boot
    loader hands the kernel stub a memory map and a DMA arena; the kernel maps devices, reads the
    device tree, drives USB keyboards and mice, keeps its own source files on a raw disk partition,
    edits them, and compiles HolyC through a stack IR to machine code.  This library models parts of
    that program, function by function, and proves what makes them correct.  A definition has the
    name of the function it models; a loop or a block of a function that became a definition of its
    own is named after what it does.

    ** The parts

    - Source partition ([src/src/zc_source_store.h], [disk_layout.h]): [BlockDev] is the interface to
      the block driver, a class with its laws and a concrete disk with a volatile cache.
      [SourceStore] holds every operation; [SourceStoreLog] the record codec, the log on disk and the
      map from names to contents that a disk [represents]; [SourceStoreSpec], [SourceStoreCompact] and
      [SourceStoreStream] the operations against the laws; [SourceStoreThms] the theorems: lookups
      return what the map holds, put, delete, compaction and the serial upload change it atomically
      at every point at which power can fail.  The laws say that a sector is written entirely or not at
      all, that a flush makes writes durable, and that a device may fail at any request and then
      writes nothing more.
    - Serial upload ([zrecv] of [src/src/kernel_stub.c] and [src/scripts/send-zc.py]): [Zrecv], against
      the store's streaming operations; the line is a list of bytes that may end at any point.
    - Source editor ([src/src/zc_source_editor.h]): [Editor]; [EditorSpec] says what a list of lines is,
      [EditorRefine] and [EditorCmds] that every command does one edit of it, [EditorStore] what
      opening and saving do to the partition, [EditorThms] the full-screen view and the theorems.
    - MMIO mapper ([src/src/mmio_map.h]): [MmioMap] edits page tables in a memory of words and traces
      stores, barriers and TLB maintenance; [MmioMapWalk] and [MmioMapSpec] relate it to the
      architecture's four-level walk; [MmioMapThms].
    - FAT32 reader ([src/src/pi4_fat32.h]): [Fat32], [Fat32Spec], [Fat32Thms].  The read callback may
      answer each call differently; the theorems on contents assume stable media and say so.
    - Boot handoff and DMA arena ([src/src/handoff.h], [pi4_dma.h], [pi4_dma_probe.h], [pi4_pcie_cfg.h],
      [plat_pi4.h], [pi4_xhci_dma_alias.h]): [PciDma], [PciDmaSpec], [PciDmaThms]: what the loader
      reserves and fails to reserve, and that the kernel accepts it if the two sides of the inbound
      window are 64 KiB aligned to each other, and only then.
    - Device tree reader ([src/src/pi4_pcie_fdt.h]): [Fdt], [FdtSpec], [FdtThms].  A read outside the
      blob is a failure of the model, so totality is memory safety.  Blobs are assumed
      to be at most 0xfffffff0 bytes long.
    - USB HID ([src/src/usb_hid.h], [usb_route.h] and the boot-protocol decoders of
      [pi4_usb_keyboard.h] and [pi4_usb_mouse.h]): [Hid], [HidSpec], [HidThms].  [HidDescr] reads a
      report descriptor as the list of fields its items describe, and is what the parser and the
      reader are compared with.
    - Stack-IR compiler ([src/src/hc_ir.h], [a64_emit.h]): [A64] holds the encoders and the
      instructions they encode, [A64Sem] the machine; [HcIr] the compiler; [HcIrSem] the meaning of a
      byte code ([ir_step]), its stack discipline ([well_typed]) and byte codes as lists of
      instructions.  [HcIrGen] and [HcIrLayout] say what the compiler writes, [HcIrRun], [HcIrBlocks]
      and [HcIrSim] what that does, [HcIrThms] puts them together and has the theorems.
      Floating-point arithmetic is the class [Fpu], the functions called are [HostFns], with [host_ok]
      for what AAPCS64 asks of them; the compiled code may use 192 bytes of stack.
    - HolyC front end ([src/src/hc_front.h]).  Expressions: [HcFront] holds the state, the lexer, the
      tables, literals, addresses and assignments to memory, [HcFrontPrim] the primary expressions
      with the table of built-in functions, [HcFrontOps] the operators, assignment and conditional
      expressions and the recursion.  [HcFrontCode] defines balanced code, [HcFrontSpec] the program
      logic of a parser's run, [HcFrontRun] runs every parser in it, [HcFrontThms] concludes.
      [HcFrontExpr] is the grammar, the value and the code of integer expressions, and runs that
      code, [HcFrontExprRun] reads expressions, and [HcFrontCompile] prints them and composes the
      front end with the stack-IR compiler: from the text of an expression to its value in X0.
      Statements and files: [HcFrontStmt] holds every statement, [HcFrontFile] parameters,
      functions, file-scope declarations and [hc_front_compile_ex].  [HcFrontStmtSpec] says what a
      function's code with its loops, switches and labels is and what a statement's run promises,
      [HcFrontTables] does the declaration tables; [HcFrontStmtRun] and [HcFrontFileRun] run every
      statement and the file, [HcFrontFileThms] concludes.
    - Run-time heap ([src/src/zc/runtime.c], lines 104 to 757): [Arena] holds the block headers in
      memory, the two lists through them, and every operation of [malloc] and [free].  [ArenaSpec]
      is a list of cells, the headers it has in memory and the reference allocator; [ArenaRun]
      moves single links, [ArenaOps] runs allocation and release on a list, [ArenaThms] has
      the invariant with the accounts of the heaps and keeps it through sequences of requests, and
      [ArenaProps] concludes.
    - Compiler checkpoints (the same file, lines 5440 to 5543): [ArenaCheckpoint] saves and restores
      both arenas, the accounts and the parser's task; [ArenaRollback] proves that a restored
      checkpoint undoes whatever happened to the arenas, the stacks apart.
    - RedSea root file system (the [rs_] functions of [src/src/kernel_stub.c] and the block requests
      under them): [RedSea] holds the operations, over a device that answers each request with
      [Served], [Refused] (no effect) or [Lost] (done, but reported as failed).  [RedSeaVol] says what
      a bitmap, a directory and a sound volume are and which map from names to contents a volume
      has, [RedSeaThms] and [RedSeaNames] run every operation on it, and [RedSeaProps] concludes,
      for devices that never answer [Lost], and shows what fails without an error handler.
    - Disk installer ([zinstall] of [src/src/kernel_stub.c]): [Zinstall] validates an image of
      extents, writes it over a disk and reads the disk back; the medium is a function from
      addresses to bytes, and which requests the device serves and what it does to the medium are
      arbitrary.  [ZinstallThms]: the success message is printed only when the disk holds the image,
      with zeros between the extents, and on an answering device a valid image is installed.
    - HolyC preprocessor ([hc_expand_includes] and its helpers, same file): [HcMacro] inserts
      included files, from an argument that stands for the RedSea root, and replaces macros pass
      by pass.  [HcMacroThms] says what the text of a run is: the files in the order
      of their [#include] lines ([included]), and rounds of replacement ([subst], [rounds]) up to a
      text in which no macro is left ([clean]).
    - HolyC's string, formatting and heap functions (the [hc_builtin_] functions, same file):
      [HcStr], over a memory of bytes; a signed integer that overflows is a run without a result.
      [HcStrThms]: numbers are read as they are printed, a format writes what it asks for and
      nothing else, blocks of a program's heap are apart.

    ** Modelling

    A machine word is a [Z] with its width's wrap-around written out ([u8], [u32], [u64] below).
    Stateful code is a state monad over a record of the globals it uses ([SM] below), fallible code an
    option or a sum, the front end's parsers a monad with the outcomes [Done], [Bad] (the code's -1),
    [Wild] (a store behind an array that the code goes on from) and [NoFuel].  Loops that are not structural take fuel: as many turns as the input has bytes or
    the structure has entries, and every theorem is about the fuel the definition itself supplies, so
    that running out is excluded by proof: by termination theorems of their own or as part of the
    theorem on the result.  The recursion of the expression parser has twice the characters left, plus
    four, that of statements one more than the characters left; a walk over the blocks of an arena
    has 2^27 turns, more than an arena can have blocks.  The walks of [HcStr] over NUL-terminated
    strings take the fuel as an argument: their theorems ask for more than the characters there are.
    The addresses the linker fixes are arguments.

    ** Not modelled

    Of [hc_front.h], the copy of the globals' words to the kernel and the callback that compiles a
    function at once, an argument of the file's model; the block driver [virtio_blk.h], the virtio
    input devices and the xHCI host controller (device protocols over memory-mapped registers); the
    descriptor validator of the USB bus; the rest of the run-time library [zc/runtime.c] (bindings
    to the guest's objects, tasks, documents), [libc.c], the floating-point library, the formatting
    of floating-point numbers and of [GrPrint]; the rest of [kernel_stub.c] (a shell, drawing and
    glue around the parts above); the boot loader's ELF and UEFI code; fonts, vendored and upstream
    trees, which are not part of the program's own logic. *)

From Stdlib Require Export Ascii String.
From Stdlib Require Export ZArith Lia Bool.
From stdpp Require Export base tactics list numbers option.
#[export] Set Default Goal Selector "!".
#[global] Open Scope Z_scope.
#[global] Open Scope list_scope.

(** ** Machine words

    A [w]-bit C integer is a [Z]; [u8], [u16], [u32] and [u64] are the conversions the
    source performs when it stores into, or computes at, that width. *)

Definition wrap (w x : Z) : Z := x mod 2 ^ w.
Definition u8 (x : Z) : Z := wrap 8 x.
Definition u16 (x : Z) : Z := wrap 16 x.
Definition u32 (x : Z) : Z := wrap 32 x.
Definition u64 (x : Z) : Z := wrap 64 x.

Definition UINT32_MAX : Z := 4294967295.
Definition UINT64_MAX : Z := 18446744073709551615.

(** The signed value of a [w]-bit pattern (two's complement). *)
Definition signed (w x : Z) : Z :=
  let y := wrap w x in if y <? 2 ^ (w - 1) then y else y - 2 ^ w.

(** [is_u w x]: [x] is the value of an unsigned [w]-bit integer. *)
Definition is_u (w x : Z) : Prop := 0 <= x < 2 ^ w.

(** C truth values: [x & mask] used as a condition. *)
Definition has (x mask : Z) : bool := negb (Z.land x mask =? 0).

(** A property of the accumulator that every step keeps. *)
Lemma fold_left_inv {A B} (P : A -> Prop) (Q : B -> Prop) (f : A -> B -> A) :
  (forall a b, P a -> Q b -> P (f a b)) ->
  forall l, Forall Q l -> forall a, P a -> P (fold_left f l a).
Proof.
  intros Hf l Hl. induction Hl as [|b l Hb Hl IH]; intros a Ha; [exact Ha|].
  apply IH. apply Hf; assumption.
Qed.

(** ** Bytes

    A byte buffer is a [list Z]; [bytes_ok] says every element is a [uint8_t]. *)

Definition bytes_ok (l : list Z) : Prop := Forall (is_u 8) l.

(** [byte_at p i] is [p\[i\]].  Every use in a model is at an index the buffer has; where the
    index is computed from data the model uses [l !! i] and the access can fail. *)
Definition byte_at (p : list Z) (i : Z) : Z := nth (Z.to_nat i) p 0.

Definition bytes_of_string (s : String.string) : list Z :=
  map (fun a => Z.of_N (Ascii.N_of_ascii a)) (String.list_ascii_of_string s).

(** The C string held by a buffer: its bytes up to the first NUL. *)
Fixpoint cstr (l : list Z) : list Z :=
  match l with
  | [] => []
  | c :: l' => if c =? 0 then [] else c :: cstr l'
  end.

Definition zeros (n : nat) : list Z := repeat 0 n.

Definition all_zero (l : list Z) : bool := forallb (fun b => b =? 0) l.

(** [write_at l i xs]: [for (j...) l\[i+j\] = xs\[j\]], for indices inside [l]. *)
Fixpoint write_at (l : list Z) (i : nat) (xs : list Z) : list Z :=
  match xs with
  | [] => l
  | x :: xs' => write_at (<[i := x]> l) (S i) xs'
  end.

(** ** Lemmas on words *)

Create HintDb words.
Create Rewrite HintDb word_rw.

Lemma wrap_range w x : 0 <= w -> is_u w (wrap w x).
Proof. intros. unfold is_u, wrap. apply Z.mod_pos_bound. apply Z.pow_pos_nonneg; lia. Qed.

Lemma wrap_id w x : is_u w x -> wrap w x = x.
Proof. intros. unfold wrap. apply Z.mod_small. exact H. Qed.

Lemma u8_range x : 0 <= u8 x < 256.
Proof. apply (wrap_range 8 x). lia. Qed.
Lemma u16_range x : 0 <= u16 x < 65536.
Proof. apply (wrap_range 16 x). lia. Qed.
Lemma u32_range x : 0 <= u32 x < 4294967296.
Proof. apply (wrap_range 32 x). lia. Qed.
Lemma u64_range x : 0 <= u64 x < 18446744073709551616.
Proof. apply (wrap_range 64 x). lia. Qed.

Lemma u8_id x : 0 <= x < 256 -> u8 x = x.
Proof. apply (wrap_id 8 x). Qed.
Lemma u16_id x : 0 <= x < 65536 -> u16 x = x.
Proof. apply (wrap_id 16 x). Qed.
Lemma u32_id x : 0 <= x < 4294967296 -> u32 x = x.
Proof. apply (wrap_id 32 x). Qed.
Lemma u64_id x : 0 <= x < 18446744073709551616 -> u64 x = x.
Proof. apply (wrap_id 64 x). Qed.

#[export] Hint Resolve u8_range u16_range u32_range u64_range : words.
#[export] Hint Rewrite u8_id u16_id u32_id u64_id using lia : word_rw.

(** [word_lia]: [lia] that first states the range of every conversion in sight. *)
Ltac word_ranges :=
  repeat match goal with
  | |- context [u8 ?x] => lazymatch goal with
      | _ : 0 <= u8 x < 256 |- _ => fail | _ => pose proof (u8_range x) end
  | |- context [u16 ?x] => lazymatch goal with
      | _ : 0 <= u16 x < 65536 |- _ => fail | _ => pose proof (u16_range x) end
  | |- context [u32 ?x] => lazymatch goal with
      | _ : 0 <= u32 x < 4294967296 |- _ => fail | _ => pose proof (u32_range x) end
  | |- context [u64 ?x] => lazymatch goal with
      | _ : 0 <= u64 x < 18446744073709551616 |- _ => fail | _ => pose proof (u64_range x) end
  end.
Ltac word_lia := word_ranges; lia.

(** Disjoint [|] is addition. *)
Lemma lor_shiftl_add a b k :
  0 <= k -> 0 <= a < 2 ^ k -> Z.lor a (Z.shiftl b k) = a + b * 2 ^ k.
Proof.
  intros Hk Ha. rewrite Z.shiftl_mul_pow2 by lia.
  assert (Hd : Z.land a (b * 2 ^ k) = 0).
  { apply Z.bits_inj'. intros i Hi. rewrite Z.land_spec, Z.bits_0.
    destruct (Z.lt_ge_cases i k).
    - rewrite Z.mul_pow2_bits_low by lia. apply andb_false_r.
    - rewrite <- (Z.mod_small a (2 ^ k)) by lia.
      rewrite Z.mod_pow2_bits_high by lia. reflexivity. }
  pose proof (Z.add_lor_land a (b * 2 ^ k)). lia.
Qed.

Lemma land_ones_mod x k : 0 <= k -> Z.land x (2 ^ k - 1) = x mod 2 ^ k.
Proof. intros. rewrite <- Z.land_ones by lia. f_equal. rewrite Z.ones_equiv. lia. Qed.

Lemma shiftr_div x k : 0 <= k -> Z.shiftr x k = x / 2 ^ k.
Proof. intros. apply Z.shiftr_div_pow2. lia. Qed.

Lemma testbit_above w x i : is_u w x -> 0 <= w <= i -> Z.testbit x i = false.
Proof.
  unfold is_u. intros Hx Hi. rewrite <- (Z.mod_small x (2 ^ w)) by lia.
  apply Z.mod_pow2_bits_high. lia.
Qed.

Lemma is_u_of_bits w x :
  0 <= w -> 0 <= x -> (forall i, w <= i -> Z.testbit x i = false) -> is_u w x.
Proof.
  intros Hw Hx Hb. unfold is_u. split; [lia|].
  destruct (Z.eq_dec x 0) as [->|Hn]; [apply Z.pow_pos_nonneg; lia|].
  apply Z.log2_lt_pow2; [lia|].
  destruct (Z.lt_ge_cases (Z.log2 x) w) as [|Hge]; [assumption|].
  specialize (Hb _ Hge). rewrite Z.bit_log2 in Hb by lia. discriminate.
Qed.

(** ** Lemmas on buffers *)

Create HintDb buf.

Lemma bytes_ok_app l1 l2 : bytes_ok (l1 ++ l2) <-> bytes_ok l1 /\ bytes_ok l2.
Proof. unfold bytes_ok. apply Forall_app. Qed.

Lemma bytes_ok_take n l : bytes_ok l -> bytes_ok (take n l).
Proof. apply Forall_take. Qed.

Lemma bytes_ok_drop n l : bytes_ok l -> bytes_ok (drop n l).
Proof. apply Forall_drop. Qed.

Lemma bytes_ok_insert l i x : bytes_ok l -> is_u 8 x -> bytes_ok (<[i := x]> l).
Proof. intros. apply Forall_insert; assumption. Qed.

Lemma bytes_ok_zeros n : bytes_ok (zeros n).
Proof. induction n; constructor; [split; lia | assumption]. Qed.

Lemma u8_is_u x : is_u 8 (u8 x).
Proof. apply wrap_range. lia. Qed.

#[export] Hint Resolve bytes_ok_take bytes_ok_drop bytes_ok_insert bytes_ok_zeros u8_is_u : buf.

Lemma byte_at_is_u l i : bytes_ok l -> is_u 8 (byte_at l i).
Proof.
  intros H. unfold byte_at. destruct (nth_in_or_default (Z.to_nat i) l 0) as [Hin| ->].
  - unfold bytes_ok in H. rewrite List.Forall_forall in H. auto.
  - split; lia.
Qed.

Lemma byte_at_range l i : bytes_ok l -> 0 <= byte_at l i < 256.
Proof. apply byte_at_is_u. Qed.

Lemma byte_at_lookup l i : 0 <= i -> byte_at l i = default 0 (l !! Z.to_nat i).
Proof. intros. unfold byte_at. rewrite nth_lookup. reflexivity. Qed.

Lemma byte_at_nth l (i : nat) : byte_at l (Z.of_nat i) = nth i l 0.
Proof. unfold byte_at. rewrite Nat2Z.id. reflexivity. Qed.

Lemma byte_at_drop l n i : 0 <= i -> byte_at (drop n l) i = byte_at l (Z.of_nat n + i).
Proof.
  intros. rewrite !byte_at_lookup by lia. rewrite lookup_drop. do 2 f_equal. lia.
Qed.

Lemma length_zeros n : length (zeros n) = n.
Proof. apply repeat_length. Qed.

Lemma length_write_at xs : forall l i, length (write_at l i xs) = length l.
Proof. induction xs; intros; cbn; [reflexivity|]. rewrite IHxs. apply length_insert. Qed.

Lemma write_at_lookup_lt xs : forall l i j, (j < i)%nat -> write_at l i xs !! j = l !! j.
Proof.
  induction xs as [|x xs IH]; intros l i j Hj; cbn; [reflexivity|].
  rewrite IH by lia. apply list_lookup_insert_ne. lia.
Qed.

Lemma write_at_lookup_ge xs : forall l i j,
  (i + length xs <= j)%nat -> write_at l i xs !! j = l !! j.
Proof.
  induction xs as [|x xs IH]; intros l i j Hj; cbn in *; [reflexivity|].
  rewrite IH by lia. apply list_lookup_insert_ne. lia.
Qed.

Lemma write_at_lookup_in xs : forall l i j,
  (i <= j < i + length xs)%nat -> (i + length xs <= length l)%nat ->
  write_at l i xs !! j = xs !! (j - i)%nat.
Proof.
  induction xs as [|x xs IH]; intros l i j Hj Hl; cbn in *; [lia|].
  destruct (decide (j = i)) as [->|Hne].
  - rewrite write_at_lookup_lt by lia. rewrite Nat.sub_diag. cbn.
    apply list_lookup_insert_eq. lia.
  - rewrite IH by (rewrite ?length_insert; lia).
    replace (j - i)%nat with (S (j - S i)) by lia. reflexivity.
Qed.

(** Overwriting a slice of the same length. *)
Lemma write_at_app xs : forall p b a,
  length b = length xs -> write_at (p ++ b ++ a) (length p) xs = p ++ xs ++ a.
Proof.
  induction xs as [|x xs IH]; intros p b a Hb; destruct b as [|y b]; cbn in Hb; try lia.
  - reflexivity.
  - cbn. rewrite insert_app_r_alt by lia. rewrite Nat.sub_diag. cbn.
    replace (p ++ x :: b ++ a) with ((p ++ [x]) ++ b ++ a) by (rewrite <- app_assoc; reflexivity).
    replace (S (length p)) with (length (p ++ [x])) by (rewrite length_app; cbn; lia).
    rewrite IH by lia. rewrite <- app_assoc. reflexivity.
Qed.

Lemma bytes_ok_write_at xs : forall l i, bytes_ok l -> bytes_ok xs -> bytes_ok (write_at l i xs).
Proof.
  induction xs as [|x xs IH]; intros l i Hl Hx; cbn; [assumption|].
  inversion Hx; subst. apply IH; auto with buf.
Qed.
#[export] Hint Resolve bytes_ok_write_at : buf.

Lemma length_insert_bytes (l : list Z) i x : length (<[i := x]> l) = length l.
Proof. apply length_insert. Qed.

Create Rewrite HintDb buflen.
#[export] Hint Rewrite length_write_at length_zeros length_insert_bytes : buflen.

Lemma all_zero_spec l : all_zero l = true <-> l = zeros (length l).
Proof.
  unfold all_zero, zeros. induction l as [|b l IH]; cbn; [tauto|].
  rewrite andb_true_iff, IH, Z.eqb_eq. split.
  - intros [-> H]. f_equal. exact H.
  - intros H. injection H as -> H. auto.
Qed.

(** ** Lemmas on C strings *)

Lemma cstr_no_nul l : Forall (fun c => c <> 0) l -> cstr l = l.
Proof.
  induction 1 as [|c l Hc Hl IH]; [reflexivity|]. cbn.
  destruct (c =? 0) eqn:E; [lia|]. congruence.
Qed.

Lemma cstr_length l : (length (cstr l) <= length l)%nat.
Proof. induction l as [|c l IH]; cbn; [lia|]. destruct (c =? 0); cbn; lia. Qed.

Lemma cstr_nonzero l : Forall (fun c => c <> 0) (cstr l).
Proof.
  induction l as [|c l IH]; cbn; [constructor|].
  destruct (c =? 0) eqn:E; constructor; [lia | assumption].
Qed.

(** ** Little- and big-endian integers *)

Definition le16 (p : list Z) (o : Z) : Z :=
  Z.lor (byte_at p o) (Z.shiftl (byte_at p (o + 1)) 8).

Lemma lor2_bytes a b : 0 <= a < 256 -> Z.lor a (Z.shiftl b 8) = a + b * 256.
Proof. intros. apply (lor_shiftl_add a b 8); lia. Qed.

Lemma lor3_bytes a b c : 0 <= a < 256 -> 0 <= b < 256 ->
  Z.lor (Z.lor a (Z.shiftl b 8)) (Z.shiftl c 16) = a + b * 256 + c * 65536.
Proof. intros. rewrite lor2_bytes by lia. apply (lor_shiftl_add _ c 16); lia. Qed.

Lemma lor4_bytes a b c d : 0 <= a < 256 -> 0 <= b < 256 -> 0 <= c < 256 ->
  Z.lor (Z.lor (Z.lor a (Z.shiftl b 8)) (Z.shiftl c 16)) (Z.shiftl d 24)
  = a + b * 256 + c * 65536 + d * 16777216.
Proof. intros. rewrite lor3_bytes by lia. apply (lor_shiftl_add _ d 24); lia. Qed.

(** ** Tactics shared by the components *)

(** Split boolean conjunctions and disjunctions in the hypotheses. *)
Ltac bool_hyps :=
  repeat match goal with
  | H : (_ && _)%bool = true |- _ => apply andb_true_iff in H; destruct H
  | H : (_ || _)%bool = false |- _ => apply orb_false_iff in H; destruct H
  | H : negb _ = true |- _ => apply negb_true_iff in H
  | H : negb _ = false |- _ => apply negb_false_iff in H
  end.

(** Comparisons on [Z] in the hypotheses, as propositions. *)
Ltac zbool :=
  repeat match goal with
  | H : (_ =? _) = true |- _ => apply Z.eqb_eq in H
  | H : (_ =? _) = false |- _ => apply Z.eqb_neq in H
  | H : (_ <=? _) = true |- _ => apply Z.leb_le in H
  | H : (_ <=? _) = false |- _ => apply Z.leb_gt in H
  | H : (_ <? _) = true |- _ => apply Z.ltb_lt in H
  | H : (_ <? _) = false |- _ => apply Z.ltb_ge in H
  end.

(** Case analysis on the conditions the code tests. *)
Ltac case_if :=
  match goal with
  | |- context [if ?b then _ else _] =>
      lazymatch type of b with bool => destruct b eqn:? end
  | H : context [if ?b then _ else _] |- _ =>
      lazymatch type of b with bool => destruct b eqn:? end
  end.

(** ** Stateful code

    A C function that reads and writes the state [S] and returns an [A]: [None] is a run that
    does not return (a loop whose fuel is spent), so a theorem that a result is [Some] is a
    termination theorem. *)

Definition SM (S A : Type) : Type := S -> option (A * S).

Definition ret {S A} (a : A) : SM S A := fun s => Some (a, s).
Definition bind {S A B} (m : SM S A) (k : A -> SM S B) : SM S B :=
  fun s => match m s with Some (a, s') => k a s' | None => None end.
Definition gets {S A} (f : S -> A) : SM S A := fun s => Some (f s, s).
Definition modify {S} (f : S -> S) : SM S unit := fun s => Some (tt, f s).
Definition diverge {S A} : SM S A := fun _ => None.

Declare Scope sm_scope.
Delimit Scope sm_scope with sm.
Notation "'let!' x ':=' m 'in' k" := (bind m (fun x => k))
  (at level 10, x pattern, m at level 100, k at level 200) : sm_scope.
Notation "m ;; k" := (bind m (fun _ => k))
  (at level 100, k at level 200, right associativity) : sm_scope.

Lemma bind_inv {S A B} (m : SM S A) (k : A -> SM S B) s r :
  bind m k s = Some r -> exists a s', m s = Some (a, s') /\ k a s' = Some r.
Proof. unfold bind. destruct (m s) as [[a s']|]; [eauto | discriminate]. Qed.

Lemma bind_some {S A B} (m : SM S A) (k : A -> SM S B) s a s' :
  m s = Some (a, s') -> bind m k s = k a s'.
Proof. unfold bind. intros ->. reflexivity. Qed.

Lemma bind_gets {S A B} (f : S -> A) (k : A -> SM S B) s : bind (gets f) k s = k (f s) s.
Proof. reflexivity. Qed.
