(* ===== verification/BlockDev.v ===== *)
(** * The absolute block interface

    What [src/src/zc_source_store.h] uses of the block driver, as a class: the driver's state,
    its absolute single-sector requests and its flush, and the laws the source store relies on.
    [src/src/virtio_blk.h] implements it, and is not modelled; [Ram] is a concrete fail-stop disk
    with a volatile write cache, used by the witnesses. *)

From stdpp Require Import gmap.
From S2P Require Import Prelude.

(** A sector buffer: [uint8_t\[512\]]. *)
Abbreviation sector := (list Z).
Abbreviation SECT := 512%nat.

Definition sector_ok (s : sector) : Prop := length s = SECT /\ bytes_ok s.

(** What the disk holds, by absolute LBA. *)
Abbreviation image := (Z -> sector).

Definition upd (v : image) (lba : Z) (s : sector) : image :=
  fun i => if i =? lba then s else v i.

(** Extensional equality of disk images. *)
Definition image_eq (v w : image) : Prop := forall i, v i = w i.
Infix "==i" := image_eq (at level 70).

#[export] Instance image_eq_equiv : Equivalence image_eq.
Proof.
  split.
  - intros v i. reflexivity.
  - intros v w H i. symmetry. apply H.
  - intros u v w H1 H2 i. rewrite (H1 i). apply H2.
Qed.

#[export] Instance upd_proper : Proper (image_eq ==> eq ==> eq ==> image_eq) upd.
Proof. intros v w H a ? <- s ? <- i. unfold upd. destruct (i =? a); auto. Qed.

Lemma upd_eq v a s : upd v a s a = s.
Proof. unfold upd. rewrite Z.eqb_refl. reflexivity. Qed.

Lemma upd_ne v a s i : i <> a -> upd v a s i = v i.
Proof. intros. unfold upd. destruct (Z.eqb_spec i a); [contradiction | reflexivity]. Qed.

(** ** Operations *)

Class BlockDev (D : Type) := {
  virtio_blk_ready : D -> bool;
  xport_pci : D -> bool;                    (* g_vb.xport == VB_XPORT_PCI *)
  full_capacity : D -> Z;                   (* g_vb.full_capacity *)
  flush_supported : D -> bool;              (* g_vb.flush_supported *)
  virtio_blk_read_abs : Z -> D -> option sector * D;   (* [None]: returned 0 *)
  virtio_blk_write_abs : Z -> sector -> D -> bool * D;
  virtio_blk_flush_abs : D -> bool * D }.

(** The part of the driver's state the requests do not change. *)
Record dev_attrs := { at_ready : bool; at_pci : bool; at_capacity : Z; at_flush : bool }.

Definition attrs `{BlockDev D} (d : D) : dev_attrs :=
  {| at_ready := virtio_blk_ready d; at_pci := xport_pci d;
     at_capacity := full_capacity d; at_flush := flush_supported d |}.

Definition in_range `{BlockDev D} (d : D) (lba : Z) : Prop := 0 <= lba < full_capacity d.

(** ** Laws

    [view d] is what reads return; [crash d v] says a power loss in state [d] can leave the
    image [v] on the medium: acknowledged writes may still sit in a volatile cache until a
    flush succeeds, and a single sector is written entirely or not at all.  [alive d] is false
    once a request has failed: from then on nothing reaches the medium. *)
Class BlockDevView (D : Type) := {
  view : D -> image;
  crash : D -> image -> Prop;
  alive : D -> bool;
  dev_wf : D -> Prop }.

(** The device answers absolute requests for [lba]. *)
Definition usable `{BlockDev D} (d : D) (lba : Z) : Prop :=
  virtio_blk_ready d = true /\ xport_pci d = true /\ 0 <= lba < full_capacity d.

Record read_spec `{BlockDev D, BlockDevView D} (lba : Z) (d : D) (r : option sector) (d' : D)
    : Prop := {
  rd_wf : dev_wf d';
  rd_attrs : attrs d' = attrs d;
  rd_view : view d' ==i view d;
  rd_crash : forall v, crash d' v -> crash d v;
  rd_value : forall s, r = Some s -> s = view d lba;
  rd_alive : alive d' = true -> alive d = true;
  rd_total : alive d' = true -> usable d lba -> r = Some (view d lba);
  rd_dead : alive d = false -> r = None }.

Record write_spec `{BlockDev D, BlockDevView D} (lba : Z) (s : sector) (d : D) (ok : bool) (d' : D)
    : Prop := {
  wr_wf : dev_wf d';
  wr_attrs : attrs d' = attrs d;
  wr_view : ok = true -> view d' ==i upd (view d) lba s;
  wr_view_fail : ok = false -> view d' ==i view d \/ view d' ==i upd (view d) lba s;
  wr_crash : forall v, crash d' v ->
    exists v0, crash d v0 /\ (v ==i v0 \/ (alive d = true /\ v ==i upd v0 lba s));
  wr_alive : alive d' = true -> alive d = true;
  wr_total : alive d' = true -> usable d lba -> ok = true;
  wr_dead : alive d = false -> ok = false }.

Record flush_spec `{BlockDev D, BlockDevView D} (d : D) (ok : bool) (d' : D) : Prop := {
  fl_wf : dev_wf d';
  fl_attrs : attrs d' = attrs d;
  fl_view : view d' ==i view d;
  fl_crash : forall v, crash d' v -> crash d v;
  fl_synced : ok = true -> forall v, crash d' v -> v ==i view d';
  fl_alive : alive d' = true -> alive d = true;
  fl_total : alive d' = true -> virtio_blk_ready d = true -> xport_pci d = true ->
    flush_supported d = true -> ok = true;
  fl_dead : alive d = false -> ok = false }.

Class BlockDevLaws (D : Type) `{BlockDev D, BlockDevView D} := {
  view_ok : forall d i, dev_wf d -> sector_ok (view d i);
  crash_view : forall d, dev_wf d -> crash d (view d);
  write_through : forall d v, dev_wf d -> flush_supported d = false -> crash d v -> v ==i view d;
  read_law : forall lba d r d', dev_wf d ->
    virtio_blk_read_abs lba d = (r, d') -> read_spec lba d r d';
  write_law : forall lba s d ok d', dev_wf d -> sector_ok s ->
    virtio_blk_write_abs lba s d = (ok, d') -> write_spec lba s d ok d';
  flush_law : forall d ok d', dev_wf d ->
    virtio_blk_flush_abs d = (ok, d') -> flush_spec d ok d' }.

(** Everything acknowledged has reached the medium. *)
Definition synced `{BlockDevView D} (d : D) : Prop := forall v, crash d v -> v ==i view d.

(** ** A fail-stop disk with a volatile write cache

    [ram_cache] holds the acknowledged writes, newest first; [ram_power] is the number of
    requests the disk still serves before the power is lost. *)
Record ram := {
  ram_media : gmap Z sector;
  ram_cache : list (Z * sector);
  ram_power : nat;
  ram_attrs : dev_attrs }.

Definition blank : sector := zeros SECT.

Definition media_image (m : gmap Z sector) : image := fun i => default blank (m !! i).

Fixpoint apply_writes (ws : list (Z * sector)) (v : image) : image :=
  match ws with
  | [] => v
  | (a, s) :: ws' => upd (apply_writes ws' v) a s
  end.

Definition ram_view (d : ram) : image := apply_writes (ram_cache d) (media_image (ram_media d)).

Definition ram_usable (d : ram) (lba : Z) : bool :=
  at_ready (ram_attrs d) && at_pci (ram_attrs d) && (0 <=? lba) && (lba <? at_capacity (ram_attrs d)).

Definition ram_spend (d : ram) : ram :=
  {| ram_media := ram_media d; ram_cache := ram_cache d;
     ram_power := pred (ram_power d); ram_attrs := ram_attrs d |}.

Definition ram_dead (d : ram) : ram :=
  {| ram_media := ram_media d; ram_cache := ram_cache d;
     ram_power := 0; ram_attrs := ram_attrs d |}.

Definition ram_on (d : ram) : bool := match ram_power d with O => false | S _ => true end.

Definition ram_read (lba : Z) (d : ram) : option sector * ram :=
  if ram_usable d lba then
    match ram_power d with
    | S (S _) => (Some (ram_view d lba), ram_spend d)
    | _ => (None, ram_dead d)
    end
  else (None, d).

Definition ram_write (lba : Z) (s : sector) (d : ram) : bool * ram :=
  if ram_usable d lba then
    match ram_power d with
    | S (S n) =>
        let d' := ram_spend d in
        if at_flush (ram_attrs d) then
          (true, {| ram_media := ram_media d'; ram_cache := (lba, s) :: ram_cache d';
                    ram_power := ram_power d'; ram_attrs := ram_attrs d' |})
        else
          (true, {| ram_media := <[lba := s]> (ram_media d'); ram_cache := ram_cache d';
                    ram_power := ram_power d'; ram_attrs := ram_attrs d' |})
    | _ => (false, ram_dead d)
    end
  else (false, d).

Definition ram_flush (d : ram) : bool * ram :=
  if at_ready (ram_attrs d) && at_pci (ram_attrs d) && at_flush (ram_attrs d) then
    match ram_power d with
    | S (S n) =>
        (true, {| ram_media := foldr (fun w m => <[w.1 := w.2]> m) (ram_media d) (ram_cache d);
                  ram_cache := []; ram_power := S n; ram_attrs := ram_attrs d |})
    | _ => (false, ram_dead d)
    end
  else (false, d).

#[export] Instance ram_dev : BlockDev ram := {|
  virtio_blk_ready d := at_ready (ram_attrs d);
  xport_pci d := at_pci (ram_attrs d);
  full_capacity d := at_capacity (ram_attrs d);
  flush_supported d := at_flush (ram_attrs d);
  virtio_blk_read_abs := ram_read;
  virtio_blk_write_abs := ram_write;
  virtio_blk_flush_abs := ram_flush |}.

(** What can survive a power loss: any sub-sequence of the cached writes, in order. *)
Definition ram_crash (d : ram) (v : image) : Prop :=
  exists ws, sublist ws (ram_cache d) /\ v ==i apply_writes ws (media_image (ram_media d)).

Definition ram_wf (d : ram) : Prop :=
  (forall a s, ram_media d !! a = Some s -> sector_ok s) /\
  Forall (fun w => sector_ok w.2) (ram_cache d) /\
  (at_flush (ram_attrs d) = false -> ram_cache d = []).

#[export] Instance ram_dev_view : BlockDevView ram := {|
  view := ram_view; crash := ram_crash; alive := ram_on; dev_wf := ram_wf |}.

Lemma apply_writes_proper ws v w : v ==i w -> apply_writes ws v ==i apply_writes ws w.
Proof.
  intros H. induction ws as [|[a s] ws IH]; [exact H|]. cbn. intros i. unfold upd.
  destruct (i =? a); [reflexivity | apply IH].
Qed.

Lemma media_insert m a s : media_image (<[a := s]> m) ==i upd (media_image m) a s.
Proof.
  intros i. unfold media_image, upd. destruct (Z.eqb_spec i a) as [->|Hne].
  - rewrite lookup_insert_eq. reflexivity.
  - rewrite lookup_insert_ne by congruence. reflexivity.
Qed.

(** Flushing the cache leaves the medium as reads already showed it. *)
Lemma media_flush ws m :
  media_image (foldr (fun w m => <[w.1 := w.2]> m) m ws) ==i apply_writes ws (media_image m).
Proof.
  induction ws as [|[a s] ws IH]; cbn; [reflexivity|].
  rewrite media_insert, IH. reflexivity.
Qed.

Lemma blank_ok : sector_ok blank.
Proof. split; [apply length_zeros | apply bytes_ok_zeros]. Qed.

Lemma media_image_ok m :
  (forall a s, m !! a = Some s -> sector_ok s) -> forall i, sector_ok (media_image m i).
Proof.
  intros H i. unfold media_image. destruct (m !! i) eqn:E; cbn; [eauto | apply blank_ok].
Qed.

Lemma apply_writes_ok ws v :
  Forall (fun w => sector_ok w.2) ws -> (forall i, sector_ok (v i)) ->
  forall i, sector_ok (apply_writes ws v i).
Proof.
  intros Hw Hv. induction Hw as [|[a s] ws Hs Hw IH]; [exact Hv|]. cbn. intros i.
  unfold upd. destruct (i =? a); [exact Hs | apply IH].
Qed.

Lemma ram_usable_true d a : ram_usable d a = true <-> usable d a.
Proof.
  unfold ram_usable, usable. cbn. rewrite !andb_true_iff, Z.leb_le, Z.ltb_lt. tauto.
Qed.

Lemma ram_read_law lba d r d' :
  ram_wf d -> ram_read lba d = (r, d') -> read_spec lba d r d'.
Proof.
  intros Hwf. unfold ram_read. destruct (ram_usable d lba) eqn:Hu.
  2: { intros [= <- <-]. split; auto; try reflexivity; try discriminate.
       intros _ H. apply ram_usable_true in H. congruence. }
  destruct (ram_power d) as [|[|n]] eqn:Hp; intros [= <- <-];
    (split; cbn; unfold ram_on, ram_spend, ram_dead; cbn; auto;
     try reflexivity; try discriminate; try (rewrite Hp; auto; fail)).
  - intros s [= <-]. reflexivity.
  - unfold ram_on. rewrite Hp. discriminate.
Qed.

Lemma ram_write_law lba s d ok d' :
  ram_wf d -> sector_ok s -> ram_write lba s d = (ok, d') -> write_spec lba s d ok d'.
Proof.
  intros Hwf Hs. unfold ram_write. destruct (ram_usable d lba) eqn:Hu.
  2: { intros [= <- <-]. split; auto; try reflexivity; try discriminate.
       - left. reflexivity.
       - intros v Hv. exists v. split; [exact Hv | left; reflexivity].
       - intros _ H. apply ram_usable_true in H. congruence. }
  assert (Hdead : write_spec lba s d false (ram_dead d)).
  { split; cbn; try discriminate; try reflexivity; auto.
    - left. reflexivity.
    - intros v Hv. exists v. split; [exact Hv | left; reflexivity]. }
  destruct (ram_power d) as [|[|n]] eqn:Hp; [intros [= <- <-]; exact Hdead .. |].
  destruct Hwf as (Hm & Hc & Hf).
  destruct (at_flush (ram_attrs d)) eqn:Hfl; intros [= <- <-]; split; cbn; auto; try discriminate;
    try (unfold ram_on; cbn; rewrite Hp; auto; fail).
  - split; [exact Hm|]. split; [constructor; assumption | cbn; congruence].
  - reflexivity.
  - intros v (ws & Hsub & Hv). cbn in Hsub, Hv.
    inversion Hsub as [|? ws' ? Hsub'|? ? ? Hsub']; subst.
    + exists (apply_writes ws' (media_image (ram_media d))).
      split; [exists ws'; split; [exact Hsub' | reflexivity]|].
      right. split; [unfold ram_on; rewrite Hp; reflexivity | exact Hv].
    + exists v. split; [exists ws; split; assumption | left; reflexivity].
  - split; cbn; [|split; [exact Hc | auto]]. intros a' s'. rewrite lookup_insert.
    case_decide; [congruence | apply Hm].
  - intros _. unfold ram_view. cbn. rewrite (Hf eq_refl). cbn. apply media_insert.
  - intros v (ws & Hsub & Hv). cbn in Hsub, Hv. rewrite (Hf eq_refl) in Hsub.
    apply sublist_nil_r in Hsub. subst ws. cbn in Hv. rewrite media_insert in Hv.
    exists (media_image (ram_media d)). split.
    + exists []. split; [apply sublist_nil_l | reflexivity].
    + right. split; [unfold ram_on; rewrite Hp; reflexivity | exact Hv].
Qed.

Lemma ram_flush_law d ok d' :
  ram_wf d -> ram_flush d = (ok, d') -> flush_spec d ok d'.
Proof.
  intros Hwf. unfold ram_flush.
  destruct (at_ready (ram_attrs d) && at_pci (ram_attrs d) && at_flush (ram_attrs d)) eqn:Hu.
  2: { intros [= <- <-]. split; auto; try reflexivity; try discriminate.
       cbn. intros _ H1 H2 H3. rewrite H1, H2, H3 in Hu. discriminate. }
  destruct (ram_power d) as [|[|n]] eqn:Hp; intros [= <- <-].
  1,2: (split; cbn; auto; try reflexivity; try discriminate).
  destruct Hwf as (Hm & Hc & Hf).
  assert (Hview : media_image (foldr (fun w m => <[w.1 := w.2]> m) (ram_media d) (ram_cache d))
                  ==i ram_view d) by apply media_flush.
  split; cbn; auto; try discriminate.
  - split; [|split; [constructor | reflexivity]]. cbn. clear Hview Hf.
    revert Hm. induction Hc as [|[a s] ws Hs Hc IH]; cbn; intros Hm; [exact Hm|].
    cbn in Hs. intros a' s'. rewrite lookup_insert. case_decide; [congruence | apply (IH Hm)].
  - intros v (ws & Hsub & Hv). cbn in *. apply sublist_nil_r in Hsub. subst ws. cbn in Hv.
    exists (ram_cache d). split; [reflexivity|]. rewrite Hv. exact Hview.
  - intros _ v (ws & Hsub & Hv). cbn in *. apply sublist_nil_r in Hsub. subst ws. exact Hv.
  - intros _. unfold ram_on. rewrite Hp. reflexivity.
  - intros Ha. unfold ram_on in Ha. rewrite Hp in Ha. discriminate.
Qed.

#[export] Instance ram_laws : BlockDevLaws ram.
Proof.
  split.
  - intros d i (Hm & Hc & _). apply apply_writes_ok; [exact Hc | apply media_image_ok; exact Hm].
  - intros d _. exists (ram_cache d). split; reflexivity.
  - intros d v (_ & _ & Hf) Hfl (ws & Hsub & Hv). cbn in Hfl. rewrite (Hf Hfl) in Hsub.
    apply sublist_nil_r in Hsub. subst ws. rewrite Hv. unfold view. cbn. unfold ram_view.
    rewrite (Hf Hfl). reflexivity.
  - exact ram_read_law.
  - exact ram_write_law.
  - exact ram_flush_law.
Defined.
