(* ===== verification/SourceStore.v ===== *)
(** * The native source partition ([src/src/zc_source_store.h]): definitions

    An append-only log of records on one of two banks of the disk.  A record is a header sector
    (ZCFILE1 or the tombstone ZCDEL1) followed by its data sectors; the log ends at the first
    all-zero header.  State: the bank selected by [zss_available] and the cached catalogue. *)

From S2P Require Import Prelude BlockDev.
#[local] Open Scope sm_scope.

(** ** Constants ([src/src/disk_layout.h]) *)

Definition ZEAL_SRC_LBA_BASE : Z := 131039.
Definition ZEAL_SRC_SECTS : Z := 65536.
Definition ZEAL_SRC_SHADOW_LBA : Z := 196575.
Definition ZEAL_SRC_SHADOW_SECTS : Z := 65536.
Definition ZSS_MAX_FILE : Z := 4 * 1024 * 1024.
Definition ZSS_MAX_NAME : Z := 95.
Definition ZSS_CATALOG_CAP : Z := 4096.

(** A C string argument: its characters, without the final NUL. *)
Abbreviation cstring := (list Z).

Record zss_entry := mk_entry { header_sector : Z; e_length : Z; checksum : Z; blocks : Z }.

Record zss_catalog_item := mk_item { ci_name : cstring; ci_size : Z; ci_status : Z }.

(** ** Pure helpers *)

Definition zss_u32 (p : list Z) : Z :=
  Z.lor (Z.lor (Z.lor (byte_at p 0) (Z.shiftl (byte_at p 1) 8))
               (Z.shiftl (byte_at p 2) 16)) (Z.shiftl (byte_at p 3) 24).

Definition zss_w32 (p : list Z) (at_ : nat) (v : Z) : list Z :=
  write_at p at_ [u8 v; u8 (Z.shiftr v 8); u8 (Z.shiftr v 16); u8 (Z.shiftr v 24)].

Fixpoint zss_eq (p : list Z) (s : list Z) (n : nat) : bool :=
  match n with
  | O => true
  | S n' => if byte_at p 0 =? byte_at s 0 then zss_eq (drop 1 p) (drop 1 s) n' else false
  end.

Fixpoint zss_str_eq (a b : cstring) : bool :=
  match a, b with
  | [], [] => true
  | x :: a', y :: b' => (x =? y) && zss_str_eq a' b'
  | _, _ => false
  end.

Definition ch (a : Ascii.ascii) : Z := Z.of_N (Ascii.N_of_ascii a).
Definition SLASH : Z := 47.
Definition COLON : Z := 58.
Definition BACKSLASH : Z := 92.
Definition DOT : Z := 46.

(** First loop of [zss_name_ok]: [i] characters read, [segment] of them since the last slash. *)
Fixpoint zss_name_chars (s : cstring) (i segment : Z) : option (Z * Z) :=
  match s with
  | [] => Some (i, segment)
  | c :: s' =>
      let i := i + 1 in
      if (ZSS_MAX_NAME <? i) || (c <? 33) || (126 <? c) || (c =? COLON) || (c =? BACKSLASH)
      then None
      else if c =? SLASH then
        if segment =? 0 then None else zss_name_chars s' i 0
      else zss_name_chars s' i (segment + 1)
  end.

(** [while (end < i && s\[end\] != '/') end++], as the component read and what follows it. *)
Fixpoint zss_component (s : cstring) : cstring * cstring :=
  match s with
  | [] => ([], [])
  | c :: s' => if c =? SLASH then ([], s)
               else let '(w, r) := zss_component s' in (c :: w, r)
  end.

Definition zss_dots (w : cstring) : bool :=
  ((Z.of_nat (length w) =? 1) && (byte_at w 0 =? DOT)) ||
  ((Z.of_nat (length w) =? 2) && (byte_at w 0 =? DOT) && (byte_at w 1 =? DOT)).

(** Second loop: every component is read from [start]; [start = end + 1] drops the slash. *)
Fixpoint zss_no_dots (fuel : nat) (s : cstring) : bool :=
  match fuel, s with
  | _, [] => true
  | O, _ => true
  | S fuel', _ =>
      let '(w, r) := zss_component s in
      if zss_dots w then false else zss_no_dots fuel' (drop 1 r)
  end.

(** [Some len]: the name is accepted and [*out_len = len]. *)
Definition zss_name_ok (s : cstring) : option Z :=
  match s with
  | [] => None
  | _ =>
      match zss_name_chars s 0 0 with
      | None => None
      | Some (i, segment) =>
          if segment =? 0 then None
          else if zss_no_dots (length s) s then Some i else None
      end
  end.

Definition CRC_POLY : Z := 0xedb88320.

Definition zss_crc_bit (crc : Z) : Z :=
  Z.lxor (Z.shiftr crc 1) (Z.land CRC_POLY (u32 (0 - Z.land crc 1))).

Definition zss_crc_step (crc byte : Z) : Z := Nat.iter 8 zss_crc_bit (Z.lxor crc byte).

Definition zss_crc (data : list Z) (length : nat) : Z :=
  Z.lxor (fold_left zss_crc_step (take length data) 0xffffffff) 0xffffffff.

(** [(len + 511u) / 512u] *)
Definition blocks_of (len : Z) : Z := (len + 511) / 512.

(** ** Records *)

Definition ZCSRC001 : list Z := bytes_of_string "ZCSRC001"%string.
Definition ZCSRC002 : list Z := bytes_of_string "ZCSRC002"%string.
Definition ZCDEL1 : list Z := bytes_of_string "ZCDEL1"%string.
Definition ZCFILE1 : list Z := bytes_of_string "ZCFILE1"%string.

Definition zss_decode_record (g_zss_sectors : Z) (s : sector) (pos : Z)
    : option (zss_entry * cstring * bool) :=
  let length := zss_u32 (drop 8 s) in
  let checksum := zss_u32 (drop 12 s) in
  let blocks := zss_u32 (drop 16 s) in
  let name_len := zss_u32 (drop 20 s) in
  let is_delete := zss_eq s ZCDEL1 6 && (byte_at s 6 =? 0) && (byte_at s 7 =? 0) in
  let is_file := zss_eq s ZCFILE1 7 && (byte_at s 7 =? 0) in
  if (negb is_file && negb is_delete) || (name_len =? 0) || (ZSS_MAX_NAME <? name_len) ||
     (g_zss_sectors <? u32 (u32 (pos + 1) + blocks)) ||
     (if is_delete then negb (length =? 0) || negb (checksum =? 0) || negb (blocks =? 0)
      else (length =? 0) || (ZSS_MAX_FILE <? length) ||
           negb (blocks =? u32 (length + 511) / 512))
  then None
  else
    let name := cstr (take (Z.to_nat name_len) (drop 32 s)) in
    match zss_name_ok name with
    | None => None
    | Some _ => Some (mk_entry pos length checksum blocks, name, is_delete)
    end.

(** The header sector of a file record, as [zss_put] and [zss_stream_finish] build it. *)
Definition file_header (len checksum blocks name_len : Z) (name : list Z) : sector :=
  let s := zeros SECT in
  let s := write_at s 0 (take 7 ZCFILE1) in
  let s := zss_w32 s 8 len in
  let s := zss_w32 s 12 checksum in
  let s := zss_w32 s 16 blocks in
  let s := zss_w32 s 20 name_len in
  write_at s 32 name.

(** The tombstone of [zss_delete]: seven bytes of the literal, its NUL included. *)
Definition delete_header (name_len : Z) (name : list Z) : sector :=
  let s := zeros SECT in
  let s := write_at s 0 (take 7 (ZCDEL1 ++ [0])) in
  let s := zss_w32 s 20 name_len in
  write_at s 32 name.

(** The v2 superblock [zss_compact] commits. *)
Definition superblock_v2 (sectors generation : Z) : sector :=
  let s := zeros SECT in
  let s := write_at s 0 ZCSRC002 in
  let s := zss_w32 s 8 2 in
  let s := zss_w32 s 12 sectors in
  let s := zss_w32 s 16 generation in
  zss_w32 s 20 (zss_crc s 20).

(** What [zss_probe_bank] makes of the sector it has read. *)
Definition superblock_generation (sectors : Z) (sec : sector) : option Z :=
  if negb (zss_u32 (drop 12 sec) =? sectors) then None
  else if zss_eq sec ZCSRC001 8 && (zss_u32 (drop 8 sec) =? 1) then Some 0
  else if zss_eq sec ZCSRC002 8 && (zss_u32 (drop 8 sec) =? 2) &&
          (zss_u32 (drop 20 sec) =? zss_crc sec 20)
  then let generation := zss_u32 (drop 16 sec) in
       if generation =? 0 then None else Some generation
  else None.

(** The bank [zss_available] prefers, given the two generations. *)
Definition choose_bank (a b : option Z) : option (Z * Z * Z) :=
  match a, b with
  | None, None => None
  | None, Some b_gen => Some (ZEAL_SRC_SHADOW_LBA, ZEAL_SRC_SHADOW_SECTS, b_gen)
  | Some a_gen, None => Some (ZEAL_SRC_LBA_BASE, ZEAL_SRC_SECTS, a_gen)
  | Some a_gen, Some b_gen =>
      if a_gen <? b_gen then Some (ZEAL_SRC_SHADOW_LBA, ZEAL_SRC_SHADOW_SECTS, b_gen)
      else Some (ZEAL_SRC_LBA_BASE, ZEAL_SRC_SECTS, a_gen)
  end.

(** ** Stateful operations *)

Section Ops.
Context {D : Type} `{BlockDev D}.

(** The driver's state and the file's globals. *)
Record zst := mk_zst {
  z_dev : D;
  g_zss_base : Z;
  g_zss_sectors : Z;
  g_zss_generation : Z;
  g_zss_catalog : list zss_catalog_item;     (* the first g_zss_catalog_count items *)
  g_zss_catalog_valid : bool;
  g_zss_catalog_revision : Z }.

Abbreviation Z_M := (SM zst).

Definition set_dev (d : D) (s : zst) : zst :=
  mk_zst d (g_zss_base s) (g_zss_sectors s) (g_zss_generation s) (g_zss_catalog s)
    (g_zss_catalog_valid s) (g_zss_catalog_revision s).
Definition set_bank (base sectors gen : Z) (s : zst) : zst :=
  mk_zst (z_dev s) base sectors gen (g_zss_catalog s)
    (g_zss_catalog_valid s) (g_zss_catalog_revision s).
Definition set_catalog (c : list zss_catalog_item) (valid : bool) (s : zst) : zst :=
  mk_zst (z_dev s) (g_zss_base s) (g_zss_sectors s) (g_zss_generation s) c valid
    (g_zss_catalog_revision s).
(** [g_zss_catalog_valid = 0; g_zss_catalog_revision++;] *)
Definition invalidate_catalog (s : zst) : zst :=
  mk_zst (z_dev s) (g_zss_base s) (g_zss_sectors s) (g_zss_generation s) (g_zss_catalog s)
    false (u64 (g_zss_catalog_revision s + 1)).

Definition zss_bank_read (base sector_no : Z) : Z_M (option sector) := fun s =>
  let '(r, d) := virtio_blk_read_abs (u64 (base + sector_no)) (z_dev s) in
  Some (r, set_dev d s).

Definition zss_bank_write (base sector_no : Z) (buf : sector) : Z_M bool := fun s =>
  let '(ok, d) := virtio_blk_write_abs (u64 (base + sector_no)) buf (z_dev s) in
  Some (ok, set_dev d s).

Definition blk_flush : Z_M bool := fun s =>
  let '(ok, d) := virtio_blk_flush_abs (z_dev s) in Some (ok, set_dev d s).

Definition zss_sector_read (sector_no : Z) : Z_M (option sector) := fun s =>
  if sector_no <? g_zss_sectors s then zss_bank_read (g_zss_base s) sector_no s
  else Some (None, s).

Definition zss_sector_write (sector_no : Z) (buf : sector) : Z_M bool := fun s =>
  if sector_no <? g_zss_sectors s then zss_bank_write (g_zss_base s) sector_no buf s
  else Some (false, s).

Definition zss_terminate_log (next : Z) : Z_M bool := fun s =>
  if g_zss_sectors s <=? next then Some (true, s)
  else zss_sector_write next (zeros SECT) s.

(** [g_vb.flush_supported && !virtio_blk_flush_abs()]: true when the flush failed. *)
Definition flush_fails : Z_M bool := fun s =>
  if flush_supported (z_dev s) then
    (let! ok := blk_flush in ret (negb ok)) s
  else Some (false, s).

(** [Some generation] when the bank's superblock is accepted. *)
Definition zss_probe_bank (base sectors : Z) : Z_M (option Z) := fun s =>
  if full_capacity (z_dev s) <? u64 (base + sectors) then Some (None, s)
  else
    (let! r := zss_bank_read base 0 in
     ret (match r with
          | None => None
          | Some sec => superblock_generation sectors sec
          end)) s.

Definition zss_available : Z_M bool := fun s =>
  if negb (virtio_blk_ready (z_dev s)) || negb (xport_pci (z_dev s)) then Some (false, s)
  else
    (let! a := zss_probe_bank ZEAL_SRC_LBA_BASE ZEAL_SRC_SECTS in
     let! b := zss_probe_bank ZEAL_SRC_SHADOW_LBA ZEAL_SRC_SHADOW_SECTS in
     match choose_bank a b with
     | None => ret false
     | Some (base, sectors, gen) => modify (set_bank base sectors gen) ;; ret true
     end) s.

(** *** Lookup *)

(** The out-parameters are written only when the scan reaches the end of the log. *)
Record find_result := mk_find {
  fr_code : Z; fr_entry : option zss_entry; fr_tail : Z; fr_records : Z }.

Definition find_error (code : Z) (out : option zss_entry) : find_result := mk_find code out 0 0.

Fixpoint zss_find_loop (fuel : nat) (name : option cstring) (pos records found : Z)
    (out : option zss_entry) : Z_M find_result :=
  match fuel with
  | O => diverge
  | S fuel' => fun s =>
      if negb (pos <? g_zss_sectors s) then Some (mk_find found out pos records, s)
      else
        (let! r := zss_sector_read pos in
         match r with
         | None => ret (find_error (-1) out)
         | Some sec =>
             if all_zero sec then ret (mk_find found out pos records)
             else match zss_decode_record (g_zss_sectors s) sec pos with
             | None => ret (find_error (-1) out)
             | Some (entry, record_name, deleted) =>
                 let hit := match name with
                            | Some n => zss_str_eq record_name n
                            | None => false
                            end in
                 zss_find_loop fuel' name (u32 (pos + (1 + blocks entry))) (u32 (records + 1))
                   (if hit then if deleted then -3 else 1 else found)
                   (if hit then Some entry else out)
             end
         end) s
  end.

(** [find_fuel]: one iteration per sector of the bank, and the exit test. *)
Definition find_fuel (s : zst) : nat := S (Z.to_nat (g_zss_sectors s)).

Definition zss_find (name : option cstring) : Z_M find_result :=
  if match name with Some n => negb (bool_decide (is_Some (zss_name_ok n))) | None => false end
  then ret (find_error (-1) None)
  else
    let! ok := zss_available in
    if ok then
      let! fuel := gets find_fuel in
      zss_find_loop fuel name 1 0 0 None
    else ret (find_error (-2) None).

(** *** Catalogue *)

Fixpoint catalog_index (c : list zss_catalog_item) (name : cstring) : nat :=
  match c with
  | [] => O
  | it :: c' => if zss_str_eq (ci_name it) name then O else S (catalog_index c' name)
  end.

Fixpoint zss_catalog_loop (fuel : nat) (pos : Z) : Z_M bool :=
  match fuel with
  | O => diverge
  | S fuel' => fun s =>
      if negb (pos <? g_zss_sectors s) then Some (true, s)
      else
        (let! r := zss_sector_read pos in
         match r with
         | None => ret false
         | Some sec =>
             if all_zero sec then ret true
             else match zss_decode_record (g_zss_sectors s) sec pos with
             | None => ret false
             | Some (entry, record_name, deleted) =>
                 let c := g_zss_catalog s in
                 let i := catalog_index c record_name in
                 let item := mk_item record_name (e_length entry) (if deleted then -3 else 1) in
                 if (i =? length c)%nat && (ZSS_CATALOG_CAP <=? Z.of_nat (length c)) then ret false
                 else
                   modify (set_catalog (if (i =? length c)%nat then c ++ [item] else <[i := item]> c)
                             (g_zss_catalog_valid s)) ;;
                   zss_catalog_loop fuel' (u32 (pos + (1 + blocks entry)))
             end
         end) s
  end.

(** Returns the status and, when it is not 0, the name and size written to the caller. *)
Definition zss_entry_at (wanted : Z) (name_cap : Z) : Z_M (Z * option (cstring * Z)) :=
  if name_cap =? 0 then ret (0, None)
  else
    let! ok := zss_available in
    if negb ok then ret (0, None)
    else
      let! valid := gets g_zss_catalog_valid in
      let! built := (if valid then ret true
                     else modify (set_catalog [] false) ;;
                          let! fuel := gets find_fuel in
                          let! ok := zss_catalog_loop fuel 1 in
                          if ok then (fun s => Some (true, set_catalog (g_zss_catalog s) true s))
                          else ret false) in
      if negb built then ret (0, None)
      else
        let! c := gets g_zss_catalog in
        match c !! Z.to_nat wanted with
        | None => ret (0, None)
        | Some item =>
            if name_cap <? Z.of_nat (length (ci_name item)) + 1 then ret (0, None)
            else ret (ci_status item, Some (ci_name item, ci_size item))
        end.

(** *** Delete and put *)

(** How [zss_put], [zss_stream_finish] and [zss_delete] publish a record: terminate the log
    behind it at [next], flush, write the header at [tail], flush. *)
Definition zss_commit (tail next : Z) (header : sector) : Z_M Z :=
  let! ok := zss_terminate_log next in
  if negb ok then ret (-1)
  else
    let! bad := flush_fails in
    if bad then ret (-1)
    else
      let! ok := zss_sector_write tail header in
      if negb ok then ret (-1)
      else
        modify invalidate_catalog ;;
        let! bad := flush_fails in
        ret (if bad then -5 else 0).

Definition zss_delete (name : cstring) : Z_M Z :=
  match zss_name_ok name with
  | None => ret (-1)
  | Some name_len =>
      let! f := zss_find (Some name) in
      let found := fr_code f in
      let tail := fr_tail f in
      if (found =? 0) || (found =? -3) then ret (-4)
      else if found <? 0 then ret found
      else
        let! sectors := gets g_zss_sectors in
        if sectors <=? tail then ret (-3)
        else zss_commit tail (u32 (tail + 1)) (delete_header name_len name)
  end.

(** One data sector: the chunk, padded with zeros. *)
Definition pad_sector (chunk : list Z) : sector := chunk ++ zeros (SECT - length chunk).

Fixpoint zss_put_blocks (n : nat) (src : list Z) (at_ crc : Z) : Z_M (option Z) :=
  match n with
  | O => ret (Some crc)
  | S n' =>
      let chunk := take SECT src in
      let! ok := zss_sector_write at_ (pad_sector chunk) in
      if ok then zss_put_blocks n' (drop SECT src) (u32 (at_ + 1)) (fold_left zss_crc_step chunk crc)
      else ret None
  end.

Definition zss_put (name : cstring) (src : list Z) : Z_M Z :=
  let len := Z.of_nat (length src) in
  if (len =? 0) || (ZSS_MAX_FILE <? len) then ret (-1)
  else match zss_name_ok name with
  | None => ret (-1)
  | Some name_len =>
      let! scan := zss_find None in
      if fr_code scan <? 0 then ret (fr_code scan)
      else
        let tail := fr_tail scan in
        let blocks := u32 (blocks_of len) in
        let! sectors := gets g_zss_sectors in
        if sectors <? u32 (u32 (tail + 1) + blocks) then ret (-3)
        else
          let! crc := zss_put_blocks (Z.to_nat blocks) src (u32 (tail + 1)) 0xffffffff in
          match crc with
          | None => ret (-1)
          | Some crc =>
              zss_commit tail (u32 (u32 (tail + 1) + blocks))
                (file_header len (Z.lxor crc 0xffffffff) blocks name_len name)
          end
  end.

(** *** Read and verify *)

(** The data sectors of a record, read in order: the bytes and the running CRC. *)
Fixpoint zss_read_blocks (n : nat) (at_ remaining crc : Z) : Z_M (option (list Z * Z)) :=
  match n with
  | O => ret (Some ([], crc))
  | S n' =>
      let chunk := if 512 <? remaining then 512 else remaining in
      let! r := zss_sector_read at_ in
      match r with
      | None => ret None
      | Some sec =>
          let bytes := take (Z.to_nat chunk) sec in
          let! rest := zss_read_blocks n' (u32 (at_ + 1)) (remaining - chunk)
                         (fold_left zss_crc_step bytes crc) in
          ret (match rest with
               | None => None
               | Some (l, crc) => Some (bytes ++ l, crc)
               end)
      end
  end.

(** [zss_read] into a destination of [dst] bytes ([None]: a null pointer, a size query): the
    status, and the bytes before the final NUL (on an I/O error the buffer holds a prefix that no
    caller looks at).  [*out_len] is [e_length entry] in every case. *)
Definition zss_read (entry : zss_entry) (dst : option Z) : Z_M (Z * list Z) :=
  match dst with
  | None => ret (0, [])
  | Some cap =>
  if cap <=? e_length entry then ret (-1, [])
  else
    let! r := zss_read_blocks (Z.to_nat (blocks entry)) (u32 (header_sector entry + 1))
                (e_length entry) 0xffffffff in
    ret (match r with
         | None => (-1, [])
         | Some (bytes, crc) =>
             (if Z.lxor crc 0xffffffff =? checksum entry then 0 else -1, bytes)
         end)
  end.

Definition zss_verify (entry : zss_entry) : Z_M Z :=
  let! r := zss_read_blocks (Z.to_nat (blocks entry)) (u32 (header_sector entry + 1))
              (e_length entry) 0xffffffff in
  ret (match r with
       | None => -1
       | Some (_, crc) => if Z.lxor crc 0xffffffff =? checksum entry then 0 else -1
       end).

(** *** Streaming append *)

Record zss_stream := mk_stream {
  st_tail : Z; st_length : Z; st_written : Z; st_expected_crc : Z; st_crc : Z;
  st_name_len : Z; st_name : cstring; st_sector : sector }.

Definition zss_stream_begin (name : cstring) (length expected_crc : Z)
    : Z_M (Z * option zss_stream) :=
  if (length =? 0) || (ZSS_MAX_FILE <? length) then ret (-1, None)
  else match zss_name_ok name with
  | None => ret (-1, None)
  | Some name_len =>
      let! scan := zss_find None in
      if fr_code scan <? 0 then ret (fr_code scan, None)
      else
        let tail := fr_tail scan in
        let! sectors := gets g_zss_sectors in
        if sectors <? u32 (u32 (tail + 1) + u32 (length + 511) / 512) then ret (-3, None)
        else ret (0, Some (mk_stream tail length 0 expected_crc 0xffffffff name_len name
                             (zeros SECT)))
  end.

(** One iteration of the byte loop, without the sector write. *)
Definition stream_byte (st : zss_stream) (b : Z) : zss_stream :=
  let pos := Z.land (st_written st) 511 in
  mk_stream (st_tail st) (st_length st) (u32 (st_written st + 1)) (st_expected_crc st)
    (zss_crc_step (st_crc st) b) (st_name_len st) (st_name st)
    (<[Z.to_nat pos := b]> (st_sector st)).

Definition stream_reset (st : zss_stream) : zss_stream :=
  mk_stream (st_tail st) (st_length st) (st_written st) (st_expected_crc st) (st_crc st)
    (st_name_len st) (st_name st) (zeros SECT).

Fixpoint zss_stream_bytes (st : zss_stream) (src : list Z) : Z_M (Z * zss_stream) :=
  match src with
  | [] => ret (0, st)
  | b :: src' =>
      let st := stream_byte st b in
      if Z.land (st_written st) 511 =? 0 then
        let! ok := zss_sector_write (u32 (st_tail st + st_written st / 512)) (st_sector st) in
        if ok then zss_stream_bytes (stream_reset st) src' else ret (-1, st)
      else zss_stream_bytes st src'
  end.

Definition zss_stream_write (st : zss_stream) (src : list Z) : Z_M (Z * zss_stream) :=
  if u32 (st_length st - st_written st) <? Z.of_nat (length src) then ret (-1, st)
  else zss_stream_bytes st src.

Definition zss_stream_finish (st : zss_stream) : Z_M Z :=
  if negb (st_written st =? st_length st) ||
     negb (Z.lxor (st_crc st) 0xffffffff =? st_expected_crc st) then ret (-4)
  else
    let! ok := (if Z.land (st_written st) 511 =? 0 then ret true
                else zss_sector_write (u32 (u32 (st_tail st + 1) + st_written st / 512))
                       (st_sector st)) in
    if negb ok then ret (-1)
    else
      let blocks := u32 (st_length st + 511) / 512 in
      zss_commit (st_tail st) (u32 (u32 (st_tail st + 1) + blocks))
        (file_header (st_length st) (st_expected_crc st) blocks (st_name_len st) (st_name st)).

(** *** Compaction *)

(** Both loops keep a record when it is the one a lookup of its name returns. *)
Definition is_latest (f : find_result) (pos : Z) (deleted : bool) : bool :=
  match fr_entry f with
  | Some latest => (header_sector latest =? pos) && (fr_code f =? (if deleted then -3 else 1))
  | None => false
  end.

(** How both loops visit the record at [pos]: its entry, whether it is a tombstone and whether it
    is the one to keep; [None] when the loop returns an error. *)
Definition zss_compact_visit (pos : Z) : Z_M (option (zss_entry * bool * bool)) :=
  let! header := zss_sector_read pos in
  let! sectors := gets g_zss_sectors in
  match (match header with
         | Some h => zss_decode_record sectors h pos
         | None => None
         end) with
  | None => ret None
  | Some (entry, name, deleted) =>
      let! f := zss_find (Some name) in
      if negb (fr_code f =? 1) && negb (fr_code f =? -3) then ret None
      else ret (Some (entry, deleted, is_latest f pos deleted))
  end.

(** First loop: capacity and checksums, before the other bank is touched.
    [inl code]: returned; [inr (need, kept)]: reached the tail. *)
Fixpoint zss_compact_check (fuel : nat) (pos tail target_sectors need kept : Z)
    : Z_M (Z + Z * Z) :=
  match fuel with
  | O => diverge
  | S fuel' =>
      if negb (pos <? tail) then ret (inr (need, kept))
      else
        let! v := zss_compact_visit pos in
        match v with
        | None => ret (inl (-1))
        | Some (entry, deleted, true) =>
            let! bad := (if deleted then ret 0 else zss_verify entry) in
            if negb (bad =? 0) then ret (inl (-1))
            else if target_sectors <? u32 (u32 (need + 1) + blocks entry) then ret (inl (-3))
            else zss_compact_check fuel' (u32 (pos + (1 + blocks entry))) tail target_sectors
                   (u32 (need + (1 + blocks entry))) (u32 (kept + 1))
        | Some (entry, _, false) =>
            zss_compact_check fuel' (u32 (pos + (1 + blocks entry))) tail target_sectors need kept
        end
  end.

(** Copy [n] sectors to the target bank, reading each one back. *)
Fixpoint zss_copy_sectors (n : nat) (pos target next : Z) : Z_M bool :=
  match n with
  | O => ret true
  | S n' =>
      let! r := zss_sector_read pos in
      match r with
      | None => ret false
      | Some copied =>
          let! ok := zss_bank_write target next copied in
          if negb ok then ret false
          else
            let! c := zss_bank_read target next in
            match c with
            | None => ret false
            | Some check =>
                if zss_eq copied check SECT then zss_copy_sectors n' (u32 (pos + 1)) target (u32 (next + 1))
                else ret false
            end
      end
  end.

Fixpoint zss_compact_copy (fuel : nat) (pos tail target next : Z) : Z_M (option Z) :=
  match fuel with
  | O => diverge
  | S fuel' =>
      if negb (pos <? tail) then ret (Some next)
      else
        let! v := zss_compact_visit pos in
        match v with
        | None => ret None
        | Some (entry, _, true) =>
            let! ok := zss_copy_sectors (S (Z.to_nat (blocks entry))) pos target next in
            if ok then zss_compact_copy fuel' (u32 (pos + (1 + blocks entry))) tail target
                         (u32 (next + (1 + blocks entry)))
            else ret None
        | Some (entry, _, false) =>
            zss_compact_copy fuel' (u32 (pos + (1 + blocks entry))) tail target next
        end
  end.

(** Terminate the copied log, flush, commit the superblock, flush, and select the banks anew. *)
Definition zss_compact_publish (target target_sectors next : Z) : Z_M Z :=
  let! ok := (if next <? target_sectors
              then zss_bank_write target next (zeros SECT) else ret true) in
  if negb ok then ret (-1)
  else
    let! ok := blk_flush in
    if negb ok then ret (-1)
    else
      let! generation := gets g_zss_generation in
      let! ok := zss_bank_write target 0
                   (superblock_v2 target_sectors (u32 (generation + 1))) in
      if negb ok then ret (-1)
      else
        let! ok := blk_flush in
        if negb ok then ret (-5)
        else
          let! av := zss_available in
          let! base := gets g_zss_base in
          ret (if negb av || negb (base =? target) then -1 else 0).

(** The status and, on success, the old tail, the new tail and the number of records kept. *)
Definition zss_compact : Z_M (Z * option (Z * Z * Z)) :=
  let! f := zss_find None in
  if fr_code f <? 0 then ret (-2, None)
  else
    let tail := fr_tail f in
    let! source := gets g_zss_base in
    let! generation := gets g_zss_generation in
    let target := if source =? ZEAL_SRC_LBA_BASE then ZEAL_SRC_SHADOW_LBA else ZEAL_SRC_LBA_BASE in
    let target_sectors := if source =? ZEAL_SRC_LBA_BASE then ZEAL_SRC_SHADOW_SECTS
                          else ZEAL_SRC_SECTS in
    let! refuse := gets (fun s => (full_capacity (z_dev s) <? u64 (target + target_sectors)) ||
                                  (generation =? UINT32_MAX) ||
                                  negb (flush_supported (z_dev s))) in
    if refuse then ret (-4, None)
    else
      let! ok := blk_flush in
      if negb ok then ret (-1, None)
      else
        let! fuel := gets find_fuel in
        let! c := zss_compact_check fuel 1 tail target_sectors 1 0 in
        match c with
        | inl code => ret (code, None)
        | inr (need, kept) =>
            let! n := zss_compact_copy fuel 1 tail target 1 in
            match n with
            | None => ret (-1, None)
            | Some next =>
                if negb (next =? need) then ret (-1, None)
                else
                  let! code := zss_compact_publish target target_sectors next in
                  ret (code, if code =? 0 then Some (tail, next, kept) else None)
            end
        end.

End Ops.
Arguments zst D : clear implicits.
Arguments mk_zst {D}.
