(* ===== verification/SourceStoreLog.v ===== *)
(** * The source partition's log: codec and abstraction

    The record codec (headers decode to what was encoded), the log as an inductive predicate on
    a disk image, and the abstraction [represents]: the finite map from path to contents that a
    disk image stands for. *)

From stdpp Require Import gmap.
From S2P Require Import Prelude BlockDev SourceStore.

(** ** Integers in headers *)

Lemma zss_u32_value p : bytes_ok p ->
  zss_u32 p = byte_at p 0 + byte_at p 1 * 256 + byte_at p 2 * 65536 + byte_at p 3 * 16777216.
Proof. intros H. unfold zss_u32. apply lor4_bytes; apply byte_at_range; exact H. Qed.

Lemma zss_u32_range p : bytes_ok p -> 0 <= zss_u32 p < 4294967296.
Proof.
  intros H. rewrite zss_u32_value by exact H.
  pose proof (byte_at_range p 0 H). pose proof (byte_at_range p 1 H).
  pose proof (byte_at_range p 2 H). pose proof (byte_at_range p 3 H). lia.
Qed.

(** The four bytes [zss_w32] stores, read back. *)
Definition le4 (v : Z) : list Z :=
  [u8 v; u8 (Z.shiftr v 8); u8 (Z.shiftr v 16); u8 (Z.shiftr v 24)].

Lemma le4_ok v : bytes_ok (le4 v).
Proof. repeat constructor; apply u8_range. Qed.

Lemma zss_u32_le4 v l : zss_u32 (le4 v ++ l) = u32 v.
Proof.
  unfold zss_u32, le4, byte_at. change (Z.to_nat 0) with 0%nat. change (Z.to_nat 1) with 1%nat.
  change (Z.to_nat 2) with 2%nat. change (Z.to_nat 3) with 3%nat. cbn [nth app].
  rewrite lor4_bytes by apply u8_range.
  unfold u8, u32, wrap. rewrite !Z.shiftr_div_pow2 by lia.
  change (2 ^ 8) with 256. change (2 ^ 16) with (256 * 256).
  change (2 ^ 24) with (256 * 256 * 256).
  change (2 ^ 32) with (256 * (256 * (256 * 256))).
  rewrite !Z.rem_mul_r, !Z.div_div by lia.
  lia.
Qed.

Lemma zss_w32_split p a b v :
  length b = 4%nat -> zss_w32 (p ++ b ++ a) (length p) v = p ++ le4 v ++ a.
Proof. intros H. unfold zss_w32. fold (le4 v). apply write_at_app. exact H. Qed.

(** ** Header sectors as byte strings *)

Lemma write_name p name m :
  (length name <= m)%nat ->
  write_at (p ++ zeros m) (length p) name = p ++ name ++ zeros (m - length name).
Proof.
  intros H. replace (zeros m) with (zeros (length name) ++ zeros (m - length name)).
  - apply write_at_app. apply length_zeros.
  - unfold zeros. rewrite <- repeat_app. f_equal. lia.
Qed.

Definition file_prefix (len checksum blocks name_len : Z) : list Z :=
  ZCFILE1 ++ [0] ++ le4 len ++ le4 checksum ++ le4 blocks ++ le4 name_len ++ zeros 8.

Definition delete_prefix (name_len : Z) : list Z := ZCDEL1 ++ zeros 14 ++ le4 name_len ++ zeros 8.

Lemma file_header_bytes len crc blocks name_len name : (length name <= 480)%nat ->
  file_header len crc blocks name_len name =
  file_prefix len crc blocks name_len ++ name ++ zeros (480 - length name).
Proof. intros H. rewrite <- write_name by exact H. reflexivity. Qed.

Lemma delete_header_bytes name_len name : (length name <= 480)%nat ->
  delete_header name_len name = delete_prefix name_len ++ name ++ zeros (480 - length name).
Proof. intros H. rewrite <- write_name by exact H. reflexivity. Qed.

Lemma file_prefix_ok len crc blocks name_len : bytes_ok (file_prefix len crc blocks name_len).
Proof.
  unfold file_prefix. rewrite !bytes_ok_app.
  repeat split; try apply le4_ok; try apply bytes_ok_zeros; repeat constructor; unfold is_u; lia.
Qed.

Lemma delete_prefix_ok name_len : bytes_ok (delete_prefix name_len).
Proof.
  unfold delete_prefix. rewrite !bytes_ok_app.
  repeat split; try apply le4_ok; try apply bytes_ok_zeros; repeat constructor; unfold is_u; lia.
Qed.

Lemma file_header_ok len crc blocks name_len name :
  (length name <= 480)%nat -> bytes_ok name ->
  sector_ok (file_header len crc blocks name_len name).
Proof.
  intros H Hn. rewrite file_header_bytes by exact H. split.
  - rewrite !length_app, length_zeros. change (length (file_prefix _ _ _ _)) with 32%nat. lia.
  - rewrite !bytes_ok_app. auto using file_prefix_ok, bytes_ok_zeros.
Qed.

Lemma delete_header_ok name_len name :
  (length name <= 480)%nat -> bytes_ok name -> sector_ok (delete_header name_len name).
Proof.
  intros H Hn. rewrite delete_header_bytes by exact H. split.
  - rewrite !length_app, length_zeros. change (length (delete_prefix _)) with 32%nat. lia.
  - rewrite !bytes_ok_app. auto using delete_prefix_ok, bytes_ok_zeros.
Qed.

(** ** Names *)

Lemma zss_name_chars_spec s : forall i seg n seg',
  zss_name_chars s i seg = Some (n, seg') ->
  n = i + Z.of_nat (length s) /\ (s <> [] -> n <= ZSS_MAX_NAME) /\
  Forall (fun c => 33 <= c <= 126 /\ c <> COLON /\ c <> BACKSLASH) s.
Proof.
  induction s as [|c s IH]; intros i seg n seg'; cbn [zss_name_chars].
  - intros [= <- <-]. cbn. split; [lia|]. split; [congruence | constructor].
  - intros H. destruct (_ || _) eqn:E; [discriminate|]. bool_hyps.
    assert (G : forall seg0, zss_name_chars s (i + 1) seg0 = Some (n, seg') ->
      n = i + Z.of_nat (length (c :: s)) /\ (c :: s <> [] -> n <= ZSS_MAX_NAME) /\
      Forall (fun c => 33 <= c <= 126 /\ c <> COLON /\ c <> BACKSLASH) (c :: s)).
    { intros seg0 Hs. destruct (IH _ _ _ _ Hs) as (Hn & Hm & Hf).
      split; [cbn [length]; lia|]. split; [|constructor; [lia | exact Hf]].
      intros _. destruct s; [cbn in *; lia | apply Hm; discriminate]. }
    repeat case_if; try discriminate; eauto.
Qed.

Lemma zss_name_ok_spec s n : zss_name_ok s = Some n ->
  n = Z.of_nat (length s) /\ 1 <= n <= ZSS_MAX_NAME /\
  Forall (fun c => 33 <= c <= 126) s.
Proof.
  destruct s as [|c s]; [discriminate|]. unfold zss_name_ok.
  destruct (zss_name_chars (c :: s) 0 0) as [[i seg]|] eqn:E; [|discriminate].
  destruct (seg =? 0); [discriminate|]. destruct (zss_no_dots _ _); [|discriminate].
  intros [= <-]. destruct (zss_name_chars_spec _ _ _ _ _ E) as (Hn & Hm & Hf).
  split; [lia|]. split.
  - split; [cbn [length] in Hn; lia | apply Hm; discriminate].
  - eapply Forall_impl; [|exact Hf]; cbn; intros; lia.
Qed.

Lemma zss_name_ok_bytes s n : zss_name_ok s = Some n -> bytes_ok s.
Proof.
  intros H. apply zss_name_ok_spec in H as (_ & _ & H).
  eapply Forall_impl; [|exact H]; unfold is_u; cbn; intros; lia.
Qed.

Lemma zss_name_ok_cstr s n : zss_name_ok s = Some n -> cstr s = s.
Proof.
  intros H. apply zss_name_ok_spec in H as (_ & _ & H).
  apply cstr_no_nul. eapply Forall_impl; [|exact H]; cbn; intros; lia.
Qed.

Lemma zss_str_eq_spec a b : zss_str_eq a b = bool_decide (a = b).
Proof.
  revert b. induction a as [|x a IH]; intros [|y b]; cbn; try reflexivity.
  rewrite IH. destruct (Z.eqb_spec x y) as [->|Hne]; cbn.
  - apply bool_decide_ext. split; congruence.
  - symmetry. apply bool_decide_false. congruence.
Qed.

(** ** Decoding *)

Lemma u32_le4 v l : is_u 32 v -> zss_u32 (le4 v ++ l) = v.
Proof. intros H. rewrite zss_u32_le4. apply u32_id. exact H. Qed.

(** The fields of a file header followed by anything. *)
Lemma file_prefix_fields len crc blocks name_len rest :
  is_u 32 len -> is_u 32 crc -> is_u 32 blocks -> is_u 32 name_len ->
  let h := file_prefix len crc blocks name_len ++ rest in
  zss_u32 (drop 8 h) = len /\ zss_u32 (drop 12 h) = crc /\ zss_u32 (drop 16 h) = blocks /\
  zss_u32 (drop 20 h) = name_len /\ drop 32 h = rest.
Proof.
  intros H1 H2 H3 H4 h. split; [|split; [|split; [|split; [|reflexivity]]]].
  - apply (u32_le4 len (le4 crc ++ le4 blocks ++ le4 name_len ++ zeros 8 ++ rest) H1).
  - apply (u32_le4 crc (le4 blocks ++ le4 name_len ++ zeros 8 ++ rest) H2).
  - apply (u32_le4 blocks (le4 name_len ++ zeros 8 ++ rest) H3).
  - apply (u32_le4 name_len (zeros 8 ++ rest) H4).
Qed.

Lemma delete_prefix_fields name_len rest :
  is_u 32 name_len ->
  let h := delete_prefix name_len ++ rest in
  zss_u32 (drop 8 h) = 0 /\ zss_u32 (drop 12 h) = 0 /\ zss_u32 (drop 16 h) = 0 /\
  zss_u32 (drop 20 h) = name_len /\ drop 32 h = rest.
Proof.
  intros H4 h. repeat split; try reflexivity.
  apply (u32_le4 name_len (zeros 8 ++ rest) H4).
Qed.

Lemma blocks_of_range len : 0 < len <= ZSS_MAX_FILE -> 1 <= blocks_of len <= 8192.
Proof. unfold blocks_of, ZSS_MAX_FILE. intros. Z.div_mod_to_equations. lia. Qed.

(** A file header decodes to the record it describes. *)
Lemma decode_file_header sectors pos len crc blocks name_len name :
  zss_name_ok name = Some name_len -> 0 < len <= ZSS_MAX_FILE -> is_u 32 crc ->
  blocks = blocks_of len -> 0 <= pos -> pos + 1 + blocks <= sectors -> sectors <= ZEAL_SRC_SECTS ->
  zss_decode_record sectors (file_header len crc blocks name_len name) pos =
  Some (mk_entry pos len crc blocks, name, false).
Proof.
  intros Hn Hl Hc Hb Hp Hs Hw. pose proof (zss_name_ok_spec _ _ Hn) as (Hlen & Hr & _).
  pose proof (zss_name_ok_cstr _ _ Hn) as Hcs. pose proof (blocks_of_range len Hl).
  unfold ZSS_MAX_NAME, ZSS_MAX_FILE, ZEAL_SRC_SECTS, is_u in *.
  rewrite file_header_bytes by lia. unfold zss_decode_record.
  destruct (file_prefix_fields len crc blocks name_len (name ++ zeros (480 - length name)))
    as (-> & -> & -> & -> & ->); [unfold is_u; lia ..|].
  rewrite Hlen, Nat2Z.id, take_app_length, Hcs, Hn.
  change (zss_eq _ ZCDEL1 6 && _ && _) with false. change (zss_eq _ ZCFILE1 7 && _) with true.
  rewrite (u32_id (pos + 1)), (u32_id (pos + 1 + blocks)), (u32_id (len + 511)) by lia.
  fold (blocks_of len). unfold ZSS_MAX_NAME, ZSS_MAX_FILE. cbn [negb andb orb].
  destruct (_ || _) eqn:E; [|reflexivity]. exfalso.
  rewrite !orb_true_iff, negb_true_iff in E. lia.
Qed.

Lemma decode_delete_header sectors pos name_len name :
  zss_name_ok name = Some name_len -> 0 <= pos -> pos + 1 <= sectors -> sectors <= ZEAL_SRC_SECTS ->
  zss_decode_record sectors (delete_header name_len name) pos =
  Some (mk_entry pos 0 0 0, name, true).
Proof.
  intros Hn Hp Hs Hw. pose proof (zss_name_ok_spec _ _ Hn) as (Hlen & Hr & _).
  pose proof (zss_name_ok_cstr _ _ Hn) as Hcs. unfold ZSS_MAX_NAME, ZEAL_SRC_SECTS, is_u in *.
  rewrite delete_header_bytes by lia. unfold zss_decode_record.
  destruct (delete_prefix_fields name_len (name ++ zeros (480 - length name)))
    as (-> & -> & -> & -> & ->); [unfold is_u; lia|].
  rewrite Hlen, Nat2Z.id, take_app_length, Hcs, Hn.
  change (zss_eq _ ZCDEL1 6 && _ && _) with true.
  rewrite (u32_id (pos + 1)), (u32_id (pos + 1 + 0)) by lia.
  unfold ZSS_MAX_NAME. cbn [negb andb orb]. rewrite andb_false_r. cbn [orb].
  destruct (_ || _) eqn:E; [|reflexivity]. exfalso. cbn in E.
  rewrite !orb_true_iff in E. lia.
Qed.

(** [pos + 1u + blocks > g_zss_sectors], when the sum does not wrap. *)
Ltac fit_check :=
  match goal with
  | Hx : (_ <? u32 (u32 (?p + 1) + _)) = false |- _ =>
      rewrite (u32_id (p + 1)) in Hx by lia; rewrite u32_id in Hx by lia
  end.

(** What a decoded record satisfies. *)
Lemma decode_inv sectors s pos e name del :
  bytes_ok s -> sectors <= ZEAL_SRC_SECTS -> 0 <= pos < sectors ->
  zss_decode_record sectors s pos = Some (e, name, del) ->
  header_sector e = pos /\ is_Some (zss_name_ok name) /\ 0 <= blocks e <= 8192 /\
  pos + 1 + blocks e <= sectors /\ is_u 32 (checksum e) /\
  (if del then e_length e = 0 /\ blocks e = 0
   else 0 < e_length e <= ZSS_MAX_FILE /\ blocks e = blocks_of (e_length e)).
Proof.
  intros Hs Hw Hp. unfold zss_decode_record.
  pose proof (zss_u32_range (drop 8 s) (bytes_ok_drop 8 s Hs)) as R1.
  pose proof (zss_u32_range (drop 12 s) (bytes_ok_drop 12 s Hs)) as R2.
  pose proof (zss_u32_range (drop 16 s) (bytes_ok_drop 16 s Hs)) as R3.
  destruct (_ || _) eqn:E; [discriminate|].
  destruct (zss_name_ok _) eqn:En; [|discriminate]. intros [= <- <- <-].
  cbn [header_sector blocks e_length checksum]. bool_hyps.
  unfold is_u, ZSS_MAX_FILE, ZEAL_SRC_SECTS in *. change (2 ^ 32) with 4294967296 in *.
  destruct (_ && _ && (byte_at s 7 =? 0)).
  - bool_hyps. fit_check. repeat split; try lia. rewrite En. eauto.
  - bool_hyps. rewrite (u32_id (_ + 511)) in * by lia. fold (blocks_of (zss_u32 (drop 8 s))) in *.
    pose proof (blocks_of_range (zss_u32 (drop 8 s))). unfold ZSS_MAX_FILE in *.
    fit_check. repeat split; try lia. rewrite En. eauto.
Qed.

Lemma file_header_nonzero len crc blocks name_len name :
  (length name <= 480)%nat -> all_zero (file_header len crc blocks name_len name) = false.
Proof. intros H. rewrite file_header_bytes by exact H. reflexivity. Qed.

Lemma delete_header_nonzero name_len name :
  (length name <= 480)%nat -> all_zero (delete_header name_len name) = false.
Proof. intros H. rewrite delete_header_bytes by exact H. reflexivity. Qed.

(** ** Checksums *)

Lemma is_u_lxor w a b : 0 <= w -> is_u w a -> is_u w b -> is_u w (Z.lxor a b).
Proof.
  intros Hw Ha Hb. apply is_u_of_bits; [exact Hw | |].
  - apply Z.lxor_nonneg. unfold is_u in *. lia.
  - intros i Hi. rewrite Z.lxor_spec, (testbit_above w a), (testbit_above w b); auto; lia.
Qed.

Lemma is_u_land_l w a b : 0 <= w -> is_u w a -> is_u w (Z.land a b).
Proof.
  intros Hw Ha. apply is_u_of_bits; [exact Hw | |].
  - apply Z.land_nonneg. unfold is_u in *. lia.
  - intros i Hi. rewrite Z.land_spec, (testbit_above w a); auto; lia.
Qed.

Lemma is_u_shiftr w a k : 0 <= k -> is_u w a -> is_u w (Z.shiftr a k).
Proof.
  unfold is_u. intros Hk Ha. rewrite Z.shiftr_div_pow2 by lia.
  assert (0 < 2 ^ k) by (apply Z.pow_pos_nonneg; lia).
  split; [apply Z.div_pos; lia|]. apply Z.le_lt_trans with a; [|lia].
  apply Z.div_le_upper_bound; nia.
Qed.

Lemma is_u_mono w w' a : 0 <= w <= w' -> is_u w a -> is_u w' a.
Proof.
  unfold is_u. intros Hw Ha. assert (2 ^ w <= 2 ^ w') by (apply Z.pow_le_mono_r; lia). lia.
Qed.

Lemma crc_bit_range crc : is_u 32 crc -> is_u 32 (zss_crc_bit crc).
Proof.
  intros H. apply is_u_lxor; [lia | apply is_u_shiftr; [lia | exact H] |].
  apply is_u_land_l; [lia|]. split; [discriminate | reflexivity].
Qed.

Lemma crc_step_range crc b : is_u 32 crc -> is_u 8 b -> is_u 32 (zss_crc_step crc b).
Proof.
  intros H Hb. unfold zss_crc_step.
  assert (is_u 32 (Z.lxor crc b)).
  { apply is_u_lxor; [lia | exact H | apply (is_u_mono 8 32); [lia | exact Hb]]. }
  apply Nat.iter_invariant; [exact crc_bit_range | assumption].
Qed.

Lemma crc_fold_range l crc :
  is_u 32 crc -> bytes_ok l -> is_u 32 (fold_left zss_crc_step l crc).
Proof. intros Hc Hl. exact (fold_left_inv _ _ _ crc_step_range l Hl crc Hc). Qed.

(** The checksum stored for a file. *)
Definition crc32 (data : list Z) : Z := Z.lxor (fold_left zss_crc_step data 0xffffffff) 0xffffffff.

Lemma crc32_range data : bytes_ok data -> is_u 32 (crc32 data).
Proof.
  intros H. unfold crc32.
  assert (Hm : is_u 32 0xffffffff) by (split; [discriminate | reflexivity]).
  pose proof (crc_fold_range data _ Hm H) as Hf. revert Hf.
  generalize (fold_left zss_crc_step data 0xffffffff). intros c Hc.
  apply is_u_lxor; [lia | exact Hc | exact Hm].
Qed.

(** ** The log *)

Definition record : Type := zss_entry * cstring * bool.

(** A bank, addressed by its own sector numbers. *)
Definition bank (v : image) (base : Z) : image := fun i => v (base + i).

(** [log_at n b pos rs tail]: scanning bank [b] of [n] sectors from [pos] meets the records
    [rs] and stops at [tail], at an empty header or at the end of the bank. *)
Inductive log_at (n : Z) (b : image) : Z -> list record -> Z -> Prop :=
| log_full pos : n <= pos -> log_at n b pos [] pos
| log_empty pos : pos < n -> all_zero (b pos) = true -> log_at n b pos [] pos
| log_record pos e name del rs tail :
    pos < n -> all_zero (b pos) = false ->
    zss_decode_record n (b pos) pos = Some (e, name, del) ->
    log_at n b (pos + (1 + blocks e)) rs tail ->
    log_at n b pos ((e, name, del) :: rs) tail.

(** The bytes of the [k] sectors from [at_]. *)
Fixpoint read_range (b : image) (at_ : Z) (k : nat) : list Z :=
  match k with
  | O => []
  | S k' => b at_ ++ read_range b (at_ + 1) k'
  end.

Lemma read_range_shift b c k : forall at1 at2,
  (forall i, 0 <= i < Z.of_nat k -> c (at1 + i) = b (at2 + i)) ->
  read_range c at1 k = read_range b at2 k.
Proof.
  induction k as [|k IH]; intros at1 at2 H; cbn [read_range]; [reflexivity|].
  rewrite <- (Z.add_0_r at1) at 1. rewrite <- (Z.add_0_r at2) at 1. f_equal; [apply H; lia|].
  apply IH. intros i Hi. rewrite <- !Z.add_assoc. apply H. lia.
Qed.

Definition file_bytes (b : image) (e : zss_entry) : list Z :=
  take (Z.to_nat (e_length e)) (read_range b (header_sector e + 1) (Z.to_nat (blocks e))).

Definition apply_record (b : image) (m : gmap cstring (list Z)) (r : record)
    : gmap cstring (list Z) :=
  let '(e, name, del) := r in
  if del then delete name m else <[name := file_bytes b e]> m.

(** The map from path to contents the records stand for: later records win. *)
Definition store_map (b : image) (rs : list record) : gmap cstring (list Z) :=
  fold_left (apply_record b) rs ∅.

Definition record_ok (b : image) (r : record) : Prop :=
  let '(e, _, del) := r in del = false -> crc32 (file_bytes b e) = checksum e.

Definition probe (v : image) (cap base sectors : Z) : option Z :=
  if cap <? u64 (base + sectors) then None else superblock_generation sectors (v base).

Definition select (v : image) (cap : Z) : option (Z * Z * Z) :=
  choose_bank (probe v cap ZEAL_SRC_LBA_BASE ZEAL_SRC_SECTS)
              (probe v cap ZEAL_SRC_SHADOW_LBA ZEAL_SRC_SHADOW_SECTS).

(** The image [v] of a disk of [cap] sectors holds, in its selected bank, an undamaged log. *)
Record store_at (v : image) (cap base n gen : Z) (rs : list record) (tail : Z) : Prop := {
  sa_select : select v cap = Some (base, n, gen);
  sa_log : log_at n (bank v base) 1 rs tail;
  sa_ok : Forall (record_ok (bank v base)) rs }.

(** The abstraction: [v] stands for the map [m]. *)
Definition represents (v : image) (cap : Z) (m : gmap cstring (list Z)) : Prop :=
  exists base n gen rs tail,
    store_at v cap base n gen rs tail /\ m = store_map (bank v base) rs.

Definition image_ok (b : image) : Prop := forall i, sector_ok (b i).

(** [b] and [c] agree on the sectors [lo .. hi - 1]. *)
Definition agree (lo hi : Z) (b c : image) : Prop := forall i, lo <= i < hi -> b i = c i.

Lemma agree_mono lo hi lo' hi' b c : agree lo hi b c -> lo <= lo' -> hi' <= hi -> agree lo' hi' b c.
Proof. intros H H1 H2 i Hi. apply H. lia. Qed.

Lemma agree_sym lo hi b c : agree lo hi b c -> agree lo hi c b.
Proof. intros H i Hi. symmetry. auto. Qed.

Lemma read_range_agree k : forall b c at_,
  agree at_ (at_ + Z.of_nat k) b c -> read_range b at_ k = read_range c at_ k.
Proof.
  induction k as [|k IH]; intros b c at_ H; cbn [read_range]; [reflexivity|].
  rewrite (H at_) by lia. f_equal. apply IH. eapply agree_mono; [exact H | lia | lia].
Qed.

(** The record lies in the sectors [lo .. hi - 1] and has the shape the decoder demands. *)
Definition record_in (lo hi : Z) (r : record) : Prop :=
  let '(e, name, del) := r in
  lo <= header_sector e /\ 0 <= blocks e <= 8192 /\ header_sector e + 1 + blocks e <= hi /\
  is_Some (zss_name_ok name) /\
  (if del then e_length e = 0 /\ blocks e = 0
   else 0 < e_length e <= ZSS_MAX_FILE /\ blocks e = blocks_of (e_length e)).

Section Log.
Context (n : Z) (Hn : n <= ZEAL_SRC_SECTS).

Lemma log_bounds b pos rs tail :
  image_ok b -> log_at n b pos rs tail -> 0 <= pos <= n ->
  pos <= tail <= n /\
  Forall (record_in pos tail) rs.
Proof.
  intros Hb Hlog. induction Hlog as [pos|pos|pos e name del rs tail Hlt Hz Hd Hlog IH]; intros Hp.
  - split; [lia | constructor].
  - split; [lia | constructor].
  - destruct (Hb pos) as [_ Hby].
    destruct (decode_inv n (b pos) pos e name del Hby Hn ltac:(lia) Hd) as (He & Hnm & Hbl & Hfit & _ & Hk).
    destruct (IH ltac:(lia)) as [Ht Hf]. split; [lia|]. constructor.
    + split; [lia|]. split; [lia|]. split; [lia|]. split; [exact Hnm | exact Hk].
    + eapply Forall_impl; [|exact Hf]. intros [[e' nm'] d']. cbn. intros (H1 & H2). split; [lia | exact H2].
Qed.

Lemma log_tail_bounds b pos rs tail :
  image_ok b -> log_at n b pos rs tail -> 0 <= pos <= n -> pos <= tail <= n.
Proof. intros Hb Hl Hp. exact (proj1 (log_bounds _ _ _ _ Hb Hl Hp)). Qed.

(** The records before [tail] survive any change at or behind it, and the log goes on with
    whatever is there now. *)
Lemma log_append b c pos rs tail rs' tail' :
  image_ok b -> log_at n b pos rs tail -> 0 <= pos <= n ->
  agree pos tail b c -> log_at n c tail rs' tail' ->
  log_at n c pos (rs ++ rs') tail'.
Proof.
  intros Hb Hlog. induction Hlog as [pos|pos|pos e name del rs tail Hlt Hz Hd Hlog IH];
    intros Hp Ha Hc; cbn [app]; [exact Hc | exact Hc |].
  destruct (Hb pos) as [_ Hby].
  destruct (decode_inv n (b pos) pos e name del Hby Hn ltac:(lia) Hd) as (_ & _ & Hbl & Hfit & _).
  pose proof (log_tail_bounds _ _ _ _ Hb Hlog ltac:(lia)) as Ht.
  assert (E : b pos = c pos) by (apply Ha; lia).
  apply log_record; [exact Hlt | rewrite <- E; exact Hz | rewrite <- E; exact Hd |].
  apply IH; [lia | eapply agree_mono; [exact Ha | lia | lia] | exact Hc].
Qed.

Lemma log_end b pos : all_zero (b pos) = true -> log_at n b pos [] pos.
Proof.
  intros H. destruct (Z.lt_ge_cases pos n); [apply log_empty | apply log_full]; assumption.
Qed.

(** What stops the scan at [tail]. *)
Lemma log_tail_end b pos rs tail : log_at n b pos rs tail -> log_at n b tail [] tail.
Proof.
  induction 1 as [pos|pos|]; [apply log_full | apply log_empty |]; assumption.
Qed.

Lemma log_frame b c pos rs tail :
  image_ok b -> log_at n b pos rs tail -> 0 <= pos <= n ->
  agree pos (tail + 1) b c -> log_at n c pos rs tail.
Proof.
  intros Hb Hl Hp Ha. rewrite <- (app_nil_r rs).
  apply (log_append b c pos rs tail); auto.
  - eapply agree_mono; [exact Ha | lia | lia].
  - pose proof (log_tail_bounds _ _ _ _ Hb Hl Hp). apply log_tail_end in Hl.
    inversion Hl; subst; [apply log_full; assumption | apply log_empty; [assumption|]].
    rewrite <- (Ha tail) by lia. assumption.
Qed.

Lemma log_det b pos rs tail rs' tail' :
  log_at n b pos rs tail -> log_at n b pos rs' tail' -> rs = rs' /\ tail = tail'.
Proof.
  intros H. revert rs' tail'. induction H as [pos|pos|pos e name del rs tail Hlt Hz Hd Hlog IH];
    intros rs' tail' H'; inversion H'; subst; try lia; try congruence; auto.
  replace e0 with e in * by congruence.
  edestruct IH as [-> ->]; [eassumption|]. split; [congruence | reflexivity].
Qed.

Lemma record_frame b c e name del lo hi :
  agree lo hi b c -> lo <= header_sector e -> 0 <= blocks e ->
  header_sector e + 1 + blocks e <= hi ->
  (forall m, apply_record b m (e, name, del) = apply_record c m (e, name, del)) /\
  (record_ok b (e, name, del) -> record_ok c (e, name, del)).
Proof.
  intros Ha H1 H2 H3. assert (E : file_bytes b e = file_bytes c e).
  { unfold file_bytes. f_equal. apply read_range_agree.
    eapply agree_mono; [exact Ha | lia | lia]. }
  split; [intros m; cbn; rewrite E; reflexivity | cbn; rewrite E; auto].
Qed.

Lemma records_frame b c lo hi rs :
  agree lo hi b c ->
  Forall (record_in lo hi) rs ->
  store_map b rs = store_map c rs /\ (Forall (record_ok b) rs -> Forall (record_ok c) rs).
Proof.
  intros Ha Hf. split.
  - unfold store_map. generalize (∅ : gmap cstring (list Z)) as m. revert Hf.
    induction rs as [|[[e nm] d] rs IH]; intros Hf m; [reflexivity|]. cbn [fold_left].
    inversion Hf as [|? ? Hr Hf']; subst. destruct Hr as (H1 & H2 & H3 & _).
    destruct (record_frame b c e nm d lo hi Ha H1 ltac:(lia) H3) as [-> _]. apply IH. exact Hf'.
  - induction Hf as [|[[e nm] d] rs (H1 & H2 & H3 & _) Hf IH]; intros Hr; [constructor|].
    inversion Hr; subst. constructor; [|auto].
    destruct (record_frame b c e nm d lo hi Ha H1 ltac:(lia) H3) as [_ G]. auto.
Qed.

End Log.

Lemma store_map_snoc b rs r : store_map b (rs ++ [r]) = apply_record b (store_map b rs) r.
Proof. unfold store_map. rewrite fold_left_app. reflexivity. Qed.

(** ** Stores on disk images *)

(** [v] and [w] agree on both superblocks. *)
Definition same_superblocks (v w : image) : Prop :=
  v ZEAL_SRC_LBA_BASE = w ZEAL_SRC_LBA_BASE /\ v ZEAL_SRC_SHADOW_LBA = w ZEAL_SRC_SHADOW_LBA.

Lemma select_same v w cap : same_superblocks v w -> select v cap = select w cap.
Proof. intros [H1 H2]. unfold select, probe. rewrite H1, H2. reflexivity. Qed.

Lemma select_bank v cap base n gen : select v cap = Some (base, n, gen) ->
  n = ZEAL_SRC_SECTS /\ (base = ZEAL_SRC_LBA_BASE \/ base = ZEAL_SRC_SHADOW_LBA) /\ base + n <= cap.
Proof.
  unfold select, choose_bank, probe.
  change (u64 (ZEAL_SRC_LBA_BASE + ZEAL_SRC_SECTS)) with 196575.
  change (u64 (ZEAL_SRC_SHADOW_LBA + ZEAL_SRC_SHADOW_SECTS)) with 262111.
  unfold ZEAL_SRC_LBA_BASE, ZEAL_SRC_SECTS, ZEAL_SRC_SHADOW_LBA, ZEAL_SRC_SHADOW_SECTS.
  destruct (Z.ltb_spec cap 196575), (Z.ltb_spec cap 262111);
    repeat (destruct (superblock_generation _ _) as [?|]);
    repeat (destruct (_ <? _)); intros [= <- <- <-]; lia.
Qed.

Lemma bank_ok v base : image_ok v -> image_ok (bank v base).
Proof. intros H i. apply H. Qed.

Lemma bank_agree v w base lo hi : agree (base + lo) (base + hi) v w -> agree lo hi (bank v base) (bank w base).
Proof. intros H i Hi. apply H. lia. Qed.

Section Store.
Context (v w : image) (cap base n gen : Z) (rs : list record) (tail : Z).
Hypothesis Hv : image_ok v.
Hypothesis Hs : store_at v cap base n gen rs tail.
Hypothesis Hsup : same_superblocks v w.

Lemma store_geometry : n = ZEAL_SRC_SECTS /\ 1 <= tail <= n /\
  (base = ZEAL_SRC_LBA_BASE \/ base = ZEAL_SRC_SHADOW_LBA) /\ base + n <= cap.
Proof using Hv Hs.
  destruct Hs as [Hsel Hlog _]. destruct (select_bank _ _ _ _ _ Hsel) as (Hn & Hb & Hc).
  split; [exact Hn|]. split; [|auto].
  assert (Hle : n <= ZEAL_SRC_SECTS) by lia.
  apply (log_tail_bounds n Hle (bank v base) 1 rs tail); auto using bank_ok.
  unfold ZEAL_SRC_SECTS in *. lia.
Qed.

Lemma store_records : Forall (record_in 1 tail) rs.
Proof using Hv Hs.
  destruct store_geometry as (Hn & Ht & _). destruct Hs as [_ Hlog _].
  assert (Hle : n <= ZEAL_SRC_SECTS) by lia.
  apply (log_bounds n Hle (bank v base) 1 rs tail); auto using bank_ok.
  unfold ZEAL_SRC_SECTS in *. lia.
Qed.

Lemma store_frame_gen rs' tail' :
  agree (base + 1) (base + tail) v w ->
  log_at n (bank w base) tail rs' tail' -> Forall (record_ok (bank w base)) rs' ->
  store_at w cap base n gen (rs ++ rs') tail' /\
  store_map (bank w base) rs = store_map (bank v base) rs.
Proof using Hv Hs Hsup.
  intros Ha Hlog' Hok'. pose proof store_records as Hr. destruct store_geometry as (Hn & Ht & _).
  assert (Hle : n <= ZEAL_SRC_SECTS) by lia. unfold ZEAL_SRC_SECTS in Hn.
  destruct Hs as [Hsel Hlog Hok].
  destruct (records_frame _ _ 1 tail rs (bank_agree v w base 1 tail Ha) Hr) as [Hm Hf].
  split; [|symmetry; exact Hm]. split.
  - rewrite <- (select_same v w) by exact Hsup. exact Hsel.
  - apply (log_append n Hle (bank v base) _ 1 rs tail); auto using bank_ok, bank_agree. lia.
  - apply Forall_app. auto.
Qed.

(** A change behind the end of the log is not seen. *)
Lemma store_frame :
  agree (base + 1) (base + tail + 1) v w ->
  store_at w cap base n gen rs tail /\ store_map (bank w base) rs = store_map (bank v base) rs.
Proof using Hv Hs Hsup.
  intros Ha. rewrite <- (app_nil_r rs) at 1. apply store_frame_gen; [|  |constructor].
  - eapply agree_mono; [exact Ha | lia | lia].
  - destruct store_geometry as (_ & Ht & _). destruct Hs as [_ Hlog _].
    apply log_tail_end in Hlog. inversion Hlog as [? Hge|? Hlt Hz|]; subst.
    + apply log_full. exact Hge.
    + apply log_empty; [exact Hlt|]. unfold bank in *. rewrite <- Ha by lia. exact Hz.
Qed.

(** A record written at the end of the log is appended to it. *)
Lemma store_append e name del :
  agree (base + 1) (base + tail) v w ->
  tail < n -> all_zero (w (base + tail)) = false ->
  zss_decode_record n (w (base + tail)) tail = Some (e, name, del) ->
  (tail + (1 + blocks e) < n -> all_zero (w (base + (tail + (1 + blocks e)))) = true) ->
  record_ok (bank w base) (e, name, del) ->
  store_at w cap base n gen (rs ++ [(e, name, del)]) (tail + (1 + blocks e)) /\
  store_map (bank w base) (rs ++ [(e, name, del)]) =
  apply_record (bank w base) (store_map (bank v base) rs) (e, name, del).
Proof using Hv Hs Hsup.
  intros Ha Ht Hz Hd Hend Hok.
  assert (Hlog' : log_at n (bank w base) tail [(e, name, del)] (tail + (1 + blocks e))).
  { apply log_record; [exact Ht | exact Hz | exact Hd|].
    destruct (Z.lt_ge_cases (tail + (1 + blocks e)) n); [|apply log_full; assumption].
    apply log_empty; [assumption | apply Hend; assumption]. }
  destruct (store_frame_gen _ _ Ha Hlog') as [G Hm]; [constructor; [exact Hok | constructor]|].
  split; [exact G|]. rewrite store_map_snoc, Hm. reflexivity.
Qed.

End Store.

Lemma represents_intro v cap base n gen rs tail m :
  store_at v cap base n gen rs tail -> m = store_map (bank v base) rs -> represents v cap m.
Proof. intros H E. exists base, n, gen, rs, tail. auto. Qed.

(** The abstraction does not tell extensionally equal images apart. *)
Lemma represents_eq v w cap m : w ==i v -> represents v cap m -> represents w cap m.
Proof.
  intros E (base & n & gen & rs & tail & [Hsel Hlog Hok] & ->).
  assert (El : forall i, bank w base i = bank v base i) by (intros i; apply E).
  assert (Ef : forall e, file_bytes (bank w base) e = file_bytes (bank v base) e).
  { intros e. unfold file_bytes. f_equal. apply read_range_agree. intros i _. apply El. }
  exists base, n, gen, rs, tail. split; [split|].
  - rewrite <- Hsel. apply select_same. split; apply E.
  - clear Hok Hsel. induction Hlog; [apply log_full | apply log_empty | apply log_record]; auto;
      rewrite El; assumption.
  - eapply Forall_impl; [|exact Hok]. intros [[e nm] del]. cbn. rewrite Ef. auto.
  - unfold store_map. generalize (∅ : gmap cstring (list Z)). clear Hlog Hok Hsel.
    induction rs as [|[[e nm] del] rs IH]; intros m; [reflexivity|]. cbn [fold_left apply_record].
    rewrite Ef. apply IH.
Qed.
