(* ===== verification/SourceStoreSpec.v ===== *)
(** * The source partition's operations against the block interface

    Every lemma here is about an arbitrary device that satisfies [BlockDevLaws].  [evolves P d d']
    says what a run can have done to the device: sectors outside [P] are as they were, both for
    reads and after a power loss. *)

From stdpp Require Import gmap.
From S2P Require Import Prelude BlockDev SourceStore SourceStoreLog.
#[local] Open Scope sm_scope.

Section Spec.
Context {D : Type} `{Hdev : BlockDev D} `{Hview : BlockDevView D} `{Hlaw : !BlockDevLaws D}.
Implicit Types (d : D) (s : zst D).

(** ** What a run can change *)

Record evolves (P : Z -> Prop) d d' : Prop := {
  ev_wf : dev_wf d';
  ev_attrs : attrs d' = attrs d;
  ev_alive : alive d' = true -> alive d = true;
  ev_view : forall i, ~ P i -> view d' i = view d i;
  ev_crash : forall v, crash d' v -> exists v0, crash d v0 /\ forall i, ~ P i -> v i = v0 i }.

Definition nowhere : Z -> Prop := fun _ => False.

Lemma evolves_refl P d : dev_wf d -> evolves P d d.
Proof. intros H. split; auto. intros v Hv. eauto. Qed.

Lemma evolves_trans P d1 d2 d3 : evolves P d1 d2 -> evolves P d2 d3 -> evolves P d1 d3.
Proof.
  intros [W1 A1 L1 V1 C1] [W2 A2 L2 V2 C2]. split; auto.
  - congruence.
  - intros i Hi. rewrite V2, V1 by exact Hi. reflexivity.
  - intros v Hv. destruct (C2 v Hv) as (v1 & Hv1 & E1). destruct (C1 v1 Hv1) as (v0 & Hv0 & E0).
    exists v0. split; [exact Hv0|]. intros i Hi. rewrite E1, E0 by exact Hi. reflexivity.
Qed.

Lemma evolves_mono (P Q : Z -> Prop) d d' : (forall i, P i -> Q i) -> evolves P d d' -> evolves Q d d'.
Proof.
  intros H [W A L V C]. split; auto.
  intros v Hv. destruct (C v Hv) as (v0 & Hv0 & E). exists v0. split; [exact Hv0|].
  intros i Hi. apply E. auto.
Qed.

Lemma evolves_nowhere P d d' : evolves nowhere d d' -> evolves P d d'.
Proof. apply evolves_mono. intros i []. Qed.

Lemma read_evolves lba d r d' :
  dev_wf d -> virtio_blk_read_abs lba d = (r, d') -> evolves nowhere d d'.
Proof.
  intros W H. destruct (read_law _ _ _ _ W H) as [W' A V C _ L _ _].
  split; auto. intros v Hv. exists v. auto.
Qed.

Lemma write_evolves lba x d ok d' :
  dev_wf d -> sector_ok x -> virtio_blk_write_abs lba x d = (ok, d') -> evolves (eq lba) d d'.
Proof.
  intros W Hx H. destruct (write_law _ _ _ _ _ W Hx H) as [W' A V F C L _ _]. split; auto.
  - intros i Hi. assert (E : upd (view d) lba x i = view d i) by (apply upd_ne; congruence).
    destruct ok; [rewrite V by reflexivity; exact E|].
    destruct (F eq_refl) as [G|G]; rewrite (G i); [reflexivity | exact E].
  - intros v Hv. destruct (C v Hv) as (v0 & Hv0 & [G|[_ G]]); exists v0; (split; [exact Hv0|]);
      intros i Hi; rewrite (G i); [reflexivity | apply upd_ne; congruence].
Qed.

Lemma flush_evolves d ok d' :
  dev_wf d -> virtio_blk_flush_abs d = (ok, d') -> evolves nowhere d d'.
Proof.
  intros W H. destruct (flush_law _ _ _ W H) as [W' A V C _ L _ _].
  split; auto. intros v Hv. exists v. auto.
Qed.

(** ** Bank requests *)

Definition online d : Prop := virtio_blk_ready d = true /\ xport_pci d = true.

Lemma online_attrs d d' : attrs d' = attrs d -> online d -> online d'.
Proof. unfold online, attrs. intros [= -> -> _ _] H. exact H. Qed.

Lemma capacity_attrs d d' : attrs d' = attrs d -> full_capacity d' = full_capacity d.
Proof. unfold attrs. intros [= _ _ -> _]. reflexivity. Qed.

Lemma flush_attrs d d' : attrs d' = attrs d -> flush_supported d' = flush_supported d.
Proof. unfold attrs. intros [= _ _ _ ->]. reflexivity. Qed.

(** The globals name a bank the device covers. *)
Definition bank_on d (base n : Z) : Prop :=
  online d /\ n = ZEAL_SRC_SECTS /\ (base = ZEAL_SRC_LBA_BASE \/ base = ZEAL_SRC_SHADOW_LBA) /\
  base + n <= full_capacity d.

Lemma bank_on_attrs d d' base n : attrs d' = attrs d -> bank_on d base n -> bank_on d' base n.
Proof.
  intros A (O & Hn & Hb & Hc). split; [eapply online_attrs; eauto|].
  rewrite (capacity_attrs _ _ A). auto.
Qed.

Lemma bank_lba d base n i : bank_on d base n -> 0 <= i < n ->
  u64 (base + i) = base + i /\ usable d (base + i).
Proof.
  intros ([R X] & -> & Hb & Hc) Hi. unfold ZEAL_SRC_SECTS, ZEAL_SRC_LBA_BASE, ZEAL_SRC_SHADOW_LBA in *.
  split; [apply u64_id; lia | split; [exact R | split; [exact X | lia]]].
Qed.

Lemma bank_read_spec base n i s :
  dev_wf (z_dev s) -> bank_on (z_dev s) base n -> 0 <= i < n ->
  exists r d', zss_bank_read base i s = Some (r, set_dev d' s) /\ evolves nowhere (z_dev s) d' /\
    ((r = Some (view (z_dev s) (base + i)) /\ alive (z_dev s) = true) \/
     (r = None /\ alive d' = false)).
Proof.
  intros W B Hi. destruct (bank_lba _ _ _ _ B Hi) as [E U]. unfold zss_bank_read. rewrite E.
  destruct (virtio_blk_read_abs (base + i) (z_dev s)) as [r d'] eqn:R.
  exists r, d'. split; [reflexivity|]. split; [exact (read_evolves _ _ _ _ W R)|].
  destruct (read_law _ _ _ _ W R) as [_ _ _ _ Hval _ Htot Hdead].
  destruct r as [x|].
  - left. rewrite (Hval x eq_refl). split; [reflexivity|].
    destruct (alive (z_dev s)); [reflexivity | discriminate (Hdead eq_refl)].
  - right. split; [reflexivity|]. destruct (alive d'); [discriminate (Htot eq_refl U) | reflexivity].
Qed.

Definition zbank_on s : Prop := bank_on (z_dev s) (g_zss_base s) (g_zss_sectors s).

Lemma sector_read_spec i s :
  dev_wf (z_dev s) -> zbank_on s -> 0 <= i < g_zss_sectors s ->
  exists r d', zss_sector_read i s = Some (r, set_dev d' s) /\ evolves nowhere (z_dev s) d' /\
    ((r = Some (view (z_dev s) (g_zss_base s + i)) /\ alive (z_dev s) = true) \/
     (r = None /\ alive d' = false)).
Proof.
  intros W B Hi. unfold zss_sector_read. destruct (Z.ltb_spec i (g_zss_sectors s)); [|lia].
  exact (bank_read_spec _ _ _ _ W B Hi).
Qed.

Lemma bank_write_spec base n i x s :
  dev_wf (z_dev s) -> bank_on (z_dev s) base n -> 0 <= i < n -> sector_ok x ->
  exists ok d', zss_bank_write base i x s = Some (ok, set_dev d' s) /\
    write_spec (base + i) x (z_dev s) ok d' /\
    evolves (eq (base + i)) (z_dev s) d' /\ (ok = false -> alive d' = false).
Proof.
  intros W B Hi Hx. destruct (bank_lba _ _ _ _ B Hi) as [E U]. unfold zss_bank_write. rewrite E.
  destruct (virtio_blk_write_abs _ x (z_dev s)) as [ok d'] eqn:R.
  pose proof (write_law _ _ _ _ _ W Hx R) as S. exists ok, d'. split; [reflexivity|].
  split; [exact S|]. split; [exact (write_evolves _ _ _ _ _ W Hx R)|].
  intros ->. destruct (alive d') eqn:La; [|reflexivity]. discriminate (wr_total _ _ _ _ _ S La U).
Qed.

Lemma sector_write_spec i x s :
  dev_wf (z_dev s) -> zbank_on s -> 0 <= i < g_zss_sectors s -> sector_ok x ->
  exists ok d', zss_sector_write i x s = Some (ok, set_dev d' s) /\
    write_spec (g_zss_base s + i) x (z_dev s) ok d' /\
    evolves (eq (g_zss_base s + i)) (z_dev s) d' /\ (ok = false -> alive d' = false).
Proof.
  intros W B Hi Hx. unfold zss_sector_write. destruct (Z.ltb_spec i (g_zss_sectors s)); [|lia].
  exact (bank_write_spec _ _ _ _ _ W B Hi Hx).
Qed.

(** ** Bank selection *)

Lemma probe_bank_spec base n s :
  dev_wf (z_dev s) -> online (z_dev s) -> n = ZEAL_SRC_SECTS ->
  (base = ZEAL_SRC_LBA_BASE \/ base = ZEAL_SRC_SHADOW_LBA) ->
  exists g d', zss_probe_bank base n s = Some (g, set_dev d' s) /\ evolves nowhere (z_dev s) d' /\
    (alive d' = true -> g = probe (view (z_dev s)) (full_capacity (z_dev s)) base n) /\
    (is_Some g -> bank_on (z_dev s) base n).
Proof.
  intros W O Hn Hb. unfold zss_probe_bank, probe.
  destruct (Z.ltb_spec (full_capacity (z_dev s)) (u64 (base + n))) as [Hc|Hc].
  - exists None, (z_dev s). split; [destruct s; reflexivity|].
    split; [apply evolves_refl; exact W|]. split; [reflexivity | intros [? [=]]].
  - assert (B : bank_on (z_dev s) base n).
    { split; [exact O|]. rewrite u64_id in Hc; [auto|].
      unfold ZEAL_SRC_SECTS, ZEAL_SRC_LBA_BASE, ZEAL_SRC_SHADOW_LBA in *. lia. }
    assert (Hi : 0 <= 0 < n) by (unfold ZEAL_SRC_SECTS in Hn; lia).
    destruct (bank_read_spec base n 0 s W B Hi) as (r & d' & E & Ev & Hr).
    exists (match r with None => None | Some sec => superblock_generation n sec end), d'.
    rewrite (bind_some _ _ _ _ _ E). split; [reflexivity|]. split; [exact Ev|].
    split; [|intros _; exact B]. intros La. destruct Hr as [[-> _]|[_ F]]; [|congruence]. rewrite Z.add_0_r. reflexivity.
Qed.

Lemma set_dev_set_dev d d' s : set_dev d (set_dev d' s) = set_dev d s.
Proof. reflexivity. Qed.

Lemma available_spec s :
  dev_wf (z_dev s) -> online (z_dev s) ->
  exists ok d' sel, zss_available s = Some (ok, match sel with
      | Some (base, n, gen) => set_bank base n gen (set_dev d' s)
      | None => set_dev d' s
      end) /\
    evolves nowhere (z_dev s) d' /\ ok = bool_decide (is_Some sel) /\
    (alive d' = true -> sel = select (view (z_dev s)) (full_capacity (z_dev s))) /\
    (forall base n gen, sel = Some (base, n, gen) -> bank_on d' base n).
Proof.
  intros W O. unfold zss_available. destruct O as [Or Ox]. rewrite Or, Ox. cbn [negb orb].
  destruct (probe_bank_spec ZEAL_SRC_LBA_BASE ZEAL_SRC_SECTS s W (conj Or Ox) eq_refl (or_introl eq_refl))
    as (a & d1 & Ea & Ev1 & Ha & Hca).
  pose proof (ev_attrs _ _ _ Ev1) as A1.
  assert (O1 : online d1) by (eapply online_attrs; [exact A1 | split; assumption]).
  destruct (probe_bank_spec ZEAL_SRC_SHADOW_LBA ZEAL_SRC_SHADOW_SECTS (set_dev d1 s)
    (ev_wf _ _ _ Ev1) O1 eq_refl (or_intror eq_refl)) as (b & d2 & Eb & Ev2 & Hb & Hcb).
  rewrite (bind_some _ _ _ _ _ Ea), (bind_some _ _ _ _ _ Eb). rewrite set_dev_set_dev.
  cbn [z_dev set_dev] in *. pose proof (ev_attrs _ _ _ Ev2) as A2.
  exists (bool_decide (is_Some (choose_bank a b))), d2, (choose_bank a b).
  split; [destruct (choose_bank a b) as [[[? ?] ?]|]; reflexivity|].
  split; [eapply evolves_trans; eassumption|]. split; [reflexivity|]. split.
  - intros La. unfold select. rewrite (Hb La), (Ha (ev_alive _ _ _ Ev2 La)).
    unfold probe. rewrite (capacity_attrs _ _ A1).
    rewrite (ev_view _ _ _ Ev1) by (intros []). reflexivity.
  - intros base n gen Hsel.
    assert (G : forall base n, bank_on (z_dev s) base n -> bank_on d2 base n).
    { intros base' n' B. eapply bank_on_attrs; [|exact B]. congruence. }
    assert (Gb : is_Some b -> bank_on d2 ZEAL_SRC_SHADOW_LBA ZEAL_SRC_SHADOW_SECTS).
    { intros Sb. eapply bank_on_attrs; [exact A2 | auto]. }
    destruct a as [ga|], b as [gb|]; cbn in Hsel; try (destruct (ga <? gb));
      try discriminate Hsel; injection Hsel as <- <- <-; eauto.
Qed.

(** ** The scan *)

Definition find_step (name : option cstring) (st : Z * option zss_entry) (r : record)
    : Z * option zss_entry :=
  let '(e, nm, del) := r in
  if match name with Some n => zss_str_eq nm n | None => false end
  then (if del : bool then -3 else 1, Some e) else st.

Definition scan_result (name : option cstring) (rs : list record) : Z * option zss_entry :=
  fold_left (find_step name) rs (0, None).

Lemma u32_add_l a b : u32 (u32 a + b) = u32 (a + b).
Proof. unfold u32, wrap. apply Zplus_mod_idemp_l. Qed.

Lemma set_dev_same s : set_dev (z_dev s) s = s.
Proof. destruct s. reflexivity. Qed.

Lemma find_loop_spec name fuel : forall pos records found out s rs tail,
  dev_wf (z_dev s) -> zbank_on s ->
  log_at (g_zss_sectors s) (bank (view (z_dev s)) (g_zss_base s)) pos rs tail ->
  1 <= pos <= g_zss_sectors s -> (Z.to_nat (g_zss_sectors s - pos) < fuel)%nat ->
  records = u32 records ->
  exists r d', zss_find_loop fuel name pos records found out s = Some (r, set_dev d' s) /\
    evolves nowhere (z_dev s) d' /\
    ((let st := fold_left (find_step name) rs (found, out) in
      r = mk_find st.1 st.2 tail (u32 (records + Z.of_nat (length rs))) /\
      (pos < g_zss_sectors s -> alive (z_dev s) = true)) \/
     (fr_code r = -1 /\ alive d' = false)).
Proof.
  induction fuel as [|fuel IH]; intros pos records found out s rs tail W B Hlog Hp Hf Hr; [lia|].
  cbn [zss_find_loop]. destruct (Z.ltb_spec pos (g_zss_sectors s)) as [Hlt|Hge]; cbn [negb].
  2: { inversion Hlog; subst; try lia. exists (mk_find found out tail records), (z_dev s).
       rewrite set_dev_same. split; [reflexivity|]. split; [apply evolves_refl; exact W|].
       left. cbn. split; [f_equal; rewrite Z.add_0_r; exact Hr | lia]. }
  destruct (sector_read_spec pos s W B ltac:(lia)) as (r & d1 & E & Ev & Hcase).
  rewrite (bind_some _ _ _ _ _ E).
  destruct Hcase as [[-> La]|[-> La]].
  2: { eexists _, d1. split; [reflexivity|]. split; [exact Ev | right; auto]. }
  change (view (z_dev s) (g_zss_base s + pos))
    with (bank (view (z_dev s)) (g_zss_base s) pos).
  inversion Hlog as [? Hge|? _ Hz|? e nm del rs' ? _ Hz Hd Hlog']; subst; [lia | |].
  - rewrite Hz. eexists _, d1. split; [reflexivity|]. split; [exact Ev|].
    left. cbn. split; [f_equal; rewrite Z.add_0_r; exact Hr | auto].
  - rewrite Hz, Hd.
    assert (Hby : bytes_ok (bank (view (z_dev s)) (g_zss_base s) pos)) by (apply view_ok; exact W).
    destruct B as (O & Hn & Hb & Hc).
    destruct (decode_inv (g_zss_sectors s) _ pos e nm del Hby ltac:(lia) ltac:(lia) Hd)
      as (_ & _ & Hbk & Hfit & _).
    unfold ZEAL_SRC_SECTS in Hn.
    rewrite (u32_id (pos + _)) by lia.
    pose proof (ev_attrs _ _ _ Ev) as A.
    destruct (IH (pos + (1 + blocks e)) (u32 (records + 1))
      (find_step name (found, out) (e, nm, del)).1 (find_step name (found, out) (e, nm, del)).2
      (set_dev d1 s) rs' tail) as (r & d2 & E2 & Ev2 & Hres); cbn [z_dev set_dev g_zss_sectors g_zss_base].
    + exact (ev_wf _ _ _ Ev).
    + eapply bank_on_attrs; [exact A | repeat split; auto].
      all: apply O.
    + assert (Hle : g_zss_sectors s <= ZEAL_SRC_SECTS) by (unfold ZEAL_SRC_SECTS; lia).
      apply (log_frame _ Hle (bank (view (z_dev s)) (g_zss_base s))); [|exact Hlog' | lia |].
      * apply bank_ok. intros i. apply view_ok. exact W.
      * intros i Hi. unfold bank. symmetry. apply (ev_view _ _ _ Ev). intros [].
    + lia.
    + lia.
    + unfold u32, wrap. rewrite Zmod_mod. reflexivity.
    + exists r, d2. split.
      * etransitivity; [|exact E2]. cbn [find_step]. destruct name as [n|]; [destruct (zss_str_eq nm n)|]; reflexivity.
      * split; [eapply evolves_trans; eassumption|]. destruct Hres as [[-> _]|Hbad]; [left|right; exact Hbad].
        cbn [fold_left]. rewrite u32_add_l. split; [|auto].
        rewrite <- surjective_pairing. f_equal. f_equal. cbn [length]. lia.
Qed.

(** ** Lookup *)

Lemma set_bank_set_dev d base n gen s :
  set_dev d (set_bank base n gen s) = set_bank base n gen (set_dev d s).
Proof. reflexivity. Qed.

(** The globals of [zss_find]'s final state, when it is run on a healthy device. *)
Definition on_bank base n gen d s : zst D := set_bank base n gen (set_dev d s).

Lemma image_ok_view d : dev_wf d -> image_ok (view d).
Proof. intros W i. apply view_ok. exact W. Qed.

(** On a failed device the scan stops at its first read. *)
Lemma find_loop_dead name fuel s :
  dev_wf (z_dev s) -> zbank_on s -> alive (z_dev s) = false ->
  exists d', zss_find_loop (S fuel) name 1 0 0 None s = Some (find_error (-1) None, set_dev d' s) /\
    evolves nowhere (z_dev s) d' /\ alive d' = false.
Proof.
  intros W B La. assert (Hn : g_zss_sectors s = ZEAL_SRC_SECTS) by apply B.
  unfold ZEAL_SRC_SECTS in Hn.
  destruct (sector_read_spec 1 s W B ltac:(lia)) as (r & d' & E & Ev & [[_ Hc]|[-> Hd]]); [congruence|].
  exists d'. split; [|auto]. cbn [zss_find_loop].
  destruct (Z.ltb_spec 1 (g_zss_sectors s)); [|lia]. cbn [negb].
  rewrite (bind_some _ _ _ _ _ E). reflexivity.
Qed.

(** [zss_find] returns.  Either it reports what the records say, from the selected bank, or the
    device has failed, and it reports an error. *)
Lemma find_spec name s base n gen rs tail :
  dev_wf (z_dev s) -> online (z_dev s) ->
  store_at (view (z_dev s)) (full_capacity (z_dev s)) base n gen rs tail ->
  (forall nm, name = Some nm -> is_Some (zss_name_ok nm)) ->
  exists r d' s', zss_find name s = Some (r, s') /\ z_dev s' = d' /\
    evolves nowhere (z_dev s) d' /\
    ((s' = on_bank base n gen d' s /\ bank_on d' base n /\
      r = mk_find (scan_result name rs).1 (scan_result name rs).2 tail
            (u32 (Z.of_nat (length rs)))) \/
     ((fr_code r = -1 \/ fr_code r = -2) /\ alive d' = false)).
Proof.
  intros W O Hs Hname. unfold zss_find.
  assert (Hok : match name with Some nm => negb (bool_decide (is_Some (zss_name_ok nm))) | None => false end = false).
  { destruct name as [nm|]; [|reflexivity]. rewrite bool_decide_true by auto. reflexivity. }
  rewrite Hok. destruct (available_spec s W O) as (ok & d1 & sel & E & Ev & -> & Hsel & Hon).
  rewrite (bind_some _ _ _ _ _ E).
  destruct sel as [[[base' n'] gen']|]; cbn [is_Some].
  2: { rewrite bool_decide_false by (intros [? [=]]). eexists _, d1, _. split; [reflexivity|].
       split; [reflexivity|]. split; [exact Ev|]. right. split; [right; reflexivity|].
       destruct (alive d1) eqn:La; [|reflexivity]. destruct Hs as [Hsel0 _ _].
       rewrite <- (Hsel eq_refl) in Hsel0. discriminate. }
  rewrite bool_decide_true by eauto.
  pose proof (Hon _ _ _ eq_refl) as B1. pose proof (ev_wf _ _ _ Ev) as W1.
  destruct (alive d1) eqn:La1.
  - (* every probe was answered *)
    destruct Hs as [Hsel0 Hlog Hrok]. rewrite <- (Hsel eq_refl) in Hsel0.
    injection Hsel0 as -> -> ->.
    assert (Hn : n = ZEAL_SRC_SECTS) by apply B1. unfold ZEAL_SRC_SECTS in Hn.
    assert (Hle : n <= ZEAL_SRC_SECTS) by (unfold ZEAL_SRC_SECTS; lia).
    set (s1 := set_bank base n gen (set_dev d1 s)).
    assert (Hlog1 : log_at n (bank (view d1) base) 1 rs tail).
    { apply (log_frame _ Hle (bank (view (z_dev s)) base)); [|exact Hlog | lia |].
      - apply bank_ok, image_ok_view, W.
      - intros i Hi. unfold bank. symmetry. apply (ev_view _ _ _ Ev). intros []. }
    destruct (find_loop_spec name (find_fuel s1) 1 0 0 None s1 rs tail W1 B1 Hlog1 ltac:(cbn; lia)
      ltac:(unfold find_fuel; cbn; lia) eq_refl) as (r & d2 & E2 & Ev2 & Hres).
    exists r, d2, (on_bank base n gen d2 s).
    split; [rewrite (bind_some _ _ _ _ _ eq_refl); exact E2|]. split; [reflexivity|].
    split; [eapply evolves_trans; eassumption|].
    destruct Hres as [[-> _]|[Hr Hd]]; [left | right; auto].
    split; [reflexivity|]. split; [|reflexivity].
    eapply bank_on_attrs; [exact (ev_attrs _ _ _ Ev2) | exact B1].
  - destruct (find_loop_dead name (Z.to_nat n') (set_bank base' n' gen' (set_dev d1 s)) W1 B1 La1)
      as (d2 & E2 & Ev2 & La2).
    eexists _, d2, _. split; [rewrite (bind_some _ _ _ _ _ eq_refl); exact E2|].
    split; [reflexivity|]. split; [eapply evolves_trans; eassumption|]. right. auto.
Qed.

(** What the scan reports about a name is what the abstract map holds for it. *)
Lemma scan_result_lookup b name rs :
  match store_map b rs !! name with
  | Some data => exists e, scan_result (Some name) rs = (1, Some e) /\
                   In (e, name, false) rs /\ data = file_bytes b e
  | None => (scan_result (Some name) rs).1 = 0 \/ (scan_result (Some name) rs).1 = -3
  end.
Proof.
  induction rs as [|[[e nm] del] rs IH] using rev_ind; [left; reflexivity|].
  rewrite store_map_snoc. unfold scan_result. rewrite fold_left_app. fold (scan_result (Some name) rs).
  cbn [fold_left apply_record find_step]. rewrite zss_str_eq_spec.
  destruct (decide (nm = name)) as [->|Hne].
  - rewrite bool_decide_true by reflexivity. destruct del.
    + rewrite lookup_delete_eq. right. reflexivity.
    + rewrite lookup_insert_eq. exists e. split; [reflexivity|].
      split; [apply in_or_app; right; left; reflexivity | reflexivity].
  - rewrite bool_decide_false by exact Hne.
    assert (El : (if del then delete nm (store_map b rs) else <[nm:=file_bytes b e]> (store_map b rs))
                 !! name = store_map b rs !! name).
    { destruct del; [apply lookup_delete_ne | apply lookup_insert_ne]; exact Hne. }
    rewrite El. destruct (store_map b rs !! name) as [data|]; [|exact IH].
    destruct IH as (e0 & E & Hin & Hd). exists e0. split; [exact E|].
    split; [apply in_or_app; left; exact Hin | exact Hd].
Qed.

(** ** Appending *)

Lemma flush_fails_spec s :
  dev_wf (z_dev s) -> online (z_dev s) ->
  exists bad d', flush_fails s = Some (bad, set_dev d' s) /\ evolves nowhere (z_dev s) d' /\
    (bad = false -> synced d') /\ (bad = true -> alive d' = false).
Proof.
  intros W [Or Ox]. unfold flush_fails. destruct (flush_supported (z_dev s)) eqn:Hf.
  - destruct (virtio_blk_flush_abs (z_dev s)) as [ok d'] eqn:E.
    exists (negb ok), d'. unfold bind, blk_flush. rewrite E. split; [reflexivity|].
    split; [exact (flush_evolves _ _ _ W E)|].
    destruct (flush_law _ _ _ W E) as [_ _ _ _ Hs _ Ht _]. split.
    + intros Hb. apply negb_false_iff in Hb. exact (Hs Hb).
    + intros Hb. apply negb_true_iff in Hb. destruct (alive d'); [|reflexivity].
      rewrite (Ht eq_refl Or Ox Hf) in Hb. discriminate.
  - exists false, (z_dev s). rewrite set_dev_same. split; [reflexivity|].
    split; [apply evolves_refl; exact W|]. split; [|discriminate].
    intros _ v Hv. apply write_through; assumption.
Qed.

Lemma zeros_ok : sector_ok (zeros SECT).
Proof. exact blank_ok. Qed.

(** The sector the terminator goes to, when the bank has it. *)
Definition term_lba (base n next : Z) : Z -> Prop := fun i => next < n /\ i = base + next.

(** The terminator: sector [next] reads as zeros afterwards, when the bank has it. *)
Lemma terminate_spec next s :
  dev_wf (z_dev s) -> zbank_on s -> 0 <= next ->
  exists ok d', zss_terminate_log next s = Some (ok, set_dev d' s) /\
    evolves (term_lba (g_zss_base s) (g_zss_sectors s) next) (z_dev s) d' /\
    (ok = false -> alive d' = false) /\
    (ok = true -> next < g_zss_sectors s -> view d' (g_zss_base s + next) = zeros SECT).
Proof.
  intros W B Hn. unfold zss_terminate_log. destruct (Z.leb_spec (g_zss_sectors s) next).
  - exists true, (z_dev s). rewrite set_dev_same. split; [reflexivity|].
    split; [apply evolves_refl; exact W|]. split; [discriminate | lia].
  - destruct (sector_write_spec next (zeros SECT) s W B ltac:(lia) zeros_ok)
      as (ok & d' & E & S & Ev & Hf).
    exists ok, d'. split; [exact E|].
    split; [eapply evolves_mono; [|exact Ev]; intros i <-; split; [assumption | reflexivity]|].
    split; [exact Hf|]. intros Hok _. rewrite (wr_view _ _ _ _ _ S Hok). apply upd_eq.
Qed.

(** [w] is [v] with [header] at the end of the log and the log terminated behind the record. *)
Definition committed (v : image) (base n tail next : Z) (header : sector) (w : image) : Prop :=
  (forall i, i <> base + tail -> ~ term_lba base n next i -> w i = v i) /\
  w (base + tail) = header /\ (next < n -> w (base + next) = zeros SECT).

Record commit_post (tail next : Z) (header : sector) s (code : Z) (s' : zst D) : Prop := {
  cp_wf : dev_wf (z_dev s');
  cp_attrs : attrs (z_dev s') = attrs (z_dev s);
  cp_crash : forall v, crash (z_dev s') v ->
    (exists v0, crash (z_dev s) v0 /\ forall i, ~ term_lba (g_zss_base s) (g_zss_sectors s) next i -> v i = v0 i) \/
    committed (view (z_dev s)) (g_zss_base s) (g_zss_sectors s) tail next header v;
  cp_ok : code = 0 ->
    committed (view (z_dev s)) (g_zss_base s) (g_zss_sectors s) tail next header (view (z_dev s')) /\
    synced (z_dev s');
  cp_code : code = 0 \/ code = -1 \/ code = -5;
  cp_alive : alive (z_dev s') = true -> code = 0 /\ alive (z_dev s) = true }.

Lemma commit_fail tail next header s d' :
  evolves (term_lba (g_zss_base s) (g_zss_sectors s) next) (z_dev s) d' -> alive d' = false ->
  commit_post tail next header s (-1) (set_dev d' s).
Proof.
  intros Ev La. split; cbn [z_dev set_dev]; try apply Ev; auto; try congruence.
  intros v Hv. left. exact (ev_crash _ _ _ Ev v Hv).
Qed.

(** The header write, on a device whose medium is up to date, and the final flush. *)
Lemma commit_header tail next header s d2 :
  let base := g_zss_base s in
  zbank_on s -> evolves (term_lba base (g_zss_sectors s) next) (z_dev s) d2 -> synced d2 ->
  (next < g_zss_sectors s -> view d2 (base + next) = zeros SECT) ->
  0 <= tail < g_zss_sectors s -> tail < next -> sector_ok header ->
  exists code s',
    (let! ok := zss_sector_write tail header in
     if negb ok then ret (-1)
     else modify invalidate_catalog ;;
          let! bad := flush_fails in ret (if bad then -5 else 0)) (set_dev d2 s) = Some (code, s') /\
    commit_post tail next header s code s'.
Proof.
  intros base B Ev Hsync Hz Ht Hlt Hh.
  pose proof (ev_attrs _ _ _ Ev) as A2. pose proof (ev_wf _ _ _ Ev) as W2.
  assert (B2 : zbank_on (set_dev d2 s)) by (eapply bank_on_attrs; [exact A2 | exact B]).
  destruct (sector_write_spec tail header (set_dev d2 s) W2 B2 Ht Hh) as (ok & d3 & E & S & Ev3 & Hf).
  rewrite (bind_some _ _ _ _ _ E). cbn [z_dev set_dev g_zss_base] in S, Ev3. fold base in S, Ev3.
  assert (Hcom : forall v, v ==i upd (view d2) (base + tail) header ->
    committed (view (z_dev s)) base (g_zss_sectors s) tail next header v).
  { intros v G. split; [|split].
    - intros i H1 H2. rewrite (G i), upd_ne by exact H1. apply (ev_view _ _ _ Ev). exact H2.
    - rewrite (G _). apply upd_eq.
    - intros Hn. rewrite (G _), upd_ne by lia. auto. }
  assert (Hcrash : forall v, crash d3 v ->
    (exists v0, crash (z_dev s) v0 /\
       forall i, ~ term_lba base (g_zss_sectors s) next i -> v i = v0 i) \/
    committed (view (z_dev s)) base (g_zss_sectors s) tail next header v).
  { intros v Hv. destruct (wr_crash _ _ _ _ _ S v Hv) as (v1 & Hv1 & [G|[_ G]]).
    - left. destruct (ev_crash _ _ _ Ev v1 Hv1) as (v0 & Hv0 & G0). exists v0. split; [exact Hv0|].
      intros i Hi. rewrite (G i). apply G0. exact Hi.
    - right. apply Hcom. rewrite G. rewrite (Hsync v1 Hv1). reflexivity. }
  pose proof (wr_wf _ _ _ _ _ S) as W3. pose proof (wr_attrs _ _ _ _ _ S) as A3.
  destruct ok; cbn [negb].
  2: { exists (-1), (set_dev d3 s). split; [reflexivity|].
       split; cbn [z_dev set_dev]; auto; try congruence; rewrite Hf; congruence. }
  pose (s3 := invalidate_catalog (set_dev d3 s)).
  assert (O3 : online (z_dev s3)) by (eapply online_attrs; [|apply B]; cbn; congruence).
  destruct (flush_fails_spec s3 W3 O3) as (bad & d4 & E4 & Ev4 & Hsy & Hbad).
  exists (if bad then -5 else 0), (set_dev d4 s3). split.
  { rewrite (bind_some _ _ _ _ _ eq_refl). fold s3. rewrite (bind_some _ _ _ _ _ E4). reflexivity. }
  cbn [z_dev s3 invalidate_catalog set_dev] in *. split; cbn [z_dev set_dev].
  - exact (ev_wf _ _ _ Ev4).
  - rewrite (ev_attrs _ _ _ Ev4). congruence.
  - intros v Hv. destruct (ev_crash _ _ _ Ev4 v Hv) as (v3 & Hv3 & G).
    destruct (Hcrash v3 Hv3) as [(v0 & Hv0 & G0)|(C1 & C2 & C3)].
    + left. exists v0. split; [exact Hv0|]. intros i Hi. rewrite G by intros []. auto.
    + right. split; [|split]; intros; rewrite G by intros []; auto.
  - destruct bad; [discriminate|]. intros _. split; [|auto]. apply Hcom.
    intros i. rewrite (ev_view _ _ _ Ev4) by intros []. apply (wr_view _ _ _ _ _ S eq_refl).
  - destruct bad; auto.
  - intros La. destruct bad; [rewrite Hbad in La; congruence|]. split; [reflexivity|].
    apply (ev_alive _ _ _ Ev). apply (ev_alive _ _ _ Ev3). apply (ev_alive _ _ _ Ev4). exact La.
Qed.

Lemma commit_spec tail next header s :
  dev_wf (z_dev s) -> zbank_on s -> 0 <= tail < next -> next <= g_zss_sectors s ->
  sector_ok header ->
  exists code s', zss_commit tail next header s = Some (code, s') /\
    commit_post tail next header s code s'.
Proof.
  intros W B Ht Hnext Hh. unfold zss_commit.
  destruct (terminate_spec next s W B ltac:(lia)) as (ok1 & d1 & E1 & Ev1 & Hf1 & Hz1).
  rewrite (bind_some _ _ _ _ _ E1). destruct ok1; cbn [negb].
  2: { eexists _, _. split; [reflexivity | apply commit_fail; auto]. }
  assert (O1 : online (z_dev (set_dev d1 s))) by (eapply online_attrs; [apply Ev1 | apply B]).
  destruct (flush_fails_spec (set_dev d1 s) (ev_wf _ _ _ Ev1) O1) as (bad & d2 & E2 & Ev2 & Hsy & Hbad).
  rewrite (bind_some _ _ _ _ _ E2), set_dev_set_dev.
  assert (Ev : evolves (term_lba (g_zss_base s) (g_zss_sectors s) next) (z_dev s) d2).
  { eapply evolves_trans; [exact Ev1 | apply evolves_nowhere; exact Ev2]. }
  destruct bad.
  { eexists _, _. split; [reflexivity | apply commit_fail; auto]. }
  apply commit_header; auto; try lia.
  intros Hlt. rewrite (ev_view _ _ _ Ev2) by intros []. auto.
Qed.

(** ** Data sectors *)

(** The bytes [src], padded with zeros to [k] sectors. *)
Definition padded (k : nat) (src : list Z) : list Z := src ++ zeros (SECT * k - length src).

Lemma pad_sector_ok chunk : (length chunk <= SECT)%nat -> bytes_ok chunk -> sector_ok (pad_sector chunk).
Proof.
  intros Hl Hb. split.
  - unfold pad_sector. rewrite length_app, length_zeros. lia.
  - apply bytes_ok_app. auto using bytes_ok_zeros.
Qed.

Lemma padded_step k src :
  (length src <= SECT * S k)%nat -> pad_sector (take SECT src) ++ padded k (drop SECT src) = padded (S k) src.
Proof.
  intros H. unfold pad_sector, padded. rewrite <- (take_drop SECT src) at 5.
  rewrite <- !app_assoc. f_equal. rewrite length_take, length_drop.
  destruct (le_lt_dec SECT (length src)).
  - replace (SECT - SECT `min` length src)%nat with 0%nat by lia. cbn [zeros repeat app].
    f_equal. f_equal. lia.
  - rewrite (drop_ge src) by lia. cbn [app]. unfold zeros. rewrite <- repeat_app. f_equal. lia.
Qed.

Definition within (lo hi : Z) : Z -> Prop := fun i => lo <= i < hi.

Lemma put_blocks_spec k : forall src at_ crc s,
  dev_wf (z_dev s) -> zbank_on s -> 0 <= at_ -> at_ + Z.of_nat k <= g_zss_sectors s ->
  bytes_ok src -> (length src <= SECT * k)%nat ->
  let base := g_zss_base s in
  exists r d', zss_put_blocks k src at_ crc s = Some (r, set_dev d' s) /\
    evolves (within (base + at_) (base + at_ + Z.of_nat k)) (z_dev s) d' /\
    (r = None -> alive d' = false) /\
    (forall c, r = Some c -> c = fold_left zss_crc_step src crc /\
       read_range (bank (view d') base) at_ k = padded k src).
Proof.
  induction k as [|k IH]; intros src at_ crc s W B Ha Hfit Hby Hl base; cbn [zss_put_blocks].
  - destruct src; [|cbn in Hl; lia]. exists (Some crc), (z_dev s). rewrite set_dev_same.
    split; [reflexivity|]. split; [apply evolves_refl; exact W|].
    split; [discriminate|]. intros c [= <-]. split; reflexivity.
  - assert (Hn : g_zss_sectors s = ZEAL_SRC_SECTS) by apply B. unfold ZEAL_SRC_SECTS in Hn.
    assert (Hok : sector_ok (pad_sector (take SECT src))).
    { apply pad_sector_ok; [rewrite length_take; lia | apply bytes_ok_take; exact Hby]. }
    destruct (sector_write_spec at_ _ s W B ltac:(lia) Hok) as (ok & d1 & E & Sw & Ev1 & Hf).
    fold base in Ev1, Sw. rewrite (bind_some _ _ _ _ _ E).
    assert (Ev1' : evolves (within (base + at_) (base + at_ + Z.of_nat (S k))) (z_dev s) d1).
    { eapply evolves_mono; [|exact Ev1]. intros i <-. unfold within. lia. }
    destruct ok.
    2: { exists None, d1. split; [reflexivity|]. split; [exact Ev1'|]. split; [auto | discriminate]. }
    assert (B1 : zbank_on (set_dev d1 s)) by (eapply bank_on_attrs; [apply Ev1 | exact B]).
    rewrite (u32_id (at_ + 1)) by lia.
    destruct (IH (drop SECT src) (at_ + 1) (fold_left zss_crc_step (take SECT src) crc) (set_dev d1 s)
      (ev_wf _ _ _ Ev1) B1 ltac:(lia) ltac:(cbn; lia) (bytes_ok_drop _ _ Hby)
      ltac:(rewrite length_drop; lia)) as (r & d2 & E2 & Ev2 & Hn2 & Hs2).
    cbn [z_dev set_dev g_zss_base] in *. fold base in Ev2, Hs2.
    exists r, d2. split; [exact E2|]. split; [|split; [exact Hn2|]].
    + eapply evolves_trans; [exact Ev1'|]. eapply evolves_mono; [|exact Ev2].
      unfold within. intros i. lia.
    + intros c Hc. destruct (Hs2 c Hc) as [-> Hr]. split.
      * rewrite <- fold_left_app, take_drop. reflexivity.
      * cbn [read_range]. rewrite Hr, <- padded_step by lia. f_equal.
        unfold bank. rewrite (ev_view _ _ _ Ev2) by (unfold within; lia).
        rewrite (wr_view _ _ _ _ _ Sw eq_refl). apply upd_eq.
Qed.

Lemma take_padded k src : take (length src) (padded k src) = src.
Proof. unfold padded. apply take_app_length. Qed.

Lemma bank_not_super d base n i :
  bank_on d base n -> 1 <= i < n ->
  base + i <> ZEAL_SRC_LBA_BASE /\ base + i <> ZEAL_SRC_SHADOW_LBA.
Proof.
  intros (_ & -> & [->| ->] & _) Hi;
    unfold ZEAL_SRC_SECTS, ZEAL_SRC_LBA_BASE, ZEAL_SRC_SHADOW_LBA in *; lia.
Qed.

(** Sectors of the selected bank behind the end of its log. *)
Definition beyond (base tail n : Z) : Z -> Prop := within (base + tail + 1) (base + n).

Lemma beyond_superblocks d base n tail v w :
  bank_on d base n -> 1 <= tail <= n -> (forall i, ~ beyond base (tail - 1) n i -> w i = v i) ->
  same_superblocks v w.
Proof.
  intros (_ & -> & Hb & _) Ht H. unfold beyond, within in H.
  split; symmetry; apply H; destruct Hb as [->| ->];
    unfold ZEAL_SRC_SECTS, ZEAL_SRC_LBA_BASE, ZEAL_SRC_SHADOW_LBA in *; lia.
Qed.

(** A change behind the end of the log leaves the abstract map alone. *)
Lemma represents_beyond d v w cap base n gen rs tail :
  bank_on d base n -> image_ok v -> store_at v cap base n gen rs tail ->
  (forall i, ~ beyond base tail n i -> w i = v i) ->
  store_at w cap base n gen rs tail /\ store_map (bank w base) rs = store_map (bank v base) rs.
Proof.
  intros B Hv Hs H. destruct (store_geometry v cap base n gen rs tail Hv Hs) as (Hn & Ht & _).
  apply (store_frame v w); auto.
  - apply (beyond_superblocks d base n tail); auto. intros i Hi. apply H.
    unfold beyond, within in *. lia.
  - intros i Hi. symmetry. apply H. unfold beyond, within. lia.
Qed.

(** A record committed behind the log is appended to it; [u] is the image before the commit. *)
Lemma represents_committed d v u w cap base n gen rs tail header e name del :
  bank_on d base n -> image_ok v -> store_at v cap base n gen rs tail ->
  (forall i, ~ beyond base tail n i -> u i = v i) ->
  tail + (1 + blocks e) <= n -> 0 <= blocks e ->
  committed u base n tail (tail + (1 + blocks e)) header w ->
  all_zero header = false -> zss_decode_record n header tail = Some (e, name, del) ->
  record_ok (bank w base) (e, name, del) ->
  represents w cap (apply_record (bank w base) (store_map (bank v base) rs) (e, name, del)).
Proof.
  intros B Hv Hs Hu Hfit Hb (C1 & C2 & C3) Hnz Hd Hok.
  destruct (store_geometry v cap base n gen rs tail Hv Hs) as (Hn & Ht & _).
  assert (Hsame : forall i, ~ beyond base (tail - 1) n i -> w i = v i).
  { intros i Hi. unfold beyond, within in *. rewrite C1; [apply Hu; lia | lia |].
    intros [Hlt ->]. lia. }
  assert (Hz : all_zero (zeros SECT) = true) by reflexivity.
  destruct (store_append v w cap base n gen rs tail Hv Hs) with (e := e) (name := name) (del := del)
    as [G Hm].
  - apply (beyond_superblocks d base n tail); auto.
  - intros i Hi. symmetry. apply Hsame. unfold beyond, within. lia.
  - lia.
  - rewrite C2. exact Hnz.
  - rewrite C2. exact Hd.
  - intros Hlt. rewrite C3 by exact Hlt. exact Hz.
  - exact Hok.
  - rewrite <- Hm. eapply represents_intro; [exact G | reflexivity].
Qed.

(** ** Atomic updates of the abstract map *)

(** The outcome of an operation that takes the map from [m] to [m'], begun on device [d]:
    whatever happens, a power loss leaves [m] or [m']; code 0 means [m'] is on the medium; and a
    device that answered every request gives code 0, or [full] and an unchanged map. *)
Record update_post (m m' : gmap cstring (list Z)) (full : Z) d (code : Z) d' : Prop := {
  up_wf : dev_wf d';
  up_attrs : attrs d' = attrs d;
  up_crash : forall v, crash d' v ->
    represents v (full_capacity d) m \/ represents v (full_capacity d) m';
  up_ok : code = 0 -> represents (view d') (full_capacity d) m' /\ synced d';
  up_live : alive d' = true ->
    code = 0 \/ (code = full /\ represents (view d') (full_capacity d) m /\ synced d') }.

(** Nothing but sectors behind the log was touched, and the operation reports failure. *)
Lemma update_nothing m' full d base n gen rs tail code d' :
  dev_wf d -> synced d -> bank_on d base n ->
  store_at (view d) (full_capacity d) base n gen rs tail ->
  evolves (beyond base tail n) d d' -> alive d' = false -> code <> 0 ->
  update_post (store_map (bank (view d) base) rs) m' full d code d'.
Proof.
  intros W Sy B Hs Ev La Hc. split; try apply Ev; try congruence.
  intros v Hv. left. destruct (ev_crash _ _ _ Ev v Hv) as (v0 & Hv0 & G).
  destruct (represents_beyond d (view d) v (full_capacity d) base n gen rs tail) as [Hst Hm]; auto.
  - apply image_ok_view. exact W.
  - intros i Hi. rewrite G by exact Hi. apply (Sy v0 Hv0).
  - rewrite <- Hm. eapply represents_intro; [exact Hst | reflexivity].
Qed.

(** Nothing was written at all. *)
Lemma update_refused m' full d base n gen rs tail code d' :
  dev_wf d -> synced d -> bank_on d base n ->
  store_at (view d) (full_capacity d) base n gen rs tail ->
  evolves nowhere d d' -> code <> 0 -> (alive d' = true -> code = full) ->
  update_post (store_map (bank (view d) base) rs) m' full d code d'.
Proof.
  intros W Sy B Hs Ev Hc Hfull.
  assert (R : forall v, v ==i view d -> represents v (full_capacity d) (store_map (bank (view d) base) rs)).
  { intros v Hv. destruct (represents_beyond d (view d) v (full_capacity d) base n gen rs tail) as [Hst Hm]; auto.
    - apply image_ok_view. exact W.
    - rewrite <- Hm. eapply represents_intro; [exact Hst | reflexivity]. }
  assert (C : forall v, crash d' v -> v ==i view d).
  { intros v Hv. destruct (ev_crash _ _ _ Ev v Hv) as (v0 & Hv0 & G).
    intros i. rewrite G by intros []. apply (Sy v0 Hv0). }
  assert (V : view d' ==i view d) by (intros i; apply (ev_view _ _ _ Ev); intros []).
  split; try apply Ev.
  - intros v Hv. left. auto.
  - congruence.
  - intros La. right. split; [auto|]. split; [apply R; exact V|].
    intros v Hv. rewrite (C v Hv), V. reflexivity.
Qed.

(** The commit step turns a prepared record into an atomic update. *)
Lemma commit_update full d base n gen rs tail s header e name del :
  dev_wf d -> synced d -> bank_on d base n ->
  store_at (view d) (full_capacity d) base n gen rs tail ->
  evolves (beyond base tail n) d (z_dev s) -> g_zss_base s = base -> g_zss_sectors s = n ->
  tail + (1 + blocks e) <= n -> 0 <= blocks e -> sector_ok header -> all_zero header = false ->
  zss_decode_record n header tail = Some (e, name, del) ->
  (forall w, committed (view (z_dev s)) base n tail (tail + (1 + blocks e)) header w ->
     record_ok (bank w base) (e, name, del)) ->
  forall m', (forall w, committed (view (z_dev s)) base n tail (tail + (1 + blocks e)) header w ->
     apply_record (bank w base) (store_map (bank (view d) base) rs) (e, name, del) = m') ->
  exists code s', zss_commit tail (tail + (1 + blocks e)) header s = Some (code, s') /\
    update_post (store_map (bank (view d) base) rs) m' full d code (z_dev s').
Proof.
  intros W Sy B Hs Ev Eb En Hfit Hb Hh Hnz Hd Hrec m' Hm'.
  pose proof (ev_attrs _ _ _ Ev) as A. pose proof (image_ok_view d W) as Hv.
  destruct (store_geometry _ _ _ _ _ _ _ Hv Hs) as (Hn & Ht & _).
  assert (Bs : zbank_on s) by (unfold zbank_on; rewrite Eb, En; eapply bank_on_attrs; eauto).
  destruct (commit_spec tail (tail + (1 + blocks e)) header s (ev_wf _ _ _ Ev) Bs ltac:(lia) ltac:(lia) Hh)
    as (code & s' & E & P).
  exists code, s'. split; [exact E|]. destruct P as [P1 P2 P3 P4 P5 P6].
  rewrite Eb, En in *.
  assert (Hu : forall i, ~ beyond base tail n i -> view (z_dev s) i = view d i) by apply Ev.
  assert (R : forall w, committed (view (z_dev s)) base n tail (tail + (1 + blocks e)) header w ->
    represents w (full_capacity d) m').
  { intros w C. rewrite <- (Hm' w C).
    apply (represents_committed d (view d) (view (z_dev s)) w _ base n gen rs tail header e name del); auto. }
  split; auto; try congruence.
  - intros v Hc. destruct (P3 v Hc) as [(v0 & Hv0 & G)|C]; [left | right; auto].
    destruct (ev_crash _ _ _ Ev v0 Hv0) as (v1 & Hv1 & G1).
    destruct (represents_beyond d (view d) v (full_capacity d) base n gen rs tail) as [Hst Hm]; auto.
    + intros i Hi. rewrite G; [rewrite G1 by exact Hi; apply (Sy v1 Hv1)|].
      unfold beyond, within, term_lba in *. lia.
    + rewrite <- Hm. eapply represents_intro; [exact Hst | reflexivity].
  - intros Hc. destruct (P4 Hc) as [C Sy']. auto.
  - intros La. left. apply (P6 La).
Qed.

(** *** zss_put *)

Lemma scan_none rs : forall st, fold_left (find_step None) rs st = st.
Proof. induction rs as [|[[e nm] del] rs IH]; intros st; [reflexivity | apply IH]. Qed.

Lemma blocks_of_bytes (src : list Z) :
  (length src <= SECT * Z.to_nat (blocks_of (Z.of_nat (length src))))%nat.
Proof. unfold blocks_of. Z.div_mod_to_equations. lia. Qed.

Lemma find_none_spec s base n gen rs tail :
  dev_wf (z_dev s) -> online (z_dev s) ->
  store_at (view (z_dev s)) (full_capacity (z_dev s)) base n gen rs tail ->
  exists r s', zss_find None s = Some (r, s') /\ evolves nowhere (z_dev s) (z_dev s') /\
    ((s' = on_bank base n gen (z_dev s') s /\ bank_on (z_dev s') base n /\
      fr_code r = 0 /\ fr_tail r = tail) \/
     (fr_code r < 0 /\ fr_code r <> -3 /\ alive (z_dev s') = false)).
Proof.
  intros W O Hs. destruct (find_spec None s base n gen rs tail W O Hs) as (r & d' & s' & E & <- & Ev & H);
    [discriminate|].
  exists r, s'. split; [exact E|]. split; [exact Ev|].
  destruct H as [(H1 & H2 & ->)|[Hc La]]; [left | right; split; [lia | split; [lia | exact La]]].
  split; [exact H1|]. split; [exact H2|]. unfold scan_result. rewrite scan_none. auto.
Qed.

(** Committing a file whose data sectors are already written behind the log. *)
Lemma data_commit full name src k d base n gen rs tail s :
  let len := Z.of_nat (length src) in
  let bl := blocks_of len in
  dev_wf d -> synced d -> bank_on d base n ->
  store_at (view d) (full_capacity d) base n gen rs tail ->
  evolves (beyond base tail n) d (z_dev s) -> g_zss_base s = base -> g_zss_sectors s = n ->
  zss_name_ok name = Some k -> 0 < len <= ZSS_MAX_FILE -> bytes_ok src ->
  tail + (1 + bl) <= n ->
  read_range (bank (view (z_dev s)) base) (tail + 1) (Z.to_nat bl) = padded (Z.to_nat bl) src ->
  exists code s',
    zss_commit tail (tail + (1 + bl)) (file_header len (crc32 src) bl k name) s = Some (code, s') /\
    update_post (store_map (bank (view d) base) rs)
      (<[name := src]> (store_map (bank (view d) base) rs)) full d code (z_dev s').
Proof.
  intros len bl W Sy B Hs Ev Eb En Hname Hlen Hby Hroom Hrange.
  pose proof (image_ok_view _ W) as Hv.
  destruct (store_geometry _ _ _ _ _ _ _ Hv Hs) as (Hn & Ht & _).
  pose proof (blocks_of_range _ Hlen) as Hbl. fold len bl in Hbl.
  pose proof (zss_name_ok_spec _ _ Hname) as (Hk & Hk2 & _). unfold ZSS_MAX_NAME in Hk2.
  pose (e := mk_entry tail len (crc32 src) bl).
  assert (Hdata : forall w,
    committed (view (z_dev s)) base n tail (tail + (1 + bl)) (file_header len (crc32 src) bl k name) w ->
    file_bytes (bank w base) e = src).
  { intros w (C1 & _). unfold file_bytes, e. cbn [e_length header_sector blocks].
    rewrite (read_range_agree _ (bank w base) (bank (view (z_dev s)) base)).
    - rewrite Hrange. unfold len. rewrite Nat2Z.id. apply take_padded.
    - intros i Hi. apply C1; [lia | unfold term_lba; lia]. }
  apply (commit_update full d base n gen rs tail s _ e name false); auto;
    cbn [z_dev set_dev blocks e]; try lia.
  - apply file_header_ok; [lia | eapply zss_name_ok_bytes; exact Hname].
  - apply file_header_nonzero. lia.
  - apply decode_file_header; auto using crc32_range; lia.
  - intros w C _. rewrite (Hdata w C). reflexivity.
  - intros w C. cbn [apply_record]. rewrite (Hdata w C). reflexivity.
Qed.

(** The data sectors, and the commit, of a put that has room. *)
Lemma put_data_commit name src k d base n gen rs tail s :
  let len := Z.of_nat (length src) in
  dev_wf d -> synced d -> bank_on d base n ->
  store_at (view d) (full_capacity d) base n gen rs tail ->
  evolves nowhere d (z_dev s) -> g_zss_base s = base -> g_zss_sectors s = n ->
  zss_name_ok name = Some k -> 0 < len <= ZSS_MAX_FILE -> bytes_ok src ->
  tail + (1 + blocks_of len) <= n ->
  exists code s',
    (let! crc := zss_put_blocks (Z.to_nat (blocks_of len)) src (tail + 1) 0xffffffff in
     match crc with
     | None => ret (-1)
     | Some crc => zss_commit tail (tail + (1 + blocks_of len))
                     (file_header len (Z.lxor crc 0xffffffff) (blocks_of len) k name)
     end) s = Some (code, s') /\
    update_post (store_map (bank (view d) base) rs)
      (<[name := src]> (store_map (bank (view d) base) rs)) (-3) d code (z_dev s').
Proof.
  intros len W Sy B Hs Ev Eb En Hname Hlen Hby Hroom.
  destruct (store_geometry _ _ _ _ _ _ _ (image_ok_view _ W) Hs) as (Hn & Ht & _).
  pose proof (blocks_of_range _ Hlen) as Hbl. pose proof (blocks_of_bytes src) as Hbs.
  fold len in Hbs, Hbl.
  assert (B1 : zbank_on s) by (unfold zbank_on; rewrite Eb, En; eapply bank_on_attrs; [apply Ev | exact B]).
  destruct (put_blocks_spec (Z.to_nat (blocks_of len)) src (tail + 1) 0xffffffff s (ev_wf _ _ _ Ev) B1
    ltac:(lia) ltac:(lia) Hby ltac:(lia)) as (r & d2 & E2 & Ev2 & Hf & Hr).
  rewrite (bind_some _ _ _ _ _ E2). rewrite Eb in *. rewrite Z2Nat.id in Ev2 by lia.
  assert (Ev' : evolves (beyond base tail n) d d2).
  { eapply evolves_trans; [apply evolves_nowhere; exact Ev|].
    eapply evolves_mono; [|exact Ev2]. unfold within, beyond, within. intros i. lia. }
  destruct r as [crc|].
  2: { exists (-1), (set_dev d2 s). split; [reflexivity|]. eapply update_nothing; eauto. }
  destruct (Hr crc eq_refl) as [-> Hrange]. fold (crc32 src).
  apply (data_commit (-3) name src k d base n gen rs tail (set_dev d2 s)); auto.
Qed.

Lemma put_spec name src k s m :
  dev_wf (z_dev s) -> online (z_dev s) -> synced (z_dev s) ->
  represents (view (z_dev s)) (full_capacity (z_dev s)) m ->
  zss_name_ok name = Some k -> 0 < Z.of_nat (length src) <= ZSS_MAX_FILE -> bytes_ok src ->
  exists code s', zss_put name src s = Some (code, s') /\
    update_post m (<[name := src]> m) (-3) (z_dev s) code (z_dev s').
Proof.
  intros W O Sy (base & n & gen & rs & tail & Hs & ->) Hname Hlen Hby.
  pose proof (image_ok_view _ W) as Hv.
  destruct (store_geometry _ _ _ _ _ _ _ Hv Hs) as (Hn & Ht & Hbase & Hcap).
  assert (B0 : bank_on (z_dev s) base n) by (unfold bank_on; auto). unfold ZEAL_SRC_SECTS in Hn.
  unfold zss_put. destruct (_ || _) eqn:Hg; [unfold ZSS_MAX_FILE in *; lia|]. rewrite Hname.
  destruct (find_none_spec s base n gen rs tail W O Hs) as (r & s1 & E1 & Ev1 & H1).
  rewrite (bind_some _ _ _ _ _ E1). destruct (Z.ltb_spec (fr_code r) 0) as [Hneg|Hpos].
  { exists (fr_code r), s1. split; [reflexivity|].
    apply update_refused with (n := n) (gen := gen) (tail := tail); auto; [lia|].
    destruct H1 as [(_ & _ & Hc & _)|(_ & _ & La)]; [lia | congruence]. }
  destruct H1 as [(Es1 & B1 & Hc & Etail)|(Hc & _)]; [|lia]. rewrite Etail.
  rewrite (bind_some _ _ _ _ _ eq_refl).
  assert (Eb1 : g_zss_base s1 = base) by (rewrite Es1; reflexivity).
  assert (En1 : g_zss_sectors s1 = n) by (rewrite Es1; reflexivity). rewrite En1.
  pose proof (blocks_of_range _ Hlen) as Hbl. rewrite (u32_id (blocks_of _)) by lia.
  rewrite (u32_id (tail + 1)), (u32_id (tail + 1 + _)), <- Z.add_assoc by lia.
  destruct (Z.ltb_spec n (tail + (1 + blocks_of (Z.of_nat (length src))))) as [Hfull|Hroom].
  { exists (-3), s1. split; [reflexivity|].
    apply update_refused with (n := n) (gen := gen) (tail := tail); auto. }
  apply put_data_commit with (n := n) (gen := gen); auto.
Qed.

(** *** zss_delete *)

Lemma delete_spec name k s m :
  let full := if bool_decide (is_Some (m !! name)) then -3 else -4 in
  dev_wf (z_dev s) -> online (z_dev s) -> synced (z_dev s) ->
  represents (view (z_dev s)) (full_capacity (z_dev s)) m -> zss_name_ok name = Some k ->
  exists code s', zss_delete name s = Some (code, s') /\
    update_post m (delete name m) full (z_dev s) code (z_dev s').
Proof.
  intros full W O Sy (base & n & gen & rs & tail & Hs & Em) Hname.
  pose proof (image_ok_view _ W) as Hv.
  destruct (store_geometry _ _ _ _ _ _ _ Hv Hs) as (Hn & Ht & Hbase & Hcap).
  assert (B0 : bank_on (z_dev s) base n) by (unfold bank_on; auto). unfold ZEAL_SRC_SECTS in Hn.
  unfold zss_delete. rewrite Hname.
  destruct (find_spec (Some name) s base n gen rs tail W O Hs) as (r & d1 & s1 & E1 & <- & Ev1 & H1).
  { intros nm [= <-]. eauto. }
  rewrite (bind_some _ _ _ _ _ E1).
  assert (Hrefuse : forall code, code <> 0 -> (alive (z_dev s1) = true -> code = full) ->
    update_post m (delete name m) full (z_dev s) code (z_dev s1)).
  { intros code Hc Hl. rewrite Em.
    apply update_refused with (n := n) (gen := gen) (tail := tail); auto; congruence. }
  pose proof (scan_result_lookup (bank (view (z_dev s)) base) name rs) as Hlook. rewrite <- Em in Hlook.
  destruct H1 as [(Es1 & B1 & ->)|(Hc & La)]; cbn [fr_code fr_tail].
  2: { destruct (_ || _) eqn:Hz; [lia|]. destruct (Z.ltb_spec (fr_code r) 0); [|lia].
       eexists _, _. split; [reflexivity|]. apply Hrefuse; [lia | congruence]. }
  unfold full in Hrefuse.
  destruct (m !! name) as [data|] eqn:Hm.
  2: { destruct (_ || _) eqn:Hz; [|lia]. eexists _, _. split; [reflexivity|].
       apply Hrefuse; [discriminate | reflexivity]. }
  destruct Hlook as (e0 & Esc & _ & _). rewrite Esc. cbn [fst].
  change ((1 =? 0) || (1 =? -3)) with false. change (1 <? 0) with false. cbv iota.
  rewrite (bind_some _ _ _ _ _ eq_refl).
  assert (En1 : g_zss_sectors s1 = n) by (rewrite Es1; reflexivity). rewrite En1.
  destruct (Z.leb_spec n tail).
  { eexists _, _. split; [reflexivity|]. apply Hrefuse; [discriminate | reflexivity]. }
  rewrite (u32_id (tail + 1)) by lia.
  pose proof (zss_name_ok_spec _ _ Hname) as (Hk & Hk2 & _). unfold ZSS_MAX_NAME in Hk2.
  rewrite Em.
  apply (commit_update full (z_dev s) base n gen rs tail s1 _ (mk_entry tail 0 0 0) name true);
    auto; cbn [blocks]; try lia.
  - apply evolves_nowhere. exact Ev1.
  - rewrite Es1. reflexivity.
  - apply delete_header_ok; [lia | eapply zss_name_ok_bytes; exact Hname].
  - apply delete_header_nonzero. lia.
  - apply decode_delete_header; auto; unfold ZEAL_SRC_SECTS; lia.
  - intros w _ [=].
Qed.

(** *** zss_read and zss_verify *)

Lemma read_blocks_spec k : forall at_ remaining crc s,
  dev_wf (z_dev s) -> zbank_on s -> 0 <= at_ -> at_ + Z.of_nat k <= g_zss_sectors s ->
  0 <= remaining <= 512 * Z.of_nat k ->
  let base := g_zss_base s in
  exists r d', zss_read_blocks k at_ remaining crc s = Some (r, set_dev d' s) /\
    evolves nowhere (z_dev s) d' /\ (r = None -> alive d' = false) /\
    (forall data c, r = Some (data, c) ->
       data = take (Z.to_nat remaining) (read_range (bank (view (z_dev s)) base) at_ k) /\
       c = fold_left zss_crc_step data crc).
Proof.
  induction k as [|k IH]; intros at_ remaining crc s W B Ha Hfit Hrem base; cbn [zss_read_blocks].
  - exists (Some ([], crc)), (z_dev s). rewrite set_dev_same. split; [reflexivity|].
    split; [apply evolves_refl; exact W|]. split; [discriminate|].
    intros data c [= <- <-]. split; [destruct (Z.to_nat remaining); reflexivity | reflexivity].
  - assert (Hn : g_zss_sectors s = ZEAL_SRC_SECTS) by apply B. unfold ZEAL_SRC_SECTS in Hn.
    destruct (sector_read_spec at_ s W B ltac:(lia)) as (r & d1 & E & Ev1 & Hr).
    rewrite (bind_some _ _ _ _ _ E).
    destruct Hr as [[-> _]|[-> La]].
    2: { exists None, d1. split; [reflexivity|]. split; [exact Ev1|]. split; [auto | discriminate]. }
    fold base. set (sec := view (z_dev s) (base + at_)).
    assert (Hsec : length sec = SECT) by (apply view_ok; exact W).
    set (chunk := if 512 <? remaining then 512 else remaining).
    assert (Hchunk : chunk = Z.min 512 remaining) by (unfold chunk; case_if; lia).
    rewrite (u32_id (at_ + 1)) by lia.
    assert (B1 : zbank_on (set_dev d1 s)) by (eapply bank_on_attrs; [apply Ev1 | exact B]).
    destruct (IH (at_ + 1) (remaining - chunk) (fold_left zss_crc_step (take (Z.to_nat chunk) sec) crc)
      (set_dev d1 s) (ev_wf _ _ _ Ev1) B1 ltac:(lia) ltac:(cbn; lia) ltac:(lia))
      as (r & d2 & E2 & Ev2 & Hn2 & Hs2).
    rewrite (bind_some _ _ _ _ _ E2). eexists _, d2. split; [reflexivity|].
    split; [eapply evolves_trans; eassumption|].
    destruct r as [[l c']|]; (split; [auto; discriminate|]); [|discriminate].
    intros data c [= <- <-]. destruct (Hs2 l c' eq_refl) as [-> ->]. cbn [z_dev set_dev g_zss_base].
    fold base. split; [|rewrite fold_left_app; reflexivity].
    cbn [read_range]. unfold bank at 2. fold sec. rewrite take_app, Hsec.
    rewrite (read_range_agree k (bank (view d1) base) (bank (view (z_dev s)) base)).
    + f_equal; [|f_equal; lia].
      destruct (Z.le_gt_cases remaining 512); [f_equal; lia | rewrite !take_ge by lia; reflexivity].
    + intros i _. apply (ev_view _ _ _ Ev1). intros [].
Qed.

Lemma evolves_view d d' : evolves nowhere d d' -> view d' ==i view d.
Proof. intros E i. apply (ev_view _ _ _ E). intros []. Qed.

Lemma length_read_range b k : forall at_, image_ok b -> length (read_range b at_ k) = (SECT * k)%nat.
Proof.
  induction k as [|k IH]; intros at_ H; cbn [read_range]; [reflexivity|].
  rewrite length_app, IH by exact H. destruct (H at_) as [-> _]. lia.
Qed.

Lemma length_file_bytes b e :
  image_ok b -> 0 < e_length e -> blocks e = blocks_of (e_length e) ->
  length (file_bytes b e) = Z.to_nat (e_length e).
Proof.
  intros H Hl Hb. unfold file_bytes. rewrite length_take, length_read_range by exact H.
  rewrite Hb. unfold blocks_of. Z.div_mod_to_equations. lia.
Qed.

(** What the block loop shared by [zss_read] and [zss_verify] returns for a record of the log. *)
Lemma read_record_spec e name lo hi s :
  let b := bank (view (z_dev s)) (g_zss_base s) in
  dev_wf (z_dev s) -> zbank_on s -> 1 <= lo -> hi <= g_zss_sectors s ->
  record_in lo hi (e, name, false) -> record_ok b (e, name, false) ->
  exists r d', zss_read_blocks (Z.to_nat (blocks e)) (u32 (header_sector e + 1)) (e_length e)
                 0xffffffff s = Some (r, set_dev d' s) /\
    evolves nowhere (z_dev s) d' /\
    match r with
    | Some (data, c) => data = file_bytes b e /\ Z.lxor c 0xffffffff = checksum e
    | None => alive d' = false
    end.
Proof.
  intros b W B Hlo Hhi (R1 & R2 & R3 & _ & R5 & R6) Hok.
  assert (Hn : g_zss_sectors s = ZEAL_SRC_SECTS) by apply B. unfold ZEAL_SRC_SECTS in Hn.
  assert (Hlen : 0 <= e_length e <= 512 * blocks e).
  { rewrite R6. unfold blocks_of. Z.div_mod_to_equations. lia. }
  rewrite (u32_id (header_sector e + 1)) by lia.
  destruct (read_blocks_spec (Z.to_nat (blocks e)) (header_sector e + 1) (e_length e) 0xffffffff s W B
    ltac:(lia) ltac:(lia) ltac:(lia)) as (r & d' & E & Ev & Hn' & Hs).
  exists r, d'. split; [exact E|]. split; [exact Ev|].
  destruct r as [[data c]|]; [|exact (Hn' eq_refl)].
  destruct (Hs data c eq_refl) as [-> ->]. split; [reflexivity|]. apply Hok. reflexivity.
Qed.

Lemma verify_spec e name lo hi s :
  let b := bank (view (z_dev s)) (g_zss_base s) in
  dev_wf (z_dev s) -> zbank_on s -> 1 <= lo -> hi <= g_zss_sectors s ->
  record_in lo hi (e, name, false) -> record_ok b (e, name, false) ->
  exists r d', zss_verify e s = Some (r, set_dev d' s) /\ evolves nowhere (z_dev s) d' /\
    (r = 0 \/ (r = -1 /\ alive d' = false)).
Proof.
  intros b W B Hlo Hhi Hin Hok. unfold zss_verify.
  destruct (read_record_spec e name lo hi s W B Hlo Hhi Hin Hok) as (r & d' & E & Ev & Hr).
  rewrite (bind_some _ _ _ _ _ E). eexists _, d'. split; [reflexivity|]. split; [exact Ev|].
  destruct r as [[data c]|]; [|right; auto]. destruct Hr as [_ ->]. left.
  rewrite Z.eqb_refl. reflexivity.
Qed.

(** Reading an undamaged record returns its bytes. *)
Lemma read_spec_ok e name lo hi s :
  let b := bank (view (z_dev s)) (g_zss_base s) in
  dev_wf (z_dev s) -> zbank_on s -> 1 <= lo -> hi <= g_zss_sectors s ->
  record_in lo hi (e, name, false) -> record_ok b (e, name, false) ->
  forall cap, e_length e < cap ->
  exists out d', zss_read e (Some cap) s = Some (out, set_dev d' s) /\ evolves nowhere (z_dev s) d' /\
    (out = (0, file_bytes b e) \/ (out = (-1, []) /\ alive d' = false)).
Proof.
  intros b W B Hlo Hhi Hin Hok cap Hcap. unfold zss_read.
  destruct (Z.leb_spec cap (e_length e)); [lia|].
  destruct (read_record_spec e name lo hi s W B Hlo Hhi Hin Hok) as (r & d' & E & Ev & Hr).
  rewrite (bind_some _ _ _ _ _ E). eexists _, d'. split; [reflexivity|]. split; [exact Ev|].
  destruct r as [[data c]|]; [|right; auto]. destruct Hr as [-> ->]. left.
  rewrite Z.eqb_refl. reflexivity.
Qed.

Lemma read_range_bytes b k : image_ok b -> forall at_, bytes_ok (read_range b at_ k).
Proof.
  intros Hb. induction k as [|k IH]; intros at_; cbn [read_range]; [constructor|].
  apply bytes_ok_app. split; [apply Hb | apply IH].
Qed.

(** The answers of [zss_find] and [zss_read], a failing device included. *)
Lemma lookup_answers name k s m :
  dev_wf (z_dev s) -> online (z_dev s) ->
  represents (view (z_dev s)) (full_capacity (z_dev s)) m -> zss_name_ok name = Some k ->
  exists f s', zss_find (Some name) s = Some (f, s') /\ evolves nowhere (z_dev s) (z_dev s') /\
    (((fr_code f = -1 \/ fr_code f = -2) /\ alive (z_dev s') = false) \/
     match m !! name with
     | None => fr_code f = 0 \/ fr_code f = -3
     | Some data =>
         fr_code f = 1 /\ bytes_ok data /\ 0 < Z.of_nat (length data) <= ZSS_MAX_FILE /\
         exists e, fr_entry f = Some e /\ e_length e = Z.of_nat (length data) /\
           forall cap, Z.of_nat (length data) < cap ->
           exists out s'', zss_read e (Some cap) s' = Some (out, s'') /\
             evolves nowhere (z_dev s) (z_dev s'') /\
             (out = (0, data) \/ (out = (-1, []) /\ alive (z_dev s'') = false))
     end).
Proof.
  intros W O (base & n & gen & rs & tail & Hs & ->) Hname.
  pose proof (image_ok_view _ W) as Hv.
  destruct (store_geometry _ _ _ _ _ _ _ Hv Hs) as (Hn & Ht & Hbase & Hcap).
  destruct (find_spec (Some name) s base n gen rs tail W O Hs) as (f & d1 & s1 & E1 & <- & Ev1 & H1).
  { intros nm [= <-]. eauto. }
  exists f, s1. split; [exact E1|]. split; [exact Ev1|].
  destruct H1 as [(Es1 & B1 & ->)|H1]; [right | left; exact H1]. cbn [fr_code fr_entry].
  pose proof (scan_result_lookup (bank (view (z_dev s)) base) name rs) as Hlook.
  destruct (store_map _ rs !! name) as [data|]; [|exact Hlook].
  destruct Hlook as (e & Esc & Hin & ->). rewrite Esc. cbn [fst snd].
  pose proof (store_records _ _ _ _ _ _ _ Hv Hs) as Hrec. destruct Hs as [_ _ Hok].
  rewrite List.Forall_forall in Hrec, Hok. specialize (Hrec _ Hin). specialize (Hok _ Hin).
  assert (Eb : g_zss_base s1 = base) by (rewrite Es1; reflexivity).
  assert (En : g_zss_sectors s1 = n) by (rewrite Es1; reflexivity).
  assert (B1' : zbank_on s1) by (unfold zbank_on; rewrite Eb, En; exact B1).
  pose proof (evolves_view _ _ Ev1) as V1.
  assert (Ha : agree 1 n (bank (view (z_dev s)) base) (bank (view (z_dev s1)) base)).
  { intros i _. symmetry. apply V1. }
  assert (Hle : n <= ZEAL_SRC_SECTS) by lia.
  assert (Hin1 : 1 <= header_sector e /\ 0 <= blocks e /\ header_sector e + 1 + blocks e <= n).
  { destruct Hrec as (R1 & R2 & R3 & _). lia. }
  destruct Hin1 as (I1 & I2 & I3).
  destruct (record_frame _ _ e name false 1 n Ha I1 I2 I3) as [Hap Hok1].
  assert (Efb : file_bytes (bank (view (z_dev s)) base) e = file_bytes (bank (view (z_dev s1)) base) e).
  { unfold file_bytes. f_equal. apply read_range_agree. intros i Hi. apply Ha. lia. }
  assert (El : length (file_bytes (bank (view (z_dev s)) base) e) = Z.to_nat (e_length e)).
  { destruct Hrec as (_ & _ & _ & _ & R5 & R6). apply length_file_bytes; [apply bank_ok; exact Hv | lia | exact R6]. }
  split; [reflexivity|]. split; [apply bytes_ok_take, read_range_bytes, bank_ok, Hv|].
  split; [rewrite El; destruct Hrec as (_ & _ & _ & _ & R5 & _); lia|]. exists e. split; [reflexivity|].
  split; [rewrite El; destruct Hrec as (_ & _ & _ & _ & R5 & _); lia|].
  intros cap Hcap'. rewrite El in Hcap'.
  destruct (read_spec_ok e name 1 tail s1 (ev_wf _ _ _ Ev1) B1' ltac:(lia) ltac:(lia) Hrec) with (cap := cap)
    as (out & d2 & E2 & Ev2 & Hout).
  - rewrite Eb. apply Hok1. exact Hok.
  - lia.
  - exists out, (set_dev d2 s1). split; [exact E2|].
    split; [exact (evolves_trans _ _ _ _ Ev1 Ev2)|].
    rewrite Efb, <- Eb. exact Hout.
Qed.

Lemma lookup_spec name k s m :
  dev_wf (z_dev s) -> online (z_dev s) ->
  represents (view (z_dev s)) (full_capacity (z_dev s)) m -> zss_name_ok name = Some k ->
  exists f s', zss_find (Some name) s = Some (f, s') /\ view (z_dev s') ==i view (z_dev s) /\
    (alive (z_dev s') = true ->
     match m !! name with
     | None => fr_code f = 0 \/ fr_code f = -3
     | Some data =>
         fr_code f = 1 /\ exists e, fr_entry f = Some e /\ e_length e = Z.of_nat (length data) /\
           forall cap, Z.of_nat (length data) < cap ->
           exists out s'', zss_read e (Some cap) s' = Some (out, s'') /\
             view (z_dev s'') ==i view (z_dev s) /\
             (alive (z_dev s'') = true -> out = (0, data))
     end).
Proof.
  intros W O R Hname. destruct (lookup_answers name k s m W O R Hname) as (f & s' & E & V & H1).
  exists f, s'. split; [exact E|]. split; [apply evolves_view, V|]. intros La.
  destruct H1 as [[_ La']|H1]; [congruence|]. destruct (m !! name) as [data|]; [|exact H1].
  destruct H1 as (Hc & _ & _ & e & He & Hl & Hread). split; [exact Hc|]. exists e. split; [exact He|]. split; [exact Hl|].
  intros cap Hcap. destruct (Hread cap Hcap) as (out & s'' & Er & V2 & Ho). exists out, s''.
  split; [exact Er|]. split; [apply evolves_view, V2|]. intros La2. destruct Ho as [Ho|[_ La3]]; [exact Ho | congruence].
Qed.

End Spec.
