(* ===== verification/SourceStoreCompact.v ===== *)
(** * Compaction of the source partition

    [zss_compact] copies the latest record of every path to the other bank and commits a
    superblock with the next generation.  The abstract map is the same before, after and at every
    power loss in between. *)

From stdpp Require Import gmap.
From S2P Require Import Prelude BlockDev SourceStore SourceStoreLog SourceStoreSpec.
#[local] Open Scope sm_scope.

(** ** Which records a lookup sees *)

Definition rec_entry (r : record) : zss_entry := r.1.1.
Definition rec_name (r : record) : cstring := r.1.2.
Definition rec_deleted (r : record) : bool := r.2.
Definition rec_pos (r : record) : Z := header_sector (rec_entry r).

Definition named (x : cstring) (r : record) : bool := bool_decide (rec_name r = x).

(** The last record of a name. *)
Definition lastrec (x : cstring) (rs : list record) : option record := list.last (List.filter (named x) rs).

Lemma filter_snoc {A} (f : A -> bool) l a :
  List.filter f (l ++ [a]) = List.filter f l ++ (if f a then [a] else []).
Proof. rewrite List.filter_app. cbn. reflexivity. Qed.

Lemma lastrec_snoc x rs r : lastrec x (rs ++ [r]) = if named x r then Some r else lastrec x rs.
Proof.
  unfold lastrec. rewrite filter_snoc. destruct (named x r); [apply last_snoc | rewrite app_nil_r; reflexivity].
Qed.

Lemma lastrec_some x rs r : lastrec x rs = Some r -> In r rs /\ rec_name r = x.
Proof.
  intros H. apply last_Some_elem_of, list_elem_of_In, List.filter_In in H as [Hin Hn].
  unfold named in Hn. rewrite bool_decide_eq_true in Hn. auto.
Qed.

Lemma lastrec_none x rs : lastrec x rs = None <-> forall r, In r rs -> rec_name r <> x.
Proof.
  unfold lastrec. rewrite last_None. split.
  - intros H r Hin Hx. assert (In r (List.filter (named x) rs)) as Hf.
    { apply List.filter_In. split; [exact Hin | unfold named; rewrite bool_decide_eq_true; exact Hx]. }
    rewrite H in Hf. destruct Hf.
  - intros H. destruct (List.filter (named x) rs) as [|r l] eqn:E; [reflexivity|].
    assert (In r (List.filter (named x) rs)) as Hf by (rewrite E; left; reflexivity).
    apply List.filter_In in Hf as [Hin Hn]. unfold named in Hn. rewrite bool_decide_eq_true in Hn.
    destruct (H r Hin Hn).
Qed.

Lemma store_map_lookup b rs x :
  store_map b rs !! x =
  match lastrec x rs with
  | Some r => if rec_deleted r then None else Some (file_bytes b (rec_entry r))
  | None => None
  end.
Proof.
  induction rs as [|[[e nm] del] rs IH] using rev_ind; [reflexivity|].
  rewrite store_map_snoc, lastrec_snoc. unfold named, rec_name. cbn [fst snd apply_record].
  destruct (decide (nm = x)) as [->|Hne].
  - rewrite bool_decide_true by reflexivity. cbn.
    destruct del; [apply lookup_delete_eq | apply lookup_insert_eq].
  - rewrite bool_decide_false by exact Hne. rewrite <- IH.
    destruct del; [apply lookup_delete_ne | apply lookup_insert_ne]; exact Hne.
Qed.

Lemma scan_result_lastrec x rs :
  scan_result (Some x) rs =
  match lastrec x rs with
  | Some r => (if rec_deleted r then -3 else 1, Some (rec_entry r))
  | None => (0, None)
  end.
Proof.
  induction rs as [|[[e nm] del] rs IH] using rev_ind; [reflexivity|].
  unfold scan_result. rewrite fold_left_app. fold (scan_result (Some x) rs).
  rewrite lastrec_snoc. cbn [fold_left find_step]. rewrite zss_str_eq_spec.
  unfold named, rec_name. cbn [fst snd]. case_bool_decide; [reflexivity | exact IH].
Qed.

(** The test both loops of [zss_compact] apply to a record. *)
Definition keep (rs : list record) (r : record) : bool :=
  match scan_result (Some (rec_name r)) rs with
  | (code, Some l) => (header_sector l =? rec_pos r) && (code =? (if rec_deleted r then -3 else 1))
  | (_, None) => false
  end.

(** Positions identify records. *)
Definition distinct (rs : list record) : Prop :=
  forall r r', In r rs -> In r' rs -> rec_pos r = rec_pos r' -> r = r'.

Lemma keep_spec rs r : distinct rs -> In r rs ->
  keep rs r = true <-> lastrec (rec_name r) rs = Some r.
Proof.
  intros Hd Hin. unfold keep. rewrite scan_result_lastrec.
  destruct (lastrec (rec_name r) rs) as [l|] eqn:E; [|split; discriminate].
  apply lastrec_some in E as [Hl Hn]. rewrite andb_true_iff, Z.eqb_eq. split.
  - intros [H _]. f_equal. apply Hd; auto.
  - intros [= ->]. split; [reflexivity | apply Z.eqb_refl].
Qed.

(** Keeping only the latest records does not change what a lookup sees. *)
Lemma lastrec_keep rs x : distinct rs -> lastrec x (List.filter (keep rs) rs) = lastrec x rs.
Proof.
  intros Hd. destruct (lastrec x rs) as [r|] eqn:E.
  - pose proof (lastrec_some _ _ _ E) as [Hin Hn].
    assert (Hk : In r (List.filter (keep rs) rs)).
    { apply List.filter_In. split; [exact Hin|]. apply keep_spec; auto. rewrite Hn. exact E. }
    destruct (lastrec x (List.filter (keep rs) rs)) as [r'|] eqn:E'.
    + apply lastrec_some in E' as [Hin' Hn']. apply List.filter_In in Hin' as [Hin' Hkeep].
      apply keep_spec in Hkeep; auto. congruence.
    + exfalso. exact (proj1 (lastrec_none _ _) E' r Hk Hn).
  - apply lastrec_none. intros r Hin. apply List.filter_In in Hin as [Hin _].
    exact (proj1 (lastrec_none _ _) E r Hin).
Qed.

(** ** Moved records *)

(** [r'] is [r] in another place: same name, same kind, same bytes. *)
Definition moved (b c : image) (r r' : record) : Prop :=
  rec_name r' = rec_name r /\ rec_deleted r' = rec_deleted r /\
  checksum (rec_entry r') = checksum (rec_entry r) /\
  file_bytes c (rec_entry r') = file_bytes b (rec_entry r).

Lemma lastrec_moved b c ks ks' x : Forall2 (moved b c) ks ks' ->
  match lastrec x ks, lastrec x ks' with
  | Some r, Some r' => moved b c r r'
  | None, None => True
  | _, _ => False
  end.
Proof.
  intros H. unfold lastrec.
  assert (G : Forall2 (moved b c) (List.filter (named x) ks) (List.filter (named x) ks')).
  { induction H as [|r r' ks ks' Hr H IH]; [constructor|]. cbn.
    assert (E : named x r' = named x r) by (unfold named; destruct Hr as [-> _]; reflexivity).
    rewrite E. destruct (named x r); [constructor; assumption | assumption]. }
  clear H. induction G as [|r r' l l' Hr G IH]; [exact I|].
  destruct G as [|r2 r2' l l' Hr2 G]; [exact Hr | exact IH].
Qed.

Lemma store_map_moved b c rs ks' : distinct rs ->
  Forall2 (moved b c) (List.filter (keep rs) rs) ks' -> store_map c ks' = store_map b rs.
Proof.
  intros Hd H. apply map_eq. intros x. rewrite !store_map_lookup, <- (lastrec_keep rs x Hd).
  pose proof (lastrec_moved b c _ _ x H) as G.
  destruct (lastrec x (List.filter (keep rs) rs)) as [r|], (lastrec x ks') as [r'|]; try contradiction; [|reflexivity].
  destruct G as (_ & -> & _ & ->). reflexivity.
Qed.

Lemma moved_ok b c ks ks' : Forall2 (moved b c) ks ks' ->
  Forall (record_ok b) ks -> Forall (record_ok c) ks'.
Proof.
  induction 1 as [|r r' ks ks' Hr H IH]; intros Hok; [constructor|].
  inversion Hok; subst. constructor; [|auto].
  destruct r as [[e nm] d], r' as [[e' nm'] d']. destruct Hr as (_ & Hd & Hc & Hb).
  unfold rec_deleted, rec_entry in *. cbn in *. subst d'. rewrite Hb, Hc. assumption.
Qed.

(** ** Runs of records

    [log_run] is [log_at] without the end condition: what has been copied so far. *)

Inductive log_run (n : Z) (b : image) : Z -> list record -> Z -> Prop :=
| run_nil pos : log_run n b pos [] pos
| run_cons pos e name del rs tail :
    pos < n -> all_zero (b pos) = false ->
    zss_decode_record n (b pos) pos = Some (e, name, del) ->
    log_run n b (pos + (1 + blocks e)) rs tail ->
    log_run n b pos ((e, name, del) :: rs) tail.

Lemma run_log n b pos rs tail : log_run n b pos rs tail -> log_at n b tail [] tail -> log_at n b pos rs tail.
Proof. induction 1; intros Hend; [exact Hend | econstructor; eauto]. Qed.

(** The sectors a list of records takes. *)
Definition sectors_of (rs : list record) : Z :=
  fold_right (fun r a => 1 + blocks (rec_entry r) + a) 0 rs.

Lemma sectors_of_app rs rs' : sectors_of (rs ++ rs') = sectors_of rs + sectors_of rs'.
Proof. unfold sectors_of. induction rs as [|r rs IH]; cbn; lia. Qed.

Lemma log_distinct n b pos rs tail : n <= ZEAL_SRC_SECTS -> image_ok b -> 0 <= pos <= n ->
  log_at n b pos rs tail -> distinct rs.
Proof.
  intros Hn Hb Hp Hlog. induction Hlog as [pos|pos|pos e name del rs tail Hlt Hz Hd Hlog IH].
  1,2: (intros r r' []).
  destruct (decode_inv n (b pos) pos e name del (proj2 (Hb pos)) Hn ltac:(lia) Hd) as (He & _ & Hbl & Hfit & _).
  destruct (log_bounds n Hn b _ rs tail Hb Hlog ltac:(lia)) as [_ Hf]. rewrite List.Forall_forall in Hf.
  assert (G : forall r, In r rs -> rec_pos (e, name, del) <> rec_pos r).
  { intros [[e' nm'] d'] Hin. destruct (Hf _ Hin) as (H1 & _). unfold rec_pos, rec_entry. cbn. lia. }
  intros r r' [<-|Hr] [<-|Hr'] E; auto.
  - destruct (G _ Hr' E).
  - destruct (G _ Hr (eq_sym E)).
  - apply IH; auto. lia.
Qed.

(** A header copied to another sector decodes to the same record there. *)
Lemma decode_move n s pos pos' e name del :
  bytes_ok s -> n <= ZEAL_SRC_SECTS -> 0 <= pos < n -> 0 <= pos' -> pos' + (1 + blocks e) <= n ->
  zss_decode_record n s pos = Some (e, name, del) ->
  zss_decode_record n s pos' =
  Some (mk_entry pos' (e_length e) (checksum e) (blocks e), name, del).
Proof.
  intros Hs Hn Hp Hp' Hfit Hd.
  destruct (decode_inv n s pos e name del Hs Hn Hp Hd) as (_ & _ & Hb & Hfit0 & _).
  revert Hd. unfold zss_decode_record, ZEAL_SRC_SECTS in *.
  destruct (_ || _) eqn:E; [discriminate|]. destruct (zss_name_ok _) eqn:En; [|discriminate].
  intros [= <- <- <-]. cbn [blocks e_length checksum] in *. bool_hyps.
  rewrite (u32_id (pos' + 1)), (u32_id (pos' + 1 + _)) by lia.
  destruct (Z.ltb_spec n (pos' + 1 + zss_u32 (drop 16 s))) as [|_]; [lia|].
  match goal with |- (if ?c then _ else _) = _ => assert (Ec : c = false) end.
  { rewrite !orb_false_iff. repeat split; auto; lia. }
  rewrite Ec. reflexivity.
Qed.

Lemma zss_eq_refl s : forall k, zss_eq s s k = true.
Proof.
  intros k. revert s. induction k as [|k IH]; intros s; [reflexivity|].
  cbn [zss_eq]. rewrite Z.eqb_refl. apply IH.
Qed.

(** A record copied sector by sector is the same record in its new place. *)
Lemma moved_copy b c n pos next e name del :
  image_ok b -> n <= ZEAL_SRC_SECTS -> 0 <= pos < n -> 0 <= next -> next + (1 + blocks e) <= n ->
  zss_decode_record n (b pos) pos = Some (e, name, del) -> all_zero (b pos) = false ->
  (forall i, 0 <= i < 1 + blocks e -> c (next + i) = b (pos + i)) ->
  let e' := mk_entry next (e_length e) (checksum e) (blocks e) in
  all_zero (c next) = false /\ zss_decode_record n (c next) next = Some (e', name, del) /\
  moved b c (e, name, del) (e', name, del).
Proof.
  intros Hb Hn Hp Hnx Hfit Hd Hz Hc e'.
  destruct (decode_inv n (b pos) pos e name del (proj2 (Hb pos)) Hn Hp Hd) as (He & _ & Hbl & _).
  assert (E0 : c next = b pos) by (rewrite <- (Z.add_0_r next), <- (Z.add_0_r pos); apply Hc; lia).
  rewrite E0. split; [exact Hz|]. split.
  - apply (decode_move n _ pos next); auto. apply Hb.
  - split; [reflexivity|]. split; [reflexivity|]. split; [reflexivity|].
    unfold file_bytes, rec_entry, e'. cbn [fst e_length header_sector blocks]. rewrite He. f_equal.
    apply (read_range_shift _ _ _ (next + 1) (pos + 1)). intros i Hi.
    replace (next + 1 + i) with (next + (1 + i)) by lia.
    replace (pos + 1 + i) with (pos + (1 + i)) by lia. apply Hc. lia.
Qed.

(** A change behind a run does not touch its files. *)
Lemma run_file_bytes n b pos rs tail c r : log_run n b pos rs tail -> n <= ZEAL_SRC_SECTS -> image_ok b ->
  0 <= pos <= n -> agree pos tail b c -> In r rs -> file_bytes c (rec_entry r) = file_bytes b (rec_entry r).
Proof.
  intros Hrun Hn Hb Hp Ha. assert (G : pos <= tail /\ Forall (record_in pos tail) rs).
  { clear Ha. revert Hp. induction Hrun as [pos|pos e name del rs tail Hlt Hz Hd Hrun IH]; intros Hp; [split; [lia | constructor]|].
    destruct (decode_inv n (b pos) pos e name del (proj2 (Hb pos)) Hn ltac:(lia) Hd) as (He & Hnm & Hbl & Hfit & _ & Hk).
    destruct (IH ltac:(lia)) as [Ht Hf]. split; [lia|]. constructor.
    - split; [lia|]. split; [lia|]. split; [lia|]. split; [exact Hnm | exact Hk].
    - eapply Forall_impl; [|exact Hf]. intros [[e' nm'] d']. cbn. intros (H1 & H2). split; [lia | exact H2]. }
  destruct G as [_ Hf]. intros Hin. rewrite List.Forall_forall in Hf. destruct r as [[e nm] d].
  destruct (Hf _ Hin) as (H1 & H2 & H3 & _). unfold file_bytes, rec_entry. cbn [fst]. f_equal.
  apply read_range_agree, agree_sym. eapply agree_mono; [exact Ha | lia | lia].
Qed.

Lemma Forall2_impl_in {A B} (P Q : A -> B -> Prop) l l' :
  Forall2 P l l' -> (forall x y, In y l' -> P x y -> Q x y) -> Forall2 Q l l'.
Proof.
  intros H. induction H as [|x y l l' Hxy H IH]; intros HPQ; [constructor|].
  constructor; [apply HPQ; [left; reflexivity | exact Hxy] | apply IH].
  intros x' y' Hin. apply HPQ. right. exact Hin.
Qed.

(** ** The new superblock *)

Lemma superblock_v2_bytes n gen :
  let pre := ZCSRC002 ++ le4 2 ++ le4 n ++ le4 gen in
  superblock_v2 n gen = pre ++ le4 (zss_crc (pre ++ zeros 492) 20) ++ zeros 488.
Proof.
  intros pre. unfold superblock_v2.
  change (zss_w32 _ 16 gen) with (pre ++ zeros 4 ++ zeros 488).
  apply (zss_w32_split pre (zeros 488) (zeros 4)). reflexivity.
Qed.

Lemma superblock_v2_ok n gen : sector_ok (superblock_v2 n gen).
Proof.
  rewrite superblock_v2_bytes. cbv zeta. generalize (zss_crc ((ZCSRC002 ++ le4 2 ++ le4 n ++ le4 gen) ++ zeros 492) 20).
  intros c. split; [reflexivity|]. rewrite !bytes_ok_app.
  repeat split; try apply le4_ok; try apply bytes_ok_zeros; repeat constructor; unfold is_u; lia.
Qed.

Lemma zss_crc_take l k : zss_crc l k = crc32 (take k l).
Proof. reflexivity. Qed.

Lemma superblock_v2_generation n gen : is_u 32 n -> 0 < gen < 2 ^ 32 ->
  superblock_generation n (superblock_v2 n gen) = Some gen.
Proof.
  intros Hn Hg. rewrite superblock_v2_bytes. cbv zeta.
  set (pre := ZCSRC002 ++ le4 2 ++ le4 n ++ le4 gen). set (c := zss_crc (pre ++ zeros 492) 20).
  assert (Hby : bytes_ok pre).
  { unfold pre. rewrite !bytes_ok_app. repeat split; try apply le4_ok; repeat constructor; unfold is_u; lia. }
  assert (Ec : zss_crc (pre ++ le4 c ++ zeros 488) 20 = c).
  { unfold c at 2. rewrite !zss_crc_take, !take_app_le by (unfold pre; cbn; lia). reflexivity. }
  assert (Hc : is_u 32 c).
  { unfold c. rewrite zss_crc_take, take_app_le by (unfold pre; cbn; lia).
    apply crc32_range, bytes_ok_take, Hby. }
  unfold superblock_generation. rewrite Ec. clearbody c.
  change (drop 12 (pre ++ le4 c ++ zeros 488)) with (le4 n ++ le4 gen ++ le4 c ++ zeros 488).
  change (drop 16 (pre ++ le4 c ++ zeros 488)) with (le4 gen ++ le4 c ++ zeros 488).
  change (drop 20 (pre ++ le4 c ++ zeros 488)) with (le4 c ++ zeros 488).
  rewrite !u32_le4 by (assumption || (unfold is_u; lia)). rewrite !Z.eqb_refl.
  change (zss_eq (pre ++ le4 c ++ zeros 488) ZCSRC001 8) with false.
  change (zss_eq (pre ++ le4 c ++ zeros 488) ZCSRC002 8) with true.
  change (zss_u32 (drop 8 (pre ++ le4 c ++ zeros 488)) =? 2) with true.
  cbn [negb andb]. destruct (Z.eqb_spec gen 0); [lia | reflexivity].
Qed.

Lemma superblock_generation_range n s g : bytes_ok s -> superblock_generation n s = Some g -> is_u 32 g.
Proof.
  intros Hs. unfold superblock_generation. repeat case_if; intros [= <-]; [unfold is_u; lia|].
  apply zss_u32_range, bytes_ok_drop, Hs.
Qed.

Lemma select_probe v cap base n gen : select v cap = Some (base, n, gen) -> probe v cap base n = Some gen.
Proof.
  unfold select, choose_bank.
  destruct (probe v cap ZEAL_SRC_LBA_BASE ZEAL_SRC_SECTS) as [a|] eqn:Ea,
    (probe v cap ZEAL_SRC_SHADOW_LBA ZEAL_SRC_SHADOW_SECTS) as [b|] eqn:Eb;
    try (destruct (a <? b)); intros [= <- <- <-]; assumption.
Qed.

(** ** The loops

    [v0] is the disk when the compaction starts; only sectors of bank [target] behind its
    superblock change until the new superblock is written. *)

Section Loops.
Context {D : Type} `{Hdev : BlockDev D} `{Hview : BlockDevView D} `{Hlaw : !BlockDevLaws D}.
Implicit Types (d : D) (s : zst D).

Context (v0 : image) (cap base target n gen tail : Z) (rs : list record).
Hypothesis Hv0 : image_ok v0.
Hypothesis Hstore : store_at v0 cap base n gen rs tail.
Hypothesis Htarget : target = if base =? ZEAL_SRC_LBA_BASE then ZEAL_SRC_SHADOW_LBA else ZEAL_SRC_LBA_BASE.
Hypothesis Hcap : target + n <= cap.

Let b0 : image := bank v0 base.

(** The copy area: the other bank without its superblock. *)
Definition area : Z -> Prop := within (target + 1) (target + n).

Lemma compact_geometry : n = 65536 /\ 1 <= tail <= n /\
  ((base = 131039 /\ target = 196575) \/ (base = 196575 /\ target = 131039)) /\ base + n <= cap.
Proof using Hv0 Hstore Htarget.
  destruct (store_geometry _ _ _ _ _ _ _ Hv0 Hstore) as (Hn & Ht & Hb & Hc).
  unfold ZEAL_SRC_SECTS, ZEAL_SRC_LBA_BASE, ZEAL_SRC_SHADOW_LBA in *.
  split; [exact Hn|]. split; [exact Ht|]. split; [|exact Hc].
  destruct Hb as [->| ->]; [left | right]; (split; [reflexivity | exact Htarget]).
Qed.

(** A change in the copy area does not touch the store. *)
Lemma area_store w : (forall i, ~ area i -> w i = v0 i) ->
  store_at w cap base n gen rs tail /\ store_map (bank w base) rs = store_map b0 rs.
Proof using Hv0 Hstore Htarget.
  intros H. destruct compact_geometry as (Hn & Ht & Hb & _).
  unfold area, within in H. apply (store_frame v0 w); auto.
  - unfold same_superblocks, ZEAL_SRC_LBA_BASE, ZEAL_SRC_SHADOW_LBA.
    split; symmetry; apply H; lia.
  - intros i Hi. symmetry. apply H. lia.
Qed.

(** The states the loops run through. *)
Record side s : Prop := {
  sd_wf : dev_wf (z_dev s);
  sd_online : online (z_dev s);
  sd_cap : full_capacity (z_dev s) = cap;
  sd_view : forall i, ~ area i -> view (z_dev s) i = v0 i;
  sd_base : g_zss_base s = base;
  sd_sectors : g_zss_sectors s = n;
  sd_gen : g_zss_generation s = gen }.

Lemma side_step P d' s : (forall i, P i -> area i) -> side s -> evolves P (z_dev s) d' -> side (set_dev d' s).
Proof.
  intros HP [W O C V B S G] Ev. pose proof (ev_attrs _ _ _ Ev) as A.
  split; cbn [z_dev set_dev g_zss_base g_zss_sectors g_zss_generation]; auto.
  - exact (ev_wf _ _ _ Ev).
  - eapply online_attrs; eauto.
  - rewrite (capacity_attrs _ _ A). exact C.
  - intros i Hi. rewrite (ev_view _ _ _ Ev) by auto. auto.
Qed.

Lemma side_banks s : side s -> bank_on (z_dev s) base n /\ bank_on (z_dev s) target n /\ zbank_on s.
Proof using Hv0 Hstore Htarget Hcap.
  intros [W O C V B S G]. destruct compact_geometry as (Hn & _ & Hb & Hcap').
  unfold zbank_on, bank_on. rewrite B, S, C.
  unfold ZEAL_SRC_SECTS, ZEAL_SRC_LBA_BASE, ZEAL_SRC_SHADOW_LBA.
  repeat split; try apply O; auto; lia.
Qed.

Lemma side_bank s : side s -> agree 0 n b0 (bank (view (z_dev s)) base).
Proof using Hv0 Hstore Htarget.
  intros S i Hi. destruct compact_geometry as (Hn & _ & Hb & _).
  symmetry. apply (sd_view _ S). unfold area, within. lia.
Qed.

Lemma source_distinct : distinct rs.
Proof using Hv0 Hstore Htarget.
  destruct compact_geometry as (Hn & Ht & _).
  apply (log_distinct n b0 1 rs tail); [unfold ZEAL_SRC_SECTS; lia | | lia | apply Hstore].
  apply bank_ok. exact Hv0.
Qed.

Lemma u32_is_u x : is_u 32 (u32 x).
Proof. apply u32_range. Qed.

(** Visiting a record of the log. *)
Lemma visit_spec pos e name del s :
  side s -> In (e, name, del) rs -> 1 <= pos < n -> all_zero (b0 pos) = false ->
  zss_decode_record n (b0 pos) pos = Some (e, name, del) ->
  exists r s', zss_compact_visit pos s = Some (r, s') /\ evolves nowhere (z_dev s) (z_dev s') /\
    ((r = Some (e, del, keep rs (e, name, del)) /\ side s') \/
     (r = None /\ alive (z_dev s') = false)).
Proof using Hlaw Hv0 Hstore Htarget Hcap.
  intros S Hin Hp Hz Hd. destruct compact_geometry as (Hn & _).
  destruct (side_banks s S) as (_ & _ & B).
  unfold zss_compact_visit.
  destruct (sector_read_spec pos s (sd_wf _ S) B ltac:(rewrite (sd_sectors _ S); lia))
    as (r & d1 & E & Ev1 & Hr).
  rewrite (bind_some _ _ _ _ _ E).
  rewrite bind_gets. cbn [g_zss_sectors set_dev].
  destruct Hr as [[-> _]|[-> La]].
  2: { eexists _, _. split; [reflexivity|]. split; [exact Ev1 | right; auto]. }
  change (view (z_dev s) (g_zss_base s + pos)) with (bank (view (z_dev s)) (g_zss_base s) pos).
  rewrite (sd_base _ S), (sd_sectors _ S), <- (side_bank s S), Hd by lia.
  assert (S1 : side (set_dev d1 s)) by (apply (side_step nowhere); [intros i [] | exact S | exact Ev1]).
  destruct (area_store _ (sd_view _ S1)) as [Hst _]. rewrite <- (sd_cap _ S1) in Hst.
  destruct (find_spec (Some name) (set_dev d1 s) base n gen rs tail (sd_wf _ S1) (sd_online _ S1) Hst)
    as (f & d2 & s2 & E2 & <- & Ev2 & Hf).
  { intros nm [= <-]. pose proof (store_records _ _ _ _ _ _ _ Hv0 Hstore) as Hrec.
    rewrite List.Forall_forall in Hrec. destruct (Hrec _ Hin) as (_ & _ & _ & H4 & _). exact H4. }
  rewrite (bind_some _ _ _ _ _ E2).
  assert (Ev : evolves nowhere (z_dev s) (z_dev s2)) by (eapply evolves_trans; eassumption).
  destruct Hf as [(Es2 & _ & ->)|[Hc La]].
  2: { destruct (_ && _) eqn:Hbad; [|lia]. eexists _, _. split; [reflexivity|]. split; [exact Ev | right; auto]. }
  assert (Hlast : exists l, lastrec name rs = Some l).
  { destruct (lastrec name rs) eqn:El; [eauto|]. exfalso.
    exact (proj1 (lastrec_none _ _) El _ Hin eq_refl). }
  destruct Hlast as [l El].
  assert (Ek : is_latest (mk_find (scan_result (Some name) rs).1 (scan_result (Some name) rs).2 tail
                 (u32 (Z.of_nat (length rs)))) pos del = keep rs (e, name, del)).
  { unfold is_latest, keep, rec_pos, rec_entry, rec_name, rec_deleted. cbn [fst snd fr_entry fr_code].
    destruct (decode_inv n (b0 pos) pos e name del (proj2 (bank_ok _ _ Hv0 pos))
      ltac:(unfold ZEAL_SRC_SECTS; lia) ltac:(lia) Hd) as (-> & _).
    destruct (scan_result _ _) as [c [x|]]; reflexivity. }
  rewrite Ek. cbn [fr_code]. rewrite scan_result_lastrec, El. cbn [fst].
  eexists _, s2. split; [destruct (rec_deleted l); reflexivity|]. split; [exact Ev|]. left.
  split; [reflexivity|]. pose proof (side_step nowhere (z_dev s2) s ltac:(intros i []) S Ev) as S2.
  destruct S2. split; auto; rewrite Es2; reflexivity.
Qed.
(** A kept record passes the checksum test. *)
Lemma kept_check_spec e nm del s : side s -> In (e, nm, del) rs ->
  exists bad d', (if del then ret 0 else zss_verify e) s = Some (bad, set_dev d' s) /\
    evolves nowhere (z_dev s) d' /\ (bad = 0 \/ (bad = -1 /\ alive d' = false)).
Proof using Hlaw Hv0 Hstore Htarget Hcap.
  intros S Hin. destruct compact_geometry as (Hn & Ht & _). destruct del.
  - exists 0, (z_dev s). rewrite set_dev_same. split; [reflexivity|].
    split; [apply evolves_refl, S | left; reflexivity].
  - destruct (area_store _ (sd_view _ S)) as [Hst _]. destruct (side_banks s S) as (_ & _ & B).
    pose proof (store_records _ _ _ _ _ _ _ Hv0 Hstore) as Hrec.
    pose proof (sa_ok _ _ _ _ _ _ _ Hst) as Hok. rewrite List.Forall_forall in Hrec, Hok.
    apply (verify_spec e nm 1 tail s (sd_wf _ S) B); [lia | rewrite (sd_sectors _ S); lia | exact (Hrec _ Hin) |].
    rewrite (sd_base _ S). exact (Hok _ Hin).
Qed.

(** The first loop: nothing is written, every kept record passes its check and fits. *)
Lemma check_loop_spec fuel : forall pos done todo need kept s,
  side s -> rs = done ++ todo -> log_at n b0 pos todo tail -> 1 <= pos <= n ->
  (Z.to_nat (n - pos) < fuel)%nat -> 1 <= need <= pos -> 0 <= kept <= pos ->
  exists r s', zss_compact_check fuel pos tail n need kept s = Some (r, s') /\
    evolves nowhere (z_dev s) (z_dev s') /\
    let ks := List.filter (keep rs) todo in
    ((r = inr (need + sectors_of ks, kept + Z.of_nat (length ks)) /\ side s' /\
      need + sectors_of ks <= tail) \/
     (r = inl (-1) /\ alive (z_dev s') = false)).
Proof using Hlaw Hv0 Hstore Htarget Hcap.
  destruct compact_geometry as (Hn & Ht & _). assert (Hle : n <= ZEAL_SRC_SECTS) by (unfold ZEAL_SRC_SECTS; lia).
  pose proof (bank_ok _ base Hv0) as Hb0. fold b0 in Hb0.
  induction fuel as [|fuel IH]; intros pos done todo need kept s S Ers Hlog Hp Hf Hneed Hkept; [lia|].
  cbn [zss_compact_check]. pose proof (log_tail_bounds n Hle _ _ _ _ Hb0 Hlog ltac:(lia)) as Hpt.
  inversion Hlog as [|? Hlt|? e nm del todo' ? Hlt Hz Hd Hlog']; subst pos0.
  1,2: (subst; destruct (Z.ltb_spec tail tail); [lia|]; cbn [negb]; eexists _, s; split; [reflexivity|];
        split; [apply evolves_refl, S|]; left; cbn; split; [f_equal; f_equal; lia | split; [exact S | lia]]).
  destruct (decode_inv n (b0 pos) pos e nm del (proj2 (Hb0 pos)) Hle ltac:(lia) Hd) as (He & _ & Hbl & Hfit & _).
  pose proof (log_tail_bounds n Hle _ _ _ _ Hb0 Hlog' ltac:(lia)) as Hpt'.
  destruct (Z.ltb_spec pos tail); [|lia]. cbn [negb].
  assert (Hin : In (e, nm, del) rs) by (rewrite Ers; apply in_or_app; right; subst todo; left; reflexivity).
  destruct (visit_spec pos e nm del s S Hin ltac:(lia) Hz Hd) as (r & s1 & E1 & Ev1 & Hr).
  rewrite (bind_some _ _ _ _ _ E1).
  destruct Hr as [[-> S1]|[-> La]].
  2: { eexists _, _. split; [reflexivity|]. split; [exact Ev1 | right; auto]. }
  assert (Ers' : rs = (done ++ [(e, nm, del)]) ++ todo') by (rewrite Ers, <- app_assoc; subst todo; reflexivity).
  rewrite (u32_id (pos + _)) by lia. subst todo. cbn [List.filter].
  destruct (keep rs (e, nm, del)) eqn:Hk.
  2: { destruct (IH (pos + (1 + blocks e)) _ todo' need kept s1 S1 Ers' Hlog' ltac:(lia) ltac:(lia) ltac:(lia) ltac:(lia))
         as (r & s2 & E2 & Ev2 & Hres).
       exists r, s2. split; [exact E2|]. split; [eapply evolves_trans; eassumption | exact Hres]. }
  destruct (kept_check_spec e nm del s1 S1 Hin) as (bad & d2 & E2 & Ev2 & Hbad).
  rewrite (bind_some _ _ _ _ _ E2).
  assert (Ev12 : evolves nowhere (z_dev s) d2) by (eapply evolves_trans; eassumption).
  destruct Hbad as [->|[-> La]].
  2: { eexists _, _. split; [reflexivity|]. split; [exact Ev12 | right; auto]. }
  cbn [negb Z.eqb]. rewrite (u32_id (need + 1)), (u32_id (need + 1 + _)) by lia.
  destruct (Z.ltb_spec n (need + 1 + blocks e)); [lia|].
  rewrite (u32_id (need + _)), (u32_id (kept + 1)) by lia.
  assert (S2 : side (set_dev d2 s1)) by (apply (side_step nowhere); [intros i [] | exact S1 | exact Ev2]).
  destruct (IH (pos + (1 + blocks e)) _ todo' (need + (1 + blocks e)) (kept + 1) (set_dev d2 s1) S2 Ers' Hlog'
    ltac:(lia) ltac:(lia) ltac:(lia) ltac:(lia)) as (r & s3 & E3 & Ev3 & Hres).
  exists r, s3. split; [exact E3|]. split; [eapply evolves_trans; eassumption|].
  cbn [sectors_of fold_right length rec_entry fst]. fold (sectors_of (List.filter (keep rs) todo')).
  destruct Hres as [(-> & S3 & Hfit3)|Hres]; [left | right; exact Hres].
  split; [f_equal; f_equal; lia|]. split; [exact S3 | lia].
Qed.
(** Copying [k] sectors of the source bank. *)
Lemma copy_sectors_spec k : forall pos next s,
  side s -> 0 <= pos -> pos + Z.of_nat k <= n -> 1 <= next -> next + Z.of_nat k <= n ->
  exists ok d', zss_copy_sectors k pos target next s = Some (ok, set_dev d' s) /\
    evolves (within (target + next) (target + next + Z.of_nat k)) (z_dev s) d' /\
    if ok then forall i, 0 <= i < Z.of_nat k -> bank (view d') target (next + i) = b0 (pos + i)
    else alive d' = false.
Proof using Hlaw Hv0 Hstore Htarget Hcap.
  destruct compact_geometry as (Hn & _).
  induction k as [|k IH]; intros pos next s S Hp Hfit Hx Hfitx; cbn [zss_copy_sectors].
  { exists true, (z_dev s). rewrite set_dev_same. split; [reflexivity|].
    split; [apply evolves_refl, S | lia]. }
  destruct (side_banks s S) as (_ & Bt & B).
  destruct (sector_read_spec pos s (sd_wf _ S) B ltac:(rewrite (sd_sectors _ S); lia))
    as (r & d1 & E1 & Ev1 & Hr).
  rewrite (bind_some _ _ _ _ _ E1).
  destruct Hr as [[-> _]|[-> La]].
  2: { eexists _, d1. split; [reflexivity|]. split; [apply evolves_nowhere; exact Ev1 | exact La]. }
  change (view (z_dev s) (g_zss_base s + pos)) with (bank (view (z_dev s)) (g_zss_base s) pos).
  rewrite (sd_base _ S), <- (side_bank s S) by lia.
  assert (S1 : side (set_dev d1 s)) by (apply (side_step nowhere); [intros i [] | exact S | exact Ev1]).
  destruct (side_banks _ S1) as (_ & Bt1 & _).
  destruct (bank_write_spec target n next (b0 pos) (set_dev d1 s) (sd_wf _ S1) Bt1 ltac:(lia) ltac:(apply Hv0))
    as (ok & d2 & E2 & Sw & Ev2 & Hf).
  rewrite (bind_some _ _ _ _ _ E2), set_dev_set_dev.
  assert (Ev12 : evolves (within (target + next) (target + next + Z.of_nat (Datatypes.S k))) (z_dev s) d2).
  { eapply evolves_trans; [apply evolves_nowhere; exact Ev1|]. eapply evolves_mono; [|exact Ev2].
    intros i <-. unfold within. lia. }
  destruct ok; cbn [negb]; [|eexists _, d2; split; [reflexivity|]; split; [exact Ev12 | exact (Hf eq_refl)]].
  assert (S2 : side (set_dev d2 s)).
  { eapply side_step; [|exact S|exact Ev12]. intros i. unfold within, area, within. lia. }
  destruct (side_banks _ S2) as (_ & Bt2 & _).
  destruct (bank_read_spec target n next (set_dev d2 s) (sd_wf _ S2) Bt2 ltac:(lia)) as (r & d3 & E3 & Ev3 & Hr3).
  rewrite (bind_some _ _ _ _ _ E3), set_dev_set_dev. cbn [z_dev set_dev] in *.
  assert (Ev13 : evolves (within (target + next) (target + next + Z.of_nat (Datatypes.S k))) (z_dev s) d3).
  { eapply evolves_trans; [exact Ev12 | apply evolves_nowhere; exact Ev3]. }
  destruct Hr3 as [[-> _]|[-> La]].
  2: { eexists _, d3. split; [reflexivity|]. split; [exact Ev13 | exact La]. }
  assert (Ew : view d2 (target + next) = b0 pos).
  { rewrite (wr_view _ _ _ _ _ Sw eq_refl). apply upd_eq. }
  rewrite Ew, zss_eq_refl, (u32_id (pos + 1)), (u32_id (next + 1)) by lia.
  assert (S3 : side (set_dev d3 s)).
  { apply (side_step nowhere d3 (set_dev d2 s)); [intros i [] | exact S2 | exact Ev3]. }
  destruct (IH (pos + 1) (next + 1) (set_dev d3 s) S3 ltac:(lia) ltac:(lia) ltac:(lia) ltac:(lia))
    as (ok & d4 & E4 & Ev4 & Hok).
  exists ok, d4. split; [exact E4|]. cbn [z_dev set_dev] in Ev4. split.
  { eapply evolves_trans; [exact Ev13|]. eapply evolves_mono; [|exact Ev4]. unfold within. intros i. lia. }
  destruct ok; [|exact Hok]. intros i Hi. destruct (Z.eq_dec i 0) as [->|Hne].
  - rewrite !Z.add_0_r. unfold bank.
    rewrite (ev_view _ _ _ Ev4), (ev_view _ _ _ Ev3), Ew by (solve [intros []] || (unfold within; lia)). reflexivity.
  - replace (next + i) with (next + 1 + (i - 1)) by lia. replace (pos + i) with (pos + 1 + (i - 1)) by lia.
    apply Hok. lia.
Qed.
(** Sectors of the copy area before [next] are settled. *)
Lemma run_frame b c pos ks tl : log_run n b pos ks tl -> image_ok b -> 0 <= pos <= n -> agree pos tl b c ->
  pos <= tl /\ log_run n c pos ks tl.
Proof using Hv0 Hstore Htarget.
  destruct compact_geometry as (Hn & _). intros H Hb. revert c.
  induction H as [pos|pos e name del ks tl Hlt Hz Hd H IH]; intros c Hp Ha; [split; [lia | constructor]|].
  destruct (decode_inv n (b pos) pos e name del (proj2 (Hb pos)) ltac:(unfold ZEAL_SRC_SECTS; lia) ltac:(lia) Hd)
    as (_ & _ & Hbl & Hfit & _).
  destruct (IH b ltac:(lia) ltac:(intros ? ?; reflexivity)) as [Hle _].
  destruct (IH c ltac:(lia) ltac:(eapply agree_mono; [exact Ha | lia | lia])) as [_ Hc].
  split; [lia|]. assert (E : b pos = c pos) by (apply Ha; lia).
  apply run_cons; [exact Hlt | rewrite <- E; exact Hz | rewrite <- E; exact Hd | exact Hc].
Qed.

(** The second loop: the kept records become a run in the copy area. *)
Lemma copy_loop_spec fuel : forall pos done todo next s,
  let ks := List.filter (keep rs) todo in
  side s -> rs = done ++ todo -> log_at n b0 pos todo tail -> 1 <= pos <= n ->
  (Z.to_nat (n - pos) < fuel)%nat -> 1 <= next <= pos ->
  exists r s', zss_compact_copy fuel pos tail target next s = Some (r, s') /\
    evolves (within (target + next) (target + n)) (z_dev s) (z_dev s') /\
    ((exists ks', r = Some (next + sectors_of ks) /\ side s' /\
        log_run n (bank (view (z_dev s')) target) next ks' (next + sectors_of ks) /\
        Forall2 (moved b0 (bank (view (z_dev s')) target)) ks ks') \/
     (r = None /\ alive (z_dev s') = false)).
Proof using Hlaw Hv0 Hstore Htarget Hcap.
  destruct compact_geometry as (Hn & Ht & _). assert (Hle : n <= ZEAL_SRC_SECTS) by (unfold ZEAL_SRC_SECTS; lia).
  pose proof (bank_ok _ base Hv0) as Hb0. fold b0 in Hb0.
  induction fuel as [|fuel IH]; intros pos done todo next s ks S Ers Hlog Hp Hf Hx; [lia|].
  cbn [zss_compact_copy]. pose proof (log_tail_bounds n Hle _ _ _ _ Hb0 Hlog ltac:(lia)) as Hpt.
  inversion Hlog as [|? Hlt|? e nm del todo' ? Hlt Hz Hd Hlog']; subst pos0.
  1,2: (subst; destruct (Z.ltb_spec tail tail); [lia|]; cbn [negb]; eexists _, s; split; [reflexivity|];
        split; [apply evolves_refl, S|]; left; exists []; cbn; rewrite Z.add_0_r;
        split; [reflexivity|]; split; [exact S | split; constructor]).
  destruct (decode_inv n (b0 pos) pos e nm del (proj2 (Hb0 pos)) Hle ltac:(lia) Hd) as (He & _ & Hbl & Hfit & _).
  pose proof (log_tail_bounds n Hle _ _ _ _ Hb0 Hlog' ltac:(lia)) as Hpt'.
  destruct (Z.ltb_spec pos tail); [|lia]. cbn [negb].
  assert (Hin : In (e, nm, del) rs) by (rewrite Ers; apply in_or_app; right; subst todo; left; reflexivity).
  destruct (visit_spec pos e nm del s S Hin ltac:(lia) Hz Hd) as (r & s1 & E1 & Ev1 & Hr).
  rewrite (bind_some _ _ _ _ _ E1).
  destruct Hr as [[-> S1]|[-> La]].
  2: { eexists _, _. split; [reflexivity|]. split; [apply evolves_nowhere; exact Ev1 | right; auto]. }
  assert (Ers' : rs = (done ++ [(e, nm, del)]) ++ todo') by (rewrite Ers, <- app_assoc; subst todo; reflexivity).
  rewrite (u32_id (pos + _)) by lia. subst todo. unfold ks. cbn [List.filter].
  destruct (keep rs (e, nm, del)) eqn:Hk.
  2: { destruct (IH (pos + (1 + blocks e)) _ todo' next s1 S1 Ers' Hlog' ltac:(lia) ltac:(lia) ltac:(lia))
         as (r & s2 & E2 & Ev2 & Hres).
       exists r, s2. split; [exact E2|]. split; [|exact Hres].
       eapply evolves_trans; [apply evolves_nowhere; exact Ev1 | exact Ev2]. }
  destruct (copy_sectors_spec (Datatypes.S (Z.to_nat (blocks e))) pos next s1 S1 ltac:(lia) ltac:(lia) ltac:(lia) ltac:(lia))
    as (ok & d2 & E2 & Ev2 & Hcopy).
  rewrite (bind_some _ _ _ _ _ E2).
  assert (Ev12 : evolves (within (target + next) (target + n)) (z_dev s) d2).
  { eapply evolves_trans; [apply evolves_nowhere; exact Ev1|]. eapply evolves_mono; [|exact Ev2].
    unfold within. intros i. lia. }
  destruct ok; [|eexists _, _; split; [reflexivity|]; split; [exact Ev12 | right; auto]].
  rewrite (u32_id (next + _)) by lia.
  assert (S2 : side (set_dev d2 s1)).
  { eapply side_step; [|exact S1|exact Ev2]. intros i. unfold within, area, within. lia. }
  destruct (IH (pos + (1 + blocks e)) _ todo' (next + (1 + blocks e)) (set_dev d2 s1) S2 Ers' Hlog'
    ltac:(lia) ltac:(lia) ltac:(lia)) as (r & s3 & E3 & Ev3 & Hres).
  exists r, s3. split; [exact E3|]. split.
  { eapply evolves_trans; [exact Ev12|]. eapply evolves_mono; [|exact Ev3]. unfold within. intros i. lia. }
  destruct Hres as [(ks' & -> & S3 & Hrun & Hmv)|Hres]; [left | right; exact Hres].
  destruct (moved_copy b0 (bank (view (z_dev s3)) target) n pos next e nm del Hb0 Hle ltac:(lia) ltac:(lia)
    ltac:(lia) Hd Hz) as (M1 & M2 & M3).
  { intros i Hi. rewrite <- Hcopy by lia. unfold bank. apply (ev_view _ _ _ Ev3). unfold within. lia. }
  eexists (_ :: ks'). cbn [sectors_of fold_right rec_entry fst]. fold (sectors_of (List.filter (keep rs) todo')).
  rewrite <- (Z.add_assoc next (1 + blocks e)) in Hrun |- *. split; [reflexivity|]. split; [exact S3|].
  split; [eapply run_cons; [lia | exact M1 | exact M2 | exact Hrun] | constructor; [exact M3 | exact Hmv]].
Qed.
(** *** Publishing the copy *)

Hypothesis Hgen : gen <> UINT32_MAX.

Definition new_superblock : sector := superblock_v2 n (u32 (gen + 1)).

Lemma gen_next : u32 (gen + 1) = gen + 1 /\ 0 <= gen < UINT32_MAX.
Proof using Hv0 Hstore Hgen.
  pose proof (select_probe _ _ _ _ _ (sa_select _ _ _ _ _ _ _ Hstore)) as Hp.
  unfold probe in Hp. destruct (cap <? _); [discriminate|].
  apply superblock_generation_range in Hp; [|apply Hv0].
  unfold is_u, UINT32_MAX in *. change (2 ^ 32) with 4294967296 in Hp.
  split; [apply u32_id; lia | lia].
Qed.

(** With the new superblock in place the target bank is selected. *)
Lemma select_new w : w target = new_superblock -> w base = v0 base ->
  select w cap = Some (target, n, gen + 1).
Proof using Hv0 Hstore Htarget Hcap Hgen.
  intros Ht Hb. destruct compact_geometry as (Hn & _ & Hgeo & Hcap'). destruct gen_next as [Eg Hg].
  pose proof (select_probe _ _ _ _ _ (sa_select _ _ _ _ _ _ _ Hstore)) as Hp.
  assert (Pb : probe w cap base n = Some gen).
  { unfold probe in *. rewrite Hb. exact Hp. }
  assert (Pt : probe w cap target n = Some (gen + 1)).
  { unfold probe. rewrite u64_id by lia. destruct (Z.ltb_spec cap (target + n)); [lia|].
    rewrite Ht. unfold new_superblock. rewrite Eg. apply superblock_v2_generation; [unfold is_u; lia|].
    unfold UINT32_MAX in Hg. lia. }
  unfold select, choose_bank, ZEAL_SRC_LBA_BASE, ZEAL_SRC_SECTS, ZEAL_SRC_SHADOW_LBA, ZEAL_SRC_SHADOW_SECTS.
  rewrite Hn in *. destruct Hgeo as [[-> ->]|[-> ->]]; rewrite Pb, Pt.
  - destruct (Z.ltb_spec gen (gen + 1)); [reflexivity | lia].
  - destruct (Z.ltb_spec (gen + 1) gen); [lia | reflexivity].
Qed.

Context (ks' : list record) (next : Z).

(** The copy is complete in [u]. *)
Record copied (u : image) : Prop := {
  cd_ok : image_ok u;
  cd_side : forall i, ~ area i -> u i = v0 i;
  cd_run : log_run n (bank u target) 1 ks' next;
  cd_moved : Forall2 (moved b0 (bank u target)) (List.filter (keep rs) rs) ks' }.

Lemma new_store u w : copied u -> log_at n (bank u target) next [] next -> w ==i upd u target new_superblock ->
  store_at w cap target n (gen + 1) ks' next /\ store_map (bank w target) ks' = store_map b0 rs.
Proof using Hv0 Hstore Htarget Hcap Hgen.
  intros [Hu Hside Hrun Hmv] Hend Hw. destruct compact_geometry as (Hn & Ht & Hgeo & _).
  assert (Hle : n <= ZEAL_SRC_SECTS) by (unfold ZEAL_SRC_SECTS; lia).
  pose proof (run_log _ _ _ _ _ Hrun Hend) as Hlog.
  destruct (log_bounds n Hle _ _ _ _ (bank_ok _ target Hu) Hlog ltac:(lia)) as [Hnext Hin].
  assert (Ha : agree 1 (next + 1) (bank u target) (bank w target)).
  { intros i Hi. unfold bank. rewrite (Hw _), upd_ne by lia. reflexivity. }
  destruct (records_frame _ _ 1 next ks' (agree_mono _ _ 1 next _ _ Ha ltac:(lia) ltac:(lia)) Hin) as [Hmap Hok].
  split; [split|].
  - apply select_new; [rewrite (Hw _); apply upd_eq|].
    rewrite (Hw _), upd_ne by lia. apply Hside. unfold area, within. lia.
  - apply (log_frame n Hle (bank u target)); auto using bank_ok. lia.
  - apply Hok. apply (moved_ok b0 _ _ _ Hmv). pose proof (sa_ok _ _ _ _ _ _ _ Hstore) as Hrs.
    rewrite List.Forall_forall in *. intros r Hr. apply List.filter_In in Hr as [Hr _]. apply Hrs. exact Hr.
  - rewrite <- Hmap. apply (store_map_moved b0); [apply source_distinct | exact Hmv].
Qed.

Lemma old_represents w : (forall i, ~ area i -> w i = v0 i) -> represents w cap (store_map b0 rs).
Proof using Hv0 Hstore Htarget.
  intros H. destruct (area_store w H) as [Hst <-]. eapply represents_intro; [exact Hst | reflexivity].
Qed.

(** The first half: terminator and flush. *)
Lemma publish_terminate s :
  side s -> copied (view (z_dev s)) -> 1 <= next <= n -> 
  exists ok d', (if next <? n then zss_bank_write target next (zeros SECT) else ret true) s =
      Some (ok, set_dev d' s) /\ evolves area (z_dev s) d' /\
    if ok then copied (view d') /\ log_at n (bank (view d') target) next [] next else alive d' = false.
Proof using Hlaw Hv0 Hstore Htarget Hcap.
  intros S C Hnext. destruct compact_geometry as (Hn & _).
  destruct (side_banks s S) as (_ & Bt & _).
  destruct (Z.ltb_spec next n) as [Hlt|Hge].
  2: { exists true, (z_dev s). rewrite set_dev_same. split; [reflexivity|].
       split; [apply evolves_refl, S|]. split; [exact C | apply log_full; lia]. }
  destruct (bank_write_spec target n next (zeros SECT) s (sd_wf _ S) Bt ltac:(lia) zeros_ok)
    as (ok & d' & E & Sw & Ev & Hf).
  exists ok, d'. split; [exact E|].
  assert (Eva : evolves area (z_dev s) d').
  { eapply evolves_mono; [|exact Ev]. intros i <-. unfold area, within. lia. }
  split; [exact Eva|].
  destruct ok; [|exact (Hf eq_refl)]. pose proof (wr_view _ _ _ _ _ Sw eq_refl) as V.
  pose proof (side_step area d' s ltac:(auto) S Eva) as S'.
  assert (Ha : agree 1 next (bank (view (z_dev s)) target) (bank (view d') target)).
  { intros i Hi. unfold bank. rewrite (V _), upd_ne by lia. reflexivity. }
  destruct C as [C1 C2 C3 C4]. split.
  - split; [apply image_ok_view, S' | exact (sd_view _ S') | |].
    + apply (run_frame (bank (view (z_dev s)) target)); auto using bank_ok. lia.
    + eapply Forall2_impl_in; [exact C4|]. intros r r' Hr' (M1 & M2 & M3 & M4).
      split; [exact M1|]. split; [exact M2|]. split; [exact M3|]. rewrite <- M4.
      apply (run_file_bytes _ _ _ _ _ _ _ C3); auto using bank_ok; unfold ZEAL_SRC_SECTS; lia.
  - apply log_empty; [exact Hlt|]. unfold bank. rewrite (V _), upd_eq. reflexivity.
Qed.
(** What [zss_compact] guarantees, from the device it started on. *)
Record compact_post (d0 : D) (code : Z) (d' : D) : Prop := {
  cm_wf : dev_wf d';
  cm_attrs : attrs d' = attrs d0;
  cm_crash : forall v, crash d' v -> represents v cap (store_map b0 rs);
  cm_ok : code = 0 -> synced d' /\ store_at (view d') cap target n (gen + 1) ks' next;
  cm_live : alive d' = true -> code = 0 }.

Definition only_area (d : D) : Prop := forall v, crash d v -> forall i, ~ area i -> v i = v0 i.

Lemma only_area_step P d d' : (forall i, P i -> area i) -> only_area d -> evolves P d d' -> only_area d'.
Proof.
  intros HP H Ev v Hv i Hi. destruct (ev_crash _ _ _ Ev v Hv) as (v1 & Hv1 & G).
  rewrite G by auto. exact (H v1 Hv1 i Hi).
Qed.

Lemma compact_fail d0 code d' : code <> 0 -> dev_wf d' -> attrs d' = attrs d0 -> only_area d' -> alive d' = false ->
  compact_post d0 code d'.
Proof using Hv0 Hstore Htarget.
  intros Hc W A H La. split; auto; try congruence. intros v Hv. apply old_represents. exact (H v Hv).
Qed.

Lemma blk_flush_spec s : dev_wf (z_dev s) -> online (z_dev s) -> flush_supported (z_dev s) = true ->
  exists ok d', blk_flush s = Some (ok, set_dev d' s) /\ evolves nowhere (z_dev s) d' /\
    if ok then synced d' else alive d' = false.
Proof using Hlaw.
  intros W [Or Ox] Hf. unfold blk_flush. destruct (virtio_blk_flush_abs (z_dev s)) as [ok d'] eqn:E.
  exists ok, d'. split; [reflexivity|]. split; [exact (flush_evolves _ _ _ W E)|].
  destruct (flush_law _ _ _ W E) as [_ _ _ _ Hs _ Ht _]. destruct ok; [exact (Hs eq_refl)|].
  destruct (alive d'); [|reflexivity]. discriminate (Ht eq_refl Or Ox Hf).
Qed.

(** The second half: the superblock, on a device whose medium holds the copy. *)
Lemma publish_superblock d0 s :
  side s -> attrs (z_dev s) = attrs d0 -> flush_supported d0 = true -> synced (z_dev s) ->
  (exists u, copied u /\ log_at n (bank u target) next [] next /\ view (z_dev s) ==i u) ->
  exists code s',
    (let! ok := zss_bank_write target 0 new_superblock in
     if negb ok then ret (-1)
     else let! ok := blk_flush in
          if negb ok then ret (-5)
          else let! av := zss_available in
               let! base := gets g_zss_base in
               ret (if negb av || negb (base =? target) then -1 else 0)) s = Some (code, s') /\
    compact_post d0 code (z_dev s').
Proof using Hlaw Hv0 Hstore Htarget Hcap Hgen.
  intros S A0 Hfl Sy (u & C & Hend & Vu). destruct compact_geometry as (Hn & _).
  destruct (side_banks s S) as (_ & Bt & _).
  destruct (bank_write_spec target n 0 new_superblock s (sd_wf _ S) Bt ltac:(lia) (superblock_v2_ok _ _))
    as (ok & d1 & E & Sw & Ev & Hf).
  rewrite (bind_some _ _ _ _ _ E). rewrite Z.add_0_r in Sw.
  assert (Hnew : forall w, w ==i upd (view (z_dev s)) target new_superblock ->
    store_at w cap target n (gen + 1) ks' next /\ store_map (bank w target) ks' = store_map b0 rs).
  { intros w Hw. apply (new_store u); auto. rewrite Hw, Vu. reflexivity. }
  assert (Hcr : forall v, crash d1 v -> represents v cap (store_map b0 rs)).
  { intros v Hv. destruct (wr_crash _ _ _ _ _ Sw v Hv) as (v1 & Hv1 & [G|[_ G]]).
    - apply old_represents. intros i Hi. rewrite (G i), (Sy v1 Hv1). apply (sd_view _ S). exact Hi.
    - destruct (Hnew v) as [Hst <-]; [rewrite G, (Sy v1 Hv1); reflexivity|].
      eapply represents_intro; [exact Hst | reflexivity]. }
  pose proof (ev_wf _ _ _ Ev) as W1. pose proof (ev_attrs _ _ _ Ev) as A1.
  destruct ok; cbn [negb].
  2: { exists (-1), (set_dev d1 s). split; [reflexivity|].
       split; cbn [z_dev set_dev]; auto; try congruence. rewrite (Hf eq_refl). discriminate. }
  assert (O1 : online d1) by (eapply online_attrs; [exact A1 | apply S]).
  destruct (blk_flush_spec (set_dev d1 s) W1 O1) as (ok & d2 & E2 & Ev2 & Hok).
  { cbn. rewrite (flush_attrs _ _ A1), (flush_attrs _ _ A0). exact Hfl. }
  rewrite (bind_some _ _ _ _ _ E2), set_dev_set_dev. cbn [z_dev set_dev] in Ev2.
  assert (Hcr2 : forall d3, evolves nowhere d2 d3 -> forall v, crash d3 v -> represents v cap (store_map b0 rs)).
  { intros d3 Ev3 v Hv. destruct (ev_crash _ _ _ (evolves_trans _ _ _ _ Ev2 Ev3) v Hv) as (v1 & Hv1 & G).
    apply (represents_eq v1); [|exact (Hcr v1 Hv1)]. intros i. apply G. intros []. }
  pose proof (ev_wf _ _ _ Ev2) as W2. pose proof (ev_attrs _ _ _ Ev2) as A2.
  destruct ok; cbn [negb].
  2: { exists (-5), (set_dev d2 s). split; [reflexivity|].
       split; cbn [z_dev set_dev]; auto; try congruence. apply Hcr2, evolves_refl, W2. }
  assert (O2 : online d2) by (eapply online_attrs; [exact A2 | exact O1]).
  destruct (available_spec (set_dev d2 s) W2 O2) as (av & d3 & sel & E3 & Ev3 & -> & Hsel & _).
  rewrite (bind_some _ _ _ _ _ E3), bind_gets. cbn [z_dev set_dev] in Ev3, Hsel.
  assert (V3 : view d3 ==i upd (view (z_dev s)) target new_superblock).
  { rewrite (evolves_view _ _ Ev3), (evolves_view _ _ Ev2). exact (wr_view _ _ _ _ _ Sw eq_refl). }
  assert (Sy3 : synced d3).
  { intros v Hv. destruct (ev_crash _ _ _ Ev3 v Hv) as (v1 & Hv1 & G). intros i.
    rewrite G, (Hok v1 Hv1), (ev_view _ _ _ Ev3) by intros []. reflexivity. }
  eexists _, _. split; [reflexivity|].
  assert (Ed : forall x : option (Z * Z * Z), z_dev match x with
    | Some (b, n0, g) => set_bank b n0 g (set_dev d3 (set_dev d2 s)) | None => set_dev d3 (set_dev d2 s) end = d3).
  { intros [[[? ?] ?]|]; reflexivity. }
  rewrite Ed. split; [apply Ev3 | | apply Hcr2, Ev3 | |].
  - rewrite (ev_attrs _ _ _ Ev3), A2, A1. exact A0.
  - intros _. split; [exact Sy3 | exact (proj1 (Hnew _ V3))].
  - intros La. pose proof (sa_select _ _ _ _ _ _ _ (proj1 (Hnew _ V3))) as Hs3.
    rewrite (Hsel La). rewrite (capacity_attrs _ _ A2), (capacity_attrs _ _ A1), (sd_cap _ S).
    rewrite (select_same _ (view d3)).
    + rewrite Hs3, bool_decide_true by eauto. cbn [negb orb g_zss_base set_bank]. rewrite Z.eqb_refl. reflexivity.
    + split; symmetry; apply (ev_view _ _ _ Ev3); intros [].
Qed.
Lemma publish_spec d0 s :
  side s -> attrs (z_dev s) = attrs d0 -> flush_supported d0 = true -> only_area (z_dev s) ->
  copied (view (z_dev s)) -> 1 <= next <= n ->
  exists code s', zss_compact_publish target n next s = Some (code, s') /\
    compact_post d0 code (z_dev s').
Proof using Hlaw Hv0 Hstore Htarget Hcap Hgen.
  intros S A0 Hfl Ho C Hnext. unfold zss_compact_publish.
  destruct (publish_terminate s S C Hnext) as (ok & d1 & E1 & Ev1 & H1).
  rewrite (bind_some _ _ _ _ _ E1).
  pose proof (only_area_step area _ _ ltac:(auto) Ho Ev1) as Ho1.
  pose proof (ev_attrs _ _ _ Ev1) as A1.
  destruct ok; cbn [negb].
  2: { exists (-1), (set_dev d1 s). split; [reflexivity|].
       apply compact_fail; [discriminate | apply Ev1 | cbn; congruence | exact Ho1 | exact H1]. }
  destruct H1 as [C1 Hend]. pose proof (side_step area d1 s ltac:(auto) S Ev1) as S1.
  destruct (blk_flush_spec (set_dev d1 s) (sd_wf _ S1) (sd_online _ S1)) as (ok & d2 & E2 & Ev2 & Hok).
  { cbn. rewrite (flush_attrs _ _ A1), (flush_attrs _ _ A0). exact Hfl. }
  rewrite (bind_some _ _ _ _ _ E2), set_dev_set_dev. cbn [z_dev set_dev] in Ev2.
  pose proof (only_area_step nowhere _ _ ltac:(intros i []) Ho1 Ev2) as Ho2.
  pose proof (ev_attrs _ _ _ Ev2) as A2.
  destruct ok; cbn [negb].
  2: { exists (-1), (set_dev d2 s). split; [reflexivity|].
       apply compact_fail; [discriminate | apply Ev2 | cbn; congruence | exact Ho2 | exact Hok]. }
  rewrite bind_gets. cbn [g_zss_generation set_dev]. rewrite (sd_gen _ S). fold new_superblock.
  apply (publish_superblock d0 (set_dev d2 s)); auto.
  - apply (side_step nowhere d2 (set_dev d1 s)); [intros i [] | exact S1 | exact Ev2].
  - cbn. congruence.
  - exists (view d1). split; [exact C1|]. split; [exact Hend | apply evolves_view; exact Ev2].
Qed.
End Loops.

(** ** The whole operation *)

(** Only one record per path is kept. *)
Lemma keep_NoDup rs : distinct rs -> NoDup rs -> NoDup (map rec_name (List.filter (keep rs) rs)).
Proof.
  intros Hd Hnd.
  assert (G : forall l, NoDup l -> (forall r, In r l -> lastrec (rec_name r) rs = Some r) -> NoDup (map rec_name l)).
  { induction l as [|r l IH]; intros Hl Hr; [constructor|]. inversion Hl as [|? ? Hnin Hl']; subst. cbn [map]. constructor.
    - intros Hin. apply list_elem_of_In, in_map_iff in Hin as (r' & E & Hin). apply Hnin, list_elem_of_In.
      pose proof (Hr r (or_introl eq_refl)) as H1. pose proof (Hr r' (or_intror Hin)) as H2. congruence.
    - apply IH; [exact Hl'|]. intros r' Hin. apply Hr. right. exact Hin. }
  apply G.
  - apply NoDup_ListNoDup, List.NoDup_filter, NoDup_ListNoDup. exact Hnd.
  - intros r Hin. apply List.filter_In in Hin as [Hin Hk]. apply keep_spec; auto.
Qed.

Lemma log_NoDup n b pos rs tail : n <= ZEAL_SRC_SECTS -> image_ok b -> 0 <= pos <= n ->
  log_at n b pos rs tail -> NoDup rs.
Proof.
  intros Hn Hb Hp Hlog. induction Hlog as [pos|pos|pos e name del rs tail Hlt Hz Hd Hlog IH]; [constructor .. |].
  destruct (decode_inv n (b pos) pos e name del (proj2 (Hb pos)) Hn ltac:(lia) Hd) as (He & _ & Hbl & Hfit & _).
  constructor; [|apply IH; lia]. intros Hin. apply list_elem_of_In in Hin.
  destruct (log_bounds n Hn b _ rs tail Hb Hlog ltac:(lia)) as [_ Hf]. rewrite List.Forall_forall in Hf.
  destruct (Hf _ Hin) as (H1 & _). lia.
Qed.

Lemma moved_names b c ks ks' : Forall2 (moved b c) ks ks' -> map rec_name ks' = map rec_name ks.
Proof. induction 1 as [|r r' ks ks' (E & _) H IH]; cbn; [reflexivity | congruence]. Qed.

Section Whole.
Context {D : Type} `{Hdev : BlockDev D} `{Hview : BlockDevView D} `{Hlaw : !BlockDevLaws D}.
Implicit Types (d : D) (s : zst D).

(** The outcome of a compaction begun on [d0], whose selected bank [base] has generation [gen] and
    holds the records [rs] up to [tail]: a power loss at any point leaves the same map; code 0
    means the other bank is selected on the medium and holds one record per path, in no more
    sectors than before; a device that answers gives 0, or -4 when compaction is not possible. *)
Record compacted (d0 : D) (base gen tail : Z) (m : gmap cstring (list Z))
    (out : Z * option (Z * Z * Z)) (d' : D) : Prop := {
  co_wf : dev_wf d';
  co_attrs : attrs d' = attrs d0;
  co_crash : forall v, crash d' v -> represents v (full_capacity d0) m;
  co_ok : out.1 = 0 -> synced d' /\ exists target n ks next,
    target <> base /\ store_at (view d') (full_capacity d0) target n (gen + 1) ks next /\
    NoDup (map rec_name ks) /\ next <= tail /\ out.2 = Some (tail, next, Z.of_nat (length ks));
  co_live : alive d' = true -> out.1 = 0 \/
    (out.1 = -4 /\ view d' ==i view d0 /\
     (full_capacity d0 < ZEAL_SRC_SHADOW_LBA + ZEAL_SRC_SHADOW_SECTS \/ gen = UINT32_MAX \/
      flush_supported d0 = false)) }.

(** The loops and the publication, from a state on the source bank. *)
Lemma compact_body d0 base target n gen rs tail s :
  let m := store_map (bank (view d0) base) rs in
  dev_wf d0 -> synced d0 -> store_at (view d0) (full_capacity d0) base n gen rs tail ->
  target = (if base =? ZEAL_SRC_LBA_BASE then ZEAL_SRC_SHADOW_LBA else ZEAL_SRC_LBA_BASE) ->
  target + n <= full_capacity d0 -> gen <> UINT32_MAX -> flush_supported d0 = true ->
  side (view d0) (full_capacity d0) base target n gen s -> evolves nowhere d0 (z_dev s) ->
  exists out s',
    (let! c := zss_compact_check (find_fuel s) 1 tail n 1 0 in
     match c with
     | inl code => ret (code, None)
     | inr (need, kept) =>
         let! x := zss_compact_copy (find_fuel s) 1 tail target 1 in
         match x with
         | None => ret (-1, None)
         | Some next =>
             if negb (next =? need) then ret (-1, None)
             else
               let! code := zss_compact_publish target n next in
               ret (code, if code =? 0 then Some (tail, next, kept) else None)
         end
     end) s = Some (out, s') /\ compacted d0 base gen tail m out (z_dev s').
Proof using Hlaw.
  intros m W Sy Hs Htg Hcap Hg Hfl S Ev0.
  pose proof (image_ok_view _ W) as Hv0. pose proof (source_distinct _ _ _ _ _ _ _ _ Hv0 Hs Htg) as Hd.
  destruct (compact_geometry _ _ _ _ _ _ _ _ Hv0 Hs Htg) as (Hn & Ht & Hgeo & _).
  assert (Hle : n <= ZEAL_SRC_SECTS) by (unfold ZEAL_SRC_SECTS; lia).
  assert (Hlog : log_at n (bank (view d0) base) 1 rs tail) by apply Hs.
  set (A := area target n).
  assert (Hdead : forall code d', evolves A d0 d' -> code <> 0 -> alive d' = false ->
    compacted d0 base gen tail m (code, None) d').
  { intros code d' Ev Hc La. split; try apply Ev; cbn; try congruence.
    intros v Hv. destruct (ev_crash _ _ _ Ev v Hv) as (v1 & Hv1 & G).
    apply (old_represents (view d0) (full_capacity d0) base target n gen tail rs Hv0 Hs Htg).
    intros i Hi. rewrite G by exact Hi. apply (Sy v1 Hv1). }
  assert (Hfuel : (Z.to_nat (n - 1) < find_fuel s)%nat).
  { unfold find_fuel. rewrite (sd_sectors _ _ _ _ _ _ _ S). lia. }
  destruct (check_loop_spec (view d0) _ base target n gen tail rs Hv0 Hs Htg Hcap (find_fuel s) 1 [] rs 1 0 s
    S eq_refl Hlog ltac:(lia) Hfuel ltac:(lia) ltac:(lia)) as (r & s1 & E1 & Ev1 & Hr).
  rewrite (bind_some _ _ _ _ _ E1).
  assert (Ev01 : evolves nowhere d0 (z_dev s1)) by (eapply evolves_trans; eassumption).
  destruct Hr as [(-> & S1 & Hfit)|[-> La]].
  2: { eexists _, s1. split; [reflexivity|]. apply Hdead; [apply evolves_nowhere; exact Ev01 | discriminate | exact La]. }
  destruct (copy_loop_spec (view d0) _ base target n gen tail rs Hv0 Hs Htg Hcap (find_fuel s) 1 [] rs 1 s1
    S1 eq_refl Hlog ltac:(lia) Hfuel ltac:(lia)) as (r & s2 & E2 & Ev2 & Hr).
  rewrite (bind_some _ _ _ _ _ E2).
  assert (Ev02 : evolves A d0 (z_dev s2)) by (eapply evolves_trans; [apply evolves_nowhere; exact Ev01 | exact Ev2]).
  destruct Hr as [(ks' & -> & S2 & Hrun & Hmv)|[-> La]].
  2: { eexists _, s2. split; [reflexivity|]. apply Hdead; [exact Ev02 | discriminate | exact La]. }
  rewrite Z.eqb_refl. cbn [negb]. set (next := 1 + sectors_of (List.filter (keep rs) rs)) in *.
  assert (Hnext : 1 <= next).
  { destruct (run_frame (view d0) _ base target n gen tail rs Hv0 Hs Htg _ (bank (view (z_dev s2)) target) 1 ks' next Hrun)
      as [G _]; [apply bank_ok, image_ok_view, S2 | lia | intros ? ?; reflexivity | exact G]. }
  destruct (publish_spec (view d0) (full_capacity d0) base target n gen tail rs Hv0 Hs Htg Hcap Hg ks' next d0 s2 S2)
    as (code & s3 & E3 & P); [apply Ev02 | exact Hfl | | | lia |].
  - intros v Hv i Hi. destruct (ev_crash _ _ _ Ev02 v Hv) as (v1 & Hv1 & G). rewrite G by exact Hi. apply (Sy v1 Hv1).
  - split; [apply image_ok_view, S2 | apply (sd_view _ _ _ _ _ _ _ S2) | exact Hrun | exact Hmv].
  - rewrite (bind_some _ _ _ _ _ E3). eexists _, s3. split; [reflexivity|].
    destruct P as [P1 P2 P3 P4 P5]. split; cbn [fst snd]; auto.
    intros ->. destruct (P4 eq_refl) as [Sy3 Hst]. split; [exact Sy3|]. exists target, n, ks', next.
    split; [lia|]. split; [exact Hst|]. split; [|split; [lia|]].
    + rewrite (moved_names _ _ _ _ Hmv). apply keep_NoDup; [exact Hd|].
      apply (log_NoDup n (bank (view d0) base) 1 rs tail); auto using bank_ok. lia.
    + cbn. rewrite (Forall2_length Hmv). reflexivity.
Qed.

Lemma compact_spec s base n gen rs tail :
  dev_wf (z_dev s) -> online (z_dev s) -> synced (z_dev s) ->
  store_at (view (z_dev s)) (full_capacity (z_dev s)) base n gen rs tail ->
  exists out s', zss_compact s = Some (out, s') /\
    compacted (z_dev s) base gen tail (store_map (bank (view (z_dev s)) base) rs) out (z_dev s').
Proof using Hlaw.
  intros W O Sy Hs. pose proof (image_ok_view _ W) as Hv.
  set (target := if base =? ZEAL_SRC_LBA_BASE then ZEAL_SRC_SHADOW_LBA else ZEAL_SRC_LBA_BASE).
  destruct (compact_geometry _ _ base target n gen tail rs Hv Hs eq_refl) as (Hn & Ht & Hgeo & Hc0).
  set (m := store_map (bank (view (z_dev s)) base) rs).
  assert (Hsame : forall code d', evolves nowhere (z_dev s) d' -> code <> 0 ->
    (alive d' = true -> code = -4 /\ (full_capacity (z_dev s) < ZEAL_SRC_SHADOW_LBA + ZEAL_SRC_SHADOW_SECTS \/
       gen = UINT32_MAX \/ flush_supported (z_dev s) = false)) ->
    compacted (z_dev s) base gen tail m (code, None) d').
  { intros code d' Ev Hc Hl. split; try apply Ev; cbn; try congruence.
    - intros v Hv1. destruct (ev_crash _ _ _ Ev v Hv1) as (v1 & Hv2 & G).
      apply (represents_eq (view (z_dev s))); [|eapply represents_intro; [exact Hs | reflexivity]].
      intros i. rewrite G by intros []. apply (Sy v1 Hv2).
    - intros La. right. destruct (Hl La) as [-> Hx]. split; [reflexivity|].
      split; [apply evolves_view; exact Ev | exact Hx]. }
  unfold zss_compact. destruct (find_none_spec s base n gen rs tail W O Hs) as (r & s1 & E1 & Ev1 & H1).
  rewrite (bind_some _ _ _ _ _ E1). destruct (Z.ltb_spec (fr_code r) 0) as [Hneg|Hpos].
  { eexists _, s1. split; [reflexivity|]. apply Hsame; [exact Ev1 | discriminate |].
    destruct H1 as [(_ & _ & Hc & _)|(_ & _ & La)]; [lia | congruence]. }
  destruct H1 as [(Es1 & B1 & Hc & Etail)|(Hc & _)]; [|lia]. rewrite Etail, !bind_gets.
  pose proof (ev_attrs _ _ _ Ev1) as A1.
  assert (Eb : g_zss_base s1 = base) by (rewrite Es1; reflexivity).
  assert (Eg : g_zss_generation s1 = gen) by (rewrite Es1; reflexivity).
  assert (En : g_zss_sectors s1 = n) by (rewrite Es1; reflexivity).
  rewrite Eb, Eg, (flush_attrs _ _ A1), (capacity_attrs _ _ A1). fold target. cbv zeta.
  replace (if base =? ZEAL_SRC_LBA_BASE then ZEAL_SRC_SHADOW_SECTS else ZEAL_SRC_SECTS) with n
    by (rewrite Hn; destruct (base =? _); reflexivity).
  rewrite (u64_id (target + n)) by lia.
  destruct (_ || _) eqn:Href.
  { eexists _, s1. split; [reflexivity|]. apply Hsame; [exact Ev1 | discriminate |]. intros _. split; [reflexivity|].
    rewrite !orb_true_iff, negb_true_iff, Z.ltb_lt, Z.eqb_eq in Href.
    unfold ZEAL_SRC_SHADOW_LBA, ZEAL_SRC_SHADOW_SECTS. destruct Href as [[Href|Href]|Href]; auto. left. lia. }
  rewrite !orb_false_iff, negb_false_iff, Z.ltb_ge, Z.eqb_neq in Href. destruct Href as [[Hcap Hg] Hfl].
  destruct (blk_flush_spec s1 (ev_wf _ _ _ Ev1)) as (ok & d2 & E2 & Ev2 & Hok).
  { eapply online_attrs; eauto. } { rewrite (flush_attrs _ _ A1). exact Hfl. }
  rewrite (bind_some _ _ _ _ _ E2).
  assert (Ev02 : evolves nowhere (z_dev s) d2) by (eapply evolves_trans; eassumption).
  destruct ok; cbn [negb].
  2: { eexists _, _. split; [reflexivity|]. apply Hsame; [exact Ev02 | discriminate | cbn; congruence]. }
  rewrite bind_gets.
  apply (compact_body (z_dev s) base target n gen rs tail (set_dev d2 s1)); auto.
  pose proof (ev_attrs _ _ _ Ev02) as A2.
  split; cbn [z_dev set_dev g_zss_base g_zss_sectors g_zss_generation]; auto.
  - apply Ev02.
  - eapply online_attrs; eauto.
  - apply (capacity_attrs _ _ A2).
  - intros i _. apply (ev_view _ _ _ Ev02). intros [].
Qed.
End Whole.
