(* ===== verification/SourceStoreStream.v ===== *)
(** * Streaming append to the source partition

    [zss_stream_begin], [zss_stream_write] and [zss_stream_finish] against the block interface: the
    sectors a stream has filled hold the bytes written so far, and only [zss_stream_finish] makes
    them visible. *)

From stdpp Require Import gmap.
From S2P Require Import Prelude BlockDev SourceStore SourceStoreLog SourceStoreSpec.
#[local] Open Scope sm_scope.

Section Stream.
Context {D : Type} `{Hdev : BlockDev D} `{Hview : BlockDevView D} `{Hlaw : !BlockDevLaws D}.
Implicit Types (d : D) (s : zst D).

(** The store the stream was opened on, and what was asked for. *)
Context (d0 : D) (base n gen tail : Z) (rs : list record).
Context (name : cstring) (name_len len crc : Z).
Hypothesis Hwf : dev_wf d0.
Hypothesis Hsync : synced d0.
Hypothesis Hbank : bank_on d0 base n.
Hypothesis Hstore : store_at (view d0) (full_capacity d0) base n gen rs tail.
Hypothesis Hname : zss_name_ok name = Some name_len.
Hypothesis Hlen : 0 < len <= ZSS_MAX_FILE.
Hypothesis Hroom : tail + (1 + blocks_of len) <= n.

Lemma stream_geometry : n = 65536 /\ 1 <= tail <= n /\ 1 <= blocks_of len <= 8192 /\
  512 * (blocks_of len - 1) < len <= 512 * blocks_of len.
Proof using Hlaw Hwf Hstore Hlen.
  destruct (store_geometry _ _ _ _ _ _ _ (image_ok_view _ Hwf) Hstore) as (Hn & Ht & _).
  split; [exact Hn|]. split; [exact Ht|]. split; [apply blocks_of_range; exact Hlen|].
  unfold blocks_of. Z.div_mod_to_equations. lia.
Qed.

(** Whole sectors filled by [data], and the bytes left over. *)
Definition whole (data : list Z) : nat := (length data / 512)%nat.
Definition rest (data : list Z) : list Z := drop (512 * whole data) data.

Lemma whole_rest data : take (512 * whole data) data ++ rest data = data.
Proof. apply take_drop. Qed.

Lemma length_rest data : length (rest data) = (length data mod 512)%nat.
Proof. unfold rest, whole. rewrite length_drop. pose proof (Nat.div_mod_eq (length data) 512). lia. Qed.

(** The stream has taken in [data]. *)
Record streaming (data : list Z) (st : zss_stream) s : Prop := {
  sm_tail : st_tail st = tail;
  sm_length : st_length st = len;
  sm_written : st_written st = Z.of_nat (length data);
  sm_fits : Z.of_nat (length data) <= len;
  sm_expected : st_expected_crc st = crc;
  sm_crc : st_crc st = fold_left zss_crc_step data 0xffffffff;
  sm_name_len : st_name_len st = name_len;
  sm_name : st_name st = name;
  sm_sector : st_sector st = pad_sector (rest data);
  sm_bytes : bytes_ok data;
  sm_evolves : evolves (beyond base tail n) d0 (z_dev s);
  sm_base : g_zss_base s = base;
  sm_sectors : g_zss_sectors s = n;
  sm_disk : read_range (bank (view (z_dev s)) base) (tail + 1) (whole data) = take (512 * whole data) data }.

Lemma written_pos (data : list Z) : Z.of_nat (length data) <= len ->
  Z.land (Z.of_nat (length data)) 511 = Z.of_nat (length data mod 512).
Proof.
  intros H. change 511 with (Z.ones 9). rewrite Z.land_ones by lia. rewrite Nat2Z.inj_mod. reflexivity.
Qed.

Lemma pad_insert (l : list Z) b : (length l < SECT)%nat -> <[length l := b]> (pad_sector l) = pad_sector (l ++ [b]).
Proof.
  intros H. unfold pad_sector. rewrite insert_app_r_alt by lia. rewrite Nat.sub_diag.
  replace (SECT - length l)%nat with (S (SECT - length (l ++ [b]))) by (rewrite length_app; cbn; lia).
  cbn [zeros repeat]. rewrite <- app_assoc. reflexivity.
Qed.

Lemma snoc_same_sector data b : (S (length data mod 512) < 512)%nat ->
  whole (data ++ [b]) = whole data /\ rest (data ++ [b]) = rest data ++ [b].
Proof.
  intros H. assert (E : whole (data ++ [b]) = whole data).
  { unfold whole. rewrite length_app. cbn [length].
    pose proof (Nat.div_mod_eq (length data) 512).
    symmetry. apply (Nat.div_unique _ 512 _ (S (length data mod 512))); lia. }
  split; [exact E|]. unfold rest. rewrite E. apply drop_app_le.
  unfold whole. apply Nat.Div0.mul_div_le.
Qed.

Lemma snoc_full_sector data b : S (length data mod 512) = 512%nat ->
  whole (data ++ [b]) = S (whole data) /\ rest (data ++ [b]) = [] /\
  take (512 * whole (data ++ [b])) (data ++ [b]) = take (512 * whole data) data ++ (rest data ++ [b]).
Proof.
  intros H. pose proof (Nat.div_mod_eq (length data) 512) as Hd.
  assert (E : whole (data ++ [b]) = S (whole data)).
  { unfold whole. rewrite length_app. cbn [length]. symmetry. apply (Nat.div_unique _ 512 _ 0); lia. }
  assert (El : (length (data ++ [b]) = 512 * S (whole data))%nat).
  { rewrite length_app. unfold whole. cbn [length]. lia. }
  split; [exact E|]. split.
  - unfold rest. rewrite E. apply drop_ge. lia.
  - rewrite E, take_ge by lia. rewrite app_assoc. f_equal. symmetry. apply whole_rest.
Qed.

Lemma read_range_snoc b k : forall at_, read_range b at_ (S k) = read_range b at_ k ++ b (at_ + Z.of_nat k).
Proof.
  induction k as [|k IH]; intros at_.
  - cbn. rewrite app_nil_r, Z.add_0_r. reflexivity.
  - change (read_range b at_ (S (S k))) with (b at_ ++ read_range b (at_ + 1) (S k)).
    rewrite IH. cbn [read_range]. rewrite <- app_assoc. do 2 f_equal. f_equal. lia.
Qed.

(** Once a write has failed the device is dead and nothing but the free area has changed. *)
Definition stream_dead s : Prop := evolves (beyond base tail n) d0 (z_dev s) /\ alive (z_dev s) = false.

Lemma streaming_bank data st s : streaming data st s -> dev_wf (z_dev s) /\ zbank_on s.
Proof using Hbank.
  intros S. pose proof (sm_evolves _ _ _ S) as Ev. split; [apply Ev|].
  unfold zbank_on. rewrite (sm_base _ _ _ S), (sm_sectors _ _ _ S).
  eapply bank_on_attrs; [apply Ev | exact Hbank].
Qed.

(** The stream after a byte has been taken into the buffer: the fields that do not depend on
    whether the sector is now full. *)
Lemma stream_byte_fields data st s b :
  streaming data st s -> Z.of_nat (length data) < len ->
  let st1 := stream_byte st b in
  st_written st1 = Z.of_nat (length (data ++ [b])) /\
  st_crc st1 = fold_left zss_crc_step (data ++ [b]) 0xffffffff /\
  st_sector st1 = pad_sector (rest data ++ [b]).
Proof using Hlen.
  intros S Hlt st1. unfold ZSS_MAX_FILE in Hlen. split; [|split].
  - unfold st1, stream_byte. cbn [st_written]. rewrite (sm_written _ _ _ S), u32_id, length_app by lia.
    cbn [length]. lia.
  - unfold st1, stream_byte. cbn [st_crc]. rewrite (sm_crc _ _ _ S), fold_left_app. cbn [fold_left]. reflexivity.
  - unfold st1, stream_byte. cbn [st_sector].
    rewrite (sm_written _ _ _ S), (sm_sector _ _ _ S), written_pos, Nat2Z.id by lia.
    rewrite <- (length_rest data). apply pad_insert. rewrite length_rest. apply Nat.mod_upper_bound. lia.
Qed.

Lemma bytes_ok_snoc data b : bytes_ok data -> is_u 8 b -> bytes_ok (data ++ [b]).
Proof. intros H Hb. apply bytes_ok_app. split; [exact H | constructor; [exact Hb | constructor]]. Qed.

(** A byte that leaves the sector incomplete. *)
Lemma stream_byte_partial data st s b :
  streaming data st s -> is_u 8 b -> Z.of_nat (length data) < len -> (S (length data mod 512) < 512)%nat ->
  streaming (data ++ [b]) (stream_byte st b) s.
Proof using Hlen.
  intros S Hb Hlt Hpart. destruct (stream_byte_fields data st s b S Hlt) as (H1 & H2 & H3).
  destruct (snoc_same_sector data b Hpart) as (Ew & Er).
  destruct S as [S1 S2 S3 S4 S5 S6 S7 S8 S9 S10 S11 S12 S13 S14]. split; auto.
  - rewrite length_app. cbn [length]. lia.
  - rewrite Er. exact H3.
  - apply bytes_ok_snoc; assumption.
  - rewrite Ew, S14. symmetry. apply take_app_le. unfold whole. apply Nat.Div0.mul_div_le.
Qed.

(** A byte that completes a sector: the sector goes to the next free place. *)
Lemma stream_byte_full data st s b :
  streaming data st s -> is_u 8 b -> Z.of_nat (length data) < len -> S (length data mod 512) = 512%nat ->
  let st1 := stream_byte st b in
  exists ok d', zss_sector_write (u32 (st_tail st1 + st_written st1 / 512)) (st_sector st1) s =
      Some (ok, set_dev d' s) /\
    if ok then streaming (data ++ [b]) (stream_reset st1) (set_dev d' s)
    else stream_dead (set_dev d' s).
Proof using Hlaw Hwf Hbank Hstore Hlen Hroom.
  intros S Hb Hlt Hfull st1. destruct stream_geometry as (Hn & Ht & Hbl & Hlb). unfold ZSS_MAX_FILE in Hlen.
  destruct (stream_byte_fields data st s b S Hlt) as (H1 & H2 & H3). fold st1 in H1, H2, H3.
  destruct (snoc_full_sector data b Hfull) as (Ew & Er & Et). destruct (streaming_bank data st s S) as [W B].
  assert (Ediv : Z.of_nat (length (data ++ [b])) / 512 = 1 + Z.of_nat (whole data)).
  { change 512 with (Z.of_nat 512). rewrite <- Nat2Z.inj_div. fold (whole (data ++ [b])). rewrite Ew. lia. }
  assert (Hfit : Z.of_nat (whole data) < blocks_of len).
  { rewrite length_app in Ediv. cbn [length] in Ediv. Z.div_mod_to_equations. lia. }
  assert (Hso : sector_ok (pad_sector (rest data ++ [b]))).
  { apply pad_sector_ok; [rewrite length_app, length_rest; cbn [length]; lia|].
    apply bytes_ok_snoc; [|exact Hb]. apply bytes_ok_drop. exact (sm_bytes _ _ _ S). }
  change (st_tail st1) with (st_tail st). rewrite H1, H3, Ediv, (sm_tail _ _ _ S).
  rewrite u32_id, Z.add_assoc by lia.
  destruct (sector_write_spec (tail + 1 + Z.of_nat (whole data)) (pad_sector (rest data ++ [b])) s W B) as (ok & d' & E & Sw & Ev & Hf);
    [rewrite (sm_sectors _ _ _ S); lia | exact Hso |].
  exists ok, d'. split; [exact E|]. rewrite (sm_base _ _ _ S) in Sw, Ev.
  destruct S as [S1 S2 S3 S4 S5 S6 S7 S8 S9 S10 S11 S12 S13 S14].
  assert (Ev' : evolves (beyond base tail n) d0 d').
  { eapply evolves_trans; [exact S11|]. eapply evolves_mono; [|exact Ev].
    intros i <-. unfold beyond, within. lia. }
  destruct ok; [|split; [exact Ev' | exact (Hf eq_refl)]].
  split; cbn [stream_reset st_tail st_length st_written st_expected_crc st_crc st_name_len st_name st_sector
              z_dev set_dev g_zss_base g_zss_sectors]; auto.
  - rewrite length_app. cbn [length]. lia.
  - rewrite Er. reflexivity.
  - apply bytes_ok_snoc; assumption.
  - rewrite Et, Ew, read_range_snoc. f_equal.
    + rewrite <- S14. apply read_range_agree. intros i Hi. apply (ev_view _ _ _ Ev). lia.
    + unfold bank. rewrite (wr_view _ _ _ _ _ Sw eq_refl), upd_eq. unfold pad_sector.
      replace (SECT - length (rest data ++ [b]))%nat with 0%nat by (rewrite length_app, length_rest; cbn [length]; lia).
      apply app_nil_r.
Qed.

(** The byte loop. *)
Lemma stream_bytes_spec src : forall data st s,
  streaming data st s -> bytes_ok src -> Z.of_nat (length data + length src) <= len ->
  exists code st' s', zss_stream_bytes st src s = Some ((code, st'), s') /\
    ((code = 0 /\ streaming (data ++ src) st' s') \/ (code = -1 /\ stream_dead s')).
Proof using Hlaw Hwf Hbank Hstore Hlen Hroom.
  induction src as [|b src IH]; intros data st s S Hby Hfit; cbn [zss_stream_bytes].
  { exists 0, st, s. rewrite app_nil_r. auto. }
  apply Forall_cons_1 in Hby as [Hb Hby]. cbn [length] in Hfit.
  assert (Hlt : Z.of_nat (length data) < len) by lia.
  destruct (stream_byte_fields data st s b S Hlt) as (H1 & _). rewrite H1.
  rewrite written_pos by (rewrite length_app; cbn [length]; lia).
  assert (Hm : (length data mod 512 < 512)%nat) by (apply Nat.mod_upper_bound; lia).
  assert (Hnext : (length (data ++ [b]) mod 512 = if Nat.eqb (Datatypes.S (length data mod 512)) 512 then 0 else Datatypes.S (length data mod 512))%nat).
  { rewrite length_app. cbn [length]. rewrite Nat.Div0.add_mod, (Nat.mod_small 1) by lia. rewrite Nat.add_1_r.
    destruct (Nat.eqb_spec (Datatypes.S (length data mod 512)) 512) as [->|Hne]; [reflexivity | apply Nat.mod_small; lia]. }
  rewrite Hnext. replace (data ++ b :: src) with ((data ++ [b]) ++ src) by (rewrite <- app_assoc; reflexivity).
  destruct (Nat.eqb_spec (Datatypes.S (length data mod 512)) 512) as [Hfull|Hpart].
  - destruct (stream_byte_full data st s b S Hb Hlt Hfull) as (ok & d' & E & Hok). rewrite H1 in E.
    change (Z.of_nat 0 =? 0) with true. cbv iota.
    rewrite (bind_some _ _ _ _ _ E). destruct ok.
    + apply IH; [exact Hok | exact Hby | rewrite length_app; cbn [length]; lia].
    + eexists _, _, _. split; [reflexivity | right; auto].
  - destruct (Z.eqb_spec (Z.of_nat (Datatypes.S (length data mod 512))) 0); [lia|].
    apply IH; [|exact Hby | rewrite length_app; cbn [length]; lia].
    apply stream_byte_partial; auto. lia.
Qed.

Lemma stream_write_spec src data st s :
  streaming data st s -> bytes_ok src -> Z.of_nat (length data + length src) <= len ->
  exists code st' s', zss_stream_write st src s = Some ((code, st'), s') /\
    ((code = 0 /\ streaming (data ++ src) st' s') \/ (code = -1 /\ stream_dead s')).
Proof using Hlaw Hwf Hbank Hstore Hlen Hroom.
  intros S Hby Hfit. unfold zss_stream_write. unfold ZSS_MAX_FILE in Hlen.
  rewrite (sm_length _ _ _ S), (sm_written _ _ _ S), u32_id by lia.
  destruct (Z.ltb_spec (len - Z.of_nat (length data)) (Z.of_nat (length src))); [lia|].
  apply stream_bytes_spec; assumption.
Qed.

(** The last, incomplete sector. *)
Lemma stream_last_sector data st s :
  streaming data st s -> Z.of_nat (length data) = len ->
  exists ok d', (if Z.land (st_written st) 511 =? 0 then ret true
      else zss_sector_write (u32 (u32 (st_tail st + 1) + st_written st / 512)) (st_sector st)) s =
      Some (ok, set_dev d' s) /\ evolves (beyond base tail n) d0 d' /\
    if ok then read_range (bank (view d') base) (tail + 1) (Z.to_nat (blocks_of len)) =
               padded (Z.to_nat (blocks_of len)) data
    else alive d' = false.
Proof using Hlaw Hwf Hbank Hstore Hlen Hroom.
  intros S Hall. destruct stream_geometry as (Hn & Ht & Hbl & Hlb). destruct (streaming_bank data st s S) as [W B].
  rewrite (sm_written _ _ _ S), (sm_tail _ _ _ S), written_pos by lia.
  pose proof (Nat.div_mod_eq (length data) 512) as Hdm. fold (whole data) in Hdm.
  assert (Hm : (length data mod 512 < 512)%nat) by (apply Nat.mod_upper_bound; lia).
  destruct (Z.eqb_spec (Z.of_nat (length data mod 512)) 0) as [Hz|Hnz].
  - exists true, (z_dev s). rewrite set_dev_same. split; [reflexivity|]. split; [exact (sm_evolves _ _ _ S)|].
    assert (Ek : Z.to_nat (blocks_of len) = whole data) by lia. rewrite Ek, (sm_disk _ _ _ S).
    unfold padded. replace (SECT * whole data - length data)%nat with 0%nat by lia. cbn [zeros repeat].
    rewrite app_nil_r. apply take_ge. lia.
  - assert (Ek : Z.to_nat (blocks_of len) = Datatypes.S (whole data)) by lia.
    assert (Ediv : Z.of_nat (length data) / 512 = Z.of_nat (whole data)).
    { change 512 with (Z.of_nat 512). rewrite <- Nat2Z.inj_div. reflexivity. }
    rewrite Ediv, (u32_id (tail + 1)), u32_id, (sm_sector _ _ _ S) by lia.
    assert (Hso : sector_ok (pad_sector (rest data))).
    { apply pad_sector_ok; [rewrite length_rest; lia | apply bytes_ok_drop; exact (sm_bytes _ _ _ S)]. }
    destruct (sector_write_spec (tail + 1 + Z.of_nat (whole data)) (pad_sector (rest data)) s W B) as (ok & d' & E & Sw & Ev & Hf);
      [rewrite (sm_sectors _ _ _ S); lia | exact Hso |].
    exists ok, d'. split; [exact E|]. rewrite (sm_base _ _ _ S) in Sw, Ev. split.
    { eapply evolves_trans; [exact (sm_evolves _ _ _ S)|]. eapply evolves_mono; [|exact Ev].
      intros i <-. unfold beyond, within. lia. }
    destruct ok; [|exact (Hf eq_refl)]. rewrite Ek, read_range_snoc. unfold bank at 2.
    rewrite (wr_view _ _ _ _ _ Sw eq_refl), upd_eq.
    rewrite (read_range_agree _ (bank (view d') base) (bank (view (z_dev s)) base)), (sm_disk _ _ _ S).
    + unfold pad_sector, padded. rewrite app_assoc, whole_rest, length_rest. do 2 f_equal. lia.
    + intros i Hi. apply (ev_view _ _ _ Ev). lia.
Qed.

(** Finishing: a stream whose length and checksum do not match is refused and the map is as it
    was; otherwise the file is committed atomically. *)
Lemma stream_finish_spec data st s :
  let m := store_map (bank (view d0) base) rs in
  streaming data st s ->
  exists code s', zss_stream_finish st s = Some (code, s') /\
    if (Z.of_nat (length data) =? len) && (crc32 data =? crc)
    then update_post m (<[name := data]> m) 0 d0 code (z_dev s')
    else code = -4 /\ s' = s.
Proof using Hlaw Hwf Hsync Hbank Hstore Hname Hlen Hroom.
  intros m S. destruct stream_geometry as (Hn & Ht & Hbl & Hlb). unfold zss_stream_finish.
  rewrite (sm_crc _ _ _ S), (sm_expected _ _ _ S), (sm_length _ _ _ S). fold (crc32 data).
  replace (st_written st =? len) with (Z.of_nat (length data) =? len) by (rewrite (sm_written _ _ _ S); reflexivity).
  rewrite <- negb_andb.
  destruct (_ && _) eqn:Hok; cbn [negb]; [|exists (-4), s; auto].
  apply andb_true_iff in Hok as [Hall Hcrc]. rewrite Z.eqb_eq in Hall, Hcrc.
  destruct (stream_last_sector data st s S Hall) as (ok & d' & E & Ev & Hok).
  rewrite (bind_some _ _ _ _ _ E). destruct ok; cbn [negb].
  2: { exists (-1), (set_dev d' s). split; [reflexivity|]. eapply update_nothing; eauto. }
  unfold ZSS_MAX_FILE in Hlen. rewrite (u32_id (len + 511)) by lia. fold (blocks_of len).
  rewrite (sm_tail _ _ _ S), (sm_name_len _ _ _ S), (sm_name _ _ _ S).
  rewrite (u32_id (tail + 1)), u32_id, <- Z.add_assoc, <- Hcrc, <- Hall by lia.
  apply (data_commit 0 name data name_len d0 base n gen rs tail (set_dev d' s)); rewrite ?Hall; auto;
    cbn [g_zss_base g_zss_sectors set_dev].
  - exact (sm_base _ _ _ S).
  - exact (sm_sectors _ _ _ S).
  - exact (sm_bytes _ _ _ S).
Qed.
End Stream.
