(* ===== verification/Zrecv.v ===== *)
(** * The serial source upload ([zrecv] in [src/src/kernel_stub.c])

    The shell command [zrecv Name.ZC bytes crc32] reads 128-byte chunks as hex lines from the
    UART and streams them into the source partition.  The UART and the counter are hardware: the
    input is the list of characters [zrecv_getc] returns, and the end of the list stands for the
    deadline. *)

From stdpp Require Import gmap.
From S2P Require Import Prelude BlockDev SourceStore SourceStoreLog SourceStoreSpec SourceStoreStream.
#[local] Open Scope sm_scope.

Definition ZRECV_CHUNK : Z := 128.

Definition zrecv_hex (c : Z) : Z :=
  if (48 <=? c) && (c <=? 57) then c - 48
  else if (97 <=? c) && (c <=? 102) then c - 97 + 10
  else if (65 <=? c) && (c <=? 70) then c - 65 + 10
  else -1.

Definition zrecv_getc (input : list Z) : Z * list Z :=
  match input with
  | [] => (-1, [])
  | c :: input' => (c, input')
  end.

Definition is_eol (c : Z) : bool := (c =? 13) || (c =? 10).

(** [do { c = zrecv_getc(deadline); } while (c == '\r' || c == '\n');] *)
Fixpoint zrecv_skip_eol (input : list Z) : Z * list Z :=
  match input with
  | [] => (-1, [])
  | c :: input' => if is_eol c then zrecv_skip_eol input' else (c, input')
  end.

(** The byte loop, with [c] already read and [length] bytes to go: the status, the bytes stored
    so far and the rest of the input. *)
Fixpoint zrecv_bytes (length : nat) (c : Z) (input : list Z) : Z * list Z * list Z :=
  match length with
  | O => (if is_eol c then 0 else -1, [], input)
  | S length' =>
      let hi := zrecv_hex c in
      let '(c1, input1) := zrecv_getc input in
      let lo := zrecv_hex c1 in
      if (hi <? 0) || (lo <? 0) then (-1, [], input1)
      else
        let b := u8 (Z.lor (Z.shiftl hi 4) lo) in
        let '(c2, input2) := zrecv_getc input1 in
        if c2 <? 0 then (-2, [b], input2)
        else if (0 <? length')%nat && (zrecv_hex c2 <? 0) then (-1, [b], input2)
        else
          let '(r, l, rest) := zrecv_bytes length' c2 input2 in (r, b :: l, rest)
  end.

Definition zrecv_chunk (length : nat) (input : list Z) : Z * list Z * list Z :=
  let '(c, input1) := zrecv_skip_eol input in
  if c <? 0 then (-2, [], input1) else zrecv_bytes length c input1.

(** ** Arguments *)

Definition SPACE : Z := 32.
Definition TAB : Z := 9.
Definition is_blank (c : Z) : bool := (c =? SPACE) || (c =? TAB).
Definition is_digit (c : Z) : bool := (48 <=? c) && (c <=? 57).

Fixpoint skip_while (f : Z -> bool) (p : list Z) : list Z :=
  match p with
  | c :: p' => if f c then skip_while f p' else p
  | [] => []
  end.

(** The name loop: [None] when a 96th character comes. *)
Fixpoint zrecv_name (p : list Z) (n : Z) : option (cstring * list Z) :=
  match p with
  | [] => Some ([], [])
  | c :: p' =>
      if is_blank c then Some ([], p)
      else if n =? ZSS_MAX_NAME then None
      else match zrecv_name p' (n + 1) with
           | None => None
           | Some (w, r) => Some (c :: w, r)
           end
  end.

Fixpoint zrecv_size (p : list Z) (size : Z) : option (Z * list Z) :=
  match p with
  | c :: p' =>
      if is_digit c then
        let digit := c - 48 in
        if (ZSS_MAX_FILE - digit) / 10 <? size then None
        else zrecv_size p' (u32 (u32 (size * 10) + digit))
      else Some (size, p)
  | [] => Some (size, [])
  end.

Fixpoint zrecv_checksum (n : nat) (p : list Z) (checksum : Z) : option (Z * list Z) :=
  match n, p with
  | O, _ => Some (checksum, p)
  | S _, [] => None
  | S n', c :: p' =>
      let digit := zrecv_hex c in
      if digit <? 0 then None
      else zrecv_checksum n' p' (Z.lor (u32 (Z.shiftl checksum 4)) digit)
  end.

(** [Some (name, length, crc)] when the command line is accepted. *)
Definition zrecv_args (p : cstring) : option (cstring * Z * Z) :=
  match zrecv_name (skip_while (fun c => c =? SPACE) p) 0 with
  | None => None
  | Some (name, p) =>
      match zss_name_ok name with
      | None => None
      | Some _ =>
          let p := skip_while is_blank p in
          if negb (is_digit (byte_at p 0)) then None
          else match zrecv_size p 0 with
          | None => None
          | Some (size, p) =>
              if size =? 0 then None
              else match zrecv_checksum 8 (skip_while is_blank p) 0 with
              | None => None
              | Some (checksum, p) =>
                  match skip_while is_blank p with
                  | [] => Some (name, size, checksum)
                  | _ => None
                  end
              end
          end
      end
  end.

(** ** The command *)

(** What the command reports; [zr_acks] are the byte counts acknowledged. *)
Inductive zrecv_report :=
| Zr_usage | Zr_no_serial | Zr_begin_failed (status : Z)
| Zr_timeout | Zr_malformed | Zr_disk_write
| Zr_checksum | Zr_finish_failed | Zr_saved (name : cstring) (length : Z).

Section Command.
Context {D : Type} `{BlockDev D}.
Abbreviation Z_M := (SM (zst D)).

(** The chunk loop.  [fuel]: every iteration takes at least one byte. *)
Fixpoint zrecv_loop (fuel : nat) (stream : zss_stream) (length : Z) (input acks : list Z)
    : Z_M (zrecv_report * list Z + zss_stream * list Z) :=
  match fuel with
  | O => diverge
  | S fuel' =>
      if negb (st_written stream <? length) then ret (inr (stream, acks))
      else
        let n := u32 (length - st_written stream) in
        let n := if ZRECV_CHUNK <? n then ZRECV_CHUNK else n in
        let '(r, bytes, input) := zrecv_chunk (Z.to_nat n) input in
        if negb (r =? 0) then ret (inl (if r =? -2 then Zr_timeout else Zr_malformed, acks))
        else
          let! w := zss_stream_write stream bytes in
          let '(bad, stream) := w in
          if negb (bad =? 0) then ret (inl (Zr_disk_write, acks))
          else zrecv_loop fuel' stream length input (acks ++ [st_written stream])
  end.

Definition zrecv_serial (g_uart : bool) (args : cstring) (input : list Z)
    : Z_M (zrecv_report * list Z) :=
  match zrecv_args args with
  | None => ret (Zr_usage, [])
  | Some (name, length, checksum) =>
      if negb g_uart then ret (Zr_no_serial, [])
      else
        let! b := zss_stream_begin name length checksum in
        match b with
        | (status, None) => ret (Zr_begin_failed status, [])
        | (_, Some stream) =>
            let! l := zrecv_loop (S (Z.to_nat length)) stream length input [] in
            match l with
            | inl out => ret out
            | inr (stream, acks) =>
                let! status := zss_stream_finish stream in
                ret (if negb (status =? 0)
                     then if status =? -4 then Zr_checksum else Zr_finish_failed
                     else Zr_saved name length, acks)
            end
        end
  end.
End Command.

(** ** What the line protocol delivers *)

(** The payload of the remaining chunks, or the report the command gives up with. *)
Fixpoint zrecv_payload (fuel : nat) (remaining : Z) (input : list Z) : zrecv_report + list Z :=
  match fuel with
  | O => inr []
  | S fuel' =>
      if negb (0 <? remaining) then inr []
      else
        let n := if ZRECV_CHUNK <? remaining then ZRECV_CHUNK else remaining in
        let '(r, bytes, input) := zrecv_chunk (Z.to_nat n) input in
        if negb (r =? 0) then inl (if r =? -2 then Zr_timeout else Zr_malformed)
        else match zrecv_payload fuel' (remaining - n) input with
             | inl e => inl e
             | inr l => inr (bytes ++ l)
             end
  end.

Lemma zrecv_bytes_ok k : forall c input r l rest,
  zrecv_bytes k c input = (r, l, rest) -> bytes_ok l /\ (r = 0 -> length l = k).
Proof.
  induction k as [|k IH]; intros c input r l rest; cbn [zrecv_bytes].
  { intros [= <- <- <-]. split; [constructor | reflexivity]. }
  destruct (zrecv_getc input) as [c1 i1]. destruct (_ || _).
  { intros [= <- <- <-]. split; [constructor | discriminate]. }
  destruct (zrecv_getc i1) as [c2 i2]. destruct (c2 <? 0).
  { intros [= <- <- <-]. split; [constructor; [apply u8_range | constructor] | discriminate]. }
  destruct (_ && _).
  { intros [= <- <- <-]. split; [constructor; [apply u8_range | constructor] | discriminate]. }
  destruct (zrecv_bytes k c2 i2) as [[r' l'] rest'] eqn:E. intros [= <- <- <-].
  destruct (IH _ _ _ _ _ E) as [H1 H2].
  split; [constructor; [apply u8_range | exact H1] | intros Hr; cbn; f_equal; auto].
Qed.

Lemma zrecv_chunk_ok k input r l rest :
  zrecv_chunk k input = (r, l, rest) -> bytes_ok l /\ (r = 0 -> length l = k).
Proof.
  unfold zrecv_chunk. destruct (zrecv_skip_eol input) as [c i1]. destruct (c <? 0).
  - intros [= <- <- <-]. split; [constructor | discriminate].
  - apply zrecv_bytes_ok.
Qed.

Lemma zrecv_payload_report fuel : forall remaining input name len,
  zrecv_payload fuel remaining input = inl (Zr_saved name len) -> False.
Proof.
  induction fuel as [|fuel IH]; intros remaining input name len; cbn [zrecv_payload]; [discriminate|].
  destruct (negb (0 <? remaining)); [discriminate|].
  destruct (zrecv_chunk _ input) as [[r bytes] input']. destruct (negb (r =? 0)); [destruct (r =? -2); discriminate|].
  destruct (zrecv_payload fuel _ input') eqn:E; [|discriminate]. intros [= ->]. eapply IH. exact E.
Qed.

Section CommandSpec.
Context {D : Type} `{Hdev : BlockDev D} `{Hview : BlockDevView D} `{Hlaw : !BlockDevLaws D}.
Implicit Types (d : D) (s : zst D).

Section Loop.
Context (d0 : D) (base n gen tail : Z) (rs : list record).
Context (name : cstring) (name_len len crc : Z).
Hypothesis Hwf : dev_wf d0.
Hypothesis Hbank : bank_on d0 base n.
Hypothesis Hstore : store_at (view d0) (full_capacity d0) base n gen rs tail.
Hypothesis Hlen : 0 < len <= ZSS_MAX_FILE.
Hypothesis Hroom : tail + (1 + blocks_of len) <= n.

Let streaming := (streaming d0 base n tail name name_len len crc).

Lemma zrecv_loop_spec fuel : forall data st input acks s,
  streaming data st s -> (Z.to_nat (len - Z.of_nat (length data)) < fuel)%nat ->
  exists out s', zrecv_loop fuel st len input acks s = Some (out, s') /\
    (match zrecv_payload fuel (len - Z.of_nat (length data)) input with
    | inl e => exists acks', out = inl (e, acks') /\ evolves (beyond base tail n) d0 (z_dev s')
    | inr l => exists st' acks', out = inr (st', acks') /\ streaming (data ++ l) st' s' /\
                 Z.of_nat (length (data ++ l)) = len
    end \/
    exists acks', out = inl (Zr_disk_write, acks') /\ stream_dead d0 base n tail s').
Proof using Hlaw Hwf Hbank Hstore Hlen Hroom.
  induction fuel as [|fuel IH]; intros data st input acks s S Hf; [lia|].
  pose proof (sm_fits _ _ _ _ _ _ _ _ _ _ _ S) as Hfit. pose proof (sm_written _ _ _ _ _ _ _ _ _ _ _ S) as Hw.
  cbn [zrecv_loop zrecv_payload]. rewrite Hw. unfold ZSS_MAX_FILE in Hlen.
  destruct (Z.ltb_spec (Z.of_nat (length data)) len) as [Hlt|Hge]; cbn [negb].
  2: { exists (inr (st, acks)), s. split; [reflexivity|]. left.
       destruct (Z.ltb_spec 0 (len - Z.of_nat (length data))); [lia|]. cbn [negb].
       exists st, acks. rewrite app_nil_r. split; [reflexivity|]. split; [exact S | lia]. }
  destruct (Z.ltb_spec 0 (len - Z.of_nat (length data))); [|lia]. cbn [negb].
  rewrite u32_id by lia. set (remaining := len - Z.of_nat (length data)) in *.
  set (k := if ZRECV_CHUNK <? remaining then ZRECV_CHUNK else remaining).
  assert (Hk : 0 < k <= remaining) by (unfold k, ZRECV_CHUNK; case_if; lia).
  destruct (zrecv_chunk (Z.to_nat k) input) as [[r bytes] input'] eqn:Ec.
  destruct (zrecv_chunk_ok _ _ _ _ _ Ec) as [Hby Hl].
  destruct (Z.eqb_spec r 0) as [->|Hne]; cbn [negb].
  2: { eexists _, s. split; [reflexivity|]. left. eexists. split; [reflexivity|].
       exact (sm_evolves _ _ _ _ _ _ _ _ _ _ _ S). }
  specialize (Hl eq_refl).
  destruct (stream_write_spec d0 base n gen tail rs name name_len len crc Hwf Hbank Hstore Hlen Hroom
    bytes data st s S Hby ltac:(lia)) as (code & st' & s' & E & Hres).
  rewrite (bind_some _ _ _ _ _ E). destruct Hres as [[-> S']|[-> Hd]].
  2: { eexists _, s'. split; [reflexivity|]. right. eexists. split; [reflexivity | exact Hd]. }
  cbn [negb Z.eqb].
  destruct (IH (data ++ bytes) st' input' (acks ++ [st_written st']) s' S') as (out & s2 & E2 & H2).
  { rewrite length_app. lia. }
  exists out, s2. split; [exact E2|]. destruct H2 as [H2|H2]; [left | right; exact H2].
  replace (len - Z.of_nat (length (data ++ bytes))) with (remaining - k) in H2 by (rewrite length_app; lia).
  destruct (zrecv_payload fuel (remaining - k) input') as [e|l]; [exact H2|].
  rewrite app_assoc. exact H2.
Qed.
End Loop.

(** Opening a stream. *)
Lemma stream_begin_spec name name_len len crc s base n gen rs tail :
  dev_wf (z_dev s) -> online (z_dev s) ->
  store_at (view (z_dev s)) (full_capacity (z_dev s)) base n gen rs tail ->
  zss_name_ok name = Some name_len -> 0 < len <= ZSS_MAX_FILE ->
  exists out s', zss_stream_begin name len crc s = Some (out, s') /\ evolves nowhere (z_dev s) (z_dev s') /\
    match out with
    | (0, Some st) => tail + (1 + blocks_of len) <= n /\
        streaming (z_dev s) base n tail name name_len len crc [] st s'
    | (code, None) => code <> 0 /\ (alive (z_dev s') = true -> code = -3 /\ n < tail + (1 + blocks_of len))
    | _ => False
    end.
Proof using Hlaw.
  intros W O Hs Hname Hlen. unfold zss_stream_begin.
  destruct (store_geometry _ _ _ _ _ _ _ (image_ok_view _ W) Hs) as (Hn & Ht & _). unfold ZEAL_SRC_SECTS in Hn.
  destruct (_ || _) eqn:Hg; [unfold ZSS_MAX_FILE in *; lia|]. rewrite Hname.
  destruct (find_none_spec s base n gen rs tail W O Hs) as (r & s1 & E1 & Ev1 & H1).
  rewrite (bind_some _ _ _ _ _ E1). destruct (Z.ltb_spec (fr_code r) 0) as [Hneg|Hpos].
  { eexists _, s1. split; [reflexivity|]. split; [exact Ev1|].
    destruct H1 as [(_ & _ & Hc & _)|(_ & _ & La)]; [lia|].
    destruct (fr_code r); try lia; (split; [lia | congruence]). }
  destruct H1 as [(Es1 & B1 & Hc & Etail)|(Hc & _)]; [|lia]. rewrite Etail, bind_gets.
  assert (En1 : g_zss_sectors s1 = n) by (rewrite Es1; reflexivity). rewrite En1.
  pose proof (blocks_of_range _ Hlen) as Hbl. unfold ZSS_MAX_FILE in Hlen.
  rewrite (u32_id (len + 511)) by lia. fold (blocks_of len).
  rewrite (u32_id (tail + 1)), (u32_id (tail + 1 + _)), <- Z.add_assoc by lia.
  destruct (Z.ltb_spec n (tail + (1 + blocks_of len))) as [Hfull|Hroom].
  { eexists _, s1. split; [reflexivity|]. split; [exact Ev1|]. split; [discriminate | auto]. }
  eexists _, s1. split; [reflexivity|]. split; [exact Ev1|]. split; [exact Hroom|].
  split; cbn [st_tail st_length st_written st_expected_crc st_crc st_name_len st_name st_sector]; auto; try reflexivity.
  - cbn. lia.
  - constructor.
  - apply evolves_nowhere. exact Ev1.
  - rewrite Es1. reflexivity.
Qed.
(** The outcome of an upload of [len] bytes with checksum [crc] under [name], begun on [d0]. *)
Record upload_post (m : gmap cstring (list Z)) (name : cstring) (len crc : Z) (input : list Z)
    (d0 : D) (rep : zrecv_report) (d' : D) : Prop := {
  ul_wf : dev_wf d';
  ul_attrs : attrs d' = attrs d0;
  ul_crash : forall v, crash d' v -> represents v (full_capacity d0) m \/
    exists data, zrecv_payload (S (Z.to_nat len)) len input = inr data /\
      Z.of_nat (length data) = len /\ crc32 data = crc /\
      represents v (full_capacity d0) (<[name := data]> m);
  ul_saved : rep = Zr_saved name len -> synced d' /\
    exists data, zrecv_payload (S (Z.to_nat len)) len input = inr data /\
      Z.of_nat (length data) = len /\ crc32 data = crc /\
      represents (view d') (full_capacity d0) (<[name := data]> m);
  ul_live : alive d' = true ->
    match zrecv_payload (S (Z.to_nat len)) len input with
    | inl e => rep = e /\ represents (view d') (full_capacity d0) m
    | inr data => if crc32 data =? crc then rep = Zr_saved name len
                  else rep = Zr_checksum /\ represents (view d') (full_capacity d0) m
    end \/ (rep = Zr_begin_failed (-3) /\ represents (view d') (full_capacity d0) m) }.

Lemma evolves_represents d0 base n gen rs tail d' :
  dev_wf d0 -> synced d0 -> bank_on d0 base n ->
  store_at (view d0) (full_capacity d0) base n gen rs tail -> evolves (beyond base tail n) d0 d' ->
  (forall v, crash d' v -> represents v (full_capacity d0) (store_map (bank (view d0) base) rs)) /\
  represents (view d') (full_capacity d0) (store_map (bank (view d0) base) rs).
Proof using Hlaw.
  intros W Sy B Hs Ev.
  assert (R : forall v, (forall i, ~ beyond base tail n i -> v i = view d0 i) ->
    represents v (full_capacity d0) (store_map (bank (view d0) base) rs)).
  { intros v Hv. destruct (represents_beyond d0 (view d0) v (full_capacity d0) base n gen rs tail) as [Hst <-]; auto.
    - apply image_ok_view. exact W.
    - eapply represents_intro; [exact Hst | reflexivity]. }
  split; [|apply R; exact (ev_view _ _ _ Ev)].
  intros v Hv. apply R. destruct (ev_crash _ _ _ Ev v Hv) as (v0 & Hv0 & G).
  intros i Hi. rewrite G by exact Hi. apply (Sy v0 Hv0).
Qed.

Lemma zrecv_serial_spec args input name name_len len crc s m :
  dev_wf (z_dev s) -> online (z_dev s) -> synced (z_dev s) ->
  represents (view (z_dev s)) (full_capacity (z_dev s)) m ->
  zrecv_args args = Some (name, len, crc) -> zss_name_ok name = Some name_len -> 0 < len <= ZSS_MAX_FILE ->
  exists rep acks s', zrecv_serial true args input s = Some ((rep, acks), s') /\
    upload_post m name len crc input (z_dev s) rep (z_dev s').
Proof using Hlaw.
  intros W O Sy (base & n & gen & rs & tail & Hs & ->) Hargs Hname Hlen.
  destruct (store_geometry _ _ _ _ _ _ _ (image_ok_view _ W) Hs) as (Hn & Ht & Hbase & Hcap).
  assert (B : bank_on (z_dev s) base n) by (unfold bank_on; auto).
  set (m := store_map (bank (view (z_dev s)) base) rs).
  assert (Hquiet : forall rep d', evolves (beyond base tail n) (z_dev s) d' -> rep <> Zr_saved name len ->
    (alive d' = true -> represents (view d') (full_capacity (z_dev s)) m ->
      match zrecv_payload (S (Z.to_nat len)) len input with
      | inl e => rep = e /\ represents (view d') (full_capacity (z_dev s)) m
      | inr data => if crc32 data =? crc then rep = Zr_saved name len
                    else rep = Zr_checksum /\ represents (view d') (full_capacity (z_dev s)) m
      end \/ (rep = Zr_begin_failed (-3) /\ represents (view d') (full_capacity (z_dev s)) m)) ->
    upload_post m name len crc input (z_dev s) rep d').
  { intros rep d' Ev Hrep Hl.
    destruct (evolves_represents (z_dev s) base n gen rs tail d' W Sy B Hs Ev) as [Hc Hr].
    split; try apply Ev; auto; contradiction. }
  unfold zrecv_serial. rewrite Hargs. cbn [negb].
  destruct (stream_begin_spec name name_len len crc s base n gen rs tail W O Hs Hname Hlen)
    as ([code [st|]] & s1 & E1 & Ev1 & H1); rewrite (bind_some _ _ _ _ _ E1).
  2: { assert (H1' : code <> 0 /\ (alive (z_dev s1) = true -> code = -3 /\ n < tail + (1 + blocks_of len)))
         by (destruct code; exact H1).
       eexists _, _, s1. split; [reflexivity|].
       apply Hquiet; [apply evolves_nowhere; exact Ev1 | discriminate |].
       intros La Hr. right. destruct H1' as [_ H1']. destruct (H1' La) as [-> _]. auto. }
  assert (H1' : tail + (1 + blocks_of len) <= n /\
                streaming (z_dev s) base n tail name name_len len crc [] st s1) by (destruct code; (exact H1 || contradiction)).
  destruct H1' as [Hroom S1].
  destruct (zrecv_loop_spec (z_dev s) base n gen tail rs name name_len len crc W B Hs Hlen Hroom
    (Datatypes.S (Z.to_nat len)) [] st input [] s1 S1 ltac:(cbn; lia)) as (out & s2 & E2 & H2).
  rewrite (bind_some _ _ _ _ _ E2). cbn [length Z.of_nat] in H2. rewrite Z.sub_0_r in H2.
  destruct H2 as [H2|(acks & -> & Hev & La)].
  2: { eexists _, _, s2. split; [reflexivity|]. apply Hquiet; [exact Hev | discriminate | congruence]. }
  destruct (zrecv_payload (Datatypes.S (Z.to_nat len)) len input) as [e|data] eqn:Ep.
  { destruct H2 as (acks & -> & Hev). eexists _, _, s2. split; [reflexivity|].
    apply Hquiet; [exact Hev | | intros _ Hr; left; auto].
    intros ->. eapply zrecv_payload_report. exact Ep. }
  destruct H2 as (st2 & acks & -> & S2 & Hall). cbn [app] in *.
  destruct (stream_finish_spec (z_dev s) base n gen tail rs name name_len len crc W Sy B Hs Hname Hlen Hroom
    data st2 s2 S2) as (code2 & s3 & E3 & H3).
  rewrite (bind_some _ _ _ _ _ E3). rewrite Hall, Z.eqb_refl in H3. cbn [andb] in H3.
  eexists _, _, s3. split; [reflexivity|]. destruct (Z.eqb_spec (crc32 data) crc) as [Hcrc|Hcrc].
  - destruct H3 as [U1 U2 U3 U4 U5]. split; auto.
    + intros v Hv. destruct (U3 v Hv) as [Hr|Hr]; [left; exact Hr | right; exists data; auto].
    + destruct (Z.eqb_spec code2 0) as [->|Hne]; cbn [negb]; [|destruct (code2 =? -4); discriminate].
      intros _. destruct (U4 eq_refl) as [Hr Hsy]. split; [exact Hsy | exists data; auto].
    + intros La. left. rewrite Ep, Hcrc, Z.eqb_refl. destruct (U5 La) as [->|(-> & _)]; reflexivity.
  - destruct H3 as [-> ->]. cbn [negb Z.eqb]. apply Hquiet; [exact (sm_evolves _ _ _ _ _ _ _ _ _ _ _ S2) | discriminate|].
    intros _ Hr. left. auto.
Qed.
End CommandSpec.

(** ** The accepted command lines *)

Lemma zrecv_size_range p : forall size r rest,
  0 <= size <= ZSS_MAX_FILE -> zrecv_size p size = Some (r, rest) -> 0 <= r <= ZSS_MAX_FILE.
Proof.
  induction p as [|c p IH]; intros size r rest Hs; cbn [zrecv_size]; [intros [= <- <-]; exact Hs|].
  destruct (is_digit c) eqn:Hd; [|intros [= <- <-]; exact Hs].
  unfold is_digit in Hd. destruct (Z.ltb_spec ((ZSS_MAX_FILE - (c - 48)) / 10) size) as [|Hle]; [discriminate|].
  apply IH. unfold ZSS_MAX_FILE in *.
  assert (size * 10 + (c - 48) <= 4 * 1024 * 1024) by (Z.div_mod_to_equations; lia).
  rewrite (u32_id (size * 10)), u32_id by lia. lia.
Qed.

Lemma zrecv_args_ok p name len crc : zrecv_args p = Some (name, len, crc) ->
  is_Some (zss_name_ok name) /\ 0 < len <= ZSS_MAX_FILE.
Proof.
  unfold zrecv_args. destruct (zrecv_name _ 0) as [[nm p1]|]; [|discriminate].
  destruct (zss_name_ok nm) eqn:En; [|discriminate].
  destruct (negb _); [discriminate|]. destruct (zrecv_size _ 0) as [[size p2]|] eqn:Es; [|discriminate].
  destruct (Z.eqb_spec size 0) as [|Hne]; [discriminate|].
  destruct (zrecv_checksum 8 _ 0) as [[ck p3]|]; [|discriminate].
  destruct (skip_while is_blank p3); [|discriminate]. intros [= <- <- <-]. split; [eauto|].
  apply zrecv_size_range in Es; [lia | unfold ZSS_MAX_FILE; lia].
Qed.

(** ** The host's side ([scripts/send-zc.py]) *)

Definition hex_digit (d : Z) : Z := if d <? 10 then 48 + d else 87 + d.
Definition hex_byte (b : Z) : list Z := [hex_digit (b / 16); hex_digit (b mod 16)].

(** One chunk: [chunk.hex()] and a carriage return. *)
Definition send_line (bytes : list Z) : list Z := flat_map hex_byte bytes ++ [13].

Fixpoint send_chunks (fuel : nat) (data : list Z) : list Z :=
  match fuel, data with
  | O, _ | _, [] => []
  | S fuel', _ => send_line (take 128 data) ++ send_chunks fuel' (drop 128 data)
  end.

Fixpoint decimal (fuel : nat) (x : Z) : list Z :=
  match fuel with
  | O => []
  | S fuel' => (if x <? 10 then [] else decimal fuel' (x / 10)) ++ [48 + x mod 10]
  end.

Fixpoint hex_number (k : nat) (x : Z) : list Z :=
  match k with
  | O => []
  | S k' => hex_digit (x / 16 ^ Z.of_nat k') :: hex_number k' (x mod 16 ^ Z.of_nat k')
  end.

(** [f'zrecv {name} {len(data)} {zlib.crc32(data):08x}'], without the command word. *)
Definition send_command (name : cstring) (len crc : Z) : cstring :=
  name ++ [SPACE] ++ decimal 8 len ++ [SPACE] ++ hex_number 8 crc.

Lemma zrecv_hex_digit d : 0 <= d < 16 -> zrecv_hex (hex_digit d) = d.
Proof.
  intros H. unfold hex_digit, zrecv_hex. destruct (Z.ltb_spec d 10); repeat case_if; lia.
Qed.

Lemma hex_digit_not_eol d : 0 <= d < 16 -> is_eol (hex_digit d) = false /\ 0 <= hex_digit d.
Proof. intros H. unfold hex_digit, is_eol. destruct (Z.ltb_spec d 10); lia. Qed.

Lemma hex_byte_value b : is_u 8 b -> u8 (Z.lor (Z.shiftl (b / 16) 4) (b mod 16)) = b.
Proof.
  unfold is_u. intros Hb. rewrite Z.lor_comm, lor_shiftl_add by (Z.div_mod_to_equations; lia).
  change (2 ^ 4) with 16. rewrite u8_id by (Z.div_mod_to_equations; lia). Z.div_mod_to_equations. lia.
Qed.

(** A line sent by the host is received as the bytes it encodes. *)
Lemma zrecv_bytes_line bytes : forall rest,
  bytes_ok bytes -> exists c input, send_line bytes ++ rest = c :: input /\ 0 <= c /\
    (bytes <> [] -> is_eol c = false /\ 0 <= zrecv_hex c) /\
    zrecv_bytes (length bytes) c input = (0, bytes, rest).
Proof.
  induction bytes as [|b bytes IH]; intros rest Hby.
  { exists 13, rest. split; [reflexivity|]. split; [lia|]. split; [congruence | reflexivity]. }
  apply Forall_cons_1 in Hby as [Hb Hby]. destruct (IH rest Hby) as (c & input & E & Hc & Hne & Hr).
  assert (H1 : 0 <= b / 16 < 16) by (unfold is_u in Hb; Z.div_mod_to_equations; lia).
  assert (H2 : 0 <= b mod 16 < 16) by (Z.div_mod_to_equations; lia).
  exists (hex_digit (b / 16)), (hex_digit (b mod 16) :: c :: input).
  split; [rewrite <- E; reflexivity|]. destruct (hex_digit_not_eol _ H1) as [Hn1 Hp1].
  split; [exact Hp1|]. split; [intros _; rewrite zrecv_hex_digit by exact H1; split; [exact Hn1 | lia]|].
  cbn [length zrecv_bytes zrecv_getc]. rewrite !zrecv_hex_digit by assumption.
  destruct (_ || _) eqn:Hneg; [lia|]. destruct (Z.ltb_spec c 0); [lia|].
  rewrite Hr, hex_byte_value by exact Hb.
  destruct bytes as [|b' bytes]; [reflexivity|]. destruct Hne as [_ Hx]; [discriminate|].
  destruct (Z.ltb_spec (zrecv_hex c) 0); [lia | reflexivity].
Qed.

Lemma zrecv_chunk_line bytes rest : bytes_ok bytes -> bytes <> [] ->
  zrecv_chunk (length bytes) (send_line bytes ++ rest) = (0, bytes, rest).
Proof.
  intros Hby Hne. destruct (zrecv_bytes_line bytes rest Hby) as (c & input & E & Hc & Heol & Hr).
  destruct (Heol Hne) as [He _]. unfold zrecv_chunk. rewrite E. cbn [zrecv_skip_eol]. rewrite He.
  destruct (Z.ltb_spec c 0); [lia | exact Hr].
Qed.

(** The whole transfer. *)
Lemma zrecv_payload_send fuel : forall data rest,
  bytes_ok data -> (length data < fuel)%nat ->
  zrecv_payload fuel (Z.of_nat (length data)) (send_chunks fuel data ++ rest) = inr data.
Proof.
  induction fuel as [|fuel IH]; intros data rest Hby Hf; [lia|]. cbn [zrecv_payload].
  destruct data as [|b data']; [reflexivity|]. set (data := b :: data') in *.
  assert (Hlen : (0 < length data)%nat) by (cbn; lia).
  destruct (Z.ltb_spec 0 (Z.of_nat (length data))); [|lia]. cbn [negb].
  assert (Ek : Z.to_nat (if ZRECV_CHUNK <? Z.of_nat (length data) then ZRECV_CHUNK else Z.of_nat (length data)) =
               length (take 128 data)).
  { rewrite length_take. unfold ZRECV_CHUNK. case_if; lia. }
  rewrite Ek. change (send_chunks (S fuel) data) with (send_line (take 128 data) ++ send_chunks fuel (drop 128 data)).
  rewrite <- app_assoc, zrecv_chunk_line; [|apply bytes_ok_take; exact Hby | discriminate].
  cbn [negb Z.eqb].
  replace (Z.of_nat (length data) - _) with (Z.of_nat (length (drop 128 data)))
    by (rewrite length_drop; unfold ZRECV_CHUNK; case_if; lia).
  rewrite IH; [rewrite take_drop; reflexivity | apply bytes_ok_drop; exact Hby | rewrite length_drop; lia].
Qed.

(** *** The command line *)

Lemma decimal_parse f : forall x rest, 0 <= x < 10 ^ Z.of_nat f -> x <= ZSS_MAX_FILE -> (0 < f)%nat ->
  zrecv_size (decimal f x ++ rest) 0 = zrecv_size rest x.
Proof.
  induction f as [|f IH]; intros x rest Hx Hm Hf; [lia|]. cbn [decimal].
  assert (Hd : 0 <= x mod 10 < 10) by (apply Z.mod_pos_bound; lia).
  pose proof (Z.div_mod x 10 ltac:(lia)) as Hdm.
  assert (Hstep : forall l, zrecv_size ((48 + x mod 10) :: l) (x / 10) = zrecv_size l x).
  { intros l. cbn [zrecv_size]. unfold is_digit. rewrite andb_true_intro by lia.
    replace (48 + x mod 10 - 48) with (x mod 10) by lia.
    destruct (Z.ltb_spec ((ZSS_MAX_FILE - x mod 10) / 10) (x / 10)) as [Hlt|_].
    - exfalso. unfold ZSS_MAX_FILE in *. assert (x / 10 <= (4 * 1024 * 1024 - x mod 10) / 10); [|lia].
      apply Z.div_le_lower_bound; lia.
    - unfold ZSS_MAX_FILE in Hm. rewrite (u32_id (x / 10 * 10)), u32_id by lia. f_equal. lia. }
  destruct (Z.ltb_spec x 10).
  - cbn [app]. rewrite <- (Hstep rest). rewrite (Z.div_small x) by lia. reflexivity.
  - rewrite <- app_assoc. rewrite IH; [apply Hstep | | lia |].
    + split; [lia|]. apply Z.div_lt_upper_bound; [lia|]. rewrite Nat2Z.inj_succ, Z.pow_succ_r in Hx by lia. lia.
    + destruct f; [|lia]. cbn in Hx. lia.
Qed.

Lemma decimal_first f x : (0 < f)%nat -> 0 <= x -> forall rest, is_digit (byte_at (decimal f x ++ rest) 0) = true.
Proof.
  revert x. induction f as [|f IH]; intros x Hf Hx rest; [lia|]. cbn [decimal].
  assert (Hd : 0 <= x mod 10 < 10) by (apply Z.mod_pos_bound; lia).
  assert (Hone : forall l, is_digit (byte_at ((48 + x mod 10) :: l) 0) = true).
  { intros l. change (byte_at (_ :: l) 0) with (48 + x mod 10). unfold is_digit. lia. }
  destruct (Z.ltb_spec x 10); [apply Hone|]. rewrite <- app_assoc.
  destruct f; [apply Hone|]. apply IH; [lia | apply Z.div_pos; lia].
Qed.

Lemma hex_parse k : forall x acc rest,
  0 <= x < 16 ^ Z.of_nat k -> 0 <= acc -> acc * 16 ^ Z.of_nat k + x < 2 ^ 32 ->
  zrecv_checksum k (hex_number k x ++ rest) acc = Some (acc * 16 ^ Z.of_nat k + x, rest).
Proof.
  induction k as [|k IH]; intros x acc rest Hx Ha Hb; cbn [hex_number zrecv_checksum app].
  { rewrite Z.pow_0_r in *. do 2 f_equal. lia. }
  rewrite Nat2Z.inj_succ, Z.pow_succ_r in * by lia. set (p := 16 ^ Z.of_nat k) in *.
  assert (Hp : 0 < p) by (apply Z.pow_pos_nonneg; lia).
  assert (Hq : 0 <= x / p < 16) by (split; [apply Z.div_pos; lia | apply Z.div_lt_upper_bound; lia]).
  rewrite zrecv_hex_digit by exact Hq. destruct (Z.ltb_spec (x / p) 0); [lia|].
  pose proof (Z.div_mod x p ltac:(lia)) as Hdm. pose proof (Z.mod_pos_bound x p Hp) as Hm.
  assert (Hacc : acc * 16 < 2 ^ 32) by nia.
  rewrite Z.shiftl_mul_pow2 by lia. change (2 ^ 4) with 16. rewrite u32_id by lia.
  assert (El : Z.lor (acc * 16) (x / p) = acc * 16 + x / p).
  { rewrite Z.lor_comm. change 16 with (2 ^ 4). rewrite <- Z.shiftl_mul_pow2, lor_shiftl_add by lia.
    rewrite Z.shiftl_mul_pow2 by lia. lia. }
  rewrite El, IH; [do 2 f_equal; nia | lia | lia | nia].
Qed.

Lemma skip_while_none f (p : list Z) : match p with c :: _ => f c = false | [] => True end -> skip_while f p = p.
Proof. destruct p as [|c p]; [reflexivity|]. cbn. intros ->. reflexivity. Qed.

Lemma zrecv_name_parse name : forall k rest,
  Forall (fun c => is_blank c = false) name -> 0 <= k -> k + Z.of_nat (length name) <= ZSS_MAX_NAME ->
  zrecv_name (name ++ SPACE :: rest) k = Some (name, SPACE :: rest).
Proof.
  induction name as [|c name IH]; intros k rest Hf Hk Hlen; [reflexivity|].
  apply Forall_cons_1 in Hf as [Hc Hf]. cbn [app zrecv_name length] in *. rewrite Hc.
  destruct (Z.eqb_spec k ZSS_MAX_NAME); [lia|]. rewrite IH; [reflexivity | exact Hf | lia | lia].
Qed.

Lemma is_digit_not_blank c : is_digit c = true -> is_blank c = false.
Proof. unfold is_digit, is_blank, SPACE, TAB. lia. Qed.

Lemma hex_number_first k x rest : 0 <= x < 16 ^ Z.of_nat (S k) ->
  match hex_number (S k) x ++ rest with c :: _ => is_blank c = false | [] => False end.
Proof.
  intros Hx. cbn [hex_number app]. rewrite Nat2Z.inj_succ, Z.pow_succ_r in Hx by lia.
  assert (Hp : 0 < 16 ^ Z.of_nat k) by (apply Z.pow_pos_nonneg; lia).
  assert (Hq : 0 <= x / 16 ^ Z.of_nat k < 16) by (split; [apply Z.div_pos; lia | apply Z.div_lt_upper_bound; lia]).
  unfold hex_digit, is_blank, SPACE, TAB. case_if; lia.
Qed.

(** The guest parses the command line the host sends. *)
Lemma send_command_parse name k len crc :
  zss_name_ok name = Some k -> 0 < len <= ZSS_MAX_FILE -> is_u 32 crc ->
  zrecv_args (send_command name len crc) = Some (name, len, crc).
Proof.
  intros Hn Hl Hc. pose proof (zss_name_ok_spec _ _ Hn) as (Hk & Hr & Hf).
  assert (Hblank : Forall (fun c => is_blank c = false) name).
  { eapply Forall_impl; [|exact Hf]. unfold is_blank, SPACE, TAB. intros c H. cbn in H. lia. }
  unfold zrecv_args, send_command. cbn [app].
  rewrite (skip_while_none _ (name ++ _)).
  2: { destruct name as [|c name']; [discriminate Hn|]. apply Forall_cons_1 in Hblank as [Hb _].
       cbn [app]. unfold is_blank in Hb. lia. }
  rewrite zrecv_name_parse; [|exact Hblank | lia | lia]. rewrite Hn.
  assert (E1 : skip_while is_blank (SPACE :: decimal 8 len ++ SPACE :: hex_number 8 crc) =
               decimal 8 len ++ SPACE :: hex_number 8 crc).
  { change (skip_while is_blank (SPACE :: ?l)) with (skip_while is_blank l). apply skip_while_none.
    pose proof (decimal_first 8 len ltac:(lia) ltac:(lia) (SPACE :: hex_number 8 crc)) as Hd.
    destruct (decimal 8 len ++ _); [exact I|]. apply is_digit_not_blank. exact Hd. }
  rewrite E1, decimal_first by lia. cbn [negb].
  rewrite decimal_parse by (unfold ZSS_MAX_FILE in *; cbn; lia).
  change (zrecv_size (SPACE :: hex_number 8 crc) len) with (Some (len, SPACE :: hex_number 8 crc)).
  cbv beta iota. destruct (Z.eqb_spec len 0); [lia|].
  change (skip_while is_blank (SPACE :: hex_number 8 crc)) with (skip_while is_blank (hex_number 8 crc)).
  unfold is_u in Hc. rewrite skip_while_none.
  2: { pose proof (hex_number_first 7 crc [] ltac:(cbn; lia)) as H. rewrite app_nil_r in H. exact H. }
  rewrite <- (app_nil_r (hex_number 8 crc)), hex_parse by (cbn; lia).
  reflexivity.
Qed.
