(* ===== verification/SourceStoreThms.v ===== *)
(** * Properties of the source partition

    The map a disk stands for ([represents]) is what lookups see, and every update of it is
    atomic under a power loss, on every device that satisfies [BlockDevLaws]. *)

From stdpp Require Import gmap.
From S2P Require Import Prelude BlockDev SourceStore SourceStoreLog SourceStoreSpec SourceStoreCompact SourceStoreStream Zrecv.
#[local] Open Scope sm_scope.

(** ** The demonstration disk of the witnesses *)

Definition demo_superblock : sector :=
  zss_w32 (zss_w32 (write_at (zeros SECT) 0 ZCSRC001) 8 1) 12 ZEAL_SRC_SECTS.

(** A freshly formatted 128 MiB disk with an empty bank A, a write cache and power for
    [power - 1] requests. *)
Definition demo_disk (power : nat) : ram := {|
  ram_media := {[ ZEAL_SRC_LBA_BASE := demo_superblock ]};
  ram_cache := []; ram_power := power;
  ram_attrs := {| at_ready := true; at_pci := true; at_capacity := 262144; at_flush := true |} |}.

Definition demo_state (power : nat) : zst ram :=
  mk_zst (demo_disk power) ZEAL_SRC_LBA_BASE ZEAL_SRC_SECTS 0 [] false 0.

Definition demo_name : cstring := bytes_of_string "A.ZC"%string.
Definition demo_data : list Z := bytes_of_string "I64 F();"%string.

Lemma demo_superblock_ok : sector_ok demo_superblock.
Proof.
  split; [reflexivity|].
  apply bytes_ok_write_at; [apply bytes_ok_write_at; [apply bytes_ok_write_at|]|];
    try apply bytes_ok_zeros; repeat constructor; unfold is_u; try lia; apply u8_range.
Qed.

Lemma demo_wf power : dev_wf (demo_disk power).
Proof.
  split; [|split; [constructor | reflexivity]].
  intros a s. cbn [ram_media demo_disk]. destruct (decide (a = ZEAL_SRC_LBA_BASE)) as [->|Hne].
  - rewrite lookup_singleton_eq. intros [= <-]. exact demo_superblock_ok.
  - rewrite lookup_singleton_ne by congruence. discriminate.
Qed.

Lemma demo_synced power : synced (demo_disk power).
Proof.
  intros v (ws & Hsub & Hv). apply sublist_nil_r in Hsub. subst ws. exact Hv.
Qed.

Lemma demo_represents power : represents (view (demo_disk power)) (full_capacity (demo_disk power)) ∅.
Proof.
  exists ZEAL_SRC_LBA_BASE, ZEAL_SRC_SECTS, 0, [], 1. split; [|reflexivity].
  split; [vm_compute; reflexivity | | constructor].
  apply log_empty; [reflexivity | vm_compute; reflexivity].
Qed.

(** The same disk with one file in its log. *)
Definition demo_header : sector := file_header 8 (crc32 demo_data) 1 4 demo_name.

Definition file_disk (power : nat) : ram := {|
  ram_media := {[ ZEAL_SRC_LBA_BASE := demo_superblock; ZEAL_SRC_LBA_BASE + 1 := demo_header;
                  ZEAL_SRC_LBA_BASE + 2 := pad_sector demo_data ]};
  ram_cache := []; ram_power := power;
  ram_attrs := {| at_ready := true; at_pci := true; at_capacity := 262144; at_flush := true |} |}.

Definition file_state (power : nat) : zst ram :=
  mk_zst (file_disk power) ZEAL_SRC_LBA_BASE ZEAL_SRC_SECTS 0 [] false 0.

Lemma demo_data_ok : bytes_ok demo_data.
Proof. repeat constructor; unfold is_u; cbn; lia. Qed.

Lemma demo_name_ok : bytes_ok demo_name.
Proof. repeat constructor; unfold is_u; cbn; lia. Qed.

Lemma file_wf power : dev_wf (file_disk power).
Proof.
  split; [|split; [constructor | reflexivity]].
  intros a s. cbn [ram_media file_disk]. rewrite !lookup_insert, lookup_singleton.
  repeat case_decide; intros [= <-].
  - exact demo_superblock_ok.
  - apply file_header_ok; [cbn; lia | apply demo_name_ok].
  - apply pad_sector_ok; [cbn; lia | apply demo_data_ok].
Qed.

Lemma file_synced power : synced (file_disk power).
Proof.
  intros v (ws & Hsub & Hv). apply sublist_nil_r in Hsub. subst ws. exact Hv.
Qed.

Definition demo_entry : zss_entry := mk_entry 1 8 (crc32 demo_data) 1.

Lemma file_store power :
  store_at (view (file_disk power)) (full_capacity (file_disk power)) ZEAL_SRC_LBA_BASE ZEAL_SRC_SECTS 0
    [(demo_entry, demo_name, false)] 3.
Proof.
  split; [vm_compute; reflexivity | |].
  - apply (log_record _ _ 1 demo_entry); [reflexivity | vm_compute; reflexivity .. |].
    apply log_empty; [reflexivity | vm_compute; reflexivity].
  - constructor; [|constructor]. intros _. vm_compute. reflexivity.
Qed.

Lemma file_represents power :
  represents (view (file_disk power)) (full_capacity (file_disk power)) {[ demo_name := demo_data ]}.
Proof. eapply represents_intro; [apply file_store | vm_compute; reflexivity]. Qed.

(** ** Updates *)

(** C1: [zss_put] is an atomic insert.  On every device, healthy or failing, it returns; a power
    loss at the point it has reached leaves either the old map or the map with [name] bound to
    [src]; return code 0 means the new map is on the medium; and if the device answered every
    request the code is 0, or -3 with the map unchanged. *)
Theorem zss_put_atomic {D} `{BlockDevLaws D} (name src : list Z) (k : Z) (s : zst D) m :
  dev_wf (z_dev s) -> online (z_dev s) -> synced (z_dev s) ->
  represents (view (z_dev s)) (full_capacity (z_dev s)) m ->
  zss_name_ok name = Some k -> 0 < Z.of_nat (length src) <= ZSS_MAX_FILE -> bytes_ok src ->
  exists code s', zss_put name src s = Some (code, s') /\
    update_post m (<[name := src]> m) (-3) (z_dev s) code (z_dev s').
Proof. apply put_spec. Qed.

Lemma zss_put_atomic_witness :
  exists code s', zss_put demo_name demo_data (demo_state 6) = Some (code, s') /\
    update_post ∅ (<[demo_name := demo_data]> ∅) (-3) (demo_disk 6) code (z_dev s').
Proof.
  apply (zss_put_atomic demo_name demo_data 4 (demo_state 6) ∅).
  - apply demo_wf.
  - split; reflexivity.
  - apply demo_synced.
  - apply demo_represents.
  - reflexivity.
  - vm_compute. split; congruence.
  - repeat constructor; unfold is_u; cbn; lia.
Defined.

(** C2: [zss_delete] is an atomic delete: same guarantees as for the insert; a healthy device
    gives 0, -3 when the log has no room for the tombstone, or -4 when the map has no such name. *)
Theorem zss_delete_atomic {D} `{BlockDevLaws D} (name : list Z) (k : Z) (s : zst D) m :
  dev_wf (z_dev s) -> online (z_dev s) -> synced (z_dev s) ->
  represents (view (z_dev s)) (full_capacity (z_dev s)) m -> zss_name_ok name = Some k ->
  exists code s', zss_delete name s = Some (code, s') /\
    update_post m (delete name m) (if bool_decide (is_Some (m !! name)) then -3 else -4)
      (z_dev s) code (z_dev s').
Proof. apply delete_spec. Qed.

Lemma zss_delete_atomic_witness :
  exists code s', zss_delete demo_name (demo_state 9) = Some (code, s') /\
    update_post ∅ (delete demo_name ∅)
      (if bool_decide (is_Some ((∅ : gmap (list Z) (list Z)) !! demo_name)) then -3 else -4)
      (demo_disk 9) code (z_dev s').
Proof.
  apply (zss_delete_atomic demo_name 4 (demo_state 9) ∅).
  - apply demo_wf.
  - split; reflexivity.
  - apply demo_synced.
  - apply demo_represents.
  - reflexivity.
Defined.

(** ** Lookups *)

(** C3: [zss_find] and [zss_read] look names up in the abstract map: on a device that answers, a
    bound name is found (code 1) and reading its entry into a large enough buffer returns 0 and
    exactly the bytes bound to it; an unbound name gives 0 or -3 (tombstoned); and neither call
    changes what the disk holds. *)
Theorem zss_lookup_refines {D} `{BlockDevLaws D} (name : list Z) (k : Z) (s : zst D) m :
  dev_wf (z_dev s) -> online (z_dev s) ->
  represents (view (z_dev s)) (full_capacity (z_dev s)) m -> zss_name_ok name = Some k ->
  exists f s', zss_find (Some name) s = Some (f, s') /\ view (z_dev s') ==i view (z_dev s) /\
    (alive (z_dev s') = true ->
     match m !! name with
     | None => fr_code f = 0 \/ fr_code f = -3
     | Some data =>
         fr_code f = 1 /\ exists e, fr_entry f = Some e /\ e_length e = Z.of_nat (length data) /\
           forall cap, Z.of_nat (length data) < cap ->
           exists out s'', zss_read e (Some cap) s' = Some (out, s'') /\
             view (z_dev s'') ==i view (z_dev s) /\
             (alive (z_dev s'') = true -> out = (0, data))
     end).
Proof. apply lookup_spec. Qed.

Lemma zss_lookup_refines_witness :
  exists f s', zss_find (Some demo_name) (file_state 20) = Some (f, s') /\
    view (z_dev s') ==i view (file_disk 20) /\
    (alive (z_dev s') = true ->
     match ({[ demo_name := demo_data ]} : gmap (list Z) (list Z)) !! demo_name with
     | None => fr_code f = 0 \/ fr_code f = -3
     | Some data =>
         fr_code f = 1 /\ exists e, fr_entry f = Some e /\ e_length e = Z.of_nat (length data) /\
           forall cap, Z.of_nat (length data) < cap ->
           exists out s'', zss_read e (Some cap) s' = Some (out, s'') /\
             view (z_dev s'') ==i view (file_disk 20) /\
             (alive (z_dev s'') = true -> out = (0, data))
     end).
Proof.
  apply (zss_lookup_refines demo_name 4 (file_state 20) {[ demo_name := demo_data ]}).
  - apply file_wf.
  - split; reflexivity.
  - apply file_represents.
  - reflexivity.
Defined.

(** ** Compaction *)

(** C4: [zss_compact] never changes the abstract map.  It returns on every device; a power loss
    at the point it has reached leaves a disk that stands for the same map; code 0 means the other
    bank is selected on the medium with the next generation and holds exactly one record per path,
    in no more sectors than before, and the reported counts are those; a device that answers every
    request gives 0, or -4 with nothing written when the disk has no second bank, the generation
    is exhausted or the device cannot flush. *)
Theorem zss_compact_atomic {D} `{BlockDevLaws D} (s : zst D) base n gen rs tail :
  dev_wf (z_dev s) -> online (z_dev s) -> synced (z_dev s) ->
  store_at (view (z_dev s)) (full_capacity (z_dev s)) base n gen rs tail ->
  exists out s', zss_compact s = Some (out, s') /\
    compacted (z_dev s) base gen tail (store_map (bank (view (z_dev s)) base) rs) out (z_dev s').
Proof. apply compact_spec. Qed.

Lemma zss_compact_atomic_witness :
  exists out s', zss_compact (file_state 40) = Some (out, s') /\
    compacted (file_disk 40) ZEAL_SRC_LBA_BASE 0 3
      (store_map (bank (view (file_disk 40)) ZEAL_SRC_LBA_BASE) [(demo_entry, demo_name, false)])
      out (z_dev s').
Proof.
  apply (zss_compact_atomic (file_state 40) ZEAL_SRC_LBA_BASE ZEAL_SRC_SECTS).
  - apply file_wf.
  - split; reflexivity.
  - apply file_synced.
  - apply file_store.
Defined.

(** ** Serial uploads *)






(** ** A transient read error *)

(** A disk on which one read fails, the [k]th from now, and everything else succeeds. *)
Record flaky := { fk_ram : ram; fk_fail : option nat }.

Definition flaky_read (lba : Z) (d : flaky) : option sector * flaky :=
  match fk_fail d with
  | Some O => (None, {| fk_ram := fk_ram d; fk_fail := None |})
  | f =>
      let '(r, m) := ram_read lba (fk_ram d) in
      (r, {| fk_ram := m; fk_fail := option_map pred f |})
  end.

Definition flaky_write (lba : Z) (s : sector) (d : flaky) : bool * flaky :=
  let '(ok, m) := ram_write lba s (fk_ram d) in (ok, {| fk_ram := m; fk_fail := fk_fail d |}).

Definition flaky_flush (d : flaky) : bool * flaky :=
  let '(ok, m) := ram_flush (fk_ram d) in (ok, {| fk_ram := m; fk_fail := fk_fail d |}).

#[export] Instance flaky_dev : BlockDev flaky := {|
  virtio_blk_ready d := virtio_blk_ready (fk_ram d);
  xport_pci d := xport_pci (fk_ram d);
  full_capacity d := full_capacity (fk_ram d);
  flush_supported d := flush_supported (fk_ram d);
  virtio_blk_read_abs := flaky_read;
  virtio_blk_write_abs := flaky_write;
  virtio_blk_flush_abs := flaky_flush |}.

(** Bank A is the original bank; a compaction has committed generation 1 in bank B. *)
Definition two_banks : ram := {|
  ram_media := {[ ZEAL_SRC_LBA_BASE := demo_superblock;
                  ZEAL_SRC_SHADOW_LBA := superblock_v2 ZEAL_SRC_SHADOW_SECTS 1 ]};
  ram_cache := []; ram_power := 40;
  ram_attrs := {| at_ready := true; at_pci := true; at_capacity := 262144; at_flush := true |} |}.

Definition flaky_state : zst flaky :=
  mk_zst {| fk_ram := two_banks; fk_fail := Some 1%nat |} ZEAL_SRC_LBA_BASE ZEAL_SRC_SECTS 0 [] false 0.

(** [zss_probe_bank] does not tell an unreadable superblock from an absent one.  When the read
    of the newer bank's superblock fails once, [zss_available] falls back to the stale bank:
    [zss_put] reports 0, and the next lookup, which reads both superblocks, does not find the
    file. *)
Theorem zss_put_stale_bank :
  exists s' f s'', zss_put demo_name demo_data flaky_state = Some (0, s') /\
    zss_find (Some demo_name) s' = Some (f, s'') /\ fr_code f = 0 /\
    g_zss_base s' = ZEAL_SRC_LBA_BASE /\ g_zss_base s'' = ZEAL_SRC_SHADOW_LBA.
Proof.
  destruct (zss_put demo_name demo_data flaky_state) as [[c s']|] eqn:E1; [|vm_compute in E1; discriminate].
  destruct (zss_find (Some demo_name) s') as [[f s'']|] eqn:E2.
  - exists s', f, s''. vm_compute in E1. injection E1 as <- <-. split; [reflexivity|].
    split; [exact E2|]. vm_compute in E2. injection E2 as <- <-. repeat split.
  - exfalso. vm_compute in E1. injection E1 as <- <-. vm_compute in E2. discriminate.
Qed.
