(* ===== verification/MmioMap.v ===== *)
(** * The MMIO mapper ([src/src/mmio_map.h]): definitions and the page-table walk

    The mapper edits the live TTBR1 page tables through the higher-half direct map.  Memory is a
    function from physical address to 64-bit word; a pointer is a virtual address, and the direct
    map turns pointer [hhdm + p] into physical address [p].  The registers are inputs.  The trace
    records the stores to reachable descriptors (with the value each one replaced), the barriers
    and the TLB maintenance, in program order. *)

From S2P Require Import Prelude.
#[local] Open Scope sm_scope.

Definition MMIO_PT_POOL_PAGES : Z := 8.

Inductive event :=
| Store (phys old value : Z)      (* a descriptor replaced at a physical address *)
| Dsb                             (* dsb, with the isb where the source has one *)
| Tlbi_all                        (* tlbi vmalle1is *)
| Tlbi_va (page : Z).             (* tlbi vae1is, va >> 12 *)

Record pt_state := mk_pt {
  pt_mem : Z -> Z;
  g_pt_pool_phys : Z;
  g_pt_pool_used : Z;
  g_pt_l1_splits : Z;
  g_pt_l2_remaps : Z;
  pt_trace : list event }.

Abbreviation PT := (SM pt_state).

(** TCR_EL1, TTBR1_EL1 and MAIR_EL1. *)
Record pt_regs := mk_regs { tcr_el1 : Z; ttbr1_el1 : Z; mair_el1 : Z }.

Definition set_mem (m : Z -> Z) (s : pt_state) : pt_state :=
  mk_pt m (g_pt_pool_phys s) (g_pt_pool_used s) (g_pt_l1_splits s) (g_pt_l2_remaps s) (pt_trace s).
Definition set_pool (phys used : Z) (s : pt_state) : pt_state :=
  mk_pt (pt_mem s) phys used (g_pt_l1_splits s) (g_pt_l2_remaps s) (pt_trace s).
Definition count_split (s : pt_state) : pt_state :=
  mk_pt (pt_mem s) (g_pt_pool_phys s) (g_pt_pool_used s) (u32 (g_pt_l1_splits s + 1)) (g_pt_l2_remaps s)
    (pt_trace s).
Definition count_remap (s : pt_state) : pt_state :=
  mk_pt (pt_mem s) (g_pt_pool_phys s) (g_pt_pool_used s) (g_pt_l1_splits s) (u32 (g_pt_l2_remaps s + 1))
    (pt_trace s).
Definition emit (e : event) : PT unit := modify (fun s =>
  mk_pt (pt_mem s) (g_pt_pool_phys s) (g_pt_pool_used s) (g_pt_l1_splits s) (g_pt_l2_remaps s)
    (pt_trace s ++ [e])).

Definition word_upd (m : Z -> Z) (a v : Z) : Z -> Z := fun x => if x =? a then v else m x.

(** ** Accesses through the direct map *)

Definition pt_v2p (hhdm v : Z) : Z := u64 (v - hhdm).

(** [p\[i\]] for a table pointer [p]. *)
Definition pt_addr (hhdm p i : Z) : Z := pt_v2p hhdm p + 8 * i.
Definition pt_get (hhdm p i : Z) : PT Z := gets (fun s => pt_mem s (pt_addr hhdm p i)).
Definition pt_put (hhdm p i v : Z) : PT unit :=
  let! old := pt_get hhdm p i in
  modify (fun s => set_mem (word_upd (pt_mem s) (pt_addr hhdm p i) v) s) ;;
  emit (Store (pt_addr hhdm p i) old v).

(** Seeding the pool. *)
Definition mmio_pt_set_pool (phys_base : Z) : PT unit :=
  modify (set_pool (if negb (phys_base =? 0) && (Z.land phys_base 0xfff =? 0) then phys_base else 0) 0).

(** [for (i = 0; i < 512; i++) p\[i\] = f(i);] on a page no walk can reach yet. *)
Fixpoint pt_fill (n : nat) (hhdm p : Z) (f : Z -> Z) (m : Z -> Z) : Z -> Z :=
  match n with
  | O => m
  | S n' => word_upd (pt_fill n' hhdm p f m) (pt_addr hhdm p (Z.of_nat n')) (f (Z.of_nat n'))
  end.

Definition pt_alloc (hhdm : Z) : PT (option Z) := fun s =>
  if (g_pt_pool_phys s =? 0) || (MMIO_PT_POOL_PAGES <=? g_pt_pool_used s) then Some (None, s)
  else
    let phys := u64 (g_pt_pool_phys s + g_pt_pool_used s * 4096) in
    let p := u64 (hhdm + phys) in
    let s := set_pool (g_pt_pool_phys s) (g_pt_pool_used s + 1) s in
    Some (Some p, set_mem (pt_fill 512 hhdm p (fun _ => 0) (pt_mem s)) s).

Definition pt_phys_to_virt (hhdm phys : Z) : option Z :=
  if negb (Z.land phys 0x000f000000000000 =? 0) then None
  else
    let phys := Z.land phys 0x0000fffffffff000 in
    if (Z.shiftl 1 48 <=? phys) || (UINT64_MAX - phys <? hhdm) then None
    else Some (u64 (hhdm + phys)).

Definition mmio_pt_tcr_supported (tcr : Z) : bool :=
  let t1sz := Z.land (Z.shiftr tcr 16) 0x3f in
  let tg1 := Z.land (Z.shiftr tcr 30) 3 in
  let ips := Z.land (Z.shiftr tcr 32) 7 in
  (t1sz =? 16) && (tg1 =? 2) && (ips <=? 5).

Definition L1_OA : Z := 0x0000ffffc0000000.

(** [~x] at 64 bits. *)
Definition not64 (x : Z) : Z := UINT64_MAX - x.

Definition mmio_split_l1_block (l1_desc index : Z) : Z :=
  let phys := Z.land l1_desc L1_OA in
  let attrs := Z.land l1_desc (not64 (Z.lor (Z.lor L1_OA 0x3) (Z.shiftl 1 52))) in
  Z.lor (Z.lor (u64 (phys + Z.shiftl index 21)) 0x1) attrs.

(** The first of the eight MAIR slots, from [i] on, that holds [want]. *)
Fixpoint mair_slot (n : nat) (mair i want : Z) : option Z :=
  match n with
  | O => None
  | S n' => if Z.land (Z.shiftr mair (8 * i)) 0xff =? want then Some i else mair_slot n' mair (i + 1) want
  end.

Definition pt_device_attr (mair : Z) : option Z :=
  match mair_slot 8 mair 0 0x04 with
  | Some i => Some i
  | None => mair_slot 8 mair 0 0x00
  end.

(** [inl code] or [inr (root_phys, device_attr)]. *)
Definition mmio_pt_validate (r : pt_regs) (hhdm : Z) : Z + Z * Z :=
  if negb (mmio_pt_tcr_supported (tcr_el1 r)) then inl (-10)
  else if hhdm =? 0 then inl (-11)
  else if negb (Z.shiftr hhdm 48 =? 0xffff) then inl (-11)
  else
    let root_phys := Z.land (ttbr1_el1 r) 0x0000fffffffff000 in
    if (root_phys =? 0) || (UINT64_MAX - root_phys <? hhdm) then inl (-12)
    else match pt_device_attr (mair_el1 r) with
         | None => inl (-13)
         | Some attr => inr (root_phys, attr)
         end.

(** ** [mmio_map_2m], level by level *)

(** [l0\[i0\]]: [inr l1]. *)
Definition map_level0 (hhdm l0 i0 : Z) : PT (Z + Z) :=
  let! e0 := pt_get hhdm l0 i0 in
  if Z.land e0 1 =? 0 then
    let! l1 := pt_alloc hhdm in
    match l1 with
    | None => ret (inl (-1))
    | Some l1 =>
        pt_put hhdm l0 i0 (Z.lor (pt_v2p hhdm l1) 0x3) ;; emit Dsb ;; ret (inr l1)
    end
  else if Z.land e0 3 =? 3 then
    ret (match pt_phys_to_virt hhdm e0 with None => inl (-15) | Some l1 => inr l1 end)
  else ret (inl (-3)).

(** [l1\[i1\]]: [inr l2]. *)
Definition map_level1 (hhdm l1 i1 : Z) : PT (Z + Z) :=
  let! e1 := pt_get hhdm l1 i1 in
  if Z.land e1 1 =? 0 then
    let! l2 := pt_alloc hhdm in
    match l2 with
    | None => ret (inl (-2))
    | Some l2 =>
        pt_put hhdm l1 i1 (Z.lor (pt_v2p hhdm l2) 0x3) ;; emit Dsb ;; ret (inr l2)
    end
  else if Z.land e1 0x3 =? 0x1 then
    let! l2 := pt_alloc hhdm in
    match l2 with
    | None => ret (inl (-2))
    | Some l2 =>
        modify (fun s => set_mem (pt_fill 512 hhdm l2 (mmio_split_l1_block e1) (pt_mem s)) s) ;;
        modify count_split ;;
        pt_put hhdm l1 i1 0 ;; emit Dsb ;; emit Tlbi_all ;; emit Dsb ;;
        pt_put hhdm l1 i1 (Z.lor (pt_v2p hhdm l2) 0x3) ;; emit Dsb ;; emit Tlbi_all ;; emit Dsb ;;
        ret (inr l2)
    end
  else ret (match pt_phys_to_virt hhdm e1 with None => inl (-15) | Some l2 => inr l2 end).

Definition device_desc (phys attr : Z) : Z :=
  Z.lor (Z.lor (Z.lor (Z.lor (Z.lor (Z.lor phys 0x1) (Z.shiftl attr 2)) (Z.shiftl 1 10)) (Z.shiftl 2 8))
               (Z.shiftl 1 54)) (Z.shiftl 1 53).

(** [l2\[i2\]]: the block descriptor. *)
Definition map_level2 (hhdm l2 i2 va desc : Z) : PT Z :=
  let! old := pt_get hhdm l2 i2 in
  if Z.land old 3 =? 3 then ret (-4)
  else if old =? desc then ret 0
  else
    (if negb (Z.land old 1 =? 0) then
       pt_put hhdm l2 i2 0 ;; emit Dsb ;; emit (Tlbi_va (Z.shiftr va 12)) ;; emit Dsb ;; modify count_remap
     else ret tt) ;;
    pt_put hhdm l2 i2 desc ;; emit Dsb ;; emit (Tlbi_va (Z.shiftr va 12)) ;; emit Dsb ;; ret 0.

Definition level_index (va shift : Z) : Z := Z.land (Z.shiftr va shift) 0x1ff.

Definition mmio_map_2m (r : pt_regs) (hhdm phys : Z) : PT Z :=
  let phys := Z.land phys (not64 (Z.shiftl 1 21 - 1)) in
  let va := u64 (hhdm + phys) in
  match mmio_pt_validate r hhdm with
  | inl code => ret code
  | inr (root_phys, attr) =>
      if (Z.shiftl 1 48 <=? phys) || (va <? hhdm) then ret (-14)
      else match pt_phys_to_virt hhdm root_phys with
      | None => ret (-15)
      | Some l0 =>
          let! l1 := map_level0 hhdm l0 (level_index va 39) in
          match l1 with
          | inl code => ret code
          | inr l1 =>
              let! l2 := map_level1 hhdm l1 (level_index va 30) in
              match l2 with
              | inl code => ret code
              | inr l2 => map_level2 hhdm l2 (level_index va 21) va (device_desc phys attr)
              end
          end
      end
  end.

Definition mmio_map_virtio_window (r : pt_regs) (hhdm : Z) : PT Z := mmio_map_2m r hhdm 0x0a000000.
Definition PCI_ECAM_PHYS : Z := 0x4010000000.
Definition mmio_map_pci_ecam (r : pt_regs) (hhdm : Z) : PT Z := mmio_map_2m r hhdm PCI_ECAM_PHYS.

(** ** The architectural walk

    The four-level, 4 KiB-granule VMSAv8-64 walk of a 48-bit address, as a reference: level [k]
    counts the levels that remain, so the root is level 3 and a page is mapped at level 0. *)

Definition idx (k : nat) (va : Z) : Z := va / 2 ^ (12 + 9 * Z.of_nat k) mod 512.

(** Output address bits \[47:s\] of a descriptor. *)
Definition oa (s e : Z) : Z := e / 2 ^ s mod 2 ^ (48 - s) * 2 ^ s.

Record leaf := mk_leaf { l_pa : Z; l_low : Z; l_high : Z }.

(** The physical address a leaf descriptor gives [va], its lower attributes (bits 2 to 11) and its
    upper ones (bits 48 to 63, without the contiguous hint, bit 52). *)
Definition leaf_of (k : nat) (e va : Z) : leaf :=
  let s := 12 + 9 * Z.of_nat k in
  mk_leaf (oa s e + va mod 2 ^ s) (e / 4 mod 2 ^ 10) (Z.land (e / 2 ^ 48) (Z.lnot 16)).

Definition entry (m : Z -> Z) (k : nat) (table va : Z) : Z := m (table + 8 * idx k va).

Definition resolve (next : Z -> option leaf) (k : nat) (e va : Z) : option leaf :=
  if e mod 2 =? 0 then None
  else if e mod 4 =? 3 then
    match k with O => Some (leaf_of 0 e va) | S _ => next (oa 12 e) end
  else match k with 1%nat | 2%nat => Some (leaf_of k e va) | _ => None end.

Fixpoint walk (m : Z -> Z) (k : nat) (table va : Z) : option leaf :=
  resolve (match k with O => fun _ => None | S k' => fun t => walk m k' t va end)
    k (entry m k table va) va.

(** The tables a walk goes through. *)
Fixpoint tables (m : Z -> Z) (k : nat) (table va : Z) : list (nat * Z) :=
  (k, table) ::
  match k with
  | O => []
  | S k' => let e := entry m k table va in
            if e mod 4 =? 3 then tables m k' (oa 12 e) va else []
  end.

Definition translate (m : Z -> Z) (root va : Z) : option leaf := walk m 3 root va.
