(* ===== verification/MmioMapWalk.v ===== *)
(** * The page-table walk under edits

    Reusable facts about [walk]: it depends on the entries it visits, and an edit of one entry of
    a table that is not shared changes exactly the addresses below that entry. *)

From S2P Require Import Prelude MmioMap.

Lemma idx_range k va : 0 <= idx k va < 512.
Proof. unfold idx. apply Z.mod_pos_bound. lia. Qed.

Definition aligned (p : Z) : Prop := p mod 4096 = 0.

Lemma oa_aligned e : aligned (oa 12 e).
Proof. unfold aligned, oa. change (2 ^ 12) with 4096. apply Z_mod_mult. Qed.

(** Entries of different pages are different words. *)
Lemma page_entries p q i j : aligned p -> aligned q -> 0 <= i < 512 -> 0 <= j < 512 ->
  p + 8 * i = q + 8 * j -> p = q /\ i = j.
Proof. unfold aligned. intros. Z.div_mod_to_equations. lia. Qed.

Lemma tables_aligned m k : forall table va j p,
  aligned table -> In (j, p) (tables m k table va) -> aligned p /\ (j <= k)%nat.
Proof.
  induction k as [|k IH]; intros table va j p Ht; cbn [tables].
  - intros [[= <- <-]|[]]. auto.
  - intros [[= <- <-]|Hin]; [auto|]. destruct (_ =? 3); [|destruct Hin].
    destruct (IH _ _ _ _ (oa_aligned _) Hin). auto.
Qed.

(** The walk reads nothing but the entries of its tables. *)
Lemma walk_frame m m' k : forall table va,
  (forall j p, In (j, p) (tables m k table va) -> m' (p + 8 * idx j va) = m (p + 8 * idx j va)) ->
  walk m' k table va = walk m k table va /\ tables m' k table va = tables m k table va.
Proof.
  induction k as [|k IH]; intros table va H.
  - cbn [walk tables]. unfold entry. rewrite (H 0%nat table) by (left; reflexivity). auto.
  - cbn [walk tables] in *. unfold entry in *. rewrite (H (S k) table) by (left; reflexivity).
    set (e := m (table + 8 * idx (S k) va)) in *. unfold resolve. destruct (e mod 2 =? 0) eqn:E2.
    + destruct (e mod 4 =? 3) eqn:E4; [|auto]. Z.div_mod_to_equations. lia.
    + destruct (e mod 4 =? 3); [|auto].
      destruct (IH (oa 12 e) va) as [-> ->]; [|auto]. intros j p Hin. apply H. right. exact Hin.
Qed.

Lemma tables_self m k table va : In (k, table) (tables m k table va).
Proof. destruct k; left; reflexivity. Qed.

(** A table on the way decides the rest of the walk. *)
Lemma walk_at m k : forall table va j p,
  In (j, p) (tables m k table va) -> walk m k table va = walk m j p va.
Proof.
  induction k as [|k IH]; intros table va j p; cbn [tables].
  - intros [[= <- <-]|[]]. reflexivity.
  - intros [[= <- <-]|Hin]; [reflexivity|].
    destruct (Z.eqb_spec (entry m (S k) table va mod 4) 3) as [E|]; [|destruct Hin].
    cbn [walk]. unfold resolve. rewrite E.
    destruct (Z.eqb_spec (entry m (S k) table va mod 2) 0) as [E2|]; [Z.div_mod_to_equations; lia|].
    change (3 =? 3) with true. cbv iota. apply IH. exact Hin.
Qed.

Lemma tables_at m k : forall table va j p,
  In (j, p) (tables m k table va) -> forall q, In q (tables m j p va) -> In q (tables m k table va).
Proof.
  induction k as [|k IH]; intros table va j p; cbn [tables].
  - intros [[= <- <-]|[]] q Hq. exact Hq.
  - intros [[= <- <-]|Hin] q Hq; [exact Hq|]. right.
    destruct (_ =? 3); [|destruct Hin]. eapply IH; eassumption.
Qed.

(** Addresses with the same upper indices share their upper tables. *)
Definition agree_above (k : nat) (va va' : Z) : Prop := forall j, (k < j <= 3)%nat -> idx j va = idx j va'.

Lemma tables_agree m k : forall table va va' j p,
  (k <= 3)%nat -> In (j, p) (tables m k table va) -> (forall i, (j < i <= k)%nat -> idx i va = idx i va') ->
  In (j, p) (tables m k table va').
Proof.
  induction k as [|k IH]; intros table va va' j p Hk; cbn [tables].
  - intros [[= <- <-]|[]] _. left. reflexivity.
  - intros [[= <- <-]|Hin] Ha; [left; reflexivity|]. right.
    destruct (_ =? 3) eqn:E; [|destruct Hin].
    assert (Hj : (j <= k)%nat) by (eapply tables_aligned; [apply oa_aligned | exact Hin]).
    assert (Ee : entry m (S k) table va' = entry m (S k) table va).
    { unfold entry. rewrite (Ha (S k)) by lia. reflexivity. }
    rewrite Ee, E. apply (IH _ va); [lia | exact Hin |]. intros i Hi. apply Ha. lia.
Qed.

(** ** Private paths *)

(** The tables of [va] are on the way of no other address, unless its upper indices agree, and
    each is used at one level only. *)
Definition private (m : Z -> Z) (root va : Z) : Prop :=
  forall va' j j' p, In (j, p) (tables m 3 root va) -> In (j', p) (tables m 3 root va') ->
  j = j' /\ agree_above j va va'.

Definition unused (m : Z -> Z) (root : Z) (P : Z -> Prop) : Prop :=
  forall va j p, In (j, p) (tables m 3 root va) -> ~ P p.

(** [va'] is translated through the level-[k] entry of [va]. *)
Definition below (va : Z) (k : nat) (va' : Z) : Prop := agree_above k va va' /\ idx k va' = idx k va.

Lemma below_dec k va va' : {below va k va'} + {~ below va k va'}.
Proof.
  unfold below, agree_above. destruct (Z.eq_dec (idx k va') (idx k va)) as [E|E]; [|right; tauto].
  assert (D : {forall j, (k < j <= 3)%nat -> idx j va = idx j va'} + {~ forall j, (k < j <= 3)%nat -> idx j va = idx j va'}).
  { assert (G : forall n, {forall j, (k < j <= n)%nat -> idx j va = idx j va'} + {~ forall j, (k < j <= n)%nat -> idx j va = idx j va'}).
    { induction n as [|n [IH|IH]]; [left; lia | | right; intros H; apply IH; intros j Hj; apply H; lia].
      destruct (le_lt_dec (S n) k); [left; intros j Hj; lia|].
      destruct (Z.eq_dec (idx (S n) va) (idx (S n) va')) as [En|En].
      - left. intros j Hj. destruct (Nat.eq_dec j (S n)) as [->|]; [exact En | apply IH; lia].
      - right. intros H. apply En. apply H. lia. }
    exact (G 3%nat). }
  destruct D as [D|D]; [left; auto | right; tauto].
Qed.

Section Edit.
Context (m m' : Z -> Z) (root va : Z) (k : nat) (t v : Z).
Hypothesis Hroot : aligned root.
Hypothesis Hpriv : private m root va.
Hypothesis Hin : In (k, t) (tables m 3 root va).
Hypothesis Hm' : forall a, m' a = if a =? t + 8 * idx k va then v else m a.

Lemma edit_align : aligned t.
Proof using Hroot Hin. eapply tables_aligned; [exact Hroot | exact Hin]. Qed.

(** The edited entry is on the way of [va'] only below it. *)
Lemma edit_hit va' j p : In (j, p) (tables m 3 root va') -> p + 8 * idx j va' = t + 8 * idx k va ->
  j = k /\ p = t /\ below va k va'.
Proof using Hroot Hpriv Hin.
  intros Hp E. destruct (tables_aligned _ _ _ _ _ _ Hroot Hp) as [Ha _].
  destruct (page_entries p t (idx j va') (idx k va) Ha edit_align (idx_range _ _) (idx_range _ _) E) as [-> Ei].
  destruct (Hpriv va' k j t Hin Hp) as [<- Hag]. split; [reflexivity|]. split; [reflexivity|].
  split; [exact Hag | exact Ei].
Qed.

Lemma edit_elsewhere va' : ~ below va k va' ->
  walk m' 3 root va' = walk m 3 root va' /\ tables m' 3 root va' = tables m 3 root va'.
Proof using Hroot Hpriv Hin Hm'.
  intros Hb. apply walk_frame. intros j p Hp. rewrite Hm'.
  destruct (Z.eqb_spec (p + 8 * idx j va') (t + 8 * idx k va)) as [E|]; [|reflexivity].
  destruct Hb. apply (edit_hit va' j p Hp E).
Qed.

(** Below the edited entry the walk still reaches its table. *)
Lemma edit_reach va' : below va k va' -> In (k, t) (tables m' 3 root va') /\ In (k, t) (tables m 3 root va').
Proof using Hroot Hpriv Hin Hm'.
  intros [Hag _].
  assert (H0 : In (k, t) (tables m 3 root va')).
  { apply (tables_agree m 3 root va va'); [lia | exact Hin | exact Hag]. }
  split; [|exact H0].
  assert (G : forall n table, (n <= 3)%nat -> In (k, t) (tables m n table va') ->
    (forall j p, In (j, p) (tables m n table va') -> In (j, p) (tables m 3 root va')) ->
    In (k, t) (tables m' n table va')).
  { induction n as [|n IH]; intros table Hn Ht Hsub; cbn [tables] in *.
    - exact Ht.
    - destruct Ht as [Ht|Ht]; [left; exact Ht|]. right.
      assert (Ee : entry m' (S n) table va' = entry m (S n) table va').
      { unfold entry. rewrite Hm'. destruct (Z.eqb_spec (table + 8 * idx (S n) va') (t + 8 * idx k va)) as [E|]; [|reflexivity].
        destruct (edit_hit va' (S n) table (Hsub _ _ (or_introl eq_refl)) E) as (Ek & _ & _).
        destruct (entry m (S n) table va' mod 4 =? 3); [|destruct Ht].
        destruct (tables_aligned _ _ _ _ _ _ (oa_aligned _) Ht) as [_ Hle]. lia. }
      rewrite Ee. destruct (entry m (S n) table va' mod 4 =? 3) eqn:E4; [|destruct Ht].
      apply IH; [lia | exact Ht |]. intros j p Hj. apply Hsub. right. exact Hj. }
  apply G; auto.
Qed.

Lemma edit_below va' : below va k va' ->
  walk m' 3 root va' = walk m' k t va' /\ entry m' k t va' = v /\ entry m k t va' = m (t + 8 * idx k va).
Proof using Hroot Hpriv Hin Hm'.
  intros Hb. destruct (edit_reach va' Hb) as [H1 _]. split; [apply walk_at; exact H1|].
  destruct Hb as [_ Ei]. unfold entry. rewrite Ei, Hm', Z.eqb_refl. auto.
Qed.
(** The tables after the edit: the old ones, and what hangs below the edited entry. *)
Lemma edit_tables va' j p : In (j, p) (tables m' 3 root va') ->
  In (j, p) (tables m 3 root va') \/ (below va k va' /\ In (j, p) (tables m' k t va')).
Proof using Hroot Hpriv Hin Hm'.
  assert (G : forall n table, In (j, p) (tables m' n table va') ->
    (forall i q, In (i, q) (tables m n table va') -> In (i, q) (tables m 3 root va')) ->
    In (j, p) (tables m n table va') \/ (below va k va' /\ In (j, p) (tables m' k t va'))).
  { induction n as [|n IH]; intros table Ht Hsub; [left; exact Ht|]. cbn [tables] in Ht |- *.
    destruct Ht as [Ht|Ht]; [left; left; exact Ht|].
    destruct (Z.eqb_spec (table + 8 * idx (S n) va') (t + 8 * idx k va)) as [E|E].
    - right. destruct (edit_hit va' (S n) table (Hsub _ _ (or_introl eq_refl)) E) as (<- & <- & Hb).
      split; [exact Hb|]. cbn [tables]. right. exact Ht.
    - assert (Ee : entry m' (S n) table va' = entry m (S n) table va').
      { unfold entry. rewrite Hm'. destruct (Z.eqb_spec (table + 8 * idx (S n) va') (t + 8 * idx k va)); [contradiction | reflexivity]. }
      rewrite Ee in Ht. cbn [tables] in Hsub. destruct (entry m (S n) table va' mod 4 =? 3); [|destruct Ht].
      destruct (IH _ Ht) as [H|H]; [intros i q Hq; apply Hsub; right; exact Hq | left; right; exact H | right; exact H]. }
  intros H. apply (G 3%nat root H). auto.
Qed.
End Edit.

(** ** Pages nothing points to *)

Lemma fill_page m m' root q :
  aligned root -> aligned q -> unused m root (eq q) ->
  (forall a, ~ (q <= a < q + 4096) -> m' a = m a) ->
  forall va, walk m' 3 root va = walk m 3 root va /\ tables m' 3 root va = tables m 3 root va.
Proof.
  intros Hr Hq Hu Hm va. apply walk_frame. intros j p Hp. apply Hm. intros Ha.
  destruct (tables_aligned _ _ _ _ _ _ Hr Hp) as [Hap _]. apply (Hu va j p Hp).
  pose proof (idx_range j va). unfold aligned in *. Z.div_mod_to_equations. lia.
Qed.

(** ** Hanging a new table below an entry *)

Lemma flat_tables f k q : (forall i, 0 <= i < 512 -> f (q + 8 * i) mod 4 <> 3) ->
  forall va, tables f k q va = [(k, q)].
Proof.
  intros Hf va. destruct k as [|k']; [reflexivity|]. cbn [tables]. unfold entry.
  destruct (Z.eqb_spec (f (q + 8 * idx (S k') va) mod 4) 3) as [E|]; [|reflexivity].
  destruct (Hf _ (idx_range _ _) E).
Qed.

Section Link.
Context (m m' : Z -> Z) (root va : Z) (k : nat) (t q v : Z).
Hypothesis Hroot : aligned root.
Hypothesis Hpriv : private m root va.
Hypothesis Hin : In (S k, t) (tables m 3 root va).
Hypothesis Hm' : forall a, m' a = if a =? t + 8 * idx (S k) va then v else m a.
Hypothesis Hq : aligned q.
Hypothesis Hfresh : unused m root (eq q).
(** The new entry is a table descriptor for [q], whose entries are no table descriptors. *)
Hypothesis Hv : v mod 4 = 3 /\ oa 12 v = q.
Hypothesis Hflat : forall i, 0 <= i < 512 -> m (q + 8 * i) mod 4 <> 3.
(** The old entry was none either, and the new table translates what it did. *)
Hypothesis Hold : m (t + 8 * idx (S k) va) mod 4 <> 3.
Hypothesis Hsame : forall va', idx (S k) va' = idx (S k) va ->
  walk m k q va' = resolve (fun _ => None) (S k) (m (t + 8 * idx (S k) va)) va'.

Lemma link_other : t <> q.
Proof using Hin Hfresh. intros E. exact (Hfresh va _ _ Hin (eq_sym E)). Qed.

Lemma link_page i : 0 <= i < 512 -> m' (q + 8 * i) = m (q + 8 * i).
Proof using Hroot Hin Hm' Hq Hfresh.
  intros Hi. rewrite Hm'. destruct (Z.eqb_spec (q + 8 * i) (t + 8 * idx (S k) va)) as [E|]; [|reflexivity].
  destruct (tables_aligned _ _ _ _ _ _ Hroot Hin) as [Ht _].
  destruct (page_entries q t i _ Hq Ht Hi (idx_range _ _) E) as [Eq _]. destruct link_other. symmetry. exact Eq.
Qed.

Lemma link_flat i : 0 <= i < 512 -> m' (q + 8 * i) mod 4 <> 3.
Proof using Hroot Hin Hm' Hq Hfresh Hflat. intros Hi. rewrite link_page by exact Hi. auto. Qed.

Lemma link_walk va' : walk m' k q va' = walk m k q va'.
Proof using Hroot Hin Hm' Hq Hfresh Hflat.
  apply walk_frame. intros j p Hp. rewrite (flat_tables m k q Hflat) in Hp.
  destruct Hp as [E|[]]. injection E as E1 E2. rewrite <- E2. apply link_page. apply idx_range.
Qed.

Lemma link_translations va' : walk m' 3 root va' = walk m 3 root va'.
Proof using Hroot Hpriv Hin Hm' Hq Hfresh Hv Hflat Hold Hsame.
  destruct (below_dec (S k) va va') as [Hb|Hb].
  2: { apply (edit_elsewhere m m' root va (S k) t v); assumption. }
  destruct (edit_below m m' root va (S k) t v Hroot Hpriv Hin Hm' va' Hb) as (E1 & E2 & E3).
  destruct (edit_reach m m' root va (S k) t v Hroot Hpriv Hin Hm' va' Hb) as [_ H0].
  rewrite E1, (walk_at m 3 root va' _ _ H0). cbn [walk]. rewrite E2, E3.
  destruct Hv as [Hv1 Hv2]. unfold resolve at 1. rewrite Hv1.
  destruct (Z.eqb_spec (v mod 2) 0); [Z.div_mod_to_equations; lia|]. change (3 =? 3) with true. cbv iota.
  rewrite Hv2, link_walk, Hsame by apply Hb. unfold resolve.
  destruct (Z.eqb_spec (m (t + 8 * idx (S k) va) mod 4) 3); [contradiction | reflexivity].
Qed.

Lemma link_tables va' j p : In (j, p) (tables m' 3 root va') ->
  In (j, p) (tables m 3 root va') \/ (below va (S k) va' /\ j = k /\ p = q).
Proof using Hroot Hpriv Hin Hm' Hq Hfresh Hv Hflat.
  intros H. destruct (edit_tables m m' root va (S k) t v Hroot Hpriv Hin Hm' va' j p H) as [H1|[Hb H1]]; [left; exact H1|].
  destruct (edit_below m m' root va (S k) t v Hroot Hpriv Hin Hm' va' Hb) as (_ & E2 & _).
  destruct (edit_reach m m' root va (S k) t v Hroot Hpriv Hin Hm' va' Hb) as [_ H0].
  cbn [tables] in H1. rewrite E2 in H1. destruct Hv as [Hv1 Hv2]. rewrite Hv1, Hv2 in H1.
  destruct H1 as [E|H1]; [left; rewrite <- E; exact H0|]. change (3 =? 3) with true in H1. cbv iota in H1.
  rewrite (flat_tables m' k q link_flat) in H1. destruct H1 as [E|[]]. injection E as E3 E4. right. auto.
Qed.

Lemma link_reaches : In (k, q) (tables m' 3 root va).
Proof using Hroot Hpriv Hin Hm' Hv.
  assert (Hb : below va (S k) va) by (split; [intros ? ?; reflexivity | reflexivity]).
  destruct (edit_below m m' root va (S k) t v Hroot Hpriv Hin Hm' va Hb) as (_ & E2 & _).
  destruct (edit_reach m m' root va (S k) t v Hroot Hpriv Hin Hm' va Hb) as [H1 _].
  eapply tables_at; [exact H1|]. cbn [tables]. rewrite E2. destruct Hv as [-> ->].
  change (3 =? 3) with true. cbv iota. right. apply tables_self.
Qed.

Lemma link_private : private m' root va.
Proof using Hroot Hpriv Hin Hm' Hq Hfresh Hv Hflat.
  intros va' j j' p H1 H2.
  destruct (link_tables va j p H1) as [G1|(_ & Ej & Ep)], (link_tables va' j' _ H2) as [G2|(Hb & Ej' & Ep')].
  - exact (Hpriv va' j j' p G1 G2).
  - destruct (Hfresh _ _ _ G1 (eq_sym Ep')).
  - destruct (Hfresh _ _ _ G2 (eq_sym Ep)).
  - rewrite Ej, Ej'. split; [reflexivity|]. destruct Hb as [Hag Hi]. intros i Hi'.
    destruct (Nat.eq_dec i (S k)) as [->|]; [symmetry; exact Hi | apply Hag; lia].
Qed.

Lemma link_unused P : unused m root P -> ~ P q -> unused m' root P.
Proof using Hroot Hpriv Hin Hm' Hq Hfresh Hv Hflat.
  intros HP Hnq va' j p H. destruct (link_tables va' j p H) as [G|(_ & _ & E)]; [exact (HP _ _ _ G) | rewrite E; exact Hnq].
Qed.
End Link.
