(* ===== verification/MmioMapSpec.v ===== *)
(** * The MMIO mapper against the architectural walk *)

From S2P Require Import Prelude MmioMap MmioMapWalk.
#[local] Open Scope sm_scope.

(** ** Bits of descriptors *)

Lemma testbit_div_pow2 x a n : 0 <= a -> 0 <= n -> Z.testbit (x / 2 ^ a) n = Z.testbit x (n + a).
Proof. intros. rewrite Z.div_pow2_bits by lia. f_equal. Qed.

Lemma testbit_mod_pow2 x b n : 0 <= b -> 0 <= n -> Z.testbit (x mod 2 ^ b) n = (n <? b) && Z.testbit x n.
Proof.
  intros. destruct (Z.ltb_spec n b); [apply Z.mod_pow2_bits_low | apply Z.mod_pow2_bits_high]; lia.
Qed.

Lemma testbit_shiftl_ones k a n : 0 <= k -> 0 <= a -> 0 <= n ->
  Z.testbit (Z.shiftl (Z.ones k) a) n = (a <=? n) && (n <? a + k).
Proof.
  intros. rewrite Z.shiftl_spec by lia. destruct (Z.leb_spec a n); cbn [andb].
  - rewrite Z.testbit_ones by lia. destruct (Z.leb_spec 0 (n - a)); [|lia]. cbn [andb].
    destruct (Z.ltb_spec (n - a) k), (Z.ltb_spec n (a + k)); lia || reflexivity.
  - apply Z.testbit_neg_r. lia.
Qed.

(** Masks, as fields. *)
Lemma field_mask x k a : 0 <= k -> 0 <= a ->
  Z.land x (Z.shiftl (Z.ones k) a) = Z.shiftl (x / 2 ^ a mod 2 ^ k) a.
Proof.
  intros Hk Ha. apply Z.bits_inj'. intros n Hn.
  rewrite Z.land_spec, testbit_shiftl_ones, Z.shiftl_spec by lia. destruct (Z.leb_spec a n); cbn [andb].
  - rewrite testbit_mod_pow2, testbit_div_pow2 by lia. rewrite Z.sub_add, andb_comm. f_equal.
    destruct (Z.ltb_spec n (a + k)), (Z.ltb_spec (n - a) k); lia || reflexivity.
  - rewrite andb_false_r. symmetry. apply Z.testbit_neg_r. lia.
Qed.

Lemma page_mask x : Z.land x 0x0000fffffffff000 = oa 12 x.
Proof.
  change 0x0000fffffffff000 with (Z.shiftl (Z.ones 36) 12). rewrite field_mask, Z.shiftl_mul_pow2 by lia.
  reflexivity.
Qed.

Lemma land_1 x : Z.land x 1 = x mod 2.
Proof. change 1 with (Z.ones 1). rewrite Z.land_ones by lia. reflexivity. Qed.

Lemma land_3 x : Z.land x 3 = x mod 4.
Proof. change 3 with (Z.ones 2). rewrite Z.land_ones by lia. reflexivity. Qed.

Lemma level_index_idx k va : level_index va (12 + 9 * Z.of_nat k) = idx k va.
Proof.
  unfold level_index, idx. change 0x1ff with (Z.ones 9).
  rewrite Z.land_ones, Z.shiftr_div_pow2 by lia. reflexivity.
Qed.

(** A table descriptor built by the mapper. *)
Lemma table_desc q : aligned q -> 0 <= q < 2 ^ 48 -> Z.lor q 3 mod 4 = 3 /\ oa 12 (Z.lor q 3) = q.
Proof.
  intros Ha Hq. assert (E : Z.lor q 3 = 3 + q).
  { rewrite Z.lor_comm. replace q with (Z.shiftl (q / 4096) 12).
    - rewrite lor_shiftl_add by lia. rewrite Z.shiftl_mul_pow2 by lia. lia.
    - rewrite Z.shiftl_mul_pow2 by lia. unfold aligned in Ha. change (2 ^ 12) with 4096.
      Z.div_mod_to_equations. lia. }
  rewrite E. unfold aligned, oa in *. change (2 ^ 12) with 4096. change (2 ^ (48 - 12)) with 68719476736.
  change (2 ^ 48) with 281474976710656 in *. split; [Z.div_mod_to_equations; lia|].
  replace ((3 + q) / 4096) with (q / 4096) by (Z.div_mod_to_equations; lia).
  rewrite Z.mod_small by (Z.div_mod_to_equations; lia). Z.div_mod_to_equations. lia.
Qed.

(** The sub-block of a split 1 GiB block. *)
Definition no_res0 (e : Z) : Prop := e / 2 ^ 21 mod 2 ^ 9 = 0.

Lemma split_bits e i n : is_u 64 e -> no_res0 e -> 0 <= i < 512 -> 0 <= n ->
  Z.testbit (mmio_split_l1_block e i) n =
  if n <? 2 then n =? 0
  else if (21 <=? n) && (n <? 30) then Z.testbit i (n - 21)
  else negb (n =? 52) && Z.testbit e n.
Proof.
  intros He Hr Hi Hn. unfold mmio_split_l1_block.
  change L1_OA with (Z.shiftl (Z.ones 18) 30).
  change (not64 _) with (Z.lor (Z.shiftl (Z.ones 28) 2) (Z.lor (Z.shiftl (Z.ones 4) 48) (Z.shiftl (Z.ones 11) 53))).
  rewrite field_mask by lia. set (c := e / 2 ^ 30 mod 2 ^ 18).
  assert (Hc : 0 <= c < 2 ^ 18) by (apply Z.mod_pos_bound; lia).
  assert (Esum : u64 (Z.shiftl c 30 + Z.shiftl i 21) = Z.lor (Z.shiftl i 21) (Z.shiftl c 30)).
  { rewrite lor_shiftl_add, !Z.shiftl_mul_pow2 by (rewrite ?Z.shiftl_mul_pow2 by lia; lia).
    rewrite u64_id by lia. lia. }
  rewrite Esum, !Z.lor_spec, Z.land_spec, !Z.lor_spec, !testbit_shiftl_ones, !Z.shiftl_spec by lia.
  assert (Er : 21 <= n < 30 -> Z.testbit e n = false).
  { intros Hj. rewrite <- (Z.sub_add 21 n), <- testbit_div_pow2 by lia.
    rewrite <- (Z.mod_pow2_bits_low _ 9) by lia. unfold no_res0 in Hr. rewrite Hr. apply Z.bits_0. }
  assert (Eh : 64 <= n -> Z.testbit e n = false) by (intros; apply (testbit_above 64); [exact He | lia]).
  assert (Ec : Z.testbit c (n - 30) = (30 <=? n) && (n <? 48) && Z.testbit e n).
  { destruct (Z.leb_spec 30 n); cbn [andb]; [|apply Z.testbit_neg_r; lia].
    unfold c. rewrite testbit_mod_pow2, testbit_div_pow2, Z.sub_add by lia. f_equal.
    destruct (Z.ltb_spec (n - 30) 18), (Z.ltb_spec n 48); lia || reflexivity. }
  assert (Ei : Z.testbit i (n - 21) = (21 <=? n) && (n <? 30) && Z.testbit i (n - 21)).
  { destruct (Z.leb_spec 21 n); cbn [andb]; [|apply Z.testbit_neg_r; lia].
    destruct (Z.ltb_spec n 30); cbn [andb]; [reflexivity|].
    apply (testbit_above 9); [split; [lia | change (2 ^ 9) with 512; lia] | lia]. }
  rewrite Ec. change (Z.testbit 1 n) with (Z.testbit (Z.ones 1) n). rewrite Z.testbit_ones by lia.
  destruct (Z.ltb_spec n 2) as [Hlt|Hge].
  { assert (En : n = 0 \/ n = 1) by lia. rewrite Ei.
    destruct En as [-> | ->]; cbn; rewrite ?andb_false_r; reflexivity. }
  replace ((0 <=? n) && (n <? 1)) with false by lia. rewrite orb_false_r.
  destruct (Z.leb_spec 21 n), (Z.ltb_spec n 30); cbn [andb] in *.
  - rewrite Er by lia. destruct (Z.leb_spec 30 n); [lia|]. cbn [andb]. rewrite orb_false_r. apply orb_false_r.
  - rewrite Ei. cbn [orb]. destruct (Z.leb_spec 30 n); [|lia]. cbn [andb].
    destruct (Z.eqb_spec n 52) as [->|]; [cbn; rewrite ?andb_false_r; reflexivity|]. cbn [negb andb].
    destruct (Z.testbit e n) eqn:Et; [|rewrite !andb_false_r; reflexivity]. rewrite !andb_true_r. cbn [andb].
    assert (n < 64) by (destruct (Z.lt_ge_cases n 64) as [|Hx]; [assumption | specialize (Eh Hx); congruence]). lia.
  - rewrite Ei. destruct (Z.leb_spec 30 n); [lia|]. cbn [andb orb].
    destruct (Z.eqb_spec n 52); [lia|]. cbn [negb andb].
    destruct (Z.testbit e n); [|reflexivity]. cbn [andb]. lia.
  - lia.
Qed.

Lemma bits_mod4 x : x mod 4 = Z.b2z (Z.testbit x 0) + 2 * Z.b2z (Z.testbit x 1).
Proof.
  rewrite Z.bit0_odd, Z.testbit_odd, Z.shiftr_div_pow2 by lia. change (2 ^ 1) with 2.
  pose proof (Zdiv.Zmod_odd x) as H1. pose proof (Zdiv.Zmod_odd (x / 2)) as H2.
  destruct (Z.odd x), (Z.odd (x / 2)); cbn [Z.b2z]; Z.div_mod_to_equations; lia.
Qed.

(** A 2 MiB piece of the split translates exactly as the 1 GiB block did. *)
Lemma split_leaf e va : is_u 64 e -> no_res0 e ->
  mmio_split_l1_block e (idx 1 va) mod 4 = 1 /\
  leaf_of 1 (mmio_split_l1_block e (idx 1 va)) va = leaf_of 2 e va.
Proof.
  intros He Hr. pose proof (idx_range 1 va) as Hi. set (i := idx 1 va) in *. set (x := mmio_split_l1_block e i).
  assert (B : forall n, 0 <= n -> Z.testbit x n = if n <? 2 then n =? 0 else
    if (21 <=? n) && (n <? 30) then Z.testbit i (n - 21) else negb (n =? 52) && Z.testbit e n)
    by (intros n Hn; apply split_bits; assumption).
  split; [rewrite bits_mod4, !B by lia; reflexivity|].
  unfold leaf_of. change (12 + 9 * Z.of_nat 1) with 21. change (12 + 9 * Z.of_nat 2) with 30. f_equal.
  - assert (Eo : oa 21 x = oa 30 e + i * 2 ^ 21).
    { unfold oa. change (48 - 21) with 27. change (48 - 30) with 18.
      assert (Ex : x / 2 ^ 21 mod 2 ^ 27 = Z.lor i (Z.shiftl (e / 2 ^ 30 mod 2 ^ 18) 9)).
      { apply Z.bits_inj'. intros n Hn. rewrite testbit_mod_pow2, testbit_div_pow2, B, Z.lor_spec, Z.shiftl_spec by lia.
        destruct (Z.ltb_spec (n + 21) 2), (Z.leb_spec 21 (n + 21)); try lia. cbn [andb]. rewrite Z.add_simpl_r.
        destruct (Z.ltb_spec (n + 21) 30).
        - rewrite (Z.testbit_neg_r _ (n - 9)), orb_false_r by lia. destruct (Z.ltb_spec n 27); [reflexivity | lia].
        - rewrite (testbit_above 9 i n) by (unfold is_u; lia). cbn [orb].
          rewrite testbit_mod_pow2, testbit_div_pow2 by lia. replace (n - 9 + 30) with (n + 21) by lia.
          destruct (Z.ltb_spec n 27), (Z.ltb_spec (n - 9) 18); try lia; cbn [andb]; try reflexivity.
          destruct (Z.eqb_spec (n + 21) 52); [lia | reflexivity]. }
      rewrite Ex, lor_shiftl_add by lia. change (2 ^ 30) with (2 ^ 9 * 2 ^ 21). lia. }
    rewrite Eo. unfold i, idx. change (12 + 9 * Z.of_nat 1) with 21.
    change (2 ^ 30) with (2 ^ 21 * 512). rewrite Z.rem_mul_r by lia. lia.
  - change 4 with (2 ^ 2). apply Z.bits_inj'. intros n Hn. rewrite !testbit_mod_pow2, !testbit_div_pow2, B by lia.
    destruct (Z.ltb_spec n 10); cbn [andb]; [|reflexivity].
    destruct (Z.ltb_spec (n + 2) 2), (Z.leb_spec 21 (n + 2)), (Z.eqb_spec (n + 2) 52); lia || reflexivity.
  - apply Z.bits_inj'. intros n Hn. rewrite !Z.land_spec, !testbit_div_pow2, B by lia.
    destruct (Z.ltb_spec (n + 48) 2), (Z.leb_spec 21 (n + 48)), (Z.ltb_spec (n + 48) 30); try lia. cbn [andb].
    destruct (Z.eqb_spec (n + 48) 52) as [E|]; cbn [negb andb]; [|reflexivity].
    replace n with 4 by lia. rewrite Z.lnot_spec by lia. change (Z.testbit 16 4) with true.
    cbn [negb]. rewrite andb_false_r. reflexivity.
Qed.

Lemma split_range e i : is_u 64 e -> no_res0 e -> 0 <= i < 512 -> is_u 64 (mmio_split_l1_block e i).
Proof.
  intros He Hr Hi. assert (0 <= mmio_split_l1_block e i).
  { unfold mmio_split_l1_block. unfold is_u in He. apply Z.lor_nonneg. split.
    - apply Z.lor_nonneg. split; [apply u64_range | lia].
    - apply Z.land_nonneg. left. lia. }
  apply is_u_of_bits; [lia | lia |]. intros n Hn. rewrite split_bits by (assumption || lia).
  destruct (Z.ltb_spec n 2), (Z.leb_spec 21 n), (Z.ltb_spec n 30); try lia. cbn [andb].
  rewrite (testbit_above 64 e) by (assumption || lia). apply andb_false_r.
Qed.

Lemma idx_of i : 0 <= i < 512 -> idx 1 (i * 2 ^ 21) = i.
Proof.
  intros Hi. unfold idx. change (12 + 9 * Z.of_nat 1) with 21. rewrite Z_div_mult by lia. apply Z.mod_small. lia.
Qed.

(** The device block descriptor, field by field. *)
Lemma device_desc_value phys attr : phys mod 2 ^ 21 = 0 -> 0 <= phys < 2 ^ 48 -> 0 <= attr < 8 ->
  device_desc phys attr = 1537 + 4 * attr + phys + 96 * 2 ^ 48.
Proof.
  intros Ha Hp Hattr. set (q := phys / 2 ^ 21).
  assert (Eq : phys = Z.shiftl q 21).
  { unfold q. rewrite Z.shiftl_mul_pow2 by lia. pose proof (Z.div_mod phys (2 ^ 21) ltac:(lia)). lia. }
  assert (E : device_desc phys attr = Z.lor (Z.lor (1537 + 4 * attr) phys) (Z.shiftl 96 48)).
  { assert (C : attr = 0 \/ attr = 1 \/ attr = 2 \/ attr = 3 \/ attr = 4 \/ attr = 5 \/ attr = 6 \/ attr = 7) by lia.
    unfold device_desc. rewrite (Z.lor_comm (1537 + 4 * attr) phys), <- !Z.lor_assoc.
    destruct C as [-> |[-> |[-> |[-> |[-> |[-> |[-> | ->]]]]]]]; reflexivity. }
  rewrite E. rewrite Eq at 1. rewrite (lor_shiftl_add (1537 + 4 * attr)) by lia.
  rewrite Z.shiftl_mul_pow2 in Eq by lia. rewrite <- Eq.
  rewrite lor_shiftl_add by lia. lia.
Qed.

Definition device_leaf (phys attr va : Z) : leaf := mk_leaf (phys + va mod 2 ^ 21) (attr + 384) 96.

Lemma device_desc_leaf phys attr va : phys mod 2 ^ 21 = 0 -> 0 <= phys < 2 ^ 48 -> 0 <= attr < 8 ->
  device_desc phys attr mod 4 = 1 /\ leaf_of 1 (device_desc phys attr) va = device_leaf phys attr va.
Proof.
  intros Ha Hp Hattr. rewrite device_desc_value by assumption.
  pose proof (Z.div_mod phys (2 ^ 21) ltac:(lia)) as Hq. rewrite Ha, Z.add_0_r in Hq.
  set (q := phys / 2 ^ 21) in *. rewrite Hq. assert (Hqr : 0 <= q < 2 ^ 27) by lia.
  split; [Z.div_mod_to_equations; lia|].
  unfold leaf_of, device_leaf, oa. change (12 + 9 * Z.of_nat 1) with 21. change (48 - 21) with 27. f_equal.
  - assert (E : (1537 + 4 * attr + 2 ^ 21 * q + 96 * 2 ^ 48) / 2 ^ 21 = q + 96 * 2 ^ 27).
    { symmetry. apply (Z.div_unique_pos _ _ _ (1537 + 4 * attr)); lia. }
    rewrite E, Z_mod_plus_full, Z.mod_small by lia. lia.
  - assert (E : (1537 + 4 * attr + 2 ^ 21 * q + 96 * 2 ^ 48) / 4 = attr + 384 + (2 ^ 9 * q + 96 * 2 ^ 36) * 2 ^ 10).
    { symmetry. apply (Z.div_unique_pos _ _ _ 1); lia. }
    rewrite E, Z_mod_plus_full, Z.mod_small by lia. reflexivity.
  - assert (E : (1537 + 4 * attr + 2 ^ 21 * q + 96 * 2 ^ 48) / 2 ^ 48 = 96).
    { symmetry. apply (Z.div_unique_pos _ _ _ (1537 + 4 * attr + 2 ^ 21 * q)); lia. }
    rewrite E. reflexivity.
Qed.

(** ** Memory through the direct map *)

Lemma v2p_virt hhdm p : is_u 64 p -> pt_v2p hhdm (u64 (hhdm + p)) = p.
Proof.
  intros Hp. unfold pt_v2p, u64, wrap. rewrite Zminus_mod_idemp_l.
  replace (hhdm + p - hhdm) with p by lia. apply Z.mod_small. exact Hp.
Qed.

Lemma pt_fill_spec n hhdm p f m a : (n <= 512)%nat ->
  let q := pt_v2p hhdm p in
  pt_fill n hhdm p f m a =
  if (q <=? a) && (a <? q + 8 * Z.of_nat n) && ((a - q) mod 8 =? 0) then f ((a - q) / 8) else m a.
Proof.
  intros Hn q. induction n as [|n IH]; cbn [pt_fill].
  - destruct (Z.leb_spec q a), (Z.ltb_spec a (q + 8 * Z.of_nat 0)); try lia; reflexivity.
  - unfold word_upd, pt_addr. fold q. destruct (Z.eqb_spec a (q + 8 * Z.of_nat n)) as [->|Hne].
    + replace (q + 8 * Z.of_nat n - q) with (Z.of_nat n * 8) by lia.
      rewrite Z_mod_mult, Z_div_mult by lia.
      destruct (Z.leb_spec q (q + 8 * Z.of_nat n)), (Z.ltb_spec (q + 8 * Z.of_nat n) (q + 8 * Z.of_nat (S n)));
        try lia; reflexivity.
    + rewrite IH by lia. destruct (Z.leb_spec q a), (Z.eqb_spec ((a - q) mod 8) 0) as [E|]; cbn [andb];
        rewrite ?andb_false_r; try reflexivity. rewrite !andb_true_r.
      destruct (Z.ltb_spec a (q + 8 * Z.of_nat n)), (Z.ltb_spec a (q + 8 * Z.of_nat (S n))); try reflexivity; exfalso.
      * lia.
      * clear IH. Z.div_mod_to_equations. lia.
Qed.

(** ** The mapper's steps *)

Section Steps.
Context (hhdm root va P : Z).
Hypothesis Hroot : aligned root.
Hypothesis HP : P <> 0 -> aligned P /\ 0 < P /\ P + 32768 <= 2 ^ 48.

(** What every step keeps: the walk to [va] uses tables of its own, and the unused pool pages
    are on no walk. *)
Record pinv (s : pt_state) : Prop := {
  pi_words : forall a, is_u 64 (pt_mem s a);
  pi_private : private (pt_mem s) root va;
  pi_pool : g_pt_pool_phys s = P;
  pi_used : 0 <= g_pt_pool_used s <= 8;
  pi_free : P <> 0 -> unused (pt_mem s) root (fun p => P + 4096 * g_pt_pool_used s <= p < P + 32768) }.

Definition same_walks (s s' : pt_state) : Prop :=
  forall va', walk (pt_mem s') 3 root va' = walk (pt_mem s) 3 root va'.

Lemma same_walks_trans s1 s2 s3 : same_walks s1 s2 -> same_walks s2 s3 -> same_walks s1 s3.
Proof. intros H1 H2 va'. rewrite H2. apply H1. Qed.

(** A page from the pool: zeroed, and on no walk. *)
Record fresh_page (s s' : pt_state) (q : Z) : Prop := {
  fp_align : aligned q;
  fp_range : 0 <= q < 2 ^ 48;
  fp_inv : pinv s';
  fp_unused : unused (pt_mem s') root (eq q);
  fp_taken : q < P + 4096 * g_pt_pool_used s' /\ P <> 0;
  fp_zero : forall i, 0 <= i < 512 -> pt_mem s' (q + 8 * i) = 0;
  fp_frame : forall va', walk (pt_mem s') 3 root va' = walk (pt_mem s) 3 root va' /\
                         tables (pt_mem s') 3 root va' = tables (pt_mem s) 3 root va';
  fp_mem : forall a, ~ (q <= a < q + 4096) -> pt_mem s' a = pt_mem s a;
  fp_trace : pt_trace s' = pt_trace s }.

(** Filling a page that is on no walk. *)
Lemma fill_inv s s' q f :
  pinv s -> aligned q -> 0 <= q < 2 ^ 48 -> unused (pt_mem s) root (eq q) ->
  (forall i, 0 <= i < 512 -> is_u 64 (f i)) ->
  pt_mem s' = pt_fill 512 hhdm (u64 (hhdm + q)) f (pt_mem s) ->
  (forall a, is_u 64 (pt_mem s' a)) /\
  (forall i, 0 <= i < 512 -> pt_mem s' (q + 8 * i) = f i) /\
  (forall a, ~ (q <= a < q + 4096) -> pt_mem s' a = pt_mem s a) /\
  (forall va', walk (pt_mem s') 3 root va' = walk (pt_mem s) 3 root va' /\
               tables (pt_mem s') 3 root va' = tables (pt_mem s) 3 root va').
Proof using Hroot.
  intros I Hq Hr Hu Hf E.
  assert (Ef : forall a, pt_mem s' a =
    if (q <=? a) && (a <? q + 4096) && ((a - q) mod 8 =? 0) then f ((a - q) / 8) else pt_mem s a).
  { intros a. rewrite E, pt_fill_spec by lia. rewrite v2p_virt by (unfold is_u; lia). reflexivity. }
  assert (Hframe : forall a, ~ (q <= a < q + 4096) -> pt_mem s' a = pt_mem s a).
  { intros a Ha. rewrite Ef. destruct (Z.leb_spec q a), (Z.ltb_spec a (q + 4096)); try lia; reflexivity. }
  split; [|split; [|split; [exact Hframe|]]].
  - intros a. rewrite Ef. destruct (Z.leb_spec q a), (Z.ltb_spec a (q + 4096)); cbn [andb]; try apply (pi_words _ I).
    destruct (_ =? 0); [|apply (pi_words _ I)]. apply Hf.
    split; [apply Z.div_pos; lia | apply Z.div_lt_upper_bound; lia].
  - intros i Hi. rewrite Ef. replace (q + 8 * i - q) with (i * 8) by lia. rewrite Z_mod_mult, Z_div_mult by lia.
    destruct (Z.leb_spec q (q + 8 * i)), (Z.ltb_spec (q + 8 * i) (q + 4096)); try lia; reflexivity.
  - apply fill_page with (q := q); auto.
Qed.

Lemma alloc_spec s : pinv s ->
  pt_alloc hhdm s = Some (None, s) \/
  exists q s', pt_alloc hhdm s = Some (Some (u64 (hhdm + q)), s') /\ fresh_page s s' q.
Proof using Hroot HP.
  intros I. unfold pt_alloc. destruct (_ || _) eqn:Hg; [left; reflexivity|]. right.
  rewrite (pi_pool _ I) in *. unfold MMIO_PT_POOL_PAGES in Hg.
  assert (Hu : 0 <= g_pt_pool_used s < 8) by (pose proof (pi_used _ I); lia).
  assert (HP0 : P <> 0) by lia. destruct (HP HP0) as (HPa & HPp & HPr).
  set (q := P + 4096 * g_pt_pool_used s).
  replace (u64 (P + g_pt_pool_used s * 4096)) with q by (rewrite u64_id; unfold q; lia).
  assert (Hq : aligned q) by (unfold aligned, q in *; Z.div_mod_to_equations; lia).
  assert (Hr : 0 <= q < 2 ^ 48) by (unfold q; lia).
  assert (Hfree : unused (pt_mem s) root (eq q)).
  { intros va' j p Hp <-. apply (pi_free _ I HP0 va' j q Hp). unfold q. lia. }
  eexists q, _. split; [reflexivity|].
  match goal with |- fresh_page _ ?x _ => set (s' := x) end.
  destruct (fill_inv s s' q (fun _ => 0) I Hq Hr Hfree) as (F1 & F2 & F3 & F4); [unfold is_u; lia | reflexivity|].
  assert (Hpriv : private (pt_mem s') root va).
  { intros va' j j' p. rewrite !(proj2 (F4 _)). apply (pi_private _ I). }
  assert (Hun : forall Q, unused (pt_mem s) root Q -> unused (pt_mem s') root Q).
  { intros Q HQ va' j p. rewrite (proj2 (F4 _)). apply HQ. }
  split; auto.
  - split; auto; cbn [s' set_mem set_pool g_pt_pool_used g_pt_pool_phys]; try lia.
    intros _ va' j p Hp Hin. rewrite (proj2 (F4 _)) in Hp. apply (pi_free _ I HP0 va' j p Hp). lia.
  - cbn. unfold q. lia.
Qed.

(** Storing a table descriptor for such a page. *)
Lemma link_spec s s' k t q :
  pinv s -> In (S k, t) (tables (pt_mem s) 3 root va) -> aligned q -> 0 <= q < 2 ^ 48 ->
  unused (pt_mem s) root (eq q) -> q < P + 4096 * g_pt_pool_used s ->
  (forall i, 0 <= i < 512 -> pt_mem s (q + 8 * i) mod 4 <> 3) ->
  entry (pt_mem s) (S k) t va mod 4 <> 3 ->
  (forall va', idx (S k) va' = idx (S k) va ->
     walk (pt_mem s) k q va' = resolve (fun _ => None) (S k) (entry (pt_mem s) (S k) t va) va') ->
  (forall a, pt_mem s' a = if a =? t + 8 * idx (S k) va then Z.lor q 3 else pt_mem s a) ->
  g_pt_pool_phys s' = g_pt_pool_phys s -> g_pt_pool_used s' = g_pt_pool_used s ->
  pinv s' /\ same_walks s s' /\ In (k, q) (tables (pt_mem s') 3 root va).
Proof using Hroot.
  intros I Hin Hq Hr Hu Htaken Hflat Hold Hsame Hm Ep Eu.
  pose proof (table_desc q Hq Hr) as Hv. unfold entry in Hold, Hsame.
  split; [|split].
  - split.
    + intros a. rewrite Hm. destruct (_ =? _); [|apply (pi_words _ I)].
      assert (0 <= Z.lor q 3) by (apply Z.lor_nonneg; lia). apply is_u_of_bits; [lia | lia |].
      intros i Hi. rewrite Z.lor_spec, (testbit_above 48 q) by (unfold is_u; lia).
      rewrite (testbit_above 2 3) by (unfold is_u; lia). reflexivity.
    + apply (link_private (pt_mem s) (pt_mem s') root va k t q (Z.lor q 3)); auto. apply (pi_private _ I).
    + rewrite Ep. apply (pi_pool _ I).
    + rewrite Eu. apply (pi_used _ I).
    + intros HP0. rewrite Eu.
      apply (link_unused (pt_mem s) (pt_mem s') root va k t q (Z.lor q 3)); auto; [apply (pi_private _ I) | apply (pi_free _ I HP0) | lia].
  - intros va'. apply (link_translations (pt_mem s) (pt_mem s') root va k t q (Z.lor q 3)); auto. apply (pi_private _ I).
  - apply (link_reaches (pt_mem s) (pt_mem s') root va k t q (Z.lor q 3)); auto. apply (pi_private _ I).
Qed.
(** *** Runs *)

Lemma oa_range e : 0 <= oa 12 e < 2 ^ 48.
Proof.
  unfold oa. change (48 - 12) with 36.
  assert (0 <= e / 2 ^ 12 mod 2 ^ 36 < 2 ^ 36) by (apply Z.mod_pos_bound; lia). lia.
Qed.

Lemma phys_to_virt_table e p : pt_phys_to_virt hhdm e = Some p -> p = u64 (hhdm + oa 12 e).
Proof.
  unfold pt_phys_to_virt. destruct (negb _); [discriminate|]. rewrite page_mask.
  destruct (_ || _); [discriminate|]. intros [= <-]. reflexivity.
Qed.

Lemma pt_get_run p i s : is_u 64 p -> pt_get hhdm (u64 (hhdm + p)) i s = Some (pt_mem s (p + 8 * i), s).
Proof. intros Hp. unfold pt_get, pt_addr, gets. rewrite v2p_virt by exact Hp. reflexivity. Qed.

(** The state after a descriptor store. *)
Definition stored (s : pt_state) (a v : Z) : pt_state :=
  mk_pt (word_upd (pt_mem s) a v) (g_pt_pool_phys s) (g_pt_pool_used s) (g_pt_l1_splits s) (g_pt_l2_remaps s)
    (pt_trace s ++ [Store a (pt_mem s a) v]).

Lemma pt_put_run p i v s : is_u 64 p ->
  pt_put hhdm (u64 (hhdm + p)) i v s = Some (tt, stored s (p + 8 * i) v).
Proof.
  intros Hp. unfold pt_put, pt_get, pt_addr, emit, bind, gets, modify. rewrite v2p_virt by exact Hp. reflexivity.
Qed.

Definition traced (s : pt_state) (e : event) : pt_state :=
  mk_pt (pt_mem s) (g_pt_pool_phys s) (g_pt_pool_used s) (g_pt_l1_splits s) (g_pt_l2_remaps s) (pt_trace s ++ [e]).

Lemma emit_run e s : emit e s = Some (tt, traced s e).
Proof. reflexivity. Qed.

Lemma tables_next m k t : In (S k, t) (tables m 3 root va) -> entry m (S k) t va mod 4 = 3 ->
  In (k, oa 12 (entry m (S k) t va)) (tables m 3 root va).
Proof.
  intros Hin E. eapply tables_at; [exact Hin|]. cbn [tables]. rewrite E. change (3 =? 3) with true. cbv iota.
  right. apply tables_self.
Qed.

(** The next table, by following a table descriptor or by linking a zeroed page. *)
Definition next_ok (k : nat) (s s' : pt_state) (r : Z + Z) : Prop :=
  pinv s' /\ same_walks s s' /\
  match r with
  | inl code => code <> 0
  | inr p => exists q, p = u64 (hhdm + q) /\ 0 <= q < 2 ^ 48 /\ In (k, q) (tables (pt_mem s') 3 root va)
  end.

Lemma next_stay k s r : pinv s ->
  match r with
  | inl code => code <> 0
  | inr p => exists q, p = u64 (hhdm + q) /\ 0 <= q < 2 ^ 48 /\ In (k, q) (tables (pt_mem s) 3 root va)
  end -> next_ok k s s r.
Proof. intros I H. split; [exact I|]. split; [intros ?; reflexivity | exact H]. Qed.

Lemma next_follow k s t code : pinv s -> In (S k, t) (tables (pt_mem s) 3 root va) ->
  entry (pt_mem s) (S k) t va mod 4 = 3 -> code <> 0 ->
  next_ok k s s (match pt_phys_to_virt hhdm (entry (pt_mem s) (S k) t va) with None => inl code | Some l => inr l end).
Proof.
  intros I Hin E Hc. apply next_stay; [exact I|].
  destruct (pt_phys_to_virt _ _) as [p|] eqn:Ep; [|exact Hc].
  eexists. split; [apply phys_to_virt_table; exact Ep|]. split; [apply oa_range | apply tables_next; assumption].
Qed.

(** Linking a zeroed page below an invalid entry. *)
Lemma next_link k s t code : pinv s -> In (S k, t) (tables (pt_mem s) 3 root va) -> 0 <= t < 2 ^ 48 ->
  entry (pt_mem s) (S k) t va mod 2 = 0 -> code <> 0 ->
  exists r s', (let! l := pt_alloc hhdm in
     match l with
     | None => ret (inl code)
     | Some l => pt_put hhdm (u64 (hhdm + t)) (idx (S k) va) (Z.lor (pt_v2p hhdm l) 0x3) ;; emit Dsb ;; ret (inr l)
     end) s = Some (r, s') /\ next_ok k s s' r /\
    (forall p, r = inr p -> exists q, p = u64 (hhdm + q) /\ 0 <= q < 2 ^ 48 /\ forall i, 0 <= i < 512 -> pt_mem s' (q + 8 * i) = 0).
Proof using Hroot HP.
  intros I Hin Ht E Hc. destruct (alloc_spec s I) as [Ea|(q & s1 & Ea & F)]; rewrite (bind_some _ _ _ _ _ Ea).
  { exists (inl code), s. split; [reflexivity|]. split; [apply next_stay; assumption | discriminate]. }
  destruct F as [F1 F2 F3 F4 [F5 _] F6 F7 F8 _].
  rewrite v2p_virt by (unfold is_u; lia).
  rewrite (bind_some _ _ _ _ _ (pt_put_run t (idx (S k) va) (Z.lor q 3) s1 ltac:(unfold is_u; lia))).
  rewrite (bind_some _ _ _ _ _ (emit_run Dsb _)).
  eexists _, _. split; [reflexivity|].
  match goal with |- next_ok _ _ ?x _ /\ _ => set (s' := x) end.
  assert (Hin1 : In (S k, t) (tables (pt_mem s1) 3 root va)) by (rewrite (proj2 (F7 va)); exact Hin).
  destruct (tables_aligned _ _ _ _ _ _ Hroot Hin) as [Hta _].
  assert (Hne : q <> t) by (intros ->; exact (F4 va _ _ Hin1 eq_refl)).
  assert (Ee : entry (pt_mem s1) (S k) t va = entry (pt_mem s) (S k) t va).
  { unfold entry. apply F8. pose proof (idx_range (S k) va). unfold aligned in *. Z.div_mod_to_equations. lia. }
  destruct (link_spec s1 s' k t q F3 Hin1 F1 F2 F4 F5) as (G1 & G2 & G3); try reflexivity.
  - intros i Hi. rewrite F6 by exact Hi. discriminate.
  - rewrite Ee. Z.div_mod_to_equations. lia.
  - intros va' _. assert (Ez : walk (pt_mem s1) k q va' = None).
    { destruct k; cbn [walk]; unfold entry; rewrite F6 by apply idx_range; reflexivity. }
    rewrite Ez, Ee. unfold resolve. rewrite E. reflexivity.
  - split.
    + split; [exact G1|]. split; [|exists q; auto].
      intros va'. rewrite (G2 va'). apply F7.
    + intros p [= <-]. exists q. split; [reflexivity|]. split; [exact F2|]. intros i Hi. cbn [s' traced stored pt_mem].
      unfold word_upd. destruct (Z.eqb_spec (q + 8 * i) (t + 8 * idx (S k) va)) as [Eq|]; [|apply F6; exact Hi].
      destruct (page_entries q t i _ F1 Hta Hi (idx_range _ _) Eq). contradiction.
Qed.

Lemma level0_spec s : pinv s -> 0 <= root < 2 ^ 48 ->
  exists r s', map_level0 hhdm (u64 (hhdm + root)) (idx 3 va) s = Some (r, s') /\ next_ok 2 s s' r /\
    (forall p, r = inr p -> pt_mem s' = pt_mem s \/
       exists q, p = u64 (hhdm + q) /\ 0 <= q < 2 ^ 48 /\ forall i, 0 <= i < 512 -> pt_mem s' (q + 8 * i) = 0).
Proof using Hroot HP.
  intros I Hr. unfold map_level0. rewrite (bind_some _ _ _ _ _ (pt_get_run root (idx 3 va) s ltac:(unfold is_u; lia))).
  pose proof (tables_self (pt_mem s) 3 root va) as Hin. change (pt_mem s (root + 8 * idx 3 va)) with (entry (pt_mem s) 3 root va).
  rewrite land_1, land_3. destruct (Z.eqb_spec (entry (pt_mem s) 3 root va mod 2) 0) as [E|E].
  - destruct (next_link 2 s root (-1) I Hin Hr E ltac:(discriminate)) as (r & s' & Er & H1 & H2).
    exists r, s'. split; [exact Er|]. split; [exact H1|]. intros p Hp. right. exact (H2 p Hp).
  - destruct (Z.eqb_spec (entry (pt_mem s) 3 root va mod 4) 3) as [E4|E4].
    + eexists _, s. split; [reflexivity|]. split; [apply (next_follow 2); (assumption || discriminate) | left; reflexivity].
    + eexists _, s. split; [reflexivity|]. split; [apply next_stay; [exact I | discriminate] | discriminate].
Qed.
(** Splitting a live 1 GiB block. *)
Lemma next_split s t : pinv s -> In (2%nat, t) (tables (pt_mem s) 3 root va) -> 0 <= t < 2 ^ 48 ->
  let e1 := entry (pt_mem s) 2 t va in
  e1 mod 4 = 1 -> no_res0 e1 ->
  exists r s', (let! l2 := pt_alloc hhdm in
    match l2 with
    | None => ret (inl (-2))
    | Some l2 =>
        modify (fun s => set_mem (pt_fill 512 hhdm l2 (mmio_split_l1_block e1) (pt_mem s)) s) ;;
        modify count_split ;;
        pt_put hhdm (u64 (hhdm + t)) (idx 2 va) 0 ;; emit Dsb ;; emit Tlbi_all ;; emit Dsb ;;
        pt_put hhdm (u64 (hhdm + t)) (idx 2 va) (Z.lor (pt_v2p hhdm l2) 0x3) ;; emit Dsb ;; emit Tlbi_all ;; emit Dsb ;;
        ret (inr l2)
    end) s = Some (r, s') /\ next_ok 1 s s' r.
Proof using Hroot HP.
  intros I Hin Ht e1 E Hres. destruct (alloc_spec s I) as [Ea|(q & s1 & Ea & F)]; rewrite (bind_some _ _ _ _ _ Ea).
  { exists (inl (-2)), s. split; [reflexivity|]. apply next_stay; [exact I | discriminate]. }
  destruct F as [F1 F2 F3 F4 [F5 _] F6 F7 F8 _].
  rewrite v2p_virt by (unfold is_u; lia).
  set (s2 := count_split (set_mem (pt_fill 512 hhdm (u64 (hhdm + q)) (mmio_split_l1_block e1) (pt_mem s1)) s1)).
  assert (Hs2 : forall B (k : PT B), (modify (fun s => set_mem (pt_fill 512 hhdm (u64 (hhdm + q)) (mmio_split_l1_block e1) (pt_mem s)) s) ;;
    modify count_split ;; k) s1 = k s2) by reflexivity.
  rewrite Hs2. pose proof (pt_put_run t (idx 2 va)) as Hput. specialize (fun v s => Hput v s ltac:(unfold is_u; lia)).
  rewrite (bind_some _ _ _ _ _ (Hput _ _)). do 3 rewrite (bind_some _ _ _ _ _ (emit_run _ _)).
  rewrite (bind_some _ _ _ _ _ (Hput _ _)). do 3 rewrite (bind_some _ _ _ _ _ (emit_run _ _)).
  eexists _, _. split; [reflexivity|].
  match goal with |- next_ok _ _ ?x _ => set (s' := x) end.
  assert (He1 : is_u 64 e1) by apply (pi_words _ I).
  assert (Hsu : forall i, 0 <= i < 512 -> is_u 64 (mmio_split_l1_block e1 i)).
  { intros i Hi. apply split_range; assumption. }
  destruct (fill_inv s1 s2 q (mmio_split_l1_block e1) F3 F1 F2 F4 Hsu eq_refl) as (G1 & G2 & G3 & G4).
  destruct (tables_aligned _ _ _ _ _ _ Hroot Hin) as [Hta _].
  assert (Hin1 : In (2%nat, t) (tables (pt_mem s1) 3 root va)) by (rewrite (proj2 (F7 va)); exact Hin).
  assert (Hin2 : In (2%nat, t) (tables (pt_mem s2) 3 root va)) by (rewrite (proj2 (G4 va)); exact Hin1).
  assert (Hne : q <> t) by (intros ->; exact (F4 va _ _ Hin1 eq_refl)).
  assert (Ee : entry (pt_mem s2) 2 t va = e1).
  { assert (Hout : ~ q <= t + 8 * idx 2 va < q + 4096).
    { pose proof (idx_range 2 va). unfold aligned in *. Z.div_mod_to_equations. lia. }
    unfold e1, entry. rewrite G3, F8 by exact Hout. reflexivity. }
  assert (I2 : pinv s2).
  { destruct F3 as [P1 P2 P3 P4 P5]. split; auto.
    - intros va' j j' p. rewrite !(proj2 (G4 _)). apply P2.
    - intros HP0 va' j p. rewrite (proj2 (G4 _)). apply (P5 HP0). }
  assert (Hu2 : unused (pt_mem s2) root (eq q)) by (intros va' j p; rewrite (proj2 (G4 _)); apply F4).
  destruct (link_spec s2 s' 1 t q I2 Hin2 F1 F2 Hu2 F5) as (L1 & L2 & L3); [ | | | | reflexivity | reflexivity |].
  - intros i Hi. rewrite G2 by exact Hi. rewrite <- (idx_of i Hi). destruct (split_leaf e1 (i * 2 ^ 21) He1 Hres) as [-> _]. lia.
  - rewrite Ee, E. discriminate.
  - intros va' Hidx. rewrite Ee. destruct (split_leaf e1 va' He1 Hres) as [S1 S2].
    change (walk (pt_mem s2) 1 q va') with
      (resolve (fun t => walk (pt_mem s2) 0 t va') 1 (pt_mem s2 (q + 8 * idx 1 va')) va').
    rewrite G2 by apply idx_range. unfold resolve. rewrite S1, S2, E.
    destruct (Z.eqb_spec (mmio_split_l1_block e1 (idx 1 va') mod 2) 0); [Z.div_mod_to_equations; lia|].
    destruct (Z.eqb_spec (e1 mod 2) 0); [Z.div_mod_to_equations; lia|]. reflexivity.
  - intros a. cbn [s' traced stored pt_mem]. unfold word_upd. destruct (a =? _); reflexivity.
  - split; [exact L1|]. split; [|exists q; auto].
    intros va'. rewrite (L2 va'), (proj1 (G4 va')). apply F7.
Qed.

Lemma level1_spec s t : pinv s -> In (2%nat, t) (tables (pt_mem s) 3 root va) -> 0 <= t < 2 ^ 48 ->
  (entry (pt_mem s) 2 t va mod 4 = 1 -> no_res0 (entry (pt_mem s) 2 t va)) ->
  exists r s', map_level1 hhdm (u64 (hhdm + t)) (idx 2 va) s = Some (r, s') /\ next_ok 1 s s' r.
Proof using Hroot HP.
  intros I Hin Ht Hres. unfold map_level1.
  rewrite (bind_some _ _ _ _ _ (pt_get_run t (idx 2 va) s ltac:(unfold is_u; lia))).
  change (pt_mem s (t + 8 * idx 2 va)) with (entry (pt_mem s) 2 t va).
  set (e1 := entry (pt_mem s) 2 t va) in *. rewrite land_1, land_3.
  destruct (Z.eqb_spec (e1 mod 2) 0) as [E|E].
  - destruct (next_link 1 s t (-2) I Hin Ht E ltac:(discriminate)) as (r & s' & Er & H1 & _). eauto.
  - destruct (Z.eqb_spec (e1 mod 4) 1) as [E4|E4].
    + apply (next_split s t I Hin Ht E4 (Hres E4)).
    + assert (E3 : e1 mod 4 = 3) by (Z.div_mod_to_equations; lia).
      eexists _, s. split; [reflexivity|]. apply (next_follow 1); (assumption || discriminate).
Qed.

(** The block itself. *)
Lemma level2_spec s t desc : pinv s -> In (1%nat, t) (tables (pt_mem s) 3 root va) -> 0 <= t < 2 ^ 48 -> desc mod 4 = 1 ->
  exists code s', map_level2 hhdm (u64 (hhdm + t)) (idx 1 va) va desc s = Some (code, s') /\
    (code <> 0 -> same_walks s s') /\
    (code = 0 -> forall va', walk (pt_mem s') 3 root va' =
       if below_dec 1 va va' then Some (leaf_of 1 desc va') else walk (pt_mem s) 3 root va').
Proof using Hroot.
  intros I Hin Ht Hd. unfold map_level2.
  rewrite (bind_some _ _ _ _ _ (pt_get_run t (idx 1 va) s ltac:(unfold is_u; lia))).
  set (old := pt_mem s (t + 8 * idx 1 va)). rewrite land_1, land_3.
  destruct (Z.eqb_spec (old mod 4) 3) as [E4|E4].
  { exists (-4), s. split; [reflexivity|]. split; [intros _ ?; reflexivity | discriminate]. }
  pose proof (pi_private _ I) as Hpr.
  assert (Hleaf : forall m' v, (forall a, m' a = if a =? t + 8 * idx 1 va then v else pt_mem s a) -> v mod 4 = 1 ->
    forall va', walk m' 3 root va' = if below_dec 1 va va' then Some (leaf_of 1 v va') else walk (pt_mem s) 3 root va').
  { intros m' v Hm Hv va'. destruct (below_dec 1 va va') as [Hb|Hb].
    - destruct (edit_below (pt_mem s) m' root va 1 t v Hroot Hpr Hin Hm va' Hb) as (W & Ev & _).
      rewrite W. cbn [walk]. rewrite Ev. unfold resolve. rewrite Hv.
      destruct (Z.eqb_spec (v mod 2) 0); [Z.div_mod_to_equations; lia | reflexivity].
    - apply (edit_elsewhere (pt_mem s) m' root va 1 t v Hroot Hpr Hin Hm va' Hb). }
  destruct (Z.eqb_spec old desc) as [Eo|Eo].
  { exists 0, s. split; [reflexivity|]. split; [congruence|]. intros _. apply Hleaf; [|exact Hd].
    intros a. destruct (Z.eqb_spec a (t + 8 * idx 1 va)) as [->|]; [exact Eo | reflexivity]. }
  pose proof (pt_put_run t (idx 1 va)) as Hput. specialize (fun v s => Hput v s ltac:(unfold is_u; lia)).
  destruct (negb (old mod 2 =? 0)).
  - rewrite (bind_some (bind (pt_put hhdm (u64 (hhdm + t)) (idx 1 va) 0) _) _ s tt
      (count_remap (traced (traced (traced (stored s (t + 8 * idx 1 va) 0) Dsb) (Tlbi_va (Z.shiftr va 12))) Dsb)))
      by (rewrite (bind_some _ _ _ _ _ (Hput _ _)); reflexivity).
    rewrite (bind_some _ _ _ _ _ (Hput _ _)). do 3 rewrite (bind_some _ _ _ _ _ (emit_run _ _)).
    eexists 0, _. split; [reflexivity|]. split; [congruence|]. intros _. apply Hleaf; [|exact Hd].
    intros a. cbn [traced stored count_remap pt_mem]. unfold word_upd. destruct (a =? _); reflexivity.
  - rewrite (bind_some (ret tt) _ s tt s eq_refl), (bind_some _ _ _ _ _ (Hput _ _)).
    do 3 rewrite (bind_some _ _ _ _ _ (emit_run _ _)).
    eexists 0, _. split; [reflexivity|]. split; [congruence|]. intros _. apply Hleaf; [|exact Hd].
    intros a. reflexivity.
Qed.
End Steps.
