(* ===== verification/MmioMapThms.v ===== *)
(** * Properties of the MMIO mapper *)

From S2P Require Import Prelude MmioMap MmioMapWalk MmioMapSpec.
#[local] Open Scope sm_scope.

(** The 2 MiB window of [va], modulo the 48 translated bits. *)
Definition window (va : Z) : Z := va / 2 ^ 21 mod 2 ^ 27.

Lemma window_idx va : window va = idx 1 va + 512 * idx 2 va + 512 * 512 * idx 3 va.
Proof.
  unfold window, idx. change (12 + 9 * Z.of_nat 1) with 21. change (12 + 9 * Z.of_nat 2) with (21 + 9).
  change (12 + 9 * Z.of_nat 3) with (21 + 9 + 9). rewrite !Z.pow_add_r, <- !Z.div_div by lia.
  change (2 ^ 9) with 512. change (2 ^ 27) with (512 * (512 * 512)). rewrite !Z.rem_mul_r by lia. lia.
Qed.

Lemma below_window va va' : below va 1 va' <-> window va' = window va.
Proof.
  rewrite !window_idx. pose proof (idx_range 1 va). pose proof (idx_range 2 va). pose proof (idx_range 3 va).
  pose proof (idx_range 1 va'). pose proof (idx_range 2 va'). pose proof (idx_range 3 va').
  unfold below, agree_above. split.
  - intros [Ha ->]. rewrite (Ha 2%nat), (Ha 3%nat) by lia. reflexivity.
  - intros E. assert (idx 1 va' = idx 1 va /\ idx 2 va' = idx 2 va /\ idx 3 va' = idx 3 va) as (E1 & E2 & E3) by lia.
    split; [|exact E1]. intros j Hj. assert (j = 2%nat \/ j = 3%nat) as [-> | ->] by lia; congruence.
Qed.

(** What the mapper relies on: 64-bit words, a page-aligned pool below the 48-bit limit whose
    unused pages no walk goes through, a walk to [va] through tables of its own, and a 1 GiB block
    on it, if any, with its reserved address bits clear. *)
Record mappable (s : pt_state) (root va : Z) : Prop := {
  mp_words : forall a, is_u 64 (pt_mem s a);
  mp_private : private (pt_mem s) root va;
  mp_pool : g_pt_pool_phys s <> 0 ->
    aligned (g_pt_pool_phys s) /\ 0 < g_pt_pool_phys s /\ g_pt_pool_phys s + 32768 <= 2 ^ 48;
  mp_used : 0 <= g_pt_pool_used s <= 8;
  mp_free : g_pt_pool_phys s <> 0 -> unused (pt_mem s) root (fun p =>
    g_pt_pool_phys s + 4096 * g_pt_pool_used s <= p < g_pt_pool_phys s + 32768);
  mp_res0 : forall t, In (2%nat, t) (tables (pt_mem s) 3 root va) ->
    entry (pt_mem s) 2 t va mod 4 = 1 -> no_res0 (entry (pt_mem s) 2 t va) }.

Definition same_translations (s s' : pt_state) (root : Z) : Prop :=
  forall va, translate (pt_mem s') root va = translate (pt_mem s) root va.

Lemma mair_slot_spec n : forall mair i want r, mair_slot n mair i want = Some r ->
  i <= r < i + Z.of_nat n /\ Z.land (Z.shiftr mair (8 * r)) 0xff = want.
Proof.
  induction n as [|n IH]; intros mair i want r; cbn [mair_slot]; [discriminate|].
  destruct (Z.eqb_spec (Z.land (Z.shiftr mair (8 * i)) 0xff) want) as [E|].
  - intros [= <-]. split; [lia | exact E].
  - intros H. apply IH in H as [H1 H2]. split; [lia | exact H2].
Qed.

Lemma device_attr_range mair a : pt_device_attr mair = Some a -> 0 <= a < 8 /\
  (Z.land (Z.shiftr mair (8 * a)) 0xff = 0x04 \/ Z.land (Z.shiftr mair (8 * a)) 0xff = 0x00).
Proof.
  unfold pt_device_attr. destruct (mair_slot 8 mair 0 0x04) as [i|] eqn:E.
  - intros [= <-]. apply mair_slot_spec in E as [H1 H2]. split; [lia | left; exact H2].
  - intros H. apply mair_slot_spec in H as [H1 H2]. split; [lia | right; exact H2].
Qed.

Lemma down_2m phys : is_u 64 phys -> Z.land phys (not64 (Z.shiftl 1 21 - 1)) = phys / 2 ^ 21 * 2 ^ 21.
Proof.
  intros Hp. unfold is_u in Hp. change (not64 (Z.shiftl 1 21 - 1)) with (Z.shiftl (Z.ones 43) 21).
  rewrite field_mask, Z.shiftl_mul_pow2 by lia. rewrite Z.mod_small; [reflexivity|].
  split; [apply Z.div_pos; lia | apply Z.div_lt_upper_bound; lia].
Qed.

(** The body of [mmio_map_2m], once the registers have been accepted. *)
Lemma map_body hhdm root phys attr s :
  let va := u64 (hhdm + phys) in
  aligned root -> 0 <= root < 2 ^ 48 -> mappable s root va ->
  phys mod 2 ^ 21 = 0 -> 0 <= phys < 2 ^ 48 -> 0 <= attr < 8 ->
  exists code s',
    (let! l1 := map_level0 hhdm (u64 (hhdm + root)) (level_index va 39) in
     match l1 with
     | inl code => ret code
     | inr l1 =>
         let! l2 := map_level1 hhdm l1 (level_index va 30) in
         match l2 with
         | inl code => ret code
         | inr l2 => map_level2 hhdm l2 (level_index va 21) va (device_desc phys attr)
         end
     end) s = Some (code, s') /\
    (code <> 0 -> same_translations s s' root) /\
    (code = 0 -> forall va', translate (pt_mem s') root va' =
       if window va' =? window va then Some (device_leaf phys attr va') else translate (pt_mem s) root va').
Proof.
  intros va Hra Hrr M Hpa Hpr Hattr. set (P := g_pt_pool_phys s).
  rewrite (level_index_idx 3 va : level_index va 39 = _), (level_index_idx 2 va : level_index va 30 = _),
    (level_index_idx 1 va : level_index va 21 = _).
  assert (I : pinv root va P s) by (destruct M; split; auto).
  destruct (level0_spec hhdm root va P Hra (mp_pool _ _ _ M) s I Hrr) as (r0 & s0 & E0 & (I0 & W0 & R0) & M0).
  rewrite (bind_some _ _ _ _ _ E0). destruct r0 as [code|l1].
  { exists code, s0. split; [reflexivity|]. split; [intros _; exact W0 | contradiction]. }
  destruct R0 as (t & -> & Ht & Hin).
  assert (Hres : entry (pt_mem s0) 2 t va mod 4 = 1 -> no_res0 (entry (pt_mem s0) 2 t va)).
  { destruct (M0 _ eq_refl) as [Em|(q & Eq & Hq & Hz)]; [rewrite Em in *; apply (mp_res0 _ _ _ M); exact Hin|].
    apply (f_equal (pt_v2p hhdm)) in Eq. rewrite !v2p_virt in Eq by (unfold is_u; lia). subst t. unfold entry. rewrite Hz by apply idx_range. discriminate. }
  destruct (level1_spec hhdm root va P Hra (mp_pool _ _ _ M) s0 t I0 Hin Ht Hres) as (r1 & s1 & E1 & I1 & W1 & R1).
  rewrite (bind_some _ _ _ _ _ E1). pose proof (same_walks_trans root _ _ _ W0 W1) as W01. destruct r1 as [code|l2].
  { exists code, s1. split; [reflexivity|]. split; [intros _; exact W01 | contradiction]. }
  destruct R1 as (t1 & -> & Ht1 & Hin1).
  destruct (device_desc_leaf phys attr va Hpa Hpr Hattr) as [Hd _].
  destruct (level2_spec hhdm root va P Hra s1 t1 (device_desc phys attr) I1 Hin1 Ht1 Hd) as (code & s2 & E2 & R2 & R3).
  exists code, s2. split; [exact E2|]. split.
  - intros Hc va'. unfold translate. rewrite (R2 Hc va'). apply W01.
  - intros Hc va'. unfold translate. rewrite (R3 Hc va').
    destruct (below_dec 1 va va') as [Hb|Hb], (Z.eqb_spec (window va') (window va)) as [Ew|Ew].
    + f_equal. apply device_desc_leaf; assumption.
    + destruct Ew. apply below_window. exact Hb.
    + destruct Hb. apply below_window. exact Ew.
    + apply W01.
Qed.

Lemma mmio_map_2m_spec r hhdm phys s :
  let root := oa 12 (ttbr1_el1 r) in
  let block := phys / 2 ^ 21 * 2 ^ 21 in
  let va := u64 (hhdm + block) in
  is_u 64 hhdm -> is_u 64 phys -> mappable s root va ->
  exists code s', mmio_map_2m r hhdm phys s = Some (code, s') /\
    (code <> 0 -> same_translations s s' root) /\
    (code = 0 -> hhdm + block < 2 ^ 64 /\ exists attr, pt_device_attr (mair_el1 r) = Some attr /\
       forall va', translate (pt_mem s') root va' =
         if window va' =? window va then Some (device_leaf block attr va') else translate (pt_mem s) root va').
Proof.
  intros root block va Hh Hp M. unfold mmio_map_2m. rewrite down_2m by exact Hp. fold block. fold va.
  assert (Hstay : forall code, code <> 0 -> exists code' s', ret code s = Some (code', s') /\
    (code' <> 0 -> same_translations s s' root) /\
    (code' = 0 -> hhdm + block < 2 ^ 64 /\ exists attr, pt_device_attr (mair_el1 r) = Some attr /\
       forall va', translate (pt_mem s') root va' =
         if window va' =? window va then Some (device_leaf block attr va') else translate (pt_mem s) root va')).
  { intros code Hc. exists code, s. split; [reflexivity|]. split; [intros _ ?; reflexivity | contradiction]. }
  unfold mmio_pt_validate. rewrite page_mask. fold root.
  repeat match goal with |- exists _ _, (match (if ?c then _ else _) with _ => _ end) s = _ /\ _ =>
    destruct c eqn:?; [apply Hstay; discriminate|] end.
  destruct (pt_device_attr (mair_el1 r)) as [attr|] eqn:Ea; [|apply Hstay; discriminate].
  destruct ((Z.shiftl 1 48 <=? block) || (va <? hhdm)) eqn:Hbig; [apply Hstay; discriminate|].
  destruct (pt_phys_to_virt hhdm root) as [l0|] eqn:El; [|apply Hstay; discriminate].
  pose proof (oa_range (ttbr1_el1 r)) as Hrr. fold root in Hrr. pose proof (oa_aligned (ttbr1_el1 r)) as Hra. fold root in Hra.
  assert (El0 : l0 = u64 (hhdm + root)).
  { apply phys_to_virt_table in El. rewrite El. f_equal. f_equal.
    destruct (table_desc root Hra Hrr) as [_ _]. unfold oa. change (48 - 12) with 36. unfold aligned in Hra.
    rewrite (Z.mod_small (root / 2 ^ 12)) by (split; [apply Z.div_pos; lia | apply Z.div_lt_upper_bound; lia]).
    change (2 ^ 12) with 4096. Z.div_mod_to_equations. lia. }
  subst l0. change (Z.shiftl 1 48) with (2 ^ 48) in Hbig.
  assert (Hblk : 0 <= block < 2 ^ 48).
  { split; [|lia]. unfold block. apply Z.mul_nonneg_nonneg; [apply Z.div_pos; unfold is_u in Hp; lia | lia]. }
  assert (Hsum : hhdm + block < 2 ^ 64).
  { destruct (Z.lt_ge_cases (hhdm + block) (2 ^ 64)) as [|Hge]; [assumption|]. exfalso. unfold is_u in Hh.
    assert (Ev : va = hhdm + block - 2 ^ 64) by (unfold va, u64, wrap; symmetry; apply (Z.mod_unique_pos _ _ 1); lia). lia. }
  destruct (map_body hhdm root block attr s Hra Hrr M) as (code & s' & E & H1 & H2).
  - unfold block. apply Z_mod_mult.
  - exact Hblk.
  - apply (device_attr_range _ _ Ea).
  - exists code, s'. split; [exact E|]. split; [exact H1|]. intros Hc. split; [exact Hsum|].
    exists attr. split; [reflexivity | exact (H2 Hc)].
Qed.

(** C15: a successful [mmio_map_2m] maps exactly one window.  When it returns 0, every address of
    the 2 MiB block of [phys], seen at the direct map, translates to itself as Device memory (a
    MAIR slot holding nGnRE or nGnRnE), never executable; and every virtual address outside that
    window, including the rest of a 1 GiB block that had to be split, translates as before, with
    the same attributes. *)
Theorem mmio_map_2m_maps r hhdm phys s s' off va' :
  let root := oa 12 (ttbr1_el1 r) in
  let block := phys / 2 ^ 21 * 2 ^ 21 in
  is_u 64 hhdm -> hhdm mod 2 ^ 21 = 0 -> is_u 64 phys -> mappable s root (u64 (hhdm + block)) ->
  0 <= off < 2 ^ 21 -> window va' <> window (hhdm + block) ->
  mmio_map_2m r hhdm phys s = Some (0, s') ->
  (exists attr, translate (pt_mem s') root (hhdm + block + off) = Some (mk_leaf (block + off) (attr + 384) 96) /\
     0 <= attr < 8 /\
     (Z.land (Z.shiftr (mair_el1 r) (8 * attr)) 0xff = 0x04 \/ Z.land (Z.shiftr (mair_el1 r) (8 * attr)) 0xff = 0x00)) /\
  translate (pt_mem s') root va' = translate (pt_mem s) root va'.
Proof.
  intros root block Hh Ha Hp M Hoff Hva Hrun.
  destruct (mmio_map_2m_spec r hhdm phys s Hh Hp M) as (code & s2 & E & _ & H).
  rewrite Hrun in E. injection E as <- <-. destruct (H eq_refl) as (Hsum & attr & Eattr & Ht). clear H.
  fold root block in Ht. assert (Eva : u64 (hhdm + block) = hhdm + block).
  { apply u64_id. unfold is_u in *. split; [|exact Hsum]. unfold block.
    assert (0 <= phys / 2 ^ 21) by (apply Z.div_pos; lia). lia. }
  rewrite Eva in Ht. pose proof (Z.div_mod hhdm (2 ^ 21) ltac:(lia)) as Hq. rewrite Ha, Z.add_0_r in Hq.
  split.
  - exists attr. split; [|exact (device_attr_range _ _ Eattr)]. rewrite Ht.
    assert (Ew : window (hhdm + block + off) = window (hhdm + block)).
    { unfold window. f_equal. rewrite Hq. unfold block.
      transitivity (hhdm / 2 ^ 21 + phys / 2 ^ 21).
      - symmetry. apply (Z.div_unique_pos _ _ _ off); lia.
      - apply (Z.div_unique_pos _ _ _ 0); lia. }
    rewrite Ew, Z.eqb_refl. unfold device_leaf. do 2 f_equal. f_equal. rewrite Hq. unfold block.
    symmetry. apply (Z.mod_unique_pos _ _ (hhdm / 2 ^ 21 + phys / 2 ^ 21)); lia.
  - rewrite Ht. destruct (Z.eqb_spec (window va') (window (hhdm + block))); [contradiction | reflexivity].
Qed.

(** C16: a failing [mmio_map_2m] changes no translation, whatever the error, even when it has
    already linked empty tables or split a block; and it always returns. *)
Theorem mmio_map_2m_error_safe r hhdm phys s :
  let root := oa 12 (ttbr1_el1 r) in
  is_u 64 hhdm -> is_u 64 phys -> mappable s root (u64 (hhdm + phys / 2 ^ 21 * 2 ^ 21)) ->
  exists code s', mmio_map_2m r hhdm phys s = Some (code, s') /\
    (code <> 0 -> forall va', translate (pt_mem s') root va' = translate (pt_mem s) root va').
Proof.
  intros root Hh Hp M. destruct (mmio_map_2m_spec r hhdm phys s Hh Hp M) as (code & s' & E & H & _).
  exists code, s'. split; [exact E | exact H].
Qed.

(** *** A concrete address space *)

(** One level-0 entry, to a level-1 table whose first entry is a 1 GiB block of RAM. *)
Definition demo_mem : Z -> Z := fun a =>
  if a =? 0x1000 + 8 * 256 then 0x2003 else if a =? 0x2000 then 0x701 else 0.

Definition demo_pt : pt_state := mk_pt demo_mem 0x100000 0 0 0 [].
Definition demo_regs : pt_regs := mk_regs 0x280100000 0x1000 0x4ff.
Definition demo_hhdm : Z := 0xffff800000000000.

Lemma demo_entry3 va : entry demo_mem 3 0x1000 va = if idx 3 va =? 256 then 0x2003 else 0.
Proof.
  unfold entry, demo_mem. pose proof (idx_range 3 va).
  destruct (Z.eqb_spec (idx 3 va) 256) as [->|E]; [reflexivity|].
  destruct (Z.eqb_spec (0x1000 + 8 * idx 3 va) (0x1000 + 8 * 256)); [lia|].
  destruct (Z.eqb_spec (0x1000 + 8 * idx 3 va) 0x2000); [lia | reflexivity].
Qed.

Lemma demo_entry2 va : entry demo_mem 2 0x2000 va = if idx 2 va =? 0 then 0x701 else 0.
Proof.
  unfold entry, demo_mem. pose proof (idx_range 2 va).
  destruct (Z.eqb_spec (0x2000 + 8 * idx 2 va) (0x1000 + 8 * 256)) as [E|E];
    destruct (Z.eqb_spec (idx 2 va) 0) as [E0|E0]; try lia.
  - rewrite E0. reflexivity.
  - destruct (Z.eqb_spec (0x2000 + 8 * idx 2 va) 0x2000); [lia | reflexivity].
Qed.

Lemma demo_tables va : tables demo_mem 3 0x1000 va =
  (3%nat, 0x1000) :: if idx 3 va =? 256 then [(2%nat, 0x2000)] else [].
Proof.
  change (tables demo_mem 3 0x1000 va) with ((3%nat, 0x1000) ::
    if entry demo_mem 3 0x1000 va mod 4 =? 3 then tables demo_mem 2 (oa 12 (entry demo_mem 3 0x1000 va)) va else []).
  rewrite demo_entry3. destruct (idx 3 va =? 256); [|reflexivity].
  change (0x2003 mod 4 =? 3) with true. change (oa 12 0x2003) with 0x2000. cbv iota. f_equal.
  change (tables demo_mem 2 0x2000 va) with ((2%nat, 0x2000) ::
    if entry demo_mem 2 0x2000 va mod 4 =? 3 then tables demo_mem 1 (oa 12 (entry demo_mem 2 0x2000 va)) va else []).
  rewrite demo_entry2. destruct (idx 2 va =? 0); reflexivity.
Qed.

Lemma demo_mappable va : mappable demo_pt 0x1000 va.
Proof.
  assert (Hin : forall va' j p, In (j, p) (tables demo_mem 3 0x1000 va') ->
    (j = 3%nat /\ p = 0x1000) \/ (j = 2%nat /\ p = 0x2000 /\ idx 3 va' = 256)).
  { intros va' j p. rewrite demo_tables. destruct (Z.eqb_spec (idx 3 va') 256).
    - intros [[= <- <-]|[[= <- <-]|[]]]; auto.
    - intros [[= <- <-]|[]]; auto. }
  split.
  - intros a. cbn. unfold demo_mem, is_u. destruct (_ =? _); [lia|]. destruct (_ =? _); lia.
  - intros va' j j' p H1 H2. apply Hin in H1, H2.
    destruct H1 as [[-> ->]|(-> & -> & E1)], H2 as [[-> E]|(-> & E & E2)]; try discriminate E.
    + split; [reflexivity | intros i Hi; lia].
    + split; [reflexivity|]. intros i Hi. replace i with 3%nat by lia. congruence.
  - intros _. cbn. unfold aligned. split; [reflexivity | lia].
  - cbn. lia.
  - intros _ va' j p H Hp. cbn in Hp. apply Hin in H as [[_ ->]|(_ & -> & _)]; lia.
  - intros t H. apply Hin in H as [[[=] _]|(_ & -> & _)]. cbn [pt_mem demo_pt]. rewrite demo_entry2.
    destruct (_ =? 0); [reflexivity | discriminate].
Qed.

Lemma demo_runs : exists s', mmio_map_2m demo_regs demo_hhdm 0x0a000000 demo_pt = Some (0, s').
Proof.
  assert (H : option_map fst (mmio_map_2m demo_regs demo_hhdm 0x0a000000 demo_pt) = Some 0) by (vm_compute; reflexivity).
  destruct (mmio_map_2m demo_regs demo_hhdm 0x0a000000 demo_pt) as [[c s']|]; [|discriminate H].
  injection H as ->. exists s'. reflexivity.
Qed.

Lemma mmio_map_2m_maps_witness :
  exists s', mmio_map_2m demo_regs demo_hhdm 0x0a000000 demo_pt = Some (0, s') /\
  (exists attr, translate (pt_mem s') 0x1000 (demo_hhdm + 0x0a000000 + 4) = Some (mk_leaf (0x0a000000 + 4) (attr + 384) 96) /\
     0 <= attr < 8 /\
     (Z.land (Z.shiftr 0x4ff (8 * attr)) 0xff = 0x04 \/ Z.land (Z.shiftr 0x4ff (8 * attr)) 0xff = 0x00)) /\
  translate (pt_mem s') 0x1000 demo_hhdm = translate demo_mem 0x1000 demo_hhdm.
Proof.
  destruct demo_runs as [s' E]. exists s'. split; [exact E|].
  apply (mmio_map_2m_maps demo_regs demo_hhdm 0x0a000000 demo_pt s' 4 demo_hhdm).
  - vm_compute. split; congruence.
  - reflexivity.
  - vm_compute. split; congruence.
  - apply demo_mappable.
  - lia.
  - vm_compute. congruence.
  - exact E.
Defined.

Lemma mmio_map_2m_error_safe_witness :
  exists code s', mmio_map_2m demo_regs demo_hhdm 0x4010000000 demo_pt = Some (code, s') /\
    (code <> 0 -> forall va', translate (pt_mem s') 0x1000 va' = translate demo_mem 0x1000 va').
Proof.
  apply (mmio_map_2m_error_safe demo_regs demo_hhdm 0x4010000000 demo_pt).
  - vm_compute. split; congruence.
  - vm_compute. split; congruence.
  - apply demo_mappable.
Defined.

(** ** Break before make *)

(** The discipline a live table needs, checked along the trace: a valid descriptor is never
    replaced by a different valid one, and an entry that was made invalid gets a valid descriptor
    again only after the TLB has been invalidated for it; nothing is left pending. *)
Fixpoint break_before_make (page : Z) (dirty : list Z) (tr : list event) : bool :=
  match tr with
  | [] => match dirty with [] => true | _ => false end
  | Store a old v :: tr' =>
      if Z.odd v then
        (negb (Z.odd old) || (old =? v)) && negb (existsb (Z.eqb a) dirty) && break_before_make page dirty tr'
      else break_before_make page (if Z.odd old then a :: dirty else dirty) tr'
  | Dsb :: tr' => break_before_make page dirty tr'
  | Tlbi_all :: tr' => break_before_make page [] tr'
  | Tlbi_va p :: tr' => break_before_make page (if p =? page then [] else dirty) tr'
  end.

(** A step that extends the trace with a disciplined sequence, whatever comes next. *)
Definition extends (page : Z) (s s' : pt_state) : Prop :=
  exists tr, pt_trace s' = pt_trace s ++ tr /\
    forall rest, break_before_make page [] (tr ++ rest) = break_before_make page [] rest.

Lemma extends_refl page s s' : pt_trace s' = pt_trace s -> extends page s s'.
Proof. intros E. exists []. rewrite app_nil_r. auto. Qed.

Lemma extends_trans page s1 s2 s3 : extends page s1 s2 -> extends page s2 s3 -> extends page s1 s3.
Proof.
  intros (t1 & E1 & H1) (t2 & E2 & H2). exists (t1 ++ t2). rewrite E2, E1, app_assoc. split; [reflexivity|].
  intros rest. rewrite <- app_assoc, H1. apply H2.
Qed.

Lemma pt_alloc_run hhdm s : exists r s', pt_alloc hhdm s = Some (r, s') /\ pt_trace s' = pt_trace s /\
  forall a, pt_mem s' a = pt_mem s a \/ pt_mem s' a = 0.
Proof.
  unfold pt_alloc. destruct (_ || _); [eexists _, s; auto|].
  eexists _, _. split; [reflexivity|]. split; [reflexivity|]. intros a. cbn [pt_mem set_mem set_pool].
  rewrite pt_fill_spec by lia. destruct (_ && _ && _); auto.
Qed.

Lemma odd_land x : (Z.land x 1 =? 0) = negb (Z.odd x).
Proof. rewrite land_1, Zdiv.Zmod_odd. destruct (Z.odd x); reflexivity. Qed.

Lemma odd_table q : Z.odd (Z.lor q 3) = true.
Proof. rewrite <- Z.bit0_odd, Z.lor_spec. apply orb_true_r. Qed.

(** Linking below an invalid entry. *)
Lemma link_trace page hhdm t i s (code : Z) (r : Z + Z) s' : Z.odd (pt_mem s (pt_addr hhdm t i)) = false ->
  (let! l := pt_alloc hhdm in
   match l with
   | None => ret (inl code)
   | Some l => pt_put hhdm t i (Z.lor (pt_v2p hhdm l) 0x3) ;; emit Dsb ;; ret (inr l)
   end) s = Some (r, s') -> extends page s s'.
Proof.
  intros Hodd. destruct (pt_alloc_run hhdm s) as (l & s1 & Ea & Et & Hm). rewrite (bind_some _ _ _ _ _ Ea).
  destruct l as [l|]; [|intros [= <- <-]; apply extends_refl; exact Et].
  intros [= <- <-]. set (a := pt_addr hhdm t i) in *.
  exists [Store a (pt_mem s1 a) (Z.lor (pt_v2p hhdm l) 3); Dsb]. cbn [pt_trace]. rewrite <- Et, <- app_assoc.
  split; [reflexivity|]. intros rest. cbn [app break_before_make existsb]. rewrite odd_table.
  assert (Ho : Z.odd (pt_mem s1 a) = false) by (destruct (Hm a) as [-> | ->]; [exact Hodd | reflexivity]).
  rewrite Ho. reflexivity.
Qed.

Lemma level0_trace page hhdm l0 i s r s' : map_level0 hhdm l0 i s = Some (r, s') -> extends page s s'.
Proof.
  unfold map_level0, pt_get. rewrite bind_gets, odd_land. destruct (Z.odd _) eqn:Eo; cbn [negb].
  - destruct (_ =? 3); intros [= <- <-]; apply extends_refl; reflexivity.
  - apply link_trace. exact Eo.
Qed.

Lemma level1_trace page hhdm l1 i s r s' : map_level1 hhdm l1 i s = Some (r, s') -> extends page s s'.
Proof.
  unfold map_level1, pt_get. rewrite bind_gets, odd_land. destruct (Z.odd _) eqn:Eo; cbn [negb].
  2: { apply link_trace. exact Eo. }
  destruct (_ =? 1); [|intros [= <- <-]; apply extends_refl; reflexivity].
  set (e1 := pt_mem s (pt_addr hhdm l1 i)).
  destruct (pt_alloc_run hhdm s) as (l & s1 & Ea & Et & _). rewrite (bind_some _ _ _ _ _ Ea).
  destruct l as [l|]; [|intros [= <- <-]; apply extends_refl; exact Et].
  set (m1 := pt_fill 512 hhdm l (mmio_split_l1_block e1) (pt_mem s1)). set (a := pt_addr hhdm l1 i).
  assert (Hs : forall k : PT (Z + Z), (modify (fun s => set_mem (pt_fill 512 hhdm l (mmio_split_l1_block e1) (pt_mem s)) s) ;;
    modify count_split ;; k) s1 = k (count_split (set_mem m1 s1))) by reflexivity.
  rewrite Hs. clearbody m1. intros [= <- <-].
  exists [Store a (m1 a) 0; Dsb; Tlbi_all; Dsb; Store a 0 (Z.lor (pt_v2p hhdm l) 3); Dsb; Tlbi_all; Dsb].
  cbn [pt_trace count_split set_mem pt_mem]. rewrite <- Et. unfold word_upd. fold a. rewrite Z.eqb_refl.
  rewrite <- !app_assoc. split; [reflexivity|]. intros rest. cbn [app break_before_make existsb].
  rewrite odd_table. reflexivity.
Qed.

Lemma level2_trace hhdm l2 i va desc s r s' : Z.odd desc = true ->
  map_level2 hhdm l2 i va desc s = Some (r, s') -> extends (Z.shiftr va 12) s s'.
Proof.
  intros Hd. unfold map_level2, pt_get. rewrite bind_gets, odd_land. set (a := pt_addr hhdm l2 i).
  destruct (_ =? 3); [intros [= <- <-]; apply extends_refl; reflexivity|].
  destruct (Z.eqb_spec (pt_mem s a) desc); [intros [= <- <-]; apply extends_refl; reflexivity|].
  destruct (Z.odd (pt_mem s a)) eqn:Eo; cbn [negb]; intros [= <- <-].
  - exists [Store a (pt_mem s a) 0; Dsb; Tlbi_va (Z.shiftr va 12); Dsb; Store a 0 desc; Dsb; Tlbi_va (Z.shiftr va 12); Dsb].
    cbn [pt_trace count_remap pt_mem]. unfold word_upd. fold a. rewrite Z.eqb_refl, <- !app_assoc.
    split; [reflexivity|]. intros rest. cbn [app break_before_make existsb]. rewrite Hd, Eo, Z.eqb_refl. reflexivity.
  - exists [Store a (pt_mem s a) desc; Dsb; Tlbi_va (Z.shiftr va 12); Dsb].
    cbn [pt_trace pt_mem]. fold a. rewrite <- !app_assoc.
    split; [reflexivity|]. intros rest. cbn [app break_before_make existsb]. rewrite Hd, Eo, Z.eqb_refl. reflexivity.
Qed.

Lemma odd_device phys attr : Z.odd (device_desc phys attr) = true.
Proof.
  unfold device_desc. rewrite <- Z.bit0_odd, !Z.lor_spec. change (Z.testbit 1 0) with true.
  rewrite orb_true_r. reflexivity.
Qed.

(** C17: [mmio_map_2m] follows break-before-make on every path: from any state, with any register
    values, the stores and TLB invalidations it adds to the trace obey the discipline. *)
Theorem mmio_map_2m_break_before_make r hhdm phys s code s' :
  let va := u64 (hhdm + Z.land phys (not64 (Z.shiftl 1 21 - 1))) in
  mmio_map_2m r hhdm phys s = Some (code, s') ->
  exists tr, pt_trace s' = pt_trace s ++ tr /\ break_before_make (Z.shiftr va 12) [] tr = true.
Proof.
  intros va H. assert (X : extends (Z.shiftr va 12) s s').
  { revert H. unfold mmio_map_2m. fold va. destruct (mmio_pt_validate r hhdm) as [c|[root attr]];
      [intros [= <- <-]; apply extends_refl; reflexivity|].
    destruct (_ || _); [intros [= <- <-]; apply extends_refl; reflexivity|].
    destruct (pt_phys_to_virt hhdm root) as [l0|]; [|intros [= <- <-]; apply extends_refl; reflexivity].
    intros H. apply bind_inv in H as (r0 & s0 & E0 & H). apply level0_trace with (page := Z.shiftr va 12) in E0.
    destruct r0 as [c|l1]; [injection H as <- <-; exact E0|].
    apply bind_inv in H as (r1 & s1 & E1 & H). apply level1_trace with (page := Z.shiftr va 12) in E1.
    pose proof (extends_trans _ _ _ _ E0 E1) as E01.
    destruct r1 as [c|l2]; [injection H as <- <-; exact E01|].
    apply level2_trace in H; [|apply odd_device]. exact (extends_trans _ _ _ _ E01 H). }
  destruct X as (tr & E & Hb). exists tr. split; [exact E|].
  rewrite <- (app_nil_r tr), Hb. reflexivity.
Qed.

Lemma mmio_map_2m_break_before_make_witness :
  exists s', mmio_map_2m demo_regs demo_hhdm 0x0a000000 demo_pt = Some (0, s') /\
  exists tr, pt_trace s' = [] ++ tr /\ break_before_make (Z.shiftr (demo_hhdm + 0x0a000000) 12) [] tr = true.
Proof.
  destruct demo_runs as [s' E]. exists s'. split; [exact E|].
  exact (mmio_map_2m_break_before_make demo_regs demo_hhdm 0x0a000000 demo_pt 0 s' E).
Defined.
