(* ===== verification/Fat32.v ===== *)
(** * The read-only FAT32 reader ([src/src/pi4_fat32.h]): definitions

    The read callback is a parameter: [read n lba] is its answer to the [n]th call, so that it may
    depend on everything that happened before.  [fr_log] is a ghost field: the addresses asked
    for, newest first. *)

From S2P Require Import Prelude.

Definition PI4_FAT32_ENTRIES : Z := 8.
Definition PI4_FAT32_SECTOR_LIMIT : Z := 8.
Definition PI4_FAT32_CLUSTER_LIMIT : nat := 8.
Definition PI4_FAT32_FILE_MAX_BYTES : Z := 2048.
Definition PI4_FAT32_FILE_CLUSTER_LIMIT : nat := 4.
Definition PI4_FAT32_TEST_BYTES : Z := 1025.
Definition PI4_FAT32_TEST_PATTERN : list Z := bytes_of_string "ZealOS Pi4B FAT32 read test."%string ++ [10].
Definition PI4_FAT32_TEST_CRC32 : Z := 0x873b79ac.

Inductive pi4_fat32_result :=
| PI4_FAT32_NOT_RUN | PI4_FAT32_UNSUPPORTED | PI4_FAT32_PARTITION_BAD
| PI4_FAT32_BOOT_READ_BAD | PI4_FAT32_BPB_BAD | PI4_FAT32_FAT_READ_BAD
| PI4_FAT32_CHAIN_BAD | PI4_FAT32_DIRECTORY_READ_BAD
| PI4_FAT32_DIRECTORY_ENTRY_BAD | PI4_FAT32_ROOT_PASS | PI4_FAT32_ROOT_PARTIAL.

Record pi4_fat32_volume := mk_volume {
  v_first : Z; v_sectors : Z; v_fat_first : Z; v_fat_sectors : Z; v_data_first : Z;
  v_sectors_per_cluster : Z; v_clusters : Z; v_root_cluster : Z; v_active_fat : Z }.

Record pi4_fat32_entry := mk_fentry {
  fe_name : list Z;      (* without the final NUL *)
  fe_attributes : Z; fe_cluster : Z; fe_bytes : Z }.

Record pi4_fat32_report := mk_report {
  fr_result : pi4_fat32_result;
  fr_partition_index : Z; fr_partition_type : Z; fr_partition_types : list Z;
  fr_partition_first : Z; fr_partition_sectors : Z;
  fr_directory_sectors : Z; fr_clusters : Z; fr_complete : bool; fr_bounded : bool;
  fr_log : list Z;       (* [reads] is its length, [last_read] its head *)
  fr_label : list Z;
  fr_volume : pi4_fat32_volume;
  fr_entry : list pi4_fat32_entry }.   (* the first [listed] entries *)

Definition no_volume : pi4_fat32_volume := mk_volume 0 0 0 0 0 0 0 0 0.

Definition zero_report : pi4_fat32_report :=
  mk_report PI4_FAT32_NOT_RUN 0 0 [0; 0; 0; 0] 0 0 0 0 false false [] [] no_volume [].

Definition set_result (x : pi4_fat32_result) (r : pi4_fat32_report) : pi4_fat32_report :=
  mk_report x (fr_partition_index r) (fr_partition_type r) (fr_partition_types r) (fr_partition_first r)
    (fr_partition_sectors r) (fr_directory_sectors r) (fr_clusters r) (fr_complete r) (fr_bounded r)
    (fr_log r) (fr_label r) (fr_volume r) (fr_entry r).
Definition set_partition (index type first sectors : Z) (r : pi4_fat32_report) : pi4_fat32_report :=
  mk_report (fr_result r) index type (fr_partition_types r) first sectors (fr_directory_sectors r)
    (fr_clusters r) (fr_complete r) (fr_bounded r) (fr_log r) (fr_label r) (fr_volume r) (fr_entry r).
Definition set_types (l : list Z) (r : pi4_fat32_report) : pi4_fat32_report :=
  mk_report (fr_result r) (fr_partition_index r) (fr_partition_type r) l (fr_partition_first r)
    (fr_partition_sectors r) (fr_directory_sectors r) (fr_clusters r) (fr_complete r) (fr_bounded r)
    (fr_log r) (fr_label r) (fr_volume r) (fr_entry r).
Definition set_volume (v : pi4_fat32_volume) (r : pi4_fat32_report) : pi4_fat32_report :=
  mk_report (fr_result r) (fr_partition_index r) (fr_partition_type r) (fr_partition_types r)
    (fr_partition_first r) (fr_partition_sectors r) (fr_directory_sectors r) (fr_clusters r)
    (fr_complete r) (fr_bounded r) (fr_log r) (fr_label r) v (fr_entry r).
Definition set_label (l : list Z) (r : pi4_fat32_report) : pi4_fat32_report :=
  mk_report (fr_result r) (fr_partition_index r) (fr_partition_type r) (fr_partition_types r)
    (fr_partition_first r) (fr_partition_sectors r) (fr_directory_sectors r) (fr_clusters r)
    (fr_complete r) (fr_bounded r) (fr_log r) l (fr_volume r) (fr_entry r).
Definition log_read (lba : Z) (r : pi4_fat32_report) : pi4_fat32_report :=
  mk_report (fr_result r) (fr_partition_index r) (fr_partition_type r) (fr_partition_types r)
    (fr_partition_first r) (fr_partition_sectors r) (fr_directory_sectors r) (fr_clusters r)
    (fr_complete r) (fr_bounded r) (lba :: fr_log r) (fr_label r) (fr_volume r) (fr_entry r).
Definition count_cluster (r : pi4_fat32_report) : pi4_fat32_report :=
  mk_report (fr_result r) (fr_partition_index r) (fr_partition_type r) (fr_partition_types r)
    (fr_partition_first r) (fr_partition_sectors r) (fr_directory_sectors r) (fr_clusters r + 1)
    (fr_complete r) (fr_bounded r) (fr_log r) (fr_label r) (fr_volume r) (fr_entry r).
Definition count_sector (r : pi4_fat32_report) : pi4_fat32_report :=
  mk_report (fr_result r) (fr_partition_index r) (fr_partition_type r) (fr_partition_types r)
    (fr_partition_first r) (fr_partition_sectors r) (fr_directory_sectors r + 1) (fr_clusters r)
    (fr_complete r) (fr_bounded r) (fr_log r) (fr_label r) (fr_volume r) (fr_entry r).
Definition add_entry (e : pi4_fat32_entry) (r : pi4_fat32_report) : pi4_fat32_report :=
  mk_report (fr_result r) (fr_partition_index r) (fr_partition_type r) (fr_partition_types r)
    (fr_partition_first r) (fr_partition_sectors r) (fr_directory_sectors r) (fr_clusters r)
    (fr_complete r) (fr_bounded r) (fr_log r) (fr_label r) (fr_volume r) (fr_entry r ++ [e]).
Definition finish (complete : bool) (r : pi4_fat32_report) : pi4_fat32_report :=
  mk_report (if complete then PI4_FAT32_ROOT_PASS else PI4_FAT32_ROOT_PARTIAL)
    (fr_partition_index r) (fr_partition_type r) (fr_partition_types r)
    (fr_partition_first r) (fr_partition_sectors r) (fr_directory_sectors r) (fr_clusters r)
    (if complete then true else fr_complete r) (if complete then fr_bounded r else true)
    (fr_log r) (fr_label r) (fr_volume r) (fr_entry r).

Definition pi4_fat32_le16 (p : list Z) : Z := Z.lor (byte_at p 0) (Z.shiftl (byte_at p 1) 8).
Definition pi4_fat32_le32 (p : list Z) : Z :=
  Z.lor (pi4_fat32_le16 p) (Z.shiftl (pi4_fat32_le16 (drop 2 p)) 16).
Definition pi4_fat32_signature (p : list Z) : bool := (byte_at p 510 =? 0x55) && (byte_at p 511 =? 0xaa).

Definition pi4_fat32_result_name (result : pi4_fat32_result) : string :=
  match result with
  | PI4_FAT32_UNSUPPORTED => "unsupported-layout"
  | PI4_FAT32_PARTITION_BAD => "invalid-partition"
  | PI4_FAT32_BOOT_READ_BAD => "boot-read-failed"
  | PI4_FAT32_BPB_BAD => "invalid-BPB"
  | PI4_FAT32_FAT_READ_BAD => "FAT-read-failed"
  | PI4_FAT32_CHAIN_BAD => "invalid-cluster-chain"
  | PI4_FAT32_DIRECTORY_READ_BAD => "directory-read-failed"
  | PI4_FAT32_DIRECTORY_ENTRY_BAD => "invalid-directory-entry"
  | PI4_FAT32_ROOT_PASS => "root-directory-pass"
  | PI4_FAT32_ROOT_PARTIAL => "root-directory-bounded"
  | PI4_FAT32_NOT_RUN => "not-run"
  end%string.

(** ** The BIOS parameter block *)

Definition pi4_fat32_bpb (b : list Z) (first partition_sectors last_lba : Z) : option pi4_fat32_volume :=
  let spc := byte_at b 13 in
  let reserved := pi4_fat32_le16 (drop 14 b) in
  let fats := byte_at b 16 in
  let total := pi4_fat32_le32 (drop 32 b) in
  let fat := pi4_fat32_le32 (drop 36 b) in
  let flags := pi4_fat32_le16 (drop 40 b) in
  let active := if has flags 0x80 then Z.land flags 15 else 0 in
  let root := pi4_fat32_le32 (drop 44 b) in
  let overhead := u64 (reserved + u64 (fats * fat)) in
  let end_ := u64 (first + total) in
  if negb (pi4_fat32_signature b) ||
     negb (((byte_at b 0 =? 0xeb) && (byte_at b 2 =? 0x90)) || (byte_at b 0 =? 0xe9)) ||
     negb (pi4_fat32_le16 (drop 11 b) =? 512) || (spc =? 0) || (128 <? spc) || has spc (spc - 1) ||
     (reserved =? 0) || (negb (fats =? 1) && negb (fats =? 2)) || (fat =? 0) || (total =? 0) ||
     negb (pi4_fat32_le16 (drop 17 b) =? 0) || negb (pi4_fat32_le16 (drop 19 b) =? 0) ||
     negb (pi4_fat32_le16 (drop 22 b) =? 0) || negb (pi4_fat32_le16 (drop 42 b) =? 0) ||
     has flags 0xff70 || (fats <=? active) || (total <=? overhead) ||
     (partition_sectors <? total) || (last_lba + 1 <? end_)
  then None
  else
    let clusters := (total - overhead) / spc in
    if (clusters <? 65525) || (0x0ffffff0 <=? clusters + 1) || (u64 (fat * 128) <? clusters + 2) ||
       (root <? 2) || (clusters + 1 <? root)
    then None
    else Some (mk_volume first total (u32 (u32 (first + reserved) + u32 (active * fat))) fat
                 (u32 (first + u32 overhead)) spc (u32 clusters) root active).

Definition pi4_fat32_cluster_lba (v : pi4_fat32_volume) (cluster : Z) : option Z :=
  if (cluster <? 2) || (u32 (v_clusters v + 1) <? cluster) then None
  else
    let start := u64 (v_data_first v + u64 (u32 (cluster - 2) * v_sectors_per_cluster v)) in
    if (u64 (v_first v + v_sectors v) <? u64 (start + v_sectors_per_cluster v)) || (UINT32_MAX <? start)
    then None
    else Some (u32 start).

(** ** Directory entries *)

Definition CH_SPACE : Z := 32.
Definition CH_DOT : Z := 46.

(** [while (end > start && d\[end - 1\] == ' ') end--;] on the bytes of one name part. *)
Fixpoint trim_right (l : list Z) : list Z :=
  match l with
  | [] => []
  | c :: l' => match trim_right l' with
               | [] => if c =? CH_SPACE then [] else [c]
               | t => c :: t
               end
  end.

(** One character of a short name; [lower]: the part's lower-case bit in [d\[12\]]. *)
Definition name_char (lower : bool) (c : Z) : Z :=
  let c := if (c <? 0x20) || (0x7e <? c) then 63 else c in
  if lower && (65 <=? c) && (c <=? 90) then c + 32 else c.

Definition short_name (d : list Z) : list Z :=
  let base := map (name_char (has (byte_at d 12) 8)) (trim_right (take 8 d)) in
  let ext := map (name_char (has (byte_at d 12) 16)) (trim_right (take 3 (drop 8 d))) in
  base ++ (match ext with [] => [] | _ => CH_DOT :: ext end).

Inductive dir_result := Dir_end | Dir_live (e : pi4_fat32_entry) | Dir_skip | Dir_bad.

Definition pi4_fat32_directory_entry (d : list Z) (v : pi4_fat32_volume) : dir_result :=
  let attr := byte_at d 11 in
  if byte_at d 0 =? 0 then Dir_end
  else if (byte_at d 0 =? 0xe5) || (attr =? 0x0f) || has attr 8 ||
          ((byte_at d 0 =? CH_DOT) &&
           ((byte_at d 1 =? CH_SPACE) || ((byte_at d 1 =? CH_DOT) && (byte_at d 2 =? CH_SPACE))))
  then Dir_skip
  else
    let cluster := Z.land (Z.lor (Z.shiftl (pi4_fat32_le16 (drop 20 d)) 16) (pi4_fat32_le16 (drop 26 d)))
                     0x0fffffff in
    let bytes := pi4_fat32_le32 (drop 28 d) in
    if has attr 0xc0 || (byte_at d 0 =? CH_SPACE) ||
       ((negb (bytes =? 0) || has attr 16 || negb (cluster =? 0)) &&
        ((cluster <? 2) || (u32 (v_clusters v + 1) <? cluster)))
    then Dir_bad
    else Dir_live (mk_fentry (short_name d) attr cluster bytes).

(** ** The root scan *)

Section Probe.
Context (read : nat -> Z -> option (list Z)).

Definition pi4_fat32_read (r : pi4_fat32_report) (lba : Z) : option (list Z) * pi4_fat32_report :=
  (read (length (fr_log r)) lba, log_read lba r).

(** How a nested loop leaves: [Scan_on]: it ran out; the others are the source's [return], [goto
    bounded] and [goto complete]. *)
Inductive scan :=
| Scan_on (r : pi4_fat32_report) | Scan_return (r : pi4_fat32_report)
| Scan_bounded (r : pi4_fat32_report) | Scan_complete (r : pi4_fat32_report).

(** The entries of one sector, [n] left from the head of [buffer]. *)
Fixpoint scan_entries (n : nat) (buffer : list Z) (r : pi4_fat32_report) : scan :=
  match n with
  | O => Scan_on r
  | S n' =>
      match pi4_fat32_directory_entry buffer (fr_volume r) with
      | Dir_bad => Scan_return (set_result PI4_FAT32_DIRECTORY_ENTRY_BAD r)
      | Dir_end => Scan_complete r
      | Dir_skip => scan_entries n' (drop 32 buffer) r
      | Dir_live e =>
          let r := add_entry e r in
          if Z.of_nat (length (fr_entry r)) =? PI4_FAT32_ENTRIES then Scan_bounded r
          else scan_entries n' (drop 32 buffer) r
      end
  end.

(** The sectors of one cluster, [n] left from [lba]. *)
Fixpoint scan_sectors (n : nat) (lba : Z) (r : pi4_fat32_report) : scan :=
  match n with
  | O => Scan_on r
  | S n' =>
      if PI4_FAT32_SECTOR_LIMIT <=? fr_directory_sectors r then Scan_bounded r
      else
        let r := set_result PI4_FAT32_DIRECTORY_READ_BAD r in
        match pi4_fat32_read r lba with
        | (None, r) => Scan_return r
        | (Some buffer, r) =>
            match scan_entries 16 buffer (count_sector r) with
            | Scan_on r => scan_sectors n' (u32 (lba + 1)) r
            | other => other
            end
        end
  end.

Definition fat_entry (buffer : list Z) (cluster : Z) : Z :=
  Z.land (pi4_fat32_le32 (drop (Z.to_nat (cluster mod 128 * 4)) buffer)) 0x0fffffff.

(** A FAT entry that neither ends the chain nor names a cluster of the volume. *)
Definition bad_link (v : pi4_fat32_volume) (next : Z) : bool :=
  (next <? 0x0ffffff8) && ((next <? 2) || (0x0ffffff0 <=? next) || (u32 (v_clusters v + 1) <? next)).

(** The cluster chain, [hops] left. *)
Fixpoint scan_clusters (hops : nat) (seen : list Z) (cluster : Z) (r : pi4_fat32_report) : scan :=
  match hops with
  | O => Scan_bounded r
  | S hops' =>
      let v := fr_volume r in
      let fat_sector := cluster / 128 in
      let r := set_result PI4_FAT32_CHAIN_BAD r in
      if existsb (Z.eqb cluster) seen then Scan_return r
      else match pi4_fat32_cluster_lba v cluster with
      | None => Scan_return r
      | Some first =>
          if v_fat_sectors v <=? fat_sector then Scan_return r
          else
            let r := set_result PI4_FAT32_FAT_READ_BAD r in
            match pi4_fat32_read r (u32 (v_fat_first v + fat_sector)) with
            | (None, r) => Scan_return r
            | (Some buffer, r) =>
                let next := fat_entry buffer cluster in
                let r := set_result PI4_FAT32_CHAIN_BAD r in
                if bad_link v next then Scan_return r
                else
                  match scan_sectors (Z.to_nat (v_sectors_per_cluster v)) first (count_cluster r) with
                  | Scan_on r =>
                      if 0x0ffffff8 <=? next then Scan_complete r
                      else scan_clusters hops' (seen ++ [cluster]) next r
                  | other => other
                  end
            end
      end
  end.

(** The partition table, entry [i] at the head of [p], [n] left; [inl]: returned. *)
Fixpoint scan_partitions (n : nat) (i : Z) (p : list Z) (last_lba : Z) (found : bool) (r : pi4_fat32_report)
    : pi4_fat32_report + bool * pi4_fat32_report :=
  match n with
  | O => inr (found, r)
  | S n' =>
      let type := byte_at p 4 in
      let first := pi4_fat32_le32 (drop 8 p) in
      let sectors := pi4_fat32_le32 (drop 12 p) in
      if type =? 0xee then inl r
      else if negb (type =? 0x0b) && negb (type =? 0x0c) && negb (type =? 0x1b) && negb (type =? 0x1c)
      then scan_partitions n' (i + 1) (drop 16 p) last_lba found r
      else if (negb (byte_at p 0 =? 0) && negb (byte_at p 0 =? 0x80)) || (first =? 0) || (sectors =? 0) ||
              (last_lba + 1 <? first + sectors)
      then inl (set_result PI4_FAT32_PARTITION_BAD r)
      else scan_partitions n' (i + 1) (drop 16 p) last_lba true
             (if found then r else set_partition (i + 1) type first sectors r)
  end.

(** The volume and its boot sector: [inl]: returned. *)
Definition find_volume (sector0 : list Z) (last_lba : Z) (r : pi4_fat32_report)
    : pi4_fat32_report + list Z * pi4_fat32_report :=
  match (if last_lba =? UINT32_MAX then None
         else pi4_fat32_bpb sector0 0 (u32 (last_lba + 1)) last_lba) with
  | Some v =>
      inr (sector0, set_partition (fr_partition_index r) (fr_partition_type r) (fr_partition_first r)
                      (u32 (last_lba + 1)) (set_volume v r))
  | None =>
      let r := set_types (map (fun i => byte_at sector0 (450 + i * 16)) [0; 1; 2; 3]) r in
      match scan_partitions 4 0 (drop 446 sector0) last_lba false r with
      | inl r => inl r
      | inr (false, r) => inl r
      | inr (true, r) =>
          let r := set_result PI4_FAT32_BOOT_READ_BAD r in
          match pi4_fat32_read r (fr_partition_first r) with
          | (None, r) => inl r
          | (Some buffer, r) =>
              let r := set_result PI4_FAT32_BPB_BAD r in
              match pi4_fat32_bpb buffer (fr_partition_first r) (fr_partition_sectors r) last_lba with
              | None => inl r
              | Some v => inr (buffer, set_volume v r)
              end
          end
      end
  end.

Definition label_char (c : Z) : Z := if (0x20 <=? c) && (c <=? 0x7e) then c else 63.

Definition pi4_fat32_probe (sector0 : list Z) (last_lba block_bytes : Z) : pi4_fat32_report :=
  let r := set_result PI4_FAT32_UNSUPPORTED zero_report in
  if negb (block_bytes =? 512) || negb (pi4_fat32_signature sector0) then r
  else match find_volume sector0 last_lba r with
  | inl r => r
  | inr (buffer, r) =>
      let r := set_label (map (fun i => label_char (byte_at buffer (71 + i))) [0;1;2;3;4;5;6;7;8;9;10]) r in
      match scan_clusters PI4_FAT32_CLUSTER_LIMIT [] (v_root_cluster (fr_volume r)) r with
      | Scan_return r => r
      | Scan_on r | Scan_bounded r => finish false r
      | Scan_complete r => finish true r
      end
  end.

(** ** Reading a file *)

Inductive pi4_fat32_file_result :=
| PI4_FAT32_FILE_NOT_RUN | PI4_FAT32_FILE_NOT_FOUND | PI4_FAT32_FILE_ROOT_BOUNDED
| PI4_FAT32_FILE_INVALID | PI4_FAT32_FILE_TOO_LARGE | PI4_FAT32_FILE_FAT_READ_BAD
| PI4_FAT32_FILE_CHAIN_BAD | PI4_FAT32_FILE_DATA_READ_BAD | PI4_FAT32_FILE_READ_PASS.

Definition pi4_fat32_file_result_name (result : pi4_fat32_file_result) : string :=
  match result with
  | PI4_FAT32_FILE_NOT_FOUND => "test-file-not-found"
  | PI4_FAT32_FILE_ROOT_BOUNDED => "test-file-not-seen-in-bounded-root"
  | PI4_FAT32_FILE_INVALID => "invalid-file-entry"
  | PI4_FAT32_FILE_TOO_LARGE => "file-exceeds-buffer"
  | PI4_FAT32_FILE_FAT_READ_BAD => "file-FAT-read-failed"
  | PI4_FAT32_FILE_CHAIN_BAD => "invalid-file-chain"
  | PI4_FAT32_FILE_DATA_READ_BAD => "file-data-read-failed"
  | PI4_FAT32_FILE_READ_PASS => "file-read-pass"
  | PI4_FAT32_FILE_NOT_RUN => "not-run"
  end%string.

(** [ff_out]: the bytes stored so far, [ff_bytes] of them. *)
Record pi4_fat32_file_report := mk_file {
  ff_result : pi4_fat32_file_result; ff_out : list Z; ff_clusters : Z; ff_log : list Z }.

Definition ff_bytes (r : pi4_fat32_file_report) : Z := Z.of_nat (length (ff_out r)).
Definition ff_set (x : pi4_fat32_file_result) (r : pi4_fat32_file_report) : pi4_fat32_file_report :=
  mk_file x (ff_out r) (ff_clusters r) (ff_log r).
Definition ff_read (r : pi4_fat32_file_report) (lba : Z) : option (list Z) * pi4_fat32_file_report :=
  (read (length (ff_log r)) lba, mk_file (ff_result r) (ff_out r) (ff_clusters r) (lba :: ff_log r)).

(** The sectors of one cluster; [true]: returned. *)
Fixpoint file_sectors (n : nat) (lba bytes : Z) (r : pi4_fat32_file_report) : bool * pi4_fat32_file_report :=
  match n with
  | O => (false, r)
  | S n' =>
      let remaining := u32 (bytes - ff_bytes r) in
      let count := if remaining <? 512 then remaining else 512 in
      let r := ff_set PI4_FAT32_FILE_DATA_READ_BAD r in
      match ff_read r lba with
      | (None, r) => (true, r)
      | (Some buffer, r) =>
          let r := mk_file (ff_result r) (ff_out r ++ take (Z.to_nat count) buffer) (ff_clusters r) (ff_log r) in
          if ff_bytes r =? bytes then (true, ff_set PI4_FAT32_FILE_READ_PASS r)
          else file_sectors n' (u32 (lba + 1)) bytes r
      end
  end.

Fixpoint file_clusters (hops : nat) (seen : list Z) (v : pi4_fat32_volume) (cluster bytes : Z)
    (r : pi4_fat32_file_report) : pi4_fat32_file_report :=
  match hops with
  | O => ff_set PI4_FAT32_FILE_CHAIN_BAD r
  | S hops' =>
      let fat_sector := cluster / 128 in
      let r := ff_set PI4_FAT32_FILE_CHAIN_BAD r in
      if existsb (Z.eqb cluster) seen then r
      else match pi4_fat32_cluster_lba v cluster with
      | None => r
      | Some first =>
          if v_fat_sectors v <=? fat_sector then r
          else
            let r := ff_set PI4_FAT32_FILE_FAT_READ_BAD r in
            match ff_read r (u32 (v_fat_first v + fat_sector)) with
            | (None, r) => r
            | (Some buffer, r) =>
                let next := fat_entry buffer cluster in
                let r := ff_set PI4_FAT32_FILE_CHAIN_BAD r in
                if bad_link v next then r
                else
                  let r := mk_file (ff_result r) (ff_out r) (ff_clusters r + 1) (ff_log r) in
                  match file_sectors (Z.to_nat (v_sectors_per_cluster v)) first bytes r with
                  | (true, r) => r
                  | (false, r) =>
                      let r := ff_set PI4_FAT32_FILE_CHAIN_BAD r in
                      if 0x0ffffff8 <=? next then r
                      else file_clusters hops' (seen ++ [cluster]) v next bytes r
                  end
            end
      end
  end.

Definition pi4_fat32_read_file (v : pi4_fat32_volume) (file : pi4_fat32_entry) (capacity : Z)
    : pi4_fat32_file_report :=
  let r := mk_file PI4_FAT32_FILE_INVALID [] 0 [] in
  if has (fe_attributes file) 0xd8 || (v_sectors_per_cluster v =? 0) || (128 <? v_sectors_per_cluster v) then r
  else if (capacity <? fe_bytes file) || (PI4_FAT32_FILE_MAX_BYTES <? fe_bytes file)
  then ff_set PI4_FAT32_FILE_TOO_LARGE r
  else if fe_bytes file =? 0 then ff_set PI4_FAT32_FILE_READ_PASS r
  else file_clusters PI4_FAT32_FILE_CLUSTER_LIMIT [] v (fe_cluster file) (fe_bytes file) r.
End Probe.

(** ** Names *)

Definition upcase (c : Z) : Z := if (97 <=? c) && (c <=? 122) then c - 32 else c.

(** The loop over at most 13 characters of two NUL-terminated names. *)
Fixpoint name_equal_from (n : nat) (a b : list Z) : bool :=
  match n with
  | O => false
  | S n' =>
      let ac := upcase (byte_at a 0) in
      let bc := upcase (byte_at b 0) in
      if negb (ac =? bc) then false
      else if ac =? 0 then true
      else name_equal_from n' (drop 1 a) (drop 1 b)
  end.
Definition pi4_fat32_name_equal (a b : list Z) : bool := name_equal_from 13 a b.

Definition pi4_fat32_find_file (root : pi4_fat32_report) (name : list Z) : option pi4_fat32_entry :=
  if PI4_FAT32_ENTRIES <? Z.of_nat (length (fr_entry root)) then None
  else List.find (fun e => negb (has (fe_attributes e) 0xd8) && pi4_fat32_name_equal (fe_name e) name)
         (fr_entry root).

Definition pi4_fat32_test_match (data : list Z) (length_ : Z) : bool :=
  if negb (length_ =? PI4_FAT32_TEST_BYTES) then false
  else forallb (fun i => byte_at data (Z.of_nat i) =?
                         byte_at PI4_FAT32_TEST_PATTERN (Z.of_nat i mod 29)) (seq 0 (Z.to_nat length_)).
