(* ===== verification/Fat32Spec.v ===== *)
(** * The FAT32 reader: geometry, cluster chains, and the loops against them

    [good_volume] is what an accepted BIOS parameter block promises.  [path] and [chain] describe
    cluster chains on stable media, [chain_sectors] the sectors they occupy, [dir_parse] the
    directory a byte string holds.  The loops of the root scan and of the file reader are specified
    by these. *)

From S2P Require Import Prelude Fat32.

(** ** Numbers in a sector *)

Lemma fat_le16_range p : bytes_ok p -> 0 <= pi4_fat32_le16 p < 65536.
Proof.
  intros H. unfold pi4_fat32_le16. pose proof (byte_at_range p 0 H). pose proof (byte_at_range p 1 H).
  rewrite lor2_bytes by lia. lia.
Qed.

Lemma fat_le32_range p : bytes_ok p -> 0 <= pi4_fat32_le32 p < 4294967296.
Proof.
  intros H. unfold pi4_fat32_le32. pose proof (fat_le16_range p H).
  pose proof (fat_le16_range (drop 2 p) (bytes_ok_drop 2 p H)).
  rewrite (lor_shiftl_add _ _ 16) by lia. lia.
Qed.

Lemma land_le_l a b : 0 <= a -> 0 <= b -> 0 <= Z.land a b <= b.
Proof.
  intros Ha Hb. split; [apply Z.land_nonneg; lia|].
  rewrite Z.land_comm. apply Z.ldiff_le; [exact Hb|].
  apply Z.bits_inj'. intros i Hi. rewrite Z.ldiff_spec, Z.land_spec, Z.bits_0.
  destruct (Z.testbit b i), (Z.testbit a i); reflexivity.
Qed.

(** ** Geometry *)

Record good_volume (v : pi4_fat32_volume) (last_lba : Z) : Prop := {
  gv_first : 0 <= v_first v;
  gv_spc : 1 <= v_sectors_per_cluster v <= 128;
  gv_fat_after : v_first v < v_fat_first v;
  gv_fat_pos : 0 < v_fat_sectors v;
  gv_fat_before : v_fat_first v + v_fat_sectors v <= v_data_first v;
  gv_data : v_data_first v + v_clusters v * v_sectors_per_cluster v <= v_first v + v_sectors v;
  gv_end : v_first v + v_sectors v <= last_lba + 1;
  gv_last : last_lba < 4294967296;
  gv_clusters : 65525 <= v_clusters v < 0x0fffffef;
  gv_fat_covers : v_clusters v + 2 <= v_fat_sectors v * 128;
  gv_root : 2 <= v_root_cluster v <= v_clusters v + 1 }.

(** A cluster number of the volume, and the first sector of the cluster. *)
Definition in_volume (v : pi4_fat32_volume) (c : Z) : Prop := 2 <= c <= v_clusters v + 1.
Definition cluster_first (v : pi4_fat32_volume) (c : Z) : Z :=
  v_data_first v + (c - 2) * v_sectors_per_cluster v.

Section Geometry.
Context (v : pi4_fat32_volume) (last_lba : Z) (G : good_volume v last_lba).

Lemma cluster_in_data c : in_volume v c ->
  v_data_first v <= cluster_first v c /\
  cluster_first v c + v_sectors_per_cluster v <= v_first v + v_sectors v.
Proof using G.
  intros Hc. destruct G. unfold in_volume, cluster_first in *.
  pose proof (Z.mul_le_mono_nonneg_r (c - 1) (v_clusters v) (v_sectors_per_cluster v) ltac:(lia) ltac:(lia)).
  pose proof (Z.mul_nonneg_nonneg (c - 2) (v_sectors_per_cluster v) ltac:(lia) ltac:(lia)). lia.
Qed.

Lemma cluster_lba_some c : in_volume v c -> pi4_fat32_cluster_lba v c = Some (cluster_first v c).
Proof using G.
  intros Hc. pose proof (cluster_in_data c Hc) as [H1 H2]. destruct G.
  unfold pi4_fat32_cluster_lba. unfold in_volume in Hc.
  rewrite (u32_id (v_clusters v + 1)), (u32_id (c - 2)) by lia.
  replace ((c <? 2) || (v_clusters v + 1 <? c)) with false by lia.
  unfold cluster_first in *. pose proof (Z.mul_nonneg_nonneg (c - 2) (v_sectors_per_cluster v) ltac:(lia) ltac:(lia)).
  rewrite (u64_id ((c - 2) * _)) by lia. cbn zeta.
  rewrite (u64_id (v_data_first v + _)) by lia.
  rewrite (u64_id (v_first v + _)), (u64_id (_ + v_sectors_per_cluster v)) by lia.
  unfold UINT32_MAX.
  match goal with |- (if ?b then _ else _) = _ => replace b with false by lia end.
  rewrite u32_id by lia. reflexivity.
Qed.

Lemma cluster_lba_none c : ~ in_volume v c -> pi4_fat32_cluster_lba v c = None.
Proof using G.
  intros Hc. destruct G. unfold pi4_fat32_cluster_lba. unfold in_volume in Hc.
  rewrite (u32_id (v_clusters v + 1)) by lia.
  replace ((c <? 2) || (v_clusters v + 1 <? c)) with true by lia. reflexivity.
Qed.

Lemma fat_sector_in c : in_volume v c ->
  0 <= c / 128 < v_fat_sectors v /\
  u32 (v_fat_first v + c / 128) = v_fat_first v + c / 128 /\
  v_fat_first v + c / 128 < v_data_first v.
Proof using G.
  intros Hc. destruct G. unfold in_volume in Hc.
  assert (0 <= c / 128 < v_fat_sectors v).
  { split; [apply Z.div_pos; lia|]. apply Z.div_lt_upper_bound; lia. }
  split; [assumption|]. split; [apply u32_id|]; nia.
Qed.

Lemma bad_link_false next :
  bad_link v next = false <-> 0x0ffffff8 <= next \/ in_volume v next.
Proof using G.
  destruct G. unfold bad_link, in_volume. rewrite (u32_id (v_clusters v + 1)) by lia. lia.
Qed.
End Geometry.

(** The active copy of the table ends within the copies. *)
Lemma active_copy fats active fat : fats = 1 \/ fats = 2 -> 0 <= active < fats -> 0 <= fat ->
  0 <= active * fat /\ active * fat + fat <= fats * fat /\ fat <= fats * fat.
Proof. intros Hf Ha Hp. assert (active = 0 \/ active = 1) as [-> | ->] by lia; destruct Hf as [-> | ->]; lia. Qed.

(** An accepted BIOS parameter block describes a good volume. *)
Lemma bpb_good b first partition_sectors last_lba v :
  bytes_ok b -> 0 <= first < 4294967296 -> 0 <= last_lba < 4294967296 ->
  pi4_fat32_bpb b first partition_sectors last_lba = Some v ->
  good_volume v last_lba /\ v_first v = first /\ v_sectors v <= partition_sectors /\
  (exists k, 0 <= k <= 7 /\ v_sectors_per_cluster v = 2 ^ k).
Proof.
  intros Hb Hf Hl. unfold pi4_fat32_bpb.
  set (spc := byte_at b 13). set (reserved := pi4_fat32_le16 (drop 14 b)).
  set (fats := byte_at b 16). set (total := pi4_fat32_le32 (drop 32 b)).
  set (fat := pi4_fat32_le32 (drop 36 b)). set (flags := pi4_fat32_le16 (drop 40 b)).
  set (active := if has flags 0x80 then _ else _). set (root := pi4_fat32_le32 (drop 44 b)).
  assert (Hspc : 0 <= spc < 256) by (apply byte_at_range; assumption).
  assert (Hres : 0 <= reserved < 65536) by (apply fat_le16_range; auto with buf).
  assert (Hfats : 0 <= fats < 256) by (apply byte_at_range; assumption).
  assert (Htot : 0 <= total < 4294967296) by (apply fat_le32_range; auto with buf).
  assert (Hfat : 0 <= fat < 4294967296) by (apply fat_le32_range; auto with buf).
  assert (Hflags : 0 <= flags < 65536) by (apply fat_le16_range; auto with buf).
  assert (Hact : 0 <= active).
  { unfold active. case_if; [|lia]. apply Z.land_nonneg. lia. }
  assert (Hroot : 0 <= root < 4294967296) by (apply fat_le32_range; auto with buf).
  assert (Hpow : has spc (spc - 1) = false -> spc <> 0 -> spc <= 128 ->
                 exists k, 0 <= k <= 7 /\ spc = 2 ^ k).
  { clearbody spc. intros H0 Hn Hle.
    assert (Hin : In spc (map Z.of_nat (seq 1 128))).
    { apply in_map_iff. exists (Z.to_nat spc). rewrite in_seq. lia. }
    assert (Hall : forallb (fun x => has x (x - 1) || existsb (fun k => x =? 2 ^ Z.of_nat k) (seq 0 8))
                     (map Z.of_nat (seq 1 128)) = true) by reflexivity.
    rewrite forallb_forall in Hall. specialize (Hall _ Hin). rewrite H0 in Hall. cbn [orb] in Hall.
    apply existsb_exists in Hall. destruct Hall as (k & Hk & He). apply in_seq in Hk.
    exists (Z.of_nat k). lia. }
  clearbody spc reserved fats total fat flags active root.
  rewrite (u64_id (fats * fat)) by nia. rewrite (u64_id (reserved + _)) by nia. cbn zeta.
  match goal with |- context [if ?c then _ else _] => destruct c eqn:E end; [discriminate|].
  match goal with |- context [if ?c then _ else _] => destruct c eqn:E2 end; [discriminate|].
  bool_hyps. intros [= <-].
  assert (Hfa : fats = 1 \/ fats = 2) by lia.
  destruct Hpow as (k & Hk & Hpow); [assumption | lia | lia |].
  set (overhead := reserved + fats * fat) in *.
  assert (Hov : 0 < overhead < total) by (unfold overhead; nia).
  rewrite (u64_id (first + total)) in * by lia. rewrite (u64_id (fat * 128)) in * by lia.
  set (clusters := (total - overhead) / spc) in *.
  assert (Hcl : clusters * spc <= total - overhead).
  { unfold clusters. rewrite Z.mul_comm. apply Z.mul_div_le. lia. }
  assert (Haf : 0 <= active * fat /\ active * fat + fat <= fats * fat /\ fat <= fats * fat) by (apply active_copy; lia).
  assert (Hov2 : overhead = reserved + fats * fat) by reflexivity.
  clearbody clusters overhead.
  set (cs := clusters * spc) in *. set (af := active * fat) in *. set (ff := fats * fat) in *.
  clearbody af ff.
  assert (Hcs : 0 <= clusters) by lia.
  rewrite (u32_id af), (u32_id (first + reserved)) by lia.
  rewrite (u32_id (_ + _ + af)), (u32_id overhead), (u32_id clusters) by lia.
  rewrite (u32_id (first + overhead)) by lia.
  split; [|cbn; split; [reflexivity|]; split; [lia|]; exists k; auto].
  split; cbn; fold cs; clearbody cs; lia.
Qed.

(** ** Lists of sectors *)

Lemma mapM_app_inv {A B} (f : A -> option B) l1 : forall l2 k,
  mapM f (l1 ++ l2) = Some k <->
  exists k1 k2, mapM f l1 = Some k1 /\ mapM f l2 = Some k2 /\ k = k1 ++ k2.
Proof.
  intros l2 k. rewrite !mapM_Some. split.
  - intros H. apply Forall2_app_inv_l in H as (k1 & k2 & H1 & H2 & ->).
    exists k1, k2. rewrite !mapM_Some. auto.
  - intros (k1 & k2 & H1 & H2 & ->). apply mapM_Some in H1, H2. apply Forall2_app; assumption.
Qed.

Lemma seqZ_next lba n : seqZ lba (Z.of_nat (S n)) = lba :: seqZ (lba + 1) (Z.of_nat n).
Proof. rewrite seqZ_cons by lia. f_equal. f_equal; lia. Qed.

(** The number of sectors that hold [bytes] bytes. *)
Definition needed (bytes : Z) : nat := Z.to_nat ((bytes + 511) / 512).

Lemma needed_pos bytes : 0 < bytes -> needed bytes = S (needed (bytes - 512)).
Proof.
  intros H. unfold needed. replace (bytes + 511) with (bytes - 512 + 511 + 1 * 512) by lia.
  rewrite Z.div_add by lia. rewrite Z2Nat.inj_add by (try apply Z.div_pos; lia). lia.
Qed.

Lemma needed_zero bytes : bytes <= 0 -> needed bytes = 0%nat.
Proof. intros H. unfold needed. assert ((bytes + 511) / 512 < 1) by (apply Z.div_lt_upper_bound; lia). lia. Qed.

Lemma needed_le bytes n : 0 <= n -> (bytes <= 512 * n <-> Z.of_nat (needed bytes) <= n).
Proof.
  intros Hn. unfold needed. split; intros H.
  - destruct (Z.le_gt_cases 0 ((bytes + 511) / 512)) as [Hp|Hp]; [|lia].
    rewrite Z2Nat.id by lia. assert ((bytes + 511) / 512 < n + 1) by (apply Z.div_lt_upper_bound; lia). lia.
  - assert ((bytes + 511) / 512 <= n) by lia.
    assert (bytes + 511 < 512 * (n + 1)); [|lia].
    pose proof (Z.mul_succ_div_gt (bytes + 511) 512). lia.
Qed.

Lemma needed_sub bytes n : 0 <= n -> needed (bytes - 512 * n) = (needed bytes - Z.to_nat n)%nat.
Proof.
  intros Hn. unfold needed. replace (bytes - 512 * n + 511) with (bytes + 511 + (- n) * 512) by lia.
  rewrite Z.div_add by lia. lia.
Qed.

(** ** Cluster chains on stable media *)

Section Chains.
Context (v : pi4_fat32_volume) (media : Z -> option (list Z)).

(** The callback that reads the media. *)
Definition reader (n : nat) (lba : Z) : option (list Z) := media lba.

Lemma reader_eq n lba : reader n lba = media lba.
Proof. reflexivity. Qed.

Definition fat_next (c : Z) : option Z :=
  match media (v_fat_first v + c / 128) with Some b => Some (fat_entry b c) | None => None end.

(** [path c cs next]: the clusters [cs] from [c] on, [next] the FAT entry of the last. *)
Inductive path : Z -> list Z -> Z -> Prop :=
| path_one c next :
    in_volume v c -> fat_next c = Some next -> 0x0ffffff8 <= next \/ in_volume v next -> path c [c] next
| path_cons c next cs last :
    in_volume v c -> fat_next c = Some next -> in_volume v next -> path next cs last ->
    path c (c :: cs) last.

(** A whole chain: the last entry is an end mark. *)
Definition chain (c : Z) (cs : list Z) : Prop := exists next, path c cs next /\ 0x0ffffff8 <= next.

Definition chain_sectors (cs : list Z) : list Z :=
  cs ≫= fun c => seqZ (cluster_first v c) (v_sectors_per_cluster v).

Lemma path_head c cs next : path c cs next -> exists cs', cs = c :: cs'.
Proof. destruct 1; eauto. Qed.

Lemma path_det c cs1 n1 : path c cs1 n1 -> forall cs2 n2, path c cs2 n2 ->
  0x0ffffff8 <= n1 -> 0x0ffffff8 <= n2 -> v_clusters v < 0x0fffffef -> cs1 = cs2.
Proof.
  induction 1 as [c n H1 H2 H3|c n cs last H1 H2 H3 H4 IH]; intros cs2 n2 P; destruct P; intros; unfold in_volume in *.
  - reflexivity.
  - simplify_eq. lia.
  - simplify_eq. lia.
  - simplify_eq. f_equal. eapply IH; eassumption.
Qed.

Lemma path_suffix c cs next : path c cs next -> forall d, In d cs ->
  exists ds, path d ds next /\ (length ds <= length cs)%nat /\ (d <> c -> length ds < length cs)%nat.
Proof.
  induction 1 as [c n H1 H2 H3|c n cs last H1 H2 H3 H4 IH]; intros d Hin.
  - destruct Hin as [<-|[]]. exists [c]. split; [constructor; assumption|]. split; [lia|congruence].
  - destruct Hin as [<-|Hin].
    + exists (c :: cs). split; [econstructor; eassumption|]. split; [lia|congruence].
    + destruct (IH d Hin) as (ds & P & L & _). exists ds. cbn. split; [assumption|]. split; intros; lia.
Qed.

(** A chain that ends visits no cluster twice. *)
Lemma chain_nodup c cs : chain c cs -> v_clusters v < 0x0fffffef -> NoDup cs.
Proof.
  intros (next & P & Hn) Hv. induction P as [c n H1 H2 H3|c n cs last H1 H2 H3 H4 IH].
  - apply NoDup_singleton.
  - apply NoDup_cons_2; [|auto]. intros Hin. apply list_elem_of_In in Hin.
    destruct (path_suffix _ _ _ H4 c Hin) as (ds & P & L & _).
    assert (ds = c :: cs) as -> by (eapply path_det; [exact P| |..]; [econstructor; eassumption|lia..]).
    cbn in L. lia.
Qed.

Lemma chain_sectors_cons c cs :
  chain_sectors (c :: cs) = seqZ (cluster_first v c) (v_sectors_per_cluster v) ++ chain_sectors cs.
Proof. reflexivity. Qed.
End Chains.

(** ** Reading a file *)

Section ReadFile.
Context (v : pi4_fat32_volume) (last_lba : Z) (G : good_volume v last_lba).
Context (media : Z -> option (list Z)).
Context (media_len : forall lba b, media lba = Some b -> length b = 512%nat).

Definition sectors_read (bytes : Z) (sectors : list Z) (out out' : list Z) : Prop :=
  exists bufs, mapM media (take (needed (bytes - Z.of_nat (length out))) sectors) = Some bufs /\
    out' = take (Z.to_nat bytes) (out ++ concat bufs).

Lemma sectors_read_nil bytes sectors out :
  bytes <= Z.of_nat (length out) -> sectors_read bytes sectors out (take (Z.to_nat bytes) out).
Proof.
  intros H. exists []. rewrite needed_zero by lia. split; [reflexivity|]. rewrite app_nil_r. reflexivity.
Qed.

Lemma sectors_read_step bytes lba sectors out b out' :
  Z.of_nat (length out) < bytes -> media lba = Some b ->
  let out1 := out ++ take (Z.to_nat (Z.min (bytes - Z.of_nat (length out)) 512)) b in
  (sectors_read bytes sectors out1 out' <-> sectors_read bytes (lba :: sectors) out out').
Proof.
  intros Hlt Hb. pose proof (media_len _ _ Hb) as L. cbn zeta.
  unfold sectors_read. rewrite (needed_pos (bytes - Z.of_nat (length out))) by lia.
  cbn [take].
  destruct (Z.lt_ge_cases (bytes - Z.of_nat (length out)) 512) as [Hs|Hs].
  - rewrite Z.min_l by lia.
    rewrite !length_app, !length_take, (needed_zero (bytes - _)), (needed_zero (_ - 512)) by lia.
    cbn [take mapM]. cbn. rewrite Hb. cbn. split; intros (bufs & [= <-] & ->).
    + exists [b]. split; [reflexivity|]. cbn. rewrite !app_nil_r.
      rewrite !take_app, !take_take. do 2 f_equal; lia.
    + exists []. split; [reflexivity|]. cbn. rewrite !app_nil_r.
      rewrite !take_app, !take_take. do 2 f_equal; lia.
  - rewrite Z.min_r by lia. rewrite (take_ge b) by lia. rewrite length_app.
    replace (bytes - Z.of_nat (length out + length b)) with (bytes - Z.of_nat (length out) - 512) by lia.
    cbn [mapM]. cbn. rewrite Hb. cbn.
    split; intros (bufs & Hm & ->).
    + rewrite Hm. cbn. exists (b :: bufs). rewrite <- app_assoc. split; reflexivity.
    + destruct (mapM media _) as [bufs'|]; [|discriminate]. injection Hm as <-.
      exists bufs'. rewrite <- app_assoc. split; reflexivity.
Qed.

Lemma sectors_read_some bytes sectors out :
  (exists out', sectors_read bytes sectors out out') <->
  mapM media (take (needed (bytes - Z.of_nat (length out))) sectors) <> None.
Proof.
  unfold sectors_read. split.
  - intros (out' & bufs & -> & _). discriminate.
  - destruct (mapM media _) as [bufs|] eqn:E; [eauto|congruence].
Qed.

Lemma sectors_read_fun bytes sectors out o1 o2 :
  sectors_read bytes sectors out o1 -> sectors_read bytes sectors out o2 -> o1 = o2.
Proof. intros (b1 & H1 & ->) (b2 & H2 & ->). congruence. Qed.

Lemma file_sectors_spec n : forall lba bytes r,
  0 <= lba -> lba + Z.of_nat n <= 4294967296 -> ff_bytes r < bytes < 4294967296 ->
  let sectors := seqZ lba (Z.of_nat n) in
  exists stop r', file_sectors (reader media) n lba bytes r = (stop, r') /\
    ((stop = true /\ ff_result r' = PI4_FAT32_FILE_READ_PASS /\ bytes <= ff_bytes r + 512 * Z.of_nat n /\
      ff_bytes r' = bytes /\ sectors_read bytes sectors (ff_out r) (ff_out r')) \/
     (stop = true /\ ff_result r' = PI4_FAT32_FILE_DATA_READ_BAD /\
      ~ exists out', sectors_read bytes sectors (ff_out r) out') \/
     (stop = false /\ ff_bytes r + 512 * Z.of_nat n < bytes /\ ff_bytes r' = ff_bytes r + 512 * Z.of_nat n /\
      sectors_read bytes sectors (ff_out r) (ff_out r'))).
Proof using media_len.
  induction n as [|n IH]; intros lba bytes r Hl Hn Hb; cbn zeta.
  - exists false, r. split; [reflexivity|]. right. right. split; [reflexivity|]. split; [lia|]. split; [lia|].
    unfold ff_bytes in Hb. exists []. change (seqZ lba (Z.of_nat 0)) with (@nil Z). rewrite take_nil, app_nil_r, take_ge by lia. split; reflexivity.
  - cbn [file_sectors]. unfold ff_read, reader. rewrite seqZ_next.
    assert (H0 : 0 <= ff_bytes r) by (unfold ff_bytes; lia).
    rewrite (u32_id (bytes - ff_bytes r)) by lia. cbn [ff_out ff_set ff_log ff_clusters ff_result].
    replace (if bytes - ff_bytes r <? 512 then bytes - ff_bytes r else 512)
      with (Z.min (bytes - ff_bytes r) 512) by (destruct (Z.ltb_spec (bytes - ff_bytes r) 512); lia).
    destruct (media lba) as [b|] eqn:Eb.
    2:{ eexists true, _. split; [reflexivity|]. right. left. split; [reflexivity|]. split; [reflexivity|].
        rewrite sectors_read_some. unfold ff_bytes in Hb. rewrite needed_pos by lia. cbn. rewrite Eb. cbn. auto. }
    pose proof (media_len _ _ Eb) as Lb. cbn zeta.
    set (r1 := mk_file _ (ff_out r ++ _) _ _).
    assert (B1 : ff_bytes r1 = ff_bytes r + Z.min (bytes - ff_bytes r) 512).
    { unfold r1, ff_bytes. cbn [ff_out]. rewrite length_app, length_take. unfold ff_bytes in Hb, H0. lia. }
    assert (Hstep : forall o, sectors_read bytes (seqZ (lba + 1) (Z.of_nat n)) (ff_out r1) o <->
                      sectors_read bytes (lba :: seqZ (lba + 1) (Z.of_nat n)) (ff_out r) o).
    { intros o. apply sectors_read_step; [exact (proj1 Hb)|exact Eb]. }
    destruct (Z.eqb_spec (ff_bytes r1) bytes) as [He|He].
    + eexists true, _. split; [reflexivity|]. left. split; [reflexivity|]. split; [reflexivity|].
      split; [lia|]. split; [exact He|]. apply Hstep. unfold ff_bytes in He.
      cbn [ff_out ff_set]. pattern (ff_out r1) at 2. rewrite <- (take_ge (ff_out r1) (Z.to_nat bytes)) by lia.
      apply sectors_read_nil. lia.
    + destruct n as [|n].
      * exists false, r1. split; [reflexivity|]. right. right. split; [reflexivity|].
        split; [lia|]. split; [lia|]. apply Hstep. exists []. change (seqZ (lba + 1) (Z.of_nat 0)) with (@nil Z).
        rewrite take_nil, app_nil_r, take_ge; [auto|].
        unfold ff_bytes in B1, He |- *. lia.
      * rewrite (u32_id (lba + 1)) by lia.
        destruct (IH (lba + 1) bytes r1) as (stop & r' & E & D); [lia..|].
        exists stop, r'. split; [exact E|]. rewrite !Hstep in D.
        destruct D as [(?&?&?&?&?)|[(?&?&D)|(?&?&?&?)]].
        -- left. repeat split; try assumption; lia.
        -- right. left. repeat split; try assumption. intros (o & Ho). apply D. exists o. apply Hstep, Ho.
        -- right. right. repeat split; try assumption; lia.
Qed.

Lemma length_concat_sectors l bufs : mapM media l = Some bufs -> length (concat bufs) = (512 * length l)%nat.
Proof using media_len.
  intros H. apply mapM_Some in H. induction H as [|a b l bufs Hab _ IH]; [reflexivity|].
  cbn. rewrite length_app, IH, (media_len _ _ Hab). lia.
Qed.

Lemma sectors_read_done bytes s1 s2 out o :
  bytes <= Z.of_nat (length out) + 512 * Z.of_nat (length s1) ->
  (sectors_read bytes (s1 ++ s2) out o <-> sectors_read bytes s1 out o).
Proof using.
  intros H. unfold sectors_read.
  assert (Z.of_nat (needed (bytes - Z.of_nat (length out))) <= Z.of_nat (length s1)).
  { apply needed_le; lia. }
  rewrite take_app_le by lia. reflexivity.
Qed.

Lemma sectors_read_more bytes s1 s2 out o1 o :
  Z.of_nat (length out) + 512 * Z.of_nat (length s1) <= bytes ->
  sectors_read bytes s1 out o1 ->
  (sectors_read bytes (s1 ++ s2) out o <-> sectors_read bytes s2 o1 o).
Proof using media_len.
  intros H (b1 & H1 & ->). set (need := needed _) in *.
  assert (Hn : (length s1 <= need)%nat).
  { unfold need. destruct (Z.le_gt_cases (Z.of_nat (length s1)) (Z.of_nat (needed (bytes - Z.of_nat (length out))))) as [|Hgt]; [lia|].
    assert (bytes - Z.of_nat (length out) <= 512 * (Z.of_nat (length s1) - 1)) by (apply needed_le; lia). lia. }
  rewrite take_ge in H1 by lia. pose proof (length_concat_sectors _ _ H1) as L1.
  rewrite (take_ge (out ++ _)) by (rewrite length_app; lia).
  assert (Hd : needed (bytes - Z.of_nat (length (out ++ concat b1))) = (need - length s1)%nat).
  { rewrite length_app, L1. unfold need. rewrite <- (Nat2Z.id (length s1)) at 2.
    rewrite <- needed_sub by lia. f_equal. lia. }
  unfold sectors_read. fold need. rewrite Hd, take_app_ge by lia. split.
  - intros (bufs & Hm & ->). apply mapM_app_inv in Hm as (k1 & k2 & K1 & K2 & ->).
    exists k2. split; [exact K2|]. rewrite concat_app. assert (k1 = b1) as -> by congruence.
    rewrite app_assoc. reflexivity.
  - intros (k2 & K2 & ->). exists (b1 ++ k2). rewrite concat_app, app_assoc. split; [|reflexivity].
    apply mapM_app_inv. eauto.
Qed.

Lemma cluster_sectors c : in_volume v c ->
  Z.of_nat (length (seqZ (cluster_first v c) (v_sectors_per_cluster v))) = v_sectors_per_cluster v /\
  0 <= cluster_first v c /\ cluster_first v c + v_sectors_per_cluster v <= 4294967296 /\
  Z.of_nat (Z.to_nat (v_sectors_per_cluster v)) = v_sectors_per_cluster v.
Proof using G.
  intros Hc. pose proof (cluster_in_data _ _ G c Hc). destruct G.
  rewrite length_seqZ. lia.
Qed.

Lemma seen_false c (seen : list Z) : existsb (Z.eqb c) seen = false <-> c ∉ seen.
Proof using.
  rewrite list_elem_of_In. split.
  - intros H Hin. assert (existsb (Z.eqb c) seen = true); [|congruence].
    apply existsb_exists. exists c. rewrite Z.eqb_refl. auto.
  - intros H. destruct (existsb _ seen) eqn:E; [|reflexivity].
    apply existsb_exists in E as (x & Hx & E). apply Z.eqb_eq in E as ->. contradiction.
Qed.

(** One turn of the chain loop, at a cluster whose FAT entry reads and is a proper link. *)
Lemma file_clusters_step hops seen c next bytes r :
  in_volume v c -> fat_next v media c = Some next -> 0x0ffffff8 <= next \/ in_volume v next ->
  c ∉ seen -> ff_bytes r < bytes < 4294967296 ->
  let sectors := seqZ (cluster_first v c) (v_sectors_per_cluster v) in
  exists r1,
    ((ff_result r1 = PI4_FAT32_FILE_READ_PASS /\ ff_bytes r1 = bytes /\
      bytes <= ff_bytes r + 512 * v_sectors_per_cluster v /\
      sectors_read bytes sectors (ff_out r) (ff_out r1) /\
      file_clusters (reader media) (S hops) seen v c bytes r = r1) \/
     (ff_result r1 <> PI4_FAT32_FILE_READ_PASS /\
      (~ exists out', sectors_read bytes sectors (ff_out r) out') /\
      file_clusters (reader media) (S hops) seen v c bytes r = r1) \/
     (ff_bytes r1 = ff_bytes r + 512 * v_sectors_per_cluster v /\ ff_bytes r1 < bytes /\
      ff_result r1 = PI4_FAT32_FILE_CHAIN_BAD /\
      sectors_read bytes sectors (ff_out r) (ff_out r1) /\
      file_clusters (reader media) (S hops) seen v c bytes r =
        if 0x0ffffff8 <=? next then r1 else file_clusters (reader media) hops (seen ++ [c]) v next bytes r1)).
Proof using G media_len.
  intros Hc Hn Hl Hs Hb. cbn zeta. cbn [file_clusters].
  rewrite (proj2 (seen_false c seen) Hs), (cluster_lba_some _ _ G c Hc).
  destruct (fat_sector_in _ _ G c Hc) as (F1 & F2 & _).
  replace (v_fat_sectors v <=? c / 128) with false by lia. cbn zeta. rewrite F2.
  unfold fat_next in Hn. unfold ff_read. cbn [ff_log ff_set ff_out ff_clusters ff_result]. rewrite reader_eq.
  destruct (media (v_fat_first v + c / 128)) as [b|]; [|discriminate]. injection Hn as <-.
  rewrite (proj2 (bad_link_false _ _ G _) Hl).
  set (r0 := mk_file _ _ (ff_clusters r + 1) _).
  destruct (cluster_sectors c Hc) as (_ & C1 & C2 & C3).
  destruct (file_sectors_spec (Z.to_nat (v_sectors_per_cluster v)) (cluster_first v c) bytes r0)
    as (stop & r' & E & D); [lia | lia | exact Hb |].
  rewrite C3 in D. rewrite E. cbn [ff_out r0] in D. change (ff_bytes r0) with (ff_bytes r) in D.
  destruct D as [(->&H1&H2&H3&H4)|[(->&H1&H2)|(->&H1&H2&H3)]].
  - exists r'. left. repeat split; assumption.
  - exists r'. right. left. split; [congruence|]. split; [exact H2|reflexivity].
  - exists (ff_set PI4_FAT32_FILE_CHAIN_BAD r'). right. right. change (ff_bytes (ff_set _ r')) with (ff_bytes r').
    rewrite H2. repeat split; try assumption.
Qed.

Lemma path_head_link c cs next : path v media c cs next ->
  in_volume v c /\ exists n, fat_next v media c = Some n /\ (0x0ffffff8 <= n \/ in_volume v n) /\
  (cs = [c] /\ n = next \/ exists cs', cs = c :: cs' /\ path v media n cs' next /\ in_volume v n).
Proof using.
  destruct 1 as [c n H1 H2 H3|c n cs last H1 H2 H3 H4]; (split; [assumption|]); exists n; eauto 10.
Qed.

Lemma file_clusters_complete hops : forall seen c cs next bytes r out',
  path v media c cs next -> NoDup cs -> (forall d, d ∈ cs -> d ∉ seen) ->
  ff_bytes r < bytes < 4294967296 -> bytes <= ff_bytes r + 512 * Z.of_nat hops ->
  bytes <= ff_bytes r + 512 * Z.of_nat (length (chain_sectors v cs)) ->
  sectors_read bytes (chain_sectors v cs) (ff_out r) out' ->
  let r' := file_clusters (reader media) hops seen v c bytes r in
  ff_result r' = PI4_FAT32_FILE_READ_PASS /\ ff_out r' = out'.
Proof using G media_len.
  induction hops as [|hops IH]; intros seen c cs next bytes r out' P ND Hs Hb Hh Hl Hr; cbn zeta; [lia|].
  pose proof (gv_spc _ _ G) as Hspc. pose proof (gv_clusters _ _ G) as Hcl.
  destruct (path_head_link _ _ _ P) as (Hc & n & Hn & Hln & Hcs).
  destruct (path_head _ _ _ _ _ P) as (cs0 & ->).
  destruct (cluster_sectors c Hc) as (C1 & C2 & C3 & C4).
  rewrite chain_sectors_cons in Hl, Hr. rewrite length_app, Nat2Z.inj_add, C1 in Hl.
  assert (Hfst : exists o, sectors_read bytes (seqZ (cluster_first v c) (v_sectors_per_cluster v)) (ff_out r) o).
  { destruct Hr as (bufs & Hm & _). rewrite firstn_app in Hm. apply mapM_app_inv in Hm as (k1 & _ & K & _).
    eexists. exists k1. split; [exact K|reflexivity]. }
  destruct (file_clusters_step hops seen c n bytes r Hc Hn Hln) as (r1 & D); [apply Hs; left | exact Hb |].
  destruct D as [(R1&R2&R3&R4& ->)|[(_&R2&_)|(R1&R2&R3&R4& ->)]].
  - split; [exact R1|]. apply sectors_read_done in Hr; [|rewrite C1; unfold ff_bytes in R3; lia].
    eapply sectors_read_fun; eassumption.
  - contradiction.
  - destruct Hcs as [[[= ->] ->]|(cs' & [= <-] & P' & Hin)]; [cbn in Hl; lia|].
    assert ((0x0ffffff8 <=? n) = false) as -> by (unfold in_volume in Hin; lia).
    eapply IH; [exact P' | exact (NoDup_cons_1_2 _ _ ND) | | lia | lia | lia |].
    + intros d Hd Hin'. apply elem_of_app in Hin' as [Hin'|Hin'].
      * apply (Hs d); [right; exact Hd | exact Hin'].
      * apply list_elem_of_singleton in Hin' as ->. exact (NoDup_cons_1_1 _ _ ND Hd).
    + refine (proj1 (sectors_read_more _ _ _ _ _ _ _ R4) Hr). rewrite C1. unfold ff_bytes in R1, R2. lia.
Qed.

Lemma file_clusters_sound hops : forall seen c bytes r,
  ff_bytes r < bytes < 4294967296 ->
  let r' := file_clusters (reader media) hops seen v c bytes r in
  ff_result r' = PI4_FAT32_FILE_READ_PASS ->
  exists cs next, path v media c cs next /\ NoDup cs /\ (forall d, d ∈ cs -> d ∉ seen) /\
    bytes <= ff_bytes r + 512 * Z.of_nat (length (chain_sectors v cs)) /\ ff_bytes r' = bytes /\
    sectors_read bytes (chain_sectors v cs) (ff_out r) (ff_out r').
Proof using G media_len.
  induction hops as [|hops IH]; intros seen c bytes r Hb; cbn zeta; [discriminate|].
  destruct (decide (c ∈ seen)) as [Hin|Hs].
  { cbn [file_clusters]. destruct (existsb (Z.eqb c) seen) eqn:E; [discriminate|].
    apply seen_false in E. contradiction. }
  destruct (decide (2 <= c /\ c <= v_clusters v + 1)) as [Hc|Hc].
  2:{ cbn [file_clusters]. rewrite (proj2 (seen_false c seen) Hs), (cluster_lba_none _ _ G c Hc). discriminate. }
  destruct (fat_sector_in _ _ G c Hc) as (F1 & F2 & _).
  destruct (fat_next v media c) as [n|] eqn:Hn.
  2:{ cbn [file_clusters]. rewrite (proj2 (seen_false c seen) Hs), (cluster_lba_some _ _ G c Hc).
      replace (v_fat_sectors v <=? c / 128) with false by lia. cbn zeta. unfold ff_read. rewrite F2, reader_eq.
      unfold fat_next in Hn. destruct (media (v_fat_first v + c / 128)); discriminate. }
  destruct (bad_link v n) eqn:Hbad.
  { cbn [file_clusters]. rewrite (proj2 (seen_false c seen) Hs), (cluster_lba_some _ _ G c Hc).
    replace (v_fat_sectors v <=? c / 128) with false by lia. cbn zeta. unfold ff_read. rewrite F2, reader_eq.
    unfold fat_next in Hn. destruct (media (v_fat_first v + c / 128)); [|discriminate].
    injection Hn as ->. rewrite Hbad. discriminate. }
  apply (bad_link_false _ _ G) in Hbad.
  destruct (cluster_sectors c Hc) as (C1 & C2 & C3 & C4).
  destruct (file_clusters_step hops seen c n bytes r Hc Hn Hbad Hs Hb) as (r1 & D).
  destruct D as [(R1&R2&R3&R4& ->)|[(R1&_& ->)|(R1&R2&R3&R4& ->)]]; [|contradiction|].
  - intros _. exists [c], n. split; [constructor; assumption|]. split; [apply NoDup_singleton|].
    split; [intros d Hd; apply list_elem_of_singleton in Hd as ->; exact Hs|].
    rewrite chain_sectors_cons, length_app. split; [lia|]. split; [exact R2|]. rewrite app_nil_r. exact R4.
  - destruct (0x0ffffff8 <=? n) eqn:En; [intros H; congruence|].
    assert (Hin : in_volume v n) by (destruct Hbad; [lia|assumption]).
    intros Hp. destruct (IH _ _ _ _ (conj R2 (proj2 Hb)) Hp) as (cs & next & P & ND & Hsn & L & Hbytes & Hrd).
    exists (c :: cs), next. split; [econstructor; eassumption|].
    split; [apply NoDup_cons_2; [|exact ND]; intros Hd; apply (Hsn c Hd), elem_of_app; right; left|].
    split.
    { intros d Hd. apply elem_of_cons in Hd as [->|Hd]; [exact Hs|]. intros Hd'. apply (Hsn d Hd), elem_of_app; auto. }
    rewrite chain_sectors_cons, length_app. split; [lia|]. split; [exact Hbytes|].
    refine (proj2 (sectors_read_more _ _ _ _ _ _ _ R4) Hrd). rewrite C1. unfold ff_bytes in R1, R2. lia.
Qed.
End ReadFile.

(** ** What the root scan may touch and report, whatever the callback answers *)

(** A sector the reader may ask for: the boot sector, the active FAT, or the data area. *)
Definition read_target (v : pi4_fat32_volume) (lba : Z) : Prop :=
  lba = v_first v \/ v_fat_first v <= lba < v_fat_first v + v_fat_sectors v \/
  v_data_first v <= lba < v_data_first v + v_clusters v * v_sectors_per_cluster v.

Definition printable (c : Z) : Prop := 0x20 <= c <= 0x7e.

Definition entry_ok (v : pi4_fat32_volume) (e : pi4_fat32_entry) : Prop :=
  (length (fe_name e) <= 12)%nat /\ Forall printable (fe_name e) /\ is_u 32 (fe_bytes e) /\
  (in_volume v (fe_cluster e) \/
   fe_cluster e = 0 /\ fe_bytes e = 0 /\ has (fe_attributes e) 16 = false).

Definition report_ok (v : pi4_fat32_volume) (reads : Z) (r : pi4_fat32_report) : Prop :=
  fr_volume r = v /\ Forall (read_target v) (fr_log r) /\ Z.of_nat (length (fr_log r)) <= reads /\
  Forall (entry_ok v) (fr_entry r) /\ (length (fr_entry r) <= 8)%nat /\
  fr_complete r = false /\ fr_bounded r = false /\
  fr_result r <> PI4_FAT32_ROOT_PASS /\ fr_result r <> PI4_FAT32_ROOT_PARTIAL.

(** Between steps [reads] also pays for the directory sectors left. *)
Definition scanning (v : pi4_fat32_volume) (reads : Z) (r : pi4_fat32_report) : Prop :=
  report_ok v (reads - (8 - fr_directory_sectors r)) r /\ 0 <= fr_directory_sectors r <= 8 /\
  (length (fr_entry r) < 8)%nat.

Definition scan_ok (v : pi4_fat32_volume) (reads : Z) (s : scan) : Prop :=
  match s with
  | Scan_on r => scanning v reads r
  | Scan_return r | Scan_bounded r | Scan_complete r => report_ok v reads r
  end.

Lemma scanning_report v reads r : scanning v reads r -> report_ok v reads r.
Proof. intros (H & D & L). unfold report_ok in *. intuition lia. Qed.

Lemma report_ok_more v reads reads' r : report_ok v reads r -> reads <= reads' -> report_ok v reads' r.
Proof. unfold report_ok. intuition lia. Qed.

Lemma trim_right_length l : (length (trim_right l) <= length l)%nat.
Proof.
  induction l as [|c l IH]; cbn; [lia|]. destruct (trim_right l); [destruct (c =? CH_SPACE)|]; cbn in *; lia.
Qed.

Lemma name_char_printable lower c : printable (name_char lower c).
Proof. unfold name_char, printable. repeat case_if; lia. Qed.

Lemma short_name_ok d : (length (short_name d) <= 12)%nat /\ Forall printable (short_name d).
Proof.
  unfold short_name.
  pose proof (trim_right_length (take 8 d)) as L1. pose proof (trim_right_length (take 3 (drop 8 d))) as L2.
  rewrite length_take in L1, L2.
  assert (Hp : forall lower l, Forall printable (map (name_char lower) l)).
  { intros lower l. induction l; constructor; [apply name_char_printable|assumption]. }
  set (base := map _ (trim_right (take 8 d))). set (ext := map _ (trim_right (take 3 (drop 8 d)))).
  assert (Lb : (length base <= 8)%nat) by (unfold base; rewrite length_map; lia).
  assert (Le : (length ext <= 3)%nat) by (unfold ext; rewrite length_map; lia).
  assert (Pb : Forall printable base) by apply Hp. assert (Pe : Forall printable ext) by apply Hp.
  clearbody base ext. split.
  - rewrite length_app. destruct ext; cbn in *; lia.
  - apply Forall_app. split; [assumption|]. destruct ext; [constructor|].
    constructor; [unfold printable, CH_DOT; lia | assumption].
Qed.

Lemma directory_entry_ok d v e : bytes_ok d -> 65525 <= v_clusters v < 0x0fffffef ->
  pi4_fat32_directory_entry d v = Dir_live e -> entry_ok v e.
Proof.
  intros Hd Hv. unfold pi4_fat32_directory_entry.
  set (cluster := Z.land _ 0x0fffffff).
  pose proof (fat_le32_range (drop 28 d) (bytes_ok_drop 28 d Hd)) as Hb.
  assert (Hc : 0 <= cluster).
  { apply Z.land_nonneg. lia. }
  clearbody cluster. cbn zeta. do 2 (case_if; [discriminate|]).
  match goal with |- context [if ?b then _ else _] => destruct b eqn:E end; [discriminate|]. intros [= <-].
  rewrite (u32_id (v_clusters v + 1)) in E by lia.
  destruct (short_name_ok d). unfold entry_ok, in_volume, is_u. cbn. split; [assumption|]. split; [assumption|].
  split; [lia|]. destruct (has (byte_at d 11) 16); lia.
Qed.

Section Safety.
Context (v : pi4_fat32_volume) (last_lba : Z) (G : good_volume v last_lba).
Context (read : nat -> Z -> option (list Z)).
Context (read_bytes : forall n lba b, read n lba = Some b -> bytes_ok b).

Lemma scan_entries_ok reads n : forall buffer r,
  bytes_ok buffer -> scanning v reads r -> scan_ok v reads (scan_entries n buffer r).
Proof using G.
  pose proof (gv_clusters _ _ G) as Hv.
  induction n as [|n IH]; intros buffer r Hb Hr; [exact Hr|]. cbn [scan_entries].
  destruct (pi4_fat32_directory_entry buffer (fr_volume r)) as [|e| |] eqn:E.
  - apply scanning_report, Hr.
  - assert (Hv' : fr_volume r = v) by apply Hr. rewrite Hv' in E.
    pose proof (directory_entry_ok _ _ _ Hb Hv E) as He.
    pose proof Hr as ((H1&H2&H3&H4&H5&H6)&D&L).
    assert (Hr' : report_ok v (reads - (8 - fr_directory_sectors r)) (add_entry e r)).
    { unfold report_ok. cbn. rewrite length_app, Forall_app. cbn.
      repeat split; try tauto; [constructor; [exact He|constructor]|lia]. }
    cbn [fr_entry add_entry]. rewrite length_app. cbn [length]. unfold PI4_FAT32_ENTRIES.
    case_if.
    + eapply report_ok_more; [exact Hr'|lia].
    + apply IH; [auto with buf|]. split; [exact Hr'|]. split; [exact D|]. cbn. rewrite length_app. cbn. zbool. lia.
  - apply IH; [auto with buf|exact Hr].
  - apply scanning_report in Hr. cbn. unfold report_ok in *. cbn. intuition congruence.
Qed.

Lemma scan_sectors_ok reads n : forall lba r,
  v_data_first v <= lba -> lba + Z.of_nat n <= v_data_first v + v_clusters v * v_sectors_per_cluster v ->
  scanning v reads r -> scan_ok v reads (scan_sectors read n lba r).
Proof using G read_bytes.
  pose proof (gv_data _ _ G). pose proof (gv_end _ _ G). pose proof (gv_last _ _ G).
  pose proof (gv_first _ _ G). pose proof (gv_fat_after _ _ G). pose proof (gv_fat_before _ _ G).
  pose proof (gv_fat_pos _ _ G).
  induction n as [|n IH]; intros lba r Hl1 Hl2 Hr; [exact Hr|]. cbn [scan_sectors].
  unfold PI4_FAT32_SECTOR_LIMIT. case_if; [apply scanning_report, Hr|].
  unfold pi4_fat32_read. cbn [fr_log set_result].
  pose proof Hr as ((R1&R2&R3&R4&R5&R6&R7&R8)&D&L).
  assert (T : read_target v lba) by (right; right; lia).
  destruct (read (length (fr_log r)) lba) as [b|] eqn:E.
  - assert (Hs : scanning v reads (count_sector (log_read lba (set_result PI4_FAT32_DIRECTORY_READ_BAD r)))).
    { split; [|split; [cbn; lia|exact L]]. unfold report_ok. cbn.
      repeat split; try assumption; try discriminate; [constructor; assumption|lia]. }
    pose proof (scan_entries_ok reads 16 b _ (read_bytes _ _ _ E) Hs) as He.
    destruct (scan_entries 16 b _) as [r'|r'|r'|r']; try exact He.
    destruct n as [|n]; [exact He|]. rewrite (u32_id (lba + 1)) by lia. apply IH; [lia|lia|exact He].
  - cbn. unfold report_ok. cbn.
    repeat split; try assumption; try discriminate; [constructor; assumption|lia].
Qed.

Lemma scan_clusters_ok hops : forall seen c reads r,
  scanning v reads r -> scan_ok v (reads + Z.of_nat hops) (scan_clusters read hops seen c r).
Proof using G read_bytes.
  induction hops as [|hops IH]; intros seen c reads r Hr.
  { apply scanning_report in Hr. eapply report_ok_more; [exact Hr|lia]. }
  cbn [scan_clusters].
  assert (Hbad : forall x, x <> PI4_FAT32_ROOT_PASS -> x <> PI4_FAT32_ROOT_PARTIAL ->
            scanning v reads (set_result x r)).
  { intros x X1 X2. destruct Hr as (H & D). unfold scanning, report_ok in *. cbn. tauto. }
  assert (Hret : report_ok v (reads + Z.of_nat (S hops)) (set_result PI4_FAT32_CHAIN_BAD r)).
  { eapply report_ok_more; [apply scanning_report, Hbad; discriminate|lia]. }
  cbn zeta. destruct (existsb (Z.eqb c) seen); [exact Hret|].
  assert (Hvol : fr_volume r = v) by apply Hr. cbn [fr_volume set_result]. rewrite Hvol.
  destruct (decide (2 <= c /\ c <= v_clusters v + 1)) as [Hc|Hc].
  2:{ rewrite (cluster_lba_none _ _ G c Hc). exact Hret. }
  rewrite (cluster_lba_some _ _ G c Hc). destruct (fat_sector_in _ _ G c Hc) as (F1 & F2 & F3).
  replace (v_fat_sectors v <=? c / 128) with false by lia. rewrite F2.
  pose proof (gv_fat_before _ _ G). pose proof (gv_data _ _ G). pose proof (gv_spc _ _ G).
  unfold pi4_fat32_read. cbn [fr_log set_result].
  pose proof Hr as ((R1&R2&R3&R4&R5&R6&R7&R8)&D&L).
  assert (T : read_target v (v_fat_first v + c / 128)) by (right; left; lia).
  assert (Hlog : forall x, x <> PI4_FAT32_ROOT_PASS -> x <> PI4_FAT32_ROOT_PARTIAL ->
            scanning v (reads + 1) (set_result x (log_read (v_fat_first v + c / 128) r))).
  { intros x X1 X2. split; [|split; [exact D|exact L]]. unfold report_ok. cbn.
    repeat split; try assumption; [constructor; assumption|lia]. }
  destruct (read (length (fr_log r)) (v_fat_first v + c / 128)) as [b|] eqn:E.
  2:{ eapply report_ok_more; [apply scanning_report; apply (Hlog PI4_FAT32_FAT_READ_BAD); discriminate|lia]. }
  destruct (bad_link v (fat_entry b c)).
  { eapply report_ok_more; [apply scanning_report; apply (Hlog PI4_FAT32_CHAIN_BAD); discriminate|lia]. }
  match goal with |- context [scan_sectors read ?n ?l ?r0] =>
    pose proof (scan_sectors_ok (reads + 1) n l r0) as Hs; set (sc := scan_sectors read n l r0) in * end.
  assert (Hsc : scan_ok v (reads + 1) sc).
  { unfold in_volume in Hc. unfold cluster_first in Hs. apply Hs; [nia|nia|].
    apply (Hlog PI4_FAT32_CHAIN_BAD); discriminate. }
  clearbody sc. destruct sc as [r'|r'|r'|r']; cbn [scan_ok] in Hsc |- *;
    try (eapply report_ok_more; [exact Hsc|lia]).
  case_if.
  - eapply report_ok_more; [apply scanning_report, Hsc|lia].
  - replace (reads + Z.of_nat (S hops)) with (reads + 1 + Z.of_nat hops) by lia. apply IH, Hsc.
Qed.
End Safety.

(** ** The directory a byte string holds *)

Inductive dir_stop := Dir_more | Dir_ended | Dir_malformed.

(** The live entries of [n] 32-byte records, and how the listing stops. *)
Fixpoint dir_parse (v : pi4_fat32_volume) (n : nat) (bytes : list Z) : list pi4_fat32_entry * dir_stop :=
  match n with
  | O => ([], Dir_more)
  | S n' =>
      match pi4_fat32_directory_entry (take 32 bytes) v with
      | Dir_end => ([], Dir_ended)
      | Dir_bad => ([], Dir_malformed)
      | Dir_skip => dir_parse v n' (drop 32 bytes)
      | Dir_live e => let '(es, o) := dir_parse v n' (drop 32 bytes) in (e :: es, o)
      end
  end.

Lemma byte_at_take n l i : 0 <= i < Z.of_nat n -> byte_at (take n l) i = byte_at l i.
Proof. intros H. rewrite !byte_at_lookup by lia. rewrite lookup_take_lt by lia. reflexivity. Qed.

Lemma le16_take_drop n k l : Z.of_nat k + 2 <= Z.of_nat n ->
  pi4_fat32_le16 (drop k (take n l)) = pi4_fat32_le16 (drop k l).
Proof. intros H. unfold pi4_fat32_le16. rewrite !byte_at_drop, !byte_at_take by lia. reflexivity. Qed.

Lemma le32_take_drop n k l : Z.of_nat k + 4 <= Z.of_nat n ->
  pi4_fat32_le32 (drop k (take n l)) = pi4_fat32_le32 (drop k l).
Proof. intros H. unfold pi4_fat32_le32. rewrite !drop_drop, !le16_take_drop by lia. reflexivity. Qed.

Lemma directory_entry_take d v :
  pi4_fat32_directory_entry (take 32 d) v = pi4_fat32_directory_entry d v.
Proof.
  unfold pi4_fat32_directory_entry, short_name.
  rewrite !byte_at_take, !le16_take_drop, le32_take_drop, take_take by (cbn; lia).
  replace (take 3 (drop 8 (take 32 d))) with (take 3 (drop 8 d)); [reflexivity|].
  rewrite !take_drop_commute, take_take. reflexivity.
Qed.

Lemma dir_parse_app v n1 : forall n2 b1 b2, length b1 = (32 * n1)%nat ->
  dir_parse v (n1 + n2) (b1 ++ b2) =
    let '(es, o) := dir_parse v n1 b1 in
    match o with
    | Dir_more => let '(es2, o2) := dir_parse v n2 b2 in (es ++ es2, o2)
    | _ => (es, o)
    end.
Proof.
  induction n1 as [|n1 IH]; intros n2 b1 b2 L.
  - destruct b1; [|cbn in L; lia]. cbn. destruct (dir_parse v n2 b2). reflexivity.
  - cbn [dir_parse Nat.add]. rewrite take_app_le, drop_app_le by lia.
    assert (L' : length (drop 32 b1) = (32 * n1)%nat) by (rewrite length_drop; lia).
    specialize (IH n2 _ b2 L'). destruct (pi4_fat32_directory_entry (take 32 b1) v); try reflexivity.
    + rewrite IH. destruct (dir_parse v n1 (drop 32 b1)) as [es []]; try reflexivity.
      destruct (dir_parse v n2 b2). reflexivity.
    + exact IH.
Qed.

(** The bytes of a list of sectors as a directory. *)
Definition dir_of (v : pi4_fat32_volume) (bufs : list (list Z)) : list pi4_fat32_entry * dir_stop :=
  dir_parse v (16 * length bufs) (concat bufs).

Lemma dir_of_app v b1 b2 : Forall (fun b => length b = 512%nat) b1 ->
  dir_of v (b1 ++ b2) =
    let '(es, o) := dir_of v b1 in
    match o with
    | Dir_more => let '(es2, o2) := dir_of v b2 in (es ++ es2, o2)
    | _ => (es, o)
    end.
Proof.
  intros H. unfold dir_of. rewrite concat_app, length_app, Nat.mul_add_distr_l. apply dir_parse_app.
  induction H as [|b l Hb _ IH]; [reflexivity|]. cbn [concat length]. rewrite length_app, IH, Hb. lia.
Qed.

(** ** The root scan on stable media *)

Section Scan.
Context (v : pi4_fat32_volume) (last_lba : Z) (G : good_volume v last_lba).
Context (media : Z -> option (list Z)).
Context (media_len : forall lba b, media lba = Some b -> length b = 512%nat).

(** [r'] is [r] after [sectors] more sectors, with the listing [l]. *)
Definition scanned (r r' : pi4_fat32_report) (sectors : Z) (l : list pi4_fat32_entry) : Prop :=
  fr_volume r' = fr_volume r /\ fr_entry r' = l /\ fr_directory_sectors r' = fr_directory_sectors r + sectors.

(** How a stretch of the scan ends, when the whole listing is [l] and [o] ends it: [last] says how
    when all of it was scanned and it goes on. *)
Definition scan_result (l : list pi4_fat32_entry) (o : dir_stop) (last : scan -> Prop) (s : scan) : Prop :=
  if 8 <=? Z.of_nat (length l) then exists r', s = Scan_bounded r' /\ fr_entry r' = take 8 l
  else match o with
       | Dir_ended => exists r', s = Scan_complete r' /\ fr_entry r' = l
       | _ => last s
       end.

Definition goes_on (r : pi4_fat32_report) (sectors : Z) (l : list pi4_fat32_entry) (s : scan) : Prop :=
  exists r', s = Scan_on r' /\ scanned r r' sectors l.
Definition limited (l : list pi4_fat32_entry) (s : scan) : Prop :=
  exists r', s = Scan_bounded r' /\ fr_entry r' = l.
Definition finished (l : list pi4_fat32_entry) (s : scan) : Prop :=
  exists r', s = Scan_complete r' /\ fr_entry r' = l.

Lemma scan_entries_spec n : forall buffer r es o,
  (length (fr_entry r) < 8)%nat -> dir_parse (fr_volume r) n buffer = (es, o) -> o <> Dir_malformed ->
  scan_result (fr_entry r ++ es) o (goes_on r 0 (fr_entry r ++ es)) (scan_entries n buffer r).
Proof using.
  induction n as [|n IH]; intros buffer r es o L P Ho.
  - injection P as <- <-. rewrite app_nil_r.
    unfold scan_result. case_if; [lia|]. exists r. repeat split; lia.
  - cbn [dir_parse scan_entries] in *. rewrite directory_entry_take in P.
    destruct (pi4_fat32_directory_entry buffer (fr_volume r)) as [|e| |].
    + injection P as <- <-. rewrite app_nil_r. unfold scan_result. case_if; [lia|eauto].
    + destruct (dir_parse (fr_volume r) n (drop 32 buffer)) as [es' o'] eqn:P'. injection P as <- <-.
      cbn [fr_entry add_entry].
      replace (fr_entry r ++ e :: es') with ((fr_entry r ++ [e]) ++ es') by (rewrite <- app_assoc; reflexivity).
      unfold PI4_FAT32_ENTRIES. destruct (Z.eqb_spec (Z.of_nat (length (fr_entry r ++ [e]))) 8) as [E|E].
      * unfold scan_result. rewrite (length_app (_ ++ [e])).
        case_if; [|zbool; lia]. exists (add_entry e r). split; [reflexivity|].
        rewrite take_app_le by lia. cbn. rewrite take_ge by lia. reflexivity.
      * apply (IH (drop 32 buffer) (add_entry e r) es' o'); [|exact P'|exact Ho].
        cbn. rewrite length_app in E |- *. cbn in *. lia.
    + exact (IH _ _ _ _ L P Ho).
    + injection P as _ <-. congruence.
Qed.

Lemma dir_of_cons b bufs : length b = 512%nat ->
  dir_of v (b :: bufs) =
    let '(es, o) := dir_parse v 16 b in
    match o with
    | Dir_more => let '(es2, o2) := dir_of v bufs in (es ++ es2, o2)
    | _ => (es, o)
    end.
Proof using.
  intros Hb. change (b :: bufs) with ([b] ++ bufs).
  rewrite dir_of_app by (constructor; [exact Hb|constructor]).
  unfold dir_of at 1. cbn [concat length]. rewrite app_nil_r. reflexivity.
Qed.


Definition then_scan (s : scan) (k : pi4_fat32_report -> scan) : scan :=
  match s with
  | Scan_on r => k r | Scan_return r => Scan_return r
  | Scan_bounded r => Scan_bounded r | Scan_complete r => Scan_complete r
  end.

(** A scan that goes on into a second stretch, and one that cannot. *)
Lemma scan_result_bind l1 o1 r sectors l o (last : scan -> Prop) s k :
  scan_result l1 o1 (goes_on r sectors l1) s -> o1 <> Dir_malformed ->
  (o1 = Dir_ended -> l = l1 /\ o = Dir_ended) -> (exists es, l = l1 ++ es) ->
  (o1 = Dir_more -> forall r', (length l1 < 8)%nat -> scanned r r' sectors l1 -> scan_result l o last (k r')) ->
  scan_result l o last (then_scan s k).
Proof using.
  intros H Ho He (es & Hl) Hk. unfold scan_result in H.
  destruct (8 <=? Z.of_nat (length l1)) eqn:E1; zbool.
  - destruct H as (r' & -> & Hr'). unfold scan_result. rewrite Hl, length_app, take_app_le by lia.
    case_if; [eauto|zbool; lia].
  - destruct o1; [|destruct (He eq_refl) as [-> ->]|congruence].
    + destruct H as (r' & -> & Hr'). apply Hk; [reflexivity|lia|exact Hr'].
    + destruct H as (r' & -> & Hr'). unfold scan_result. case_if; [zbool; lia|eauto].
Qed.

Lemma scan_result_limited l o s k :
  scan_result l o (limited l) s ->
  scan_result l o (limited l) (then_scan s k).
Proof using.
  unfold scan_result, limited. case_if; [|destruct o]; intros (r' & -> & Hr'); eauto.
Qed.

Lemma scan_sectors_spec n : forall lba r bufs es o,
  0 <= lba -> lba + Z.of_nat n <= 4294967296 -> 0 <= fr_directory_sectors r <= 8 ->
  (length (fr_entry r) < 8)%nat -> fr_volume r = v ->
  mapM media (take (Z.to_nat (8 - fr_directory_sectors r)) (seqZ lba (Z.of_nat n))) = Some bufs ->
  dir_of v bufs = (es, o) -> o <> Dir_malformed ->
  scan_result (fr_entry r ++ es) o
    (if fr_directory_sectors r + Z.of_nat n <=? 8 then goes_on r (Z.of_nat n) (fr_entry r ++ es)
     else limited (fr_entry r ++ es))
    (scan_sectors (reader media) n lba r).
Proof using G media_len.
  induction n as [|n IH]; intros lba r bufs es o H1 H2 Hd L Hv Hm Hp Ho.
  - change (seqZ lba (Z.of_nat 0)) with (@nil Z) in Hm. rewrite take_nil in Hm. injection Hm as <-.
    injection Hp as <- <-. rewrite app_nil_r. unfold scan_result. case_if; [zbool; lia|]. case_if; [|zbool; lia].
    exists r. repeat split; cbn; lia.
  - cbn [scan_sectors]. unfold PI4_FAT32_SECTOR_LIMIT.
    destruct (8 <=? fr_directory_sectors r) eqn:E8; zbool.
    + replace (Z.to_nat (8 - fr_directory_sectors r)) with 0%nat in Hm by lia. injection Hm as <-.
      injection Hp as <- <-. rewrite app_nil_r. unfold scan_result. case_if; [zbool; lia|]. case_if; [zbool; lia|].
      exists r. auto.
    + unfold pi4_fat32_read. rewrite reader_eq. rewrite seqZ_next in Hm.
      replace (Z.to_nat (8 - fr_directory_sectors r)) with (S (Z.to_nat (8 - (fr_directory_sectors r + 1)))) in Hm by lia.
      cbn [take mapM] in Hm. cbn in Hm.
      destruct (media lba) as [b|] eqn:Eb; [|discriminate]. cbn in Hm.
      destruct (mapM media _) as [bufs'|] eqn:Em; [|discriminate]. injection Hm as <-.
      rewrite dir_of_cons in Hp by (eapply media_len; eassumption).
      set (r1 := count_sector _).
      destruct (dir_parse v 16 b) as [es1 o1] eqn:P1. destruct (dir_of v bufs') as [es2 o2] eqn:P2.
      assert (Ho1 : o1 <> Dir_malformed) by (destruct o1; congruence).
      pose proof (scan_entries_spec 16 b r1 es1 o1 L) as Hs. change (fr_volume r1) with (fr_volume r) in Hs.
      change (fr_entry r1) with (fr_entry r) in Hs. rewrite Hv in Hs. specialize (Hs P1 Ho1).
      match goal with |- scan_result _ _ _ (match ?s with Scan_on r => @?k r | _ => _ end) =>
        change (scan_result (fr_entry r ++ es) o
          (if fr_directory_sectors r + Z.of_nat (S n) <=? 8 then goes_on r (Z.of_nat (S n)) (fr_entry r ++ es)
           else limited (fr_entry r ++ es)) (then_scan s k)) end.
      eapply scan_result_bind; [exact Hs|exact Ho1| | |].
      * intros ->. injection Hp as <- <-. auto.
      * destruct o1; simplify_eq; [exists es2; apply app_assoc|exists []; symmetry; apply app_nil_r].
      * intros -> r' L1 (V1 & E1 & D1). injection Hp as <- <-.
        change (fr_directory_sectors r1) with (fr_directory_sectors r + 1) in D1.
        change (fr_volume r1) with (fr_volume r) in V1.
        destruct n as [|n].
        { change (seqZ (lba + 1) (Z.of_nat 0)) with (@nil Z) in Em. rewrite take_nil in Em. injection Em as <-.
          injection P2 as <- <-. rewrite app_nil_r. unfold scan_result. case_if; [zbool; lia|].
          case_if; [|zbool; lia]. exists r'. cbn. repeat split; [congruence|congruence|lia]. }
        rewrite (u32_id (lba + 1)) by lia. rewrite app_assoc, <- E1.
        assert (E : scan_result (fr_entry r' ++ es2) o2
          (if fr_directory_sectors r' + Z.of_nat (S n) <=? 8 then goes_on r' (Z.of_nat (S n)) (fr_entry r' ++ es2)
           else limited (fr_entry r' ++ es2)) (scan_sectors (reader media) (S n) (lba + 1) r')).
        { apply (IH _ _ bufs'); try assumption; [lia|lia|lia|rewrite E1; exact L1|congruence|].
          rewrite D1. replace (fr_directory_sectors r + 1 + 0) with (fr_directory_sectors r + 1) by lia. exact Em. }
        replace (fr_directory_sectors r' + Z.of_nat (S n)) with (fr_directory_sectors r + Z.of_nat (S (S n))) in E by lia.
        unfold scan_result in *. repeat case_if; try exact E; try (zbool; lia); destruct o2; try exact E;
          destruct E as (q & -> & Q1 & Q2 & Q3); exists q; (split; [reflexivity|]; split; [congruence|split; [exact Q2|lia]]).
Qed.

Lemma scan_clusters_spec hops : forall seen c cs next r bufs es o,
  path v media c cs next -> 0x0ffffff8 <= next -> NoDup cs -> (forall d, d ∈ cs -> d ∉ seen) ->
  0 <= fr_directory_sectors r <= 8 -> 8 - fr_directory_sectors r <= Z.of_nat hops ->
  (length (fr_entry r) < 8)%nat -> fr_volume r = v ->
  mapM media (take (Z.to_nat (8 - fr_directory_sectors r)) (chain_sectors v cs)) = Some bufs ->
  dir_of v bufs = (es, o) -> o <> Dir_malformed ->
  scan_result (fr_entry r ++ es) o
    (if fr_directory_sectors r + Z.of_nat (length (chain_sectors v cs)) <=? 8
     then finished (fr_entry r ++ es) else limited (fr_entry r ++ es))
    (scan_clusters (reader media) hops seen c r).
Proof using G media_len.
  induction hops as [|hops IH]; intros seen c cs next r bufs es o P Hnx ND Hs Hd Hh L Hv Hm Hp Ho.
  all: destruct (path_head_link v media _ _ _ P) as (Hc & n & Hn & Hln & Hcs).
  all: destruct (path_head _ _ _ _ _ P) as (cs0 & ->).
  all: destruct (cluster_sectors _ _ G c Hc) as (C1 & C2 & C3 & C4).
  all: pose proof (gv_spc _ _ G) as Hspc.
  all: assert (Lcs : Z.of_nat (length (chain_sectors v (c :: cs0))) =
                 v_sectors_per_cluster v + Z.of_nat (length (chain_sectors v cs0)))
         by (rewrite chain_sectors_cons, length_app, Nat2Z.inj_add, C1; reflexivity).
  { replace (Z.to_nat (8 - fr_directory_sectors r)) with 0%nat in Hm by lia. injection Hm as <-.
    injection Hp as <- <-. rewrite app_nil_r. unfold scan_result.
    case_if; [zbool; lia|]. case_if; [zbool; lia|]. exists r. auto. }
  cbn [scan_clusters]. rewrite (proj2 (seen_false c seen)) by (apply Hs; left).
  cbn [fr_volume set_result]. cbn zeta. rewrite Hv, (cluster_lba_some _ _ G c Hc).
  destruct (fat_sector_in _ _ G c Hc) as (F1 & F2 & _).
  replace (v_fat_sectors v <=? c / 128) with false by lia. rewrite F2.
  unfold pi4_fat32_read. rewrite reader_eq. unfold fat_next in Hn.
  destruct (media (v_fat_first v + c / 128)) as [b|]; [|discriminate]. injection Hn as <-.
  rewrite (proj2 (bad_link_false _ _ G _) Hln). set (n := fat_entry b c) in *. clearbody n. set (r0 := count_cluster _).
  rewrite chain_sectors_cons, firstn_app in Hm. apply mapM_app_inv in Hm as (k1 & k2 & K1 & K2 & ->).
  assert (Hk1 : Forall (fun b => length b = 512%nat) k1).
  { apply mapM_Some in K1. clear -K1 media_len. induction K1; constructor; eauto. }
  rewrite dir_of_app in Hp by exact Hk1.
  destruct (dir_of v k1) as [es1 o1] eqn:P1. destruct (dir_of v k2) as [es2 o2] eqn:P2.
  assert (Ho1 : o1 <> Dir_malformed) by (destruct o1; congruence).
  pose proof (scan_sectors_spec (Z.to_nat (v_sectors_per_cluster v)) (cluster_first v c) r0 k1 es1 o1) as Hsec.
  rewrite C4 in Hsec. change (fr_directory_sectors r0) with (fr_directory_sectors r) in Hsec.
  change (fr_entry r0) with (fr_entry r) in Hsec. change (fr_volume r0) with (fr_volume r) in Hsec.
  specialize (Hsec C2 C3 Hd L Hv K1 P1 Ho1).
  match goal with |- scan_result _ _ ?last (match ?s with Scan_on r => @?k r | _ => _ end) =>
    change (scan_result (fr_entry r ++ es) o last (then_scan s k)); set (kk := k) end.
  destruct (fr_directory_sectors r + v_sectors_per_cluster v <=? 8) eqn:E8; zbool.
  - eapply scan_result_bind; [exact Hsec|exact Ho1| | |].
    + intros ->. injection Hp as <- <-. auto.
    + destruct o1; simplify_eq; [exists es2; apply app_assoc|exists []; symmetry; apply app_nil_r].
    + intros -> r' L1 (V1 & E1 & D1). injection Hp as <- <-. unfold kk.
      change (fr_directory_sectors r0) with (fr_directory_sectors r) in D1.
      change (fr_volume r0) with (fr_volume r) in V1. rewrite app_assoc, <- E1.
      replace (Z.to_nat (8 - fr_directory_sectors r) - length (seqZ (cluster_first v c) (v_sectors_per_cluster v)))%nat
        with (Z.to_nat (8 - fr_directory_sectors r')) in K2 by lia.
      destruct Hcs as [[[= ->] ->]|(cs' & [= <-] & P' & Hin)].
      * replace (0x0ffffff8 <=? next) with true by lia. cbn in K2. rewrite take_nil in K2. injection K2 as <-.
        injection P2 as <- <-. rewrite app_nil_r, E1. unfold scan_result.
        case_if; [zbool; lia|]. case_if; [|zbool; change (chain_sectors v []) with (@nil Z) in Lcs; cbn [length] in Lcs; lia]. exists r'. auto.
      * assert ((0x0ffffff8 <=? n) = false) as ->
          by (pose proof (gv_clusters _ _ G); unfold in_volume in Hin; lia).
        rewrite Lcs, Z.add_assoc, <- D1.
        apply (IH _ _ cs0 next _ k2); try assumption; [exact (NoDup_cons_1_2 _ _ ND)| |lia|lia|rewrite E1; exact L1|congruence].
        intros d Hd' Hin'. apply elem_of_app in Hin' as [Hin'|Hin'].
        -- apply (Hs d); [right; exact Hd' | exact Hin'].
        -- apply list_elem_of_singleton in Hin' as ->. exact (NoDup_cons_1_1 _ _ ND Hd').
  - replace (Z.to_nat (8 - fr_directory_sectors r) - length (seqZ (cluster_first v c) (v_sectors_per_cluster v)))%nat
      with 0%nat in K2 by lia. injection K2 as <-. injection P2 as <- <-.
    assert (es = es1 /\ o = o1) as [-> ->] by (destruct o1; simplify_eq; rewrite ?app_nil_r; auto).
    rewrite Lcs. destruct (Z.leb_spec (fr_directory_sectors r + (v_sectors_per_cluster v + Z.of_nat (length (chain_sectors v cs0)))) 8); [lia|].
    apply scan_result_limited, Hsec.
Qed.
End Scan.
