(* ===== verification/Fat32Thms.v ===== *)
(** * The FAT32 reader: properties

    What an accepted volume guarantees, what the root scan may touch, what the scan and the file
    reader return on stable media, and how a file is found by name. *)

From S2P Require Import Prelude SourceStore Fat32 Fat32Spec.

(** ** A small FAT32 disk, for the witnesses

    No partition table; one FAT of 512 sectors after one reserved sector, 65,525 clusters of one
    sector, the root directory in cluster 2, and the file [HELLO.TXT] of 5 bytes in cluster 3. *)

Definition le16_bytes (x : Z) : list Z := [x mod 256; x / 256 mod 256].
Definition le32_bytes (x : Z) : list Z := le16_bytes (x mod 65536) ++ le16_bytes (x / 65536).

Definition demo_boot : list Z :=
  [0xeb; 0x58; 0x90] ++ zeros 8 ++ le16_bytes 512 ++ [1] ++ le16_bytes 1 ++ [1] ++ zeros 15 ++
  le32_bytes 66038 ++ le32_bytes 512 ++ zeros 4 ++ le32_bytes 2 ++ zeros 462 ++ [0x55; 0xaa].
Definition demo_fat : list Z :=
  zeros 8 ++ le32_bytes 0x0fffffff ++ le32_bytes 0x0fffffff ++ zeros 496.
Definition demo_record : list Z :=
  bytes_of_string "HELLO   TXT"%string ++ [0x20] ++ zeros 14 ++ le16_bytes 3 ++ le32_bytes 5.
Definition demo_dir : list Z := demo_record ++ zeros 480.
Definition demo_data : list Z := bytes_of_string "hello"%string ++ zeros 507.
Definition demo_media (lba : Z) : option (list Z) :=
  if lba =? 0 then Some demo_boot else if lba =? 1 then Some demo_fat
  else if lba =? 513 then Some demo_dir else if lba =? 514 then Some demo_data else None.
Definition demo_volume : pi4_fat32_volume := mk_volume 0 66038 1 512 513 1 65525 2 0.
Definition demo_entry : pi4_fat32_entry := mk_fentry (bytes_of_string "HELLO.TXT"%string) 0x20 3 5.

Definition bytes_okb (l : list Z) : bool := forallb (fun b => (0 <=? b) && (b <? 256)) l.
Lemma bytes_okb_ok l : bytes_okb l = true -> bytes_ok l.
Proof.
  unfold bytes_okb, bytes_ok. rewrite forallb_forall. intros H. rewrite List.Forall_forall. intros x Hx.
  specialize (H x Hx). unfold is_u. lia.
Qed.

Lemma demo_media_len lba b : demo_media lba = Some b -> length b = 512%nat.
Proof. unfold demo_media. repeat case_if; intros [= <-]; reflexivity. Qed.

Lemma demo_media_bytes lba b : demo_media lba = Some b -> bytes_ok b.
Proof. unfold demo_media. repeat case_if; intros [= <-]; apply bytes_okb_ok; reflexivity. Qed.

Lemma demo_bpb : pi4_fat32_bpb demo_boot 0 66038 66037 = Some demo_volume.
Proof. vm_compute. reflexivity. Qed.

Example demo_probe : let r := pi4_fat32_probe (reader demo_media) demo_boot 66037 512 in
  fr_result r = PI4_FAT32_ROOT_PASS /\ fr_entry r = [demo_entry].
Proof. vm_compute. auto. Qed.

(** ** Volumes *)

(** C18: a boot sector the parser accepts describes a sound volume on the disk.  Its boot
    sector, reserved sectors, FATs and data area follow each other inside the partition and the
    disk, with no 32-bit overflow; the FAT has an entry for every cluster; the root directory is
    one of them.  Every cluster of the volume has an address, the clusters lie in the data area
    and no two of them overlap, and no other number has an address. *)
Theorem pi4_fat32_bpb_volume b first partition_sectors last_lba v :
  bytes_ok b -> 0 <= first < 4294967296 -> 0 <= last_lba < 4294967296 ->
  pi4_fat32_bpb b first partition_sectors last_lba = Some v ->
  good_volume v last_lba /\ v_first v = first /\ v_sectors v <= partition_sectors /\
  (exists k, 0 <= k <= 7 /\ v_sectors_per_cluster v = 2 ^ k) /\
  (forall c l, pi4_fat32_cluster_lba v c = Some l ->
     v_data_first v <= l /\ l + v_sectors_per_cluster v <= v_first v + v_sectors v) /\
  (forall c, pi4_fat32_cluster_lba v c <> None <-> in_volume v c) /\
  (forall c d l m, pi4_fat32_cluster_lba v c = Some l -> pi4_fat32_cluster_lba v d = Some m -> c < d ->
     l + v_sectors_per_cluster v <= m).
Proof.
  intros Hb Hf Hl H. destruct (bpb_good _ _ _ _ _ Hb Hf Hl H) as (G & G1 & G2 & G3).
  assert (Hlba : forall c l, pi4_fat32_cluster_lba v c = Some l -> in_volume v c /\ l = cluster_first v c).
  { intros c l Hc. destruct (decide (2 <= c /\ c <= v_clusters v + 1)) as [Hv|Hv].
    - rewrite (cluster_lba_some _ _ G c Hv) in Hc. injection Hc as <-. auto.
    - rewrite (cluster_lba_none _ _ G c Hv) in Hc. discriminate. }
  repeat (split; [assumption|]). split; [|split].
  - intros c l Hc. destruct (Hlba c l Hc) as (Hv & ->). apply (cluster_in_data _ _ G c Hv).
  - intros c. split.
    + destruct (pi4_fat32_cluster_lba v c) as [l|] eqn:E; [|congruence]. intros _. apply (Hlba c l E).
    + intros Hv. rewrite (cluster_lba_some _ _ G c Hv). discriminate.
  - intros c d l m Hc Hd Hlt. destruct (Hlba c l Hc) as (_ & ->). destruct (Hlba d m Hd) as (_ & ->).
    unfold cluster_first. pose proof (gv_spc _ _ G). nia.
Qed.

Lemma pi4_fat32_bpb_volume_witness :
  pi4_fat32_bpb demo_boot 0 66038 66037 = Some demo_volume /\ good_volume demo_volume 66037.
Proof.
  split; [apply demo_bpb|].
  apply (pi4_fat32_bpb_volume demo_boot 0 66038 66037 demo_volume);
    [apply bytes_okb_ok; reflexivity | lia | lia | apply demo_bpb].
Defined.

(** ** The root scan, whatever the disk answers *)

Lemma zero_report_ok v x : x <> PI4_FAT32_ROOT_PASS -> x <> PI4_FAT32_ROOT_PARTIAL ->
  report_ok v 0 (set_volume v (set_result x zero_report)).
Proof. intros H1 H2. unfold report_ok. cbn. repeat split; auto; try constructor; lia. Qed.

(** What the search for the volume leaves behind: at most one read, and no listing. *)
Definition searched (reads : Z) (r : pi4_fat32_report) : Prop :=
  Z.of_nat (length (fr_log r)) <= reads /\ fr_entry r = [] /\ fr_complete r = false /\
  fr_bounded r = false /\ fr_result r <> PI4_FAT32_ROOT_PASS /\ fr_result r <> PI4_FAT32_ROOT_PARTIAL /\
  fr_directory_sectors r = 0.

Lemma searched_set reads reads' x r : searched reads r -> reads <= reads' ->
  x <> PI4_FAT32_ROOT_PASS -> x <> PI4_FAT32_ROOT_PARTIAL -> searched reads' (set_result x r).
Proof. unfold searched. cbn. intuition lia. Qed.

Lemma scan_partitions_spec n : forall i p last_lba found r,
  bytes_ok p -> 0 <= last_lba < 4294967296 -> searched 0 r -> fr_log r = [] ->
  (found = true -> 0 < fr_partition_first r <= last_lba) ->
  match scan_partitions n i p last_lba found r with
  | inl r' => searched 0 r' /\ fr_log r' = []
  | inr (found', r') => searched 0 r' /\ fr_log r' = [] /\
      (found' = true -> 0 < fr_partition_first r' <= last_lba)
  end.
Proof.
  induction n as [|n IH]; intros i p last_lba found r Hp Hl Hr Hlog Hf; [cbn; auto|].
  cbn [scan_partitions]. cbn zeta. case_if; [auto|]. case_if; [apply IH; [auto with buf|assumption..]|].
  pose proof (fat_le32_range (drop 8 p) (bytes_ok_drop 8 p Hp)).
  pose proof (fat_le32_range (drop 12 p) (bytes_ok_drop 12 p Hp)).
  match goal with |- context [if ?b then inl _ else _] => destruct b eqn:E end.
  - split; [|exact Hlog]. eapply searched_set; [exact Hr|lia|discriminate..].
  - bool_hyps. zbool. apply IH; [auto with buf|assumption|destruct found; assumption|destruct found; assumption|].
    destruct found; [exact Hf|]. intros _. cbn. lia.
Qed.

Section Probe.
Context (read : nat -> Z -> option (list Z)).
Context (read_bytes : forall n lba b, read n lba = Some b -> bytes_ok b).

Lemma find_volume_ok sector0 last_lba r : bytes_ok sector0 -> 0 <= last_lba < 4294967296 ->
  searched 0 r -> fr_log r = [] ->
  match find_volume read sector0 last_lba r with
  | inl r' => searched 1 r' /\ Forall (fun lba => 0 < lba <= last_lba) (fr_log r')
  | inr (boot, r') => searched 1 r' /\ good_volume (fr_volume r') last_lba /\ bytes_ok boot /\
      Forall (fun lba => lba = v_first (fr_volume r')) (fr_log r')
  end.
Proof using read_bytes.
  intros Hs Hl Hr Hlog. unfold find_volume.
  match goal with |- context [match ?x with Some _ => _ | None => _ end] => destruct x as [v|] eqn:E end.
  - destruct (Z.eqb_spec last_lba UINT32_MAX) as [|Hm]; [discriminate|]. unfold UINT32_MAX in Hm.
    rewrite u32_id in E by lia. apply bpb_good in E; [|assumption|lia|assumption]. destruct E as (G & _).
    cbn. rewrite Hlog. split; [|split; [exact G|split; [exact Hs|constructor]]].
    unfold searched in *. cbn. rewrite Hlog in *. cbn in *. intuition lia.
  - set (r1 := set_types _ r). assert (H1 : searched 0 r1 /\ fr_log r1 = []) by (split; assumption).
    clearbody r1. destruct H1 as [H1 L1].
    pose proof (scan_partitions_spec 4 0 (drop 446 sector0) last_lba false r1
                  (bytes_ok_drop _ _ Hs) Hl H1 L1 ltac:(discriminate)) as P.
    assert (Hmore : forall r', searched 0 r' -> searched 1 r') by (unfold searched; intuition lia).
    destruct (scan_partitions 4 0 _ _ _ _) as [r'|[[] r']].
    + destruct P as [P ->]. split; [auto|constructor].
    + destruct P as (P & L & Pf). specialize (Pf eq_refl). unfold pi4_fat32_read. cbn [fr_log set_result fr_partition_first].
      assert (Hlg : forall x, x <> PI4_FAT32_ROOT_PASS -> x <> PI4_FAT32_ROOT_PARTIAL ->
               searched 1 (set_result x (log_read (fr_partition_first r') r'))).
      { intros x X1 X2. unfold searched in *. cbn. rewrite L in *. cbn. intuition lia. }
      destruct (read (length (fr_log r')) (fr_partition_first r')) as [b|] eqn:Er.
      2:{ split; [apply (Hlg PI4_FAT32_BOOT_READ_BAD); discriminate|]. cbn. rewrite L. constructor; [lia|constructor]. }
      cbn [fr_partition_first log_read set_result fr_partition_sectors].
      destruct (pi4_fat32_bpb b _ _ _) as [v|] eqn:Eb.
      * apply bpb_good in Eb; [|eapply read_bytes; eassumption|lia|assumption]. destruct Eb as (G & Gf & _).
        split; [apply (Hlg PI4_FAT32_BPB_BAD); discriminate|]. cbn. rewrite L.
        split; [exact G|]. split; [eapply read_bytes; eassumption|]. constructor; [lia|constructor].
      * split; [apply (Hlg PI4_FAT32_BPB_BAD); discriminate|]. cbn. rewrite L. constructor; [lia|constructor].
    + destruct P as (P & -> & _). split; [auto|constructor].
Qed.
End Probe.

Lemma read_target_on_disk v last_lba lba : good_volume v last_lba -> read_target v lba -> 0 <= lba <= last_lba.
Proof. intros G H. destruct G. unfold read_target in H. nia. Qed.

Lemma scan_ok_report v reads s : scan_ok v reads s ->
  match s with Scan_on r | Scan_return r | Scan_bounded r | Scan_complete r => report_ok v reads r end.
Proof. destruct s; cbn; auto. intros (H & D & L). eapply report_ok_more; [exact H|lia]. Qed.

(** C19: whatever the callback answers, the scan reads at most 17 sectors, every one of them on
    the disk and, once a volume is accepted, its boot sector, a sector of its active FAT or of its
    data area.  It lists at most eight entries, which fit the report's array: names of at most
    12 printable characters, and clusters of the volume (or none, for an empty file).  The result
    is a pass exactly when the listing is complete, partial exactly when it was cut off, and both
    only on a sound volume. *)
Theorem pi4_fat32_probe_safe (read : nat -> Z -> option (list Z)) sector0 last_lba block_bytes :
  (forall n lba b, read n lba = Some b -> bytes_ok b) ->
  bytes_ok sector0 -> 0 <= last_lba < 4294967296 ->
  let r := pi4_fat32_probe read sector0 last_lba block_bytes in
  (length (fr_log r) <= 17)%nat /\ Forall (fun lba => 0 <= lba <= last_lba) (fr_log r) /\
  (length (fr_entry r) <= 8)%nat /\ Forall (entry_ok (fr_volume r)) (fr_entry r) /\
  (fr_result r = PI4_FAT32_ROOT_PASS <-> fr_complete r = true) /\
  (fr_result r = PI4_FAT32_ROOT_PARTIAL <-> fr_bounded r = true) /\
  (fr_entry r <> [] \/ fr_complete r = true \/ fr_bounded r = true ->
   good_volume (fr_volume r) last_lba /\ Forall (read_target (fr_volume r)) (fr_log r)).
Proof.
  intros Hread Hs Hl. cbn zeta. unfold pi4_fat32_probe.
  case_if.
  { cbn. repeat split; try constructor; try discriminate; try lia; intuition discriminate. }
  pose proof (find_volume_ok read Hread sector0 last_lba (set_result PI4_FAT32_UNSUPPORTED zero_report) Hs Hl) as F.
  match type of F with ?A -> _ => assert (HA : A) by (unfold searched; cbn; repeat split; try discriminate; lia) end.
  specialize (F HA eq_refl). destruct (find_volume read sector0 last_lba _) as [r'|[boot r']].
  { destruct F as ((F1&F2&F3&F4&F5&F6&_) & F7). rewrite F2, F3, F4. cbn [length].
    repeat split; try constructor; try contradiction; try discriminate; try lia; [|intuition discriminate..].
    revert F7. apply Forall_impl. intros; lia. }
  destruct F as ((F1&F2&F3&F4&F5&F6&F8) & G & Hb & F7). set (v := fr_volume r') in *.
  set (r1 := set_label _ r').
  assert (Hsc : scanning v 9 r1).
  { split; [|rewrite F8 || cbn; cbn; rewrite ?F8, ?F2; cbn; lia].
    unfold report_ok. cbn. rewrite F2, F8. cbn. repeat split; auto; try constructor; try lia.
    revert F7. apply Forall_impl. intros lba ->. left. reflexivity. }
  pose proof (scan_clusters_ok v last_lba G read Hread PI4_FAT32_CLUSTER_LIMIT [] (v_root_cluster v) 9 r1 Hsc) as S.
  apply scan_ok_report in S. change (fr_volume r1) with v.
  assert (Hfin : forall r, report_ok v 17 r -> forall c,
    let r' := match c with Some b => finish b r | None => r end in
    (length (fr_log r') <= 17)%nat /\ Forall (fun lba => 0 <= lba <= last_lba) (fr_log r') /\
    (length (fr_entry r') <= 8)%nat /\ Forall (entry_ok (fr_volume r')) (fr_entry r') /\
    (fr_result r' = PI4_FAT32_ROOT_PASS <-> fr_complete r' = true) /\
    (fr_result r' = PI4_FAT32_ROOT_PARTIAL <-> fr_bounded r' = true) /\
    (fr_entry r' <> [] \/ fr_complete r' = true \/ fr_bounded r' = true ->
     good_volume (fr_volume r') last_lba /\ Forall (read_target (fr_volume r')) (fr_log r'))).
  { intros r (R1&R2&R3&R4&R5&R6&R7&R8&R9) c. 
    assert (Hlog : Forall (fun lba => 0 <= lba <= last_lba) (fr_log r)).
    { revert R2. apply Forall_impl. intros lba. apply (read_target_on_disk _ _ _ G). }
    destruct c as [[]|]; cbn; rewrite R1, ?R6, ?R7; split_and!; auto; try lia; intuition congruence. }
  destruct (scan_clusters _ _ _ _ _) as [r2|r2|r2|r2].
  - exact (Hfin r2 S (Some false)).
  - exact (Hfin r2 S None).
  - exact (Hfin r2 S (Some false)).
  - exact (Hfin r2 S (Some true)).
Qed.

Lemma pi4_fat32_probe_safe_witness :
  fr_result (pi4_fat32_probe (reader demo_media) demo_boot 66037 512) = PI4_FAT32_ROOT_PASS /\
  (length (fr_log (pi4_fat32_probe (reader demo_media) demo_boot 66037 512)) <= 17)%nat.
Proof.
  split; [vm_compute; reflexivity|].
  apply (pi4_fat32_probe_safe (reader demo_media) demo_boot 66037 512);
    [intros n lba b; apply demo_media_bytes | apply bytes_okb_ok; reflexivity | lia].
Defined.

(** ** The root scan on stable media *)

(** The listing ends (at an end mark, or with the last of at most eight sectors) before the array
    of eight entries is full. *)
Definition root_complete (sectors : nat) (es : list pi4_fat32_entry) (o : dir_stop) : bool :=
  (Z.of_nat (length es) <? 8) &&
  match o with Dir_ended => true | _ => Z.of_nat sectors <=? 8 end.

(** On media that answer every read of a sector the same way, the scan of a volume whose root
    directory is a proper cluster chain with readable sectors lists exactly the live entries of
    the directory's first eight sectors, in order, up to the end mark and at most eight; it
    passes exactly when those are all the entries of the directory.  (The bound of eight clusters
    never cuts a directory off that the bound of eight sectors would not.) *)
Theorem pi4_fat32_probe_root media sector0 last_lba boot r0 cs bufs es o :
  (forall lba b, media lba = Some b -> length b = 512%nat /\ bytes_ok b) ->
  bytes_ok sector0 -> pi4_fat32_signature sector0 = true -> 0 <= last_lba < 4294967296 ->
  find_volume (reader media) sector0 last_lba (set_result PI4_FAT32_UNSUPPORTED zero_report) = inr (boot, r0) ->
  let v := fr_volume r0 in
  chain v media (v_root_cluster v) cs ->
  mapM media (take 8 (chain_sectors v cs)) = Some bufs ->
  dir_of v bufs = (es, o) -> o <> Dir_malformed ->
  let r := pi4_fat32_probe (reader media) sector0 last_lba 512 in
  fr_entry r = take 8 es /\
  fr_result r = if root_complete (length (chain_sectors v cs)) es o
                then PI4_FAT32_ROOT_PASS else PI4_FAT32_ROOT_PARTIAL.
Proof.
  intros Hm Hs Hsig Hl Hf v (next & P & Hnx) Hr Hd Ho. cbn zeta.
  assert (Hlen : forall lba b, media lba = Some b -> length b = 512%nat) by (intros; eapply Hm; eassumption).
  assert (Hby : forall n lba b, reader media n lba = Some b -> bytes_ok b) by (intros n lba b Hb; eapply Hm; exact Hb).
  pose proof (find_volume_ok (reader media) Hby sector0 last_lba (set_result PI4_FAT32_UNSUPPORTED zero_report) Hs Hl) as F.
  match type of F with ?A -> _ => assert (HA : A) by (unfold searched; cbn; repeat split; try discriminate; lia) end.
  specialize (F HA eq_refl). rewrite Hf in F. destruct F as ((F1&F2&F3&F4&F5&F6&F8) & G & _). fold v in G.
  unfold pi4_fat32_probe. rewrite Hsig, Hf. cbn [negb orb].
  match goal with |- context [scan_clusters _ _ _ _ ?r1] => set (r1' := r1) end.
  change (if negb (512 =? 512) || false then _ else ?x) with x.
  change (fr_volume r1') with v.
  assert (D0 : fr_directory_sectors r1' = 0) by exact F8. assert (E0 : fr_entry r1' = []) by exact F2.
  pose proof (scan_clusters_spec v last_lba G media Hlen PI4_FAT32_CLUSTER_LIMIT [] (v_root_cluster v) cs next
    r1' bufs es o P Hnx) as S.
  rewrite D0, E0 in S. specialize (S (chain_nodup v media _ _ (ex_intro _ next (conj P Hnx)) (proj2 (gv_clusters _ _ G)))).
  specialize (S ltac:(intros d _ Hd'; inversion Hd') ltac:(lia) ltac:(unfold PI4_FAT32_CLUSTER_LIMIT; lia) ltac:(cbn; lia) eq_refl Hr Hd Ho).
  cbn [app] in S. unfold root_complete, scan_result in *.
  destruct (8 <=? Z.of_nat (length es)) eqn:E8; zbool.
  - destruct S as (r' & -> & Hr'). cbn. rewrite Hr'. replace (Z.of_nat (length es) <? 8) with false by lia. split; reflexivity.
  - replace (Z.of_nat (length es) <? 8) with true by lia. rewrite take_ge by lia. cbn [andb].
    assert (Hfin : forall s, (exists r', s = Scan_complete r' /\ fr_entry r' = es) ->
      let r := match s with Scan_return r => r | Scan_on r | Scan_bounded r => finish false r
               | Scan_complete r => finish true r end in
      fr_entry r = es /\ fr_result r = PI4_FAT32_ROOT_PASS).
    { intros s (r' & -> & <-). split; reflexivity. }
    destruct o; [|apply Hfin; exact S|congruence].
    change (0 + Z.of_nat (length (chain_sectors v cs))) with (Z.of_nat (length (chain_sectors v cs))) in S.
    destruct (Z.of_nat (length (chain_sectors v cs)) <=? 8); [apply Hfin; exact S|].
    destruct S as (r' & -> & <-). split; reflexivity.
Qed.

Lemma demo_root_path : chain demo_volume demo_media 2 [2].
Proof. exists 0x0fffffff. split; [|lia]. constructor; [split; vm_compute; discriminate|reflexivity|lia]. Qed.

Lemma pi4_fat32_probe_root_witness :
  fr_entry (pi4_fat32_probe (reader demo_media) demo_boot 66037 512) = [demo_entry].
Proof.
  refine (proj1 (pi4_fat32_probe_root demo_media demo_boot 66037 demo_boot
    (snd (default ([], zero_report)
       (match find_volume (reader demo_media) demo_boot 66037 (set_result PI4_FAT32_UNSUPPORTED zero_report) with
        | inr x => Some x | inl _ => None end))) [2] [demo_dir] [demo_entry] Dir_ended _ _ _ _ _ _ _ _ _)).
  - intros lba b H. split; [exact (demo_media_len lba b H) | exact (demo_media_bytes lba b H)].
  - apply bytes_okb_ok. reflexivity.
  - reflexivity.
  - lia.
  - vm_compute. reflexivity.
  - exact demo_root_path.
  - vm_compute. reflexivity.
  - vm_compute. reflexivity.
  - discriminate.
Defined.

(** ** Files *)

(** The clusters [cs] hold a small plain file and all its sectors, [bufs], are readable: the entry
    is not a directory, a volume label or worse, it has at most [capacity] and 2048 bytes, and, if
    it is not empty, the clusters are its chain, without a repetition and with enough sectors. *)
Record readable (media : Z -> option (list Z)) (v : pi4_fat32_volume) (file : pi4_fat32_entry) (capacity : Z)
    (cs : list Z) (bufs : list (list Z)) : Prop := {
  rd_plain : has (fe_attributes file) 0xd8 = false;
  rd_small : fe_bytes file <= capacity /\ fe_bytes file <= 2048;
  rd_chain : fe_bytes file <> 0 -> exists next, path v media (fe_cluster file) cs next;
  rd_distinct : NoDup cs;
  rd_enough : fe_bytes file <= 512 * Z.of_nat (length (chain_sectors v cs));
  rd_media : mapM media (take (needed (fe_bytes file)) (chain_sectors v cs)) = Some bufs }.

(** C20: on stable media the reader passes exactly when the entry is a plain file of at most
    [capacity] and 2048 bytes whose cluster chain is long enough, visits no cluster twice, and
    has readable sectors; and then the output is the first [fe_bytes] bytes of the chain's
    sectors in order: no padding, nothing short, within the capacity.  (Four clusters are enough for
    every such file.) *)
Theorem pi4_fat32_read_file_correct media v last_lba file capacity :
  good_volume v last_lba -> (forall lba b, media lba = Some b -> length b = 512%nat) ->
  is_u 32 (fe_bytes file) ->
  let r := pi4_fat32_read_file (reader media) v file capacity in
  (ff_result r = PI4_FAT32_FILE_READ_PASS <-> exists cs bufs, readable media v file capacity cs bufs) /\
  (forall cs bufs, readable media v file capacity cs bufs ->
     ff_out r = take (Z.to_nat (fe_bytes file)) (concat bufs) /\ ff_bytes r = fe_bytes file /\
     length (ff_out r) = Z.to_nat (fe_bytes file)).
Proof.
  intros G Hlen Hu. cbn zeta. unfold pi4_fat32_read_file. unfold is_u in Hu.
  pose proof (gv_spc _ _ G). set (r0 := mk_file PI4_FAT32_FILE_INVALID [] 0 []).
  replace (v_sectors_per_cluster v =? 0) with false by lia.
  replace (128 <? v_sectors_per_cluster v) with false by lia. rewrite !orb_false_r.
  unfold PI4_FAT32_FILE_MAX_BYTES.
  destruct (has (fe_attributes file) 0xd8) eqn:Ea.
  { split; [split; [discriminate|]; intros (cs & bufs & R)|intros cs bufs R]; pose proof (rd_plain _ _ _ _ _ _ R); congruence. }
  destruct ((capacity <? fe_bytes file) || (2048 <? fe_bytes file)) eqn:Ec.
  { split; [split; [discriminate|]; intros (cs & bufs & R)|intros cs bufs R]; pose proof (rd_small _ _ _ _ _ _ R); lia. }
  apply orb_false_iff in Ec as [Ec1 Ec2]. zbool.
  destruct (Z.eqb_spec (fe_bytes file) 0) as [E0|E0].
  { split; [split; [intros _; exists [], []; split; rewrite ?E0; try done; try (cbn; lia); apply NoDup_nil_2|reflexivity]|].
    intros cs bufs _. rewrite E0. repeat split. }
  assert (Hb0 : ff_bytes r0 < fe_bytes file < 4294967296) by (change (ff_bytes r0) with 0; lia).
  assert (Hc : forall cs bufs, readable media v file capacity cs bufs ->
    ff_result (file_clusters (reader media) PI4_FAT32_FILE_CLUSTER_LIMIT [] v (fe_cluster file) (fe_bytes file) r0) = PI4_FAT32_FILE_READ_PASS /\
    ff_out (file_clusters (reader media) PI4_FAT32_FILE_CLUSTER_LIMIT [] v (fe_cluster file) (fe_bytes file) r0) = take (Z.to_nat (fe_bytes file)) (concat bufs)).
  { intros cs bufs [_ _ R3 ND R5 R6]. destruct (R3 E0) as (next & P).
    eapply (file_clusters_complete v last_lba G media Hlen); [exact P|exact ND| | | | |];
      try (change (ff_bytes r0) with 0; unfold PI4_FAT32_FILE_CLUSTER_LIMIT; lia).
    - intros d _ Hd. inversion Hd.
    - exists bufs. cbn. rewrite Z.sub_0_r. split; [exact R6|reflexivity]. }
  assert (Hp : ff_result (file_clusters (reader media) PI4_FAT32_FILE_CLUSTER_LIMIT [] v (fe_cluster file) (fe_bytes file) r0) = PI4_FAT32_FILE_READ_PASS ->
    ff_bytes (file_clusters (reader media) PI4_FAT32_FILE_CLUSTER_LIMIT [] v (fe_cluster file) (fe_bytes file) r0) = fe_bytes file /\
    exists cs bufs, readable media v file capacity cs bufs).
  { intros Hp. destruct (file_clusters_sound v last_lba G media Hlen _ _ _ _ r0 Hb0 Hp) as (cs & next & P & ND & _ & L & Hb & (bufs & Hm & _)).
    split; [exact Hb|]. exists cs, bufs. cbn in Hm. rewrite Z.sub_0_r in Hm. change (ff_bytes r0) with 0 in L. split; eauto. }
  split; [split; [apply Hp|intros (cs & bufs & R); apply (Hc cs bufs R)]|].
  intros cs bufs R. destruct (Hc cs bufs R) as [C1 C2]. destruct (Hp C1) as [B _]. split; [exact C2|]. split; [exact B|]. unfold ff_bytes in B. lia.
Qed.

Lemma pi4_fat32_read_file_correct_witness :
  ff_out (pi4_fat32_read_file (reader demo_media) demo_volume demo_entry 2048) = bytes_of_string "hello"%string.
Proof.
  assert (G : good_volume demo_volume 66037) by (split; vm_compute; intuition discriminate).
  refine (eq_trans (proj1 (proj2 (pi4_fat32_read_file_correct demo_media demo_volume 66037 demo_entry 2048
    G demo_media_len _) [3] [demo_data] _)) _); [split; vm_compute; [discriminate|reflexivity]| |vm_compute; reflexivity].
  split.
  - reflexivity.
  - vm_compute. split; discriminate.
  - intros _. exists 0x0fffffff. constructor; [split; vm_compute; discriminate|reflexivity|lia].
  - apply NoDup_singleton.
  - vm_compute. discriminate.
  - vm_compute. reflexivity.
Defined.

(** ** Names *)

Lemma cstr_step l : byte_at l 0 <> 0 -> cstr l = byte_at l 0 :: cstr (drop 1 l).
Proof.
  destruct l as [|c l]; [intros H; destruct H; reflexivity|].
  change (byte_at (c :: l) 0) with c. cbn [cstr drop].
  intros H. destruct (Z.eqb_spec c 0); [contradiction|]. rewrite drop_0. reflexivity.
Qed.

Lemma cstr_stop l : byte_at l 0 = 0 -> cstr l = [].
Proof. destruct l as [|c l]; [reflexivity|]. change (byte_at (c :: l) 0) with c. intros ->. reflexivity. Qed.

Lemma upcase_zero c : upcase c = 0 <-> c = 0.
Proof. unfold upcase. case_if; lia. Qed.

Lemma name_equal_from_spec n : forall a b, (length (cstr a) < n)%nat ->
  (name_equal_from n a b = true <-> map upcase (cstr a) = map upcase (cstr b)).
Proof.
  induction n as [|n IH]; intros a b L; [lia|]. cbn [name_equal_from]. cbn zeta.
  destruct (Z.eq_dec (byte_at a 0) 0) as [Ha|Ha].
  - rewrite (cstr_stop a Ha), Ha. change (upcase 0) with 0.
    destruct (Z.eqb_spec 0 (upcase (byte_at b 0))) as [E|E]; cbn [negb].
    + symmetry in E. apply (proj1 (upcase_zero _)) in E. rewrite (cstr_stop b E). cbn. tauto.
    + rewrite (cstr_step b) by (intros Hb; apply E; rewrite Hb; reflexivity). cbn. split; discriminate.
  - rewrite (cstr_step a Ha) in L |- *. cbn [length] in L.
    destruct (Z.eqb_spec (upcase (byte_at a 0)) (upcase (byte_at b 0))) as [E|E]; cbn [negb].
    + destruct (Z.eqb_spec (upcase (byte_at a 0)) 0) as [Z0|Z0]; [rewrite upcase_zero in Z0; contradiction|].
      rewrite (cstr_step b) by (intros Hb; rewrite Hb in E; apply Z0; rewrite E; reflexivity).
      rewrite IH by lia. cbn. rewrite E. split; [intros ->; reflexivity|intros [= ->]; reflexivity].
    + split; [discriminate|]. intros H. exfalso. apply E.
      destruct (Z.eq_dec (byte_at b 0) 0) as [Hb|Hb]; [rewrite (cstr_stop b Hb) in H; discriminate|].
      rewrite (cstr_step b Hb) in H. injection H as H _. exact H.
Qed.

(** A plain file of the listing whose name is [name] up to case. *)
Definition names_file (name : list Z) (e : pi4_fat32_entry) : Prop :=
  has (fe_attributes e) 0xd8 = false /\ map upcase (fe_name e) = map upcase (cstr name).

Lemma printable_name v e : entry_ok v e -> cstr (fe_name e) = fe_name e /\ (length (fe_name e) <= 12)%nat.
Proof.
  intros (L & P & _). split; [|exact L]. apply cstr_no_nul. revert P. apply Forall_impl. unfold printable. lia.
Qed.

(** In a listing as the scan makes it, the search returns the first plain file whose name
    equals the given one up to the case of ASCII letters, and nothing when there is none. *)
Theorem pi4_fat32_find_file_correct root v name :
  (length (fr_entry root) <= 8)%nat -> Forall (entry_ok v) (fr_entry root) ->
  match pi4_fat32_find_file root name with
  | Some e => exists before after, fr_entry root = before ++ e :: after /\ names_file name e /\
                Forall (fun e' => ~ names_file name e') before
  | None => Forall (fun e' => ~ names_file name e') (fr_entry root)
  end.
Proof.
  intros L H. unfold pi4_fat32_find_file, PI4_FAT32_ENTRIES.
  destruct (Z.ltb_spec 8 (Z.of_nat (length (fr_entry root)))); [lia|].
  assert (Hn : forall e, entry_ok v e ->
    (negb (has (fe_attributes e) 0xd8) && pi4_fat32_name_equal (fe_name e) name = true <-> names_file name e)).
  { intros e He. destruct (printable_name v e He) as (Hc & Hlen). unfold names_file, pi4_fat32_name_equal.
    rewrite andb_true_iff, negb_true_iff, name_equal_from_spec by (rewrite Hc; lia). rewrite Hc. reflexivity. }
  induction H as [|e es He Hes IH]; cbn [List.find]; [constructor|].
  specialize (Hn e He) as Hne. destruct (negb _ && _) eqn:E.
  - exists [], es. split; [reflexivity|]. split; [tauto|constructor].
  - assert (Hno : ~ names_file name e) by (intros Hx; apply Hne in Hx; discriminate).
    assert (L' : (length es <= 8)%nat) by (cbn in L; lia).
    assert (L2 : Z.of_nat (length es) <= 8) by lia. specialize (IH L' L2).
    destruct (List.find _ es) as [f|].
    + destruct IH as (before & after & -> & Hf & Hb). exists (e :: before), after.
      split; [reflexivity|]. split; [exact Hf|constructor; assumption].
    + constructor; assumption.
Qed.

Lemma pi4_fat32_find_file_correct_witness :
  let root := add_entry demo_entry zero_report in
  pi4_fat32_find_file root (bytes_of_string "hello.txt"%string) = Some demo_entry /\
  exists before after, fr_entry root = before ++ demo_entry :: after /\
    names_file (bytes_of_string "hello.txt"%string) demo_entry /\
    Forall (fun e' => ~ names_file (bytes_of_string "hello.txt"%string) e') before.
Proof.
  split; [vm_compute; reflexivity|].
  refine (pi4_fat32_find_file_correct (add_entry demo_entry zero_report) demo_volume
    (bytes_of_string "hello.txt"%string) _ _).
  - cbn. lia.
  - constructor; [|constructor]. unfold entry_ok, is_u, in_volume. cbn.
    split; [lia|]. split; [|split; [lia|left; lia]]. repeat constructor; unfold printable; vm_compute; discriminate.
Defined.

(** ** The test file *)

(** The contents of ZEALTEST.TXT: the 29-byte line over and over, cut at 1025 bytes. *)
Definition test_file : list Z := take 1025 (concat (repeat PI4_FAT32_TEST_PATTERN 36)).

Lemma forallb_bytes_equal data want n : length want = n ->
  (forallb (fun i => byte_at data (Z.of_nat i) =? byte_at want (Z.of_nat i)) (seq 0 n) = true <->
   (forall i, (i < n)%nat -> nth i data 0 = nth i want 0)).
Proof.
  intros L. rewrite forallb_forall. split.
  - intros H i Hi. specialize (H i). rewrite in_seq, !byte_at_nth in H. apply Z.eqb_eq, H. lia.
  - intros H i Hi. rewrite in_seq in Hi. rewrite !byte_at_nth. apply Z.eqb_eq, H. lia.
Qed.

Lemma forallb_eq {A} (f g : A -> bool) l : (forall x, In x l -> f x = g x) -> forallb f l = forallb g l.
Proof.
  induction l as [|x l IH]; intros H; [reflexivity|]. cbn. rewrite H, IH; [reflexivity| |left; reflexivity].
  intros y Hy. apply H. right. exact Hy.
Qed.

(** The self-test accepts exactly the 1025 bytes of the test file, whose CRC-32, by the
    source store's own routine, is the constant the header states: bytes that pass have the
    checksum the bring-up log prints for them. *)
Theorem pi4_fat32_test_match_correct data length_ :
  Z.of_nat (length data) = length_ ->
  (pi4_fat32_test_match data length_ = true <-> data = test_file) /\
  (pi4_fat32_test_match data length_ = true -> zss_crc data 1025 = PI4_FAT32_TEST_CRC32).
Proof.
  intros L.
  assert (H : pi4_fat32_test_match data length_ = true <-> data = test_file).
  { unfold pi4_fat32_test_match, PI4_FAT32_TEST_BYTES.
    destruct (Z.eqb_spec length_ 1025) as [->|Hne]; cbn [negb].
    2:{ split; [discriminate|]. intros ->. exfalso. apply Hne. rewrite <- L. reflexivity. }
    assert (E : forall i, In i (seq 0 1025) ->
      byte_at PI4_FAT32_TEST_PATTERN (Z.of_nat i mod 29) = byte_at test_file (Z.of_nat i)).
    { assert (A : forallb (fun i => byte_at PI4_FAT32_TEST_PATTERN (Z.of_nat i mod 29) =? byte_at test_file (Z.of_nat i))
                    (seq 0 1025) = true) by (vm_compute; reflexivity).
      rewrite forallb_forall in A. intros i Hi. apply Z.eqb_eq, A, Hi. }
    rewrite (forallb_eq _ (fun i => byte_at data (Z.of_nat i) =? byte_at test_file (Z.of_nat i))).
    2:{ intros i Hi. rewrite (E i Hi). reflexivity. }
    change (Z.to_nat 1025) with 1025%nat.
    rewrite forallb_bytes_equal by reflexivity. split.
    - intros H. apply (nth_ext _ _ 0 0); [change (length test_file) with 1025%nat; lia|]. intros i Hi. apply H. lia.
    - intros -> i _. reflexivity. }
  split; [exact H|]. intros Hm. apply H in Hm as ->. vm_compute. reflexivity.
Qed.

Lemma pi4_fat32_test_match_correct_witness :
  Z.of_nat (length test_file) = 1025 /\ zss_crc test_file 1025 = PI4_FAT32_TEST_CRC32.
Proof.
  split; [reflexivity|].
  apply (pi4_fat32_test_match_correct test_file 1025); [reflexivity | vm_compute; reflexivity].
Defined.
