(* ===== verification/A64.v ===== *)
(** * AArch64 encoders ([src/src/a64_emit.h]) and the instructions they encode

    The encoders are the source's bit expressions.  [instr] and [decode] are the target's side:
    the instruction classes of the Arm architecture the encoders belong to, and their fixed
    bits.  Each encoder is proved to encode the instruction its name says. *)

From S2P Require Import Prelude.

Create Rewrite HintDb a64.

Declare Scope bits_scope.
Infix "|||" := Z.lor (at level 50, left associativity) : bits_scope.
Notation "r @ k" := (Z.shiftl (Z.land r 31) k) (at level 40, no associativity) : bits_scope.
#[local] Open Scope bits_scope.

Definition reg5 (r : Z) : Z := Z.land r 31.

(** ** Encoders *)

Definition a64_ret : Z := 0xD65F03C0.
Definition a64_blr (rn : Z) : Z := 0xD63F0000 ||| rn @ 5.

Definition a64_movz_x (rd imm16 shift : Z) : Z :=
  let hw := Z.land (Z.shiftr shift 4) 3 in
  Z.shiftl 1 31 ||| Z.shiftl 2 29 ||| Z.shiftl 0x25 23 ||| Z.shiftl hw 21 |||
  Z.shiftl imm16 5 ||| Z.land rd 31.
Definition a64_movk_x (rd imm16 shift : Z) : Z :=
  let hw := Z.land (Z.shiftr shift 4) 3 in
  Z.shiftl 1 31 ||| Z.shiftl 3 29 ||| Z.shiftl 0x25 23 ||| Z.shiftl hw 21 |||
  Z.shiftl imm16 5 ||| Z.land rd 31.

Definition a64_add_x_reg (rd rn rm : Z) : Z :=
  Z.shiftl 1 31 ||| Z.shiftl 0x0B 24 ||| rm @ 16 ||| rn @ 5 ||| Z.land rd 31.
Definition a64_sub_x_reg (rd rn rm : Z) : Z :=
  Z.shiftl 1 31 ||| Z.shiftl 0x4B 24 ||| rm @ 16 ||| rn @ 5 ||| Z.land rd 31.
Definition a64_cmp_x (rn rm : Z) : Z := 0xEB00001F ||| rm @ 16 ||| rn @ 5.
Definition a64_mul_x (rd rn rm : Z) : Z := 0x9B007C00 ||| rm @ 16 ||| rn @ 5 ||| Z.land rd 31.
Definition a64_sdiv_x (rd rn rm : Z) : Z := 0x9AC00C00 ||| rm @ 16 ||| rn @ 5 ||| Z.land rd 31.
Definition a64_msub_x (rd rn rm ra : Z) : Z :=
  0x9B008000 ||| rm @ 16 ||| ra @ 10 ||| rn @ 5 ||| Z.land rd 31.
Definition a64_mov_x (rd rn : Z) : Z := 0xAA0003E0 ||| rn @ 16 ||| Z.land rd 31.
Definition a64_neg_x (rd rm : Z) : Z := a64_sub_x_reg rd 31 rm.
Definition a64_add_x_imm (rd rn imm12 : Z) : Z :=
  Z.shiftl 1 31 ||| Z.shiftl 0x11 24 ||| Z.shiftl (Z.land imm12 0xfff) 10 ||| rn @ 5 ||| Z.land rd 31.

Definition a64_cset_eq (rd : Z) : Z := 0x9A9F17E0 ||| Z.land rd 31.
Definition a64_cset_ne (rd : Z) : Z := 0x9A9F07E0 ||| Z.land rd 31.
Definition a64_cset_lt (rd : Z) : Z := 0x9A9FA7E0 ||| Z.land rd 31.
Definition a64_cset_ge (rd : Z) : Z := 0x9A9FB7E0 ||| Z.land rd 31.
Definition a64_cset_le (rd : Z) : Z := 0x9A9FC7E0 ||| Z.land rd 31.
Definition a64_cset_gt (rd : Z) : Z := 0x9A9FD7E0 ||| Z.land rd 31.

Definition a64_and_x (rd rn rm : Z) : Z := 0x8A000000 ||| rm @ 16 ||| rn @ 5 ||| Z.land rd 31.
Definition a64_orr_x (rd rn rm : Z) : Z := 0xAA000000 ||| rm @ 16 ||| rn @ 5 ||| Z.land rd 31.
Definition a64_eor_x (rd rn rm : Z) : Z := 0xCA000000 ||| rm @ 16 ||| rn @ 5 ||| Z.land rd 31.
Definition a64_lslv_x (rd rn rm : Z) : Z := 0x9AC02000 ||| rm @ 16 ||| rn @ 5 ||| Z.land rd 31.
Definition a64_lsrv_x (rd rn rm : Z) : Z := 0x9AC02400 ||| rm @ 16 ||| rn @ 5 ||| Z.land rd 31.
Definition a64_asrv_x (rd rn rm : Z) : Z := 0x9AC02800 ||| rm @ 16 ||| rn @ 5 ||| Z.land rd 31.

(** [word_off] is an [int32_t]. *)
Definition a64_b (word_off : Z) : Z := 0x14000000 ||| Z.land (u32 word_off) 0x03FFFFFF.
Definition a64_bl (word_off : Z) : Z := 0x94000000 ||| Z.land (u32 word_off) 0x03FFFFFF.
Definition a64_cbz (rt word_off : Z) : Z :=
  0xB4000000 ||| Z.shiftl (Z.land (u32 word_off) 0x7FFFF) 5 ||| Z.land rt 31.
Definition a64_cbnz (rt word_off : Z) : Z :=
  0xB5000000 ||| Z.shiftl (Z.land (u32 word_off) 0x7FFFF) 5 ||| Z.land rt 31.

(** [imm] is an [int]; [>>] on it is arithmetic. *)
Definition a64_stp_pre (rt rt2 rn imm : Z) : Z :=
  let imm7 := Z.land (Z.shiftr imm 3) 0x7f in
  0xA9800000 ||| Z.shiftl imm7 15 ||| rt2 @ 10 ||| rn @ 5 ||| Z.land rt 31.
Definition a64_ldp_post (rt rt2 rn imm : Z) : Z :=
  let imm7 := Z.land (Z.shiftr imm 3) 0x7f in
  0xA8C00000 ||| Z.shiftl imm7 15 ||| rt2 @ 10 ||| rn @ 5 ||| Z.land rt 31.

(** The four words it stores; [(uint16_t)(imm >> k)] is [u16 (Z.shiftr imm k)]. *)
Definition a64_emit_imm64 (rd imm : Z) : list Z :=
  [a64_movz_x rd (u16 (Z.shiftr imm 0)) 0; a64_movk_x rd (u16 (Z.shiftr imm 16)) 16;
   a64_movk_x rd (u16 (Z.shiftr imm 32)) 32; a64_movk_x rd (u16 (Z.shiftr imm 48)) 48].

Definition a64_ldr_x (rt rn : Z) : Z := 0xF9400000 ||| rn @ 5 ||| Z.land rt 31.
Definition a64_str_x (rt rn : Z) : Z := 0xF9000000 ||| rn @ 5 ||| Z.land rt 31.
Definition a64_ldrb (rt rn : Z) : Z := 0x39400000 ||| rn @ 5 ||| Z.land rt 31.
Definition a64_strb (rt rn : Z) : Z := 0x39000000 ||| rn @ 5 ||| Z.land rt 31.
Definition a64_ldr_w (rt rn : Z) : Z := 0xB9400000 ||| rn @ 5 ||| Z.land rt 31.
Definition a64_str_w (rt rn : Z) : Z := 0xB9000000 ||| rn @ 5 ||| Z.land rt 31.
Definition a64_add_x_lsl (rd rn rm imm6 : Z) : Z :=
  Z.shiftl 1 31 ||| Z.shiftl 0x0B 24 ||| rm @ 16 ||| Z.shiftl (Z.land imm6 63) 10 ||| rn @ 5 ||| Z.land rd 31.
Definition a64_sub_x_imm (rd rn imm12 : Z) : Z :=
  Z.shiftl 1 31 ||| Z.shiftl 0x51 24 ||| Z.shiftl (Z.land imm12 0xfff) 10 ||| rn @ 5 ||| Z.land rd 31.
Definition a64_ldr_x_imm (rt rn imm12 : Z) : Z :=
  0xF9400000 ||| Z.shiftl (Z.land imm12 0xfff) 10 ||| rn @ 5 ||| Z.land rt 31.
Definition a64_str_x_imm (rt rn imm12 : Z) : Z :=
  0xF9000000 ||| Z.shiftl (Z.land imm12 0xfff) 10 ||| rn @ 5 ||| Z.land rt 31.

Definition a64_fp_dataproc2 (opcode rd rn rm : Z) : Z :=
  Z.shiftl 0xf 25 ||| Z.shiftl 1 22 ||| Z.shiftl 1 21 ||| rm @ 16 ||| Z.shiftl (Z.land opcode 15) 12 |||
  Z.shiftl 2 10 ||| rn @ 5 ||| Z.land rd 31.
Definition a64_fadd_d (rd rn rm : Z) : Z := a64_fp_dataproc2 2 rd rn rm.
Definition a64_fsub_d (rd rn rm : Z) : Z := a64_fp_dataproc2 3 rd rn rm.
Definition a64_fmul_d (rd rn rm : Z) : Z := a64_fp_dataproc2 0 rd rn rm.
Definition a64_fdiv_d (rd rn rm : Z) : Z := a64_fp_dataproc2 1 rd rn rm.
Definition a64_fneg_d (rd rn : Z) : Z :=
  Z.shiftl 0xf 25 ||| Z.shiftl 1 22 ||| Z.shiftl 1 21 ||| Z.shiftl 2 15 ||| Z.shiftl 1 14 |||
  rn @ 5 ||| Z.land rd 31.
Definition a64_fcmp_d (rn rm : Z) : Z :=
  Z.shiftl 0xf 25 ||| Z.shiftl 1 22 ||| Z.shiftl 1 21 ||| rm @ 16 ||| Z.shiftl 1 13 ||| rn @ 5.
Definition a64_fmov_d_x (dd xn : Z) : Z :=
  Z.shiftl 1 31 ||| Z.shiftl 0xf 25 ||| Z.shiftl 1 22 ||| Z.shiftl 1 21 ||| Z.shiftl 7 16 |||
  xn @ 5 ||| Z.land dd 31.
Definition a64_fmov_x_d (xd dn : Z) : Z :=
  Z.shiftl 1 31 ||| Z.shiftl 0xf 25 ||| Z.shiftl 1 22 ||| Z.shiftl 1 21 ||| Z.shiftl 6 16 |||
  dn @ 5 ||| Z.land xd 31.
Definition a64_scvtf_d_x (dd xn : Z) : Z :=
  Z.shiftl 1 31 ||| Z.shiftl 0xf 25 ||| Z.shiftl 1 22 ||| Z.shiftl 1 21 ||| Z.shiftl 2 16 |||
  xn @ 5 ||| Z.land dd 31.
Definition a64_fcvtzs_x_d (xd dn : Z) : Z :=
  Z.shiftl 1 31 ||| Z.shiftl 0xf 25 ||| Z.shiftl 1 22 ||| Z.shiftl 1 21 ||| Z.shiftl 3 19 |||
  dn @ 5 ||| Z.land xd 31.
Definition a64_csel_eq_x (rd rn rm : Z) : Z := 0x9A800000 ||| rm @ 16 ||| rn @ 5 ||| Z.land rd 31.

(** ** The instructions

    64-bit forms unless the name says otherwise; 31 is XZR, or SP as the base of a load or store
    and in [AddImm]. *)

Inductive logic_op := Land | Lorr | Leor.
Inductive dp2_op := Sdiv | Lslv | Lsrv | Asrv.
Inductive fp2_op := Fmul | Fdiv | Fadd | Fsub.
Inductive access := X64 | W32 | B8.

Inductive instr :=
| Ret (rn : Z) | Blr (rn : Z)
| Movz (rd imm16 hw : Z) | Movk (rd imm16 hw : Z)
| AddReg (rd rn rm amount : Z)              (* LSL #amount *)
| SubReg (rd rn rm amount : Z) | SubsReg (rd rn rm amount : Z)
| AddImm (rd rn imm12 : Z) | SubImm (rd rn imm12 : Z)
| Logic (op : logic_op) (rd rn rm : Z)
| Madd (rd rn rm ra : Z) | Msub (rd rn rm ra : Z)
| Dp2 (op : dp2_op) (rd rn rm : Z)
| Csinc (rd rn rm cond : Z) | Csel (rd rn rm cond : Z)
| B (imm26 : Z) | Bl (imm26 : Z)
| Cbz (rt imm19 : Z) | Cbnz (rt imm19 : Z)
| StpPre (rt rt2 rn imm7 : Z) | LdpPost (rt rt2 rn imm7 : Z)
| Ldr (size : access) (rt rn imm12 : Z) | Str (size : access) (rt rn imm12 : Z)
| Fp2 (op : fp2_op) (rd rn rm : Z) | Fneg (rd rn : Z) | Fcmp (rn rm : Z)
| FmovDX (rd rn : Z) | FmovXD (rd rn : Z) | Scvtf (rd rn : Z) | Fcvtzs (rd rn : Z).

(** Bits [lo ... lo + n - 1]. *)
Definition field (w lo n : Z) : Z := Z.land (Z.shiftr w lo) (Z.ones n).

(** The sign of an [n]-bit immediate. *)
Definition sext (n x : Z) : Z := if x <? 2 ^ (n - 1) then x else x - 2 ^ n.

(** Each row: the mask of the fixed bits, their value, and the instruction of the others. *)
Definition f_rd (w : Z) : Z := field w 0 5.
Definition f_rn (w : Z) : Z := field w 5 5.
Definition f_ra (w : Z) : Z := field w 10 5.
Definition f_rm (w : Z) : Z := field w 16 5.
Definition f_imm12 (w : Z) : Z := field w 10 12.
Definition f_imm19 (w : Z) : Z := sext 19 (field w 5 19).
Definition f_imm26 (w : Z) : Z := sext 26 (field w 0 26).
Definition f_imm7 (w : Z) : Z := sext 7 (field w 15 7).

Definition decode_table : list (Z * Z * (Z -> instr)) :=
  let r3 (f : Z -> Z -> Z -> instr) w := f (f_rd w) (f_rn w) (f_rm w) in
  let r2 (f : Z -> Z -> instr) w := f (f_rd w) (f_rn w) in
  let mem (f : Z -> Z -> Z -> instr) w := f (f_rd w) (f_rn w) (f_imm12 w) in
  [ (0xFFFFFC1F, 0xD65F0000, fun w => Ret (f_rn w)); (0xFFFFFC1F, 0xD63F0000, fun w => Blr (f_rn w));
    (0xFF800000, 0xD2800000, fun w => Movz (f_rd w) (field w 5 16) (field w 21 2));
    (0xFF800000, 0xF2800000, fun w => Movk (f_rd w) (field w 5 16) (field w 21 2));
    (0xFFE00000, 0x8B000000, fun w => AddReg (f_rd w) (f_rn w) (f_rm w) (field w 10 6));
    (0xFFE00000, 0xCB000000, fun w => SubReg (f_rd w) (f_rn w) (f_rm w) (field w 10 6));
    (0xFFE00000, 0xEB000000, fun w => SubsReg (f_rd w) (f_rn w) (f_rm w) (field w 10 6));
    (0xFFC00000, 0x91000000, mem AddImm); (0xFFC00000, 0xD1000000, mem SubImm);
    (0xFFE0FC00, 0x8A000000, r3 (Logic Land)); (0xFFE0FC00, 0xAA000000, r3 (Logic Lorr));
    (0xFFE0FC00, 0xCA000000, r3 (Logic Leor));
    (0xFFE08000, 0x9B000000, fun w => Madd (f_rd w) (f_rn w) (f_rm w) (f_ra w));
    (0xFFE08000, 0x9B008000, fun w => Msub (f_rd w) (f_rn w) (f_rm w) (f_ra w));
    (0xFFE0FC00, 0x9AC00C00, r3 (Dp2 Sdiv)); (0xFFE0FC00, 0x9AC02000, r3 (Dp2 Lslv));
    (0xFFE0FC00, 0x9AC02400, r3 (Dp2 Lsrv)); (0xFFE0FC00, 0x9AC02800, r3 (Dp2 Asrv));
    (0xFFE00C00, 0x9A800400, fun w => Csinc (f_rd w) (f_rn w) (f_rm w) (field w 12 4));
    (0xFFE00C00, 0x9A800000, fun w => Csel (f_rd w) (f_rn w) (f_rm w) (field w 12 4));
    (0xFC000000, 0x14000000, fun w => B (f_imm26 w)); (0xFC000000, 0x94000000, fun w => Bl (f_imm26 w));
    (0xFF000000, 0xB4000000, fun w => Cbz (f_rd w) (f_imm19 w));
    (0xFF000000, 0xB5000000, fun w => Cbnz (f_rd w) (f_imm19 w));
    (0xFFC00000, 0xA9800000, fun w => StpPre (f_rd w) (f_ra w) (f_rn w) (f_imm7 w));
    (0xFFC00000, 0xA8C00000, fun w => LdpPost (f_rd w) (f_ra w) (f_rn w) (f_imm7 w));
    (0xFFC00000, 0xF9400000, mem (Ldr X64)); (0xFFC00000, 0xF9000000, mem (Str X64));
    (0xFFC00000, 0xB9400000, mem (Ldr W32)); (0xFFC00000, 0xB9000000, mem (Str W32));
    (0xFFC00000, 0x39400000, mem (Ldr B8)); (0xFFC00000, 0x39000000, mem (Str B8));
    (0xFFE0FC00, 0x1E600800, r3 (Fp2 Fmul)); (0xFFE0FC00, 0x1E601800, r3 (Fp2 Fdiv));
    (0xFFE0FC00, 0x1E602800, r3 (Fp2 Fadd)); (0xFFE0FC00, 0x1E603800, r3 (Fp2 Fsub));
    (0xFFFFFC00, 0x1E614000, r2 Fneg); (0xFFE0FC1F, 0x1E602000, fun w => Fcmp (f_rn w) (f_rm w));
    (0xFFFFFC00, 0x9E670000, r2 FmovDX); (0xFFFFFC00, 0x9E660000, r2 FmovXD);
    (0xFFFFFC00, 0x9E620000, r2 Scvtf); (0xFFFFFC00, 0x9E780000, r2 Fcvtzs) ].

Fixpoint decode_rows (rows : list (Z * Z * (Z -> instr))) (w : Z) : option instr :=
  match rows with
  | [] => None
  | (mask, value, i) :: rows' => if Z.land w mask =? value then Some (i w) else decode_rows rows' w
  end.

Definition decode (w : Z) : option instr := decode_rows decode_table w.

(** ** Decoding a word whose bits [fixed] are known *)

Lemma row_hit w fixed base mask value :
  Z.land w fixed = base -> Z.land fixed mask = mask -> Z.land base mask = value -> Z.land w mask = value.
Proof. intros <- H <-. rewrite <- H at 1. apply Z.land_assoc. Qed.

Lemma row_miss w fixed base mask value :
  Z.land w fixed = base -> Z.land base mask <> Z.land value fixed -> Z.land w mask <> value.
Proof.
  intros <- H <-. apply H. rewrite <- !Z.land_assoc. f_equal. apply Z.land_comm.
Qed.

(** The row such a word must hit, if the known bits tell. *)
Fixpoint select (rows : list (Z * Z * (Z -> instr))) (n : nat) (fixed base : Z) : option nat :=
  match rows with
  | [] => None
  | (mask, value, _) :: rows' =>
      if negb (Z.land base mask =? Z.land value fixed) then select rows' (S n) fixed base
      else if (Z.land fixed mask =? mask) && (Z.land base mask =? value) then Some n else None
  end.

Lemma select_rows w fixed base rows : Z.land w fixed = base -> forall k n,
  select rows k fixed base = Some n ->
  exists j, n = (k + j)%nat /\ exists row, rows !! j = Some row /\ decode_rows rows w = Some (snd row w).
Proof.
  intros Hw. induction rows as [|[[mask value] i] rows IH]; intros k n; cbn [select decode_rows]; [discriminate|].
  destruct (Z.eqb_spec (Z.land base mask) (Z.land value fixed)) as [E|E]; cbn [negb].
  - destruct (Z.eqb_spec (Z.land fixed mask) mask) as [E1|]; [|discriminate].
    destruct (Z.eqb_spec (Z.land base mask) value) as [E2|]; [|discriminate]. intros [= <-].
    exists 0%nat. split; [lia|]. exists (mask, value, i). split; [reflexivity|].
    rewrite (row_hit w fixed base mask value Hw E1 E2), Z.eqb_refl. reflexivity.
  - intros H. apply IH in H as (j & -> & row & Hj & Hd). exists (S j). split; [lia|]. exists row. split; [exact Hj|].
    pose proof (row_miss w fixed base mask value Hw E) as Hn.
    destruct (Z.eqb_spec (Z.land w mask) value); [contradiction|exact Hd].
Qed.

Lemma decode_select w fixed base n mask value i :
  Z.land w fixed = base -> select decode_table 0 fixed base = Some n ->
  decode_table !! n = Some (mask, value, i) -> decode w = Some (i w).
Proof.
  intros Hw Hs Hn. destruct (select_rows w fixed base decode_table Hw 0 n Hs) as (j & -> & row & Hj & Hd).
  cbn [Nat.add] in Hn. rewrite Hn in Hj. injection Hj as <-. exact Hd.
Qed.

(** ** Bits of a word built by [|] *)

Lemma land_shl x m k c : 0 <= k ->
  Z.land (Z.shiftl (Z.land x m) k) c = Z.shiftl (Z.land x (Z.land m (Z.shiftr c k))) k.
Proof.
  intros Hk. apply Z.bits_inj'. intros i Hi. rewrite Z.land_spec, !Z.shiftl_spec by lia.
  destruct (Z.lt_ge_cases i k).
  - rewrite !(Z.testbit_neg_r _ (i - k)) by lia. reflexivity.
  - rewrite !Z.land_spec, Z.shiftr_spec by lia. replace (i - k + k) with i by lia.
    rewrite andb_assoc. reflexivity.
Qed.

Lemma land_land x m c : Z.land (Z.land x m) c = Z.land x (Z.land m c).
Proof. symmetry. apply Z.land_assoc. Qed.

Lemma field_land w lo n : 0 <= lo -> field w lo n = Z.shiftr (Z.land w (Z.shiftl (Z.ones n) lo)) lo.
Proof. intros. unfold field. rewrite Z.shiftr_land, Z.shiftr_shiftl_l, Z.sub_diag by lia. reflexivity. Qed.

Lemma shiftr_shiftl_same a k : 0 <= k -> Z.shiftr (Z.shiftl a k) k = a.
Proof. intros. rewrite Z.shiftr_shiftl_l, Z.sub_diag by lia. apply Z.shiftl_0_r. Qed.

Lemma u16_land x : u16 x = Z.land x 65535.
Proof. unfold u16, wrap. symmetry. apply (land_ones_mod x 16). lia. Qed.
Lemma u32_land x : u32 x = Z.land x 4294967295.
Proof. unfold u32, wrap. symmetry. apply (land_ones_mod x 32). lia. Qed.

Ltac zconst t := lazymatch t with Z0 => idtac | Zpos _ => idtac | Zneg _ => idtac end.
Ltac fold_consts :=
  repeat match goal with
  | |- context [Z.land ?a ?b] => zconst a; zconst b; let c := eval vm_compute in (Z.land a b) in change (Z.land a b) with c
  | |- context [Z.lor ?a ?b] => zconst a; zconst b; let c := eval vm_compute in (Z.lor a b) in change (Z.lor a b) with c
  | |- context [Z.shiftl ?a ?b] => zconst a; zconst b; let c := eval vm_compute in (Z.shiftl a b) in change (Z.shiftl a b) with c
  | |- context [Z.shiftr ?a ?b] => zconst a; zconst b; let c := eval vm_compute in (Z.shiftr a b) in change (Z.shiftr a b) with c
  | |- context [Z.ones ?a] => zconst a; let c := eval vm_compute in (Z.ones a) in change (Z.ones a) with c
  end.
Ltac word_bits :=
  rewrite ?Z.land_lor_distr_l, ?land_land, ?land_shl by lia; fold_consts;
  rewrite ?Z.land_0_r, ?Z.shiftl_0_l, ?Z.lor_0_r, ?Z.lor_0_l; fold_consts;
  rewrite ?Z.lor_0_r, ?Z.lor_0_l.

(** [encodes fixed base]: the known bits of the word select a row, and its fields are computed. *)
Ltac encodes fixed base :=
  let n := eval vm_compute in (select decode_table 0 fixed base) in
  lazymatch n with
  | Some ?k => erewrite (decode_select _ fixed base k); [ | word_bits; reflexivity | vm_compute; reflexivity | reflexivity ]
  end.
Ltac fields :=
  unfold f_rd, f_rn, f_ra, f_rm, f_imm12, f_imm19, f_imm26, f_imm7;
  rewrite ?field_land by lia; fold_consts; word_bits; rewrite ?shiftr_shiftl_same, ?Z.shiftr_0_r by lia; try reflexivity.

Lemma sext_land n x : 0 < n -> - 2 ^ (n - 1) <= x < 2 ^ (n - 1) -> sext n (Z.land x (Z.ones n)) = x.
Proof.
  intros Hn Hx. rewrite Z.land_ones by lia. unfold sext.
  assert (E : 2 ^ n = 2 * 2 ^ (n - 1)).
  { rewrite <- Z.pow_succ_r by lia. f_equal. lia. }
  rewrite E. set (h := 2 ^ (n - 1)) in *. clearbody h.
  destruct (Z.lt_ge_cases x 0) as [Hs|Hs].
  - rewrite <- (Z.mod_unique x (2 * h) (-1) (x + 2 * h)) by lia. destruct (Z.ltb_spec (x + 2 * h) h); lia.
  - rewrite Z.mod_small by lia. destruct (Z.ltb_spec x h); lia.
Qed.

Ltac enc fixed base :=
  intros; rewrite ?u16_land, ?u32_land; fold_consts; encodes fixed base; cbv beta zeta; fields; try reflexivity.

(** *** Data processing *)

Section Encoders.
Context (rd rn rm ra : Z).
Local Notation "'d'" := (reg5 rd).
Local Notation "'n'" := (reg5 rn).
Local Notation "'m'" := (reg5 rm).

Lemma dec_add : decode (a64_add_x_reg rd rn rm) = Some (AddReg d n m 0).
Proof. unfold a64_add_x_reg. enc 0xFFE0FC00 0x8B000000. Qed.
Lemma dec_sub : decode (a64_sub_x_reg rd rn rm) = Some (SubReg d n m 0).
Proof. unfold a64_sub_x_reg. enc 0xFFE0FC00 0xCB000000. Qed.
Lemma dec_cmp : decode (a64_cmp_x rn rm) = Some (SubsReg 31 n m 0).
Proof. unfold a64_cmp_x. enc 0xFFE0FC1F 0xEB00001F. Qed.
Lemma dec_mul : decode (a64_mul_x rd rn rm) = Some (Madd d n m 31).
Proof. unfold a64_mul_x. enc 0xFFE0FC00 0x9B007C00. Qed.
Lemma dec_sdiv : decode (a64_sdiv_x rd rn rm) = Some (Dp2 Sdiv d n m).
Proof. unfold a64_sdiv_x. enc 0xFFE0FC00 0x9AC00C00. Qed.
Lemma dec_msub : decode (a64_msub_x rd rn rm ra) = Some (Msub d n m (reg5 ra)).
Proof. unfold a64_msub_x. enc 0xFFE08000 0x9B008000. Qed.
Lemma dec_mov : decode (a64_mov_x rd rn) = Some (Logic Lorr d 31 n).
Proof. unfold a64_mov_x. enc 0xFFE0FFE0 0xAA0003E0. Qed.
Lemma dec_neg : decode (a64_neg_x rd rm) = Some (SubReg d 31 m 0).
Proof. unfold a64_neg_x, a64_sub_x_reg. enc 0xFFE0FFE0 0xCB0003E0. Qed.
Lemma dec_and : decode (a64_and_x rd rn rm) = Some (Logic Land d n m).
Proof. unfold a64_and_x. enc 0xFFE0FC00 0x8A000000. Qed.
Lemma dec_orr : decode (a64_orr_x rd rn rm) = Some (Logic Lorr d n m).
Proof. unfold a64_orr_x. enc 0xFFE0FC00 0xAA000000. Qed.
Lemma dec_eor : decode (a64_eor_x rd rn rm) = Some (Logic Leor d n m).
Proof. unfold a64_eor_x. enc 0xFFE0FC00 0xCA000000. Qed.
Lemma dec_lslv : decode (a64_lslv_x rd rn rm) = Some (Dp2 Lslv d n m).
Proof. unfold a64_lslv_x. enc 0xFFE0FC00 0x9AC02000. Qed.
Lemma dec_lsrv : decode (a64_lsrv_x rd rn rm) = Some (Dp2 Lsrv d n m).
Proof. unfold a64_lsrv_x. enc 0xFFE0FC00 0x9AC02400. Qed.
Lemma dec_asrv : decode (a64_asrv_x rd rn rm) = Some (Dp2 Asrv d n m).
Proof. unfold a64_asrv_x. enc 0xFFE0FC00 0x9AC02800. Qed.
Lemma dec_add_lsl k : decode (a64_add_x_lsl rd rn rm k) = Some (AddReg d n m (Z.land k 63)).
Proof. unfold a64_add_x_lsl. enc 0xFFE00000 0x8B000000. Qed.
Lemma dec_add_imm k : decode (a64_add_x_imm rd rn k) = Some (AddImm d n (Z.land k 0xfff)).
Proof. unfold a64_add_x_imm. enc 0xFFC00000 0x91000000. Qed.
Lemma dec_sub_imm k : decode (a64_sub_x_imm rd rn k) = Some (SubImm d n (Z.land k 0xfff)).
Proof. unfold a64_sub_x_imm. enc 0xFFC00000 0xD1000000. Qed.
Lemma dec_movz imm k : decode (a64_movz_x rd (u16 imm) k) = Some (Movz d (u16 imm) (Z.land (Z.shiftr k 4) 3)).
Proof. unfold a64_movz_x. enc 0xFF800000 0xD2800000. Qed.
Lemma dec_movk imm k : decode (a64_movk_x rd (u16 imm) k) = Some (Movk d (u16 imm) (Z.land (Z.shiftr k 4) 3)).
Proof. unfold a64_movk_x. enc 0xFF800000 0xF2800000. Qed.

(** CSET is CSINC of XZR under the inverted condition: EQ 0, NE 1, GE 10, LT 11, GT 12, LE 13. *)
Lemma dec_cset_eq : decode (a64_cset_eq rd) = Some (Csinc d 31 31 1).
Proof. unfold a64_cset_eq. enc 0xFFFFFFE0 0x9A9F17E0. Qed.
Lemma dec_cset_ne : decode (a64_cset_ne rd) = Some (Csinc d 31 31 0).
Proof. unfold a64_cset_ne. enc 0xFFFFFFE0 0x9A9F07E0. Qed.
Lemma dec_cset_lt : decode (a64_cset_lt rd) = Some (Csinc d 31 31 10).
Proof. unfold a64_cset_lt. enc 0xFFFFFFE0 0x9A9FA7E0. Qed.
Lemma dec_cset_ge : decode (a64_cset_ge rd) = Some (Csinc d 31 31 11).
Proof. unfold a64_cset_ge. enc 0xFFFFFFE0 0x9A9FB7E0. Qed.
Lemma dec_cset_le : decode (a64_cset_le rd) = Some (Csinc d 31 31 12).
Proof. unfold a64_cset_le. enc 0xFFFFFFE0 0x9A9FC7E0. Qed.
Lemma dec_cset_gt : decode (a64_cset_gt rd) = Some (Csinc d 31 31 13).
Proof. unfold a64_cset_gt. enc 0xFFFFFFE0 0x9A9FD7E0. Qed.
Lemma dec_csel_eq : decode (a64_csel_eq_x rd rn rm) = Some (Csel d n m 0).
Proof. unfold a64_csel_eq_x. enc 0xFFE0FC00 0x9A800000. Qed.

(** *** Branches *)

Lemma dec_ret : decode a64_ret = Some (Ret 30).
Proof. reflexivity. Qed.
Lemma dec_blr : decode (a64_blr rn) = Some (Blr n).
Proof. unfold a64_blr. enc 0xFFFFFC1F 0xD63F0000. Qed.

Lemma word_off_land off mask : Z.land 4294967295 mask = mask -> Z.land (u32 off) mask = Z.land off mask.
Proof using. intros H. rewrite u32_land, land_land, H. reflexivity. Qed.

Lemma dec_b off : - 2 ^ 25 <= off < 2 ^ 25 -> decode (a64_b off) = Some (B off).
Proof using.
  intros H. unfold a64_b. rewrite word_off_land by reflexivity.
  enc 0xFC000000 0x14000000. change 67108863 with (Z.ones 26). rewrite sext_land by lia. reflexivity.
Qed.
Lemma dec_bl off : - 2 ^ 25 <= off < 2 ^ 25 -> decode (a64_bl off) = Some (Bl off).
Proof using.
  intros H. unfold a64_bl. rewrite word_off_land by reflexivity.
  enc 0xFC000000 0x94000000. change 67108863 with (Z.ones 26). rewrite sext_land by lia. reflexivity.
Qed.
Lemma dec_cbz off : - 2 ^ 18 <= off < 2 ^ 18 -> decode (a64_cbz rd off) = Some (Cbz d off).
Proof.
  intros H. unfold a64_cbz. rewrite word_off_land by reflexivity.
  enc 0xFF000000 0xB4000000. change 524287 with (Z.ones 19). rewrite sext_land by lia. reflexivity.
Qed.
Lemma dec_cbnz off : - 2 ^ 18 <= off < 2 ^ 18 -> decode (a64_cbnz rd off) = Some (Cbnz d off).
Proof.
  intros H. unfold a64_cbnz. rewrite word_off_land by reflexivity.
  enc 0xFF000000 0xB5000000. change 524287 with (Z.ones 19). rewrite sext_land by lia. reflexivity.
Qed.

(** *** Memory *)

Lemma pair_imm imm : - 512 <= imm <= 504 -> sext 7 (Z.land (Z.shiftr imm 3) 127) = imm / 8.
Proof using.
  intros H. change 127 with (Z.ones 7). rewrite Z.shiftr_div_pow2 by lia. change (2 ^ 3) with 8.
  apply sext_land; [lia|]. change (2 ^ (7 - 1)) with 64. Z.div_mod_to_equations. lia.
Qed.
Lemma dec_stp imm : - 512 <= imm <= 504 ->
  decode (a64_stp_pre rd ra rn imm) = Some (StpPre d (reg5 ra) n (imm / 8)).
Proof.
  intros H. unfold a64_stp_pre. enc 0xFFC00000 0xA9800000. rewrite pair_imm by lia. reflexivity.
Qed.
Lemma dec_ldp imm : - 512 <= imm <= 504 ->
  decode (a64_ldp_post rd ra rn imm) = Some (LdpPost d (reg5 ra) n (imm / 8)).
Proof.
  intros H. unfold a64_ldp_post. enc 0xFFC00000 0xA8C00000. rewrite pair_imm by lia. reflexivity.
Qed.
Lemma dec_ldr_x : decode (a64_ldr_x rd rn) = Some (Ldr X64 d n 0).
Proof. unfold a64_ldr_x. enc 0xFFFFFC00 0xF9400000. Qed.
Lemma dec_str_x : decode (a64_str_x rd rn) = Some (Str X64 d n 0).
Proof. unfold a64_str_x. enc 0xFFFFFC00 0xF9000000. Qed.
Lemma dec_ldr_w : decode (a64_ldr_w rd rn) = Some (Ldr W32 d n 0).
Proof. unfold a64_ldr_w. enc 0xFFFFFC00 0xB9400000. Qed.
Lemma dec_str_w : decode (a64_str_w rd rn) = Some (Str W32 d n 0).
Proof. unfold a64_str_w. enc 0xFFFFFC00 0xB9000000. Qed.
Lemma dec_ldrb : decode (a64_ldrb rd rn) = Some (Ldr B8 d n 0).
Proof. unfold a64_ldrb. enc 0xFFFFFC00 0x39400000. Qed.
Lemma dec_strb : decode (a64_strb rd rn) = Some (Str B8 d n 0).
Proof. unfold a64_strb. enc 0xFFFFFC00 0x39000000. Qed.
Lemma dec_ldr_imm k : decode (a64_ldr_x_imm rd rn k) = Some (Ldr X64 d n (Z.land k 0xfff)).
Proof. unfold a64_ldr_x_imm. enc 0xFFC00000 0xF9400000. Qed.
Lemma dec_str_imm k : decode (a64_str_x_imm rd rn k) = Some (Str X64 d n (Z.land k 0xfff)).
Proof. unfold a64_str_x_imm. enc 0xFFC00000 0xF9000000. Qed.

(** *** Floating point *)

Lemma dec_fadd : decode (a64_fadd_d rd rn rm) = Some (Fp2 Fadd d n m).
Proof. unfold a64_fadd_d, a64_fp_dataproc2. enc 0xFFE0FC00 0x1E602800. Qed.
Lemma dec_fsub : decode (a64_fsub_d rd rn rm) = Some (Fp2 Fsub d n m).
Proof. unfold a64_fsub_d, a64_fp_dataproc2. enc 0xFFE0FC00 0x1E603800. Qed.
Lemma dec_fmul : decode (a64_fmul_d rd rn rm) = Some (Fp2 Fmul d n m).
Proof. unfold a64_fmul_d, a64_fp_dataproc2. enc 0xFFE0FC00 0x1E600800. Qed.
Lemma dec_fdiv : decode (a64_fdiv_d rd rn rm) = Some (Fp2 Fdiv d n m).
Proof. unfold a64_fdiv_d, a64_fp_dataproc2. enc 0xFFE0FC00 0x1E601800. Qed.
Lemma dec_fneg : decode (a64_fneg_d rd rn) = Some (Fneg d n).
Proof. unfold a64_fneg_d. enc 0xFFFFFC00 0x1E614000. Qed.
Lemma dec_fcmp : decode (a64_fcmp_d rn rm) = Some (Fcmp n m).
Proof. unfold a64_fcmp_d. enc 0xFFE0FC1F 0x1E602000. Qed.
Lemma dec_fmov_d_x : decode (a64_fmov_d_x rd rn) = Some (FmovDX d n).
Proof. unfold a64_fmov_d_x. enc 0xFFFFFC00 0x9E670000. Qed.
Lemma dec_fmov_x_d : decode (a64_fmov_x_d rd rn) = Some (FmovXD d n).
Proof. unfold a64_fmov_x_d. enc 0xFFFFFC00 0x9E660000. Qed.
Lemma dec_scvtf : decode (a64_scvtf_d_x rd rn) = Some (Scvtf d n).
Proof. unfold a64_scvtf_d_x. enc 0xFFFFFC00 0x9E620000. Qed.
Lemma dec_fcvtzs : decode (a64_fcvtzs_x_d rd rn) = Some (Fcvtzs d n).
Proof. unfold a64_fcvtzs_x_d. enc 0xFFFFFC00 0x9E780000. Qed.
End Encoders.

#[export] Hint Rewrite dec_add dec_sub dec_cmp dec_mul dec_sdiv dec_msub dec_mov dec_neg dec_and dec_orr
  dec_eor dec_lslv dec_lsrv dec_asrv dec_add_lsl dec_add_imm dec_sub_imm dec_movz dec_movk dec_cset_eq
  dec_cset_ne dec_cset_lt dec_cset_ge dec_cset_le dec_cset_gt dec_csel_eq dec_ret dec_blr dec_ldr_x dec_str_x
  dec_ldr_w dec_str_w dec_ldrb dec_strb dec_ldr_imm dec_str_imm dec_fadd dec_fsub dec_fmul dec_fdiv dec_fneg
  dec_fcmp dec_fmov_d_x dec_fmov_x_d dec_scvtf dec_fcvtzs : a64.
