(* ===== verification/A64Sem.v ===== *)
(** * The AArch64 machine the compiled code runs on

    Registers, flags, a byte memory and a program counter; one function executes an instruction.
    Code that is not the compiled program is a host function: [host] is its whole effect, from
    entry to return.  Floating point is a parameter. *)

From S2P Require Import Prelude A64.

(** ** Byte memory *)

Definition memory : Type := Z -> Z.

Fixpoint load (n : nat) (m : memory) (a : Z) : Z :=
  match n with O => 0 | S n' => u8 (m a) + 256 * load n' m (a + 1) end.
Definition store (n : nat) (m : memory) (a v : Z) : memory :=
  fun x => if (a <=? x) && (x <? a + Z.of_nat n) then u8 (Z.shiftr v (8 * (x - a))) else m x.

Lemma load_range n : forall m a, 0 <= load n m a < 256 ^ Z.of_nat n.
Proof.
  induction n as [|n IH]; intros m a; cbn [load]; [cbn; lia|].
  specialize (IH m (a + 1)). pose proof (u8_range (m a)).
  rewrite Nat2Z.inj_succ, Z.pow_succ_r by lia. lia.
Qed.

Lemma load_ext n : forall m m' a,
  (forall x, a <= x < a + Z.of_nat n -> m x = m' x) -> load n m a = load n m' a.
Proof.
  induction n as [|n IH]; intros m m' a H; cbn [load]; [reflexivity|].
  rewrite (H a) by lia. rewrite (IH m m' (a + 1)); [reflexivity|]. intros x Hx. apply H. lia.
Qed.

Lemma store_out n m a v x : x < a \/ a + Z.of_nat n <= x -> store n m a v x = m x.
Proof. intros H. unfold store. case_if; [lia|reflexivity]. Qed.

Lemma load_store_other n k m a b v :
  a + Z.of_nat n <= b \/ b + Z.of_nat k <= a -> load n (store k m b v) a = load n m a.
Proof. intros H. apply load_ext. intros x Hx. apply store_out. lia. Qed.

Lemma load_shifted n : forall m a v,
  (forall i, 0 <= i < Z.of_nat n -> m (a + i) = u8 (Z.shiftr v (8 * i))) -> load n m a = v mod 256 ^ Z.of_nat n.
Proof.
  induction n as [|n IH]; intros m a v H; cbn [load]; [rewrite Z.mod_1_r; reflexivity|].
  rewrite (IH m (a + 1) (v / 256)).
  - pose proof (H 0 ltac:(lia)) as H0. rewrite Z.add_0_r in H0. rewrite H0.
    change (Z.shiftr v (8 * 0)) with v. unfold u8, wrap. rewrite Zmod_mod.
    rewrite Nat2Z.inj_succ, Z.pow_succ_r by lia. change (2 ^ 8) with 256.
    rewrite Z.rem_mul_r by (try apply Z.pow_nonzero; lia). lia.
  - intros i Hi. specialize (H (i + 1) ltac:(lia)). replace (a + (i + 1)) with (a + 1 + i) in H by lia.
    rewrite H. f_equal. replace (8 * (i + 1)) with (8 + 8 * i) by lia.
    rewrite <- Z.shiftr_shiftr by lia. f_equal. rewrite Z.shiftr_div_pow2 by lia. reflexivity.
Qed.

Lemma load_store_same n m a v : load n (store n m a v) a = v mod 256 ^ Z.of_nat n.
Proof.
  apply load_shifted. intros i Hi. unfold store. case_if; [|lia].
  do 2 f_equal. lia.
Qed.

(** ** Machine states *)

Record flags := mk_flags { fl_n : bool; fl_z : bool; fl_c : bool; fl_v : bool }.

Record mstate := mk_mstate {
  m_x : Z -> Z;          (* X0 ... X30 *)
  m_sp : Z;
  m_d : Z -> Z;          (* the low 64 bits of V0 ... V31 *)
  m_flags : flags;
  m_mem : memory;
  m_pc : Z }.

(** The floating-point unit, on 64-bit patterns; [None]: unordered. *)
Class Fpu := {
  f_add : Z -> Z -> Z; f_sub : Z -> Z -> Z; f_mul : Z -> Z -> Z; f_div : Z -> Z -> Z;
  f_neg : Z -> Z; f_cmp : Z -> Z -> option comparison; f_scvtf : Z -> Z; f_fcvtzs : Z -> Z;
  f_add_u a b : is_u 64 (f_add a b); f_sub_u a b : is_u 64 (f_sub a b);
  f_mul_u a b : is_u 64 (f_mul a b); f_div_u a b : is_u 64 (f_div a b);
  f_neg_u a : is_u 64 (f_neg a); f_scvtf_u a : is_u 64 (f_scvtf a); f_fcvtzs_u a : is_u 64 (f_fcvtzs a) }.

Definition upd_fun (f : Z -> Z) (r v : Z) : Z -> Z := fun i => if i =? r then v else f i.

(** Register 31 reads as zero and swallows writes; as a base it is SP. *)
Definition x_get (s : mstate) (r : Z) : Z := if r =? 31 then 0 else m_x s r.
Definition x_set (r v : Z) (s : mstate) : mstate :=
  if r =? 31 then s else mk_mstate (upd_fun (m_x s) r (u64 v)) (m_sp s) (m_d s) (m_flags s) (m_mem s) (m_pc s).
Definition base_get (s : mstate) (r : Z) : Z := if r =? 31 then m_sp s else m_x s r.
Definition base_set (r v : Z) (s : mstate) : mstate :=
  if r =? 31 then mk_mstate (m_x s) v (m_d s) (m_flags s) (m_mem s) (m_pc s) else x_set r v s.
Definition d_set (r v : Z) (s : mstate) : mstate :=
  mk_mstate (m_x s) (m_sp s) (upd_fun (m_d s) r (u64 v)) (m_flags s) (m_mem s) (m_pc s).
Definition flags_set (f : flags) (s : mstate) : mstate :=
  mk_mstate (m_x s) (m_sp s) (m_d s) f (m_mem s) (m_pc s).
Definition mem_set (m : memory) (s : mstate) : mstate :=
  mk_mstate (m_x s) (m_sp s) (m_d s) (m_flags s) m (m_pc s).
Definition pc_set (pc : Z) (s : mstate) : mstate :=
  mk_mstate (m_x s) (m_sp s) (m_d s) (m_flags s) (m_mem s) pc.
Definition next (s : mstate) : mstate := pc_set (u64 (m_pc s + 4)) s.

Definition s64 (x : Z) : Z := signed 64 x.

Definition subs_flags (a b : Z) : flags :=
  let r := u64 (a - b) in
  mk_flags (Z.testbit r 63) (r =? 0) (b <=? a) (negb (s64 a - s64 b =? s64 r)).
Definition fcmp_flags (c : option comparison) : flags :=
  match c with
  | Some Eq => mk_flags false true true false
  | Some Lt => mk_flags true false false false
  | Some Gt => mk_flags false false true false
  | None => mk_flags false false true true
  end.

Definition holds (cond : Z) (f : flags) : bool :=
  let ge := Bool.eqb (fl_n f) (fl_v f) in
  match cond with
  | 0 => fl_z f | 1 => negb (fl_z f) | 2 => fl_c f | 3 => negb (fl_c f)
  | 4 => fl_n f | 5 => negb (fl_n f) | 6 => fl_v f | 7 => negb (fl_v f)
  | 8 => fl_c f && negb (fl_z f) | 9 => negb (fl_c f && negb (fl_z f))
  | 10 => ge | 11 => negb ge | 12 => negb (fl_z f) && ge | 13 => negb (negb (fl_z f) && ge)
  | _ => true
  end.

Definition logic (op : logic_op) : Z -> Z -> Z :=
  match op with Land => Z.land | Lorr => Z.lor | Leor => Z.lxor end.
Definition dp2 (op : dp2_op) (a b : Z) : Z :=
  match op with
  | Sdiv => if b =? 0 then 0 else u64 (Z.quot (s64 a) (s64 b))
  | Lslv => u64 (Z.shiftl a (b mod 64))
  | Lsrv => Z.shiftr a (b mod 64)
  | Asrv => u64 (Z.shiftr (s64 a) (b mod 64))
  end.

Definition bytes_of (size : access) : nat := match size with X64 => 8 | W32 => 4 | B8 => 1 end.

Section Machine.
Context `{Fpu}.

Definition fp2 (op : fp2_op) : Z -> Z -> Z :=
  match op with Fmul => f_mul | Fdiv => f_div | Fadd => f_add | Fsub => f_sub end.

Definition exec (i : instr) (s : mstate) : mstate :=
  let x := x_get s in
  match i with
  | Ret rn => pc_set (x rn) s
  | Blr rn => pc_set (x rn) (x_set 30 (u64 (m_pc s + 4)) s)
  | Movz rd imm hw => next (x_set rd (Z.shiftl imm (16 * hw)) s)
  | Movk rd imm hw =>
      next (x_set rd (Z.lor (Z.ldiff (x rd) (Z.shiftl 0xffff (16 * hw))) (Z.shiftl imm (16 * hw))) s)
  | AddReg rd rn rm k => next (x_set rd (u64 (x rn + Z.shiftl (x rm) k)) s)
  | SubReg rd rn rm k => next (x_set rd (u64 (x rn - Z.shiftl (x rm) k)) s)
  | SubsReg rd rn rm k =>
      let b := u64 (Z.shiftl (x rm) k) in
      next (flags_set (subs_flags (x rn) b) (x_set rd (u64 (x rn - b)) s))
  | AddImm rd rn k => next (base_set rd (u64 (base_get s rn + k)) s)
  | SubImm rd rn k => next (base_set rd (u64 (base_get s rn - k)) s)
  | Logic op rd rn rm => next (x_set rd (logic op (x rn) (x rm)) s)
  | Madd rd rn rm ra => next (x_set rd (u64 (x ra + x rn * x rm)) s)
  | Msub rd rn rm ra => next (x_set rd (u64 (x ra - x rn * x rm)) s)
  | Dp2 op rd rn rm => next (x_set rd (dp2 op (x rn) (x rm)) s)
  | Csinc rd rn rm c => next (x_set rd (if holds c (m_flags s) then x rn else u64 (x rm + 1)) s)
  | Csel rd rn rm c => next (x_set rd (if holds c (m_flags s) then x rn else x rm) s)
  | B k => pc_set (u64 (m_pc s + 4 * k)) s
  | Bl k => pc_set (u64 (m_pc s + 4 * k)) (x_set 30 (u64 (m_pc s + 4)) s)
  | Cbz rt k => if x rt =? 0 then pc_set (u64 (m_pc s + 4 * k)) s else next s
  | Cbnz rt k => if x rt =? 0 then next s else pc_set (u64 (m_pc s + 4 * k)) s
  | StpPre rt rt2 rn k =>
      let a := u64 (base_get s rn + 8 * k) in
      next (base_set rn a (mem_set (store 8 (store 8 (m_mem s) a (x rt)) (a + 8) (x rt2)) s))
  | LdpPost rt rt2 rn k =>
      let a := base_get s rn in
      next (base_set rn (u64 (a + 8 * k)) (x_set rt2 (load 8 (m_mem s) (a + 8)) (x_set rt (load 8 (m_mem s) a) s)))
  | Ldr size rt rn k =>
      let n := bytes_of size in
      next (x_set rt (load n (m_mem s) (base_get s rn + Z.of_nat n * k)) s)
  | Str size rt rn k =>
      let n := bytes_of size in
      next (mem_set (store n (m_mem s) (base_get s rn + Z.of_nat n * k) (x rt)) s)
  | Fp2 op rd rn rm => next (d_set rd (fp2 op (m_d s rn) (m_d s rm)) s)
  | Fneg rd rn => next (d_set rd (f_neg (m_d s rn)) s)
  | Fcmp rn rm => next (flags_set (fcmp_flags (f_cmp (m_d s rn) (m_d s rm))) s)
  | FmovDX rd rn => next (d_set rd (x rn) s)
  | FmovXD rd rn => next (x_set rd (m_d s rn) s)
  | Scvtf rd rn => next (d_set rd (f_scvtf (x rn)) s)
  | Fcvtzs rd rn => next (x_set rd (f_fcvtzs (m_d s rn)) s)
  end.

(** ** Running a program

    [code] at address [base]; elsewhere a host function runs, as one step. *)

Context (code : list Z) (base : Z) (host : mstate -> mstate).

Definition fetch (pc : Z) : option Z :=
  if (base <=? pc) && ((pc - base) mod 4 =? 0) then code !! Z.to_nat ((pc - base) / 4) else None.

Definition in_code (pc : Z) : Prop := base <= pc < base + 4 * Z.of_nat (length code).

Inductive mstep : mstate -> mstate -> Prop :=
| mstep_exec s w i : fetch (m_pc s) = Some w -> decode w = Some i -> mstep s (exec i s)
| mstep_host s : ~ in_code (m_pc s) -> mstep s (host s).
End Machine.
