(* ===== verification/HcIr.v ===== *)
(** * The stack-IR compiler ([src/src/hc_ir.h]): definitions

    [hc_ir_compile] reads a byte code, keeps the depth of the expression stack at compile time and
    writes AArch64 words; [Context] holds what the linker and the caller fix: the addresses of
    [g_hc_fp], [g_hc_alloc] and [g_hc_mem], and the capacity of the output buffer. *)

From S2P Require Import Prelude A64.

(** The byte codes, in the order of their numbers. *)
Inductive hc_op :=
| HC_END | HC_IMM64 | HC_ADD | HC_SUB | HC_MUL | HC_CALL0 | HC_RET | HC_EQ | HC_LT | HC_NEG | HC_DUP
| HC_DROP | HC_LABEL | HC_JMP | HC_JZ | HC_JNZ | HC_ST_LOCAL | HC_LD_LOCAL | HC_SLOT_ADDR | HC_LOAD
| HC_STORE | HC_AND | HC_OR | HC_XOR | HC_SHL | HC_SHR | HC_NE | HC_LE | HC_GT | HC_GE | HC_CALL1
| HC_CALL2 | HC_LD_SLOT | HC_ST_SLOT | HC_INARG | HC_LOAD8 | HC_STORE8 | HC_DIV | HC_MOD | HC_ASR
| HC_CALL3 | HC_CALL4 | HC_CALL5 | HC_LOAD32 | HC_STORE32 | HC_ENTER | HC_LEAVE | HC_CALL6 | HC_LD_ABS
| HC_ST_ABS | HC_ABS_ADDR | HC_I2F | HC_F2I | HC_FADD | HC_FSUB | HC_FMUL | HC_FDIV | HC_FNEG | HC_FEQ
| HC_FLT | HC_FLE | HC_FGT | HC_FGE | HC_FNE | HC_CALL7 | HC_SWAP.

Definition hc_ops : list hc_op :=
  [HC_END; HC_IMM64; HC_ADD; HC_SUB; HC_MUL; HC_CALL0; HC_RET; HC_EQ; HC_LT; HC_NEG; HC_DUP;
   HC_DROP; HC_LABEL; HC_JMP; HC_JZ; HC_JNZ; HC_ST_LOCAL; HC_LD_LOCAL; HC_SLOT_ADDR; HC_LOAD;
   HC_STORE; HC_AND; HC_OR; HC_XOR; HC_SHL; HC_SHR; HC_NE; HC_LE; HC_GT; HC_GE; HC_CALL1;
   HC_CALL2; HC_LD_SLOT; HC_ST_SLOT; HC_INARG; HC_LOAD8; HC_STORE8; HC_DIV; HC_MOD; HC_ASR;
   HC_CALL3; HC_CALL4; HC_CALL5; HC_LOAD32; HC_STORE32; HC_ENTER; HC_LEAVE; HC_CALL6; HC_LD_ABS;
   HC_ST_ABS; HC_ABS_ADDR; HC_I2F; HC_F2I; HC_FADD; HC_FSUB; HC_FMUL; HC_FDIV; HC_FNEG; HC_FEQ;
   HC_FLT; HC_FLE; HC_FGT; HC_FGE; HC_FNE; HC_CALL7; HC_SWAP].

#[export] Instance hc_op_eq_dec : EqDecision hc_op.
Proof. solve_decision. Defined.

(** [switch (op)]: [None] is the default case. *)
Definition hc_opcode (b : Z) : option hc_op := if b <? 0 then None else hc_ops !! Z.to_nat b.

Definition HC_IR_MAX_DEPTH : Z := 16.
Definition HC_IR_MAX_LABELS : Z := 128.
Definition HC_IR_MAX_LOCALS : Z := 4.
Definition HC_IR_MEM_WORDS : Z := 256.
Definition HC_IR_MAX_PATCHES : Z := 256.
Definition HC_IR_ERR_DEPTH : Z := -1.
Definition HC_IR_ERR_OP : Z := -2.
Definition HC_IR_ERR_SPACE : Z := -3.
Definition HC_IR_ERR_TRUNC : Z := -4.
Definition HC_IR_ERR_LABEL : Z := -5.
Definition HC_IR_ERR_LOCAL : Z := -6.

Inductive hc_patch_kind := HC_PATCH_B | HC_PATCH_CBZ | HC_PATCH_CBNZ.

(** [site] as an index into the output. *)
Record hc_patch := mk_patch { p_kind : hc_patch_kind; p_label : Z; p_site : nat }.

(** The compiler's local state: the bytes not read yet, the words written. *)
Record jit := mk_jit {
  j_bc : list Z; j_code : list Z; j_sp : Z; j_framed : bool;
  j_label : list Z;          (* label_at, -1: not placed *)
  j_patch : list hc_patch }.

(** A step of the compiler fails with an error code or goes on. *)
Definition J (A : Type) : Type := jit -> Z + A * jit.

Definition jret {A} (a : A) : J A := fun s => inr (a, s).
Definition jbind {A B} (m : J A) (k : A -> J B) : J B :=
  fun s => match m s with inl e => inl e | inr (a, s') => k a s' end.
Definition fail {A} (e : Z) : J A := fun _ => inl e.

Declare Scope jit_scope.
Delimit Scope jit_scope with jit.
Notation "'do' x '<-' m 'in' k" := (jbind m (fun x => k))
  (at level 10, x pattern, m at level 100, k at level 200) : jit_scope.
Notation "m ;;; k" := (jbind m (fun _ => k)) (at level 100, k at level 200, right associativity) : jit_scope.
#[local] Open Scope jit_scope.

Definition set_bc (l : list Z) (s : jit) : jit :=
  mk_jit l (j_code s) (j_sp s) (j_framed s) (j_label s) (j_patch s).
Definition set_code (l : list Z) (s : jit) : jit :=
  mk_jit (j_bc s) l (j_sp s) (j_framed s) (j_label s) (j_patch s).
Definition set_depth (d : Z) (s : jit) : jit :=
  mk_jit (j_bc s) (j_code s) d (j_framed s) (j_label s) (j_patch s).
Definition set_framed (b : bool) (s : jit) : jit :=
  mk_jit (j_bc s) (j_code s) (j_sp s) b (j_label s) (j_patch s).
Definition set_labels (l : list Z) (s : jit) : jit :=
  mk_jit (j_bc s) (j_code s) (j_sp s) (j_framed s) l (j_patch s).
Definition set_patches (l : list hc_patch) (s : jit) : jit :=
  mk_jit (j_bc s) (j_code s) (j_sp s) (j_framed s) (j_label s) l.

Definition depth : J Z := fun s => inr (j_sp s, s).
Definition adjust (n : Z) : J unit := fun s => inr (tt, set_depth (j_sp s + n) s).
Definition framing (b : bool) : J unit := fun s => inr (tt, set_framed b s).
Definition guard (bad : bool) (e : Z) : J unit := if bad then fail e else jret tt.

(** [bc\[i++\]] after the test [i >= bc_len]. *)
Definition next_byte : J Z := fun s =>
  match j_bc s with
  | [] => inl HC_IR_ERR_TRUNC
  | b :: bc => inr (b, set_bc bc s)
  end.

(** A little-endian [uint64_t] operand, after the test [i + 8 > bc_len]. *)
Definition le_bytes (l : list Z) : Z := fold_right (fun b acc => Z.lor b (Z.shiftl acc 8)) 0 l.
Definition next_u64 : J Z := fun s =>
  if Z.of_nat (length (j_bc s)) <? 8 then inl HC_IR_ERR_TRUNC
  else inr (le_bytes (take 8 (j_bc s)), set_bc (drop 8 (j_bc s)) s).

Definition hc_local_reg (slot : Z) : Z := 20 + slot.

Section Compiler.
Context (g_hc_fp g_hc_alloc g_hc_mem : Z) (out_cap_insns : Z).

(** [n] words checked for, [words] of them written. *)
Definition block (n : Z) (words : list Z) : J unit := fun s =>
  if out_cap_insns <? Z.of_nat (length (j_code s)) + n then inl HC_IR_ERR_SPACE
  else inr (tt, set_code (j_code s ++ words) s).

Definition EMIT (insn : Z) : J unit := fun s =>
  if out_cap_insns <=? Z.of_nat (length (j_code s)) then inl HC_IR_ERR_SPACE
  else inr (tt, set_code (j_code s ++ [insn]) s).

Definition EMIT_BR (kind : hc_patch_kind) (lab : Z) : J unit := fun s =>
  if out_cap_insns <=? Z.of_nat (length (j_code s)) then inl HC_IR_ERR_SPACE
  else if HC_IR_MAX_LABELS <=? lab then inl HC_IR_ERR_LABEL
  else if HC_IR_MAX_PATCHES <=? Z.of_nat (length (j_patch s)) then inl HC_IR_ERR_SPACE
  else inr (tt, set_code (j_code s ++ [0x14000000])
                 (set_patches (j_patch s ++ [mk_patch kind lab (length (j_code s))]) s)).

Fixpoint emit_all (words : list Z) : J unit :=
  match words with [] => jret tt | w :: words' => EMIT w ;;; emit_all words' end.

Definition slot_addr_words (rd slot : Z) : list Z :=
  a64_emit_imm64 17 g_hc_fp ++ [a64_ldr_x 17 17] ++
  (if negb (slot =? 0) then [a64_add_x_imm 17 17 slot] else []) ++
  a64_emit_imm64 rd g_hc_mem ++ [a64_add_x_lsl rd rd 17 3].
Definition hc_emit_slot_addr (rd slot : Z) : J unit :=
  guard (rd =? 17) HC_IR_ERR_SPACE ;;; block 12 (slot_addr_words rd slot).

Definition hc_emit_abs_addr (rd slot : Z) : J unit :=
  block 8 (a64_emit_imm64 rd (u64 (g_hc_mem + 8 * slot))).

Definition enter_words (nwords : Z) : list Z :=
  a64_emit_imm64 16 g_hc_fp ++ [a64_ldr_x 17 16; a64_stp_pre 17 31 31 (-16)] ++
  a64_emit_imm64 18 g_hc_alloc ++ [a64_ldr_x 17 18; a64_str_x 17 16] ++
  (if negb (nwords =? 0) then [a64_add_x_imm 17 17 nwords] else []) ++ [a64_str_x 17 18].
Definition hc_emit_enter (nwords : Z) : J unit := block 16 (enter_words nwords).

Definition leave_words : list Z :=
  a64_emit_imm64 16 g_hc_fp ++ a64_emit_imm64 18 g_hc_alloc ++
  [a64_ldr_x 17 16; a64_str_x 17 18; a64_ldp_post 17 31 31 16; a64_str_x 17 16].
Definition hc_emit_leave : J unit := block 12 leave_words.

(** ** The cases of the switch

    [st k] is the register of the stack slot [k] below the top, at depth [sp]. *)

Definition st (sp k : Z) : Z := 9 + (sp - 1 - k).

Definition c_imm64 : J unit :=
  do imm <- (fun s => if Z.of_nat (length (j_bc s)) <? 8 then inl HC_IR_ERR_TRUNC
                      else if HC_IR_MAX_DEPTH <=? j_sp s then inl HC_IR_ERR_DEPTH else next_u64 s) in
  do sp <- depth in
  block 4 (a64_emit_imm64 (9 + sp) imm) ;;; adjust 1.

Definition binop_words (op : hc_op) (ra rb : Z) : list Z :=
  match op with
  | HC_ADD => [a64_add_x_reg ra ra rb]
  | HC_SUB => [a64_sub_x_reg ra ra rb]
  | HC_MUL => [a64_mul_x ra ra rb]
  | HC_DIV => [a64_sdiv_x ra ra rb]
  | HC_MOD => [a64_sdiv_x 8 ra rb; a64_msub_x ra 8 rb ra]
  | HC_AND => [a64_and_x ra ra rb]
  | HC_OR => [a64_orr_x ra ra rb]
  | HC_XOR => [a64_eor_x ra ra rb]
  | HC_SHL => [a64_lslv_x ra ra rb]
  | HC_ASR => [a64_asrv_x ra ra rb]
  | _ => [a64_lsrv_x ra ra rb]
  end.
Definition c_binop (op : hc_op) : J unit :=
  do sp <- depth in
  guard (sp <? 2) HC_IR_ERR_DEPTH ;;;
  emit_all (binop_words op (st sp 1) (st sp 0)) ;;; adjust (-1).

Definition cset_word (op : hc_op) (ra : Z) : Z :=
  match op with
  | HC_EQ => a64_cset_eq ra | HC_NE => a64_cset_ne ra | HC_LT => a64_cset_lt ra
  | HC_LE => a64_cset_le ra | HC_GT => a64_cset_gt ra | _ => a64_cset_ge ra
  end.
Definition c_compare (op : hc_op) : J unit :=
  do sp <- depth in
  guard (sp <? 2) HC_IR_ERR_DEPTH ;;;
  EMIT (a64_cmp_x (st sp 1) (st sp 0)) ;;; EMIT (cset_word op (st sp 1)) ;;; adjust (-1).

Definition c_neg : J unit :=
  do sp <- depth in guard (sp <? 1) HC_IR_ERR_DEPTH ;;; EMIT (a64_neg_x (st sp 0) (st sp 0)).

Definition c_dup : J unit :=
  do sp <- depth in
  guard ((sp <? 1) || (HC_IR_MAX_DEPTH <=? sp)) HC_IR_ERR_DEPTH ;;;
  EMIT (a64_mov_x (9 + sp) (st sp 0)) ;;; adjust 1.

Definition c_swap : J unit :=
  do sp <- depth in
  guard (sp <? 2) HC_IR_ERR_DEPTH ;;;
  EMIT (a64_mov_x 16 (st sp 1)) ;;; EMIT (a64_mov_x (st sp 1) (st sp 0)) ;;; EMIT (a64_mov_x (st sp 0) 16).

Definition c_drop : J unit := do sp <- depth in guard (sp <? 1) HC_IR_ERR_DEPTH ;;; adjust (-1).

Definition c_label : J unit :=
  do id <- next_byte in
  fun s =>
    if (HC_IR_MAX_LABELS <=? id) || (0 <=? default (-1) (j_label s !! Z.to_nat id)) then inl HC_IR_ERR_LABEL
    else inr (tt, set_labels (<[Z.to_nat id := Z.of_nat (length (j_code s))]> (j_label s)) s).

Definition c_jmp : J unit := do lab <- next_byte in EMIT_BR HC_PATCH_B lab.

(** [patches\[npatch - 1\].site\[0\] = ...] *)
Definition rewrite_site (insn : Z) : J unit := fun s =>
  match list.last (j_patch s) with
  | Some p => inr (tt, set_code (<[p_site p := insn]> (j_code s)) s)
  | None => inr (tt, s)
  end.
Definition c_jz (op : hc_op) : J unit :=
  do sp <- (fun s => match j_bc s with [] => inl HC_IR_ERR_TRUNC | _ => depth s end) in
  guard (sp <? 1) HC_IR_ERR_DEPTH ;;;
  adjust (-1) ;;;
  EMIT (a64_mov_x 16 (st sp 0)) ;;;
  do lab <- next_byte in
  let zero := bool_decide (op = HC_JZ) in
  EMIT_BR (if zero then HC_PATCH_CBZ else HC_PATCH_CBNZ) lab ;;;
  rewrite_site (if zero then a64_cbz 16 0 else a64_cbnz 16 0).

Definition c_st_local : J unit :=
  do slot <- next_byte in
  do sp <- depth in
  guard ((HC_IR_MAX_LOCALS <=? slot) || (sp <? 1)) HC_IR_ERR_LOCAL ;;;
  EMIT (a64_mov_x (hc_local_reg slot) (st sp 0)) ;;; adjust (-1).

Definition c_ld_local : J unit :=
  do slot <- next_byte in
  do sp <- depth in
  guard ((HC_IR_MAX_LOCALS <=? slot) || (HC_IR_MAX_DEPTH <=? sp)) HC_IR_ERR_LOCAL ;;;
  EMIT (a64_mov_x (9 + sp) (hc_local_reg slot)) ;;; adjust 1.

(** The operand of the slot instructions that push. *)
Definition push_slot : J (Z * Z) :=
  do slot <- next_byte in
  do sp <- depth in
  guard ((HC_IR_MEM_WORDS <=? slot) || (HC_IR_MAX_DEPTH <=? sp)) HC_IR_ERR_LOCAL ;;; jret (slot, 9 + sp).
(** And of those that pop. *)
Definition pop_slot : J (Z * Z) :=
  do slot <- next_byte in
  do sp <- depth in
  guard ((HC_IR_MEM_WORDS <=? slot) || (sp <? 1)) HC_IR_ERR_LOCAL ;;; jret (slot, st sp 0).

Definition c_slot_addr : J unit := do (slot, rd) <- push_slot in hc_emit_slot_addr rd slot ;;; adjust 1.

Definition load_word (op : hc_op) (r : Z) : Z :=
  match op with HC_LOAD8 => a64_ldrb r r | HC_LOAD32 => a64_ldr_w r r | _ => a64_ldr_x r r end.
Definition store_word (op : hc_op) (rval rptr : Z) : Z :=
  match op with
  | HC_STORE8 => a64_strb rval rptr | HC_STORE32 => a64_str_w rval rptr | _ => a64_str_x rval rptr
  end.
Definition c_load (op : hc_op) : J unit :=
  do sp <- depth in guard (sp <? 1) HC_IR_ERR_DEPTH ;;; EMIT (load_word op (st sp 0)).
Definition c_store (op : hc_op) : J unit :=
  do sp <- depth in
  guard (sp <? 2) HC_IR_ERR_DEPTH ;;; EMIT (store_word op (st sp 0) (st sp 1)) ;;; adjust (-2).

Definition c_enter : J unit := do nwords <- next_byte in hc_emit_enter nwords ;;; framing true.
Definition c_leave : J unit := hc_emit_leave ;;; framing false.

Definition call_argc (op : hc_op) : Z :=
  match op with
  | HC_CALL7 => 7 | HC_CALL6 => 6 | HC_CALL5 => 5 | HC_CALL4 => 4 | HC_CALL3 => 3 | HC_CALL2 => 2
  | HC_CALL1 => 1 | _ => 0
  end.
(** The argument moves, [a] from 0; the saves, [s] from 0; the restores, [s] downwards. *)
Definition arg_words (sp argc : Z) : list Z :=
  map (fun a => a64_mov_x (argc - 1 - Z.of_nat a) (9 + (sp - 1 - Z.of_nat a))) (seq 0 (Z.to_nat argc)).
Definition save_words (need : Z) : list Z :=
  map (fun s => a64_stp_pre (9 + Z.of_nat s) 31 31 (-16)) (seq 0 (Z.to_nat need)).
Definition restore_words (need : Z) : list Z :=
  map (fun s => a64_ldp_post (9 + Z.of_nat s) 31 31 16) (rev (seq 0 (Z.to_nat need))).
Definition c_call (op : hc_op) : J unit :=
  do fn <- next_u64 in
  let argc := call_argc op in
  do sp <- depth in
  guard (sp <? argc) HC_IR_ERR_DEPTH ;;;
  emit_all (arg_words sp argc) ;;;
  adjust (- argc) ;;;
  do need <- depth in
  emit_all (save_words need) ;;;
  EMIT (a64_stp_pre 20 21 31 (-16)) ;;; EMIT (a64_stp_pre 22 23 31 (-16)) ;;;
  block 4 (a64_emit_imm64 16 fn) ;;;
  EMIT (a64_blr 16) ;;;
  EMIT (a64_ldp_post 22 23 31 16) ;;; EMIT (a64_ldp_post 20 21 31 16) ;;;
  guard (HC_IR_MAX_DEPTH <=? need) HC_IR_ERR_DEPTH ;;;
  emit_all (restore_words need) ;;;
  EMIT (a64_mov_x (9 + need) 0) ;;; adjust 1.

Definition c_ld_slot : J unit :=
  do (slot, rd) <- push_slot in hc_emit_slot_addr rd slot ;;; EMIT (a64_ldr_x rd rd) ;;; adjust 1.
Definition c_st_slot : J unit :=
  do (slot, rv) <- pop_slot in hc_emit_slot_addr 16 slot ;;; EMIT (a64_str_x rv 16) ;;; adjust (-1).
Definition c_ld_abs : J unit :=
  do (slot, rd) <- push_slot in hc_emit_abs_addr rd slot ;;; EMIT (a64_ldr_x rd rd) ;;; adjust 1.
Definition c_st_abs : J unit :=
  do (slot, rv) <- pop_slot in hc_emit_abs_addr 16 slot ;;; EMIT (a64_str_x rv 16) ;;; adjust (-1).
Definition c_abs_addr : J unit := do (slot, rd) <- push_slot in hc_emit_abs_addr rd slot ;;; adjust 1.

Definition funary_words (op : hc_op) (r : Z) : list Z :=
  match op with
  | HC_I2F => [a64_scvtf_d_x 0 r; a64_fmov_x_d r 0]
  | HC_F2I => [a64_fmov_d_x 0 r; a64_fcvtzs_x_d r 0]
  | _ => [a64_fmov_d_x 0 r; a64_fneg_d 0 0; a64_fmov_x_d r 0]
  end.
Definition c_funary (op : hc_op) : J unit :=
  do sp <- depth in guard (sp <? 1) HC_IR_ERR_DEPTH ;;; emit_all (funary_words op (st sp 0)).

Definition fbin_word (op : hc_op) : Z :=
  match op with
  | HC_FADD => a64_fadd_d 0 0 1 | HC_FSUB => a64_fsub_d 0 0 1 | HC_FMUL => a64_fmul_d 0 0 1
  | _ => a64_fdiv_d 0 0 1
  end.
Definition c_fbin (op : hc_op) : J unit :=
  do sp <- depth in
  guard (sp <? 2) HC_IR_ERR_DEPTH ;;;
  EMIT (a64_fmov_d_x 0 (st sp 1)) ;;; EMIT (a64_fmov_d_x 1 (st sp 0)) ;;;
  EMIT (fbin_word op) ;;; EMIT (a64_fmov_x_d (st sp 1) 0) ;;; adjust (-1).

Definition fcset_word (op : hc_op) (ra : Z) : Z :=
  match op with
  | HC_FEQ => a64_cset_eq ra | HC_FLT => a64_cset_lt ra | HC_FLE => a64_cset_le ra
  | HC_FGT => a64_cset_gt ra | HC_FGE => a64_cset_ge ra | _ => a64_cset_ne ra
  end.
Definition c_fcompare (op : hc_op) : J unit :=
  do sp <- depth in
  guard (sp <? 2) HC_IR_ERR_DEPTH ;;;
  EMIT (a64_fmov_d_x 0 (st sp 1)) ;;; EMIT (a64_fmov_d_x 1 (st sp 0)) ;;;
  EMIT (a64_fcmp_d 0 1) ;;; EMIT (fcset_word op (st sp 1)) ;;; adjust (-1).

Definition c_inarg : J unit :=
  do _ <- (fun s => if Z.of_nat (length (j_bc s)) <? 2 then inl HC_IR_ERR_TRUNC else inr (tt, s)) in
  do slot <- next_byte in
  do regno <- next_byte in
  guard ((HC_IR_MEM_WORDS <=? slot) || (6 <? regno)) HC_IR_ERR_LOCAL ;;;
  hc_emit_slot_addr 16 slot ;;; EMIT (a64_str_x regno 16).

Definition epilogue_words : list Z :=
  [a64_ldp_post 30 31 31 16; a64_ldp_post 22 23 31 16; a64_ldp_post 20 21 31 16; a64_ret].
(** [if (framed) hc_emit_leave(...)] *)
Definition unframe : J unit := fun s => if j_framed s then hc_emit_leave s else inr (tt, s).
Definition c_ret : J unit :=
  unframe ;;;
  do sp <- depth in
  EMIT (if sp <? 1 then a64_movz_x 0 0 0 else a64_mov_x 0 (st sp 0)) ;;;
  emit_all epilogue_words ;;; adjust (- sp).

Definition hc_compile_op (op : hc_op) : J unit :=
  match op with
  | HC_END => jret tt
  | HC_IMM64 => c_imm64
  | HC_ADD | HC_SUB | HC_MUL | HC_DIV | HC_MOD | HC_AND | HC_OR | HC_XOR | HC_SHL | HC_SHR | HC_ASR => c_binop op
  | HC_EQ | HC_NE | HC_LT | HC_LE | HC_GT | HC_GE => c_compare op
  | HC_NEG => c_neg
  | HC_DUP => c_dup
  | HC_SWAP => c_swap
  | HC_DROP => c_drop
  | HC_LABEL => c_label
  | HC_JMP => c_jmp
  | HC_JZ | HC_JNZ => c_jz op
  | HC_ST_LOCAL => c_st_local
  | HC_LD_LOCAL => c_ld_local
  | HC_SLOT_ADDR => c_slot_addr
  | HC_LOAD | HC_LOAD8 | HC_LOAD32 => c_load op
  | HC_STORE | HC_STORE8 | HC_STORE32 => c_store op
  | HC_ENTER => c_enter
  | HC_LEAVE => c_leave
  | HC_CALL0 | HC_CALL1 | HC_CALL2 | HC_CALL3 | HC_CALL4 | HC_CALL5 | HC_CALL6 | HC_CALL7 => c_call op
  | HC_LD_SLOT => c_ld_slot
  | HC_ST_SLOT => c_st_slot
  | HC_LD_ABS => c_ld_abs
  | HC_ST_ABS => c_st_abs
  | HC_ABS_ADDR => c_abs_addr
  | HC_I2F | HC_F2I | HC_FNEG => c_funary op
  | HC_FADD | HC_FSUB | HC_FMUL | HC_FDIV => c_fbin op
  | HC_FEQ | HC_FLT | HC_FLE | HC_FGT | HC_FGE | HC_FNE => c_fcompare op
  | HC_INARG => c_inarg
  | HC_RET => c_ret
  end.

(** The main loop; [fuel] bounds the turns by the length of the byte code, of which each turn
    reads at least one byte. *)
Fixpoint compile_loop (fuel : nat) : J unit := fun s =>
  match j_bc s with
  | [] => inr (tt, s)
  | b :: bc =>
      match fuel with
      | O => inl HC_IR_ERR_OP
      | S fuel' =>
          match hc_opcode b with
          | None => inl HC_IR_ERR_OP
          | Some HC_END => inr (tt, set_bc bc s)
          | Some op => (hc_compile_op op ;;; compile_loop fuel') (set_bc bc s)
          end
      end
  end.

(** The patch loop. *)
Definition branch_word (kind : hc_patch_kind) (off : Z) : Z :=
  match kind with
  | HC_PATCH_B => a64_b off | HC_PATCH_CBZ => a64_cbz 16 off | HC_PATCH_CBNZ => a64_cbnz 16 off
  end.
Fixpoint apply_patches (ps : list hc_patch) (label_at : list Z) (code : list Z) : Z + list Z :=
  match ps with
  | [] => inr code
  | p :: ps' =>
      let target := default (-1) (label_at !! Z.to_nat (p_label p)) in
      if target <? 0 then inl HC_IR_ERR_LABEL
      else apply_patches ps' label_at (<[p_site p := branch_word (p_kind p) (target - Z.of_nat (p_site p))]> code)
  end.

Definition prologue_words : list Z :=
  [a64_stp_pre 20 21 31 (-16); a64_stp_pre 22 23 31 (-16); a64_stp_pre 30 31 31 (-16)].

(** The words written ([4] bytes each), or the error code. *)
Definition hc_ir_compile (bc : list Z) : Z + list Z :=
  let start := mk_jit bc [] 0 false (repeat (-1) (Z.to_nat HC_IR_MAX_LABELS)) [] in
  match (block 3 prologue_words ;;; compile_loop (length bc) ;;; unframe ;;;
         EMIT (a64_movz_x 0 0 0) ;;; emit_all epilogue_words) start with
  | inl e => inl e
  | inr (_, s) => apply_patches (j_patch s) (j_label s) (j_code s)
  end.
End Compiler.

(** ** Packing byte code *)

Definition u64_bytes (v : Z) : list Z := map (fun b => u8 (Z.shiftr v (8 * Z.of_nat b))) (seq 0 8).
Definition hc_code (op : hc_op) : Z :=
  match list_find (eq op) hc_ops with Some (i, _) => Z.of_nat i | None => 0 end.
Definition hc_pack_imm64 (v : Z) : list Z := hc_code HC_IMM64 :: u64_bytes v.
Definition hc_pack_call0 (fn : Z) : list Z := hc_code HC_CALL0 :: u64_bytes fn.
Definition hc_pack_call1 (fn : Z) : list Z := hc_code HC_CALL1 :: u64_bytes fn.
Definition hc_pack_call2 (fn : Z) : list Z := hc_code HC_CALL2 :: u64_bytes fn.
Definition hc_pack_call3 (fn : Z) : list Z := hc_code HC_CALL3 :: u64_bytes fn.
Definition hc_pack_call4 (fn : Z) : list Z := hc_code HC_CALL4 :: u64_bytes fn.
Definition hc_pack_call5 (fn : Z) : list Z := hc_code HC_CALL5 :: u64_bytes fn.
Definition hc_pack_call6 (fn : Z) : list Z := hc_code HC_CALL6 :: u64_bytes fn.
Definition hc_pack_call7 (fn : Z) : list Z := hc_code HC_CALL7 :: u64_bytes fn.
Definition hc_pack_u8op (op a : Z) : list Z := [op; a].
