(* ===== verification/HcIrSem.v ===== *)
(** * The stack IR: programs, their meaning, and their stack discipline

    A byte code is a list of instructions; [ir_step] executes one on a stack, four locals, a
    memory and at most one frame.  Host calls go through [HostFns].  [well_typed] is the
    discipline the compiler relies on without checking it: one stack depth per program point,
    the same along a jump and at its label, no deeper than the registers X9 to X15. *)

From S2P Require Import Prelude A64 A64Sem HcIr.

(** ** Programs *)

Record hinsn := mk_h { h_op : hc_op; h_a : Z; h_b : Z }.

Inductive operands := Op0 | OpByte | OpBytes | OpWord.
Definition operands_of (op : hc_op) : operands :=
  match op with
  | HC_IMM64 | HC_CALL0 | HC_CALL1 | HC_CALL2 | HC_CALL3 | HC_CALL4 | HC_CALL5 | HC_CALL6 | HC_CALL7 => OpWord
  | HC_LABEL | HC_JMP | HC_JZ | HC_JNZ | HC_ST_LOCAL | HC_LD_LOCAL | HC_SLOT_ADDR | HC_ENTER | HC_LD_SLOT
  | HC_ST_SLOT | HC_LD_ABS | HC_ST_ABS | HC_ABS_ADDR => OpByte
  | HC_INARG => OpBytes
  | _ => Op0
  end.

(** The instruction at the head of [bc], its code [op] read already. *)
Definition parse_operands (op : hc_op) (bc : list Z) : option (hinsn * list Z) :=
  match operands_of op with
  | Op0 => Some (mk_h op 0 0, bc)
  | OpByte => match bc with a :: bc => Some (mk_h op a 0, bc) | _ => None end
  | OpBytes => match bc with a :: b :: bc => Some (mk_h op a b, bc) | _ => None end
  | OpWord => if Z.of_nat (length bc) <? 8 then None else Some (mk_h op (le_bytes (take 8 bc)) 0, drop 8 bc)
  end.

Fixpoint parse_loop (fuel : nat) (bc : list Z) : option (list hinsn) :=
  match bc with
  | [] => Some []
  | b :: bc =>
      match fuel with
      | O => None
      | S fuel' =>
          match hc_opcode b with
          | None => None
          | Some HC_END => Some []
          | Some op =>
              match parse_operands op bc with
              | None => None
              | Some (i, bc) => match parse_loop fuel' bc with Some p => Some (i :: p) | None => None end
              end
          end
      end
  end.
Definition hc_parse (bc : list Z) : option (list hinsn) := parse_loop (length bc) bc.

(** ** Meaning *)

Class HostFns := { h_arity : Z -> Z; h_call : Z -> list Z -> memory -> Z * memory }.

Record ir_state := mk_ir {
  i_pc : nat;
  i_stack : list Z;                 (* top first *)
  i_locals : Z -> Z;
  i_frame : option Z;               (* the saved g_hc_fp *)
  i_args : option (Z -> Z);         (* X0 ... X6 at entry, until a call *)
  i_mem : memory }.

Definition binop (op : hc_op) (a b : Z) : Z :=
  match op with
  | HC_ADD => u64 (a + b)
  | HC_SUB => u64 (a - b)
  | HC_MUL => u64 (a * b)
  | HC_DIV => if b =? 0 then 0 else u64 (Z.quot (s64 a) (s64 b))
  | HC_MOD => if b =? 0 then a else u64 (Z.rem (s64 a) (s64 b))
  | HC_AND => Z.land a b
  | HC_OR => Z.lor a b
  | HC_XOR => Z.lxor a b
  | HC_SHL => u64 (Z.shiftl a (b mod 64))
  | HC_ASR => u64 (Z.shiftr (s64 a) (b mod 64))
  | _ => Z.shiftr a (b mod 64)
  end.

Definition compare (op : hc_op) (a b : Z) : Z :=
  Z.b2z match op with
        | HC_EQ => a =? b | HC_NE => negb (a =? b) | HC_LT => s64 a <? s64 b
        | HC_LE => s64 a <=? s64 b | HC_GT => s64 b <? s64 a | _ => s64 b <=? s64 a
        end.

Section Meaning.
Context `{Fpu} `{HostFns}.
Context (g_hc_fp g_hc_alloc g_hc_mem : Z).
(** The machine stack of the run, which a program may not touch: [[lo, hi)]. *)
Context (lo hi : Z).

Definition funary (op : hc_op) (a : Z) : Z :=
  match op with HC_I2F => f_scvtf a | HC_F2I => f_fcvtzs a | _ => f_neg a end.
Definition fbin (op : hc_op) (a b : Z) : Z :=
  match op with HC_FADD => f_add a b | HC_FSUB => f_sub a b | HC_FMUL => f_mul a b | _ => f_div a b end.
(** [None]: [<] and [<=] of unordered operands, which the compiled code gets wrong. *)
Definition fcompare (op : hc_op) (a b : Z) : option Z :=
  match f_cmp a b, op with
  | Some c, HC_FEQ => Some (Z.b2z match c with Eq => true | _ => false end)
  | Some c, HC_FLT => Some (Z.b2z match c with Lt => true | _ => false end)
  | Some c, HC_FLE => Some (Z.b2z match c with Gt => false | _ => true end)
  | Some c, HC_FGT => Some (Z.b2z match c with Gt => true | _ => false end)
  | Some c, HC_FGE => Some (Z.b2z match c with Lt => false | _ => true end)
  | Some c, _ => Some (Z.b2z match c with Eq => false | _ => true end)
  | None, (HC_FLT | HC_FLE) => None
  | None, (HC_FEQ | HC_FGT | HC_FGE) => Some 0
  | None, _ => Some 1
  end.

Definition accessible (a : Z) (n : nat) : bool := (a + Z.of_nat n <=? lo) || (hi <=? a).
Definition access_size (op : hc_op) : nat :=
  match op with HC_LOAD8 | HC_STORE8 => 1 | HC_LOAD32 | HC_STORE32 => 4 | _ => 8 end.

Definition load_ok (n : nat) (m : memory) (a : Z) : option Z :=
  if accessible a n then Some (load n m a) else None.
Definition store_ok (n : nat) (m : memory) (a v : Z) : option memory :=
  if accessible a n then Some (store n m a v) else None.

Definition slot_addr (m : memory) (slot : Z) : Z := u64 (g_hc_mem + 8 * u64 (load 8 m g_hc_fp + slot)).
Definition abs_addr (slot : Z) : Z := u64 (g_hc_mem + 8 * slot).

Definition enter (nwords : Z) (m : memory) : memory :=
  let a := load 8 m g_hc_alloc in store 8 (store 8 m g_hc_fp a) g_hc_alloc (u64 (a + nwords)).
Definition leave (saved : Z) (m : memory) : memory :=
  store 8 (store 8 m g_hc_alloc (load 8 m g_hc_fp)) g_hc_fp saved.
Definition unframe_mem (frame : option Z) (m : memory) : memory :=
  match frame with Some saved => leave saved m | None => m end.

Section Program.
Context (prog : list hinsn).

Definition is_label (id : Z) (i : hinsn) : bool := bool_decide (h_op i = HC_LABEL) && (h_a i =? id).
Definition label_pc (id : Z) : option nat := fst <$> list_find (fun i => is_label id i = true) prog.

Definition jump (id : Z) (st : list Z) (s : ir_state) : option ir_state :=
  pc ← label_pc id; Some (mk_ir pc st (i_locals s) (i_frame s) (i_args s) (i_mem s)).

(** One instruction: the next state, or the result and the memory of a finished run. *)
Definition ir_step (s : ir_state) : option (ir_state + Z * memory) :=
  let pc := S (i_pc s) in
  let m := i_mem s in
  let go st := Some (inl (mk_ir pc st (i_locals s) (i_frame s) (i_args s) m)) in
  let go_mem st m := Some (inl (mk_ir pc st (i_locals s) (i_frame s) (i_args s) m)) in
  match prog !! i_pc s with
  | None => Some (inr (0, unframe_mem (i_frame s) m))
  | Some (mk_h op a b) =>
      match op, i_stack s with
      | HC_IMM64, st => go (a :: st)
      | (HC_ADD | HC_SUB | HC_MUL | HC_DIV | HC_MOD | HC_AND | HC_OR | HC_XOR | HC_SHL | HC_SHR | HC_ASR),
        y :: x :: st => go (binop op x y :: st)
      | (HC_EQ | HC_NE | HC_LT | HC_LE | HC_GT | HC_GE), y :: x :: st => go (compare op x y :: st)
      | HC_NEG, x :: st => go (u64 (- x) :: st)
      | HC_DUP, x :: st => go (x :: x :: st)
      | HC_SWAP, y :: x :: st => go (x :: y :: st)
      | HC_DROP, _ :: st => go st
      | HC_LABEL, st => go st
      | HC_JMP, st => s' ← jump a st s; Some (inl s')
      | HC_JZ, x :: st => if x =? 0 then s' ← jump a st s; Some (inl s') else go st
      | HC_JNZ, x :: st => if x =? 0 then go st else s' ← jump a st s; Some (inl s')
      | HC_ST_LOCAL, x :: st =>
          Some (inl (mk_ir pc st (upd_fun (i_locals s) a x) (i_frame s) (i_args s) m))
      | HC_LD_LOCAL, st => go (i_locals s a :: st)
      | HC_SLOT_ADDR, st => go (slot_addr m a :: st)
      | HC_ABS_ADDR, st => go (abs_addr a :: st)
      | (HC_LOAD | HC_LOAD8 | HC_LOAD32), p :: st => v ← load_ok (access_size op) m p; go (v :: st)
      | (HC_STORE | HC_STORE8 | HC_STORE32), v :: p :: st => m' ← store_ok (access_size op) m p v; go_mem st m'
      | HC_LD_SLOT, st => v ← load_ok 8 m (slot_addr m a); go (v :: st)
      | HC_ST_SLOT, v :: st => m' ← store_ok 8 m (slot_addr m a) v; go_mem st m'
      | HC_LD_ABS, st => v ← load_ok 8 m (abs_addr a); go (v :: st)
      | HC_ST_ABS, v :: st => m' ← store_ok 8 m (abs_addr a) v; go_mem st m'
      | HC_ENTER, st =>
          match i_frame s with
          | None => Some (inl (mk_ir pc st (i_locals s) (Some (load 8 m g_hc_fp)) (i_args s) (enter a m)))
          | Some _ => None
          end
      | HC_LEAVE, st =>
          saved ← i_frame s; Some (inl (mk_ir pc st (i_locals s) None (i_args s) (leave saved m)))
      | (HC_CALL0 | HC_CALL1 | HC_CALL2 | HC_CALL3 | HC_CALL4 | HC_CALL5 | HC_CALL6 | HC_CALL7), st =>
          let n := call_argc op in
          if (h_arity a =? n) && (n <=? Z.of_nat (length st)) then
            let '(v, m') := h_call a (rev (take (Z.to_nat n) st)) m in
            Some (inl (mk_ir pc (u64 v :: drop (Z.to_nat n) st) (i_locals s) (i_frame s) None m'))
          else None
      | (HC_I2F | HC_F2I | HC_FNEG), x :: st => go (funary op x :: st)
      | (HC_FADD | HC_FSUB | HC_FMUL | HC_FDIV), y :: x :: st => go (fbin op x y :: st)
      | (HC_FEQ | HC_FLT | HC_FLE | HC_FGT | HC_FGE | HC_FNE), y :: x :: st => v ← fcompare op x y; go (v :: st)
      | HC_INARG, st =>
          args ← i_args s; m' ← store_ok 8 m (slot_addr m a) (args b); go_mem st m'
      | HC_RET, st => Some (inr (hd 0 st, unframe_mem (i_frame s) m))
      | _, _ => None
      end
  end.

(** A run to its end. *)
Inductive ir_exec : ir_state -> Z -> memory -> Prop :=
| ir_exec_done s v m : ir_step s = Some (inr (v, m)) -> ir_exec s v m
| ir_exec_step s s' v m : ir_step s = Some (inl s') -> ir_exec s' v m -> ir_exec s v m.

Fixpoint ir_run (fuel : nat) (s : ir_state) : option (Z * memory) :=
  match fuel with
  | O => None
  | S fuel' => match ir_step s with Some (inr r) => Some r | Some (inl s') => ir_run fuel' s' | None => None end
  end.

Lemma ir_run_exec fuel : forall s v m, ir_run fuel s = Some (v, m) -> ir_exec s v m.
Proof.
  induction fuel as [|fuel IH]; intros s v m; cbn [ir_run]; [discriminate|].
  destruct (ir_step s) as [[s'|r]|] eqn:E; [|intros [= ->]|discriminate].
  - intros R. eapply ir_exec_step; [exact E|]. apply IH, R.
  - apply ir_exec_done. exact E.
Qed.
End Program.
End Meaning.

(** ** The stack discipline *)

(** The effect of an instruction on the depth and the frame flag; [None]: it breaks the rules. *)
Definition push (n sp : Z) (framed : bool) : option (Z * bool) :=
  if (0 <=? sp) && (sp + n <=? 7) then Some (sp + n, framed) else None.
Definition pops (n sp : Z) (framed : bool) : option (Z * bool) := if n <=? sp then Some (sp - n, framed) else None.

Definition effect (i : hinsn) (sp : Z) (framed : bool) : option (Z * bool) :=
  match h_op i with
  | HC_IMM64 | HC_LD_LOCAL | HC_SLOT_ADDR | HC_ABS_ADDR | HC_LD_SLOT | HC_LD_ABS => push 1 sp framed
  | HC_DUP => if 1 <=? sp then push 1 sp framed else None
  | HC_ADD | HC_SUB | HC_MUL | HC_DIV | HC_MOD | HC_AND | HC_OR | HC_XOR | HC_SHL | HC_SHR | HC_ASR
  | HC_EQ | HC_NE | HC_LT | HC_LE | HC_GT | HC_GE
  | HC_FADD | HC_FSUB | HC_FMUL | HC_FDIV | HC_FEQ | HC_FLT | HC_FLE | HC_FGT | HC_FGE | HC_FNE =>
      if 2 <=? sp then Some (sp - 1, framed) else None
  | HC_NEG | HC_I2F | HC_F2I | HC_FNEG | HC_LOAD | HC_LOAD8 | HC_LOAD32 =>
      if 1 <=? sp then Some (sp, framed) else None
  | HC_SWAP => if 2 <=? sp then Some (sp, framed) else None
  | HC_DROP | HC_JZ | HC_JNZ | HC_ST_LOCAL | HC_ST_SLOT | HC_ST_ABS => pops 1 sp framed
  | HC_STORE | HC_STORE8 | HC_STORE32 => pops 2 sp framed
  | HC_LABEL | HC_JMP | HC_INARG => Some (sp, framed)
  | HC_ENTER => if framed then None else Some (sp, true)
  | HC_LEAVE => if framed then Some (sp, false) else None
  | HC_CALL0 | HC_CALL1 | HC_CALL2 | HC_CALL3 | HC_CALL4 | HC_CALL5 | HC_CALL6 | HC_CALL7 =>
      let n := call_argc (h_op i) in
      if (n <=? sp) && (sp - n + 1 <=? 7) then Some (sp - n + 1, framed) else None
  | HC_RET => Some (0, framed)
  | HC_END => None
  end.

(** The depth and frame flag before every instruction, and at the end. *)
Fixpoint shapes (prog : list hinsn) (sp : Z) (framed : bool) : option (list (Z * bool)) :=
  match prog with
  | [] => Some [(sp, framed)]
  | i :: prog' =>
      match effect i sp framed with
      | None => None
      | Some (sp', framed') =>
          match shapes prog' sp' framed' with Some l => Some ((sp, framed) :: l) | None => None end
      end
  end.

Definition is_jump (op : hc_op) : bool := match op with HC_JMP | HC_JZ | HC_JNZ => true | _ => false end.

(** A jump arrives at its label with the shape it leaves with. *)
Definition jump_ok (prog : list hinsn) (sh : list (Z * bool)) (k : nat) : bool :=
  match prog !! k, sh !! S k with
  | Some i, Some after =>
      if is_jump (h_op i)
      then match label_pc prog (h_a i) with Some j => bool_decide (sh !! j = Some after) | None => false end
      else true
  | _, _ => true
  end.

(** Operands are bytes and words, and a local is one of four. *)
Definition operand_ok (i : hinsn) : bool :=
  (0 <=? h_a i) && (0 <=? h_b i) &&
  match h_op i with
  | HC_ST_LOCAL | HC_LD_LOCAL => h_a i <? 4
  | HC_INARG => (h_a i <? 256) && (h_b i <=? 6)
  | HC_IMM64 | HC_CALL0 | HC_CALL1 | HC_CALL2 | HC_CALL3 | HC_CALL4 | HC_CALL5 | HC_CALL6 | HC_CALL7 =>
      h_a i <? 18446744073709551616
  | _ => h_a i <? 256
  end.

Definition well_typed (prog : list hinsn) : bool :=
  match shapes prog 0 false with
  | None => false
  | Some sh => forallb (jump_ok prog sh) (seq 0 (length prog)) && forallb operand_ok prog
  end.

(** ** Byte code as the front end packs it

    An instruction and its bytes, and the parser's inverse of the packing. *)

(** An instruction as the front end packs it. *)
Definition pack_insn (i : hinsn) : list Z :=
  match h_op i with
  | HC_IMM64 => hc_pack_imm64 (h_a i)
  | HC_CALL0 => hc_pack_call0 (h_a i) | HC_CALL1 => hc_pack_call1 (h_a i) | HC_CALL2 => hc_pack_call2 (h_a i)
  | HC_CALL3 => hc_pack_call3 (h_a i) | HC_CALL4 => hc_pack_call4 (h_a i) | HC_CALL5 => hc_pack_call5 (h_a i)
  | HC_CALL6 => hc_pack_call6 (h_a i) | HC_CALL7 => hc_pack_call7 (h_a i)
  | op => match operands_of op with
          | OpByte => hc_pack_u8op (hc_code op) (h_a i)
          | OpBytes => hc_pack_u8op (hc_code op) (h_a i) ++ [h_b i]
          | _ => [hc_code op]
          end
  end.

(** Operands that are not there are zero. *)
Definition packable (i : hinsn) : bool :=
  match operands_of (h_op i) with
  | Op0 => (h_a i =? 0) && (h_b i =? 0) && negb (bool_decide (h_op i = HC_END))
  | OpByte => h_b i =? 0
  | OpBytes => true
  | OpWord => (0 <=? h_a i) && (h_a i <? 18446744073709551616) && (h_b i =? 0)
  end.

Lemma le_bytes_shifted n : forall v k, 0 <= k -> 0 <= v ->
  le_bytes (map (fun b => u8 (Z.shiftr v (8 * Z.of_nat b + k))) (seq 0 n)) = Z.shiftr v k mod 2 ^ (8 * Z.of_nat n).
Proof.
  induction n as [|n IH]; intros v k Hk Hv; [cbn; rewrite Z.mod_1_r; reflexivity|].
  cbn [seq map le_bytes fold_right]. rewrite <- seq_shift, map_map.
  rewrite (map_ext _ (fun b => u8 (Z.shiftr v (8 * Z.of_nat b + (k + 8))))) by (intros b; do 2 f_equal; lia).
  fold (le_bytes (map (fun b => u8 (Z.shiftr v (8 * Z.of_nat b + (k + 8)))) (seq 0 n))). rewrite IH by lia.
  rewrite lor_shiftl_add by (try lia; apply u8_range). unfold u8, wrap. change (8 * Z.of_nat 0 + k) with k.
  rewrite <- Z.shiftr_shiftr by lia. set (w := Z.shiftr v k). rewrite (Z.shiftr_div_pow2 w 8) by lia.
  replace (8 * Z.of_nat (S n)) with (8 + 8 * Z.of_nat n) by lia. rewrite Z.pow_add_r by lia.
  rewrite (Z.rem_mul_r w (2 ^ 8)) by (try apply Z.pow_nonzero; lia). lia.
Qed.

Lemma le_bytes_u64 v : is_u 64 v -> le_bytes (u64_bytes v) = v.
Proof.
  intros Hv. unfold u64_bytes. rewrite (map_ext _ (fun b => u8 (Z.shiftr v (8 * Z.of_nat b + 0)))) by (intros b; do 2 f_equal; lia).
  rewrite le_bytes_shifted by (unfold is_u in Hv; lia). rewrite Z.shiftr_0_r. apply Z.mod_small. exact Hv.
Qed.

Lemma hc_opcode_code op : hc_opcode (hc_code op) = Some op.
Proof. destruct op; vm_compute; reflexivity. Qed.

Lemma pack_insn_parse i rest : packable i = true ->
  exists bc, pack_insn i ++ rest = hc_code (h_op i) :: bc /\ parse_operands (h_op i) bc = Some (i, rest).
Proof.
  destruct i as [op a b]. unfold packable, pack_insn, parse_operands. cbn [h_op h_a h_b]. intros Hp.
  assert (Hw : forall v, is_u 64 v -> (if Z.of_nat (length (u64_bytes v ++ rest)) <? 8 then None
     else Some (mk_h op (le_bytes (take 8 (u64_bytes v ++ rest))) 0, drop 8 (u64_bytes v ++ rest))) = Some (mk_h op v 0, rest)).
  { intros v Hv. change 8%nat with (length (u64_bytes v)). rewrite take_app_length, drop_app_length, length_app, le_bytes_u64 by exact Hv.
    destruct (Z.ltb_spec (Z.of_nat (length (u64_bytes v) + length rest)) 8) as [Hlt|]; [cbn [length u64_bytes map seq] in Hlt; lia|reflexivity]. }
  destruct op; cbn [operands_of] in *; bool_hyps; zbool; subst; try discriminate;
    eexists; (split; [reflexivity|]); try reflexivity; apply Hw; split; lia.
Qed.

Lemma parse_packed prog (Hpack : forallb packable prog = true) : hc_parse (concat (map pack_insn prog)) = Some prog.
Proof.
  assert (Hf : forall fuel, (length prog <= fuel)%nat -> parse_loop fuel (concat (map pack_insn prog)) = Some prog).
  { induction prog as [|i prog IH]; intros fuel Hl; [destruct fuel; reflexivity|].
    cbn [forallb] in Hpack. apply andb_true_iff in Hpack as [Hi Hpack]. cbn [map concat].
    destruct (pack_insn_parse i (concat (map pack_insn prog)) Hi) as (bc & -> & Hp).
    cbn [length] in Hl. destruct fuel as [|fuel]; [lia|]. cbn [parse_loop]. rewrite hc_opcode_code, Hp.
    rewrite (IH Hpack) by lia.
    unfold packable in Hi. destruct (h_op i) eqn:Eop; try reflexivity. cbn in Hi. rewrite andb_false_r in Hi. discriminate. }
  apply Hf. clear Hf. induction prog as [|i prog IH]; [cbn; lia|].
  cbn [forallb] in Hpack. apply andb_true_iff in Hpack as [Hi Hpack]. cbn [map concat length].
  destruct (pack_insn_parse i [] Hi) as (bc & E & _). rewrite app_nil_r in E. rewrite length_app, E. cbn [length].
  specialize (IH Hpack). lia.
Qed.

