(* ===== verification/HcIrGen.v ===== *)
(** * What the compiler writes

    [gen] is the code of one instruction, with its branches still symbolic, at a depth and frame
    flag; [layout] the code of a program.  A successful compilation writes the prologue, the
    layout and the epilogue, with every branch resolved to the position of its label. *)

From S2P Require Import Prelude A64 A64Sem HcIr HcIrSem.

Inductive gword := W (w : Z) | Br (kind : hc_patch_kind) (label : Z).

Section Gen.
Context (g_hc_fp g_hc_alloc g_hc_mem : Z).

Definition call_words (op : hc_op) (fn sp : Z) : list Z :=
  let argc := call_argc op in
  let need := sp - argc in
  arg_words sp argc ++ save_words need ++ [a64_stp_pre 20 21 31 (-16); a64_stp_pre 22 23 31 (-16)] ++
  a64_emit_imm64 16 fn ++ [a64_blr 16; a64_ldp_post 22 23 31 16; a64_ldp_post 20 21 31 16] ++
  restore_words need ++ [a64_mov_x (9 + need) 0].

Definition ret_words (sp : Z) (framed : bool) : list Z :=
  (if framed then leave_words g_hc_fp g_hc_alloc else []) ++
  [if sp <? 1 then a64_movz_x 0 0 0 else a64_mov_x 0 (st sp 0)] ++ epilogue_words.

Definition gen_words (i : hinsn) (sp : Z) (framed : bool) : list Z :=
  let a := h_a i in
  match h_op i with
  | HC_IMM64 => a64_emit_imm64 (9 + sp) a
  | HC_ADD | HC_SUB | HC_MUL | HC_DIV | HC_MOD | HC_AND | HC_OR | HC_XOR | HC_SHL | HC_SHR | HC_ASR =>
      binop_words (h_op i) (st sp 1) (st sp 0)
  | HC_EQ | HC_NE | HC_LT | HC_LE | HC_GT | HC_GE =>
      [a64_cmp_x (st sp 1) (st sp 0); cset_word (h_op i) (st sp 1)]
  | HC_NEG => [a64_neg_x (st sp 0) (st sp 0)]
  | HC_DUP => [a64_mov_x (9 + sp) (st sp 0)]
  | HC_SWAP => [a64_mov_x 16 (st sp 1); a64_mov_x (st sp 1) (st sp 0); a64_mov_x (st sp 0) 16]
  | HC_JZ | HC_JNZ => [a64_mov_x 16 (st sp 0)]
  | HC_ST_LOCAL => [a64_mov_x (hc_local_reg a) (st sp 0)]
  | HC_LD_LOCAL => [a64_mov_x (9 + sp) (hc_local_reg a)]
  | HC_SLOT_ADDR => slot_addr_words g_hc_fp g_hc_mem (9 + sp) a
  | HC_ABS_ADDR => a64_emit_imm64 (9 + sp) (u64 (g_hc_mem + 8 * a))
  | HC_LOAD | HC_LOAD8 | HC_LOAD32 => [load_word (h_op i) (st sp 0)]
  | HC_STORE | HC_STORE8 | HC_STORE32 => [store_word (h_op i) (st sp 0) (st sp 1)]
  | HC_ENTER => enter_words g_hc_fp g_hc_alloc a
  | HC_LEAVE => leave_words g_hc_fp g_hc_alloc
  | HC_CALL0 | HC_CALL1 | HC_CALL2 | HC_CALL3 | HC_CALL4 | HC_CALL5 | HC_CALL6 | HC_CALL7 =>
      call_words (h_op i) a sp
  | HC_LD_SLOT => slot_addr_words g_hc_fp g_hc_mem (9 + sp) a ++ [a64_ldr_x (9 + sp) (9 + sp)]
  | HC_ST_SLOT => slot_addr_words g_hc_fp g_hc_mem 16 a ++ [a64_str_x (st sp 0) 16]
  | HC_LD_ABS => a64_emit_imm64 (9 + sp) (u64 (g_hc_mem + 8 * a)) ++ [a64_ldr_x (9 + sp) (9 + sp)]
  | HC_ST_ABS => a64_emit_imm64 16 (u64 (g_hc_mem + 8 * a)) ++ [a64_str_x (st sp 0) 16]
  | HC_I2F | HC_F2I | HC_FNEG => funary_words (h_op i) (st sp 0)
  | HC_FADD | HC_FSUB | HC_FMUL | HC_FDIV =>
      [a64_fmov_d_x 0 (st sp 1); a64_fmov_d_x 1 (st sp 0); fbin_word (h_op i); a64_fmov_x_d (st sp 1) 0]
  | HC_FEQ | HC_FLT | HC_FLE | HC_FGT | HC_FGE | HC_FNE =>
      [a64_fmov_d_x 0 (st sp 1); a64_fmov_d_x 1 (st sp 0); a64_fcmp_d 0 1; fcset_word (h_op i) (st sp 1)]
  | HC_INARG => slot_addr_words g_hc_fp g_hc_mem 16 a ++ [a64_str_x (h_b i) 16]
  | HC_RET => ret_words sp framed
  | HC_END | HC_DROP | HC_LABEL | HC_JMP => []
  end.

Definition gen (i : hinsn) (sp : Z) (framed : bool) : list gword :=
  map W (gen_words i sp framed) ++
  match h_op i with
  | HC_JMP => [Br HC_PATCH_B (h_a i)] | HC_JZ => [Br HC_PATCH_CBZ (h_a i)] | HC_JNZ => [Br HC_PATCH_CBNZ (h_a i)]
  | _ => []
  end.

Definition chunks (prog : list hinsn) (sh : list (Z * bool)) : list (list gword) :=
  zip_with (fun i x => gen i (fst x) (snd x)) prog sh.

(** The words of [gs] from position [k] on, as far as they are known before patching. *)
Definition same_words (gs : list gword) (ws : list Z) : Prop :=
  Forall2 (fun g w => match g with W x => w = x | Br _ _ => True end) gs ws.

Fixpoint gen_patches (k : nat) (gs : list gword) : list hc_patch :=
  match gs with
  | [] => []
  | W _ :: gs' => gen_patches (S k) gs'
  | Br kind lab :: gs' => mk_patch kind lab k :: gen_patches (S k) gs'
  end.

Lemma same_words_W ws : same_words (map W ws) ws.
Proof. induction ws; constructor; auto. Qed.

Lemma same_words_app g1 g2 w1 w2 : same_words g1 w1 -> same_words g2 w2 -> same_words (g1 ++ g2) (w1 ++ w2).
Proof. apply Forall2_app. Qed.

Lemma same_words_length gs ws : same_words gs ws -> length ws = length gs.
Proof. intros H. symmetry. eapply Forall2_length, H. Qed.

Lemma gen_patches_W ws : forall k, gen_patches k (map W ws) = [].
Proof. induction ws; intros k; [reflexivity|]. apply IHws. Qed.

Lemma gen_patches_app g1 : forall k g2, gen_patches k (g1 ++ g2) = gen_patches k g1 ++ gen_patches (k + length g1) g2.
Proof.
  induction g1 as [|[w|kind lab] g1 IH]; intros k g2; cbn [gen_patches app length].
  - rewrite Nat.add_0_r. reflexivity.
  - rewrite IH. do 2 f_equal. lia.
  - rewrite IH. cbn. do 3 f_equal. lia.
Qed.
End Gen.

(** ** Steps of the compiler that succeed *)

Lemma jbind_inv {A B} (m : J A) (k : A -> J B) s r :
  jbind m k s = inr r -> exists a s1, m s = inr (a, s1) /\ k a s1 = inr r.
Proof. unfold jbind. destruct (m s) as [e|[a s1]]; [discriminate|eauto]. Qed.

Lemma jret_inv {A} (a b : A) s s' : jret a s = inr (b, s') -> b = a /\ s' = s.
Proof. intros [= <- <-]. auto. Qed.

Lemma depth_inv s d s' : depth s = inr (d, s') -> d = j_sp s /\ s' = s.
Proof. intros [= <- <-]. auto. Qed.

Lemma guard_inv b e s u s' : guard b e s = inr (u, s') -> b = false /\ s' = s.
Proof. unfold guard. destruct b; [discriminate|]. intros [= _ <-]. auto. Qed.

Lemma adjust_inv n s u s' : adjust n s = inr (u, s') -> s' = set_depth (j_sp s + n) s.
Proof. intros [= _ <-]. reflexivity. Qed.

Lemma framing_inv b s u s' : framing b s = inr (u, s') -> s' = set_framed b s.
Proof. intros [= _ <-]. reflexivity. Qed.

Lemma next_byte_inv s b s' : next_byte s = inr (b, s') -> exists bc, j_bc s = b :: bc /\ s' = set_bc bc s.
Proof. unfold next_byte. destruct (j_bc s) as [|c bc]; [discriminate|]. intros [= <- <-]. eauto. Qed.

Lemma next_u64_inv s v s' : next_u64 s = inr (v, s') ->
  (Z.of_nat (length (j_bc s)) <? 8) = false /\ v = le_bytes (take 8 (j_bc s)) /\ s' = set_bc (drop 8 (j_bc s)) s.
Proof. unfold next_u64. destruct (_ <? 8); [discriminate|]. intros [= <- <-]. auto. Qed.

Section Emit.
Context (cap : Z).

Lemma EMIT_inv w s u s' : EMIT cap w s = inr (u, s') ->
  s' = set_code (j_code s ++ [w]) s /\ Z.of_nat (length (j_code s')) <= cap.
Proof.
  unfold EMIT. destruct (Z.leb_spec cap (Z.of_nat (length (j_code s)))); [discriminate|]. intros [= _ <-].
  cbn. rewrite length_app. cbn. split; [reflexivity|lia].
Qed.

Lemma block_inv n ws s u s' : block cap n ws s = inr (u, s') ->
  s' = set_code (j_code s ++ ws) s /\ Z.of_nat (length (j_code s)) + n <= cap.
Proof.
  unfold block. destruct (Z.ltb_spec cap (Z.of_nat (length (j_code s)) + n)); [discriminate|]. intros [= _ <-]. auto.
Qed.

Lemma EMIT_BR_inv kind lab s u s' : EMIT_BR cap kind lab s = inr (u, s') ->
  s' = set_code (j_code s ++ [0x14000000]) (set_patches (j_patch s ++ [mk_patch kind lab (length (j_code s))]) s) /\
  lab < HC_IR_MAX_LABELS /\ Z.of_nat (length (j_code s')) <= cap.
Proof.
  unfold EMIT_BR. destruct (Z.leb_spec cap (Z.of_nat (length (j_code s)))); [discriminate|].
  destruct (Z.leb_spec HC_IR_MAX_LABELS lab); [discriminate|].
  destruct (HC_IR_MAX_PATCHES <=? _); [discriminate|]. intros [= _ <-]. cbn. rewrite length_app. cbn.
  split; [reflexivity|]. lia.
Qed.

Lemma emit_all_inv ws : forall s u s', emit_all cap ws s = inr (u, s') ->
  s' = set_code (j_code s ++ ws) s /\ (ws <> [] -> Z.of_nat (length (j_code s')) <= cap).
Proof.
  induction ws as [|w ws IH]; intros s u s' H; cbn [emit_all] in H.
  - apply jret_inv in H as [_ ->]. rewrite app_nil_r. split; [destruct s; reflexivity|congruence].
  - apply jbind_inv in H as ([] & s1 & H1 & H). apply EMIT_inv in H1 as [-> C1]. apply IH in H as [-> C2].
    cbn in *. rewrite <- app_assoc in *. split; [reflexivity|]. intros _.
    destruct ws; [exact C1|apply C2; discriminate].
Qed.
End Emit.

Ltac jinv :=
  repeat match goal with
  | H : jbind _ _ _ = inr _ |- _ => apply jbind_inv in H as (? & ? & ? & H)
  | H : jret _ _ = inr _ |- _ => apply jret_inv in H as [? ?]; subst
  | H : depth _ = inr _ |- _ => apply depth_inv in H as [? ?]; subst
  | H : guard _ _ _ = inr _ |- _ => apply guard_inv in H as [? ?]; subst
  | H : adjust _ _ = inr _ |- _ => apply adjust_inv in H; subst
  | H : framing _ _ = inr _ |- _ => apply framing_inv in H; subst
  | H : EMIT _ _ _ = inr _ |- _ => apply EMIT_inv in H as [? ?]; subst
  | H : block _ _ _ _ = inr _ |- _ => apply block_inv in H as [? ?]; subst
  | H : emit_all _ _ _ = inr _ |- _ => apply emit_all_inv in H as [? ?]; subst
  | H : EMIT_BR _ _ _ _ = inr _ |- _ => apply EMIT_BR_inv in H as (? & ? & ?); subst
  | H : next_byte _ = inr _ |- _ => apply next_byte_inv in H as (? & ? & ?); subst
  | H : next_u64 _ = inr _ |- _ => apply next_u64_inv in H as (? & ? & ?); subst
  end.

(** ** One instruction *)

Section Chunk.
Context (g_hc_fp g_hc_alloc g_hc_mem cap : Z).

Abbreviation gen := (gen g_hc_fp g_hc_alloc g_hc_mem) (only parsing).

Definition labels_after (i : hinsn) (k : nat) (l : list Z) : list Z :=
  if bool_decide (h_op i = HC_LABEL) then <[Z.to_nat (h_a i) := Z.of_nat k]> l else l.

(** A label is placed once, and its number fits the array. *)
Definition label_fresh (i : hinsn) (l : list Z) : Prop :=
  h_op i = HC_LABEL -> h_a i < HC_IR_MAX_LABELS /\ default (-1) (l !! Z.to_nat (h_a i)) < 0.

Record compiled (i : hinsn) (s s' : jit) : Prop := {
  cp_code : exists ws, same_words (gen i (j_sp s) (j_framed s)) ws /\ j_code s' = j_code s ++ ws;
  cp_cap : Z.of_nat (length (j_code s)) <= cap -> Z.of_nat (length (j_code s')) <= cap;
  cp_patch : j_patch s' = j_patch s ++ gen_patches (length (j_code s)) (gen i (j_sp s) (j_framed s));
  cp_effect : forall sp fr, effect i (j_sp s) (j_framed s) = Some (sp, fr) -> j_sp s' = sp /\ j_framed s' = fr;
  cp_fresh : label_fresh i (j_label s);
  cp_labels : j_label s' = labels_after i (length (j_code s)) (j_label s) }.

Lemma call_words_split op fn sp : call_words op fn sp =
  arg_words sp (call_argc op) ++ save_words (sp - call_argc op) ++ [a64_stp_pre 20 21 31 (-16)] ++
  [a64_stp_pre 22 23 31 (-16)] ++ a64_emit_imm64 16 fn ++ [a64_blr 16] ++ [a64_ldp_post 22 23 31 16] ++
  [a64_ldp_post 20 21 31 16] ++ restore_words (sp - call_argc op) ++ [a64_mov_x (9 + (sp - call_argc op)) 0].
Proof. reflexivity. Qed.

(** The instructions that are neither labels nor jumps. *)
Lemma compiled_straight i s s' :
  is_jump (h_op i) = false -> h_op i <> HC_LABEL ->
  j_code s' = j_code s ++ gen_words g_hc_fp g_hc_alloc g_hc_mem i (j_sp s) (j_framed s) ->
  (Z.of_nat (length (j_code s)) <= cap -> Z.of_nat (length (j_code s')) <= cap) ->
  j_patch s' = j_patch s -> j_label s' = j_label s ->
  (forall sp fr, effect i (j_sp s) (j_framed s) = Some (sp, fr) -> j_sp s' = sp /\ j_framed s' = fr) ->
  compiled i s s'.
Proof.
  intros Hj Hl Hc Hcap Hp Hlab He.
  assert (Hg : gen i (j_sp s) (j_framed s) = map W (gen_words g_hc_fp g_hc_alloc g_hc_mem i (j_sp s) (j_framed s))).
  { unfold HcIrGen.gen. destruct (h_op i); try discriminate; apply app_nil_r. }
  split; try assumption.
  - eexists. rewrite Hg. split; [apply same_words_W|exact Hc].
  - rewrite Hg, gen_patches_W, app_nil_r. exact Hp.
  - intros H. contradiction.
  - rewrite Hlab. unfold labels_after. rewrite bool_decide_eq_false_2 by assumption. reflexivity.
Qed.

Ltac jcbn := cbn [set_code set_depth set_framed set_bc set_labels set_patches j_bc j_code j_sp j_framed j_label j_patch] in *.

Lemma length_slot_addr rd slot : Z.of_nat (length (slot_addr_words g_hc_fp g_hc_mem rd slot)) <= 12.
Proof. unfold slot_addr_words. rewrite !length_app. destruct (negb _); cbn; lia. Qed.
Lemma length_enter n : Z.of_nat (length (enter_words g_hc_fp g_hc_alloc n)) <= 16.
Proof. unfold enter_words. rewrite !length_app. destruct (negb _); cbn; lia. Qed.

Lemma length_imm64 rd v : length (a64_emit_imm64 rd v) = 4%nat.
Proof. reflexivity. Qed.
Lemma length_leave : length (leave_words g_hc_fp g_hc_alloc) = 12%nat.
Proof. reflexivity. Qed.

(** What a case of the compiler has to establish. *)
Definition op_spec (op : hc_op) (m : J unit) : Prop := forall s s', m s = inr (tt, s') ->
  exists i rest, parse_operands op (j_bc s) = Some (i, rest) /\ h_op i = op /\ j_bc s' = rest /\ compiled i s s'.

Ltac caps :=
  repeat match goal with
  | H : ?ws <> [] -> _, H' : ?ws <> [] |- _ => specialize (H H')
  | H : ?ws <> [] -> _ |- _ => specialize (H ltac:(discriminate))
  end;
  intros; first [match goal with H : ?P |- ?P => exact H end | rewrite ?length_app, ?length_imm64, ?length_leave in *; cbn [length] in *; lia].

Lemma straight_spec op i rest ws s s' :
  parse_operands op (j_bc s) = Some (i, rest) -> h_op i = op -> is_jump op = false -> op <> HC_LABEL ->
  gen_words g_hc_fp g_hc_alloc g_hc_mem i (j_sp s) (j_framed s) = ws ->
  j_bc s' = rest -> j_code s' = j_code s ++ ws -> j_patch s' = j_patch s -> j_label s' = j_label s ->
  (Z.of_nat (length (j_code s)) <= cap -> Z.of_nat (length (j_code s')) <= cap) ->
  (forall sp fr, effect i (j_sp s) (j_framed s) = Some (sp, fr) -> j_sp s' = sp /\ j_framed s' = fr) ->
  exists i rest, parse_operands op (j_bc s) = Some (i, rest) /\ h_op i = op /\ j_bc s' = rest /\ compiled i s s'.
Proof.
  intros Hp <- Hj Hl <- <- Hc Hpa Hla Hcap He. exists i, (j_bc s'). split; [exact Hp|]. split; [reflexivity|].
  split; [reflexivity|]. apply compiled_straight; assumption.
Qed.

(** A family of operations without operands, with code [words] and effect [eff]. *)
Definition family (ops : list hc_op) (words : hc_op -> Z -> bool -> list Z)
    (eff : hc_op -> Z -> bool -> option (Z * bool)) : Prop :=
  forall op, In op ops -> operands_of op = Op0 /\ is_jump op = false /\ op <> HC_LABEL /\
    (forall sp fr, gen_words g_hc_fp g_hc_alloc g_hc_mem (mk_h op 0 0) sp fr = words op sp fr) /\
    (forall sp fr, effect (mk_h op 0 0) sp fr = eff op sp fr) /\
    (forall sp fr, words op sp fr <> [] \/ op = HC_DROP).

Ltac family_tac :=
  intros op Hop; cbn [In] in Hop;
  repeat (destruct Hop as [<-|Hop];
    [repeat split; first [discriminate | solve [left; discriminate] | solve [right; reflexivity] | reflexivity]|]);
  contradiction.

Definition binops : list hc_op :=
  [HC_ADD; HC_SUB; HC_MUL; HC_DIV; HC_MOD; HC_AND; HC_OR; HC_XOR; HC_SHL; HC_SHR; HC_ASR].
Definition compares : list hc_op := [HC_EQ; HC_NE; HC_LT; HC_LE; HC_GT; HC_GE].
Definition loads : list hc_op := [HC_LOAD; HC_LOAD8; HC_LOAD32].
Definition stores : list hc_op := [HC_STORE; HC_STORE8; HC_STORE32].
Definition funaries : list hc_op := [HC_I2F; HC_F2I; HC_FNEG].
Definition fbins : list hc_op := [HC_FADD; HC_FSUB; HC_FMUL; HC_FDIV].
Definition fcompares : list hc_op := [HC_FEQ; HC_FLT; HC_FLE; HC_FGT; HC_FGE; HC_FNE].

Definition eff2 (d sp : Z) (fr : bool) : option (Z * bool) := if 2 <=? sp then Some (sp + d, fr) else None.

Definition eff1 (d sp : Z) (fr : bool) : option (Z * bool) := if 1 <=? sp then Some (sp + d, fr) else None.

Lemma eff2_inv d sp fr sp' fr' : eff2 d sp fr = Some (sp', fr') -> sp + d = sp' /\ fr = fr'.
Proof. unfold eff2. case_if; intros; simplify_eq. auto. Qed.
Lemma eff1_inv d sp fr sp' fr' : eff1 d sp fr = Some (sp', fr') -> sp + d = sp' /\ fr = fr'.
Proof. unfold eff1. case_if; intros; simplify_eq. auto. Qed.

Lemma binop_family : family binops (fun op sp _ => binop_words op (st sp 1) (st sp 0)) (fun _ => eff2 (-1)).
Proof. family_tac. Qed.
Lemma compare_family : family compares
  (fun op sp _ => [a64_cmp_x (st sp 1) (st sp 0); cset_word op (st sp 1)]) (fun _ => eff2 (-1)).
Proof. family_tac. Qed.
Lemma fbin_family : family fbins
  (fun op sp _ => [a64_fmov_d_x 0 (st sp 1); a64_fmov_d_x 1 (st sp 0); fbin_word op; a64_fmov_x_d (st sp 1) 0])
  (fun _ => eff2 (-1)).
Proof. family_tac. Qed.
Lemma fcompare_family : family fcompares
  (fun op sp _ => [a64_fmov_d_x 0 (st sp 1); a64_fmov_d_x 1 (st sp 0); a64_fcmp_d 0 1; fcset_word op (st sp 1)])
  (fun _ => eff2 (-1)).
Proof. family_tac. Qed.
Lemma load_family : family loads (fun op sp _ => [load_word op (st sp 0)])
  (fun _ sp fr => if 1 <=? sp then Some (sp, fr) else None).
Proof. family_tac. Qed.
Lemma funary_family : family funaries (fun op sp _ => funary_words op (st sp 0))
  (fun _ sp fr => if 1 <=? sp then Some (sp, fr) else None).
Proof. family_tac. Qed.
Lemma store_family : family stores (fun op sp _ => [store_word op (st sp 0) (st sp 1)]) (fun _ => pops 2).
Proof. family_tac. Qed.

(** A case of the switch that belongs to a family. *)
Ltac by_family F :=
  let H := fresh "H" in
  intros Hin s s' H; jinv; destruct (F _ Hin) as (Fo & Fj & Fl & Fg & Fe & Fn);
  match goal with |- exists _ _, parse_operands ?op _ = _ /\ _ =>
    destruct (Fn (j_sp s) (j_framed s)) as [Fn'|Fn']; [|subst op; cbn in Hin; intuition discriminate];
    eapply (straight_spec op (mk_h op 0 0) (j_bc s)) end;
  [ unfold parse_operands; rewrite Fo; reflexivity | reflexivity | exact Fj | exact Fl | apply Fg | reflexivity
  | jcbn; rewrite <- ?app_assoc, ?app_nil_r; reflexivity | reflexivity | reflexivity | jcbn; caps
  | rewrite Fe; jcbn; intros ? ?; first [apply eff2_inv | apply eff1_inv | unfold pops; case_if; intros; simplify_eq; auto] ].

Lemma spec_binop op : In op binops -> op_spec op (c_binop cap op).
Proof. unfold op_spec, c_binop. by_family binop_family. Qed.
Lemma spec_compare op : In op compares -> op_spec op (c_compare cap op).
Proof. unfold op_spec, c_compare. by_family compare_family. Qed.
Lemma spec_fbin op : In op fbins -> op_spec op (c_fbin cap op).
Proof. unfold op_spec, c_fbin. by_family fbin_family. Qed.
Lemma spec_fcompare op : In op fcompares -> op_spec op (c_fcompare cap op).
Proof. unfold op_spec, c_fcompare. by_family fcompare_family. Qed.
Lemma spec_load op : In op loads -> op_spec op (c_load cap op).
Proof. unfold op_spec, c_load. by_family load_family. Qed.
Lemma spec_store op : In op stores -> op_spec op (c_store cap op).
Proof. unfold op_spec, c_store. by_family store_family. Qed.
Lemma spec_funary op : In op funaries -> op_spec op (c_funary cap op).
Proof. unfold op_spec, c_funary. by_family funary_family. Qed.

(** The part of the compiler that reads an operand first. *)
Lemma push_slot_inv s slot rd s' : push_slot s = inr ((slot, rd), s') ->
  exists bc, j_bc s = slot :: bc /\ rd = 9 + j_sp s /\ s' = set_bc bc s.
Proof.
  unfold push_slot. intros H. jinv. simplify_eq. eauto.
Qed.
Lemma pop_slot_inv s slot rv s' : pop_slot s = inr ((slot, rv), s') ->
  exists bc, j_bc s = slot :: bc /\ rv = st (j_sp s) 0 /\ s' = set_bc bc s.
Proof.
  unfold pop_slot. intros H. jinv. simplify_eq. eauto.
Qed.

Ltac slots :=
  repeat match goal with
  | H : (let (_, _) := ?x in _) _ = inr _ |- _ => destruct x as [? ?]
  | H : push_slot _ = inr ((_, _), _) |- _ => apply push_slot_inv in H as (? & ? & ? & ?); subst
  | H : pop_slot _ = inr ((_, _), _) |- _ => apply pop_slot_inv in H as (? & ? & ? & ?); subst
  end.

Lemma unframe_inv s u s' : unframe g_hc_fp g_hc_alloc cap s = inr (u, s') ->
  s' = set_code (j_code s ++ (if j_framed s then leave_words g_hc_fp g_hc_alloc else [])) s.
Proof.
  unfold unframe, hc_emit_leave. destruct (j_framed s).
  - intros H. jinv. reflexivity.
  - intros [= _ <-]. rewrite app_nil_r. destruct s. reflexivity.
Qed.

Lemma compile_jz op s s' : op = HC_JZ \/ op = HC_JNZ ->
  c_jz cap op s = inr (tt, s') ->
  exists i rest, parse_operands op (j_bc s) = Some (i, rest) /\ h_op i = op /\ j_bc s' = rest /\ compiled i s s'.
Proof.
  intros Hop H. unfold c_jz in H. apply jbind_inv in H as (sp & s1 & H1 & H).
  destruct (j_bc s) as [|b bc] eqn:Eb; [discriminate|]. injection H1 as <- <-. jinv. jcbn.
  match goal with H : j_bc s = ?y :: ?l |- _ => tryif constr_eq y b then fail else (rewrite Eb in H; injection H as <- <-) end.
  unfold rewrite_site in H. jcbn. rewrite last_snoc in H. cbn [p_site] in H. injection H as <-.
  set (z := bool_decide (op = HC_JZ)) in *.
  set (kind := if z then HC_PATCH_CBZ else HC_PATCH_CBNZ) in *.
  set (w := if z then a64_cbz 16 0 else a64_cbnz 16 0).
  assert (Hg : gen (mk_h op b 0) (j_sp s) (j_framed s) = [W (a64_mov_x 16 (st (j_sp s) 0)); Br kind b]).
  { destruct Hop as [-> | ->]; reflexivity. }
  assert (Hop' : operands_of op = OpByte) by (destruct Hop as [-> | ->]; reflexivity).
  exists (mk_h op b 0), bc. unfold parse_operands. rewrite Hop'. split; [reflexivity|]. split; [reflexivity|].
  split; [reflexivity|].
  assert (Hlen : Z.of_nat (length (j_code s ++ [a64_mov_x 16 (st (j_sp s) 0)] ++ [w])) <= cap).
  { rewrite !length_app in *. cbn in *. lia. }
  split; jcbn; rewrite ?Hg.
  - exists [a64_mov_x 16 (st (j_sp s) 0); w]. split; [repeat constructor|].
    rewrite <- app_assoc. rewrite insert_app_r_alt by (rewrite length_app; cbn; lia).
    rewrite length_app. cbn [length]. replace (length (j_code s) + 1 - length (j_code s))%nat with 1%nat by lia.
    reflexivity.
  - intros _. rewrite length_insert. rewrite !length_app in *. cbn in *. lia.
  - rewrite length_app. cbn. rewrite Nat.add_1_r. reflexivity.
  - assert (He : effect (mk_h op b 0) (j_sp s) (j_framed s) = pops 1 (j_sp s) (j_framed s))
      by (destruct Hop as [-> | ->]; reflexivity).
    rewrite He. unfold pops. intros ? ?. case_if; [|discriminate]. intros [= <- <-]. auto.
  - intros Hl. cbn in Hl. destruct Hop; congruence.
  - unfold labels_after. rewrite bool_decide_eq_false_2 by (cbn; destruct Hop; congruence). reflexivity.
Qed.


Ltac effects :=
  unfold effect; cbn [h_op]; unfold push, pops; intros ? ?; repeat case_if; intros; simplify_eq;
  split; first [reflexivity | lia].
(** A case with its own operand: [i] the instruction, [rest] the bytes left. *)
Ltac by_operand i rest :=
  eapply (straight_spec _ i rest);
  [ first [reflexivity | unfold parse_operands; cbn [operands_of]]
  | reflexivity | reflexivity | discriminate | reflexivity | reflexivity
  | jcbn; rewrite <- ?app_assoc, ?app_nil_r; first [reflexivity | cbn; reflexivity] | reflexivity | reflexivity | jcbn; caps
  | jcbn; effects ].
Ltac by_byte op :=
  match goal with H : j_bc ?s = ?a :: ?bc |- exists _ _, parse_operands _ (j_bc ?s) = _ /\ _ =>
    by_operand (mk_h op a 0) bc; rewrite H; reflexivity end.
Ltac by_word op :=
  match goal with H : (Z.of_nat (length (j_bc ?s)) <? 8) = false |- exists _ _, parse_operands _ (j_bc ?s) = _ /\ _ =>
    by_operand (mk_h op (le_bytes (take 8 (j_bc s))) 0) (drop 8 (j_bc s)); rewrite H; reflexivity end.

Lemma spec_neg : op_spec HC_NEG (c_neg cap).
Proof. unfold op_spec, c_neg. intros s s' H. jinv. by_operand (mk_h HC_NEG 0 0) (j_bc s). Qed.
Lemma spec_dup : op_spec HC_DUP (c_dup cap).
Proof. unfold op_spec, c_dup. intros s s' H. jinv. by_operand (mk_h HC_DUP 0 0) (j_bc s). Qed.
Lemma spec_swap : op_spec HC_SWAP (c_swap cap).
Proof. unfold op_spec, c_swap. intros s s' H. jinv. by_operand (mk_h HC_SWAP 0 0) (j_bc s). Qed.
Lemma spec_drop : op_spec HC_DROP c_drop.
Proof. unfold op_spec, c_drop. intros s s' H. jinv. by_operand (mk_h HC_DROP 0 0) (j_bc s). Qed.
Lemma spec_leave : op_spec HC_LEAVE (c_leave g_hc_fp g_hc_alloc cap).
Proof. unfold op_spec, c_leave, hc_emit_leave. intros s s' H. jinv. by_operand (mk_h HC_LEAVE 0 0) (j_bc s). Qed.

Lemma spec_imm64 : op_spec HC_IMM64 (c_imm64 cap).
Proof.
  unfold op_spec, c_imm64. intros s s' H. apply jbind_inv in H as (imm & s1 & H1 & H).
  destruct (Z.of_nat (length (j_bc s)) <? 8) eqn:E; [discriminate|].
  destruct (HC_IR_MAX_DEPTH <=? j_sp s); [discriminate|].
  apply next_u64_inv in H1 as (_ & -> & ->). jinv. by_word HC_IMM64.
Qed.

Lemma spec_st_local : op_spec HC_ST_LOCAL (c_st_local cap).
Proof. unfold op_spec, c_st_local. intros s s' H. jinv. by_byte HC_ST_LOCAL. Qed.
Lemma spec_ld_local : op_spec HC_LD_LOCAL (c_ld_local cap).
Proof. unfold op_spec, c_ld_local. intros s s' H. jinv. by_byte HC_LD_LOCAL. Qed.

Ltac slot_length :=
  match goal with
  | H : context [slot_addr_words g_hc_fp g_hc_mem ?rd ?slot] |- _ => pose proof (length_slot_addr rd slot)
  | |- _ => idtac
  end.
Lemma spec_slot_addr : op_spec HC_SLOT_ADDR (c_slot_addr g_hc_fp g_hc_mem cap).
Proof.
  unfold op_spec, c_slot_addr, hc_emit_slot_addr. intros s s' H. jinv; slots; jinv.
  match goal with H : j_bc s = ?slot :: _ |- _ => pose proof (length_slot_addr (9 + j_sp s) slot) end.
  by_byte HC_SLOT_ADDR.
Qed.
Lemma spec_abs_addr : op_spec HC_ABS_ADDR (c_abs_addr g_hc_mem cap).
Proof. unfold op_spec, c_abs_addr, hc_emit_abs_addr. intros s s' H. jinv; slots; jinv. by_byte HC_ABS_ADDR. Qed.
Lemma spec_ld_slot : op_spec HC_LD_SLOT (c_ld_slot g_hc_fp g_hc_mem cap).
Proof. unfold op_spec, c_ld_slot, hc_emit_slot_addr. intros s s' H. jinv; slots; jinv. by_byte HC_LD_SLOT. Qed.
Lemma spec_st_slot : op_spec HC_ST_SLOT (c_st_slot g_hc_fp g_hc_mem cap).
Proof. unfold op_spec, c_st_slot, hc_emit_slot_addr. intros s s' H. jinv; slots; jinv. by_byte HC_ST_SLOT. Qed.
Lemma spec_ld_abs : op_spec HC_LD_ABS (c_ld_abs g_hc_mem cap).
Proof. unfold op_spec, c_ld_abs, hc_emit_abs_addr. intros s s' H. jinv; slots; jinv. by_byte HC_LD_ABS. Qed.
Lemma spec_st_abs : op_spec HC_ST_ABS (c_st_abs g_hc_mem cap).
Proof. unfold op_spec, c_st_abs, hc_emit_abs_addr. intros s s' H. jinv; slots; jinv. by_byte HC_ST_ABS. Qed.
Lemma spec_enter : op_spec HC_ENTER (c_enter g_hc_fp g_hc_alloc cap).
Proof.
  unfold op_spec, c_enter, hc_emit_enter. intros s s' H. jinv.
  match goal with H : j_bc s = ?n :: _ |- _ => pose proof (length_enter n) end. by_byte HC_ENTER.
Qed.
Lemma spec_inarg : op_spec HC_INARG (c_inarg g_hc_fp g_hc_mem cap).
Proof.
  unfold op_spec, c_inarg, hc_emit_slot_addr. intros s s' H. apply jbind_inv in H as (u & s1 & H1 & H).
  destruct (Z.of_nat (length (j_bc s)) <? 2) eqn:E; [discriminate|]. injection H1 as _ <-. jinv.
  match goal with H : j_bc s = ?a :: ?r, H' : j_bc (set_bc ?r _) = ?b :: ?l |- _ =>
    cbn in H'; subst r; by_operand (mk_h HC_INARG a b) l; rewrite H; reflexivity end.
Qed.
Lemma spec_ret : op_spec HC_RET (c_ret g_hc_fp g_hc_alloc cap).
Proof.
  unfold op_spec, c_ret. intros s s' H. apply jbind_inv in H as ([] & s1 & H1 & H). apply unframe_inv in H1 as ->.
  jinv. by_operand (mk_h HC_RET 0 0) (j_bc s).
Qed.

Definition calls : list hc_op := [HC_CALL0; HC_CALL1; HC_CALL2; HC_CALL3; HC_CALL4; HC_CALL5; HC_CALL6; HC_CALL7].

Lemma call_facts op : In op calls -> operands_of op = OpWord /\ is_jump op = false /\ op <> HC_LABEL /\
  (forall fn sp fr, gen_words g_hc_fp g_hc_alloc g_hc_mem (mk_h op fn 0) sp fr = call_words op fn sp) /\
  (forall fn sp fr, effect (mk_h op fn 0) sp fr =
     if (call_argc op <=? sp) && (sp - call_argc op + 1 <=? 7) then Some (sp - call_argc op + 1, fr) else None).
Proof.
  intros Hop. cbn [calls In] in Hop.
  repeat (destruct Hop as [<-|Hop]; [repeat split; first [discriminate | reflexivity]|]). contradiction.
Qed.

Lemma spec_call op : In op calls -> op_spec op (c_call cap op).
Proof.
  intros Hin. destruct (call_facts op Hin) as (Fo & Fj & Fl & Fg & Fe).
  unfold op_spec, c_call. intros s s' H. jinv.
  match goal with H : (Z.of_nat (length (j_bc s)) <? 8) = false |- _ => rename H into E8 end.
  eapply (straight_spec op (mk_h op (le_bytes (take 8 (j_bc s))) 0) (drop 8 (j_bc s)));
    [unfold parse_operands; rewrite Fo, E8; reflexivity|reflexivity|exact Fj|exact Fl|apply Fg|reflexivity
    | |reflexivity|reflexivity| | rewrite Fe; intros ? ?; case_if; intros; simplify_eq; jcbn; split; [lia|reflexivity]].
  - jcbn. rewrite call_words_split, !Z.add_opp_r, <- !app_assoc. reflexivity.
  - intros _. jcbn. rewrite ?length_app in *. cbn [length] in *. lia.
Qed.

Lemma spec_label : op_spec HC_LABEL c_label.
Proof.
  unfold op_spec, c_label. intros s s' H. apply jbind_inv in H as (id & s1 & H1 & H). jinv. jcbn.
  destruct ((HC_IR_MAX_LABELS <=? id) || _) eqn:E; [discriminate|]. injection H as <-. bool_hyps. zbool.
  match goal with H : j_bc s = ?a :: ?bc |- _ => exists (mk_h HC_LABEL a 0), bc; rewrite H end.
  split; [reflexivity|]. split; [reflexivity|]. split; [reflexivity|]. split; jcbn; cbn.
  - exists []. rewrite app_nil_r. split; [constructor|reflexivity].
  - auto.
  - rewrite app_nil_r. reflexivity.
  - intros ? ? [= <- <-]. auto.
  - intros _. split; assumption.
  - reflexivity.
Qed.

Lemma spec_jmp : op_spec HC_JMP (c_jmp cap).
Proof.
  unfold op_spec, c_jmp. intros s s' H. jinv. jcbn.
  match goal with H : j_bc s = ?a :: ?bc |- _ => exists (mk_h HC_JMP a 0), bc; rewrite H end.
  split; [reflexivity|]. split; [reflexivity|]. split; [reflexivity|]. split; jcbn; cbn.
  - exists [0x14000000]. split; [repeat constructor|reflexivity].
  - auto.
  - reflexivity.
  - intros ? ? [= <- <-]. auto.
  - intros [=].
  - reflexivity.
Qed.

Lemma compile_op_spec op : op <> HC_END -> op_spec op (hc_compile_op g_hc_fp g_hc_alloc g_hc_mem cap op).
Proof.
  intros Hop. destruct op; cbn [hc_compile_op]; try congruence;
    lazymatch goal with
    | |- op_spec _ (c_binop _ _) => apply spec_binop; cbn; tauto
    | |- op_spec _ (c_compare _ _) => apply spec_compare; cbn; tauto
    | |- op_spec _ (c_load _ _) => apply spec_load; cbn; tauto
    | |- op_spec _ (c_store _ _) => apply spec_store; cbn; tauto
    | |- op_spec _ (c_funary _ _) => apply spec_funary; cbn; tauto
    | |- op_spec _ (c_fbin _ _) => apply spec_fbin; cbn; tauto
    | |- op_spec _ (c_fcompare _ _) => apply spec_fcompare; cbn; tauto
    | |- op_spec _ (c_call _ _) => apply spec_call; cbn; tauto
    | |- op_spec _ (c_jz _ _) => intros s s'; apply compile_jz; cbn; tauto
    | |- op_spec _ (c_imm64 _) => apply spec_imm64
    | |- op_spec _ (c_neg _) => apply spec_neg
    | |- op_spec _ (c_dup _) => apply spec_dup
    | |- op_spec _ (c_swap _) => apply spec_swap
    | |- op_spec _ c_drop => apply spec_drop
    | |- op_spec _ c_label => apply spec_label
    | |- op_spec _ (c_jmp _) => apply spec_jmp
    | |- op_spec _ (c_st_local _) => apply spec_st_local
    | |- op_spec _ (c_ld_local _) => apply spec_ld_local
    | |- op_spec _ (c_slot_addr _ _ _) => apply spec_slot_addr
    | |- op_spec _ (c_abs_addr _ _) => apply spec_abs_addr
    | |- op_spec _ (c_ld_slot _ _ _) => apply spec_ld_slot
    | |- op_spec _ (c_st_slot _ _ _) => apply spec_st_slot
    | |- op_spec _ (c_ld_abs _ _) => apply spec_ld_abs
    | |- op_spec _ (c_st_abs _ _) => apply spec_st_abs
    | |- op_spec _ (c_enter _ _ _) => apply spec_enter
    | |- op_spec _ (c_leave _ _ _) => apply spec_leave
    | |- op_spec _ (c_inarg _ _ _) => apply spec_inarg
    | |- op_spec _ (c_ret _ _ _) => apply spec_ret
    end.
Qed.
End Chunk.
