(* ===== verification/HcIrLayout.v ===== *)
(** * The layout of a compiled program

    From one instruction ([HcIrGen]) to the whole output of [hc_ir_compile]: the byte code parses,
    the output is the prologue, the code of every instruction with its branches resolved, and the
    epilogue, and every label sits where its instruction starts.  The loop needs no more turns
    than the byte code has bytes. *)

From S2P Require Import Prelude A64 A64Sem HcIr HcIrSem HcIrGen.

Section Layout.
Context (g_hc_fp g_hc_alloc g_hc_mem cap : Z).

Abbreviation gen := (gen g_hc_fp g_hc_alloc g_hc_mem) (only parsing).
Abbreviation chunks := (chunks g_hc_fp g_hc_alloc g_hc_mem) (only parsing).
Abbreviation compile_op := (hc_compile_op g_hc_fp g_hc_alloc g_hc_mem cap) (only parsing).
Abbreviation loop := (compile_loop g_hc_fp g_hc_alloc g_hc_mem cap) (only parsing).

(** Where instruction [j] starts, from position [k] on. *)
Definition position (prog : list hinsn) (sh : list (Z * bool)) (k j : nat) : nat :=
  (k + length (concat (take j (chunks prog sh))))%nat.

(** The words of [gs] at position [k] once the labels are known. *)
Fixpoint resolve (lab : Z -> Z) (k : nat) (gs : list gword) : list Z :=
  match gs with
  | [] => []
  | W w :: gs' => w :: resolve lab (S k) gs'
  | Br kind l :: gs' => branch_word kind (lab l - Z.of_nat k) :: resolve lab (S k) gs'
  end.

Definition labels_ok (lab : Z -> Z) (gs : list gword) : Prop :=
  Forall (fun g => match g with W _ => True | Br _ l => 0 <= lab l end) gs.

Lemma resolve_app lab g1 : forall k g2,
  resolve lab k (g1 ++ g2) = resolve lab k g1 ++ resolve lab (k + length g1) g2.
Proof.
  induction g1 as [|[w|kind l] g1 IH]; intros k g2; cbn [resolve app length].
  - rewrite Nat.add_0_r. reflexivity.
  - rewrite IH. do 3 f_equal. lia.
  - rewrite IH. do 3 f_equal. lia.
Qed.

Lemma length_resolve lab gs : forall k, length (resolve lab k gs) = length gs.
Proof. induction gs as [|[w|kind l] gs IH]; intros k; cbn; rewrite ?IH; reflexivity. Qed.

Lemma resolve_W lab ws : forall k, resolve lab k (map W ws) = ws.
Proof. induction ws as [|w ws IH]; intros k; cbn; rewrite ?IH; reflexivity. Qed.

(** ** Bytes read *)

Lemma parse_operands_length op bc i rest : parse_operands op bc = Some (i, rest) -> (length rest <= length bc)%nat.
Proof.
  unfold parse_operands. destruct (operands_of op).
  - intros [= _ <-]. lia.
  - destruct bc; [discriminate|]. intros [= _ <-]. cbn. lia.
  - destruct bc as [|? [|? bc]]; [discriminate..|]. intros [= _ <-]. cbn. lia.
  - destruct (_ <? 8); [discriminate|]. intros [= _ <-]. rewrite length_drop. lia.
Qed.

Lemma compile_op_reads op s s' : compile_op op s = inr (tt, s') -> op <> HC_END ->
  (length (j_bc s') <= length (j_bc s))%nat.
Proof.
  intros H Hop. apply compile_op_spec in H as (i & rest & Hp & _ & -> & _); [|exact Hop].
  eapply parse_operands_length, Hp.
Qed.

(** One turn of the loop. *)
Lemma loop_cons fuel b op s :
  hd_error (j_bc s) = Some b -> hc_opcode b = Some op -> op <> HC_END ->
  loop (S fuel) s = jbind (compile_op op) (fun _ => loop fuel) (set_bc (tail (j_bc s)) s).
Proof.
  intros Hb Ho Hop. cbn [compile_loop]. destruct (j_bc s) as [|c bc]; [discriminate|]. injection Hb as ->.
  rewrite Ho. destruct op; [contradiction|..]; reflexivity.
Qed.

(** Any fuel from the length of the byte code on gives the same result. *)
Lemma loop_fuel fuel : forall fuel' s, (length (j_bc s) <= fuel)%nat -> (fuel <= fuel')%nat -> loop fuel s = loop fuel' s.
Proof.
  induction fuel as [|fuel IH]; intros [|fuel'] s Hl Hf; try lia; cbn [compile_loop];
    destruct (j_bc s) as [|b bc] eqn:Eb; try reflexivity; cbn in Hl; try lia.
  destruct (hc_opcode b) as [op|]; [|reflexivity].
  assert (Hstep : op <> HC_END -> jbind (compile_op op) (fun _ => loop fuel) (set_bc bc s) =
    jbind (compile_op op) (fun _ => loop fuel') (set_bc bc s)).
  { intros Hop. unfold jbind. destruct (compile_op op (set_bc bc s)) as [e|[[] s1]] eqn:E; [reflexivity|].
    apply compile_op_reads in E; [|exact Hop]. cbn in E. apply IH; lia. }
  destruct op; try reflexivity; apply Hstep; discriminate.
Qed.

(** ** Labels *)

Fixpoint place_labels (prog : list hinsn) (sh : list (Z * bool)) (k : nat) (l : list Z) : list Z :=
  match prog, sh with
  | i :: prog', x :: sh' => place_labels prog' sh' (k + length (gen i (fst x) (snd x))) (labels_after i k l)
  | _, _ => l
  end.

Fixpoint labels_fresh (prog : list hinsn) (sh : list (Z * bool)) (k : nat) (l : list Z) : Prop :=
  match prog, sh with
  | i :: prog', x :: sh' =>
      label_fresh i l /\ labels_fresh prog' sh' (k + length (gen i (fst x) (snd x))) (labels_after i k l)
  | _, _ => True
  end.

Definition label_of (l : list Z) (id : Z) : Z := default (-1) (l !! Z.to_nat id).

Lemma labels_after_other i k l id :
  is_label id i = false -> 0 <= id -> 0 <= h_a i -> label_of (labels_after i k l) id = label_of l id.
Proof.
  unfold is_label, labels_after, label_of. intros H Hid Ha. destruct (bool_decide (h_op i = HC_LABEL)); [|reflexivity].
  cbn in H. rewrite list_lookup_insert_ne by lia. reflexivity.
Qed.

(** A label that is placed stays placed. *)
Lemma place_labels_keep prog : forall sh k l id,
  labels_fresh prog sh k l -> Forall (fun i => 0 <= h_a i) prog -> 0 <= id -> 0 <= label_of l id ->
  label_of (place_labels prog sh k l) id = label_of l id.
Proof.
  induction prog as [|i prog IH]; intros [|x sh] k l id Hf Hp Hid Hl; try reflexivity.
  cbn [place_labels labels_fresh] in *. destruct Hf as [Hi Hf]. inversion Hp as [|? ? Ha Hp']; subst.
  assert (He : label_of (labels_after i k l) id = label_of l id).
  { apply labels_after_other; [|exact Hid|exact Ha].
    unfold is_label. destruct (bool_decide (h_op i = HC_LABEL)) eqn:Eop; [|reflexivity].
    apply bool_decide_eq_true in Eop. destruct (Hi Eop) as [_ Hneg]. cbn.
    destruct (Z.eqb_spec (h_a i) id) as [<-|]; [|reflexivity]. unfold label_of in Hl. lia. }
  rewrite IH; [exact He|exact Hf|exact Hp'|exact Hid|]. rewrite He. exact Hl.
Qed.

Lemma label_pc_cons i prog id :
  label_pc (i :: prog) id = if is_label id i then Some 0%nat else S <$> label_pc prog id.
Proof.
  unfold label_pc. cbn [list_find]. destruct (is_label id i) eqn:E; case_decide; try congruence; try reflexivity.
  destruct (list_find _ prog) as [[]|]; reflexivity.
Qed.

Lemma place_labels_found prog : forall sh k l id j,
  labels_fresh prog sh k l -> Forall (fun i => 0 <= h_a i) prog -> 0 <= id ->
  length l = Z.to_nat HC_IR_MAX_LABELS -> (length prog <= length sh)%nat ->
  label_pc prog id = Some j -> label_of (place_labels prog sh k l) id = Z.of_nat (position prog sh k j).
Proof.
  induction prog as [|i prog IH]; intros [|x sh] k l id j Hf Hp Hid Hlen Hsh Hj;
    try discriminate; [cbn in Hsh; lia|].
  cbn [place_labels labels_fresh] in *. destruct Hf as [Hi Hf]. inversion Hp as [|? ? Ha Hp']; subst.
  rewrite label_pc_cons in Hj. destruct (is_label id i) eqn:El.
  - injection Hj as <-. unfold is_label in El. apply andb_true_iff in El as [El Eid].
    apply bool_decide_eq_true in El. apply Z.eqb_eq in Eid. subst id. destruct (Hi El) as [Hmax _].
    assert (Hnew : label_of (labels_after i k l) (h_a i) = Z.of_nat k).
    { unfold label_of, labels_after. rewrite bool_decide_eq_true_2 by exact El.
      rewrite list_lookup_insert_eq; [reflexivity|]. unfold HC_IR_MAX_LABELS in *. lia. }
    rewrite place_labels_keep; rewrite ?Hnew; try assumption; try lia.
    unfold position. cbn. f_equal. lia.
  - destruct (label_pc prog id) as [j'|] eqn:Ej; [|discriminate]. injection Hj as <-.
    rewrite (IH sh _ _ id j'); try assumption; [|unfold labels_after; case_if; rewrite ?length_insert; exact Hlen|cbn in Hsh; lia].
    unfold position, HcIrGen.chunks. cbn. rewrite length_app. f_equal. lia.
Qed.

(** A label the program does not have is not placed. *)
Lemma place_labels_absent prog : forall sh k l id, Forall (fun i => 0 <= h_a i) prog -> 0 <= id -> label_pc prog id = None ->
  label_of (place_labels prog sh k l) id = label_of l id.
Proof.
  induction prog as [|i prog IH]; intros [|x sh] k l id Hp Hid Hn; try reflexivity. apply List.Forall_cons_iff in Hp as [Ha Hp]. rewrite label_pc_cons in Hn.
  destruct (is_label id i) eqn:El; [discriminate|]. cbn [place_labels].
  destruct (label_pc prog id) eqn:Ep; [discriminate|]. rewrite IH by assumption. apply labels_after_other; assumption.
Qed.

(** Every jump of the program is a branch of its code. *)
Lemma jump_in_chunks i prog : forall sh, In i prog -> is_jump (h_op i) = true -> (length prog <= length sh)%nat ->
  exists kind, In (Br kind (h_a i)) (concat (chunks prog sh)).
Proof.
  induction prog as [|i' prog IH]; intros [|x sh] Hin Hj Hl; cbn in Hl; try lia; try contradiction.
  destruct Hin as [->|Hin]; cbn [HcIrGen.chunks zip_with concat].
  - destruct i as [op a b]. cbn [h_op h_a] in *. destruct op; try discriminate Hj; eexists; apply in_or_app; left; unfold HcIrGen.gen; apply in_or_app; right; left; reflexivity.
  - destruct (IH sh Hin Hj ltac:(lia)) as (kind & H). exists kind. apply in_or_app. right. exact H.
Qed.

(** ** The loop *)

Record compiled_prog (prog : list hinsn) (sh : list (Z * bool)) (s s' : jit) : Prop := {
  cl_code : exists ws, same_words (concat (chunks prog sh)) ws /\ j_code s' = j_code s ++ ws;
  cl_patch : j_patch s' = j_patch s ++ gen_patches (length (j_code s)) (concat (chunks prog sh));
  cl_shape : list.last sh = Some (j_sp s', j_framed s');
  cl_fresh : labels_fresh prog sh (length (j_code s)) (j_label s);
  cl_labels : j_label s' = place_labels prog sh (length (j_code s)) (j_label s) }.

Lemma shapes_cons i prog sp fr sh : shapes (i :: prog) sp fr = Some sh ->
  exists sp' fr' sh', effect i sp fr = Some (sp', fr') /\ shapes prog sp' fr' = Some sh' /\ sh = (sp, fr) :: sh'.
Proof.
  cbn [shapes]. destruct (effect i sp fr) as [[sp' fr']|]; [|discriminate].
  destruct (shapes prog sp' fr') as [sh'|] eqn:E; [|discriminate]. intros [= <-]. eauto 6.
Qed.

Lemma shapes_length prog : forall sp fr sh, shapes prog sp fr = Some sh -> length sh = S (length prog).
Proof.
  induction prog as [|i prog IH]; intros sp fr sh H; [injection H as <-; reflexivity|].
  apply shapes_cons in H as (sp' & fr' & sh' & _ & H & ->). cbn. erewrite IH by exact H. reflexivity.
Qed.

Lemma compiled_prog_cons i prog sp fr sh s s1 s' :
  (sp, fr) = (j_sp s, j_framed s) -> list.last sh <> None ->
  compiled g_hc_fp g_hc_alloc g_hc_mem cap i s s1 -> compiled_prog prog sh s1 s' ->
  compiled_prog (i :: prog) ((sp, fr) :: sh) s s'.
Proof.
  intros [= -> ->] Hlast [(w1 & H1 & C1) _ P1 _ F1 L1] [(w2 & H2 & C2) P2 S2 F2 L2].
  assert (Hlen : length (j_code s1) = (length (j_code s) + length (gen i (j_sp s) (j_framed s)))%nat)
    by (rewrite C1, length_app; apply same_words_length in H1; lia).
  split.
  - exists (w1 ++ w2). cbn. split; [apply same_words_app; assumption|]. rewrite C2, C1, app_assoc. reflexivity.
  - cbn. rewrite gen_patches_app, P2, P1, <- app_assoc, Hlen. reflexivity.
  - rewrite last_cons, S2. reflexivity.
  - cbn [labels_fresh fst snd]. split; [exact F1|]. rewrite <- Hlen, <- L1. exact F2.
  - cbn [place_labels fst snd]. rewrite <- Hlen, <- L1. exact L2.
Qed.

Lemma loop_spec fuel : forall s s', loop fuel s = inr (tt, s') ->
  (Z.of_nat (length (j_code s)) <= cap -> Z.of_nat (length (j_code s')) <= cap) /\
  exists prog, parse_loop fuel (j_bc s) = Some prog /\
    forall sh, shapes prog (j_sp s) (j_framed s) = Some sh -> compiled_prog prog sh s s'.
Proof.
  assert (Hnil : forall s s', j_code s' = j_code s -> j_sp s' = j_sp s -> j_framed s' = j_framed s ->
    j_label s' = j_label s -> j_patch s' = j_patch s ->
    forall sh, shapes [] (j_sp s) (j_framed s) = Some sh -> compiled_prog [] sh s s').
  { intros s s' Hc Hs Hf Hl Hp sh [= <-]. split; cbn; rewrite ?app_nil_r, ?Hs, ?Hf; auto.
    exists []. rewrite app_nil_r. split; [constructor|exact Hc]. }
  induction fuel as [|fuel IH]; intros s s' H; cbn [compile_loop parse_loop] in *;
    destruct (j_bc s) as [|b bc]; try discriminate H;
    try (injection H as <-; split; [auto|]; exists []; split; [reflexivity|]; apply Hnil; reflexivity).
  destruct (hc_opcode b) as [op|]; [|discriminate].
  destruct (decide (op = HC_END)) as [->|Hop].
  { injection H as <-. split; [auto|]. exists []. split; [reflexivity|]. apply Hnil; reflexivity. }
  assert (Hstep : jbind (compile_op op) (fun _ => loop fuel) (set_bc bc s) = inr (tt, s'))
    by (destruct op; first [contradiction | exact H]).
  apply jbind_inv in Hstep as ([] & s1 & H1 & H2).
  apply compile_op_spec in H1 as (i & rest & Hp & _ & Hr & Hc); [|exact Hop]. cbn in Hp.
  apply IH in H2 as (Hcap & prog & Hparse & Hprog). rewrite Hr in Hparse.
  split; [intros Hs; apply Hcap, (cp_cap _ _ _ _ _ _ _ Hc), Hs|].
  exists (i :: prog). split.
  { rewrite Hp, Hparse. destruct op; first [contradiction | reflexivity]. }
  intros sh Hsh. apply shapes_cons in Hsh as (sp' & fr' & sh' & He & Hsh & ->).
  destruct (cp_effect _ _ _ _ _ _ _ Hc _ _ He) as [<- <-].
  specialize (Hprog _ Hsh).
  assert (Hlast : list.last sh' <> None) by (rewrite (cl_shape _ _ _ _ Hprog); discriminate).
  destruct (compiled_prog_cons _ _ _ _ _ _ _ _ eq_refl Hlast Hc Hprog) as [C P L F Lb]. split; assumption.
Qed.

(** ** Patching *)

Lemma apply_patches_spec labels gs : forall pre ws post out,
  same_words gs ws -> apply_patches (gen_patches (length pre) gs) labels (pre ++ ws ++ post) = inr out ->
  out = pre ++ resolve (label_of labels) (length pre) gs ++ post /\ labels_ok (label_of labels) gs.
Proof.
  induction gs as [|[w|kind l] gs IH]; intros pre ws post out Hw H; inversion Hw as [|? y ? ws' Hy Hw']; subst.
  - injection H as <-. split; [reflexivity|constructor].
  - cbn [gen_patches] in H. specialize (IH (pre ++ [w]) ws' post out Hw').
    rewrite length_app, <- !app_assoc in IH. cbn [length app] in IH. rewrite Nat.add_1_r in IH.
    destruct (IH H) as [-> Hl]. split; [reflexivity|]. constructor; [exact I|exact Hl].
  - cbn [gen_patches apply_patches p_kind p_label p_site] in H. fold (label_of labels l) in H.
    destruct (Z.ltb_spec (label_of labels l) 0) as [|Hge]; [discriminate|].
    rewrite insert_app_r_alt in H by lia. rewrite Nat.sub_diag in H. cbn [app] in H.
    change (<[0%nat:=?x]> (?y :: ?l')) with (x :: l') in H.
    set (w := branch_word kind (label_of labels l - Z.of_nat (length pre))) in *.
    specialize (IH (pre ++ [w]) ws' post out Hw').
    rewrite length_app, <- !app_assoc in IH. cbn [length app] in IH. rewrite Nat.add_1_r in IH.
    destruct (IH H) as [-> Hl]. split; [reflexivity|]. constructor; [exact Hge|exact Hl].
Qed.

Lemma apply_patches_length ps labels : forall code out, apply_patches ps labels code = inr out -> length out = length code.
Proof.
  induction ps as [|p ps IH]; intros code out H; cbn [apply_patches] in H; [injection H as <-; reflexivity|].
  destruct (_ <? 0); [discriminate|]. rewrite (IH _ _ H). apply length_insert.
Qed.

(** ** The whole output *)

Definition closing_words (framed : bool) : list Z :=
  (if framed then leave_words g_hc_fp g_hc_alloc else []) ++ [a64_movz_x 0 0 0] ++ epilogue_words.

Record layout (prog : list hinsn) (sh : list (Z * bool)) (framed : bool) (lab : Z -> Z) (code : list Z) : Prop := {
  lay_code : code = prologue_words ++ resolve lab 3 (concat (chunks prog sh)) ++ closing_words framed;
  lay_label : forall id j, 0 <= id -> label_pc prog id = Some j -> lab id = Z.of_nat (position prog sh 3 j);
  lay_jump : forall i, In i prog -> is_jump (h_op i) = true -> label_pc prog (h_a i) <> None }.

(** The operands of a byte code are not negative. *)
Lemma le_bytes_nonneg l : Forall (Z.le 0) l -> 0 <= le_bytes l.
Proof. induction 1 as [|b l Hb _ IH]; cbn [le_bytes fold_right]; [lia|]. apply Z.lor_nonneg. split; [exact Hb | apply Z.shiftl_nonneg, IH]. Qed.

Lemma parse_nonneg fuel : forall bc prog, Forall (Z.le 0) bc -> parse_loop fuel bc = Some prog -> Forall (fun i => 0 <= h_a i) prog.
Proof.
  assert (Ho : forall op bc i rest, Forall (Z.le 0) bc -> parse_operands op bc = Some (i, rest) -> 0 <= h_a i /\ Forall (Z.le 0) rest).
  { intros op bc i rest Hb H. unfold parse_operands in H. destruct (operands_of op).
    - injection H as <- <-. cbn. auto with lia.
    - destruct bc as [|a bc]; [discriminate|]. injection H as <- <-. inversion Hb; auto.
    - destruct bc as [|a [|b bc]]; try discriminate. injection H as <- <-. inversion Hb as [|? ? ? Hb']; inversion Hb'; auto.
    - destruct (_ <? 8); [discriminate|]. injection H as <- <-. cbn [h_a]. split; [apply le_bytes_nonneg, Forall_take, Hb | apply Forall_drop, Hb]. }
  induction fuel as [|fuel IH]; intros [|b bc] prog Hb H; cbn [parse_loop] in H; try discriminate; try (injection H as <-; constructor).
  apply List.Forall_cons_iff in Hb as [_ Hb]. destruct (hc_opcode b) as [op|]; [|discriminate]. destruct (parse_operands op bc) as [[i rest]|] eqn:E.
  - destruct (Ho _ _ _ _ Hb E) as [Hi Hr]. destruct (parse_loop fuel rest) as [p|] eqn:Ep; destruct op; try discriminate; injection H as <-; constructor; eauto.
  - destruct op; discriminate.
Qed.

Lemma hc_ir_compile_layout bc code :
  hc_ir_compile g_hc_fp g_hc_alloc g_hc_mem cap bc = inr code ->
  Z.of_nat (length code) <= cap /\
  exists prog, hc_parse bc = Some prog /\
    forall sh, shapes prog 0 false = Some sh -> Forall (fun i => 0 <= h_a i) prog ->
      exists lab sp framed, list.last sh = Some (sp, framed) /\ layout prog sh framed lab code.
Proof.
  unfold hc_ir_compile. match goal with |- context [jbind ?m ?k ?s0] => destruct (jbind m k s0) as [e|[[] s]] eqn:H end;
    [discriminate|]. intros Hap.
  apply jbind_inv in H as ([] & s0 & H0 & H). apply block_inv in H0 as [-> Hc0].
  apply jbind_inv in H as ([] & s1 & H1 & H). apply jbind_inv in H as ([] & s2 & H2 & H).
  apply unframe_inv in H2. apply jbind_inv in H as ([] & s3 & H3 & H). apply EMIT_inv in H3 as [-> _].
  apply emit_all_inv in H as [-> Hc4]. cbn in Hc0. specialize (Hc4 ltac:(discriminate)).
  apply loop_spec in H1 as (_ & prog & Hparse & Hprog).
  split.
  { rewrite (apply_patches_length _ _ _ _ Hap). exact Hc4. }
  exists prog. split; [exact Hparse|]. intros sh Hsh Hops. specialize (Hprog sh Hsh).
  destruct Hprog as [(ws & Hws & Hcode) Hpatch Hshape Hfresh Hlabels].
  cbn [j_code j_patch j_label set_code app length] in *. subst s2. cbn [j_code j_patch j_label set_code j_framed] in Hap.
  rewrite Hpatch, Hcode, <- !app_assoc in Hap.
  apply (apply_patches_spec (j_label s1) _ prologue_words ws _ _ Hws) in Hap as [-> Hok].
  pose proof (shapes_length _ _ _ _ Hsh) as Hlen.
  exists (label_of (j_label s1)), (j_sp s1), (j_framed s1). split; [exact Hshape|]. split; [reflexivity| |].
  - intros id j Hid Hj. rewrite Hlabels. apply place_labels_found; try assumption; [reflexivity|]. lia.
  - intros i Hin Hj Hn. destruct (jump_in_chunks i prog sh Hin Hj ltac:(lia)) as (kind & Hbr). unfold labels_ok in Hok. rewrite List.Forall_forall in Hok. pose proof (proj1 (List.Forall_forall _ _) Hops i Hin) as Hi.
    specialize (Hok _ Hbr). cbn beta iota in Hok, Hi. rewrite Hlabels, place_labels_absent in Hok by assumption.
    cbn [set_code j_label] in Hok. unfold label_of in Hok. destruct (_ !! Z.to_nat (h_a i)) as [x|] eqn:Ex in Hok; cbn in Hok; [|lia].
    apply list_elem_of_lookup_2, list_elem_of_In, repeat_spec in Ex. lia.
Qed.
End Layout.
