(* ===== verification/HcIrRun.v ===== *)
(** * Running blocks of compiled words

    [run ws s] is the effect of words without branches.  One equation per encoder gives its
    effect on a machine state, and a lemma per block of the compiler ([a64_emit_imm64], slot
    addresses, frames, argument moves, saves and restores) gives the block's. *)

From stdpp Require Import relations.
From S2P Require Import Prelude A64 A64Sem HcIr HcIrSem HcIrGen HcIrLayout.
#[local] Open Scope Z_scope.

Section Run.
Context `{Fpu}.

Definition straight (i : instr) : bool :=
  match i with Ret _ | Blr _ | B _ | Bl _ | Cbz _ _ | Cbnz _ _ => false | _ => true end.

Definition wexec (w : Z) (s : mstate) : mstate := match decode w with Some i => exec i s | None => s end.
Definition run (ws : list Z) (s : mstate) : mstate := fold_left (fun s w => wexec w s) ws s.
Definition plain (w : Z) : Prop := exists i, decode w = Some i /\ straight i = true.

Lemma run_cons w ws s : run (w :: ws) s = run ws (wexec w s).
Proof. reflexivity. Qed.
Lemma run_app w1 w2 s : run (w1 ++ w2) s = run w2 (run w1 s).
Proof. apply fold_left_app. Qed.

Lemma wexec_pc w s : plain w -> m_pc (wexec w s) = u64 (m_pc s + 4).
Proof.
  intros (i & Hd & Hs). unfold wexec. rewrite Hd.
  destruct i; try discriminate; cbn [exec]; unfold next, base_set, x_set, flags_set, mem_set, d_set;
    repeat case_if; reflexivity.
Qed.

(** ** From a block to steps of the machine *)

Section Steps.
Context (code : list Z) (base : Z) (host : mstate -> mstate).
Context (Hbase : 0 <= base) (Htop : base + 4 * Z.of_nat (length code) < 2 ^ 64).

Definition code_at (k : nat) (ws : list Z) : Prop := exists pre post, code = pre ++ ws ++ post /\ length pre = k.
Definition steps : mstate -> mstate -> Prop := rtc (mstep code base host).
Definition addr (k : nat) : Z := base + 4 * Z.of_nat k.

Lemma code_at_app k w1 w2 : code_at k (w1 ++ w2) <-> code_at k w1 /\ code_at (k + length w1) w2.
Proof using.
  split.
  - intros (pre & post & E & <-). split.
    + exists pre, (w2 ++ post). rewrite E, <- app_assoc. auto.
    + exists (pre ++ w1), post. rewrite E, length_app, <- !app_assoc. auto.
  - intros [(pre & post & E1 & <-) (pre' & post' & E2 & Hlen)].
    exists pre, post'. split; [|reflexivity].
    assert (E : pre' = pre ++ w1).
    { transitivity (take (length (pre ++ w1)) code).
      - rewrite length_app, <- Hlen, E2, take_app_length. reflexivity.
      - rewrite E1, app_assoc, take_app_length. reflexivity. }
    rewrite E2, E, <- !app_assoc. reflexivity.
Qed.

Lemma code_at_cons k w ws : code_at k (w :: ws) -> code !! k = Some w /\ code_at (S k) ws.
Proof using.
  intros Hc. apply (code_at_app k [w] ws) in Hc as [(pre & post & E & <-) Hc]. cbn in Hc. rewrite Nat.add_1_r in Hc.
  split; [|exact Hc]. rewrite E. apply list_lookup_middle. reflexivity.
Qed.

Lemma fetch_at k w s : m_pc s = addr k -> code !! k = Some w -> fetch code base (m_pc s) = Some w.
Proof using.
  intros -> Hk. unfold fetch, addr. replace (base + 4 * Z.of_nat k - base) with (Z.of_nat k * 4) by lia.
  rewrite Z.mod_mul, Z.div_mul, Nat2Z.id by lia. destruct (Z.leb_spec base (base + 4 * Z.of_nat k)); [|lia].
  exact Hk.
Qed.

Lemma addr_next k : (k < length code)%nat -> u64 (addr k + 4) = addr (S k).
Proof using Hbase Htop. intros Hk. unfold addr in *. change (2 ^ 64) with 18446744073709551616 in *. rewrite u64_id by lia. lia. Qed.

Lemma run_steps ws : forall k s, code_at k ws -> Forall plain ws -> m_pc s = addr k ->
  steps s (run ws s) /\ m_pc (run ws s) = addr (k + length ws).
Proof using Hbase Htop.
  induction ws as [|w ws IH]; intros k s Hc Hp Hpc.
  - split; [apply rtc_refl|]. cbn. rewrite Nat.add_0_r. exact Hpc.
  - apply code_at_cons in Hc as [Hk Hc]. inversion Hp as [|? ? Hw Hp']; subst.
    assert (Hpc' : m_pc (wexec w s) = addr (S k)).
    { rewrite wexec_pc, Hpc by exact Hw. apply addr_next. apply lookup_lt_Some in Hk. exact Hk. }
    destruct (IH (S k) (wexec w s) Hc Hp' Hpc') as [Hs Hend]. rewrite run_cons. split.
    + eapply rtc_l; [|exact Hs]. destruct Hw as (i & Hd & _). unfold wexec. rewrite Hd.
      eapply mstep_exec; [|exact Hd]. eapply fetch_at; eassumption.
    + rewrite Hend. cbn [length]. f_equal. lia.
Qed.
End Steps.

(** ** The effect of each encoder *)

(** The next instruction's state, with one register changed. *)
Definition put (r v : Z) (s : mstate) : mstate :=
  mk_mstate (upd_fun (m_x s) r v) (m_sp s) (m_d s) (m_flags s) (m_mem s) (u64 (m_pc s + 4)).
Definition put_mem (m : memory) (s : mstate) : mstate :=
  mk_mstate (m_x s) (m_sp s) (m_d s) (m_flags s) m (u64 (m_pc s + 4)).
Definition put_d (r v : Z) (s : mstate) : mstate :=
  mk_mstate (m_x s) (m_sp s) (upd_fun (m_d s) r v) (m_flags s) (m_mem s) (u64 (m_pc s + 4)).
Definition put_flags (f : flags) (s : mstate) : mstate :=
  mk_mstate (m_x s) (m_sp s) (m_d s) f (m_mem s) (u64 (m_pc s + 4)).

Lemma put_same r v s : m_x (put r v s) r = v.
Proof. cbn. unfold upd_fun. rewrite Z.eqb_refl. reflexivity. Qed.
Lemma put_other r v s q : q <> r -> m_x (put r v s) q = m_x s q.
Proof. intros. cbn. unfold upd_fun. destruct (Z.eqb_spec q r); [contradiction|reflexivity]. Qed.
Lemma put_x_d r v s : m_x (put_d r v s) = m_x s.
Proof. reflexivity. Qed.

Definition is_reg (r : Z) : Prop := 0 <= r < 31.

Lemma reg5_id r : is_reg r -> reg5 r = r.
Proof. unfold is_reg, reg5. intros. change 31 with (2 ^ 5 - 1). rewrite land_ones_mod by lia. apply Z.mod_small. lia. Qed.
Lemma reg5_31 : reg5 31 = 31.
Proof. reflexivity. Qed.

Lemma next_x_set r v s : is_reg r -> next (x_set r v s) = put r (u64 v) s.
Proof. unfold is_reg, x_set. intros. destruct (Z.eqb_spec r 31); [lia|]. reflexivity. Qed.
Lemma next_base_set r v s : is_reg r -> next (base_set r v s) = put r (u64 v) s.
Proof. unfold is_reg, base_set. intros. destruct (Z.eqb_spec r 31); [lia|]. apply next_x_set. assumption. Qed.
Lemma x_get_reg r s : is_reg r -> x_get s r = m_x s r.
Proof. unfold is_reg, x_get. intros. destruct (Z.eqb_spec r 31); [lia|reflexivity]. Qed.
Lemma base_get_reg r s : is_reg r -> base_get s r = m_x s r.
Proof. unfold is_reg, base_get. intros. destruct (Z.eqb_spec r 31); [lia|reflexivity]. Qed.
Lemma x_get_31 s : x_get s 31 = 0.
Proof. reflexivity. Qed.
Lemma u64_u64 v : u64 (u64 v) = u64 v.
Proof. apply u64_id, u64_range. Qed.

Ltac regs :=
  rewrite ?reg5_31, ?x_get_31;
  repeat match goal with
  | H : is_reg ?r |- _ => progress rewrite ?(reg5_id _ H), ?(fun s => x_get_reg _ s H), ?(fun s => base_get_reg _ s H),
      ?(fun v s => next_x_set _ v s H), ?(fun v s => next_base_set _ v s H)
  end; rewrite ?u64_u64.
Ltac instr := intros; unfold wexec; autorewrite with a64; cbn [exec]; regs.

Section Encoders.
Context (rd rn rm : Z) (s : mstate) (Hd : is_reg rd) (Hn : is_reg rn) (Hm : is_reg rm).

Lemma w_mov : wexec (a64_mov_x rd rn) s = put rd (u64 (m_x s rn)) s.
Proof using Hd Hn. instr. reflexivity. Qed.
Lemma w_movz imm : wexec (a64_movz_x rd (u16 imm) 0) s = put rd (u16 imm) s.
Proof using Hd.
  instr. f_equal. change (16 * _) with 0. rewrite Z.shiftl_0_r. pose proof (u16_range imm). apply u64_id. lia.
Qed.
Lemma w_binop op : In op binops -> op <> HC_MOD -> is_u 64 (m_x s rd) ->
  wexec (List.hd 0 (binop_words op rd rm)) s = put rd (u64 (binop op (m_x s rd) (m_x s rm))) s.
Proof using Hd Hm.
  intros Hop Hmod Hr. cbn [binops In] in Hop. clear Hn.
  repeat (destruct Hop as [<-|Hop]; [first [contradiction | cbn [binop_words List.hd]; instr]|]); try contradiction;
    cbn [binop logic dp2]; rewrite ?Z.shiftl_0_r, ?u64_u64; try reflexivity.
Qed.
Lemma w_neg : wexec (a64_neg_x rd rm) s = put rd (u64 (- m_x s rm)) s.
Proof using Hd Hm. instr. rewrite Z.shiftl_0_r. reflexivity. Qed.
Lemma w_sdiv : wexec (a64_sdiv_x rd rn rm) s = put rd (u64 (binop HC_DIV (m_x s rn) (m_x s rm))) s.
Proof using Hd Hn Hm. instr. reflexivity. Qed.
Lemma w_msub ra : is_reg ra ->
  wexec (a64_msub_x rd rn rm ra) s = put rd (u64 (m_x s ra - m_x s rn * m_x s rm)) s.
Proof using Hd Hn Hm. instr. reflexivity. Qed.
Lemma w_add_lsl k : 0 <= k < 64 ->
  wexec (a64_add_x_lsl rd rn rm k) s = put rd (u64 (m_x s rn + Z.shiftl (m_x s rm) k)) s.
Proof using Hd Hn Hm.
  instr. change 63 with (2 ^ 6 - 1). rewrite land_ones_mod, Z.mod_small by lia. reflexivity.
Qed.
Lemma w_add_imm k : 0 <= k < 4096 -> wexec (a64_add_x_imm rd rn k) s = put rd (u64 (m_x s rn + k)) s.
Proof using Hd Hn.
  instr. change 4095 with (2 ^ 12 - 1). rewrite land_ones_mod, Z.mod_small by lia. reflexivity.
Qed.
Lemma w_cmp : wexec (a64_cmp_x rn rm) s = put_flags (subs_flags (m_x s rn) (u64 (m_x s rm))) s.
Proof using Hn Hm. instr. rewrite Z.shiftl_0_r. reflexivity. Qed.

Lemma w_load op : In op loads ->
  wexec (load_word op rd) s = put rd (u64 (load (access_size op) (m_mem s) (m_x s rd))) s.
Proof using Hd.
  intros Hop. cbn [loads In] in Hop. clear Hn Hm.
  repeat (destruct Hop as [<-|Hop]; [cbn [load_word]; instr|]); try contradiction;
    rewrite Z.mul_0_r, Z.add_0_r; reflexivity.
Qed.
Lemma w_ldr : wexec (a64_ldr_x rd rn) s = put rd (u64 (load 8 (m_mem s) (m_x s rn))) s.
Proof using Hd Hn. instr. rewrite Z.mul_0_r, Z.add_0_r. reflexivity. Qed.
Lemma w_store op : In op stores ->
  wexec (store_word op rm rn) s = put_mem (store (access_size op) (m_mem s) (m_x s rn) (m_x s rm)) s.
Proof using Hn Hm.
  intros Hop. cbn [stores In] in Hop. clear Hd.
  repeat (destruct Hop as [<-|Hop]; [cbn [store_word]; instr|]); try contradiction;
    rewrite Z.mul_0_r, Z.add_0_r; reflexivity.
Qed.
Lemma w_str : wexec (a64_str_x rm rn) s = put_mem (store 8 (m_mem s) (m_x s rn) (m_x s rm)) s.
Proof using Hn Hm. apply (w_store HC_STORE). cbn. auto. Qed.
End Encoders.

(** *** Flags and floating point *)

Definition cset_cond (op : hc_op) : Z :=
  match op with
  | HC_EQ | HC_FEQ => 0 | HC_NE | HC_FNE => 1 | HC_LT | HC_FLT => 11 | HC_LE | HC_FLE => 13
  | HC_GT | HC_FGT => 12 | _ => 10
  end.

Lemma put_bool (b : bool) : u64 (if b then 0 else u64 (0 + 1)) = Z.b2z (negb b).
Proof. destruct b; reflexivity. Qed.

Lemma w_cset op rd s : is_reg rd -> In op compares ->
  wexec (cset_word op rd) s = put rd (Z.b2z (holds (cset_cond op) (m_flags s))) s.
Proof.
  intros Hd Hop. cbn [compares In] in Hop.
  repeat (destruct Hop as [<-|Hop];
    [cbn [cset_word cset_cond]; instr; rewrite put_bool; cbn [holds]; rewrite ?negb_involutive; reflexivity|]).
  contradiction.
Qed.
Lemma w_fcset op rd s : is_reg rd -> In op fcompares ->
  wexec (fcset_word op rd) s = put rd (Z.b2z (holds (cset_cond op) (m_flags s))) s.
Proof.
  intros Hd Hop. cbn [fcompares In] in Hop.
  repeat (destruct Hop as [<-|Hop];
    [cbn [fcset_word cset_cond]; instr; rewrite put_bool; cbn [holds]; rewrite ?negb_involutive; reflexivity|]).
  contradiction.
Qed.

Lemma s64_val x : is_u 64 x -> s64 x = if x <? 2 ^ 63 then x else x - 2 ^ 64.
Proof. intros. unfold s64, signed. rewrite wrap_id by assumption. reflexivity. Qed.

Lemma testbit_63 x : is_u 64 x -> Z.testbit x 63 = (2 ^ 63 <=? x).
Proof.
  intros Hx. unfold is_u in Hx. rewrite Z.testbit_eqb by lia. change (2 ^ 64) with (2 * 2 ^ 63) in Hx.
  set (h := 2 ^ 63) in *. assert (0 < h) by reflexivity. clearbody h.
  destruct (Z.leb_spec h x).
  - replace (x / h) with 1; [reflexivity|]. apply (Z.div_unique x h 1 (x - h)); lia.
  - rewrite Z.div_small by lia. reflexivity.
Qed.

Lemma u64_sub a b : is_u 64 a -> is_u 64 b -> u64 (a - b) = if b <=? a then a - b else a - b + 2 ^ 64.
Proof.
  unfold is_u, u64, wrap. intros Ha Hb. destruct (Z.leb_spec b a); [apply Z.mod_small; lia|].
  symmetry. apply (Z.mod_unique _ _ (-1)); lia.
Qed.

(** The flags of [cmp] answer every signed comparison. *)
Lemma holds_compare op a b : In op compares -> is_u 64 a -> is_u 64 b ->
  Z.b2z (holds (cset_cond op) (subs_flags a b)) = compare op a b.
Proof.
  intros Hop Ha Hb. assert (Hr : is_u 64 (u64 (a - b))) by (apply (wrap_range 64); lia).
  unfold compare. f_equal. rewrite !s64_val by assumption.
  assert (Heq : (u64 (a - b) =? 0) = (a =? b)).
  { rewrite u64_sub by assumption. unfold is_u in *. change (2 ^ 64) with 18446744073709551616 in *.
    destruct (Z.leb_spec b a), (Z.eqb_spec a b); lia. }
  assert (Hge : Bool.eqb (fl_n (subs_flags a b)) (fl_v (subs_flags a b)) =
    ((if b <? 2 ^ 63 then b else b - 2 ^ 64) <=? (if a <? 2 ^ 63 then a else a - 2 ^ 64))).
  { cbn [subs_flags fl_n fl_v]. rewrite testbit_63, !s64_val, u64_sub by assumption. clear Hr Heq Hop.
    unfold is_u in *. change (2 ^ 64) with 18446744073709551616 in *. change (2 ^ 63) with 9223372036854775808.
    destruct (Z.leb_spec b a), (Z.ltb_spec a 9223372036854775808), (Z.ltb_spec b 9223372036854775808);
    repeat match goal with |- context [?x <? ?y] => destruct (Z.ltb_spec x y) end;
    repeat match goal with |- context [?x <=? ?y] => destruct (Z.leb_spec x y) end;
    repeat match goal with |- context [?x =? ?y] => destruct (Z.eqb_spec x y) end; cbn; try reflexivity; lia. }
  set (sa := if a <? 2 ^ 63 then a else a - 2 ^ 64) in *. set (sb := if b <? 2 ^ 63 then b else b - 2 ^ 64) in *.
  assert (Hs : (a =? b) = (sa =? sb)).
  { unfold is_u, sa, sb in *. change (2 ^ 64) with 18446744073709551616 in *.
    destruct (Z.ltb_spec a (2 ^ 63)), (Z.ltb_spec b (2 ^ 63));
      repeat match goal with |- context [?x =? ?y] => destruct (Z.eqb_spec x y) end; try reflexivity; lia. }
  clearbody sa sb. cbn [compares In] in Hop.
  repeat (destruct Hop as [<-|Hop]; [cbn [cset_cond holds]; rewrite ?Hge; cbn [subs_flags fl_z]; rewrite ?Heq, ?Hs;
    destruct (Z.eqb_spec sa sb), (Z.leb_spec sb sa); cbn;
    repeat match goal with |- context [?x <? ?y] => destruct (Z.ltb_spec x y) end;
    repeat match goal with |- context [?x <=? ?y] => destruct (Z.leb_spec x y) end; try reflexivity; lia|]).
  contradiction.
Qed.

Lemma holds_fcompare op a b v : In op fcompares -> fcompare op a b = Some v ->
  Z.b2z (holds (cset_cond op) (fcmp_flags (f_cmp a b))) = v.
Proof.
  intros Hop. cbn [fcompares In] in Hop.
  repeat (destruct Hop as [<-|Hop];
    [unfold fcompare; destruct (f_cmp a b) as [[]|]; intros [= <-]; reflexivity|]).
  contradiction.
Qed.

Section Floats.
Context (r : Z) (s : mstate) (Hr : is_reg r).

Lemma w_fmov_d k : (k = 0 \/ k = 1) -> wexec (a64_fmov_d_x k r) s = put_d k (u64 (m_x s r)) s.
Proof using Hr. intros [-> | ->]; instr; reflexivity. Qed.
Lemma w_fmov_x : wexec (a64_fmov_x_d r 0) s = put r (u64 (m_d s 0)) s.
Proof using Hr. instr; reflexivity. Qed.
Lemma w_scvtf : wexec (a64_scvtf_d_x 0 r) s = put_d 0 (u64 (f_scvtf (m_x s r))) s.
Proof using Hr. instr; reflexivity. Qed.
Lemma w_fcvtzs : wexec (a64_fcvtzs_x_d r 0) s = put r (u64 (f_fcvtzs (m_d s 0))) s.
Proof using Hr. instr; reflexivity. Qed.
Lemma w_fneg : wexec (a64_fneg_d 0 0) s = put_d 0 (u64 (f_neg (m_d s 0))) s.
Proof using. instr; reflexivity. Qed.
Lemma w_fcmp : wexec (a64_fcmp_d 0 1) s = put_flags (fcmp_flags (f_cmp (m_d s 0) (m_d s 1))) s.
Proof using. instr; reflexivity. Qed.
Lemma w_fbin op : In op fbins -> wexec (fbin_word op) s = put_d 0 (u64 (fbin op (m_d s 0) (m_d s 1))) s.
Proof using.
  intros Hop. cbn [fbins In] in Hop.
  repeat (destruct Hop as [<-|Hop]; [cbn [fbin_word]; instr; reflexivity|]). contradiction.
Qed.
End Floats.

(** *** Pairs on the stack *)

Definition push_pair (a b : Z) (s : mstate) : mstate :=
  mk_mstate (m_x s) (m_sp s - 16) (m_d s) (m_flags s)
    (store 8 (store 8 (m_mem s) (m_sp s - 16) a) (m_sp s - 8) b) (u64 (m_pc s + 4)).

Lemma w_stp ra rb s : is_reg ra -> (is_reg rb \/ rb = 31) -> 16 <= m_sp s < 2 ^ 64 ->
  wexec (a64_stp_pre ra rb 31 (-16)) s = push_pair (m_x s ra) (x_get s rb) s.
Proof.
  intros Ha Hb Hsp. unfold wexec. rewrite dec_stp by lia. cbn [exec]. regs.
  replace (reg5 rb) with rb by (destruct Hb as [Hb | ->]; [symmetry; apply reg5_id, Hb|reflexivity]).
  cbn [base_get]. change (2 ^ 64) with 18446744073709551616 in *.
  change (base_get s 31) with (m_sp s). change (8 * (-16 / 8)) with (-16). rewrite u64_id by lia.
  unfold push_pair. replace (m_sp s - 8) with (m_sp s + -16 + 8) by lia. reflexivity.
Qed.

Lemma w_ldp ra rb s : is_reg ra -> (is_reg rb \/ rb = 31) -> 0 <= m_sp s -> m_sp s + 16 < 2 ^ 64 ->
  forall q, m_x (wexec (a64_ldp_post ra rb 31 16) s) q =
    if q =? rb then (if rb =? 31 then m_x s q else load 8 (m_mem s) (m_sp s + 8))
    else if q =? ra then load 8 (m_mem s) (m_sp s) else m_x s q.
Proof.
  intros Ha Hb Hlo Hhi q. unfold wexec. rewrite dec_ldp by lia. cbn [exec]. regs.
  replace (reg5 rb) with rb by (destruct Hb as [Hb | ->]; [symmetry; apply reg5_id, Hb|reflexivity]).
  change (base_get s 31) with (m_sp s).
  assert (E : forall a, u64 (load 8 (m_mem s) a) = load 8 (m_mem s) a) by (intros a; apply (u64_id _ (load_range 8 _ _))).
  unfold is_reg in *. unfold x_set. rewrite !E. generalize (load 8 (m_mem s)). intros ld.
  destruct (Z.eqb_spec ra 31); [lia|].
  destruct (Z.eqb_spec rb 31); cbn; unfold upd_fun; destruct (Z.eqb_spec q rb), (Z.eqb_spec q ra); try reflexivity; lia.
Qed.
Lemma w_ldp_rest ra rb s : 0 <= m_sp s -> m_sp s + 16 < 2 ^ 64 ->
  m_sp (wexec (a64_ldp_post ra rb 31 16) s) = m_sp s + 16 /\ m_mem (wexec (a64_ldp_post ra rb 31 16) s) = m_mem s.
Proof.
  intros Hlo Hhi. change (2 ^ 64) with 18446744073709551616 in *. unfold wexec. rewrite dec_ldp by lia. cbn [exec]. regs.
  change (base_get s 31) with (m_sp s). unfold x_set. split; repeat case_if; cbn; try reflexivity; apply u64_id; lia.
Qed.
End Run.

Ltac plain_tac :=
  lazymatch goal with |- plain _ => eexists; split; [autorewrite with a64; reflexivity | reflexivity] end.
