(* ===== verification/HcIrBlocks.v ===== *)
(** * The blocks the compiler writes, and what they do

    Every lemma says which registers a block changes, to what, and what it does to the memory
    and the stack pointer. *)

From S2P Require Import Prelude A64 A64Sem HcIr HcIrSem HcIrGen HcIrLayout HcIrRun.

(** ** Words without branches *)

Create HintDb plain.

Lemma plain_stp ra rb rn : plain (a64_stp_pre ra rb rn (-16)).
Proof. eexists. split; [apply dec_stp; lia|reflexivity]. Qed.
Lemma plain_ldp ra rb rn : plain (a64_ldp_post ra rb rn 16).
Proof. eexists. split; [apply dec_ldp; lia|reflexivity]. Qed.
Lemma plain_imm64 rd v : Forall plain (a64_emit_imm64 rd v).
Proof. unfold a64_emit_imm64. repeat constructor; plain_tac. Qed.
Lemma plain_map {A} (f : A -> Z) l : (forall a, plain (f a)) -> Forall plain (map f l).
Proof. intros Hf. induction l; constructor; auto. Qed.
Lemma plain_app w1 w2 : Forall plain w1 -> Forall plain w2 -> Forall plain (w1 ++ w2).
Proof. intros. apply Forall_app. auto. Qed.
Lemma plain_if (b : bool) w1 w2 : Forall plain w1 -> Forall plain w2 -> Forall plain (if b then w1 else w2).
Proof. destruct b; auto. Qed.
Lemma plain_mov rd rn : plain (a64_mov_x rd rn).
Proof. plain_tac. Qed.
#[export] Hint Resolve plain_stp plain_ldp plain_imm64 plain_map plain_app plain_if plain_mov : plain.
#[export] Hint Resolve Forall_nil_2 Forall_cons_2 : plain.
#[export] Hint Extern 2 (plain _) => plain_tac : plain.

Definition branches (op : hc_op) : bool :=
  match op with
  | HC_CALL0 | HC_CALL1 | HC_CALL2 | HC_CALL3 | HC_CALL4 | HC_CALL5 | HC_CALL6 | HC_CALL7 | HC_RET => true
  | _ => false
  end.

Lemma plain_slot_addr g1 g2 rd slot : Forall plain (slot_addr_words g1 g2 rd slot).
Proof. unfold slot_addr_words. auto 12 with plain. Qed.
Lemma plain_enter g1 g2 n : Forall plain (enter_words g1 g2 n).
Proof. unfold enter_words. auto 12 with plain. Qed.
Lemma plain_leave g1 g2 : Forall plain (leave_words g1 g2).
Proof. unfold leave_words. auto 12 with plain. Qed.
#[export] Hint Resolve plain_slot_addr plain_enter plain_leave : plain.

Lemma plain_gen g1 g2 g3 i sp fr : branches (h_op i) = false -> Forall plain (gen_words g1 g2 g3 i sp fr).
Proof.
  destruct i as [op a b]. unfold gen_words. destruct op; try discriminate; intros _;
    cbn [h_op h_a h_b binop_words cset_word load_word store_word funary_words fbin_word fcset_word]; auto 12 with plain.
Qed.

Section Blocks.
Context `{Fpu}.

(** [s'] differs from [s] in the registers [rs] at most: not in memory, nor in SP. *)
Record only (rs : list Z) (s s' : mstate) : Prop := {
  only_x : forall r, ~ In r rs -> m_x s' r = m_x s r;
  only_sp : m_sp s' = m_sp s;
  only_mem : m_mem s' = m_mem s }.

Lemma only_refl rs s : only rs s s.
Proof. split; auto. Qed.
Lemma only_trans rs s s1 s2 : only rs s s1 -> only rs s1 s2 -> only rs s s2.
Proof.
  intros [X1 S1 M1] [X2 S2 M2]. split; [|congruence..]. intros r Hr. rewrite X2, X1 by assumption. reflexivity.
Qed.
Lemma only_more rs rs' s s' : (forall r, In r rs -> In r rs') -> only rs s s' -> only rs' s s'.
Proof. intros Hi [X S1 M]. split; auto. Qed.
Lemma only_put r v s rs : In r rs -> only rs s (put r v s).
Proof. intros Hr. split; [|reflexivity..]. intros q Hq. apply put_other. intros ->. auto. Qed.
Lemma only_put_d k v s rs : only rs s (put_d k v s).
Proof. split; reflexivity. Qed.
Lemma only_put_flags f s rs : only rs s (put_flags f s).
Proof. split; reflexivity. Qed.
Lemma only_after rs s s1 s2 : only rs s1 s2 -> only rs s s1 -> only rs s s2.
Proof. intros A B. eapply only_trans; eassumption. Qed.

Ltac onlys :=
  repeat first [apply only_refl | apply only_put; cbn; tauto | apply only_put_d | apply only_put_flags
               | eapply only_after; [apply only_put; cbn; tauto|] | eapply only_after; [apply only_put_d|]
               | eapply only_after; [apply only_put_flags|]].
Ltac xs := repeat first [rewrite put_same | rewrite put_other by lia | rewrite put_x_d].

Lemma is_u64_u64 v : is_u 64 (u64 v).
Proof. apply (wrap_range 64). lia. Qed.
Lemma load_u64 n m a : (n <= 8)%nat -> is_u 64 (load n m a).
Proof.
  intros Hn. pose proof (load_range n m a). unfold is_u.
  assert (256 ^ Z.of_nat n <= 256 ^ 8) by (apply Z.pow_le_mono_r; lia). change (2 ^ 64) with (256 ^ 8). lia.
Qed.
Lemma u64_load n m a : (n <= 8)%nat -> u64 (load n m a) = load n m a.
Proof. intros Hn. apply (wrap_id 64), load_u64, Hn. Qed.

Lemma run_nil s : run [] s = s.
Proof. reflexivity. Qed.
Lemma run_one w s : run [w] s = wexec w s.
Proof. reflexivity. Qed.

(** ** Constants *)

Definition insert16 (x v k : Z) : Z := Z.lor (Z.ldiff x (Z.shiftl 65535 k)) (Z.shiftl (u16 (Z.shiftr v k)) k).

Lemma insert16_bits x v k i : 0 <= k -> 0 <= i ->
  Z.testbit (insert16 x v k) i = if (k <=? i) && (i <? k + 16) then Z.testbit v i else Z.testbit x i.
Proof.
  intros Hk Hi. unfold insert16, u16, wrap. rewrite Z.lor_spec, Z.ldiff_spec, !Z.shiftl_spec by lia.
  change 65535 with (Z.ones 16).
  destruct (Z.leb_spec k i) as [Hki|Hki]; cbn [andb].
  - rewrite Z.testbit_ones by lia. destruct (Z.ltb_spec i (k + 16)).
    + destruct (Z.leb_spec 0 (i - k)), (Z.ltb_spec (i - k) 16); try lia. cbn. rewrite andb_false_r.
      rewrite Z.mod_pow2_bits_low, Z.shiftr_spec by lia. cbn. f_equal. lia.
    + destruct (Z.leb_spec 0 (i - k)), (Z.ltb_spec (i - k) 16); try lia. cbn. rewrite andb_true_r.
      rewrite Z.mod_pow2_bits_high by lia. apply orb_false_r.
  - rewrite !(Z.testbit_neg_r _ (i - k)) by lia. cbn. rewrite andb_true_r, orb_false_r. reflexivity.
Qed.

Lemma insert16_nonneg x v k : 0 <= x -> 0 <= insert16 x v k.
Proof.
  intros Hx. unfold insert16. apply Z.lor_nonneg. split; [apply Z.ldiff_nonneg; lia|].
  apply Z.shiftl_nonneg. unfold u16. apply u16_range.
Qed.

Lemma insert16_u64 x v k : is_u 64 x -> 0 <= k <= 48 -> is_u 64 (insert16 x v k).
Proof.
  intros Hx Hk. apply is_u_of_bits; [lia|apply insert16_nonneg; unfold is_u in Hx; lia|].
  intros i Hi. rewrite insert16_bits by lia. rewrite (testbit_above 64 x i Hx) by lia.
  destruct (Z.leb_spec k i), (Z.ltb_spec i (k + 16)); try reflexivity. lia.
Qed.

Lemma imm64_value v : is_u 64 v ->
  insert16 (insert16 (insert16 (u16 v) v 16) v 32) v 48 = v.
Proof.
  intros Hv. apply Z.bits_inj'. intros i Hi. rewrite !insert16_bits by lia. unfold u16, wrap.
  destruct (Z.lt_ge_cases i 16).
  - rewrite Z.mod_pow2_bits_low by lia. repeat case_if; reflexivity.
  - rewrite Z.mod_pow2_bits_high by lia. destruct (Z.lt_ge_cases i 64) as [Hlt|Hge].
    + repeat case_if; bool_hyps; try reflexivity. lia.
    + rewrite (testbit_above 64 v i Hv) by lia. repeat case_if; reflexivity.
Qed.

Lemma w_movk rd s v k : is_reg rd -> 0 <= k < 4 -> is_u 64 (m_x s rd) ->
  wexec (a64_movk_x rd (u16 (Z.shiftr v (16 * k))) (16 * k)) s = put rd (insert16 (m_x s rd) v (16 * k)) s.
Proof.
  intros Hd Hk Hx. unfold wexec. rewrite dec_movk. cbn [exec]. rewrite (reg5_id _ Hd), (x_get_reg _ s Hd), (next_x_set _ _ s Hd).
  assert (Hhw : Z.land (Z.shiftr (16 * k) 4) 3 = k).
  { rewrite Z.shiftr_div_pow2 by lia. change (2 ^ 4) with 16. rewrite Z.mul_comm, Z.div_mul by lia.
    change 3 with (2 ^ 2 - 1). rewrite land_ones_mod by lia. apply Z.mod_small. lia. }
  rewrite Hhw. fold (insert16 (m_x s rd) v (16 * k)). f_equal. apply (wrap_id 64), insert16_u64; [exact Hx|lia].
Qed.

Lemma run_imm64 rd v s : is_reg rd -> is_u 64 v ->
  only [rd] s (run (a64_emit_imm64 rd v) s) /\ m_x (run (a64_emit_imm64 rd v) s) rd = v.
Proof.
  intros Hd Hv. unfold a64_emit_imm64. rewrite Z.shiftr_0_r, !run_cons. cbn [run fold_left].
  assert (U : is_u 64 (u16 v)) by (pose proof (u16_range v); unfold is_u; lia).
  rewrite w_movz by assumption.
  rewrite (w_movk rd _ v 1) by (rewrite ?put_same; first [assumption | lia]). rewrite put_same.
  rewrite (w_movk rd _ v 2) by (rewrite ?put_same; first [assumption | lia | apply insert16_u64; [assumption|lia]]).
  rewrite put_same.
  rewrite (w_movk rd _ v 3) by (rewrite ?put_same; first [assumption | lia | repeat apply insert16_u64; first [assumption | lia]]).
  rewrite !put_same. split; [onlys|]. apply imm64_value, Hv.
Qed.

Lemma run_abs_addr rd g slot s : is_reg rd ->
  only [rd] s (run (a64_emit_imm64 rd (u64 (g + 8 * slot))) s) /\
  m_x (run (a64_emit_imm64 rd (u64 (g + 8 * slot))) s) rd = u64 (g + 8 * slot).
Proof. intros Hd. apply run_imm64; [exact Hd|apply is_u64_u64]. Qed.

(** ** Addresses of slots *)

Section Globals.
Context (g_hc_fp g_hc_alloc g_hc_mem : Z).
Context (Hfp : is_u 64 g_hc_fp) (Hal : is_u 64 g_hc_alloc) (Hmem : is_u 64 g_hc_mem).

Lemma run_slot_addr rd slot s : is_reg rd -> rd <> 17 -> 0 <= slot < 256 ->
  only [rd; 17] s (run (slot_addr_words g_hc_fp g_hc_mem rd slot) s) /\
  m_x (run (slot_addr_words g_hc_fp g_hc_mem rd slot) s) rd = slot_addr g_hc_fp g_hc_mem (m_mem s) slot.
Proof using Hfp Hmem.
  intros Hd Hne Hs. assert (H17 : is_reg 17) by (split; lia).
  unfold slot_addr_words. rewrite !run_app, !run_one.
  destruct (run_imm64 17 g_hc_fp s H17 Hfp) as [O1 V1]. set (s1 := run (a64_emit_imm64 17 g_hc_fp) s) in *.
  rewrite w_ldr, V1 by assumption. rewrite u64_load by lia.
  set (s2 := put 17 _ s1). set (s3 := run (if negb (slot =? 0) then _ else _) s2).
  assert (H3 : only [rd; 17] s1 s3 /\ m_x s3 17 = u64 (load 8 (m_mem s) g_hc_fp + slot)).
  { subst s3. destruct (Z.eqb_spec slot 0) as [->|Hnz]; cbn [negb].
    - split; [subst s2; onlys|]. subst s2. cbn [run fold_left].
      rewrite put_same, (only_mem _ _ _ O1), Z.add_0_r, u64_load by lia. reflexivity.
    - rewrite run_one, w_add_imm by (first [assumption | lia]). subst s2. split; [onlys|].
      rewrite !put_same, (only_mem _ _ _ O1). reflexivity. }
  destruct H3 as [O3 V3]. clearbody s3.
  destruct (run_imm64 rd g_hc_mem s3 Hd Hmem) as [O4 V4]. set (s4 := run _ s3) in *.
  rewrite w_add_lsl by (first [assumption | lia]). rewrite put_same. split.
  - eapply only_after; [apply only_put; cbn; tauto|]. eapply only_after; [eapply only_more; [|exact O4]; cbn; tauto|].
    eapply only_after; [exact O3|]. eapply only_more; [|exact O1]; cbn; tauto.
  - rewrite V4, (only_x _ _ _ O4) by (cbn; lia). rewrite V3. unfold slot_addr.
    rewrite Z.shiftl_mul_pow2 by lia. f_equal. lia.
Qed.

(** ** Frames *)

#[local] Opaque a64_emit_imm64.

(** Registers outside [rs] are kept; memory and SP may change. *)
Definition keep (rs : list Z) (s s' : mstate) : Prop := forall r, ~ In r rs -> m_x s' r = m_x s r.

Lemma keep_trans rs s s1 s2 : keep rs s1 s2 -> keep rs s s1 -> keep rs s s2.
Proof using. intros A B r Hr. rewrite A, B by assumption. reflexivity. Qed.
Lemma keep_only rs rs' s s' : (forall r, In r rs -> In r rs') -> only rs s s' -> keep rs' s s'.
Proof using. intros Hi [X _ _] r Hr. apply X. auto. Qed.

Lemma run_enter n s : 0 <= n < 256 -> 16 <= m_sp s < 2 ^ 64 ->
  let s' := run (enter_words g_hc_fp g_hc_alloc n) s in
  let m1 := store 8 (store 8 (m_mem s) (m_sp s - 16) (load 8 (m_mem s) g_hc_fp)) (m_sp s - 8) 0 in
  let a := load 8 m1 g_hc_alloc in
  keep [16; 17; 18] s s' /\ m_sp s' = m_sp s - 16 /\
  m_mem s' = store 8 (store 8 m1 g_hc_fp a) g_hc_alloc (u64 (a + n)).
Proof using Hfp Hal.
  intros Hn Hsp. assert (H16 : is_reg 16) by (split; lia). assert (H17 : is_reg 17) by (split; lia).
  assert (H18 : is_reg 18) by (split; lia).
  unfold enter_words. rewrite !run_app, !run_one, !run_cons, !run_nil. cbv zeta.
  destruct (run_imm64 16 g_hc_fp s H16 Hfp) as [O1 V1]. set (s1 := run (a64_emit_imm64 16 g_hc_fp) s) in *.
  rewrite (w_ldr 17 16), V1, u64_load by (first [assumption | lia]). set (s2 := put 17 _ s1).
  rewrite w_stp by (subst s2; cbn; rewrite ?(only_sp _ _ _ O1); auto).
  set (m1 := store 8 (store 8 (m_mem s) _ _) _ 0).
  set (s3 := push_pair _ _ _).
  assert (M3 : m_mem s3 = m1).
  { subst s3 s2 m1. unfold push_pair. cbn [m_mem]. rewrite put_same. cbn [m_mem m_sp put].
    rewrite (only_mem _ _ _ O1), (only_sp _ _ _ O1). reflexivity. }
  assert (X3 : forall q, q <> 17 -> m_x s3 q = m_x s1 q).
  { intros q Hq. subst s3 s2. unfold push_pair. cbn [m_x]. apply put_other, Hq. }
  assert (S3 : m_sp s3 = m_sp s - 16) by (subst s3 s2; cbn; rewrite (only_sp _ _ _ O1); reflexivity).
  clearbody s3. clear s2.
  destruct (run_imm64 18 g_hc_alloc s3 H18 Hal) as [O4 V4]. set (s4 := run _ s3) in *.
  rewrite (w_ldr 17 18), V4, u64_load by (first [assumption | lia]). rewrite (only_mem _ _ _ O4), M3.
  set (a := load 8 m1 g_hc_alloc). rewrite (w_str 16 17) by assumption. rewrite put_same, put_other by lia.
  rewrite (only_x _ _ _ O4), X3, V1 by (cbn; lia). cbn [m_mem put]. rewrite (only_mem _ _ _ O4), M3.
  set (s5 := put_mem _ _).
  assert (X5 : m_x s5 17 = a) by apply put_same.
  set (s6 := run (if negb (n =? 0) then _ else _) s5).
  assert (H6 : only [17] s5 s6 /\ m_x s6 17 = u64 (a + n)).
  { subst s6. destruct (Z.eqb_spec n 0) as [->|Hnz]; cbn [negb]; rewrite ?run_nil, ?run_one.
    - split; [apply only_refl|]. rewrite X5, Z.add_0_r. subst a. rewrite u64_load by lia. reflexivity.
    - rewrite w_add_imm by (first [assumption | lia]). split; [onlys|]. rewrite put_same, X5. reflexivity. }
  destruct H6 as [O6 V6]. clearbody s6. rewrite w_str by assumption.
  rewrite V6, (only_x _ _ _ O6), (only_mem _ _ _ O6) by (cbn; lia). subst s5. cbn [put_mem m_mem m_sp m_x].
  rewrite put_other, V4 by lia. repeat split.
  - intros r Hr. cbn in Hr. cbn [put_mem m_x]. rewrite (only_x _ _ _ O6) by (cbn; lia).
    cbn [put_mem m_x]. rewrite put_other by lia. rewrite (only_x _ _ _ O4), X3, (only_x _ _ _ O1) by (cbn; lia). reflexivity.
  - cbn [put_mem m_sp]. rewrite (only_sp _ _ _ O6). cbn [put_mem m_sp put]. rewrite (only_sp _ _ _ O4). exact S3.
Qed.

Lemma run_leave s : 0 <= m_sp s -> m_sp s + 16 < 2 ^ 64 ->
  let s' := run (leave_words g_hc_fp g_hc_alloc) s in
  let m1 := store 8 (m_mem s) g_hc_alloc (load 8 (m_mem s) g_hc_fp) in
  keep [16; 17; 18] s s' /\ m_sp s' = m_sp s + 16 /\ m_mem s' = store 8 m1 g_hc_fp (load 8 m1 (m_sp s)).
Proof using Hfp Hal.
  intros Hlo Hhi. assert (H16 : is_reg 16) by (split; lia). assert (H17 : is_reg 17) by (split; lia).
  assert (H18 : is_reg 18) by (split; lia).
  unfold leave_words. rewrite !run_app, !run_cons, !run_nil. cbv zeta.
  destruct (run_imm64 16 g_hc_fp s H16 Hfp) as [O1 V1]. set (s1 := run (a64_emit_imm64 16 g_hc_fp) s) in *.
  destruct (run_imm64 18 g_hc_alloc s1 H18 Hal) as [O2 V2]. set (s2 := run _ s1) in *.
  assert (V16 : m_x s2 16 = g_hc_fp) by (rewrite (only_x _ _ _ O2), V1 by (cbn; lia); reflexivity).
  assert (M2 : m_mem s2 = m_mem s) by (rewrite (only_mem _ _ _ O2); apply O1).
  assert (S2 : m_sp s2 = m_sp s) by (rewrite (only_sp _ _ _ O2); apply O1).
  assert (X2 : keep [16; 17; 18] s s2).
  { intros r Hr. rewrite (only_x _ _ _ O2), (only_x _ _ _ O1) by (cbn in *; tauto). reflexivity. }
  clearbody s2. rewrite (w_ldr 17 16), V16, u64_load, M2 by (first [assumption | lia]).
  rewrite (w_str 18 17) by assumption. rewrite put_same, put_other, V2 by lia. cbn [m_mem put]. rewrite M2.
  set (m1 := store 8 (m_mem s) _ _). set (s3 := put_mem m1 _).
  assert (S3 : m_sp s3 = m_sp s) by exact S2.
  destruct (w_ldp_rest 17 31 s3) as [S4 M4]; [rewrite S3; assumption..|].
  pose proof (w_ldp 17 31 s3 H17 (or_intror eq_refl) ltac:(rewrite S3; assumption) ltac:(rewrite S3; assumption)) as X4.
  set (s4 := wexec (a64_ldp_post 17 31 31 16) s3) in *. clearbody s4.
  rewrite w_str by assumption. rewrite M4, !X4, S3. cbn [Z.eqb Pos.eqb].
  change (m_x s3 16) with (m_x (put 17 (load 8 (m_mem s) g_hc_fp) s2) 16). rewrite put_other, V16 by lia.
  cbn [put_mem m_mem m_sp]. rewrite S4, S3. split; [|split; reflexivity].
  intros r Hr. cbn in Hr. cbn [put_mem m_x]. rewrite X4.
  replace (r =? 17) with false by lia. change (31 =? 31) with true. cbv iota.
  transitivity (m_x s3 r); [destruct (r =? 31); reflexivity|].
  subst s3. cbn [put_mem m_x]. rewrite put_other by lia. apply X2. exact Hr.
Qed.
End Globals.

(** ** Calls *)

Lemma map_seq_S {A} (f : nat -> A) n : map f (seq 0 (S n)) = map f (seq 0 n) ++ [f n].
Proof using. rewrite seq_S, map_app. reflexivity. Qed.

(** The moves of the arguments, from the registers of the stack into [X0 ...]. *)
Lemma run_args argc sp s : 0 <= argc <= 7 -> argc <= sp <= 7 -> (forall r, 9 <= r < 9 + sp -> is_u 64 (m_x s r)) ->
  only [0; 1; 2; 3; 4; 5; 6] s (run (arg_words sp argc) s) /\
  forall i, 0 <= i < argc -> m_x (run (arg_words sp argc) s) i = m_x s (9 + (sp - argc + i)).
Proof using.
  intros Hargc Hsp Hu. unfold arg_words.
  assert (Hn : forall n, Z.of_nat n <= argc ->
    let s' := run (map (fun a => a64_mov_x (argc - 1 - Z.of_nat a) (9 + (sp - 1 - Z.of_nat a))) (seq 0 n)) s in
    only [0; 1; 2; 3; 4; 5; 6] s s' /\
    forall i, argc - Z.of_nat n <= i < argc -> m_x s' i = m_x s (9 + (sp - argc + i))).
  { induction n as [|n IH]; intros Hle; cbv zeta.
    - split; [apply only_refl|]. lia.
    - rewrite map_seq_S, run_app, run_one. destruct (IH ltac:(lia)) as [O V]. set (s1 := run _ s) in *. clearbody s1.
      rewrite w_mov by (split; lia). rewrite (only_x _ _ _ O) by (cbn; lia).
      rewrite (wrap_id 64 _ (Hu (9 + (sp - 1 - Z.of_nat n)) ltac:(lia)) : u64 _ = _). split.
      + eapply only_after; [apply only_put; cbn; lia|exact O].
      + intros i Hi. destruct (Z.eq_dec i (argc - 1 - Z.of_nat n)) as [->|Hne].
        * rewrite put_same. f_equal. lia.
        * rewrite put_other by exact Hne. apply V. lia. }
  destruct (Hn (Z.to_nat argc) ltac:(lia)) as [O V]. split; [exact O|]. intros i Hi. apply V. lia.
Qed.

(** The saves of the stack registers below the arguments. *)
Lemma run_saves n s : (n <= 7)%nat -> 16 * Z.of_nat n <= m_sp s < 2 ^ 64 ->
  let s' := run (save_words (Z.of_nat n)) s in
  m_x s' = m_x s /\ m_sp s' = m_sp s - 16 * Z.of_nat n /\
  (forall a, a < m_sp s - 16 * Z.of_nat n \/ m_sp s <= a -> m_mem s' a = m_mem s a) /\
  forall i, 0 <= i < Z.of_nat n -> is_u 64 (m_x s (9 + i)) -> load 8 (m_mem s') (m_sp s - 16 * (i + 1)) = m_x s (9 + i).
Proof using.
  unfold save_words. rewrite Nat2Z.id. cbv zeta. induction n as [|n IH]; intros Hn Hsp.
  - rewrite run_nil. repeat split; try lia.
  - rewrite map_seq_S, run_app, run_one. destruct IH as (X & SP & M & V); [lia..|].
    set (s1 := run _ s) in *. clearbody s1.
    rewrite w_stp by (try (left; split; lia); try (split; lia); auto; rewrite SP; lia).
    rewrite x_get_31. unfold push_pair. cbn [m_x m_sp m_mem]. rewrite X, SP. split; [reflexivity|].
    split; [lia|]. split.
    + intros a Ha. rewrite !store_out by lia. apply M. lia.
    + intros i Hi Hu. rewrite load_store_other by lia. destruct (Z.eq_dec i (Z.of_nat n)) as [->|Hne].
      * replace (m_sp s - 16 * (Z.of_nat n + 1)) with (m_sp s - 16 * Z.of_nat n - 16) by lia.
        rewrite load_store_same. apply (wrap_id 64). exact Hu.
      * rewrite load_store_other by lia. apply V; [lia|exact Hu].
Qed.

(** And their restores. *)
Lemma run_restores n : forall s, (n <= 7)%nat -> 0 <= m_sp s -> m_sp s + 16 * Z.of_nat n < 2 ^ 64 ->
  let s' := run (restore_words (Z.of_nat n)) s in
  m_sp s' = m_sp s + 16 * Z.of_nat n /\ m_mem s' = m_mem s /\
  (forall r, r < 9 \/ 9 + Z.of_nat n <= r -> m_x s' r = m_x s r) /\
  forall i, 0 <= i < Z.of_nat n -> m_x s' (9 + i) = load 8 (m_mem s) (m_sp s + 16 * (Z.of_nat n - 1 - i)).
Proof using.
  unfold restore_words. cbv zeta. induction n as [|n IH]; intros s Hn Hlo Hhi.
  - rewrite Nat2Z.id. cbn [seq rev map]. rewrite run_nil. repeat split; try lia.
  - rewrite Nat2Z.id. rewrite seq_S, rev_unit. cbn [map]. rewrite run_cons.
    destruct (w_ldp_rest (9 + Z.of_nat n) 31 s) as [S1 M1]; [lia..|].
    pose proof (w_ldp (9 + Z.of_nat n) 31 s ltac:(split; lia) (or_intror eq_refl) ltac:(lia) ltac:(lia)) as X1.
    cbn [Nat.add] in *. set (s1 := wexec _ s) in *. clearbody s1. rewrite Nat2Z.id in IH.
    destruct (IH s1) as (S2 & M2 & K2 & V2); [lia..|]. rewrite S2, M2, S1, M1.
    assert (X1' : forall r, r <> 9 + Z.of_nat n -> m_x s1 r = m_x s r).
    { intros r Hr. rewrite X1. change (31 =? 31) with true. cbv iota.
      replace (r =? 9 + Z.of_nat n) with false by lia. destruct (r =? 31); reflexivity. }
    split; [lia|]. split; [reflexivity|]. split.
    + intros r Hr. rewrite K2, X1' by lia. reflexivity.
    + intros i Hi. destruct (Z.eq_dec i (Z.of_nat n)) as [->|Hne].
      * rewrite K2, X1 by lia. rewrite (Z.eqb_refl (9 + _)). replace (9 + Z.of_nat n =? 31) with false by lia.
        cbv iota. replace (m_sp s + 16 * _) with (m_sp s) by lia. reflexivity.
      * rewrite V2 by lia. rewrite M1, S1. f_equal. lia.
Qed.

(** ** Arithmetic *)

Lemma binop_u64 op a b : is_u 64 a -> is_u 64 b -> is_u 64 (binop op a b).
Proof using.
  intros Ha Hb. assert (Hbits : forall x, 0 <= x -> (forall i, 64 <= i -> Z.testbit x i = false) -> is_u 64 x).
  { intros x Hx Hi. apply is_u_of_bits; [lia|exact Hx|exact Hi]. }
  assert (Hs : is_u 64 (Z.shiftr a (b mod 64))).
  { rewrite Z.shiftr_div_pow2 by (apply Z.mod_pos_bound; lia). unfold is_u in *.
    assert (0 < 2 ^ (b mod 64)) by (apply Z.pow_pos_nonneg; [lia|apply Z.mod_pos_bound; lia]).
    split; [apply Z.div_pos; lia|]. apply Z.le_lt_trans with a; [|lia]. apply Z.div_le_upper_bound; nia. }
  assert (is_u 64 0) by (split; lia).
  destruct op; try exact Hs; cbn [binop]; try apply is_u64_u64.
  - apply Hbits; [apply Z.land_nonneg; unfold is_u in *; lia|]. intros i Hi.
    rewrite Z.land_spec, (testbit_above 64 a i Ha) by lia. reflexivity.
  - apply Hbits; [apply Z.lor_nonneg; unfold is_u in *; lia|]. intros i Hi.
    rewrite Z.lor_spec, (testbit_above 64 a i Ha), (testbit_above 64 b i Hb) by lia. reflexivity.
  - apply Hbits; [apply Z.lxor_nonneg; unfold is_u in *; lia|]. intros i Hi.
    rewrite Z.lxor_spec, (testbit_above 64 a i Ha), (testbit_above 64 b i Hb) by lia. reflexivity.
  - case_if; [assumption|apply is_u64_u64].
  - case_if; [assumption|apply is_u64_u64].
Qed.

Lemma u64_id' v : is_u 64 v -> u64 v = v.
Proof using. apply (wrap_id 64). Qed.

(** [x - (x / y) * y], as SDIV and MSUB compute it. *)
Lemma mod_value x y : is_u 64 x -> is_u 64 y -> u64 (x - binop HC_DIV x y * y) = binop HC_MOD x y.
Proof using.
  intros Hx Hy. cbn [binop]. destruct (Z.eqb_spec y 0) as [->|Hy0].
  - rewrite Z.mul_0_r, Z.sub_0_r. apply u64_id', Hx.
  - unfold u64, wrap.
    assert (Hs : forall z, is_u 64 z -> exists k, s64 z = z + k * 2 ^ 64).
    { intros z Hz. rewrite s64_val by exact Hz. case_if; [exists 0|exists (-1)]; lia. }
    destruct (Hs x Hx) as (kx & Ex), (Hs y Hy) as (ky & Ey).
    pose proof (Z.quot_rem' (s64 x) (s64 y)) as Hqr. set (q := Z.quot (s64 x) (s64 y)) in *.
    set (r := Z.rem (s64 x) (s64 y)) in *. clearbody q r.
    assert (Hq : q mod 2 ^ 64 = q - (q / 2 ^ 64) * 2 ^ 64) by (rewrite Z.mod_eq by lia; lia).
    rewrite Hq. symmetry. set (m := 2 ^ 64) in *. assert (Hm : m <> 0) by discriminate. clearbody m.
    replace (x - (q - q / m * m) * y) with (r + (ky * q - kx + q / m * y) * m) by nia.
    rewrite Z.mod_add by exact Hm. reflexivity.
Qed.

Lemma run_binop op ra rb s : In op binops -> is_reg ra -> is_reg rb -> ra <> 8 -> rb <> 8 ->
  is_u 64 (m_x s ra) -> is_u 64 (m_x s rb) ->
  only [8; ra] s (run (binop_words op ra rb) s) /\
  m_x (run (binop_words op ra rb) s) ra = binop op (m_x s ra) (m_x s rb).
Proof using.
  intros Hop Ha Hb Ha8 Hb8 Ua Ub. assert (H8 : is_reg 8) by (split; lia).
  destruct (decide (op = HC_MOD)) as [->|Hm].
  - cbn [binop_words]. rewrite run_cons, run_one, w_sdiv by assumption. rewrite w_msub by assumption.
    rewrite put_same, !put_other by assumption. split; [onlys|].
    rewrite put_same, (u64_id' (binop HC_DIV _ _)) by (apply binop_u64; assumption). apply mod_value; assumption.
  - assert (E : binop_words op ra rb = [List.hd 0 (binop_words op ra rb)]).
    { cbn [binops In] in Hop. repeat (destruct Hop as [<-|Hop]; [first [contradiction | reflexivity]|]). contradiction. }
    rewrite E, run_one, w_binop by assumption. split; [onlys|].
    rewrite put_same. apply u64_id', binop_u64; assumption.
Qed.

Lemma run_compare op ra rb s : In op compares -> is_reg ra -> is_reg rb -> is_u 64 (m_x s ra) -> is_u 64 (m_x s rb) ->
  only [ra] s (run [a64_cmp_x ra rb; cset_word op ra] s) /\
  m_x (run [a64_cmp_x ra rb; cset_word op ra] s) ra = compare op (m_x s ra) (m_x s rb).
Proof using.
  intros Hop Ha Hb Ua Ub. rewrite run_cons, run_one, w_cmp, w_cset by assumption. split; [onlys|].
  rewrite put_same. cbn [put_flags m_flags]. rewrite (u64_id' _ Ub). apply holds_compare; assumption.
Qed.

(** ** Floating point *)

Lemma put_d_same k v s : m_d (put_d k v s) k = v.
Proof using. cbn. unfold upd_fun. rewrite Z.eqb_refl. reflexivity. Qed.
Lemma put_d_other k v s q : q <> k -> m_d (put_d k v s) q = m_d s q.
Proof using. intros. cbn. unfold upd_fun. destruct (Z.eqb_spec q k); [contradiction|reflexivity]. Qed.

Lemma funary_u64 op a : is_u 64 (funary op a).
Proof using. destruct op; first [apply f_scvtf_u | apply f_fcvtzs_u | apply f_neg_u]. Qed.
Lemma fbin_u64 op a b : is_u 64 (fbin op a b).
Proof using. destruct op; first [apply f_add_u | apply f_sub_u | apply f_mul_u | apply f_div_u]. Qed.

Lemma b2z_u64 (c : bool) : is_u 64 (Z.b2z c).
Proof using. destruct c; split; cbn; lia. Qed.

Lemma fcompare_u64 op x y v : fcompare op x y = Some v -> is_u 64 v.
Proof using.
  unfold fcompare. intros Hv.
  destruct (f_cmp x y) as [c|]; destruct op; try discriminate; injection Hv as <-; first [apply b2z_u64 | split; lia].
Qed.

Ltac ds := rewrite ?put_same, ?put_x_d, ?put_d_same.

Lemma run_funary op r s : In op funaries -> is_reg r -> is_u 64 (m_x s r) ->
  only [r] s (run (funary_words op r) s) /\ m_x (run (funary_words op r) s) r = funary op (m_x s r).
Proof using.
  intros Hop Hr Hu. cbn [funaries In] in Hop.
  destruct Hop as [<-|[<-|[<-|[]]]]; cbn [funary_words]; rewrite !run_cons, run_nil.
  - rewrite w_scvtf, w_fmov_x by assumption. split; [onlys|]. ds. rewrite !u64_id' by (rewrite ?u64_id'; apply f_scvtf_u). reflexivity.
  - rewrite w_fmov_d, w_fcvtzs by auto. split; [onlys|]. ds. rewrite (u64_id' (m_x s r)) by assumption.
    apply u64_id', f_fcvtzs_u.
  - rewrite w_fmov_d, w_fneg, w_fmov_x by auto. split; [onlys|]. ds. rewrite (u64_id' (m_x s r)) by assumption.
    rewrite (u64_id' (f_neg _)) by apply f_neg_u. apply u64_id', f_neg_u.
Qed.

Lemma load_operands ra rb s : is_reg ra -> is_reg rb -> is_u 64 (m_x s ra) -> is_u 64 (m_x s rb) ->
  let s' := run [a64_fmov_d_x 0 ra; a64_fmov_d_x 1 rb] s in
  only [] s s' /\ m_d s' 0 = m_x s ra /\ m_d s' 1 = m_x s rb.
Proof using.
  intros Ha Hb Ua Ub. cbv zeta. rewrite run_cons, run_one, !w_fmov_d by auto. split; [onlys|].
  rewrite put_d_other, !put_d_same, put_x_d by lia. rewrite !u64_id' by assumption. auto.
Qed.

Lemma run_fbin op ra rb s : In op fbins -> is_reg ra -> is_reg rb -> is_u 64 (m_x s ra) -> is_u 64 (m_x s rb) ->
  let ws := [a64_fmov_d_x 0 ra; a64_fmov_d_x 1 rb; fbin_word op; a64_fmov_x_d ra 0] in
  only [ra] s (run ws s) /\ m_x (run ws s) ra = fbin op (m_x s ra) (m_x s rb).
Proof using.
  intros Hop Ha Hb Ua Ub. cbv zeta. change (run (?a :: ?b :: ?l) s) with (run l (run [a; b] s)).
  destruct (load_operands ra rb s Ha Hb Ua Ub) as (O & D0 & D1). set (s1 := run [_; _] s) in *. clearbody s1.
  rewrite run_cons, run_one, w_fbin, w_fmov_x by assumption. split.
  - onlys. eapply only_more; [|exact O]. cbn. tauto.
  - ds. rewrite D0, D1. rewrite u64_u64. apply u64_id', fbin_u64.
Qed.

Lemma run_fcompare op ra rb s v : In op fcompares -> is_reg ra -> is_reg rb ->
  is_u 64 (m_x s ra) -> is_u 64 (m_x s rb) -> fcompare op (m_x s ra) (m_x s rb) = Some v ->
  let ws := [a64_fmov_d_x 0 ra; a64_fmov_d_x 1 rb; a64_fcmp_d 0 1; fcset_word op ra] in
  only [ra] s (run ws s) /\ m_x (run ws s) ra = v.
Proof using.
  intros Hop Ha Hb Ua Ub Hv. cbv zeta. change (run (?a :: ?b :: ?l) s) with (run l (run [a; b] s)).
  destruct (load_operands ra rb s Ha Hb Ua Ub) as (O & D0 & D1). set (s1 := run [_; _] s) in *. clearbody s1.
  rewrite run_cons, run_one, w_fcmp, w_fcset by assumption. split.
  - onlys. eapply only_more; [|exact O]. cbn. tauto.
  - rewrite put_same. cbn [put_flags m_flags]. rewrite D0, D1. apply holds_fcompare; assumption.
Qed.

(** ** The two halves of a call *)

Definition before_words (op : hc_op) (fn sp : Z) : list Z :=
  arg_words sp (call_argc op) ++ save_words (sp - call_argc op) ++
  [a64_stp_pre 20 21 31 (-16); a64_stp_pre 22 23 31 (-16)] ++ a64_emit_imm64 16 fn.
Definition after_words (need : Z) : list Z :=
  [a64_ldp_post 22 23 31 16; a64_ldp_post 20 21 31 16] ++ restore_words need ++ [a64_mov_x (9 + need) 0].

Lemma call_words_halves op fn sp :
  call_words op fn sp = before_words op fn sp ++ a64_blr 16 :: after_words (sp - call_argc op).
Proof using. unfold call_words, before_words, after_words. rewrite <- !app_assoc. reflexivity. Qed.

Lemma run_before op fn sp s : let argc := call_argc op in let need := sp - argc in
  0 <= argc <= 7 -> argc <= sp <= 7 -> is_u 64 fn -> (forall r, 9 <= r < 9 + sp -> is_u 64 (m_x s r)) ->
  (forall r, 20 <= r <= 23 -> is_u 64 (m_x s r)) -> 16 * need + 32 <= m_sp s < 2 ^ 64 ->
  let s' := run (before_words op fn sp) s in
  let p := m_sp s - 16 * need - 32 in
  m_sp s' = p /\ m_x s' 16 = fn /\ (forall r, 17 <= r -> m_x s' r = m_x s r) /\
  (forall i, 0 <= i < argc -> m_x s' i = m_x s (9 + (need + i))) /\
  (forall a, a < p \/ m_sp s <= a -> m_mem s' a = m_mem s a) /\
  (forall i, 0 <= i < need -> load 8 (m_mem s') (m_sp s - 16 * (i + 1)) = m_x s (9 + i)) /\
  (forall i, 0 <= i < 2 -> load 8 (m_mem s') (p + 8 * i) = m_x s (22 + i)) /\
  (forall i, 0 <= i < 2 -> load 8 (m_mem s') (p + 16 + 8 * i) = m_x s (20 + i)).
Proof using.
  intros argc need Hargc Hsp Hfn Hu Hl Hs. unfold before_words. fold argc. fold need. rewrite !run_app, !run_cons, run_nil.
  assert (Hneed : need = sp - argc) by reflexivity. clearbody need argc.
  assert (R : forall r, 20 <= r <= 23 -> is_reg r) by (intros; split; lia).
  destruct (run_args argc sp s Hargc Hsp Hu) as [O1 V1]. set (s1 := run (arg_words sp argc) s) in *.
  assert (X1 : forall r, 9 <= r -> m_x s1 r = m_x s r) by (intros r Hr; apply O1; cbn; lia).
  destruct (run_saves (Z.to_nat need) s1) as (X2 & S2 & M2 & V2);
    [lia|rewrite (only_sp _ _ _ O1), Z2Nat.id by lia; lia|].
  rewrite Z2Nat.id in * by lia.
  rewrite (only_sp _ _ _ O1), (only_mem _ _ _ O1) in *. set (s2 := run (save_words need) s1) in *. clearbody s2.
  assert (X2' : forall r, 20 <= r <= 23 -> m_x s2 r = m_x s r) by (intros r Hr; rewrite X2; apply X1; lia).
  rewrite (w_stp 20 21) by (try (left; split; lia); try (split; lia); rewrite S2; lia).
  rewrite (x_get_reg 21) by (apply R; lia). set (s3 := push_pair _ _ s2).
  rewrite (w_stp 22 23) by (try (left; split; lia); try (split; lia); cbn [s3 push_pair m_sp]; rewrite S2; lia).
  rewrite (x_get_reg 23) by (apply R; lia). set (s4 := push_pair _ _ s3).
  destruct (run_imm64 16 fn s4) as [O5 V5]; [split; lia|exact Hfn|].
  cbv zeta. rewrite (only_sp _ _ _ O5), (only_mem _ _ _ O5).
  set (s5 := run _ s4) in *. clearbody s5.
  subst s4 s3. cbn [push_pair m_sp m_mem m_x] in *. rewrite !S2, !X2' by lia.
  set (p := m_sp s - 16 * need - 32). replace (m_sp s - 16 * need - 16 - 16) with p by lia.
  replace (m_sp s - 16 * need - 16 - 8) with (p + 8) by lia. replace (m_sp s - 16 * need - 16) with (p + 16) by lia.
  replace (m_sp s - 16 * need - 8) with (p + 24) by lia.
  split; [reflexivity|]. split; [exact V5|]. split; [|split; [|split; [|split; [|split]]]].
  - intros r Hr. rewrite (only_x _ _ _ O5) by (cbn; lia). cbn [push_pair m_x]. rewrite X2. apply X1. lia.
  - intros i Hi. rewrite (only_x _ _ _ O5) by (cbn; lia). cbn [push_pair m_x].
    rewrite X2, V1 by lia. f_equal. lia.
  - intros a Ha. rewrite !store_out by lia. apply M2. lia.
  - intros i Hi. rewrite !load_store_other by lia. rewrite V2; rewrite ?X1 by lia; [reflexivity|lia|apply Hu; lia].
  - intros i Hi. assert (i = 0 \/ i = 1) as [-> | ->] by lia.
    + rewrite load_store_other, Z.mul_0_r, !Z.add_0_r by lia. rewrite load_store_same. apply (u64_id' (m_x s 22)), Hl. lia.
    + change (8 * 1) with 8. rewrite load_store_same. apply (u64_id' (m_x s 23)), Hl. lia.
  - intros i Hi. rewrite 2 load_store_other by lia. assert (i = 0 \/ i = 1) as [-> | ->] by lia.
    + rewrite load_store_other, Z.mul_0_r, !Z.add_0_r by lia. rewrite load_store_same. apply (u64_id' (m_x s 20)), Hl. lia.
    + replace (p + 16 + 8 * 1) with (p + 24) by lia. rewrite load_store_same. apply (u64_id' (m_x s 21)), Hl. lia.
Qed.

Lemma run_after need s : 0 <= need <= 6 -> 0 <= m_sp s -> m_sp s + 16 * need + 32 < 2 ^ 64 -> is_u 64 (m_x s 0) ->
  let s' := run (after_words need) s in
  m_sp s' = m_sp s + 32 + 16 * need /\ m_mem s' = m_mem s /\ m_x s' (9 + need) = m_x s 0 /\
  (forall r, 9 + need < r < 20 \/ 24 <= r -> m_x s' r = m_x s r) /\
  (forall i, 0 <= i < need -> m_x s' (9 + i) = load 8 (m_mem s) (m_sp s + 32 + 16 * (need - 1 - i))) /\
  (forall i, 0 <= i < 2 -> m_x s' (22 + i) = load 8 (m_mem s) (m_sp s + 8 * i)) /\
  (forall i, 0 <= i < 2 -> m_x s' (20 + i) = load 8 (m_mem s) (m_sp s + 16 + 8 * i)).
Proof using.
  intros Hn Hlo Hhi Hu. unfold after_words. rewrite !run_app, !run_cons, !run_nil. cbv zeta.
  assert (R : forall r, 0 <= r <= 23 -> is_reg r) by (intros; split; lia).
  pose proof (w_ldp 22 23 s (R 22 ltac:(lia)) (or_introl (R 23 ltac:(lia))) ltac:(lia) ltac:(lia)) as X1.
  destruct (w_ldp_rest 22 23 s) as [S1 M1]; [lia..|]. set (s1 := wexec _ s) in *. clearbody s1.
  pose proof (w_ldp 20 21 s1 (R 20 ltac:(lia)) (or_introl (R 21 ltac:(lia))) ltac:(lia) ltac:(lia)) as X2.
  destruct (w_ldp_rest 20 21 s1) as [S2 M2]; [lia..|]. set (s2 := wexec _ s1) in *. clearbody s2.
  change (21 =? 31) with false in X2. change (23 =? 31) with false in X1. cbv iota in X1, X2.
  destruct (run_restores (Z.to_nat need) s2) as (S3 & M3 & K3 & V3); [lia|lia|rewrite Z2Nat.id by lia; lia|].
  rewrite Z2Nat.id in * by lia. set (s3 := run (restore_words need) s2) in *. clearbody s3.
  rewrite w_mov by (apply R; lia). rewrite put_same. cbn [put m_sp m_mem].
  assert (H0 : m_x s3 0 = m_x s 0) by (rewrite K3, X2, X1 by lia; reflexivity).
  rewrite H0, (u64_id' (m_x s 0)) by exact Hu. rewrite S3, M3, S2, M2, S1, M1.
  split; [lia|]. split; [reflexivity|]. split; [reflexivity|]. split; [|split; [|split]].
  - intros r Hr. rewrite put_other, K3, X2, X1 by lia.
    replace (r =? 21) with false by lia. replace (r =? 20) with false by lia. replace (r =? 23) with false by lia.
    replace (r =? 22) with false by lia. reflexivity.
  - intros i Hi. rewrite put_other, V3 by lia. rewrite S2, M2, S1, M1. f_equal. lia.
  - intros i Hi. rewrite put_other, K3, X2, X1 by lia. assert (i = 0 \/ i = 1) as [-> | ->] by lia.
    + rewrite Z.mul_0_r, !Z.add_0_r. reflexivity.
    + reflexivity.
  - intros i Hi. rewrite put_other, K3, X2, S1, M1 by lia. assert (i = 0 \/ i = 1) as [-> | ->] by lia.
    + rewrite Z.mul_0_r, !Z.add_0_r. reflexivity.
    + reflexivity.
Qed.

Lemma plain_before op fn sp : Forall plain (before_words op fn sp).
Proof using. unfold before_words, arg_words, save_words. auto 12 with plain. Qed.
Lemma plain_after need : Forall plain (after_words need).
Proof using. unfold after_words, restore_words. auto 12 with plain. Qed.
End Blocks.
