(* ===== verification/HcIrSim.v ===== *)
(** * The simulation: one IR step is a run of the compiled code

    [sim s ms]: the machine state [ms] represents the IR state [s].  The stack is in X9 ... X15,
    the top at [9 + depth - 1]; the locals are X20 ... X23; memory agrees outside the machine
    stack [[lo, hi)], which holds the caller's registers and, inside a frame, [g_hc_fp]'s old
    value. *)

From stdpp Require Import relations.
From S2P Require Import Prelude A64 A64Sem HcIr HcIrSem HcIrGen HcIrLayout HcIrRun HcIrBlocks.
#[local] Open Scope Z_scope.

Fixpoint stack_regs (x : Z -> Z) (st : list Z) : Prop :=
  match st with [] => True | v :: rest => x (9 + Z.of_nat (length rest)) = v /\ stack_regs x rest end.

Lemma stack_regs_keep (x x' : Z -> Z) st :
  (forall r, 9 <= r < 9 + Z.of_nat (length st) -> x' r = x r) -> stack_regs x st -> stack_regs x' st.
Proof.
  induction st as [|v st IH]; intros Hk; [auto|]. cbn [stack_regs length] in *. intros [<- Hs].
  split; [apply Hk; lia|]. apply IH; [|exact Hs]. intros r Hr. apply Hk. lia.
Qed.

Lemma stack_regs_lookup x st : stack_regs x st -> forall k v, st !! k = Some v ->
  x (9 + (Z.of_nat (length st) - 1 - Z.of_nat k)) = v.
Proof.
  induction st as [|w st IH]; intros Hs [|k] v Hk; try discriminate; cbn [stack_regs length] in *; destruct Hs as [<- Hs].
  - injection Hk as <-. f_equal. lia.
  - rewrite <- (IH Hs k v Hk). f_equal. lia.
Qed.

(** The top [n] slots, from the last to the first. *)
Lemma stack_regs_args x n : forall stk, stack_regs x stk -> (n <= length stk)%nat ->
  map (fun i => x (9 + (Z.of_nat (length stk) - Z.of_nat n + Z.of_nat i))) (seq 0 n) = rev (take n stk).
Proof.
  induction n as [|n IH]; intros [|v stk] Hs Hn; cbn [length] in Hn; try lia; try reflexivity.
  destruct Hs as [Hv Hs]. rewrite seq_S, map_app. cbn [take rev map]. rewrite <- (IH stk Hs) by lia.
  f_equal; [apply map_ext; intros i; f_equal; cbn [length]; lia|].
  f_equal. rewrite <- Hv. f_equal. cbn [length]. lia.
Qed.

Lemma stack_regs_drop x n : forall stk, stack_regs x stk -> stack_regs x (drop n stk).
Proof. induction n as [|n IH]; intros [|v stk] Hs; cbn; auto. apply IH, Hs. Qed.

(** All stack registers below the top are in range. *)
Lemma stack_regs_nth x stk : stack_regs x stk -> Forall (is_u 64) stk ->
  forall r, 9 <= r < 9 + Z.of_nat (length stk) -> is_u 64 (x r).
Proof.
  induction stk as [|v stk IH]; intros Hs Hu r Hr; cbn [length stack_regs] in *; [lia|].
  destruct Hs as [Hv Hs]. apply Forall_cons_iff in Hu as [Uv Hu].
  destruct (Z.eq_dec r (9 + Z.of_nat (length stk))) as [->|Hne]; [rewrite Hv; exact Uv|apply IH; auto; lia].
Qed.

Lemma pops_effect n sp fr k : k = sp - n -> n <= sp -> pops n sp fr = Some (k, fr).
Proof. intros -> Hn. unfold pops. destruct (Z.leb_spec n sp); [reflexivity|lia]. Qed.

(** What the compiled code relies on of the host functions, at a call made with [h_arity fn]
    arguments: the AAPCS64 procedure-call standard, with the effect on memory [h_call fn]. *)
Section Host.
Context `{HostFns} (lo hi : Z).

Definition outside (a : Z) : Prop := a < lo \/ hi <= a.
Definition agree (m m' : memory) : Prop := forall a, outside a -> m a = m' a.
Definition arg_regs (fn : Z) (s : mstate) : list Z := map (fun i => m_x s (Z.of_nat i)) (seq 0 (Z.to_nat (h_arity fn))).

Record host_ok (in_code : Z -> Prop) (host : mstate -> mstate) : Prop := {
  (* a host function sees the memory outside the caller's stack only *)
  host_local : forall fn args m m', agree m m' ->
    fst (h_call fn args m) = fst (h_call fn args m') /\ agree (snd (h_call fn args m)) (snd (h_call fn args m'));
  host_returns : forall s, ~ in_code (m_pc s) -> m_pc (host s) = m_x s 30;
  host_sp : forall s, ~ in_code (m_pc s) -> m_sp (host s) = m_sp s;
  host_saved : forall s r, ~ in_code (m_pc s) -> 19 <= r <= 29 -> m_x (host s) r = m_x s r;
  host_result : forall s, ~ in_code (m_pc s) ->
    m_x (host s) 0 = u64 (fst (h_call (m_pc s) (arg_regs (m_pc s) s) (m_mem s)));
  host_mem : forall s a, ~ in_code (m_pc s) -> outside a ->
    m_mem (host s) a = snd (h_call (m_pc s) (arg_regs (m_pc s) s) (m_mem s)) a;
  host_stack : forall s a, ~ in_code (m_pc s) -> m_sp s <= a < hi -> m_mem (host s) a = m_mem s a }.
End Host.

(** ** Memory outside the machine stack *)

Section Memory.
Context (lo hi : Z).

Lemma agree_load n m m' a : agree lo hi m m' -> accessible lo hi a n = true -> load n m a = load n m' a.
Proof using.
  intros Ha Hacc. unfold accessible in Hacc. apply load_ext. intros x Hx. apply Ha. unfold outside.
  apply orb_true_iff in Hacc as [Hacc|Hacc]; zbool; lia.
Qed.

Lemma agree_store n m m' a v : agree lo hi m m' -> agree lo hi (store n m a v) (store n m' a v).
Proof using. intros Ha x Hx. unfold store. case_if; [reflexivity|]. apply Ha, Hx. Qed.

Lemma load_store_acc n m a v k b : accessible lo hi a n = true -> lo <= b -> b + Z.of_nat k <= hi ->
  load k (store n m a v) b = load k m b.
Proof using.
  intros Hacc Hb Hk. unfold accessible in Hacc. apply load_store_other.
  apply orb_true_iff in Hacc as [Hacc|Hacc]; zbool; lia.
Qed.

End Memory.

Section Sim.
Context `{Fpu} `{HostFns}.
Context (g_hc_fp g_hc_alloc g_hc_mem : Z).
Context (Hfp : is_u 64 g_hc_fp) (Hal : is_u 64 g_hc_alloc) (Hmem : is_u 64 g_hc_mem).
Context (lo hi : Z) (Hlo : 0 <= lo) (Hroom : lo + 192 <= hi) (Hhi : hi < 2 ^ 64).
Context (Afp : accessible lo hi g_hc_fp 8 = true) (Aal : accessible lo hi g_hc_alloc 8 = true).

Context (prog : list hinsn) (sh : list (Z * bool)) (framed : bool) (lab : Z -> Z) (code : list Z).
Context (Hsh : shapes prog 0 false = Some sh) (Hlay : layout g_hc_fp g_hc_alloc g_hc_mem prog sh framed lab code).
Context (Hops : forallb operand_ok prog = true).
Context (base : Z).
Context (host : mstate -> mstate).

(** The state at the entry of the compiled function. *)
Context (entry : mstate).

Abbreviation steps := (steps code base host) (only parsing).
Abbreviation gen := (gen g_hc_fp g_hc_alloc g_hc_mem) (only parsing).
Abbreviation gen_words := (gen_words g_hc_fp g_hc_alloc g_hc_mem) (only parsing).
Abbreviation chunks := (chunks g_hc_fp g_hc_alloc g_hc_mem) (only parsing).
Abbreviation position := (position g_hc_fp g_hc_alloc g_hc_mem prog sh 3) (only parsing).
Abbreviation agree := (agree lo hi) (only parsing).

Definition frame_size (frame : option Z) : Z := match frame with Some _ => 16 | None => 0 end.
Definition is_framed (frame : option Z) : bool := match frame with Some _ => true | None => false end.

(** The caller's registers, as the prologue saved them. *)
Record saved (m : memory) : Prop := {
  sv_20 : load 8 m (hi - 16) = m_x entry 20; sv_21 : load 8 m (hi - 8) = m_x entry 21;
  sv_22 : load 8 m (hi - 32) = m_x entry 22; sv_23 : load 8 m (hi - 24) = m_x entry 23;
  sv_30 : load 8 m (hi - 48) = m_x entry 30 }.

Record env (loc : Z -> Z) (frame : option Z) (args : option (Z -> Z)) (m : memory) (ms : mstate) : Prop := {
  e_loc : forall l, 0 <= l < 4 -> m_x ms (20 + l) = loc l /\ is_u 64 (loc l);
  e_sp : m_sp ms = hi - 48 - frame_size frame;
  e_frame : forall v, frame = Some v -> load 8 (m_mem ms) (hi - 64) = v;
  e_saved : saved (m_mem ms);
  e_args : forall f, args = Some f -> forall r, 0 <= r <= 6 -> m_x ms r = f r;
  e_callee : forall r, r = 19 \/ 24 <= r <= 29 -> m_x ms r = m_x entry r;
  e_mem : agree (m_mem ms) m }.

Record sim (s : ir_state) (ms : mstate) : Prop := {
  sim_shape : sh !! i_pc s = Some (Z.of_nat (length (i_stack s)), is_framed (i_frame s));
  sim_depth : (length (i_stack s) <= 7)%nat;
  sim_range : Forall (is_u 64) (i_stack s);
  sim_pc : m_pc ms = addr base (position (i_pc s));
  sim_regs : stack_regs (m_x ms) (i_stack s);
  sim_env : env (i_locals s) (i_frame s) (i_args s) (i_mem s) ms }.

(** ** The environment *)

Lemma saved_ext m m' : (forall a, hi - 48 <= a < hi -> m' a = m a) -> saved m -> saved m'.
Proof using.
  intros He [A B C D E]. split; (erewrite load_ext; [eassumption|]); intros x Hx; apply He; lia.
Qed.

(** A state that keeps the registers of the environment, its memory and SP. *)
Lemma env_only loc frame args m ms ms' rs :
  only rs ms ms' -> (forall r, In r rs -> r = 8 \/ 9 <= r <= 18) -> env loc frame args m ms -> env loc frame args m ms'.
Proof using.
  intros [X SP M] Hrs [El Es Ef Ev Ea Ec Em].
  assert (Hk : forall r, ~ (r = 8 \/ 9 <= r <= 18) -> m_x ms' r = m_x ms r) by (intros r Hr; apply X; auto).
  split; rewrite ?SP, ?M; auto.
  - intros l Hl. rewrite Hk by lia. auto.
  - intros f Hf r Hr. rewrite Hk by lia. eauto.
  - intros r Hr. rewrite Hk by lia. auto.
Qed.

Lemma env_store loc frame args m ms n a v : accessible lo hi a n = true ->
  env loc frame args m ms -> env loc frame args (store n m a v) (put_mem (store n (m_mem ms) a v) ms).
Proof using Hroom.
  intros Hacc [El Es Ef Ev Ea Ec Em]. split; cbn [put_mem m_x m_sp m_mem]; auto.
  - intros w Hw. rewrite (load_store_acc lo hi) by (first [assumption | lia]). auto.
  - destruct Ev. split; rewrite (load_store_acc lo hi) by (first [assumption | lia]); assumption.
  - apply agree_store, Em.
Qed.

(** ** Positions *)

Lemma shapes_effect p : forall sp fr l k i x, shapes p sp fr = Some l -> p !! k = Some i -> l !! k = Some x ->
  exists y, effect i (fst x) (snd x) = Some y /\ l !! S k = Some y.
Proof using.
  induction p as [|j p IH]; intros sp fr l k i x Hl Hk Hx; [discriminate|].
  apply shapes_cons in Hl as (sp' & fr' & l' & He & Hl & ->). destruct k as [|k].
  - injection Hk as ->. injection Hx as <-. exists (sp', fr'). split; [exact He|].
    destruct p as [|j' p]; [injection Hl as <-; reflexivity|].
    apply shapes_cons in Hl as (? & ? & ? & _ & _ & ->). reflexivity.
  - cbn in *. eapply IH; eassumption.
Qed.

Lemma chunk_lookup k i x : prog !! k = Some i -> sh !! k = Some x -> chunks prog sh !! k = Some (gen i (fst x) (snd x)).
Proof using. intros Hi Hx. unfold HcIrGen.chunks. rewrite lookup_zip_with, Hi, Hx. reflexivity. Qed.

Lemma position_S k g : chunks prog sh !! k = Some g -> position (S k) = (position k + length g)%nat.
Proof using.
  intros Hg. unfold HcIrLayout.position. rewrite (take_S_r _ _ _ Hg), concat_app, length_app. cbn.
  rewrite app_nil_r. lia.
Qed.

Lemma code_chunk k g : chunks prog sh !! k = Some g -> code_at code (position k) (resolve lab (position k) g).
Proof using Hlay.
  intros Hg. rewrite (lay_code _ _ _ _ _ _ _ _ Hlay).
  rewrite <- (take_drop_middle _ _ _ Hg) at 1. rewrite concat_app. cbn [concat].
  rewrite !resolve_app. exists (prologue_words ++ resolve lab 3 (concat (take k (chunks prog sh)))).
  eexists. rewrite <- !app_assoc. split; [reflexivity|].
  rewrite length_app, length_resolve. reflexivity.
Qed.

(** ** Instructions without branches *)

Context (Hbase : 0 <= base) (Htop : base + 4 * Z.of_nat (length code) < 2 ^ 64).

Abbreviation sp_of s := (Z.of_nat (length (i_stack s))) (only parsing).

Lemma gen_straight i sp fr : is_jump (h_op i) = false -> gen i sp fr = map W (gen_words i sp fr).
Proof using. intros Hj. unfold HcIrGen.gen. destruct (h_op i); try discriminate; apply app_nil_r. Qed.

Lemma sim_after i s ms st loc frame args m :
  sim s ms -> prog !! i_pc s = Some i -> is_jump (h_op i) = false ->
  let ws := gen_words i (sp_of s) (is_framed (i_frame s)) in
  let ms' := run ws ms in
  Forall plain ws -> effect i (sp_of s) (is_framed (i_frame s)) = Some (Z.of_nat (length st), is_framed frame) ->
  (length st <= 7)%nat -> Forall (is_u 64) st -> stack_regs (m_x ms') st -> env loc frame args m ms' ->
  exists ms', steps ms ms' /\ sim (mk_ir (S (i_pc s)) st loc frame args m) ms'.
Proof using Hsh Hlay Hbase Htop.
  intros Hsim Hi Hj ws ms' Hplain He Hd Hu Hregs Henv. exists ms'.
  destruct (shapes_effect _ _ _ _ _ _ _ Hsh Hi (sim_shape _ _ Hsim)) as (y & Hy & Hnext).
  cbn [fst snd] in Hy. rewrite He in Hy. injection Hy as <-.
  pose proof (chunk_lookup _ _ _ Hi (sim_shape _ _ Hsim)) as Hc. cbn [fst snd] in Hc.
  pose proof (code_chunk _ _ Hc) as Hcode. rewrite gen_straight in Hcode by exact Hj. rewrite resolve_W in Hcode.
  destruct (run_steps code base host Hbase Htop ws _ ms Hcode Hplain (sim_pc _ _ Hsim)) as [Hsteps Hpc].
  split; [exact Hsteps|]. split; cbn [i_pc i_stack i_locals i_frame i_args i_mem]; try assumption.
  rewrite (position_S _ _ Hc), gen_straight, length_map by exact Hj. exact Hpc.
Qed.

(** An instruction that leaves memory, locals and frame alone. *)
Lemma sim_only i s ms st rs :
  sim s ms -> prog !! i_pc s = Some i -> is_jump (h_op i) = false ->
  let ws := gen_words i (sp_of s) (is_framed (i_frame s)) in
  Forall plain ws ->
  effect i (sp_of s) (is_framed (i_frame s)) = Some (Z.of_nat (length st), is_framed (i_frame s)) ->
  (length st <= 7)%nat -> Forall (is_u 64) st ->
  only rs ms (run ws ms) -> (forall r, In r rs -> r = 8 \/ 9 <= r <= 18) -> stack_regs (m_x (run ws ms)) st ->
  exists ms', steps ms ms' /\ sim (mk_ir (S (i_pc s)) st (i_locals s) (i_frame s) (i_args s) (i_mem s)) ms'.
Proof using Hsh Hlay Hbase Htop.
  intros Hsim Hi Hj ws Hplain He Hd Hu Ho Hrs Hregs. eapply sim_after; try eassumption.
  eapply env_only; [exact Ho|exact Hrs|exact (sim_env _ _ Hsim)].
Qed.

(** Pushing [v] over the stack slots [rest], which the block keeps. *)
Lemma sim_push i s ms v top rest rs :
  sim s ms -> prog !! i_pc s = Some i -> is_jump (h_op i) = false -> i_stack s = top ++ rest ->
  let ws := gen_words i (sp_of s) (is_framed (i_frame s)) in
  Forall plain ws ->
  effect i (sp_of s) (is_framed (i_frame s)) = Some (Z.of_nat (length (v :: rest)), is_framed (i_frame s)) ->
  (length rest <= 6)%nat -> is_u 64 v ->
  only rs ms (run ws ms) -> (forall r, In r rs -> r = 8 \/ 9 + Z.of_nat (length rest) <= r <= 18) ->
  m_x (run ws ms) (9 + Z.of_nat (length rest)) = v ->
  exists ms', steps ms ms' /\ sim (mk_ir (S (i_pc s)) (v :: rest) (i_locals s) (i_frame s) (i_args s) (i_mem s)) ms'.
Proof using Hsh Hlay Hbase Htop.
  intros Hsim Hi Hj Hst ws Hplain He Hd Hv Ho Hrs Hval.
  pose proof (sim_range _ _ Hsim) as Hu. rewrite Hst in Hu. apply Forall_app in Hu as [_ Hu].
  pose proof (sim_regs _ _ Hsim) as Hr. rewrite Hst in Hr.
  assert (Hrest : stack_regs (m_x ms) rest) by (clear - Hr; induction top; [exact Hr|apply IHtop, Hr]).
  eapply (sim_only i s ms (v :: rest) rs); try eassumption.
  - cbn. lia.
  - constructor; assumption.
  - intros r Hin. specialize (Hrs r Hin). lia.
  - split; [exact Hval|]. eapply stack_regs_keep; [|exact Hrest]. intros r Hrange.
    apply (only_x _ _ _ Ho). intros Hin. specialize (Hrs r Hin). lia.
Qed.

(** ** Families *)

Abbreviation ir_step := (ir_step g_hc_fp g_hc_alloc g_hc_mem lo hi prog) (only parsing).

(** [preserves i]: a step at an [i] is simulated. *)
Definition preserves (i : hinsn) : Prop := forall s ms s',
  sim s ms -> prog !! i_pc s = Some i -> ir_step s = Some (inl s') -> exists ms', steps ms ms' /\ sim s' ms'.

Ltac ir_inv H Hi := unfold HcIrSem.ir_step in H; rewrite Hi in H; cbn [h_op h_a h_b] in H.
Ltac ir_stack s H := destruct (i_stack s) as [|? [|? ?]] eqn:?; cbn in H; try discriminate.

Lemma stack_top s ms v st : sim s ms -> i_stack s = v :: st ->
  m_x ms (9 + Z.of_nat (length st)) = v /\ is_u 64 v /\ (length st <= 6)%nat.
Proof using Htop host.
  intros Hs Hst. pose proof (sim_regs _ _ Hs) as Hr. pose proof (sim_range _ _ Hs) as Hu. pose proof (sim_depth _ _ Hs) as Hd.
  rewrite Hst in *. inversion Hu; subst. cbn in Hr, Hd. split; [tauto|]. split; [assumption|lia].
Qed.
Lemma stack_two s ms y x st : sim s ms -> i_stack s = y :: x :: st ->
  m_x ms (9 + Z.of_nat (length st) + 1) = y /\ m_x ms (9 + Z.of_nat (length st)) = x /\
  is_u 64 x /\ is_u 64 y /\ (length st <= 5)%nat.
Proof using Htop host.
  intros Hs Hst. pose proof (sim_regs _ _ Hs) as Hr. pose proof (sim_range _ _ Hs) as Hu. pose proof (sim_depth _ _ Hs) as Hd.
  rewrite Hst in *. inversion Hu as [|? ? Hy Hu']; subst. inversion Hu'; subst. cbn in Hr, Hd.
  replace (9 + Z.of_nat (S (length st))) with (9 + Z.of_nat (length st) + 1) in Hr by lia.
  split_and!; try tauto. lia.
Qed.

(** [st] at the depth of a stack [y :: x :: rest] or [x :: rest]. *)
Lemma st_two (x y : Z) rest : st (Z.of_nat (length (y :: x :: rest))) 1 = 9 + Z.of_nat (length rest) /\
  st (Z.of_nat (length (y :: x :: rest))) 0 = 9 + Z.of_nat (length rest) + 1.
Proof using Htop host. unfold st. cbn [length]. split; lia. Qed.
Lemma st_one (x : Z) rest : st (Z.of_nat (length (x :: rest))) 0 = 9 + Z.of_nat (length rest).
Proof using Htop host. unfold st. cbn [length]. lia. Qed.

Ltac in_rs := cbn [In]; intros; first [contradiction | lia].

(** Two operands, one result in the register of the first. *)
Lemma preserves_two i s ms y x rest v rs :
  sim s ms -> prog !! i_pc s = Some i -> is_jump (h_op i) = false -> branches (h_op i) = false ->
  i_stack s = y :: x :: rest -> (forall sp fr, effect i sp fr = eff2 (-1) sp fr) -> is_u 64 v ->
  let ws := gen_words i (sp_of s) (is_framed (i_frame s)) in
  (forall r, In r rs -> r = 8 \/ r = 9 + Z.of_nat (length rest)) ->
  only rs ms (run ws ms) -> m_x (run ws ms) (9 + Z.of_nat (length rest)) = v ->
  exists ms', steps ms ms' /\ sim (mk_ir (S (i_pc s)) (v :: rest) (i_locals s) (i_frame s) (i_args s) (i_mem s)) ms'.
Proof using Hsh Hlay Hbase Htop.
  intros Hs Hi Hj Hb Hst He Hv ws Hrs Ho Hval.
  destruct (stack_two s ms y x rest Hs Hst) as (Hy & Hx & Ux & Uy & Hd).
  eapply (sim_push i s ms v [y; x] rest rs); try eassumption.
  - apply plain_gen, Hb.
  - rewrite He. unfold eff2. rewrite Hst. cbn [length]. destruct (Z.leb_spec 2 (Z.of_nat (S (S (length rest))))); [|lia].
    do 2 f_equal. lia.
  - lia.
  - intros r Hr. specialize (Hrs r Hr). lia.
Qed.


Ltac each Hop tac :=
  cbn [In binops compares loads stores funaries fbins fcompares calls] in Hop;
  repeat (destruct Hop as [<-|Hop]; [tac|]); contradiction.
(** The operands a family takes from the stack, and the state it gives. *)
Ltac step_cases Hop Hstep Hi s := each Hop ltac:(ir_inv Hstep Hi; ir_stack s Hstep; injection Hstep as <-; eauto).
Ltac two_facts Hop := solve [intros; each Hop ltac:(reflexivity)].

Lemma preserves_binop op a b : In op binops -> preserves (mk_h op a b).
Proof using Hsh Hlay Hbase Htop.
  intros Hop s ms s' Hs Hi Hstep.
  assert (exists y x rest, i_stack s = y :: x :: rest /\
    s' = mk_ir (S (i_pc s)) (binop op x y :: rest) (i_locals s) (i_frame s) (i_args s) (i_mem s)) as (y & x & rest & Hst & ->)
    by step_cases Hop Hstep Hi s.
  destruct (stack_two s ms y x rest Hs Hst) as (Hy & Hx & Ux & Uy & Hd). destruct (st_two x y rest) as [E1 E0].
  assert (Hg : forall sp fr, gen_words (mk_h op a b) sp fr = binop_words op (st sp 1) (st sp 0)) by two_facts Hop.
  destruct (run_binop op (9 + Z.of_nat (length rest)) (9 + Z.of_nat (length rest) + 1) ms Hop) as [O V];
    try (split; lia); try lia; try congruence.
  eapply (preserves_two (mk_h op a b) s ms y x rest _ [8; 9 + Z.of_nat (length rest)]); try eassumption;
    try two_facts Hop; [apply binop_u64; assumption|in_rs|..]; rewrite Hg, Hst, E1, E0; [exact O|congruence].
Qed.

Lemma preserves_compare op a b : In op compares -> preserves (mk_h op a b).
Proof using Hsh Hlay Hbase Htop.
  intros Hop s ms s' Hs Hi Hstep.
  assert (exists y x rest, i_stack s = y :: x :: rest /\
    s' = mk_ir (S (i_pc s)) (compare op x y :: rest) (i_locals s) (i_frame s) (i_args s) (i_mem s)) as (y & x & rest & Hst & ->)
    by step_cases Hop Hstep Hi s.
  destruct (stack_two s ms y x rest Hs Hst) as (Hy & Hx & Ux & Uy & Hd). destruct (st_two x y rest) as [E1 E0].
  assert (Hg : forall sp fr, gen_words (mk_h op a b) sp fr = [a64_cmp_x (st sp 1) (st sp 0); cset_word op (st sp 1)])
    by two_facts Hop.
  destruct (run_compare op (9 + Z.of_nat (length rest)) (9 + Z.of_nat (length rest) + 1) ms Hop) as [O V];
    try (split; lia); try congruence.
  eapply (preserves_two (mk_h op a b) s ms y x rest _ [9 + Z.of_nat (length rest)]); try eassumption;
    try two_facts Hop; [apply b2z_u64|in_rs|..]; rewrite Hg, Hst, E1, E0; [exact O|congruence].
Qed.

Lemma preserves_fbin op a b : In op fbins -> preserves (mk_h op a b).
Proof using Hsh Hlay Hbase Htop.
  intros Hop s ms s' Hs Hi Hstep.
  assert (exists y x rest, i_stack s = y :: x :: rest /\
    s' = mk_ir (S (i_pc s)) (fbin op x y :: rest) (i_locals s) (i_frame s) (i_args s) (i_mem s)) as (y & x & rest & Hst & ->)
    by step_cases Hop Hstep Hi s.
  destruct (stack_two s ms y x rest Hs Hst) as (Hy & Hx & Ux & Uy & Hd). destruct (st_two x y rest) as [E1 E0].
  assert (Hg : forall sp fr, gen_words (mk_h op a b) sp fr =
    [a64_fmov_d_x 0 (st sp 1); a64_fmov_d_x 1 (st sp 0); fbin_word op; a64_fmov_x_d (st sp 1) 0]) by two_facts Hop.
  destruct (run_fbin op (9 + Z.of_nat (length rest)) (9 + Z.of_nat (length rest) + 1) ms Hop) as [O V];
    try (split; lia); try congruence.
  eapply (preserves_two (mk_h op a b) s ms y x rest _ [9 + Z.of_nat (length rest)]); try eassumption;
    try two_facts Hop; [apply fbin_u64|in_rs|..]; rewrite Hg, Hst, E1, E0; [exact O|congruence].
Qed.

Lemma preserves_fcompare op a b : In op fcompares -> preserves (mk_h op a b).
Proof using Hsh Hlay Hbase Htop.
  intros Hop s ms s' Hs Hi Hstep.
  assert (exists y x rest v, i_stack s = y :: x :: rest /\ fcompare op x y = Some v /\
    s' = mk_ir (S (i_pc s)) (v :: rest) (i_locals s) (i_frame s) (i_args s) (i_mem s)) as (y & x & rest & v & Hst & Hv & ->).
  { each Hop ltac:(ir_inv Hstep Hi; ir_stack s Hstep;
      match type of Hstep with context [HcIrSem.fcompare ?o ?x ?y] => destruct (HcIrSem.fcompare o x y) eqn:?; [|discriminate] end;
      injection Hstep as <-; eauto 10). }
  destruct (stack_two s ms y x rest Hs Hst) as (Hy & Hx & Ux & Uy & Hd). destruct (st_two x y rest) as [E1 E0].
  assert (Hg : forall sp fr, gen_words (mk_h op a b) sp fr =
    [a64_fmov_d_x 0 (st sp 1); a64_fmov_d_x 1 (st sp 0); a64_fcmp_d 0 1; fcset_word op (st sp 1)]) by two_facts Hop.
  destruct (run_fcompare op (9 + Z.of_nat (length rest)) (9 + Z.of_nat (length rest) + 1) ms v Hop) as [O V];
    try (split; lia); try congruence.
  eapply (preserves_two (mk_h op a b) s ms y x rest _ [9 + Z.of_nat (length rest)]); try eassumption;
    try two_facts Hop; [eapply fcompare_u64, Hv|in_rs|..]; rewrite Hg, Hst, E1, E0; [exact O|congruence].
Qed.

(** One operand, the result in its register. *)
Lemma preserves_one i s ms x rest v rs :
  sim s ms -> prog !! i_pc s = Some i -> is_jump (h_op i) = false -> branches (h_op i) = false ->
  i_stack s = x :: rest -> (forall sp fr, effect i sp fr = if 1 <=? sp then Some (sp, fr) else None) -> is_u 64 v ->
  let ws := gen_words i (sp_of s) (is_framed (i_frame s)) in
  (forall r, In r rs -> r = 9 + Z.of_nat (length rest)) ->
  only rs ms (run ws ms) -> m_x (run ws ms) (9 + Z.of_nat (length rest)) = v ->
  exists ms', steps ms ms' /\ sim (mk_ir (S (i_pc s)) (v :: rest) (i_locals s) (i_frame s) (i_args s) (i_mem s)) ms'.
Proof using Hsh Hlay Hbase Htop.
  intros Hs Hi Hj Hb Hst He Hv ws Hrs Ho Hval. destruct (stack_top s ms x rest Hs Hst) as (Hx & Ux & Hd).
  eapply (sim_push i s ms v [x] rest rs); try eassumption.
  - apply plain_gen, Hb.
  - rewrite He, Hst. cbn [length]. destruct (Z.leb_spec 1 (Z.of_nat (S (length rest)))); [reflexivity|lia].
  - intros r Hr. specialize (Hrs r Hr). lia.
Qed.

Lemma preserves_funary op a b : In op funaries -> preserves (mk_h op a b).
Proof using Hsh Hlay Hbase Htop.
  intros Hop s ms s' Hs Hi Hstep.
  assert (exists x rest, i_stack s = x :: rest /\
    s' = mk_ir (S (i_pc s)) (funary op x :: rest) (i_locals s) (i_frame s) (i_args s) (i_mem s)) as (x & rest & Hst & ->)
    by step_cases Hop Hstep Hi s.
  destruct (stack_top s ms x rest Hs Hst) as (Hx & Ux & Hd). pose proof (st_one x rest) as E0.
  assert (Hg : forall sp fr, gen_words (mk_h op a b) sp fr = funary_words op (st sp 0)) by two_facts Hop.
  destruct (run_funary op (9 + Z.of_nat (length rest)) ms Hop) as [O V]; try (split; lia); try congruence.
  eapply (preserves_one (mk_h op a b) s ms x rest _ [9 + Z.of_nat (length rest)]); try eassumption;
    try two_facts Hop; [apply funary_u64|in_rs|..]; rewrite Hg, Hst, E0; [exact O|congruence].
Qed.

Lemma preserves_load op a b : In op loads -> preserves (mk_h op a b).
Proof using Hsh Hlay Hbase Htop.
  intros Hop s ms s' Hs Hi Hstep.
  assert (exists x rest, i_stack s = x :: rest /\ accessible lo hi x (access_size op) = true /\ (access_size op <= 8)%nat /\
    s' = mk_ir (S (i_pc s)) (load (access_size op) (i_mem s) x :: rest) (i_locals s) (i_frame s) (i_args s) (i_mem s))
    as (x & rest & Hst & Hacc & H8 & ->).
  { each Hop ltac:(ir_inv Hstep Hi; ir_stack s Hstep; unfold load_ok in Hstep; cbn [access_size] in *;
      case_if; try discriminate; injection Hstep as <-; do 2 eexists; split_and!; first [reflexivity | assumption | lia]). }
  destruct (stack_top s ms x rest Hs Hst) as (Hx & Ux & Hd). pose proof (st_one x rest) as E0.
  assert (Hg : forall sp fr, gen_words (mk_h op a b) sp fr = [load_word op (st sp 0)]) by two_facts Hop.
  assert (Hr : is_reg (9 + Z.of_nat (length rest))) by (split; lia).
  pose proof (e_mem _ _ _ _ _ (sim_env _ _ Hs)) as Ha.
  eapply (preserves_one (mk_h op a b) s ms x rest _ [9 + Z.of_nat (length rest)]); try eassumption;
    try two_facts Hop; [apply load_u64; exact H8|in_rs|..]; rewrite Hg, Hst, E0, run_one, w_load by assumption.
  - apply only_put. cbn. tauto.
  - rewrite put_same, Hx, u64_load by exact H8. eapply agree_load; [exact Ha|exact Hacc].
Qed.

Lemma preserves_neg a b : preserves (mk_h HC_NEG a b).
Proof using Hsh Hlay Hbase Htop.
  intros s ms s' Hs Hi Hstep. ir_inv Hstep Hi. destruct (i_stack s) as [|x rest] eqn:Hst; [discriminate|]. injection Hstep as <-.
  destruct (stack_top s ms x rest Hs Hst) as (Hx & Ux & Hd). pose proof (st_one x rest) as E0.
  assert (Hr : is_reg (9 + Z.of_nat (length rest))) by (split; lia).
  eapply (preserves_one _ s ms x rest _ [9 + Z.of_nat (length rest)]); try eassumption; try reflexivity;
    [apply is_u64_u64|in_rs|..]; cbn [HcIrGen.gen_words h_op]; rewrite Hst, E0, run_one, w_neg by assumption.
  - apply only_put. cbn. tauto.
  - rewrite put_same, Hx. reflexivity.
Qed.

(** A block that pushes [v], computed without the stack. *)
Lemma preserves_push i s ms v rs :
  sim s ms -> prog !! i_pc s = Some i -> is_jump (h_op i) = false -> branches (h_op i) = false ->
  effect i (sp_of s) (is_framed (i_frame s)) = push 1 (sp_of s) (is_framed (i_frame s)) -> (length (i_stack s) <= 6)%nat ->
  is_u 64 v -> let ws := gen_words i (sp_of s) (is_framed (i_frame s)) in
  (forall r, In r rs -> r = 9 + sp_of s \/ r = 17) ->
  only rs ms (run ws ms) -> m_x (run ws ms) (9 + sp_of s) = v ->
  exists ms', steps ms ms' /\ sim (mk_ir (S (i_pc s)) (v :: i_stack s) (i_locals s) (i_frame s) (i_args s) (i_mem s)) ms'.
Proof using Hsh Hlay Hbase Htop.
  intros Hs Hi Hj Hb He Hd Hv ws Hrs Ho Hval.
  eapply (sim_push i s ms v [] (i_stack s) rs); try eassumption.
  - reflexivity.
  - apply plain_gen, Hb.
  - rewrite He. unfold push. cbn [length].
    destruct (Z.leb_spec 0 (sp_of s)), (Z.leb_spec (sp_of s + 1) 7); try lia. cbn [andb]. do 2 f_equal. lia.
  - intros r Hr. specialize (Hrs r Hr). lia.
Qed.

(** The depth a push finds: the shapes leave room for it. *)
Lemma push_room i s ms : sim s ms -> prog !! i_pc s = Some i ->
  effect i (sp_of s) (is_framed (i_frame s)) = push 1 (sp_of s) (is_framed (i_frame s)) -> (length (i_stack s) <= 6)%nat.
Proof using Hsh Hbase Htop host.
  intros Hs Hi He. destruct (shapes_effect _ _ _ _ _ _ _ Hsh Hi (sim_shape _ _ Hs)) as (y & Hy & _).
  cbn [fst snd] in Hy. rewrite He in Hy. unfold push in Hy.
  destruct (Z.leb_spec 0 (sp_of s)), (Z.leb_spec (sp_of s + 1) 7); try discriminate; lia.
Qed.

Lemma operand i s : prog !! i_pc s = Some i -> operand_ok i = true.
Proof using Hops. intros Hi. rewrite forallb_forall in Hops. apply Hops, list_elem_of_In. eapply list_elem_of_lookup_2, Hi. Qed.

(** *** Pushes *)

Ltac pushes s ms Hs Hi := pose proof (push_room _ s ms Hs Hi eq_refl) as Hd; pose proof (operand _ s Hi) as Hok;
  unfold operand_ok in Hok; cbn [h_op h_a h_b] in Hok; bool_hyps; zbool.

Lemma preserves_imm64 a b : preserves (mk_h HC_IMM64 a b).
Proof using Hsh Hlay Hbase Htop Hops.
  intros s ms s' Hs Hi Hstep. ir_inv Hstep Hi. injection Hstep as <-. pushes s ms Hs Hi.
  assert (Hu : is_u 64 a) by (split; lia).
  destruct (run_imm64 (9 + sp_of s) a ms) as [O V]; [split; lia|exact Hu|].
  eapply (preserves_push _ s ms a [9 + sp_of s]); try eassumption; try reflexivity. in_rs.
Qed.

Lemma preserves_ld_local a b : preserves (mk_h HC_LD_LOCAL a b).
Proof using Hsh Hlay Hbase Htop Hops.
  intros s ms s' Hs Hi Hstep. ir_inv Hstep Hi. injection Hstep as <-. pushes s ms Hs Hi.
  destruct (e_loc _ _ _ _ _ (sim_env _ _ Hs) a) as [Hl Hu]; [lia|].
  eapply (preserves_push _ s ms _ [9 + sp_of s]); try eassumption; try reflexivity; [in_rs|..];
    cbn [HcIrGen.gen_words h_op h_a]; unfold hc_local_reg; rewrite run_one, w_mov by (split; lia).
  - apply only_put. cbn. tauto.
  - rewrite put_same, Hl. apply u64_id', Hu.
Qed.

Lemma preserves_dup a b : preserves (mk_h HC_DUP a b).
Proof using Hsh Hlay Hbase Htop Hops.
  intros s ms s' Hs Hi Hstep. ir_inv Hstep Hi. destruct (i_stack s) as [|x rest] eqn:Hst; [discriminate|]. injection Hstep as <-.
  destruct (stack_top s ms x rest Hs Hst) as (Hx & Ux & _).
  assert (He : effect (mk_h HC_DUP a b) (sp_of s) (is_framed (i_frame s)) = push 1 (sp_of s) (is_framed (i_frame s))).
  { unfold effect. cbn [h_op]. rewrite Hst. cbn [length]. destruct (Z.leb_spec 1 (Z.of_nat (S (length rest)))); [reflexivity|lia]. }
  pose proof (push_room _ s ms Hs Hi He) as Hd. pose proof (st_one x rest) as E0.
  rewrite <- Hst. rewrite <- Hst in E0. assert (Hl : length (i_stack s) = S (length rest)) by (rewrite Hst; reflexivity).
  eapply (preserves_push _ s ms x [9 + sp_of s]); try eassumption; try reflexivity; [in_rs|..];
    cbn [HcIrGen.gen_words h_op h_a]; rewrite E0, run_one, w_mov by (split; lia).
  - apply only_put. cbn. tauto.
  - rewrite put_same, Hx. apply u64_id', Ux.
Qed.

Lemma slot_addr_agree s ms a : sim s ms ->
  slot_addr g_hc_fp g_hc_mem (m_mem ms) a = slot_addr g_hc_fp g_hc_mem (i_mem s) a.
Proof using Afp.
  intros Hs. unfold slot_addr. rewrite (agree_load lo hi 8 (m_mem ms) (i_mem s)); [reflexivity| |exact Afp].
  apply (e_mem _ _ _ _ _ (sim_env _ _ Hs)).
Qed.

Lemma preserves_slot_addr a b : preserves (mk_h HC_SLOT_ADDR a b).
Proof using Hsh Hlay Hbase Htop Hops Hfp Hmem Afp.
  intros s ms s' Hs Hi Hstep. ir_inv Hstep Hi. injection Hstep as <-. pushes s ms Hs Hi.
  destruct (run_slot_addr g_hc_fp g_hc_mem Hfp Hmem (9 + sp_of s) a ms) as [O V]; [split; lia|lia|lia|].
  eapply (preserves_push _ s ms _ [9 + sp_of s; 17]); try eassumption; try reflexivity;
    [apply is_u64_u64|in_rs|]. rewrite <- (slot_addr_agree s ms a Hs). exact V.
Qed.

Lemma preserves_abs_addr a b : preserves (mk_h HC_ABS_ADDR a b).
Proof using Hsh Hlay Hbase Htop Hops.
  intros s ms s' Hs Hi Hstep. ir_inv Hstep Hi. injection Hstep as <-. pushes s ms Hs Hi.
  destruct (run_abs_addr (9 + sp_of s) g_hc_mem a ms) as [O V]; [split; lia|].
  eapply (preserves_push _ s ms _ [9 + sp_of s]); try eassumption; try reflexivity; [apply is_u64_u64|in_rs].
Qed.

Lemma load_ok_inv m n p v : load_ok lo hi n m p = Some v -> accessible lo hi p n = true /\ v = load n m p.
Proof using. unfold load_ok. case_if; intros; simplify_eq. auto. Qed.
Lemma store_ok_inv m n p v m' : store_ok lo hi n m p v = Some m' -> accessible lo hi p n = true /\ m' = store n m p v.
Proof using. unfold store_ok. case_if; intros; simplify_eq. auto. Qed.

Lemma preserves_ld_slot a b : preserves (mk_h HC_LD_SLOT a b).
Proof using Hsh Hlay Hbase Htop Hops Hfp Hmem Afp.
  intros s ms s' Hs Hi Hstep. ir_inv Hstep Hi. apply bind_Some in Hstep as (v & Hv & Hstep). injection Hstep as <-.
  apply load_ok_inv in Hv as [Hacc ->]. pushes s ms Hs Hi.
  assert (Hr : is_reg (9 + sp_of s)) by (split; lia).
  destruct (run_slot_addr g_hc_fp g_hc_mem Hfp Hmem (9 + sp_of s) a ms) as [O V]; [exact Hr|lia|lia|].
  pose proof (e_mem _ _ _ _ _ (sim_env _ _ Hs)) as Ha.
  eapply (preserves_push _ s ms _ [9 + sp_of s; 17]); try eassumption; try reflexivity; [apply load_u64; lia|in_rs|..];
    cbn [HcIrGen.gen_words h_op h_a]; rewrite run_app, run_one, w_ldr by exact Hr.
  - eapply only_after; [apply only_put; cbn; tauto|exact O].
  - rewrite put_same, V, (only_mem _ _ _ O), (slot_addr_agree s ms a Hs), u64_load by lia. eapply agree_load; eassumption.
Qed.

Lemma preserves_ld_abs a b : preserves (mk_h HC_LD_ABS a b).
Proof using Hsh Hlay Hbase Htop Hops.
  intros s ms s' Hs Hi Hstep. ir_inv Hstep Hi. apply bind_Some in Hstep as (v & Hv & Hstep). injection Hstep as <-.
  apply load_ok_inv in Hv as [Hacc ->]. pushes s ms Hs Hi.
  assert (Hr : is_reg (9 + sp_of s)) by (split; lia).
  destruct (run_abs_addr (9 + sp_of s) g_hc_mem a ms) as [O V]; [exact Hr|].
  pose proof (e_mem _ _ _ _ _ (sim_env _ _ Hs)) as Ha.
  eapply (preserves_push _ s ms _ [9 + sp_of s]); try eassumption; try reflexivity; [apply load_u64; lia|in_rs|..];
    cbn [HcIrGen.gen_words h_op h_a]; rewrite run_app, run_one, w_ldr by exact Hr.
  - eapply only_after; [apply only_put; cbn; tauto|exact O].
  - rewrite put_same, V, (only_mem _ _ _ O), u64_load by lia. eapply agree_load; eassumption.
Qed.

(** *** Pops *)

(** A block without words. *)
Lemma preserves_nop i s ms st : sim s ms -> prog !! i_pc s = Some i -> is_jump (h_op i) = false ->
  gen_words i (sp_of s) (is_framed (i_frame s)) = [] ->
  effect i (sp_of s) (is_framed (i_frame s)) = Some (Z.of_nat (length st), is_framed (i_frame s)) ->
  (exists top, i_stack s = top ++ st) ->
  exists ms', steps ms ms' /\ sim (mk_ir (S (i_pc s)) st (i_locals s) (i_frame s) (i_args s) (i_mem s)) ms'.
Proof using Hsh Hlay Hbase Htop.
  intros Hs Hi Hj Hg He [top Htop']. pose proof (sim_range _ _ Hs) as Hu. rewrite Htop' in Hu.
  apply Forall_app in Hu as [_ Hu]. pose proof (sim_regs _ _ Hs) as Hr. rewrite Htop' in Hr.
  pose proof (sim_depth _ _ Hs) as Hd. rewrite Htop', length_app in Hd.
  eapply (sim_only i s ms st []); try eassumption; rewrite ?Hg.
  - constructor.
  - lia.
  - apply only_refl.
  - intros r [].
  - cbn. clear - Hr. induction top; [exact Hr|apply IHtop, Hr].
Qed.

Lemma preserves_drop a b : preserves (mk_h HC_DROP a b).
Proof using Hsh Hlay Hbase Htop.
  intros s ms s' Hs Hi Hstep. ir_inv Hstep Hi. destruct (i_stack s) as [|x rest] eqn:Hst; [discriminate|]. injection Hstep as <-.
  eapply preserves_nop; try eassumption; try reflexivity; [|exists [x]; exact Hst].
  unfold effect, pops. cbn [h_op]. rewrite Hst. cbn [length]. destruct (Z.leb_spec 1 (Z.of_nat (S (length rest)))); [|lia].
  do 2 f_equal. lia.
Qed.

Lemma preserves_label a b : preserves (mk_h HC_LABEL a b).
Proof using Hsh Hlay Hbase Htop.
  intros s ms s' Hs Hi Hstep. ir_inv Hstep Hi. injection Hstep as <-.
  eapply preserves_nop; try eassumption; try reflexivity. exists []. reflexivity.
Qed.

Lemma preserves_swap a b : preserves (mk_h HC_SWAP a b).
Proof using Hsh Hlay Hbase Htop.
  intros s ms s' Hs Hi Hstep. ir_inv Hstep Hi. destruct (i_stack s) as [|y [|x rest]] eqn:Hst; try discriminate. injection Hstep as <-.
  destruct (stack_two s ms y x rest Hs Hst) as (Hy & Hx & Ux & Uy & Hd). destruct (st_two x y rest) as [E1 E0].
  pose proof (sim_range _ _ Hs) as Hu. rewrite Hst, !Forall_cons_iff in Hu.
  pose proof (sim_regs _ _ Hs) as Hr. rewrite Hst in Hr. destruct Hr as (_ & _ & Hr).
  set (rx := 9 + Z.of_nat (length rest)) in *. assert (R1 : is_reg rx) by (split; lia). assert (R2 : is_reg (rx + 1)) by (split; lia).
  assert (R3 : is_reg 16) by (split; lia).
  eapply (sim_only _ s ms (x :: y :: rest) [16; rx; rx + 1]); try eassumption; try reflexivity.
  - apply plain_gen. reflexivity.
  - unfold effect. cbn [h_op]. rewrite Hst. cbn [length]. destruct (Z.leb_spec 2 (Z.of_nat (S (S (length rest))))); [reflexivity|lia].
  - cbn. lia.
  - rewrite !Forall_cons_iff. tauto.
  - cbn [HcIrGen.gen_words h_op]. rewrite Hst, E1, E0, !run_cons, run_nil, !w_mov by assumption.
    repeat first [apply only_refl | eapply only_after; [apply only_put; cbn; tauto|]].
  - in_rs.
  - cbn [HcIrGen.gen_words h_op]. rewrite Hst, E1, E0, !run_cons, run_nil, !w_mov by assumption.
    cbn [stack_regs length]. replace (9 + Z.of_nat (S (length rest))) with (rx + 1) by lia. fold rx.
    rewrite !put_same. rewrite (put_other (rx + 1)) by lia. rewrite put_same, (put_other rx) by lia.
    rewrite put_same, (put_other 16 _ ms (rx + 1)) by lia. rewrite Hx, Hy, !(u64_id' x), (u64_id' y) by assumption.
    split; [reflexivity|]. split; [reflexivity|].
    eapply stack_regs_keep; [|exact Hr]. intros r Hrange. rewrite !put_other by lia. reflexivity.
Qed.

(** *** Stores *)

(** The last word of the block stores [v] at [p]; before it the block only computes. *)
Lemma preserves_store_word i s ms top rest ms1 n p v rs :
  sim s ms -> prog !! i_pc s = Some i -> is_jump (h_op i) = false -> branches (h_op i) = false ->
  i_stack s = top ++ rest ->
  effect i (sp_of s) (is_framed (i_frame s)) = Some (Z.of_nat (length rest), is_framed (i_frame s)) ->
  accessible lo hi p n = true -> only rs ms ms1 -> (forall r, In r rs -> 16 <= r <= 18) ->
  run (gen_words i (sp_of s) (is_framed (i_frame s))) ms = put_mem (store n (m_mem ms) p v) ms1 ->
  exists ms', steps ms ms' /\
    sim (mk_ir (S (i_pc s)) rest (i_locals s) (i_frame s) (i_args s) (store n (i_mem s) p v)) ms'.
Proof using Hsh Hlay Hbase Htop Hroom.
  intros Hs Hi Hj Hb Hst He Hacc Ho Hrs Hrun.
  pose proof (sim_range _ _ Hs) as Hu. rewrite Hst in Hu. apply Forall_app in Hu as [_ Hu].
  pose proof (sim_depth _ _ Hs) as Hd. rewrite Hst, length_app in Hd.
  pose proof (sim_regs _ _ Hs) as Hr. rewrite Hst in Hr.
  assert (Hrest : stack_regs (m_x ms) rest) by (clear - Hr; induction top; [exact Hr|apply IHtop, Hr]).
  eapply (sim_after i s ms rest); try eassumption; rewrite ?Hrun.
  - apply plain_gen, Hb.
  - lia.
  - cbn [put_mem m_x]. eapply stack_regs_keep; [|exact Hrest]. intros r Hrange. apply (only_x _ _ _ Ho).
    intros Hin. specialize (Hrs r Hin). lia.
  - rewrite <- (only_mem _ _ _ Ho). apply env_store; [exact Hacc|]. eapply env_only; [exact Ho| |exact (sim_env _ _ Hs)].
    intros r Hin. specialize (Hrs r Hin). lia.
Qed.


Lemma preserves_store op a b : In op stores -> preserves (mk_h op a b).
Proof using Hsh Hlay Hbase Htop Hroom.
  intros Hop s ms s' Hs Hi Hstep.
  assert (exists v p rest, i_stack s = v :: p :: rest /\ accessible lo hi p (access_size op) = true /\
    s' = mk_ir (S (i_pc s)) rest (i_locals s) (i_frame s) (i_args s) (store (access_size op) (i_mem s) p v))
    as (v & p & rest & Hst & Hacc & ->).
  { each Hop ltac:(ir_inv Hstep Hi; ir_stack s Hstep; unfold store_ok in Hstep; cbn [access_size] in *;
      case_if; try discriminate; injection Hstep as <-; do 3 eexists; split_and!; first [reflexivity | assumption]). }
  destruct (stack_two s ms v p rest Hs Hst) as (Hv & Hp & _ & _ & Hd). destruct (st_two p v rest) as [E1 E0].
  assert (Hg : forall sp fr, gen_words (mk_h op a b) sp fr = [store_word op (st sp 0) (st sp 1)]) by two_facts Hop.
  assert (He : forall sp fr, effect (mk_h op a b) sp fr = pops 2 sp fr) by two_facts Hop.
  eapply (preserves_store_word (mk_h op a b) s ms [v; p] rest ms _ p v []); try eassumption; try two_facts Hop.
  - rewrite He, Hst. cbn [length]. apply pops_effect; lia.
  - apply only_refl.
  - rewrite Hg, Hst, E1, E0, run_one, w_store by (try assumption; split; lia). rewrite Hp, Hv. reflexivity.
Qed.

Lemma preserves_st_slot a b : preserves (mk_h HC_ST_SLOT a b).
Proof using Hsh Hlay Hbase Htop Hroom Hops Hfp Hmem Afp.
  intros s ms s' Hs Hi Hstep. ir_inv Hstep Hi. destruct (i_stack s) as [|v rest] eqn:Hst; [discriminate|].
  apply bind_Some in Hstep as (m' & Hm & Hstep). injection Hstep as <-. apply store_ok_inv in Hm as [Hacc ->].
  pose proof (operand _ s Hi) as Hok. unfold operand_ok in Hok. cbn [h_op h_a h_b] in Hok. bool_hyps. zbool.
  destruct (stack_top s ms v rest Hs Hst) as (Hv & _ & Hd). pose proof (st_one v rest) as E0.
  assert (H16 : is_reg 16) by (split; lia).
  destruct (run_slot_addr g_hc_fp g_hc_mem Hfp Hmem 16 a ms) as [O V]; [exact H16|lia..|].
  rewrite (slot_addr_agree s ms a Hs) in V.
  eapply (preserves_store_word _ s ms [v] rest _ _ _ _ [16; 17]); try eassumption; try reflexivity.
  - unfold effect. cbn [h_op]. rewrite Hst. cbn [length]. apply pops_effect; lia.
  - in_rs.
  - cbn [HcIrGen.gen_words h_op h_a]. rewrite Hst, E0, run_app, run_one, w_str by (split; lia).
    rewrite V, (only_mem _ _ _ O), (only_x _ _ _ O), Hv by (cbn; lia). reflexivity.
Qed.

Lemma preserves_st_abs a b : preserves (mk_h HC_ST_ABS a b).
Proof using Hsh Hlay Hbase Htop Hroom Hops.
  intros s ms s' Hs Hi Hstep. ir_inv Hstep Hi. destruct (i_stack s) as [|v rest] eqn:Hst; [discriminate|].
  apply bind_Some in Hstep as (m' & Hm & Hstep). injection Hstep as <-. apply store_ok_inv in Hm as [Hacc ->].
  destruct (stack_top s ms v rest Hs Hst) as (Hv & _ & Hd). pose proof (st_one v rest) as E0.
  assert (H16 : is_reg 16) by (split; lia).
  destruct (run_abs_addr 16 g_hc_mem a ms H16) as [O V].
  eapply (preserves_store_word _ s ms [v] rest _ _ _ _ [16]); try eassumption; try reflexivity.
  - unfold effect. cbn [h_op]. rewrite Hst. cbn [length]. apply pops_effect; lia.
  - in_rs.
  - cbn [HcIrGen.gen_words h_op h_a]. rewrite Hst, E0, run_app, run_one, w_str by (split; lia).
    rewrite V, (only_mem _ _ _ O), (only_x _ _ _ O), Hv by (cbn; lia). reflexivity.
Qed.

Lemma preserves_inarg a b : preserves (mk_h HC_INARG a b).
Proof using Hsh Hlay Hbase Htop Hroom Hops Hfp Hmem Afp.
  intros s ms s' Hs Hi Hstep. ir_inv Hstep Hi. apply bind_Some in Hstep as (f & Hf & Hstep).
  apply bind_Some in Hstep as (m' & Hm & Hstep). injection Hstep as <-. apply store_ok_inv in Hm as [Hacc ->].
  pose proof (operand _ s Hi) as Hok. unfold operand_ok in Hok. cbn [h_op h_a h_b] in Hok. bool_hyps. zbool.
  assert (H16 : is_reg 16) by (split; lia).
  destruct (run_slot_addr g_hc_fp g_hc_mem Hfp Hmem 16 a ms) as [O V]; [exact H16|lia..|].
  rewrite (slot_addr_agree s ms a Hs) in V.
  pose proof (e_args _ _ _ _ _ (sim_env _ _ Hs) f Hf b ltac:(lia)) as Hb.
  eapply (preserves_store_word _ s ms [] (i_stack s) _ _ _ _ [16; 17]); try eassumption; try reflexivity.
  - in_rs.
  - cbn [HcIrGen.gen_words h_op h_a h_b]. rewrite run_app, run_one, w_str by (split; lia).
    rewrite V, (only_mem _ _ _ O), (only_x _ _ _ O), Hb by (cbn; lia). reflexivity.
Qed.

(** *** Locals and frames *)

Lemma preserves_st_local a b : preserves (mk_h HC_ST_LOCAL a b).
Proof using Hsh Hlay Hbase Htop Hops.
  intros s ms s' Hs Hi Hstep. ir_inv Hstep Hi. destruct (i_stack s) as [|v rest] eqn:Hst; [discriminate|]. injection Hstep as <-.
  pose proof (operand _ s Hi) as Hok. unfold operand_ok in Hok. cbn [h_op h_a h_b] in Hok. bool_hyps. zbool.
  destruct (stack_top s ms v rest Hs Hst) as (Hv & Uv & Hd). pose proof (st_one v rest) as E0.
  pose proof (sim_range _ _ Hs) as Hu. rewrite Hst, Forall_cons_iff in Hu.
  pose proof (sim_regs _ _ Hs) as Hr. rewrite Hst in Hr. destruct Hr as [_ Hr].
  assert (Hrun : run (gen_words (mk_h HC_ST_LOCAL a b) (sp_of s) (is_framed (i_frame s))) ms = put (20 + a) v ms).
  { cbn [HcIrGen.gen_words h_op h_a]. unfold hc_local_reg. rewrite Hst, E0, run_one, w_mov by (split; lia).
    rewrite Hv, u64_id' by exact Uv. reflexivity. }
  eapply (sim_after _ s ms rest); try eassumption; try reflexivity; rewrite ?Hrun.
  - apply plain_gen. reflexivity.
  - unfold effect. cbn [h_op]. rewrite Hst. cbn [length]. apply pops_effect; lia.
  - lia.
  - apply Hu.
  - eapply stack_regs_keep; [|exact Hr]. intros r Hrange. apply put_other. lia.
  - destruct (sim_env _ _ Hs) as [El Es Ef Ev Ea Ec Em]. split; auto.
    + intros l Hl. unfold upd_fun. destruct (Z.eqb_spec l a) as [->|Hne].
      * rewrite put_same. auto.
      * rewrite put_other by lia. auto.
    + intros f Hf r Hrange. rewrite put_other by lia. eauto.
    + intros r Hr'. rewrite put_other by lia. auto.
Qed.

Lemma preserves_enter a b : preserves (mk_h HC_ENTER a b).
Proof using Hsh Hlay Hbase Htop Hops Hfp Hal Afp Aal Hroom Hlo Hhi.
  intros s ms s' Hs Hi Hstep. ir_inv Hstep Hi. destruct (i_frame s) as [|] eqn:Hf; [discriminate|]. injection Hstep as <-.
  pose proof (operand _ s Hi) as Hok. unfold operand_ok in Hok. cbn [h_op h_a h_b] in Hok. bool_hyps. zbool.
  destruct (sim_env _ _ Hs) as [El Es Ef Ev Ea Ec Em]. rewrite Hf in Es. cbn [frame_size] in Es. rewrite Z.sub_0_r in Es.
  destruct (run_enter g_hc_fp g_hc_alloc Hfp Hal a ms) as (K & SP & M); [lia|lia|]. rewrite Es in SP, M.
  set (m1 := store 8 (store 8 (m_mem ms) _ _) _ 0) in *.
  assert (A1 : agree m1 (i_mem s)).
  { intros x Hx. unfold outside in Hx. subst m1. rewrite !store_out by lia. apply Em, Hx. }
  assert (F1 : load 8 m1 (hi - 64) = load 8 (i_mem s) g_hc_fp).
  { subst m1. replace (hi - 64) with (hi - 48 - 16) by lia. rewrite load_store_other, load_store_same by lia.
    rewrite <- (agree_load lo hi 8 _ _ _ Em Afp). apply (u64_load 8). lia. }
  assert (V1 : saved m1).
  { eapply saved_ext; [|exact Ev]. intros x Hx. subst m1. rewrite !store_out by lia. reflexivity. }
  eapply (sim_after _ s ms (i_stack s)); try eassumption; try reflexivity.
  - apply plain_gen. reflexivity.
  - unfold effect. cbn [h_op]. rewrite Hf. reflexivity.
  - exact (sim_depth _ _ Hs).
  - exact (sim_range _ _ Hs).
  - eapply stack_regs_keep; [|exact (sim_regs _ _ Hs)]. intros r Hrange. apply K. cbn. pose proof (sim_depth _ _ Hs). lia.
  - cbn [HcIrGen.gen_words h_op h_a].
    split.
    + intros l Hl. rewrite K by (cbn; lia). auto.
    + rewrite SP. cbn. lia.
    + intros v [= <-]. rewrite M, !(load_store_acc lo hi) by (first [assumption | lia]). exact F1.
    + rewrite M. destruct V1. split; rewrite !(load_store_acc lo hi) by (first [assumption | lia]); assumption.
    + intros f Hff r Hrange. rewrite K by (cbn; lia). eauto.
    + intros r Hr'. rewrite K by (cbn; lia). auto.
    + rewrite M. unfold enter. rewrite (agree_load lo hi 8 m1 (i_mem s) g_hc_alloc A1 Aal).
      apply agree_store, agree_store, A1.
Qed.

Lemma preserves_leave a b : preserves (mk_h HC_LEAVE a b).
Proof using Hsh Hlay Hbase Htop Hops Hfp Hal Afp Aal Hroom Hlo Hhi.
  intros s ms s' Hs Hi Hstep. ir_inv Hstep Hi. apply bind_Some in Hstep as (saved' & Hf & Hstep). injection Hstep as <-.
  destruct (sim_env _ _ Hs) as [El Es Ef Ev Ea Ec Em]. rewrite Hf in Es. cbn [frame_size] in Es.
  destruct (run_leave g_hc_fp g_hc_alloc Hfp Hal ms) as (K & SP & M); [lia|lia|]. rewrite Es in SP, M.
  eapply (sim_after _ s ms (i_stack s)); try eassumption; try reflexivity.
  - apply plain_gen. reflexivity.
  - unfold effect. cbn [h_op]. rewrite Hf. reflexivity.
  - exact (sim_depth _ _ Hs).
  - exact (sim_range _ _ Hs).
  - eapply stack_regs_keep; [|exact (sim_regs _ _ Hs)]. intros r Hrange. apply K. cbn. pose proof (sim_depth _ _ Hs). lia.
  - cbn [HcIrGen.gen_words h_op h_a].
    split.
    + intros l Hl. rewrite K by (cbn; lia). auto.
    + rewrite SP. cbn. lia.
    + intros v [=].
    + rewrite M. destruct Ev. split; rewrite !(load_store_acc lo hi) by (first [assumption | lia]); assumption.
    + intros f Hff r Hrange. rewrite K by (cbn; lia). eauto.
    + intros r Hr'. rewrite K by (cbn; lia). auto.
    + rewrite M. unfold leave. rewrite (agree_load lo hi 8 (m_mem ms) (i_mem s) g_hc_fp Em Afp).
      rewrite (load_store_acc lo hi) by (first [assumption | lia]).
      replace (hi - 48 - 16) with (hi - 64) by lia. rewrite (Ef _ Hf). apply agree_store, agree_store, Em.
Qed.

(** ** Jumps *)

Context (Hjumps : forallb (jump_ok prog sh) (seq 0 (length prog)) = true).
Context (Hsize : Z.of_nat (length code) < 2 ^ 18).

Lemma jump_shape k i x : prog !! k = Some i -> is_jump (h_op i) = true -> sh !! S k = Some x ->
  exists j, label_pc prog (h_a i) = Some j /\ sh !! j = Some x.
Proof using Hjumps.
  intros Hi Hj Hx. rewrite forallb_forall in Hjumps.
  assert (Hin : In k (seq 0 (length prog))) by (apply in_seq; apply lookup_lt_Some in Hi; cbn; auto with arith).
  specialize (Hjumps k Hin). unfold jump_ok in Hjumps. rewrite Hi, Hx, Hj in Hjumps.
  destruct (label_pc prog (h_a i)) as [j|]; [|discriminate]. apply bool_decide_eq_true in Hjumps. eauto.
Qed.

Lemma position_bound j : (position j <= length code)%nat.
Proof using Hlay.
  rewrite (lay_code _ _ _ _ _ _ _ _ Hlay), !length_app, length_resolve. unfold HcIrLayout.position.
  assert (E : length (concat (chunks prog sh)) =
    (length (concat (take j (chunks prog sh))) + length (concat (drop j (chunks prog sh))))%nat).
  { rewrite <- length_app, <- concat_app, take_drop. reflexivity. }
  rewrite E. cbn [length prologue_words]. clear. lia.
Qed.

(** The state at label [a], with the stack [st] and no change of the machine but its PC. *)
Lemma sim_at_label s ms i st s' : prog !! i_pc s = Some i -> is_jump (h_op i) = true ->
  sh !! S (i_pc s) = Some (Z.of_nat (length st), is_framed (i_frame s)) ->
  (length st <= 7)%nat -> Forall (is_u 64) st -> stack_regs (m_x ms) st ->
  env (i_locals s) (i_frame s) (i_args s) (i_mem s) ms ->
  jump prog (h_a i) st s = Some s' ->
  exists j, label_pc prog (h_a i) = Some j /\ sim s' (pc_set (addr base (position j)) ms).
Proof using Hjumps.
  intros Hi Hj Hx Hd Hu Hr He Hs'. destruct (jump_shape _ i _ Hi Hj Hx) as (j & Hlab & Hshape). exists j.
  split; [exact Hlab|]. unfold jump in Hs'. rewrite Hlab in Hs'. injection Hs' as <-.
  split; cbn [i_pc i_stack i_locals i_frame i_args i_mem pc_set m_pc m_x]; try assumption; [reflexivity|].
  destruct He. split; assumption.
Qed.

Definition taken (kind : hc_patch_kind) (ms : mstate) : bool :=
  match kind with
  | HC_PATCH_B => true | HC_PATCH_CBZ => m_x ms 16 =? 0 | HC_PATCH_CBNZ => negb (m_x ms 16 =? 0)
  end.

(** One branch word at position [k], to the label at position [j]. *)
Lemma mstep_branch kind k j ms : (k < length code)%nat -> (j <= length code)%nat ->
  code !! k = Some (branch_word kind (Z.of_nat j - Z.of_nat k)) -> m_pc ms = addr base k ->
  mstep code base host ms (pc_set (addr base (if taken kind ms then j else S k)) ms).
Proof using Hsize Htop Hbase.
  intros Hk Hj Hw Hpc.
  assert (Ht : u64 (addr base k + 4 * (Z.of_nat j - Z.of_nat k)) = addr base j)
    by (unfold addr; rewrite u64_id by (cbn in Htop; lia); lia).
  pose proof (addr_next code base Hbase Htop k Hk) as Hn.
  pose proof (fetch_at code base k _ ms Hpc Hw) as Hf.
  assert (Hx : x_get ms (reg5 16) = m_x ms 16) by reflexivity.
  destruct kind; cbn [branch_word taken] in *.
  - replace (pc_set (addr base j) ms) with (exec (B (Z.of_nat j - Z.of_nat k)) ms) by (cbn [exec]; rewrite Hpc, Ht; reflexivity).
    eapply mstep_exec; [exact Hf|]. apply dec_b. lia.
  - replace (pc_set _ ms) with (exec (Cbz (reg5 16) (Z.of_nat j - Z.of_nat k)) ms)
      by (cbn [exec]; unfold next; rewrite Hx, Hpc, Ht, Hn; destruct (m_x ms 16 =? 0); reflexivity).
    eapply mstep_exec; [exact Hf|]. apply dec_cbz. lia.
  - replace (pc_set _ ms) with (exec (Cbnz (reg5 16) (Z.of_nat j - Z.of_nat k)) ms)
      by (cbn [exec]; unfold next; rewrite Hx, Hpc, Ht, Hn; destruct (m_x ms 16 =? 0); reflexivity).
    eapply mstep_exec; [exact Hf|]. apply dec_cbnz. lia.
Qed.

Lemma label_position i s j : prog !! i_pc s = Some i -> label_pc prog (h_a i) = Some j ->
  lab (h_a i) = Z.of_nat (position j).
Proof using Hlay Hops.
  intros Hi Hj. apply (lay_label _ _ _ _ _ _ _ _ Hlay); [|exact Hj]. pose proof (operand _ s Hi) as Hok.
  unfold operand_ok in Hok. bool_hyps. zbool. assumption.
Qed.

Lemma preserves_jmp a b : preserves (mk_h HC_JMP a b).
Proof using Hsh Hlay Hbase Htop Hops Hjumps Hsize.
  intros s ms s' Hs Hi Hstep. ir_inv Hstep Hi. apply bind_Some in Hstep as (s1 & Hjump & Hstep). injection Hstep as <-.
  destruct (shapes_effect _ _ _ _ _ _ _ Hsh Hi (sim_shape _ _ Hs)) as (y & Hy & Hnext). injection Hy as <-.
  pose proof (chunk_lookup _ _ _ Hi (sim_shape _ _ Hs)) as Hc. pose proof (code_chunk _ _ Hc) as Hcode.
  cbn [HcIrGen.gen gen_words h_op h_a map app resolve fst snd] in Hcode. apply code_at_cons in Hcode as [Hw _].
  destruct (sim_at_label s ms _ (i_stack s) s1 Hi eq_refl Hnext) as (j & Hlab & Hsim); try apply Hs; [exact Hjump|].
  cbn [h_a] in Hlab. pose proof (label_position _ s j Hi Hlab) as Hp. cbn [h_a] in Hp. rewrite Hp in Hw.
  eexists. split; [|exact Hsim]. apply rtc_once.
  exact (mstep_branch HC_PATCH_B _ _ ms (lookup_lt_Some _ _ _ Hw) (position_bound _) Hw (sim_pc _ _ Hs)).
Qed.

Definition cond_kind (op : hc_op) : hc_patch_kind := match op with HC_JZ => HC_PATCH_CBZ | _ => HC_PATCH_CBNZ end.

Lemma preserves_cond op a b : op = HC_JZ \/ op = HC_JNZ -> preserves (mk_h op a b).
Proof using Hsh Hlay Hbase Htop Hops Hjumps Hsize.
  intros Hop s ms s' Hs Hi Hstep.
  assert (exists x rest, i_stack s = x :: rest /\ Some s' =
    if taken (cond_kind op) (mk_mstate (fun _ => x) 0 (fun _ => 0) (mk_flags false false false false) (fun _ => 0) 0)
    then jump prog a rest s
    else Some (mk_ir (S (i_pc s)) rest (i_locals s) (i_frame s) (i_args s) (i_mem s))) as (x & rest & Hst & Hs').
  { destruct Hop as [-> | ->]; ir_inv Hstep Hi; destruct (i_stack s) as [|x rest]; try discriminate; exists x, rest;
      (split; [reflexivity|]); cbn [taken cond_kind m_x]; destruct (x =? 0); cbn [negb];
      first [injection Hstep as <-; reflexivity | apply bind_Some in Hstep as (? & -> & [= ->]); reflexivity]. }
  destruct (stack_top s ms x rest Hs Hst) as (Hx & Ux & Hd).
  destruct (shapes_effect _ _ _ _ _ _ _ Hsh Hi (sim_shape _ _ Hs)) as (y & Hy & Hnext).
  assert (He : effect (mk_h op a b) (sp_of s) (is_framed (i_frame s)) = Some (Z.of_nat (length rest), is_framed (i_frame s))).
  { rewrite Hst. cbn [length]. destruct Hop as [-> | ->]; unfold effect; cbn [h_op]; apply pops_effect; lia. }
  cbn [fst snd] in Hy. rewrite He in Hy. injection Hy as <-.
  pose proof (chunk_lookup _ _ _ Hi (sim_shape _ _ Hs)) as Hc. pose proof (code_chunk _ _ Hc) as Hcode.
  cbn [fst snd] in Hcode, Hc. rewrite Hst in Hcode, Hc.
  assert (Hg : gen (mk_h op a b) (Z.of_nat (length (x :: rest))) (is_framed (i_frame s)) =
    [W (a64_mov_x 16 (9 + Z.of_nat (length rest))); Br (cond_kind op) a]).
  { rewrite <- (st_one x rest). destruct Hop as [-> | ->]; reflexivity. }
  rewrite Hg in Hcode, Hc. cbn [resolve] in Hcode. pose proof Hcode as Hmov.
  apply code_at_cons in Hcode as [_ Hbr]. apply code_at_cons in Hbr as [Hbr _].
  apply (code_at_app code _ [_] [_]) in Hmov as [Hmov _].
  destruct (run_steps code base host Hbase Htop _ _ ms Hmov ltac:(auto with plain) (sim_pc _ _ Hs)) as [Hsteps Hpc].
  assert (R : is_reg (9 + Z.of_nat (length rest))) by (split; lia). assert (R16 : is_reg 16) by (split; lia).
  rewrite run_one, w_mov, Hx, (u64_id' x) in Hsteps, Hpc by assumption. cbn [length] in Hpc. rewrite Nat.add_1_r in Hpc.
  set (ms1 := put 16 x ms) in *.
  assert (Henv : env (i_locals s) (i_frame s) (i_args s) (i_mem s) ms1).
  { eapply (env_only _ _ _ _ ms _ [16]); [apply only_put; cbn; tauto|in_rs|apply Hs]. }
  pose proof (sim_range _ _ Hs) as Hu. rewrite Hst, Forall_cons_iff in Hu.
  pose proof (sim_regs _ _ Hs) as Hr. rewrite Hst in Hr. destruct Hr as [_ Hr].
  assert (Hr1 : stack_regs (m_x ms1) rest).
  { eapply stack_regs_keep; [|exact Hr]. intros r Hrange. apply put_other. lia. }
  assert (Htk : taken (cond_kind op) (mk_mstate (fun _ => x) 0 (fun _ => 0) (mk_flags false false false false) (fun _ => 0) 0)
                = taken (cond_kind op) ms1) by (subst ms1; unfold taken; cbn [m_x]; rewrite put_same; reflexivity).
  rewrite Htk in Hs'. clear Htk.
  destruct (jump_shape _ _ _ Hi ltac:(destruct Hop as [-> | ->]; reflexivity) Hnext) as (j & Hlab & _).
  pose proof (label_position _ s j Hi Hlab) as Hp. cbn [h_a] in Hp. rewrite Hp in Hbr.
  pose proof (mstep_branch _ _ _ ms1 (lookup_lt_Some _ _ _ Hbr) (position_bound _) Hbr Hpc) as Hstep1.
  destruct (taken (cond_kind op) ms1).
  - destruct (sim_at_label s ms1 _ rest s' Hi ltac:(destruct Hop as [-> | ->]; reflexivity) Hnext) as (j' & Hlab' & Hsim);
      try assumption; try lia; [apply Hu|symmetry; exact Hs'|].
    rewrite Hlab' in Hlab. injection Hlab as ->. eexists. split; [|exact Hsim].
    eapply transitivity; [exact Hsteps|]. apply rtc_once, Hstep1.
  - injection Hs' as ->. eexists. split; [eapply transitivity; [exact Hsteps|apply rtc_once, Hstep1]|].
    split; cbn [i_pc i_stack i_locals i_frame i_args i_mem pc_set m_pc m_x]; try assumption; [lia|apply Hu| |].
    + rewrite (position_S _ _ Hc). cbn [length]. f_equal. lia.
    + destruct Henv. split; assumption.
Qed.

(** ** Calls *)

Context (Hhost : host_ok lo hi (in_code code base) host).
Context (Hclosed : forall sp fr, list.last sh = Some (sp, fr) -> fr = framed).
Context (Hcalls : forall i, In i prog -> In (h_op i) calls -> ~ in_code code base (h_a i)).

Lemma call_step op a b s s' : In op calls -> prog !! i_pc s = Some (mk_h op a b) -> ir_step s = Some (inl s') ->
  h_arity a = call_argc op /\ call_argc op <= sp_of s /\
  s' = mk_ir (S (i_pc s)) (u64 (fst (h_call a (rev (take (Z.to_nat (call_argc op)) (i_stack s))) (i_mem s)))
                           :: drop (Z.to_nat (call_argc op)) (i_stack s)) (i_locals s) (i_frame s) None
             (snd (h_call a (rev (take (Z.to_nat (call_argc op)) (i_stack s))) (i_mem s))).
Proof using.
  intros Hop Hi Hstep. each Hop ltac:(ir_inv Hstep Hi; destruct (_ && _) eqn:E; [|discriminate];
    apply andb_true_iff in E as [E1 E2]; apply Z.eqb_eq in E1; apply Z.leb_le in E2;
    split; [exact E1|]; split; [exact E2|]; destruct (h_call _ _ _); injection Hstep as <-; reflexivity).
Qed.

(** The machine from the call's first word to the return: the host function has run. *)
Lemma call_host op a s ms k : In op calls -> sim s ms -> is_u 64 a -> ~ in_code code base a ->
  let n := call_argc op in let need := sp_of s - n in
  0 <= n <= 7 -> n <= sp_of s -> h_arity a = n -> need <= 6 ->
  code_at code k (call_words op a (sp_of s)) -> m_pc ms = addr base k ->
  let r := h_call a (rev (take (Z.to_nat n) (i_stack s))) (i_mem s) in
  exists ms', steps ms ms' /\ m_pc ms' = addr base (k + length (call_words op a (sp_of s))) /\
    m_x ms' (9 + need) = u64 (fst r) /\ (forall i, 0 <= i < need -> m_x ms' (9 + i) = m_x ms (9 + i)) /\
    env (i_locals s) (i_frame s) None (snd r) ms'.
Proof using Hbase Htop Hroom Hlo Hhi Hhost.
  intros Hop Hs Hfn Hout n need Hn7 Hn Har Hneed Hcode Hpc r.
  assert (En : need = sp_of s - n) by reflexivity.
  destruct (sim_env _ _ Hs) as [El Es Ef Ev Ea Ec Em]. pose proof (sim_depth _ _ Hs) as Hd.
  assert (Hfs : 0 <= frame_size (i_frame s) <= 16) by (destruct (i_frame s); cbn; lia).
  destruct (run_before op a (sp_of s) ms) as (S1 & F1 & C1 & A1 & M1 & V1 & L1 & L2); fold n; fold need; try lia; try assumption.
  { apply (stack_regs_nth _ _ (sim_regs _ _ Hs) (sim_range _ _ Hs)). }
  { intros q Hq. destruct (El (q - 20)) as [E U]; [lia|]. replace (20 + (q - 20)) with q in E by lia. rewrite E. exact U. }
  fold n in S1, A1, M1, V1, L1, L2. fold need in S1, A1, M1, V1, L1, L2.
  rewrite call_words_halves in Hcode |- *. fold n in Hcode |- *. fold need in Hcode |- *.
  apply code_at_app in Hcode as [Hcb Hca]. destruct (code_at_cons code _ _ _ Hca) as [Hblr Hca'].
  destruct (run_steps code base host Hbase Htop _ _ ms Hcb (plain_before _ _ _) Hpc) as [St1 Pc1].
  set (s1 := run (before_words op a (sp_of s)) ms) in *. set (k1 := (k + length (before_words op a (sp_of s)))%nat) in *.
  clearbody s1. set (s2 := pc_set a (x_set 30 (addr base (S k1)) s1)).
  assert (X2 : forall q, q <> 30 -> m_x s2 q = m_x s1 q).
  { intros q Hq. subst s2. cbn. unfold upd_fun. destruct (Z.eqb_spec q 30); [contradiction|reflexivity]. }
  assert (X30 : m_x s2 30 = addr base (S k1)).
  { subst s2. cbn. unfold upd_fun. cbn [Z.eqb Pos.eqb]. apply lookup_lt_Some in Hblr. apply u64_id'. unfold is_u, addr in *. lia. }
  assert (St2 : mstep code base host s1 s2).
  { replace s2 with (exec (Blr (reg5 16)) s1).
    - eapply mstep_exec; [eapply fetch_at; [exact Pc1|exact Hblr]|apply dec_blr].
    - subst s2. cbn [exec]. change (x_get s1 (reg5 16)) with (m_x s1 16). rewrite F1, Pc1.
      rewrite (addr_next code base Hbase Htop k1) by (eapply lookup_lt_Some, Hblr). reflexivity. }
  assert (P2 : m_pc s2 = a) by reflexivity. assert (S2 : m_sp s2 = m_sp s1) by reflexivity.
  assert (M2 : m_mem s2 = m_mem s1) by reflexivity. clearbody s2.
  assert (Hout2 : ~ in_code code base (m_pc s2)) by (rewrite P2; exact Hout).
  pose proof (mstep_host code base host s2 Hout2) as St3.
  pose proof (host_returns _ _ _ _ Hhost s2 Hout2) as P3. pose proof (host_sp _ _ _ _ Hhost s2 Hout2) as S3.
  pose proof (fun q => host_saved _ _ _ _ Hhost s2 q Hout2) as X3.
  pose proof (host_result _ _ _ _ Hhost s2 Hout2) as R3. pose proof (fun q => host_mem _ _ _ _ Hhost s2 q Hout2) as M3.
  pose proof (fun q => host_stack _ _ _ _ Hhost s2 q Hout2) as K3.
  set (s3 := host s2) in *. clearbody s3. rewrite P2, M2 in *.
  assert (Hargs : arg_regs a s2 = rev (take (Z.to_nat n) (i_stack s))).
  { unfold arg_regs. rewrite Har, <- (stack_regs_args _ _ _ (sim_regs _ _ Hs)) by lia. apply map_ext_in.
    intros i Hi. apply in_seq in Hi. rewrite X2, A1 by lia. f_equal. lia. }
  assert (Hag : HcIrSim.agree lo hi (m_mem s1) (i_mem s)).
  { intros q Hq. rewrite M1 by (unfold HcIrSim.outside in Hq; lia). apply Em, Hq. }
  destruct (host_local _ _ _ _ Hhost a (rev (take (Z.to_nat n) (i_stack s))) _ _ Hag) as [Hv Hm].
  rewrite Hargs in R3, M3. rewrite Hv in R3. fold r in R3.
  destruct (run_after need s3) as (S4 & M4 & X0 & C4 & V4 & L3 & L4); [lia|lia|lia|rewrite R3; apply is_u64_u64|].
  destruct (run_steps code base host Hbase Htop _ _ s3 Hca' (plain_after _)) as [St4 Pc4]; [rewrite P3; exact X30|].
  set (s4 := run (after_words need) s3) in *. clearbody s4.
  assert (Kmem : forall q, m_sp s1 <= q < hi -> m_mem s3 q = m_mem s1 q) by (intros q Hq; rewrite K3 by lia; reflexivity).
  assert (Kload : forall q, m_sp s1 <= q -> q + 8 <= hi -> load 8 (m_mem s3) q = load 8 (m_mem s1) q).
  { intros q Hq Hq'. apply load_ext. intros z Hz. apply Kmem. lia. }
  exists s4. split; [|split; [|split; [|split]]].
  - eapply transitivity; [exact St1|]. eapply rtc_l; [exact St2|]. eapply rtc_l; [exact St3|exact St4].
  - rewrite Pc4. f_equal. rewrite length_app. cbn [length]. subst k1. lia.
  - rewrite X0. exact R3.
  - intros i Hi. rewrite V4 by lia. rewrite Kload by lia. rewrite <- (V1 i Hi). f_equal. lia.
  - assert (Hreg : forall i, 0 <= i < 4 -> m_x s4 (20 + i) = m_x ms (20 + i)).
    { intros i Hi. destruct (Z_lt_ge_dec i 2).
      - rewrite L4, Kload, <- L2 by lia. f_equal. lia.
      - replace (20 + i) with (22 + (i - 2)) by lia. rewrite L3, Kload, <- L1 by lia. f_equal. lia. }
    assert (Hk : forall q, m_sp ms <= q < hi -> m_mem s4 q = m_mem ms q).
    { intros q Hq. rewrite M4, Kmem, M1 by lia. reflexivity. }
    split.
    + intros l Hl. rewrite Hreg by exact Hl. apply El, Hl.
    + lia.
    + intros v Hv'. rewrite <- (Ef v Hv'). apply load_ext. intros q Hq. apply Hk. rewrite Es, Hv'. cbn. lia.
    + eapply saved_ext; [|exact Ev]. intros q Hq. apply Hk. lia.
    + discriminate.
    + intros q Hq. rewrite C4, X3, X2, C1 by lia. auto.
    + intros q Hq. rewrite M4, M3 by exact Hq. apply Hm, Hq.
Qed.

Lemma preserves_call op a b : In op calls -> preserves (mk_h op a b).
Proof using Hsh Hlay Hbase Htop Hops Hroom Hlo Hhi Hhost Hcalls.
  intros Hop s ms s' Hs Hi Hstep. destruct (call_step op a b s s' Hop Hi Hstep) as (Har & Hn & ->).
  destruct (call_facts g_hc_fp g_hc_alloc g_hc_mem op Hop) as (_ & Fj & _ & _ & _).
  pose proof (Hcalls _ (proj1 (list_elem_of_In _ _) (list_elem_of_lookup_2 _ _ _ Hi)) Hop) as Hout. cbn [h_a] in Hout.
  assert (Hn7 : 0 <= call_argc op <= 7) by (clear; destruct op; cbn; lia).
  assert (Hfn : is_u 64 a).
  { pose proof (operand _ s Hi) as Hok. unfold operand_ok in Hok. cbn [h_op h_a h_b] in Hok. bool_hyps.
    assert (E : (a <? 18446744073709551616) = true) by (each Hop ltac:(assumption)). split; zbool; lia. }
  assert (Fe : forall sp fr, effect (mk_h op a b) sp fr =
    if (call_argc op <=? sp) && (sp - call_argc op + 1 <=? 7) then Some (sp - call_argc op + 1, fr) else None)
    by two_facts Hop.
  assert (Fg : forall sp fr, gen_words (mk_h op a b) sp fr = call_words op a sp) by two_facts Hop.
  destruct (shapes_effect _ _ _ _ _ _ _ Hsh Hi (sim_shape _ _ Hs)) as (y & Hy & Hnext). cbn [fst snd] in Hy.
  rewrite Fe in Hy. destruct (_ && _) eqn:E; [|discriminate]. injection Hy as <-. bool_hyps. zbool.
  pose proof (chunk_lookup _ _ _ Hi (sim_shape _ _ Hs)) as Hc. pose proof (code_chunk _ _ Hc) as Hcode.
  cbn [fst snd] in Hcode, Hc. rewrite gen_straight, Fg in Hcode, Hc by exact Fj. rewrite resolve_W in Hcode.
  destruct (call_host op a s ms _ Hop Hs Hfn Hout Hn7 Hn Har ltac:(lia) Hcode (sim_pc _ _ Hs))
    as (ms' & St & Pc & V & K & Env).
  exists ms'. split; [exact St|].
  set (n := Z.to_nat (call_argc op)) in *. pose proof (sim_depth _ _ Hs) as Hd.
  assert (Hl : length (drop n (i_stack s)) = (length (i_stack s) - n)%nat) by apply length_drop.
  assert (Hl' : Z.of_nat (length (drop n (i_stack s))) = sp_of s - call_argc op) by lia.
  split; cbn [i_pc i_stack i_locals i_frame i_args i_mem length].
  - rewrite Hnext. do 2 f_equal. lia.
  - lia.
  - constructor; [apply is_u64_u64|]. apply Forall_drop, (sim_range _ _ Hs).
  - rewrite (position_S _ _ Hc), length_map. exact Pc.
  - split; [rewrite Hl'; exact V|].
    eapply stack_regs_keep; [|apply stack_regs_drop, (sim_regs _ _ Hs)]. intros r Hr.
    replace r with (9 + (r - 9)) by lia. apply K. lia.
  - exact Env.
Qed.

Lemma preserves_all i : h_op i <> HC_RET -> h_op i <> HC_END -> preserves i.
Proof using Hsh Hlay Hbase Htop Hops Hfp Hal Hmem Afp Aal Hroom Hlo Hhi Hjumps Hsize Hhost Hcalls.
  destruct i as [op a b]. cbn [h_op]. intros Hret Hend. destruct op; try congruence;
    first [ apply preserves_imm64 | apply preserves_neg | apply preserves_dup | apply preserves_swap | apply preserves_drop
          | apply preserves_label | apply preserves_jmp | apply preserves_st_local | apply preserves_ld_local
          | apply preserves_slot_addr | apply preserves_enter | apply preserves_leave | apply preserves_ld_slot
          | apply preserves_st_slot | apply preserves_ld_abs | apply preserves_st_abs | apply preserves_abs_addr
          | apply preserves_inarg
          | apply preserves_cond; solve [auto]
          | apply preserves_binop; solve [cbn; tauto] | apply preserves_compare; solve [cbn; tauto]
          | apply preserves_load; solve [cbn; tauto] | apply preserves_store; solve [cbn; tauto]
          | apply preserves_funary; solve [cbn; tauto] | apply preserves_fbin; solve [cbn; tauto]
          | apply preserves_fcompare; solve [cbn; tauto] | apply preserves_call; solve [cbn; tauto] ].
Qed.

(** ** The return *)

Record returned (v : Z) (m : memory) (ms : mstate) : Prop := {
  ret_pc : m_pc ms = m_x entry 30;
  ret_sp : m_sp ms = hi;
  ret_x0 : m_x ms 0 = v;
  ret_callee : forall r, 19 <= r <= 29 -> m_x ms r = m_x entry r;
  ret_mem : agree (m_mem ms) m }.

Lemma epilogue ms k v m : code_at code k epilogue_words -> m_pc ms = addr base k -> m_sp ms = hi - 48 ->
  saved (m_mem ms) -> m_x ms 0 = v -> (forall r, r = 19 \/ 24 <= r <= 29 -> m_x ms r = m_x entry r) ->
  agree (m_mem ms) m -> exists ms', steps ms ms' /\ returned v m ms'.
Proof using Hbase Htop Hroom Hlo Hhi.
  intros Hcode Hpc Hsp [A B C D E] H0' Hc Hm.
  change epilogue_words with ([a64_ldp_post 30 31 31 16; a64_ldp_post 22 23 31 16; a64_ldp_post 20 21 31 16] ++ [a64_ret]) in Hcode.
  apply code_at_app in Hcode as [Hc1 Hret]. apply code_at_cons in Hret as [Hret _].
  destruct (run_steps code base host Hbase Htop _ _ ms Hc1 ltac:(auto with plain) Hpc) as [St Pc].
  rewrite !run_cons, run_nil in St, Pc.
  assert (R : forall r, 0 <= r <= 30 -> is_reg r) by (intros; split; lia).
  pose proof (w_ldp 30 31 ms (R 30 ltac:(lia)) (or_intror eq_refl) ltac:(lia) ltac:(lia)) as X1.
  destruct (w_ldp_rest 30 31 ms) as [S1 M1]; [lia..|]. set (s1 := wexec _ ms) in *. clearbody s1.
  pose proof (w_ldp 22 23 s1 (R 22 ltac:(lia)) (or_introl (R 23 ltac:(lia))) ltac:(lia) ltac:(lia)) as X2.
  destruct (w_ldp_rest 22 23 s1) as [S2 M2]; [lia..|]. set (s2 := wexec _ s1) in *. clearbody s2.
  pose proof (w_ldp 20 21 s2 (R 20 ltac:(lia)) (or_introl (R 21 ltac:(lia))) ltac:(lia) ltac:(lia)) as X3.
  destruct (w_ldp_rest 20 21 s2) as [S3 M3]; [lia..|]. set (s3 := wexec _ s2) in *. clearbody s3.
  change (21 =? 31) with false in X3. change (23 =? 31) with false in X2. cbv iota in X1, X2, X3.
  rewrite M1 in *. rewrite M2 in *. rewrite S2, S1, Hsp in *.
  replace (hi - 48 + 16) with (hi - 32) in * by lia. replace (hi - 32 + 16) with (hi - 16) in * by lia.
  replace (hi - 32 + 8) with (hi - 24) in * by lia. replace (hi - 16 + 8) with (hi - 8) in * by lia.
  exists (pc_set (m_x s3 30) s3). split.
  - eapply rtc_r; [exact St|]. change (m_x s3 30) with (x_get s3 30). change (pc_set _ s3) with (exec (Ret 30) s3).
    eapply mstep_exec; [eapply fetch_at; [exact Pc|exact Hret]|apply dec_ret].
  - split; cbn [pc_set m_pc m_sp m_x m_mem].
    + rewrite X3, X2, X1. cbn [Z.eqb Pos.eqb]. exact E.
    + lia.
    + rewrite X3, X2, X1. cbn [Z.eqb Pos.eqb]. exact H0'.
    + intros r Hr.
      assert (r = 20 \/ r = 21 \/ r = 22 \/ r = 23 \/ r = 19 \/ 24 <= r <= 29) as [->|[->|[->|[->|Hr']]]] by lia;
        rewrite X3; [cbn [Z.eqb Pos.eqb]; first [exact A | exact B]..| | |];
        [rewrite X2; cbn [Z.eqb Pos.eqb]; first [exact C | exact D]..|].
      rewrite X2, X1. repeat match goal with |- context [r =? ?n] => replace (r =? n) with false by lia end.
      apply Hc. lia.
    + rewrite M3. exact Hm.
Qed.

(** The words that leave the frame, set X0 with [w], and return. *)
Lemma finish loc frame args m ms k w v : env loc frame args m ms ->
  code_at code k ((if is_framed frame then leave_words g_hc_fp g_hc_alloc else []) ++ [w] ++ epilogue_words) ->
  m_pc ms = addr base k -> plain w ->
  (forall s, (forall r, 9 <= r <= 15 -> m_x s r = m_x ms r) -> wexec w s = put 0 v s) ->
  exists ms', steps ms ms' /\ returned v (unframe_mem g_hc_fp g_hc_alloc frame m) ms'.
Proof using Hbase Htop Hroom Hlo Hhi Hfp Hal Afp Aal.
  intros [El Es Ef Ev Ea Ec Em] Hcode Hpc Hw Hset.
  assert (Hleave : exists ms1, steps ms ms1 /\
    m_pc ms1 = addr base (k + length (if is_framed frame then leave_words g_hc_fp g_hc_alloc else [])) /\
    m_sp ms1 = hi - 48 /\ saved (m_mem ms1) /\ (forall r, ~ (16 <= r <= 18) -> m_x ms1 r = m_x ms r) /\
    agree (m_mem ms1) (unframe_mem g_hc_fp g_hc_alloc frame m)).
  { destruct frame as [old|]; cbn [is_framed unframe_mem frame_size] in *.
    - apply code_at_app in Hcode as [Hl _].
      destruct (run_steps code base host Hbase Htop _ _ ms Hl ltac:(auto with plain) Hpc) as [St Pc].
      destruct (run_leave g_hc_fp g_hc_alloc Hfp Hal ms) as (K & SP & M); [lia|lia|]. rewrite Es in SP, M.
      eexists. split; [exact St|]. split; [exact Pc|]. split; [rewrite SP; lia|]. split; [|split].
      + rewrite M. destruct Ev. split; rewrite !(load_store_acc lo hi) by (first [assumption | lia]); assumption.
      + intros r Hr. apply K. cbn. lia.
      + rewrite M. unfold leave. rewrite (agree_load lo hi 8 (m_mem ms) m g_hc_fp Em Afp).
        rewrite (load_store_acc lo hi) by (first [assumption | lia]).
        replace (hi - 48 - 16) with (hi - 64) by lia. rewrite (Ef _ eq_refl). apply agree_store, agree_store, Em.
    - exists ms. split; [apply rtc_refl|]. cbn [length]. rewrite Nat.add_0_r, Es. split; [exact Hpc|].
      split; [lia|]. auto. }
  destruct Hleave as (ms1 & St1 & Pc1 & S1 & V1 & X1 & M1).
  apply code_at_app in Hcode as [_ Hcode]. set (k1 := (k + _)%nat) in *. clearbody k1.
  apply code_at_app in Hcode as [Hcw Hce].
  destruct (run_steps code base host Hbase Htop _ _ ms1 Hcw ltac:(auto with plain) Pc1) as [St2 Pc2].
  rewrite run_one, Hset in St2, Pc2 by (intros r Hr; apply X1; lia).
  destruct (epilogue _ _ v (unframe_mem g_hc_fp g_hc_alloc frame m) Hce Pc2) as (ms' & St3 & Hret);
    [exact S1|exact V1|apply put_same| |exact M1|].
  - intros r Hr. rewrite put_other, X1 by lia. auto.
  - exists ms'. split; [|exact Hret]. eapply transitivity; [exact St1|]. eapply transitivity; [exact St2|exact St3].
Qed.

Lemma plain_movz0 : plain (a64_movz_x 0 0 0).
Proof using. change (a64_movz_x 0 0 0) with (a64_movz_x 0 (u16 0) 0). plain_tac. Qed.
Lemma w_movz0 s : wexec (a64_movz_x 0 0 0) s = put 0 0 s.
Proof using. change (a64_movz_x 0 0 0) with (a64_movz_x 0 (u16 0) 0). apply w_movz. split; reflexivity || discriminate. Qed.

(** A step that ends the run. *)
Lemma sim_done s ms v m : sim s ms -> ir_step s = Some (inr (v, m)) ->
  exists ms', steps ms ms' /\ returned v m ms'.
Proof using Hsh Hlay Hbase Htop Hroom Hlo Hhi Hfp Hal Afp Aal Hclosed.
  intros Hs Hstep. unfold HcIrSem.ir_step in Hstep. destruct (prog !! i_pc s) as [i|] eqn:Hi.
  - assert (h_op i = HC_RET /\ v = hd 0 (i_stack s) /\ m = unframe_mem g_hc_fp g_hc_alloc (i_frame s) (i_mem s)) as (Hop & -> & ->).
    { destruct i as [op a b]; destruct op; destruct (i_stack s) as [|? [|? ?]]; cbn in Hstep;
        repeat match type of Hstep with
        | mbind _ _ = Some (inr _) => apply bind_Some in Hstep as (? & _ & Hstep)
        | context [match ?x with _ => _ end] => destruct x
        end; try discriminate; injection Hstep as <- <-; auto. }
    pose proof (chunk_lookup _ _ _ Hi (sim_shape _ _ Hs)) as Hc. pose proof (code_chunk _ _ Hc) as Hcode.
    cbn [fst snd] in Hcode. rewrite gen_straight, resolve_W in Hcode by (rewrite Hop; reflexivity).
    unfold HcIrGen.gen_words in Hcode. rewrite Hop in Hcode.
    destruct (i_stack s) as [|x rest] eqn:Hst.
    + eapply (finish _ _ _ _ ms _ _ 0 (sim_env _ _ Hs) Hcode (sim_pc _ _ Hs)); [apply plain_movz0|].
      intros s0 _. apply w_movz0.
    + destruct (stack_top s ms x rest Hs Hst) as (Hx & Ux & Hd). unfold ret_words in Hcode.
      destruct (Z.ltb_spec (Z.of_nat (length (x :: rest))) 1) as [Hlt|_]; [cbn in Hlt; lia|]. rewrite st_one in Hcode.
      eapply (finish _ _ _ _ ms _ _ x (sim_env _ _ Hs) Hcode (sim_pc _ _ Hs)); [auto with plain|].
      intros s0 H9. rewrite w_mov by (split; lia). rewrite H9, Hx by lia. rewrite (u64_id' x Ux). reflexivity.
  - injection Hstep as <- <-.
    assert (Hk : i_pc s = length prog).
    { pose proof (sim_shape _ _ Hs) as Hk. apply lookup_lt_Some in Hk. rewrite (shapes_length _ _ _ _ Hsh) in Hk.
      apply lookup_ge_None in Hi. lia. }
    assert (Hlast : Some (Z.of_nat (length (i_stack s)), is_framed (i_frame s)) = list.last sh).
    { rewrite last_lookup, (shapes_length _ _ _ _ Hsh). cbn [Nat.pred]. rewrite <- Hk. symmetry. apply (sim_shape _ _ Hs). }
    pose proof (lay_code _ _ _ _ _ _ _ _ Hlay) as Hcode.
    assert (Hpos : position (length prog) = length (prologue_words ++ resolve lab 3 (concat (chunks prog sh)))).
    { rewrite length_app, length_resolve. unfold HcIrLayout.position. rewrite take_ge; [reflexivity|].
      unfold HcIrGen.chunks. rewrite length_zip_with. lia. }
    assert (Hat : code_at code (position (length prog)) (closing_words g_hc_fp g_hc_alloc framed)).
    { exists (prologue_words ++ resolve lab 3 (concat (chunks prog sh))), []. rewrite app_nil_r, <- app_assoc. split; [exact Hcode|].
      symmetry. exact Hpos. }
    rewrite <- (Hclosed _ _ (eq_sym Hlast)) in Hat.
    eapply (finish _ _ _ _ ms _ _ 0 (sim_env _ _ Hs) Hat); [rewrite <- Hk; apply (sim_pc _ _ Hs)|apply plain_movz0|].
    intros s0 _. apply w_movz0.
Qed.

(** ** The entry *)

Definition ir_start (args : Z -> Z) (m : memory) : ir_state := mk_ir 0 [] (fun l => m_x entry (20 + l)) None (Some args) m.

Lemma sim_start m : m_pc entry = base -> m_sp entry = hi -> (forall r, 20 <= r <= 30 -> is_u 64 (m_x entry r)) ->
  agree (m_mem entry) m -> exists ms, steps entry ms /\ sim (ir_start (m_x entry) m) ms.
Proof using Hsh Hlay Hbase Htop Hroom Hlo Hhi Hops Hjumps Hclosed Hcalls.
  intros Hpc Hsp Hu Hm.
  assert (Hc : code_at code 0 prologue_words).
  { exists [], (resolve lab 3 (concat (chunks prog sh)) ++ closing_words g_hc_fp g_hc_alloc framed).
    split; [exact (lay_code _ _ _ _ _ _ _ _ Hlay)|reflexivity]. }
  assert (Hpc0 : m_pc entry = addr base 0) by (unfold addr; lia).
  destruct (run_steps code base host Hbase Htop _ _ entry Hc ltac:(unfold prologue_words; auto with plain) Hpc0) as [St Pc].
  eexists. split; [exact St|]. revert Pc. unfold prologue_words. rewrite !run_cons, run_nil. intros Pc.
  assert (R : forall r, 20 <= r <= 30 -> is_reg r) by (intros; split; lia).
  rewrite (w_stp 20 21) in * by (try (left; split; lia); try (split; lia); lia).
  rewrite (x_get_reg 21) in * by (apply R; lia). set (s1 := push_pair _ _ entry) in *.
  assert (S1 : m_sp s1 = hi - 16) by (cbn; lia).
  rewrite (w_stp 22 23) in * by (try (left; split; lia); try (split; lia); lia).
  rewrite (x_get_reg 23) in * by (apply R; lia). set (s2 := push_pair _ _ s1) in *.
  assert (S2 : m_sp s2 = hi - 32) by (cbn [push_pair m_sp s2]; lia).
  rewrite (w_stp 30 31) in * by (try (left; split; lia); try (split; lia); auto; lia).
  rewrite x_get_31 in *. set (s3 := push_pair _ 0 s2) in *.
  assert (X3 : m_x s3 = m_x entry) by reflexivity.
  assert (S3 : m_sp s3 = hi - 48) by (cbn [push_pair m_sp s3]; lia).
  assert (M3 : m_mem s3 = store 8 (store 8 (store 8 (store 8 (store 8 (store 8 (m_mem entry) (hi - 16) (m_x entry 20))
    (hi - 8) (m_x entry 21)) (hi - 32) (m_x entry 22)) (hi - 24) (m_x entry 23)) (hi - 48) (m_x entry 30)) (hi - 40) 0).
  { subst s3. cbn [push_pair m_mem]. rewrite S2. replace (hi - 32 - 16) with (hi - 48) by lia. replace (hi - 32 - 8) with (hi - 40) by lia.
    subst s2. cbn [push_pair m_mem m_x]. rewrite S1. replace (hi - 16 - 16) with (hi - 32) by lia. replace (hi - 16 - 8) with (hi - 24) by lia.
    subst s1. cbn [push_pair m_mem m_x]. rewrite Hsp. reflexivity. }
  clearbody s3. clear s1 S1 s2 S2 St.
  split; cbn [ir_start i_pc i_stack i_locals i_frame i_args i_mem length].
  - destruct prog as [|i p]; [injection Hsh as <-; reflexivity|].
    apply shapes_cons in Hsh as (? & ? & ? & _ & _ & E). rewrite E. reflexivity.
  - lia.
  - constructor.
  - rewrite Pc. reflexivity.
  - exact I.
  - split.
    + intros l Hl. rewrite X3. split; [reflexivity|]. apply Hu. lia.
    + cbn. lia.
    + discriminate.
    + rewrite M3. split; rewrite ?(load_store_other 8 8) by lia; rewrite load_store_same; apply (wrap_id 64), Hu; lia.
    + intros f [= <-] r Hr. rewrite X3. reflexivity.
    + intros r Hr. rewrite X3. reflexivity.
    + intros a Ha. rewrite M3, !store_out by (unfold outside in Ha; lia). apply Hm, Ha.
Qed.

(** The run of a program is the run of its code. *)
Lemma sim_exec s v m : ir_exec g_hc_fp g_hc_alloc g_hc_mem lo hi prog s v m ->
  forall ms, sim s ms -> exists ms', steps ms ms' /\ returned v m ms'.
Proof using Hsh Hlay Hbase Htop Hops Hfp Hal Hmem Afp Aal Hroom Hlo Hhi Hjumps Hsize Hhost Hcalls Hclosed.
  induction 1 as [s v m Hstep|s s' v m Hstep _ IH]; intros ms Hs; [eapply sim_done; eassumption|].
  destruct (prog !! i_pc s) as [i|] eqn:Hi.
  - destruct (decide (h_op i = HC_RET)) as [Hr|Hr].
    { unfold HcIrSem.ir_step in Hstep. rewrite Hi in Hstep. destruct i as [op a b]. cbn in Hr. subst op. discriminate. }
    destruct (decide (h_op i = HC_END)) as [He|He].
    { unfold HcIrSem.ir_step in Hstep. rewrite Hi in Hstep. destruct i as [op a b]. cbn in He. subst op. discriminate. }
    destruct (preserves_all i Hr He s ms s' Hs Hi Hstep) as (ms1 & St & Hs1).
    destruct (IH ms1 Hs1) as (ms' & St' & Hret). exists ms'. split; [|exact Hret]. eapply transitivity; eassumption.
  - unfold HcIrSem.ir_step in Hstep. rewrite Hi in Hstep. discriminate.
Qed.
End Sim.
