(* ===== verification/HcIrThms.v ===== *)
(** * The stack-IR compiler: correctness

    Compiled code does on the machine what the program does on the stack IR. *)

From stdpp Require Import relations.
From S2P Require Import Prelude A64 A64Sem HcIr HcIrSem HcIrGen HcIrLayout HcIrRun HcIrBlocks HcIrSim.
#[local] Open Scope Z_scope.

(** What the linker fixes: the globals are words outside the machine stack [[lo, hi)], which has
    room for the deepest use: 48 bytes of saves, 16 of a frame, 96 of stack slots and 32 of locals. *)
Record globals_ok (g_hc_fp g_hc_alloc g_hc_mem lo hi : Z) : Prop := {
  go_fp : is_u 64 g_hc_fp; go_alloc : is_u 64 g_hc_alloc; go_mem : is_u 64 g_hc_mem;
  go_lo : 0 <= lo; go_room : lo + 192 <= hi; go_hi : hi < 2 ^ 64;
  go_fp_out : accessible lo hi g_hc_fp 8 = true; go_alloc_out : accessible lo hi g_hc_alloc 8 = true }.

(** Where the code lies, and that the functions it calls are elsewhere. *)
Record placed (prog : list hinsn) (code : list Z) (base : Z) : Prop := {
  pl_base : 0 <= base; pl_top : base + 4 * Z.of_nat (length code) < 2 ^ 64;
  pl_size : Z.of_nat (length code) < 2 ^ 18;
  pl_calls : forall i, In i prog -> In (h_op i) calls -> ~ in_code code base (h_a i) }.

(** A call of the compiled function: [entry] is the machine at its first instruction. *)
Record called (entry : mstate) (base hi : Z) : Prop := {
  en_pc : m_pc entry = base; en_sp : m_sp entry = hi;
  en_range : forall r, 20 <= r <= 30 -> is_u 64 (m_x entry r) }.

Lemma operand_ok_all prog : forallb operand_ok prog = true -> Forall (fun i => 0 <= h_a i) prog.
Proof.
  intros Ho. apply List.Forall_forall. intros i Hi. rewrite forallb_forall in Ho. specialize (Ho i Hi).
  unfold operand_ok in Ho. bool_hyps. zbool. assumption.
Qed.

(** The program of an accepted byte code, run on the caller's arguments, and its machine code. *)
Lemma compiled_runs `{Fpu} `{HostFns} g_hc_fp g_hc_alloc g_hc_mem cap lo hi bc code prog base host entry m v m'
  (Hglobals : globals_ok g_hc_fp g_hc_alloc g_hc_mem lo hi)
  (Hcompile : hc_ir_compile g_hc_fp g_hc_alloc g_hc_mem cap bc = inr code)
  (Hparse : hc_parse bc = Some prog) (Htyped : well_typed prog = true) (Hplaced : placed prog code base)
  (Hhost : host_ok lo hi (in_code code base) host)
  (Hcalled : called entry base hi) (Hmem : agree lo hi (m_mem entry) m)
  (Hrun : ir_exec g_hc_fp g_hc_alloc g_hc_mem lo hi prog (ir_start entry (m_x entry) m) v m') :
  exists s, rtc (mstep code base host) entry s /\ returned lo hi entry v m' s.
Proof.
  apply hc_ir_compile_layout in Hcompile as (_ & prog' & Hp & Hlayout). rewrite Hparse in Hp. injection Hp as <-.
  unfold well_typed in Htyped. destruct (shapes prog 0 false) as [sh|] eqn:Hsh; [|discriminate].
  apply andb_true_iff in Htyped as [Hjumps Hops].
  destruct (Hlayout sh eq_refl (operand_ok_all _ Hops)) as (lab & sp & framed & Hlast & Hlay).
  destruct Hglobals as [Hfp Hal Hgm Hlo Hroom Hhi Afp Aal]. destruct Hplaced as [Hbase Htop Hsize Hcalls].
  destruct Hcalled as [Hpc Hsp Hrange].
  assert (Hclosed : forall sp' fr, list.last sh = Some (sp', fr) -> fr = framed) by (intros ? ? E; congruence).
  destruct (sim_start g_hc_fp g_hc_alloc g_hc_mem lo hi Hlo Hroom Hhi prog sh framed lab code Hsh Hlay Hops base host entry
    Hbase Htop Hjumps Hclosed Hcalls m Hpc Hsp Hrange Hmem) as (s1 & St & Hsim).
  destruct (sim_exec g_hc_fp g_hc_alloc g_hc_mem Hfp Hal Hgm lo hi Hlo Hroom Hhi Afp Aal prog sh framed lab code Hsh Hlay
    Hops base host entry Hbase Htop Hjumps Hsize Hhost Hclosed Hcalls _ v m' Hrun s1 Hsim) as (s & St' & Hret).
  exists s. split; [eapply transitivity; eassumption|exact Hret].
Qed.

(** ** The stack-IR compiler: properties

    What a compiled program does ([hc_ir_compile_correct]), what the compiler guarantees of its
    output and of its input, and where the compiled code leaves the meaning of the IR. *)

(** C26: the compiler is correct.  When it accepts a byte code whose program obeys the stack
    discipline, and the program run on the caller's arguments ends with [v] and memory [m'], then
    the machine code, called under the AAPCS64 conventions with the host functions [host], runs
    to the caller's return address with [v] in X0, the stack pointer and the callee-saved
    registers restored, and memory equal to [m'] outside its stack. *)
Theorem hc_ir_compile_correct `{Fpu} `{HostFns} g_hc_fp g_hc_alloc g_hc_mem cap lo hi bc code prog base host entry m v m'
  (Hglobals : globals_ok g_hc_fp g_hc_alloc g_hc_mem lo hi)
  (Hcompile : hc_ir_compile g_hc_fp g_hc_alloc g_hc_mem cap bc = inr code)
  (Hparse : hc_parse bc = Some prog) (Htyped : well_typed prog = true) (Hplaced : placed prog code base)
  (Hhost : host_ok lo hi (in_code code base) host)
  (Hcalled : called entry base hi) (Hmem : agree lo hi (m_mem entry) m)
  (Hrun : ir_exec g_hc_fp g_hc_alloc g_hc_mem lo hi prog (ir_start entry (m_x entry) m) v m') :
  exists s, rtc (mstep code base host) entry s /\ returned lo hi entry v m' s.
Proof. exact (compiled_runs g_hc_fp g_hc_alloc g_hc_mem cap lo hi bc code prog base host entry m v m' Hglobals Hcompile Hparse Htyped Hplaced Hhost Hcalled Hmem Hrun). Qed.

(** ** A program, for the witnesses

    Three turns of a loop that adds a local to another, and a call of a function at 0x9000 that
    doubles its argument. *)

#[local] Instance demo_fpu : Fpu.
Proof.
  refine {| f_add := fun _ _ => 0; f_sub := fun _ _ => 0; f_mul := fun _ _ => 0; f_div := fun _ _ => 0;
            f_neg := fun _ => 0; f_cmp := fun _ _ => None; f_scvtf := fun _ => 0; f_fcvtzs := fun _ => 0 |};
    intros; split; lia.
Defined.
#[local] Instance demo_fns : HostFns := {| h_arity := fun _ => 1; h_call := fun _ args m => (2 * hd 0 args, m) |}.

Definition demo_bc : list Z :=
  hc_pack_imm64 3 ++ hc_pack_u8op (hc_code HC_ST_LOCAL) 0 ++ hc_pack_imm64 0 ++ hc_pack_u8op (hc_code HC_ST_LOCAL) 1 ++
  hc_pack_u8op (hc_code HC_LABEL) 5 ++
  hc_pack_u8op (hc_code HC_LD_LOCAL) 1 ++ hc_pack_u8op (hc_code HC_LD_LOCAL) 0 ++ [hc_code HC_ADD] ++
  hc_pack_u8op (hc_code HC_ST_LOCAL) 1 ++ hc_pack_u8op (hc_code HC_LD_LOCAL) 0 ++ hc_pack_imm64 1 ++
  [hc_code HC_SUB; hc_code HC_DUP] ++ hc_pack_u8op (hc_code HC_ST_LOCAL) 0 ++ hc_pack_u8op (hc_code HC_JNZ) 5 ++
  hc_pack_u8op (hc_code HC_LD_LOCAL) 1 ++ hc_pack_call1 0x9000 ++ [hc_code HC_RET].
Definition demo_prog : list hinsn := default [] (hc_parse demo_bc).
Definition demo_code : list Z := match hc_ir_compile 0x20000 0x20008 0x30000 200 demo_bc with inr c => c | inl _ => [] end.
Definition demo_entry : mstate :=
  mk_mstate (fun r => r) 0x11000 (fun _ => 0) (mk_flags false false false false) (fun _ => 0) 0x4000.
Definition demo_host (s : mstate) : mstate := pc_set (m_x s 30) (x_set 0 (2 * m_x s 0) s).

Lemma demo_host_ok code : host_ok 0x10000 0x11000 (in_code code 0x4000) demo_host.
Proof.
  split; try reflexivity.
  - intros fn args m m' Ha. split; [reflexivity|exact Ha].
  - intros s r _ Hr. unfold demo_host, x_set, pc_set, upd_fun. cbn. replace (r =? 0) with false by lia. reflexivity.
Qed.

Lemma hc_ir_compile_correct_witness :
  exists s, rtc (mstep demo_code 0x4000 demo_host) demo_entry s /\ returned 0x10000 0x11000 demo_entry 12 (fun _ => 0) s.
Proof.
  eapply (hc_ir_compile_correct 0x20000 0x20008 0x30000 200 0x10000 0x11000 demo_bc demo_code demo_prog 0x4000 demo_host
    demo_entry (fun _ => 0) 12).
  - split; first [split; lia | lia | reflexivity].
  - vm_compute. reflexivity.
  - vm_compute. reflexivity.
  - vm_compute. reflexivity.
  - assert (Hl : length demo_code = 49%nat) by (vm_compute; reflexivity).
    split; rewrite ?Hl; try reflexivity; try lia.
    intros i Hi Hc. unfold in_code. rewrite Hl.
    assert (Hall : forallb (fun i => negb (bool_decide (In (h_op i) calls)) || (0x8000 <=? h_a i)) demo_prog = true)
      by (vm_compute; reflexivity).
    rewrite forallb_forall in Hall. specialize (Hall i Hi). rewrite bool_decide_eq_true_2 in Hall by exact Hc.
    cbn [negb orb] in Hall. zbool. lia.
  - apply demo_host_ok.
  - split; [reflexivity..|]. intros r Hr. split; cbn; lia.
  - intros a _. reflexivity.
  - eapply (ir_run_exec _ _ _ _ _ _ 60). vm_compute. reflexivity.
Defined.

(** ** The output and the run of the compiler *)

(** Every encoder's word decodes to the instruction its name says, on the registers it is
    given: AArch64 data processing, loads and stores, pairs, floating point and returns. *)
Theorem a64_encoders_decode rd rn rm ra (Hd : 0 <= rd < 32) (Hn : 0 <= rn < 32) (Hm : 0 <= rm < 32) (Ha : 0 <= ra < 32) :
  Forall (fun p => decode (fst p) = Some (snd p))
   [(a64_ret, Ret 30); (a64_blr rn, Blr rn); (a64_add_x_reg rd rn rm, AddReg rd rn rm 0);
    (a64_sub_x_reg rd rn rm, SubReg rd rn rm 0); (a64_cmp_x rn rm, SubsReg 31 rn rm 0);
    (a64_mul_x rd rn rm, Madd rd rn rm 31); (a64_sdiv_x rd rn rm, Dp2 Sdiv rd rn rm);
    (a64_msub_x rd rn rm ra, Msub rd rn rm ra); (a64_mov_x rd rn, Logic Lorr rd 31 rn);
    (a64_neg_x rd rm, SubReg rd 31 rm 0); (a64_and_x rd rn rm, Logic Land rd rn rm);
    (a64_orr_x rd rn rm, Logic Lorr rd rn rm); (a64_eor_x rd rn rm, Logic Leor rd rn rm);
    (a64_lslv_x rd rn rm, Dp2 Lslv rd rn rm); (a64_lsrv_x rd rn rm, Dp2 Lsrv rd rn rm);
    (a64_asrv_x rd rn rm, Dp2 Asrv rd rn rm); (a64_cset_eq rd, Csinc rd 31 31 1); (a64_cset_ne rd, Csinc rd 31 31 0);
    (a64_cset_lt rd, Csinc rd 31 31 10); (a64_cset_ge rd, Csinc rd 31 31 11); (a64_cset_le rd, Csinc rd 31 31 12);
    (a64_cset_gt rd, Csinc rd 31 31 13); (a64_csel_eq_x rd rn rm, Csel rd rn rm 0);
    (a64_ldr_x rd rn, Ldr X64 rd rn 0); (a64_str_x rd rn, Str X64 rd rn 0); (a64_ldr_w rd rn, Ldr W32 rd rn 0);
    (a64_str_w rd rn, Str W32 rd rn 0); (a64_ldrb rd rn, Ldr B8 rd rn 0); (a64_strb rd rn, Str B8 rd rn 0);
    (a64_stp_pre rd ra rn (-16), StpPre rd ra rn (-2)); (a64_ldp_post rd ra rn 16, LdpPost rd ra rn 2);
    (a64_fadd_d rd rn rm, Fp2 Fadd rd rn rm); (a64_fsub_d rd rn rm, Fp2 Fsub rd rn rm);
    (a64_fmul_d rd rn rm, Fp2 Fmul rd rn rm); (a64_fdiv_d rd rn rm, Fp2 Fdiv rd rn rm); (a64_fneg_d rd rn, Fneg rd rn);
    (a64_fcmp_d rn rm, Fcmp rn rm); (a64_fmov_d_x rd rn, FmovDX rd rn); (a64_fmov_x_d rd rn, FmovXD rd rn);
    (a64_scvtf_d_x rd rn, Scvtf rd rn); (a64_fcvtzs_x_d rd rn, Fcvtzs rd rn)].
Proof.
  assert (R : forall r, 0 <= r < 32 -> reg5 r = r).
  { intros r Hr. unfold reg5. change 31 with (2 ^ 5 - 1). rewrite land_ones_mod by lia. apply Z.mod_small. lia. }
  repeat constructor; cbn [fst snd]; autorewrite with a64; rewrite ?dec_stp, ?dec_ldp by lia;
    rewrite ?(R rd Hd), ?(R rn Hn), ?(R rm Hm), ?(R ra Ha); reflexivity.
Qed.

Lemma a64_encoders_decode_witness : decode (a64_add_x_reg 9 9 10) = Some (AddReg 9 9 10 0).
Proof.
  pose proof (a64_encoders_decode 9 9 10 0 ltac:(lia) ltac:(lia) ltac:(lia) ltac:(lia)) as F.
  exact (proj1 (List.Forall_forall _ _) F (_, _) (or_intror (or_intror (or_introl eq_refl)))).
Defined.

(** The four words of [a64_emit_imm64] load the 64-bit constant into the register and change
    nothing else that a program can see. *)
Theorem a64_emit_imm64_loads `{Fpu} rd v s (Hd : 0 <= rd < 31) (Hv : is_u 64 v) :
  let s' := run (a64_emit_imm64 rd v) s in
  m_x s' rd = v /\ (forall r, r <> rd -> m_x s' r = m_x s r) /\ m_sp s' = m_sp s /\ m_mem s' = m_mem s.
Proof.
  destruct (run_imm64 rd v s Hd Hv) as [[X SP M] V]. cbv zeta. split; [exact V|]. split; [|auto].
  intros r Hr. apply X. cbn. intros [E|[]]. congruence.
Qed.

Lemma a64_emit_imm64_loads_witness : m_x (run (a64_emit_imm64 9 0xFEDCBA9876543210) demo_entry) 9 = 0xFEDCBA9876543210.
Proof. exact (proj1 (a64_emit_imm64_loads 9 0xFEDCBA9876543210 demo_entry ltac:(lia) ltac:(split; reflexivity || discriminate))). Defined.

(** The compiler's loop ends: each turn reads at least one byte of the byte code, so as many
    turns as it has bytes are enough, and more change nothing: neither the output nor the error. *)
Theorem compile_loop_terminates g_hc_fp g_hc_alloc g_hc_mem cap fuel s (Hfuel : (length (j_bc s) <= fuel)%nat) :
  compile_loop g_hc_fp g_hc_alloc g_hc_mem cap fuel s =
  compile_loop g_hc_fp g_hc_alloc g_hc_mem cap (length (j_bc s)) s.
Proof. symmetry. apply loop_fuel; [lia|exact Hfuel]. Qed.

Lemma compile_loop_terminates_witness : let s := mk_jit demo_bc [] 0 false (repeat (-1) 128) [] in
  compile_loop 0x20000 0x20008 0x30000 200 500 s = compile_loop 0x20000 0x20008 0x30000 200 (length demo_bc) s.
Proof. intros s. apply (compile_loop_terminates 0x20000 0x20008 0x30000 200 500 s). vm_compute. lia. Defined.



(** ** Packing *)

(** Parsing undoes packing: the byte code the front end packs for a program is read back as
    that program, operands included. *)
Theorem hc_pack_parse prog (Hpack : forallb packable prog = true) : hc_parse (concat (map pack_insn prog)) = Some prog.
Proof. apply parse_packed, Hpack. Qed.

Lemma hc_pack_parse_witness : hc_parse (concat (map pack_insn demo_prog)) = Some demo_prog.
Proof. apply (hc_pack_parse demo_prog). vm_compute. reflexivity. Defined.

(** ** The stack discipline *)

Section Discipline.
Context `{Fpu} `{HostFns} (g_hc_fp g_hc_alloc g_hc_mem lo hi : Z).
Context (prog : list hinsn) (sh : list (Z * bool)).
Abbreviation ir_step := (ir_step g_hc_fp g_hc_alloc g_hc_mem lo hi prog) (only parsing).

(** The state has the depth and the frame its program point was given. *)
Definition shaped (s : ir_state) : Prop :=
  sh !! i_pc s = Some (Z.of_nat (length (i_stack s)), is_framed (i_frame s)).

(** The instructions that depend on more than the stack: an access of the machine stack, a call
    with another arity, an unordered comparison, an argument register after a call. *)
Definition may_fail (op : hc_op) : bool :=
  match op with
  | HC_LOAD | HC_LOAD8 | HC_LOAD32 | HC_STORE | HC_STORE8 | HC_STORE32 | HC_LD_SLOT | HC_ST_SLOT | HC_LD_ABS | HC_ST_ABS
  | HC_CALL0 | HC_CALL1 | HC_CALL2 | HC_CALL3 | HC_CALL4 | HC_CALL5 | HC_CALL6 | HC_CALL7
  | HC_FLT | HC_FLE | HC_INARG => true
  | _ => false
  end.

Lemma fcompare_total op x y : In op fcompares -> may_fail op = false -> fcompare op x y <> None.
Proof using.
  intros Hop Hm. cbn [fcompares In] in Hop. unfold fcompare.
  repeat (destruct Hop as [<-|Hop]; [first [discriminate Hm | destruct (f_cmp x y); discriminate]|]). contradiction.
Qed.

Lemma jump_defined i k x st s : forallb (jump_ok prog sh) (seq 0 (length prog)) = true ->
  prog !! k = Some i -> is_jump (h_op i) = true -> sh !! S k = Some x ->
  exists s', jump prog (h_a i) st s = Some s' /\ sh !! i_pc s' = Some x /\ i_stack s' = st /\ i_frame s' = i_frame s.
Proof using.
  intros Hjumps Hi Hj Hx. destruct (jump_shape prog sh Hjumps k i x Hi Hj Hx) as (j & Hl & Hshape).
  unfold jump. rewrite Hl. eexists. split; [reflexivity|]. cbn. auto.
Qed.

(** What a step does to the depth and the frame. *)
Definition follows (i : hinsn) (s s' : ir_state) : Prop :=
  effect i (Z.of_nat (length (i_stack s))) (is_framed (i_frame s)) =
    Some (Z.of_nat (length (i_stack s')), is_framed (i_frame s')).

Ltac stuck_free := repeat match goal with
  | Hx : context [match ?x with [] => _ | _ :: _ => _ end] |- _ => destruct x
  end.

Lemma effect_length i s sp fr : effect i (Z.of_nat (length (i_stack s))) (is_framed (i_frame s)) = Some (sp, fr) -> 0 <= sp.
Proof using.
  unfold effect, push, pops. intros He.
  destruct (h_op i); repeat case_if; simplify_eq; bool_hyps; zbool; lia.
Qed.

Ltac if_in H := match type of H with (if ?b then _ else _) = _ => destruct b eqn:? end.

(** The effect of a step on the shape is the one of its instruction. *)
Lemma step_follows s i s' y : prog !! i_pc s = Some i -> is_jump (h_op i) = false -> ir_step s = Some (inl s') ->
  effect i (Z.of_nat (length (i_stack s))) (is_framed (i_frame s)) = Some y ->
  i_pc s' = S (i_pc s) /\ y = (Z.of_nat (length (i_stack s')), is_framed (i_frame s')).
Proof using.
  intros Hi Hj Hstep He. unfold HcIrSem.ir_step in Hstep. rewrite Hi in Hstep. destruct i as [op a b].
  destruct (decide (In op calls)) as [Hc|Hc].
  - destruct (call_step g_hc_fp g_hc_alloc g_hc_mem lo hi prog op a b s s' Hc Hi) as (_ & Hn & ->).
    { unfold HcIrSem.ir_step. rewrite Hi. exact Hstep. }
    split; [reflexivity|]. cbn [i_stack i_frame length]. rewrite length_drop.
    assert (He' : y = (Z.of_nat (length (i_stack s)) - call_argc op + 1, is_framed (i_frame s))).
    { cbn [calls In] in Hc. repeat (destruct Hc as [<-|Hc]; [unfold effect in He; cbn [h_op] in He; cbv zeta in He; clear Hstep; case_if; [injection He as <-; reflexivity|discriminate]|]). contradiction. }
    assert (0 <= call_argc op) by (clear; destruct op; cbn; lia).
    rewrite He'. f_equal. lia.
  - unfold effect, push, pops in He. destruct op; try (exfalso; apply Hc; cbn; tauto); try discriminate Hj; clear Hc Hj Hi;
      destruct s as [pc stk loc fr args m]; cbn [i_stack i_frame i_locals i_args i_mem i_pc h_op] in *;
      destruct stk as [|x [|z stk]]; cbn in Hstep; try discriminate;
      repeat match type of Hstep with
        | mbind _ _ = Some _ => apply bind_Some in Hstep as (? & ? & Hstep)
        | context [match fr with _ => _ end] => destruct fr; try discriminate
        end;
      try (injection Hstep as <-); cbn [i_stack i_frame i_pc is_framed length] in *.
    all: split; [reflexivity|].
    all: repeat match type of He with (if ?b then _ else _) = _ => destruct b; try discriminate He end.
    all: try subst fr; injection He as <-; cbn [is_framed]; f_equal; lia.
Qed.

(** The stack a jump leaves, and where it goes. *)
Lemma jump_follows s i y : shapes prog 0 false = Some sh -> forallb (jump_ok prog sh) (seq 0 (length prog)) = true ->
  prog !! i_pc s = Some i -> is_jump (h_op i) = true -> sh !! S (i_pc s) = Some y ->
  effect i (Z.of_nat (length (i_stack s))) (is_framed (i_frame s)) = Some y ->
  exists s', ir_step s = Some (inl s') /\ shaped s'.
Proof using.
  intros Hsh Hjumps Hi Hj Hnext He. pose proof (fun st => jump_defined i (i_pc s) y st s Hjumps Hi Hj Hnext) as Hjump.
  unfold HcIrSem.ir_step. rewrite Hi. destruct i as [op a b]. cbn [h_op h_a] in *. unfold effect, pops in He. cbn [h_op] in He.
  unfold shaped.
  destruct op; try discriminate Hj.
  - injection He as <-. destruct (Hjump (i_stack s)) as (s' & -> & E & Est & Efr). exists s'. split; [reflexivity|].
    rewrite E, Est, Efr. reflexivity.
  - destruct (i_stack s) as [|x st]; [discriminate|]. cbn [length] in He. if_in He; [|discriminate]. injection He as <-.
    destruct (x =? 0).
    + destruct (Hjump st) as (s' & -> & E & Est & Efr). exists s'. split; [reflexivity|]. rewrite E, Est, Efr. do 2 f_equal. lia.
    + eexists. split; [reflexivity|]. cbn [i_pc i_stack i_frame]. rewrite Hnext. do 2 f_equal. lia.
  - destruct (i_stack s) as [|x st]; [discriminate|]. cbn [length] in He. if_in He; [|discriminate]. injection He as <-.
    destruct (x =? 0).
    + eexists. split; [reflexivity|]. cbn [i_pc i_stack i_frame]. rewrite Hnext. do 2 f_equal. lia.
    + destruct (Hjump st) as (s' & -> & E & Est & Efr). exists s'. split; [reflexivity|]. rewrite E, Est, Efr. do 2 f_equal. lia.
Qed.

Lemma step_progress s i y : prog !! i_pc s = Some i -> is_jump (h_op i) = false -> may_fail (h_op i) = false ->
  effect i (Z.of_nat (length (i_stack s))) (is_framed (i_frame s)) = Some y -> ir_step s <> None.
Proof using.
  intros Hi Hj Hm He. unfold HcIrSem.ir_step. rewrite Hi. destruct i as [op a b]. cbn [h_op] in *. unfold effect in He. cbn [h_op] in He.
  destruct op; try discriminate Hj; try discriminate Hm; try discriminate He;
    destruct s as [pc stk loc fr args m]; cbn [i_stack i_frame i_locals i_args i_mem i_pc] in *;
    destruct stk as [|x [|z stk]]; cbn in He; try discriminate He; try discriminate;
    try (destruct fr; discriminate).
  all: match goal with |- context [HcIrSem.fcompare ?o ?p ?q] =>
         pose proof (fcompare_total o p q ltac:(cbn; tauto) Hm) as Hf; destruct (HcIrSem.fcompare o p q); [discriminate|contradiction] end.
Qed.

(** The stack discipline is sound.  In a program whose shapes are consistent, a state with
    the depth and frame of its program point steps to a state with the depth and frame of the
    next, jumps included; and it is never stuck, except on the instructions that depend on more
    than the stack. *)
Theorem ir_step_sound s (Hsh : shapes prog 0 false = Some sh)
  (Hjumps : forallb (jump_ok prog sh) (seq 0 (length prog)) = true) (Hs : shaped s) :
  (forall s', ir_step s = Some (inl s') -> shaped s') /\
  (forall i, prog !! i_pc s = Some i -> may_fail (h_op i) = false -> ir_step s <> None).
Proof using.
  destruct (prog !! i_pc s) as [i|] eqn:Hi.
  - destruct (shapes_effect _ _ _ _ _ _ _ Hsh Hi Hs) as (y & He & Hnext). cbn [fst snd] in He.
    destruct (is_jump (h_op i)) eqn:Hj.
    + destruct (jump_follows s i y Hsh Hjumps Hi Hj Hnext He) as (s1 & Hstep & Hs1). rewrite Hstep.
      split; [intros s' [= <-]; exact Hs1|discriminate].
    + split.
      * intros s' Hstep. destruct (step_follows s i s' y Hi Hj Hstep He) as [Hpc E]. unfold shaped. rewrite Hpc, Hnext, E. reflexivity.
      * intros i' [= <-] Hm. exact (step_progress s i y Hi Hj Hm He).
  - split; [|discriminate]. intros s' Hstep. unfold HcIrSem.ir_step in Hstep. rewrite Hi in Hstep. discriminate.
Qed.
End Discipline.

Lemma ir_step_sound_witness : shaped (default [] (shapes demo_prog 0 false))
  (mk_ir 1 [3] (fun l => m_x demo_entry (20 + l)) None (Some (fun r => r)) (fun _ => 0)).
Proof.
  apply (ir_step_sound 0x20000 0x20008 0x30000 0x10000 0x11000 demo_prog (default [] (shapes demo_prog 0 false))
    (ir_start demo_entry (fun r => r) (fun _ => 0))); vm_compute; reflexivity.
Defined.

(** ** Where the code leaves the meaning of the IR *)

(** [HC_FLT] and [HC_FLE] of unordered operands (a NaN) give 1: [fcmp] sets C and V, and the
    conditions LT and LE of [cset], made for integers, hold then.  The other four comparisons
    give what IEEE 754 says. *)
Theorem fcompare_unordered `{Fpu} op ra rb s (Hop : In op fcompares) (Ha : is_reg ra) (Hb : is_reg rb)
  (Ua : is_u 64 (m_x s ra)) (Ub : is_u 64 (m_x s rb)) (Hun : f_cmp (m_x s ra) (m_x s rb) = None) :
  m_x (run [a64_fmov_d_x 0 ra; a64_fmov_d_x 1 rb; a64_fcmp_d 0 1; fcset_word op ra] s) ra =
  match op with HC_FEQ | HC_FGT | HC_FGE => 0 | _ => 1 end.
Proof.
  change (run (?a :: ?b :: ?l) s) with (run l (run [a; b] s)).
  destruct (load_operands ra rb s Ha Hb Ua Ub) as (O & D0 & D1). set (s1 := run [_; _] s) in *. clearbody s1.
  rewrite run_cons, run_one, w_fcmp, w_fcset, put_same by assumption. cbn [put_flags m_flags]. rewrite D0, D1, Hun.
  cbn [fcompares In] in Hop. repeat (destruct Hop as [<-|Hop]; [reflexivity|]). contradiction.
Qed.

Lemma fcompare_unordered_witness :
  m_x (run [a64_fmov_d_x 0 9; a64_fmov_d_x 1 10; a64_fcmp_d 0 1; fcset_word HC_FLT 9] demo_entry) 9 = 1.
Proof.
  apply (fcompare_unordered HC_FLT 9 10 demo_entry); first [cbn; tauto | reflexivity | split; cbn; lia].
Defined.

(** Eight constants, and an exchange of the top two. *)
Definition deep_bc : list Z := concat (repeat (hc_pack_imm64 7) 8) ++ [hc_code HC_SWAP; hc_code HC_RET].

(** The compiler takes stacks of up to 16 slots, but the ninth register above X8 on are the
    scratch registers: at depth 8 the code of [HC_SWAP] overwrites the top slot, X16, with the
    slot below before reading it, so both slots end with the lower value. *)
Theorem swap_clobbers_at_depth_8 `{Fpu} s (Hu : is_u 64 (m_x s 15)) :
  (exists code, hc_ir_compile 0x20000 0x20008 0x30000 200 deep_bc = inr code) /\
  let s' := run (gen_words 0x20000 0x20008 0x30000 (mk_h HC_SWAP 0 0) 8 false) s in
  m_x s' (st 8 0) = m_x s (st 8 1) /\ m_x s' (st 8 1) = m_x s (st 8 1).
Proof.
  split; [eexists; vm_compute; reflexivity|]. cbv zeta. cbn [gen_words h_op]. change (st 8 0) with 16. change (st 8 1) with 15.
  assert (R15 : is_reg 15) by (split; lia). assert (R16 : is_reg 16) by (split; lia).
  rewrite !run_cons, run_nil, !w_mov by assumption.
  repeat first [rewrite put_same | rewrite put_other by lia | rewrite u64_u64].
  rewrite u64_id' by exact Hu. auto.
Qed.

Lemma swap_clobbers_at_depth_8_witness :
  m_x (run (gen_words 0x20000 0x20008 0x30000 (mk_h HC_SWAP 0 0) 8 false) demo_entry) 16 = 15.
Proof. exact (proj1 (proj2 (swap_clobbers_at_depth_8 demo_entry ltac:(split; cbn; lia)))). Defined.
