(* ===== verification/Editor.v ===== *)
(** * The source editor ([src/src/zc_source_editor.h]): definitions

    [zedit] edits one file of the source partition.  Its state is the global [g_zedit], a text
    buffer with a length and a cursor; every command line goes through [zedit_handle].  The
    console output is a list of pieces, and the framebuffer view a list of drawing calls. *)

From S2P Require Import Prelude BlockDev SourceStore.
#[local] Open Scope sm_scope.

Definition NL : Z := 10.
Definition ZEAL_TEXT_MAX_COLS : Z := 512.
Definition ZEAL_TEXT_MAX_ROWS : Z := 512.

(** What the editor prints: strings, decimal numbers and single characters. *)
Inductive out_piece := Puts (s : String.string) | Puts_bytes (s : list Z) | Dec (n : Z) | Chr (c : Z).
#[local] Open Scope string_scope.
#[local] Open Scope Z_scope.
#[local] Open Scope list_scope.

Record zedit := mk_zedit {
  z_name : cstring;
  z_length : Z;
  view_first : Z; view_count : Z; cursor_line : Z;
  z_active : bool; z_dirty : bool; z_existed : bool;
  z_text : Z -> Z }.                         (* text\[i\], i <= ZSS_MAX_FILE *)

Definition set_text (t : Z -> Z) (e : zedit) : zedit :=
  mk_zedit (z_name e) (z_length e) (view_first e) (view_count e) (cursor_line e) (z_active e) (z_dirty e) (z_existed e) t.
Definition set_length (n : Z) (e : zedit) : zedit :=
  mk_zedit (z_name e) n (view_first e) (view_count e) (cursor_line e) (z_active e) (z_dirty e) (z_existed e) (z_text e).
Definition set_view (first count : Z) (e : zedit) : zedit :=
  mk_zedit (z_name e) (z_length e) first count (cursor_line e) (z_active e) (z_dirty e) (z_existed e) (z_text e).
Definition set_cursor (n : Z) (e : zedit) : zedit :=
  mk_zedit (z_name e) (z_length e) (view_first e) (view_count e) n (z_active e) (z_dirty e) (z_existed e) (z_text e).
Definition set_active (b : bool) (e : zedit) : zedit :=
  mk_zedit (z_name e) (z_length e) (view_first e) (view_count e) (cursor_line e) b (z_dirty e) (z_existed e) (z_text e).
Definition set_dirty (b : bool) (e : zedit) : zedit :=
  mk_zedit (z_name e) (z_length e) (view_first e) (view_count e) (cursor_line e) (z_active e) b (z_existed e) (z_text e).
Definition set_existed (b : bool) (e : zedit) : zedit :=
  mk_zedit (z_name e) (z_length e) (view_first e) (view_count e) (cursor_line e) (z_active e) (z_dirty e) b (z_text e).

(** ** Lines *)

(** [n] turns of the counting loop from index [i]. *)
Fixpoint count_lines (n : nat) (text : Z -> Z) (i lines : Z) : Z :=
  match n with
  | O => lines
  | S n' => count_lines n' text (i + 1) (if text i =? NL then u32 (lines + 1) else lines)
  end.
Definition zedit_lines (e : zedit) : Z :=
  let lines := count_lines (Z.to_nat (z_length e)) (z_text e) 0 0 in
  if negb (z_length e =? 0) && negb (z_text e (z_length e - 1) =? NL) then u32 (lines + 1) else lines.

(** [while (last < length && text\[last\] != '\n') last++;] *)
Fixpoint line_end (fuel : nat) (e : zedit) (last : Z) : Z :=
  match fuel with
  | O => last
  | S fuel' => if (last <? z_length e) && negb (z_text e last =? NL) then line_end fuel' e (last + 1) else last
  end.

(** The scan for line [number] from line [current] at [at_]: its bounds, if it is there. *)
Fixpoint bounds_loop (fuel : nat) (e : zedit) (number current at_ : Z) : option (Z * Z) :=
  match fuel with
  | O => None
  | S fuel' =>
      if at_ <? z_length e then
        let last := line_end (Z.to_nat (z_length e - at_)) e at_ in
        let last := if last <? z_length e then last + 1 else last in
        if current =? number then Some (at_, last) else bounds_loop fuel' e number (u32 (current + 1)) last
      else None
  end.
Definition zedit_bounds (number : Z) (e : zedit) : option (Z * Z) :=
  if number =? 0 then None else bounds_loop (Z.to_nat (z_length e)) e number 1 0.

(** ** Changing the text *)

Definition poke (t : Z -> Z) (i v : Z) : Z -> Z := fun j => if j =? i then v else t j.

(** [for (i = hi; i > lo; i--) text\[dst + i - lo - 1\] = text\[i - 1\];], [n] turns. *)
Fixpoint move_up (n : nat) (t : Z -> Z) (dst lo i : Z) : Z -> Z :=
  match n with
  | O => t
  | S n' => move_up n' (poke t (dst + i - lo - 1) (t (i - 1))) dst lo (i - 1)
  end.
(** [for (i = lo; i < lo + n; i++) text\[dst + i - lo\] = text\[i\];] *)
Fixpoint move_down (n : nat) (t : Z -> Z) (dst lo i : Z) : Z -> Z :=
  match n with
  | O => t
  | S n' => move_down n' (poke t (dst + i - lo) (t i)) dst lo (i + 1)
  end.
Fixpoint copy_body (body : list Z) (t : Z -> Z) (at_ : Z) : Z -> Z :=
  match body with [] => t | c :: body' => copy_body body' (poke t at_ c) (at_ + 1) end.

(** 0, or -1 when the file would be too long. *)
Definition zedit_splice (start end_ : Z) (body : list Z) (append_eof : bool) (e : zedit) : Z * zedit :=
  let len := z_length e in
  let prefix := append_eof && negb (len =? 0) && negb (z_text e (len - 1) =? NL) in
  let inserted := u32 (Z.b2z prefix + Z.of_nat (length body) + 1) in
  let removed := u32 (end_ - start) in
  if (ZSS_MAX_FILE <? inserted) || (u32 (ZSS_MAX_FILE - inserted) <? u32 (len - removed)) then (-1, e)
  else
    let destination := u32 (start + inserted) in
    let t :=
      if end_ <? destination then move_up (Z.to_nat (len + 1 - end_)) (z_text e) destination end_ (len + 1)
      else move_down (Z.to_nat (len + 1 - end_)) (z_text e) destination end_ end_ in
    let t := if prefix then poke t start NL else t in
    let at_ := if prefix then start + 1 else start in
    let t := poke (copy_body body t at_) (at_ + Z.of_nat (length body)) NL in
    (0, set_dirty true (set_length (u32 (u32 (len - removed) + inserted)) (set_text t e))).

Definition zedit_delete_line (number : Z) (e : zedit) : Z * zedit :=
  match zedit_bounds number e with
  | None => (-1, e)
  | Some (start, end_) =>
      let t := move_down (Z.to_nat (z_length e + 1 - end_)) (z_text e) start end_ end_ in
      (0, set_dirty true (set_length (u32 (z_length e - (end_ - start))) (set_text t e)))
  end.

(** ** Numbers *)

(** A decimal number at the head of [p], its value and the rest; [None]: none, zero, or too large. *)
Fixpoint number_loop (p : list Z) (value : Z) : option (Z * list Z) :=
  match p with
  | c :: p' =>
      if (48 <=? c) && (c <=? 57) then
        let digit := c - 48 in
        if (UINT32_MAX - digit) / 10 <? value then None else number_loop p' (value * 10 + digit)
      else Some (value, p)
  | [] => Some (value, p)
  end.
Definition zedit_number (p : list Z) : option (Z * list Z) :=
  match p with
  | c :: _ =>
      if (c <? 48) || (57 <? c) then None
      else match number_loop p 0 with
           | Some (value, rest) => if value =? 0 then None else Some (value, rest)
           | None => None
           end
  | [] => None
  end.

(** ** The view and the commands *)

Section Commands.
Context {D : Type} `{BlockDev D}.
(** The framebuffer: whether there is one, and its size in characters and pixels. *)
Context (g_fb : bool) (g_fb_rows g_fb_cols g_fb_w g_fb_h : Z).

(** The editor, the source partition it saves to, and the console. *)
Record ed := mk_ed { ed_z : zedit; ed_s : zst D; ed_out : list out_piece }.
Abbreviation E_M := (SM ed).

Definition edits (f : zedit -> zedit) : E_M unit := modify (fun s => mk_ed (f (ed_z s)) (ed_s s) (ed_out s)).
Definition editor {A} (f : zedit -> A) : E_M A := gets (fun s => f (ed_z s)).
Definition con (p : out_piece) : E_M unit := modify (fun s => mk_ed (ed_z s) (ed_s s) (ed_out s ++ [p])).
Definition con_puts (s : String.string) : E_M unit := con (Puts s).
Definition zc_print_decimal (n : Z) : E_M unit := con (Dec n).
(** A call into the source store. *)
Definition store_op {A} (m : SM (zst D) A) : E_M A := fun s =>
  match m (ed_s s) with Some (a, z) => Some (a, mk_ed (ed_z s) z (ed_out s)) | None => None end.
(** A change of the text, with its result code. *)
Definition apply_edit (f : zedit -> Z * zedit) : E_M Z := fun s =>
  let '(code, e) := f (ed_z s) in Some (code, mk_ed e (ed_s s) (ed_out s)).

Definition rows_of : Z := if g_fb_rows <? ZEAL_TEXT_MAX_ROWS then g_fb_rows else ZEAL_TEXT_MAX_ROWS.
Definition cols_of : Z := if g_fb_cols <? ZEAL_TEXT_MAX_COLS then g_fb_cols else ZEAL_TEXT_MAX_COLS.

Definition zedit_render (e : zedit) : zedit :=
  if negb (z_active e) then e
  else if (rows_of <? 8) || (cols_of =? 0) then e
  else
    let capacity := rows_of - 7 in
    let lines := zedit_lines e in
    let first := if view_first e =? 0 then 1 else view_first e in
    let first := if (lines <? first) && negb (lines =? 0) then lines else first in
    let count := if capacity <? view_count e then capacity else view_count e in
    let count := if count =? 0 then capacity else count in
    set_view first count e.

Definition zedit_page_rows : Z := if 5 <? rows_of then rows_of - 5 else 1.

Definition zedit_reveal_cursor (e : zedit) : zedit :=
  let capacity := zedit_page_rows in
  let visible := if negb (view_count e =? 0) then view_count e else capacity in
  let visible := if capacity <? visible then capacity else visible in
  if cursor_line e <? view_first e then set_view (cursor_line e) (view_count e) e
  else if negb (visible =? 0) && (u32 (view_first e + visible) <=? cursor_line e)
  then set_view (u32 (u32 (cursor_line e - visible) + 1)) (view_count e) e
  else e.

(** The characters of a printed line: at most 160, then an ellipsis. *)
Fixpoint print_chars (n : nat) (e : zedit) (i end_ printed : Z) : list out_piece :=
  match n with
  | O => []
  | S n' =>
      if (i <? end_) && negb (z_text e i =? NL) then
        if printed =? 160 then [Puts "..."] else Chr (z_text e i) :: print_chars n' e (i + 1) end_ (printed + 1)
      else []
  end.
Fixpoint print_lines (k : nat) (e : zedit) (lines first count n : Z) : list out_piece :=
  match k with
  | O => []
  | S k' =>
      if (n <=? lines) && (u32 (n - first) <? count) then
        match zedit_bounds n e with
        | None => []
        | Some (start, end_) =>
            [Dec n; Puts ": "] ++ print_chars (Z.to_nat (end_ - start)) e start end_ 0 ++ [Chr NL] ++
            print_lines k' e lines first count (u32 (n + 1))
        end
      else []
  end.
Definition zedit_print (first count : Z) (e : zedit) : list out_piece :=
  let lines := zedit_lines e in
  if lines =? 0 then [Puts "zedit: empty"; Chr NL]
  else if (first =? 0) || (lines <? first) then [Puts "zedit: line out of range"; Chr NL]
  else
    let count := if 50 <? count then 50 else count in
    print_lines (S (Z.to_nat count)) e lines first count first.

Fixpoint con_all (ps : list out_piece) : E_M unit :=
  match ps with [] => ret tt | p :: ps' => con p ;; con_all ps' end.

(** [con_puts] of a message and a line end. *)
Definition say (s : String.string) : E_M unit := con_puts s ;; con (Chr NL).
Definition say_dec (s : String.string) (n : Z) : E_M unit := con_puts s ;; zc_print_decimal n ;; con (Chr NL).

(** The first [n] bytes of a buffer, and the file being edited. *)
Definition text_of (t : Z -> Z) (n : Z) : list Z := map (fun i => t (Z.of_nat i)) (seq 0 (Z.to_nat n)).
Definition content (e : zedit) : list Z := text_of (z_text e) (z_length e).

Definition zedit_save : E_M Z :=
  let! e := editor id in
  if negb (z_dirty e) && z_existed e then say "zedit: unchanged" ;; ret 0
  else if z_length e =? 0 then say "zedit: empty source; use zrm to delete a file" ;; ret (-1)
  else
    let! result := store_op (zss_put (z_name e) (content e)) in
    if negb (result =? 0) then
      say (if result =? -3 then "zedit: source partition full"
           else if result =? -2 then "zedit: source partition unavailable"
           else "zedit: save failed; editor remains open") ;; ret (-1)
    else
      edits (fun e => set_existed true (set_dirty false e)) ;;
      con_puts "zedit: saved " ;; con (Puts_bytes (z_name e)) ;; say_dec " bytes=" (z_length e) ;; ret 0.

Definition zedit_help : E_M unit :=
  say "zedit: j/k move | [/] page | g/G top/bottom | e <text> edit | n <text> insert | x delete | p [line [count]] | a <text> | i <line> <text> | c <line> <text> | d <line> | w | wq | q | q!" ;;
  say "zedit: lines are numbered from 1; p defaults to the first 20".

(** What [zss_read] leaves in the buffer: the bytes and a NUL.  (When a sector cannot be read it
    leaves a prefix of the file; the editor is then not active, and the next [zedit_start] sets
    every byte a command looks at.) *)
Definition load_text (bytes : list Z) (t : Z -> Z) : Z -> Z :=
  match bytes with [] => t | _ => poke (copy_body bytes t 0) (Z.of_nat (length bytes)) 0 end.

(** The status and the length [zss_read] reports; the bytes go to the text buffer. *)
Definition zedit_load (f : find_result) : E_M (Z * Z) :=
  match fr_entry f with
  | Some entry =>
      if fr_code f =? 1 then
        let! r := store_op (zss_read entry (Some (ZSS_MAX_FILE + 1))) in
        edits (fun e => set_text (load_text (snd r) (z_text e)) e) ;; ret (fst r, e_length entry)
      else ret (0, 0)
  | None => ret (0, 0)
  end.

Definition zedit_opened (name : cstring) (found : Z) (len : Z) (e : zedit) : zedit :=
  let t := if found =? 1 then z_text e else poke (z_text e) 0 0 in
  mk_zedit name (if found =? 1 then len else 0) 1 0 1 true false (found =? 1) t.

Definition zedit_start (name : cstring) : E_M unit :=
  if negb (bool_decide (is_Some (zss_name_ok name))) then say "zedit: use zedit path/to/File.ZC"
  else
    let! f := store_op (zss_find (Some name)) in
    let found := fr_code f in
    if found =? -2 then say "zedit: native source partition unavailable"
    else if found =? -1 then say "zedit: damaged source catalog"
    else
      let! read := zedit_load f in
      let '(bad, len) := read in
      let! t := editor z_text in
      if (found =? 1) && negb (bad =? 0) then say "zedit: source checksum or read failed"
      else if (found =? 1) && existsb (fun b => b =? 0) (text_of t len) then say "zedit: source contains a NUL byte"
      else
        edits (zedit_opened name found len) ;;
        con_puts (if found =? 1 then "zedit: opened " else "zedit: new ") ;;
        con (Puts_bytes name) ;; con_puts " lines=" ;;
        let! lines := editor zedit_lines in zc_print_decimal lines ;;
        let! n := editor z_length in say_dec " bytes=" n ;;
        zedit_help ;; edits zedit_render.

Definition skip_arg_spaces (p : cstring) : cstring :=
  (fix go p := match p with c :: p' => if c =? 32 then go p' else p | [] => p end) p.
Definition is_cmd (line : cstring) (c : String.string) : bool := zss_str_eq line (bytes_of_string c).
Definition chr (c : String.string) : Z := byte_at (bytes_of_string c) 0.
(** [line\[k\]]; past the end is the NUL. *)
Definition at_char (line : cstring) (k : Z) (c : String.string) : bool := byte_at line k =? chr c.

(** The operands of [p]: the first line and the count. *)
Definition print_args (p : cstring) : option (Z * Z) :=
  match p with
  | c :: _ =>
      if c =? 32 then
        match zedit_number (skip_arg_spaces p) with
        | None => None
        | Some (first, p) =>
            match p with
            | c :: _ =>
                if c =? 32 then
                  match zedit_number (skip_arg_spaces p) with Some (count, []) => Some (first, count) | _ => None end
                else None
            | [] => Some (first, 20)
            end
        end
      else Some (1, 20)
  | [] => Some (1, 20)
  end.

Definition zedit_p (line : cstring) : E_M unit :=
  match print_args (drop 1 line) with
  | None => zedit_help
  | Some (first, count) =>
      edits (fun e => let e := set_view first count e in
                      if first <=? zedit_lines e then set_cursor first e else e) ;;
      let! e := editor id in con_all (zedit_print first count e)
  end.

(** The cursor after a motion command. *)
Definition moved (line : cstring) (lines cursor : Z) : Z :=
  let step := zedit_page_rows in
  let c :=
    if is_cmd line "j" then if cursor <? lines then cursor + 1 else cursor
    else if is_cmd line "k" then if 1 <? cursor then cursor - 1 else cursor
    else if is_cmd line "[" then if step <? cursor then cursor - step else 1
    else if is_cmd line "]" then
      if negb (lines =? 0) then
        let remaining := u32 (lines - cursor) in u32 (cursor + (if step <? remaining then step else remaining))
      else cursor
    else if is_cmd line "g" then 1
    else if negb (lines =? 0) then lines else cursor in
  let c := if (lines <? c) && negb (lines =? 0) then lines else c in
  if lines =? 0 then 1 else c.
Definition zedit_move (line : cstring) : E_M unit :=
  edits (fun e => zedit_reveal_cursor (set_cursor (moved line (zedit_lines e) (cursor_line e)) e)) ;;
  let! c := editor cursor_line in say_dec "zedit: cursor line " c.

Definition zedit_e (line : cstring) : E_M unit :=
  let body := drop 2 line in
  let! c := editor cursor_line in
  let! b := editor (zedit_bounds c) in
  match b with
  | None => say "zedit: cursor line out of range"
  | Some (start, end_) =>
      let! bad := apply_edit (zedit_splice start end_ body false) in
      if negb (bad =? 0) then say "zedit: file exceeds 4 MiB" else say_dec "zedit: edited line " c
  end.

(** Where line [number] starts and ends; one past the last line is the end of the file when
    [append]. *)
Definition insert_bounds (append : bool) (number : Z) (e : zedit) : option (Z * Z) :=
  if append && (number =? u32 (zedit_lines e + 1)) then Some (z_length e, z_length e) else zedit_bounds number e.

Definition zedit_n (line : cstring) : E_M unit :=
  let body := drop 2 line in
  let! c := editor cursor_line in
  let! lines := editor zedit_lines in
  let! b := editor (insert_bounds true c) in
  match b with
  | None => say "zedit: cursor line out of range"
  | Some (start, _) =>
      let! bad := apply_edit (zedit_splice start start body (c =? u32 (lines + 1))) in
      if negb (bad =? 0) then say "zedit: file exceeds 4 MiB" else say_dec "zedit: inserted line " c
  end.

(** The cursor when [lines] lines are left. *)
Definition clamp_cursor (lines cursor : Z) : Z :=
  let c := if (lines <? cursor) && negb (lines =? 0) then lines else cursor in if lines =? 0 then 1 else c.

Definition zedit_x : E_M unit :=
  let! c := editor cursor_line in
  let! bad := apply_edit (zedit_delete_line c) in
  if negb (bad =? 0) then say "zedit: cursor line out of range"
  else edits (fun e => set_cursor (clamp_cursor (zedit_lines e) (cursor_line e)) e) ;; say "zedit: deleted selected line".

Definition zedit_a (line : cstring) : E_M unit :=
  let body := if byte_at line 1 =? 0 then drop 1 line else drop 2 line in
  let! next := editor (fun e => u32 (zedit_lines e + 1)) in
  let! len := editor z_length in
  let! bad := apply_edit (zedit_splice len len body true) in
  if negb (bad =? 0) then say "zedit: file exceeds 4 MiB" else say_dec "zedit: added line " next.

Definition zedit_d (number : Z) (rest : cstring) : E_M unit :=
  let! bad := match rest with [] => apply_edit (zedit_delete_line number) | _ => ret (-1) end in
  if negb (bad =? 0) then say "zedit: line out of range"
  else
    edits (fun e =>
      let c := if number <? cursor_line e then u32 (cursor_line e - 1) else cursor_line e in
      let remaining := zedit_lines e in
      set_cursor (if remaining =? 0 then 1 else if remaining <? c then remaining else c) e) ;;
    say_dec "zedit: deleted line " number.

Definition zedit_ic (insert : bool) (number : Z) (body : cstring) : E_M unit :=
  let! lines := editor zedit_lines in
  let! b := editor (insert_bounds insert number) in
  match b with
  | None => say "zedit: line out of range"
  | Some (start, end_) =>
      let! bad := apply_edit (zedit_splice start (if insert then start else end_) body
                                (insert && (number =? u32 (lines + 1)))) in
      if negb (bad =? 0) then say "zedit: file exceeds 4 MiB"
      else
        edits (fun e => if insert && (number <=? cursor_line e) then set_cursor (u32 (cursor_line e + 1)) e else e) ;;
        say_dec (if insert then "zedit: inserted line " else "zedit: changed line ") number
  end.

Definition zedit_icd (line : cstring) : E_M unit :=
  match zedit_number (drop 2 line) with
  | None => zedit_help
  | Some (number, p) =>
      if at_char line 0 "d" then zedit_d number p
      else match p with
           | c :: body => if c =? 32 then zedit_ic (at_char line 0 "i") number body else zedit_help
           | [] => zedit_help
           end
  end.

Definition zedit_q (line : cstring) : E_M unit :=
  let! dirty := editor z_dirty in
  if dirty && negb (at_char line 1 "!") then say "zedit: unsaved changes; use wq or q!"
  else edits (set_active false) ;; say (if dirty then "zedit: discarded changes" else "zedit: closed").

Definition zedit_w (line : cstring) : E_M unit :=
  let! bad := zedit_save in
  if (bad =? 0) && at_char line 1 "q" then edits (set_active false) else ret tt.

Definition zedit_handle_command (line : cstring) : E_M unit :=
  if (byte_at line 0 =? 0) || is_cmd line "h" || is_cmd line "help" then zedit_help
  else if is_cmd line "q" || is_cmd line "q!" then zedit_q line
  else if is_cmd line "w" || is_cmd line "wq" then zedit_w line
  else if at_char line 0 "p" && ((byte_at line 1 =? 0) || at_char line 1 " ") then zedit_p line
  else if is_cmd line "j" || is_cmd line "k" || is_cmd line "[" || is_cmd line "]" || is_cmd line "g" || is_cmd line "G"
  then zedit_move line
  else if at_char line 0 "e" && at_char line 1 " " then zedit_e line
  else if at_char line 0 "n" && at_char line 1 " " then zedit_n line
  else if is_cmd line "x" then zedit_x
  else if at_char line 0 "a" && ((byte_at line 1 =? 0) || at_char line 1 " ") then zedit_a line
  else if (at_char line 0 "i" || at_char line 0 "c" || at_char line 0 "d") && at_char line 1 " " then zedit_icd line
  else zedit_help.

(** ** The full-screen view *)

(** The calls into the framebuffer text and rectangle primitives. *)
Inductive draw :=
| zeal_fb_graph_rect (x y w h color cx0 cy0 cx1 cy1 dc : Z)
| zeal_fb_graph_text (x y color cx0 cy0 cx1 cy1 : Z) (line : list Z) (dc : Z).

(** [for (...; s\[i\] && at < cols; ...) line\[at++\] = s\[i\];] *)
Fixpoint put_upto (cols : Z) (s line : list Z) : list Z :=
  match s with
  | c :: s' => if Z.of_nat (length line) <? cols then put_upto cols s' (line ++ [c]) else line
  | [] => line
  end.

(** The digits of [value], the last first, at most [n] of them. *)
Fixpoint line_digits (n : nat) (value : Z) : list Z :=
  match n with
  | O => []
  | S n' => (48 + value mod 10) :: (if value / 10 =? 0 then [] else line_digits n' (value / 10))
  end.

(** The three dots at the end of a line that is cut. *)
Definition dots (room : Z) (line : list Z) : list Z :=
  let at_ := Z.of_nat (length line) in
  if (3 <=? room) && (3 <=? at_) then take (length line - 3) line ++ [46; 46; 46] else line.

Fixpoint copy_line (n : nat) (e : zedit) (room copied i end_ : Z) (line : list Z) : list Z :=
  match n with
  | O => line
  | S n' =>
      if (i <? end_) && negb (z_text e i =? NL) then
        if copied =? room then dots room line
        else copy_line n' e room (copied + 1) (i + 1) end_ (line ++ [z_text e i])
      else line
  end.

Definition overlay_line (e : zedit) (number start end_ : Z) : list Z :=
  let cols := cols_of in
  let line := put_upto cols (rev (line_digits 10 number)) [] in
  let marker := if number =? cursor_line e then ":> " else ":  " in
  let line := put_upto cols (bytes_of_string marker) line in
  let at_ := Z.of_nat (length line) in
  let room := if at_ <? cols then cols - at_ else 0 in
  copy_line (Z.to_nat (end_ - start)) e room 0 start end_ line.

Definition text_at (row : Z) (color : Z) (line : list Z) : draw :=
  zeal_fb_graph_text 0 row color 0 0 (g_fb_w - 1) (g_fb_h - 1) line 0.

Fixpoint overlay_lines (k : nat) (e : zedit) (lines number shown : Z) : list draw :=
  match k with
  | O => []
  | S k' =>
      if (number <=? lines) && (shown <? view_count e) then
        match zedit_bounds number e with
        | None => []
        | Some (start, end_) =>
            text_at ((4 + shown) * 8) 0xffffff (overlay_line e number start end_) ::
            overlay_lines k' e lines (u32 (number + 1)) (shown + 1)
        end
      else []
  end.

Definition overlay_title (e : zedit) : list Z :=
  let line := put_upto cols_of (bytes_of_string "zedit ") [] in
  let line := put_upto cols_of (z_name e) line in
  put_upto cols_of (bytes_of_string (if z_dirty e then "  [modified]" else "  [saved]")) line.

(** The value returned, the editor (its view is brought into range), and what is drawn. *)
Definition zc_source_editor_overlay_render (e : zedit) : Z * zedit * list draw :=
  if negb g_fb || negb (z_active e) then (0, e, [])
  else if (rows_of <? 8) || (cols_of =? 0) then (0, e, [])
  else
    let e := zedit_render e in
    (0x2a, e,
     [zeal_fb_graph_rect 0 0 g_fb_w g_fb_h 0x101820 0 0 (g_fb_w - 1) (g_fb_h - 1) 0;
      text_at 8 0xffffff (overlay_title e);
      text_at 16 0xffffff (bytes_of_string (if z_dirty e then "[modified]" else "[saved]"))] ++
     overlay_lines (S (Z.to_nat (view_count e))) e (zedit_lines e) (view_first e) 0 ++
     [text_at ((rows_of - 3) * 8) 0xffffff (bytes_of_string "j/k line  [/] page  g/G top/end  e edit  n insert  x delete");
      text_at ((rows_of - 2) * 8) 0xffffff (bytes_of_string "p [line [count]]  w save  wq save+close  q close  q! discard");
      text_at ((rows_of - 1) * 8) 0xffff (bytes_of_string "edit> commands are entered in the serial shell")]).

(** [fb_clear] of a closed editor is not modelled: it draws only. *)
Definition zedit_handle (line : cstring) : E_M unit :=
  zedit_handle_command line ;; edits (fun e => if z_active e then zedit_render e else e).
End Commands.
