(* ===== verification/EditorSpec.v ===== *)
(** * The source editor: what its buffer operations mean

    A file is a list of lines; [lines_of] cuts the bytes of the buffer into them, and the counting,
    locating, splicing and deleting loops of [Editor] are shown to be the list operations. *)

From S2P Require Import Prelude BlockDev SourceStore Editor.

(** ** Files as lists of lines *)

Fixpoint lines_of (l : list Z) : list (list Z) :=
  match l with
  | [] => []
  | c :: l' =>
      if c =? NL then [c] :: lines_of l'
      else match lines_of l' with [] => [[c]] | ln :: r => (c :: ln) :: r end
  end.

Fixpoint first_line (l : list Z) : list Z :=
  match l with
  | [] => []
  | c :: l' => if c =? NL then [c] else c :: first_line l'
  end.

(** The bytes end with a line end, or there are none. *)
Definition terminated (l : list Z) : bool :=
  match rev l with [] => true | c :: _ => c =? NL end.

Definition size (ls : list (list Z)) : Z := Z.of_nat (length (concat ls)).

Lemma concat_lines_of l : concat (lines_of l) = l.
Proof.
  induction l as [|c l IH]; [reflexivity|]. cbn. destruct (c =? NL); cbn; [congruence|].
  destruct (lines_of l); cbn in *; congruence.
Qed.

Lemma first_line_le l : (length (first_line l) <= length l)%nat.
Proof. induction l as [|c l IH]; cbn; [lia|]. destruct (c =? NL); cbn; lia. Qed.

Lemma lines_of_nil l : lines_of l = [] -> l = [].
Proof. intros H. rewrite <- (concat_lines_of l), H. reflexivity. Qed.

Lemma lines_of_cons l : l <> [] -> lines_of l = first_line l :: lines_of (drop (length (first_line l)) l).
Proof.
  induction l as [|c l IH]; [congruence|]. intros _. cbn. destruct (c =? NL); [reflexivity|].
  destruct l as [|c' l]; [reflexivity|]. rewrite IH by congruence. reflexivity.
Qed.

Lemma terminated_snoc l c : terminated (l ++ [c]) = (c =? NL).
Proof. unfold terminated. rewrite rev_app_distr. reflexivity. Qed.

Lemma terminated_cons c l : l <> [] -> terminated (c :: l) = terminated l.
Proof.
  intros H. destruct (exists_last H) as (l' & x & ->). rewrite app_comm_cons, !terminated_snoc. reflexivity.
Qed.

Lemma terminated_app a b : b <> [] -> terminated (a ++ b) = terminated b.
Proof.
  intros H. destruct (exists_last H) as (l' & x & ->). rewrite app_assoc, !terminated_snoc. reflexivity.
Qed.

Lemma lines_of_app a b : terminated a = true -> lines_of (a ++ b) = lines_of a ++ lines_of b.
Proof.
  induction a as [|c a IH]; intros H; [reflexivity|]. cbn [app lines_of].
  destruct (c =? NL) eqn:Ec.
  - cbn. f_equal. destruct a as [|c' a]; [reflexivity|]. apply IH. rewrite terminated_cons in H by congruence. exact H.
  - destruct a as [|c' a]; [cbn in H; congruence|].
    rewrite terminated_cons in H by congruence. rewrite (IH H).
    destruct (lines_of (c' :: a)) eqn:E; [apply lines_of_nil in E; discriminate | reflexivity].
Qed.

(** Lists of lines that come from a file: every line ends with a line end, the last one perhaps
    not, and there is no other line end. *)
Definition no_nl (l : list Z) : Prop := Forall (fun c => c <> NL) l.
Inductive lines_ok : list (list Z) -> Prop :=
| lines_nil : lines_ok []
| lines_last p : p <> [] -> no_nl p -> lines_ok [p]
| lines_cons p r : no_nl p -> lines_ok r -> lines_ok ((p ++ [NL]) :: r).
#[local] Hint Constructors lines_ok : core.

Lemma lines_ok_of l : lines_ok (lines_of l).
Proof.
  induction l as [|c l IH]; [constructor|]. cbn. destruct (c =? NL) eqn:Ec; zbool.
  - subst c. apply (lines_cons []); [constructor | exact IH].
  - inversion IH as [E|p H1 H2 E|p r H1 H2 E]; subst.
    + apply lines_last; [congruence | repeat constructor; exact Ec].
    + apply lines_last; [congruence | constructor; assumption].
    + apply (lines_cons (c :: p)); [constructor; assumption | assumption].
Qed.

Lemma lines_of_no_nl p : p <> [] -> no_nl p -> lines_of p = [p].
Proof.
  induction p as [|c p IH]; [congruence|]. intros _ H. inversion H; subst. cbn.
  destruct (c =? NL) eqn:Ec; [zbool; congruence|].
  destruct p; [reflexivity|]. rewrite IH by (congruence || assumption). reflexivity.
Qed.

Lemma lines_of_line p l : no_nl p -> lines_of (p ++ NL :: l) = (p ++ [NL]) :: lines_of l.
Proof.
  induction 1 as [|c p Hc Hp IH]; [reflexivity|]. cbn. rewrite IH.
  destruct (c =? NL) eqn:Ec; [zbool; congruence | reflexivity].
Qed.

Lemma lines_of_concat ls : lines_ok ls -> lines_of (concat ls) = ls.
Proof.
  induction 1 as [|p H1 H2|p r H1 H2 IH]; cbn; [reflexivity | rewrite app_nil_r; auto using lines_of_no_nl |].
  rewrite <- app_assoc. cbn. rewrite lines_of_line, IH by assumption. reflexivity.
Qed.

Lemma lines_ok_take ls : lines_ok ls -> forall k, lines_ok (take k ls).
Proof.
  induction 1; intros [|k]; cbn; auto. rewrite firstn_nil. auto.
Qed.
Lemma lines_ok_drop ls : lines_ok ls -> forall k, lines_ok (drop k ls).
Proof. induction 1; intros [|k]; cbn; auto. rewrite skipn_nil. auto. Qed.

Lemma lines_ok_terminated ls k : lines_ok ls -> (k < length ls)%nat -> terminated (concat (take k ls)) = true.
Proof.
  intros H. revert k. induction H as [|p H1 H2|p r H1 H2 IH]; intros [|k] Hk; cbn in *; try reflexivity; try lia.
  specialize (IH k ltac:(lia)). destruct (concat (take k r)) eqn:E.
  - rewrite app_nil_r. apply terminated_snoc.
  - rewrite <- E in *. rewrite terminated_app; [exact IH | congruence].
Qed.

Lemma lines_ok_insert ls k p : lines_ok ls -> (k < length ls)%nat \/ terminated (concat (take k ls)) = true ->
  no_nl p -> lines_ok (take k ls ++ (p ++ [NL]) :: drop k ls).
Proof.
  intros H Hk Hp.
  assert (Ht : terminated (concat (take k ls)) = true) by (destruct Hk; [apply lines_ok_terminated|]; auto).
  clear Hk. revert k Ht. induction H as [|q H1 H2|q r H1 H2 IH]; intros [|k] Ht; cbn [take drop app]; auto.
  - rewrite firstn_nil, skipn_nil. cbn. destruct (exists_last H1) as (q' & x & ->).
    cbn [take concat] in Ht. rewrite firstn_nil in Ht. cbn [concat] in Ht.
    rewrite app_nil_r, terminated_snoc in Ht. zbool. subst x.
    apply Forall_app in H2 as [_ H2]. inversion H2; congruence.
  - apply lines_cons; [exact H1|]. apply IH. cbn [take concat] in Ht.
    destruct (concat (take k r)) eqn:E; [reflexivity|]. rewrite <- E in *.
    rewrite terminated_app in Ht; [exact Ht | congruence].
Qed.

Lemma lines_ok_replace ls k p : lines_ok ls -> (k < length ls)%nat -> no_nl p ->
  lines_ok (<[k := p ++ [NL]]> ls).
Proof.
  intros H. revert k. induction H as [|q H1 H2|q r H1 H2 IH]; intros [|k] Hk Hp; cbn in *; try lia; auto.
  apply lines_cons; [exact H1|]. apply IH; [lia | exact Hp].
Qed.

Lemma lines_ok_delete ls k : lines_ok ls -> lines_ok (delete k ls).
Proof.
  intros H. revert k. induction H as [|q H1 H2|q r H1 H2 IH]; intros [|k]; cbn; auto.
Qed.

(** The number of lines, by counting line ends. *)
Lemma length_lines_of l :
  Z.of_nat (length (lines_of l)) =
  Z.of_nat (length (List.filter (fun c => c =? NL) l)) + Z.b2z (negb (terminated l)).
Proof.
  induction l as [|c l IH]; [reflexivity|]. cbn [lines_of List.filter].
  destruct l as [|c' l].
  - cbn. unfold terminated. cbn. destruct (c =? NL); reflexivity.
  - rewrite terminated_cons by congruence. destruct (c =? NL); [cbn [length]; lia|].
    destruct (lines_of (c' :: l)) eqn:E; [apply lines_of_nil in E; discriminate | cbn [length] in *; lia].
Qed.

Lemma length_lines_le l : (length (lines_of l) <= length l)%nat.
Proof.
  induction l as [|c l IH]; [reflexivity|]. cbn. destruct (c =? NL); cbn; [lia|].
  destruct (lines_of l); cbn in *; lia.
Qed.

(** ** The text buffer as a list *)

Lemma length_text_of t n : length (text_of t n) = Z.to_nat n.
Proof. unfold text_of. rewrite length_map, length_seq. reflexivity. Qed.

Lemma lookup_text_of t n (i : nat) : Z.of_nat i < n -> text_of t n !! i = Some (t (Z.of_nat i)).
Proof.
  intros H. unfold text_of. rewrite list_lookup_fmap, lookup_seq_lt by lia. reflexivity.
Qed.

Lemma text_of_ext t t' n : (forall i, 0 <= i < n -> t i = t' i) -> text_of t n = text_of t' n.
Proof.
  intros H. apply map_ext_in. intros i Hi. apply in_seq in Hi. apply H. lia.
Qed.

Lemma text_of_app t n m : 0 <= n -> 0 <= m -> text_of t (n + m) = text_of t n ++ text_of (fun i => t (n + i)) m.
Proof.
  intros Hn Hm. unfold text_of. rewrite Z2Nat.inj_add, seq_app, map_app by lia. f_equal.
  apply list_eq. intros i. rewrite !list_lookup_fmap.
  destruct (lt_dec i (Z.to_nat m)).
  - rewrite !lookup_seq_lt by lia. cbn. f_equal. f_equal. lia.
  - rewrite !lookup_seq_ge by lia. reflexivity.
Qed.

Lemma text_of_list (t : Z -> Z) (l : list Z) :
  (forall i, 0 <= i < Z.of_nat (length l) -> t i = byte_at l i) -> text_of t (Z.of_nat (length l)) = l.
Proof.
  intros H. apply list_eq. intros i. destruct (nth_lookup_or_length l i 0) as [E|Hi].
  - pose proof (lookup_lt_Some _ _ _ E). rewrite lookup_text_of by lia.
    rewrite H by lia. rewrite byte_at_nth. symmetry. exact E.
  - rewrite !lookup_ge_None_2; rewrite ?length_text_of; [reflexivity | lia ..].
Qed.

Lemma take_text_of t k n : 0 <= k <= n -> take (Z.to_nat k) (text_of t n) = text_of t k.
Proof.
  intros H. replace n with (k + (n - k)) by lia. rewrite text_of_app by lia.
  rewrite take_app_le, take_ge; rewrite ?length_text_of; auto; lia.
Qed.

Lemma drop_text_of t k n : 0 <= k <= n -> drop (Z.to_nat k) (text_of t n) = text_of (fun i => t (k + i)) (n - k).
Proof.
  intros H. replace n with (k + (n - k)) at 1 by lia. rewrite text_of_app by lia.
  apply drop_app_length'. rewrite length_text_of. reflexivity.
Qed.

Lemma text_of_one t n : 0 <= n -> text_of t (n + 1) = text_of t n ++ [t n].
Proof.
  intros H. rewrite text_of_app by lia. f_equal.
  replace (t n) with (t (n + 0)) by (f_equal; lia). reflexivity.
Qed.

(** ** The loops *)

(** Decide the comparisons of a goal with [lia]. *)
Ltac bdec :=
  repeat match goal with
  | |- context [?a <? ?b] =>
      first [rewrite (proj2 (Z.ltb_lt a b)) by lia | rewrite (proj2 (Z.ltb_ge a b)) by lia]
  | |- context [?a <=? ?b] =>
      first [rewrite (proj2 (Z.leb_le a b)) by lia | rewrite (proj2 (Z.leb_gt a b)) by lia]
  end; cbn [andb].
(** The same case on both sides of an equation between range tests. *)
Ltac same_range :=
  match goal with
  | |- (if ?a then _ else _) = (if ?b then _ else _) =>
      let E := fresh "E" in let F := fresh "F" in
      destruct a eqn:E; destruct b eqn:F; bool_hyps;
      repeat match goal with H : (_ && _)%bool = false |- _ => apply andb_false_iff in H as [H|H] end; zbool;
      try solve [lia | f_equal; lia]
  end.

Lemma poke_eq t i v : poke t i v i = v.
Proof. unfold poke. rewrite Z.eqb_refl. reflexivity. Qed.
Lemma poke_ne t i v j : j <> i -> poke t i v j = t j.
Proof. unfold poke. intros H. destruct (j =? i) eqn:E; [zbool; lia | reflexivity]. Qed.

Lemma copy_body_spec body : forall t at_ j,
  copy_body body t at_ j =
  if (at_ <=? j) && (j <? at_ + Z.of_nat (length body)) then byte_at body (j - at_) else t j.
Proof.
  induction body as [|c body IH]; intros t at_ j; cbn [copy_body length].
  - destruct (_ && _) eqn:E; [bool_hyps; zbool; lia | reflexivity].
  - rewrite IH. destruct (Z.eq_dec j at_) as [->|Hne].
    + rewrite poke_eq. bdec. rewrite Z.sub_diag. reflexivity.
    + rewrite poke_ne by exact Hne. same_range. unfold byte_at.
      replace (Z.to_nat (j - at_)) with (S (Z.to_nat (j - (at_ + 1)))) by lia. reflexivity.
Qed.

Lemma move_up_spec : forall n t dst lo i j, lo < dst ->
  move_up n t dst lo i j =
  if (i - Z.of_nat n + (dst - lo) <=? j) && (j <? i + (dst - lo)) then t (j - (dst - lo)) else t j.
Proof.
  induction n as [|n IH]; intros t dst lo i j H; cbn [move_up].
  - destruct (_ && _) eqn:E; [bool_hyps; zbool; lia | reflexivity].
  - rewrite IH by exact H. destruct (Z.eq_dec j (dst + i - lo - 1)) as [->|Hne].
    + rewrite poke_eq. bdec. f_equal. lia.
    + rewrite (poke_ne _ _ _ j) by exact Hne. same_range. apply poke_ne. lia.
Qed.

Lemma move_down_spec : forall n t dst lo i j, dst <= lo ->
  move_down n t dst lo i j =
  if (i + (dst - lo) <=? j) && (j <? i + Z.of_nat n + (dst - lo)) then t (j - (dst - lo)) else t j.
Proof.
  induction n as [|n IH]; intros t dst lo i j H; cbn [move_down].
  - destruct (_ && _) eqn:E; [bool_hyps; zbool; lia | reflexivity].
  - rewrite IH by exact H. destruct (Z.eq_dec j (dst + i - lo)) as [->|Hne].
    + rewrite poke_eq. bdec. f_equal. lia.
    + rewrite (poke_ne _ _ _ j) by exact Hne. same_range. apply poke_ne. lia.
Qed.

(** ** Counting and locating *)

Lemma length_content e : length (content e) = Z.to_nat (z_length e).
Proof. apply length_text_of. Qed.

Lemma content_last e : 0 < z_length e -> terminated (content e) = (z_text e (z_length e - 1) =? NL).
Proof.
  intros H. unfold content. replace (z_length e) with (z_length e - 1 + 1) at 1 by lia.
  rewrite text_of_one, terminated_snoc by lia. reflexivity.
Qed.

Lemma count_lines_spec : forall n text i lines, 0 <= lines -> 0 <= i -> lines + Z.of_nat n < 4294967296 ->
  count_lines n text i lines =
  lines + Z.of_nat (length (List.filter (fun c => c =? NL) (text_of (fun j => text (i + j)) (Z.of_nat n)))).
Proof.
  induction n as [|n IH]; intros text i lines Hl Hi Hb; cbn [count_lines].
  { change (text_of (fun j => text (i + j)) (Z.of_nat 0)) with (@nil Z). cbn [List.filter length]. lia. }
  replace (Z.of_nat (S n)) with (1 + Z.of_nat n) by lia.
  rewrite text_of_app by lia. replace (text_of (fun j => text (i + j)) 1) with [text i] by (replace (text i) with (text (i + 0)) by (f_equal; lia); reflexivity).
  rewrite IH; [|destruct (text i =? NL); word_lia | lia | destruct (text i =? NL); rewrite ?u32_id by lia; lia].
  rewrite (text_of_ext (fun j => text (i + (1 + j))) (fun j => text (i + 1 + j))) by (intros; f_equal; lia).
  cbn [app List.filter]. destruct (text i =? NL); cbn [length]; rewrite ?u32_id by lia; lia.
Qed.

(** The loop over the buffer counts its lines. *)
Lemma zedit_lines_spec e : 0 <= z_length e < 4294967295 ->
  zedit_lines e = Z.of_nat (length (lines_of (content e))).
Proof.
  intros H. rewrite length_lines_of. unfold zedit_lines.
  rewrite count_lines_spec by lia. rewrite Z2Nat.id by lia.
  change (text_of (fun j => z_text e (0 + j)) (z_length e)) with (content e).
  pose proof (List.filter_length_le (fun c => c =? NL) (content e)) as Hf. rewrite length_content in Hf.
  destruct (z_length e =? 0) eqn:E0; zbool; cbn [negb andb].
  - unfold content. rewrite E0. reflexivity.
  - rewrite content_last by lia. destruct (_ =? NL); cbn [negb Z.b2z]; rewrite ?u32_id by lia; lia.
Qed.

Lemma content_step e i : 0 <= i < z_length e ->
  drop (Z.to_nat i) (content e) = z_text e i :: drop (Z.to_nat (i + 1)) (content e).
Proof.
  intros H. rewrite (drop_S _ (z_text e i) (Z.to_nat i)).
  - do 2 f_equal. lia.
  - unfold content. rewrite lookup_text_of by lia. do 2 f_equal. lia.
Qed.

Lemma line_end_spec e : forall fuel i, 0 <= i <= z_length e -> z_length e <= i + Z.of_nat fuel ->
  let last := line_end fuel e i in
  (if last <? z_length e then last + 1 else last) =
  i + Z.of_nat (length (first_line (drop (Z.to_nat i) (content e)))).
Proof.
  induction fuel as [|fuel IH]; intros i Hi Hf; cbn [line_end].
  - rewrite drop_ge by (rewrite length_content; lia). cbn zeta. bdec. cbn. lia.
  - destruct (Z.eq_dec i (z_length e)) as [->|Hne].
    + rewrite drop_ge by (rewrite length_content; lia). bdec. cbn zeta. bdec. cbn. lia.
    + rewrite content_step by lia. cbn [first_line]. rewrite (proj2 (Z.ltb_lt i (z_length e))) by lia. cbn [andb].
      destruct (z_text e i =? NL); cbn [negb]; cbn zeta.
      * bdec. cbn [length]. lia.
      * cbn zeta in IH. rewrite IH by lia. cbn [length]. lia.
Qed.

(** The place of line [k] (from 0) in a list of lines. *)
Definition line_span (ls : list (list Z)) (k : nat) : option (Z * Z) :=
  match ls !! k with
  | Some ln => let start := size (take k ls) in Some (start, start + Z.of_nat (length ln))
  | None => None
  end.

Lemma line_span_S ln ls k : line_span (ln :: ls) (S k) =
  match line_span ls k with
  | Some (s, t) => Some (Z.of_nat (length ln) + s, Z.of_nat (length ln) + t)
  | None => None
  end.
Proof.
  unfold line_span. cbn. destruct (ls !! k); [|reflexivity].
  unfold size. cbn. rewrite length_app. apply f_equal, f_equal2; lia.
Qed.

Lemma bounds_loop_spec e number : z_length e < 4294967296 -> forall fuel current at_,
  0 <= at_ <= z_length e -> z_length e <= at_ + Z.of_nat fuel -> 0 <= current <= number -> number < 4294967296 ->
  bounds_loop fuel e number current at_ =
  match line_span (lines_of (drop (Z.to_nat at_) (content e))) (Z.to_nat (number - current)) with
  | Some (s, t) => Some (at_ + s, at_ + t)
  | None => None
  end.
Proof.
  intros Hlen. induction fuel as [|fuel IH]; intros current at_ Ha Hf Hc Hn; cbn [bounds_loop].
  - rewrite drop_ge by (rewrite length_content; lia). reflexivity.
  - destruct (at_ <? z_length e) eqn:E; zbool.
    2: { rewrite drop_ge by (rewrite length_content; lia). reflexivity. }
    pose proof (line_end_spec e (Z.to_nat (z_length e - at_)) at_ ltac:(lia) ltac:(lia)) as HL. cbn zeta in HL |- *.
    rewrite HL. clear HL.
    assert (Hd : drop (Z.to_nat at_) (content e) <> []).
    { rewrite content_step by lia. discriminate. }
    rewrite (lines_of_cons _ Hd), drop_drop.
    set (ln := first_line (drop (Z.to_nat at_) (content e))) in *.
    assert (Hln : (0 < length ln <= Z.to_nat (z_length e) - Z.to_nat at_)%nat).
    { split.
      - subst ln. rewrite content_step by lia. cbn. destruct (_ =? NL); cbn; lia.
      - pose proof (first_line_le (drop (Z.to_nat at_) (content e))) as Hle. fold ln in Hle.
        rewrite length_drop, length_content in Hle. exact Hle. }
    destruct (current =? number) eqn:Ec; zbool.
    + rewrite Ec, Z.sub_diag. change (Z.to_nat 0) with 0%nat. unfold line_span, size. cbn. apply f_equal, f_equal2; lia.
    + rewrite u32_id by lia. rewrite IH by lia.
      replace (Z.to_nat (number - current)) with (S (Z.to_nat (number - (current + 1)))) by lia.
      rewrite line_span_S.
      replace (Z.to_nat at_ + length ln)%nat with (Z.to_nat (at_ + Z.of_nat (length ln))) by lia.
      destruct (line_span _ _) as [[s t]|]; [|reflexivity]. apply f_equal, f_equal2; lia.
Qed.

(** The search finds the line, or there is no such line. *)
Lemma zedit_bounds_spec e number : 0 <= z_length e < 4294967296 -> 0 <= number < 4294967296 ->
  zedit_bounds number e =
  if number =? 0 then None else line_span (lines_of (content e)) (Z.to_nat (number - 1)).
Proof.
  intros H Hn. unfold zedit_bounds. destruct (number =? 0) eqn:E; zbool; [reflexivity|].
  rewrite bounds_loop_spec by lia. rewrite drop_0. destruct (line_span _ _) as [[s t]|]; reflexivity.
Qed.

Lemma line_span_bounds ls k s t : line_span ls k = Some (s, t) ->
  0 <= s <= t /\ t <= size ls /\ (k < length ls)%nat /\
  take (Z.to_nat s) (concat ls) = concat (take k ls) /\
  drop (Z.to_nat s) (concat ls) = concat (drop k ls) /\
  drop (Z.to_nat t) (concat ls) = concat (drop (S k) ls).
Proof.
  unfold line_span. destruct (ls !! k) as [ln|] eqn:E; [|discriminate]. intros [= <- <-].
  pose proof (lookup_lt_Some _ _ _ E) as Hk.
  assert (Ec : concat ls = concat (take k ls) ++ ln ++ concat (drop (S k) ls)).
  { rewrite <- (take_drop_middle _ _ _ E) at 1. rewrite concat_app. reflexivity. }
  assert (Ed : concat (drop k ls) = ln ++ concat (drop (S k) ls)) by (rewrite (drop_S _ _ _ E); reflexivity).
  unfold size. rewrite Ed, Ec, !length_app. repeat split; try lia.
  - rewrite take_app_le, take_ge by lia. reflexivity.
  - rewrite drop_app_length' by lia. reflexivity.
  - rewrite app_assoc. apply drop_app_length'. rewrite length_app. lia.
Qed.

(** ** Splicing and deleting *)

(** The buffer [t'] holds the file [c], NUL-terminated as [e]'s was, and nothing outside the
    array has changed. *)
Definition holds (e : zedit) (t' : Z -> Z) (c : list Z) : Prop :=
  text_of t' (Z.of_nat (length c)) = c /\ t' (Z.of_nat (length c)) = z_text e (z_length e) /\
  forall j, j < 0 \/ ZSS_MAX_FILE < j -> t' j = z_text e j.

Lemma text_of_concat (t : Z -> Z) p l :
  text_of t (Z.of_nat (length p)) = p -> text_of (fun i => t (Z.of_nat (length p) + i)) (Z.of_nat (length l)) = l ->
  text_of t (Z.of_nat (length (p ++ l))) = p ++ l.
Proof. intros Hp Hl. rewrite length_app, Nat2Z.inj_add, text_of_app, Hp, Hl by lia. reflexivity. Qed.

(** The separator a new last line needs. *)
Definition separator (append : bool) (c : list Z) : list Z := if append && negb (terminated c) then [NL] else [].

Definition spliced (e : zedit) (start end_ : Z) (body : list Z) (append : bool) : list Z :=
  take (Z.to_nat start) (content e) ++ (separator append (content e) ++ body ++ [NL]) ++
  drop (Z.to_nat end_) (content e).

(** What the moves and copies of [zedit_splice] leave, when [new] replaces the bytes from [start]
    to [end_]. *)
Lemma moved_holds e start end_ new t1 t2 :
  0 <= start <= end_ -> end_ <= z_length e <= ZSS_MAX_FILE ->
  let d := start + Z.of_nat (length new) - end_ in
  z_length e + d <= ZSS_MAX_FILE ->
  (forall j, t1 j = if (end_ + d <=? j) && (j <=? z_length e + d) then z_text e (j - d) else z_text e j) ->
  (forall j, t2 j = if (start <=? j) && (j <? start + Z.of_nat (length new)) then byte_at new (j - start) else t1 j) ->
  let c := take (Z.to_nat start) (content e) ++ new ++ drop (Z.to_nat end_) (content e) in
  Z.of_nat (length c) = z_length e + d /\ holds e t2 c.
Proof.
  cbn zeta. intros Hs He Hd H1 H2.
  set (d := start + Z.of_nat (length new) - end_) in *.
  assert (Ep : take (Z.to_nat start) (content e) = text_of (z_text e) start) by (apply take_text_of; lia).
  assert (Eq : drop (Z.to_nat end_) (content e) = text_of (fun i => z_text e (end_ + i)) (z_length e - end_)).
  { apply drop_text_of. lia. }
  assert (Lp : Z.of_nat (length (text_of (z_text e) start)) = start) by (rewrite length_text_of; lia).
  assert (Lq : Z.of_nat (length (text_of (fun i => z_text e (end_ + i)) (z_length e - end_))) = z_length e - end_).
  { rewrite length_text_of. lia. }
  rewrite Ep, Eq. rewrite !length_app, !Nat2Z.inj_add, Lp, Lq.
  split; [subst d; lia|]. unfold holds. rewrite !length_app, !Nat2Z.inj_add, Lp, Lq.
  replace (start + (Z.of_nat (length new) + (z_length e - end_))) with (z_length e + d) by (subst d; lia).
  split; [|split].
  - replace (z_length e + d) with (start + (Z.of_nat (length new) + (z_length e - end_))) by (subst d; lia).
    rewrite text_of_app, text_of_app by lia. f_equal; [|f_equal].
    + apply text_of_ext. intros i Hi. rewrite H2, H1. bdec. reflexivity.
    + apply text_of_list. intros i Hi. rewrite H2. bdec. f_equal. lia.
    + apply text_of_ext. intros i Hi. rewrite H2. bdec. rewrite H1. bdec. f_equal. subst d. lia.
  - rewrite H2. bdec. rewrite H1. bdec. f_equal. lia.
  - intros j Hj. rewrite H2, H1. destruct Hj; bdec; reflexivity.
Qed.

Lemma copy_body_snoc body c : forall t at_,
  copy_body (body ++ [c]) t at_ = poke (copy_body body t at_) (at_ + Z.of_nat (length body)) c.
Proof.
  induction body as [|b body IH]; intros t at_; cbn [copy_body app length].
  - rewrite Z.add_0_r. reflexivity.
  - rewrite IH. f_equal. lia.
Qed.

(** [zedit_splice] puts the line in place of the bytes, or refuses a file that is too long. *)
Lemma splice_spec e start end_ body append :
  0 <= start <= end_ -> end_ <= z_length e <= ZSS_MAX_FILE -> Z.of_nat (length body) < 4294967294 ->
  let c := spliced e start end_ body append in
  if Z.of_nat (length c) <=? ZSS_MAX_FILE then
    exists t', zedit_splice start end_ body append e =
                 (0, set_dirty true (set_length (Z.of_nat (length c)) (set_text t' e))) /\ holds e t' c
  else zedit_splice start end_ body append e = (-1, e).
Proof.
  intros Hs He Hb. cbn zeta. unfold zedit_splice.
  assert (HM : ZSS_MAX_FILE = 4194304) by reflexivity.
  set (prefix := append && negb (z_length e =? 0) && negb (z_text e (z_length e - 1) =? NL)).
  assert (Hsep : separator append (content e) = if prefix then [NL] else []).
  { unfold separator, prefix. destruct append; [|reflexivity]. cbn [andb].
    destruct (z_length e =? 0) eqn:E0; zbool; [unfold content; rewrite E0; reflexivity|].
    rewrite content_last by lia. reflexivity. }
  set (new := separator append (content e) ++ body ++ [NL]).
  assert (Hnew : Z.of_nat (length new) = Z.b2z prefix + Z.of_nat (length body) + 1).
  { subst new. rewrite Hsep, !length_app. destruct prefix; cbn; lia. }
  assert (Hp : 0 <= Z.b2z prefix <= 1) by (destruct prefix; cbn; lia).
  rewrite (u32_id (Z.b2z prefix + _ + 1)) by lia. rewrite <- Hnew.
  rewrite (u32_id (end_ - start)), (u32_id (z_length e - (end_ - start))) by lia.
  assert (Hlen : Z.of_nat (length (spliced e start end_ body append)) =
                 z_length e - (end_ - start) + Z.of_nat (length new)).
  { unfold spliced. fold new. rewrite !length_app, length_take, length_drop, length_content. lia. }
  rewrite Hlen. rewrite HM.
  destruct (_ <=? 4194304) eqn:Hfit; zbool.
  - rewrite (u32_id (4194304 - _)), (u32_id (start + _)), (u32_id (_ + Z.of_nat (length new))) by lia. bdec. cbn [orb].
    match goal with |- context [if prefix then poke ?t start NL else _] => set (t1 := t) end.
    eexists. split; [reflexivity|].
    refine (proj2 (moved_holds e start end_ new t1 _ Hs He ltac:(lia) _ _)).
    2: { intros j. rewrite <- copy_body_spec. clearbody t1. subst new. rewrite Hsep.
         destruct prefix; cbn [app copy_body]; rewrite copy_body_snoc; reflexivity. }
    intros j. subst t1. cbn beta. destruct (end_ <? start + Z.of_nat (length new)) eqn:Ed; zbool.
    + rewrite move_up_spec by lia. same_range.
    + rewrite move_down_spec by lia. same_range.
  - destruct (4194304 <? Z.of_nat (length new)) eqn:E1; [reflexivity|]. zbool.
    rewrite (u32_id (4194304 - _)) by lia. bdec. reflexivity.
Qed.

Lemma delete_line_spec e number start end_ :
  0 <= z_length e <= ZSS_MAX_FILE -> zedit_bounds number e = Some (start, end_) ->
  0 <= start <= end_ -> end_ <= z_length e ->
  let c := take (Z.to_nat start) (content e) ++ drop (Z.to_nat end_) (content e) in
  exists t', zedit_delete_line number e =
               (0, set_dirty true (set_length (Z.of_nat (length c)) (set_text t' e))) /\ holds e t' c.
Proof.
  intros Hl Hb Hs He. cbn zeta. unfold zedit_delete_line. rewrite Hb.
  assert (HM : ZSS_MAX_FILE = 4194304) by reflexivity.
  pose proof (moved_holds e start end_ [] (move_down (Z.to_nat (z_length e + 1 - end_)) (z_text e) start end_ end_)
    (move_down (Z.to_nat (z_length e + 1 - end_)) (z_text e) start end_ end_) Hs ltac:(lia)) as M.
  cbn [length app] in M. cbn zeta in M. destruct M as [M1 M2]; [lia | | |].
  - intros j. rewrite move_down_spec by lia. same_range.
  - intros j. destruct (_ && _) eqn:E; [bool_hyps; zbool; lia | reflexivity].
  - eexists. split; [|exact M2]. rewrite M1, u32_id by lia. do 3 f_equal. lia.
Qed.

(** ** Edits of the list of lines

    The abstract editor: line numbers count from 1, and an insertion may name one line past the
    last. *)

Inductive edit := Replace (n : Z) (body : list Z) | Insert (n : Z) (body : list Z) | Delete (n : Z).

Definition edit_line (x : edit) : Z := match x with Replace n _ => n | Insert n _ => n | Delete n => n end.
Definition edit_body (x : edit) : list Z := match x with Replace _ b => b | Insert _ b => b | Delete _ => [] end.

(** The last line gets its line end. *)
Fixpoint finish (ls : list (list Z)) : list (list Z) :=
  match ls with
  | [] => []
  | [p] => [if terminated p then p else p ++ [NL]]
  | ln :: r => ln :: finish r
  end.

Definition edit_lines (ls : list (list Z)) (x : edit) : option (list (list Z)) :=
  let n := edit_line x in
  let k := Z.to_nat (n - 1) in
  let inside := (1 <=? n) && (n <=? Z.of_nat (length ls)) in
  match x with
  | Replace _ body => if inside then Some (<[k := body ++ [NL]]> ls) else None
  | Insert _ body =>
      if inside then Some (take k ls ++ (body ++ [NL]) :: drop k ls)
      else if n =? Z.of_nat (length ls) + 1 then Some (finish ls ++ [body ++ [NL]]) else None
  | Delete _ => if inside then Some (delete k ls) else None
  end.

(** The file after the edit: a file that would exceed 4 MiB is left alone. *)
Definition edited (ls : list (list Z)) (x : edit) : option (list (list Z)) :=
  match edit_lines ls x with
  | Some ls' => if size ls' <=? ZSS_MAX_FILE then Some ls' else None
  | None => None
  end.

Lemma edited_inv ls x ls' : edited ls x = Some ls' -> edit_lines ls x = Some ls' /\ size ls' <= ZSS_MAX_FILE.
Proof.
  unfold edited. destruct (edit_lines ls x); [|discriminate]. destruct (_ <=? _) eqn:E; [|discriminate].
  intros [= ->]. zbool. auto.
Qed.

Lemma concat_finish ls : lines_ok ls -> concat (finish ls) = concat ls ++ separator true (concat ls).
Proof.
  unfold separator. cbn [andb]. intros H. induction H as [|p H1 H2|p r H1 H2 IH]; cbn; [reflexivity| |].
  - rewrite !app_nil_r. destruct (terminated p); cbn; [rewrite app_nil_r|]; reflexivity.
  - destruct r as [|q r].
    + cbn. rewrite !app_nil_r, terminated_snoc. cbn. rewrite app_nil_r. reflexivity.
    + rewrite terminated_app.
      * cbn in IH |- *. rewrite IH, !app_assoc. reflexivity.
      * cbn. inversion H2; subst; [destruct q; [congruence | discriminate] | destruct p0; discriminate].
Qed.

Lemma lines_ok_finish ls p : lines_ok ls -> no_nl p -> lines_ok (finish ls ++ [p ++ [NL]]).
Proof.
  intros H Hp. induction H as [|q H1 H2|q r H1 H2 IH]; cbn.
  - apply lines_cons; [exact Hp | constructor].
  - assert (Ht : terminated q = false).
    { destruct (exists_last H1) as (q' & x & ->). rewrite terminated_snoc.
      apply Forall_app in H2 as [_ H2]. inversion H2; subst. apply Z.eqb_neq. assumption. }
    rewrite Ht. apply lines_cons; [exact H2|]. apply lines_cons; [exact Hp | constructor].
  - destruct r as [|ln r].
    + rewrite terminated_snoc. apply (lines_cons q [p ++ [NL]]); [exact H1|]. apply lines_cons; [exact Hp | constructor].
    + apply lines_cons; [exact H1 | exact IH].
Qed.

Lemma length_finish ls : length (finish ls) = length ls.
Proof. induction ls as [|ln [|q r] IH]; [reflexivity..|]. cbn in *. congruence. Qed.

Lemma edit_lines_ok ls x ls' : lines_ok ls -> no_nl (edit_body x) -> edit_lines ls x = Some ls' -> lines_ok ls'.
Proof.
  intros H Hb. unfold edit_lines. destruct ((1 <=? _) && _) eqn:E; bool_hyps; zbool;
    destruct x as [n b|n b|n]; cbn [edit_line edit_body] in *.
  - intros [= <-]. apply lines_ok_replace; auto. lia.
  - intros [= <-]. apply lines_ok_insert; auto. left. lia.
  - intros [= <-]. apply lines_ok_delete, H.
  - discriminate.
  - destruct (n =? _); [|discriminate]. intros [= <-]. apply lines_ok_finish; auto.
  - discriminate.
Qed.

(** How many lines there are afterwards. *)
Lemma edit_lines_length ls x ls' : edit_lines ls x = Some ls' ->
  Z.of_nat (length ls') = Z.of_nat (length ls) + (match x with Replace _ _ => 0 | Insert _ _ => 1 | Delete _ => -1 end).
Proof.
  unfold edit_lines. destruct ((1 <=? _) && _) eqn:E; bool_hyps; zbool;
    destruct x as [n b|n b|n]; cbn [edit_line edit_body] in *; try discriminate.
  - intros [= <-]. rewrite length_insert. lia.
  - intros [= <-]. rewrite length_app, length_take. cbn [length]. rewrite length_drop. lia.
  - intros [= <-]. rewrite length_delete by (apply lookup_lt_is_Some; lia). lia.
  - destruct (n =? _); [|discriminate]. intros [= <-]. rewrite length_app, length_finish. cbn. lia.
Qed.

(** The bytes between the two places are the line. *)
Lemma line_span_line ls k s t : line_span ls k = Some (s, t) ->
  exists ln, ls !! k = Some ln /\ take (Z.to_nat (t - s)) (drop (Z.to_nat s) (concat ls)) = ln.
Proof.
  unfold line_span. destruct (ls !! k) as [ln|] eqn:E; [|discriminate]. intros [= <- <-].
  exists ln. split; [reflexivity|].
  assert (Ec : concat ls = concat (take k ls) ++ ln ++ concat (drop (S k) ls)).
  { rewrite <- (take_drop_middle _ _ _ E) at 1. rewrite concat_app. reflexivity. }
  rewrite Ec. unfold size. rewrite drop_app_length' by lia. apply take_app_length'. lia.
Qed.
