(* ===== verification/EditorRefine.v ===== *)
(** * The source editor: the buffer operations refine the edits of a list of lines

    The invariant of the editor's state, and a small program logic ([wp]) for its commands, whose
    console output no property depends on. *)

From S2P Require Import Prelude BlockDev SourceStore Editor EditorSpec.
#[local] Open Scope sm_scope.

(** ** The buffer *)

(** The bytes of a C string that a command line can hold. *)
Definition line_char (c : Z) : Prop := 0 < c < 256 /\ c <> NL.
Definition text_char (c : Z) : Prop := 0 < c < 256.

Record buf_ok (e : zedit) : Prop := {
  bo_length : 0 <= z_length e <= ZSS_MAX_FILE;
  bo_nul : z_text e (z_length e) = 0;
  bo_chars : Forall text_char (content e) }.

Definition lines (e : zedit) : list (list Z) := lines_of (content e).

Lemma lines_concat e : concat (lines e) = content e.
Proof. apply concat_lines_of. Qed.

Lemma lines_count e : buf_ok e -> zedit_lines e = Z.of_nat (length (lines e)) /\ 0 <= zedit_lines e <= ZSS_MAX_FILE.
Proof.
  intros [H _ _]. assert (HM : ZSS_MAX_FILE = 4194304) by reflexivity.
  rewrite zedit_lines_spec by lia. split; [reflexivity|].
  pose proof (length_lines_le (content e)) as Hl. rewrite length_content in Hl. lia.
Qed.

(** [e'] is [e] with the file [ls] in its buffer. *)
Definition rewritten (e e' : zedit) (ls : list (list Z)) : Prop :=
  exists t', e' = set_dirty true (set_length (size ls) (set_text t' e)) /\ holds e t' (concat ls).

Lemma rewritten_content e e' ls : rewritten e e' ls -> content e' = concat ls.
Proof. intros (t' & -> & H & _). exact H. Qed.

Lemma rewritten_lines e e' ls : rewritten e e' ls -> lines_ok ls -> lines e' = ls.
Proof. intros H Hok. unfold lines. rewrite (rewritten_content _ _ _ H). apply lines_of_concat, Hok. Qed.

Lemma rewritten_ok e e' ls : buf_ok e -> rewritten e e' ls -> size ls <= ZSS_MAX_FILE ->
  Forall text_char (concat ls) -> buf_ok e'.
Proof.
  intros [_ Hn _] H Hs Hc. pose proof (rewritten_content _ _ _ H) as He. destruct H as (t' & -> & _ & H2 & _).
  split; [cbn; unfold size in *; lia | | rewrite He; exact Hc].
  cbn. unfold size. rewrite H2. exact Hn.
Qed.

(** ** The operation behind each edit *)

Definition perform (x : edit) (e : zedit) : Z * zedit :=
  match x with
  | Replace n body =>
      match zedit_bounds n e with None => (-1, e) | Some (start, end_) => zedit_splice start end_ body false e end
  | Insert n body =>
      match insert_bounds true n e with
      | None => (-1, e)
      | Some (start, _) => zedit_splice start start body (n =? u32 (zedit_lines e + 1)) e
      end
  | Delete n => zedit_delete_line n e
  end.

Lemma bounds_lines e n : buf_ok e -> 1 <= n < 4294967296 ->
  zedit_bounds n e = line_span (lines e) (Z.to_nat (n - 1)).
Proof.
  intros [H _ _] Hn. assert (HM : ZSS_MAX_FILE = 4194304) by reflexivity.
  rewrite zedit_bounds_spec by lia. destruct (n =? 0) eqn:E; zbool; [lia | reflexivity].
Qed.

Lemma line_span_inside ls k : (k < length ls)%nat -> exists s t, line_span ls k = Some (s, t).
Proof.
  intros H. unfold line_span. destruct (lookup_lt_is_Some_2 ls k H) as [ln ->]. eauto.
Qed.
Lemma line_span_outside ls k : (length ls <= k)%nat -> line_span ls k = None.
Proof. intros H. unfold line_span. rewrite lookup_ge_None_2 by exact H. reflexivity. Qed.

(** What a splice of a whole edit does, given where it takes place. *)
Lemma splice_lines e start end_ body append ls' :
  buf_ok e -> Z.of_nat (length body) < 4294967294 -> 0 <= start <= end_ -> end_ <= z_length e ->
  spliced e start end_ body append = concat ls' ->
  if size ls' <=? ZSS_MAX_FILE
  then exists e', zedit_splice start end_ body append e = (0, e') /\ rewritten e e' ls'
  else zedit_splice start end_ body append e = (-1, e).
Proof.
  intros [H _ _] Hb Hs He Hc. pose proof (splice_spec e start end_ body append Hs ltac:(lia) Hb) as Sp.
  cbn zeta in Sp. rewrite Hc in Sp. fold (size ls') in Sp.
  destruct (size ls' <=? ZSS_MAX_FILE); [|exact Sp].
  destruct Sp as (t' & E & Ht). eexists. split; [exact E|]. exists t'. split; [reflexivity | exact Ht].
Qed.

Lemma concat_insert ls k (ln : list Z) : (k < length ls)%nat ->
  concat (<[k := ln]> ls) = concat (take k ls) ++ ln ++ concat (drop (S k) ls).
Proof. intros H. rewrite insert_take_drop by exact H. rewrite concat_app. reflexivity. Qed.

Lemma size_content e : buf_ok e -> size (lines e) = z_length e.
Proof. intros [H _ _]. unfold size. rewrite lines_concat, length_content. lia. Qed.

(** Where an existing line is. *)
Lemma line_place e n : buf_ok e -> 1 <= n <= Z.of_nat (length (lines e)) ->
  exists s t, zedit_bounds n e = Some (s, t) /\ 0 <= s <= t /\ t <= z_length e /\
    take (Z.to_nat s) (content e) = concat (take (Z.to_nat (n - 1)) (lines e)) /\
    drop (Z.to_nat s) (content e) = concat (drop (Z.to_nat (n - 1)) (lines e)) /\
    drop (Z.to_nat t) (content e) = concat (drop (S (Z.to_nat (n - 1))) (lines e)).
Proof.
  intros Hok Hn. destruct (lines_count e Hok) as [Hc Hr]. assert (HM : ZSS_MAX_FILE = 4194304) by reflexivity.
  destruct (line_span_inside (lines e) (Z.to_nat (n - 1)) ltac:(lia)) as (s & t & Hs).
  exists s, t. rewrite bounds_lines by (auto; lia). split; [exact Hs|].
  apply line_span_bounds in Hs as (B1 & B2 & _ & B3 & B4 & B5). rewrite lines_concat in B3, B4, B5.
  rewrite (size_content e Hok) in B2. auto.
Qed.

Lemma size_delete ls k : size (delete k ls) <= size ls.
Proof.
  unfold size. rewrite delete_take_drop, concat_app, length_app.
  destruct (ls !! k) as [ln|] eqn:E.
  - rewrite <- (take_drop_middle _ _ _ E) at 3. rewrite concat_app. cbn [concat]. rewrite !length_app. lia.
  - apply lookup_ge_None_1 in E. rewrite take_ge, drop_ge by lia. cbn. lia.
Qed.

Lemma perform_spec e x :
  buf_ok e -> 1 <= edit_line x < 4294967296 -> Z.of_nat (length (edit_body x)) < 4294967294 ->
  match edited (lines e) x with
  | Some ls' => exists e', perform x e = (0, e') /\ rewritten e e' ls'
  | None => perform x e = (-1, e)
  end.
Proof.
  intros Hok Hn Hb. pose proof (lines_ok_of (content e)) as Hl. fold (lines e) in Hl.
  destruct (lines_count e Hok) as [Hc Hr]. pose proof (size_content e Hok) as Hsz. pose proof (bo_length _ Hok) as Hlen.
  assert (HM : ZSS_MAX_FILE = 4194304) by reflexivity.
  unfold edited, edit_lines.
  destruct ((1 <=? _) && _) eqn:E.
  - bool_hyps. zbool.
    destruct (line_place e (edit_line x) Hok ltac:(lia)) as (s & t & Hbd & B1 & B2 & B3 & B4 & B5).
    destruct x as [n b|n b|n]; cbn [edit_line edit_body perform] in *.
    + rewrite Hbd. pose proof (splice_lines e s t b false (<[Z.to_nat (n - 1) := b ++ [NL]]> (lines e)) Hok Hb B1 B2) as Sp.
      destruct (size _ <=? _); apply Sp; rewrite concat_insert by lia;
        unfold spliced; rewrite B3, B5; cbn [separator andb app]; reflexivity.
    + unfold insert_bounds. cbn [andb]. rewrite u32_id by lia.
      replace (n =? zedit_lines e + 1) with false by lia. rewrite Hbd.
      pose proof (splice_lines e s s b false (take (Z.to_nat (n - 1)) (lines e) ++ (b ++ [NL]) :: drop (Z.to_nat (n - 1)) (lines e))
        Hok Hb ltac:(lia) ltac:(lia)) as Sp.
      destruct (size _ <=? _); apply Sp; rewrite concat_app; unfold spliced; rewrite B3, B4; cbn [separator andb app concat];
        rewrite <- ?app_assoc; reflexivity.
    + destruct (delete_line_spec e n s t (bo_length _ Hok) Hbd B1 B2) as (t' & Ed & Ht).
      rewrite B3, B5, <- concat_app, <- delete_take_drop in Ht. rewrite B3, B5, <- concat_app, <- delete_take_drop in Ed.
      pose proof (size_delete (lines e) (Z.to_nat (n - 1))) as Hsmall.
      bdec. eexists. split; [exact Ed|]. exists t'. split; [reflexivity | exact Ht].
  - assert (Hout : zedit_bounds (edit_line x) e = None).
    { rewrite bounds_lines by (auto; lia). apply line_span_outside.
      apply andb_false_iff in E as [E|E]; zbool; lia. }
    destruct x as [n b|n b|n]; cbn [edit_line edit_body perform] in *; rewrite ?Hout; try reflexivity.
    + unfold insert_bounds. cbn [andb]. rewrite u32_id by lia. rewrite Hc.
      destruct (n =? _) eqn:En; [|rewrite Hout; reflexivity].
      pose proof (splice_lines e (z_length e) (z_length e) b true (finish (lines e) ++ [b ++ [NL]])
        Hok Hb ltac:(lia) ltac:(lia)) as Sp.
      destruct (size _ <=? _); apply Sp; rewrite concat_app, concat_finish, lines_concat by exact Hl;
        unfold spliced; rewrite take_ge, drop_ge by (rewrite length_content; lia); cbn [concat];
        rewrite !app_nil_r, !app_assoc; reflexivity.
    + unfold zedit_delete_line. rewrite Hout. reflexivity.
Qed.

Lemma perform_result e x code e' :
  buf_ok e -> 1 <= edit_line x < 4294967296 -> Z.of_nat (length (edit_body x)) < 4294967294 ->
  perform x e = (code, e') ->
  (code = 0 /\ exists ls', edited (lines e) x = Some ls' /\ rewritten e e' ls') \/
  (code = -1 /\ edited (lines e) x = None /\ e' = e).
Proof.
  intros H1 H2 H3 E. pose proof (perform_spec e x H1 H2 H3) as P.
  destruct (edited (lines e) x) as [ls'|].
  - destruct P as (e1 & E1 & R). rewrite E in E1. injection E1 as -> ->. eauto.
  - rewrite E in P. injection P as -> ->. auto.
Qed.

Lemma Forall_concat_iff (P : Z -> Prop) ls : Forall P (concat ls) <-> Forall (Forall P) ls.
Proof. induction ls as [|ln ls IH]; cbn; [split; constructor|]. rewrite Forall_app, Forall_cons_iff. tauto. Qed.

Lemma edit_lines_chars ls x ls' : Forall text_char (concat ls) -> Forall text_char (edit_body x) ->
  lines_ok ls -> edit_lines ls x = Some ls' -> Forall text_char (concat ls').
Proof.
  intros Hc Hb Hl. assert (Hnl : text_char NL) by (unfold text_char, NL; lia).
  assert (Hln : Forall text_char (edit_body x ++ [NL])) by (apply Forall_app; repeat constructor; auto).
  unfold edit_lines. destruct (_ && _); destruct x as [n b|n b|n]; cbn [edit_line edit_body] in *; try discriminate.
  - intros [= <-]. apply Forall_concat_iff, Forall_insert; [apply Forall_concat_iff; exact Hc | exact Hln].
  - intros [= <-]. apply Forall_concat_iff in Hc. apply Forall_concat_iff, Forall_app.
    split; [apply Forall_take, Hc | constructor; [exact Hln | apply Forall_drop, Hc]].
  - intros [= <-]. apply Forall_concat_iff in Hc. apply Forall_concat_iff, Forall_delete, Hc.
  - destruct (n =? _); [|discriminate]. intros [= <-]. rewrite concat_app, concat_finish by exact Hl.
    apply Forall_app. split; [apply Forall_app; split; [exact Hc|] | cbn; rewrite app_nil_r; exact Hln].
    unfold separator. destruct (true && _); repeat constructor; exact Hnl || apply Hnl.
Qed.

(** ** The invariant *)

Record ed_ok (e : zedit) : Prop := {
  ek_buf : buf_ok e;
  ek_cursor : 1 <= cursor_line e <= Z.of_nat (length (lines e)) + 1;
  ek_view : is_u 32 (view_first e) /\ is_u 32 (view_count e);
  ek_name : is_Some (zss_name_ok (z_name e)) }.

(** What a command changes: the lines as the edit says (none: not at all), and never a byte
    outside the text array. *)
Record effect (e : zedit) (x : option edit) (e' : zedit) : Prop := {
  ef_name : z_name e' = z_name e;
  ef_existed : z_existed e' = z_existed e;
  ef_outside : forall j, j < 0 \/ ZSS_MAX_FILE < j -> z_text e' j = z_text e j;
  ef_edit : match x ≫= edited (lines e) with
            | Some ls' => lines e' = ls' /\ content e' = concat ls' /\ z_dirty e' = true
            | None => content e' = content e /\ z_dirty e' = z_dirty e
            end }.

(** The commands after which the editor stays open. *)
Definition stays (e : zedit) (x : option edit) (e' : zedit) : Prop :=
  ed_ok e' /\ z_active e' = z_active e /\ effect e x e'.

Lemma stays_refl e x : ed_ok e -> x ≫= edited (lines e) = None -> stays e x e.
Proof. intros H Hx. split; [exact H|]. split; [reflexivity|]. split; auto. rewrite Hx. auto. Qed.

(** Moving the cursor or the view. *)
Lemma stays_view e x e' first count c : stays e x e' ->
  is_u 32 first -> is_u 32 count -> 1 <= c <= Z.of_nat (length (lines e')) + 1 ->
  stays e x (set_cursor c (set_view first count e')).
Proof.
  intros ([[K1 K2 K3] K4 K5 K6] & A & [F1 F2 F3 F4]) H1 H2 H3.
  repeat split; cbn; try assumption; try apply K1; try apply H1; try apply H2; try apply H3.
Qed.

Lemma stays_edit e x e' ls' c :
  ed_ok e -> Forall line_char (edit_body x) -> edited (lines e) x = Some ls' -> rewritten e e' ls' ->
  1 <= c <= Z.of_nat (length ls') + 1 -> stays e (Some x) (set_cursor c e').
Proof.
  intros [K1 K4 K5 K6] Hb Hx R Hc.
  pose proof (edited_inv _ _ _ Hx) as Hx'.
  destruct Hx' as [Hx' Hs]. pose proof (lines_ok_of (content e)) as Hl. fold (lines e) in Hl.
  assert (Hl' : lines_ok ls').
  { eapply edit_lines_ok; [exact Hl | | exact Hx']. eapply Forall_impl; [|exact Hb]; intros ch [_ H]; exact H. }
  pose proof (rewritten_content _ _ _ R) as Ec. pose proof (rewritten_lines _ _ _ R Hl') as El.
  assert (Hbuf : buf_ok e').
  { eapply rewritten_ok; [exact K1 | exact R | exact Hs|]. eapply edit_lines_chars; [| | exact Hl | exact Hx'].
    - rewrite lines_concat. apply K1.
    - eapply Forall_impl; [|exact Hb]; intros ch [H _]; exact H. }
  destruct R as (t' & -> & H1 & H2 & H3).
  split; [|split; [reflexivity|]].
  - split; [split; apply Hbuf | | exact K5 | exact K6].
    change (1 <= c <= Z.of_nat (length (lines (set_dirty true (set_length (size ls') (set_text t' e))))) + 1).
    rewrite El. exact Hc.
  - split; [reflexivity | reflexivity | exact H3 |]. cbn [mbind option_bind]. rewrite Hx.
    split; [exact El | split; [exact Ec | reflexivity]].
Qed.
