(* ===== verification/EditorCmds.v ===== *)
(** * The source editor: every command refines an edit and keeps the invariant *)

From S2P Require Import Prelude BlockDev SourceStore SourceStoreLog Editor EditorSpec EditorRefine.
#[local] Open Scope sm_scope.

(** ** Numbers on a command line *)

Definition is_digit (c : Z) : bool := (48 <=? c) && (c <=? 57).
Fixpoint digits (p : list Z) : list Z :=
  match p with c :: p' => if is_digit c then c :: digits p' else [] | [] => [] end.
(** The value of a digit string, from [v]. *)
Definition dec_from (v : Z) (ds : list Z) : Z := fold_left (fun v c => v * 10 + (c - 48)) ds v.

Lemma digits_all p : Forall (fun c => 48 <= c <= 57) (digits p).
Proof.
  induction p as [|c p IH]; cbn; [constructor|]. unfold is_digit.
  destruct (_ && _) eqn:E; [|constructor]. bool_hyps. zbool. constructor; [lia | exact IH].
Qed.

Lemma dec_from_ge ds : Forall (fun c => 48 <= c <= 57) ds -> forall v, 0 <= v -> v <= dec_from v ds.
Proof.
  induction 1 as [|c ds Hc Hds IH]; intros v Hv; [unfold dec_from; cbn; lia|].
  unfold dec_from in *. cbn. specialize (IH (v * 10 + (c - 48)) ltac:(lia)). lia.
Qed.

Lemma number_loop_spec p : forall v, 0 <= v <= UINT32_MAX ->
  number_loop p v =
  if dec_from v (digits p) <=? UINT32_MAX then Some (dec_from v (digits p), drop (length (digits p)) p) else None.
Proof.
  unfold UINT32_MAX. induction p as [|c p IH]; intros v Hv; cbn [number_loop digits].
  - unfold dec_from. cbn. destruct (_ <=? _) eqn:E; [reflexivity | zbool; lia].
  - change ((48 <=? c) && (c <=? 57)) with (is_digit c). destruct (is_digit c) eqn:Ed.
    + unfold is_digit in Ed. bool_hyps. zbool. cbn zeta.
      change (dec_from v (c :: digits p)) with (dec_from (v * 10 + (c - 48)) (digits p)). cbn [length drop].
      unfold UINT32_MAX. destruct (_ <? v) eqn:Eo; zbool.
      * assert (4294967295 < v * 10 + (c - 48)) by (Z.to_euclidean_division_equations; lia).
        pose proof (dec_from_ge (digits p) (digits_all p) (v * 10 + (c - 48)) ltac:(lia)).
        destruct (_ <=? _) eqn:E; [zbool; lia | reflexivity].
      * apply IH. Z.to_euclidean_division_equations; lia.
    + unfold dec_from. cbn. destruct (_ <=? _) eqn:E; [reflexivity | zbool; lia].
Qed.

(** A number is the longest run of digits; zero and values over 32 bits are refused. *)
Lemma zedit_number_spec p :
  zedit_number p =
  let v := dec_from 0 (digits p) in
  if (1 <=? v) && (v <=? UINT32_MAX) then Some (v, drop (length (digits p)) p) else None.
Proof.
  cbn zeta. destruct p as [|c p]; [reflexivity|]. unfold zedit_number.
  rewrite number_loop_spec by (unfold UINT32_MAX; lia).
  destruct ((c <? 48) || (57 <? c)) eqn:Ec.
  - cbn [digits]. replace (is_digit c) with false; [reflexivity|].
    unfold is_digit. apply orb_true_iff in Ec as [Ec|Ec]; zbool; lia.
  - pose proof (dec_from_ge (digits (c :: p)) (digits_all _) 0 ltac:(lia)).
    destruct (_ <=? UINT32_MAX) eqn:E; [|rewrite andb_false_r; reflexivity]. rewrite andb_true_r.
    destruct (_ =? 0) eqn:E0; destruct (1 <=? _) eqn:E1; zbool; reflexivity || lia.
Qed.

Lemma zedit_number_range p n rest : zedit_number p = Some (n, rest) ->
  1 <= n < 4294967296 /\ exists k, rest = drop k p.
Proof.
  rewrite zedit_number_spec. cbn zeta. destruct (_ && _) eqn:E; [|discriminate]. intros [= <- <-].
  unfold UINT32_MAX in E. bool_hyps. zbool. split; [lia | eauto].
Qed.

(** ** The edit a command line asks for *)

Definition edit_of_command (line : cstring) (cursor count : Z) : option edit :=
  match line with
  | [c] =>
      if c =? chr "x" then Some (Delete cursor)
      else if c =? chr "a" then Some (Insert (count + 1) []) else None
  | c :: sp :: rest =>
      if negb (sp =? 32) then None
      else if c =? chr "e" then Some (Replace cursor rest)
      else if c =? chr "n" then Some (Insert cursor rest)
      else if c =? chr "a" then Some (Insert (count + 1) rest)
      else if (c =? chr "i") || (c =? chr "c") || (c =? chr "d") then
        match zedit_number rest with
        | Some (n, []) => if c =? chr "d" then Some (Delete n) else None
        | Some (n, sp :: body) =>
            if (sp =? 32) && negb (c =? chr "d") then Some (if c =? chr "i" then Insert n body else Replace n body)
            else None
        | None => None
        end
      else None
  | [] => None
  end.

(** ** Runs of commands

    [wp m Q]: the command returns, and whatever the console holds, [Q] is true of its result, the
    editor and the source partition. *)

Section Wp.
Context {D : Type}.

Definition wp {A} (m : SM (ed (D := D)) A) (Q : A -> zedit -> zst D -> Prop) (z : zedit) (s : zst D) : Prop :=
  forall out, exists a z' s' out', m (mk_ed z s out) = Some (a, mk_ed z' s' out') /\ Q a z' s'.

Lemma wp_ret {A} (a : A) Q z s : Q a z s -> wp (ret a) Q z s.
Proof. intros H out. repeat eexists. exact H. Qed.
Lemma wp_bind {A B} (m : SM ed A) (k : A -> SM ed B) Q z s :
  wp m (fun a z' s' => wp (k a) Q z' s') z s -> wp (bind m k) Q z s.
Proof. intros H out. destruct (H out) as (a & z' & s' & out' & E & K). unfold bind. rewrite E. apply K. Qed.
Lemma wp_con p Q z s : Q tt z s -> wp (con p) Q z s.
Proof. intros H out. repeat eexists. exact H. Qed.
Lemma wp_edits f Q z s : Q tt (f z) s -> wp (edits f) Q z s.
Proof. intros H out. repeat eexists. exact H. Qed.
Lemma wp_editor {A} (f : zedit -> A) (Q : A -> zedit -> zst D -> Prop) z s : Q (f z) z s -> wp (editor f) Q z s.
Proof. intros H out. repeat eexists. exact H. Qed.
Lemma wp_apply_edit f (Q : Z -> zedit -> zst D -> Prop) z s : Q (fst (f z)) (snd (f z)) s -> wp (apply_edit f) Q z s.
Proof. intros H out. unfold apply_edit. cbn. destruct (f z). repeat eexists. exact H. Qed.
Lemma wp_store_op {A} (m : SM (zst D) A) (Q : A -> zedit -> zst D -> Prop) z s a s' :
  m s = Some (a, s') -> Q a z s' -> wp (store_op m) Q z s.
Proof. intros E H out. unfold store_op. cbn. rewrite E. repeat eexists. exact H. Qed.
Lemma wp_say m (Q : unit -> zedit -> zst D -> Prop) z s : Q tt z s -> wp (say m) Q z s.
Proof. intros H. apply wp_bind, wp_con, wp_con, H. Qed.
Lemma wp_say_dec m n (Q : unit -> zedit -> zst D -> Prop) z s : Q tt z s -> wp (say_dec m n) Q z s.
Proof. intros H. apply wp_bind, wp_con, wp_bind, wp_con, wp_con, H. Qed.
Lemma wp_con_all ps (Q : unit -> zedit -> zst D -> Prop) z s : Q tt z s -> wp (con_all ps) Q z s.
Proof. intros H. induction ps as [|p ps IH]; [apply wp_ret, H | apply wp_bind, wp_con, IH]. Qed.
Lemma wp_help (Q : unit -> zedit -> zst D -> Prop) z s : Q tt z s -> wp zedit_help Q z s.
Proof. intros H. apply wp_bind, wp_say, wp_say, H. Qed.
Lemma wp_mono {A} (m : SM ed A) (P Q : A -> zedit -> zst D -> Prop) z s :
  wp m P z s -> (forall a z' s', P a z' s' -> Q a z' s') -> wp m Q z s.
Proof. intros H HPQ out. destruct (H out) as (a & z' & s' & out' & E & HP). eauto 8. Qed.
End Wp.

Ltac wp_step :=
  lazymatch goal with
  | |- wp (say _) _ _ _ => apply wp_say
  | |- wp (say_dec _ _) _ _ _ => apply wp_say_dec
  | |- wp zedit_help _ _ _ => apply wp_help
  | |- wp (bind _ _) _ _ _ => apply wp_bind
  | |- wp (ret _) _ _ _ => apply wp_ret
  | |- wp (con_all _) _ _ _ => apply wp_con_all
  | |- wp (edits _) _ _ _ => apply wp_edits
  | |- wp (editor _) _ _ _ => apply wp_editor
  | |- wp (apply_edit _) _ _ _ => apply wp_apply_edit
  | |- wp (con _) _ _ _ => apply wp_con
  | |- wp (con_puts _) _ _ _ => apply wp_con
  | |- wp (zc_print_decimal _) _ _ _ => apply wp_con
  end; cbn beta.

(** ** Each command *)

Section Commands.
Context {D : Type} `{BlockDev D}.
Context (g_fb_rows g_fb_cols : Z).
Context (z : zedit) (s : zst D).
Hypothesis Hok : ed_ok z.

Definition body_ok (b : list Z) : Prop := Forall line_char b /\ Z.of_nat (length b) < 4294967294.

(** The outcome of a command that asks for [x] and leaves the editor open. *)
Definition outcome (x : option edit) : unit -> zedit -> zst D -> Prop := fun _ z' s' => s' = s /\ stays z x z'.

Definition nlines : Z := Z.of_nat (length (lines z)).

Lemma nlines_spec : zedit_lines z = nlines /\ 0 <= nlines <= 4194304.
Proof using Hok.
  destruct (lines_count z (ek_buf _ Hok)) as [E H1]. unfold nlines. rewrite E in *. split; [reflexivity | exact H1].
Qed.

Lemma outcome_none x : x ≫= edited (lines z) = None -> outcome x tt z s.
Proof using Hok. intros Hx. split; [reflexivity | apply stays_refl; assumption]. Qed.

Lemma edited_length x ls' : edited (lines z) x = Some ls' -> Z.of_nat (length ls') =
  nlines + (match x with Replace _ _ => 0 | Insert _ _ => 1 | Delete _ => -1 end).
Proof.
  intros E. apply edited_inv in E as [E _]. apply edit_lines_length, E.
Qed.

Lemma set_cursor_id e : set_cursor (cursor_line e) e = e.
Proof. destruct e. reflexivity. Qed.

Lemma rewritten_cursor e e' ls : rewritten e e' ls -> cursor_line e' = cursor_line e.
Proof. intros (t' & -> & _). reflexivity. Qed.

(** The edit's operation, then a cursor at [c e'], then a message; or only a message. *)
Lemma perform_cases x code e' (c : zedit -> Z) :
  1 <= edit_line x < 4294967296 -> body_ok (edit_body x) -> perform x z = (code, e') ->
  (forall ls', edited (lines z) x = Some ls' -> rewritten z e' ls' -> lines_of (concat ls') = ls' ->
     1 <= c e' <= Z.of_nat (length ls') + 1) ->
  (code = 0 /\ outcome (Some x) tt (set_cursor (c e') e') s) \/ (code = -1 /\ e' = z /\ outcome (Some x) tt z s).
Proof using Hok.
  intros Hx [Hb Hb'] E Hc.
  destruct (perform_result z x code e' (ek_buf _ Hok) Hx Hb' E) as [(-> & ls' & Hed & R)|(-> & Hed & ->)].
  - left. split; [reflexivity|]. split; [reflexivity|]. eapply stays_edit; eauto.
    apply Hc; auto. apply lines_of_concat. eapply edit_lines_ok; [apply lines_ok_of | |].
    + eapply Forall_impl; [|exact Hb]; intros ch [_ Hch]; exact Hch.
    + apply (edited_inv _ _ _ Hed).
  - right. split; [reflexivity|]. split; [reflexivity|]. apply outcome_none. exact Hed.
Qed.

(** [apply_edit] of the operation; [k] is told the code. *)
Lemma cursor_small : 1 <= cursor_line z < 4294967296.
Proof using Hok. pose proof (ek_cursor _ Hok). pose proof nlines_spec. unfold nlines in *. lia. Qed.

Lemma wp_zedit_e c sp body : body_ok body ->
  wp (zedit_e (c :: sp :: body)) (outcome (Some (Replace (cursor_line z) body))) z s.
Proof using Hok.
  intros Hb. unfold zedit_e. change (drop 2 (c :: sp :: body)) with body. do 4 wp_step.
  set (x := Replace (cursor_line z) body).
  destruct (perform x z) as [code e'] eqn:E.
  destruct (perform_cases x code e' cursor_line cursor_small Hb E) as [[-> Ho]|(-> & -> & Ho)].
  { intros ls' Hed R _. rewrite (rewritten_cursor _ _ _ R), (edited_length _ _ Hed). cbn. pose proof (ek_cursor _ Hok). unfold nlines. lia. }
  - cbn [perform x] in E. destruct (zedit_bounds _ z) as [[st en]|]; [|discriminate].
    do 2 wp_step. rewrite E. cbn [fst snd]. cbn. wp_step. rewrite set_cursor_id in Ho. exact Ho.
  - cbn [perform x] in E. destruct (zedit_bounds _ z) as [[st en]|]; [|wp_step; exact Ho].
    do 2 wp_step. rewrite E. cbn. wp_step. exact Ho.
Qed.

Lemma wp_zedit_n c sp body : body_ok body ->
  wp (zedit_n (c :: sp :: body)) (outcome (Some (Insert (cursor_line z) body))) z s.
Proof using Hok.
  intros Hb. unfold zedit_n. change (drop 2 (c :: sp :: body)) with body. do 6 wp_step.
  set (x := Insert (cursor_line z) body).
  destruct (perform x z) as [code e'] eqn:E.
  destruct (perform_cases x code e' cursor_line cursor_small Hb E) as [[-> Ho]|(-> & -> & Ho)].
  { intros ls' Hed R _. rewrite (rewritten_cursor _ _ _ R), (edited_length _ _ Hed). cbn. pose proof (ek_cursor _ Hok). unfold nlines. lia. }
  - cbn [perform x] in E. destruct (insert_bounds _ _ z) as [[st en]|]; [|discriminate].
    do 2 wp_step. rewrite E. cbn. wp_step. rewrite set_cursor_id in Ho. exact Ho.
  - cbn [perform x] in E. destruct (insert_bounds _ _ z) as [[st en]|]; [|wp_step; exact Ho].
    do 2 wp_step. rewrite E. cbn. wp_step. exact Ho.
Qed.

Lemma wp_zedit_a line body : body_ok body -> (if byte_at line 1 =? 0 then drop 1 line else drop 2 line) = body ->
  wp (zedit_a line) (outcome (Some (Insert (nlines + 1) body))) z s.
Proof using Hok.
  intros Hb Eb. unfold zedit_a. rewrite Eb. do 6 wp_step.
  destruct nlines_spec as [En Hn]. set (x := Insert (nlines + 1) body).
  destruct (perform x z) as [code e'] eqn:E.
  assert (Ep : zedit_splice (z_length z) (z_length z) body true z = (code, e')).
  { rewrite <- E. cbn [perform x]. unfold insert_bounds. rewrite En, u32_id, Z.eqb_refl by lia. reflexivity. }
  rewrite Ep. cbn [fst snd].
  destruct (perform_cases x code e' cursor_line ltac:(cbn; lia) Hb E) as [[-> Ho]|(-> & -> & Ho)].
  { intros ls' Hed R _. rewrite (rewritten_cursor _ _ _ R), (edited_length _ _ Hed). cbn. pose proof (ek_cursor _ Hok). unfold nlines. lia. }
  - cbn. wp_step. rewrite set_cursor_id in Ho. exact Ho.
  - cbn. wp_step. exact Ho.
Qed.

Lemma clamp_range (n c : Z) : 0 <= n -> 1 <= c -> 1 <= clamp_cursor n c <= n + 1.
Proof. intros H1 H2. unfold clamp_cursor. repeat case_if; bool_hyps; zbool; lia. Qed.

(** After an edit the count the code takes is the number of lines. *)
Lemma rewritten_count x e' ls' : edited (lines z) x = Some ls' -> rewritten z e' ls' ->
  lines_of (concat ls') = ls' -> zedit_lines e' = Z.of_nat (length ls').
Proof.
  intros Hed R El. pose proof (rewritten_content _ _ _ R) as Ec.
  assert (Hs : 0 <= z_length e' < 4294967295).
  { destruct R as (t' & -> & _). apply edited_inv in Hed as [_ Hs]. cbn. unfold size, ZSS_MAX_FILE in *. lia. }
  rewrite zedit_lines_spec by exact Hs. rewrite Ec, El. reflexivity.
Qed.

Lemma body_nil : body_ok [].
Proof. split; [constructor | reflexivity]. Qed.

Lemma wp_zedit_x : wp zedit_x (outcome (Some (Delete (cursor_line z)))) z s.
Proof using Hok.
  unfold zedit_x. do 4 wp_step. set (x := Delete (cursor_line z)).
  destruct (zedit_delete_line (cursor_line z) z) as [code e'] eqn:E. cbn [fst snd].
  destruct (perform_cases x code e' (fun e => clamp_cursor (zedit_lines e) (cursor_line e)) cursor_small body_nil E)
    as [[-> Ho]|(-> & -> & Ho)].
  { intros ls' Hed R El. rewrite (rewritten_cursor _ _ _ R), (rewritten_count x e' ls') by assumption.
    apply clamp_range; [lia | apply cursor_small]. }
  - cbn. do 3 wp_step. exact Ho.
  - cbn. wp_step. exact Ho.
Qed.

Lemma wp_zedit_d n rest : 1 <= n < 4294967296 ->
  wp (zedit_d n rest) (outcome (match rest with [] => Some (Delete n) | _ => None end)) z s.
Proof using Hok.
  intros Hn. unfold zedit_d. wp_step. destruct rest as [|c rest].
  2: { wp_step. cbn. wp_step. apply outcome_none. reflexivity. }
  wp_step. set (x := Delete n).
  destruct (zedit_delete_line n z) as [code e'] eqn:E. cbn [fst snd].
  set (cf := fun e : zedit =>
    let c := if n <? cursor_line e then u32 (cursor_line e - 1) else cursor_line e in
    let remaining := zedit_lines e in if remaining =? 0 then 1 else if remaining <? c then remaining else c).
  destruct (perform_cases x code e' cf Hn body_nil E) as [[-> Ho]|(-> & -> & Ho)].
  { intros ls' Hed R El. unfold cf. rewrite (rewritten_cursor _ _ _ R), (rewritten_count x e' ls') by assumption.
    pose proof cursor_small. rewrite (u32_id (_ - 1)) by lia. cbn zeta. repeat case_if; zbool; lia. }
  - cbn. do 3 wp_step. exact Ho.
  - cbn. wp_step. exact Ho.
Qed.

Lemma wp_zedit_ic insert n body : 1 <= n < 4294967296 -> body_ok body ->
  wp (zedit_ic insert n body) (outcome (Some (if insert then Insert n body else Replace n body))) z s.
Proof using Hok.
  intros Hn Hb. unfold zedit_ic. do 4 wp_step.
  set (x := if insert then Insert n body else Replace n body).
  assert (Hx : 1 <= edit_line x < 4294967296 /\ body_ok (edit_body x)) by (subst x; destruct insert; auto).
  destruct (perform x z) as [code e'] eqn:E.
  set (cf := fun e => if insert && (n <=? cursor_line e) then u32 (cursor_line e + 1) else cursor_line e).
  pose proof cursor_small as Hcs. pose proof (ek_cursor _ Hok) as Hck. destruct nlines_spec as [_ Hnl].
  assert (Hrun : match insert_bounds insert n z with
                 | None => (-1, z)
                 | Some (start, end_) => zedit_splice start (if insert then start else end_) body
                                           (insert && (n =? u32 (zedit_lines z + 1))) z
                 end = (code, e')).
  { rewrite <- E. subst x. destruct insert; [reflexivity|]. cbn. destruct (zedit_bounds n z) as [[]|]; reflexivity. }
  destruct (perform_cases x code e' cf (proj1 Hx) (proj2 Hx) E) as [[-> Ho]|(-> & -> & Ho)].
  { intros ls' Hed R _. unfold cf. rewrite (rewritten_cursor _ _ _ R), (edited_length _ _ Hed).
    unfold nlines in *. subst x. destruct insert; cbn [andb]; [|lia].
    destruct (n <=? _); rewrite ?u32_id by lia; lia. }
  - destruct (insert_bounds _ _ z) as [[st en]|]; [|discriminate].
    do 2 wp_step. rewrite Hrun. cbn. do 3 wp_step.
    replace (if insert && _ then _ else _) with (set_cursor (cf e') e'); [exact Ho|].
    unfold cf. destruct (insert && (n <=? cursor_line e')); [reflexivity | apply set_cursor_id].
  - destruct (insert_bounds _ _ z) as [[st en]|]; [|wp_step; exact Ho].
    do 2 wp_step. rewrite Hrun. cbn. wp_step. exact Ho.
Qed.

(** Commands that only look around. *)
Lemma outcome_view first count c : is_u 32 first -> is_u 32 count -> 1 <= c <= nlines + 1 ->
  outcome None tt (set_cursor c (set_view first count z)) s.
Proof using Hok.
  intros H1 H2 H3. split; [reflexivity|]. apply stays_view; auto. apply stays_refl; auto.
Qed.

Lemma print_args_range p first count : print_args p = Some (first, count) -> 1 <= first < 4294967296 /\ 1 <= count < 4294967296.
Proof.
  unfold print_args. destruct p as [|c p]; [intros [= <- <-]; lia|].
  destruct (c =? 32); [|intros [= <- <-]; lia].
  destruct (zedit_number _) as [[f r]|] eqn:E1; [|discriminate]. apply zedit_number_range in E1 as [E1 _].
  destruct r as [|c' r]; [intros [= <- <-]; lia|]. destruct (c' =? 32); [|discriminate].
  destruct (zedit_number _) as [[k r']|] eqn:E2; [|discriminate]. apply zedit_number_range in E2 as [E2 _].
  destruct r'; [|discriminate]. intros [= <- <-]. lia.
Qed.

Lemma wp_zedit_p line : wp (zedit_p line) (outcome None) z s.
Proof using Hok.
  unfold zedit_p. destruct (print_args _) as [[first count]|] eqn:E.
  2: { wp_step. apply outcome_none. reflexivity. }
  apply print_args_range in E as [H1 H2]. do 5 wp_step.
  change (zedit_lines (set_view first count z)) with (zedit_lines z). destruct nlines_spec as [-> Hn].
  pose proof (ek_cursor _ Hok) as Hc.
  destruct (first <=? nlines) eqn:Ef; zbool.
  - apply outcome_view; unfold is_u; lia.
  - rewrite <- (set_cursor_id (set_view first count z)). apply outcome_view; unfold is_u; try lia. exact Hc.
Qed.

Lemma page_rows_range : 1 <= zedit_page_rows g_fb_rows <= 507.
Proof.
  unfold zedit_page_rows, rows_of, ZEAL_TEXT_MAX_ROWS. repeat case_if; zbool; lia.
Qed.

Lemma moved_range line : 1 <= moved g_fb_rows line nlines (cursor_line z) <= nlines + 1.
Proof using Hok.
  pose proof (ek_cursor _ Hok) as Hc. destruct nlines_spec as [_ Hn]. pose proof page_rows_range as Hp.
  fold nlines in Hc. unfold moved. set (step := zedit_page_rows g_fb_rows) in *. cbn zeta.
  match goal with |- context [(nlines <? ?c) && _] => assert (Hr : 1 <= c) end.
  { repeat match goal with |- 1 <= (if ?b then _ else _) => destruct b eqn:?; bool_hyps; zbool; try lia end.
    pose proof (u32_range (nlines - cursor_line z)).
    rewrite u32_id by (destruct (step <? _) eqn:?; zbool; lia). destruct (step <? _); lia. }
  repeat case_if; bool_hyps; zbool; lia.
Qed.

Lemma reveal_range e : is_u 32 (view_first e) -> is_u 32 (cursor_line e) ->
  exists first, is_u 32 first /\ zedit_reveal_cursor g_fb_rows e = set_view first (view_count e) e.
Proof.
  intros H1 H2. unfold zedit_reveal_cursor. cbn zeta.
  destruct (cursor_line e <? view_first e); [eauto|].
  destruct (_ && (u32 _ <=? _)); [eexists; split; [|reflexivity]; apply u32_range|].
  exists (view_first e). split; [exact H1|]. destruct e; reflexivity.
Qed.

Lemma wp_zedit_move line : wp (zedit_move g_fb_rows line) (outcome None) z s.
Proof using Hok.
  unfold zedit_move. do 5 wp_step.
  destruct nlines_spec as [-> Hn]. pose proof (moved_range line) as Hm. pose proof (ek_view _ Hok) as [V1 V2].
  destruct (reveal_range (set_cursor (moved g_fb_rows line nlines (cursor_line z)) z)) as (first & Hf & ->).
  - exact V1.
  - unfold is_u. cbn. lia.
  - exact (outcome_view first (view_count z) _ Hf V2 Hm).
Qed.

(** ** The dispatcher *)

(** [w] and [wq]. *)
Definition is_save (line : cstring) : bool := is_cmd line "w" || is_cmd line "wq".
(** The commands that close the editor: [q!], and [q] when nothing would be lost. *)
Definition quits (line : cstring) (dirty : bool) : bool := is_cmd line "q!" || (is_cmd line "q" && negb dirty).

Definition final (line : cstring) : unit -> zedit -> zst D -> Prop := fun _ z' s' =>
  s' = s /\ ed_ok z' /\ effect z (edit_of_command line (cursor_line z) nlines) z' /\
  z_active z' = z_active z && negb (quits line (z_dirty z)).

Lemma outcome_final line x m : x = edit_of_command line (cursor_line z) nlines -> quits line (z_dirty z) = false ->
  wp m (outcome x) z s -> wp m (final line) z s.
Proof using Type.
  intros -> Hq Hm. eapply wp_mono; [exact Hm|]. intros [] z' s' (-> & K & A & F).
  split; [reflexivity|]. split; [exact K|]. split; [exact F|]. rewrite Hq, andb_true_r. exact A.
Qed.

Lemma help_outcome x : x = None -> wp zedit_help (outcome x) z s.
Proof using Hok. intros ->. wp_step. apply outcome_none. reflexivity. Qed.

Lemma wp_zedit_q line : is_cmd line "q" || is_cmd line "q!" = true -> wp (zedit_q line) (final line) z s.
Proof using Hok.
  unfold is_cmd. rewrite !zss_str_eq_spec. intros Hl.
  assert (Hx : edit_of_command line (cursor_line z) nlines = None /\
               negb (z_dirty z && negb (at_char line 1 "!")) = quits line (z_dirty z)).
  { apply orb_true_iff in Hl as [Hl|Hl]; apply bool_decide_eq_true in Hl; subst line; split; try reflexivity;
      destruct (z_dirty z); reflexivity. }
  destruct Hx as [Hx Hq]. unfold zedit_q. do 2 wp_step.
  assert (Hf : forall z', content z' = content z -> z_name z' = z_name z -> z_existed z' = z_existed z ->
            z_dirty z' = z_dirty z -> z_text z' = z_text z -> effect z (edit_of_command line (cursor_line z) nlines) z').
  { intros z' Ec En Ee Ed Et. rewrite Hx. split; [auto | auto | intros; rewrite Et; reflexivity | cbn; auto]. }
  destruct (_ && _) eqn:E; cbn [negb] in Hq.
  - wp_step. split; [reflexivity|]. split; [exact Hok|]. split; [apply Hf; auto|].
    rewrite <- Hq, andb_true_r. reflexivity.
  - wp_step. wp_step. wp_step. split; [reflexivity|]. split.
    { destruct Hok as [[K1 K2 K3] K4 K5 K6]. repeat split; cbn; try apply K1; try apply K4; try apply K5; assumption. }
    split; [|rewrite <- Hq, andb_false_r; reflexivity].
    apply Hf; reflexivity.
Qed.

Lemma body_ok_tail c l : body_ok (c :: l) -> body_ok l.
Proof using Type. intros [H1 H2]. inversion H1; subst. split; [assumption | cbn [length] in H2; lia]. Qed.
Lemma body_ok_drop k l : body_ok l -> body_ok (drop k l).
Proof using Type. intros [H1 H2]. split; [apply Forall_drop, H1 | rewrite length_drop; lia]. Qed.

Lemma wp_zedit_icd c rest : body_ok rest ->
  (c = chr "i" \/ c = chr "c" \/ c = chr "d") ->
  wp (zedit_icd (c :: 32 :: rest)) (outcome (edit_of_command (c :: 32 :: rest) (cursor_line z) nlines)) z s.
Proof using Hok.
  intros Hb Hc. unfold zedit_icd. change (drop 2 (c :: 32 :: rest)) with rest. cbn [edit_of_command].
  change (negb (32 =? 32)) with false. cbv iota.
  unfold at_char. change (byte_at (c :: 32 :: rest) 0) with c.
  destruct (zedit_number rest) as [[n p]|] eqn:E.
  2: { apply help_outcome. destruct Hc as [->|[->| ->]]; reflexivity. }
  apply zedit_number_range in E as [Hn [k Hk]].
  assert (Hp : body_ok p) by (rewrite Hk; apply body_ok_drop, Hb). clear Hk.
  pose proof (wp_zedit_d n p Hn) as Wd.
  destruct p as [|sp body].
  { destruct Hc as [->|[->| ->]]; [apply help_outcome; reflexivity .. | exact Wd]. }
  pose proof (fun ins => wp_zedit_ic ins n body Hn (body_ok_tail _ _ Hp)) as Wic.
  destruct Hc as [->|[->| ->]]; [| | rewrite andb_false_r; exact Wd];
    destruct (sp =? 32); try (apply help_outcome; reflexivity); [apply (Wic true) | apply (Wic false)].
Qed.

(** A command of one character, and one with an operand. *)
Lemma wp_command_1 c : is_save [c] = false -> line_char c ->
  wp (zedit_handle_command g_fb_rows [c]) (final [c]) z s.
Proof using Hok.
  intros Hs Hc.
  assert (Hsave : (is_cmd [c] "w" || is_cmd [c] "wq") = false) by exact Hs.
  unfold zedit_handle_command. rewrite Hsave.
  destruct (is_cmd [c] "q" || is_cmd [c] "q!") eqn:Eq.
  { assert (Hh : is_cmd [c] "h" = false /\ is_cmd [c] "help" = false).
    { unfold is_cmd in *. rewrite !zss_str_eq_spec in *. apply orb_true_iff in Eq as [Eq|Eq];
        apply bool_decide_eq_true in Eq; [injection Eq as -> | discriminate]; split; reflexivity. }
    destruct Hh as [-> ->].
    change (byte_at [c] 0) with c. rewrite (proj2 (Z.eqb_neq c 0)) by (destruct Hc; lia). cbn [orb].
    apply wp_zedit_q, Eq. }
  assert (Hq : quits [c] (z_dirty z) = false).
  { apply orb_false_iff in Eq as [E1 E2]. unfold quits. rewrite E1, E2. reflexivity. }
  clear Eq Hsave.
  assert (Hhelp : edit_of_command [c] (cursor_line z) nlines = None -> wp zedit_help (final [c]) z s).
  { intros Hx. apply (outcome_final _ None); auto. apply help_outcome. reflexivity. }
  assert (Hone : forall d, is_cmd [c] (String d EmptyString) = (c =? Z.of_N (Ascii.N_of_ascii d))).
  { intros d. unfold is_cmd. cbn. apply andb_true_r. }
  destruct (Z.eq_dec c (chr "x")) as [->|Hx];
    [apply (outcome_final _ _ _ eq_refl Hq); apply wp_zedit_x|].
  destruct (Z.eq_dec c (chr "a")) as [->|Ha];
    [apply (outcome_final _ _ _ eq_refl Hq); apply (wp_zedit_a [chr "a"] [] body_nil eq_refl)|].
  assert (Hnone : edit_of_command [c] (cursor_line z) nlines = None).
  { cbn [edit_of_command]. rewrite (proj2 (Z.eqb_neq _ _) Hx), (proj2 (Z.eqb_neq _ _) Ha). reflexivity. }
  destruct (_ || is_cmd [c] "help"); [auto|].
  destruct (_ && (_ || at_char [c] 1 " ")); [apply (outcome_final _ None); auto using wp_zedit_p|].
  destruct (_ || is_cmd [c] "G"); [apply (outcome_final _ None); auto using wp_zedit_move|].
  change (at_char [c] 1 " ") with false. rewrite !andb_false_r, orb_false_r.
  rewrite (Hone "x"%char). change (Z.of_N (Ascii.N_of_ascii "x")) with (chr "x").
  rewrite (proj2 (Z.eqb_neq _ _) Hx). unfold at_char. change (byte_at [c] 0) with c.
  rewrite (proj2 (Z.eqb_neq _ _) Ha). cbn [andb]. auto.
Qed.

Lemma wp_command_2 c d rest : is_save (c :: d :: rest) = false -> body_ok (c :: d :: rest) ->
  wp (zedit_handle_command g_fb_rows (c :: d :: rest)) (final (c :: d :: rest)) z s.
Proof using Hok.
  intros Hs Hb.
  assert (Hc : line_char c /\ line_char d).
  { destruct Hb as [Hb _]. inversion Hb as [|? ? H1 H2]; subst. inversion H2; subst. auto. }
  pose proof (body_ok_tail _ _ (body_ok_tail _ _ Hb)) as Hrest.
  set (line := c :: d :: rest) in *. unfold zedit_handle_command. fold (is_save line). rewrite Hs.
  assert (Hone : forall x, is_cmd line (String x EmptyString) = false).
  { intros x. unfold is_cmd. cbn. apply andb_false_r. }
  rewrite !Hone. change (byte_at line 0) with c. rewrite (proj2 (Z.eqb_neq c 0)) by (destruct Hc as [[? _] _]; lia).
  cbn [orb].
  destruct (is_cmd line "help") eqn:Eh.
  { unfold is_cmd in Eh. rewrite zss_str_eq_spec in Eh. apply bool_decide_eq_true in Eh.
    apply (outcome_final _ None); [rewrite Eh; reflexivity | rewrite Eh; reflexivity | apply help_outcome; reflexivity]. }
  destruct (is_cmd line "q!") eqn:Eq; [apply wp_zedit_q; rewrite Eq, orb_true_r; reflexivity|].
  assert (Hq : quits line (z_dirty z) = false) by (unfold quits; rewrite Eq, Hone; reflexivity).
  unfold at_char. change (byte_at line 0) with c. change (byte_at line 1) with d.
  rewrite (proj2 (Z.eqb_neq d 0)) by (destruct Hc as [_ [? _]]; lia). cbn [orb]. change (chr " ") with 32.
  subst line. destruct (d =? 32) eqn:Ed; zbool.
  2: { rewrite !andb_false_r. apply (outcome_final _ None); [|exact Hq | apply help_outcome; reflexivity].
       cbn [edit_of_command]. rewrite (proj2 (Z.eqb_neq _ _) Ed). reflexivity. }
  subst d. rewrite !andb_true_r.
  destruct (c =? chr "p") eqn:Ep; zbool.
  { subst c. apply (outcome_final _ None); [reflexivity | exact Hq | apply wp_zedit_p]. }
  destruct (c =? chr "e") eqn:Ee; zbool.
  { subst c. apply (outcome_final _ _ _ eq_refl Hq), wp_zedit_e, Hrest. }
  destruct (c =? chr "n") eqn:En; zbool.
  { subst c. apply (outcome_final _ _ _ eq_refl Hq), wp_zedit_n, Hrest. }
  destruct (c =? chr "a") eqn:Ea; zbool.
  { subst c. apply (outcome_final _ _ _ eq_refl Hq). apply (wp_zedit_a _ rest Hrest). reflexivity. }
  destruct (_ || (c =? chr "d")) eqn:Ei.
  - apply (outcome_final _ _ _ eq_refl Hq), wp_zedit_icd; [exact Hrest|].
    apply orb_true_iff in Ei as [Ei|Ei]; [apply orb_true_iff in Ei as [Ei|Ei]|]; zbool; auto.
  - apply (outcome_final _ None); [|exact Hq | apply help_outcome; reflexivity].
    cbn [edit_of_command]. change (negb (32 =? 32)) with false. cbv iota. rewrite Ei.
    rewrite !(proj2 (Z.eqb_neq _ _)) by assumption. reflexivity.
Qed.

Lemma wp_command line : is_save line = false -> body_ok line ->
  wp (zedit_handle_command g_fb_rows line) (final line) z s.
Proof using Hok.
  destruct line as [|c [|d rest]]; intros Hs Hb.
  - apply (outcome_final _ None); [reflexivity | reflexivity | apply help_outcome; reflexivity].
  - apply wp_command_1; [exact Hs|]. destruct Hb as [Hb _]. inversion Hb; assumption.
  - apply wp_command_2; assumption.
Qed.
End Commands.
