(* ===== verification/EditorStore.v ===== *)
(** * The source editor and the source partition: opening, saving and the command loop *)

From stdpp Require Import gmap.
From S2P Require Import Prelude BlockDev SourceStore SourceStoreLog SourceStoreSpec.
From S2P Require Import Editor EditorSpec EditorRefine EditorCmds.
#[local] Open Scope sm_scope.
#[local] Open Scope Z_scope.

Section Store.
Context {D : Type} `{BlockDevLaws D}.
Context (g_fb_rows g_fb_cols : Z).

(** ** The view is all that drawing changes *)

Lemma render_view e : ed_ok e ->
  exists first count, zedit_render g_fb_rows g_fb_cols e = set_view first count e /\ is_u 32 first /\ is_u 32 count.
Proof.
  intros [K1 _ [K2 K3] _]. destruct (lines_count e K1) as [_ Hl]. unfold ZSS_MAX_FILE in Hl.
  assert (Hid : e = set_view (view_first e) (view_count e) e) by (destruct e; reflexivity).
  unfold zedit_render. destruct (negb (z_active e)); [eauto|]. destruct (_ || _) eqn:E; [eauto|].
  bool_hyps. zbool. eexists _, _. split; [reflexivity|].
  assert (Hr : rows_of g_fb_rows <= 512) by (unfold rows_of, ZEAL_TEXT_MAX_ROWS; case_if; zbool; lia).
  unfold is_u in *. cbn zeta. split; repeat case_if; bool_hyps; zbool; lia.
Qed.

Lemma ed_ok_view e first count : ed_ok e -> is_u 32 first -> is_u 32 count -> ed_ok (set_view first count e).
Proof. intros [[K1 K2 K3] K4 K5 K6] P1 P2. split; auto. split; auto. Qed.

(** What holds of the editor before it is drawn holds after. *)
Lemma wp_drawn (Q : zedit -> zst D -> Prop) z s : ed_ok z ->
  (forall first count, is_u 32 first -> is_u 32 count -> Q (set_view first count z) s) ->
  wp (edits (fun e => if z_active e then zedit_render g_fb_rows g_fb_cols e else e)) (fun _ z' s' => Q z' s') z s.
Proof.
  intros K HQ. wp_step. destruct (render_view z K) as (f & c & E & Hf & Hc).
  destruct (z_active z); [rewrite E; auto|].
  replace z with (set_view (view_first z) (view_count z) z) by (destruct z; reflexivity).
  apply HQ; apply (ek_view _ K).
Qed.

(** Every command line but [w] and [wq]. *)
Lemma wp_handle z s line : ed_ok z -> is_save line = false -> body_ok line ->
  wp (zedit_handle g_fb_rows g_fb_cols line) (final z s line) z s.
Proof.
  intros K Hs Hb. unfold zedit_handle. wp_step. eapply wp_mono; [exact (wp_command g_fb_rows z s K line Hs Hb)|].
  intros [] z' s' (-> & K' & F & A). apply (wp_drawn (fun z' s' => final z s line tt z' s')); [exact K'|].
  intros f c Hf Hc. split; [reflexivity|]. split; [apply ed_ok_view; auto|]. split; [|exact A].
  destruct F as [F1 F2 F3 F4]. split; auto.
Qed.

(** ** Saving *)

(** What [w] and [wq] leave, given the map [m] on the partition. *)
Record saved (z : zedit) (s : zst D) (m : gmap cstring (list Z)) (line : cstring) (z' : zedit) (s' : zst D) : Prop := {
  sv_ok : ed_ok z';
  sv_content : content z' = content z;
  sv_name : z_name z' = z_name z;
  sv_code :
    (* nothing to do *)
    (z_dirty z = false /\ z_existed z = true /\ s' = s /\ z_dirty z' = false /\ z_existed z' = true /\
     z_active z' = z_active z && negb (at_char line 1 "q")) \/
    (* an empty file is not written *)
    ((z_dirty z = true \/ z_existed z = false) /\ content z = [] /\ s' = s /\
     z_dirty z' = z_dirty z /\ z_existed z' = z_existed z /\ z_active z' = z_active z) \/
    (* the file is put *)
    ((z_dirty z = true \/ z_existed z = false) /\ content z <> [] /\
     exists code, update_post m (<[z_name z := content z]> m) (-3) (z_dev s) code (z_dev s') /\
       ((code = 0 /\ z_dirty z' = false /\ z_existed z' = true /\ z_active z' = z_active z && negb (at_char line 1 "q")) \/
        (code <> 0 /\ z_dirty z' = z_dirty z /\ z_existed z' = z_existed z /\ z_active z' = z_active z))) }.

Lemma saved_view z s m line z' s' first count : saved z s m line z' s' -> is_u 32 first -> is_u 32 count ->
  saved z s m line (set_view first count z') s'.
Proof. intros [S1 S2 S3 S4] P1 P2. split; auto. apply ed_ok_view; auto. Qed.

Lemma ed_ok_flags e a d x : ed_ok e -> ed_ok (set_active a (set_dirty d (set_existed x e))).
Proof. intros [[K1 K2 K3] K4 K5 K6]. split; auto. split; auto. Qed.

(** [zedit_save], by its three cases. *)
Lemma wp_zedit_save z s m :
  ed_ok z -> dev_wf (z_dev s) -> online (z_dev s) -> synced (z_dev s) ->
  represents (view (z_dev s)) (full_capacity (z_dev s)) m ->
  wp zedit_save (fun bad z' s' =>
    (z_dirty z = false /\ z_existed z = true /\ s' = s /\ z' = z /\ bad = 0) \/
    ((z_dirty z = true \/ z_existed z = false) /\ content z = [] /\ s' = s /\ z' = z /\ bad <> 0) \/
    ((z_dirty z = true \/ z_existed z = false) /\ content z <> [] /\
     exists code, update_post m (<[z_name z := content z]> m) (-3) (z_dev s) code (z_dev s') /\
       ((code = 0 /\ z' = set_existed true (set_dirty false z) /\ bad = 0) \/ (code <> 0 /\ z' = z /\ bad <> 0)))) z s.
Proof.
  intros K W O Sy R. unfold zedit_save. do 2 wp_step. unfold id.
  destruct (negb (z_dirty z) && z_existed z) eqn:E1.
  { bool_hyps. do 3 wp_step. left. auto. }
  assert (Hd : z_dirty z = true \/ z_existed z = false).
  { apply andb_false_iff in E1 as [E1|E1]; [left; apply negb_false_iff, E1 | right; exact E1]. }
  pose proof (ek_buf _ K) as [Hlen _ Hch].
  destruct (z_length z =? 0) eqn:E2; zbool.
  { do 3 wp_step. right. left. split; [exact Hd|]. split; [unfold content; rewrite E2; reflexivity|]. auto with lia. }
  destruct (ek_name _ K) as [k Hk].
  assert (Hc : Z.of_nat (length (content z)) = z_length z) by (rewrite length_content; lia).
  destruct (put_spec (z_name z) (content z) k s m W O Sy R Hk ltac:(lia)) as (code & s' & Ep & Up).
  { eapply Forall_impl; [|exact Hch]. intros c Hx. unfold text_char, is_u in *. lia. }
  assert (Hne : content z <> []) by (intros Hn; rewrite Hn in Hc; cbn in Hc; lia).
  wp_step. eapply wp_store_op; [exact Ep|].
  destruct (code =? 0) eqn:E3; zbool; cbn [negb].
  - do 9 wp_step. right. right. split; [exact Hd|]. split; [exact Hne|]. exists code. split; [exact Up|]. left. auto.
  - do 3 wp_step. right. right. split; [exact Hd|]. split; [exact Hne|]. exists code. split; [exact Up|]. right. auto with lia.
Qed.

Lemma wp_handle_save z s m line :
  ed_ok z -> dev_wf (z_dev s) -> online (z_dev s) -> synced (z_dev s) ->
  represents (view (z_dev s)) (full_capacity (z_dev s)) m -> is_save line = true ->
  wp (zedit_handle g_fb_rows g_fb_cols line) (fun _ z' s' => saved z s m line z' s') z s.
Proof.
  intros K W O Sy R Hs. unfold zedit_handle. wp_step.
  assert (Ew : zedit_handle_command (D := D) g_fb_rows line = zedit_w line).
  { unfold is_save, is_cmd in Hs. rewrite !zss_str_eq_spec in Hs.
    apply orb_true_iff in Hs as [Hs|Hs]; apply bool_decide_eq_true in Hs; subst line; reflexivity. }
  rewrite Ew. unfold zedit_w. wp_step.
  eapply wp_mono; [exact (wp_zedit_save z s m K W O Sy R)|]. intros bad z' s' Hc. cbn beta.
  set (z2 := if (bad =? 0) && at_char line 1 "q" then set_active false z' else z').
  assert (Hz2 : saved z s m line z2 s').
  { assert (Hz' : exists a d x, z2 = set_active a (set_dirty d (set_existed x z))).
    { exists (z_active z2), (z_dirty z2), (z_existed z2). subst z2. destruct Hc as [(_ & _ & _ & -> & _)|[(_ & _ & _ & -> & _)|(_ & _ & code & _ & [(_ & -> & _)|(_ & -> & _)])]];
        destruct (_ && _); destruct z; reflexivity. }
    destruct Hz' as (a & d & x & Ez2). split; [rewrite Ez2; apply ed_ok_flags, K | rewrite Ez2; reflexivity | rewrite Ez2; reflexivity |].
    clear Ez2. subst z2.
    destruct Hc as [(P1 & P2 & -> & -> & ->)|[(P1 & P2 & -> & -> & Hb)|(P1 & P2 & code & Up & [(-> & -> & ->)|(P3 & -> & Hb)])]].
    - left. destruct (at_char line 1 "q"); cbn; rewrite ?andb_true_r, ?andb_false_r; auto 9.
    - right. left. rewrite (proj2 (Z.eqb_neq _ _) Hb). cbn. auto 9.
    - right. right. split; [exact P1|]. split; [exact P2|]. exists 0. split; [exact Up|]. left.
      destruct (at_char line 1 "q"); cbn; rewrite ?andb_true_r, ?andb_false_r; auto 9.
    - right. right. split; [exact P1|]. split; [exact P2|]. exists code. split; [exact Up|]. right.
      rewrite (proj2 (Z.eqb_neq _ _) Hb). cbn. auto 9. }
  assert (Hwp : wp (edits (fun e => if z_active e then zedit_render g_fb_rows g_fb_cols e else e))
                  (fun _ z' s' => saved z s m line z' s') z2 s').
  { apply (wp_drawn (saved z s m line)); [apply Hz2|]. intros. apply saved_view; auto. }
  subst z2. destruct (_ && _); wp_step; exact Hwp.
Qed.

(** ** Opening *)

Lemma load_text_spec data t : data <> [] ->
  text_of (load_text data t) (Z.of_nat (length data)) = data /\ load_text data t (Z.of_nat (length data)) = 0.
Proof.
  intros Hd. unfold load_text. destruct data as [|c data]; [congruence|]. split; [|apply poke_eq].
  apply text_of_list. intros i Hi. rewrite poke_ne by lia. rewrite copy_body_spec. bdec. f_equal. lia.
Qed.

(** A freshly opened editor. *)
Record opened (name : cstring) (data : list Z) (existed : bool) (z' : zedit) : Prop := {
  op_ok : ed_ok z';
  op_name : z_name z' = name;
  op_content : content z' = data;
  op_flags : z_active z' = true /\ z_dirty z' = false /\ z_existed z' = existed }.

Lemma zedit_opened_spec name k found len z0 data : zss_name_ok name = Some k ->
  (found = 1 /\ 0 < len <= ZSS_MAX_FILE /\ text_of (z_text z0) len = data /\ z_text z0 len = 0 /\ Forall text_char data) \/
  (found <> 1 /\ data = []) ->
  opened name data (found =? 1) (zedit_opened name found len z0).
Proof.
  intros Hk Hc. unfold zedit_opened. destruct Hc as [(-> & Hl & Ht & Hn & Hch)|[Hf ->]].
  - change (1 =? 1) with true. cbv iota. split; try reflexivity; [|exact Ht | auto].
    split; [split; cbn; auto | cbn; lia | cbn; unfold is_u; lia | eauto].
    + lia.
    + unfold content. cbn. rewrite Ht. exact Hch.
  - rewrite (proj2 (Z.eqb_neq _ _) Hf). split; try reflexivity; [|auto].
    split; [split; cbn; auto using poke_eq | cbn; lia | cbn; unfold is_u; lia | eauto].
    + unfold ZSS_MAX_FILE. lia.
Qed.

Lemma opened_view name data ex z' : opened name data ex z' -> opened name data ex (zedit_render g_fb_rows g_fb_cols z').
Proof.
  intros [O1 O2 O3 O4]. destruct (render_view z' O1) as (f & c & -> & Hf & Hc).
  split; auto. apply ed_ok_view; auto.
Qed.

Definition started (name : cstring) (m : gmap cstring (list Z)) (z : zedit) (s : zst D) (z' : zedit) (s' : zst D) : Prop :=
  evolves nowhere (z_dev s) (z_dev s') /\
  (opened name (default [] (m !! name)) (bool_decide (is_Some (m !! name))) z' \/
   (z_active z' = z_active z /\ (alive (z_dev s') = false \/ exists data, m !! name = Some data /\ In 0 data))).

Lemma existsb_zero l : existsb (fun b => b =? 0) l = true <-> In 0 l.
Proof.
  rewrite existsb_exists. split; [intros (x & Hx & E); zbool; subst x; exact Hx | intros Hx; exists 0; auto].
Qed.

(** The end of [zedit_start], once the text is in the buffer. *)
Lemma wp_start_tail name found len (Q : unit -> zedit -> zst D -> Prop) z s :
  Q tt (zedit_render g_fb_rows g_fb_cols (zedit_opened name found len z)) s ->
  wp (edits (zedit_opened name found len) ;;
      con_puts (if found =? 1 then "zedit: opened "%string else "zedit: new "%string) ;;
      con (Puts_bytes name) ;; con_puts " lines="%string ;;
      let! lines := editor zedit_lines in zc_print_decimal lines ;;
      let! n := editor z_length in say_dec " bytes="%string n ;;
      zedit_help ;; edits (zedit_render g_fb_rows g_fb_cols)) Q z s.
Proof. intros HQ. repeat wp_step. exact HQ. Qed.

Lemma wp_zedit_start z s m name k :
  dev_wf (z_dev s) -> online (z_dev s) ->
  represents (view (z_dev s)) (full_capacity (z_dev s)) m -> zss_name_ok name = Some k ->
  wp (zedit_start g_fb_rows g_fb_cols name) (fun _ z' s' => started name m z s z' s') z s.
Proof.
  intros W O R Hk. unfold zedit_start. rewrite bool_decide_true by eauto. cbn [negb].
  destruct (lookup_answers name k s m W O R Hk) as (f & s1 & Ef & V1 & Hf).
  wp_step. eapply wp_store_op; [exact Ef|]. cbn beta zeta.
  destruct Hf as [[Hc La]|Hf].
  { assert (Ho : started name m z s z s1) by (split; [exact V1 | right; auto]).
    destruct Hc as [-> | ->]; [change (-1 =? -2) with false; change (-1 =? -1) with true | change (-2 =? -2) with true];
      cbv iota; wp_step; exact Ho. }
  unfold zedit_load. destruct (m !! name) as [data|] eqn:Em.
  - destruct Hf as (Hc & Hby & Hlen & e & He & Hel & Hread). rewrite Hc, He.
    change (1 =? -2) with false. change (1 =? -1) with false. change (1 =? 1) with true. cbv iota.
    destruct (Hread (ZSS_MAX_FILE + 1) ltac:(lia)) as (out & s2 & Er & V2 & Ho).
    do 2 wp_step. eapply wp_store_op; [exact Er|]. do 5 wp_step. cbn [andb].
    destruct Ho as [->|[-> La]].
    2: { cbn. wp_step. split; [exact V2|]. right. auto. }
    cbn [fst snd]. change (negb (0 =? 0)) with false. cbv iota. rewrite Hel.
    destruct (load_text_spec data (z_text z)) as [L1 L2]; [intros ->; cbn in Hlen; lia|].
    change (z_text (set_text (load_text data (z_text z)) z)) with (load_text data (z_text z)). rewrite L1.
    destruct (existsb _ data) eqn:Ez.
    + wp_step. split; [exact V2|]. right. split; [reflexivity|]. right. exists data. rewrite <- existsb_zero. auto.
    + apply wp_start_tail. split; [exact V2|]. left. apply opened_view. rewrite Em. change (default [] (Some data)) with data.
      apply (zedit_opened_spec name k 1); [exact Hk|]. left. split; [reflexivity|]. split; [exact Hlen|].
      split; [exact L1|]. split; [exact L2|]. rewrite List.Forall_forall. intros c Hc0.
      unfold bytes_ok in Hby. rewrite List.Forall_forall in Hby. specialize (Hby c Hc0). unfold is_u, text_char in *.
      destruct (Z.eq_dec c 0) as [->|]; [|lia]. apply existsb_zero in Hc0. rewrite Hc0 in Ez. discriminate Ez.
  - assert (Hn : fr_code f <> 1 /\ fr_code f <> -2 /\ fr_code f <> -1) by (destruct Hf as [-> | ->]; lia).
    destruct Hn as (N1 & N2 & N3). rewrite (proj2 (Z.eqb_neq _ _) N1), (proj2 (Z.eqb_neq _ _) N2), (proj2 (Z.eqb_neq _ _) N3).
    wp_step. replace (match fr_entry f with Some _ => _ | None => _ end) with (ret (S := ed (D := D)) (0, 0)) by (destruct (fr_entry f); reflexivity).
    wp_step. cbv iota. do 2 wp_step. cbn [andb].
    pose proof (wp_start_tail name (fr_code f) 0 (fun _ z' s' => started name m z s z' s') z s1) as Wt.
    rewrite (proj2 (Z.eqb_neq _ _) N1) in Wt. apply Wt. split; [exact V1|]. left. apply opened_view. rewrite Em. change (default [] None) with (@nil Z).
    pose proof (zedit_opened_spec name k (fr_code f) 0 z [] Hk (or_intror (conj N1 eq_refl))) as Hop.
    rewrite (proj2 (Z.eqb_neq _ _) N1) in Hop. exact Hop.
Qed.

(** ** Sessions *)

(** The editor and the partition agree: a clean file that exists is what the partition holds. *)
Record session (m : gmap cstring (list Z)) (z : zedit) (s : zst D) : Prop := {
  ss_ok : ed_ok z;
  ss_wf : dev_wf (z_dev s);
  ss_online : online (z_dev s);
  ss_synced : synced (z_dev s);
  ss_store : represents (view (z_dev s)) (full_capacity (z_dev s)) m;
  ss_clean : z_dirty z = false -> z_existed z = true -> m !! z_name z = Some (content z) }.

(** The states a session can be in while the device answers: a file is opened from a sound
    partition, then command lines follow for as long as the editor is active. *)
Inductive reachable : ed (D := D) -> Prop :=
| reach_open m name z s out st :
    dev_wf (z_dev s) -> online (z_dev s) -> synced (z_dev s) ->
    represents (view (z_dev s)) (full_capacity (z_dev s)) m -> z_active z = false ->
    zedit_start g_fb_rows g_fb_cols name (mk_ed z s out) = Some (tt, st) ->
    z_active (ed_z st) = true -> alive (z_dev (ed_s st)) = true -> reachable st
| reach_line st line st' :
    reachable st -> z_active (ed_z st) = true -> body_ok line ->
    zedit_handle g_fb_rows g_fb_cols line st = Some (tt, st') ->
    alive (z_dev (ed_s st')) = true -> reachable st'.

Lemma synced_evolves d d' : evolves nowhere d d' -> synced d -> synced d'.
Proof.
  intros Ev Sy v Hv. destruct (ev_crash _ _ _ Ev v Hv) as (v0 & Hv0 & G).
  intros i. rewrite G by intros []. rewrite (Sy v0 Hv0). symmetry. apply (evolves_view _ _ Ev).
Qed.

Lemma session_open m name k z s out st :
  dev_wf (z_dev s) -> online (z_dev s) -> synced (z_dev s) ->
  represents (view (z_dev s)) (full_capacity (z_dev s)) m -> z_active z = false -> zss_name_ok name = Some k ->
  zedit_start g_fb_rows g_fb_cols name (mk_ed z s out) = Some (tt, st) ->
  z_active (ed_z st) = true -> session m (ed_z st) (ed_s st).
Proof.
  intros W O Sy R Ha Hk E A. destruct (wp_zedit_start z s m name k W O R Hk out) as ([] & z' & s' & out' & E' & Ev & Ho).
  rewrite E in E'. injection E' as ->. cbn [ed_z ed_s] in *.
  destruct Ho as [[O1 O2 O3 (O4 & O5 & O6)]|[Ha' _]]; [|congruence].
  pose proof (ev_attrs _ _ _ Ev) as At.
  split; [exact O1 | apply Ev | eapply online_attrs; eauto | eapply synced_evolves; eauto | |].
  - rewrite (capacity_attrs _ _ At). eapply represents_eq; [apply evolves_view, Ev | exact R].
  - intros _ Hx. rewrite O6 in Hx. apply bool_decide_eq_true in Hx as [data Hd]. rewrite O2, O3, Hd. reflexivity.
Qed.

Lemma session_line m z s line z' s' out out' :
  session m z s -> body_ok line ->
  zedit_handle g_fb_rows g_fb_cols line (mk_ed z s out) = Some (tt, mk_ed z' s' out') -> alive (z_dev s') = true ->
  exists m', session m' z' s'.
Proof.
  intros [K W O Sy R C] Hb E A. destruct (is_save line) eqn:Es.
  - destruct (wp_handle_save z s m line K W O Sy R Es out) as ([] & z2 & s2 & out2 & E2 & [V1 V2 V3 V4]).
    rewrite E in E2. injection E2 as <- <- <-.
    destruct V4 as [(B1 & B2 & -> & B3 & B4 & _)|[(B1 & B2 & -> & B3 & B4 & _)|(B1 & B2 & code & Up & Hc)]].
    + exists m. split; auto. rewrite V2, V3. auto.
    + exists m. split; auto. rewrite B3, B4. intros. destruct B1; congruence.
    + pose proof (up_attrs _ _ _ _ _ _ Up) as At. pose proof (capacity_attrs _ _ At) as Cap.
      assert (O' : online (z_dev s')) by (eapply online_attrs; eauto).
      destruct (Z.eq_dec code 0) as [->|Hne].
      * destruct (up_ok _ _ _ _ _ _ Up eq_refl) as [R' Sy']. exists (<[z_name z := content z]> m).
        split; auto; [apply Up | rewrite Cap; exact R' |]. intros _ _. rewrite V2, V3. apply lookup_insert_eq.
      * destruct (up_live _ _ _ _ _ _ Up A) as [|(_ & R' & Sy')]; [congruence|].
        destruct Hc as [[? _]|(_ & B3 & B4 & _)]; [congruence|]. exists m.
        split; auto; [apply Up | rewrite Cap; exact R' |]. rewrite B3, B4. intros. destruct B1; congruence.
  - destruct (wp_handle z s line K Es Hb out) as ([] & z2 & s2 & out2 & E2 & -> & K' & [F1 F2 F3 F4] & _).
    rewrite E in E2. injection E2 as <- <- <-. exists m. split; auto.
    rewrite F1, F2. destruct (_ ≫= _); [intros; destruct F4 as (_ & _ & ?); congruence|].
    destruct F4 as [-> ->]. exact C.
Qed.

Lemma reachable_session st : reachable st -> exists m, session m (ed_z st) (ed_s st).
Proof.
  induction 1 as [m name z s out st W O Sy R Ha E A _|st line st' _ [m IH] _ Hb E A].
  - destruct (zss_name_ok name) as [k|] eqn:Hk; [exists m; eapply session_open; eassumption|].
    exfalso. unfold zedit_start in E. rewrite Hk, bool_decide_false in E by (intros [? [=]]).
    injection E as <-. cbn in A. congruence.
  - destruct st as [z s out], st' as [z' s' out']. cbn [ed_z ed_s] in *. eapply session_line; eassumption.
Qed.
End Store.
