(* ===== verification/EditorThms.v ===== *)
(** * The source editor: the full-screen view, and the theorems *)

From stdpp Require Import gmap.
From S2P Require Import Prelude BlockDev SourceStore Editor EditorSpec EditorRefine EditorCmds.

(** The bytes before the first line end. *)
Fixpoint until_nl (l : list Z) : list Z :=
  match l with c :: l' => if c =? NL then [] else c :: until_nl l' | [] => [] end.

Lemma put_upto_spec cols s : forall line, Z.of_nat (length line) <= cols ->
  put_upto cols s line = line ++ take (Z.to_nat cols - length line) s.
Proof.
  induction s as [|c s IH]; intros line Hl; cbn [put_upto].
  - rewrite take_nil, app_nil_r. reflexivity.
  - destruct (_ <? cols) eqn:E; zbool.
    + rewrite IH by (rewrite length_app; cbn [length]; lia). rewrite <- app_assoc. cbn [app]. rewrite length_app.
      replace (Z.to_nat cols - length line)%nat with (S (Z.to_nat cols - (length line + length [c])))%nat by (cbn [length]; lia).
      reflexivity.
    + replace (Z.to_nat cols - length line)%nat with 0%nat by lia. rewrite take_0, app_nil_r. reflexivity.
Qed.

Lemma length_put_upto cols s line : Z.of_nat (length line) <= cols -> Z.of_nat (length (put_upto cols s line)) <= cols.
Proof. intros H. rewrite put_upto_spec, length_app, length_take by exact H. lia. Qed.

(** The digits read back as the number. *)
Lemma line_digits_value n : forall v, 0 <= v < 10 ^ Z.of_nat n -> dec_from 0 (rev (line_digits n v)) = v.
Proof.
  induction n as [|n IH]; intros v Hv; [cbn in *; lia|]. cbn [line_digits rev].
  unfold dec_from in *. rewrite fold_left_app. cbn [fold_left].
  assert (H0 : 0 <= v / 10 < 10 ^ Z.of_nat n).
  { rewrite Nat2Z.inj_succ, Z.pow_succ_r in Hv by lia.
    split; [apply Z.div_pos; lia | apply Z.div_lt_upper_bound; lia]. }
  pose proof (Z.div_mod v 10 ltac:(lia)).
  destruct (v / 10 =? 0) eqn:E; zbool; [cbn; lia|]. rewrite IH by exact H0. lia.
Qed.

Lemma length_dots room line : length (dots room line) = length line.
Proof.
  unfold dots. destruct (_ && _) eqn:E; [|reflexivity]. bool_hyps. zbool.
  rewrite length_app, length_take. cbn [length]. lia.
Qed.

Lemma copy_line_spec e room end_ : end_ <= z_length e -> forall n copied i line,
  0 <= i -> n = Z.to_nat (end_ - i) -> 0 <= copied <= room ->
  let body := until_nl (take n (drop (Z.to_nat i) (content e))) in
  copy_line n e room copied i end_ line =
  if Z.of_nat (length body) <=? room - copied then line ++ body
  else dots room (line ++ take (Z.to_nat (room - copied)) body).
Proof.
  intros He. induction n as [|n IH]; intros copied i line Hi Hn Hc; cbn zeta; cbn [copy_line].
  - rewrite take_0. cbn [until_nl length]. bdec. rewrite app_nil_r. reflexivity.
  - assert (Hlt : i < end_) by lia. rewrite content_step by lia. cbn [take until_nl].
    rewrite (proj2 (Z.ltb_lt _ _) Hlt). cbn [andb]. destruct (z_text e i =? NL); cbn [negb].
    + cbn [length]. bdec. rewrite app_nil_r. reflexivity.
    + specialize (IH (copied + 1) (i + 1) (line ++ [z_text e i]) ltac:(lia) ltac:(lia)).
      destruct (copied =? room) eqn:E; zbool.
      * cbn [length]. rewrite E, Z.sub_diag. bdec. change (Z.to_nat 0) with 0%nat. rewrite take_0, app_nil_r. reflexivity.
      * cbn zeta in IH. rewrite IH by lia. clear IH. cbn [length].
        replace (Z.to_nat (room - copied)) with (S (Z.to_nat (room - (copied + 1)))) by lia. cbn [take].
        rewrite <- !app_assoc. cbn [app].
        destruct (_ <=? room - (copied + 1)) eqn:F; zbool; bdec; reflexivity.
Qed.

Section Overlay.
Context (g_fb_cols : Z).
Hypothesis Hcols : 0 < g_fb_cols.

Lemma cols_range : 0 < cols_of g_fb_cols <= ZEAL_TEXT_MAX_COLS.
Proof using Hcols. unfold cols_of, ZEAL_TEXT_MAX_COLS. case_if; zbool; lia. Qed.

(** A row: the line number, the marker of the cursor line and as much of the line as fits, with
    three dots at its end when it does not. *)
Lemma overlay_line_spec e number start end_ : 0 <= start <= end_ -> end_ <= z_length e ->
  let cols := cols_of g_fb_cols in
  let head := take (Z.to_nat cols) (rev (line_digits 10 number) ++
                bytes_of_string (if number =? cursor_line e then ":> "%string else ":  "%string)) in
  let body := until_nl (take (Z.to_nat (end_ - start)) (drop (Z.to_nat start) (content e))) in
  overlay_line g_fb_cols e number start end_ =
  if Z.of_nat (length (head ++ body)) <=? cols then head ++ body
  else dots (cols - Z.of_nat (length head)) (take (Z.to_nat cols) (head ++ body)).
Proof using Hcols.
  intros Hs He. pose proof cols_range as Hc. cbn zeta. unfold overlay_line. cbn zeta.
  set (cols := cols_of g_fb_cols) in *. set (ds := rev (line_digits 10 number)).
  set (mk := bytes_of_string (if number =? cursor_line e then ":> "%string else ":  "%string)).
  assert (E1 : put_upto cols mk (put_upto cols ds []) = take (Z.to_nat cols) (ds ++ mk)).
  { rewrite (put_upto_spec cols ds []) by (cbn; lia). cbn [app length]. rewrite Nat.sub_0_r.
    rewrite put_upto_spec by (rewrite length_take; lia). rewrite take_app, length_take. do 2 f_equal. lia. }
  rewrite E1. set (head := take (Z.to_nat cols) (ds ++ mk)).
  assert (Hh : Z.of_nat (length head) <= cols) by (subst head; rewrite length_take; lia).
  replace (if Z.of_nat (length head) <? cols then cols - Z.of_nat (length head) else 0) with (cols - Z.of_nat (length head))
    by (case_if; zbool; lia).
  rewrite copy_line_spec by lia. rewrite Z.sub_0_r, length_app.
  set (body := until_nl _).
  destruct (_ <=? cols - _) eqn:F; zbool; bdec; [reflexivity|].
  f_equal. rewrite take_app. rewrite (take_ge head) by lia. do 2 f_equal. lia.
Qed.

Lemma overlay_line_fits e number start end_ : 0 <= start <= end_ -> end_ <= z_length e ->
  Z.of_nat (length (overlay_line g_fb_cols e number start end_)) <= cols_of g_fb_cols.
Proof using Hcols.
  intros Hs He. rewrite overlay_line_spec by assumption. cbn zeta. pose proof cols_range.
  destruct (_ <=? cols_of _) eqn:F; zbool; [exact F|]. rewrite length_dots, length_take. lia.
Qed.

Lemma overlay_title_fits e : Z.of_nat (length (overlay_title g_fb_cols e)) <= cols_of g_fb_cols.
Proof using Hcols. pose proof cols_range. unfold overlay_title. repeat apply length_put_upto. cbn. lia. Qed.
End Overlay.

From S2P Require Import SourceStoreLog SourceStoreSpec SourceStoreThms.
From S2P Require Import EditorStore.
#[local] Open Scope Z_scope.

(** ** A sample editor *)

Definition demo_text : list Z := bytes_of_string "I64 F();"%string ++ [NL] ++ bytes_of_string "F;"%string.
Definition demo_buffer : Z -> Z := fun i => byte_at demo_text i.
Definition demo_zedit : zedit := mk_zedit demo_name (Z.of_nat (length demo_text)) 1 0 1 true true true demo_buffer.
Definition demo_line : cstring := bytes_of_string "i 2 G;"%string.
Definition closed_zedit : zedit := mk_zedit [] 0 0 0 0 false false false (fun _ => 0).

Lemma demo_zedit_ok : ed_ok demo_zedit.
Proof.
  split; [split | | |].
  - unfold ZSS_MAX_FILE. cbn. lia.
  - reflexivity.
  - vm_compute content. unfold text_char. repeat constructor.
  - vm_compute. split; discriminate.
  - unfold is_u. cbn. lia.
  - eexists. reflexivity.
Qed.

Lemma demo_line_ok : body_ok demo_line.
Proof. split; [repeat constructor; discriminate | reflexivity]. Qed.

(** ** Commands *)

(** C28: every command line but [w] and [wq] returns, leaves the source partition alone, and does
    to the text exactly the edit of the list of lines it names ([e] replaces the cursor's line,
    [n] and [i] insert, [a] appends, [c] replaces, [x] and [d] delete; an edit outside the file
    or past 4 MiB, and every other command, changes nothing); the editor's invariant is kept,
    no byte outside the text array is written, and the editor closes exactly on [q!] and on [q]
    with nothing unsaved. *)
Theorem zedit_handle_edits {D} `{BlockDev D} (g_fb_rows g_fb_cols : Z) (z : zedit) (s : zst D) (out : list out_piece)
    (line : cstring) :
  ed_ok z -> is_save line = false -> body_ok line ->
  exists z' out', zedit_handle g_fb_rows g_fb_cols line (mk_ed z s out) = Some (tt, mk_ed z' s out') /\ ed_ok z' /\
    effect z (edit_of_command line (cursor_line z) (Z.of_nat (length (lines_of (content z))))) z' /\
    z_active z' = z_active z && negb (quits line (z_dirty z)).
Proof.
  intros K Hs Hb. destruct (wp_handle g_fb_rows g_fb_cols z s line K Hs Hb out) as ([] & z' & s' & out' & E & -> & P).
  exists z', out'. split; [exact E | exact P].
Qed.

Lemma zedit_handle_edits_witness :
  exists z' out', zedit_handle 40 80 demo_line (mk_ed demo_zedit (demo_state 9) []) = Some (tt, mk_ed z' (demo_state 9) out') /\
    ed_ok z' /\ effect demo_zedit (edit_of_command demo_line 1 2) z' /\
    z_active z' = true && negb (quits demo_line true).
Proof. apply (zedit_handle_edits 40 80 demo_zedit (demo_state 9) [] demo_line demo_zedit_ok eq_refl demo_line_ok). Defined.

(** What that command makes of the two lines. *)
Example demo_edit : edit_of_command demo_line 1 2 = Some (Insert 2 (bytes_of_string "G;"%string)).
Proof. reflexivity. Qed.

(** C29: in every state a session can reach while the device answers, the invariant of the
    editor holds, the partition is sound and everything acknowledged is on the medium, and a file
    that is not marked as modified is, byte for byte, the file of that name on the partition. *)
Theorem zedit_session_invariant {D} `{BlockDevLaws D} (g_fb_rows g_fb_cols : Z) (st : ed) :
  reachable g_fb_rows g_fb_cols st -> exists m, session m (ed_z st) (ed_s st).
Proof. apply reachable_session. Qed.

Definition demo_session : ed :=
  match zedit_start 40 80 demo_name (mk_ed closed_zedit (file_state 20) []) with
  | Some (_, st) => st
  | None => mk_ed closed_zedit (file_state 20) []
  end.

Lemma zedit_session_invariant_witness :
  reachable 40 80 demo_session /\ exists m, session m (ed_z demo_session) (ed_s demo_session).
Proof.
  assert (R : reachable 40 80 demo_session).
  { apply (reach_open 40 80 {[ demo_name := demo_data ]} demo_name closed_zedit (file_state 20) [] demo_session).
    - apply file_wf.
    - split; reflexivity.
    - apply file_synced.
    - apply file_represents.
    - reflexivity.
    - vm_compute. reflexivity.
    - vm_compute. reflexivity.
    - vm_compute. reflexivity. }
  split; [exact R | exact (zedit_session_invariant 40 80 demo_session R)].
Defined.

(** ** Saving and opening *)

(** [w] and [wq] put the text of the editor on the partition under its name, atomically: an
    unmodified file is not written again, an empty one never; otherwise the put runs, and exactly
    when its code is 0 the editor is marked clean, and [wq] closes it; when it fails the text is
    kept, the editor stays open and is as dirty as it was. *)
Theorem zedit_save_atomic {D} `{BlockDevLaws D} (g_fb_rows g_fb_cols : Z) (z : zedit) (s : zst D) (out : list out_piece)
    (m : gmap cstring (list Z)) (line : cstring) :
  ed_ok z -> dev_wf (z_dev s) -> online (z_dev s) -> synced (z_dev s) ->
  represents (view (z_dev s)) (full_capacity (z_dev s)) m -> is_save line = true ->
  exists z' s' out', zedit_handle g_fb_rows g_fb_cols line (mk_ed z s out) = Some (tt, mk_ed z' s' out') /\
    saved z s m line z' s'.
Proof.
  intros K W O Sy R Hs.
  destruct (wp_handle_save g_fb_rows g_fb_cols z s m line K W O Sy R Hs out) as ([] & z' & s' & out' & E & P).
  exists z', s', out'. split; [exact E | exact P].
Qed.

Definition wq : cstring := bytes_of_string "wq"%string.

Lemma zedit_save_atomic_witness :
  exists z' s' out', zedit_handle 40 80 wq (mk_ed demo_zedit (demo_state 40) []) = Some (tt, mk_ed z' s' out') /\
    saved demo_zedit (demo_state 40) ∅ wq z' s'.
Proof.
  apply (zedit_save_atomic 40 80 demo_zedit (demo_state 40) [] ∅ wq).
  - apply demo_zedit_ok.
  - apply demo_wf.
  - split; reflexivity.
  - apply demo_synced.
  - apply demo_represents.
  - reflexivity.
Defined.

(** Opening a file returns on every device and writes nothing; it gives an editor whose text
    is the file of that name (no text, for a new name) and is clean, or leaves the editor
    closed, which happens only on a failing device or for a file with a NUL byte. *)
Theorem zedit_start_opens {D} `{BlockDevLaws D} (g_fb_rows g_fb_cols : Z) (z : zedit) (s : zst D) (out : list out_piece)
    (m : gmap cstring (list Z)) (name : cstring) (k : Z) :
  dev_wf (z_dev s) -> online (z_dev s) ->
  represents (view (z_dev s)) (full_capacity (z_dev s)) m -> zss_name_ok name = Some k ->
  exists z' s' out', zedit_start g_fb_rows g_fb_cols name (mk_ed z s out) = Some (tt, mk_ed z' s' out') /\
    view (z_dev s') ==i view (z_dev s) /\
    (opened name (default [] (m !! name)) (bool_decide (is_Some (m !! name))) z' \/
     (z_active z' = z_active z /\ (alive (z_dev s') = false \/ exists data, m !! name = Some data /\ In 0 data))).
Proof.
  intros W O R Hk. destruct (wp_zedit_start g_fb_rows g_fb_cols z s m name k W O R Hk out) as ([] & z' & s' & out' & E & V & P).
  exists z', s', out'. split; [exact E|]. split; [apply evolves_view, V | exact P].
Qed.

Lemma zedit_start_opens_witness :
  exists z' s' out', zedit_start 40 80 demo_name (mk_ed closed_zedit (file_state 20) []) = Some (tt, mk_ed z' s' out') /\
    view (z_dev s') ==i view (file_disk 20) /\
    (opened demo_name (default [] ((({[ demo_name := demo_data ]} : gmap (list Z) (list Z)) !! demo_name)))
       (bool_decide (is_Some (({[ demo_name := demo_data ]} : gmap (list Z) (list Z)) !! demo_name))) z' \/
     (z_active z' = z_active closed_zedit /\ (alive (z_dev s') = false \/
        exists data, ({[ demo_name := demo_data ]} : gmap (list Z) (list Z)) !! demo_name = Some data /\ In 0 data))).
Proof.
  apply (zedit_start_opens 40 80 closed_zedit (file_state 20) [] {[ demo_name := demo_data ]} demo_name 4).
  - apply file_wf.
  - split; reflexivity.
  - apply file_represents.
  - reflexivity.
Defined.

(** A file saved with [w] from a modified editor and opened again is the text that was
    saved, provided the device answered. *)
Theorem zedit_save_open {D} `{BlockDevLaws D} (g_fb_rows g_fb_cols : Z) (z : zedit) (s : zst D) (out out2 : list out_piece)
    (m : gmap cstring (list Z)) (line : cstring) z1 s1 out1 z0 :
  ed_ok z -> dev_wf (z_dev s) -> online (z_dev s) -> synced (z_dev s) ->
  represents (view (z_dev s)) (full_capacity (z_dev s)) m -> is_save line = true -> z_dirty z = true ->
  zedit_handle g_fb_rows g_fb_cols line (mk_ed z s out) = Some (tt, mk_ed z1 s1 out1) -> z_dirty z1 = false ->
  exists z2 s2 out3, zedit_start g_fb_rows g_fb_cols (z_name z) (mk_ed z0 s1 out2) = Some (tt, mk_ed z2 s2 out3) /\
    (alive (z_dev s2) = true -> opened (z_name z) (content z) true z2).
Proof.
  intros K W O Sy R Hs Hd E Hc.
  destruct (wp_handle_save g_fb_rows g_fb_cols z s m line K W O Sy R Hs out) as ([] & z' & s' & out' & E' & [V1 V2 V3 V4]).
  rewrite E in E'. injection E' as <- <- <-.
  destruct V4 as [(? & _)|[(_ & _ & _ & B1 & _)|(_ & _ & code & Up & [(-> & _)|(_ & B1 & _)])]]; try congruence.
  destruct (up_ok _ _ _ _ _ _ Up eq_refl) as [R1 _]. pose proof (up_attrs _ _ _ _ _ _ Up) as At.
  destruct (ek_name _ K) as [k Hk]. rewrite <- (capacity_attrs _ _ At) in R1.
  destruct (wp_zedit_start g_fb_rows g_fb_cols z0 s1 _ (z_name z) k (up_wf _ _ _ _ _ _ Up) (online_attrs _ _ At O) R1 Hk out2)
    as ([] & z2 & s2 & out3 & E2 & _ & Ho).
  exists z2, s2, out3. split; [exact E2|]. intros La. rewrite lookup_insert_eq in Ho.
  destruct Ho as [Ho|(_ & [La'|(data & [= <-] & Hin)])]; [exact Ho | congruence|].
  pose proof (bo_chars _ (ek_buf _ K)) as Hch. rewrite List.Forall_forall in Hch. specialize (Hch 0 Hin).
  unfold text_char in Hch. lia.
Qed.

Definition demo_saved : ed :=
  match zedit_handle 40 80 wq (mk_ed demo_zedit (demo_state 40) []) with
  | Some (_, st) => st
  | None => mk_ed demo_zedit (demo_state 40) []
  end.

Lemma zedit_save_open_witness :
  exists z2 s2 out3, zedit_start 40 80 demo_name (mk_ed closed_zedit (ed_s demo_saved) []) = Some (tt, mk_ed z2 s2 out3) /\
    (alive (z_dev s2) = true -> opened demo_name demo_text true z2).
Proof.
  apply (zedit_save_open 40 80 demo_zedit (demo_state 40) [] [] ∅ wq (ed_z demo_saved) (ed_s demo_saved) (ed_out demo_saved) closed_zedit).
  - apply demo_zedit_ok.
  - apply demo_wf.
  - split; reflexivity.
  - apply demo_synced.
  - apply demo_represents.
  - reflexivity.
  - reflexivity.
  - vm_compute. reflexivity.
  - vm_compute. reflexivity.
Defined.

(** ** Operands and the screen *)

(** An operand is the longest run of digits, and is accepted exactly when its value is
    between 1 and the largest 32-bit number; the rest of the line follows it. *)
Theorem zedit_number_exact (p : list Z) :
  zedit_number p =
  let v := dec_from 0 (digits p) in
  if (1 <=? v) && (v <=? UINT32_MAX) then Some (v, drop (length (digits p)) p) else None.
Proof. apply zedit_number_spec. Qed.

(** A row of the full-screen view is the line's number, a marker and the line, cut to the
    screen's width with three dots; neither a row nor the title is ever longer than the array
    it is built in. *)
Theorem overlay_row (g_fb_cols : Z) (e : zedit) (number start end_ : Z) :
  0 < g_fb_cols -> ed_ok e -> 1 <= number < 4294967296 -> zedit_bounds number e = Some (start, end_) ->
  let cols := cols_of g_fb_cols in
  let digits := rev (line_digits 10 number) in
  let head := take (Z.to_nat cols) (digits ++
                bytes_of_string (if number =? cursor_line e then ":> "%string else ":  "%string)) in
  exists line, lines_of (content e) !! Z.to_nat (number - 1) = Some line /\
    overlay_line g_fb_cols e number start end_ =
      (if Z.of_nat (length (head ++ until_nl line)) <=? cols then head ++ until_nl line
       else dots (cols - Z.of_nat (length head)) (take (Z.to_nat cols) (head ++ until_nl line))) /\
    dec_from 0 digits = number /\
    Z.of_nat (length (overlay_line g_fb_cols e number start end_)) <= ZEAL_TEXT_MAX_COLS /\
    Z.of_nat (length (overlay_title g_fb_cols e)) <= ZEAL_TEXT_MAX_COLS.
Proof.
  intros Hc K Hn Hb. cbn zeta. pose proof (cols_range g_fb_cols Hc) as Hr.
  rewrite (bounds_lines e number (ek_buf _ K) Hn) in Hb.
  destruct (line_span_line _ _ _ _ Hb) as (line & Hl & Hline). exists line. split; [exact Hl|].
  apply line_span_bounds in Hb as (B1 & B2 & _). rewrite (size_content e (ek_buf _ K)) in B2.
  rewrite lines_concat in Hline. pose proof (overlay_line_spec g_fb_cols Hc e number start end_ B1 B2) as Sp.
  cbn zeta in Sp. rewrite Hline in Sp. split; [exact Sp|]. split; [apply line_digits_value; cbn; lia|].
  pose proof (overlay_line_fits g_fb_cols Hc e number start end_ B1 B2). pose proof (overlay_title_fits g_fb_cols Hc e). lia.
Qed.

Lemma overlay_row_witness :
  zedit_bounds 2 demo_zedit = Some (9, 11) /\
  Z.of_nat (length (overlay_line 80 demo_zedit 2 9 11)) <= ZEAL_TEXT_MAX_COLS.
Proof.
  split; [reflexivity|].
  destruct (overlay_row 80 demo_zedit 2 9 11 eq_refl demo_zedit_ok (conj (Zle_bool_imp_le 1 2 eq_refl) eq_refl) eq_refl)
    as (line & _ & _ & _ & H & _). exact H.
Defined.
