(* ===== verification/PciDma.v ===== *)
(** * The boot handoff and the Pi 4 DMA arena: definitions

    [src/src/handoff.h] (the records the boot loader and the kernel share),
    [src/src/pi4_dma.h] (the loader cuts the USB DMA arena out of the memory map),
    [src/src/pi4_dma_probe.h] (the kernel checks it before use), [src/src/pi4_pcie_cfg.h]
    (planning one configuration read) and [src/src/pi4_xhci_dma_alias.h] (the trial alias). *)

From S2P Require Import Prelude.

(** ** The handoff *)

Definition ZEAL_MEM_USABLE : Z := 1.
Definition ZEAL_MEM_USB_DMA : Z := 11.
Definition PI4_PCIE_FDT_PRESENT : Z := Z.shiftl 1 0.
Definition PI4_PCIE_FDT_ENABLED : Z := Z.shiftl 1 1.
Definition PI4_PCIE_FDT_REG : Z := Z.shiftl 1 2.
Definition PI4_PCIE_FDT_MEM : Z := Z.shiftl 1 3.
Definition PI4_PCIE_FDT_DMA : Z := Z.shiftl 1 4.
Definition PI4_USB_DMA_RESERVED : Z := Z.shiftl 1 0.
Definition ZEAL_MEM_MAX : Z := 256.

Record zeal_pi4_pcie := mk_pcie {
  pc_flags : Z; fdt_status : Z;
  reg_base : Z; reg_size : Z;
  mem_bus_base : Z; mem_cpu_base : Z; mem_size : Z;
  dma_bus_base : Z; dma_cpu_base : Z; dma_size : Z }.

Record zeal_pi4_dma := mk_dma { da_flags : Z; da_phys_base : Z; da_bus_base : Z; da_size : Z }.

Record zeal_mem_entry := mk_mem { m_base : Z; m_length : Z; m_type : Z }.

(** The fields the code below reads; [h_mem] is the whole array, [ZEAL_MEM_MAX] entries. *)
Record zeal_handoff := mk_handoff {
  h_size : Z; h_revision : Z; h_mem_count : Z;
  h_mem : list zeal_mem_entry;
  h_pi4_pcie : zeal_pi4_pcie;
  h_pi4_usb_dma : zeal_pi4_dma }.

(** Where [pi4_pcie] and [pi4_usb_dma] end in the structure: two words of 64 bits, four of 32, six
    of 64, two of 32, four of 64, the map, two of 64, two of 32, the FDT record, the arena. *)
Definition PI4_PCIE_END : Z := 2 * 8 + 4 * 4 + 6 * 8 + 2 * 4 + 4 * 8 + ZEAL_MEM_MAX * 24 + 2 * 8 + 2 * 4 + (2 * 4 + 8 * 8).
Definition PI4_USB_DMA_END : Z := PI4_PCIE_END + (2 * 4 + 3 * 8).

(** ** Reserving the arena *)

Definition PI4_USB_DMA_ARENA_BYTES : Z := 1024 * 1024.
Definition PI4_USB_DMA_ARENA_ALIGN : Z := 64 * 1024.
Definition PI4_USB_DMA_MIN_PHYS : Z := 4 * 1024 * 1024.

Definition DMA_REQUIRED : Z := Z.lor (Z.lor PI4_PCIE_FDT_PRESENT PI4_PCIE_FDT_ENABLED) PI4_PCIE_FDT_DMA.
Definition has_all (flags required : Z) : bool := Z.land flags required =? required.

(** [x & ~(align - 1)] on 64 bits. *)
Definition align_down (x : Z) : Z := Z.land x (Z.lxor UINT64_MAX (PI4_USB_DMA_ARENA_ALIGN - 1)).

(** Where the arena goes in one entry of the map: its base and its bus address. *)
Definition arena_in (p : zeal_pi4_pcie) (e : zeal_mem_entry) : option (Z * Z) :=
  let bytes := PI4_USB_DMA_ARENA_BYTES in
  let align := PI4_USB_DMA_ARENA_ALIGN in
  let dma_cpu_end := u64 (dma_cpu_base p + dma_size p) in
  let dma_bus_end := u64 (dma_bus_base p + dma_size p) in
  if negb (m_type e =? ZEAL_MEM_USABLE) || (m_length e =? 0) || (UINT64_MAX - m_length e <? m_base e) then None
  else
    let entry_end := m_base e + m_length e in
    let low := m_base e in
    let low := if low <? dma_cpu_base p then dma_cpu_base p else low in
    let low := if low <? PI4_USB_DMA_MIN_PHYS then PI4_USB_DMA_MIN_PHYS else low in
    let high := if entry_end <? dma_cpu_end then entry_end else dma_cpu_end in
    if UINT64_MAX - (align - 1) <? low then None
    else
      let base := align_down (low + align - 1) in
      if UINT64_MAX - bytes <? base then None
      else
        let end_ := base + bytes in
        if (high <? end_) || (base <? m_base e) then None
        else if UINT64_MAX - u64 (base - dma_cpu_base p) <? dma_bus_base p then None
        else
          let bus := dma_bus_base p + u64 (base - dma_cpu_base p) in
          if (UINT64_MAX - bytes <? bus) || (dma_bus_end <? bus + bytes) then None
          else Some (base, bus).

(** [h->mem\[h->mem_count++\] = e;] *)
Definition append_mem (e : zeal_mem_entry) (mem : list zeal_mem_entry * Z) : list zeal_mem_entry * Z :=
  let '(mem, count) := mem in (<[Z.to_nat count := e]> mem, count + 1).

(** The entry [i] split around the arena. *)
Definition carve (i : nat) (e : zeal_mem_entry) (base : Z) (before after : bool) (mem : list zeal_mem_entry * Z)
    : list zeal_mem_entry * Z :=
  let bytes := PI4_USB_DMA_ARENA_BYTES in
  let end_ := base + bytes in
  let entry_end := m_base e + m_length e in
  let rest := mk_mem end_ (entry_end - end_) ZEAL_MEM_USABLE in
  let set e' mem := (<[i := e']> mem.1, mem.2) in
  if before then
    let mem := set (mk_mem (m_base e) (base - m_base e) (m_type e)) mem in
    let mem := append_mem (mk_mem base bytes ZEAL_MEM_USB_DMA) mem in
    if after then append_mem rest mem else mem
  else
    let mem := set (mk_mem base bytes ZEAL_MEM_USB_DMA) mem in
    if after then append_mem rest mem else mem.

(** The scan of the map from entry [i], [n] entries left. *)
Fixpoint reserve_loop (n : nat) (i : nat) (h : zeal_handoff) : Z * zeal_handoff :=
  match n with
  | O => (-3, h)
  | S n' =>
      match h_mem h !! i with
      | None => (-3, h)
      | Some e =>
          match arena_in (h_pi4_pcie h) e with
          | None => reserve_loop n' (S i) h
          | Some (base, bus) =>
              let before := m_base e <? base in
              let after := base + PI4_USB_DMA_ARENA_BYTES <? m_base e + m_length e in
              let extra := if before then (if after then 2 else 1) else (if after then 1 else 0) in
              if ZEAL_MEM_MAX - h_mem_count h <? extra then (-2, h)
              else
                let mem := carve i e base before after (h_mem h, h_mem_count h) in
                (0, mk_handoff (h_size h) (h_revision h) mem.2 mem.1 (h_pi4_pcie h)
                      (mk_dma PI4_USB_DMA_RESERVED base bus PI4_USB_DMA_ARENA_BYTES))
          end
      end
  end.

Definition pi4_usb_dma_reserve (h : zeal_handoff) : Z * zeal_handoff :=
  let p := h_pi4_pcie h in
  if (ZEAL_MEM_MAX <? h_mem_count h) || negb (has_all (pc_flags p) DMA_REQUIRED) || (dma_size p =? 0) ||
     negb (da_flags (h_pi4_usb_dma h) =? 0) ||
     (UINT64_MAX - dma_size p <? dma_cpu_base p) || (UINT64_MAX - dma_size p <? dma_bus_base p)
  then (-1, h)
  else reserve_loop (Z.to_nat (h_mem_count h)) 0 h.

(** ** Checking the arena *)

Definition PI4_DMA_PROBE_PLAN_OK : Z := 0.
Definition PI4_DMA_PROBE_PLAN_HANDOFF : Z := -1.
Definition PI4_DMA_PROBE_PLAN_ARENA : Z := -2.
Definition PI4_DMA_PROBE_PLAN_WINDOW : Z := -3.
Definition PI4_DMA_PROBE_PLAN_MEMMAP : Z := -4.

Record pi4_dma_probe_plan := mk_plan { pl_phys_base : Z; pl_bus_base : Z; pl_size : Z }.

(** The entries that touch the arena; [None]: one that is not the arena itself, or damaged. *)
Fixpoint plan_matches (mem : list zeal_mem_entry) (a : zeal_pi4_dma) (matches : Z) : option Z :=
  match mem with
  | [] => Some matches
  | e :: mem' =>
      if (m_length e =? 0) || (UINT64_MAX - m_length e <? m_base e) then None
      else
        let entry_end := m_base e + m_length e in
        let phys_end := da_phys_base a + da_size a in
        if (m_base e <? phys_end) && (da_phys_base a <? entry_end) then
          if negb (m_type e =? ZEAL_MEM_USB_DMA) || negb (m_base e =? da_phys_base a) || negb (m_length e =? da_size a)
          then None
          else plan_matches mem' a (u32 (matches + 1))
        else plan_matches mem' a matches
  end.

Definition pi4_dma_probe_plan_make (h : zeal_handoff) : Z * option pi4_dma_probe_plan :=
  let a := h_pi4_usb_dma h in
  let p := h_pi4_pcie h in
  if (h_revision h <? 6) || (h_size h <? PI4_USB_DMA_END) || (ZEAL_MEM_MAX <? h_mem_count h)
  then (PI4_DMA_PROBE_PLAN_HANDOFF, None)
  else if negb (da_flags a =? PI4_USB_DMA_RESERVED) || negb (da_size a =? PI4_USB_DMA_ARENA_BYTES) ||
          has (da_phys_base a) (PI4_USB_DMA_ARENA_ALIGN - 1) || has (da_bus_base a) (PI4_USB_DMA_ARENA_ALIGN - 1) ||
          (UINT64_MAX - da_size a <? da_phys_base a) || (UINT64_MAX - da_size a <? da_bus_base a)
  then (PI4_DMA_PROBE_PLAN_ARENA, None)
  else if negb (has_all (pc_flags p) DMA_REQUIRED) || (dma_size p =? 0) ||
          (UINT64_MAX - dma_size p <? dma_cpu_base p) || (UINT64_MAX - dma_size p <? dma_bus_base p)
  then (PI4_DMA_PROBE_PLAN_WINDOW, None)
  else
    let phys_end := da_phys_base a + da_size a in
    let bus_end := da_bus_base a + da_size a in
    let dma_cpu_end := dma_cpu_base p + dma_size p in
    let dma_bus_end := dma_bus_base p + dma_size p in
    if (da_phys_base a <? dma_cpu_base p) || (dma_cpu_end <? phys_end) ||
       (da_bus_base a <? dma_bus_base p) || (dma_bus_end <? bus_end) ||
       negb (u64 (da_phys_base a - dma_cpu_base p) =? u64 (da_bus_base a - dma_bus_base p))
    then (PI4_DMA_PROBE_PLAN_WINDOW, None)
    else
      match plan_matches (take (Z.to_nat (h_mem_count h)) (h_mem h)) a 0 with
      | Some 1 => (PI4_DMA_PROBE_PLAN_OK, Some (mk_plan (da_phys_base a) (da_bus_base a) (da_size a)))
      | _ => (PI4_DMA_PROBE_PLAN_MEMMAP, None)
      end.

(** ** The trial alias *)

Definition PI4_XHCI_DMA_BAR2_LO_EXPECTED : Z := 0x11.
Definition PI4_XHCI_DMA_BAR2_HI_ORIGINAL : Z := 0.
Definition PI4_XHCI_DMA_BUS_BIAS : Z := Z.shiftl 4 32.

Definition pi4_xhci_dma_alias_plan_make (original : pi4_dma_probe_plan) (caps3 bar2_lo bar2_hi : Z)
    : option pi4_dma_probe_plan :=
  if negb (has caps3 1) || negb (bar2_lo =? PI4_XHCI_DMA_BAR2_LO_EXPECTED) ||
     negb (bar2_hi =? PI4_XHCI_DMA_BAR2_HI_ORIGINAL) || (pl_size original =? 0) ||
     (UINT64_MAX - PI4_XHCI_DMA_BUS_BIAS <? pl_bus_base original) ||
     (UINT64_MAX - pl_size original <? u64 (pl_bus_base original + PI4_XHCI_DMA_BUS_BIAS))
  then None
  else Some (mk_plan (pl_phys_base original) (u64 (pl_bus_base original + PI4_XHCI_DMA_BUS_BIAS)) (pl_size original)).

(** ** Planning a configuration read *)

Definition PI4_PCIE_STATUS_PHY_LINKUP : Z := Z.shiftl 1 4.
Definition PI4_PCIE_STATUS_DL_ACTIVE : Z := Z.shiftl 1 5.
Definition PI4_PCIE_CFG_INDEX_OFFSET : Z := 0x9000.
Definition PI4_PCIE_CFG_DATA_OFFSET : Z := 0x8000.
Definition PI4_PCIE_CFG_MAX_OFFSET : Z := 0x0ffc.

Record pi4_pcie_cfg_read := mk_cfg { cfg_index : Z; cfg_data_offset : Z }.

Definition CFG_REQUIRED : Z := Z.lor (Z.lor PI4_PCIE_FDT_PRESENT PI4_PCIE_FDT_ENABLED) PI4_PCIE_FDT_REG.
Definition CFG_LINK : Z := Z.lor PI4_PCIE_STATUS_PHY_LINKUP PI4_PCIE_STATUS_DL_ACTIVE.

Definition pi4_pcie_cfg_read_plan (h : zeal_handoff) (link_status bus device function offset : Z)
    : Z * option pi4_pcie_cfg_read :=
  let p := h_pi4_pcie h in
  if (h_revision h <? 5) || (h_size h <? PI4_PCIE_END) || negb (has_all (pc_flags p) CFG_REQUIRED) ||
     (reg_size p =? 0) || has (reg_base p) 3 || negb (has_all link_status CFG_LINK) ||
     (bus =? 0) || (255 <? bus) || (31 <? device) || (7 <? function) ||
     (PI4_PCIE_CFG_MAX_OFFSET <? offset) || has offset 3
  then (-1, None)
  else
    let reg_end := PI4_PCIE_CFG_INDEX_OFFSET + 4 in
    if (reg_size p <? reg_end) || (reg_size p <? PI4_PCIE_CFG_DATA_OFFSET) ||
       (u64 (reg_size p - PI4_PCIE_CFG_DATA_OFFSET) <? offset) ||
       (u64 (u64 (reg_size p - PI4_PCIE_CFG_DATA_OFFSET) - offset) <? 4)
    then (-2, None)
    else if UINT64_MAX - reg_end <? reg_base p then (-3, None)
    else
      let devfn := Z.lor (Z.shiftl device 3) function in
      (0, Some (mk_cfg (Z.lor (Z.shiftl bus 20) (Z.shiftl devfn 12)) (PI4_PCIE_CFG_DATA_OFFSET + offset))).
