(* ===== verification/PciDmaSpec.v ===== *)
(** * The DMA arena: memory maps and what carving does to them *)

From stdpp Require Import sorting.
From S2P Require Import Prelude PciDma.
#[local] Open Scope Z_scope.

(** ** Words *)

Lemma align_down_spec x : 0 <= x < 18446744073709551616 -> align_down x = x / 65536 * 65536.
Proof.
  intros Hx. unfold align_down, PI4_USB_DMA_ARENA_ALIGN, UINT64_MAX.
  change (Z.lxor 18446744073709551615 (64 * 1024 - 1)) with (Z.shiftl (2 ^ 48 - 1) 16).
  change 65536 with (2 ^ 16). rewrite <- Z.shiftr_div_pow2, <- Z.shiftl_mul_pow2 by lia.
  apply Z.bits_inj'. intros i Hi. rewrite Z.land_spec.
  destruct (Z.lt_ge_cases i 16) as [Hlt|Hge].
  - rewrite !Z.shiftl_spec_low by lia. apply andb_false_r.
  - rewrite !Z.shiftl_spec, Z.shiftr_spec by lia. replace (i - 16 + 16) with i by lia.
    replace (2 ^ 48 - 1) with (Z.ones 48) by reflexivity.
    destruct (Z.lt_ge_cases i 64) as [H64|H64].
    + rewrite Z.ones_spec_low by lia. apply andb_true_r.
    + rewrite (testbit_above 64 x i) by (unfold is_u; lia). reflexivity.
Qed.

(** ** Memory maps *)

(** An entry the map may hold: not empty, and not past the end of the address space. *)
Definition entry_ok (e : zeal_mem_entry) : Prop :=
  0 <= m_base e /\ 0 < m_length e /\ m_base e + m_length e <= UINT64_MAX.

Definition inside (x : Z) (e : zeal_mem_entry) : Prop := m_base e <= x < m_base e + m_length e.
Definition apart2 (e f : zeal_mem_entry) : Prop :=
  m_base e + m_length e <= m_base f \/ m_base f + m_length f <= m_base e.

Fixpoint apart (l : list zeal_mem_entry) : Prop :=
  match l with [] => True | e :: l' => Forall (apart2 e) l' /\ apart l' end.

(** No two entries share an address. *)
Definition sound (l : list zeal_mem_entry) : Prop := Forall entry_ok l /\ apart l.

(** Address [x] has type [t]. *)
Definition typed (l : list zeal_mem_entry) (x t : Z) : Prop := exists e, In e l /\ inside x e /\ m_type e = t.

Lemma apart2_sym e f : apart2 e f -> apart2 f e.
Proof. unfold apart2. tauto. Qed.

Lemma apart_perm l l' : Permutation l l' -> apart l -> apart l'.
Proof.
  induction 1 as [|e l l' P IH|e f l|]; cbn; auto.
  - intros [H1 H2]. split; [|auto]. rewrite <- P. exact H1.
  - intros [H1 [H2 H3]]. inversion H1; subst. repeat split; auto. constructor; auto using apart2_sym.
Qed.

Lemma sound_perm l l' : Permutation l l' -> sound l -> sound l'.
Proof. intros P [H1 H2]. split; [rewrite <- P; exact H1 | eapply apart_perm; eauto]. Qed.

Lemma typed_perm l l' x t : Permutation l l' -> typed l x t <-> typed l' x t.
Proof.
  intros P. unfold typed. split; intros (e & Hin & H); exists e; (split; [|exact H]).
  - eapply Permutation_in; eauto.
  - eapply Permutation_in; [symmetry|]; eauto.
Qed.

Lemma typed_app l1 l2 x t : typed (l1 ++ l2) x t <-> typed l1 x t \/ typed l2 x t.
Proof.
  unfold typed. split.
  - intros (e & Hin & H). apply in_app_or in Hin as [Hin|Hin]; [left|right]; eauto.
  - intros [(e & Hin & H)|(e & Hin & H)]; exists e; (split; [apply in_or_app; auto | exact H]).
Qed.

Lemma typed_cons e l x t : typed (e :: l) x t <-> (inside x e /\ m_type e = t) \/ typed l x t.
Proof.
  unfold typed. split.
  - intros (f & [->|Hin] & H); [left; exact H | right; eauto].
  - intros [H|(f & Hin & H)]; [exists e | exists f]; cbn; auto.
Qed.

Lemma typed_nil x t : typed [] x t <-> False.
Proof. split; [intros (e & [] & _) | intros []]. Qed.

(** ** Cutting an entry into pieces *)

Definition within (p e : zeal_mem_entry) : Prop :=
  m_base e <= m_base p /\ m_base p + m_length p <= m_base e + m_length e.

Lemma apart_pieces e ps r : Forall (fun p => within p e) ps -> apart ps -> apart (e :: r) -> apart (ps ++ r).
Proof.
  intros Hw Hp [He Hr]. induction ps as [|p ps IH]; [exact Hr|]. inversion Hw as [|? ? W1 W2]; subst.
  destruct Hp as [Hp1 Hp2]. cbn [app apart]. split; [|auto]. apply Forall_app. split; [exact Hp1|].
  eapply Forall_impl; [|exact He]. intros f Hf. unfold apart2, within in *. lia.
Qed.

Definition arena_entry (base : Z) : zeal_mem_entry := mk_mem base PI4_USB_DMA_ARENA_BYTES ZEAL_MEM_USB_DMA.

(** What replaces the entry [e]: the part before the arena, the arena, the part after it. *)
Definition pieces (e : zeal_mem_entry) (base : Z) : list zeal_mem_entry :=
  let end_ := base + PI4_USB_DMA_ARENA_BYTES in
  let entry_end := m_base e + m_length e in
  (if m_base e <? base then [mk_mem (m_base e) (base - m_base e) (m_type e)] else []) ++ [arena_entry base] ++
  (if end_ <? entry_end then [mk_mem end_ (entry_end - end_) ZEAL_MEM_USABLE] else []).

Definition fits (e : zeal_mem_entry) (base : Z) : Prop :=
  entry_ok e /\ m_type e = ZEAL_MEM_USABLE /\
  m_base e <= base /\ base + PI4_USB_DMA_ARENA_BYTES <= m_base e + m_length e.

Lemma pieces_sound e base r : fits e base -> sound (e :: r) -> sound (pieces e base ++ r).
Proof.
  intros ((E1 & E2 & E3) & Ht & F1 & F2) [He Ha]. inversion He as [|? ? He1 He2]; subst.
  unfold PI4_USB_DMA_ARENA_BYTES in *. split.
  - apply Forall_app. split; [|exact He2]. unfold pieces, arena_entry, PI4_USB_DMA_ARENA_BYTES. cbn zeta.
    repeat apply Forall_app_2; repeat case_if; zbool; repeat constructor; unfold entry_ok; cbn; lia.
  - apply (apart_pieces e); [| |exact Ha];
      unfold pieces, arena_entry, PI4_USB_DMA_ARENA_BYTES; cbn zeta; repeat case_if; zbool; cbn [app apart];
      repeat split; repeat constructor; unfold within, apart2; cbn; lia.
Qed.

(** The arena's addresses become DMA memory; the others keep their type. *)
Lemma pieces_typed e base r x t : fits e base -> sound (e :: r) ->
  typed (pieces e base ++ r) x t <->
  (if (base <=? x) && (x <? base + PI4_USB_DMA_ARENA_BYTES) then t = ZEAL_MEM_USB_DMA else typed (e :: r) x t).
Proof.
  intros (_ & Ht & F1 & F2) [_ [Ha _]]. rewrite typed_app.
  pose proof (typed_cons e r x t) as Hcons.
  assert (Hr : forall t, typed r x t -> ~ inside x e).
  { intros t' (f & Hin & Hf & _) He. rewrite List.Forall_forall in Ha. specialize (Ha f Hin).
    unfold apart2, inside in *. lia. }
  assert (Hp : typed (pieces e base) x t <->
    inside x e /\ (if (base <=? x) && (x <? base + PI4_USB_DMA_ARENA_BYTES) then t = ZEAL_MEM_USB_DMA else t = ZEAL_MEM_USABLE)).
  { unfold pieces, arena_entry. cbn zeta. unfold PI4_USB_DMA_ARENA_BYTES in *.
    repeat rewrite typed_app. rewrite typed_cons, typed_nil. unfold inside. cbn [m_base m_length m_type].
    destruct (m_base e <? base) eqn:E1; destruct (base + _ <? _) eqn:E2; zbool;
      rewrite ?typed_cons, ?typed_nil; unfold inside; cbn [m_base m_length m_type]; rewrite ?Ht;
      (destruct (_ && _) eqn:E3; [bool_hyps | apply andb_false_iff in E3 as [E3|E3]]; zbool);
      unfold ZEAL_MEM_USABLE, ZEAL_MEM_USB_DMA; intuition lia. }
  rewrite Hp. specialize (Hr t). unfold inside in *. rewrite Ht in Hcons.
  destruct (_ && _) eqn:E3.
  - bool_hyps. zbool. split; [intros [[_ ->]|Hty]; [reflexivity|]|].
    + exfalso. apply Hr; [exact Hty | lia].
    + intros ->. left. split; [lia | reflexivity].
  - rewrite Hcons. split; intros [[? ?]|?]; auto.
Qed.

(** ** Carving *)

Definition active (h : zeal_handoff) : list zeal_mem_entry := take (Z.to_nat (h_mem_count h)) (h_mem h).

Lemma append_mem_spec e mem count : 0 <= count < Z.of_nat (length mem) ->
  let r := append_mem e (mem, count) in
  length r.1 = length mem /\ r.2 = count + 1 /\ take (Z.to_nat r.2) r.1 = take (Z.to_nat count) mem ++ [e].
Proof.
  intros H. cbn. rewrite length_insert. split; [reflexivity|]. split; [reflexivity|].
  replace (Z.to_nat (count + 1)) with (S (Z.to_nat count)) by lia.
  rewrite (take_S_r _ _ e) by (apply list_lookup_insert_eq; lia).
  rewrite take_insert_ge by lia. reflexivity.
Qed.

Lemma replace_perm (l : list zeal_mem_entry) i e' : (i < length l)%nat -> <[i := e']> l ≡ₚ e' :: delete i l.
Proof.
  intros Hi. rewrite insert_take_drop, delete_take_drop by exact Hi. symmetry. apply Permutation_middle.
Qed.

Lemma carve_spec mem count i e base :
  0 <= count <= Z.of_nat (length mem) -> length mem = Z.to_nat ZEAL_MEM_MAX ->
  take (Z.to_nat count) mem !! i = Some e -> fits e base ->
  let before := m_base e <? base in
  let after := base + PI4_USB_DMA_ARENA_BYTES <? m_base e + m_length e in
  (if before then (if after then 2 else 1) else (if after then 1 else 0)) <= ZEAL_MEM_MAX - count ->
  let r := carve i e base before after (mem, count) in
  length r.1 = length mem /\ 0 <= r.2 <= Z.of_nat (length mem) /\
  take (Z.to_nat r.2) r.1 ≡ₚ pieces e base ++ delete i (take (Z.to_nat count) mem).
Proof.
  intros Hc Hlen He (_ & _ & Hb & Hend). cbn zeta. intros Hx.
  pose proof (lookup_lt_Some _ _ _ He) as Hi. rewrite length_take in Hi.
  assert (Hmax : Z.of_nat (length mem) = ZEAL_MEM_MAX) by (rewrite Hlen; reflexivity).
  assert (Hset : forall e', take (Z.to_nat count) (<[i := e']> mem) ≡ₚ e' :: delete i (take (Z.to_nat count) mem)).
  { intros e'. rewrite take_insert_lt by lia. apply replace_perm. rewrite length_take. lia. }
  unfold carve, pieces, arena_entry. cbn zeta. cbn [fst snd].
  assert (Hl : forall e' : zeal_mem_entry, length (<[i := e']> mem) = length mem) by (intros; apply length_insert).
  destruct (m_base e <? base) eqn:E1.
  - set (e1 := mk_mem (m_base e) (base - m_base e) (m_type e)).
    set (ar := mk_mem base PI4_USB_DMA_ARENA_BYTES ZEAL_MEM_USB_DMA).
    destruct (append_mem_spec ar (<[i := e1]> mem) count) as (A1 & A2 & A3);
      [rewrite Hl; destruct (_ <? _) in Hx; lia|].
    destruct (base + _ <? _) eqn:E2.
    + set (rest := mk_mem _ _ ZEAL_MEM_USABLE).
      destruct (append_mem ar (<[i := e1]> mem, count)) as [mem1 c1] eqn:Ea. cbn [fst snd] in *.
      destruct (append_mem_spec rest mem1 c1) as (B1 & B2 & B3); [rewrite A1, Hl; lia|].
      rewrite B1, A1, Hl. split; [reflexivity|]. split; [lia|].
      rewrite B3, A3, Hset.
      cbn [app]. rewrite <- !app_assoc. cbn [app]. constructor. rewrite Permutation_app_comm. reflexivity.
    + rewrite A1, Hl. split; [reflexivity|]. split; [lia|]. rewrite A3, Hset. cbn [app]. constructor.
      rewrite Permutation_app_comm. reflexivity.
  - assert (base = m_base e) as -> by (zbool; lia).
    set (ar := mk_mem (m_base e) PI4_USB_DMA_ARENA_BYTES ZEAL_MEM_USB_DMA).
    destruct (_ + PI4_USB_DMA_ARENA_BYTES <? _) eqn:E2.
    + set (rest := mk_mem _ _ ZEAL_MEM_USABLE).
      destruct (append_mem_spec rest (<[i := ar]> mem) count) as (B1 & B2 & B3); [rewrite Hl; lia|].
      rewrite B1, Hl. split; [reflexivity|]. split; [lia|]. rewrite B3, Hset. cbn [app]. constructor.
      rewrite Permutation_app_comm. reflexivity.
    + cbn [fst snd]. rewrite Hl. split; [reflexivity|]. split; [lia|]. rewrite Hset. reflexivity.
Qed.

(** ** Placing the arena *)

(** The inbound window: addresses and sizes are 64-bit words, and neither side wraps. *)
Definition window_ok (p : zeal_pi4_pcie) : Prop :=
  0 <= dma_cpu_base p /\ 0 <= dma_bus_base p /\ 0 < dma_size p /\
  dma_cpu_base p + dma_size p <= UINT64_MAX /\ dma_bus_base p + dma_size p <= UINT64_MAX.

(** A place for the arena: aligned, above 4 MiB, in the window and in a usable entry. *)
Record placed (p : zeal_pi4_pcie) (e : zeal_mem_entry) (base : Z) : Prop := {
  pl_fits : fits e base;
  pl_aligned : base mod PI4_USB_DMA_ARENA_ALIGN = 0;
  pl_min : PI4_USB_DMA_MIN_PHYS <= base;
  pl_window : dma_cpu_base p <= base /\ base + PI4_USB_DMA_ARENA_BYTES <= dma_cpu_base p + dma_size p }.

(** The bus address the device uses for the arena at [base]. *)
Definition bus_of (p : zeal_pi4_pcie) (base : Z) : Z := dma_bus_base p + (base - dma_cpu_base p).

(** [arena_in] returns the lowest place in the entry, if there is one. *)
Lemma arena_in_spec p e : window_ok p -> 0 <= m_base e -> 0 <= m_length e <= UINT64_MAX ->
  match arena_in p e with
  | Some (base, bus) => placed p e base /\ bus = bus_of p base /\ forall b, placed p e b -> base <= b
  | None => forall b, ~ placed p e b
  end.
Proof.
  intros (W1 & W2 & W3 & W4 & W5) Hb Hl. unfold arena_in. cbn zeta. unfold bus_of, UINT64_MAX in *.
  rewrite (u64_id (dma_cpu_base p + _)), (u64_id (dma_bus_base p + _)) by lia.
  destruct (_ || _) eqn:E0.
  { intros b [(E & Ht & _ & _) _ _ _]. unfold entry_ok, UINT64_MAX in E.
    repeat (apply orb_true_iff in E0 as [E0|E0]); zbool; try lia. }
  bool_hyps. zbool.
  match goal with |- context [u64 (align_down (?x + _ - 1) - _)] => set (low := x) end.
  assert (Hlow : m_base e <= low /\ dma_cpu_base p <= low /\ PI4_USB_DMA_MIN_PHYS <= low /\
    forall b, m_base e <= b -> dma_cpu_base p <= b -> PI4_USB_DMA_MIN_PHYS <= b -> low <= b).
  { subst low. repeat case_if; zbool; repeat split; intros; lia. }
  destruct Hlow as (L1 & L2 & L3 & L4). clearbody low.
  match goal with |- context [if (?x <? _ + PI4_USB_DMA_ARENA_BYTES) || _ then _ else _] => set (high := x) end.
  assert (Hhigh : high <= m_base e + m_length e /\ high <= dma_cpu_base p + dma_size p /\
    forall b, b <= m_base e + m_length e -> b <= dma_cpu_base p + dma_size p -> b <= high).
  { subst high. case_if; zbool; repeat split; intros; lia. }
  destruct Hhigh as (G1 & G2 & G3). clearbody high.
  unfold PI4_USB_DMA_MIN_PHYS, PI4_USB_DMA_ARENA_BYTES, PI4_USB_DMA_ARENA_ALIGN in *.
  assert (Hnone : forall base, (forall b, 65536 * b >= low -> base <= 65536 * b) -> high < base + 1024 * 1024 ->
            forall b, ~ placed p e b).
  { intros base Hmin Hno b [(E & _ & F1 & F2) Ha Hm (Hw1 & Hw2)].
    unfold PI4_USB_DMA_MIN_PHYS, PI4_USB_DMA_ARENA_BYTES, PI4_USB_DMA_ARENA_ALIGN in *.
    change (64 * 1024) with 65536 in Ha. pose proof (Z.div_mod b 65536 ltac:(lia)) as Hdm. pose proof (L4 b F1 Hw1 Hm).
    specialize (Hmin (b / 65536) ltac:(lia)). specialize (G3 (b + 1024 * 1024) F2 Hw2). lia. }
  destruct (_ <? low) eqn:E1; zbool.
  { apply (Hnone 18446744073709551616); [intros b Hb'; lia | lia]. }
  rewrite align_down_spec by lia. set (base := (low + 64 * 1024 - 1) / 65536 * 65536).
  assert (Hbase : low <= base /\ base < low + 65536 /\ base mod 65536 = 0 /\ forall b, 65536 * b >= low -> base <= 65536 * b).
  { subst base. pose proof (Z.div_mod (low + 64 * 1024 - 1) 65536 ltac:(lia)) as Hdm.
    pose proof (Z.mod_pos_bound (low + 64 * 1024 - 1) 65536 ltac:(lia)).
    split; [lia|]. split; [lia|]. split; [apply Z.mod_mul; lia|]. intros b Hb'. nia. }
  destruct Hbase as (B1 & B2 & B3 & B4). clearbody base.
  destruct (_ <? base) eqn:E2; zbool; [apply (Hnone base); auto; lia|].
  destruct (_ || _) eqn:E3.
  { apply orb_true_iff in E3 as [E3|E3]; zbool; [apply (Hnone base); auto|]; lia. }
  bool_hyps. zbool. rewrite (u64_id (base - _)) by lia.
  destruct (_ <? dma_bus_base p) eqn:E4; zbool; [lia|].
  destruct (_ || _) eqn:E5; [apply orb_true_iff in E5 as [E5|E5]; zbool; lia|].
  split; [|split; [reflexivity|]].
  - split; [|exact B3 | unfold PI4_USB_DMA_MIN_PHYS; lia | unfold PI4_USB_DMA_ARENA_BYTES; lia].
    unfold fits, entry_ok, PI4_USB_DMA_ARENA_BYTES, UINT64_MAX. repeat split; try lia.
  - intros b [(E & _ & F1 & F2) Ha Hm (Hw1 & Hw2)].
    unfold PI4_USB_DMA_MIN_PHYS, PI4_USB_DMA_ARENA_BYTES, PI4_USB_DMA_ARENA_ALIGN in *.
    change (64 * 1024) with 65536 in Ha. pose proof (Z.div_mod b 65536 ltac:(lia)) as Hdm. pose proof (L4 b F1 Hw1 Hm).
    specialize (B4 (b / 65536) ltac:(lia)). lia.
Qed.
