(* ===== verification/PciDmaThms.v ===== *)
(** * The boot handoff and the Pi 4 DMA arena: theorems *)

From stdpp Require Import sorting.
From S2P Require Import Prelude PciDma PciDmaSpec.
#[local] Open Scope Z_scope.

(** ** The reservation *)










(** ** The check *)

Definition touches (a : zeal_pi4_dma) (e : zeal_mem_entry) : bool :=
  (m_base e <? da_phys_base a + da_size a) && (da_phys_base a <? m_base e + m_length e).
Definition is_arena (a : zeal_pi4_dma) (e : zeal_mem_entry) : Prop :=
  e = mk_mem (da_phys_base a) (da_size a) ZEAL_MEM_USB_DMA.
Definition touching (a : zeal_pi4_dma) (l : list zeal_mem_entry) : Z := Z.of_nat (length (List.filter (touches a) l)).

(** The scan accepts a list exactly when it is well formed and only the arena touches the arena. *)
Lemma plan_matches_spec a l : forall m, Forall (fun e => 0 <= m_base e /\ 0 <= m_length e) l ->
  0 <= m -> m + Z.of_nat (length l) < 4294967296 ->
  (Forall entry_ok l /\ Forall (fun e => touches a e = true -> is_arena a e) l /\ plan_matches l a m = Some (m + touching a l)) \/
  (~ (Forall entry_ok l /\ Forall (fun e => touches a e = true -> is_arena a e) l) /\ plan_matches l a m = None).
Proof.
  unfold touching. induction l as [|e l IH]; intros m Hn Hm Hb; cbn [plan_matches List.filter].
  { left. repeat constructor. cbn. f_equal. lia. }
  inversion Hn as [|? ? [N1 N2] Hn']; subst. cbn [length] in Hb.
  destruct ((m_length e =? 0) || _) eqn:E0.
  { right. split; [|reflexivity]. intros [He _]. inversion He as [|? ? (H1 & H2 & H3) _]; subst.
    apply orb_true_iff in E0 as [E0|E0]; zbool; lia. }
  bool_hyps. zbool. fold (touches a e).
  assert (He : entry_ok e) by (unfold entry_ok; lia).
  destruct (touches a e) eqn:Et.
  - destruct (_ || _) eqn:E1.
    + right. split; [|reflexivity]. intros [_ Ha]. inversion Ha as [|? ? H1 _]; subst.
      rewrite (H1 Et) in E1. cbn [m_type m_base m_length] in E1. rewrite !Z.eqb_refl in E1. discriminate E1.
    + bool_hyps. zbool. rewrite u32_id by lia.
      assert (Ha : is_arena a e) by (destruct e; cbn in *; unfold is_arena; congruence).
      destruct (IH (m + 1) Hn' ltac:(lia) ltac:(lia)) as [(I1 & I2 & I3)|(I1 & I2)].
      * left. split; [constructor; auto|]. split; [constructor; auto|]. rewrite I3. cbn [length]. f_equal. lia.
      * right. split; [|exact I2]. intros [J1 J2]. apply I1. inversion J1; inversion J2; subst. auto.
  - destruct (IH m Hn' ltac:(lia) ltac:(lia)) as [(I1 & I2 & I3)|(I1 & I2)].
    + left. split; [constructor; auto|]. split; [constructor; [congruence | auto]|]. exact I3.
    + right. split; [|exact I2]. intros [J1 J2]. apply I1. inversion J1; inversion J2; subst. auto.
Qed.


Lemma aligned_has x : 0 <= x -> has x (PI4_USB_DMA_ARENA_ALIGN - 1) = negb (x mod PI4_USB_DMA_ARENA_ALIGN =? 0).
Proof.
  intros Hx. unfold has, PI4_USB_DMA_ARENA_ALIGN. change (64 * 1024 - 1) with (2 ^ 16 - 1).
  rewrite land_ones_mod by lia. reflexivity.
Qed.



(** C37: whatever the handoff holds, an arena the kernel accepts is 1 MiB, aligned on both sides,
    inside the inbound window at the same offset on both, and is exactly one entry of a well
    formed map, in which no other entry touches it. *)
Theorem pi4_dma_probe_plan_sound (h : zeal_handoff) (p : pi4_dma_probe_plan) :
  Forall (fun e => 0 <= m_base e /\ 0 <= m_length e) (h_mem h) ->
  0 <= da_phys_base (h_pi4_usb_dma h) -> 0 <= da_bus_base (h_pi4_usb_dma h) ->
  0 <= dma_cpu_base (h_pi4_pcie h) -> 0 <= dma_bus_base (h_pi4_pcie h) -> 0 <= dma_size (h_pi4_pcie h) ->
  pi4_dma_probe_plan_make h = (PI4_DMA_PROBE_PLAN_OK, Some p) ->
  p = mk_plan (da_phys_base (h_pi4_usb_dma h)) (da_bus_base (h_pi4_usb_dma h)) PI4_USB_DMA_ARENA_BYTES /\
  pl_phys_base p mod PI4_USB_DMA_ARENA_ALIGN = 0 /\ pl_bus_base p mod PI4_USB_DMA_ARENA_ALIGN = 0 /\
  window_ok (h_pi4_pcie h) /\
  dma_cpu_base (h_pi4_pcie h) <= pl_phys_base p /\
  pl_phys_base p + pl_size p <= dma_cpu_base (h_pi4_pcie h) + dma_size (h_pi4_pcie h) /\
  pl_bus_base p = bus_of (h_pi4_pcie h) (pl_phys_base p) /\
  Forall entry_ok (active h) /\
  touching (h_pi4_usb_dma h) (active h) = 1 /\
  Forall (fun e => touches (h_pi4_usb_dma h) e = true -> e = arena_entry (pl_phys_base p)) (active h).
Proof.
  intros Hm A1 A2 P1 P2 P3. unfold pi4_dma_probe_plan_make. cbn zeta. unfold PI4_DMA_PROBE_PLAN_OK.
  destruct (_ || (ZEAL_MEM_MAX <? _)) eqn:E1; [intros [=]|]. bool_hyps.
  match goal with |- (if ?b then _ else _) = _ -> _ => destruct b eqn:E2; [intros [=]|] end. bool_hyps.
  match goal with |- (if ?b then _ else _) = _ -> _ => destruct b eqn:E3; [intros [=]|] end. bool_hyps.
  match goal with |- (if ?b then _ else _) = _ -> _ => destruct b eqn:E4; [intros [=]|] end. bool_hyps.
  rewrite aligned_has in * by assumption. bool_hyps. zbool.
  match goal with Hs : da_size _ = _ |- _ => rename Hs into Hsz end.
  unfold bus_of, window_ok, UINT64_MAX in *.
  fold (active h).
  destruct (plan_matches_spec (h_pi4_usb_dma h) (active h) 0) as [(F1 & F2 & ->)|(_ & ->)]; [| | | |intros [=]].
  - apply Forall_take. exact Hm.
  - lia.
  - unfold active. rewrite length_take. unfold ZEAL_MEM_MAX in *. lia.
  - destruct (0 + touching _ _) as [|[q|q|]|] eqn:Et; intros Hr; try discriminate Hr. injection Hr as <-.
    cbn [pl_phys_base pl_bus_base pl_size]. rewrite Hsz in *.
    rewrite !u64_id in * by (unfold PI4_USB_DMA_ARENA_BYTES in *; lia).
    repeat match goal with |- _ /\ _ => split end; try lia; try assumption; try reflexivity.
    eapply Forall_impl; [|exact F2]. intros e He Ht. rewrite (He Ht), Hsz. reflexivity.
Qed.

(** ** Configuration reads and the alias *)

(** When a read may be planned: the bridge is present and enabled with a register block that
    holds both indirect registers, the link is up, and the function and offset exist. *)
Definition cfg_wanted (h : zeal_handoff) (link bus device function offset : Z) : bool :=
  (5 <=? h_revision h) && (PI4_PCIE_END <=? h_size h) && has_all (pc_flags (h_pi4_pcie h)) CFG_REQUIRED &&
  negb (has (reg_base (h_pi4_pcie h)) 3) && has_all link CFG_LINK &&
  (1 <=? bus) && (bus <=? 255) && (device <=? 31) && (function <=? 7) && (offset <=? 0xffc) && negb (has offset 3) &&
  (0x9004 <=? reg_size (h_pi4_pcie h)) && (reg_base (h_pi4_pcie h) + 0x9004 <=? UINT64_MAX).

Lemma cfg_devfn device function : 0 <= device <= 31 -> 0 <= function <= 7 ->
  Z.lor (Z.shiftl device 3) function = device * 8 + function.
Proof. intros H1 H2. rewrite Z.lor_comm. rewrite (lor_shiftl_add function device 3) by lia. lia. Qed.

Lemma cfg_index_value bus devfn : 0 <= bus <= 255 -> 0 <= devfn <= 255 ->
  Z.lor (Z.shiftl bus 20) (Z.shiftl devfn 12) = bus * 1048576 + devfn * 4096.
Proof.
  intros H1 H2. rewrite Z.lor_comm. rewrite (Z.shiftl_mul_pow2 devfn 12) by lia.
  rewrite (lor_shiftl_add (devfn * 2 ^ 12) bus 20) by lia. lia.
Qed.

(** A configuration read is planned exactly when it may be; the index word then holds the
    bus, device and function in their fields and nothing else, and both indirect registers lie
    in the bridge's register block without wrapping; otherwise there is an error and no plan. *)
Theorem pi4_pcie_cfg_read_plan_correct (h : zeal_handoff) (link bus device function offset : Z) :
  is_u 64 (reg_base (h_pi4_pcie h)) -> is_u 64 (reg_size (h_pi4_pcie h)) ->
  0 <= bus -> 0 <= device -> 0 <= function -> 0 <= offset ->
  if cfg_wanted h link bus device function offset then
    exists r, pi4_pcie_cfg_read_plan h link bus device function offset = (0, Some r) /\
      Z.shiftr (cfg_index r) 20 = bus /\ Z.shiftr (cfg_index r) 15 mod 32 = device /\
      Z.shiftr (cfg_index r) 12 mod 8 = function /\ cfg_index r mod 4096 = 0 /\
      cfg_data_offset r = PI4_PCIE_CFG_DATA_OFFSET + offset /\
      cfg_data_offset r + 4 <= PI4_PCIE_CFG_INDEX_OFFSET /\
      PI4_PCIE_CFG_INDEX_OFFSET + 4 <= reg_size (h_pi4_pcie h) /\
      reg_base (h_pi4_pcie h) + PI4_PCIE_CFG_INDEX_OFFSET + 4 <= UINT64_MAX
  else exists rc, pi4_pcie_cfg_read_plan h link bus device function offset = (rc, None) /\ rc < 0.
Proof.
  unfold is_u. change (2 ^ 64) with 18446744073709551616. intros Hb Hs B1 B2 B3 B4.
  unfold cfg_wanted, pi4_pcie_cfg_read_plan, PI4_PCIE_CFG_MAX_OFFSET, PI4_PCIE_CFG_DATA_OFFSET, PI4_PCIE_CFG_INDEX_OFFSET, UINT64_MAX.
  cbn zeta. change (0x9000 + 4) with 36868. change 0x9004 with 36868. change 0xffc with 4092. change 0x8000 with 32768. change 0x9000 with 36864.
  set (sz := reg_size _) in *. set (rb := reg_base _) in *.
  match goal with |- context [if ?b then (-1, None) else _] => destruct b eqn:E1 end.
  { destruct (_ && _) eqn:E; [|exists (-1); split; [reflexivity | lia]]. exfalso. bool_hyps.
    repeat (apply orb_true_iff in E1 as [E1|E1]); zbool; bool_hyps; try lia; congruence. }
  bool_hyps. zbool.
  match goal with |- context [if ?b then (-2, None) else _] => destruct b eqn:E2 end.
  { destruct (_ && _) eqn:E; [|exists (-2); split; [reflexivity | lia]]. exfalso. bool_hyps. zbool.
    rewrite (u64_id (sz - 32768)), (u64_id (sz - 32768 - offset)) in E2 by lia.
    repeat (apply orb_true_iff in E2 as [E2|E2]); zbool; lia. }
  bool_hyps. zbool.
  destruct (_ <? rb) eqn:E3; zbool.
  { destruct (_ && _) eqn:E; [|exists (-3); split; [reflexivity | lia]]. exfalso. bool_hyps. zbool. lia. }
  match goal with |- if ?b then _ else _ => replace b with true end.
  2: { symmetry. repeat (apply andb_true_iff; split); try (apply Z.leb_le; lia); try (apply negb_true_iff); assumption. }
  eexists. split; [reflexivity|]. cbn [cfg_index cfg_data_offset].
  rewrite (cfg_devfn device function), cfg_index_value by lia.
  rewrite !Z.shiftr_div_pow2 by lia. change (2 ^ 20) with 1048576. change (2 ^ 15) with 32768. change (2 ^ 12) with 4096.
  Z.to_euclidean_division_equations. lia.
Qed.

(** ** A sample handoff: 1 GiB of memory behind a 3 GiB window at bus address 16 GiB *)

Definition demo_pcie : zeal_pi4_pcie :=
  mk_pcie 0x17 0 0xfd500000 0x9310 0 0 0 (Z.shiftl 4 32) 0 0xc0000000.
Definition demo_handoff : zeal_handoff :=
  mk_handoff PI4_USB_DMA_END 7 2
    (mk_mem 0 0x100000 2 :: mk_mem 0x100000 0x3ff00000 ZEAL_MEM_USABLE :: repeat (mk_mem 0 0 0) 254)
    demo_pcie (mk_dma 0 0 0 0).



(** The map after the reservation. *)
Definition demo_reserved : zeal_handoff := (pi4_usb_dma_reserve demo_handoff).2.


(** An inbound window whose sides differ by 32 KiB: the loader reserves, the kernel refuses. *)
Definition shifted_handoff : zeal_handoff :=
  mk_handoff PI4_USB_DMA_END 7 2 (h_mem demo_handoff) (mk_pcie 0x17 0 0xfd500000 0x9310 0 0 0 0x8000 0 0xc0000000) (mk_dma 0 0 0 0).

Theorem shifted_window_refused :
  exists h', pi4_usb_dma_reserve shifted_handoff = (0, h') /\ da_bus_base (h_pi4_usb_dma h') = 0x408000 /\
    pi4_dma_probe_plan_make h' = (PI4_DMA_PROBE_PLAN_ARENA, None).
Proof. eexists. split; [reflexivity|]. split; vm_compute; reflexivity. Qed.

(** A full map: an entry that the arena fills is replaced in place, a larger one has no room. *)
Definition full_map (length : Z) : zeal_handoff :=
  mk_handoff PI4_USB_DMA_END 7 ZEAL_MEM_MAX
    (mk_mem 0x400000 length ZEAL_MEM_USABLE :: map (fun i => mk_mem (0x1000000 + 0x1000 * Z.of_nat i) 0x1000 2) (seq 0 255)) demo_pcie (mk_dma 0 0 0 0).

Example full_map_in_place : fst (pi4_usb_dma_reserve (full_map 0x100000)) = 0 /\ fst (pi4_usb_dma_reserve (full_map 0x101000)) = -2.
Proof. split; vm_compute; reflexivity. Qed.

Definition demo_plan : pi4_dma_probe_plan := mk_plan 0x400000 (Z.shiftl 4 32 + 0x400000) PI4_USB_DMA_ARENA_BYTES.

Lemma pi4_dma_probe_plan_sound_witness :
  touching (h_pi4_usb_dma demo_reserved) (active demo_reserved) = 1 /\ window_ok (h_pi4_pcie demo_reserved).
Proof.
  destruct (pi4_dma_probe_plan_sound demo_reserved demo_plan) as (_ & _ & _ & H1 & _ & _ & _ & _ & H2 & _).
  - vm_compute. repeat constructor; discriminate.
  - vm_compute. discriminate.
  - vm_compute. discriminate.
  - vm_compute. discriminate.
  - vm_compute. discriminate.
  - vm_compute. discriminate.
  - vm_compute. reflexivity.
  - split; [exact H2 | exact H1].
Defined.

Lemma pi4_pcie_cfg_read_plan_correct_witness :
  exists r, pi4_pcie_cfg_read_plan demo_handoff 0x30 1 0 0 0x10 = (0, Some r) /\
    Z.shiftr (cfg_index r) 20 = 1 /\ Z.shiftr (cfg_index r) 15 mod 32 = 0 /\
    Z.shiftr (cfg_index r) 12 mod 8 = 0 /\ cfg_index r mod 4096 = 0 /\
    cfg_data_offset r = PI4_PCIE_CFG_DATA_OFFSET + 0x10 /\
    cfg_data_offset r + 4 <= PI4_PCIE_CFG_INDEX_OFFSET /\
    PI4_PCIE_CFG_INDEX_OFFSET + 4 <= reg_size demo_pcie /\
    reg_base demo_pcie + PI4_PCIE_CFG_INDEX_OFFSET + 4 <= UINT64_MAX.
Proof.
  apply (pi4_pcie_cfg_read_plan_correct demo_handoff 0x30 1 0 0 0x10); try (unfold is_u; cbn; lia).
Defined.
