(* ===== verification/Fdt.v ===== *)
(** * The flattened device tree reader ([src/src/pi4_pcie_fdt.h]): definitions

    The blob is a list of bytes and a pointer into it is an offset; a read outside the blob is
    [None], so a result that is [Some] is also a proof that every read was inside. *)

From S2P Require Import Prelude PciDma.

Notation "'let?' x ':=' m 'in' k" := (match m with Some x => k | None => None end)
  (at level 10, x pattern, m at level 100, k at level 200, only parsing).

Definition PI4_FDT_MAX_DEPTH : Z := 16.

(** ** Reads *)

Definition rd (blob : list Z) (i : Z) : option Z := if i <? 0 then None else blob !! Z.to_nat i.

Definition pi4_fdt_be32 (blob : list Z) (p : Z) : option Z :=
  let? a := rd blob p in
  let? b := rd blob (p + 1) in
  let? c := rd blob (p + 2) in
  let? d := rd blob (p + 3) in
  Some (Z.lor (Z.lor (Z.lor (Z.shiftl a 24) (Z.shiftl b 16)) (Z.shiftl c 8)) d).

Definition pi4_fdt_span (off len total : Z) : bool := (off <=? total) && (len <=? total - off).

(** One or two cells; the inner [None] is the code's 0. *)
Definition pi4_fdt_cells (blob : list Z) (p n : Z) : option (option Z) :=
  if (n =? 0) || (2 <? n) then Some None
  else
    let? hi := pi4_fdt_be32 blob p in
    if n =? 1 then Some (Some hi)
    else
      let? lo := pi4_fdt_be32 blob (p + 4) in
      Some (Some (Z.lor (u64 (Z.shiftl hi 32)) lo)).

(** The [n] bytes at [p] start with the string [want] and its NUL. *)
Fixpoint string_eq_from (blob : list Z) (p n i : Z) (want : list Z) : option bool :=
  match want with
  | w :: want' =>
      if i <? n then
        let? c := rd blob (p + i) in
        if negb (c =? 0) && (c =? w) then string_eq_from blob p n (i + 1) want' else Some false
      else Some false
  | [] => if i <? n then let? c := rd blob (p + i) in Some (c =? 0) else Some false
  end.
Definition pi4_fdt_string_eq (blob : list Z) (p : option Z) (n : Z) (want : list Z) : option bool :=
  match p with None => Some false | Some p => string_eq_from blob p n 0 want end.

(** [while (end < n && p\[end\]) end++;] *)
Fixpoint scan_nul (fuel : nat) (blob : list Z) (p n end_ : Z) : option Z :=
  match fuel with
  | O => Some end_
  | S fuel' =>
      if end_ <? n then
        let? c := rd blob (p + end_) in
        if negb (c =? 0) then scan_nul fuel' blob p n (end_ + 1) else Some end_
      else Some end_
  end.

Fixpoint string_list_from (fuel : nat) (blob : list Z) (p n at_ : Z) (want : list Z) : option bool :=
  match fuel with
  | O => None
  | S fuel' =>
      if at_ <? n then
        let? end_ := scan_nul (Z.to_nat (n - at_)) blob p n at_ in
        if end_ =? n then Some false
        else
          let? eq := pi4_fdt_string_eq blob (Some (p + at_)) (end_ - at_ + 1) want in
          if eq : bool then Some true else string_list_from fuel' blob p n (end_ + 1) want
      else Some false
  end.
Definition pi4_fdt_string_list_has (blob : list Z) (p : option Z) (n : Z) (want : list Z) : option bool :=
  match p with None => Some false | Some p => string_list_from (S (Z.to_nat n)) blob p n 0 want end.

(** The string at [nameoff] of the strings block, [at_] being [nameoff + i]. *)
Fixpoint property_name_from (blob : list Z) (strings size at_ : Z) (want : list Z) : option bool :=
  match want with
  | w :: want' =>
      if at_ <? size then
        let? c := rd blob (strings + at_) in
        if negb (c =? 0) && (c =? w) then property_name_from blob strings size (u32 (at_ + 1)) want' else Some false
      else Some false
  | [] => if at_ <? size then let? c := rd blob (strings + at_) in Some (c =? 0) else Some false
  end.
Definition pi4_fdt_property_name (blob : list Z) (strings strings_size nameoff : Z) (want : list Z) : option bool :=
  if strings_size <=? nameoff then Some false else property_name_from blob strings strings_size nameoff want.

(** ** Nodes *)

Record pi4_fdt_node := mk_node {
  address_cells : Z; size_cells : Z;
  n_reg : option Z; n_reg_size : Z;
  n_ranges : option Z; n_ranges_size : Z;
  n_dma_ranges : option Z; n_dma_ranges_size : Z;
  n_compatible : option Z; n_compatible_size : Z;
  n_status : option Z; n_status_size : Z;
  have_ranges : bool; have_dma_ranges : bool; have_status : bool }.

Definition new_node : pi4_fdt_node := mk_node 2 1 None 0 None 0 None 0 None 0 None 0 false false false.

(** The first tuple of [bus]'s ranges from [off] on that holds the address, translated. *)
Fixpoint translate_tuples (fuel : nat) (blob : list Z) (ranges ranges_size child_cells parent_cells size_cells off address : Z)
    : option (option Z) :=
  match fuel with
  | O => None
  | S fuel' =>
      let stride := (child_cells + parent_cells + size_cells) * 4 in
      if off <? ranges_size then
        let tuple := ranges + off in
        let? c := pi4_fdt_cells blob tuple child_cells in
        match c with
        | None => Some None
        | Some child_base =>
            let? p := pi4_fdt_cells blob (tuple + child_cells * 4) parent_cells in
            match p with
            | None => Some None
            | Some parent_base =>
                let? s := pi4_fdt_cells blob (tuple + (child_cells + parent_cells) * 4) size_cells in
                match s with
                | None => Some None
                | Some size =>
                    if (size =? 0) || (UINT64_MAX - size <? child_base) then Some None
                    else if (child_base <=? address) && (address - child_base <? size) then
                      let delta := address - child_base in
                      if UINT64_MAX - delta <? parent_base then Some None else Some (Some (parent_base + delta))
                    else translate_tuples fuel' blob ranges ranges_size child_cells parent_cells size_cells (u32 (off + stride)) address
                end
            end
        end
      else Some None
  end.

(** The open nodes from the parent of the bridge up: each bus with its own parent. *)
Fixpoint pi4_fdt_translate_reg (blob : list Z) (buses : list pi4_fdt_node) (address : Z) : option (option Z) :=
  match buses with
  | bus :: ((parent :: _) as rest) =>
      let child_cells := address_cells bus in
      let parent_cells := address_cells parent in
      let size_cells := size_cells bus in
      if negb (have_ranges bus) then Some None
      else if n_ranges_size bus =? 0 then pi4_fdt_translate_reg blob rest address
      else if (child_cells =? 0) || (2 <? child_cells) || (parent_cells =? 0) || (2 <? parent_cells) ||
              (size_cells =? 0) || (2 <? size_cells) then Some None
      else
        let stride := (child_cells + parent_cells + size_cells) * 4 in
        if (stride =? 0) || negb (n_ranges_size bus mod stride =? 0) then Some None
        else
          match n_ranges bus with
          | None => None
          | Some ranges =>
              let? r := translate_tuples (S (Z.to_nat (n_ranges_size bus / stride))) blob ranges (n_ranges_size bus)
                          child_cells parent_cells size_cells 0 address in
              match r with
              | None => Some None
              | Some address => pi4_fdt_translate_reg blob rest address
              end
          end
  | _ => Some (Some address)
  end.

(** The first memory window of a PCI ranges property: bus base, CPU base, size. *)
Fixpoint window_tuples (fuel : nat) (blob : list Z) (ranges ranges_size parent_address_cells off : Z)
    : option (option (Z * Z * Z)) :=
  match fuel with
  | O => None
  | S fuel' =>
      let child_cells := 3 in
      let size_cells := 2 in
      let stride := (child_cells + parent_address_cells + size_cells) * 4 in
      if off <? ranges_size then
        let tuple := ranges + off in
        let? hi := pi4_fdt_be32 blob tuple in
        if negb (Z.land (Z.shiftr hi 24) 3 =? 2)
        then window_tuples fuel' blob ranges ranges_size parent_address_cells (u32 (off + stride))
        else
          let? c := pi4_fdt_cells blob (tuple + 4) 2 in
          match c with
          | None => Some None
          | Some child =>
              let? p := pi4_fdt_cells blob (tuple + child_cells * 4) parent_address_cells in
              match p with
              | None => Some None
              | Some parent =>
                  let? s := pi4_fdt_cells blob (tuple + (child_cells + parent_address_cells) * 4) size_cells in
                  match s with
                  | None => Some None
                  | Some size =>
                      if (size =? 0) || (UINT64_MAX - size <? child) || (UINT64_MAX - size <? parent) then Some None
                      else Some (Some (child, parent, size))
                  end
              end
          end
      else Some None
  end.
Definition pi4_fdt_pci_window (blob : list Z) (ranges : option Z) (ranges_size parent_address_cells : Z)
    : option (option (Z * Z * Z)) :=
  match ranges with
  | None => Some None
  | Some ranges =>
      if (parent_address_cells =? 0) || (2 <? parent_address_cells) then Some None
      else
        let stride := (3 + parent_address_cells + 2) * 4 in
        if (stride =? 0) || negb (ranges_size mod stride =? 0) then Some None
        else window_tuples (S (Z.to_nat (ranges_size / stride))) blob ranges ranges_size parent_address_cells 0
  end.

(** ** The bridge's node *)

Definition S_compatible : list Z := bytes_of_string "compatible"%string.
Definition BCM2711_PCIE : list Z := bytes_of_string "brcm,bcm2711-pcie"%string.

Definition set_flags (f : Z) (o : zeal_pi4_pcie) : zeal_pi4_pcie :=
  mk_pcie f (fdt_status o) (reg_base o) (reg_size o) (mem_bus_base o) (mem_cpu_base o) (mem_size o)
    (dma_bus_base o) (dma_cpu_base o) (dma_size o).
Definition add_flag (f : Z) (o : zeal_pi4_pcie) : zeal_pi4_pcie := set_flags (Z.lor (pc_flags o) f) o.
Definition set_reg (base size : Z) (o : zeal_pi4_pcie) : zeal_pi4_pcie :=
  mk_pcie (pc_flags o) (fdt_status o) base size (mem_bus_base o) (mem_cpu_base o) (mem_size o)
    (dma_bus_base o) (dma_cpu_base o) (dma_size o).
Definition set_mem (w : Z * Z * Z) (o : zeal_pi4_pcie) : zeal_pi4_pcie :=
  let '(bus, cpu, size) := w in
  mk_pcie (pc_flags o) (fdt_status o) (reg_base o) (reg_size o) bus cpu size (dma_bus_base o) (dma_cpu_base o) (dma_size o).
Definition set_dma (w : Z * Z * Z) (o : zeal_pi4_pcie) : zeal_pi4_pcie :=
  let '(bus, cpu, size) := w in
  mk_pcie (pc_flags o) (fdt_status o) (reg_base o) (reg_size o) (mem_bus_base o) (mem_cpu_base o) (mem_size o) bus cpu size.

(** The status property: absent, "okay" or "ok". *)
Definition node_enabled (blob : list Z) (node : pi4_fdt_node) : option bool :=
  if negb (have_status node) then Some true
  else
    let? okay := pi4_fdt_string_eq blob (n_status node) (n_status_size node) (bytes_of_string "okay"%string) in
    if okay : bool then Some true
    else pi4_fdt_string_eq blob (n_status node) (n_status_size node) (bytes_of_string "ok"%string).

(** The register block: its translated address and its size. *)
Definition node_reg (blob : list Z) (node : pi4_fdt_node) (parents : list pi4_fdt_node) : option (option (Z * Z)) :=
  match parents, n_reg node with
  | parent :: _, Some reg =>
      let ac := address_cells parent in
      let sc := size_cells parent in
      if (0 <? ac) && (ac <=? 2) && (0 <? sc) && (sc <=? 2) then
        let reg_stride := (ac + sc) * 4 in
        if negb (reg_stride =? 0) && (reg_stride <=? n_reg_size node) then
          let? a := pi4_fdt_cells blob reg ac in
          match a with
          | None => Some None
          | Some address =>
              let? s := pi4_fdt_cells blob (reg + ac * 4) sc in
              match s with
              | None => Some None
              | Some size =>
                  if size =? 0 then Some None
                  else
                    let? t := pi4_fdt_translate_reg blob parents address in
                    match t with
                    | None => Some None
                    | Some address => if address <=? UINT64_MAX - size then Some (Some (address, size)) else Some None
                    end
              end
          end
        else Some None
      else Some None
  | _, _ => Some None
  end.

(** The open nodes, the innermost first; [None]: this is not the bridge. *)
Definition pi4_fdt_decode_pcie_node (blob : list Z) (stack : list pi4_fdt_node) (out : zeal_pi4_pcie)
    : option (option zeal_pi4_pcie) :=
  match stack with
  | [] => Some None
  | node :: parents =>
      let? is_bridge := pi4_fdt_string_list_has blob (n_compatible node) (n_compatible_size node) BCM2711_PCIE in
      if negb is_bridge then Some None
      else
        let out := set_flags PI4_PCIE_FDT_PRESENT out in
        let? enabled := node_enabled blob node in
        let out := if enabled : bool then add_flag PI4_PCIE_FDT_ENABLED out else out in
        let? r := node_reg blob node parents in
        let out := match r with Some (base, size) => add_flag PI4_PCIE_FDT_REG (set_reg base size out) | None => out end in
        let cells := match parents with parent :: _ => address_cells parent | [] => 0 end in
        let? m := pi4_fdt_pci_window blob (n_ranges node) (n_ranges_size node) cells in
        let out := match m with Some w => add_flag PI4_PCIE_FDT_MEM (set_mem w out) | None => out end in
        let? d := pi4_fdt_pci_window blob (n_dma_ranges node) (n_dma_ranges_size node) cells in
        Some (Some (match d with Some w => add_flag PI4_PCIE_FDT_DMA (set_dma w out) | None => out end))
  end.

(** ** The structure block *)

(** One property stored in its node; [inl]: an error. *)
Definition fdt_property (blob : list Z) (strings size_strings nameoff data len : Z) (node : pi4_fdt_node)
    : option (Z + pi4_fdt_node) :=
  let name := pi4_fdt_property_name blob strings size_strings nameoff in
  let? is_ac := name (bytes_of_string "#address-cells"%string) in
  if is_ac : bool then
    if negb (len =? 4) then Some (inl (-8))
    else let? v := pi4_fdt_be32 blob data in
      Some (inr (mk_node v (size_cells node) (n_reg node) (n_reg_size node) (n_ranges node) (n_ranges_size node)
        (n_dma_ranges node) (n_dma_ranges_size node) (n_compatible node) (n_compatible_size node) (n_status node)
        (n_status_size node) (have_ranges node) (have_dma_ranges node) (have_status node)))
  else
  let? is_sc := name (bytes_of_string "#size-cells"%string) in
  if is_sc : bool then
    if negb (len =? 4) then Some (inl (-9))
    else let? v := pi4_fdt_be32 blob data in
      Some (inr (mk_node (address_cells node) v (n_reg node) (n_reg_size node) (n_ranges node) (n_ranges_size node)
        (n_dma_ranges node) (n_dma_ranges_size node) (n_compatible node) (n_compatible_size node) (n_status node)
        (n_status_size node) (have_ranges node) (have_dma_ranges node) (have_status node)))
  else
  let? is_reg := name (bytes_of_string "reg"%string) in
  if is_reg : bool then
      Some (inr (mk_node (address_cells node) (size_cells node) (Some data) len (n_ranges node) (n_ranges_size node)
        (n_dma_ranges node) (n_dma_ranges_size node) (n_compatible node) (n_compatible_size node) (n_status node)
        (n_status_size node) (have_ranges node) (have_dma_ranges node) (have_status node)))
  else
  let? is_ranges := name (bytes_of_string "ranges"%string) in
  if is_ranges : bool then
      Some (inr (mk_node (address_cells node) (size_cells node) (n_reg node) (n_reg_size node) (Some data) len
        (n_dma_ranges node) (n_dma_ranges_size node) (n_compatible node) (n_compatible_size node) (n_status node)
        (n_status_size node) true (have_dma_ranges node) (have_status node)))
  else
  let? is_dma := name (bytes_of_string "dma-ranges"%string) in
  if is_dma : bool then
      Some (inr (mk_node (address_cells node) (size_cells node) (n_reg node) (n_reg_size node) (n_ranges node)
        (n_ranges_size node) (Some data) len (n_compatible node) (n_compatible_size node) (n_status node)
        (n_status_size node) (have_ranges node) true (have_status node)))
  else
  let? is_compat := name S_compatible in
  if is_compat : bool then
      Some (inr (mk_node (address_cells node) (size_cells node) (n_reg node) (n_reg_size node) (n_ranges node)
        (n_ranges_size node) (n_dma_ranges node) (n_dma_ranges_size node) (Some data) len (n_status node)
        (n_status_size node) (have_ranges node) (have_dma_ranges node) (have_status node)))
  else
  let? is_status := name (bytes_of_string "status"%string) in
  if is_status : bool then
      Some (inr (mk_node (address_cells node) (size_cells node) (n_reg node) (n_reg_size node) (n_ranges node)
        (n_ranges_size node) (n_dma_ranges node) (n_dma_ranges_size node) (n_compatible node) (n_compatible_size node)
        (Some data) len (have_ranges node) (have_dma_ranges node) true))
  else Some (inr node).

(** [x & ~3u] *)
Definition align4 (x : Z) : Z := Z.land x 0xfffffffc.

(** The cursor, the open nodes (the innermost first), whether the bridge was found, and the record. *)
Record fdt_state := mk_fdt { fs_cursor : Z; fs_stack : list pi4_fdt_node; fs_found : bool; fs_out : zeal_pi4_pcie }.

(** One token: the loop goes on, or the function returns. *)
Definition fdt_token (blob : list Z) (structure size_struct strings size_strings : Z) (s : fdt_state)
    : option (fdt_state + Z * zeal_pi4_pcie) :=
  let stack := fs_stack s in
  let out := fs_out s in
  let? token := pi4_fdt_be32 blob (structure + fs_cursor s) in
  let cursor := u32 (fs_cursor s + 4) in
  if token =? 1 then
    if PI4_FDT_MAX_DEPTH <=? Z.of_nat (length stack) then Some (inr (-3, out))
    else
      let? name_end := scan_nul (Z.to_nat (size_struct - cursor)) blob structure size_struct cursor in
      if size_struct <=? name_end then Some (inr (-4, out))
      else Some (inl (mk_fdt (align4 (u32 (name_end + 4))) (new_node :: stack) (fs_found s) out))
  else if token =? 2 then
    match stack with
    | [] => Some (inr (-5, out))
    | _ :: rest =>
        if fs_found s then Some (inl (mk_fdt cursor rest true out))
        else
          let? d := pi4_fdt_decode_pcie_node blob stack out in
          match d with
          | Some out => Some (inl (mk_fdt cursor rest true out))
          | None => Some (inl (mk_fdt cursor rest false out))
          end
    end
  else if token =? 3 then
    match stack with
    | [] => Some (inr (-6, out))
    | node :: rest =>
        if size_struct <? u32 (cursor + 8) then Some (inr (-6, out))
        else
          let? len := pi4_fdt_be32 blob (structure + cursor) in
          let? nameoff := pi4_fdt_be32 blob (structure + cursor + 4) in
          let cursor := u32 (cursor + 8) in
          if (u32 (size_struct - cursor) <? len) || (size_strings <=? nameoff) then Some (inr (-7, out))
          else
            let? r := fdt_property blob strings size_strings nameoff (structure + cursor) len node in
            match r with
            | inl code => Some (inr (code, out))
            | inr node => Some (inl (mk_fdt (align4 (u32 (cursor + len + 3))) (node :: rest) (fs_found s) out))
            end
    end
  else if token =? 4 then Some (inl (mk_fdt cursor stack (fs_found s) out))
  else if token =? 9 then
    match stack with
    | [] => Some (inr (if fs_found s then 0 else -13, out))
    | _ => Some (inr (-10, out))
    end
  else Some (inr (-11, out)).

Fixpoint fdt_loop (fuel : nat) (blob : list Z) (structure size_struct strings size_strings : Z) (s : fdt_state)
    : option (Z * zeal_pi4_pcie) :=
  match fuel with
  | O => None
  | S fuel' =>
      if u32 (fs_cursor s + 4) <=? size_struct then
        let? r := fdt_token blob structure size_struct strings size_strings s in
        match r with
        | inl s => fdt_loop fuel' blob structure size_struct strings size_strings s
        | inr result => Some result
        end
      else Some (-12, fs_out s)
  end.

Definition pi4_fdt_find_pcie (blob : list Z) (available : Z) (out : zeal_pi4_pcie) : option (Z * zeal_pi4_pcie) :=
  if available <? 40 then Some (-1, out)
  else
    let? magic := pi4_fdt_be32 blob 0 in
    if negb (magic =? 0xd00dfeed) then Some (-1, out)
    else
      let? total := pi4_fdt_be32 blob 4 in
      let? off_struct := pi4_fdt_be32 blob 8 in
      let? off_strings := pi4_fdt_be32 blob 12 in
      let? size_strings := pi4_fdt_be32 blob 32 in
      let? size_struct := pi4_fdt_be32 blob 36 in
      if (total <? 40) || (available <? total) || negb (pi4_fdt_span off_struct size_struct total) ||
         negb (pi4_fdt_span off_strings size_strings total)
      then Some (-2, out)
      else
        fdt_loop (S (Z.to_nat (size_struct / 4))) blob off_struct size_struct off_strings size_strings
          (mk_fdt 0 [] false (mk_pcie 0 (fdt_status out) 0 0 0 0 0 0 0 0)).
