(* ===== verification/FdtSpec.v ===== *)
(** * The flattened device tree reader: every read is inside the blob, every loop ends *)

From S2P Require Import Prelude PciDma PciDmaSpec Fdt.
#[local] Open Scope Z_scope.

Section Blob.
Context (blob : list Z).
Hypothesis Hbytes : bytes_ok blob.

Definition blen : Z := Z.of_nat (length blob).

(** [n] bytes at [p] are inside the blob. *)
Definition span_ok (p n : Z) : Prop := 0 <= p /\ 0 <= n /\ p + n <= blen.

(** [defined m P]: the computation makes no read outside the blob, and its result has [P]. *)
Definition defined {A} (m : option A) (P : A -> Prop) : Prop := exists a, m = Some a /\ P a.

Lemma defined_bind {A B} (m : option A) (k : A -> option B) P Q :
  defined m P -> (forall a, P a -> defined (k a) Q) -> defined (let? a := m in k a) Q.
Proof. intros (a & -> & Ha) Hk. apply Hk, Ha. Qed.
Lemma defined_some {A} (a : A) (P : A -> Prop) : P a -> defined (Some a) P.
Proof. intros H. exists a. auto. Qed.
Lemma defined_mono {A} (m : option A) (P Q : A -> Prop) : defined m P -> (forall a, P a -> Q a) -> defined m Q.
Proof. intros (a & E & Ha) H. exists a. auto. Qed.
Definition any {A} : A -> Prop := fun _ => True.

Lemma rd_ok i : 0 <= i < blen -> defined (rd blob i) (fun b => 0 <= b < 256).
Proof using Hbytes.
  intros H. unfold blen in H. unfold rd. destruct (i <? 0) eqn:E; zbool; [lia|].
  destruct (lookup_lt_is_Some_2 blob (Z.to_nat i)) as [b Hb]; [lia|]. exists b. split; [exact Hb|].
  unfold bytes_ok in Hbytes. rewrite Forall_lookup in Hbytes. exact (Hbytes _ _ Hb).
Qed.

Lemma be32_ok p : span_ok p 4 -> defined (pi4_fdt_be32 blob p) (fun v => 0 <= v < 4294967296).
Proof using Hbytes.
  intros (H1 & _ & H2). unfold pi4_fdt_be32.
  eapply defined_bind; [apply rd_ok; lia | intros a Ha; cbv beta in *]. eapply defined_bind; [apply rd_ok; lia | intros b Hb; cbv beta in *].
  eapply defined_bind; [apply rd_ok; lia | intros c Hc; cbv beta in *]. eapply defined_bind; [apply rd_ok; lia | intros d Hd; cbv beta in *].
  apply defined_some.
  replace (Z.lor (Z.lor (Z.lor (Z.shiftl a 24) (Z.shiftl b 16)) (Z.shiftl c 8)) d)
    with (Z.lor (Z.lor (Z.lor d (Z.shiftl c 8)) (Z.shiftl b 16)) (Z.shiftl a 24)).
  - rewrite lor4_bytes by lia. lia.
  - apply Z.bits_inj'. intros i _. rewrite !Z.lor_spec.
    destruct (Z.testbit d i), (Z.testbit (Z.shiftl c 8) i), (Z.testbit (Z.shiftl b 16) i), (Z.testbit (Z.shiftl a 24) i); reflexivity.
Qed.

Definition is_u64 (v : Z) : Prop := 0 <= v < 18446744073709551616.
Definition opt {A} (P : A -> Prop) (r : option A) : Prop := match r with Some a => P a | None => True end.

Lemma cells_ok p n : span_ok p (n * 4) -> defined (pi4_fdt_cells blob p n) (opt is_u64).
Proof using Hbytes.
  intros (H1 & H2 & H3). unfold pi4_fdt_cells.
  destruct ((n =? 0) || (2 <? n)) eqn:E; [apply defined_some; exact I|]. bool_hyps. zbool.
  eapply defined_bind; [apply be32_ok; unfold span_ok; lia | intros hi Hhi; cbv beta in *].
  destruct (n =? 1) eqn:E1; zbool; [apply defined_some; cbn; unfold is_u64; lia|].
  eapply defined_bind; [apply be32_ok; unfold span_ok; lia | intros lo Hlo; cbv beta in *].
  apply defined_some. cbn. unfold is_u64. rewrite Z.shiftl_mul_pow2, u64_id by lia.
  rewrite Z.lor_comm. rewrite <- Z.shiftl_mul_pow2 by lia. rewrite lor_shiftl_add by lia. lia.
Qed.

Lemma string_eq_ok p n want : span_ok p n -> forall i, 0 <= i -> defined (string_eq_from blob p n i want) any.
Proof using Hbytes.
  intros (H1 & H2 & H3). induction want as [|w want IH]; intros i Hi; cbn [string_eq_from];
    (destruct (i <? n) eqn:E; zbool; [|apply defined_some; exact I]);
    (eapply defined_bind; [apply rd_ok; lia | intros c _]).
  - apply defined_some. exact I.
  - destruct (_ && _); [apply IH; lia | apply defined_some; exact I].
Qed.

(** A property's place in the blob, or no property. *)
Definition prop_ok (p : option Z) (n : Z) : Prop :=
  0 <= n < 4294967296 /\ match p with Some p => span_ok p n | None => True end.

Lemma fdt_string_eq_ok p n want : prop_ok p n -> defined (pi4_fdt_string_eq blob p n want) any.
Proof using Hbytes.
  intros [_ H]. destruct p as [p|]; [apply string_eq_ok; [exact H | lia] | apply defined_some; exact I].
Qed.

Lemma scan_nul_ok p n : span_ok p n -> forall fuel e, 0 <= e <= n -> n <= e + Z.of_nat fuel ->
  defined (scan_nul fuel blob p n e) (fun e' => e <= e' <= n).
Proof using Hbytes.
  intros (H1 & H2 & H3). induction fuel as [|fuel IH]; intros e He Hf; cbn [scan_nul]; [apply defined_some; lia|].
  destruct (e <? n) eqn:E; zbool; [|apply defined_some; lia].
  eapply defined_bind; [apply rd_ok; lia | intros c _].
  destruct (negb _); [|apply defined_some; lia].
  eapply defined_mono; [apply IH; lia | cbn; intros; lia].
Qed.

Lemma string_list_ok p n want : span_ok p n -> n < 4294967296 -> forall fuel at_, 0 <= at_ <= n -> n < at_ + Z.of_nat fuel ->
  defined (string_list_from fuel blob p n at_ want) any.
Proof using Hbytes.
  intros Hs Hn. induction fuel as [|fuel IH]; intros at_ Ha Hf; cbn [string_list_from]; [lia|].
  destruct (at_ <? n) eqn:E; zbool; [|apply defined_some; exact I].
  eapply defined_bind; [apply scan_nul_ok; [exact Hs | lia | lia] | intros e He; cbv beta in *].
  destruct (e =? n) eqn:E1; zbool; [apply defined_some; exact I|].
  eapply defined_bind; [apply fdt_string_eq_ok; split; [lia | unfold span_ok in *; lia] | intros [] _].
  - apply defined_some. exact I.
  - apply IH; lia.
Qed.

Lemma fdt_string_list_ok p n want : prop_ok p n -> defined (pi4_fdt_string_list_has blob p n want) any.
Proof using Hbytes.
  intros [Hn H]. destruct p as [p|]; [|apply defined_some; exact I].
  apply string_list_ok; [exact H | lia | lia | lia].
Qed.

Lemma property_name_ok strings size want : span_ok strings size -> size < 4294967296 ->
  forall at_, 0 <= at_ <= size -> defined (property_name_from blob strings size at_ want) any.
Proof using Hbytes.
  intros (H1 & H2 & H3) Hs. induction want as [|w want IH]; intros at_ Ha; cbn [property_name_from];
    (destruct (at_ <? size) eqn:E; zbool; [|apply defined_some; exact I]);
    (eapply defined_bind; [apply rd_ok; lia | intros c _]).
  - apply defined_some. exact I.
  - rewrite u32_id by lia. destruct (_ && _); [apply IH; lia | apply defined_some; exact I].
Qed.

Lemma fdt_property_name_ok strings size nameoff want : span_ok strings size -> size < 4294967296 -> 0 <= nameoff ->
  defined (pi4_fdt_property_name blob strings size nameoff want) any.
Proof using Hbytes.
  intros H1 H2 H3. unfold pi4_fdt_property_name. destruct (_ <=? _) eqn:E; zbool; [apply defined_some; exact I|].
  apply property_name_ok; auto. lia.
Qed.

(** ** Nodes *)

Record node_ok (n : pi4_fdt_node) : Prop := {
  no_cells : 0 <= address_cells n /\ 0 <= size_cells n;
  no_reg : prop_ok (n_reg n) (n_reg_size n);
  no_ranges : prop_ok (n_ranges n) (n_ranges_size n);
  no_dma : prop_ok (n_dma_ranges n) (n_dma_ranges_size n);
  no_compatible : prop_ok (n_compatible n) (n_compatible_size n);
  no_status : prop_ok (n_status n) (n_status_size n);
  no_have : have_ranges n = true -> is_Some (n_ranges n) }.

Lemma new_node_ok : node_ok new_node.
Proof. split; cbn; try (split; [lia | exact I]); try lia. Qed.

Lemma tuples_fit total off stride : 0 < stride -> total mod stride = 0 -> off mod stride = 0 -> 0 <= off < total ->
  off + stride <= total /\ (off + stride) mod stride = 0.
Proof.
  intros Hs Ht Ho Hlt. split.
  - apply Z.mod_divide in Ht as [q Hq]; [|lia]. apply Z.mod_divide in Ho as [r Hr]; [|lia]. subst total off.
    assert (r < q) by nia. nia.
  - rewrite <- (Z.mul_1_l stride) at 1. rewrite Z.mod_add by lia. exact Ho.
Qed.

Lemma translate_tuples_ok ranges total c p s : span_ok ranges total -> total < 4294967296 ->
  1 <= c <= 2 -> 1 <= p <= 2 -> 1 <= s <= 2 -> total mod ((c + p + s) * 4) = 0 ->
  forall fuel off address, 0 <= off <= total -> off mod ((c + p + s) * 4) = 0 ->
  total < off + (c + p + s) * 4 * Z.of_nat fuel -> is_u64 address ->
  defined (translate_tuples fuel blob ranges total c p s off address) (opt is_u64).
Proof using Hbytes.
  intros (R1 & R2 & R3) Ht Hc Hp Hs Hmod. set (stride := (c + p + s) * 4) in *.
  assert (Hst : 12 <= stride <= 24) by (subst stride; lia).
  induction fuel as [|fuel IH]; intros off address Ho Hom Hf Ha; cbn [translate_tuples]; [lia|].
  fold stride. destruct (off <? total) eqn:E; zbool; [|apply defined_some; exact I].
  destruct (tuples_fit total off stride ltac:(lia) Hmod Hom ltac:(lia)) as [T1 T2].
  eapply defined_bind; [apply cells_ok; unfold span_ok; lia | intros [child|] Hchild; [|apply defined_some; exact I]].
  eapply defined_bind; [apply cells_ok; unfold span_ok; lia | intros [parent|] Hparent; [|apply defined_some; exact I]].
  eapply defined_bind; [apply cells_ok; unfold span_ok; lia | intros [size|] Hsize; [|apply defined_some; exact I]].
  cbn in Hchild, Hparent, Hsize. unfold is_u64, UINT64_MAX in *.
  destruct (_ || _) eqn:E1; [apply defined_some; exact I|]. bool_hyps. zbool.
  destruct (_ && _) eqn:E2.
  - bool_hyps. zbool. destruct (_ <? parent) eqn:E3; zbool; apply defined_some; cbn; [exact I | lia].
  - rewrite u32_id by lia. apply IH; auto; lia.
Qed.

Lemma translate_reg_ok buses : Forall node_ok buses -> forall address, is_u64 address ->
  defined (pi4_fdt_translate_reg blob buses address) (opt is_u64).
Proof using Hbytes.
  induction buses as [|bus buses IH]; intros Hb address Ha; [apply defined_some; exact Ha|].
  destruct buses as [|parent rest]; [apply defined_some; exact Ha|].
  cbn [pi4_fdt_translate_reg]. inversion Hb as [|? ? Hbus Hrest]; subst.
  destruct (negb (have_ranges bus)) eqn:Eh; [apply defined_some; exact I|]. bool_hyps.
  destruct (n_ranges_size bus =? 0) eqn:E0; [apply IH; auto|].
  destruct (_ || (2 <? size_cells bus)) eqn:E1; [apply defined_some; exact I|]. bool_hyps. zbool.
  destruct (_ || _) eqn:E2; [apply defined_some; exact I|]. bool_hyps. zbool.
  pose proof (no_cells _ Hbus). inversion Hrest as [|? ? Hpar _]; subst. pose proof (no_cells _ Hpar).
  destruct (no_ranges _ Hbus) as [Hn Hr]. destruct (no_have _ Hbus Eh) as [ranges Er]. rewrite Er in *.
  eapply defined_bind.
  - apply translate_tuples_ok; try assumption; try lia.
    + apply Z.mod_0_l. lia.
    + set (st := (address_cells bus + address_cells parent + size_cells bus) * 4) in *.
      pose proof (Z.div_mod (n_ranges_size bus) st ltac:(lia)). pose proof (Z.mod_pos_bound (n_ranges_size bus) st ltac:(lia)).
      rewrite Nat2Z.inj_succ, Z2Nat.id by (apply Z.div_pos; lia). nia.
  - intros [a|] Hx; [apply IH; auto | apply defined_some; exact I].
Qed.

(** A window: 64-bit words that do not wrap, not empty. *)
Definition window3_ok (w : Z * Z * Z) : Prop :=
  let '(bus, cpu, size) := w in 0 <= bus /\ 0 <= cpu /\ 0 < size /\ bus + size <= UINT64_MAX /\ cpu + size <= UINT64_MAX.

Lemma window_tuples_ok ranges total ac : span_ok ranges total -> total < 4294967296 ->
  1 <= ac <= 2 -> total mod ((3 + ac + 2) * 4) = 0 ->
  forall fuel off, 0 <= off <= total -> off mod ((3 + ac + 2) * 4) = 0 ->
  total < off + (3 + ac + 2) * 4 * Z.of_nat fuel ->
  defined (window_tuples fuel blob ranges total ac off) (opt window3_ok).
Proof using Hbytes.
  intros (R1 & R2 & R3) Ht Hc Hmod. set (stride := (3 + ac + 2) * 4) in *.
  assert (Hst : 24 <= stride <= 28) by (subst stride; lia).
  induction fuel as [|fuel IH]; intros off Ho Hom Hf; cbn [window_tuples]; [lia|].
  fold stride. destruct (off <? total) eqn:E; zbool; [|apply defined_some; exact I].
  destruct (tuples_fit total off stride ltac:(lia) Hmod Hom ltac:(lia)) as [T1 T2].
  eapply defined_bind; [apply be32_ok; unfold span_ok; lia | intros hi Hhi; cbv beta in *].
  destruct (negb _); [rewrite u32_id by lia; apply IH; auto; lia|].
  eapply defined_bind; [apply cells_ok; unfold span_ok; lia | intros [child|] Hchild; [|apply defined_some; exact I]].
  eapply defined_bind; [apply cells_ok; unfold span_ok; lia | intros [parent|] Hparent; [|apply defined_some; exact I]].
  eapply defined_bind; [apply cells_ok; unfold span_ok; lia | intros [size|] Hsize; [|apply defined_some; exact I]].
  cbn in Hchild, Hparent, Hsize. unfold is_u64 in *.
  destruct (_ || _) eqn:E1; [apply defined_some; exact I|]. bool_hyps. zbool.
  apply defined_some. cbn. lia.
Qed.

Lemma pci_window_ok p n ac : prop_ok p n -> 0 <= ac -> defined (pi4_fdt_pci_window blob p n ac) (opt window3_ok).
Proof using Hbytes.
  intros [Hn Hp] Hac. unfold pi4_fdt_pci_window. destruct p as [p|]; [|apply defined_some; exact I].
  destruct (_ || (2 <? ac)) eqn:E1; [apply defined_some; exact I|]. bool_hyps. zbool.
  destruct (_ || _) eqn:E2; [apply defined_some; exact I|]. bool_hyps. zbool.
  apply window_tuples_ok; try assumption; try lia.
  - apply Z.mod_0_l. lia.
  - pose proof (Z.div_mod n ((3 + ac + 2) * 4) ltac:(lia)). pose proof (Z.mod_pos_bound n ((3 + ac + 2) * 4) ltac:(lia)).
    rewrite Nat2Z.inj_succ, Z2Nat.id by (apply Z.div_pos; lia). nia.
Qed.

(** ** The record *)

(** Each flag vouches for its addresses: sizes are not zero and nothing wraps. *)
Record pcie_ok (o : zeal_pi4_pcie) : Prop := {
  po_reg : has (pc_flags o) PI4_PCIE_FDT_REG = true ->
    0 <= reg_base o /\ 0 < reg_size o /\ reg_base o + reg_size o <= UINT64_MAX;
  po_mem : has (pc_flags o) PI4_PCIE_FDT_MEM = true ->
    window3_ok (mem_bus_base o, mem_cpu_base o, mem_size o);
  po_dma : has (pc_flags o) PI4_PCIE_FDT_DMA = true -> window_ok o }.

Lemma has_lor f g m : has (Z.lor f g) m = has f m || has g m.
Proof.
  unfold has. rewrite Z.land_lor_distr_l. destruct (Z.eqb_spec (Z.land f m) 0) as [->|H].
  - rewrite Z.lor_0_l. reflexivity.
  - destruct (Z.eqb_spec (Z.lor (Z.land f m) (Z.land g m)) 0) as [E|]; [|reflexivity].
    apply Z.lor_eq_0_iff in E as [E _]. congruence.
Qed.

Lemma add_flag_ok f o : pcie_ok o -> has f PI4_PCIE_FDT_REG = false -> has f PI4_PCIE_FDT_MEM = false ->
  has f PI4_PCIE_FDT_DMA = false -> pcie_ok (add_flag f o).
Proof.
  intros [O1 O2 O3] H1 H2 H3. split; cbn [add_flag set_flags pc_flags]; rewrite has_lor, ?H1, ?H2, ?H3, orb_false_r; assumption.
Qed.

Lemma add_reg_ok base size o : pcie_ok o -> 0 <= base -> 0 < size -> base + size <= UINT64_MAX ->
  pcie_ok (add_flag PI4_PCIE_FDT_REG (set_reg base size o)).
Proof.
  intros [O1 O2 O3] H1 H2 H3. split; cbn [add_flag set_flags set_reg pc_flags]; rewrite has_lor; [cbn; auto | |];
    rewrite orb_false_r; assumption.
Qed.
Lemma add_mem_ok w o : pcie_ok o -> window3_ok w -> pcie_ok (add_flag PI4_PCIE_FDT_MEM (set_mem w o)).
Proof.
  destruct w as [[bus cpu] size]. intros [O1 O2 O3] H1.
  split; cbn [add_flag set_flags set_mem pc_flags]; rewrite has_lor; [| cbn [mem_bus_base mem_cpu_base mem_size]; auto |];
    rewrite orb_false_r; assumption.
Qed.
Lemma add_dma_ok w o : pcie_ok o -> window3_ok w -> pcie_ok (add_flag PI4_PCIE_FDT_DMA (set_dma w o)).
Proof.
  destruct w as [[bus cpu] size]. intros [O1 O2 O3] H1.
  split; cbn [add_flag set_flags set_dma pc_flags]; rewrite has_lor; [rewrite orb_false_r; assumption.. |].
  intros _. unfold window_ok, window3_ok in *. cbn. lia.
Qed.

Lemma flags_only_ok o : pcie_ok (set_flags PI4_PCIE_FDT_PRESENT o).
Proof. split; intros H; discriminate H. Qed.

(** ** The bridge *)

Lemma node_enabled_ok node : node_ok node -> defined (node_enabled blob node) any.
Proof using Hbytes.
  intros Hn. unfold node_enabled. destruct (negb _); [apply defined_some; exact I|].
  eapply defined_bind; [apply fdt_string_eq_ok, Hn | intros [] _]; [apply defined_some; exact I|].
  apply fdt_string_eq_ok, Hn.
Qed.

Lemma node_reg_ok node parents : node_ok node -> Forall node_ok parents ->
  defined (node_reg blob node parents)
    (opt (fun r => 0 <= fst r /\ 0 < snd r /\ fst r + snd r <= UINT64_MAX)).
Proof using Hbytes.
  intros Hn Hp. unfold node_reg. destruct parents as [|parent rest]; [apply defined_some; exact I|].
  pose proof (no_reg _ Hn) as [Hs Hr]. destruct (n_reg node) as [reg|]; [|apply defined_some; exact I].
  destruct (_ && (size_cells parent <=? 2)) eqn:E1; [|apply defined_some; exact I]. bool_hyps. zbool.
  destruct (_ && _) eqn:E2; [|apply defined_some; exact I]. bool_hyps. zbool.
  unfold span_ok in Hr.
  eapply defined_bind; [apply cells_ok; unfold span_ok; lia | intros [a|] Ha; [|apply defined_some; exact I]].
  eapply defined_bind; [apply cells_ok; unfold span_ok; lia | intros [size|] Hsize; [|apply defined_some; exact I]].
  destruct (size =? 0) eqn:E3; [apply defined_some; exact I|]. zbool.
  eapply defined_bind; [apply translate_reg_ok; assumption | intros [b|] Hb; [|apply defined_some; exact I]].
  cbn in Ha, Hsize, Hb. unfold is_u64 in *.
  destruct (_ <=? _) eqn:E4; apply defined_some; cbn; [zbool; lia | exact I].
Qed.

Lemma decode_ok stack out : Forall node_ok stack -> defined (pi4_fdt_decode_pcie_node blob stack out) (opt pcie_ok).
Proof using Hbytes.
  intros Hs. destruct stack as [|node parents]; [apply defined_some; exact I|]. cbn [pi4_fdt_decode_pcie_node].
  inversion Hs as [|? ? Hn Hp]; subst.
  eapply defined_bind; [apply fdt_string_list_ok, Hn | intros [] _]; [|apply defined_some; exact I]. cbn [negb].
  pose proof (flags_only_ok out) as O1. set (o1 := set_flags _ out) in *. clearbody o1.
  eapply defined_bind; [apply node_enabled_ok, Hn | intros en _].
  assert (O2 : pcie_ok (if en then add_flag PI4_PCIE_FDT_ENABLED o1 else o1)).
  { destruct en; [apply add_flag_ok; auto | exact O1]. }
  cbn zeta. set (o2 := if en : bool then _ else _) in *. clearbody o2.
  eapply defined_bind; [apply node_reg_ok; assumption | intros r Hr].
  match goal with |- context [opt pcie_ok] => idtac end.
  set (o3 := match r with Some (base, size) => add_flag PI4_PCIE_FDT_REG (set_reg base size o2) | None => o2 end).
  assert (O3 : pcie_ok o3).
  { subst o3. destruct r as [[base size]|]; [|exact O2]. cbn in Hr. apply add_reg_ok; tauto. }
  clearbody o3. set (cells := match parents with [] => 0 | _ => _ end).
  assert (Hcells : 0 <= cells).
  { subst cells. destruct parents as [|parent rest]; [lia|]. inversion Hp as [|? ? Hpar _]; subst. apply Hpar. }
  clearbody cells.
  eapply defined_bind; [apply pci_window_ok; [apply Hn | exact Hcells] | intros m Hm].
  set (o4 := match m with Some w => _ | None => o3 end).
  assert (O4 : pcie_ok o4) by (subst o4; destruct m as [w|]; [apply add_mem_ok; auto | exact O3]).
  clearbody o4.
  eapply defined_bind; [apply pci_window_ok; [apply Hn | exact Hcells] | intros d Hd].
  apply defined_some. cbn [opt]. destruct d as [w|]; [apply add_dma_ok; auto | exact O4].
Qed.

(** ** The structure block *)

Definition either {A} (P : A -> Prop) (r : Z + A) : Prop := match r with inl code => -9 <= code <= -8 | inr a => P a end.

Lemma property_ok strings size nameoff data len node :
  span_ok strings size -> size < 4294967296 -> 0 <= nameoff -> span_ok data len -> len < 4294967296 -> node_ok node ->
  defined (fdt_property blob strings size nameoff data len node) (either node_ok).
Proof using Hbytes.
  intros Hs Hz Hn Hd Hl [N1 N2 N3 N4 N5 N6 N7]. unfold fdt_property. cbn zeta.
  assert (Hp : prop_ok (Some data) len) by (split; [unfold span_ok in Hd; lia | exact Hd]).
  pose proof (fun want => fdt_property_name_ok strings size nameoff want Hs Hz Hn) as Hname.
  assert (Hcell : len = 4 -> defined (pi4_fdt_be32 blob data) (fun v => 0 <= v < 4294967296)).
  { intros ->. apply be32_ok, Hd. }
  eapply defined_bind; [apply Hname | intros [] _].
  { destruct (negb (len =? 4)) eqn:E; [apply defined_some; cbn; lia|]. bool_hyps. zbool.
    eapply defined_bind; [exact (Hcell E) | intros v Hv; cbv beta in *]. apply defined_some. split; cbn; auto; lia. }
  eapply defined_bind; [apply Hname | intros [] _].
  { destruct (negb (len =? 4)) eqn:E; [apply defined_some; cbn; lia|]. bool_hyps. zbool.
    eapply defined_bind; [exact (Hcell E) | intros v Hv; cbv beta in *]. apply defined_some. split; cbn; auto; lia. }
  eapply defined_bind; [apply Hname | intros [] _]; [apply defined_some; split; cbn; auto|].
  eapply defined_bind; [apply Hname | intros [] _]; [apply defined_some; split; cbn; auto; eauto|].
  eapply defined_bind; [apply Hname | intros [] _]; [apply defined_some; split; cbn; auto|].
  eapply defined_bind; [apply Hname | intros [] _]; [apply defined_some; split; cbn; auto|].
  eapply defined_bind; [apply Hname | intros [] _]; apply defined_some; split; cbn; auto.
Qed.

Lemma align4_spec x : 0 <= x < 4294967296 -> align4 x = x / 4 * 4.
Proof.
  intros Hx. unfold align4. change 0xfffffffc with (Z.shiftl (Z.ones 30) 2). change 4 with (2 ^ 2).
  rewrite <- Z.shiftr_div_pow2, <- Z.shiftl_mul_pow2 by lia.
  apply Z.bits_inj'. intros i Hi. rewrite Z.land_spec. destruct (Z.lt_ge_cases i 2) as [Hlt|Hge].
  - rewrite !Z.shiftl_spec_low by lia. apply andb_false_r.
  - rewrite !Z.shiftl_spec, Z.shiftr_spec by lia. replace (i - 2 + 2) with i by lia.
    destruct (Z.lt_ge_cases i 32) as [H32|H32].
    + rewrite Z.ones_spec_low by lia. apply andb_true_r.
    + rewrite (testbit_above 32 x i) by (unfold is_u; lia). reflexivity.
Qed.

(** The loop's invariant. *)
Record fdt_ok (size_struct : Z) (s : fdt_state) : Prop := {
  fo_cursor : 0 <= fs_cursor s <= size_struct + 3;
  fo_depth : Z.of_nat (length (fs_stack s)) <= PI4_FDT_MAX_DEPTH;
  fo_stack : Forall node_ok (fs_stack s);
  fo_out : pcie_ok (fs_out s) }.

Definition result_ok (r : Z * zeal_pi4_pcie) : Prop := (-13 <= fst r <= 0 /\ fst r <> -2) /\ pcie_ok (snd r).

Section Loop.
Context (structure size_struct strings size_strings : Z).
Hypothesis Hstruct : span_ok structure size_struct.
Hypothesis Hstrings : span_ok strings size_strings.
Hypothesis Hsmall : blen <= 0xfffffff0.

Definition step_ok (s : fdt_state) (r : fdt_state + Z * zeal_pi4_pcie) : Prop :=
  match r with inl s' => fdt_ok size_struct s' /\ fs_cursor s + 4 <= fs_cursor s' | inr res => result_ok res end.

Lemma token_ok s : fdt_ok size_struct s -> fs_cursor s + 4 <= size_struct ->
  defined (fdt_token blob structure size_struct strings size_strings s) (step_ok s).
Proof using Hbytes Hstruct Hstrings Hsmall.
  intros [C1 C2 C3 C4] Hcur. pose proof Hstruct as (S1 & S2 & S3). pose proof Hstrings as (T1 & T2 & T3).
  unfold fdt_token. eapply defined_bind; [apply be32_ok; unfold span_ok; lia | intros token _].
  rewrite (u32_id (fs_cursor s + 4)) by lia. cbn zeta. set (cursor := fs_cursor s + 4) in *.
  assert (Herr : forall code, -13 <= code <= 0 -> code <> -2 -> step_ok s (inr (code, fs_out s))) by (intros; split; auto).
  destruct (token =? 1).
  { destruct (PI4_FDT_MAX_DEPTH <=? _) eqn:Ed; zbool; [apply defined_some, Herr; lia|].
    eapply defined_bind; [apply scan_nul_ok; [exact Hstruct | lia | lia] | intros e He; cbv beta in *].
    destruct (size_struct <=? e) eqn:E1; zbool; [apply defined_some, Herr; lia|].
    apply defined_some. rewrite (u32_id (e + 4)), align4_spec by lia.
    pose proof (Z.div_mod (e + 4) 4 ltac:(lia)). pose proof (Z.mod_pos_bound (e + 4) 4 ltac:(lia)).
    split; [split|]; cbn; try lia; [constructor; [apply new_node_ok | exact C3] | exact C4]. }
  destruct (token =? 2).
  { destruct (fs_stack s) as [|node rest] eqn:Es; [apply defined_some, Herr; lia|].
    inversion C3 as [|? ? _ Hrest]; subst. cbn [length] in C2.
    destruct (fs_found s); [apply defined_some; split; [split|]; cbn; auto; lia|].
    eapply defined_bind; [apply decode_ok; exact C3 | intros [o|] Ho]; apply defined_some; (split; [split|]); cbn; auto; lia. }
  destruct (token =? 3).
  { destruct (fs_stack s) as [|node rest] eqn:Es; [apply defined_some, Herr; lia|].
    rewrite (u32_id (cursor + 8)) by lia. destruct (size_struct <? _) eqn:E1; zbool; [apply defined_some, Herr; lia|].
    inversion C3 as [|? ? Hnode Hrest]; subst. cbn [length] in C2.
    eapply defined_bind; [apply be32_ok; unfold span_ok; lia | intros len Hlen; cbv beta in *].
    eapply defined_bind; [apply be32_ok; unfold span_ok; lia | intros nameoff Hname; cbv beta in *].
    rewrite (u32_id (size_struct - _)) by lia.
    destruct (_ || _) eqn:E2; [apply defined_some, Herr; lia|]. bool_hyps. zbool.
    eapply defined_bind; [apply property_ok; try assumption; try lia; unfold span_ok; lia | intros [code|node'] Hr].
    - cbn in Hr. apply defined_some, Herr; lia.
    - apply defined_some. rewrite (u32_id (cursor + 8 + len + 3)), align4_spec by lia.
      pose proof (Z.div_mod (cursor + 8 + len + 3) 4 ltac:(lia)). pose proof (Z.mod_pos_bound (cursor + 8 + len + 3) 4 ltac:(lia)).
      split; [split|]; cbn; auto; try lia. }
  destruct (token =? 4); [apply defined_some; split; [split|]; cbn; auto; lia|].
  destruct (token =? 9); [|apply defined_some, Herr; lia].
  destruct (fs_stack s); apply defined_some, Herr; try destruct (fs_found s); lia.
Qed.

Lemma loop_ok : forall fuel s, fdt_ok size_struct s -> (1 <= fuel)%nat ->
  4 * (size_struct / 4 + 1 - Z.of_nat fuel) <= fs_cursor s ->
  defined (fdt_loop fuel blob structure size_struct strings size_strings s) result_ok.
Proof using Hbytes Hstruct Hstrings Hsmall.
  pose proof Hstruct as (S1 & S2 & S3).
  induction fuel as [|fuel IH]; intros s Hs Hf Hm; [lia|]. cbn [fdt_loop].
  rewrite (u32_id (fs_cursor s + 4)) by (destruct Hs; lia).
  destruct (_ <=? size_struct) eqn:E; zbool; [|apply defined_some; split; [cbn; lia | apply Hs]].
  eapply defined_bind; [apply token_ok; assumption | intros [s'|r] Hr; [|apply defined_some; exact Hr]].
  destruct Hr as [Hs' Hc]. pose proof (Z.div_mod size_struct 4 ltac:(lia)). pose proof (Z.mod_pos_bound size_struct 4 ltac:(lia)).
  apply IH; [exact Hs' | lia | lia].
Qed.
End Loop.

(** The whole reader. *)
Lemma find_pcie_ok out : blen <= 0xfffffff0 ->
  defined (pi4_fdt_find_pcie blob blen out) (fun r => -13 <= fst r <= 0 /\ (fst r = -1 \/ fst r = -2 \/ pcie_ok (snd r))).
Proof using Hbytes.
  intros Hsmall. unfold pi4_fdt_find_pcie. destruct (blen <? 40) eqn:E0; zbool; [apply defined_some; cbn; lia|].
  eapply defined_bind; [apply be32_ok; unfold span_ok; lia | intros magic _].
  destruct (negb _); [apply defined_some; cbn; lia|].
  eapply defined_bind; [apply be32_ok; unfold span_ok; lia | intros total Htot; cbv beta in *].
  eapply defined_bind; [apply be32_ok; unfold span_ok; lia | intros off_struct Hos; cbv beta in *].
  eapply defined_bind; [apply be32_ok; unfold span_ok; lia | intros off_strings Hot; cbv beta in *].
  eapply defined_bind; [apply be32_ok; unfold span_ok; lia | intros size_strings Hss; cbv beta in *].
  eapply defined_bind; [apply be32_ok; unfold span_ok; lia | intros size_struct Hsz; cbv beta in *].
  unfold pi4_fdt_span. destruct (_ || _) eqn:E1; [apply defined_some; cbn; lia|]. bool_hyps. zbool.
  eapply defined_mono; [apply loop_ok|].
  - unfold span_ok. lia.
  - unfold span_ok. lia.
  - exact Hsmall.
  - split; cbn; [lia | unfold PI4_FDT_MAX_DEPTH; lia | constructor |]. split; intros H'; discriminate H'.
  - lia.
  - cbn [fs_cursor]. pose proof (Z.div_pos size_struct 4 ltac:(lia) ltac:(lia)). lia.
  - intros r [Hr1 Hr2]. split; [lia | auto].
Qed.
End Blob.
