(* ===== verification/FdtThms.v ===== *)
(** * The flattened device tree reader: theorems *)

From S2P Require Import Prelude PciDma PciDmaSpec Fdt FdtSpec.
#[local] Open Scope Z_scope.

(** ** Writing what the reader reads *)

Definition be32_bytes (v : Z) : list Z := [u8 (Z.shiftr v 24); u8 (Z.shiftr v 16); u8 (Z.shiftr v 8); u8 v].
(** An address of [n] cells, the high word first. *)
Definition cells_bytes (n v : Z) : list Z := if n =? 1 then be32_bytes v else be32_bytes (Z.shiftr v 32) ++ be32_bytes v.

(** One tuple of a PCI [ranges] property: space code word, PCI address, CPU address, size. *)
Record pci_tuple := mk_tuple { tu_hi : Z; tu_bus : Z; tu_cpu : Z; tu_size : Z }.
Definition tuple_bytes (ac : Z) (t : pci_tuple) : list Z :=
  be32_bytes (tu_hi t) ++ cells_bytes 2 (tu_bus t) ++ cells_bytes ac (tu_cpu t) ++ cells_bytes 2 (tu_size t).
Definition ranges_bytes (ac : Z) (ts : list pci_tuple) : list Z := concat (map (tuple_bytes ac) ts).

Definition tuple_ok (ac : Z) (t : pci_tuple) : Prop :=
  is_u 32 (tu_hi t) /\ is_u 64 (tu_bus t) /\ is_u (32 * ac) (tu_cpu t) /\ is_u 64 (tu_size t).

(** The first tuple of memory space, if it is not empty and does not wrap. *)
Fixpoint first_window (ts : list pci_tuple) : option (Z * Z * Z) :=
  match ts with
  | [] => None
  | t :: ts' =>
      if Z.land (Z.shiftr (tu_hi t) 24) 3 =? 2 then
        if (1 <=? tu_size t) && (tu_bus t + tu_size t <=? UINT64_MAX) && (tu_cpu t + tu_size t <=? UINT64_MAX)
        then Some (tu_bus t, tu_cpu t, tu_size t) else None
      else first_window ts'
  end.

Lemma u8_byte v k : 0 <= k -> u8 (Z.shiftr v k) = (v / 2 ^ k) mod 256.
Proof. intros H. unfold u8, wrap. rewrite Z.shiftr_div_pow2 by exact H. reflexivity. Qed.

Lemma rd_app pre l post i : 0 <= i < Z.of_nat (length l) ->
  rd (pre ++ l ++ post) (Z.of_nat (length pre) + i) = l !! Z.to_nat i.
Proof.
  intros H. unfold rd. destruct (_ <? 0) eqn:E; zbool; [lia|].
  rewrite lookup_app_r by lia. rewrite lookup_app_l by lia. f_equal. lia.
Qed.

Lemma be32_read pre v post : is_u 32 v ->
  pi4_fdt_be32 (pre ++ be32_bytes v ++ post) (Z.of_nat (length pre)) = Some v.
Proof.
  unfold is_u. intros Hv. unfold pi4_fdt_be32.
  rewrite <- (Z.add_0_r (Z.of_nat (length pre))) at 1. rewrite !rd_app by (cbn; lia).
  cbn -[Z.shiftl Z.lor u8]. f_equal.
  replace (u8 v) with (u8 (Z.shiftr v 0)) by reflexivity. rewrite !u8_byte by lia. change (v / 2 ^ 0) with (v / 1).
  rewrite Z.div_1_r. change (2 ^ 24) with 16777216. change (2 ^ 16) with 65536. change (2 ^ 8) with 256.
  set (a := (v / 16777216) mod 256). set (b := (v / 65536) mod 256). set (c := (v / 256) mod 256). set (d := v mod 256).
  replace (Z.lor (Z.lor (Z.lor (Z.shiftl a 24) (Z.shiftl b 16)) (Z.shiftl c 8)) d)
    with (Z.lor (Z.lor (Z.lor d (Z.shiftl c 8)) (Z.shiftl b 16)) (Z.shiftl a 24)).
  2: { apply Z.bits_inj'. intros i _. rewrite !Z.lor_spec.
       destruct (Z.testbit d i), (Z.testbit (Z.shiftl c 8) i), (Z.testbit (Z.shiftl b 16) i), (Z.testbit (Z.shiftl a 24) i); reflexivity. }
  subst a b c d. rewrite lor4_bytes by (apply Z.mod_pos_bound; lia).
  Z.to_euclidean_division_equations. lia.
Qed.

Lemma length_cells n v : n = 1 \/ n = 2 -> Z.of_nat (length (cells_bytes n v)) = 4 * n.
Proof. intros [->| ->]; reflexivity. Qed.

Lemma cells_read pre n v post : n = 1 \/ n = 2 -> is_u (32 * n) v ->
  pi4_fdt_cells (pre ++ cells_bytes n v ++ post) (Z.of_nat (length pre)) n = Some (Some v).
Proof.
  unfold is_u. intros Hn Hv. unfold pi4_fdt_cells. destruct Hn as [->| ->].
  - change ((1 =? 0) || (2 <? 1)) with false. cbv iota. change (cells_bytes 1 v) with (be32_bytes v).
    rewrite be32_read by exact Hv. reflexivity.
  - change ((2 =? 0) || (2 <? 2)) with false. cbv iota.
    change (cells_bytes 2 v) with (be32_bytes (Z.shiftr v 32) ++ be32_bytes v). rewrite <- app_assoc.
    assert (H1 : is_u 32 (Z.shiftr v 32)).
    { unfold is_u. rewrite Z.shiftr_div_pow2 by lia. change (2 ^ (32 * 2)) with (2 ^ 32 * 2 ^ 32) in Hv.
      split; [apply Z.div_pos; lia | apply Z.div_lt_upper_bound; lia]. }
    rewrite be32_read by exact H1. change (2 =? 1) with false. cbv iota.
    rewrite app_assoc. replace (Z.of_nat (length pre) + 4) with (Z.of_nat (length (pre ++ be32_bytes (Z.shiftr v 32))))
      by (rewrite length_app; cbn; lia).
    assert (E : be32_bytes v = be32_bytes (v mod 2 ^ 32)).
    { unfold be32_bytes. replace (u8 (v mod 2 ^ 32)) with (u8 (Z.shiftr (v mod 2 ^ 32) 0)) by reflexivity.
      replace (u8 v) with (u8 (Z.shiftr v 0)) by reflexivity. rewrite !u8_byte by lia.
      change (2 ^ 32) with 4294967296. change (2 ^ 24) with 16777216. change (2 ^ 16) with 65536.
      change (2 ^ 8) with 256. change (2 ^ 0) with 1. apply f_equal2; [|apply f_equal2; [|apply f_equal2; [|apply f_equal2]]]; try reflexivity; Z.to_euclidean_division_equations; lia. }
    rewrite E, be32_read by (unfold is_u; apply Z.mod_pos_bound; lia).
    unfold is_u in H1. rewrite Z.shiftl_mul_pow2, u64_id by (change (2 ^ 32) with 4294967296 in *; lia).
    rewrite <- Z.shiftl_mul_pow2, Z.lor_comm by lia.
    rewrite lor_shiftl_add by (try lia; apply Z.mod_pos_bound; lia). rewrite Z.shiftr_div_pow2 by lia.
    do 2 f_equal. pose proof (Z.div_mod v (2 ^ 32) ltac:(lia)). lia.
Qed.

Lemma length_tuple ac t : ac = 1 \/ ac = 2 -> Z.of_nat (length (tuple_bytes ac t)) = (3 + ac + 2) * 4.
Proof. intros H. unfold tuple_bytes. rewrite !length_app, !Nat2Z.inj_add, !length_cells by auto. cbn. lia. Qed.

Lemma length_ranges ac ts : ac = 1 \/ ac = 2 ->
  Z.of_nat (length (ranges_bytes ac ts)) = (3 + ac + 2) * 4 * Z.of_nat (length ts).
Proof.
  intros H. unfold ranges_bytes. induction ts as [|t ts IH]; [cbn; lia|].
  cbn [map concat]. rewrite length_app, Nat2Z.inj_add, length_tuple by exact H. cbn [length]. lia.
Qed.

(** The scan from the tuples [ts] on, [d] being the bytes before them. *)
Lemma window_tuples_spec ac pre post : ac = 1 \/ ac = 2 -> forall ts d fuel,
  Forall (tuple_ok ac) ts -> (length ts < fuel)%nat ->
  Z.of_nat (length d) + Z.of_nat (length (ranges_bytes ac ts)) < 4294967296 ->
  window_tuples fuel (pre ++ d ++ ranges_bytes ac ts ++ post) (Z.of_nat (length pre))
    (Z.of_nat (length d) + Z.of_nat (length (ranges_bytes ac ts))) ac (Z.of_nat (length d)) = Some (first_window ts).
Proof.
  intros Hac. induction ts as [|t ts IH]; intros d fuel Hts Hf Hb; (destruct fuel as [|fuel]; [cbn in Hf; lia|]); cbn [window_tuples].
  - cbn [ranges_bytes map concat length]. rewrite (proj2 (Z.ltb_ge _ _)) by lia. reflexivity.
  - inversion Hts as [|? ? (T1 & T2 & T3 & T4) Hts']; subst.
    assert (Hlen : Z.of_nat (length (ranges_bytes ac (t :: ts))) =
      Z.of_nat (length (tuple_bytes ac t)) + Z.of_nat (length (ranges_bytes ac ts))).
    { unfold ranges_bytes. cbn [map concat]. rewrite length_app. lia. }
    rewrite Hlen in *. pose proof (length_tuple ac t Hac) as Ht. rewrite Ht in *.
    rewrite (proj2 (Z.ltb_lt (Z.of_nat (length d)) _)) by lia.
    change (ranges_bytes ac (t :: ts)) with (tuple_bytes ac t ++ ranges_bytes ac ts).
    set (rest := ranges_bytes ac ts) in *.
    assert (E1 : pre ++ d ++ (tuple_bytes ac t ++ rest) ++ post =
      (pre ++ d) ++ be32_bytes (tu_hi t) ++ (cells_bytes 2 (tu_bus t) ++ cells_bytes ac (tu_cpu t) ++ cells_bytes 2 (tu_size t)) ++ rest ++ post).
    { unfold tuple_bytes. rewrite <- !app_assoc. reflexivity. }
    assert (E2 : pre ++ d ++ (tuple_bytes ac t ++ rest) ++ post =
      ((pre ++ d) ++ be32_bytes (tu_hi t)) ++ cells_bytes 2 (tu_bus t) ++ (cells_bytes ac (tu_cpu t) ++ cells_bytes 2 (tu_size t)) ++ rest ++ post).
    { unfold tuple_bytes. rewrite <- !app_assoc. reflexivity. }
    assert (E3 : pre ++ d ++ (tuple_bytes ac t ++ rest) ++ post =
      ((pre ++ d) ++ be32_bytes (tu_hi t) ++ cells_bytes 2 (tu_bus t)) ++ cells_bytes ac (tu_cpu t) ++ cells_bytes 2 (tu_size t) ++ rest ++ post).
    { unfold tuple_bytes. rewrite <- !app_assoc. reflexivity. }
    assert (E4 : pre ++ d ++ (tuple_bytes ac t ++ rest) ++ post =
      ((pre ++ d) ++ be32_bytes (tu_hi t) ++ cells_bytes 2 (tu_bus t) ++ cells_bytes ac (tu_cpu t)) ++ cells_bytes 2 (tu_size t) ++ rest ++ post).
    { unfold tuple_bytes. rewrite <- !app_assoc. reflexivity. }
    replace (Z.of_nat (length pre) + Z.of_nat (length d)) with (Z.of_nat (length (pre ++ d))) by (rewrite length_app; lia).
    replace (pi4_fdt_be32 _ (Z.of_nat (length (pre ++ d)))) with (Some (tu_hi t))
      by (symmetry; rewrite E1; apply be32_read; exact T1).
    cbn [first_window]. destruct (_ =? 2) eqn:Es; cbn [negb].
    + pose proof (length_cells 2 (tu_bus t) ltac:(auto)) as L1. pose proof (length_cells ac (tu_cpu t) Hac) as L2.
      replace (Z.of_nat (length (pre ++ d)) + 4) with (Z.of_nat (length ((pre ++ d) ++ be32_bytes (tu_hi t))))
        by (rewrite (length_app (pre ++ d)); cbn; lia).
      replace (pi4_fdt_cells _ (Z.of_nat (length ((pre ++ d) ++ be32_bytes (tu_hi t)))) 2) with (Some (Some (tu_bus t)))
        by (symmetry; rewrite E2; apply cells_read; auto).
      replace (Z.of_nat (length (pre ++ d)) + 3 * 4) with (Z.of_nat (length ((pre ++ d) ++ be32_bytes (tu_hi t) ++ cells_bytes 2 (tu_bus t))))
        by (rewrite !length_app; cbn [length be32_bytes]; lia).
      replace (pi4_fdt_cells _ (Z.of_nat (length ((pre ++ d) ++ be32_bytes (tu_hi t) ++ cells_bytes 2 (tu_bus t)))) ac) with (Some (Some (tu_cpu t)))
        by (symmetry; rewrite E3; apply cells_read; auto).
      replace (Z.of_nat (length (pre ++ d)) + (3 + ac) * 4)
        with (Z.of_nat (length ((pre ++ d) ++ be32_bytes (tu_hi t) ++ cells_bytes 2 (tu_bus t) ++ cells_bytes ac (tu_cpu t))))
        by (rewrite !length_app; cbn [length be32_bytes]; lia).
      replace (pi4_fdt_cells _ (Z.of_nat (length ((pre ++ d) ++ be32_bytes (tu_hi t) ++ cells_bytes 2 (tu_bus t) ++ cells_bytes ac (tu_cpu t)))) 2)
        with (Some (Some (tu_size t))) by (symmetry; rewrite E4; apply cells_read; auto).
      unfold is_u, UINT64_MAX in *.
      destruct (_ || _) eqn:Eb; destruct (_ && _) eqn:Ec; try reflexivity; exfalso; bool_hyps; zbool;
        [repeat (apply orb_true_iff in Eb as [Eb|Eb]); zbool; lia|].
      repeat (apply andb_false_iff in Ec as [Ec|Ec]); zbool; lia.
    + rewrite u32_id by lia. cbn [length] in Hf.
      replace (Z.of_nat (length d) + (3 + ac + 2) * 4) with (Z.of_nat (length (d ++ tuple_bytes ac t)))
        by (rewrite length_app; lia).
      replace (Z.of_nat (length d) + ((3 + ac + 2) * 4 + Z.of_nat (length rest)))
        with (Z.of_nat (length (d ++ tuple_bytes ac t)) + Z.of_nat (length rest)) by (rewrite length_app; lia).
      rewrite <- app_assoc, (app_assoc d). apply IH; [exact Hts' | lia | rewrite length_app; lia].
Qed.

(** ** The theorems *)

(** C38: on every blob the reader returns, having read nothing outside the blob (with a nesting of
    at most 16 nodes and a number of steps bounded by the structure block), with 0 or one of its
    error codes; and from then on each flag of the record vouches for its addresses: none is
    empty and none wraps, the DMA window being one that the reservation accepts. *)
Theorem pi4_fdt_find_pcie_safe (blob : list Z) (out : zeal_pi4_pcie) :
  bytes_ok blob -> Z.of_nat (length blob) <= 0xfffffff0 ->
  exists code out', pi4_fdt_find_pcie blob (Z.of_nat (length blob)) out = Some (code, out') /\ -13 <= code <= 0 /\
    (code = -1 \/ code = -2 \/
     ((has (pc_flags out') PI4_PCIE_FDT_REG = true ->
         0 <= reg_base out' /\ 0 < reg_size out' /\ reg_base out' + reg_size out' <= UINT64_MAX) /\
      (has (pc_flags out') PI4_PCIE_FDT_DMA = true -> window_ok out'))).
Proof.
  intros Hb Hl. destruct (find_pcie_ok blob Hb out Hl) as ([code out'] & E & H1 & H2).
  exists code, out'. split; [exact E|]. split; [exact H1|].
  destruct H2 as [H2|[H2|[P1 P2 P3]]]; auto.
Qed.

(** Reading the bytes of a [ranges] or [dma-ranges] property gives its first tuple of memory
    space, if that is not empty and does not wrap, wherever the property is in the blob. *)
Theorem pi4_fdt_pci_window_reads (ac : Z) (ts : list pci_tuple) (pre post : list Z) :
  ac = 1 \/ ac = 2 -> Forall (tuple_ok ac) ts -> Z.of_nat (length (ranges_bytes ac ts)) < 4294967296 ->
  pi4_fdt_pci_window (pre ++ ranges_bytes ac ts ++ post) (Some (Z.of_nat (length pre)))
    (Z.of_nat (length (ranges_bytes ac ts))) ac = Some (first_window ts).
Proof.
  intros Hac Hts Hb. unfold pi4_fdt_pci_window. pose proof (length_ranges ac ts Hac) as Hl.
  rewrite (proj2 (Z.eqb_neq ac 0)), (proj2 (Z.ltb_ge 2 ac)) by lia. cbn [orb].
  rewrite (proj2 (Z.eqb_neq _ 0)) by lia. rewrite Hl at 1. rewrite (Z.mul_comm ((3 + ac + 2) * 4)), Z.mod_mul by lia. cbn [negb orb Z.eqb].
  pose proof (window_tuples_spec ac pre post Hac ts [] (S (Z.to_nat (Z.of_nat (length (ranges_bytes ac ts)) / ((3 + ac + 2) * 4)))) Hts) as W.
  cbn [length app] in W. change (Z.of_nat 0) with 0 in W. rewrite Z.add_0_l in W. apply W; [|exact Hb].
  rewrite Hl, (Z.mul_comm ((3 + ac + 2) * 4)), Z.div_mul by lia. lia.
Qed.

(** ** A sample blob: a root with one bridge *)

Definition pad4 (l : list Z) : list Z := l ++ zeros ((4 - length l mod 4) mod 4).
Definition fdt_begin (name : String.string) : list Z := be32_bytes 1 ++ pad4 (bytes_of_string name ++ [0]).
Definition fdt_prop (nameoff : Z) (data : list Z) : list Z :=
  be32_bytes 3 ++ be32_bytes (Z.of_nat (length data)) ++ be32_bytes nameoff ++ pad4 data.
Definition fdt_end : list Z := be32_bytes 2.

Definition demo_strings : list Z :=
  concat (map (fun s => bytes_of_string s ++ [0])
    ["#address-cells"%string; "compatible"%string; "reg"%string; "dma-ranges"%string]).
Definition demo_window : pci_tuple := mk_tuple 0x02000000 (Z.shiftl 4 32) 0 0xc0000000.
Definition demo_struct : list Z :=
  fdt_begin ""%string ++ fdt_prop 0 (be32_bytes 2) ++
  fdt_begin "pcie@7d500000"%string ++ fdt_prop 15 (BCM2711_PCIE ++ [0]) ++
  fdt_prop 26 (cells_bytes 2 0xfd500000 ++ be32_bytes 0x9310) ++ fdt_prop 30 (ranges_bytes 2 [demo_window]) ++
  fdt_end ++ fdt_end ++ be32_bytes 9.
Definition demo_blob : list Z :=
  let n := Z.of_nat (length demo_struct) in
  let m := Z.of_nat (length demo_strings) in
  be32_bytes 0xd00dfeed ++ be32_bytes (40 + n + m) ++ be32_bytes 40 ++ be32_bytes (40 + n) ++ zeros 16 ++
  be32_bytes m ++ be32_bytes n ++ demo_struct ++ demo_strings.

(** The reader finds the bridge, its registers and its inbound window. *)
Example demo_blob_found :
  pi4_fdt_find_pcie demo_blob (Z.of_nat (length demo_blob)) (mk_pcie 0 0 0 0 0 0 0 0 0 0) =
  Some (0, mk_pcie 0x17 0 0xfd500000 0x9310 0 0 0 (Z.shiftl 4 32) 0 0xc0000000).
Proof. vm_compute. reflexivity. Qed.

Lemma pi4_fdt_find_pcie_safe_witness :
  exists code out', pi4_fdt_find_pcie demo_blob (Z.of_nat (length demo_blob)) (mk_pcie 0 0 0 0 0 0 0 0 0 0) = Some (code, out') /\
    -13 <= code <= 0 /\
    (code = -1 \/ code = -2 \/
     ((has (pc_flags out') PI4_PCIE_FDT_REG = true ->
         0 <= reg_base out' /\ 0 < reg_size out' /\ reg_base out' + reg_size out' <= UINT64_MAX) /\
      (has (pc_flags out') PI4_PCIE_FDT_DMA = true -> window_ok out'))).
Proof.
  apply (pi4_fdt_find_pcie_safe demo_blob (mk_pcie 0 0 0 0 0 0 0 0 0 0)).
  - vm_compute. repeat constructor; discriminate.
  - vm_compute. discriminate.
Defined.

Lemma pi4_fdt_pci_window_reads_witness :
  pi4_fdt_pci_window (demo_strings ++ ranges_bytes 2 [demo_window] ++ []) (Some (Z.of_nat (length demo_strings)))
    (Z.of_nat (length (ranges_bytes 2 [demo_window]))) 2 = Some (Some (Z.shiftl 4 32, 0, 0xc0000000)).
Proof.
  apply (pi4_fdt_pci_window_reads 2 [demo_window] demo_strings []).
  - right. reflexivity.
  - repeat constructor; discriminate.
  - reflexivity.
Defined.
