(* ===== verification/Hid.v ===== *)
(** * USB HID decoding: definitions

    [src/src/usb_hid.h] (the report descriptor subset, pointer reports, the key table), the
    boot-protocol decoders of [src/src/pi4_usb_keyboard.h] and [src/src/pi4_usb_mouse.h], and the
    transaction-translator routes of [src/src/usb_route.h].  Events handed to the callback are a
    list; a read of a report outside its bytes is [None]. *)

From S2P Require Import Prelude.
#[local] Open Scope Z_scope.

(** ** Pointer descriptors *)

Record usb_hid_axis := mk_axis { a_off : Z; a_bits : Z; a_min : Z; a_max : Z }.
Record usb_hid_pointer := mk_pointer {
  p_x : usb_hid_axis; p_y : usb_hid_axis; p_wheel : usb_hid_axis;
  buttons_off : Z; buttons_count : Z; report_bits : Z; report_id : Z; absolute : bool }.

(** [n] turns of the loop of [usb_hid_bits] from bit [i]. *)
Fixpoint bits_loop (n : nat) (p : list Z) (off i v : Z) : option Z :=
  match n with
  | O => Some v
  | S n' =>
      match p !! Z.to_nat ((off + i) / 8) with
      | None => None
      | Some byte => bits_loop n' p off (i + 1) (Z.lor v (Z.shiftl (Z.land (Z.shiftr byte ((off + i) mod 8)) 1) i))
      end
  end.
Definition usb_hid_bits (p : list Z) (off bits : Z) : option Z := bits_loop (Z.to_nat bits) p off 0 0.

Definition usb_hid_signed (v bits : Z) : Z :=
  if (bits =? 0) || (31 <? bits) then 0
  else signed 32 (Z.lxor v (Z.shiftl 1 (bits - 1))) - Z.shiftl 1 (bits - 1).

(** The parser's local variables. *)
Record hid_parser := mk_hid {
  hp_h : usb_hid_pointer;
  hp_page : Z; hp_size : Z; hp_count : Z; hp_bit : Z; hp_usages : list Z;
  hp_current_id : Z; hp_input_id : Z;
  hp_usage_min : Z; hp_usage_max : Z; hp_have_range : bool;
  hp_relative : Z; hp_selected : bool; hp_min : Z; hp_max : Z }.

Definition no_axis : usb_hid_axis := mk_axis 0 0 0 0.
Definition hid_start : hid_parser :=
  mk_hid (mk_pointer no_axis no_axis no_axis 0 0 0 0 false) 0 0 0 0 [] 0 0 0 0 false (-1) false 0 0.

Definition set_fields (h : usb_hid_pointer) (bit relative : Z) (s : hid_parser) : hid_parser :=
  mk_hid h (hp_page s) (hp_size s) (hp_count s) bit (hp_usages s) (hp_current_id s) (hp_input_id s) (hp_usage_min s)
    (hp_usage_max s) (hp_have_range s) relative (hp_selected s) (hp_min s) (hp_max s).
Definition set_globals (page size count : Z) (min max : Z) (id : Z) (s : hid_parser) : hid_parser :=
  mk_hid (hp_h s) page size count (hp_bit s) (hp_usages s) id (hp_input_id s) (hp_usage_min s)
    (hp_usage_max s) (hp_have_range s) (hp_relative s) (hp_selected s) min max.
Definition set_locals (usages : list Z) (umin umax : Z) (have : bool) (s : hid_parser) : hid_parser :=
  mk_hid (hp_h s) (hp_page s) (hp_size s) (hp_count s) (hp_bit s) usages (hp_current_id s) (hp_input_id s) umin
    umax have (hp_relative s) (hp_selected s) (hp_min s) (hp_max s).
Definition set_input (id : Z) (s : hid_parser) : hid_parser :=
  mk_hid (hp_h s) (hp_page s) (hp_size s) (hp_count s) (hp_bit s) (hp_usages s) (hp_current_id s) id (hp_usage_min s)
    (hp_usage_max s) (hp_have_range s) (hp_relative s) true (hp_min s) (hp_max s).

Definition USAGE_X : Z := 0x10030.
Definition USAGE_Y : Z := 0x10031.
Definition USAGE_WHEEL : Z := 0x10038.

Definition usage_axis (usage : Z) (h : usb_hid_pointer) : usb_hid_axis :=
  if usage =? USAGE_X then p_x h else if usage =? USAGE_Y then p_y h else p_wheel h.
Definition set_axis (usage : Z) (a : usb_hid_axis) (h : usb_hid_pointer) : usb_hid_pointer :=
  let '(mk_pointer x y w bo bc rb id ab) := h in
  if usage =? USAGE_X then mk_pointer a y w bo bc rb id ab
  else if usage =? USAGE_Y then mk_pointer x a w bo bc rb id ab
  else mk_pointer x y a bo bc rb id ab.

(** The usage of field [i] of an input item. *)
Definition field_usage (s : hid_parser) (i : Z) : Z :=
  match hp_usages s !! Z.to_nat i with
  | Some u => u
  | None =>
      if hp_have_range s && (u32 (hp_usage_min s + i) <=? hp_usage_max s)
      then Z.lor (u32 (Z.shiftl (hp_page s) 16)) (u32 (hp_usage_min s + i)) else 0
  end.

(** The fields [i ...] of an input item with flags [v]; [None]: the descriptor is refused. *)
Fixpoint input_fields (n : nat) (v i : Z) (s : hid_parser) : option hid_parser :=
  match n with
  | O => Some s
  | S n' =>
      let usage := field_usage s i in
      let h := hp_h s in
      if has v 1 then input_fields n' v (i + 1) s
      else if negb (has v 2) then None
      else if (usage =? USAGE_X) || (usage =? USAGE_Y) || (usage =? USAGE_WHEEL) then
        if (31 <? hp_size s) || (hp_max s <=? hp_min s) then None
        else if negb (a_bits (usage_axis usage h) =? 0) then None
        else
          let h := set_axis usage (mk_axis (hp_bit s + i * hp_size s) (hp_size s) (hp_min s) (hp_max s)) h in
          if negb (usage =? USAGE_WHEEL) then
            let rel := Z.b2z (has v 4) in
            if negb (hp_relative s =? -1) && negb (hp_relative s =? rel) then None
            else input_fields n' v (i + 1) (set_fields h (hp_bit s) rel s)
          else input_fields n' v (i + 1) (set_fields h (hp_bit s) (hp_relative s) s)
      else if (Z.shiftr usage 16 =? 9) && (hp_size s =? 1) && (Z.land usage 65535 <=? 3) then
        let h := mk_pointer (p_x h) (p_y h) (p_wheel h)
                   (if buttons_count h =? 0 then hp_bit s + i else buttons_off h)
                   (buttons_count h + 1) (report_bits h) (report_id h) (absolute h) in
        input_fields n' v (i + 1) (set_fields h (hp_bit s) (hp_relative s) s)
      else input_fields n' v (i + 1) s
  end.

Definition hid_input (v : Z) (s : hid_parser) : option hid_parser :=
  if hp_selected s && negb (hp_input_id s =? hp_current_id s) then None
  else
    let s := if hp_selected s then s else set_input (hp_current_id s) s in
    if (hp_size s =? 0) || (32 <? hp_size s) || (64 <? hp_count s) ||
       (u32 (512 - hp_bit s) <? u32 (hp_size s * hp_count s)) then None
    else
      match input_fields (Z.to_nat (hp_count s)) v 0 s with
      | None => None
      | Some s => Some (set_fields (hp_h s) (u32 (hp_bit s + hp_size s * hp_count s)) (hp_relative s) s)
      end.

(** One item: its tag, its number of data bytes and their value. *)
Definition hid_item (tag bytes v : Z) (s : hid_parser) : option hid_parser :=
  let globals page size count min max id := Some (set_globals page size count min max id s) in
  let page := hp_page s in let size := hp_size s in let count := hp_count s in
  let min := hp_min s in let max := hp_max s in let id := hp_current_id s in
  if tag =? 0x84 then
    if negb (bytes =? 1) || (v =? 0) || (255 <? v) then None else globals page size count min max v
  else if (tag =? 0xa4) || (tag =? 0xb4) then None
  else if tag =? 0x04 then globals v size count min max id
  else if tag =? 0x14 then globals page size count (if bytes =? 0 then 0 else signed (bytes * 8) v) max id
  else if tag =? 0x24 then
    globals page size count min (if (min <? 0) && negb (bytes =? 0) then signed (bytes * 8) v else signed 32 v) id
  else if tag =? 0x74 then globals page v count min max id
  else if tag =? 0x94 then globals page size v min max id
  else if tag =? 0x08 then
    if Z.of_nat (length (hp_usages s)) =? 32 then None
    else
      let u := if bytes =? 4 then v else Z.lor (u32 (Z.shiftl page 16)) v in
      Some (set_locals (hp_usages s ++ [u]) (hp_usage_min s) (hp_usage_max s) (hp_have_range s) s)
  else if tag =? 0x18 then Some (set_locals (hp_usages s) v (hp_usage_max s) true s)
  else if tag =? 0x28 then Some (set_locals (hp_usages s) (hp_usage_min s) v (hp_have_range s) s)
  else if tag =? 0x80 then hid_input v s
  else Some s.

Fixpoint le_value (l : list Z) : Z :=
  match l with [] => 0 | b :: l' => b + 256 * le_value l' end.

(** The item loop over the bytes that are left. *)
Fixpoint hid_items (fuel : nat) (desc : list Z) (s : hid_parser) : option hid_parser :=
  match desc with
  | [] => Some s
  | b :: rest =>
      match fuel with
      | O => None
      | S fuel' =>
          let bytes := Z.land b 3 in
          let tag := Z.land b 0xfc in
          if b =? 0xfe then None
          else
            let bytes := if bytes =? 3 then 4 else bytes in
            if Z.of_nat (length rest) <? bytes then None
            else
              match hid_item tag bytes (le_value (take (Z.to_nat bytes) rest)) s with
              | None => None
              | Some s =>
                  let s := if Z.land b 0x0c =? 0 then set_locals [] 0 0 false s else s in
                  hid_items fuel' (drop (Z.to_nat bytes) rest) s
              end
      end
  end.

Definition usb_hid_pointer_parse (desc : list Z) : option usb_hid_pointer :=
  match hid_items (length desc) desc hid_start with
  | None => None
  | Some s =>
      let h := hp_h s in
      if (a_bits (p_x h) =? 0) || (a_bits (p_y h) =? 0) || (3 <? buttons_count h) then None
      else Some (mk_pointer (p_x h) (p_y h) (p_wheel h) (buttons_off h) (buttons_count h) (hp_bit s) (hp_input_id s)
                   (hp_relative s =? 0))
  end.

(** ** Pointer reports *)

Definition usb_hid_pointer_wire_bits (h : usb_hid_pointer) : Z :=
  u32 (report_bits h + (if negb (report_id h =? 0) then 8 else 0)).

Definition axis_value (a : usb_hid_axis) (v : Z) : Z := if a_min a <? 0 then usb_hid_signed v (a_bits a) else signed 32 v.

(** x, y, wheel and buttons; the inner [None] is the code's 0. *)
Definition usb_hid_pointer_read (h : usb_hid_pointer) (report : list Z) : option (option (Z * Z * Z * Z)) :=
  let go (report : list Z) :=
    if Z.of_nat (length report) <? u32 (report_bits h + 7) / 8 then Some None
    else
      match usb_hid_bits report (a_off (p_x h)) (a_bits (p_x h)), usb_hid_bits report (a_off (p_y h)) (a_bits (p_y h)),
            (if negb (a_bits (p_wheel h) =? 0) then usb_hid_bits report (a_off (p_wheel h)) (a_bits (p_wheel h)) else Some 0),
            usb_hid_bits report (buttons_off h) (buttons_count h) with
      | Some vx, Some vy, Some vw, Some vb =>
          Some (Some (axis_value (p_x h) vx, axis_value (p_y h) vy,
                      (if negb (a_bits (p_wheel h) =? 0) then usb_hid_signed vw (a_bits (p_wheel h)) else 0), vb))
      | _, _, _, _ => None
      end in
  if negb (report_id h =? 0) then
    match report with
    | [] => Some None
    | id :: rest => if negb (id =? report_id h) then Some None else go rest
    end
  else go report.

(** ** Key codes *)

Definition hid_letters : list Z := [30;48;46;32;18;33;34;35;23;36;37;38;50;49;24;25;16;19;31;20;22;47;17;45;21;44].
Definition hid_rest : list Z := [11;28;1;14;15;57;12;13;26;27;43;0;39;40;41;51;52;53;58;
  59;60;61;62;63;64;65;66;67;68;87;88;99;70;119;110;102;104;111;107;109;106;105;108;103].
Definition usb_hid_key (usage : Z) : Z :=
  if (4 <=? usage) && (usage <=? 29) then byte_at hid_letters (usage - 4)
  else if (30 <=? usage) && (usage <=? 38) then usage - 28
  else if (39 <=? usage) && (usage <? 39 + Z.of_nat (length hid_rest)) then byte_at hid_rest (usage - 39)
  else if usage =? 224 then 29
  else if usage =? 225 then 42
  else if usage =? 226 then 56
  else if usage =? 227 then 125
  else if usage =? 228 then 97
  else if usage =? 229 then 54
  else if usage =? 230 then 100
  else if usage =? 231 then 126
  else 0.

(** ** Boot keyboards *)

Definition pi4_usb_keyboard_interval (speed interval : Z) : Z :=
  let grow := fix grow (k : nat) (n : Z) : Z :=
    match k with
    | O => n
    | S k' => if (n <? 10) && (Z.shiftl 1 (n + 1 - 3) <=? interval) then grow k' (n + 1) else n
    end in
  if (interval =? 0) || (255 <? interval) then -1
  else if speed =? 3 then if interval <=? 16 then interval - 1 else -1
  else if negb (speed =? 1) && negb (speed =? 2) then -1
  else grow 8%nat 3.

(** The keys of a report: its bytes 2 to 7. *)
Definition keys_of (r : list Z) : list Z := take 6 (drop 2 r).
Definition pi4_usb_keyboard_has (r : list Z) (usage : Z) : bool := existsb (fun k => k =? usage) (keys_of r).

(** For each key of [keys] that is not 0, occurred not in [earlier] and is not down in [other]: the event. *)
Fixpoint key_events (keys earlier other : list Z) (down : bool) : list (Z * bool) :=
  match keys with
  | [] => []
  | u :: keys' =>
      (if negb (u =? 0) && negb (existsb (fun k => k =? u) earlier) && negb (pi4_usb_keyboard_has other u)
       then [(u, down)] else []) ++ key_events keys' (earlier ++ [u]) other down
  end.

(** The modifiers that changed, from bit [i]. *)
Fixpoint modifier_events (n : nat) (i new old : Z) : list (Z * bool) :=
  match n with
  | O => []
  | S n' =>
      (if has (Z.lxor new old) (Z.shiftl 1 i) then [(224 + i, has new (Z.shiftl 1 i))] else []) ++
      modifier_events n' (i + 1) new old
  end.

(** The return code, the report kept for the next call, and the events in order. *)
Definition pi4_usb_keyboard_decode (previous report : list Z) : Z * list Z * list (Z * bool) :=
  if negb (Z.of_nat (length report) =? 8) then (-1, previous, [])
  else if existsb (fun k => negb (k =? 0) && (k <? 4)) (keys_of report) then (0, previous, [])
  else
    (1, report,
     key_events (keys_of previous) [] report false ++
     modifier_events 8 0 (byte_at report 0) (byte_at previous 0) ++
     key_events (keys_of report) [] previous true).

(** ** Boot mice *)

Record pi4_usb_mouse_state := mk_mouse {
  ms_x : Z; ms_y : Z; ms_buttons : Z; ms_reports : Z; ms_moves : Z; ms_presses : Z; ms_releases : Z; ms_seen_buttons : Z }.

Definition pi4_usb_mouse_clamp (value dimension : Z) : Z :=
  if value <? 0 then 0 else if dimension <=? value then dimension - 1 else value.

Definition pi4_usb_mouse_decode (s : pi4_usb_mouse_state) (report : list Z) (width height : Z)
    : Z * pi4_usb_mouse_state :=
  let bytes := Z.of_nat (length report) in
  if (bytes <? 3) || (64 <? bytes) || (width =? 0) || (height =? 0) then (0, s)
  else
    let delta b := if b <? 128 then b else b - 256 in
    let dx := delta (byte_at report 1) in
    let dy := delta (byte_at report 2) in
    let buttons := Z.land (byte_at report 0) 7 in
    let count (b : bool) n := u32 (n + Z.b2z b) in
    (1, mk_mouse (pi4_usb_mouse_clamp (ms_x s + dx) width) (pi4_usb_mouse_clamp (ms_y s + dy) height)
          buttons (u32 (ms_reports s + 1))
          (count (negb (dx =? 0) || negb (dy =? 0)) (ms_moves s))
          (count (negb (Z.ldiff buttons (ms_buttons s) =? 0)) (ms_presses s))
          (count (negb (Z.ldiff (ms_buttons s) buttons =? 0)) (ms_releases s))
          (Z.lor (ms_seen_buttons s) buttons)).

(** ** Transaction translators *)

Record usb_tt_route := mk_route { tt_slot : Z; tt_port : Z }.

Definition usb_tt_child_route (parent_speed parent_slot parent_tt_slot parent_tt_port child_speed parent_port : Z)
    : usb_tt_route :=
  if 2 <? child_speed then mk_route 0 0
  else if parent_speed =? 3 then mk_route parent_slot parent_port
  else mk_route parent_tt_slot parent_tt_port.

Definition usb_tt_context_word (tt_slot tt_port : Z) : Z := Z.lor tt_slot (u32 (Z.shiftl tt_port 8)).
