(* ===== verification/HidSpec.v ===== *)
(** * USB HID decoding: descriptors bound the reports, key events replay to the report *)

From stdpp Require Import gmap.
From S2P Require Import Prelude Hid.
#[local] Open Scope Z_scope.

(** ** Bits *)

Lemma bits_loop_ok p off : bytes_ok p -> 0 <= off -> forall n i v, 0 <= i -> off + i + Z.of_nat n <= 8 * Z.of_nat (length p) ->
  0 <= v < 2 ^ i -> exists r, bits_loop n p off i v = Some r /\ 0 <= r < 2 ^ (i + Z.of_nat n) /\
    (forall j, 0 <= j < i -> Z.testbit r j = Z.testbit v j) /\
    (forall j, i <= j < i + Z.of_nat n ->
       Z.testbit r j = match p !! Z.to_nat ((off + j) / 8) with Some b => Z.testbit b ((off + j) mod 8) | None => false end).
Proof.
  intros Hp Hoff. induction n as [|n IH]; intros i v Hi Hb Hv; cbn [bits_loop].
  - exists v. rewrite Z.add_0_r. repeat split; try lia; auto.
  - assert (Hidx : (off + i) / 8 < Z.of_nat (length p)) by (apply Z.div_lt_upper_bound; lia).
    destruct (lookup_lt_is_Some_2 p (Z.to_nat ((off + i) / 8))) as [b Eb]; [pose proof (Z.div_pos (off + i) 8); lia|].
    rewrite Eb. set (bit := Z.land (Z.shiftr b ((off + i) mod 8)) 1).
    assert (Hbit : bit = Z.b2z (Z.testbit b ((off + i) mod 8))).
    { subst bit. change 1 with (2 ^ 1 - 1) at 1. rewrite land_ones_mod by lia. rewrite Z.testbit_spec' by (apply Z.mod_pos_bound; lia).
      rewrite Z.shiftr_div_pow2 by (apply Z.mod_pos_bound; lia). reflexivity. }
    rewrite (lor_shiftl_add v bit i) by lia.
    assert (Hb01 : 0 <= bit <= 1) by (rewrite Hbit; destruct (Z.testbit _ _); cbn; lia).
    assert (Hp2 : 2 ^ (i + 1) = 2 * 2 ^ i) by (rewrite Z.pow_add_r by lia; lia).
    destruct (IH (i + 1) (v + bit * 2 ^ i)) as (r & Er & Hr & Hlo & Hhi); [lia | lia | nia |].
    exists r. split; [exact Er|]. split; [replace (i + Z.of_nat (S n)) with (i + 1 + Z.of_nat n) by lia; exact Hr|].
    assert (Hv' : forall j, 0 <= j -> Z.testbit (v + bit * 2 ^ i) j = if j <? i then Z.testbit v j else if j =? i then Z.testbit b ((off + i) mod 8) else false).
    { intros j Hj. rewrite <- (lor_shiftl_add v bit i) by lia. rewrite Z.lor_spec.
      destruct (j <? i) eqn:E1; zbool; [rewrite Z.shiftl_spec_low, orb_false_r by lia; reflexivity|].
      rewrite (testbit_above i v j) by (unfold is_u; lia). rewrite Z.shiftl_spec by lia. cbn [orb].
      destruct (j =? i) eqn:E2; zbool.
      - subst j. rewrite Z.sub_diag, Hbit. destruct (Z.testbit b _); reflexivity.
      - apply (testbit_above 1); [unfold is_u; lia | lia]. }
    split.
    + intros j Hj. rewrite Hlo, Hv' by lia. rewrite (proj2 (Z.ltb_lt j i)) by lia. reflexivity.
    + intros j Hj. destruct (Z.eq_dec j i) as [->|Hne].
      * rewrite Hlo, Hv' by lia. rewrite Z.ltb_irrefl, Z.eqb_refl, Eb. reflexivity.
      * apply Hhi. lia.
Qed.

(** A field that lies in the report is read, and is the report's bits. *)
Lemma usb_hid_bits_ok p off bits : bytes_ok p -> 0 <= off -> 0 <= bits -> off + bits <= 8 * Z.of_nat (length p) ->
  exists v, usb_hid_bits p off bits = Some v /\ 0 <= v < 2 ^ bits /\
    forall j, 0 <= j < bits ->
      Z.testbit v j = match p !! Z.to_nat ((off + j) / 8) with Some b => Z.testbit b ((off + j) mod 8) | None => false end.
Proof.
  intros Hp H1 H2 H3. destruct (bits_loop_ok p off Hp H1 (Z.to_nat bits) 0 0) as (v & E & Hv & _ & Hb); [lia | lia | cbn; lia |].
  exists v. rewrite Z2Nat.id in * by lia. split; [exact E|]. split; [exact Hv|]. intros j Hj. apply Hb. lia.
Qed.

(** ** Fields of a report *)

(** The little-endian number a list of bytes writes, and one field of it. *)
Definition field (payload : list Z) (off bits : Z) : Z := le_value payload / 2 ^ off mod 2 ^ bits.

Lemma le_value_range l : bytes_ok l -> 0 <= le_value l < 2 ^ (8 * Z.of_nat (length l)).
Proof.
  induction 1 as [|b l Hb Hl IH]; [cbn; lia|]. cbn [le_value length]. unfold is_u in Hb.
  replace (8 * Z.of_nat (S (length l))) with (8 + 8 * Z.of_nat (length l)) by lia. rewrite Z.pow_add_r by lia. lia.
Qed.

Lemma le_value_bit l : bytes_ok l -> forall j, 0 <= j ->
  Z.testbit (le_value l) j = match l !! Z.to_nat (j / 8) with Some b => Z.testbit b (j mod 8) | None => false end.
Proof.
  induction 1 as [|b l Hb Hl IH]; intros j Hj; [cbn; apply Z.testbit_0_l|]. cbn [le_value].
  replace (b + 256 * le_value l) with (Z.lor b (Z.shiftl (le_value l) 8)) by (rewrite lor_shiftl_add by (unfold is_u in Hb; lia); lia).
  rewrite Z.lor_spec. destruct (Z.lt_ge_cases j 8) as [Hlt|Hge].
  - rewrite Z.shiftl_spec_low, orb_false_r, Z.div_small, Z.mod_small by lia. reflexivity.
  - rewrite (testbit_above 8 b j Hb), Z.shiftl_spec by lia. cbn [orb]. rewrite IH by lia.
    replace (j / 8) with (1 + (j - 8) / 8) by (Z.to_euclidean_division_equations; lia).
    replace (j mod 8) with ((j - 8) mod 8) by (Z.to_euclidean_division_equations; lia).
    replace (Z.to_nat (1 + (j - 8) / 8)) with (S (Z.to_nat ((j - 8) / 8))) by (pose proof (Z.div_pos (j - 8) 8); lia).
    reflexivity.
Qed.

Lemma field_range payload off bits : 0 <= bits -> 0 <= field payload off bits < 2 ^ bits.
Proof. intros. apply Z.mod_pos_bound, Z.pow_pos_nonneg; lia. Qed.

(** A field inside the report is read exactly. *)
Lemma usb_hid_bits_field p off bits : bytes_ok p -> 0 <= off -> 0 <= bits -> off + bits <= 8 * Z.of_nat (length p) ->
  usb_hid_bits p off bits = Some (field p off bits).
Proof.
  intros Hp H1 H2 H3. destruct (usb_hid_bits_ok p off bits Hp H1 H2 H3) as (v & E & Hv & Hb). rewrite E. f_equal.
  apply Z.bits_inj'. intros j Hj. unfold field. destruct (Z.lt_ge_cases j bits) as [Hlt|Hge].
  - rewrite Z.mod_pow2_bits_low, Z.div_pow2_bits by lia. rewrite le_value_bit, Hb by (assumption || lia).
    rewrite (Z.add_comm j off). reflexivity.
  - rewrite (testbit_above bits v j), Z.mod_pow2_bits_high by (unfold is_u; lia). reflexivity.
Qed.

(** Flipping the sign bit and subtracting it is two's complement. *)
Lemma land_pow2_small v k : 0 <= k -> 0 <= v < 2 ^ k -> Z.land v (2 ^ k) = 0.
Proof.
  intros Hk Hv. apply Z.bits_inj'. intros j Hj. rewrite Z.land_spec, Z.pow2_bits_eqb, Z.bits_0 by lia.
  destruct (k =? j) eqn:E; [zbool; subst j; rewrite (testbit_above k v k) by (unfold is_u; lia); reflexivity | apply andb_false_r].
Qed.

Lemma lxor_pow2 v k : 0 <= k -> 0 <= v < 2 ^ (k + 1) ->
  Z.lxor v (2 ^ k) = if v <? 2 ^ k then v + 2 ^ k else v - 2 ^ k.
Proof.
  intros Hk Hv. rewrite Z.pow_add_r in Hv by lia. destruct (v <? 2 ^ k) eqn:E; zbool.
  - symmetry. apply Z.add_nocarry_lxor, land_pow2_small; lia.
  - replace v with (v - 2 ^ k + 2 ^ k) at 1 by lia.
    rewrite (Z.add_nocarry_lxor (v - 2 ^ k)) by (apply land_pow2_small; lia).
    rewrite Z.lxor_assoc, Z.lxor_nilpotent, Z.lxor_0_r. reflexivity.
Qed.

Lemma usb_hid_signed_ok v bits : 0 < bits <= 31 -> is_u bits v -> usb_hid_signed v bits = signed bits v.
Proof.
  intros Hb Hv. unfold usb_hid_signed. rewrite (proj2 (Z.eqb_neq bits 0)), (proj2 (Z.ltb_ge 31 bits)) by lia. cbn [orb].
  rewrite Z.shiftl_1_l. assert (Hw : 2 ^ bits <= 2 ^ 31) by (apply Z.pow_le_mono_r; lia).
  assert (Hs : 2 ^ bits = 2 * 2 ^ (bits - 1)) by (rewrite <- Z.pow_succ_r by lia; f_equal; lia).
  assert (Hsm : forall x, 0 <= x < 2 ^ 31 -> signed 32 x = x).
  { intros x Hx. unfold signed. rewrite wrap_id by (unfold is_u; lia). change (32 - 1) with 31.
    rewrite (proj2 (Z.ltb_lt x (2 ^ 31))) by lia. reflexivity. }
  unfold is_u in Hv. rewrite lxor_pow2 by (rewrite ?Z.sub_add; lia).
  unfold signed at 2. rewrite (wrap_id bits v) by exact Hv. destruct (v <? 2 ^ (bits - 1)) eqn:E; zbool; rewrite Hsm; lia.
Qed.

(** ** What an accepted descriptor promises *)

(** An axis in use lies below bit [limit], is at most 31 bits wide and has a proper range. *)
Definition axis_ok (limit : Z) (a : usb_hid_axis) : Prop :=
  0 <= a_bits a <= 31 /\ 0 <= a_off a /\ a_off a + a_bits a <= limit /\ (0 < a_bits a -> a_min a < a_max a).

Record pointer_ok (limit : Z) (h : usb_hid_pointer) : Prop := mk_pointer_ok {
  po_x : axis_ok limit (p_x h); po_y : axis_ok limit (p_y h); po_wheel : axis_ok limit (p_wheel h);
  po_buttons : 0 <= buttons_off h /\ 0 <= buttons_count h /\ buttons_off h + buttons_count h <= limit }.

(** The parser's invariant. *)
Record hid_inv (s : hid_parser) : Prop := mk_hid_inv {
  hi_h : pointer_ok (hp_bit s) (hp_h s);
  hi_bit : 0 <= hp_bit s <= 512;
  hi_size : 0 <= hp_size s; hi_count : 0 <= hp_count s;
  hi_ids : 0 <= hp_current_id s <= 255 /\ 0 <= hp_input_id s <= 255;
  hi_rel : -1 <= hp_relative s <= 1 }.

Lemma axis_ok_mono l l' a : l <= l' -> axis_ok l a -> axis_ok l' a.
Proof. unfold axis_ok. intros Hl (P1 & P2 & P3 & P4). repeat split; lia || assumption. Qed.

Lemma pointer_ok_mono l l' h : l <= l' -> pointer_ok l h -> pointer_ok l' h.
Proof.
  intros Hl [P1 P2 P3 P4]. split; try (eapply axis_ok_mono; eassumption). lia.
Qed.

Lemma set_axis_ok limit usage a h : pointer_ok limit h -> axis_ok limit a -> pointer_ok limit (set_axis usage a h).
Proof.
  intros [P1 P2 P3 P4] Ha. destruct h. unfold set_axis. repeat case_if; split; assumption.
Qed.

(** The fields of one input item, [bit] being where the item starts. *)
Lemma input_fields_inv size bit : 0 < size -> 0 <= bit -> forall n v i s,
  0 <= i -> hp_size s = size -> hp_bit s = bit -> pointer_ok (bit + i * size) (hp_h s) -> -1 <= hp_relative s <= 1 ->
  forall s', input_fields n v i s = Some s' ->
  pointer_ok (bit + (i + Z.of_nat n) * size) (hp_h s') /\ -1 <= hp_relative s' <= 1 /\
  s' = set_fields (hp_h s') (hp_bit s) (hp_relative s') s.
Proof.
  intros Hsz Hbit. induction n as [|n IH]; intros v i s Hi Es Eb Hp Hr s'; cbn [input_fields].
  { intros [= <-]. rewrite Z.add_0_r. split; [exact Hp|]. split; [exact Hr|]. destruct s; reflexivity. }
  replace (i + Z.of_nat (S n)) with (i + 1 + Z.of_nat n) by lia.
  assert (Hm : pointer_ok (bit + (i + 1) * size) (hp_h s)) by (eapply pointer_ok_mono; [|exact Hp]; lia).
  assert (Hsk : input_fields n v (i + 1) s = Some s' ->
    pointer_ok (bit + (i + 1 + Z.of_nat n) * size) (hp_h s') /\ -1 <= hp_relative s' <= 1 /\
    s' = set_fields (hp_h s') (hp_bit s) (hp_relative s') s) by (apply (IH v (i + 1) s ltac:(lia) Es Eb Hm Hr)).
  assert (Hst : forall h rel, pointer_ok (bit + (i + 1) * size) h -> -1 <= rel <= 1 ->
    input_fields n v (i + 1) (set_fields h (hp_bit s) rel s) = Some s' ->
    pointer_ok (bit + (i + 1 + Z.of_nat n) * size) (hp_h s') /\ -1 <= hp_relative s' <= 1 /\
    s' = set_fields (hp_h s') (hp_bit s) (hp_relative s') s).
  { intros h rel Hh Hrel E. destruct (IH v (i + 1) (set_fields h (hp_bit s) rel s) ltac:(lia) Es Eb Hh Hrel s' E) as (P1 & P2 & P3).
    split; [exact P1|]. split; [exact P2|]. rewrite P3 at 1. destruct s; reflexivity. }
  clear IH. cbn zeta. case_if; [exact Hsk|]. case_if; [discriminate|]. case_if.
  - case_if; [discriminate|]. case_if; [discriminate|].
    assert (Ha : pointer_ok (bit + (i + 1) * size)
                   (set_axis (field_usage s i) (mk_axis (hp_bit s + i * hp_size s) (hp_size s) (hp_min s) (hp_max s)) (hp_h s))).
    { apply set_axis_ok; [exact Hm|]. bool_hyps. zbool. unfold axis_ok. cbn [a_bits a_off a_min a_max]. rewrite Es, Eb in *. lia. }
    case_if; [|apply Hst; assumption]. case_if; [discriminate|]. apply Hst; [exact Ha|]. destruct (has v 4); cbn; lia.
  - case_if; [|exact Hsk]. apply Hst; [|exact Hr]. bool_hyps. zbool. destruct Hm as [P1 P2 P3 P4]. destruct Hp as [_ _ _ P5].
    split; cbn [p_x p_y p_wheel buttons_off buttons_count]; try assumption. rewrite Es in *. subst size.
    destruct (buttons_count (hp_h s) =? 0) eqn:E; zbool; lia.
Qed.

Lemma hid_input_inv v s s' : hid_inv s -> hid_input v s = Some s' -> hid_inv s'.
Proof.
  intros [P1 P2 P3 P4 P5 P6]. unfold hid_input. case_if; [discriminate|].
  set (t := if hp_selected s then s else set_input (hp_current_id s) s).
  assert (Ht : hp_h t = hp_h s /\ hp_bit t = hp_bit s /\ hp_size t = hp_size s /\ hp_count t = hp_count s /\
               hp_current_id t = hp_current_id s /\ 0 <= hp_input_id t <= 255 /\ hp_relative t = hp_relative s).
  { subst t. destruct (hp_selected s); repeat split; cbn; lia. }
  destruct Ht as (T1 & T2 & T3 & T4 & T5 & T6 & T7). case_if; [discriminate|]. bool_hyps. zbool.
  destruct (input_fields (Z.to_nat (hp_count t)) v 0 t) as [r|] eqn:E; [|discriminate]. intros [= <-].
  destruct (input_fields_inv (hp_size t) (hp_bit t) ltac:(lia) ltac:(lia) _ v 0 t ltac:(lia) eq_refl eq_refl
              ltac:(rewrite Z.add_0_r, T1, T2; exact P1) ltac:(lia) r E) as (F1 & F2 & F3).
  rewrite Z2Nat.id in F1 by lia. rewrite (u32_id (512 - hp_bit t)) in * by lia.
  assert (Hb : 0 <= hp_size t * hp_count t <= 32 * 64) by nia. rewrite (u32_id (hp_size t * hp_count t)) in * by lia.
  assert (Hr : hp_bit r = hp_bit t /\ hp_size r = hp_size t /\ hp_count r = hp_count t /\
               hp_current_id r = hp_current_id t /\ hp_input_id r = hp_input_id t) by (rewrite F3; repeat split).
  destruct Hr as (R1 & R2 & R3 & R4 & R5).
  split; cbn [set_fields hp_h hp_bit hp_size hp_count hp_current_id hp_input_id hp_relative]; rewrite ?R1, ?R2, ?R3, ?R4, ?R5, ?u32_id by lia; try lia.
  eapply pointer_ok_mono; [|exact F1]. lia.
Qed.

Lemma hid_item_inv tag bytes v s s' : 0 <= v -> hid_inv s -> hid_item tag bytes v s = Some s' -> hid_inv s'.
Proof.
  intros Hv I. pose proof I as [P1 P2 P3 P4 P5 P6].
  unfold hid_item. repeat (case_if; [first [discriminate | solve [intros [= <-]; bool_hyps; zbool; split; cbn; (assumption || lia)] | idtac]|]);
    try (intros [= <-]; assumption); try (case_if; [discriminate|]).
  all: try (intros [= <-]; bool_hyps; zbool; split; cbn; (assumption || lia)).
  apply hid_input_inv, I.
Qed.

Lemma hid_items_inv fuel : forall desc s s', bytes_ok desc -> hid_inv s -> hid_items fuel desc s = Some s' -> hid_inv s'.
Proof.
  induction fuel as [|fuel IH]; intros desc s s' Hd I; destruct desc as [|b rest]; cbn [hid_items]; try congruence.
  cbn zeta. inversion Hd as [|? ? Hb Hr]; subst. case_if; [discriminate|]. case_if; [discriminate|].
  set (n := if Z.land b 3 =? 3 then 4 else Z.land b 3).
  destruct (le_value_range (take (Z.to_nat n) rest) (bytes_ok_take (Z.to_nat n) rest Hr)) as [Hv _].
  destruct (hid_item _ _ _ s) as [r|] eqn:E; [|discriminate]. apply (hid_item_inv _ _ _ _ _ Hv I) in E.
  apply IH; [apply bytes_ok_drop, Hr|]. case_if; [|exact E]. destruct E. split; assumption.
Qed.

(** As much fuel as the descriptor has bytes is enough. *)
Lemma hid_items_fuel n : forall desc s m, (length desc <= n)%nat -> (length desc <= m)%nat ->
  hid_items n desc s = hid_items m desc s.
Proof.
  induction n as [|n IH]; intros desc s m Hn Hm; destruct desc as [|b rest]; cbn [length] in *; try (destruct m; reflexivity); try lia.
  destruct m as [|m]; [lia|]. cbn [hid_items]. cbn zeta. case_if; [reflexivity|]. case_if; [reflexivity|].
  destruct (hid_item _ _ _ s) as [r|]; [|reflexivity]. apply IH; rewrite length_drop; lia.
Qed.

Lemma hid_start_inv : hid_inv hid_start.
Proof.
  assert (forall a, a = no_axis -> axis_ok 0 a) by (intros a ->; unfold axis_ok; cbn; lia).
  split; cbn; try lia. split; cbn; auto. lia.
Qed.

(** A descriptor that is accepted. *)
Record parsed_ok (h : usb_hid_pointer) : Prop := mk_parsed_ok {
  pa_fields : pointer_ok (report_bits h) h;
  pa_xy : 0 < a_bits (p_x h) /\ 0 < a_bits (p_y h);
  pa_buttons : buttons_count h <= 3;
  pa_bits : 0 < report_bits h <= 512;
  pa_id : 0 <= report_id h <= 255 }.

Lemma parse_ok desc h : bytes_ok desc -> usb_hid_pointer_parse desc = Some h -> parsed_ok h.
Proof.
  intros Hd. unfold usb_hid_pointer_parse. destruct (hid_items _ _ _) as [s|] eqn:E; [|discriminate].
  apply (hid_items_inv _ _ _ _ Hd hid_start_inv) in E. destruct E as [P1 P2 P3 P4 P5 P6].
  cbn zeta. case_if; [discriminate|]. intros [= <-]. bool_hyps. zbool.
  destruct P1 as [Q1 Q2 Q3 Q4]. unfold axis_ok in *.
  split; cbn [p_x p_y p_wheel buttons_off buttons_count report_bits report_id]; try lia.
  split; cbn [p_x p_y p_wheel buttons_off buttons_count]; unfold axis_ok; assumption.
Qed.

(** ** The meaning of a report *)

(** What is left of a report behind its identifier. *)
Definition report_payload (h : usb_hid_pointer) (report : list Z) : option (list Z) :=
  if report_id h =? 0 then Some report
  else match report with id :: rest => if id =? report_id h then Some rest else None | [] => None end.

Definition axis_reading (a : usb_hid_axis) (payload : list Z) : Z :=
  let f := field payload (a_off a) (a_bits a) in if a_min a <? 0 then signed (a_bits a) f else f.

Definition pointer_reading (h : usb_hid_pointer) (report : list Z) : option (Z * Z * Z * Z) :=
  match report_payload h report with
  | None => None
  | Some p =>
      if 8 * Z.of_nat (length p) <? report_bits h then None
      else Some (axis_reading (p_x h) p, axis_reading (p_y h) p,
                 (if 0 <? a_bits (p_wheel h) then signed (a_bits (p_wheel h)) (field p (a_off (p_wheel h)) (a_bits (p_wheel h))) else 0),
                 field p (buttons_off h) (buttons_count h))
  end.

Lemma axis_value_ok limit a p : axis_ok limit a -> 0 < a_bits a -> bytes_ok p ->
  axis_value a (field p (a_off a) (a_bits a)) = axis_reading a p.
Proof.
  intros (P1 & P2 & P3 & P4) Hb Hp. unfold axis_value, axis_reading. pose proof (field_range p (a_off a) (a_bits a) ltac:(lia)) as Hf.
  cbn zeta. case_if; [apply usb_hid_signed_ok; [lia | exact Hf]|].
  assert (2 ^ a_bits a <= 2 ^ 31) by (apply Z.pow_le_mono_r; lia).
  unfold signed. rewrite wrap_id by (unfold is_u; lia). change (32 - 1) with 31. rewrite (proj2 (Z.ltb_lt _ (2 ^ 31))) by lia. reflexivity.
Qed.

(** An accepted descriptor reads every report inside its bytes, and reads what the report says. *)
Lemma pointer_read_ok h report : parsed_ok h -> bytes_ok report ->
  usb_hid_pointer_read h report = Some (pointer_reading h report).
Proof.
  intros [[P1 P2 P3 P4] P5 P6 P7 P8] Hr. unfold usb_hid_pointer_read, pointer_reading, report_payload.
  assert (Hgo : forall p, bytes_ok p -> report_bits h <= 8 * Z.of_nat (length p) ->
    usb_hid_bits p (a_off (p_x h)) (a_bits (p_x h)) = Some (field p (a_off (p_x h)) (a_bits (p_x h))) /\
    usb_hid_bits p (a_off (p_y h)) (a_bits (p_y h)) = Some (field p (a_off (p_y h)) (a_bits (p_y h))) /\
    usb_hid_bits p (a_off (p_wheel h)) (a_bits (p_wheel h)) = Some (field p (a_off (p_wheel h)) (a_bits (p_wheel h))) /\
    usb_hid_bits p (buttons_off h) (buttons_count h) = Some (field p (buttons_off h) (buttons_count h))).
  { intros p Hp Hl. unfold axis_ok in *. repeat split; apply usb_hid_bits_field; (assumption || lia). }
  assert (Hlen : forall n : nat, (Z.of_nat n <? u32 (report_bits h + 7) / 8) = (8 * Z.of_nat n <? report_bits h)).
  { intros n. rewrite u32_id by lia. apply eq_bool_prop_intro, iff_sym. rewrite !Is_true_true, !Z.ltb_lt. Z.to_euclidean_division_equations; lia. }
  assert (Hread : forall p, bytes_ok p -> (if Z.of_nat (length p) <? u32 (report_bits h + 7) / 8 then Some None
      else match usb_hid_bits p (a_off (p_x h)) (a_bits (p_x h)), usb_hid_bits p (a_off (p_y h)) (a_bits (p_y h)),
            (if negb (a_bits (p_wheel h) =? 0) then usb_hid_bits p (a_off (p_wheel h)) (a_bits (p_wheel h)) else Some 0),
            usb_hid_bits p (buttons_off h) (buttons_count h) with
      | Some vx, Some vy, Some vw, Some vb =>
          Some (Some (axis_value (p_x h) vx, axis_value (p_y h) vy,
                      (if negb (a_bits (p_wheel h) =? 0) then usb_hid_signed vw (a_bits (p_wheel h)) else 0), vb))
      | _, _, _, _ => None
      end) = Some (if 8 * Z.of_nat (length p) <? report_bits h then None
      else Some (axis_reading (p_x h) p, axis_reading (p_y h) p,
                 (if 0 <? a_bits (p_wheel h) then signed (a_bits (p_wheel h)) (field p (a_off (p_wheel h)) (a_bits (p_wheel h))) else 0),
                 field p (buttons_off h) (buttons_count h)))).
  { intros p Hp. rewrite Hlen. destruct (8 * _ <? _) eqn:E; [reflexivity|]. zbool.
    destruct (Hgo p Hp E) as (-> & -> & -> & ->). rewrite !(axis_value_ok (report_bits h)) by (assumption || lia).
    destruct (0 <? a_bits (p_wheel h)) eqn:Ew; zbool.
    - rewrite (proj2 (Z.eqb_neq (a_bits (p_wheel h)) 0)) by lia. cbn [negb].
      rewrite usb_hid_signed_ok by (unfold axis_ok in P3; lia || apply field_range; lia). reflexivity.
    - assert (a_bits (p_wheel h) = 0) as -> by (unfold axis_ok in P3; lia). reflexivity. }
  destruct (report_id h =? 0); cbn [negb]; [apply Hread, Hr|].
  destruct report as [|id rest]; [reflexivity|]. destruct (id =? report_id h); cbn [negb]; [|reflexivity].
  apply Hread. inversion Hr; assumption.
Qed.

(** ** The keys that are down *)

Definition held (r : list Z) : gset Z :=
  list_to_set (List.filter (fun k => negb (k =? 0)) (keys_of r)) ∪
  list_to_set (List.filter (fun u => Z.testbit (byte_at r 0) (u - 224)) (map (fun i => 224 + Z.of_nat i) (seq 0 8))).

(** A keyboard's events followed on the set of keys that are down: each must change the set. *)
Fixpoint replay (s : gset Z) (evs : list (Z * bool)) : option (gset Z) :=
  match evs with
  | [] => Some s
  | (u, down) :: evs' =>
      if Bool.eqb (bool_decide (u ∈ s)) down then None
      else replay (if down then {[u]} ∪ s else s ∖ {[u]}) evs'
  end.

Lemma replay_app s l1 l2 : replay s (l1 ++ l2) = match replay s l1 with Some s' => replay s' l2 | None => None end.
Proof. revert s. induction l1 as [|[u d] l1 IH]; intros s; cbn; [reflexivity|]. case_if; [reflexivity | apply IH]. Qed.

(** One event that is a change. *)
Lemma replay_change s u (down : bool) evs : (u ∈ s <-> down = false) ->
  exists s', replay s ((u, down) :: evs) = replay s' evs /\
    forall x, x ∈ s' <-> if down then x = u \/ x ∈ s else x ∈ s /\ x <> u.
Proof.
  intros Hu. cbn [replay]. exists (if down then {[u]} ∪ s else s ∖ {[u]}).
  assert (bool_decide (u ∈ s) = negb down) as -> by (destruct down; cbn; [apply bool_decide_eq_false | apply bool_decide_eq_true]; intuition congruence).
  split; [destruct down; reflexivity|]. intros x. destruct down; [rewrite elem_of_union | rewrite elem_of_difference]; rewrite elem_of_singleton; reflexivity.
Qed.

Lemma existsb_In l u : existsb (fun k => k =? u) l = true <-> In u l.
Proof.
  rewrite existsb_exists. split; [intros (k & P1 & P2); zbool; subst; assumption | intros P1; exists u; split; [assumption | apply Z.eqb_refl]].
Qed.

Definition key_changes (keys earlier other : list Z) (x : Z) : Prop :=
  In x keys /\ x <> 0 /\ ~ In x earlier /\ ~ In x (keys_of other).

Lemma key_events_replay (down : bool) other keys : forall earlier s,
  (forall x, key_changes keys earlier other x -> (x ∈ s <-> down = false)) ->
  exists s', replay s (key_events keys earlier other down) = Some s' /\
    forall x, x ∈ s' <-> if down then key_changes keys earlier other x \/ x ∈ s else x ∈ s /\ ~ key_changes keys earlier other x.
Proof.
  unfold key_changes. induction keys as [|u keys IH]; intros earlier s Hs; cbn [key_events].
  { exists s. split; [reflexivity|]. intros x. destruct down; cbn; intuition congruence. }
  assert (Hin : forall x, In x (earlier ++ [u]) <-> In x earlier \/ x = u).
  { intros x. rewrite in_app_iff. cbn. intuition congruence. }
  destruct (negb (u =? 0) && negb (existsb _ earlier) && negb (pi4_usb_keyboard_has other u)) eqn:E.
  - bool_hyps. zbool. apply not_true_iff_false in H0, H1. unfold pi4_usb_keyboard_has in *. rewrite existsb_In in *.
    destruct (replay_change s u down (key_events keys (earlier ++ [u]) other down)) as (s1 & E1 & S1).
    { apply Hs. cbn. auto. }
    cbn [app]. rewrite E1. destruct (IH (earlier ++ [u]) s1) as (s' & E2 & S2).
    { intros x (K1 & K2 & K3 & K4). rewrite Hin in K3. rewrite S1. specialize (Hs x). cbn [In] in Hs. destruct down; intuition congruence. }
    exists s'. split; [exact E2|]. intros x. rewrite S2. clear S2 E2 IH Hs E1. specialize (S1 x). specialize (Hin x).
    destruct (Z.eq_dec x u) as [->|Hne]; cbn; destruct down; intuition congruence.
  - cbn [app]. assert (Hu : u = 0 \/ In u earlier \/ In u (keys_of other)).
    { apply andb_false_iff in E as [E|E]; [apply andb_false_iff in E as [E|E]|]; apply negb_false_iff in E.
      - left. zbool. exact E.
      - right. left. apply existsb_In, E.
      - right. right. apply existsb_In, E. }
    destruct (IH (earlier ++ [u]) s) as (s' & E2 & S2).
    { intros x (K1 & K2 & K3 & K4). rewrite Hin in K3. apply Hs. cbn. intuition congruence. }
    exists s'. split; [exact E2|]. intros x. rewrite S2. clear S2 E2 IH Hs. specialize (Hin x).
    destruct (Z.eq_dec x u) as [->|Hne]; cbn; destruct down; intuition congruence.
Qed.

Lemma has_shiftl_1 x i : 0 <= i -> has x (Z.shiftl 1 i) = Z.testbit x i.
Proof.
  intros Hi. unfold has. rewrite Z.shiftl_1_l. destruct (Z.testbit x i) eqn:E.
  - apply negb_true_iff, Z.eqb_neq. intros H0. apply (f_equal (fun z => Z.testbit z i)) in H0.
    rewrite Z.land_spec, Z.pow2_bits_true, Z.bits_0, E in H0 by lia. discriminate.
  - apply negb_false_iff, Z.eqb_eq, Z.bits_inj'. intros j Hj. rewrite Z.land_spec, Z.pow2_bits_eqb, Z.bits_0 by lia.
    destruct (i =? j) eqn:Ej; zbool; [subst j; rewrite E; reflexivity | apply andb_false_r].
Qed.

Lemma modifier_events_replay new old n : forall i s, 0 <= i ->
  (forall j, i <= j < i + Z.of_nat n -> (224 + j ∈ s <-> Z.testbit old j = true)) ->
  exists s', replay s (modifier_events n i new old) = Some s' /\
    forall x, x ∈ s' <-> if (224 + i <=? x) && (x <? 224 + i + Z.of_nat n) then Z.testbit new (x - 224) = true else x ∈ s.
Proof.
  induction n as [|n IH]; intros i s Hi Hs; cbn [modifier_events].
  { exists s. split; [reflexivity|]. intros x. case_if; [bool_hyps; zbool; lia | reflexivity]. }
  rewrite !has_shiftl_1, Z.lxor_spec by lia. pose proof (Hs i ltac:(lia)) as Hi0.
  assert (Hnext : forall s1, (forall x, x ∈ s1 <-> if x =? 224 + i then Z.testbit new i = true else x ∈ s) ->
    exists s', replay s1 (modifier_events n (i + 1) new old) = Some s' /\
      forall x, x ∈ s' <-> if (224 + i <=? x) && (x <? 224 + i + Z.of_nat (S n)) then Z.testbit new (x - 224) = true else x ∈ s).
  { intros s1 S1. destruct (IH (i + 1) s1 ltac:(lia)) as (s' & E2 & S2).
    { intros j Hj. rewrite S1. rewrite (proj2 (Z.eqb_neq (224 + j) (224 + i))) by lia. apply Hs. lia. }
    exists s'. split; [exact E2|]. intros x. rewrite S2. specialize (S1 x).
    destruct (x =? 224 + i) eqn:Ex; zbool; [subst x; replace (224 + i - 224) with i by lia|];
      repeat case_if; try assumption; try reflexivity; bool_hyps; zbool; repeat match goal with P : (_ && _)%bool = false |- _ => apply andb_false_iff in P as [P|P] end; zbool; lia. }
  destruct (xorb _ _) eqn:Ex.
  - destruct (replay_change s (224 + i) (Z.testbit new i) (modifier_events n (i + 1) new old)) as (s1 & E1 & S1).
    { rewrite Hi0. destruct (Z.testbit new i), (Z.testbit old i); cbn in Ex; intuition congruence. }
    cbn [app]. rewrite E1. apply Hnext. intros x. rewrite S1. destruct (x =? 224 + i) eqn:Ee; zbool; destruct (Z.testbit new i); intuition congruence.
  - apply Hnext. intros x. destruct (x =? 224 + i) eqn:Ee; zbool; [subst x | reflexivity]. rewrite Hi0.
    destruct (Z.testbit new i), (Z.testbit old i); cbn in Ex; intuition congruence.
Qed.

(** A report whose key slots hold no modifiers, as the boot protocol has it. *)
Definition report_ok (r : list Z) : Prop := bytes_ok r /\ Forall (fun k => k < 224) (keys_of r).

Lemma elem_of_held r x : report_ok r ->
  x ∈ held r <-> if (224 <=? x) && (x <? 232) then Z.testbit (byte_at r 0) (x - 224) = true else In x (keys_of r) /\ x <> 0.
Proof.
  intros [_ Hk]. unfold held. rewrite elem_of_union, !elem_of_list_to_set, !list_elem_of_In, !filter_In.
  assert (Hm : In x (map (fun i => 224 + Z.of_nat i) (seq 0 8)) <-> 224 <= x < 232).
  { rewrite in_map_iff. split; [intros (i & <- & Hi); apply in_seq in Hi; lia|].
    intros Hx. exists (Z.to_nat (x - 224)). split; [lia|]. apply in_seq. lia. }
  rewrite Hm. rewrite negb_true_iff, Z.eqb_neq. destruct (_ && _) eqn:E.
  - bool_hyps. zbool. assert (~ In x (keys_of r)) by (intros Hin; rewrite List.Forall_forall in Hk; apply Hk in Hin; lia). intuition lia.
  - apply andb_false_iff in E. assert (~ 224 <= x < 232) by (destruct E; zbool; lia). intuition.
Qed.

Lemma keys_small r x : report_ok r -> In x (keys_of r) -> 224 <= x < 232 -> False.
Proof. intros [_ Hk] Hin Hx. rewrite List.Forall_forall in Hk. apply Hk in Hin. lia. Qed.

(** One accepted report: its events change the keys held by the previous one into its own. *)
Lemma decode_replay previous report : report_ok previous -> report_ok report ->
  let '(rc, previous', evs) := pi4_usb_keyboard_decode previous report in
  replay (held previous) evs = Some (held previous') /\ report_ok previous' /\
  (rc = 1 /\ previous' = report \/ rc <> 1 /\ previous' = previous /\ evs = []).
Proof.
  intros Hp Hr. unfold pi4_usb_keyboard_decode. case_if; [split; [reflexivity|]; split; [exact Hp | right; split; [discriminate | auto]]|].
  case_if; [split; [reflexivity|]; split; [exact Hp | right; split; [discriminate | auto]]|].
  split; [|split; [exact Hr | auto]]. rewrite replay_app.
  pose proof (fun x => elem_of_held previous x Hp) as Dp. pose proof (fun x => elem_of_held report x Hr) as Dr.
  assert (Hout : forall r x, report_ok r -> In x (keys_of r) -> (224 <=? x) && (x <? 232) = false).
  { intros r x Hok Hin. destruct (_ && _) eqn:E; [|reflexivity]. bool_hyps. zbool. exfalso. apply (keys_small r x Hok Hin). lia. }
  destruct (key_events_replay false report (keys_of previous) [] (held previous)) as (s1 & -> & S1).
  { intros x (K1 & K2 & _). rewrite Dp, (Hout previous) by assumption. tauto. }
  rewrite replay_app. destruct (modifier_events_replay (byte_at report 0) (byte_at previous 0) 8 0 s1 ltac:(lia)) as (s2 & -> & S2).
  { intros j Hj. rewrite S1, Dp. rewrite (proj2 (Z.leb_le 224 (224 + j))), (proj2 (Z.ltb_lt (224 + j) 232)) by lia. cbn [andb].
    replace (224 + j - 224) with j by lia. split; [tauto|]. intros Hb. split; [exact Hb|]. intros (K1 & _). apply (keys_small previous _ Hp K1). lia. }
  change (224 + 0) with 224 in S2. change (224 + Z.of_nat 8) with 232 in S2.
  destruct (key_events_replay true previous (keys_of report) [] s2) as (s3 & -> & S3).
  { intros x (K1 & K2 & _ & K4). specialize (S2 x). specialize (S1 x). specialize (Dp x).
    rewrite (Hout report) in S2, Dp by assumption. intuition congruence. }
  f_equal. apply set_eq. intros x. specialize (S3 x). specialize (S2 x). specialize (S1 x). specialize (Dp x). specialize (Dr x).
  unfold key_changes in *. specialize (Hout report x Hr). destruct ((224 <=? x) && (x <? 232)).
  - assert (In x (keys_of report) -> False) by (intros K; discriminate (Hout K)). tauto.
  - cbn [In] in *. destruct (in_dec Z.eq_dec x (keys_of report)), (in_dec Z.eq_dec x (keys_of previous)); tauto.
Qed.
