(* ===== verification/HidDescr.v ===== *)
(** * USB HID: what a report descriptor says

    A descriptor is a list of items; read in order they describe the fields of the input report.
    The parser of [Hid] keeps three axes and a run of buttons of them. *)

From S2P Require Import Prelude Hid HidSpec.
#[local] Open Scope Z_scope.

(** ** The fields of a descriptor *)

Record item := mk_item { it_tag : Z; it_bytes : Z; it_value : Z }.

(** Short items only; [None]: the last one is cut off. *)
Fixpoint items (fuel : nat) (desc : list Z) : option (list item) :=
  match desc, fuel with
  | [], _ => Some []
  | _, O => None
  | b :: rest, S fuel' =>
      let bytes := if Z.land b 3 =? 3 then 4 else Z.land b 3 in
      if (b =? 0xfe) || (Z.of_nat (length rest) <? bytes) then None
      else cons (mk_item (Z.land b 0xfc) bytes (le_value (take (Z.to_nat bytes) rest))) <$> items fuel' (drop (Z.to_nat bytes) rest)
  end.

(** A field of the input report: [fl_usage] has the usage page in its upper half. *)
Record input_field := mk_field {
  fl_usage : Z; fl_off : Z; fl_bits : Z; fl_min : Z; fl_max : Z; fl_const : bool; fl_relative : bool; fl_id : Z }.

(** The global and the local items in force, and the fields so far. *)
Record descr := mk_descr {
  d_page : Z; d_size : Z; d_count : Z; d_min : Z; d_max : Z; d_id : Z;
  d_usages : list Z; d_umin : Z; d_umax : Z; d_range : bool;
  d_bit : Z; d_fields : list input_field }.

Definition blank : descr := mk_descr 0 0 0 0 0 0 [] 0 0 false 0 [].

(** Field [i] of an input item has the [i]th usage that is listed or, behind these, the [i]th of
    the range. *)
Definition usage_of (d : descr) (i : Z) : Z :=
  match d_usages d !! Z.to_nat i with
  | Some u => u
  | None => if d_range d && (u32 (d_umin d + i) <=? d_umax d) then Z.lor (u32 (Z.shiftl (d_page d) 16)) (u32 (d_umin d + i)) else 0
  end.

Definition field_of (d : descr) (flags i : Z) : input_field :=
  mk_field (usage_of d i) (d_bit d + i * d_size d) (d_size d) (d_min d) (d_max d) (has flags 1) (has flags 4) (d_id d).

(** The data of an item as a number with a sign. *)
Definition item_signed (it : item) : Z := if it_bytes it =? 0 then 0 else signed (it_bytes it * 8) (it_value it).

Definition describe (d : descr) (it : item) : descr :=
  let '(mk_descr page size count min max id usages umin umax range bit fields) := d in
  let v := it_value it in
  let set_global page size count min max id := mk_descr page size count min max id usages umin umax range bit fields in
  let set_local usages umin umax range := mk_descr page size count min max id usages umin umax range bit fields in
  let next bit fields := mk_descr page size count min max id [] 0 0 false bit fields in
  if it_tag it =? 0x04 then set_global v size count min max id
  else if it_tag it =? 0x14 then set_global page size count (item_signed it) max id
  else if it_tag it =? 0x24 then set_global page size count min (if (min <? 0) && negb (it_bytes it =? 0) then item_signed it else signed 32 v) id
  else if it_tag it =? 0x74 then set_global page v count min max id
  else if it_tag it =? 0x84 then set_global page size count min max v
  else if it_tag it =? 0x94 then set_global page size v min max id
  else if it_tag it =? 0x08 then set_local (usages ++ [if it_bytes it =? 4 then v else Z.lor (u32 (Z.shiftl page 16)) v]) umin umax range
  else if it_tag it =? 0x18 then set_local usages v umax true
  else if it_tag it =? 0x28 then set_local usages umin v range
  else if it_tag it =? 0x80 then next (bit + size * count) (fields ++ map (field_of d v) (seqZ 0 count))
  else if Z.land (it_tag it) 0x0c =? 0 then next bit fields
  else d.

Definition descriptor_fields (desc : list Z) : option (list input_field) :=
  (fun its => d_fields (fold_left describe its blank)) <$> items (length desc) desc.

(** The fields with a usage, and the buttons 1 to 3. *)
Definition named (usage : Z) (fs : list input_field) : list input_field :=
  List.filter (fun f => negb (fl_const f) && (fl_usage f =? usage)) fs.
Definition is_button (f : input_field) : bool :=
  negb (fl_const f) && (Z.shiftr (fl_usage f) 16 =? 9) && (fl_bits f =? 1) && (Z.land (fl_usage f) 65535 <=? 3).
Definition buttons (fs : list input_field) : list input_field := List.filter is_button fs.

(** ** The meaning of a report *)

Definition total_bits (fs : list input_field) : Z := fold_left (fun n f => n + fl_bits f) fs 0.

Definition field_number (f : input_field) (payload : list Z) : Z := field payload (fl_off f) (fl_bits f).
Definition field_value (f : input_field) (payload : list Z) : Z :=
  if fl_min f <? 0 then signed (fl_bits f) (field_number f payload) else field_number f payload.

(** As many bits as there are buttons, from the first button on. *)
Definition button_bits (fs : list input_field) (payload : list Z) : Z :=
  match buttons fs with [] => 0 | b :: _ => field payload (fl_off b) (Z.of_nat (length (buttons fs))) end.

(** x, y, wheel and buttons of a report with an identifier [id]; 0: without one. *)
Definition meaning (fs : list input_field) (id : Z) (report : list Z) : option (Z * Z * Z * Z) :=
  match (if id =? 0 then Some report else match report with i :: rest => if i =? id then Some rest else None | [] => None end) with
  | None => None
  | Some p =>
      if 8 * Z.of_nat (length p) <? total_bits fs then None
      else match named USAGE_X fs, named USAGE_Y fs with
           | x :: _, y :: _ =>
               Some (field_value x p, field_value y p,
                     match named USAGE_WHEEL fs with w :: _ => signed (fl_bits w) (field_number w p) | [] => 0 end, button_bits fs p)
           | _, _ => None
           end
  end.

(** The buttons lie side by side. *)
Definition adjacent (fs : list input_field) : Prop :=
  forall k b b0, buttons fs !! k = Some b -> buttons fs !! 0%nat = Some b0 -> fl_off b = fl_off b0 + Z.of_nat k.

Lemma adjacent_bits fs p k b : adjacent fs -> buttons fs !! k = Some b -> 0 <= fl_off b - Z.of_nat k ->
  Z.testbit (button_bits fs p) (Z.of_nat k) = Z.testbit (le_value p) (fl_off b).
Proof.
  intros A Hk Ho. pose proof (lookup_lt_Some _ _ _ Hk) as Hlt. unfold button_bits. destruct (buttons fs) as [|b0 l] eqn:E; [discriminate|].
  pose proof (A k b b0) as A'. rewrite E in A'. specialize (A' Hk eq_refl). unfold field.
  rewrite Z.mod_pow2_bits_low, Z.div_pow2_bits by lia. f_equal. lia.
Qed.

(** ** The parser keeps what the descriptor says *)

Record agree (s : hid_parser) (d : descr) : Prop := mk_agree {
  ag_page : hp_page s = d_page d; ag_size : hp_size s = d_size d; ag_count : hp_count s = d_count d;
  ag_min : hp_min s = d_min d; ag_max : hp_max s = d_max d; ag_id : hp_current_id s = d_id d;
  ag_usages : hp_usages s = d_usages d; ag_umin : hp_usage_min s = d_umin d; ag_umax : hp_usage_max s = d_umax d;
  ag_range : hp_have_range s = d_range d; ag_bit : hp_bit s = d_bit d }.

(** The axis of the fields with one usage. *)
Definition axis_for (l : list input_field) (a : usb_hid_axis) : Prop :=
  match l with
  | [] => a_bits a = 0
  | [f] => a = mk_axis (fl_off f) (fl_bits f) (fl_min f) (fl_max f) /\ 0 < fl_bits f
  | _ => False
  end.

Record tells (fs : list input_field) (s : hid_parser) : Prop := mk_tells {
  te_x : axis_for (named USAGE_X fs) (p_x (hp_h s));
  te_y : axis_for (named USAGE_Y fs) (p_y (hp_h s));
  te_wheel : axis_for (named USAGE_WHEEL fs) (p_wheel (hp_h s));
  te_count : buttons_count (hp_h s) = Z.of_nat (length (buttons fs));
  te_first : forall b, head (buttons fs) = Some b -> buttons_off (hp_h s) = fl_off b;
  te_relative : Forall (fun f => hp_relative s = Z.b2z (fl_relative f)) (named USAGE_X fs ++ named USAGE_Y fs);
  te_ids : Forall (fun f => hp_selected s = true /\ fl_id f = hp_input_id s) fs }.

Lemma named_snoc u fs f : named u (fs ++ [f]) = named u fs ++ (if negb (fl_const f) && (fl_usage f =? u) then [f] else []).
Proof. unfold named. rewrite List.filter_app. reflexivity. Qed.
Lemma buttons_snoc fs f : buttons (fs ++ [f]) = buttons fs ++ (if is_button f then [f] else []).
Proof. unfold buttons. rewrite List.filter_app. reflexivity. Qed.

(** A field the parser passes over. *)
Lemma tells_skip fs f s : tells fs s -> hp_selected s = true -> fl_id f = hp_input_id s ->
  (fl_const f = true \/ (fl_usage f <> USAGE_X /\ fl_usage f <> USAGE_Y /\ fl_usage f <> USAGE_WHEEL /\ is_button f = false)) -> tells (fs ++ [f]) s.
Proof.
  intros [X Y W C F R I] Hs Hi Hf.
  assert (N : forall u, u = USAGE_X \/ u = USAGE_Y \/ u = USAGE_WHEEL -> named u (fs ++ [f]) = named u fs).
  { intros u Hu. rewrite named_snoc. replace (_ && _) with false; [apply app_nil_r|]. symmetry. destruct Hf as [->|(H1 & H2 & H3 & _)]; [reflexivity|].
    apply andb_false_iff. right. apply Z.eqb_neq. destruct Hu as [->|[->| ->]]; assumption. }
  assert (B : buttons (fs ++ [f]) = buttons fs).
  { rewrite buttons_snoc. replace (is_button f) with false; [apply app_nil_r|]. symmetry. destruct Hf as [Hc|(_ & _ & _ & Hb)]; [unfold is_button; rewrite Hc; reflexivity | exact Hb]. }
  split; rewrite ?N, ?B by auto; try assumption. apply Forall_app. split; [exact I | repeat constructor; assumption].
Qed.

Lemma axis_new l a f : axis_for l a -> a_bits a = 0 -> 0 < fl_bits f -> axis_for (l ++ [f]) (mk_axis (fl_off f) (fl_bits f) (fl_min f) (fl_max f)).
Proof. destruct l as [|g [|]]; cbn; [auto | intros [-> Hb] Ha; cbn in Ha; lia | contradiction]. Qed.

(** An axis, which the parser has not seen before. *)
Lemma tells_axis fs f s bit rel : let u := fl_usage f in tells fs s -> hp_selected s = true -> fl_id f = hp_input_id s -> fl_const f = false ->
  u = USAGE_X \/ u = USAGE_Y \/ u = USAGE_WHEEL -> a_bits (usage_axis u (hp_h s)) = 0 -> 0 < fl_bits f ->
  (if u =? USAGE_WHEEL then rel = hp_relative s else rel = Z.b2z (fl_relative f) /\ (hp_relative s = -1 \/ hp_relative s = rel)) ->
  tells (fs ++ [f]) (set_fields (set_axis u (mk_axis (fl_off f) (fl_bits f) (fl_min f) (fl_max f)) (hp_h s)) bit rel s).
Proof.
  intros u [X Y W C F R I] Hs Hi Hc Hu Ha Hb Hr.
  assert (NB : is_button f = false).
  { unfold is_button. fold u. destruct Hu as [->|[->| ->]]; cbn; rewrite ?andb_false_r; reflexivity. }
  assert (I' : Forall (fun g => hp_selected s = true /\ fl_id g = hp_input_id s) (fs ++ [f])) by (apply Forall_app; split; [exact I | repeat constructor; assumption]).
  assert (N : forall v, named v (fs ++ [f]) = named v fs ++ (if u =? v then [f] else [])) by (intros v; rewrite named_snoc, Hc; reflexivity).
  assert (R' : u <> USAGE_WHEEL -> Forall (fun g => rel = Z.b2z (fl_relative g)) (named USAGE_X fs ++ named USAGE_Y fs ++ [f])).
  { intros Nw. rewrite (proj2 (Z.eqb_neq u USAGE_WHEEL) Nw) in Hr. destruct Hr as [Hr1 Hr2]. rewrite app_assoc. apply Forall_app. split; [|repeat constructor; exact Hr1].
    eapply List.Forall_impl; [|exact R]. intros g Hg. cbv beta in Hg. destruct Hr2 as [E|E]; [rewrite E in Hg; destruct (fl_relative g); discriminate | congruence]. }
  destruct (hp_h s) as [px py pw bo bc rb id ab] eqn:Eh. cbn [p_x p_y p_wheel buttons_count buttons_off] in *.
  destruct Hu as [E|[E|E]]; rewrite E in *; split; cbn [set_fields set_axis hp_h hp_relative hp_selected hp_input_id p_x p_y p_wheel buttons_count buttons_off usage_axis USAGE_X USAGE_Y USAGE_WHEEL Z.eqb Pos.eqb] in *;
    rewrite ?N, ?buttons_snoc, ?NB, ?app_nil_r; cbn [USAGE_X USAGE_Y USAGE_WHEEL Z.eqb Pos.eqb]; rewrite ?app_nil_r; try assumption; try (eapply axis_new; eassumption).
  - rewrite <- app_assoc. apply Permutation_Forall with (1 := Permutation_app_head _ (Permutation_app_comm _ _)). apply R'. discriminate.
  - apply R'. discriminate.
  - subst rel. exact R.
Qed.

(** A button. *)
Lemma tells_button fs f s bit h : tells fs s -> hp_selected s = true -> fl_id f = hp_input_id s -> is_button f = true ->
  h = mk_pointer (p_x (hp_h s)) (p_y (hp_h s)) (p_wheel (hp_h s)) (if buttons_count (hp_h s) =? 0 then fl_off f else buttons_off (hp_h s))
        (buttons_count (hp_h s) + 1) (report_bits (hp_h s)) (report_id (hp_h s)) (absolute (hp_h s)) ->
  tells (fs ++ [f]) (set_fields h bit (hp_relative s) s).
Proof.
  intros [X Y W C F R I] Hs Hi Hb ->.
  assert (N : forall u, u = USAGE_X \/ u = USAGE_Y \/ u = USAGE_WHEEL -> named u (fs ++ [f]) = named u fs).
  { intros u Hu. rewrite named_snoc. replace (_ && _) with false; [apply app_nil_r|]. symmetry. apply andb_false_iff. right. apply Z.eqb_neq. intros E.
    unfold is_button in Hb. rewrite E in Hb. destruct Hu as [->|[->| ->]]; cbn in Hb; rewrite ?andb_false_r in Hb; discriminate. }
  split; cbn [set_fields hp_h hp_relative hp_selected hp_input_id p_x p_y p_wheel buttons_count buttons_off]; rewrite ?N, ?buttons_snoc, ?Hb by auto; try assumption.
  - rewrite C, length_app. cbn [length]. lia.
  - intros b E. rewrite C. destruct (buttons fs) as [|b0 l]; cbn in E |- *; injection E as <-; [reflexivity|]. apply F. reflexivity.
  - apply Forall_app. split; [exact I | repeat constructor; assumption].
Qed.

Lemma input_fields_tells d v : 0 < d_size d -> forall n i s fs s', agree s d -> tells fs s -> hp_selected s = true -> d_id d = hp_input_id s ->
  input_fields n v i s = Some s' ->
  tells (fs ++ map (field_of d v) (seqZ i (Z.of_nat n))) s' /\ agree s' d /\ hp_selected s' = true /\ hp_input_id s' = hp_input_id s.
Proof.
  intros Hsz. induction n as [|n IH]; intros i s fs s' A T Hs Hi; cbn [input_fields]; cbn zeta.
  { intros [= <-]. rewrite app_nil_r. auto. }
  replace (seqZ i (Z.of_nat (S n))) with (i :: seqZ (i + 1) (Z.of_nat n)) by (rewrite (seqZ_cons i) by lia; do 2 f_equal; lia).
  cbn [map]. rewrite cons_middle, app_assoc. set (f := field_of d v i).
  pose proof A as [A1 A2 A3 A4 A5 A6 A7 A8 A9 A10 A11].
  assert (Eu : field_usage s i = fl_usage f) by (unfold field_usage; rewrite A1, A7, A8, A9, A10; reflexivity).
  assert (Ef : mk_axis (hp_bit s + i * hp_size s) (hp_size s) (hp_min s) (hp_max s) = mk_axis (fl_off f) (fl_bits f) (fl_min f) (fl_max f)) by (rewrite A2, A4, A5, A11; reflexivity).
  assert (Hid : fl_id f = hp_input_id s) by exact Hi.
  assert (Hset : forall h r, agree (set_fields h (hp_bit s) r s) d) by (intros; split; assumption).
  rewrite Eu, Ef. case_if; [intros H'; eapply IH; [exact A | apply tells_skip; auto | exact Hs | exact Hi | exact H']|].
  assert (Hc : fl_const f = false) by assumption. case_if; [discriminate|]. case_if.
  - assert (Hu : fl_usage f = USAGE_X \/ fl_usage f = USAGE_Y \/ fl_usage f = USAGE_WHEEL) by (repeat match goal with P : (_ || _)%bool = true |- _ => apply orb_true_iff in P as [P|P] end; zbool; auto).
    case_if; [discriminate|]. case_if; [discriminate|].
    assert (Hz : a_bits (usage_axis (fl_usage f) (hp_h s)) = 0) by (apply Z.eqb_eq, negb_false_iff; assumption).
    assert (Hb : 0 < fl_bits f) by exact Hsz. destruct (fl_usage f =? USAGE_WHEEL) eqn:Ew; cbn [negb].
    + intros H'. eapply (IH _ (set_fields _ _ _ s)); [apply Hset | apply tells_axis; auto | exact Hs | exact Hi | exact H']. rewrite Ew. reflexivity.
    + case_if; [discriminate|]. intros H'. eapply (IH _ (set_fields _ _ _ s)); [apply Hset | apply tells_axis; auto | exact Hs | exact Hi | exact H'].
      rewrite Ew. split; [reflexivity|].
      match goal with P : (_ && _)%bool = false |- _ => apply andb_false_iff in P as [P|P]; apply negb_false_iff, Z.eqb_eq in P; auto end.
  - assert (Hn : fl_usage f <> USAGE_X /\ fl_usage f <> USAGE_Y /\ fl_usage f <> USAGE_WHEEL) by (repeat match goal with P : (_ || _)%bool = false |- _ => apply orb_false_iff in P as [P ?] end; zbool; auto).
    assert (Eb : is_button f = (Z.shiftr (fl_usage f) 16 =? 9) && (hp_size s =? 1) && (Z.land (fl_usage f) 65535 <=? 3)) by (unfold is_button; rewrite Hc, A2; reflexivity).
    case_if; intros H'.
    + assert (Eo : hp_bit s + i = fl_off f) by (subst f; cbn [field_of fl_off]; rewrite A11, <- A2; bool_hyps; zbool; lia). rewrite Eo in H'.
      eapply (IH _ (set_fields _ _ _ s)); [| | | |exact H']; [apply Hset | eapply tells_button; [exact T | exact Hs | exact Hid | congruence | reflexivity] | exact Hs | exact Hi].
    + eapply IH; [exact A | apply tells_skip; auto; right; repeat split; try apply Hn; congruence | exact Hs | exact Hi | exact H'].
Qed.

(** The parser's state and the description agree. *)
Definition follows (s : hid_parser) (d : descr) : Prop := agree s d /\ tells (d_fields d) s /\ total_bits (d_fields d) = d_bit d.

Lemma total_snoc fs gs : total_bits (fs ++ gs) = total_bits fs + total_bits gs.
Proof.
  unfold total_bits. rewrite fold_left_app. set (n := fold_left _ fs 0). clearbody n. revert n. induction gs as [|g gs IH] using rev_ind; intros n; [cbn; lia|].
  rewrite !fold_left_app. cbn [fold_left]. specialize (IH n). lia.
Qed.

Lemma total_fields d v n : forall i, total_bits (map (field_of d v) (seqZ i (Z.of_nat n))) = d_size d * Z.of_nat n.
Proof.
  induction n as [|n IH]; intros i; [rewrite Z.mul_0_r; reflexivity|]. rewrite (seqZ_cons i) by lia. cbn [map].
  match goal with |- total_bits (?x :: ?l) = _ => change (x :: l) with ([x] ++ l) end. rewrite total_snoc. replace (Z.pred (Z.of_nat (S n))) with (Z.of_nat n) by lia. rewrite IH.
  unfold total_bits. cbn [fold_left field_of fl_bits]. lia.
Qed.

(** The first input item chooses the report's identifier. *)
Lemma tells_input fs s : tells fs s -> hp_selected s = false -> fs = [].
Proof. intros T H. destruct fs as [|f fs]; [reflexivity|]. pose proof (te_ids _ _ T) as I. apply List.Forall_cons_iff in I as [[I _] _]. congruence. Qed.

Lemma hid_input_follows v s d s' : hid_inv s -> follows s d -> hid_input v s = Some s' ->
  follows (set_locals [] 0 0 false s') (describe d (mk_item 0x80 0 v)).
Proof.
  intros V (A & T & B). unfold hid_input. case_if; [discriminate|].
  set (t := if hp_selected s then s else set_input (hp_current_id s) s).
  assert (Ht : agree t d /\ tells (d_fields d) t /\ hp_selected t = true /\ d_id d = hp_input_id t /\ hp_bit t = hp_bit s).
  { subst t. destruct (hp_selected s) eqn:Es.
    - split; [exact A|]. split; [exact T|]. split; [exact Es|]. split; [|reflexivity]. rewrite <- (ag_id _ _ A). cbn [andb] in *.
      match goal with P : negb _ = false |- _ => apply negb_false_iff, Z.eqb_eq in P; congruence end.
    - pose proof (tells_input _ _ T Es) as E0. rewrite E0 in *. split; [destruct A; split; assumption|].
      split; [destruct T; split; cbn; try assumption; constructor|]. split; [reflexivity|]. split; [symmetry; apply A | reflexivity]. }
  destruct Ht as (At & Tt & St & It & Bt). case_if; [discriminate|].
  destruct (input_fields (Z.to_nat (hp_count t)) v 0 t) as [r|] eqn:E; [|discriminate]. intros [= <-].
  pose proof (hi_bit _ V) as Vb. pose proof (hi_count _ V) as Vc. pose proof (hi_size _ V) as Vs.
  rewrite <- Bt in Vb. rewrite (ag_bit _ _ At) in Vb. rewrite (ag_count _ _ A) in Vc. rewrite (ag_size _ _ A) in Vs.
  rewrite (ag_count _ _ At), (ag_size _ _ At), (ag_bit _ _ At) in *.
  repeat match goal with P : (_ || _)%bool = false |- _ => apply orb_false_iff in P as [P ?] end. zbool.
  assert (Hb : 0 <= d_size d * d_count d <= 32 * 64) by nia. rewrite !u32_id in * by (unfold is_u; lia).
  destruct (input_fields_tells d v ltac:(lia) _ 0 t (d_fields d) r At Tt St It E) as (Tr & Ar & Sr & Ir). rewrite Z2Nat.id in Tr by lia.
  destruct Ar as [R1 R2 R3 R4 R5 R6 R7 R8 R9 R10 R11]. pose proof (total_fields d v (Z.to_nat (d_count d)) 0) as Tot. rewrite Z2Nat.id in Tot by lia.
  destruct d as [page size count min max id usages umin umax range bit fields]. unfold describe. cbn [it_tag it_bytes it_value Z.eqb Pos.eqb d_fields d_bit d_size d_count] in *.
  split; [|split].
  - split; cbn; try assumption; try reflexivity. rewrite R2, R3, R11. apply u32_id. unfold is_u. lia.
  - destruct Tr. split; cbn; assumption.
  - cbn [d_fields d_bit]. rewrite total_snoc, Tot, B. reflexivity.
Qed.

Lemma hid_item_follows b n v s d s' : hid_inv s -> follows s d -> hid_item (Z.land b 0xfc) n v s = Some s' ->
  follows (if Z.land b 0x0c =? 0 then set_locals [] 0 0 false s' else s') (describe d (mk_item (Z.land b 0xfc) n v)).
Proof.
  intros V F. replace (Z.land b 0x0c) with (Z.land (Z.land b 0xfc) 0x0c) by (rewrite <- Z.land_assoc; reflexivity). generalize (Z.land b 0xfc). intros tag.
  destruct (Z.eqb_spec tag 0x80) as [->|N80].
  { cbn [hid_item Z.eqb Pos.eqb orb]. intros H. replace (describe d (mk_item 0x80 n v)) with (describe d (mk_item 0x80 0 v)) by (destruct d; reflexivity).
    exact (hid_input_follows v s d s' V F H). }
  destruct F as ([A1 A2 A3 A4 A5 A6 A7 A8 A9 A10 A11] & [X Y W C Fb R I] & B). destruct d as [page size count min max id usages umin umax range bit fields].
  cbn [d_page d_size d_count d_min d_max d_id d_usages d_umin d_umax d_range d_bit d_fields] in *. unfold hid_item, describe, item_signed. cbn [it_tag it_bytes it_value].
  assert (Done : forall t, hp_h t = hp_h s -> hp_relative t = hp_relative s -> hp_selected t = hp_selected s -> hp_input_id t = hp_input_id s -> tells fields t)
    by (intros t E1 E2 E3 E4; split; rewrite ?E1, ?E2, ?E3, ?E4; assumption).
  repeat match goal with |- context [tag =? ?k] => destruct (Z.eqb_spec tag k) as [->|]; [cbn [Z.eqb Pos.eqb orb Z.land Pos.land Pos.Ndouble Pos.Nsucc_double]|] end; cbn [orb];
    repeat (case_if; [discriminate|]); try discriminate; try (intros [= <-]); try contradiction; try destruct (Z.land tag 12 =? 0).
  all: split; [split | split; [apply Done; reflexivity | exact B]].
  all: subst; cbn; try assumption; try reflexivity; try (destruct (n =? 0); [rewrite ?andb_false_r|]; reflexivity).
Qed.

Lemma hid_items_follows fuel : forall desc s d s', bytes_ok desc -> hid_inv s -> follows s d -> hid_items fuel desc s = Some s' ->
  exists its, items fuel desc = Some its /\ follows s' (fold_left describe its d).
Proof.
  induction fuel as [|fuel IH]; intros desc s d s' Hd V F; destruct desc as [|b rest]; cbn [hid_items items]; try congruence;
    try (intros [= <-]; exists []; split; [reflexivity | exact F]).
  cbn zeta. apply List.Forall_cons_iff in Hd as [Hb Hr]. destruct (b =? 0xfe); [discriminate|]. cbn [orb].
  set (n := if Z.land b 3 =? 3 then 4 else Z.land b 3). case_if; [discriminate|].
  destruct (le_value_range (take (Z.to_nat n) rest) (bytes_ok_take (Z.to_nat n) rest Hr)) as [Hv _].
  destruct (hid_item _ _ _ s) as [r|] eqn:E; [|discriminate]. intros H'.
  pose proof (hid_item_follows _ _ _ _ _ _ V F E) as F'. pose proof (hid_item_inv _ _ _ _ _ Hv V E) as V'.
  assert (V2 : hid_inv (if Z.land b 0x0c =? 0 then set_locals [] 0 0 false r else r)) by (case_if; [destruct V'; split; assumption | exact V']).
  destruct (IH _ _ _ s' (bytes_ok_drop _ _ Hr) V2 F' H') as (its & -> & F2).
  eexists. split; [reflexivity | exact F2].
Qed.

Lemma blank_follows : follows hid_start blank.
Proof. split; [split; reflexivity|]. split; [split; cbn; auto; discriminate | reflexivity]. Qed.

(** What the parser makes of a descriptor: one field is the x axis and one the y axis, with the same
    mode, at most one is the wheel and at most three are buttons; all belong to one report. *)
Record pointer_of (fs : list input_field) (h : usb_hid_pointer) : Prop := mk_pointer_of {
  pt_x : exists x, named USAGE_X fs = [x] /\ p_x h = mk_axis (fl_off x) (fl_bits x) (fl_min x) (fl_max x) /\ absolute h = negb (fl_relative x);
  pt_y : exists y, named USAGE_Y fs = [y] /\ p_y h = mk_axis (fl_off y) (fl_bits y) (fl_min y) (fl_max y) /\ absolute h = negb (fl_relative y);
  pt_wheel : axis_for (named USAGE_WHEEL fs) (p_wheel h);
  pt_count : (length (buttons fs) <= 3)%nat /\ buttons_count h = Z.of_nat (length (buttons fs));
  pt_first : forall b, head (buttons fs) = Some b -> buttons_off h = fl_off b;
  pt_ids : Forall (fun f => fl_id f = report_id h) fs;
  pt_bits : report_bits h = total_bits fs }.

Lemma axis_used l a : axis_for l a -> a_bits a <> 0 -> exists f, l = [f] /\ a = mk_axis (fl_off f) (fl_bits f) (fl_min f) (fl_max f).
Proof. destruct l as [|f [|]]; cbn; [contradiction | intros [-> _] _; eauto | contradiction]. Qed.

Lemma parse_describes desc h : bytes_ok desc -> usb_hid_pointer_parse desc = Some h ->
  exists fs, descriptor_fields desc = Some fs /\ pointer_of fs h.
Proof.
  intros Hd. unfold usb_hid_pointer_parse, descriptor_fields. destruct (hid_items _ _ _) as [s|] eqn:E; [|discriminate].
  destruct (hid_items_follows _ _ _ _ _ Hd hid_start_inv blank_follows E) as (its & -> & (A & [X Y W C F R I] & B)). cbn zeta. case_if; [discriminate|]. intros [= <-].
  eexists. split; [reflexivity|]. set (fs := d_fields _) in *.
  repeat match goal with P : (_ || _)%bool = false |- _ => apply orb_false_iff in P as [P ?] end. zbool.
  destruct (axis_used _ _ X ltac:(assumption)) as (x & Ex & Ax). destruct (axis_used _ _ Y ltac:(assumption)) as (y & Ey & Ay). rewrite Ex, Ey in R.
  apply List.Forall_cons_iff in R as [Rx R]. apply List.Forall_cons_iff in R as [Ry _]. cbv beta in Rx, Ry.
  split; cbn [p_x p_y p_wheel absolute buttons_count buttons_off report_id report_bits]; try assumption.
  - exists x. rewrite Rx. split; [exact Ex|]. split; [exact Ax|]. destruct (fl_relative x); reflexivity.
  - exists y. rewrite Ry. split; [exact Ey|]. split; [exact Ay|]. destruct (fl_relative y); reflexivity.
  - split; [lia | exact C].
  - eapply List.Forall_impl; [|exact I]. intros f [_ Hf]. exact Hf.
  - rewrite B. apply A.
Qed.

(** The reading of a pointer is the meaning of its descriptor. *)
Lemma reading_meaning fs h report : pointer_of fs h -> pointer_reading h report = meaning fs (report_id h) report.
Proof.
  intros [(x & Ex & Ax & _) (y & Ey & Ay & _) W [_ C] F _ B]. unfold pointer_reading, report_payload, meaning. rewrite Ex, Ey, Ax, Ay, B.
  destruct (if report_id h =? 0 then _ else _) as [p|]; [|reflexivity]. case_if; [reflexivity|]. do 2 f_equal; [f_equal|].
  - destruct (named USAGE_WHEEL fs) as [|w [|]]; cbn in W; [rewrite W; reflexivity | | contradiction]. destruct W as [-> Hw]. cbn [a_bits a_off].
    rewrite (proj2 (Z.ltb_lt _ _)) by exact Hw. reflexivity.
  - unfold button_bits. rewrite C. destruct (buttons fs) as [|b l]; [unfold field; cbn; apply Z.mod_1_r | rewrite (F b eq_refl); reflexivity].
Qed.
