(* ===== verification/HidThms.v ===== *)
(** * USB HID decoding: the theorems

    Descriptors never make a report read outside itself, reports mean what the descriptor says,
    and keyboard events follow the keys that are down. *)

From stdpp Require Import gmap.
From S2P Require Import Prelude Hid HidSpec HidDescr.
#[local] Open Scope Z_scope.

(** ** Keyboard sessions *)

(** The reports a keyboard sends, one after the other: the state at the end and all the events. *)
Fixpoint keyboard_session (previous : list Z) (reports : list (list Z)) : list Z * list (Z * bool) :=
  match reports with
  | [] => (previous, [])
  | r :: reports' =>
      let '(_, previous, evs) := pi4_usb_keyboard_decode previous r in
      let '(last, evs') := keyboard_session previous reports' in (last, evs ++ evs')
  end.

(** A report that is neither cut nor the error code for too many keys. *)
Definition accepted (r : list Z) : bool :=
  (Z.of_nat (length r) =? 8) && negb (existsb (fun k => negb (k =? 0) && (k <? 4)) (keys_of r)).

Lemma decode_code previous r :
  let '(rc, previous', _) := pi4_usb_keyboard_decode previous r in
  previous' = (if accepted r then r else previous) /\ (rc = 1 <-> accepted r = true).
Proof.
  unfold pi4_usb_keyboard_decode, accepted. destruct (_ =? 8); cbn [negb andb]; [|split; [reflexivity | split; discriminate]].
  destruct (existsb _ _); cbn [negb]; split; try reflexivity; split; (reflexivity || discriminate).
Qed.

Lemma keyboard_session_ok reports : forall previous, report_ok previous -> Forall report_ok reports ->
  let '(last, evs) := keyboard_session previous reports in
  replay (held previous) evs = Some (held last) /\
  last = fold_left (fun p r => if accepted r then r else p) reports previous.
Proof.
  induction reports as [|r reports IH]; intros previous Hp Hr; cbn [keyboard_session fold_left]; [split; reflexivity|].
  inversion Hr as [|? ? Hr1 Hr2]; subst. pose proof (decode_replay previous r Hp Hr1) as D. pose proof (decode_code previous r) as C.
  destruct (pi4_usb_keyboard_decode previous r) as [[rc p'] evs]. destruct D as (D1 & D2 & _), C as [C1 _].
  specialize (IH p' D2 Hr2). destruct (keyboard_session p' reports) as [last evs']. destruct IH as [I1 I2].
  rewrite replay_app, D1. rewrite C1 in I2 at 1. split; assumption.
Qed.

(** ** The theorems *)

(** C39: every report of a pointer whose descriptor was accepted is read inside its bytes,
    whatever its length, and gives what the descriptor says.  The descriptor's items describe
    fields; exactly one is the x axis and one the y axis, of the same mode, at most one the wheel and
    at most three buttons.  A report is refused exactly when its identifier is another one or it has
    fewer bits than the fields; otherwise x, y and the wheel are the bits of their fields (signed
    where the field's minimum is negative, the wheel always), and the buttons are as many bits as
    there are buttons, from the first button's on: if the buttons lie side by side, bit [k] is
    button [k]'s. *)
Theorem usb_hid_pointer_decodes (desc report : list Z) (h : usb_hid_pointer) :
  bytes_ok desc -> bytes_ok report -> usb_hid_pointer_parse desc = Some h ->
  exists fs, descriptor_fields desc = Some fs /\ pointer_of fs h /\ parsed_ok h /\
    usb_hid_pointer_read h report = Some (meaning fs (report_id h) report) /\
    (adjacent fs -> forall p k b, buttons fs !! k = Some b ->
       Z.testbit (button_bits fs p) (Z.of_nat k) = Z.testbit (le_value p) (fl_off b)).
Proof.
  intros Hd Hr E. pose proof (parse_ok desc h Hd E) as P. destruct (parse_describes desc h Hd E) as (fs & Ef & Pf). exists fs.
  split; [exact Ef|]. split; [exact Pf|]. split; [exact P|]. split; [rewrite <- (reading_meaning fs h report Pf); apply pointer_read_ok; assumption|].
  intros A p k b Hk. apply adjacent_bits; [exact A | exact Hk|]. destruct (buttons fs) as [|b0 l] eqn:Eb; [discriminate|].
  assert (Ho : fl_off b = fl_off b0 + Z.of_nat k) by (apply (A k b b0); rewrite Eb; [exact Hk | reflexivity]).
  pose proof (pt_first _ _ Pf b0) as Hf. rewrite Eb in Hf. pose proof (po_buttons _ _ (pa_fields _ P)). specialize (Hf eq_refl). lia.
Qed.

(** C40: over every sequence of reports a boot keyboard can send, cut reports and error codes
    included, the events, followed from no key down, each change the set of keys that are down
    (nothing is pressed twice or released unpressed), and leave exactly the keys and modifiers of
    the last accepted report down. *)
Theorem pi4_usb_keyboard_session (reports : list (list Z)) :
  Forall report_ok reports ->
  let '(last, evs) := keyboard_session (zeros 8) reports in
  replay ∅ evs = Some (held last) /\
  last = fold_left (fun p r => if accepted r then r else p) reports (zeros 8).
Proof.
  intros Hr. assert (Hz : report_ok (zeros 8)) by (split; [apply bytes_ok_zeros | repeat constructor; lia]).
  pose proof (keyboard_session_ok reports (zeros 8) Hz Hr) as K. destruct (keyboard_session _ _) as [last evs].
  replace (held (zeros 8)) with (∅ : gset Z) in K by reflexivity. exact K.
Qed.

(** ** Witnesses *)

(** A mouse: report 2, three buttons, five bits of padding, and x, y and wheel of 8 bits. *)
Definition demo_mouse : list Z :=
  [0x05;0x01;0x09;0x02;0xa1;0x01;0x85;0x02;0x05;0x09;0x19;0x01;0x29;0x03;0x15;0x00;0x25;0x01;0x75;0x01;0x95;0x03;0x81;0x02;
   0x75;0x05;0x95;0x01;0x81;0x03;0x05;0x01;0x09;0x30;0x09;0x31;0x09;0x38;0x15;0x81;0x25;0x7f;0x75;0x08;0x95;0x03;0x81;0x06;0xc0].
Definition demo_pointer : usb_hid_pointer :=
  mk_pointer (mk_axis 8 8 (-127) 127) (mk_axis 16 8 (-127) 127) (mk_axis 24 8 (-127) 127) 0 3 32 2 false.

Lemma usb_hid_pointer_decodes_witness :
  usb_hid_pointer_read demo_pointer [2; 5; 0x10; 0xfb; 0xff] = Some (Some (16, -5, -1, 5)) /\
  exists fs, descriptor_fields demo_mouse = Some fs /\ pointer_of fs demo_pointer.
Proof.
  destruct (usb_hid_pointer_decodes demo_mouse [2; 5; 0x10; 0xfb; 0xff] demo_pointer) as (fs & Ef & Pf & _ & R & _).
  - unfold demo_mouse. repeat constructor; lia.
  - repeat constructor; lia.
  - vm_compute. reflexivity.
  - split; [|exists fs; split; [exact Ef | exact Pf]]. rewrite R. clear R Pf. vm_compute in Ef. injection Ef as <-. vm_compute. reflexivity.
Defined.

(** Shift and two keys, an overflow, then one of the keys. *)
Definition demo_reports : list (list Z) :=
  [[2;0;4;5;0;0;0;0]; [2;0;1;1;1;1;1;1]; [4;5]; [0;0;5;5;0;0;0;0]].

Lemma pi4_usb_keyboard_session_witness :
  keyboard_session (zeros 8) demo_reports =
    ([0;0;5;5;0;0;0;0], [(225, true); (4, true); (5, true); (4, false); (225, false)]) /\
  replay ∅ (snd (keyboard_session (zeros 8) demo_reports)) = Some (held [0;0;5;5;0;0;0;0]).
Proof.
  split; [vm_compute; reflexivity|]. apply (pi4_usb_keyboard_session demo_reports). unfold demo_reports, report_ok.
  repeat (first [apply Forall_cons_2 | apply Forall_nil_2]); split; repeat constructor; lia.
Defined.

(** ** Buttons that are not next to each other *)

(** Button 1 in bit 0, button 2 in bit 4: a layout the parser accepts but the reader does not
    know; the second button is never seen. *)
Definition split_buttons : list Z :=
  [0x05;0x09;0x19;0x01;0x29;0x01;0x15;0x00;0x25;0x01;0x75;0x01;0x95;0x01;0x81;0x02; 0x95;0x03;0x81;0x03;
   0x19;0x02;0x29;0x02;0x95;0x01;0x81;0x02; 0x95;0x03;0x81;0x03; 0x05;0x01;0x09;0x30;0x09;0x31;0x15;0x81;0x25;0x7f;0x75;0x08;0x95;0x02;0x81;0x06].

Lemma split_buttons_accepted :
  match usb_hid_pointer_parse split_buttons with
  | Some h => usb_hid_pointer_read h [0x10; 5; 0xfb] = Some (Some (5, -5, 0, 0))
  | None => False
  end.
Proof. vm_compute. reflexivity. Qed.

(** ** Key codes and mice *)

(** Different USB keys have different Linux key codes, where they have one. *)
Lemma usb_hid_key_inj u1 u2 : 0 <= u1 < 256 -> 0 <= u2 < 256 -> usb_hid_key u1 = usb_hid_key u2 -> usb_hid_key u1 <> 0 -> u1 = u2.
Proof.
  set (P := fun a b => negb (usb_hid_key a =? usb_hid_key b) || (usb_hid_key a =? 0) || (a =? b)).
  assert (A : forallb (fun a => forallb (fun b => P (Z.of_nat a) (Z.of_nat b)) (seq 0 256)) (seq 0 256) = true) by (vm_compute; reflexivity).
  intros H1 H2 E N. rewrite forallb_forall in A. specialize (A (Z.to_nat u1) ltac:(apply in_seq; lia)). rewrite forallb_forall in A.
  specialize (A (Z.to_nat u2) ltac:(apply in_seq; lia)). rewrite !Z2Nat.id in A by lia. subst P. cbv beta in A.
  rewrite E, Z.eqb_refl in A. rewrite E in N. rewrite (proj2 (Z.eqb_neq (usb_hid_key u2) 0) N) in A. apply Z.eqb_eq, A.
Qed.

(** The pointer of a boot mouse is on the screen after every report, and short or long reports
    change nothing. *)
Lemma pi4_usb_mouse_on_screen s report width height : 0 < width < 2 ^ 32 -> 0 < height < 2 ^ 32 ->
  0 <= ms_x s < width -> 0 <= ms_y s < height ->
  let '(rc, s') := pi4_usb_mouse_decode s report width height in
  0 <= ms_x s' < width /\ 0 <= ms_y s' < height /\ (rc = 0 -> s' = s) /\ (rc = 1 <-> 3 <= Z.of_nat (length report) <= 64).
Proof.
  intros Hw Hh Hx Hy. unfold pi4_usb_mouse_decode. cbn zeta. case_if.
  - split; [lia|]. split; [lia|]. split; [reflexivity|]. split; [discriminate|]. intros HE. exfalso.
    repeat match goal with P : (_ || _)%bool = true |- _ => apply orb_true_iff in P as [P|P] end; zbool; lia.
  - bool_hyps. zbool. cbn [ms_x ms_y]. assert (Hc : forall v d, 0 < d -> 0 <= pi4_usb_mouse_clamp v d < d).
    { intros v d Hd. unfold pi4_usb_mouse_clamp. repeat case_if; zbool; lia. }
    split; [apply Hc; lia|]. split; [apply Hc; lia|]. split; [discriminate|]. split; [lia | reflexivity].
Qed.
