(* ===== verification/HcFront.v ===== *)
(** * The HolyC front end ([src/src/hc_front.h]): state, lexer and tables

    A parser runs on the state [front]: the characters not read yet, the bytes emitted, the error
    flag and the tables.  A function of the C code that returns -1 is [Bad] with the state it
    leaves; [Wild] is a store behind an array that the code goes on from, so that nothing is known of
    the rest of the run; [NoFuel] is a run the model did not finish, which the theorems exclude.  The
    emitted bytes may be more than the buffer holds: the buffer's capacity is a field, and what lies
    behind it is an overflow. *)

From S2P Require Import Prelude A64 HcIr.
#[local] Open Scope Z_scope.

Definition HC_MAX_FNS : Z := 16.
Definition HC_MAX_LOOPS : Z := 8.
Definition HC_MAX_CLASSES : Z := 8.
Definition HC_MAX_MEMBERS : Z := 16.
Definition HC_MAX_ENUMS : Z := 24.
Definition HC_TYPE_NONE : Z := 0xff.
Definition HC_IR_MAX_NAMES : Z := 24.
Definition HC_IR_MAX_GLOBS : Z := 64.

(** ** Data *)

(** [fn_words]: the machine code at [fn_code]. *)
Record hc_fn := mk_fn { fn_name : list Z; fn_nargs : Z; fn_code : Z; fn_bc : list Z; fn_words : list Z }.
Record hc_member := mk_member { mb_name : list Z; mb_off : Z; mb_stride : Z; mb_type : Z; mb_is_f64 : bool }.
Record hc_class := mk_class { c_name : list Z; c_mem : list hc_member; c_size : Z }.
Record hc_enum_const := mk_enum { e_name : list Z; e_val : Z }.

(** One row of the parallel arrays [names], [base], [count], ... *)
Record hc_var := mk_var {
  v_name : list Z; v_base : Z; v_count : Z; v_stride : Z; v_type : Z; v_is_ptr : bool; v_is_global : bool; v_is_f64 : bool }.

Record tables := mk_tables {
  next_label : Z;
  vars : list hc_var;
  mem_used : Z; glob_used : Z; str_top : Z;
  strs : list (Z * list Z);          (* words of g_hc_mem and the bytes written there *)
  fns : list hc_fn;
  classes : list hc_class;
  enums : list hc_enum_const;
  glabs : list (list Z * Z);
  brk_tgt : list Z; cont_tgt : list Z }.

Record front := mk_front { f_p : list Z; f_bc : list Z; f_cap : Z; f_err : bool; expr_f64 : bool; tabs : tables }.

Definition set_p (p : list Z) (f : front) := mk_front p (f_bc f) (f_cap f) (f_err f) (expr_f64 f) (tabs f).
Definition set_out (bc : list Z) (f : front) := mk_front (f_p f) bc (f_cap f) (f_err f) (expr_f64 f) (tabs f).
Definition set_err (e : bool) (f : front) := mk_front (f_p f) (f_bc f) (f_cap f) e (expr_f64 f) (tabs f).
Definition set_f64 (b : bool) (f : front) := mk_front (f_p f) (f_bc f) (f_cap f) (f_err f) b (tabs f).
Definition set_tabs (t : tables) (f : front) := mk_front (f_p f) (f_bc f) (f_cap f) (f_err f) (expr_f64 f) t.

Definition with_label (n : Z) (t : tables) := let '(mk_tables _ v m g s w fs c e l b k) := t in mk_tables n v m g s w fs c e l b k.
Definition with_vars (v : list hc_var) (t : tables) := let '(mk_tables n _ m g s w fs c e l b k) := t in mk_tables n v m g s w fs c e l b k.
Definition with_mem (m : Z) (t : tables) := let '(mk_tables n v _ g s w fs c e l b k) := t in mk_tables n v m g s w fs c e l b k.
Definition with_glob (g : Z) (t : tables) := let '(mk_tables n v m _ s w fs c e l b k) := t in mk_tables n v m g s w fs c e l b k.
Definition with_strs (s : Z) (w : list (Z * list Z)) (t : tables) := let '(mk_tables n v m g _ _ fs c e l b k) := t in mk_tables n v m g s w fs c e l b k.
Definition with_enums (e : list hc_enum_const) (t : tables) := let '(mk_tables n v m g s w fs c _ l b k) := t in mk_tables n v m g s w fs c e l b k.
Definition with_glabs (l : list (list Z * Z)) (t : tables) := let '(mk_tables n v m g s w fs c e _ b k) := t in mk_tables n v m g s w fs c e l b k.

Definition with_fns (fs : list hc_fn) (t : tables) := let '(mk_tables n v m g s w _ c e l b k) := t in mk_tables n v m g s w fs c e l b k.
Definition with_classes (c : list hc_class) (t : tables) := let '(mk_tables n v m g s w fs _ e l b k) := t in mk_tables n v m g s w fs c e l b k.
(** The targets of [break] and [continue], the innermost first. *)
Definition with_targets (b k : list Z) (t : tables) := let '(mk_tables n v m g s w fs c e l _ _) := t in mk_tables n v m g s w fs c e l b k.

(** ** The monad *)

Inductive result (A : Type) := Done (a : A) | Bad | Wild | NoFuel.
Arguments Done {A} _.
Arguments Bad {A}.
Arguments Wild {A}.
Arguments NoFuel {A}.

Definition P (A : Type) : Type := front -> result A * front.

Definition pret {A} (a : A) : P A := fun f => (Done a, f).
Definition pbind {A B} (m : P A) (k : A -> P B) : P B := fun f =>
  match m f with (Done a, f') => k a f' | (Bad, f') => (Bad, f') | (Wild, f') => (Wild, f') | (NoFuel, f') => (NoFuel, f') end.
Definition pget {A} (g : front -> A) : P A := fun f => (Done (g f), f).
Definition pmod (g : front -> front) : P unit := fun f => (Done tt, g f).
(** [return -1], and [f->err = 1; return -1]. *)
Definition bad {A} : P A := fun f => (Bad, f).
Definition refuse {A} : P A := fun f => (Bad, set_err true f).
(** [m < 0] as a test that goes on either way. *)
Definition attempt {A} (m : P A) : P (option A) := fun f =>
  match m f with (Done a, f') => (Done (Some a), f') | (Bad, f') => (Done None, f') | (Wild, f') => (Wild, f') | (NoFuel, f') => (NoFuel, f') end.
(** [if (... m < 0 ...) { f->err = 1; return -1; }]. *)
Definition or_refuse {A} (m : P A) : P A := fun f =>
  match m f with (Bad, f') => (Bad, set_err true f') | r => r end.
Definition out_of_fuel {A} : P A := fun f => (NoFuel, f).

Declare Scope front_scope.
Delimit Scope front_scope with front.
Notation "'let*' x ':=' m 'in' k" := (pbind m (fun x => k))
  (at level 10, x pattern, m at level 100, k at level 200) : front_scope.
Notation "m ;;; k" := (pbind m (fun _ => k)) (at level 100, k at level 200, right associativity) : front_scope.
#[local] Open Scope front_scope.

(** The turns of a [for (;;)] that goes on while its body says so. *)
Fixpoint turns {A} (fuel : nat) (body : A -> P (bool * A)) (a : A) : P A :=
  match fuel with
  | O => out_of_fuel
  | S fuel' => let* r := body a in let '(more, a) := r in if (more : bool) then turns fuel' body a else pret a
  end.
(** Every turn that goes on reads a character. *)
Definition forever {A} (body : A -> P (bool * A)) (a : A) : P A := fun f => turns (S (length (f_p f))) body a f.

(** ** Characters *)

Definition peek (i : nat) : P Z := pget (fun f => nth i (f_p f) 0).
Definition advance (n : nat) : P unit := pmod (fun f => set_p (drop n (f_p f)) f).

Definition is_space (c : Z) : bool := (c =? 32) || (c =? 9) || (c =? 10) || (c =? 13).
Fixpoint skip_spaces (l : list Z) : list Z :=
  match l with c :: l' => if is_space c then skip_spaces l' else l | [] => [] end.
Fixpoint skip_line (l : list Z) : list Z :=
  match l with c :: l' => if (c =? 0) || (c =? 10) then l else skip_line l' | [] => [] end.
Fixpoint skip_comment (l : list Z) : list Z :=
  match l with
  | c :: l' => if c =? 0 then l else if (c =? 42) && (nth 0 l' 0 =? 47) then drop 1 l' else skip_comment l'
  | [] => []
  end.
Fixpoint skip_from (fuel : nat) (l : list Z) : list Z :=
  match fuel with
  | O => l
  | S fuel' =>
      let l := skip_spaces l in
      if (nth 0 l 0 =? 47) && (nth 1 l 0 =? 47) then skip_from fuel' (skip_line l)
      else if (nth 0 l 0 =? 47) && (nth 1 l 0 =? 42) then skip_from fuel' (skip_comment (drop 2 l))
      else l
  end.
Definition skip (l : list Z) : list Z := skip_from (S (length l)) l.
Definition hcf_skip : P unit := pmod (fun f => set_p (skip (f_p f)) f).

Definition hcf_ident_start (c : Z) : bool :=
  ((65 <=? c) && (c <=? 90)) || ((97 <=? c) && (c <=? 122)) || (c =? 95) || (c =? 0xe9).
Definition hcf_ident_char (c : Z) : bool := hcf_ident_start c || ((48 <=? c) && (c <=? 57)).

(** [while (test( *p)) p++;]: the characters passed, and the rest. *)
Fixpoint span (test : Z -> bool) (l : list Z) : list Z * list Z :=
  match l with
  | c :: l' => if test c then let '(a, b) := span test l' in (c :: a, b) else ([], l)
  | [] => ([], [])
  end.
Definition scan (test : Z -> bool) : P (list Z) := fun f =>
  let '(a, b) := span test (f_p f) in (Done a, set_p b f).
Definition ident : P (list Z) := scan hcf_ident_char.

(** The characters of [kw] at the head of the text: what follows them. *)
Fixpoint strip (kw l : list Z) : option (list Z) :=
  match kw with
  | [] => Some l
  | k :: kw' => match l with c :: l' => if c =? k then strip kw' l' else None | [] => None end
  end.

Definition S_ (s : String.string) : list Z := bytes_of_string s.
Definition hcf_kw (kw : String.string) : P bool :=
  hcf_skip ;;;
  let* p := pget f_p in
  match strip (S_ kw) p with
  | Some p' => if hcf_ident_char (nth 0 p' 0) then pret false else pmod (set_p p') ;;; pret true
  | None => pret false
  end.

Definition hcf_expect (c : Z) : P unit :=
  hcf_skip ;;; let* d := peek 0 in if d =? c then advance 1 else refuse.

(** ** Emission *)

Definition emit_bytes (n : Z) (bytes : list Z) : P unit := fun f =>
  if f_cap f <? Z.of_nat (length (f_bc f)) + n then (Bad, set_err true f)
  else (Done tt, set_out (f_bc f ++ bytes) f).
Definition hcf_emit (op : hc_op) : P unit := emit_bytes 1 [hc_code op].
Definition hcf_emit_u8 (op : hc_op) (a : Z) : P unit := emit_bytes 2 [hc_code op; u8 a].
Definition hcf_emit_u8u8 (op : hc_op) (a b : Z) : P unit := emit_bytes 3 [hc_code op; u8 a; u8 b].
Definition hcf_imm (v : Z) : P unit := emit_bytes 9 (hc_pack_imm64 v) ;;; pmod (set_f64 false).
(** [f->n += hc_pack_call...(f->bc + f->n, ...)]: no test. *)
Definition raw (bytes : list Z) : P unit := pmod (fun f => set_out (f_bc f ++ bytes) f).
Definition require9 : P unit := emit_bytes 9 [].

Definition on_tabs (g : tables -> tables) : P unit := pmod (fun f => set_tabs (g (tabs f)) f).
Definition tget {A} (g : tables -> A) : P A := pget (fun f => g (tabs f)).

(** -1 when there is none left. *)
Definition hcf_new_label : P Z :=
  let* n := tget next_label in
  if HC_IR_MAX_LABELS <=? n then pmod (set_err true) ;;; pret (-1)
  else on_tabs (with_label (n + 1)) ;;; pret n.

(** ** Names *)

(** The comparison of every lookup: a stored name up to its NUL against [len] characters. *)
Fixpoint name_eq (stored name : list Z) : bool :=
  match stored, name with
  | [], [] => true
  | a :: stored', b :: name' => (a =? b) && name_eq stored' name'
  | _, _ => false
  end.

Fixpoint find_index {A} (test : A -> bool) (l : list A) (i : Z) : Z :=
  match l with [] => -1 | a :: l' => if test a then i else find_index test l' (i + 1) end.

Definition hcf_lookup (t : tables) (name : list Z) : Z := find_index (fun v => name_eq (v_name v) name) (vars t) 0.
Definition hcf_find_class (t : tables) (name : list Z) : Z := find_index (fun c => name_eq (c_name c) name) (classes t) 0.
Definition hcf_find_enum (t : tables) (name : list Z) : Z := find_index (fun e => name_eq (e_name e) name) (enums t) 0.
Definition hcf_find_member (c : hc_class) (name : list Z) : Z := find_index (fun m => name_eq (mb_name m) name) (c_mem c) 0.
Definition hcf_find_glab (t : tables) (name : list Z) : Z :=
  match find (fun l => name_eq (fst l) name) (glabs t) with Some (_, id) => id | None => -1 end.
Definition hcf_find_fn (t : tables) (name : list Z) : option hc_fn := find (fun f => name_eq (fn_name f) name) (fns t).

(** The words a variable takes. *)
Definition decl_words (nelem stride : Z) : Z :=
  if stride =? 1 then Z.quot (nelem + 7) 8
  else if stride =? 4 then Z.quot (nelem * 4 + 7) 8
  else if 8 <? stride then Z.quot (stride + 7) 8 * nelem
  else nelem.

Definition hcf_decl_n (name : list Z) (nelem stride : Z) : P Z :=
  let* t := tget id in
  let id := hcf_lookup t name in
  if 0 <=? id then pret id
  else
    let words := decl_words nelem stride in
    if (nelem <? 1) || (stride <? 1) || (HC_IR_MAX_NAMES <=? Z.of_nat (length (vars t))) ||
       (15 <=? Z.of_nat (length name)) || (HC_IR_MEM_WORDS <? mem_used t + words) then refuse
    else
      on_tabs (fun t => with_mem (mem_used t + words)
        (with_vars (vars t ++ [mk_var name (u8 (mem_used t)) (u8 nelem) (u8 stride) HC_TYPE_NONE false false false]) t)) ;;;
      pret (Z.of_nat (length (vars t))).

Definition hcf_decl_global_n (name : list Z) (nelem stride : Z) : P Z :=
  let* t := tget id in
  let id := hcf_lookup t name in
  if 0 <=? id then pret id
  else
    let words := decl_words nelem stride in
    if (nelem <? 1) || (stride <? 1) || (HC_IR_MAX_NAMES <=? Z.of_nat (length (vars t))) ||
       (15 <=? Z.of_nat (length name)) || (HC_IR_MAX_GLOBS <? glob_used t + words) ||
       (HC_IR_MEM_WORDS <? glob_used t + words) then refuse
    else
      on_tabs (fun t => with_glob (glob_used t + words)
        (with_vars (vars t ++ [mk_var name (u8 (glob_used t)) (u8 nelem) (u8 stride) HC_TYPE_NONE false true false]) t)) ;;;
      pret (Z.of_nat (length (vars t))).

Definition hcf_decl (name : list Z) : P Z := hcf_decl_n name 1 8.
Definition hcf_align_up (v a : Z) : Z := Z.land (v + a - 1) (Z.lnot (a - 1)).

Definition hcf_get_glab (name : list Z) : P Z :=
  let* t := tget id in
  let id := hcf_find_glab t name in
  if 0 <=? id then pret id
  else if (HC_IR_MAX_LABELS <=? Z.of_nat (length (glabs t))) || (15 <=? Z.of_nat (length name)) then refuse
  else
    let* id := hcf_new_label in
    if id <? 0 then bad
    else on_tabs (fun t => with_glabs (glabs t ++ [(name, id)]) t) ;;; pret id.

Definition hcf_add_enum (name : list Z) (val : Z) : P unit :=
  let* t := tget id in
  let len := Z.of_nat (length name) in
  if (len <? 1) || (15 <=? len) || (HC_MAX_ENUMS <=? Z.of_nat (length (enums t))) ||
     (0 <=? hcf_find_enum t name) || (0 <=? hcf_lookup t name) then refuse
  else on_tabs (fun t => with_enums (enums t ++ [mk_enum name val]) t).

Definition nth_var (t : tables) (i : Z) : hc_var := nth (Z.to_nat i) (vars t) (mk_var [] 0 0 0 0 false false false).
Definition nth_class (t : tables) (i : Z) : hc_class := nth (Z.to_nat i) (classes t) (mk_class [] [] 0).
Definition var (i : Z) : P hc_var := tget (fun t => nth_var t i).

(** [f->type\[id\] = ...; f->is_ptr\[id\] = ...;] *)
Definition retype (id : Z) (type : Z) (is_ptr : bool) (t : tables) : tables :=
  let v := nth_var t id in
  with_vars (<[Z.to_nat id := mk_var (v_name v) (v_base v) (v_count v) (v_stride v) type is_ptr (v_is_global v) (v_is_f64 v)]> (vars t)) t.

Definition hcf_decl_class (name : list Z) (ci : Z) (as_ptr : bool) : P Z :=
  let* t := tget id in
  if (ci <? 0) || (Z.of_nat (length (classes t)) <=? ci) then refuse
  else
    let* id :=
      if as_ptr then hcf_decl_n name 1 8
      else
        let words := Z.quot (c_size (nth_class t ci) + 7) 8 in
        hcf_decl_n name (if words <? 1 then 1 else words) 8 in
    on_tabs (retype id (u8 ci) as_ptr) ;;; pret id.

(** ** Literals *)

Definition is_digit (c : Z) : bool := (48 <=? c) && (c <=? 57).
Definition is_hex (c : Z) : bool := is_digit c || ((97 <=? c) && (c <=? 102)) || ((65 <=? c) && (c <=? 70)).
Definition hex_value (c : Z) : Z := if is_digit c then c - 48 else if (97 <=? c) && (c <=? 102) then c - 97 + 10 else c - 65 + 10.
Definition hex_step (v c : Z) : Z := Z.lor (u64 (Z.shiftl v 4)) (hex_value c).
Definition dec_step (v c : Z) : Z := u64 (u64 (v * 10) + (c - 48)).

(** The character behind a backslash. *)
Definition escape (e : Z) : Z := if e =? 110 then 10 else if e =? 116 then 9 else if e =? 48 then 0 else e.

(** A character constant behind its first quote. *)
Definition char_lit : P Z :=
  let* c := peek 0 in
  if c =? 0 then refuse
  else
    advance 1 ;;;
    let* e := peek 0 in
    let* c :=
      if (c =? 92) && negb (e =? 0) then advance 1 ;;; pret (escape e) else pret c in
    let* q := peek 0 in
    if q =? 39 then advance 1 ;;; pret (u8 c) else refuse.

(** The digits behind [0x]. *)
Definition hex_lit : P Z :=
  advance 2 ;;;
  let* ds := scan is_hex in
  match ds with [] => refuse | _ => pret (fold_left hex_step ds 0) end.
Definition is_0x : P bool := let* a := peek 0 in let* b := peek 1 in pret ((a =? 48) && ((b =? 120) || (b =? 88))).

Fixpoint int_lit (fuel : nat) : P Z :=
  hcf_skip ;;;
  let* c := peek 0 in
  if c =? 39 then advance 1 ;;; char_lit
  else if c =? 45 then
    match fuel with
    | O => out_of_fuel
    | S fuel' => advance 1 ;;; let* v := int_lit fuel' in pret (u64 (- v))
    end
  else if negb (is_digit c) then refuse
  else
    let* hex := is_0x in
    if hex : bool then hex_lit
    else let* ds := scan is_digit in pret (fold_left dec_step ds 0).
Definition hcf_parse_int_lit : P Z := fun f => int_lit (length (f_p f)) f.

(** The named constants of the tables in the code: name and value. *)
Definition lookup_const (l : list (String.string * Z)) (name : list Z) : option Z :=
  snd <$> find (fun p => name_eq (S_ (fst p)) name) l.

Definition message_consts : list (String.string * Z) :=
  [("MESSAGE_NULL", 0); ("MESSAGE_KEY_DOWN", 2); ("MESSAGE_KEY_UP", 3); ("MESSAGE_MS_MOVE", 4); ("MESSAGE_MS_L_DOWN", 5);
   ("MESSAGE_MS_L_UP", 6); ("MESSAGE_MS_R_DOWN", 7); ("MESSAGE_MS_R_UP", 8)]%string.
Definition key_consts : list (String.string * Z) :=
  [("CH_SHIFT_ESC", 0x1C); ("CH_ESC", 0x1B); ("CH_SPACE", 0x20); ("SC_CURSOR_UP", 0x48); ("SC_CURSOR_DOWN", 0x50);
   ("SC_CURSOR_LEFT", 0x4B); ("SC_CURSOR_RIGHT", 0x4D); ("STR_LEN", 136)]%string.
Definition case_consts : list (String.string * Z) := message_consts ++ key_consts.
Definition win_consts : list (String.string * Z) :=
  ([("WIF_SELF_FOCUS", 0x0001); ("WIF_SELF_GRAB_SCROLL", 0x0200); ("WIF_FOCUS_TASK_MENU", 0x00020000);
    ("WIG_TASK_DEFAULT", 0x0052f3ff)]%string ++ key_consts).
Definition color_consts : list (String.string * Z) :=
  [("BLACK", 0); ("BLUE", 1); ("GREEN", 2); ("CYAN", 3); ("RED", 4); ("PURPLE", 5); ("BROWN", 6); ("LTGRAY", 7);
   ("DKGRAY", 8); ("LTBLUE", 9); ("LTGREEN", 10); ("LTCYAN", 11); ("LTRED", 12); ("LTPURPLE", 13); ("YELLOW", 14); ("WHITE", 15)]%string.

Definition hcf_parse_case_val : P Z :=
  hcf_skip ;;;
  let* save := pget f_p in
  let* lit := attempt hcf_parse_int_lit in
  match lit with
  | Some v => pret (signed 32 v)
  | None =>
      pmod (fun f => set_err false (set_p save f)) ;;;
      let* c := peek 0 in
      if negb (hcf_ident_start c) then refuse
      else
        let* s := ident in
        let* t := tget id in
        let ei := hcf_find_enum t s in
        if 0 <=? ei then pret (signed 32 (e_val (nth (Z.to_nat ei) (enums t) (mk_enum [] 0))))
        else match lookup_const case_consts s with Some v => pret v | None => refuse end
  end.

Definition nop0_names : list String.string :=
  ["SettingsPush"; "SettingsPop"; "AutoComplete"; "WinBorder"; "WinMax"; "DocCursor"; "DocClear"; "PutExcept"]%string.
Definition is_name (n : String.string) (s : list Z) : bool := name_eq (S_ n) s.
Definition hcf_lattice_nop0 (s : list Z) : bool := existsb (fun n => is_name n s) nop0_names.

(** ** Addresses, loads and stores *)

Definition hcf_emit_var_addr (id : Z) : P unit :=
  let* v := var id in hcf_emit_u8 (if v_is_global v then HC_ABS_ADDR else HC_SLOT_ADDR) (v_base v).
Definition hcf_emit_var_ld (id : Z) : P unit :=
  let* v := var id in hcf_emit_u8 (if v_is_global v then HC_LD_ABS else HC_LD_SLOT) (v_base v).
Definition hcf_emit_var_st (id : Z) : P unit :=
  let* v := var id in hcf_emit_u8 (if v_is_global v then HC_ST_ABS else HC_ST_SLOT) (v_base v).

(** The field a member path ends at. *)
Record field_info := mk_field { fd_stride : Z; fd_type : Z; fd_is_f64 : bool }.

(** One member of a path in class [cur]. *)
Definition member_step (st : Z * field_info) : P (bool * (Z * field_info)) :=
  let '(cur, _) := st in
  hcf_skip ;;;
  let* c := peek 0 in
  let* t := tget id in
  if negb (hcf_ident_start c) || (cur <? 0) || (Z.of_nat (length (classes t)) <=? cur) then refuse
  else
    let* s := ident in
    let cl := nth_class t cur in
    let mi := hcf_find_member cl s in
    if mi <? 0 then refuse
    else
      let m := nth (Z.to_nat mi) (c_mem cl) (mk_member [] 0 0 0 false) in
      hcf_imm (mb_off m) ;;;
      hcf_emit HC_ADD ;;;
      let fd := mk_field (mb_stride m) (mb_type m) (mb_is_f64 m) in
      hcf_skip ;;;
      let* d := peek 0 in
      if d =? 46 then
        if mb_type m =? HC_TYPE_NONE then refuse
        else advance 1 ;;; pret (true, (mb_type m, fd))
      else pret (false, (cur, fd)).
Definition hcf_parse_members_from (ci : Z) : P field_info :=
  let* r := forever member_step (ci, mk_field 8 HC_TYPE_NONE false) in pret (snd r).

Definition hcf_parse_dot_addr (id : Z) : P field_info :=
  let* v := var id in
  let* t := tget (fun t => t) in
  if v_is_ptr v || (v_type v =? HC_TYPE_NONE) || (u8 (Z.of_nat (length (classes t))) <=? v_type v) then refuse
  else hcf_emit_var_addr id ;;; hcf_parse_members_from (v_type v).
Definition hcf_parse_arrow_addr (id : Z) : P field_info :=
  let* v := var id in
  let* t := tget (fun t => t) in
  if negb (v_is_ptr v) || (v_type v =? HC_TYPE_NONE) || (u8 (Z.of_nat (length (classes t))) <=? v_type v) then refuse
  else hcf_emit_var_ld id ;;; hcf_parse_members_from (v_type v).

Definition hcf_pow10u (n : Z) : Z := 10 ^ (Z.min (Z.max n 0) 9).

Definition hcf_emit_f64_dec (ip frac frac_digits : Z) : P unit :=
  hcf_imm ip ;;; hcf_emit HC_I2F ;;;
  (if 0 <? frac_digits then
     hcf_imm frac ;;; hcf_emit HC_I2F ;;; hcf_imm (hcf_pow10u frac_digits) ;;; hcf_emit HC_I2F ;;;
     hcf_emit HC_FDIV ;;; hcf_emit HC_FADD
   else pret tt) ;;;
  pmod (set_f64 true).

Definition sized_load (s : Z) : hc_op := if s =? 1 then HC_LOAD8 else if s =? 4 then HC_LOAD32 else HC_LOAD.
Definition sized_store (s : Z) : hc_op := if s =? 1 then HC_STORE8 else if s =? 4 then HC_STORE32 else HC_STORE.
Definition hcf_emit_load_at (id : Z) : P unit := let* v := var id in hcf_emit (sized_load (v_stride v)).
Definition hcf_emit_store_at (id : Z) : P unit := let* v := var id in hcf_emit (sized_store (v_stride v)).

Definition hcf_is_u32_scalar (v : hc_var) : bool :=
  negb (v_is_ptr v) && (v_type v =? HC_TYPE_NONE) && (v_stride v =? 4) && (v_count v =? 1).
Definition hcf_trunc32 : P unit := hcf_imm 0xffffffff ;;; hcf_emit HC_AND.
Definition hcf_ld_named (id : Z) : P unit :=
  hcf_emit_var_ld id ;;;
  let* v := var id in
  (if hcf_is_u32_scalar v then hcf_trunc32 else pret tt) ;;;
  pmod (set_f64 (v_is_f64 v)).
Definition hcf_st_named (id : Z) : P unit :=
  let* v := var id in
  (if hcf_is_u32_scalar v then hcf_trunc32 else pret tt) ;;;
  hcf_emit_var_st id.

(** 0 for [=], else the operator. *)
Definition hcf_parse_assign_op : P (option hc_op) :=
  hcf_skip ;;;
  let* a := peek 0 in let* b := peek 1 in
  if (a =? 43) && (b =? 61) then advance 2 ;;; pret (Some HC_ADD)
  else if (a =? 45) && (b =? 61) then advance 2 ;;; pret (Some HC_SUB)
  else if (a =? 42) && (b =? 61) then advance 2 ;;; pret (Some HC_MUL)
  else if a =? 61 then advance 1 ;;; pret None
  else refuse.

Section Memory.
Context (parse_expr : P unit).

Definition hcf_parse_index_addr (id : Z) : P unit :=
  let* v := var id in
  (if v_is_ptr v then hcf_emit_var_ld id else hcf_emit_var_addr id) ;;;
  parse_expr ;;; hcf_expect 93 ;;; hcf_imm (v_stride v) ;;; hcf_emit HC_MUL ;;; hcf_emit HC_ADD.

(** The address of element [i], multiplied out at run time. *)
Definition element_addr (id i : Z) : P unit :=
  let* v := var id in
  hcf_emit_var_addr id ;;; hcf_imm i ;;; hcf_imm (v_stride v) ;;; hcf_emit HC_MUL ;;; hcf_emit HC_ADD.

(** One initialiser; the flag says that another one follows. *)
Definition init_element (id n : Z) (i : Z) : P (bool * Z) :=
  if n <=? i then refuse
  else
    element_addr id i ;;; parse_expr ;;; hcf_emit_store_at id ;;;
    hcf_skip ;;;
    let* c := peek 0 in
    if c =? 44 then
      advance 1 ;;; hcf_skip ;;;
      let* d := peek 0 in
      if d =? 125 then advance 1 ;;; pret (false, i + 1) else pret (true, i + 1)
    else if c =? 125 then advance 1 ;;; pret (false, i + 1)
    else refuse.

Fixpoint zero_elements (k : nat) (id i : Z) : P unit :=
  match k with
  | O => pret tt
  | S k' => element_addr id i ;;; hcf_imm 0 ;;; hcf_emit_store_at id ;;; zero_elements k' id (i + 1)
  end.

Definition hcf_parse_brace_init (id : Z) : P unit :=
  let* v := var id in
  let n := v_count v in
  if n <? 1 then bad
  else
    hcf_expect 123 ;;;
    hcf_skip ;;;
    let* c := peek 0 in
    let* i := if negb (c =? 125) then forever (init_element id n) 0 else advance 1 ;;; pret 0 in
    zero_elements (Z.to_nat (n - i)) id i.

(** The value is converted to what the place holds; [strict]: an F64 cannot go to an I64. *)
Definition coerce (is_f64 strict : bool) : P unit :=
  let* e := pget expr_f64 in
  if is_f64 && negb e then hcf_emit HC_I2F ;;; pmod (set_f64 true)
  else if strict && negb is_f64 && e then refuse
  else pret tt.

Definition float_op (bin : hc_op) : option hc_op :=
  match bin with HC_ADD => Some HC_FADD | HC_SUB => Some HC_FSUB | HC_MUL => Some HC_FMUL | _ => None end.

Definition hcf_finish_mem_assign (bin : option hc_op) (load_op store_op : hc_op) (is_f64 : bool) : P unit :=
  match bin with
  | Some b =>
      let* op := if is_f64 then match float_op b with Some o => pret o | None => refuse end else pret b in
      hcf_emit HC_DUP ;;; hcf_emit load_op ;;; parse_expr ;;; coerce is_f64 false ;;; hcf_emit op ;;; hcf_emit store_op
  | None => parse_expr ;;; coerce is_f64 true ;;; hcf_emit store_op
  end ;;;
  hcf_expect 59.

Definition hcf_finish_mem_incdec (load_op store_op : hc_op) (is_f64 is_inc : bool) : P unit :=
  hcf_emit HC_DUP ;;; hcf_emit load_op ;;;
  (if is_f64
   then hcf_imm 0x3ff0000000000000 ;;; hcf_emit (if is_inc then HC_FADD else HC_FSUB)
   else hcf_imm 1 ;;; hcf_emit (if is_inc then HC_ADD else HC_SUB)) ;;;
  hcf_emit store_op ;;;
  hcf_expect 59.
End Memory.
