(* ===== verification/HcFrontPrim.v ===== *)
(** * The HolyC front end ([src/src/hc_front.h]): primary expressions

    [hcf_parse_prim]: literals, strings, names, members, the built-in functions and calls.  The
    built-in functions are tables, one row per branch of the code: the flag a name sets, and what
    the branch of the flag does.  The addresses the linker gives to the kernel's functions and
    variables are [host_addr]. *)

From S2P Require Import Prelude A64 HcIr HcFront.
#[local] Open Scope Z_scope.
#[local] Open Scope front_scope.

(** ** Built-in functions *)

Inductive promotion := Keep | ToF | ToI.

(** [Call]: the function for each number of arguments, what happens to the last argument, and
    the type of the result ([None]: the flag of the last argument stays). *)
Inductive builtin :=
| ToInt | ToFloat | GrPrintCall | StrPrintCall
| Call (rules : list (Z * String.string)) (p : promotion) (result : option bool).

(** The flag of a name. *)
Definition flag_names_1 : list (String.string * String.string) :=
  [("is_toi", "ToI64"); ("is_tof", "ToF64"); ("is_cos", "Cos"); ("is_sin", "Sin"); ("is_sqrt", "Sqrt");
   ("is_wrap", "Wrap"); ("is_abs", "Abs"); ("is_abs64", "AbsI64"); ("is_arg", "Arg"); ("is_fabs", "FAbs");
   ("is_dca", "DCAlias"); ("is_ref", "Refresh"); ("is_dcf", "DCFill"); ("is_dcd", "DCDel");
   ("is_dcdba", "DCDepthBufAlloc"); ("is_dcdbr", "DCDepthBufReset"); ("is_puc", "PopUpColor");
   ("is_mg", "MessageGet"); ("is_mqp", "MsgQuePush"); ("is_mpush", "MenuPush"); ("is_mpop", "MenuPop");
   ("is_mef", "MenuEntryFind"); ("is_min", "Min"); ("is_max", "Max"); ("is_sgn", "Sign"); ("is_clp", "Clamp");
   ("is_sqr", "Sqr"); ("is_pp", "PutPixel"); ("is_gpl", "GrPlot"); ("is_gpl3", "GrPlot3"); ("is_gpk", "GrPeek");
   ("is_cls", "Cls"); ("is_fr", "FillRect"); ("is_gl", "GrLine"); ("is_gl3", "GrLine3")]%string.

Definition flag_names_2 : list (String.string * String.string) :=
  [("is_ghl", "GrHLine"); ("is_gvl", "GrVLine"); ("is_gc", "GrCircle"); ("is_gfc", "GrFillCircle");
   ("is_pc", "PutChar"); ("is_pr", "Print"); ("is_pa", "PrintAt"); ("is_grp", "GrPrint"); ("is_pi", "PrintI64");
   ("is_sl", "StrLen"); ("is_sc", "StrCmp"); ("is_scp", "StrCpy"); ("is_sct", "StrCat"); ("is_sn", "StrNew");
   ("is_cp", "CatPrint"); ("is_spn", "StrPrint"); ("is_msp", "MStrPrint"); ("is_s2i", "Str2I64");
   ("is_hs", "HashStr"); ("is_mc", "MemCpy"); ("is_mcopy", "MemCopy"); ("is_ms", "MemSet"); ("is_ma", "MAlloc");
   ("is_free", "Free"); ("is_mx", "MouseX"); ("is_my", "MouseY"); ("is_mb", "MouseBtn"); ("is_mdx", "MouseDX");
   ("is_mdy", "MouseDY"); ("is_fbw", "FbW"); ("is_fbh", "FbH"); ("is_rnd", "Rand"); ("is_slp", "Sleep");
   ("is_cnt", "Cnt"); ("is_cf", "CntFrq"); ("is_kh", "KeyHit"); ("is_gk", "GetKey"); ("is_c0", "Call0");
   ("is_c1", "Call1"); ("is_bw", "BlkWrite"); ("is_brd", "BlkRead")]%string.

(** The branch of a flag. *)
Definition builtins_1 : list (String.string * builtin) :=
  [("is_toi", ToInt); ("is_tof", ToFloat); ("is_cos", Call [(1, "hc_builtin_cos")] ToF (Some true));
   ("is_sin", Call [(1, "hc_builtin_sin")] ToF (Some true));
   ("is_sqrt", Call [(1, "hc_builtin_sqrt")] ToF (Some true));
   ("is_wrap", Call [(1, "hc_builtin_wrap1"); (2, "hc_builtin_wrap2")] ToF (Some true));
   ("is_abs", Call [(1, "hc_builtin_abs")] ToI (Some false));
   ("is_abs64", Call [(1, "hc_builtin_abs")] ToI (Some false));
   ("is_arg", Call [(2, "hc_builtin_arg")] ToF (Some true));
   ("is_fabs", Call [(1, "hc_builtin_fabs")] ToF (Some true))]%string.

Definition builtins_2 : list (String.string * builtin) :=
  [("is_dca", Call [(0, "hc_builtin_dcalias")] Keep (Some false));
   ("is_ref", Call [(0, "hc_builtin_refresh")] Keep (Some false));
   ("is_dcf", Call [(1, "hc_builtin_dcfill")] Keep (Some false));
   ("is_dcd", Call [(1, "hc_builtin_dcdel")] Keep (Some false));
   ("is_dcdba", Call [(1, "hc_builtin_dcdepthbufalloc")] Keep (Some false));
   ("is_dcdbr", Call [(1, "hc_builtin_dcdepthbufreset")] Keep (Some false));
   ("is_puc", Call [(1, "hc_builtin_popupcolor")] Keep (Some false));
   ("is_mg", Call [(3, "hc_builtin_messageget")] Keep (Some false));
   ("is_mqp", Call [(3, "hc_builtin_msgquepush")] Keep (Some false));
   ("is_mpush", Call [(1, "hc_builtin_menupush")] Keep (Some false));
   ("is_mpop", Call [(0, "hc_builtin_menupop")] Keep (Some false));
   ("is_mef", Call [(2, "hc_builtin_menuentryfind")] Keep (Some false));
   ("is_min", Call [(2, "hc_builtin_min")] Keep None); ("is_max", Call [(2, "hc_builtin_max")] Keep None);
   ("is_sgn", Call [(1, "hc_builtin_sign")] Keep None); ("is_clp", Call [(3, "hc_builtin_clamp")] Keep None)]%string.

Definition builtins_3 : list (String.string * builtin) :=
  [("is_sqr", Call [(1, "hc_builtin_sqr")] Keep None); ("is_pp", Call [(3, "hc_builtin_putpixel")] Keep None);
   ("is_gpl", Call [(3, "hc_builtin_grplot")] Keep None); ("is_gpl3", Call [(4, "hc_builtin_grplot3")] Keep None);
   ("is_gpk", Call [(2, "hc_builtin_grpeek"); (3, "hc_builtin_grpeek_dc")] Keep None);
   ("is_cls", Call [(1, "hc_builtin_cls")] Keep None); ("is_fr", Call [(5, "hc_builtin_fillrect")] Keep None);
   ("is_gl", Call [(5, "hc_builtin_grline_dc"); (6, "hc_builtin_grline6")] Keep None);
   ("is_gl3", Call [(7, "hc_builtin_grline3")] Keep None); ("is_ghl", Call [(4, "hc_builtin_grhline")] Keep None);
   ("is_gvl", Call [(4, "hc_builtin_grvline")] Keep None); ("is_gc", Call [(4, "hc_builtin_grcircle")] Keep None);
   ("is_gfc", Call [(4, "hc_builtin_grfillcircle")] Keep None);
   ("is_pc", Call [(1, "hc_builtin_putchar")] Keep None); ("is_pr", Call [(1, "hc_builtin_print")] Keep None);
   ("is_pa", Call [(3, "hc_builtin_printat")] Keep None)]%string.

Definition builtins_4 : list (String.string * builtin) :=
  [("is_grp", GrPrintCall); ("is_pi", Call [(1, "hc_builtin_printi64")] Keep None);
   ("is_sl", Call [(1, "hc_builtin_strlen")] Keep None); ("is_sc", Call [(2, "hc_builtin_strcmp")] Keep None);
   ("is_scp", Call [(2, "hc_builtin_strcpy")] Keep None); ("is_sct", Call [(2, "hc_builtin_strcat")] Keep None);
   ("is_sn", Call [(1, "hc_builtin_strnew")] Keep None); ("is_cp", Call [(4, "hc_builtin_catprint")] Keep None);
   ("is_spn", StrPrintCall); ("is_msp", Call [(3, "hc_builtin_mstrprint")] Keep None);
   ("is_s2i", Call [(1, "hc_builtin_str2i64")] Keep None); ("is_hs", Call [(1, "hc_builtin_hashstr")] Keep None);
   ("is_mc", Call [(3, "hc_builtin_memcpy")] Keep None); ("is_mcopy", Call [(3, "hc_builtin_memcpy")] Keep None);
   ("is_ms", Call [(3, "hc_builtin_memset")] Keep None)]%string.

Definition builtins_5 : list (String.string * builtin) :=
  [("is_ma", Call [(1, "hc_builtin_malloc")] Keep None); ("is_free", Call [(1, "hc_builtin_free")] Keep None);
   ("is_mx", Call [(0, "hc_builtin_mousex")] Keep None); ("is_my", Call [(0, "hc_builtin_mousey")] Keep None);
   ("is_mb", Call [(0, "hc_builtin_mousebtn")] Keep None); ("is_mdx", Call [(0, "hc_builtin_mousedx")] Keep None);
   ("is_mdy", Call [(0, "hc_builtin_mousedy")] Keep None); ("is_fbw", Call [(0, "hc_builtin_fbw")] Keep None);
   ("is_fbh", Call [(0, "hc_builtin_fbh")] Keep None); ("is_rnd", Call [(0, "hc_builtin_rand")] Keep None);
   ("is_slp", Call [(1, "hc_builtin_sleep")] Keep None); ("is_cnt", Call [(0, "hc_builtin_cnt")] Keep None);
   ("is_cf", Call [(0, "hc_builtin_cntfrq")] Keep None); ("is_kh", Call [(0, "hc_builtin_keyhit")] Keep None);
   ("is_gk", Call [(0, "hc_builtin_getkey")] Keep None); ("is_c0", Call [(1, "hc_builtin_call0")] Keep None);
   ("is_c1", Call [(2, "hc_builtin_call1")] Keep None); ("is_bw", Call [(3, "hc_builtin_blkwrite")] Keep None);
   ("is_brd", Call [(3, "hc_builtin_blkread")] Keep None)]%string.

Definition builtins : list (String.string * builtin) := builtins_1 ++ builtins_2 ++ builtins_3 ++ builtins_4 ++ builtins_5.

(** The first branch whose flag the name sets. *)
Definition flag_of (flag : String.string) (s : list Z) : bool :=
  existsb (fun p => String.eqb (fst p) flag && is_name (snd p) s) (flag_names_1 ++ flag_names_2).
Definition find_builtin (s : list Z) : option builtin := snd <$> find (fun p => flag_of (fst p) s) builtins.

Definition hc_pack_call (n : Z) (fn : Z) : list Z :=
  if n =? 0 then hc_pack_call0 fn else if n =? 1 then hc_pack_call1 fn else if n =? 2 then hc_pack_call2 fn
  else if n =? 3 then hc_pack_call3 fn else if n =? 4 then hc_pack_call4 fn else if n =? 5 then hc_pack_call5 fn
  else if n =? 6 then hc_pack_call6 fn else hc_pack_call7 fn.

Definition coerced_names : list String.string := ["GrPlot3"; "GrPlot"; "GrLine3"; "GrLine"]%string.
Definition PI_BITS : Z := 0x400921fb54442d18.

Section Prim.
Context (host_addr : String.string -> Z) (g_hc_mem : Z).

Definition call_addr (n addr : Z) : P unit := raw (hc_pack_call n addr).
Definition call_host (n : Z) (fn : String.string) : P unit := call_addr n (host_addr fn).

Definition promote (p : promotion) : P unit :=
  let* e := pget expr_f64 in
  match p with
  | ToF => if e then pret tt else hcf_emit HC_I2F
  | ToI => if e : bool then hcf_emit HC_F2I else pret tt
  | Keep => pret tt
  end.

(** The format arguments of [GrPrint] go to slots, the last one first. *)
Fixpoint spill (k : nat) (base : Z) : P unit :=
  match k with O => pret tt | S k' => hcf_emit_u8 HC_ST_SLOT (u8 (base + Z.of_nat k')) ;;; spill k' base end.

Definition grprint (nargs : Z) : P unit :=
  if (nargs <? 4) || (9 <? nargs) then refuse
  else
    (if nargs =? 4 then call_host 4 "hc_builtin_grprint"
     else
       let nfmt := nargs - 4 in
       let* used := tget mem_used in
       if HC_IR_MEM_WORDS <? used + nfmt then refuse
       else
         let base := u8 used in
         on_tabs (fun t => with_mem (mem_used t + nfmt) t) ;;;
         spill (Z.to_nat nfmt) base ;;;
         hcf_emit_u8 HC_SLOT_ADDR base ;;; hcf_imm nfmt ;;;
         call_host 6 "hc_builtin_grprintn") ;;;
    pmod (set_f64 false).

Fixpoint pad_args (k : nat) : P unit := match k with O => pret tt | S k' => hcf_imm 0 ;;; pad_args k' end.
Definition strprint (nargs : Z) : P unit :=
  if (nargs <? 2) || (4 <? nargs) then refuse
  else pad_args (Z.to_nat (4 - nargs)) ;;; call_host 4 "hc_builtin_strprint".

Definition call_builtin (b : builtin) (nargs : Z) : P unit :=
  match b with
  | ToInt => if negb (nargs =? 1) then refuse else promote ToI ;;; pmod (set_f64 false)
  | ToFloat => if negb (nargs =? 1) then refuse else promote ToF ;;; pmod (set_f64 true)
  | GrPrintCall => grprint nargs
  | StrPrintCall => strprint nargs
  | Call rules p result =>
      match find (fun r => nargs =? fst r) rules with
      | None => refuse
      | Some (n, fn) =>
          promote p ;;; call_host n fn ;;;
          match result with Some b => pmod (set_f64 b) | None => pret tt end
      end
  end.

(** A function of the program. *)
Definition call_user (s : list Z) (nargs : Z) : P unit :=
  let* t := tget (fun t => t) in
  match hcf_find_fn t s with
  | None => refuse
  | Some fn =>
      if (fn_code fn =? 0) || negb (nargs =? fn_nargs fn) then refuse
      else if (0 <=? nargs) && (nargs <=? 6) then call_addr nargs (fn_code fn) ;;; pmod (set_f64 false)
      else refuse
  end.

(** ** Constants and bare names *)

Definition imm_pi : P unit := hcf_imm PI_BITS ;;; pmod (set_f64 true).

Definition literal_name (s : list Z) : option Z :=
  if is_name "true" s then Some 1 else if is_name "TRUE" s then Some 1 else if is_name "false" s then Some 0
  else if is_name "FALSE" s then Some 0 else if is_name "NULL" s then Some 0 else None.

Definition fs_addr (m : list Z) : option String.string :=
  if is_name "cur_menu" m then Some "g_hc_fs_cur_menu"%string
  else if is_name "win_inhibit" m then Some "g_hc_fs_win_inhibit"%string
  else if is_name "draw_it" m then Some "g_hc_fs_draw_it"%string else None.

(** [Fs->...] *)
Definition prim_fs : P unit :=
  hcf_skip ;;;
  let* a := peek 0 in let* b := peek 1 in
  if negb ((a =? 45) && (b =? 62)) then refuse
  else
    advance 2 ;;; hcf_skip ;;;
    let* c := peek 0 in
    if negb (hcf_ident_start c) then refuse
    else
      let* m := ident in
      require9 ;;;
      if is_name "pix_width" m then call_host 0 "hc_builtin_fs_pix_width" ;;; pmod (set_f64 false)
      else if is_name "pix_height" m then call_host 0 "hc_builtin_fs_pix_height" ;;; pmod (set_f64 false)
      else match fs_addr m with
           | Some g => hcf_imm (host_addr g) ;;; hcf_emit HC_LOAD ;;; pmod (set_f64 false)
           | None => refuse
           end.

Definition bare_call (n : String.string) : P unit := require9 ;;; call_host 0 n ;;; pmod (set_f64 false).

Definition is_bare_fn (fn : option hc_fn) : option hc_fn :=
  match fn with Some fn => if negb (fn_code fn =? 0) && (fn_nargs fn =? 0) then Some fn else None | None => None end.

(** A name that is no variable and is not called. *)
Definition prim_bare (s : list Z) : P unit :=
  let* t := tget (fun t => t) in
  let ei := hcf_find_enum t s in
  if 0 <=? ei then hcf_imm (u64 (e_val (nth (Z.to_nat ei) (enums t) (mk_enum [] 0))))
  else
    match is_bare_fn (hcf_find_fn t s) with
    | Some fn => require9 ;;; call_addr 0 (fn_code fn) ;;; pmod (set_f64 false)
    | None =>
        if is_name "DCAlias" s then bare_call "hc_builtin_dcalias"
        else if is_name "Refresh" s then bare_call "hc_builtin_refresh"
        else if is_name "MenuPop" s then bare_call "hc_builtin_menupop"
        else if hcf_lattice_nop0 s then bare_call "hc_builtin_nop0"
        else if is_name "Fs" s then prim_fs
        else
          match lookup_const color_consts s, lookup_const message_consts s, lookup_const win_consts s with
          | Some v, _, _ | None, Some v, _ | None, None, Some v => hcf_imm v
          | None, None, None => refuse
          end
    end.

(** ** String literals *)

(** The characters up to the closing quote, at most 511 in all. *)
Fixpoint string_chars (fuel : nat) (l buf : list Z) : list Z * list Z :=
  match fuel with
  | O => (l, buf)
  | S fuel' =>
      match l with
      | [] => (l, buf)
      | c :: l' =>
          if (c =? 0) || (c =? 34) || (511 <=? Z.of_nat (length buf)) then (l, buf)
          else if (c =? 92) && negb (nth 0 l' 0 =? 0)
               then string_chars fuel' (drop 1 l') (buf ++ [escape (nth 0 l' 0)])
               else string_chars fuel' l' (buf ++ [c])
      end
  end.

Definition string_part (buf : list Z) : P (bool * list Z) :=
  advance 1 ;;;
  let* p := pget f_p in
  let '(rest, buf) := string_chars (length p) p buf in
  pmod (set_p rest) ;;;
  let* q := peek 0 in
  if negb (q =? 34) then refuse
  else
    advance 1 ;;; hcf_skip ;;;
    let* c := peek 0 in pret (c =? 34, buf).

(** The literal goes to the top of the words that are left; its address is the value. *)
Definition place_string (buf : list Z) : P unit :=
  let n := Z.of_nat (length buf) in
  let words := let w := Z.quot (n + 8) 8 in if w <? 1 then 1 else w in
  let* t := tget (fun t => t) in
  if (str_top t <? words) || (HC_IR_MEM_WORDS <? glob_used t + mem_used t + words) then refuse
  else
    let word := str_top t - words in
    on_tabs (with_strs word (strs t ++ [(word, buf ++ [0])])) ;;;
    hcf_imm (u64 (g_hc_mem + 8 * word)).

Section Recursive.
Context (parse_prim parse_expr : P unit).

Definition prim_string : P unit :=
  let* buf := forever string_part [] in
  place_string buf ;;;
  hcf_skip ;;;
  let* c := peek 0 in
  if c =? 91 then
    advance 1 ;;; parse_expr ;;; hcf_expect 93 ;;; hcf_imm 1 ;;; hcf_emit HC_MUL ;;; hcf_emit HC_ADD ;;; hcf_emit HC_LOAD8
  else pret tt.

(** ** sizeof *)

Fixpoint any_kw (l : list String.string) : P bool :=
  match l with [] => pret false | k :: l' => let* b := hcf_kw k in if (b : bool) then pret true else any_kw l' end.

Definition size_of_name : P Z :=
  let* s := ident in
  let* t := tget (fun t => t) in
  let ci := hcf_find_class t s in
  let id := hcf_lookup t s in
  if 0 <=? ci then pret (c_size (nth_class t ci))
  else if 0 <=? id then
    let v := nth_var t id in
    pret (if v_is_ptr v then 8
          else if negb (v_type v =? HC_TYPE_NONE) then c_size (nth_class t (v_type v))
          else v_stride v * v_count v)
  else refuse.

Definition prim_sizeof : P unit :=
  hcf_skip ;;;
  let* c := peek 0 in
  let need_paren := c =? 40 in
  (if need_paren then advance 1 ;;; hcf_skip else pret tt) ;;;
  let* k8 := any_kw ["I64"; "i64"; "Bool"; "bool"; "F64"; "f64"]%string in
  let* sz :=
    if k8 : bool then pret 8
    else
      let* k4 := any_kw ["U32"; "u32"]%string in
      if k4 : bool then pret 4
      else
        let* k1 := any_kw ["U8"; "u8"]%string in
        if k1 : bool then pret 1
        else
          let* k0 := any_kw ["U0"; "u0"]%string in
          if k0 : bool then pret 0
          else let* d := peek 0 in if hcf_ident_start d then size_of_name else refuse in
  (if need_paren then hcf_expect 41 else pret tt) ;;;
  hcf_imm sz.

(** ** Unary operators *)

Definition prim_addr : P unit :=
  hcf_skip ;;;
  let* c := peek 0 in
  if negb (hcf_ident_start c) then refuse
  else
    let* s := ident in
    let* t := tget (fun t => t) in
    let id := hcf_lookup t s in
    if id <? 0 then
      match hcf_find_fn t s with
      | Some fn => if negb (fn_code fn =? 0) then hcf_imm (fn_code fn) else refuse
      | None => refuse
      end
    else
      hcf_skip ;;;
      let* d := peek 0 in
      if d =? 91 then advance 1 ;;; hcf_parse_index_addr parse_expr id
      else if d =? 46 then advance 1 ;;; hcf_parse_dot_addr id ;;; pret tt
      else hcf_emit_var_addr id.

(** [*p] of a pointer variable, and [*] of anything else. *)
Definition deref_prim : P unit := parse_prim ;;; hcf_emit HC_LOAD.
Definition prim_deref : P unit :=
  hcf_skip ;;;
  let* c := peek 0 in
  if hcf_ident_start c then
    let* save := pget f_p in
    let* s := ident in
    let* t := tget (fun t => t) in
    let id := hcf_lookup t s in
    hcf_skip ;;;
    let* a := peek 0 in let* b := peek 1 in
    let v := nth_var t id in
    if (0 <=? id) && v_is_ptr v && negb (a =? 46) && negb (a =? 91) && negb ((a =? 45) && (b =? 62)) then
      hcf_ld_named id ;;; hcf_emit (sized_load (v_stride v))
    else pmod (set_p save) ;;; deref_prim
  else deref_prim.

(** ** Numbers *)

Definition frac_step (v c : Z) : Z := u64 (u64 (v * 10) + (c - 48)).
Definition prim_number : P unit :=
  let* hex := is_0x in
  if hex : bool then let* v := hex_lit in hcf_imm v
  else
    let* ds := scan is_digit in
    let v := fold_left dec_step ds 0 in
    let* c := peek 0 in
    if c =? 46 then
      advance 1 ;;;
      let* fs := scan is_digit in
      let kept := take 9 fs in
      hcf_emit_f64_dec v (fold_left frac_step kept 0) (Z.of_nat (length kept))
    else pmod (set_f64 false) ;;; hcf_imm v.

(** ** Names *)

(** One argument of a call; the counter is the number of arguments so far. *)
Definition call_arg (coerce_i64 : bool) (nargs : Z) : P (bool * Z) :=
  hcf_skip ;;;
  let* c := peek 0 in
  if c =? 41 then pret (false, nargs)
  else if c =? 44 then hcf_imm 0 ;;; pmod (set_f64 false) ;;; advance 1 ;;; pret (true, nargs + 1)
  else
    parse_expr ;;;
    let* e := pget expr_f64 in
    (if coerce_i64 && e then hcf_emit HC_F2I ;;; pmod (set_f64 false) else pret tt) ;;;
    hcf_skip ;;;
    let* d := peek 0 in
    if d =? 44 then advance 1 ;;; pret (true, nargs + 1) else pret (false, nargs + 1).

Definition call_args (coerce_i64 : bool) : P Z :=
  hcf_skip ;;;
  let* c := peek 0 in
  if c =? 41 then pret 0 else forever (call_arg coerce_i64) 0.

(** [s ( ...], behind the parenthesis. *)
Definition prim_call (s : list Z) : P unit :=
  let* nargs := call_args (existsb (fun n => is_name n s) coerced_names) in
  or_refuse (hcf_expect 41) ;;;
  if (if is_name "GrPrint" s then 9 else 7) <? nargs then refuse
  else
    require9 ;;;
    if hcf_lattice_nop0 s then
      if negb (nargs =? 0) then refuse else call_host 0 "hc_builtin_nop0" ;;; pmod (set_f64 false)
    else match find_builtin s with
         | Some b => call_builtin b nargs
         | None => call_user s nargs
         end.

(** The width and the sign of an integer view. *)
Definition view_bits (m : list Z) : option (Z * bool) :=
  if is_name "u8" m then Some (8, false) else if is_name "i8" m then Some (8, true)
  else if is_name "u16" m then Some (16, false) else if is_name "i16" m then Some (16, true)
  else if is_name "u32" m then Some (32, false) else if is_name "i32" m then Some (32, true) else None.

Definition prim_view (id bits : Z) (is_signed : bool) : P unit :=
  hcf_ld_named id ;;; parse_expr ;;; hcf_expect 93 ;;; hcf_imm bits ;;; hcf_emit HC_MUL ;;; hcf_emit HC_SHR ;;;
  hcf_imm (if bits =? 8 then 0xff else if bits =? 16 then 0xffff else 0xffffffff) ;;; hcf_emit HC_AND ;;;
  (if is_signed
   then let sign := Z.shiftl 1 (bits - 1) in hcf_imm sign ;;; hcf_emit HC_XOR ;;; hcf_imm sign ;;; hcf_emit HC_SUB
   else pret tt) ;;;
  pmod (set_f64 false).

(** The value at a member's address, or the address of an object. *)
Definition load_field (fd : field_info) : P unit :=
  if negb (fd_type fd =? HC_TYPE_NONE) then pret tt
  else hcf_emit (sized_load (fd_stride fd)) ;;; pmod (set_f64 (fd_is_f64 fd)).

(** [id.], behind the dot. *)
Definition prim_dot (id : Z) : P unit :=
  hcf_skip ;;;
  let* v := var id in
  let* c := peek 0 in
  let* save := pget f_p in
  let* view :=
    if (v_type v =? HC_TYPE_NONE) && negb (v_is_ptr v) && (v_count v <=? 1) && hcf_ident_start c then
      let* m := ident in
      hcf_skip ;;;
      let* d := peek 0 in
      pret (if d =? 91 then view_bits m else None)
    else pret None in
  match view with
  | Some (bits, is_signed) => advance 1 ;;; prim_view id bits is_signed
  | None => pmod (set_p save) ;;; let* fd := hcf_parse_dot_addr id in load_field fd
  end.

Definition prim_var (id : Z) : P unit :=
  hcf_skip ;;;
  let* a := peek 0 in let* b := peek 1 in
  let* v := var id in
  if a =? 91 then
    advance 1 ;;; hcf_parse_index_addr parse_expr id ;;; hcf_emit_load_at id ;;; pmod (set_f64 (v_is_f64 v))
  else if a =? 46 then advance 1 ;;; prim_dot id
  else if (a =? 45) && (b =? 62) then advance 2 ;;; let* fd := hcf_parse_arrow_addr id in load_field fd
  else if v_is_ptr v then hcf_ld_named id
  else if (1 <? v_count v) || negb (v_type v =? HC_TYPE_NONE) then hcf_emit_var_addr id
  else hcf_ld_named id.

Definition prim_ident : P unit :=
  let* s := ident in
  match literal_name s with
  | Some v => hcf_imm v
  | None =>
      if is_name "pi" s then imm_pi
      else
        hcf_skip ;;;
        let* c := peek 0 in
        if c =? 40 then advance 1 ;;; prim_call s
        else
          let* t := tget (fun t => t) in
          let id := hcf_lookup t s in
          if id <? 0 then prim_bare s else prim_var id
  end.

Definition hcf_parse_prim : P unit :=
  hcf_skip ;;;
  let* c := peek 0 in let* d := peek 1 in
  if c =? 0xe3 then advance 1 ;;; imm_pi
  else if (c =? 0xcf) && (d =? 0x80) then advance 2 ;;; imm_pi
  else if c =? 40 then advance 1 ;;; parse_expr ;;; hcf_expect 41
  else
    let* sz := hcf_kw "sizeof" in
    if sz : bool then prim_sizeof
    else if c =? 45 then
      advance 1 ;;; parse_prim ;;; let* e := pget expr_f64 in hcf_emit (if e : bool then HC_FNEG else HC_NEG)
    else if c =? 33 then advance 1 ;;; parse_prim ;;; hcf_imm 0 ;;; hcf_emit HC_EQ
    else if c =? 38 then advance 1 ;;; prim_addr
    else if c =? 42 then advance 1 ;;; prim_deref
    else if c =? 39 then advance 1 ;;; let* v := char_lit in hcf_imm v
    else if is_digit c then prim_number
    else if c =? 34 then prim_string
    else if hcf_ident_start c then prim_ident
    else refuse.
End Recursive.
End Prim.
