(* ===== verification/HcFrontOps.v ===== *)
(** * The HolyC front end ([src/src/hc_front.h]): operators

    The binary levels from [hcf_parse_term] to [hcf_parse_lor], assignment and the conditional
    operator of [hcf_parse_expr], and the recursion through [hcf_parse_prim]. *)

From S2P Require Import Prelude A64 HcIr HcFront HcFrontPrim.
#[local] Open Scope Z_scope.
#[local] Open Scope front_scope.

(** ** Arithmetic with promotion *)

Definition float_term (op : hc_op) : option hc_op :=
  match op with HC_MUL => Some HC_FMUL | HC_DIV => Some HC_FDIV | _ => None end.

(** The I64 side of a mixed operation becomes an F64. *)
Definition promote_side (left_f : bool) : P unit :=
  if left_f then hcf_emit HC_I2F else hcf_emit HC_SWAP ;;; hcf_emit HC_I2F ;;; hcf_emit HC_SWAP.

(** [op] on two values, the left one of type [left_f]; [fop]: its F64 form, if it has one. *)
Definition arith (op : hc_op) (fop : option hc_op) (left_f : bool) : P unit :=
  let* e := pget expr_f64 in
  if left_f && e then
    match fop with None => refuse | Some o => or_refuse (hcf_emit o) end ;;; pmod (set_f64 true)
  else if left_f || e then
    match fop with None => refuse | Some o => promote_side left_f ;;; hcf_emit o end ;;; pmod (set_f64 true)
  else hcf_emit op ;;; pmod (set_f64 false).

Section Levels.
Context (parse_prim : P unit).

Definition term_op : P (option hc_op) :=
  hcf_skip ;;;
  let* a := peek 0 in let* b := peek 1 in
  if (a =? 42) && negb (b =? 61) then advance 1 ;;; pret (Some HC_MUL)
  else if (a =? 47) && negb (b =? 61) then advance 1 ;;; pret (Some HC_DIV)
  else if (a =? 37) && negb (b =? 61) then advance 1 ;;; pret (Some HC_MOD)
  else pret None.

(** The turns of a left-associative level: an operator, the operand, the code. *)
Definition level_turn {O} (op : P (option O)) (turn : O -> P unit) (_ : unit) : P (bool * unit) :=
  let* o := op in
  match o with None => pret (false, tt) | Some o => turn o ;;; pret (true, tt) end.
Definition level {O} (operand : P unit) (op : P (option O)) (turn : O -> P unit) : P unit :=
  operand ;;; forever (level_turn op turn) tt.

Definition term_turn (op : hc_op) : P unit :=
  let* left_f := pget expr_f64 in parse_prim ;;; arith op (float_term op) left_f.
Definition hcf_parse_term : P unit := level parse_prim term_op term_turn.

Definition add_op : P (option hc_op) :=
  hcf_skip ;;;
  let* a := peek 0 in
  if a =? 43 then advance 1 ;;; pret (Some HC_ADD) else if a =? 45 then advance 1 ;;; pret (Some HC_SUB) else pret None.
Definition add_turn (op : hc_op) : P unit :=
  let* left_f := pget expr_f64 in
  hcf_parse_term ;;; arith op (Some (match op with HC_ADD => HC_FADD | _ => HC_FSUB end)) left_f.
Definition hcf_parse_add : P unit := level hcf_parse_term add_op add_turn.

(** An operator on I64s only. *)
Definition int_turn (operand : P unit) (op : hc_op) : P unit :=
  or_refuse (
    let* e := pget expr_f64 in
    if e : bool then bad
    else operand ;;; let* e := pget expr_f64 in if e : bool then bad else hcf_emit op) ;;;
  pmod (set_f64 false).

Definition two_op (c d : Z) (op : hc_op) : P (option hc_op) :=
  let* a := peek 0 in let* b := peek 1 in
  if (a =? c) && (b =? d) then advance 2 ;;; pret (Some op) else pret None.
(** [c], not doubled. *)
Definition one_op (c : Z) (op : hc_op) : P (option hc_op) :=
  hcf_skip ;;;
  let* a := peek 0 in let* b := peek 1 in
  if (a =? c) && negb (b =? c) then advance 1 ;;; pret (Some op) else pret None.

Definition shift_op : P (option hc_op) :=
  hcf_skip ;;;
  let* o := two_op 60 60 HC_SHL in
  match o with Some _ => pret o | None => two_op 62 62 HC_ASR end.
Definition hcf_parse_shift : P unit := level hcf_parse_add shift_op (int_turn hcf_parse_add).
Definition hcf_parse_band : P unit := level hcf_parse_shift (one_op 38 HC_AND) (int_turn hcf_parse_shift).

Definition bxor_op : P (option hc_op) :=
  hcf_skip ;;; let* a := peek 0 in if a =? 94 then advance 1 ;;; pret (Some HC_XOR) else pret None.
Definition hcf_parse_bxor : P unit := level hcf_parse_band bxor_op (int_turn hcf_parse_band).
Definition hcf_parse_bor : P unit := level hcf_parse_bxor (one_op 124 HC_OR) (int_turn hcf_parse_bxor).

(** ** Comparisons *)

Definition cmp_op : P (option hc_op) :=
  hcf_skip ;;;
  let* a := peek 0 in let* b := peek 1 in
  if (a =? 61) && (b =? 61) then advance 2 ;;; pret (Some HC_EQ)
  else if (a =? 33) && (b =? 61) then advance 2 ;;; pret (Some HC_NE)
  else if (a =? 60) && (b =? 61) then advance 2 ;;; pret (Some HC_LE)
  else if (a =? 62) && (b =? 61) then advance 2 ;;; pret (Some HC_GE)
  else if (a =? 60) && negb (b =? 60) then advance 1 ;;; pret (Some HC_LT)
  else if (a =? 62) && negb (b =? 62) then advance 1 ;;; pret (Some HC_GT)
  else pret None.

Definition float_cmp (op : hc_op) : option hc_op :=
  match op with
  | HC_EQ => Some HC_FEQ | HC_NE => Some HC_FNE | HC_LT => Some HC_FLT | HC_LE => Some HC_FLE
  | HC_GT => Some HC_FGT | HC_GE => Some HC_FGE | _ => None
  end.

Definition cmp_code (cmp : hc_op) (left_f : bool) : P unit :=
  let* e := pget expr_f64 in
  if left_f && e then
    match float_cmp cmp with None => refuse | Some o => hcf_emit o end ;;; pmod (set_f64 false)
  else if left_f || e then
    match float_cmp cmp with None => refuse | Some o => promote_side left_f ;;; hcf_emit o end ;;; pmod (set_f64 false)
  else pmod (set_f64 false) ;;; hcf_emit cmp.

Definition hcf_parse_cmp : P unit :=
  hcf_parse_bor ;;;
  let* o := cmp_op in
  match o with
  | None => pret tt
  | Some cmp => let* left_f := pget expr_f64 in hcf_parse_bor ;;; cmp_code cmp left_f
  end.

(** ** && and || *)

Definition new_tmp : P Z :=
  let* used := tget mem_used in
  if HC_IR_MEM_WORDS <=? used then refuse else on_tabs (with_mem (used + 1)) ;;; pret (u8 used).
Definition new_label_pair : P (Z * Z) :=
  let* a := hcf_new_label in
  let* b := hcf_new_label in
  if (a <? 0) || (b <? 0) then bad else pret (a, b).

(** [jump]: on what value of an operand the result is [!otherwise], decided. *)
Definition logic_turn (jump : hc_op) (operand : P unit) (otherwise : Z) : P unit :=
  let* tmp := new_tmp in
  let* (l_jump, l_end) := new_label_pair in
  hcf_emit_u8 jump l_jump ;;; operand ;;;
  hcf_emit_u8 jump l_jump ;;; hcf_imm otherwise ;;;
  hcf_emit_u8 HC_ST_SLOT tmp ;;; hcf_emit_u8 HC_JMP l_end ;;;
  hcf_emit_u8 HC_LABEL l_jump ;;; hcf_imm (1 - otherwise) ;;;
  hcf_emit_u8 HC_ST_SLOT tmp ;;; hcf_emit_u8 HC_LABEL l_end ;;;
  hcf_emit_u8 HC_LD_SLOT tmp.

Definition land_op : P (option unit) :=
  hcf_skip ;;; let* a := peek 0 in let* b := peek 1 in
  if (a =? 38) && (b =? 38) then advance 2 ;;; pret (Some tt) else pret None.
Definition lor_op : P (option unit) :=
  hcf_skip ;;; let* a := peek 0 in let* b := peek 1 in
  if (a =? 124) && (b =? 124) then advance 2 ;;; pret (Some tt) else pret None.

Definition hcf_parse_land : P unit := level hcf_parse_cmp land_op (fun _ => logic_turn HC_JZ hcf_parse_cmp 1).
Definition hcf_parse_lor : P unit := level hcf_parse_land lor_op (fun _ => logic_turn HC_JNZ hcf_parse_land 0).

(** ** Assignments and the conditional operator *)

Section Expr.
Context (parse_expr : P unit).

(** [id = e], behind the sign. *)
Definition assign_var (id : Z) : P unit :=
  parse_expr ;;;
  let* v := var id in
  coerce (v_is_f64 v) true ;;; hcf_emit HC_DUP ;;; hcf_st_named id.

(** [id->m = e] or [id.m = e], behind the sign, the address on the stack. *)
Definition assign_field (fd : field_info) : P unit :=
  parse_expr ;;;
  coerce (fd_is_f64 fd) true ;;;
  let* tmp := new_tmp in
  hcf_emit_u8 HC_ST_SLOT tmp ;;; hcf_emit_u8 HC_LD_SLOT tmp ;;;
  hcf_emit (sized_store (fd_stride fd)) ;;; hcf_emit_u8 HC_LD_SLOT tmp ;;;
  pmod (set_f64 (fd_is_f64 fd)).

(** [=], and not [==]. *)
Definition at_assign : P bool := let* a := peek 0 in let* b := peek 1 in pret ((a =? 61) && negb (b =? 61)).

(** The text, the bytes and the words as they were. *)
Definition restore (save : list Z) (save_n : nat) (save_mem : Z) (f : front) : front :=
  set_p save (set_err false (set_tabs (with_mem save_mem (tabs f)) (set_out (take save_n (f_bc f)) f))).

(** [id->m] or [id.m]: an assignment to the member, or [false] with everything as it was. *)
Definition try_assign_member (save : list Z) (id : Z) : P bool :=
  let* save_n := pget (fun f => length (f_bc f)) in
  let* save_mem := tget mem_used in
  let* a := peek 0 in
  let* r :=
    (if a =? 45 then advance 2 ;;; attempt (hcf_parse_arrow_addr id)
     else advance 1 ;;; attempt (hcf_parse_dot_addr id)) in
  hcf_skip ;;;
  let* eq := at_assign in
  match r with
  | Some fd =>
      if (fd_type fd =? HC_TYPE_NONE) && eq then advance 1 ;;; assign_field fd ;;; pret true
      else pmod (restore save save_n save_mem) ;;; pret false
  | None => pmod (restore save save_n save_mem) ;;; pret false
  end.

(** An assignment, or [false] with the text where it was. *)
Definition try_assign (save : list Z) : P bool :=
  let* c := peek 0 in
  if negb (hcf_ident_start c) then pret false
  else
    let* s := ident in
    let* t := tget (fun t => t) in
    let id := hcf_lookup t s in
    hcf_skip ;;;
    let* eq := at_assign in
    let* a := peek 0 in let* b := peek 1 in
    if (0 <=? id) && eq then advance 1 ;;; assign_var id ;;; pret true
    else if (0 <=? id) && (((a =? 45) && (b =? 62)) || (a =? 46)) then try_assign_member save id
    else pmod (set_p save) ;;; pret false.

(** [? a : b], behind the condition. *)
Definition conditional : P unit :=
  advance 1 ;;;
  let* tmp := new_tmp in
  let* (l_else, l_end) := new_label_pair in
  hcf_emit_u8 HC_JZ l_else ;;; parse_expr ;;;
  hcf_emit_u8 HC_ST_SLOT tmp ;;; hcf_emit_u8 HC_JMP l_end ;;;
  hcf_emit_u8 HC_LABEL l_else ;;; hcf_expect 58 ;;;
  parse_expr ;;; hcf_emit_u8 HC_ST_SLOT tmp ;;;
  hcf_emit_u8 HC_LABEL l_end ;;; hcf_emit_u8 HC_LD_SLOT tmp.

Definition expr_body : P unit :=
  hcf_skip ;;;
  let* save := pget f_p in
  let* assigned := try_assign save in
  if assigned : bool then pret tt
  else
    hcf_parse_lor ;;;
    hcf_skip ;;;
    let* c := peek 0 in
    if negb (c =? 63) then pret tt else conditional.
End Expr.
End Levels.

(** ** The recursion *)

Section Knot.
Context (host_addr : String.string -> Z) (g_hc_mem : Z).

(** The parsers for primary expressions and expressions, at most [fuel] calls deep. *)
Fixpoint parsers (fuel : nat) : P unit * P unit :=
  match fuel with
  | O => (out_of_fuel, out_of_fuel)
  | S fuel' =>
      let '(prim, expr) := parsers fuel' in
      (hcf_parse_prim host_addr g_hc_mem prim expr, expr_body prim expr)
  end.

(** Two calls for every character left are enough. *)
Definition hcf_parse_expr : P unit := fun f => snd (parsers (2 * length (f_p f) + 4)) f.
End Knot.
