(* ===== verification/HcFrontCode.v ===== *)
(** * Balanced code

    What the front end promises of the code it emits: every instruction finds its operands, the
    depth of the stack at each point does not depend on the way there, jumps go to labels of the
    same piece of code, and the labels are among those the piece allocated. *)

From S2P Require Import Prelude A64 A64Sem HcIr HcIrSem.
#[local] Open Scope Z_scope.

(** Boolean conditions in the goal, as propositions. *)
Ltac zgoal :=
  cbn [andb negb orb]; rewrite ?andb_true_iff; repeat split;
  first [reflexivity | apply Z.leb_le; lia | apply Z.ltb_lt; lia | apply Z.eqb_eq; lia].

(** Operands taken from the stack, results put on it. *)
Definition stack_use (op : hc_op) : option (Z * Z) :=
  match op with
  | HC_IMM64 | HC_LD_LOCAL | HC_SLOT_ADDR | HC_ABS_ADDR | HC_LD_SLOT | HC_LD_ABS => Some (0, 1)
  | HC_DUP => Some (1, 2)
  | HC_ADD | HC_SUB | HC_MUL | HC_DIV | HC_MOD | HC_AND | HC_OR | HC_XOR | HC_SHL | HC_SHR | HC_ASR
  | HC_EQ | HC_NE | HC_LT | HC_LE | HC_GT | HC_GE
  | HC_FADD | HC_FSUB | HC_FMUL | HC_FDIV | HC_FEQ | HC_FLT | HC_FLE | HC_FGT | HC_FGE | HC_FNE => Some (2, 1)
  | HC_NEG | HC_I2F | HC_F2I | HC_FNEG | HC_LOAD | HC_LOAD8 | HC_LOAD32 => Some (1, 1)
  | HC_SWAP => Some (2, 2)
  | HC_DROP | HC_JZ | HC_JNZ | HC_ST_LOCAL | HC_ST_SLOT | HC_ST_ABS => Some (1, 0)
  | HC_STORE | HC_STORE8 | HC_STORE32 => Some (2, 0)
  | HC_LABEL | HC_JMP | HC_INARG => Some (0, 0)
  | HC_CALL0 => Some (0, 1) | HC_CALL1 => Some (1, 1) | HC_CALL2 => Some (2, 1) | HC_CALL3 => Some (3, 1)
  | HC_CALL4 => Some (4, 1) | HC_CALL5 => Some (5, 1) | HC_CALL6 => Some (6, 1) | HC_CALL7 => Some (7, 1)
  | HC_ENTER | HC_LEAVE | HC_RET | HC_END => None
  end.

(** A return takes the last value. *)
Definition is_return (i : hinsn) : bool := bool_decide (h_op i = HC_RET).

Definition step_depth (i : hinsn) (sp : Z) : option Z :=
  match stack_use (h_op i) with
  | Some (pops, pushes) => if pops <=? sp then Some (sp - pops + pushes) else None
  | None => if is_return i && (sp =? 1) then Some 0 else None
  end.

(** The depth behind a piece of code. *)
Fixpoint walk (cs : list hinsn) (sp : Z) : option Z :=
  match cs with [] => Some sp | i :: cs' => match step_depth i sp with Some sp' => walk cs' sp' | None => None end end.

(** The depth after an instruction; 0 where the walk has failed already. *)
Definition after (i : hinsn) (sp : Z) : Z := match step_depth i sp with Some b => b | None => 0 end.

(** The label and the depth of every jump and of every label. *)
Fixpoint jumps (cs : list hinsn) (sp : Z) : list (Z * Z) :=
  match cs with
  | [] => []
  | i :: cs' => (if is_jump (h_op i) then [(h_a i, after i sp)] else []) ++ jumps cs' (after i sp)
  end.
Fixpoint labels (cs : list hinsn) (sp : Z) : list (Z * Z) :=
  match cs with
  | [] => []
  | i :: cs' => (if bool_decide (h_op i = HC_LABEL) then [(h_a i, sp)] else []) ++ labels cs' (after i sp)
  end.

(** An instruction of an expression. *)
Definition insn_ok (i : hinsn) : bool := packable i && operand_ok i && negb (is_return i).

Record code_ok (l0 l1 : Z) (cs : list hinsn) (a b : Z) : Prop := mk_code_ok {
  co_walk : walk cs a = Some b;
  co_jumps : incl (jumps cs a) (labels cs a);
  co_unique : List.NoDup (map fst (labels cs a));
  co_range : Forall (fun p => l0 <= fst p < l1) (labels cs a);
  co_insns : forallb insn_ok cs = true }.

(** ** Pieces side by side *)

Lemma walk_app cs1 cs2 a : walk (cs1 ++ cs2) a = match walk cs1 a with Some b => walk cs2 b | None => None end.
Proof. revert a. induction cs1 as [|i cs1 IH]; intros a; [reflexivity|]. cbn. destruct (step_depth i a); [apply IH | reflexivity]. Qed.

Lemma jumps_app cs1 cs2 a b : walk cs1 a = Some b -> jumps (cs1 ++ cs2) a = jumps cs1 a ++ jumps cs2 b.
Proof.
  revert a. induction cs1 as [|i cs1 IH]; intros a; cbn; [intros [= ->]; reflexivity|]. unfold after.
  destruct (step_depth i a) as [c|]; [|discriminate]. cbn. intros E. rewrite (IH c E), app_assoc. reflexivity.
Qed.

Lemma labels_app cs1 cs2 a b : walk cs1 a = Some b -> labels (cs1 ++ cs2) a = labels cs1 a ++ labels cs2 b.
Proof.
  revert a. induction cs1 as [|i cs1 IH]; intros a; cbn; [intros [= ->]; reflexivity|]. unfold after.
  destruct (step_depth i a) as [c|]; [|discriminate]. cbn. intros E. rewrite (IH c E), app_assoc. reflexivity.
Qed.

Definition deeper (k : Z) (p : Z * Z) : Z * Z := (fst p, snd p + k).

Lemma step_deeper i a b k : 0 <= k -> is_return i = false -> step_depth i a = Some b -> step_depth i (a + k) = Some (b + k).
Proof.
  unfold step_depth. intros Hk ->. destruct (stack_use (h_op i)) as [[p q]|]; [|discriminate].
  case_if; [|discriminate]. intros [= <-]. zbool. rewrite (proj2 (Z.leb_le p (a + k))) by lia. f_equal. lia.
Qed.

Lemma insn_ok_not_return i : insn_ok i = true -> is_return i = false.
Proof. unfold insn_ok. intros H. bool_hyps. assumption. Qed.

Lemma walk_deeper cs k : 0 <= k -> forallb insn_ok cs = true -> forall a b, walk cs a = Some b ->
  walk cs (a + k) = Some (b + k) /\ jumps cs (a + k) = map (deeper k) (jumps cs a) /\ labels cs (a + k) = map (deeper k) (labels cs a).
Proof.
  intros Hk. induction cs as [|i cs IH]; intros Hc a b; cbn; [intros [= ->]; auto|]. unfold after. cbn in Hc. bool_hyps.
  destruct (step_depth i a) as [c|] eqn:E; [|discriminate]. rewrite (step_deeper i a c k Hk (insn_ok_not_return i ltac:(assumption)) E). cbn. intros W.
  destruct (IH ltac:(assumption) c b W) as (P1 & P2 & P3). rewrite P1, P2, P3, !map_app. repeat split; f_equal; case_if; reflexivity.
Qed.

Lemma code_ok_nil l0 l1 a : code_ok l0 l1 [] a a.
Proof. split; cbn; try reflexivity; [intros x [] | constructor | constructor]. Qed.

Lemma code_ok_range l0 l1 l0' l1' cs a b : l0' <= l0 -> l1 <= l1' -> code_ok l0 l1 cs a b -> code_ok l0' l1' cs a b.
Proof. intros H1 H2 [P1 P2 P3 P4 P5]. split; try assumption. eapply Forall_impl; [|exact P4]. cbn. intros x Hx. lia. Qed.

Lemma code_ok_deeper l0 l1 cs a b k : 0 <= k -> code_ok l0 l1 cs a b -> code_ok l0 l1 cs (a + k) (b + k).
Proof.
  intros Hk [P1 P2 P3 P4 P5]. destruct (walk_deeper cs k Hk P5 a b P1) as (W1 & W2 & W3).
  assert (Hf : map fst (map (deeper k) (labels cs a)) = map fst (labels cs a)) by (rewrite map_map; apply map_ext; reflexivity).
  split; [exact W1 | | | | exact P5]; rewrite ?W2, ?W3, ?Hf.
  - intros x Hx. apply in_map_iff in Hx as (y & <- & Hy). apply in_map, P2, Hy.
  - exact P3.
  - apply Forall_map. exact P4.
Qed.

Lemma code_ok_app l0 l1 l2 cs1 cs2 a b c : l0 <= l1 <= l2 ->
  code_ok l0 l1 cs1 a b -> code_ok l1 l2 cs2 b c -> code_ok l0 l2 (cs1 ++ cs2) a c.
Proof.
  intros Hl [P1 P2 P3 P4 P5] [Q1 Q2 Q3 Q4 Q5].
  pose proof (labels_app cs1 cs2 a b P1) as EL. pose proof (jumps_app cs1 cs2 a b P1) as EJ.
  split; rewrite ?EL, ?EJ.
  - rewrite walk_app, P1. exact Q1.
  - intros x Hx. apply in_app_iff in Hx as [Hx|Hx]; apply in_app_iff; [left; apply P2 | right; apply Q2]; exact Hx.
  - rewrite map_app. apply List.NoDup_app; [exact P3 | exact Q3 |]. intros x Hx Hy.
    apply in_map_iff in Hx as (p & <- & Hp). apply in_map_iff in Hy as (q & Eq & Hq).
    rewrite List.Forall_forall in P4, Q4. specialize (P4 p Hp). specialize (Q4 q Hq). lia.
  - apply Forall_app. split; (eapply Forall_impl; [|eassumption]; cbn; intros; lia).
  - rewrite forallb_app, P5, Q5. reflexivity.
Qed.

(** One instruction that is neither a jump nor a label. *)
Definition is_plain (op : hc_op) : bool := negb (is_jump op) && negb (bool_decide (op = HC_LABEL)).

Lemma code_ok_one l0 l1 i a b : is_plain (h_op i) = true -> insn_ok i = true -> step_depth i a = Some b -> code_ok l0 l1 [i] a b.
Proof.
  intros Hp Hi Hs. unfold is_plain in Hp. bool_hyps.
  assert (Hj : jumps [i] a = []) by (cbn; rewrite H; reflexivity).
  assert (Hl : labels [i] a = []) by (cbn; rewrite H0; reflexivity).
  split; rewrite ?Hj, ?Hl; cbn.
  - rewrite Hs. reflexivity.
  - intros x [].
  - constructor.
  - constructor.
  - rewrite Hi. reflexivity.
Qed.

(** ** Branches

    Code that jumps forward over a piece: the labels are allocated before the piece's own. *)

Lemma code_ok_logic jump n l tmp r1 r2 cs a : jump = HC_JZ \/ jump = HC_JNZ -> 0 <= n -> n + 2 <= l -> l <= 256 ->
  0 <= tmp < 256 -> is_u 64 r1 -> is_u 64 r2 -> 0 <= a ->
  code_ok (n + 2) l cs a (a + 1) ->
  code_ok n l (mk_h jump n 0 :: cs ++
    [mk_h jump n 0; mk_h HC_IMM64 r1 0; mk_h HC_ST_SLOT tmp 0; mk_h HC_JMP (n + 1) 0; mk_h HC_LABEL n 0; mk_h HC_IMM64 r2 0;
     mk_h HC_ST_SLOT tmp 0; mk_h HC_LABEL (n + 1) 0; mk_h HC_LD_SLOT tmp 0]) (a + 1) (a + 1).
Proof.
  intros Hj Hn Hl Hl2 Ht H1 H2 Ha [P1 P2 P3 P4 P5].
  assert (Es : step_depth (mk_h jump n 0) (a + 1) = Some a).
  { unfold step_depth. cbn [h_op]. destruct Hj as [-> | ->]; cbn [stack_use]; (rewrite (proj2 (Z.leb_le 1 (a + 1))) by lia; f_equal; lia). }
  set (tail := [mk_h jump n 0; _; _; _; _; _; _; _; _]).
  assert (Wt : walk tail (a + 1) = Some (a + 1) /\ jumps tail (a + 1) = [(n, a); (n + 1, a)] /\ labels tail (a + 1) = [(n, a); (n + 1, a)]).
  { assert (E0 : forall x, step_depth (mk_h HC_IMM64 x 0) a = Some (a + 1)) by (intros x; unfold step_depth; cbn; rewrite (proj2 (Z.leb_le 0 a)) by lia; f_equal; lia).
    assert (E1 : step_depth (mk_h HC_ST_SLOT tmp 0) (a + 1) = Some a) by (unfold step_depth; cbn [h_op stack_use]; rewrite (proj2 (Z.leb_le 1 (a + 1))) by lia; f_equal; lia).
    assert (E2 : step_depth (mk_h HC_JMP (n + 1) 0) a = Some a) by (unfold step_depth; cbn [h_op stack_use]; rewrite (proj2 (Z.leb_le 0 a)) by lia; f_equal; lia).
    assert (E3 : forall x, step_depth (mk_h HC_LABEL x 0) a = Some a) by (intros x; unfold step_depth; cbn [h_op stack_use]; rewrite (proj2 (Z.leb_le 0 a)) by lia; f_equal; lia).
    assert (E4 : step_depth (mk_h HC_LD_SLOT tmp 0) a = Some (a + 1)) by (unfold step_depth; cbn [h_op stack_use]; rewrite (proj2 (Z.leb_le 0 a)) by lia; f_equal; lia).
    subst tail. cbn [walk jumps labels]. unfold after. repeat (rewrite ?Es, ?E0, ?E1, ?E2, ?E3, ?E4; cbv beta iota).
    destruct Hj as [-> | ->]; repeat split; reflexivity. }
  destruct Wt as (W1 & W2 & W3).
  assert (Hlj : is_jump jump = true /\ bool_decide (jump = HC_LABEL) = false) by (destruct Hj as [-> | ->]; auto). destruct Hlj as [Hlj Hll].
  split; cbn [walk jumps labels forallb]; unfold after; rewrite ?Es; cbn [h_op h_a]; rewrite ?Hlj, ?Hll; cbn [app];
    rewrite ?(jumps_app cs tail a (a + 1) P1), ?(labels_app cs tail a (a + 1) P1), ?W2, ?W3, ?walk_app, ?P1.
  - exact W1.
  - intros x [<-|Hx]; [apply in_app_iff; right; cbn; auto|]. apply in_app_iff in Hx as [Hx|Hx]; apply in_app_iff; [left; apply P2, Hx | right; exact Hx].
  - rewrite map_app. apply List.NoDup_app; [exact P3 | |].
    + cbn. constructor; [intros [Hy|[]]; lia|]. constructor; [intros [] | constructor].
    + intros x Hx Hy. apply in_map_iff in Hx as (p & <- & Hp). rewrite List.Forall_forall in P4. specialize (P4 p Hp).
      cbn in Hy. lia.
  - apply Forall_app. split; [eapply Forall_impl; [|exact P4]; cbn; intros; lia|]. repeat constructor; cbn; lia.
  - rewrite forallb_app, P5. unfold insn_ok, packable, operand_ok, is_u in *. subst tail. cbn [forallb h_op h_a h_b].
    destruct Hj as [-> | ->]; cbn [operands_of h_op h_a h_b]; zgoal.
Qed.

(** The depth behind a piece of code, its jumps and its labels. *)
Definition facts (cs : list hinsn) (a b : Z) (J D : list (Z * Z)) : Prop :=
  walk cs a = Some b /\ jumps cs a = J /\ labels cs a = D.

Lemma facts_code cs a b : walk cs a = Some b -> facts cs a b (jumps cs a) (labels cs a).
Proof. repeat split. exact H. Qed.

Lemma facts_app cs1 cs2 a b c J1 D1 J2 D2 :
  facts cs1 a b J1 D1 -> facts cs2 b c J2 D2 -> facts (cs1 ++ cs2) a c (J1 ++ J2) (D1 ++ D2).
Proof.
  intros (P1 & <- & <-) (Q1 & <- & <-). repeat split; [rewrite walk_app, P1; exact Q1 | apply jumps_app, P1 | apply labels_app, P1].
Qed.

Lemma facts_cons i cs a b c J D : step_depth i a = Some b -> facts cs b c J D ->
  facts (i :: cs) a c ((if is_jump (h_op i) then [(h_a i, b)] else []) ++ J)
    ((if bool_decide (h_op i = HC_LABEL) then [(h_a i, a)] else []) ++ D).
Proof. intros Hs (P1 & <- & <-). unfold facts. cbn [walk jumps labels]. unfold after. rewrite Hs. auto. Qed.

Lemma facts_conv cs a b J D J' D' : facts cs a b J D -> J = J' -> D = D' -> facts cs a b J' D'.
Proof. intros F <- <-. exact F. Qed.

Lemma facts_nil a : facts [] a a [] [].
Proof. repeat split. Qed.

Lemma step_one op x y a p q : stack_use op = Some (p, q) -> p <= a -> step_depth (mk_h op x y) a = Some (a - p + q).
Proof. intros Hu Hp. unfold step_depth. cbn [h_op]. rewrite Hu, (proj2 (Z.leb_le p a)) by lia. reflexivity. Qed.

Lemma step_to op x y a b p q : stack_use op = Some (p, q) -> p <= a -> b = a - p + q -> step_depth (mk_h op x y) a = Some b.
Proof. intros Hu Hp ->. apply step_one; assumption. Qed.

Lemma disjoint_ranges (l0 l1 l2 l3 : Z) (D1 D2 : list (Z * Z)) : l1 <= l2 ->
  Forall (fun p => l0 <= fst p < l1) D1 -> Forall (fun p => l2 <= fst p < l3) D2 ->
  forall x, In x (map fst D1) -> In x (map fst D2) -> False.
Proof.
  intros Hl H1 H2 x Hx Hy. apply in_map_iff in Hx as (p & <- & Hp), Hy as (q & Eq & Hq).
  rewrite List.Forall_forall in H1, H2. specialize (H1 p Hp). specialize (H2 q Hq). lia.
Qed.

Lemma in_range_not (l0 l1 x : Z) (D : list (Z * Z)) : Forall (fun p => l0 <= fst p < l1) D -> x < l0 \/ l1 <= x -> ~ In x (map fst D).
Proof.
  intros H1 Hx Hin. apply in_map_iff in Hin as (p & <- & Hp). rewrite List.Forall_forall in H1. specialize (H1 p Hp). lia.
Qed.

Lemma code_ok_cond n l1 l2 tmp cs1 cs2 a : 0 <= n -> n + 2 <= l1 <= l2 -> l2 <= 256 -> 0 <= tmp < 256 -> 0 <= a ->
  code_ok (n + 2) l1 cs1 a (a + 1) -> code_ok l1 l2 cs2 a (a + 1) ->
  code_ok n l2 (mk_h HC_JZ n 0 :: cs1 ++
    ([mk_h HC_ST_SLOT tmp 0; mk_h HC_JMP (n + 1) 0; mk_h HC_LABEL n 0] ++ cs2 ++
     [mk_h HC_ST_SLOT tmp 0; mk_h HC_LABEL (n + 1) 0; mk_h HC_LD_SLOT tmp 0])) (a + 1) (a + 1).
Proof.
  intros Hn Hl Hl2 Ht Ha [P1 P2 P3 P4 P5] [Q1 Q2 Q3 Q4 Q5].
  assert (Hst : forall x, step_depth (mk_h HC_ST_SLOT x 0) (a + 1) = Some a) by (intros x; eapply step_to; [reflexivity | lia | lia]).
  assert (Hlb : forall x, step_depth (mk_h HC_LABEL x 0) a = Some a) by (intros x; eapply step_to; [reflexivity | lia | lia]).
  assert (Hjm : forall x, step_depth (mk_h HC_JMP x 0) a = Some a) by (intros x; eapply step_to; [reflexivity | lia | lia]).
  assert (Hld : forall x, step_depth (mk_h HC_LD_SLOT x 0) a = Some (a + 1)) by (intros x; eapply step_to; [reflexivity | lia | lia]).
  assert (Hjz : forall x, step_depth (mk_h HC_JZ x 0) (a + 1) = Some a) by (intros x; eapply step_to; [reflexivity | lia | lia]).
  match goal with |- code_ok _ _ ?c _ _ =>
    assert (F : facts c (a + 1) (a + 1) ((n, a) :: jumps cs1 a ++ (n + 1, a) :: jumps cs2 a ++ [])
                                        (labels cs1 a ++ (n, a) :: labels cs2 a ++ [(n + 1, a)])) end.
  { eapply facts_conv.
    { eapply facts_cons; [apply Hjz|]. eapply facts_app; [apply facts_code, P1|].
    eapply facts_cons; [apply Hst|]. eapply facts_cons; [apply Hjm|]. eapply facts_cons; [apply Hlb|].
    eapply facts_app; [apply facts_code, Q1|].
    eapply facts_cons; [apply Hst|]. eapply facts_cons; [apply Hlb|]. eapply facts_cons; [apply Hld|]. apply facts_nil. }
    all: reflexivity. }
  destruct F as (F1 & F2 & F3). split; [exact F1 | | | |]; rewrite ?F2, ?F3.
  - intros x. rewrite app_nil_r. cbn [In]. rewrite !in_app_iff. cbn [In]. rewrite !in_app_iff. cbn [In].
    specialize (P2 x). specialize (Q2 x). tauto.
  - rewrite map_app. cbn [map fst]. rewrite map_app. cbn [map fst]. apply List.NoDup_app; [exact P3 | |].
    + constructor.
      * rewrite in_app_iff. intros [Hx|[Hx|[]]]; [|lia]. revert Hx. apply (in_range_not l1 l2); [exact Q4 | lia].
      * apply List.NoDup_app; [exact Q3 | repeat constructor; intros [] |].
        intros x Hx [<-|[]]. revert Hx. apply (in_range_not l1 l2); [exact Q4 | lia].
    + intros x Hx [<-|Hy]; [revert Hx; apply (in_range_not (n + 2) l1); [exact P4 | lia]|].
      apply in_app_iff in Hy as [Hy|[<-|[]]]; [exact (disjoint_ranges (n + 2) l1 l1 l2 _ _ ltac:(lia) P4 Q4 x Hx Hy)|].
      revert Hx. apply (in_range_not (n + 2) l1); [exact P4 | lia].
  - apply Forall_app. split; [eapply Forall_impl; [|exact P4]; cbn; intros; lia|]. constructor; [cbn; lia|].
    apply Forall_app. split; [eapply Forall_impl; [|exact Q4]; cbn; intros; lia|]. constructor; [cbn; lia | constructor].
  - cbn [forallb app]. rewrite !forallb_app, P5. cbn [forallb]. rewrite forallb_app, Q5. unfold insn_ok, packable, operand_ok.
    cbn [forallb operands_of h_op h_a h_b]. zgoal.
Qed.

(** ** From balanced code to a well-typed program *)

(** The depth never passes [k]. *)
Fixpoint within (k : Z) (cs : list hinsn) (sp : Z) : bool :=
  (sp <=? k) && match cs with [] => true | i :: cs' => within k cs' (after i sp) end.

Lemma effect_step i sp sp' fr : step_depth i sp = Some sp' -> 0 <= sp -> sp' <= 7 -> sp <= 7 -> effect i sp fr = Some (sp', fr).
Proof.
  destruct i as [op a b]. unfold step_depth, effect, push, pops. cbn [h_op].
  destruct op; cbn [stack_use call_argc]; try discriminate; case_if; try discriminate; intros [= <-] H0 H1 H2; zbool;
    repeat match goal with |- context [?x <=? ?y] => replace (x <=? y) with true by (symmetry; apply Z.leb_le; lia) end;
    cbn [andb]; (apply (f_equal Some), f_equal2; [lia | reflexivity]).
Qed.

Lemma shapes_walk fr cs : forall sp sp', walk cs sp = Some sp' -> 0 <= sp -> within 7 cs sp = true ->
  exists sh, shapes cs sp fr = Some sh /\ list.last sh = Some (sp', fr) /\ length sh = S (length cs) /\ sh !! 0%nat = Some (sp, fr).
Proof.
  induction cs as [|i cs IH]; intros sp sp'; cbn [walk shapes within].
  - intros [= ->] H0 H1. exists [(sp', fr)]. repeat split.
  - unfold after. destruct (step_depth i sp) as [sp1|] eqn:E; [|discriminate]. intros W H0 H1. bool_hyps. zbool.
    assert (0 <= sp1) by (unfold step_depth in E; destruct i as [op x y]; destruct op; cbn in E; try discriminate; case_if; try discriminate; zbool; injection E as <-; lia).
    assert (Hs1 : sp1 <= 7) by (destruct cs; cbn [within] in *; bool_hyps; zbool; lia).
    rewrite (effect_step i sp sp1 fr E) by lia. destruct (IH sp1 sp' W ltac:(lia)) as (sh & S1 & S2 & S3 & S4); [assumption|].
    rewrite S1. exists ((sp, fr) :: sh). split; [reflexivity|]. split; [destruct sh; [discriminate S4 | exact S2]|].
    split; [cbn; lia | reflexivity].
Qed.

Lemma shapes_step_cons fr i cs sp sp' sh : 0 <= sp <= 7 -> step_depth i sp = Some sp' -> 0 <= sp' <= 7 ->
  shapes (i :: cs) sp fr = Some sh -> exists sh', shapes cs sp' fr = Some sh' /\ sh = (sp, fr) :: sh'.
Proof.
  intros H0 E H1. cbn [shapes]. rewrite (effect_step i sp sp' fr E) by lia. destruct (shapes cs sp' fr) as [sh'|]; [|discriminate].
  intros [= <-]. eauto.
Qed.

Lemma step_nonneg i sp sp' : step_depth i sp = Some sp' -> 0 <= sp -> 0 <= sp'.
Proof.
  destruct i as [op x y]. unfold step_depth. destruct op; cbn [h_op stack_use]; try discriminate; case_if; try discriminate;
    intros [= <-] ?; zbool; lia.
Qed.

Lemma within_head k cs sp : within k cs sp = true -> sp <= k.
Proof. destruct cs; cbn [within]; intros; bool_hyps; zbool; lia. Qed.

(** Jumps and labels by their places. *)
Lemma places fr cs : forall sp sp' sh, walk cs sp = Some sp' -> 0 <= sp -> within 7 cs sp = true -> shapes cs sp fr = Some sh ->
  (forall k i, cs !! k = Some i -> is_jump (h_op i) = true -> exists d, sh !! S k = Some (d, fr) /\ In (h_a i, d) (jumps cs sp)) /\
  (forall j i, cs !! j = Some i -> h_op i = HC_LABEL -> exists d, sh !! j = Some (d, fr) /\ In (h_a i, d) (labels cs sp)) /\
  (forall id d, In (id, d) (labels cs sp) -> exists j i, cs !! j = Some i /\ h_op i = HC_LABEL /\ h_a i = id).
Proof.
  induction cs as [|i cs IH]; intros sp sp' sh; cbn [walk].
  { intros _ _ _ _. split; [intros k i E; rewrite lookup_nil in E; discriminate|].
    split; [intros k i E; rewrite lookup_nil in E; discriminate | intros id d []]. }
  destruct (step_depth i sp) as [sp1|] eqn:E; [|discriminate]. intros W H0 H1 Sh.
  pose proof (within_head _ _ _ H1). cbn [within] in H1. unfold after in H1. rewrite E in H1. bool_hyps. zbool.
  pose proof (step_nonneg _ _ _ E H0). assert (Hw : within 7 cs sp1 = true) by assumption. pose proof (within_head _ _ _ Hw).
  destruct (shapes_step_cons fr i cs sp sp1 sh ltac:(lia) E ltac:(lia) Sh) as (sh' & S' & ->).
  destruct (IH sp1 sp' sh' W ltac:(lia) Hw S') as (I1 & I2 & I3).
  assert (Hhd : sh' !! 0%nat = Some (sp1, fr)).
  { destruct cs as [|i' cs']; cbn [shapes] in S'; [injection S' as <-; reflexivity|].
    destruct (effect i' sp1 fr) as [[? ?]|]; [|discriminate]. destruct (shapes cs' _ _); [|discriminate]. injection S' as <-. reflexivity. }
  cbn [jumps labels]. unfold after. rewrite E. repeat split.
  - intros [|k] j Ej Hj; cbn in Ej.
    + injection Ej as <-. rewrite Hj. exists sp1. split; [exact Hhd | left; reflexivity].
    + destruct (I1 k j Ej Hj) as (d & D1 & D2). exists d. split; [exact D1 | apply in_app_iff; right; exact D2].
  - intros [|k] j Ej Hj; cbn in Ej.
    + injection Ej as <-. exists sp. split; [reflexivity|]. rewrite (bool_decide_eq_true_2 _ Hj). left. reflexivity.
    + destruct (I2 k j Ej Hj) as (d & D1 & D2). exists d. split; [exact D1 | apply in_app_iff; right; exact D2].
  - intros id d Hin. apply in_app_iff in Hin as [Hin|Hin].
    + destruct (bool_decide (h_op i = HC_LABEL)) eqn:Eb; [|destruct Hin]. apply bool_decide_eq_true in Eb.
      destruct Hin as [[= <- <-]|[]]. exists 0%nat, i. auto.
    + destruct (I3 id d Hin) as (j & i' & ? & ? & ?). exists (S j), i'. auto.
Qed.

Lemma in_unique (D : list (Z * Z)) id d d' : List.NoDup (map fst D) -> In (id, d) D -> In (id, d') D -> d = d'.
Proof.
  induction D as [|[x y] D IH]; intros Hn; [intros []|]. cbn in Hn. inversion Hn as [|? ? N1 N2]; subst.
  intros [[= -> ->]|H1] [E|H2].
  - injection E as ->. reflexivity.
  - destruct N1. apply (in_map fst) in H2. exact H2.
  - injection E as -> ->. destruct N1. apply (in_map fst) in H1. exact H1.
  - apply IH; assumption.
Qed.

Lemma shapes_snoc i cs : forall sp fr sh sp' fr' s2, shapes cs sp fr = Some sh -> list.last sh = Some (sp', fr') -> effect i sp' fr' = Some s2 ->
  shapes (cs ++ [i]) sp fr = Some (sh ++ [s2]).
Proof.
  induction cs as [|j cs IH]; intros sp fr sh sp' fr' [s2 f2]; cbn [shapes app].
  - intros [= <-] [= -> ->] ->. reflexivity.
  - destruct (effect j sp fr) as [[s1 f1]|]; [|discriminate]. destruct (shapes cs s1 f1) as [sh'|] eqn:E; [|discriminate].
    intros [= <-] L E2. assert (Hl : list.last sh' = Some (sp', fr')).
    { destruct sh' as [|a sh']; [|exact L]. destruct cs; cbn in E; [discriminate|]. destruct (effect _ _ _) as [[? ?]|]; [|discriminate]. destruct (shapes cs _ _); discriminate. }
    rewrite (IH s1 f1 sh' sp' fr' (s2, f2) E Hl E2). reflexivity.
Qed.

Definition RET : hinsn := mk_h HC_RET 0 0.

(** Neither a jump nor a label. *)
Definition is_straight (i : hinsn) : bool := is_plain (h_op i).

Lemma straight_label l id : forallb is_straight l = true -> label_pc l id = None.
Proof.
  induction l as [|i l IH]; intros Hl; [reflexivity|]. cbn in Hl. bool_hyps. unfold label_pc in *. cbn [list_find].
  unfold is_straight, is_plain in *. bool_hyps. assert (E : is_label id i = false).
  { unfold is_label. match goal with E : bool_decide _ = false |- _ => rewrite E end. reflexivity. }
  rewrite E. rewrite decide_False by congruence. specialize (IH ltac:(assumption)). destruct (list_find _ l) as [[]|]; [discriminate | reflexivity].
Qed.

Lemma label_pc_skip pre cs id j : forallb is_straight pre = true -> label_pc cs id = Some j -> label_pc (pre ++ cs) id = Some (length pre + j)%nat.
Proof.
  intros Hp Hj. apply straight_label with (id := id) in Hp. unfold label_pc in *. rewrite list_find_app_r.
  - destruct (list_find _ cs) as [[k i]|]; [|discriminate]. injection Hj as ->. cbn. f_equal. lia.
  - destruct (list_find _ pre) as [[]|]; [discriminate | reflexivity].
Qed.

Lemma label_pc_front cs post id j : label_pc cs id = Some j -> label_pc (cs ++ post) id = Some j.
Proof.
  unfold label_pc. destruct (list_find _ cs) as [[k i]|] eqn:E; [|discriminate]. intros [= ->].
  rewrite (list_find_app_l _ _ _ j i E). reflexivity.
Qed.

(** The jumps of balanced code land at the depth they leave with, straight code before and behind. *)
Lemma jumps_land fr pre cs post b shpre sh shpost :
  walk cs 0 = Some b -> incl (jumps cs 0) (labels cs 0) -> List.NoDup (map fst (labels cs 0)) -> within 7 cs 0 = true ->
  shapes cs 0 fr = Some sh -> length shpre = length pre -> forallb is_straight pre = true -> forallb is_straight post = true ->
  forallb (jump_ok (pre ++ cs ++ post) (shpre ++ sh ++ shpost)) (seq 0 (length (pre ++ cs ++ post))) = true.
Proof.
  intros P1 P2 P3 Hw S1 Hl Hpre Hpost. destruct (places fr cs 0 b sh P1 ltac:(lia) Hw S1) as (J1 & J2 & J3).
  apply forallb_forall. intros k _. unfold jump_ok.
  destruct ((pre ++ cs ++ post) !! k) as [i|] eqn:Ei; [|reflexivity].
  destruct ((shpre ++ sh ++ shpost) !! S k) as [s|] eqn:Es; [|reflexivity]. destruct (is_jump (h_op i)) eqn:Ej; [|reflexivity].
  assert (Hs : forall l, forallb is_straight l = true -> i ∈ l -> False).
  { intros l Hf Hin. rewrite forallb_forall in Hf. apply list_elem_of_In, Hf in Hin. unfold is_straight, is_plain in Hin. rewrite Ej in Hin. discriminate Hin. }
  apply lookup_app_Some in Ei as [Ei|[Hge Ei]]; [destruct (Hs _ Hpre (list_elem_of_lookup_2 _ _ _ Ei))|].
  apply lookup_app_Some in Ei as [Ei|[_ Ei]]; [|destruct (Hs _ Hpost (list_elem_of_lookup_2 _ _ _ Ei))].
  destruct (J1 _ i Ei Ej) as (d & D1 & D2).
  rewrite lookup_app_r in Es by lia. replace (S k - length shpre)%nat with (S (k - length pre)) in Es by lia.
  rewrite lookup_app_l in Es by (apply lookup_lt_Some in D1; exact D1). rewrite D1 in Es. injection Es as <-.
  pose proof (P2 _ D2) as Hin. destruct (J3 _ _ Hin) as (j & lb & L1 & L2 & L3).
  destruct (list_find_elem_of (fun x => is_label (h_a i) x = true) cs lb) as [[j' lb'] Hf].
  { apply list_elem_of_lookup. eauto. }
  { unfold is_label. rewrite L3, Z.eqb_refl, (bool_decide_eq_true_2 _ L2). reflexivity. }
  assert (Hpc : label_pc cs (h_a i) = Some j') by (unfold label_pc; rewrite Hf; reflexivity).
  rewrite (label_pc_skip pre (cs ++ post) _ j' Hpre (label_pc_front cs post _ j' Hpc)).
  apply list_find_Some in Hf as (F1 & F2 & _). unfold is_label in F2. bool_hyps. zbool. apply bool_decide_eq_true in H.
  destruct (J2 j' lb' F1 H) as (d' & D3 & D4). rewrite H0 in D4.
  apply bool_decide_eq_true_2. rewrite lookup_app_r by lia. replace (length pre + j' - length shpre)%nat with j' by lia.
  rewrite lookup_app_l by (apply lookup_lt_Some in D3; exact D3). rewrite D3, (in_unique _ _ _ _ P3 Hin D4). reflexivity.
Qed.

Lemma insn_operands cs : forallb insn_ok cs = true -> forallb operand_ok cs = true.
Proof. rewrite !forallb_forall. intros Hf i Hi. specialize (Hf i Hi). unfold insn_ok in Hf. bool_hyps. assumption. Qed.

Lemma insn_packable cs : forallb insn_ok cs = true -> forallb packable cs = true.
Proof. rewrite !forallb_forall. intros Hf i Hi. specialize (Hf i Hi). unfold insn_ok in Hf. bool_hyps. assumption. Qed.

(** Balanced code that stays within the seven registers is a well-typed function body. *)
Lemma balanced_typed l0 l1 cs b : code_ok l0 l1 cs 0 b -> within 7 cs 0 = true -> well_typed (cs ++ [RET]) = true.
Proof.
  intros [P1 P2 P3 P4 P5] Hw. destruct (shapes_walk false cs 0 b P1 ltac:(lia) Hw) as (sh & S1 & S2 & S3 & S4).
  unfold well_typed. rewrite (shapes_snoc RET cs 0 false sh b false (0, false) S1 S2 eq_refl).
  rewrite forallb_app, (insn_operands _ P5), andb_true_r.
  exact (jumps_land false [] cs [RET] b [] sh [(0, false)] P1 P2 P3 Hw S1 eq_refl eq_refl eq_refl).
Qed.

(** So is balanced code in a frame. *)
Lemma framed_typed n cs b : walk cs 0 = Some b -> incl (jumps cs 0) (labels cs 0) -> List.NoDup (map fst (labels cs 0)) ->
  forallb operand_ok cs = true -> within 7 cs 0 = true -> 0 <= n < 256 -> well_typed (mk_h HC_ENTER n 0 :: cs) = true.
Proof.
  intros P1 P2 P3 P5 Hw Hn. destruct (shapes_walk true cs 0 b P1 ltac:(lia) Hw) as (sh & S1 & S2 & S3 & S4).
  unfold well_typed. cbn [shapes effect h_op]. rewrite S1. apply andb_true_iff. split.
  - pose proof (jumps_land true [mk_h HC_ENTER n 0] cs [] b [(0, false)] sh [] P1 P2 P3 Hw S1 eq_refl eq_refl eq_refl) as Hj.
    rewrite !app_nil_r in Hj. exact Hj.
  - cbn [forallb]. rewrite P5. unfold operand_ok. cbn [h_op h_a h_b]. zgoal.
Qed.
