(* ===== verification/HcFrontSpec.v ===== *)
(** * The HolyC front end: what a run of a parser promises

    [at_depth f0 a b f]: the run that started in [f0] has come to [f] within its bounds, reading
    on and emitting balanced code from depth [a] to [b].  [post f0 Q]: a run that is refused
    leaves the bounds intact, a run that returns ends in [Q], and there is fuel enough.  The
    lemmas of this file execute the parsers of [HcFront] on such states. *)

From S2P Require Import Prelude A64 A64Sem HcIr HcIrSem HcFront HcFrontCode.
#[local] Open Scope Z_scope.

(** ** Bounds *)

Record var_ok (v : hc_var) : Prop := mk_var_ok { vo_base : is_u 8 (v_base v); vo_stride : is_u 8 (v_stride v); vo_count : is_u 8 (v_count v) }.
Definition member_ok (m : hc_member) : Prop := is_u 64 (mb_off m).
Definition class_ok (c : hc_class) : Prop := is_u 64 (c_size c) /\ Forall member_ok (c_mem c).

(** A string lies in the words of [g_hc_mem]. *)
Definition str_ok (s : Z * list Z) : Prop := 0 <= fst s /\ 8 * fst s + Z.of_nat (length (snd s)) <= 8 * HC_IR_MEM_WORDS.

Record tabs_ok (t : tables) : Prop := mk_tabs_ok {
  to_label : 0 <= next_label t <= HC_IR_MAX_LABELS;
  to_mem : 0 <= mem_used t <= HC_IR_MEM_WORDS;
  to_str : 0 <= str_top t <= HC_IR_MEM_WORDS;
  to_strs : Forall str_ok (strs t);
  to_vars : Forall var_ok (vars t);
  to_fns : Forall (fun f => is_u 64 (fn_code f)) (fns t);
  to_classes : Forall class_ok (classes t) }.

(** Emitted bytes may pass the buffer's end by one call instruction, and no more. *)
Definition inv (f : front) : Prop :=
  0 <= f_cap f /\ Z.of_nat (length (f_bc f)) <= f_cap f + 9 /\ tabs_ok (tabs f).

(** Parsing an expression declares nothing. *)
Record tabs_ext (t t' : tables) : Prop := mk_tabs_ext {
  te_label : next_label t <= next_label t';
  te_vars : vars t' = vars t; te_fns : fns t' = fns t; te_classes : classes t' = classes t;
  te_enums : enums t' = enums t; te_glabs : glabs t' = glabs t; te_glob : glob_used t' = glob_used t;
  te_brk : brk_tgt t' = brk_tgt t; te_cont : cont_tgt t' = cont_tgt t }.

(** The buffer is not full: a call instruction may still be written without a test. *)
Definition room (f : front) : Prop := Z.of_nat (length (f_bc f)) <= f_cap f.

Definition safe (f0 f : front) : Prop :=
  inv f /\ (f_cap f = f_cap f0 /\ tabs_ext (tabs f0) (tabs f)) /\ (length (f_p f) <= length (f_p f0))%nat /\ f_bc f0 `prefix_of` f_bc f.

Definition wrote (f0 f : front) (cs : list hinsn) : Prop := f_bc f = f_bc f0 ++ concat (map pack_insn cs).

Definition at_depth (f0 : front) (a b : Z) (f : front) : Prop :=
  safe f0 f /\ exists cs, wrote f0 f cs /\ code_ok (next_label (tabs f0)) (next_label (tabs f)) cs a b.

Definition post {A} (f0 : front) (Q : A -> front -> Prop) (r : result A * front) : Prop :=
  match r with (Done a, f) => Q a f | (Bad, f) => safe f0 f | (Wild, _) | (NoFuel, _) => False end.

(** A parser that turns depth [a] into depth [b], for texts of less than [n] characters. *)
Definition parses {A} (n : nat) (m : P A) (a b : Z) : Prop :=
  forall f, inv f -> (length (f_p f) < n)%nat -> post f (fun _ f' => at_depth f a b f') (m f).

(** ** Rules *)

Lemma tabs_ext_refl t : tabs_ext t t.
Proof. split; try reflexivity; lia. Qed.
Lemma tabs_ext_trans t t' t'' : tabs_ext t t' -> tabs_ext t' t'' -> tabs_ext t t''.
Proof. intros [P1 P2 P3 P4 P5 P6 P7 P8 P9] [Q1 Q2 Q3 Q4 Q5 Q6 Q7 Q8 Q9]. split; congruence || lia. Qed.

Lemma safe_refl f : inv f -> safe f f.
Proof. intros Hi. split; [exact Hi|]. split; [split; [reflexivity | apply tabs_ext_refl]|]. split; [lia | reflexivity]. Qed.
Lemma safe_trans f f1 f2 : safe f f1 -> safe f1 f2 -> safe f f2.
Proof.
  intros (P1 & (P2 & P3) & P4 & P5) (Q1 & (Q2 & Q3) & Q4 & Q5). split; [exact Q1|].
  split; [split; [congruence | eapply tabs_ext_trans; eassumption]|]. split; [lia | etransitivity; eassumption].
Qed.

Lemma at_start a f : inv f -> at_depth f a a f.
Proof. intros Hi. split; [apply safe_refl, Hi|]. exists []. split; [symmetry; apply app_nil_r | apply code_ok_nil]. Qed.

Lemma at_safe f0 a b f : at_depth f0 a b f -> safe f0 f.
Proof. intros [H _]. exact H. Qed.
Lemma at_inv f0 a b f : at_depth f0 a b f -> inv f.
Proof. intros [[H _] _]. exact H. Qed.
Lemma at_len f0 a b f : at_depth f0 a b f -> (length (f_p f) <= length (f_p f0))%nat.
Proof. intros [(_ & _ & H & _) _]. exact H. Qed.

(** Code at a greater depth, behind the code so far. *)
Lemma at_join f0 f f' a b c d : at_depth f0 a b f -> at_depth f c d f' -> c <= b -> at_depth f0 a (b - c + d) f'.
Proof.
  intros [S1 (cs1 & W1 & C1)] [S2 (cs2 & W2 & C2)] Hc. split; [eapply safe_trans; eassumption|]. exists (cs1 ++ cs2).
  unfold wrote in *. split; [rewrite W2, W1, map_app, concat_app, app_assoc; reflexivity|].
  destruct S1 as (_ & (_ & [L1 _ _ _ _ _ _ _ _]) & _), S2 as (_ & (_ & [L2 _ _ _ _ _ _ _ _]) & _).
  eapply code_ok_app; [|exact C1|]; [lia|].
  replace b with (c + (b - c)) at 1 by lia. replace (b - c + d) with (d + (b - c)) by lia. apply code_ok_deeper; [lia | exact C2].
Qed.

Lemma post_bind {A B} f0 (Q : B -> front -> Prop) (m : P A) (k : A -> P B) f :
  post f0 (fun a f' => post f0 Q (k a f')) (m f) -> post f0 Q (pbind m k f).
Proof. unfold pbind. destruct (m f) as [[a| | |] f']; cbn; auto. Qed.

Lemma post_mono {A} f0 (Q Q' : A -> front -> Prop) r : (forall a f, Q a f -> Q' a f) -> post f0 Q r -> post f0 Q' r.
Proof. destruct r as [[a| | |] f]; cbn; auto. Qed.

(** A run that started later. *)
Lemma post_from {A} f0 f1 (Q : A -> front -> Prop) r : safe f0 f1 -> post f1 Q r -> post f0 Q r.
Proof. intros Hs. destruct r as [[a| | |] f]; cbn; auto. intros Hb. eapply safe_trans; eassumption. Qed.

Lemma post_parses {A} n (m : P A) c d f0 a b f (Q : A -> front -> Prop) :
  parses n m c d -> at_depth f0 a b f -> (length (f_p f) < n)%nat -> c <= b ->
  (forall x f', at_depth f0 a (b - c + d) f' -> (length (f_p f') <= length (f_p f))%nat -> Q x f') -> post f0 Q (m f).
Proof.
  intros Hm Ha Hn Hc HQ. eapply post_from; [eapply at_safe, Ha|]. eapply post_mono; [|apply Hm; [eapply at_inv, Ha | exact Hn]].
  cbn. intros x f' Hf. apply HQ; [eapply at_join; eassumption | eapply at_len, Hf].
Qed.

Lemma post_refuse {A} f0 f (Q : A -> front -> Prop) : safe f0 f -> post f0 Q (refuse f).
Proof. intros Hs. exact Hs. Qed.
Lemma post_bad {A} f0 f (Q : A -> front -> Prop) : safe f0 f -> post f0 Q (bad f).
Proof. intros Hs. exact Hs. Qed.

Lemma post_or_refuse {A} f0 (Q : A -> front -> Prop) m f : post f0 Q (m f) -> post f0 Q (or_refuse m f).
Proof. unfold or_refuse. destruct (m f) as [[x| | |] f']; cbn; auto. Qed.

(** The text only changes. *)
Lemma at_text f0 a b f p : at_depth f0 a b f -> (length p <= length (f_p f0))%nat -> at_depth f0 a b (set_p p f).
Proof. intros [(S1 & S2 & S3 & S4) C] Hp. split; [|exact C]. split; [exact S1|]. split; [exact S2|]. split; [exact Hp | exact S4]. Qed.

Lemma at_text_shorter f0 a b f p : at_depth f0 a b f -> (length p <= length (f_p f))%nat -> at_depth f0 a b (set_p p f).
Proof. intros Ha Hp. apply at_text; [exact Ha|]. pose proof (at_len _ _ _ _ Ha). lia. Qed.

(** A label is allocated. *)
Lemma tabs_label_ok t : tabs_ok t -> next_label t < HC_IR_MAX_LABELS -> tabs_ok (with_label (next_label t + 1) t).
Proof. intros [] Hl. destruct t. split; cbn in *; try assumption; lia. Qed.

Lemma at_tabs f0 a b f : at_depth f0 a b f -> tabs_ok (tabs f).
Proof. intros [[(_ & _ & H) _] _]. exact H. Qed.

Lemma at_set_tabs f0 a b f t : at_depth f0 a b f -> tabs_ok t -> tabs_ext (tabs f) t -> at_depth f0 a b (set_tabs t f).
Proof.
  intros [((S1 & S2 & _) & (S4 & S5) & S6) (cs & W & C)] Ht He.
  split; [split; [split; [exact S1 | split; [exact S2 | exact Ht]]|]; split; [split; [exact S4 | eapply tabs_ext_trans; eassumption] | exact S6]|].
  exists cs. split; [exact W|]. destruct He as [L1 _ _ _ _ _ _ _ _]. eapply code_ok_range; [| |exact C]; cbn; lia.
Qed.

Lemma tabs_mem_ok t m : tabs_ok t -> 0 <= m <= HC_IR_MEM_WORDS -> tabs_ok (with_mem m t).
Proof. intros [] Hm. destruct t. split; cbn in *; assumption. Qed.
Lemma tabs_mem_ext t m : tabs_ext t (with_mem m t).
Proof. destruct t. split; reflexivity. Qed.
Lemma tabs_strs_ok t w l : tabs_ok t -> 0 <= w <= HC_IR_MEM_WORDS -> Forall str_ok l -> tabs_ok (with_strs w l t).
Proof. intros [] Hw Hl. destruct t. split; cbn in *; assumption. Qed.
Lemma tabs_strs_ext t w l : tabs_ext t (with_strs w l t).
Proof. destruct t. split; reflexivity. Qed.

Lemma post_mem f0 a b f m (Q : unit -> front -> Prop) : at_depth f0 a b f -> (0 <= m (tabs f) <= HC_IR_MEM_WORDS) ->
  (forall f', at_depth f0 a b f' -> f_p f' = f_p f -> (room f -> room f') -> Q tt f') ->
  post f0 Q (on_tabs (fun t => with_mem (m t) t) f).
Proof.
  intros A Hm HQ. cbn [post on_tabs pmod]. apply HQ; [|reflexivity | auto].
  apply at_set_tabs; [exact A | apply tabs_mem_ok; [eapply at_tabs, A | exact Hm] | apply tabs_mem_ext].
Qed.

(** Loops: every turn that goes on reads on. *)
Lemma post_forever {A} f0 (I : A -> front -> Prop) (Q : A -> front -> Prop) body :
  (forall x f, I x f -> post f0 (fun r f' => if (fst r : bool) then I (snd r) f' /\ (length (f_p f') < length (f_p f))%nat else Q (snd r) f') (body x f)) ->
  forall x f, I x f -> post f0 Q (forever body x f).
Proof.
  intros Hb. assert (Hn : forall n x f, I x f -> (length (f_p f) < n)%nat -> post f0 Q (turns n body x f)).
  { induction n as [|n IH]; intros x f Hi Hn; [lia|]. cbn [turns]. apply post_bind. eapply post_mono; [|apply Hb, Hi].
    intros [[] y] f'; cbn; [intros [Hi' Hl]; apply IH; [exact Hi' | lia] | auto]. }
  intros x f Hi. apply Hn; [exact Hi | lia].
Qed.

(** ** Emission *)

Lemma safe_out f0 f bytes : safe f0 f -> Z.of_nat (length (f_bc f ++ bytes)) <= f_cap f + 9 -> safe f0 (set_out (f_bc f ++ bytes) f).
Proof.
  intros ((S1 & _ & S2) & S3 & S4 & S5) Hl. split; [split; [exact S1|]; split; [exact Hl | exact S2]|]. split; [exact S3|].
  split; [exact S4 | etransitivity; [exact S5 | apply prefix_app_r; reflexivity]].
Qed.

Lemma post_emit_bytes f0 f n bytes (Q : unit -> front -> Prop) : safe f0 f -> Z.of_nat (length bytes) <= n ->
  (forall f', safe f0 f' -> f_bc f' = f_bc f ++ bytes -> f_p f' = f_p f -> tabs f' = tabs f -> room f' -> Q tt f') ->
  post f0 Q (emit_bytes n bytes f).
Proof.
  intros Hs Hn HQ. unfold emit_bytes. case_if; [exact Hs|]. zbool. cbn [post].
  assert (Hr : room (set_out (f_bc f ++ bytes) f)) by (unfold room; cbn; rewrite length_app; lia).
  apply HQ; try reflexivity; [|exact Hr]. apply safe_out; [exact Hs|]. unfold room in Hr. cbn in Hr. lia.
Qed.

Lemma at_emitted f0 a b f f' i b' : at_depth f0 a b f -> safe f0 f' -> f_bc f' = f_bc f ++ pack_insn i -> tabs f' = tabs f ->
  is_plain (h_op i) = true -> insn_ok i = true -> step_depth i b = Some b' -> at_depth f0 a b' f'.
Proof.
  intros [S1 (cs & W & C)] S2 Eb Et Hp Hi Hd. split; [exact S2|]. exists (cs ++ [i]). unfold wrote in *.
  split; [rewrite Eb, W, map_app, concat_app; cbn; rewrite app_nil_r, app_assoc; reflexivity|]. rewrite Et.
  eapply code_ok_app; [|exact C | apply code_ok_one; assumption]. destruct S1 as (_ & (_ & [L1 _ _ _ _ _ _ _ _]) & _). lia.
Qed.

Lemma post_emit f0 a b f op p q (Q : unit -> front -> Prop) : at_depth f0 a b f ->
  operands_of op = Op0 -> is_plain op = true -> stack_use op = Some (p, q) -> p <= b ->
  (forall f', at_depth f0 a (b - p + q) f' -> f_p f' = f_p f -> tabs f' = tabs f -> room f' -> Q tt f') -> post f0 Q (hcf_emit op f).
Proof.
  intros Ha Ho Hp Hu Hb HQ. apply post_emit_bytes; [eapply at_safe, Ha | cbn; lia|]. intros f' S1 S2 S3 S4 S5. apply HQ; [|assumption..].
  eapply at_emitted with (i := mk_h op 0 0); try eassumption; cbn [h_op].
  - rewrite S2. f_equal. destruct op; try discriminate Ho; reflexivity.
  - unfold insn_ok, packable, operand_ok. cbn [h_op h_a h_b]. rewrite Ho. destruct op; try discriminate Ho; try discriminate Hu; reflexivity.
  - apply step_one; assumption.
Qed.

Lemma post_emit_u8 f0 a b f op x p q (Q : unit -> front -> Prop) : at_depth f0 a b f ->
  operands_of op = OpByte -> is_plain op = true -> stack_use op = Some (p, q) -> op <> HC_ST_LOCAL -> op <> HC_LD_LOCAL -> p <= b -> 0 <= x < 256 ->
  (forall f', at_depth f0 a (b - p + q) f' -> f_p f' = f_p f -> tabs f' = tabs f -> room f' -> Q tt f') -> post f0 Q (hcf_emit_u8 op x f).
Proof.
  intros Ha Ho Hp Hu N1 N2 Hb Hx HQ. apply post_emit_bytes; [eapply at_safe, Ha | cbn; lia|]. intros f' S1 S2 S3 S4 S5. apply HQ; [|assumption..].
  rewrite u8_id in S2 by exact Hx.
  eapply at_emitted with (i := mk_h op x 0); try eassumption; cbn [h_op].
  - rewrite S2. f_equal. destruct op; try discriminate Ho; reflexivity.
  - unfold insn_ok, packable, operand_ok. cbn [h_op h_a h_b]. rewrite Ho. destruct op; try discriminate Ho; try congruence; zgoal.
  - apply step_one; assumption.
Qed.

Lemma post_imm f0 a b f v (Q : unit -> front -> Prop) : at_depth f0 a b f -> 0 <= b -> is_u 64 v ->
  (forall f', at_depth f0 a (b + 1) f' -> f_p f' = f_p f -> tabs f' = tabs f -> room f' -> Q tt f') -> post f0 Q (hcf_imm v f).
Proof.
  intros Ha Hb Hv HQ. apply post_bind, post_emit_bytes; [eapply at_safe, Ha | cbn; lia|]. intros f' S1 S2 S3 S4 S5. cbn [post pmod].
  assert (A' : at_depth f0 a (b + 1) f').
  { eapply at_emitted with (i := mk_h HC_IMM64 v 0); try eassumption; [reflexivity | unfold insn_ok, packable, operand_ok; cbn [operands_of h_op h_a h_b]; unfold is_u in Hv; zgoal |].
    rewrite (step_one HC_IMM64 v 0 b 0 1) by (reflexivity || lia). f_equal. lia. }
  apply HQ; [exact A' | exact S3 | exact S4 | exact S5].
Qed.

Lemma post_require9 f0 a b f (Q : unit -> front -> Prop) : at_depth f0 a b f ->
  (forall f', at_depth f0 a b f' -> f_p f' = f_p f -> tabs f' = tabs f -> room f' -> Q tt f') -> post f0 Q (require9 f).
Proof.
  intros Ha HQ. apply post_emit_bytes; [eapply at_safe, Ha | cbn; lia|]. intros f' S1 S2 S3 S4 S5. apply HQ; [|assumption..].
  rewrite app_nil_r in S2. destruct Ha as [_ (cs & W & C)]. split; [exact S1|]. exists cs. unfold wrote in *. rewrite S2, S4. auto.
Qed.

(** A call instruction written without a test, when the buffer is not full yet. *)
Lemma post_raw f0 a b f i p q (Q : unit -> front -> Prop) : at_depth f0 a b f -> room f -> (length (pack_insn i) <= 9)%nat ->
  is_plain (h_op i) = true -> insn_ok i = true -> stack_use (h_op i) = Some (p, q) -> p <= b ->
  (forall f', at_depth f0 a (b - p + q) f' -> f_p f' = f_p f -> Q tt f') -> post f0 Q (raw (pack_insn i) f).
Proof.
  intros Ha Hr Hl Hp Hi Hu Hb HQ. cbn [post raw pmod]. apply HQ; [|reflexivity].
  eapply at_emitted with (i := i); try eassumption; try reflexivity.
  - apply safe_out; [eapply at_safe, Ha|]. unfold room in Hr. rewrite length_app. lia.
  - destruct i as [op x y]. apply step_one; assumption.
Qed.

(** ** Reading the text *)

Lemma skip_spaces_le l : (length (skip_spaces l) <= length l)%nat.
Proof. induction l as [|c l IH]; cbn; [lia|]. case_if; cbn; lia. Qed.
Lemma skip_line_le l : (length (skip_line l) <= length l)%nat.
Proof. induction l as [|c l IH]; cbn; [lia|]. case_if; cbn; lia. Qed.
Lemma skip_comment_le l : (length (skip_comment l) <= length l)%nat.
Proof. induction l as [|c l IH]; [cbn; lia|]. cbn [skip_comment]. repeat case_if; rewrite ?length_drop; cbn [length] in *; lia. Qed.

Lemma skip_from_le n : forall l, (length (skip_from n l) <= length l)%nat.
Proof.
  induction n as [|n IH]; intros l; cbn [skip_from]; [lia|]. pose proof (skip_spaces_le l) as H1. set (s := skip_spaces l) in *.
  case_if; [specialize (IH (skip_line s)); pose proof (skip_line_le s); lia|].
  case_if; [|lia]. specialize (IH (skip_comment (drop 2 s))). pose proof (skip_comment_le (drop 2 s)). rewrite length_drop in *. lia.
Qed.
Lemma skip_le l : (length (skip l) <= length l)%nat.
Proof. apply skip_from_le. Qed.

(** After [skip] there is nothing to skip. *)
Definition at_token (l : list Z) : Prop :=
  skip_spaces l = l /\ (nth 0 l 0 =? 47) && (nth 1 l 0 =? 47) = false /\ (nth 0 l 0 =? 47) && (nth 1 l 0 =? 42) = false.

Lemma skip_spaces_done l : skip_spaces (skip_spaces l) = skip_spaces l.
Proof. induction l as [|c l IH]; [reflexivity|]. cbn. destruct (is_space c) eqn:E; [exact IH|]. cbn. rewrite E. reflexivity. Qed.

Lemma skip_from_token n : forall l, (length l < n)%nat -> at_token (skip_from n l).
Proof.
  induction n as [|n IH]; intros l Hl; [lia|]. cbn [skip_from]. pose proof (skip_spaces_le l) as H1. pose proof (skip_spaces_done l) as H2.
  set (s := skip_spaces l) in *. case_if; [|case_if; [|repeat split; assumption]]; apply IH; bool_hyps; zbool.
  - destruct s as [|c s]; cbn [nth] in *; [discriminate|]. subst c. cbn. pose proof (skip_line_le s). cbn in H1. lia.
  - pose proof (skip_comment_le (drop 2 s)) as H3. rewrite length_drop in H3. destruct s; cbn [nth length] in *; [discriminate | lia].
Qed.
Lemma skip_idem l : skip (skip l) = skip l.
Proof.
  unfold skip at 1. destruct (skip_from_token (S (length l)) l ltac:(lia)) as (H1 & H2 & H3). fold (skip l) in *.
  cbn [skip_from]. rewrite H1, H2, H3. reflexivity.
Qed.

Lemma span_le test l : (length (snd (span test l)) <= length l)%nat.
Proof. induction l as [|c l IH]; cbn; [lia|]. case_if; cbn; [|lia]. destruct (span test l). cbn in *. lia. Qed.

Lemma span_all test l : Forall (fun c => test c = true) (fst (span test l)).
Proof. induction l as [|c l IH]; cbn; [constructor|]. case_if; [|constructor]. destruct (span test l). constructor; assumption. Qed.

Lemma strip_le kw : forall l r, strip kw l = Some r -> (length r <= length l)%nat.
Proof.
  induction kw as [|k kw IH]; intros l r; cbn; [intros [= ->]; lia|]. destruct l as [|c l]; [discriminate|].
  case_if; [|discriminate]. intros E. apply IH in E. cbn. lia.
Qed.

Lemma peek_some l i : nth i l 0 <> 0 -> (i < length l)%nat.
Proof. intros H. destruct (Nat.lt_ge_cases i (length l)); [assumption|]. rewrite nth_overflow in H by lia. lia. Qed.

Section Reading.
Context (f0 : front) (a b : Z) (f : front) (A : at_depth f0 a b f).

Lemma post_text (Q : unit -> front -> Prop) p : (length p <= length (f_p f0))%nat ->
  (forall f', at_depth f0 a b f' -> f_p f' = p -> tabs f' = tabs f -> f_bc f' = f_bc f -> Q tt f') -> post f0 Q (pmod (set_p p) f).
Proof using A. intros Hp HQ. cbn [post pmod]. apply HQ; try reflexivity. apply at_text; assumption. Qed.

Lemma post_skip (Q : unit -> front -> Prop) :
  (forall f', at_depth f0 a b f' -> f_p f' = skip (f_p f) -> tabs f' = tabs f -> (length (f_p f') <= length (f_p f))%nat -> Q tt f') ->
  post f0 Q (hcf_skip f).
Proof using A. intros HQ. cbn [post hcf_skip pmod]. apply HQ; try reflexivity; [|apply skip_le]. apply at_text_shorter; [assumption | apply skip_le]. Qed.

Lemma post_advance (Q : unit -> front -> Prop) k : nth 0 (f_p f) 0 <> 0 -> (0 < k)%nat ->
  (forall f', at_depth f0 a b f' -> f_p f' = drop k (f_p f) -> tabs f' = tabs f -> (length (f_p f') < length (f_p f))%nat -> Q tt f') ->
  post f0 Q (advance k f).
Proof using A.
  intros Hc Hk HQ. apply peek_some in Hc. cbn [post advance pmod]. apply HQ; try reflexivity; [|cbn [set_p f_p]; rewrite length_drop; lia].
  apply at_text_shorter; [assumption | rewrite length_drop; lia].
Qed.

Lemma post_scan test (Q : list Z -> front -> Prop) :
  (forall s f', at_depth f0 a b f' -> tabs f' = tabs f -> (length (f_p f') <= length (f_p f))%nat ->
     s = fst (span test (f_p f)) -> f_p f' = snd (span test (f_p f)) -> Q s f') ->
  post f0 Q (scan test f).
Proof using A.
  intros HQ. unfold scan. pose proof (span_le test (f_p f)). destruct (span test (f_p f)) as [s r]. cbn [post fst snd] in *.
  apply HQ; try reflexivity; [|assumption]. apply at_text_shorter; assumption.
Qed.

Lemma post_expect c (Q : unit -> front -> Prop) : c <> 0 ->
  (forall f', at_depth f0 a b f' -> tabs f' = tabs f -> f_bc f' = f_bc f -> (length (f_p f') < length (f_p f))%nat -> Q tt f') -> post f0 Q (hcf_expect c f).
Proof using A.
  intros Hc HQ. unfold hcf_expect. apply post_bind. cbn [post hcf_skip pmod]. apply post_bind. cbn [post peek pget set_p f_p].
  pose proof (skip_le (f_p f)) as Hs. destruct (nth 0 (skip (f_p f)) 0 =? c) eqn:E; zbool.
  - assert (Hl : (0 < length (skip (f_p f)))%nat) by (apply peek_some; lia). cbn [post advance pmod set_p f_p].
    apply HQ; [|reflexivity | reflexivity | cbn [set_p f_p]; rewrite length_drop; lia]. apply at_text_shorter; [apply at_text_shorter; assumption | cbn [set_p f_p]; rewrite length_drop; lia].
  - apply post_refuse. eapply at_safe. apply at_text_shorter; eassumption.
Qed.

Lemma post_kw kw (Q : bool -> front -> Prop) :
  (forall r f', at_depth f0 a b f' -> tabs f' = tabs f -> (length (f_p f') <= length (f_p f))%nat ->
     (r = false -> f_p f' = skip (f_p f)) -> Q r f') -> post f0 Q (hcf_kw kw f).
Proof using A.
  intros HQ. unfold hcf_kw. apply post_bind. cbn [post hcf_skip pmod]. apply post_bind. cbn [post pget set_p f_p].
  pose proof (skip_le (f_p f)) as Hs. assert (A1 : at_depth f0 a b (set_p (skip (f_p f)) f)) by (apply at_text_shorter; assumption).
  destruct (strip (S_ kw) (skip (f_p f))) as [r|] eqn:E; [|apply HQ; auto].
  case_if; [apply HQ; auto|]. apply strip_le in E. cbn [post pbind pmod pret set_p f_p].
  apply HQ; [apply at_text_shorter; [exact A1 | cbn [set_p f_p]; lia] | reflexivity | cbn [set_p f_p]; lia | discriminate].
Qed.

Lemma post_f64 x (Q : unit -> front -> Prop) :
  (forall f', at_depth f0 a b f' -> f_p f' = f_p f -> tabs f' = tabs f -> f_bc f' = f_bc f -> f_cap f' = f_cap f -> expr_f64 f' = x -> Q tt f') ->
  post f0 Q (pmod (set_f64 x) f).
Proof using A. intros HQ. cbn [post pmod]. apply HQ; try reflexivity. exact A. Qed.
End Reading.

(** ** Tables *)

Lemma nth_ok {A} (R : A -> Prop) l i d : Forall R l -> R d -> R (nth i l d).
Proof.
  intros Hl Hd. revert i. induction Hl as [|x l Hx Hl IH]; intros [|i]; cbn; auto.
Qed.

Lemma nth_var_ok t i : tabs_ok t -> var_ok (nth_var t i).
Proof. intros [_ _ _ _ H _ _]. unfold nth_var. apply nth_ok; [exact H|]. split; split; cbn; lia. Qed.
Lemma nth_class_ok t i : tabs_ok t -> class_ok (nth_class t i).
Proof. intros [_ _ _ _ _ _ H]. unfold nth_class. apply nth_ok; [exact H|]. split; [split; cbn; lia | constructor]. Qed.
Lemma find_fn_ok t s fn : tabs_ok t -> hcf_find_fn t s = Some fn -> is_u 64 (fn_code fn).
Proof. intros [_ _ _ _ _ H _] E. apply find_some in E as [E _]. rewrite List.Forall_forall in H. apply H, E. Qed.

Lemma u8_u64 x : is_u 8 x -> is_u 64 x.
Proof. unfold is_u. change (2 ^ 8) with 256. change (2 ^ 64) with 18446744073709551616. lia. Qed.
Lemma u64_is_u x : is_u 64 (u64 x).
Proof. apply wrap_range. lia. Qed.

Lemma mb_off_ok f0 a b f ci i : at_depth f0 a b f ->
  is_u 64 (mb_off (nth i (c_mem (nth_class (tabs f) ci)) (mk_member [] 0 0 0 false))).
Proof.
  intros A. destruct (nth_class_ok (tabs f) ci (at_tabs _ _ _ _ A)) as [_ Hm]. apply (nth_ok member_ok); [exact Hm|]. split; cbn; lia.
Qed.

Create HintDb front.
#[export] Hint Resolve u8_u64 : front.

Lemma post_is_0x f0 (R : bool -> front -> Prop) f : (forall x, (x = true -> nth 0 (f_p f) 0 = 48) -> R x f) -> post f0 R (is_0x f).
Proof. intros HR. cbn [post is_0x pbind peek pget pret]. apply HR. intros E. bool_hyps. zbool. assumption. Qed.

(** ** The tactic

    [pstep] executes one action at the state [f] of the hypothesis [at_depth _ _ _ f]. *)

(** A character that a test has found is not the end of the text. *)
Ltac peeked :=
  let HN := fresh in intros HN; bool_hyps;
  repeat match goal with H : f_p ?x = f_p ?y |- _ => rewrite H in HN end;
  match goal with E : _ = true |- _ => rewrite HN in E; discriminate E | E : _ = false |- _ => rewrite HN in E; discriminate E end.
Ltac at_lia :=
  match goal with H : at_depth ?f0 ?a ?b ?f |- at_depth ?f0 ?a ?c ?f => replace c with b by lia; exact H end.

(** Lengths of texts. *)
Ltac text_lia :=
  repeat match goal with H : f_p _ = _ |- _ => apply (f_equal (@length Z)) in H; rewrite ?length_drop in H end; lia.

(** The text of the state in the goal is not longer than at the start. *)
Ltac text_len := match goal with A : at_depth ?f0 _ _ _ |- (_ <= length (f_p ?f0))%nat => pose proof (at_len _ _ _ _ A); text_lia end.

(** The bounds of what the tables hold. *)
Ltac in_bounds :=
  match goal with
  | A : at_depth _ _ _ ?f |- context [nth_var (tabs ?f) ?i] =>
      pose proof (nth_var_ok (tabs f) i (at_tabs _ _ _ _ A)) as [? ? ?]; solve [assumption | apply u8_u64; assumption]
  | A : at_depth _ _ _ ?f |- is_u 64 (mb_off (nth _ (c_mem (nth_class (tabs ?f) _)) _)) => apply (mb_off_ok _ _ _ _ _ _ A)
  | |- is_u 64 (u64 _) => apply wrap_range; lia
  | |- 0 <= u8 _ < 256 => apply (wrap_range 8); lia
  | |- is_u 64 _ => assumption
  | |- is_u 64 _ => unfold is_u; change (2 ^ 64) with 18446744073709551616; lia
  | |- _ => lia
  end.

(** A parser whose promise is known. *)
Ltac pcall := eapply post_parses; [solve [eauto with front] | eassumption | first [apply Nat.lt_succ_diag_r | text_lia] | lia |]; intros ? ? ? ?.

Ltac pstep :=
  lazymatch goal with
  | |- post _ _ (pbind _ _ _) => apply post_bind
  | |- post _ _ (pret _ _) => cbn [post pret]
  | |- post _ _ (peek _ _) => cbn [post peek pget]
  | |- post _ _ (pget _ _) => cbn [post pget]
  | |- post _ _ (tget _ _) => cbn [post tget pget id]
  | |- post _ _ (var _ _) => cbn [post var tget pget id]
  | |- post _ _ (refuse _) => apply post_refuse; eapply at_safe; eassumption
  | |- post _ _ (bad _) => apply post_bad; eapply at_safe; eassumption
  | |- post _ _ (or_refuse _ _) => apply post_or_refuse
  | |- post _ _ (is_0x _) => apply post_is_0x; intros ? ?
  | |- post _ _ (hcf_skip _) => eapply post_skip; [eassumption|]; intros ? ? ? ? ?
  | |- post _ _ (ident _) => eapply post_scan; [eassumption|]; intros ? ? ? ? ? ? ?
  | |- post _ _ (scan _ _) => eapply post_scan; [eassumption|]; intros ? ? ? ? ? ? ?
  | |- post _ _ (advance _ _) => eapply post_advance; [eassumption | first [peeked | idtac] | lia | intros ? ? ? ? ?]
  | |- post _ _ (hcf_expect _ _) => eapply post_expect; [eassumption | lia |]; intros ? ? ? ? ?
  | |- post _ _ (hcf_kw _ _) => eapply post_kw; [eassumption|]; intros ? ? ? ? ? ?
  | |- post _ _ (pmod (set_f64 _) _) => eapply post_f64; [eassumption|]; intros ? ? ? ? ? ? ?
  | |- post _ _ (pmod (set_p _) _) => eapply post_text; [eassumption | try solve [text_lia | text_len] | intros ? ? ? ? ?]
  | |- post _ _ (require9 _) => eapply post_require9; [eassumption|]; intros ? ? ? ? ?
  | |- post _ _ (hcf_emit (if ?b then _ else _) _) => destruct b eqn:?
  | |- post _ _ (hcf_emit _ _) =>
      first [eapply post_emit; [eassumption | reflexivity | reflexivity | reflexivity | lia |]; intros ? ? ? ? ? | pcall]
  | |- post _ _ (hcf_emit_u8 (if ?b then _ else _) _ _) => destruct b eqn:?
  | |- post _ _ (hcf_emit_u8 _ _ _) =>
      eapply post_emit_u8; [eassumption | reflexivity | reflexivity | reflexivity | discriminate | discriminate | lia | try in_bounds | intros ? ? ? ? ?]
  | |- post _ _ (hcf_imm _ _) => eapply post_imm; [eassumption | lia | try in_bounds | intros ? ? ? ? ?]
  | |- post _ _ ((if ?b then _ else _) _) => destruct b eqn:?
  | |- post _ _ ((let _ := _ in _) _) => cbv zeta
  | |- post _ _ (_ _) =>
      pcall
  end.

(** The end of a parser: the depth the goal asks for. *)
Ltac pdone := cbn [post]; match goal with H : at_depth ?f0 ?a ?b ?f |- at_depth ?f0 ?a ?c ?f => replace c with b by lia; exact H end.
(** Whole parsers. *)
Ltac parser := repeat pstep; try pdone.
(** [parses n m c d] as a run from a state. *)
Ltac enter := let f := fresh "f" in let Hi := fresh "Hi" in let Hn := fresh "Hn" in
  intros f Hi Hn;
  match goal with |- post _ (fun _ f' => at_depth _ ?a _ f') _ => pose proof (at_start a f Hi) end.

(** A literal of 64 bits. *)
Ltac lit := unfold is_u; change (2 ^ 64) with 18446744073709551616; try lia.

(** ** Literals *)

Lemma hex_value_ok c : is_hex c = true -> 0 <= hex_value c < 16.
Proof.
  intros Hc. unfold is_hex, hex_value in *. destruct (is_digit c) eqn:E1; [unfold is_digit in E1; bool_hyps; zbool; lia|].
  destruct ((97 <=? c) && (c <=? 102)) eqn:E2; [bool_hyps; zbool; lia|]. cbn [orb] in Hc. bool_hyps. zbool. lia.
Qed.

Lemma hex_step_ok v c : is_hex c = true -> is_u 64 (hex_step v c).
Proof.
  intros Hc. pose proof (hex_value_ok c Hc) as Hx. unfold hex_step. apply is_u_of_bits; [lia | |].
  - apply Z.lor_nonneg. pose proof (u64_range (Z.shiftl v 4)). lia.
  - intros i Hi. rewrite Z.lor_spec, (testbit_above 64 (u64 _) i) by (try apply wrap_range; lia).
    rewrite (testbit_above 4 (hex_value c) i) by (unfold is_u; lia). reflexivity.
Qed.

Lemma fold_u64 (step : Z -> Z -> Z) ds : Forall (fun c => forall v, is_u 64 (step v c)) ds -> forall v, is_u 64 v -> is_u 64 (fold_left step ds v).
Proof. induction 1 as [|c ds Hc Hds IH]; intros v Hv; cbn; [exact Hv | apply IH, Hc]. Qed.


Lemma dec_value_ok ds : is_u 64 (fold_left dec_step ds 0).
Proof. apply fold_u64; [|lit]. apply Forall_forall. intros c _ v. apply u64_is_u. Qed.
Lemma frac_value_ok ds : is_u 64 (fold_left (fun v c => u64 (u64 (v * 10) + (c - 48))) ds 0).
Proof. apply dec_value_ok. Qed.

Section Literals.
Context (f0 : front) (a b : Z) (Q : Z -> front -> Prop).

(** What a literal promises: a 64-bit value, and text read. *)
Definition literal_at (f : front) : Prop :=
  forall v f', at_depth f0 a b f' -> tabs f' = tabs f -> (length (f_p f') <= length (f_p f))%nat -> is_u 64 v -> Q v f'.

Lemma post_char_lit f : at_depth f0 a b f -> literal_at f -> post f0 Q (char_lit f).
Proof.
  intros A HQ. unfold char_lit. repeat pstep. all: try (apply HQ; [assumption | congruence | lia | apply u8_u64, wrap_range; lia]).
Qed.

Lemma post_hex_lit f : at_depth f0 a b f -> nth 0 (f_p f) 0 <> 0 -> literal_at f -> post f0 Q (hex_lit f).
Proof.
  intros A Hc HQ. unfold hex_lit. pstep. eapply post_advance; [eassumption | exact Hc | lia | intros f' A' E1 E2 E3].
  pose proof (span_all is_hex (f_p f')) as Hall. repeat pstep.
  match goal with E : _ = fst _ |- _ => rewrite <- E in Hall end. apply HQ; [assumption | congruence | lia|]. apply fold_u64; [|lit]. eapply Forall_impl; [|exact Hall]. intros x Hx v. apply hex_step_ok, Hx.
Qed.
End Literals.

Lemma post_int_lit f0 a b n : forall f (Q : Z -> front -> Prop), at_depth f0 a b f -> (length (f_p f) <= n)%nat ->
  literal_at f0 a b Q f -> post f0 Q (int_lit n f).
Proof.
  induction n as [|n IH]; intros f Q A Hn HQ; cbn [int_lit]; repeat pstep;
    try (eapply post_char_lit; [eassumption|]; intros v g ? ? ? ?; apply HQ; [assumption | congruence | lia | assumption]);
    try (eapply post_hex_lit; [eassumption | peeked|]; intros v g ? ? ? ?; apply HQ; [assumption | congruence | lia | assumption]);
    try (apply HQ; [assumption | congruence | lia | subst; apply dec_value_ok]).
  - exfalso. match goal with E : (nth 0 (f_p ?g) 0 =? 45) = true |- _ => assert (Hp : (0 < length (f_p g))%nat) by (apply peek_some; peeked) end. lia.
  - eapply IH; [eassumption | lia|]. intros v g ? ? ? ?. repeat pstep. apply HQ; [assumption | congruence | lia | apply u64_is_u].
Qed.
