(* ===== verification/HcFrontRun.v ===== *)
(** * The HolyC front end: every parser of expressions keeps its promise

    First the parsers below [hcf_parse_prim] that call no other parser of expressions: each turns a
    depth of the stack into another.  Then the primary expressions and the operators. *)

From S2P Require Import Prelude A64 A64Sem HcIr HcIrSem HcFront HcFrontPrim HcFrontCode HcFrontSpec.
#[local] Open Scope Z_scope.

(** ** Variables and members *)

Lemma var_addr_parses n id : parses n (hcf_emit_var_addr id) 0 1.
Proof. enter. unfold hcf_emit_var_addr. parser. Qed.
Lemma var_ld_parses n id : parses n (hcf_emit_var_ld id) 0 1.
Proof. enter. unfold hcf_emit_var_ld. parser. Qed.
Lemma var_st_parses n id : parses n (hcf_emit_var_st id) 1 0.
Proof. enter. unfold hcf_emit_var_st. parser. Qed.
#[export] Hint Resolve var_addr_parses var_ld_parses var_st_parses : front.

Lemma trunc32_parses n : parses n hcf_trunc32 1 1.
Proof. enter. unfold hcf_trunc32. parser. Qed.
#[export] Hint Resolve trunc32_parses : front.

Lemma ld_named_parses n id : parses n (hcf_ld_named id) 0 1.
Proof. enter. unfold hcf_ld_named. parser. Qed.
Lemma st_named_parses n id : parses n (hcf_st_named id) 1 0.
Proof. enter. unfold hcf_st_named. parser. Qed.
#[export] Hint Resolve ld_named_parses st_named_parses : front.

Lemma sized_load_parses n s : parses n (hcf_emit (sized_load s)) 1 1.
Proof. enter. unfold sized_load. repeat case_if; parser. Qed.
Lemma sized_store_parses n s : parses n (hcf_emit (sized_store s)) 2 0.
Proof. enter. unfold sized_store. repeat case_if; parser. Qed.
Lemma load_at_parses n id : parses n (hcf_emit_load_at id) 1 1.
Proof. enter. unfold hcf_emit_load_at, sized_load. repeat pstep; repeat case_if; parser. Qed.
#[export] Hint Resolve sized_load_parses sized_store_parses load_at_parses : front.

Lemma members_parses n ci : parses n (hcf_parse_members_from ci) 1 1.
Proof.
  enter. unfold hcf_parse_members_from. apply post_bind.
  apply (post_forever f (fun _ g => at_depth f 1 1 g)); [|exact H].
  clear H. intros [cur fd] g A. unfold member_step. repeat pstep; cbn [fst snd pret post]; first [split; [pdone | text_lia] | pdone].
Qed.
#[export] Hint Resolve members_parses : front.

Lemma dot_addr_parses n id : parses n (hcf_parse_dot_addr id) 0 1.
Proof. enter. unfold hcf_parse_dot_addr. parser. Qed.
Lemma arrow_addr_parses n id : parses n (hcf_parse_arrow_addr id) 0 1.
Proof. enter. unfold hcf_parse_arrow_addr. parser. Qed.
#[export] Hint Resolve dot_addr_parses arrow_addr_parses : front.

(** ** Numbers *)

Lemma pow10u_ok k : is_u 64 (hcf_pow10u k).
Proof.
  unfold hcf_pow10u. set (e := Z.min (Z.max k 0) 9). assert (He : 0 <= e <= 9) by lia.
  pose proof (Z.pow_le_mono_r 10 e 9 ltac:(lia) ltac:(lia)). change (10 ^ 9) with 1000000000 in *.
  pose proof (Z.pow_nonneg 10 e ltac:(lia)). unfold is_u. change (2 ^ 64) with 18446744073709551616. lia.
Qed.

Lemma f64_dec_parses n ip frac k : is_u 64 ip -> is_u 64 frac -> parses n (hcf_emit_f64_dec ip frac k) 0 1.
Proof. intros H1 H2. enter. unfold hcf_emit_f64_dec. parser. apply pow10u_ok. Qed.

(** ** Calls *)

(** The instruction of a call of [n] arguments. *)
Definition call_insn (n addr : Z) : hinsn :=
  mk_h (if n =? 0 then HC_CALL0 else if n =? 1 then HC_CALL1 else if n =? 2 then HC_CALL2 else if n =? 3 then HC_CALL3
        else if n =? 4 then HC_CALL4 else if n =? 5 then HC_CALL5 else if n =? 6 then HC_CALL6 else HC_CALL7) addr 0.

Lemma call_insn_facts n addr : 0 <= n <= 7 -> is_u 64 addr ->
  pack_insn (call_insn n addr) = hc_pack_call n addr /\ stack_use (h_op (call_insn n addr)) = Some (n, 1) /\
  is_plain (h_op (call_insn n addr)) = true /\ insn_ok (call_insn n addr) = true.
Proof.
  intros Hn Ha. assert (Hc : n = 0 \/ n = 1 \/ n = 2 \/ n = 3 \/ n = 4 \/ n = 5 \/ n = 6 \/ n = 7) by lia.
  unfold is_u in Ha. change (2 ^ 64) with 18446744073709551616 in Ha.
  repeat destruct Hc as [->|Hc]; try subst n; repeat split; unfold insn_ok, packable, operand_ok, call_insn; cbn; zgoal.
Qed.

Lemma post_call f0 a b f n addr (Q : unit -> front -> Prop) : at_depth f0 a b f -> room f -> 0 <= n <= 7 -> n <= b -> is_u 64 addr ->
  (forall f', at_depth f0 a (b - n + 1) f' -> f_p f' = f_p f -> Q tt f') -> post f0 Q (raw (hc_pack_call n addr) f).
Proof.
  intros A Hr Hn Hb Ha HQ. destruct (call_insn_facts n addr Hn Ha) as (E1 & E2 & E3 & E4). rewrite <- E1.
  eapply post_raw; try eassumption. rewrite E1. unfold hc_pack_call. repeat case_if; reflexivity.
Qed.

(** A call of [n] arguments that are on the stack, the buffer not full. *)
Ltac cstep := first [pstep |
  match goal with
  | |- post _ _ (raw (hc_pack_call _ _) _) =>
      eapply post_call; [eassumption | assumption | lia | lia | solve [auto] | intros ? ? ?]
  | |- post _ _ (call_host _ _ _ _) => unfold call_host, call_addr
  | |- post _ _ (call_addr _ _ _) => unfold call_addr
  end].
Ltac caller := repeat cstep; try pdone.

Definition rule_ok (r : Z * String.string) : bool := (0 <=? fst r) && (fst r <=? 7).
Definition builtin_ok (b : builtin) : bool := match b with Call rules p _ => forallb rule_ok rules && match p with Keep => true | _ => forallb (fun r => 1 <=? fst r) rules end | _ => true end.

Lemma builtins_rules : forallb (fun p => builtin_ok (snd p)) builtins = true.
Proof. vm_compute. reflexivity. Qed.

Lemma find_builtin_ok s b : find_builtin s = Some b -> builtin_ok b = true.
Proof.
  unfold find_builtin. destruct (find _ builtins) as [[k b']|] eqn:E; [|discriminate]. intros [= <-]. apply find_some in E as [E _].
  pose proof builtins_rules as Hr. rewrite forallb_forall in Hr. exact (Hr _ E).
Qed.

Section Calls.
Context (host_addr : String.string -> Z) (g_hc_mem : Z) (host_ok : forall n, is_u 64 (host_addr n)).

Lemma post_spill f0 a base k : forall b f (Q : unit -> front -> Prop), at_depth f0 a b f -> room f -> Z.of_nat k <= b ->
  (forall f', at_depth f0 a (b - Z.of_nat k) f' -> f_p f' = f_p f -> room f' -> Q tt f') -> post f0 Q (spill k base f).
Proof.
  induction k as [|k IH]; intros b f Q A Hr Hb HQ; cbn [spill].
  - apply HQ; [|reflexivity | exact Hr]. pdone.
  - repeat pstep. eapply IH; [eassumption | assumption | lia|]. intros g Ag Eg Rg. apply HQ; [pdone | congruence | exact Rg].
Qed.

Lemma post_grprint f0 a b f n (Q : unit -> front -> Prop) : at_depth f0 a b f -> room f -> 0 <= n <= b ->
  (forall f', at_depth f0 a (b - n + 1) f' -> f_p f' = f_p f -> Q tt f') -> post f0 Q (grprint host_addr n f).
Proof.
  intros A Hr Hn HQ. unfold grprint. repeat cstep; bool_hyps; zbool.
  - apply HQ; [pdone | congruence].
  - eapply post_mem; [eassumption | pose proof (to_mem _ (at_tabs _ _ _ _ A)); lia | intros g Ag Eg Rg]. pstep.
    eapply post_spill; [eassumption | auto | lia | intros h Ah Eh Rh]. repeat cstep. apply HQ; [pdone | congruence].
Qed.

Lemma post_pad f0 a k : forall b f (Q : unit -> front -> Prop), at_depth f0 a b f -> 0 <= b -> room f ->
  (forall f', at_depth f0 a (b + Z.of_nat k) f' -> f_p f' = f_p f -> room f' -> Q tt f') -> post f0 Q (pad_args k f).
Proof.
  induction k as [|k IH]; intros b f Q A Hb Hr HQ; cbn [pad_args].
  - apply HQ; [pdone | reflexivity | exact Hr].
  - repeat pstep. eapply IH; [eassumption | lia | assumption |]. intros g Ag Eg Rg. apply HQ; [pdone | congruence | exact Rg].
Qed.

Lemma post_strprint f0 a b f n (Q : unit -> front -> Prop) : at_depth f0 a b f -> room f -> 0 <= n <= b ->
  (forall f', at_depth f0 a (b - n + 1) f' -> f_p f' = f_p f -> Q tt f') -> post f0 Q (strprint host_addr n f).
Proof.
  intros A Hr Hn HQ. unfold strprint. repeat cstep; bool_hyps; zbool.
  eapply post_pad; [eassumption | lia | assumption | intros g Ag Eg Rg]. repeat cstep. apply HQ; [pdone | congruence].
Qed.

Lemma post_promote f0 a b f p (Q : unit -> front -> Prop) : at_depth f0 a b f -> room f -> 1 <= b \/ p = Keep ->
  (forall f', at_depth f0 a b f' -> f_p f' = f_p f -> room f' -> Q tt f') -> post f0 Q (promote p f).
Proof.
  intros A Hr Hb HQ. unfold promote. repeat pstep. destruct p; repeat pstep; try (apply HQ; [assumption | reflexivity | assumption]);
    destruct Hb as [Hb|[=]]; repeat pstep; (apply HQ; [pdone | congruence | assumption]).
Qed.

Lemma post_call_builtin f0 a b f bi n (Q : unit -> front -> Prop) : at_depth f0 a b f -> room f -> 0 <= n <= b -> builtin_ok bi = true ->
  (forall f', at_depth f0 a (b - n + 1) f' -> f_p f' = f_p f -> Q tt f') -> post f0 Q (call_builtin host_addr bi n f).
Proof.
  intros A Hr Hn Hb HQ. destruct bi as [| | | |rules p res]; cbn [call_builtin].
  - repeat pstep; bool_hyps; zbool. subst n. eapply post_promote; [eassumption..|lia|intros ? ? ? ?]. repeat pstep. apply HQ; [pdone | congruence].
  - repeat pstep; bool_hyps; zbool. subst n. eapply post_promote; [eassumption..|lia|intros ? ? ? ?]. repeat pstep. apply HQ; [pdone | congruence].
  - eapply post_grprint; eassumption.
  - eapply post_strprint; eassumption.
  - destruct (find _ rules) as [[k fn]|] eqn:E; [|repeat pstep]. apply find_some in E as [E Ek]. cbn [fst] in Ek. zbool. subst k.
    cbn [builtin_ok] in Hb. bool_hyps. assert (Hk : 0 <= n <= 7 /\ (1 <= n \/ p = Keep)).
    { rewrite !forallb_forall in *. match goal with F : forall x, In x rules -> rule_ok x = true |- _ => specialize (F _ E); unfold rule_ok in F end.
      cbn [fst] in *. bool_hyps. zbool. split; [lia|]. destruct p; [auto | |];
        match goal with F : forallb _ rules = true |- _ => rewrite forallb_forall in F; specialize (F _ E); cbn [fst] in F; zbool; auto end. }
    destruct Hk as [Hk Hp]. pstep. eapply post_promote; [eassumption..| destruct Hp; [left; lia | auto] |intros ? ? ? ?].
    destruct res; repeat cstep; (apply HQ; [pdone | congruence]).
Qed.

Lemma post_call_user f0 a b f s n (Q : unit -> front -> Prop) : at_depth f0 a b f -> room f -> 0 <= n <= b ->
  (forall f', at_depth f0 a (b - n + 1) f' -> f_p f' = f_p f -> Q tt f') -> post f0 Q (call_user s n f).
Proof.
  intros A Hr Hn HQ. unfold call_user. do 2 pstep. destruct (hcf_find_fn (tabs f) s) as [fn|] eqn:E; [|repeat pstep].
  pose proof (find_fn_ok _ _ _ (at_tabs _ _ _ _ A) E). repeat cstep; bool_hyps; zbool. apply HQ; [pdone | congruence].
Qed.

(** ** Names that are not called *)

Lemma imm_pi_parses n : parses n imm_pi 0 1.
Proof. enter. unfold imm_pi, PI_BITS. parser. Qed.

Lemma bare_call_parses n fn : parses n (bare_call host_addr fn) 0 1.
Proof. enter. unfold bare_call. caller. Qed.

Lemma fs_parses n : parses n (prim_fs host_addr) 0 1.
Proof.
  enter. unfold prim_fs. caller. destruct (fs_addr _); caller. apply host_ok.
Qed.
#[local] Hint Resolve imm_pi_parses bare_call_parses fs_parses : front.

Definition const_ok (p : String.string * Z) : bool := (0 <=? snd p) && (snd p <? 4294967296).
Lemma lookup_const_ok l s v : forallb const_ok l = true -> lookup_const l s = Some v -> is_u 64 v.
Proof.
  unfold lookup_const. intros Hl. destruct (find _ l) as [p|] eqn:E; [|discriminate]. intros [= <-]. apply find_some in E as [E _].
  rewrite forallb_forall in Hl. specialize (Hl _ E). unfold const_ok in Hl. bool_hyps. zbool.
  unfold is_u. change (2 ^ 64) with 18446744073709551616. lia.
Qed.

Lemma is_bare_fn_ok t s fn : tabs_ok t -> is_bare_fn (hcf_find_fn t s) = Some fn -> is_u 64 (fn_code fn).
Proof.
  intros Ht. unfold is_bare_fn. destruct (hcf_find_fn t s) as [g|] eqn:E; [|discriminate]. case_if; [|discriminate]. intros [= <-].
  eapply find_fn_ok; eassumption.
Qed.

Lemma bare_parses n s : parses n (prim_bare host_addr s) 0 1.
Proof.
  enter. unfold prim_bare. repeat pstep; [pdone|]. destruct (is_bare_fn _) as [fn|] eqn:E.
  - apply is_bare_fn_ok in E; [|eapply at_tabs; eassumption]. caller.
  - caller. destruct (lookup_const color_consts s) as [v|] eqn:E1; [|destruct (lookup_const message_consts s) as [v|] eqn:E2; [|destruct (lookup_const win_consts s) as [v|] eqn:E3]];
      caller; (eapply lookup_const_ok; [|eassumption]; reflexivity).
Qed.
End Calls.
#[export] Hint Resolve imm_pi_parses bare_call_parses fs_parses bare_parses : front.

(** ** The HolyC front end: primary expressions keep their promise

    [hcf_parse_prim] puts one value on the stack, if the parsers it calls do so on shorter texts. *)

(** ** Strings *)

Lemma string_chars_le fuel : forall l buf, (length (fst (string_chars fuel l buf)) <= length l)%nat.
Proof.
  induction fuel as [|fuel IH]; intros [|c l] buf; cbn [string_chars]; try (cbn; lia). repeat case_if; cbn [fst length]; try lia.
  - specialize (IH (drop 1 l) (buf ++ [escape (nth 0 l 0)])). rewrite length_drop in IH. lia.
  - specialize (IH l (buf ++ [c])). lia.
Qed.

Lemma post_string_part f0 a b f buf (Q : bool * list Z -> front -> Prop) : at_depth f0 a b f -> nth 0 (f_p f) 0 = 34 ->
  (forall r g, at_depth f0 a b g -> (length (f_p g) < length (f_p f))%nat -> (fst r = true -> nth 0 (f_p g) 0 = 34) -> Q r g) ->
  post f0 Q (string_part buf f).
Proof.
  intros A Hq HQ. unfold string_part. pstep. eapply post_advance; [eassumption | lia | lia | intros g Ag Eg Tg Lg]. do 2 pstep.
  pose proof (string_chars_le (length (f_p g)) (f_p g) buf) as Hs. destruct (string_chars _ _ _) as [rest buf']. cbn [fst] in Hs.
  repeat pstep. apply HQ; [assumption | text_lia | cbn [fst]; intros; zbool; assumption].
Qed.

Section Strings.
Context (g_hc_mem : Z).

Lemma post_place_string f0 a b f buf (Q : unit -> front -> Prop) : at_depth f0 a b f -> 0 <= b ->
  (forall g, at_depth f0 a (b + 1) g -> f_p g = f_p f -> Q tt g) -> post f0 Q (place_string g_hc_mem buf f).
Proof.
  intros A Hb HQ. unfold place_string. repeat pstep. bool_hyps. zbool. set (w := if _ <? 1 then _ else _) in *.
  assert (Hw : 1 <= w /\ Z.of_nat (length buf) + 1 <= 8 * w) by (subst w; case_if; zbool; Z.to_euclidean_division_equations; lia).
  pose proof (at_tabs _ _ _ _ A) as Ht. destruct Ht as [L1 L2 L3 L4 L5 L6 L7].
  cbn [post on_tabs pmod]. 
  assert (A' : at_depth f0 a b (set_tabs (with_strs (str_top (tabs f) - w) (strs (tabs f) ++ [(str_top (tabs f) - w, buf ++ [0])]) (tabs f)) f)).
  { apply at_set_tabs; [exact A | | apply tabs_strs_ext]. apply tabs_strs_ok; [eapply at_tabs, A | lia|].
    apply Forall_app. split; [exact L4|]. repeat constructor; cbn [fst snd]; rewrite ?length_app; cbn [length]; lia. }
  repeat pstep. apply HQ; [assumption | cbn [set_tabs f_p] in *; congruence].
Qed.
End Strings.

(** ** sizeof *)

Lemma any_kw_parses n l : parses n (any_kw l) 0 0.
Proof. enter. revert f Hi Hn H. induction l as [|k l IH]; intros f Hi Hn H; cbn [any_kw]; repeat pstep; [pdone | pdone |].
  eapply post_from; [eapply at_safe; eassumption|]. eapply post_mono; [|apply IH; [eapply at_inv; eassumption | lia | apply at_start; eapply at_inv; eassumption]].
  cbn. intros ? g Ag. match goal with A : at_depth f 0 0 ?f1 |- _ => exact (at_join _ _ _ _ _ _ _ A Ag ltac:(lia)) end.
Qed.
#[export] Hint Resolve any_kw_parses : front.

Lemma u8_product x y : is_u 8 x -> is_u 8 y -> is_u 64 (x * y).
Proof. unfold is_u. change (2 ^ 8) with 256. change (2 ^ 64) with 18446744073709551616. nia. Qed.

Lemma post_size_of_name f0 a b f (Q : Z -> front -> Prop) : at_depth f0 a b f ->
  (forall v g, at_depth f0 a b g -> (length (f_p g) <= length (f_p f))%nat -> is_u 64 v -> Q v g) -> post f0 Q (size_of_name f).
Proof.
  intros A HQ. unfold size_of_name.
  repeat pstep; (apply HQ; [assumption | text_lia|]);
    match goal with A : at_depth _ _ _ ?g |- context [tabs ?g] =>
      pose proof (fun i => proj1 (nth_class_ok (tabs g) i (at_tabs _ _ _ _ A))); pose proof (nth_var_ok (tabs g) (hcf_lookup (tabs g) s) (at_tabs _ _ _ _ A)) as [? ? ?] end; [auto|].
  repeat case_if; [unfold is_u; lia | auto | apply u8_product; assumption].
Qed.

Lemma sizeof_parses n : parses n prim_sizeof 0 1.
Proof.
  enter. unfold prim_sizeof. parser;
    (eapply post_size_of_name; [eassumption|]; intros v g ? ? ?; parser).
Qed.
#[export] Hint Resolve sizeof_parses : front.

(** ** The parsers that read expressions *)

Lemma load_field_parses n fd : parses n (load_field fd) 1 1.
Proof. enter. unfold load_field. parser. Qed.
#[export] Hint Resolve load_field_parses : front.

Lemma view_bits_ok m bits sg : view_bits m = Some (bits, sg) -> bits = 8 \/ bits = 16 \/ bits = 32.
Proof. unfold view_bits. repeat case_if; intros [= <- <-]; auto. Qed.

Section Recursive.
Context (host_addr : String.string -> Z) (g_hc_mem : Z) (host_ok : forall n, is_u 64 (host_addr n)).
Context (n : nat) (parse_prim parse_expr : P unit) (HP : parses n parse_prim 0 1) (HE : parses n parse_expr 0 1).

Lemma index_addr_parses id : parses n (hcf_parse_index_addr parse_expr id) 0 1.
Proof using HE. enter. unfold hcf_parse_index_addr. parser. Qed.
#[local] Hint Resolve index_addr_parses : front.

Lemma prim_addr_parses : parses n (prim_addr parse_expr) 0 1.
Proof using HE.
  enter. unfold prim_addr. parser. destruct (hcf_find_fn _ s) as [fn|] eqn:E; parser.
  eapply find_fn_ok; [eapply at_tabs; eassumption | exact E].
Qed.

Lemma prim_deref_parses : parses n (prim_deref parse_prim) 0 1.
Proof using HP. enter. unfold prim_deref, deref_prim. parser. Qed.

Lemma prim_number_parses m : parses m prim_number 0 1.
Proof.
  enter. unfold prim_number. repeat pstep; [| | apply dec_value_ok | pdone].
  - eapply post_hex_lit; [eassumption | lia|]. intros v g ? ? ? ?. parser.
  - eapply post_parses; [apply f64_dec_parses; [apply dec_value_ok | apply frac_value_ok] | eassumption | apply Nat.lt_succ_diag_r | lia|].
    intros. pdone.
Qed.

Lemma prim_view_parses id bits sg : bits = 8 \/ bits = 16 \/ bits = 32 -> parses n (prim_view parse_expr id bits sg) 0 1.
Proof using HE.
  intros Hb. enter. unfold prim_view.
  destruct Hb as [-> | [-> | ->]]; cbn [Z.eqb Pos.eqb]; cbv [Z.sub Z.add Z.opp Z.pos_sub Z.shiftl Pos.iter Z.mul Pos.mul Pos.pred_double Pos.add Pos.pred]; parser.
Qed.

Lemma prim_dot_parses id : parses n (prim_dot parse_expr id) 0 1.
Proof using HE.
  pose proof prim_view_parses. enter. unfold prim_dot. repeat pstep; [|pdone].
  destruct (nth 0 _ 0 =? 91) eqn:E; [|repeat pstep; pdone].
  destruct (view_bits _) as [[bits sg]|] eqn:Ev; [apply view_bits_ok in Ev|]; parser.
Qed.
#[local] Hint Resolve prim_dot_parses : front.

Lemma prim_var_parses id : parses (S n) (prim_var parse_expr id) 0 1.
Proof using HE. enter. unfold prim_var. parser. Qed.

Lemma post_call_arg coerce f nargs g : at_depth f 0 nargs g -> 0 <= nargs -> (length (f_p g) < n)%nat ->
  post f (fun r h => 0 <= snd r /\ at_depth f 0 (snd r) h /\ (fst r = true -> (length (f_p h) < length (f_p g))%nat))
    (call_arg parse_expr coerce nargs g).
Proof using HE.
  intros A Hn Hl. unfold call_arg. repeat pstep; cbn [fst snd]; (split; [lia|]; split; [pdone | intros; first [discriminate | text_lia]]).
Qed.

Lemma post_call_args coerce f g (Q : Z -> front -> Prop) : at_depth f 0 0 g -> (length (f_p g) < n)%nat ->
  (forall k h, at_depth f 0 k h -> 0 <= k -> Q k h) -> post f Q (call_args parse_expr coerce g).
Proof using HE.
  intros A Hl HQ. unfold call_args. repeat pstep; [apply HQ; [pdone | lia]|].
  apply (post_forever f (fun k h => 0 <= k /\ at_depth f 0 k h /\ (length (f_p h) < n)%nat)); [|split; [lia | split; [assumption | text_lia]]].
  intros k h (Hk & Ah & Lh). eapply post_mono; [|apply post_call_arg; eassumption].
  cbn. intros [more k'] h' (K1 & K2 & K3). cbn [fst snd] in *. destruct more; [|apply HQ; assumption].
  specialize (K3 eq_refl). split; [split; [exact K1 | split; [exact K2 | lia]] | exact K3].
Qed.

Lemma prim_call_parses s : parses n (prim_call host_addr parse_expr s) 0 1.
Proof using HE host_ok.
  enter. unfold prim_call. pstep. eapply post_call_args; [eassumption | assumption | intros k g Ag Hk].
  repeat cstep; bool_hyps; zbool; try pdone.
  destruct (find_builtin s) as [bi|] eqn:E.
  - eapply post_call_builtin; try eassumption; [lia | eapply find_builtin_ok, E | intros; pdone].
  - eapply post_call_user; try eassumption; [lia | intros; pdone].
Qed.
#[local] Hint Resolve prim_var_parses prim_call_parses bare_parses : front.

Lemma prim_ident_parses : parses (S n) (prim_ident host_addr parse_expr) 0 1.
Proof using HE host_ok.
  enter. unfold prim_ident. repeat pstep. destruct (literal_name s) as [v|] eqn:E; [|parser].
  unfold literal_name in E. parser. revert E. repeat case_if; intros [= <-]; in_bounds.
Qed.

Lemma prim_string_parses f g (Q : unit -> front -> Prop) : at_depth f 0 0 g -> nth 0 (f_p g) 0 = 34 -> (length (f_p g) < S n)%nat ->
  (forall h, at_depth f 0 1 h -> Q tt h) -> post f Q (prim_string g_hc_mem parse_expr g).
Proof using HE.
  intros A Hq Hl HQ. unfold prim_string. pstep.
  apply (post_forever f (fun _ h => at_depth f 0 0 h /\ nth 0 (f_p h) 0 = 34 /\ (length (f_p h) < S n)%nat)); [|split; [exact A | split; [exact Hq | exact Hl]]].
  intros buf h (Ah & Qh & Lh). eapply post_string_part; [exact Ah | exact Qh|]. intros [more buf'] h' A' L' C'. cbn [fst snd] in *.
  destruct more; [split; [split; [exact A' | split; [apply C'; reflexivity | lia]] | lia]|].
  pstep. eapply post_place_string; [eassumption | lia|]. intros h2 A2 L2. repeat pstep; apply HQ; pdone.
Qed.
#[local] Hint Resolve prim_ident_parses prim_addr_parses prim_deref_parses prim_number_parses : front.

Lemma prim_parses : parses (S n) (hcf_parse_prim host_addr g_hc_mem parse_prim parse_expr) 0 1.
Proof using HE HP host_ok.
  enter. unfold hcf_parse_prim. parser.
  (* behind the keyword that is not there *)
  all: match goal with K : _ = false -> f_p ?x = skip (f_p ?y), E : f_p ?y = skip _ |- _ =>
         assert (Hsame : f_p x = f_p y) by (rewrite (K eq_refl), E; apply skip_idem) end.
  all: try (intros HN; rewrite Hsame in HN; revert HN; peeked).
  - eapply post_char_lit; [eassumption|]. intros v g ? ? ? ?. parser.
  - eapply prim_string_parses; [eassumption | rewrite Hsame; zbool; assumption | text_lia | auto].
Qed.
End Recursive.

(** ** The HolyC front end: operators and expressions keep their promise

    Every level of [hcf_parse_expr] puts one value on the stack, and two calls for every character
    are fuel enough. *)

From S2P Require Import HcFrontOps.

Definition pops_two (op : hc_op) : Prop := operands_of op = Op0 /\ is_plain op = true /\ stack_use op = Some (2, 1).
Definition pops_two_opt (o : option hc_op) : Prop := match o with Some op => pops_two op | None => True end.

Lemma emit_binop_parses n op : pops_two op -> parses n (hcf_emit op) 2 1.
Proof.
  intros (H1 & H2 & H3). enter. eapply post_emit; [eassumption | exact H1 | exact H2 | exact H3 | lia|]. intros. pdone.
Qed.
#[export] Hint Resolve emit_binop_parses : front.

(** An operator that may be there: if it is, it has been read. *)
Definition reads_op {O} (good : O -> Prop) (op : P (option O)) : Prop :=
  forall f0 a b f (Q : option O -> front -> Prop), at_depth f0 a b f ->
    (forall o g, at_depth f0 a b g -> (length (f_p g) <= length (f_p f))%nat ->
       match o with Some x => good x /\ (length (f_p g) < length (f_p f))%nat | None => True end -> Q o g) -> post f0 Q (op f).

Ltac read_op := intros f0 a b f Q A HQ; repeat pstep; (apply HQ; [assumption | text_lia | first [exact I | split; [repeat split | text_lia]]]).

Lemma term_op_reads : reads_op pops_two term_op.
Proof. unfold term_op. read_op. Qed.
Lemma add_op_reads : reads_op pops_two add_op.
Proof. unfold add_op. read_op. Qed.
Lemma shift_op_reads : reads_op pops_two shift_op.
Proof. unfold shift_op, two_op. read_op. Qed.
Lemma one_op_reads c op : pops_two op -> c <> 0 -> reads_op pops_two (one_op c op).
Proof.
  intros (H1 & H2 & H3) Hc. unfold one_op. intros f0 a b f Q A HQ. repeat pstep.
  - intros HN. bool_hyps. zbool. congruence.
  - apply HQ; [assumption | text_lia | split; [repeat split; assumption | text_lia]].
  - apply HQ; [assumption | text_lia | exact I].
Qed.
Lemma bxor_op_reads : reads_op pops_two bxor_op.
Proof. unfold bxor_op. read_op. Qed.
Lemma cmp_op_reads : reads_op (fun op => pops_two op /\ pops_two_opt (float_cmp op)) cmp_op.
Proof. unfold cmp_op. read_op. Qed.
Lemma land_op_reads : reads_op (fun _ => True) land_op.
Proof. unfold land_op. read_op. Qed.
Lemma lor_op_reads : reads_op (fun _ => True) lor_op.
Proof. unfold lor_op. read_op. Qed.

Lemma level_parses {O} n good operand (op : P (option O)) turn :
  parses n operand 0 1 -> reads_op good op -> (forall o, good o -> parses n (turn o) 1 1) -> parses n (level operand op turn) 0 1.
Proof.
  intros Ho Hr Ht. enter. unfold level. repeat pstep.
  eapply (post_forever f (fun _ g => at_depth f 0 1 g /\ (length (f_p g) < n)%nat)); [|split; [pdone | text_lia]].
  intros u g [Ag Lg]. unfold level_turn. pstep. eapply Hr; [exact Ag|]. intros [y|] h Ah Lh; [intros [Hg Hlt] | intros _].
  - specialize (Ht y Hg). repeat pstep. cbn [fst]. split; [split; [pdone | text_lia] | text_lia].
  - repeat pstep. cbn [fst]. pdone.
Qed.

Lemma promote_side_parses n left_f : parses n (promote_side left_f) 2 2.
Proof. enter. unfold promote_side. parser. Qed.
#[export] Hint Resolve promote_side_parses : front.

Lemma arith_parses n op fop left_f : pops_two op -> pops_two_opt fop -> parses n (arith op fop left_f) 2 1.
Proof.
  intros Hop Hf. enter. unfold arith. destruct fop as [o|]; cbn [pops_two_opt] in Hf; parser.
Qed.

Lemma cmp_code_parses n op left_f : pops_two op -> pops_two_opt (float_cmp op) -> parses n (cmp_code op left_f) 2 1.
Proof.
  intros Hop Hf. enter. unfold cmp_code. destruct (float_cmp op) as [o|]; cbn [pops_two_opt] in Hf; parser.
Qed.

(** ** Code with branches

    Between a jump and its label the code is not balanced: [at_code f cs g] only says that [cs]
    has been written since [f]. *)

Definition at_code (f : front) (cs : list hinsn) (g : front) : Prop := safe f g /\ wrote f g cs.

Lemma at_extend f0 a b c f cs g : at_depth f0 a b f -> at_code f cs g ->
  code_ok (next_label (tabs f)) (next_label (tabs g)) cs b c -> at_depth f0 a c g.
Proof.
  intros A [Sg Wg] C. replace c with (b - b + c) by lia. eapply at_join; [exact A | | lia]. split; [exact Sg|]. exists cs. auto.
Qed.

Section Code.
Context (f : front) (cs : list hinsn) (g : front) (A : at_code f cs g).

Lemma post_code_bytes i n bytes (Q : unit -> front -> Prop) : bytes = pack_insn i -> Z.of_nat (length bytes) <= n ->
  (forall h, at_code f (cs ++ [i]) h -> f_p h = f_p g -> tabs h = tabs g -> Q tt h) -> post f Q (emit_bytes n bytes g).
Proof using A.
  intros -> Hn HQ. destruct A as [Sg Wg]. apply post_emit_bytes; [exact Sg | exact Hn|]. intros h S1 S2 S3 S4 _. apply HQ; [|assumption..].
  split; [exact S1|]. unfold wrote in *. rewrite S2, Wg, map_app, concat_app. cbn. rewrite app_nil_r, app_assoc. reflexivity.
Qed.

Lemma post_code_u8 op x (Q : unit -> front -> Prop) : operands_of op = OpByte -> 0 <= x < 256 ->
  (forall h, at_code f (cs ++ [mk_h op x 0]) h -> f_p h = f_p g -> tabs h = tabs g -> Q tt h) -> post f Q (hcf_emit_u8 op x g).
Proof using A.
  intros Ho Hx. apply post_code_bytes; [|cbn; lia]. rewrite u8_id by exact Hx. destruct op; try discriminate Ho; reflexivity.
Qed.

Lemma post_code_imm v (Q : unit -> front -> Prop) :
  (forall h, at_code f (cs ++ [mk_h HC_IMM64 v 0]) h -> f_p h = f_p g -> tabs h = tabs g -> Q tt h) -> post f Q (hcf_imm v g).
Proof using A.
  intros HQ. apply post_bind, (post_code_bytes (mk_h HC_IMM64 v 0)); [reflexivity | cbn; lia|]. intros h H1 H2 H3. cbn [post pmod]. apply HQ; assumption.
Qed.

Lemma post_code_run {B} n (m : P B) (Q : B -> front -> Prop) : parses n m 0 1 -> (length (f_p g) < n)%nat ->
  (forall x h cs', at_code f (cs ++ cs') h -> code_ok (next_label (tabs g)) (next_label (tabs h)) cs' 0 1 ->
     next_label (tabs g) <= next_label (tabs h) <= 256 -> (length (f_p h) <= length (f_p g))%nat -> Q x h) -> post f Q (m g).
Proof using A.
  intros Hm Hn HQ. destruct A as [Sg Wg]. eapply post_from; [exact Sg|]. eapply post_mono; [|apply Hm; [exact (proj1 Sg) | exact Hn]].
  cbn. intros x h Ah. pose proof (at_len _ _ _ _ Ah) as Hl. destruct Ah as [Sh (cs' & Wh & C)].
  assert (Hb : next_label (tabs g) <= next_label (tabs h) <= 256).
  { destruct Sh as ((_ & _ & [L1 _ _ _ _ _ _]) & (_ & [L2 _ _ _ _ _ _ _ _]) & _). unfold HC_IR_MAX_LABELS in L1. lia. }
  eapply (HQ x h cs'); [|exact C | exact Hb | exact Hl].
  split; [eapply safe_trans; eassumption|]. unfold wrote in *. rewrite Wh, Wg, map_app, concat_app, app_assoc. reflexivity.
Qed.
End Code.

Lemma post_new_tmp f0 a b f (Q : Z -> front -> Prop) : at_depth f0 a b f ->
  (forall x g, at_depth f0 a b g -> f_p g = f_p f -> 0 <= x < 256 -> Q x g) -> post f0 Q (new_tmp f).
Proof.
  intros A HQ. unfold new_tmp. repeat pstep. zbool. pose proof (to_mem _ (at_tabs _ _ _ _ A)).
  eapply (post_mem _ _ _ _ (fun _ => mem_used (tabs f) + 1)); [eassumption | lia | intros g Ag Eg _]. pstep.
  apply HQ; [exact Ag | exact Eg | in_bounds].
Qed.

Lemma with_label_next n t : next_label (with_label n t) = n.
Proof. destruct t. reflexivity. Qed.
Lemma with_label_ext n t : next_label t <= n -> tabs_ext t (with_label n t).
Proof. intros Hn. destruct t. split; cbn in *; try reflexivity. exact Hn. Qed.
Lemma tabs_label_ok' n t : tabs_ok t -> 0 <= n <= HC_IR_MAX_LABELS -> tabs_ok (with_label n t).
Proof. intros [] Hn. destruct t. split; cbn in *; assumption. Qed.

Lemma at_label f0 a b f n : at_depth f0 a b f -> next_label (tabs f) <= n <= HC_IR_MAX_LABELS ->
  at_depth f0 a b (set_tabs (with_label n (tabs f)) f).
Proof.
  intros A Hn. pose proof (at_tabs _ _ _ _ A) as Ht. apply at_set_tabs; [exact A | apply tabs_label_ok'; [exact Ht | pose proof (to_label _ Ht); lia] | apply with_label_ext; lia].
Qed.

Lemma new_label_eq f : hcf_new_label f =
  if HC_IR_MAX_LABELS <=? next_label (tabs f) then (Done (-1), set_err true f)
  else (Done (next_label (tabs f)), set_tabs (with_label (next_label (tabs f) + 1) (tabs f)) f).
Proof. unfold hcf_new_label, pbind, tget, pget. case_if; reflexivity. Qed.

(** Two labels, the second one behind the first. *)
Lemma post_new_label_pair f0 a b f (Q : Z * Z -> front -> Prop) : at_depth f0 a b f ->
  (forall n g, at_code f [] g -> f_p g = f_p f -> n = next_label (tabs f) -> 0 <= n -> next_label (tabs g) = n + 2 -> n + 2 <= 128 -> Q (n, n + 1) g) ->
  post f0 Q (new_label_pair f).
Proof.
  intros A HQ. set (n := next_label (tabs f)) in *. pose proof (to_label _ (at_tabs _ _ _ _ A)) as Hl. fold n in Hl.
  unfold new_label_pair, pbind. rewrite new_label_eq. fold n. destruct (HC_IR_MAX_LABELS <=? n) eqn:E1.
  - rewrite new_label_eq. cbn [set_err tabs]. fold n. rewrite E1. change ((-1 <? 0) || (-1 <? 0)) with true. apply (at_safe f0 a b). exact A.
  - rewrite new_label_eq. cbn [set_tabs tabs]. rewrite with_label_next. zbool. unfold HC_IR_MAX_LABELS in *.
    destruct (128 <=? n + 1) eqn:E2; zbool.
    + change (-1 <? 0) with true. rewrite orb_true_r.
      apply (at_safe f0 a b). exact (at_label _ _ _ _ (n + 1) A ltac:(unfold HC_IR_MAX_LABELS; lia)).
    + replace ((n <? 0) || (n + 1 <? 0)) with false by lia. cbn [post pret].
      apply HQ; try reflexivity; try lia; [|cbn [set_tabs tabs]; rewrite with_label_next; lia].
      pose proof (at_label f 0 0 f (n + 1) (at_start 0 f (at_inv _ _ _ _ A)) ltac:(unfold HC_IR_MAX_LABELS; lia)) as A1.
      pose proof (at_label _ _ _ _ (n + 1 + 1) A1) as A2. cbn [set_tabs tabs] in A2. rewrite with_label_next in A2.
      destruct (A2 ltac:(unfold HC_IR_MAX_LABELS; lia)) as [S2 _]. split; [exact S2 | symmetry; apply app_nil_r].
Qed.

(** [cstep]: one instruction at the state of an [at_code] hypothesis. *)
Ltac code_step :=
  lazymatch goal with
  | |- post _ _ (pbind _ _ _) => apply post_bind
  | |- post _ _ (hcf_emit_u8 _ _ _) => eapply post_code_u8; [eassumption | reflexivity | try lia |]; [..|intros ? ? ? ?]
  | |- post _ _ (hcf_imm _ _) => eapply post_code_imm; [eassumption |]; intros ? ? ? ?
  end.

Section Branches.
Context (n : nat) (operand : P unit) (HO : parses n operand 0 1).

Lemma logic_turn_parses jump otherwise : jump = HC_JZ \/ jump = HC_JNZ -> otherwise = 0 \/ otherwise = 1 ->
  parses n (logic_turn jump operand otherwise) 1 1.
Proof using HO.
  intros Hj Ho. enter. unfold logic_turn. pstep. eapply post_new_tmp; [eassumption|]. intros tmp g Ag Eg Ht.
  eapply post_from; [eapply at_safe, Ag|]. pstep.
  eapply post_new_label_pair; [apply (at_start 1 g), (at_inv _ _ _ _ Ag)|]. intros l g1 C1 E1 -> Hl Hl2 Hb. cbn beta iota.
  set (l := next_label (tabs g)) in *.
  pstep. eapply post_code_u8; [exact C1 | destruct Hj as [-> | ->]; reflexivity | lia | intros g2 C2 E2 T2].
  pstep. eapply post_code_run; [exact C2 | exact HO | text_lia | intros x g3 cs C3 K3 N3 L3].
  pstep. eapply post_code_u8; [exact C3 | destruct Hj as [-> | ->]; reflexivity | lia | intros g4 C4 E4 T4].
  repeat code_step. cbn [post]. eapply at_extend; [exact Ag | eassumption|].
  repeat match goal with T : tabs _ = tabs _ |- _ => rewrite T in *; clear T end. rewrite Hl2 in *.
  rewrite <- !app_assoc. cbn [app]. apply (code_ok_logic jump l (next_label (tabs g3)) tmp otherwise (1 - otherwise) cs 0);
    try assumption; try lia; destruct Ho as [-> | ->]; in_bounds.
Qed.

End Branches.

Lemma post_code_expect f cs g c (Q : unit -> front -> Prop) : at_code f cs g -> c <> 0 ->
  (forall h, at_code f cs h -> tabs h = tabs g -> (length (f_p h) < length (f_p g))%nat -> Q tt h) -> post f Q (hcf_expect c g).
Proof.
  intros [Sg Wg] Hc HQ. eapply post_from; [exact Sg|]. eapply post_expect; [exact (at_start 0 g (proj1 Sg)) | exact Hc|].
  intros h Ah Th Bh Lh. apply HQ; [|exact Th | exact Lh]. split; [eapply safe_trans; [exact Sg | eapply at_safe, Ah]|].
  unfold wrote in *. congruence.
Qed.

Lemma post_conditional n parse_expr f0 f : parses n parse_expr 0 1 ->
  at_depth f0 0 1 f -> nth 0 (f_p f) 0 <> 0 -> (length (f_p f) < S n)%nat ->
  post f0 (fun _ g => at_depth f0 0 1 g) (conditional parse_expr f).
Proof.
  intros HE A Hc Hn. unfold conditional. pstep. eapply post_advance; [eassumption | exact Hc | lia | intros f1 A1 E1 T1 L1].
  pstep. eapply post_new_tmp; [eassumption|]. intros tmp g Ag Eg Ht.
  eapply post_from; [eapply at_safe, Ag|]. pstep.
  eapply post_new_label_pair; [apply (at_start 1 g), (at_inv _ _ _ _ Ag)|]. intros l g1 C1 E2 -> Hl Hl2 Hb. cbn beta iota.
  set (l := next_label (tabs g)) in *.
  repeat code_step. eapply post_code_run; [eassumption | exact HE | text_lia | intros x g3 cs C3 K3 N3 L3].
  repeat code_step. eapply post_code_expect; [eassumption | lia | intros g4 C4 T4 L4].
  pstep. eapply post_code_run; [eassumption | exact HE | text_lia | intros y g5 cs' C5 K5 N5 L5].
  repeat code_step. cbn [post]. eapply at_extend; [exact Ag | eassumption|].
  repeat match goal with T : tabs _ = tabs _ |- _ => rewrite T in *; clear T end. rewrite Hl2 in *.
  rewrite <- !app_assoc. cbn [app]. apply (code_ok_cond l (next_label (tabs g3)) (next_label (tabs g5)) tmp cs cs' 0); try assumption; lia.
Qed.

(** ** The levels *)

Section Levels.
Context (n : nat) (parse_prim : P unit) (HP : parses n parse_prim 0 1).

Lemma int_turn_parses operand op : parses n operand 0 1 -> pops_two op -> parses n (int_turn operand op) 1 1.
Proof. intros Ho Hop. enter. unfold int_turn. parser. Qed.
#[local] Hint Resolve arith_parses cmp_code_parses int_turn_parses : front.

Lemma term_parses : parses n (hcf_parse_term parse_prim) 0 1.
Proof using HP.
  apply (level_parses _ pops_two); [exact HP | apply term_op_reads|]. intros op Hop.
  assert (Hf : pops_two_opt (float_term op)) by (destruct op; repeat split). enter. unfold term_turn. parser.
Qed.

Lemma add_parses : parses n (hcf_parse_add parse_prim) 0 1.
Proof using HP.
  pose proof term_parses. apply (level_parses _ pops_two); [apply term_parses | apply add_op_reads|]. intros op Hop.
  assert (Hf : pops_two_opt (Some (match op with HC_ADD => HC_FADD | _ => HC_FSUB end))) by (destruct op; repeat split).
  enter. unfold add_turn. parser.
Qed.

Lemma int_level_parses operand op : parses n operand 0 1 -> reads_op pops_two op -> parses n (level operand op (int_turn operand)) 0 1.
Proof. intros Ho Hr. apply (level_parses _ pops_two); auto with front. Qed.

Lemma bor_parses : parses n (hcf_parse_bor parse_prim) 0 1.
Proof using HP.
  repeat (apply int_level_parses; [| first [apply shift_op_reads | apply bxor_op_reads | apply one_op_reads; [repeat split | lia]]]).
  apply add_parses.
Qed.

Lemma cmp_parses : parses n (hcf_parse_cmp parse_prim) 0 1.
Proof using HP.
  pose proof bor_parses. enter. unfold hcf_parse_cmp. repeat pstep. eapply cmp_op_reads; [eassumption|].
  intros [op|] h Ah Lh; [intros [[Hop Hf] Hlt] | intros _]; parser.
Qed.

Lemma lor_parses : parses n (hcf_parse_lor parse_prim) 0 1.
Proof using HP.
  assert (Hl : parses n (hcf_parse_land parse_prim) 0 1).
  { apply (level_parses _ (fun _ => True)); [apply cmp_parses | apply land_op_reads|]. intros o _.
    apply logic_turn_parses; auto using cmp_parses. }
  apply (level_parses _ (fun _ => True)); [exact Hl | apply lor_op_reads|]. intros o _. apply logic_turn_parses; auto.
Qed.
End Levels.

(** ** Assignments *)

Section Expr.
Context (n : nat) (parse_expr : P unit) (HE : parses n parse_expr 0 1).

Lemma coerce_parses m is_f64 strict : parses m (coerce is_f64 strict) 1 1.
Proof. enter. unfold coerce. parser. Qed.
#[local] Hint Resolve coerce_parses : front.

Lemma assign_var_parses id : parses n (assign_var parse_expr id) 0 1.
Proof using HE. enter. unfold assign_var. parser. Qed.

Lemma assign_field_parses fd : parses n (assign_field parse_expr fd) 1 1.
Proof using HE.
  enter. unfold assign_field. repeat pstep. eapply post_new_tmp; [eassumption|]. intros tmp g Ag Eg Ht. parser.
Qed.
#[local] Hint Resolve assign_var_parses assign_field_parses : front.

(** The text, the bytes and the words as they were, after a member path that is not assigned to. *)
Lemma at_restored f0 a b f g save : at_depth f0 a b f -> safe f g -> (length save <= length (f_p f0))%nat ->
  at_depth f0 a b (restore save (length (f_bc f)) (mem_used (tabs f)) g).
Proof.
  intros [S (cs & W & C)] Sg Hl. pose proof (safe_trans _ _ _ S Sg) as ((I1 & _ & I3) & (Q1 & Q2) & _ & Q4).
  pose proof S as ((_ & J2 & J3) & (R1 & R2) & _ & R4). destruct Sg as (_ & (G1 & G2) & _ & [t Et]).
  assert (Eb : take (length (f_bc f)) (f_bc g) = f_bc f) by (rewrite Et, take_app_length; reflexivity).
  assert (Ht : tabs_ok (with_mem (mem_used (tabs f)) (tabs g))) by (apply tabs_mem_ok; [exact I3 | exact (to_mem _ J3)]).
  split.
  - split; [split; [exact I1|]; split; [cbn; rewrite Eb, G1; exact J2 | exact Ht]|]. split; [split; [exact Q1|]|].
    + eapply tabs_ext_trans; [exact Q2 | apply tabs_mem_ext].
    + split; [exact Hl | cbn; rewrite Eb; exact R4].
  - exists cs. split; [unfold wrote in *; cbn; rewrite Eb; exact W|]. destruct G2 as [L1 _ _ _ _ _ _ _ _].
    destruct (tabs_mem_ext (tabs g) (mem_used (tabs f))) as [L2 _ _ _ _ _ _ _ _]. eapply code_ok_range; [| |exact C]; cbn; lia.
Qed.

(** A member path behind its sign, tried. *)
Lemma post_try_member {A} f0 k (m : P A) f (Q : option A -> front -> Prop) : at_depth f0 0 0 f -> nth 0 (f_p f) 0 <> 0 ->
  parses (length (f_p f)) m 0 1 -> (0 < k)%nat ->
  (forall r g, safe f g -> (length (f_p g) < length (f_p f))%nat -> (match r with Some _ => at_depth f0 0 1 g | None => True end) -> Q r g) ->
  post f0 (fun _ g => post f0 Q (attempt m g)) (advance k f).
Proof.
  intros Af Hc Hm Hk HQ. apply peek_some in Hc. cbn [post advance pmod].
  assert (Hlt : (length (f_p (set_p (drop k (f_p f)) f)) < length (f_p f))%nat) by (cbn [set_p f_p]; rewrite length_drop; lia).
  assert (A0 : at_depth f0 0 0 (set_p (drop k (f_p f)) f)) by (apply at_text_shorter; [exact Af | cbn [set_p f_p] in *; lia]).
  assert (A1 : at_depth f 0 0 (set_p (drop k (f_p f)) f)).
  { apply at_text_shorter; [exact (at_start 0 f (at_inv _ _ _ _ Af)) | cbn [set_p f_p] in *; lia]. }
  set (f1 := set_p (drop k (f_p f)) f) in *. specialize (Hm f1 (at_inv _ _ _ _ A1) Hlt). unfold attempt.
  destruct (m f1) as [[x| | |] g]; cbn [post] in *; [| |contradiction..].
  - apply HQ; [eapply safe_trans; [eapply at_safe, A1 | eapply at_safe, Hm] | pose proof (at_len _ _ _ _ Hm); lia|].
    exact (at_join _ _ _ _ _ _ _ A0 Hm ltac:(lia)).
  - apply HQ; [eapply safe_trans; [eapply at_safe, A1 | exact Hm] | destruct Hm as (_ & _ & Hl & _); lia | exact I].
Qed.

Lemma safe_skip f g : safe f g -> safe f (set_p (skip (f_p g)) g).
Proof.
  intros ((I1 & I2) & S2 & S3 & S4). split; [split; assumption|]. split; [exact S2|]. split; [|exact S4].
  cbn [set_p f_p]. pose proof (skip_le (f_p g)). lia.
Qed.

Lemma post_at_assign f0 (Q : bool -> front -> Prop) f : (forall x, (x = true -> nth 0 (f_p f) 0 <> 0) -> Q x f) -> post f0 Q (at_assign f).
Proof. intros HQ. apply HQ. intros E. bool_hyps. zbool. lia. Qed.

Lemma post_try_assign_member f0 f save id (Q : bool -> front -> Prop) : at_depth f0 0 0 f -> nth 0 (f_p f) 0 <> 0 ->
  (length save <= length (f_p f0))%nat -> (length (f_p f) < S n)%nat ->
  (forall g, at_depth f0 0 1 g -> Q true g) -> (forall g, at_depth f0 0 0 g -> f_p g = save -> Q false g) ->
  post f0 Q (try_assign_member parse_expr save id f).
Proof using HE.
  intros A Hc Hs Hn HQ1 HQ2. unfold try_assign_member. do 6 pstep.
  assert (Hr : forall r g, safe f g -> (length (f_p g) < length (f_p f))%nat ->
    match r with Some _ => at_depth f0 0 1 g | None => True end -> post f0 Q
    ((hcf_skip ;;; let* eq := at_assign in
      match r with
      | Some fd => if (fd_type fd =? HC_TYPE_NONE) && eq then advance 1 ;;; assign_field parse_expr fd ;;; pret true
                   else pmod (restore save (length (f_bc f)) (mem_used (tabs f))) ;;; pret false
      | None => pmod (restore save (length (f_bc f)) (mem_used (tabs f))) ;;; pret false
      end)%front g)).
  { intros r g Sg Lg Ag. pstep. cbn [post hcf_skip pmod]. pose proof (safe_skip _ _ Sg) as S2.
    pose proof (skip_le (f_p g)) as Hk. set (h := set_p (skip (f_p g)) g) in *.
    assert (Hres : post f0 Q ((pmod (restore save (length (f_bc f)) (mem_used (tabs f))) ;;; pret false)%front h)).
    { cbn [post pbind pmod pret]. apply HQ2; [apply at_restored; assumption | reflexivity]. }
    pstep. apply post_at_assign. intros eq Heq. destruct r as [fd|]; [|exact Hres]. case_if; [|exact Hres]. bool_hyps.
    assert (Ah : at_depth f0 0 1 h) by (apply at_text_shorter; assumption).
    assert (Lh : (length (f_p h) < length (f_p f))%nat) by (subst h; cbn [set_p f_p]; lia).
    pstep. eapply post_advance; [exact Ah | auto | lia | intros h1 A1 E1 T1 L1]. repeat pstep. apply HQ1. pdone. }
  destruct (nth 0 (f_p f) 0 =? 45); pstep; (eapply post_try_member; [exact A | exact Hc | eauto with front | lia | exact Hr]).
Qed.

Lemma post_try_assign f0 f save (Q : bool -> front -> Prop) : at_depth f0 0 0 f -> save = f_p f -> (length (f_p f) < S n)%nat ->
  (forall g, at_depth f0 0 1 g -> Q true g) -> (forall g, at_depth f0 0 0 g -> f_p g = save -> Q false g) -> post f0 Q (try_assign parse_expr save f).
Proof using HE.
  intros A -> Hn HQ1 HQ2. pose proof (at_len _ _ _ _ A). unfold try_assign. repeat pstep; [apply HQ2; auto|].
  apply post_at_assign. intros eq Heq. repeat pstep.
  - bool_hyps. auto.
  - apply HQ1. pdone.
  - eapply post_try_assign_member; try eassumption; [|text_lia]. bool_hyps.
    match goal with E : _ || _ = true |- _ => apply orb_true_iff in E as [E|E]; bool_hyps; zbool; lia end.
  - apply HQ2; assumption.
Qed.
End Expr.

Lemma expr_parses n prim expr : parses (S n) prim 0 1 -> parses n expr 0 1 -> parses (S n) (expr_body prim expr) 0 1.
Proof.
  intros HP HE. pose proof (lor_parses _ _ HP) as HL. enter. unfold expr_body. do 5 pstep.
  eapply post_try_assign; [exact HE | eassumption | reflexivity | text_lia | |].
  - intros g Ag. repeat pstep. pdone.
  - intros g Ag Eg. repeat pstep; [pdone|]. eapply post_mono; [|eapply post_conditional; [exact HE | | | text_lia]].
    + cbn. intros ? h Ah. exact Ah.
    + pdone.
    + bool_hyps. zbool. lia.
Qed.

Section Knot.
Context (host_addr : String.string -> Z) (g_hc_mem : Z) (host_ok : forall s, is_u 64 (host_addr s)).

Lemma parsers_parse fuel : forall n,
  ((2 * n <= fuel + 1)%nat -> parses n (fst (parsers host_addr g_hc_mem fuel)) 0 1) /\
  ((2 * n <= fuel)%nat -> parses n (snd (parsers host_addr g_hc_mem fuel)) 0 1).
Proof using host_ok.
  induction fuel as [|fuel IH]; intros [|n]; (split; [intros Hn | intros Hn]); try (intros f Hi Hl; exfalso; lia); try lia;
    cbn [parsers]; pose proof (IH n) as [I1 I2]; pose proof (IH (S n)) as [J1 _]; destruct (parsers host_addr g_hc_mem fuel) as [prim expr];
    cbn [fst snd] in *.
  - apply prim_parses; [exact host_ok | apply I1; lia | apply I2; lia].
  - apply expr_parses; [apply J1; lia | apply I2; lia].
Qed.

Lemma hcf_parse_expr_parses n : parses n (hcf_parse_expr host_addr g_hc_mem) 0 1.
Proof using host_ok.
  intros f Hi _. unfold hcf_parse_expr. destruct (parsers_parse (2 * length (f_p f) + 4) (S (length (f_p f)))) as [_ H].
  apply H; [lia | exact Hi | lia].
Qed.
End Knot.
