(* ===== verification/HcFrontThms.v ===== *)
(** * The HolyC front end: properties of expressions

    Whatever the text, the parser of expressions ends, keeps its bounds and emits balanced code;
    where the buffer and the type flag are not what the code means. *)

From S2P Require Import Prelude A64 A64Sem HcIr HcIrSem HcFront HcFrontPrim HcFrontOps HcFrontCode HcFrontSpec HcFrontRun.
#[local] Open Scope Z_scope.

Section Soundness.
Context (host_addr : String.string -> Z) (g_hc_mem : Z) (host_ok : forall s, is_u 64 (host_addr s)).

(** Parsing an expression is total and safe.  On any text, from any state within its bounds,
    [hcf_parse_expr] comes to an end; the tables stay within their limits, no text is un-read, and
    at most one call instruction lies behind the buffer's end; and if the expression is accepted,
    the bytes added are packed instructions that are balanced: they leave one value more on the
    stack, on every path, and their jumps meet their own labels at the same depth. *)
Theorem hcf_parse_expr_sound f (Hinv : inv f) :
  match hcf_parse_expr host_addr g_hc_mem f with
  | (Done _, f') => inv f' /\ (length (f_p f') <= length (f_p f))%nat /\
      exists cs, f_bc f' = f_bc f ++ concat (map pack_insn cs) /\ code_ok (next_label (tabs f)) (next_label (tabs f')) cs 0 1
  | (Bad, f') => inv f'
  | (Wild, _) | (NoFuel, _) => False
  end.
Proof using host_ok.
  pose proof (hcf_parse_expr_parses host_addr g_hc_mem host_ok (S (length (f_p f))) f Hinv ltac:(lia)) as H.
  destruct (hcf_parse_expr host_addr g_hc_mem f) as [[x| | |] f']; cbn in H; [|apply H | exact H..].
  split; [eapply at_inv, H|]. split; [eapply at_len, H|]. destruct H as [_ (cs & W & C)]. exists cs. auto.
Qed.

(** An expression that is accepted is a well-typed program.  Its bytes, followed by a return,
    read back as the packed instructions, which compute one value, and if they never hold more
    than seven values, the compiler's registers, the stack discipline that the stack-IR compiler
    relies on without checking it holds. *)
Theorem hcf_parse_expr_well_typed f f' (Hinv : inv f) (Hempty : f_bc f = []) (Hrun : hcf_parse_expr host_addr g_hc_mem f = (Done tt, f')) :
  exists prog, hc_parse (f_bc f' ++ [hc_code HC_RET]) = Some (prog ++ [RET]) /\ walk prog 0 = Some 1 /\
    (within 7 prog 0 = true -> well_typed (prog ++ [RET]) = true).
Proof using host_ok.
  pose proof (hcf_parse_expr_parses host_addr g_hc_mem host_ok (S (length (f_p f))) f Hinv ltac:(lia)) as H.
  rewrite Hrun in H. destruct H as [_ (cs & W & C)]. exists cs. split; [|split; [exact (co_walk _ _ _ _ _ C) | intros Hw; eapply balanced_typed; eassumption]].
  unfold wrote in W. rewrite W, Hempty. cbn [app].
  replace (concat (map pack_insn cs) ++ [hc_code HC_RET]) with (concat (map pack_insn (cs ++ [RET]))) by (rewrite map_app, concat_app; reflexivity).
  apply parse_packed. rewrite forallb_app, (insn_packable _ (co_insns _ _ _ _ _ C)). reflexivity.
Qed.
End Soundness.

(** ** Examples *)

Definition no_tables : tables := mk_tables 0 [] 0 0 256 [] [] [] [] [] [] [].
(** A file with [I64 x] and [F64 y]. *)
Definition some_tables : tables :=
  mk_tables 0 [mk_var (S_ "x") 0 1 8 HC_TYPE_NONE false false false; mk_var (S_ "y") 1 1 8 HC_TYPE_NONE false false true] 2 0 256 [] [] [] [] [] [] [].
Definition start (text : String.string) (cap : Z) (t : tables) : front := mk_front (S_ text) [] cap false false t.

Lemma some_inv text cap : 0 <= cap -> inv (start text cap some_tables).
Proof.
  intros Hc. split; [exact Hc|]. split; [unfold start; cbn [f_bc f_cap length]; lia|].
  split; cbn; try (split; vm_compute; congruence); repeat constructor; vm_compute; congruence.
Qed.

Definition demo_addr (_ : String.string) : Z := 0x4000.
Lemma demo_addr_ok s : is_u 64 (demo_addr s).
Proof. unfold demo_addr. split; [lia | reflexivity]. Qed.

Lemma hcf_parse_expr_sound_witness :
  match hcf_parse_expr demo_addr 0 (start "x = 3 < 4 && Abs(y - 1.5) ? 10 : 20" 200 some_tables) with (Done _, f') => inv f' | _ => False end.
Proof.
  pose proof (hcf_parse_expr_sound demo_addr 0 demo_addr_ok _ (some_inv "x = 3 < 4 && Abs(y - 1.5) ? 10 : 20" 200 ltac:(lia))) as Hs.
  destruct (hcf_parse_expr demo_addr 0 _) as [[x| | |] f'] eqn:E; [exact (proj1 Hs) | vm_compute in E; discriminate E | exact Hs..].
Defined.

Definition demo_front : front := start "(x + 6) * 7 == 84 || -x < 2" 200 some_tables.

Lemma hcf_parse_expr_well_typed_witness :
  exists prog, hc_parse (f_bc (snd (hcf_parse_expr demo_addr 0 demo_front)) ++ [hc_code HC_RET]) = Some (prog ++ [RET]) /\
    well_typed (prog ++ [RET]) = true.
Proof.
  destruct (hcf_parse_expr_well_typed demo_addr 0 demo_addr_ok demo_front (snd (hcf_parse_expr demo_addr 0 demo_front)))
    as (prog & H1 & _ & H3).
  - apply some_inv. lia.
  - reflexivity.
  - vm_compute. reflexivity.
  - exists prog. split; [exact H1|]. apply H3. rewrite <- (removelast_last prog RET).
    assert (E : prog ++ [RET] = default [] (hc_parse (f_bc (snd (hcf_parse_expr demo_addr 0 demo_front)) ++ [hc_code HC_RET]))) by (rewrite H1; reflexivity).
    rewrite E. vm_compute. reflexivity.
Defined.

(** ** Where the code falls short *)

(** A call overflows the buffer.  The room for the call is tested before the conversion of
    its argument takes a byte of it: with 18 bytes free, [Cos(2)] is accepted and writes 19. *)
Theorem call_overflows_buffer host_addr g_hc_mem :
  let '(r, f) := hcf_parse_expr host_addr g_hc_mem (start "Cos(2)" 18 no_tables) in
  r = Done tt /\ Z.of_nat (length (f_bc f)) = f_cap f + 1.
Proof. vm_compute. split; reflexivity. Qed.

(** A function without arguments has the type of what came before.  [Rand] returns an I64, and
    [x = Rand()] is accepted only if the last value parsed was not an F64: the flag is not reset. *)
Theorem result_type_is_stale host_addr g_hc_mem :
  let x_gets_rand := fun before => fst (hcf_parse_expr host_addr g_hc_mem (set_f64 before (start "x = Rand()" 200 some_tables))) in
  x_gets_rand false = Done tt /\ x_gets_rand true = Bad.
Proof. vm_compute. split; reflexivity. Qed.
