(* ===== verification/HcFrontExpr.v ===== *)
(** * The HolyC front end: what an integer expression means

    [reads t k e l rest]: with the tables [t], the text [l] begins with the expression [e] at level
    [k] of the grammar, and [rest] follows.  The levels are those of C, from the primary
    expressions (0) through [*] (1), [+], [<<], [&], [^] and [|] (6) to one comparison (7); the
    operators of 1 to 6 are left associative.  [eval] is the value of an expression, [gen] its code. *)

From S2P Require Import Prelude A64 A64Sem HcIr HcIrSem HcIrGen HcFront HcFrontPrim HcFrontCode.
#[local] Open Scope Z_scope.

Inductive iexpr :=
| Num (digits : list Z)
| Var (name : list Z)
| Neg (e : iexpr)
| Not (e : iexpr)
| Bin (op : hc_op) (e1 e2 : iexpr).

(** A name of a plain I64 in the tables. *)
Definition i64_var (t : tables) (s : list Z) : option hc_var :=
  let id := hcf_lookup t s in
  let v := nth_var t id in
  if (0 <=? id) && negb (v_is_ptr v) && (v_type v =? HC_TYPE_NONE) && (v_stride v =? 8) && (v_count v <=? 1) && negb (v_is_f64 v)
  then Some v else None.

(** ** The grammar *)

(** The operator at the head of a text that does not begin with a blank: its level, its
    instruction and its length. *)
Definition peek_op (l : list Z) : option (nat * hc_op * nat) :=
  let c := nth 0 l 0 in let d := nth 1 l 0 in
  if (c =? 42) && negb (d =? 61) then Some (1%nat, HC_MUL, 1%nat)
  else if (c =? 47) && negb (d =? 61) then Some (1%nat, HC_DIV, 1%nat)
  else if (c =? 37) && negb (d =? 61) then Some (1%nat, HC_MOD, 1%nat)
  else if c =? 43 then Some (2%nat, HC_ADD, 1%nat)
  else if c =? 45 then Some (2%nat, HC_SUB, 1%nat)
  else if (c =? 60) && (d =? 60) then Some (3%nat, HC_SHL, 2%nat)
  else if (c =? 62) && (d =? 62) then Some (3%nat, HC_ASR, 2%nat)
  else if (c =? 38) && negb (d =? 38) then Some (4%nat, HC_AND, 1%nat)
  else if c =? 94 then Some (5%nat, HC_XOR, 1%nat)
  else if (c =? 124) && negb (d =? 124) then Some (6%nat, HC_OR, 1%nat)
  else if (c =? 61) && (d =? 61) then Some (7%nat, HC_EQ, 2%nat)
  else if (c =? 33) && (d =? 61) then Some (7%nat, HC_NE, 2%nat)
  else if (c =? 60) && (d =? 61) then Some (7%nat, HC_LE, 2%nat)
  else if (c =? 62) && (d =? 61) then Some (7%nat, HC_GE, 2%nat)
  else if c =? 60 then Some (7%nat, HC_LT, 1%nat)
  else if c =? 62 then Some (7%nat, HC_GT, 1%nat)
  else None.

(** No operator of level [k] follows. *)
Definition closed (k : nat) (rest : list Z) : Prop :=
  match peek_op (skip rest) with Some (j, _, _) => j <> k | None => True end.

(** What may follow a number, and a variable. *)
Definition ends_number (ds rest : list Z) : bool :=
  let c := nth 0 rest 0 in
  negb (is_digit c) && negb (c =? 46) && negb ((nth 0 ds 0 =? 48) && ((nth 1 (ds ++ rest) 0 =? 120) || (nth 1 (ds ++ rest) 0 =? 88))).
Definition ends_name (rest : list Z) : bool :=
  let l := skip rest in
  let c := nth 0 l 0 in let d := nth 1 l 0 in
  negb (hcf_ident_char (nth 0 rest 0)) && negb (c =? 40) && negb (c =? 91) && negb (c =? 46) &&
  negb ((c =? 45) && (d =? 62)) && negb ((c =? 61) && negb (d =? 61)).
Definition variable_name (s : list Z) : bool :=
  hcf_ident_start (nth 0 s 0) && forallb hcf_ident_char s && negb (is_name "sizeof" s) && negb (is_name "pi" s) &&
  match literal_name s with Some _ => false | None => true end.

Inductive reads (t : tables) : nat -> iexpr -> list Z -> list Z -> Prop :=
| reads_num ds l rest : skip l = ds ++ rest -> ds <> [] -> forallb is_digit ds = true -> ends_number ds rest = true ->
    reads t 0 (Num ds) l rest
| reads_var s v l rest : skip l = s ++ rest -> variable_name s = true -> i64_var t s = Some v -> ends_name rest = true ->
    reads t 0 (Var s) l rest
| reads_paren e l l1 l2 rest : skip l = 40 :: l1 -> reads t 7 e l1 l2 -> skip l2 = 41 :: rest -> reads t 0 e l rest
| reads_neg e l l1 rest : skip l = 45 :: l1 -> reads t 0 e l1 rest -> reads t 0 (Neg e) l rest
| reads_not e l l1 rest : skip l = 33 :: l1 -> reads t 0 e l1 rest -> reads t 0 (Not e) l rest
| reads_next k e l rest : (k < 7)%nat -> reads t k e l rest -> closed k rest -> closed 7 rest \/ (k < 6)%nat -> reads t (S k) e l rest
| reads_bin k op n e1 e2 l l1 rest : (k < 6)%nat -> reads t (S k) e1 l l1 -> peek_op (skip l1) = Some (S k, op, n) ->
    reads t k e2 (drop n (skip l1)) rest -> closed k rest -> reads t (S k) (Bin op e1 e2) l rest
| reads_cmp op n e1 e2 l l1 rest : reads t 6 e1 l l1 -> peek_op (skip l1) = Some (7%nat, op, n) ->
    reads t 6 e2 (drop n (skip l1)) rest -> closed 6 rest -> reads t 7 (Bin op e1 e2) l rest.

(** The text goes on with nothing that belongs to the expression. *)
Definition ends_expr (rest : list Z) : bool :=
  let c := nth 0 (skip rest) 0 in let d := nth 1 (skip rest) 0 in
  negb ((c =? 38) && (d =? 38)) && negb ((c =? 124) && (d =? 124)) && negb (c =? 63).

(** ** Value and code *)

Definition dec_number (ds : list Z) : Z := u64 (fold_left (fun v c => 10 * v + (c - 48)) ds 0).
Definition is_compare (op : hc_op) : bool :=
  match op with HC_EQ | HC_NE | HC_LT | HC_LE | HC_GT | HC_GE => true | _ => false end.

Section Values.
Context (t : tables) (g_hc_fp g_hc_mem : Z) (m : memory).

Definition var_at (s : list Z) : Z :=
  match i64_var t s with
  | Some v => if v_is_global v then abs_addr g_hc_mem (u8 (v_base v)) else slot_addr g_hc_fp g_hc_mem m (u8 (v_base v))
  | None => 0
  end.

Fixpoint eval (e : iexpr) : Z :=
  match e with
  | Num ds => dec_number ds
  | Var s => load 8 m (var_at s)
  | Neg e => u64 (- eval e)
  | Not e => Z.b2z (eval e =? 0)
  | Bin op e1 e2 => if is_compare op then compare op (eval e1) (eval e2) else binop op (eval e1) (eval e2)
  end.

(** The variables lie outside the machine stack. *)
Fixpoint reachable (lo hi : Z) (e : iexpr) : bool :=
  match e with
  | Num _ => true
  | Var s => accessible lo hi (var_at s) 8
  | Neg e | Not e => reachable lo hi e
  | Bin _ e1 e2 => reachable lo hi e1 && reachable lo hi e2
  end.
End Values.

Fixpoint gen (t : tables) (e : iexpr) : list hinsn :=
  match e with
  | Num ds => [mk_h HC_IMM64 (dec_number ds) 0]
  | Var s => match i64_var t s with Some v => [mk_h (if v_is_global v then HC_LD_ABS else HC_LD_SLOT) (u8 (v_base v)) 0] | None => [] end
  | Neg e => gen t e ++ [mk_h HC_NEG 0 0]
  | Not e => gen t e ++ [mk_h HC_IMM64 0 0; mk_h HC_EQ 0 0]
  | Bin op e1 e2 => gen t e1 ++ gen t e2 ++ [mk_h op 0 0]
  end.

(** The values an expression holds at once. *)
Fixpoint need (e : iexpr) : Z :=
  match e with
  | Num _ | Var _ => 1
  | Neg e => need e
  | Not e => Z.max (need e) 2
  | Bin _ e1 e2 => Z.max (need e1) (1 + need e2)
  end.

(** Known variables and operators. *)
Fixpoint proper (t : tables) (e : iexpr) : bool :=
  match e with
  | Num _ => true
  | Var s => match i64_var t s with Some _ => true | None => false end
  | Neg e | Not e => proper t e
  | Bin op e1 e2 =>
      match op with
      | HC_MUL | HC_DIV | HC_MOD | HC_ADD | HC_SUB | HC_SHL | HC_ASR | HC_AND | HC_XOR | HC_OR
      | HC_EQ | HC_NE | HC_LE | HC_GE | HC_LT | HC_GT => proper t e1 && proper t e2
      | _ => false
      end
  end.

(** ** The HolyC front end: running an integer expression

    The code of an expression computes its value, within the stack it needs. *)


Lemma need_pos e : 1 <= need e.
Proof. induction e; cbn; lia. Qed.

Lemma peek_op_proper t l k op n e1 e2 : peek_op l = Some (k, op, n) -> proper t e1 = true -> proper t e2 = true -> proper t (Bin op e1 e2) = true.
Proof.
  unfold peek_op. intros E H1 H2. cbn [proper]. rewrite H1, H2.
  repeat match type of E with (if ?b then _ else _) = _ => destruct b; [injection E as <- <- <-; reflexivity|] end. discriminate E.
Qed.

Lemma reads_proper t k e l rest : reads t k e l rest -> proper t e = true.
Proof. intros H. induction H; auto; try (eapply peek_op_proper; eassumption). cbn [proper]. rewrite H1. reflexivity. Qed.

Section Run.
Context `{Fpu} `{HostFns}.
Context (t : tables) (g_hc_fp g_hc_alloc g_hc_mem lo hi : Z) (prog : list hinsn).

Abbreviation exec := (ir_exec g_hc_fp g_hc_alloc g_hc_mem lo hi prog).
Abbreviation value m e := (eval t g_hc_fp g_hc_mem m e).

(** Code at a place of the program. *)
Definition code_here (k : nat) (cs : list hinsn) : Prop := exists pre post, prog = pre ++ cs ++ post /\ length pre = k.

Lemma here_app k cs1 cs2 : code_here k (cs1 ++ cs2) -> code_here k cs1 /\ code_here (k + length cs1) cs2.
Proof.
  intros (pre & post & E & <-). split; [exists pre, (cs2 ++ post); rewrite E, <- app_assoc; auto|].
  exists (pre ++ cs1), post. rewrite E, length_app, <- !app_assoc. auto.
Qed.

Lemma here_insn k i cs : code_here k (i :: cs) -> prog !! k = Some i.
Proof. intros (pre & post & E & <-). rewrite E, lookup_app_r, Nat.sub_diag by lia. reflexivity. Qed.

Lemma gen_exec e : forall s v m', proper t e = true -> reachable t g_hc_fp g_hc_mem (i_mem s) lo hi e = true -> code_here (i_pc s) (gen t e) ->
  exec (mk_ir (i_pc s + length (gen t e)) (value (i_mem s) e :: i_stack s) (i_locals s) (i_frame s) (i_args s) (i_mem s)) v m' -> exec s v m'.
Proof.
  induction e as [ds|x|e IH|e IH|op e1 IH1 e2 IH2]; intros s v m' Hp Hr Hc He; cbn [proper reachable gen eval] in *.
  - eapply ir_exec_step; [|exact He]. unfold ir_step. rewrite (here_insn _ _ _ Hc). cbn [length]. rewrite Nat.add_1_r. reflexivity.
  - unfold var_at in *. destruct (i64_var t x) as [w|] eqn:E; [|discriminate]. eapply ir_exec_step; [|exact He]. unfold ir_step.
    rewrite (here_insn _ _ _ Hc). cbn [length]. rewrite Nat.add_1_r. destruct (v_is_global w); unfold load_ok; rewrite Hr; reflexivity.
  - apply here_app in Hc as [J1 J2]. rewrite length_app in He. cbn [length] in He. eapply IH; [exact Hp | exact Hr | exact J1|].
    eapply ir_exec_step; [|exact He]. unfold ir_step. cbn [i_pc i_stack]. rewrite (here_insn _ _ _ J2). do 3 f_equal. lia.
  - apply here_app in Hc as [J1 J2]. rewrite length_app in He. cbn [length] in He. eapply IH; [exact Hp | exact Hr | exact J1|].
    pose proof (here_app _ [_] [_] J2) as [J3 J4].
    eapply ir_exec_step; [unfold ir_step; cbn [i_pc i_stack]; rewrite (here_insn _ _ _ J3); reflexivity|].
    eapply ir_exec_step; [|exact He]. unfold ir_step. cbn [i_pc i_stack]. rewrite (here_insn (S (i_pc s + length (gen t e))) (mk_h HC_EQ 0 0) []).
    + do 3 f_equal. lia.
    + replace (S (i_pc s + length (gen t e))) with (i_pc s + length (gen t e) + 1)%nat by lia. exact J4.
  - assert (Hq : proper t e1 = true /\ proper t e2 = true) by (destruct op; try discriminate; bool_hyps; auto). destruct Hq as [P1 P2].
    bool_hyps. apply here_app in Hc as [J1 J2]. apply here_app in J2 as [J2 J3]. rewrite !length_app in He. cbn [length] in He.
    eapply IH1; [exact P1 | assumption | exact J1|]. eapply IH2; [exact P2 | assumption | exact J2|].
    eapply ir_exec_step; [|exact He]. unfold ir_step. cbn [i_pc i_stack i_mem i_locals i_frame i_args]. rewrite (here_insn _ _ _ J3).
    destruct op; try discriminate Hp; cbn [is_compare]; do 3 f_equal; lia.
Qed.
End Run.

(** ** The stack it needs *)

Lemma gen_within t e : forall k cs sp, proper t e = true -> 0 <= sp -> sp + need e <= k -> within k cs (sp + 1) = true -> within k (gen t e ++ cs) sp = true.
Proof.
  assert (one : forall i k cs sp sp', step_depth i sp = Some sp' -> sp <= k -> within k cs sp' = true -> within k (i :: cs) sp = true).
  { intros i k cs sp sp' E Hs Hw. cbn [within]. unfold after. rewrite E, Hw. apply andb_true_iff. split; [apply Z.leb_le, Hs | reflexivity]. }
  induction e as [ds|x|e IH|e IH|op e1 IH1 e2 IH2]; intros k cs sp Hp Hs Hn Hw; cbn [proper need gen] in *.
  - eapply one; [eapply step_to; [reflexivity | lia | reflexivity] | lia|]. replace (sp - 0 + 1) with (sp + 1) by lia. exact Hw.
  - destruct (i64_var t x) as [w|]; [|discriminate]. eapply (one _ _ _ _ (sp + 1)); [|lia | exact Hw].
    destruct (v_is_global w); (eapply step_to; [reflexivity | lia | lia]).
  - rewrite <- app_assoc. apply IH; [exact Hp | exact Hs | exact Hn|]. eapply (one _ _ _ _ (sp + 1)); [|pose proof (need_pos e); lia | exact Hw].
    eapply step_to; [reflexivity | lia | lia].
  - rewrite <- app_assoc. apply IH; [exact Hp | exact Hs | lia|]. eapply (one _ _ _ _ (sp + 2)); [|lia|]; [eapply step_to; [reflexivity | lia | lia]|].
    eapply (one _ _ _ _ (sp + 1)); [|lia | exact Hw]. eapply step_to; [reflexivity | lia | lia].
  - assert (Hq : proper t e1 = true /\ proper t e2 = true /\ stack_use op = Some (2, 1)) by (destruct op; try discriminate; bool_hyps; auto).
    destruct Hq as (P1 & P2 & Hu). pose proof (need_pos e2). rewrite <- !app_assoc. apply IH1; [exact P1 | exact Hs | lia|].
    apply IH2; [exact P2 | lia | lia|]. eapply (one _ _ _ _ (sp + 1)); [|lia | exact Hw]. eapply step_to; [exact Hu | lia | lia].
Qed.

(** The code is packable and calls nothing. *)
Lemma gen_insns t e : proper t e = true -> forallb insn_ok (gen t e) = true /\ Forall (fun i => ~ In (h_op i) calls) (gen t e).
Proof.
  induction e as [ds|x|e IH|e IH|op e1 IH1 e2 IH2]; intros Hp; cbn [proper gen] in *; rewrite ?forallb_app, ?Forall_app.
  - assert (Hr : is_u 64 (dec_number ds)) by (apply wrap_range; lia). unfold is_u in Hr. change (2 ^ 64) with 18446744073709551616 in Hr.
    split; [unfold insn_ok, packable, operand_ok; cbn [forallb operands_of h_op h_a h_b]; zgoal|].
    repeat constructor. cbn. intuition discriminate.
  - destruct (i64_var t x) as [w|]; [|discriminate]. pose proof (u8_range (v_base w)) as Hr.
    split; [unfold insn_ok, packable, operand_ok; destruct (v_is_global w); cbn [forallb operands_of h_op h_a h_b]; zgoal|].
    repeat constructor. destruct (v_is_global w); cbn; intuition discriminate.
  - destruct (IH Hp) as [I1 I2]. rewrite I1. split; [reflexivity|]. split; [exact I2|]. repeat constructor. cbn. intuition discriminate.
  - destruct (IH Hp) as [I1 I2]. rewrite I1. split; [reflexivity|]. split; [exact I2|]. repeat constructor; cbn; intuition discriminate.
  - assert (Hq : proper t e1 = true /\ proper t e2 = true /\ insn_ok (mk_h op 0 0) = true /\ ~ In op calls).
    { destruct op; try discriminate; bool_hyps; repeat split; auto; cbn; intuition discriminate. }
    destruct Hq as (P1 & P2 & P3 & P4). destruct (IH1 P1) as [I1 I2], (IH2 P2) as [I3 I4]. rewrite I1, I3. cbn [forallb]. rewrite P3.
    split; [reflexivity|]. repeat split; [exact I2 | exact I4 |]. repeat constructor. exact P4.
Qed.
