(* ===== verification/HcFrontExprRun.v ===== *)
(** * The HolyC front end: reading an integer expression

    The parser, run on a text that [reads] as an expression, emits the expression's code. *)

From S2P Require Import Prelude A64 A64Sem HcIr HcIrSem HcFront HcFrontPrim HcFrontOps HcFrontCode HcFrontSpec HcFrontExpr.
#[local] Open Scope Z_scope.

(** ** Texts *)

Lemma reads_skip t k e l rest : reads t k e l rest -> reads t k e (skip l) rest.
Proof.
  intros H. pose proof (skip_idem l) as Hs. induction H.
  - apply reads_num; congruence.
  - eapply reads_var; try eassumption. congruence.
  - eapply reads_paren; [rewrite Hs | |]; eassumption.
  - eapply reads_neg; [rewrite Hs|]; eassumption.
  - eapply reads_not; [rewrite Hs|]; eassumption.
  - apply reads_next; auto.
  - eapply reads_bin; eauto.
  - eapply reads_cmp; eauto.
Qed.

Lemma skip_cons l c l1 : skip l = c :: l1 -> (length l1 < length l)%nat.
Proof. intros E. pose proof (skip_le l) as H. rewrite E in H. cbn in H. lia. Qed.

Lemma peek_op_some l k op n : peek_op l = Some (k, op, n) ->
  nth 0 l 0 <> 0 /\ (1 <= n)%nat /\ (1 <= k <= 7)%nat /\ operands_of op = Op0 /\ hc_code op <> hc_code HC_END.
Proof.
  unfold peek_op. intros E. repeat match type of E with (if ?b then _ else _) = _ => destruct b eqn:?; [injection E as <- <- <-|] end;
    bool_hyps; zbool; try discriminate E; repeat split; try lia; try (vm_compute; congruence).
Qed.

Lemma drop_op_lt l k op n : peek_op (skip l) = Some (k, op, n) -> (length (drop n (skip l)) < length l)%nat.
Proof.
  intros E. apply peek_op_some in E as (H & Hn & _). apply peek_some in H. pose proof (skip_le l). rewrite length_drop. lia.
Qed.

Lemma reads_len t k e l rest : reads t k e l rest -> (length rest < length l)%nat.
Proof.
  intros H. induction H; repeat match goal with E : skip _ = _ :: _ |- _ => apply skip_cons in E end;
    repeat match goal with E : peek_op _ = Some _ |- _ => apply drop_op_lt in E end; try lia.
  - pose proof (skip_le l) as Hl. rewrite H, length_app in Hl. destruct ds; [congruence | cbn in Hl; lia].
  - pose proof (skip_le l) as Hl. rewrite H, length_app in Hl. destruct s; [discriminate | cbn in Hl; lia].
Qed.

Lemma span_exact test s rest : forallb test s = true -> test (nth 0 rest 0) = false -> span test (s ++ rest) = (s, rest).
Proof.
  intros Hs Hr. induction s as [|c s IH]; cbn in *.
  - destruct rest as [|c rest]; cbn in *; [reflexivity|]. rewrite Hr. reflexivity.
  - bool_hyps. rewrite H, IH by assumption. reflexivity.
Qed.

(** ** The value of a number *)

Lemma dec_fold ds : forall v, fold_left dec_step ds (u64 v) = u64 (fold_left (fun v c => 10 * v + (c - 48)) ds v).
Proof.
  induction ds as [|c ds IH]; intros v; cbn [fold_left]; [reflexivity|]. rewrite <- IH. f_equal. unfold dec_step, u64, wrap.
  rewrite Z.add_mod_idemp_l by lia. rewrite <- (Z.add_mod_idemp_l (v mod 2 ^ 64 * 10)) by lia. rewrite Z.mul_mod_idemp_l by lia.
  rewrite Z.add_mod_idemp_l by lia. f_equal. lia.
Qed.
Lemma dec_number_fold ds : fold_left dec_step ds 0 = dec_number ds.
Proof. apply (dec_fold ds 0). Qed.

(** ** Runs *)

Definition code (cs : list hinsn) : list Z := concat (map pack_insn cs).
Lemma code_app cs1 cs2 : code (cs1 ++ cs2) = code cs1 ++ code cs2.
Proof. unfold code. rewrite map_app. apply concat_app. Qed.

Lemma bind_done {A B} (m : P A) (k : A -> P B) f a f' : m f = (Done a, f') -> pbind m k f = k a f'.
Proof. unfold pbind. intros ->. reflexivity. Qed.

(** A loop that comes to an end, turn by turn. *)
Inductive loop_runs (body : unit -> P (bool * unit)) : front -> front -> Prop :=
| loop_stop f r : body tt f = (Done (false, tt), r) -> loop_runs body f r
| loop_go f f1 r : body tt f = (Done (true, tt), f1) -> (length (f_p f1) < length (f_p f))%nat -> loop_runs body f1 r -> loop_runs body f r.

Lemma forever_loop body f r : loop_runs body f r -> forever body tt f = (Done tt, r).
Proof.
  intros H. assert (Ht : forall n, (length (f_p f) < n)%nat -> turns n body tt f = (Done tt, r)).
  { induction H as [f r E|f f1 r E Hl H IH]; intros [|n] Hn; try lia; cbn [turns]; rewrite (bind_done _ _ _ _ _ E); [reflexivity|].
    apply IH. lia. }
  apply Ht. lia.
Qed.

Section Runs.
Context (host_addr : String.string -> Z) (g_hc_mem : Z) (cap : Z) (err : bool) (t : tables).

Definition at_ (l bc : list Z) (fl : bool) : front := mk_front l bc cap err fl t.
Definition fits (bc : list Z) (cs : list hinsn) : Prop := Z.of_nat (length bc) + Z.of_nat (length (code cs)) <= cap.

Lemma fits_app bc cs1 cs2 : fits bc (cs1 ++ cs2) -> fits bc cs1 /\ fits (bc ++ code cs1) cs2.
Proof. unfold fits. rewrite code_app, !length_app. lia. Qed.

Lemma run_emit op l bc fl : fits bc [mk_h op 0 0] -> operands_of op = Op0 ->
  hcf_emit op (at_ l bc fl) = (Done tt, at_ l (bc ++ code [mk_h op 0 0]) fl).
Proof.
  intros Hf Ho. assert (E : code [mk_h op 0 0] = [hc_code op]) by (destruct op; try discriminate Ho; reflexivity).
  unfold fits in Hf. rewrite E in *. cbn [length] in Hf. unfold hcf_emit, emit_bytes. cbn [at_ f_cap f_bc].
  rewrite (proj2 (Z.ltb_ge cap _)) by lia. reflexivity.
Qed.

Lemma run_emit_u8 op x l bc fl : fits bc [mk_h op (u8 x) 0] -> operands_of op = OpByte ->
  hcf_emit_u8 op x (at_ l bc fl) = (Done tt, at_ l (bc ++ code [mk_h op (u8 x) 0]) fl).
Proof.
  intros Hf Ho. assert (E : code [mk_h op (u8 x) 0] = [hc_code op; u8 x]).
  { destruct op; try discriminate Ho; cbn; unfold hc_pack_u8op; try (rewrite (u8_id (u8 x)) by apply u8_range); reflexivity. }
  unfold fits in Hf. rewrite E in *. cbn [length] in Hf. unfold hcf_emit_u8, emit_bytes. cbn [at_ f_cap f_bc].
  rewrite (proj2 (Z.ltb_ge cap _)) by lia. reflexivity.
Qed.

Lemma run_imm v l bc fl : fits bc [mk_h HC_IMM64 v 0] -> hcf_imm v (at_ l bc fl) = (Done tt, at_ l (bc ++ code [mk_h HC_IMM64 v 0]) false).
Proof.
  intros Hf. assert (E : code [mk_h HC_IMM64 v 0] = hc_pack_imm64 v) by apply app_nil_r.
  unfold fits in Hf. rewrite E in *. change (length (hc_pack_imm64 v)) with 9%nat in Hf. unfold hcf_imm, emit_bytes, pbind. cbn [at_ f_cap f_bc].
  rewrite (proj2 (Z.ltb_ge cap _)) by lia. reflexivity.
Qed.

Lemma run_skip l bc fl : hcf_skip (at_ l bc fl) = (Done tt, at_ (skip l) bc fl).
Proof. reflexivity. Qed.

(** ** Operators *)

Definition opr (k : nat) : P (option hc_op) :=
  match k with
  | 1 => term_op | 2 => add_op | 3 => shift_op | 4 => one_op 38 HC_AND | 5 => bxor_op | _ => one_op 124 HC_OR
  end%nat.

Definition found (k : nat) (l : list Z) : option hc_op * list Z :=
  match peek_op l with Some (j, op, n) => if Nat.eqb j k then (Some op, drop n l) else (None, l) | None => (None, l) end.

Lemma run_opr k l bc fl : (1 <= k <= 6)%nat -> opr k (at_ l bc fl) = (Done (fst (found k (skip l))), at_ (snd (found k (skip l))) bc fl).
Proof.
  intros Hk. assert (E : (k = 1 \/ k = 2 \/ k = 3 \/ k = 4 \/ k = 5 \/ k = 6)%nat) by lia.
  unfold found, peek_op. set (s := skip l).
  repeat destruct E as [->|E]; try subst k; cbn [opr];
    unfold term_op, add_op, shift_op, two_op, one_op, bxor_op, hcf_skip, peek, advance, pbind, pget, pmod, pret; cbn [at_ set_p f_p f_bc f_cap f_err expr_f64 tabs]; fold s;
    repeat (case_if; cbn [f_p set_p]; bool_hyps; zbool; try lia; try reflexivity).
Qed.

(** ** Levels *)

Definition lev (prim : P unit) (k : nat) : P unit :=
  match k with
  | 0 => prim | 1 => hcf_parse_term prim | 2 => hcf_parse_add prim | 3 => hcf_parse_shift prim | 4 => hcf_parse_band prim
  | 5 => hcf_parse_bxor prim | 6 => hcf_parse_bor prim | _ => hcf_parse_cmp prim
  end%nat.
Definition lturn (prim : P unit) (k : nat) : hc_op -> P unit :=
  match k with 1 => term_turn prim | 2 => add_turn prim | _ => int_turn (lev prim (k - 1)) end%nat.
Definition lbody (prim : P unit) (k : nat) : unit -> P (bool * unit) := level_turn (opr k) (lturn prim k).

Lemma lev_level prim k : (k < 6)%nat -> lev prim (S k) = (lev prim k ;;; forever (lbody prim (S k)) tt)%front.
Proof.
  intros Hk. assert (E : (k = 0 \/ k = 1 \/ k = 2 \/ k = 3 \/ k = 4 \/ k = 5)%nat) by lia.
  repeat destruct E as [->|E]; try subst k; reflexivity.
Qed.

Lemma run_turn prim k op l bc l' bc' : (1 <= k <= 6)%nat -> operands_of op = Op0 -> fits bc' [mk_h op 0 0] ->
  lev prim (k - 1) (at_ l bc false) = (Done tt, at_ l' bc' false) ->
  lturn prim k op (at_ l bc false) = (Done tt, at_ l' (bc' ++ code [mk_h op 0 0]) false).
Proof.
  intros Hk Ho Hf Hl. pose proof (run_emit op l' bc' false Hf Ho) as He.
  assert (Hi : int_turn (lev prim (k - 1)) op (at_ l bc false) = (Done tt, at_ l' (bc' ++ code [mk_h op 0 0]) false)).
  { unfold int_turn, or_refuse, pbind, pget. cbn [at_ expr_f64]. fold (at_ l bc false). rewrite Hl. cbn [at_ expr_f64]. fold (at_ l' bc' false).
    rewrite He. reflexivity. }
  assert (Ha : forall fop, arith op fop false (at_ l' bc' false) = (Done tt, at_ l' (bc' ++ code [mk_h op 0 0]) false)).
  { intros fop. unfold arith, pbind, pget. cbn [at_ expr_f64 andb orb]. fold (at_ l' bc' false). rewrite He. reflexivity. }
  assert (E : (k = 1 \/ k = 2 \/ (k <> 1 /\ k <> 2))%nat) by lia. destruct E as [-> | [-> | [N1 N2]]].
  - cbn [lturn lev Nat.sub] in *. unfold term_turn, pbind, pget. cbn [at_ expr_f64]. fold (at_ l bc false). rewrite Hl. apply Ha.
  - cbn [lturn lev Nat.sub] in *. unfold add_turn, pbind, pget. cbn [at_ expr_f64]. fold (at_ l bc false). rewrite Hl. apply Ha.
  - replace (lturn prim k) with (int_turn (lev prim (k - 1))) by (destruct k as [|[|[|k]]]; try lia; reflexivity). exact Hi.
Qed.

(** The turn of a loop where no operator of its level follows, and where one does. *)
Lemma run_stop prim k l bc : (1 <= k <= 6)%nat -> closed k l -> lbody prim k tt (at_ l bc false) = (Done (false, tt), at_ (skip l) bc false).
Proof.
  intros Hk Hc. unfold lbody, level_turn. rewrite (bind_done _ _ _ _ _ (run_opr k l bc false Hk)). unfold found, closed in *.
  destruct (peek_op (skip l)) as [[[j op] n]|]; [|reflexivity]. rewrite (proj2 (Nat.eqb_neq j k)) by exact Hc. reflexivity.
Qed.

Lemma run_go prim k op n l bc l' bc' : (1 <= k <= 6)%nat -> peek_op (skip l) = Some (k, op, n) -> fits bc' [mk_h op 0 0] ->
  lev prim (k - 1) (at_ (drop n (skip l)) bc false) = (Done tt, at_ l' bc' false) ->
  lbody prim k tt (at_ l bc false) = (Done (true, tt), at_ l' (bc' ++ code [mk_h op 0 0]) false).
Proof.
  intros Hk Hp Hf Hl. unfold lbody, level_turn. rewrite (bind_done _ _ _ _ _ (run_opr k l bc false Hk)). unfold found. rewrite Hp, Nat.eqb_refl.
  cbn [fst snd]. apply peek_op_some in Hp as (_ & _ & _ & Ho & _). rewrite (bind_done _ _ _ _ _ (run_turn prim k op _ _ _ _ Hk Ho Hf Hl)). reflexivity.
Qed.

Lemma lbody_skip prim k l bc : (1 <= k <= 6)%nat -> lbody prim k tt (at_ l bc false) = lbody prim k tt (at_ (skip l) bc false).
Proof. intros Hk. unfold lbody, level_turn, pbind. rewrite !run_opr, skip_idem by exact Hk. reflexivity. Qed.

Lemma loop_skip prim k l l' bc r : (1 <= k <= 6)%nat -> skip l' = skip l -> loop_runs (lbody prim k) (at_ (skip l) bc false) r ->
  loop_runs (lbody prim k) (at_ l' bc false) r.
Proof.
  intros Hk Hs H. pose proof (skip_le l') as Hl. inversion H as [f r' E|f f1 r' E Hlt Hr]; subst.
  - apply loop_stop. rewrite lbody_skip, Hs by exact Hk. exact E.
  - eapply loop_go; [rewrite lbody_skip, Hs by exact Hk; exact E | | exact Hr]. cbn [at_ f_p] in *. rewrite Hs in Hl. lia.
Qed.
(** ** Primary expressions *)

Lemma kw_absent kw l bc fl : match strip (S_ kw) (skip l) with Some r => hcf_ident_char (nth 0 r 0) = true | None => True end ->
  hcf_kw kw (at_ l bc fl) = (Done false, at_ (skip l) bc fl).
Proof.
  intros H. unfold hcf_kw, pbind, hcf_skip, pmod, pget. cbn [at_ set_p f_p f_bc f_cap f_err expr_f64 tabs].
  destruct (strip (S_ kw) (skip l)); [rewrite H|]; reflexivity.
Qed.

Lemma run_expect c l l1 bc fl : skip l = c :: l1 -> hcf_expect c (at_ l bc fl) = (Done tt, at_ l1 bc fl).
Proof.
  intros E. unfold hcf_expect, pbind, hcf_skip, peek, advance, pmod, pget. cbn [at_ set_p f_p f_bc f_cap f_err expr_f64 tabs].
  rewrite E. cbn [nth]. rewrite Z.eqb_refl. reflexivity.
Qed.

Lemma run_peek i l bc fl : peek i (at_ l bc fl) = (Done (nth i l 0), at_ l bc fl).
Proof. reflexivity. Qed.
Lemma run_advance n l bc fl : advance n (at_ l bc fl) = (Done tt, at_ (drop n l) bc fl).
Proof. reflexivity. Qed.
Lemma run_get {A} (h : front -> A) l bc fl : pget h (at_ l bc fl) = (Done (h (at_ l bc fl)), at_ l bc fl).
Proof. reflexivity. Qed.
Lemma run_tget {A} (h : tables -> A) l bc fl : tget h (at_ l bc fl) = (Done (h t), at_ l bc fl).
Proof. reflexivity. Qed.

(** One action of a run. *)
Ltac prun := erewrite bind_done by first [apply run_skip | apply run_peek | apply run_advance | apply run_tget | apply run_get | eassumption]; cbv beta iota zeta.

Section Prim.
Context (pp pe : P unit).
Let prim : P unit := hcf_parse_prim host_addr g_hc_mem pp pe.

Lemma prim_open l bc fl : prim (at_ l bc fl) = prim (at_ (skip l) bc fl).
Proof. unfold prim, hcf_parse_prim, pbind. rewrite !run_skip, skip_idem. reflexivity. Qed.

Lemma run_paren l l1 l2 rest bc bc' fl : skip l = 40 :: l1 -> pe (at_ l1 bc fl) = (Done tt, at_ l2 bc' false) -> skip l2 = 41 :: rest ->
  prim (at_ l bc fl) = (Done tt, at_ rest bc' false).
Proof.
  intros E H1 E2. unfold prim, hcf_parse_prim. repeat prun. rewrite E. cbn [nth Z.eqb Pos.eqb andb]. repeat prun. apply run_expect, E2.
Qed.

Ltac no_kw := erewrite bind_done; [|apply kw_absent].

Lemma run_neg l l1 l2 bc bc' fl : skip l = 45 :: l1 -> pp (at_ l1 bc fl) = (Done tt, at_ l2 bc' false) -> fits bc' [mk_h HC_NEG 0 0] ->
  prim (at_ l bc fl) = (Done tt, at_ l2 (bc' ++ code [mk_h HC_NEG 0 0]) false).
Proof.
  intros E H1 Hf. unfold prim, hcf_parse_prim. repeat prun. rewrite E. cbn [nth Z.eqb Pos.eqb andb].
  no_kw; [|rewrite <- E, skip_idem, E; exact I]. rewrite <- E at 1. rewrite skip_idem, E. cbv iota. repeat prun. apply run_emit; [exact Hf | reflexivity].
Qed.

Lemma run_not l l1 l2 bc bc' fl : skip l = 33 :: l1 -> pp (at_ l1 bc fl) = (Done tt, at_ l2 bc' false) -> fits bc' [mk_h HC_IMM64 0 0; mk_h HC_EQ 0 0] ->
  prim (at_ l bc fl) = (Done tt, at_ l2 (bc' ++ code [mk_h HC_IMM64 0 0; mk_h HC_EQ 0 0]) false).
Proof.
  intros E H1 Hf. unfold prim, hcf_parse_prim. repeat prun. rewrite E. cbn [nth Z.eqb Pos.eqb andb].
  no_kw; [|rewrite <- E, skip_idem, E; exact I]. rewrite <- E at 1. rewrite skip_idem, E. cbv iota. repeat prun.
  apply (fits_app _ [_] [_]) in Hf as [F1 F2]. erewrite bind_done by (apply run_imm, F1). rewrite run_emit; [|exact F2 | reflexivity].
  rewrite <- app_assoc, <- code_app. reflexivity.
Qed.

Lemma sizeof_chars : S_ "sizeof" = [115; 105; 122; 101; 111; 102].
Proof. reflexivity. Qed.
Lemma strip_sizeof c l : c <> 115 -> strip (S_ "sizeof") (c :: l) = None.
Proof. intros H. rewrite sizeof_chars. cbn [strip]. rewrite (proj2 (Z.eqb_neq c 115)) by exact H. reflexivity. Qed.

Lemma digit_facts c : is_digit c = true -> 48 <= c <= 57.
Proof. unfold is_digit. intros H. bool_hyps. zbool. lia. Qed.

(** Which branch of [hcf_parse_prim] a character takes. *)
Lemma prim_digit l c l1 bc fl : skip l = c :: l1 -> is_digit c = true -> prim (at_ l bc fl) = prim_number (at_ (c :: l1) bc fl).
Proof.
  intros E Hc. pose proof (digit_facts c Hc) as Hr. unfold prim, hcf_parse_prim. repeat prun. rewrite E. cbn [nth].
  rewrite (proj2 (Z.eqb_neq c 227)), (proj2 (Z.eqb_neq c 207)), (proj2 (Z.eqb_neq c 40)) by lia. cbn [andb].
  no_kw; [|rewrite <- E, skip_idem, E; rewrite strip_sizeof by lia; exact I].
  rewrite <- E at 1. rewrite skip_idem, E.
  rewrite (proj2 (Z.eqb_neq c 45)), (proj2 (Z.eqb_neq c 33)), (proj2 (Z.eqb_neq c 38)), (proj2 (Z.eqb_neq c 42)), (proj2 (Z.eqb_neq c 39)), Hc by lia.
  reflexivity.
Qed.

Lemma run_num ds l rest bc fl : skip l = ds ++ rest -> ds <> [] -> forallb is_digit ds = true -> ends_number ds rest = true ->
  fits bc [mk_h HC_IMM64 (dec_number ds) 0] ->
  prim (at_ l bc fl) = (Done tt, at_ rest (bc ++ code [mk_h HC_IMM64 (dec_number ds) 0]) false).
Proof.
  intros E Hne Hd He Hf. destruct ds as [|c ds]; [congruence|]. cbn [app] in E.
  rewrite (prim_digit l c (ds ++ rest)); [|exact E | cbn in Hd; bool_hyps; assumption].
  unfold ends_number in He. bool_hyps. unfold prim_number, is_0x. cbn [app nth] in *.
  erewrite bind_done by reflexivity. cbn [nth].
  match goal with N : (c =? 48) && _ = false |- (if ?b then _ else _) _ = _ => replace b with false by (symmetry; exact N) end.
  unfold scan. erewrite bind_done; [|cbn [at_ f_p]; change (c :: ds ++ rest) with ((c :: ds) ++ rest); rewrite span_exact by assumption; reflexivity].
  change (set_p rest (at_ (c :: ds ++ rest) bc fl)) with (at_ rest bc fl). prun.
  match goal with N : (nth 0 rest 0 =? 46) = false |- _ => rewrite N end. rewrite dec_number_fold.
  erewrite bind_done by reflexivity. apply (run_imm (dec_number (c :: ds)) rest bc false Hf).
Qed.

Lemma strip_word kw : forall s rest r, strip kw (s ++ rest) = Some r -> forallb hcf_ident_char kw = true ->
  hcf_ident_char (nth 0 rest 0) = false -> exists s', s = kw ++ s' /\ r = s' ++ rest.
Proof.
  induction kw as [|k kw IH]; intros s rest r; cbn [strip forallb].
  - intros [= <-] _ _. exists s. auto.
  - destruct s as [|c s]; cbn [app].
    + destruct rest as [|c rest]; [discriminate|]. destruct (c =? k) eqn:E; [|discriminate]. zbool. subst c. intros _ Hk Hr. bool_hyps. cbn in Hr. congruence.
    + destruct (c =? k) eqn:E; [|discriminate]. zbool. subst c. intros Hs Hk Hr. bool_hyps.
      destruct (IH s rest r) as (s' & -> & ->); auto. exists s'. auto.
Qed.

Lemma name_eq_refl s : name_eq s s = true.
Proof. induction s as [|c s IH]; cbn; [reflexivity|]. rewrite Z.eqb_refl. exact IH. Qed.

Lemma word_no_sizeof s rest : forallb hcf_ident_char s = true -> is_name "sizeof" s = false -> hcf_ident_char (nth 0 rest 0) = false ->
  match strip (S_ "sizeof") (s ++ rest) with Some r => hcf_ident_char (nth 0 r 0) = true | None => True end.
Proof.
  intros Hs Hn Hr. destruct (strip _ _) as [r|] eqn:E; [|exact I]. apply strip_word in E as (s' & -> & ->); [|reflexivity | exact Hr].
  destruct s' as [|c s']; [exfalso; unfold is_name in Hn; rewrite app_nil_r, name_eq_refl in Hn; discriminate|].
  rewrite forallb_app in Hs. bool_hyps. cbn in *. bool_hyps. assumption.
Qed.

Lemma ident_start_range c : hcf_ident_start c = true -> (65 <= c <= 122 \/ c = 233) /\ is_digit c = false.
Proof.
  unfold hcf_ident_start, is_digit. intros H. repeat (apply orb_true_iff in H as [H|H]); bool_hyps; zbool; split; try lia; apply andb_false_iff; right; apply Z.leb_gt; lia.
Qed.

Lemma prim_word l s rest bc fl : skip l = s ++ rest -> variable_name s = true -> hcf_ident_char (nth 0 rest 0) = false ->
  prim (at_ l bc fl) = prim_ident host_addr pe (at_ (s ++ rest) bc fl).
Proof.
  intros E Hv Hr. unfold variable_name in Hv. bool_hyps. destruct s as [|c s]; [discriminate|]. cbn [nth app] in *.
  match goal with Hi : hcf_ident_start c = true |- _ => destruct (ident_start_range c Hi) as [Hc Hd] end.
  unfold prim, hcf_parse_prim. repeat prun. rewrite E. cbn [nth].
  rewrite (proj2 (Z.eqb_neq c 227)), (proj2 (Z.eqb_neq c 207)), (proj2 (Z.eqb_neq c 40)) by lia. cbn [andb].
  no_kw; [|rewrite <- E, skip_idem, E; apply (word_no_sizeof (c :: s) rest); assumption].
  rewrite <- E at 1. rewrite skip_idem, E. cbv iota.
  rewrite (proj2 (Z.eqb_neq c 45)), (proj2 (Z.eqb_neq c 33)), (proj2 (Z.eqb_neq c 38)), (proj2 (Z.eqb_neq c 42)), (proj2 (Z.eqb_neq c 39)),
    (proj2 (Z.eqb_neq c 34)), Hd by lia.
  match goal with Hi : hcf_ident_start c = true |- _ => rewrite Hi end. reflexivity.
Qed.

Lemma i64_var_facts s v : i64_var t s = Some v ->
  v = nth_var t (hcf_lookup t s) /\ 0 <= hcf_lookup t s /\ v_is_ptr v = false /\ v_type v = HC_TYPE_NONE /\ v_stride v = 8 /\ v_count v <= 1 /\ v_is_f64 v = false.
Proof.
  unfold i64_var. cbv zeta. destruct (_ && _) eqn:E; [|discriminate]. intros [= <-]. bool_hyps. zbool. auto 10.
Qed.

Lemma run_ld_named s v l bc fl : i64_var t s = Some v -> fits bc (gen t (Var s)) ->
  hcf_ld_named (hcf_lookup t s) (at_ l bc fl) = (Done tt, at_ l (bc ++ code (gen t (Var s))) false).
Proof.
  intros Hv Hf. cbn [gen] in *. rewrite Hv in *. destruct (i64_var_facts s v Hv) as (E & _ & Hp & Ht & Hs & Hc & H64).
  assert (Hu : hcf_is_u32_scalar v = false) by (unfold hcf_is_u32_scalar; rewrite Hs; apply andb_false_iff; left; apply andb_false_r).
  unfold hcf_ld_named. erewrite bind_done.
  2: { unfold hcf_emit_var_ld, var. prun. rewrite <- E. apply run_emit_u8; [exact Hf | destruct (v_is_global v); reflexivity]. }
  unfold var. prun. rewrite <- E, Hu, H64. reflexivity.
Qed.

Lemma run_var s v l rest bc fl : skip l = s ++ rest -> variable_name s = true -> i64_var t s = Some v -> ends_name rest = true ->
  fits bc (gen t (Var s)) ->
  prim (at_ l bc fl) = (Done tt, at_ (skip rest) (bc ++ code (gen t (Var s))) false).
Proof.
  intros E Hn Hv He Hf. unfold ends_name in He. cbv zeta in He. bool_hyps. rewrite (prim_word l s rest) by assumption.
  unfold variable_name in Hn. bool_hyps. destruct (i64_var_facts s v Hv) as (Ev & Hid & Hp & Ht & Hs & Hc & H64).
  unfold prim_ident, ident, scan. erewrite bind_done; [|cbn [at_ f_p]; rewrite span_exact by assumption; reflexivity].
  change (set_p rest (at_ (s ++ rest) bc fl)) with (at_ rest bc fl).
  destruct (literal_name s); [discriminate|].
  match goal with N : is_name "pi" s = false |- _ => rewrite N end. repeat prun.
  repeat match goal with N : (nth 0 (skip rest) 0 =? ?k) = false |- context [nth 0 (skip rest) 0 =? ?k] => rewrite N end.
  repeat prun. rewrite (proj2 (Z.ltb_ge _ 0)) by exact Hid.
  unfold prim_var. repeat prun. rewrite skip_idem, <- Ev.
  repeat match goal with N : _ = false |- (if ?b then _ else _) _ = _ => rewrite N end.
  rewrite (proj2 (Z.ltb_ge 1 _)), Ht by exact Hc. apply (run_ld_named s v); assumption.
Qed.
End Prim.

(** ** The induction *)

Definition prims (fuel : nat) : P unit := fst (parsers host_addr g_hc_mem fuel).
Definition exprs (fuel : nat) : P unit := snd (parsers host_addr g_hc_mem fuel).

Lemma prims_S fuel : prims (S fuel) = hcf_parse_prim host_addr g_hc_mem (prims fuel) (exprs fuel).
Proof. unfold prims, exprs. cbn [parsers]. destruct (parsers host_addr g_hc_mem fuel). reflexivity. Qed.
Lemma exprs_S fuel : exprs (S fuel) = expr_body (prims fuel) (exprs fuel).
Proof. unfold prims, exprs. cbn [parsers]. destruct (parsers host_addr g_hc_mem fuel). reflexivity. Qed.

(** A parser reads [l] up to [rest], give or take blanks, and emits [cs]. *)
Definition result (m : P unit) (l rest : list Z) (cs : list hinsn) : Prop :=
  forall bc fl, fits bc cs -> exists l', skip l' = skip rest /\ (length l' <= length l)%nat /\ m (at_ l bc fl) = (Done tt, at_ l' (bc ++ code cs) false).

(** A level comes as far as [rest] in its loop. *)
Definition open (prim : P unit) (k : nat) (l rest : list Z) (cs : list hinsn) : Prop :=
  forall bc fl r, fits bc cs -> loop_runs (lbody prim k) (at_ (skip rest) (bc ++ code cs) false) r -> lev prim k (at_ l bc fl) = (Done tt, r).

Lemma open_closed prim k l rest cs : (1 <= k <= 6)%nat -> open prim k l rest cs -> closed k rest -> (length rest <= length l)%nat ->
  result (lev prim k) l rest cs.
Proof.
  intros Hk Ho Hc Hl bc fl Hf. exists (skip rest). split; [apply skip_idem|]. split; [pose proof (skip_le rest); lia|]. apply Ho; [exact Hf|]. apply loop_stop.
  rewrite run_stop; [rewrite skip_idem; reflexivity | exact Hk | unfold closed in *; rewrite skip_idem; exact Hc].
Qed.

Lemma result_next prim k l rest cs : (k < 6)%nat -> result (lev prim k) l rest cs -> open prim (S k) l rest cs.
Proof.
  intros Hk Hr bc fl r Hf Hl. rewrite lev_level by exact Hk. destruct (Hr bc fl Hf) as (l' & El & _ & E). rewrite (bind_done _ _ _ _ _ E).
  apply forever_loop. eapply loop_skip; [lia | exact El | exact Hl].
Qed.

Lemma open_bin prim k op n e1 e2 l l1 rest : (k < 6)%nat -> open prim (S k) l l1 e1 -> peek_op (skip l1) = Some (S k, op, n) ->
  result (lev prim k) (drop n (skip l1)) rest e2 -> open prim (S k) l rest (e1 ++ e2 ++ [mk_h op 0 0]).
Proof.
  intros Hk Ho Hp Hr bc fl r Hf Hl. apply fits_app in Hf as [F1 F2]. apply fits_app in F2 as [F2 F3].
  destruct (Hr (bc ++ code e1) false F2) as (l' & El & Hlen & E). apply Ho; [exact F1|]. eapply loop_go.
  - eapply run_go; [lia | rewrite skip_idem; exact Hp | exact F3|]. replace (S k - 1)%nat with k by lia. rewrite skip_idem. exact E.
  - cbn [at_ f_p]. rewrite <- (skip_idem l1) in Hp. apply drop_op_lt in Hp. rewrite skip_idem in Hp. lia.
  - rewrite !code_app, !app_assoc in Hl. eapply loop_skip; [lia | exact El | exact Hl].
Qed.

(** One comparison. *)
Lemma run_cmp_op l bc fl : cmp_op (at_ l bc fl) = (Done (fst (found 7 (skip l))), at_ (snd (found 7 (skip l))) bc fl).
Proof.
  unfold found, peek_op. set (s := skip l). unfold cmp_op, hcf_skip, peek, advance, pbind, pget, pmod, pret.
  cbn [at_ set_p f_p f_bc f_cap f_err expr_f64 tabs]; fold s;
    repeat (case_if; cbn [f_p set_p]; bool_hyps; zbool; try lia; try reflexivity).
Qed.

Lemma result_cmp prim op n e1 e2 l l1 rest : result (lev prim 6) l l1 e1 -> peek_op (skip l1) = Some (7%nat, op, n) ->
  result (lev prim 6) (drop n (skip l1)) rest e2 -> (length l1 <= length l)%nat -> result (lev prim 7) l rest (e1 ++ e2 ++ [mk_h op 0 0]).
Proof.
  intros H1 Hp H2 Hlen bc fl Hf. apply fits_app in Hf as [F1 F2]. apply fits_app in F2 as [F2 F3].
  destruct (H1 bc fl F1) as (l' & El & Ll & E1). destruct (H2 (bc ++ code e1) false F2) as (l2 & El2 & Ll2 & E2).
  exists l2. split; [exact El2|]. split; [apply drop_op_lt in Hp; lia|]. cbn [lev] in *. unfold hcf_parse_cmp. rewrite (bind_done _ _ _ _ _ E1).
  rewrite (bind_done _ _ _ _ _ (run_cmp_op l' _ false)). rewrite El. unfold found. rewrite Hp. cbn [Nat.eqb fst snd].
  prun. cbn [at_ expr_f64]. fold (at_ (drop n (skip l1)) (bc ++ code e1) false). rewrite (bind_done _ _ _ _ _ E2).
  unfold cmp_code. prun. cbn [at_ expr_f64 andb orb]. apply peek_op_some in Hp as (_ & _ & _ & Ho & _).
  erewrite bind_done by reflexivity. rewrite !code_app, !app_assoc. apply (run_emit op l2 _ false F3 Ho).
Qed.

Lemma result_cmp_none prim l rest cs : result (lev prim 6) l rest cs -> closed 7 rest -> (length rest <= length l)%nat -> result (lev prim 7) l rest cs.
Proof.
  intros H1 Hc Hlen bc fl Hf. destruct (H1 bc fl Hf) as (l' & El & Ll & E1).
  exists (skip rest). split; [apply skip_idem|]. split; [pose proof (skip_le rest); lia|]. cbn [lev] in *. unfold hcf_parse_cmp. rewrite (bind_done _ _ _ _ _ E1).
  rewrite (bind_done _ _ _ _ _ (run_cmp_op l' _ false)). rewrite El. unfold found, closed in *. destruct (peek_op (skip rest)) as [[[j op] n]|]; [|reflexivity].
  rewrite (proj2 (Nat.eqb_neq j 7)) by exact Hc. reflexivity.
Qed.

(** ** Expressions *)

Lemma reads_head k e l rest : reads t k e l rest -> hcf_ident_start (nth 0 (skip l) 0) = true ->
  exists s v rest1, skip l = s ++ rest1 /\ variable_name s = true /\ i64_var t s = Some v /\ ends_name rest1 = true.
Proof.
  intros H Hi. induction H; auto; try (match goal with E : skip l = _ :: _ |- _ => rewrite E in Hi; discriminate Hi end).
  - rewrite H in Hi. destruct ds as [|c ds]; [congruence|]. cbn in *. bool_hyps. apply ident_start_range in Hi. destruct Hi. congruence.
  - exists s, v, rest. auto.
Qed.

Lemma run_no_assign pe l bc fl : (exists k e rest, reads t k e l rest) ->
  try_assign pe (skip l) (at_ (skip l) bc fl) = (Done false, at_ (skip l) bc fl).
Proof.
  intros (k & e & rest & Hr). unfold try_assign. prun. destruct (hcf_ident_start (nth 0 (skip l) 0)) eqn:Ei; cbn [negb]; [|reflexivity].
  destruct (reads_head _ _ _ _ Hr Ei) as (s & v & rest1 & E & Hn & Hv & He). rewrite E. unfold variable_name in Hn. unfold ends_name in He. cbv zeta in *. bool_hyps.
  unfold ident, scan. erewrite bind_done; [|cbn [at_ f_p]; rewrite span_exact by assumption; reflexivity].
  change (set_p rest1 (at_ (s ++ rest1) bc fl)) with (at_ rest1 bc fl). repeat prun.
  change (f_p (at_ (skip rest1) bc fl)) with (skip rest1).
  repeat match goal with N : ?x = false |- context [?x] => rewrite N end. cbn [orb]. rewrite !andb_false_r. reflexivity.
Qed.

Lemma run_no_op {O} (op : P (option O)) turn l bc : op (at_ l bc false) = (Done None, at_ (skip l) bc false) ->
  forever (level_turn op turn) tt (at_ l bc false) = (Done tt, at_ (skip l) bc false).
Proof.
  intros E. apply forever_loop, loop_stop. unfold level_turn. rewrite (bind_done _ _ _ _ _ E). reflexivity.
Qed.

(** The blanks before a text do not matter. *)
Lemma lev_open pp pe k l bc fl : (k <= 7)%nat -> let prim := hcf_parse_prim host_addr g_hc_mem pp pe in
  lev prim k (at_ l bc fl) = lev prim k (at_ (skip l) bc fl).
Proof.
  intros Hk prim. induction k as [|k IH]; [apply prim_open|]. destruct (Nat.eq_dec k 6%nat) as [->|Hn].
  - specialize (IH ltac:(lia)). cbn [lev] in *. unfold hcf_parse_cmp, pbind. rewrite IH. reflexivity.
  - rewrite lev_level by lia. unfold pbind. rewrite IH by lia. reflexivity.
Qed.

Lemma result_expr pp pe' pe e l rest : let prim := hcf_parse_prim host_addr g_hc_mem pp pe' in
  reads t 7 e l rest -> result (lev prim 7) l rest (gen t e) -> ends_expr rest = true ->
  forall bc fl, fits bc (gen t e) -> expr_body prim pe (at_ l bc fl) = (Done tt, at_ (skip rest) (bc ++ code (gen t e)) false).
Proof.
  intros prim Hr H He bc fl Hf. destruct (H bc fl Hf) as (l' & El & Ll & E). subst prim. rewrite lev_open in E by lia.
  set (prim := hcf_parse_prim host_addr g_hc_mem pp pe') in *. unfold ends_expr in He. cbv zeta in He. bool_hyps.
  unfold expr_body. do 2 prun. cbn [at_ f_p]. fold (at_ (skip l) bc fl). erewrite bind_done by (apply run_no_assign; eauto). cbv iota.
  assert (Hland : hcf_parse_land prim (at_ (skip l) bc fl) = (Done tt, at_ (skip rest) (bc ++ code (gen t e)) false)).
  { unfold hcf_parse_land, level. rewrite (bind_done _ _ _ _ _ E), <- El. apply run_no_op. unfold land_op. repeat prun. rewrite El.
    match goal with N : (nth 0 (skip rest) 0 =? 38) && _ = false |- _ => rewrite N end. reflexivity. }
  erewrite bind_done; [|unfold hcf_parse_lor, level; rewrite (bind_done _ _ _ _ _ Hland); apply run_no_op; unfold lor_op; repeat prun; rewrite skip_idem;
    match goal with N : (nth 0 (skip rest) 0 =? 124) && _ = false |- _ => rewrite N end; reflexivity].
  repeat prun. rewrite !skip_idem. match goal with N : (nth 0 (skip rest) 0 =? 63) = false |- _ => rewrite N end. reflexivity.
Qed.

Lemma reads_run k e l rest : reads t k e l rest -> forall fuel, (2 * length l + 1 <= fuel)%nat ->
  (k = 0%nat -> result (prims fuel) l rest (gen t e)) /\
  ((1 <= k <= 6)%nat -> open (prims fuel) k l rest (gen t e)) /\
  (k = 7%nat -> result (lev (prims fuel) 7) l rest (gen t e)).
Proof.
  intros H. induction H; intros [|fuel] Hfuel; try lia.
  - split; [|split; lia]. intros _ bc fl Hf. rewrite prims_S. exists rest. split; [reflexivity|].
    split; [pose proof (reads_len t 0 (Num ds) l rest ltac:(econstructor; eassumption)); lia|]. apply run_num; assumption.
  - split; [|split; lia]. intros _ bc fl Hf. rewrite prims_S. exists (skip rest). split; [apply skip_idem|].
    split; [pose proof (reads_len t 0 (Var s) l rest ltac:(econstructor; eassumption)); pose proof (skip_le rest); lia|]. eapply run_var; eassumption.
  - split; [|split; lia]. intros _ bc fl Hf. pose proof (skip_cons _ _ _ H) as Hl. destruct fuel as [|[|fuel]]; try lia.
    destruct (IHreads (S fuel) ltac:(lia)) as (_ & _ & R). specialize (R eq_refl).
    rewrite (prims_S (S (S fuel))), exprs_S. rewrite prims_S in *.
    assert (He : ends_expr l2 = true) by (unfold ends_expr; rewrite H1; reflexivity).
    pose proof (result_expr _ _ (exprs (S fuel)) e l1 l2 H0 R He bc fl Hf) as E.
    exists rest. split; [reflexivity|]. split; [apply reads_len in H0; apply skip_cons in H1; lia|].
    rewrite <- (prims_S fuel) in E. eapply run_paren; [exact H | exact E | rewrite skip_idem; exact H1].
  - split; [|split; lia]. intros _ bc fl Hf. pose proof (skip_cons _ _ _ H) as Hl. cbn [gen] in *. apply fits_app in Hf as [F1 F2].
    destruct (IHreads fuel ltac:(lia)) as (R & _ & _). destruct (R eq_refl bc fl F1) as (l' & El & Ll & E).
    rewrite prims_S. exists l'. split; [exact El|]. split; [lia|]. rewrite code_app, app_assoc. eapply run_neg; eassumption.
  - split; [|split; lia]. intros _ bc fl Hf. pose proof (skip_cons _ _ _ H) as Hl. cbn [gen] in *. apply fits_app in Hf as [F1 F2].
    destruct (IHreads fuel ltac:(lia)) as (R & _ & _). destruct (R eq_refl bc fl F1) as (l' & El & Ll & E).
    rewrite prims_S. exists l'. split; [exact El|]. split; [lia|]. rewrite code_app, app_assoc. eapply run_not; eassumption.
  - pose proof (reads_len _ _ _ _ _ H0). destruct (IHreads (S fuel) Hfuel) as (R0 & R1 & _). split; [lia|].
    assert (Hr : result (lev (prims (S fuel)) k) l rest (gen t e)).
    { destruct k as [|k]; [exact (R0 eq_refl)|]. apply open_closed; [lia | apply R1; lia | exact H1 | lia]. }
    split; [intros Hk; apply result_next; [lia | exact Hr]|]. intros Hk. injection Hk as ->. apply result_cmp_none; [exact Hr | | lia].
    destruct H2 as [H2|H2]; [exact H2 | lia].
  - pose proof (reads_len _ _ _ _ _ H0). pose proof (reads_len _ _ _ _ _ H2). pose proof (drop_op_lt _ _ _ _ H1).
    destruct (IHreads1 (S fuel) Hfuel) as (_ & R1 & _). destruct (IHreads2 (S fuel) ltac:(lia)) as (S0 & S1 & _).
    split; [lia|]. split; [|lia]. intros Hk. cbn [gen]. eapply open_bin; [lia | apply R1; lia | exact H1|].
    destruct k as [|k]; [exact (S0 eq_refl)|]. apply open_closed; [lia | apply S1; lia | exact H3 | lia].
  - pose proof (reads_len _ _ _ _ _ H). pose proof (reads_len _ _ _ _ _ H1). pose proof (drop_op_lt _ _ _ _ H0).
    destruct (IHreads1 (S fuel) Hfuel) as (_ & R1 & _). destruct (IHreads2 (S fuel) ltac:(lia)) as (_ & S1 & _).
    split; [lia|]. split; [lia|]. intros _. cbn [gen].
    eapply result_cmp; [| exact H0 | | lia].
    + apply (open_closed _ 6); [lia | apply R1; lia | unfold closed; rewrite H0; discriminate | lia].
    + apply (open_closed _ 6); [lia | apply S1; lia | exact H2 | lia].
Qed.

Lemma parse_reads e l rest bc fl : reads t 7 e l rest -> ends_expr rest = true -> fits bc (gen t e) ->
  hcf_parse_expr host_addr g_hc_mem (at_ l bc fl) = (Done tt, at_ (skip rest) (bc ++ code (gen t e)) false).
Proof.
  intros Hr He Hf. change (exprs (2 * length l + 4) (at_ l bc fl) = (Done tt, at_ (skip rest) (bc ++ code (gen t e)) false)).
  replace (2 * length l + 4)%nat with (S (S (2 * length l + 2))) by lia. rewrite exprs_S.
  destruct (reads_run 7 e l rest Hr (S (2 * length l + 2)) ltac:(lia)) as (_ & _ & R). rewrite prims_S in *.
  exact (result_expr _ _ _ e l rest Hr (R eq_refl) He bc fl Hf).
Qed.
End Runs.
