(* ===== verification/HcFrontCompile.v ===== *)
(** * The HolyC front end: writing an integer expression, and compiling it

    [print k e]: the expression [e] as text at level [k], with parentheses only where the levels
    ask for them.  It reads as [e] wherever nothing that follows belongs to it. *)

From stdpp Require Import relations.
From S2P Require Import Prelude A64 A64Sem HcIr HcIrSem HcIrGen HcIrLayout HcIrRun HcIrBlocks HcIrSim HcIrThms.
From S2P Require Import HcFront HcFrontPrim HcFrontOps HcFrontCode HcFrontSpec HcFrontRun HcFrontExpr HcFrontExprRun.
#[local] Open Scope Z_scope.

Definition op_text (op : hc_op) : list Z :=
  match op with
  | HC_MUL => [42] | HC_DIV => [47] | HC_MOD => [37] | HC_ADD => [43] | HC_SUB => [45] | HC_SHL => [60; 60] | HC_ASR => [62; 62]
  | HC_AND => [38] | HC_XOR => [94] | HC_OR => [124] | HC_EQ => [61; 61] | HC_NE => [33; 61] | HC_LE => [60; 61] | HC_GE => [62; 61]
  | HC_LT => [60] | _ => [62]
  end.
Definition op_level (op : hc_op) : nat :=
  match op with
  | HC_MUL | HC_DIV | HC_MOD => 1 | HC_ADD | HC_SUB => 2 | HC_SHL | HC_ASR => 3 | HC_AND => 4 | HC_XOR => 5 | HC_OR => 6 | _ => 7
  end%nat.

Fixpoint print (k : nat) (e : iexpr) : list Z :=
  match e with
  | Num ds => ds
  | Var s => s
  | Neg e => 45 :: print 0 e
  | Not e => 33 :: print 0 e
  | Bin op e1 e2 =>
      let j := op_level op in
      let body := print (Nat.min j 6) e1 ++ op_text op ++ print (j - 1) e2 in
      if Nat.leb j k then body else 40 :: body ++ [41]
  end.

(** Digits, names and operators that can be written. *)
Fixpoint writable (t : tables) (e : iexpr) : bool :=
  match e with
  | Num ds => forallb is_digit ds && negb (bool_decide (ds = []))
  | Var s => variable_name s && match i64_var t s with Some _ => true | None => false end
  | Neg e | Not e => writable t e
  | Bin op e1 e2 => writable t e1 && writable t e2 && proper t (Bin op (Num []) (Num []))
  end.

(** ** The first character *)

Definition starts (c : Z) : bool := is_digit c || hcf_ident_start c || (c =? 40) || (c =? 45) || (c =? 33).

Lemma starts_range c : starts c = true -> c <> 47 /\ is_space c = false /\ c <> 0 /\ c <> 61 /\ c <> 62 /\ c <> 60 /\ c <> 38 /\ c <> 124 /\ c <> 42.
Proof.
  unfold starts. intros H. assert (Hc : 48 <= c <= 57 \/ (65 <= c <= 122 \/ c = 233) \/ c = 40 \/ c = 45 \/ c = 33).
  { rewrite !orb_true_iff, !Z.eqb_eq in H. destruct H as [[[[H|H]|H]|H]|H]; auto 6; [left; apply digit_facts, H | right; left; apply ident_start_range, H]. }
  repeat split; try lia. unfold is_space. rewrite !orb_false_iff, !Z.eqb_neq. lia.
Qed.

Lemma skip_starts c l : starts c = true -> skip (c :: l) = c :: l.
Proof.
  intros H. apply starts_range in H as (H1 & H2 & _). unfold skip. cbn [length skip_from skip_spaces]. rewrite H2. cbn [nth].
  rewrite (proj2 (Z.eqb_neq c 47)) by exact H1. reflexivity.
Qed.

Lemma print_starts t e : forall k, writable t e = true -> exists c l, print k e = c :: l /\ starts c = true.
Proof.
  induction e as [ds|s|e IH|e IH|op e1 IH1 e2 IH2]; intros k Hw; cbn [writable print] in *; try (eexists _, _; split; reflexivity).
  - bool_hyps. destruct ds as [|c ds]; [discriminate|]. cbn in *. bool_hyps. exists c, ds. split; [reflexivity|]. unfold starts. rewrite H. reflexivity.
  - unfold variable_name in Hw. bool_hyps. destruct s as [|c s]; [discriminate|]. cbn in *. exists c, s. split; [reflexivity|]. unfold starts.
    match goal with Hi : hcf_ident_start c = true |- _ => rewrite Hi end. rewrite orb_true_r. reflexivity.
  - bool_hyps. case_if; [|eexists _, _; split; reflexivity]. destruct (IH1 (Nat.min (op_level op) 6) ltac:(assumption)) as (c & l & E & Hc).
    rewrite E. eexists _, _. split; [reflexivity | exact Hc].
Qed.

(** ** What may follow *)

Definition after_atom (rest : list Z) : bool :=
  negb (hcf_ident_char (nth 0 rest 0)) && negb (nth 0 rest 0 =? 46) && ends_name rest.
Record follow (k : nat) (rest : list Z) : Prop := mk_follow {
  fo_atom : after_atom rest = true;
  fo_ops : forall i, (1 <= i < k)%nat -> closed i rest;
  fo_cmp : k = 7%nat -> closed 7 rest }.

Lemma closed_0 rest : closed 0 rest.
Proof. unfold closed. destruct (peek_op _) as [[[j op] n]|] eqn:E; [|exact I]. apply peek_op_some in E. lia. Qed.

Lemma reads_up t j k e l rest : reads t j e l rest -> (j <= k <= 7)%nat -> (forall i, (j <= i < k)%nat -> closed i rest) ->
  (j < 7 -> k = 7 -> closed 7 rest)%nat -> reads t k e l rest.
Proof.
  intros H. induction k as [|k IH]; intros Hk Hc H7; [replace 0%nat with j by lia; exact H|].
  destruct (Nat.eq_dec j (S k)) as [<-|Hn]; [exact H|]. apply reads_next; [lia | apply IH; [lia | | intros; lia] | |].
  - intros i Hi. apply Hc. lia.
  - apply Hc. lia.
  - destruct (Nat.eq_dec k 6%nat) as [->|]; [left; apply H7; lia | right; lia].
Qed.

(** An operator between its operands. *)
Lemma op_follows t op c l : proper t (Bin op (Num []) (Num [])) = true -> starts c = true ->
  let text := op_text op ++ c :: l in
  skip text = text /\ peek_op text = Some (op_level op, op, length (op_text op)) /\ after_atom text = true.
Proof.
  intros Hp Hc. apply starts_range in Hc as (H1 & H2 & H3 & H4 & H5 & H6 & H7 & H8 & H9). cbv zeta.
  assert (Hs : skip (op_text op ++ c :: l) = op_text op ++ c :: l).
  { unfold skip. destruct op; try discriminate Hp; cbn [op_text app length skip_from skip_spaces is_space orb Z.eqb Pos.eqb nth andb];
      rewrite ?(proj2 (Z.eqb_neq c 47)), ?(proj2 (Z.eqb_neq c 42)) by assumption; reflexivity. }
  split; [exact Hs|]. unfold after_atom, ends_name. rewrite Hs.
  split; destruct op; try discriminate Hp; unfold peek_op; cbn [op_text app op_level length nth Z.eqb Pos.eqb andb negb];
    rewrite ?(proj2 (Z.eqb_neq c 61)), ?(proj2 (Z.eqb_neq c 62)), ?(proj2 (Z.eqb_neq c 60)), ?(proj2 (Z.eqb_neq c 38)), ?(proj2 (Z.eqb_neq c 124)) by assumption; reflexivity.
Qed.

Lemma follow_paren rest : follow 7 (41 :: rest).
Proof.
  assert (Hs : skip (41 :: rest) = 41 :: rest) by reflexivity.
  split; [unfold after_atom, ends_name; rewrite Hs; reflexivity | |]; intros; unfold closed; rewrite Hs; exact I.
Qed.

Lemma follow_op t op c l k : proper t (Bin op (Num []) (Num [])) = true -> starts c = true -> (k <= op_level op)%nat -> (k < 7)%nat ->
  follow k (op_text op ++ c :: l).
Proof.
  intros Hp Hc Hk H7. destruct (op_follows t op c l Hp Hc) as (H1 & H2 & H3). split; [exact H3 | | lia].
  intros i Hi. unfold closed. rewrite H1, H2. lia.
Qed.

Lemma follow_less k j rest : follow k rest -> (j <= k)%nat -> (j < 7)%nat -> follow j rest.
Proof. intros [F1 F2 _] H1 H2. split; [exact F1 | intros i Hi; apply F2; lia | lia]. Qed.

Lemma num_reads t ds rest : writable t (Num ds) = true -> after_atom rest = true -> reads t 0 (Num ds) (ds ++ rest) rest.
Proof.
  intros Hw F1. destruct (print_starts t (Num ds) 0 Hw) as (c & l & E & Hc). cbn [writable print] in *. bool_hyps.
  apply reads_num; [rewrite E; cbn [app]; apply skip_starts, Hc | rewrite E; discriminate | assumption |].
  unfold after_atom in F1. bool_hyps. match goal with N : hcf_ident_char (nth 0 rest 0) = false |- _ => rename N into Hi end.
  assert (Hn : forall x, is_digit x = true \/ hcf_ident_char x = false -> x <> 120 /\ x <> 88).
  { intros x [Hx|Hx]; [apply digit_facts in Hx; lia|]. split; intros ->; discriminate Hx. }
  unfold ends_number. destruct (is_digit (nth 0 rest 0)) eqn:Ed.
  { exfalso. unfold hcf_ident_char, is_digit in *. rewrite Ed, orb_true_r in Hi. discriminate. }
  match goal with N : (nth 0 rest 0 =? 46) = false |- _ => rewrite N end. cbn [negb andb]. apply negb_true_iff, andb_false_iff. right.
  destruct ds as [|d [|d2 ds]]; [discriminate | |]; cbn [app nth forallb] in *; bool_hyps; apply orb_false_iff; rewrite !Z.eqb_neq; apply Hn; auto.
Qed.

Lemma var_reads t s rest : writable t (Var s) = true -> after_atom rest = true -> reads t 0 (Var s) (s ++ rest) rest.
Proof.
  intros Hw F1. destruct (print_starts t (Var s) 0 Hw) as (c & l & E & Hc). cbn [writable print] in *. bool_hyps.
  destruct (i64_var t s) as [v|] eqn:Ev; [|discriminate]. unfold after_atom in F1. bool_hyps.
  eapply reads_var; [rewrite E; cbn [app]; apply skip_starts, Hc | assumption | exact Ev | assumption].
Qed.

Definition prints (t : tables) (e : iexpr) : Prop :=
  forall k rest, writable t e = true -> (k <= 7)%nat -> follow k rest -> reads t k e (print k e ++ rest) rest.

(** A binary operation at its own level. *)
Lemma bin_reads t op e1 e2 rest : prints t e1 -> prints t e2 -> writable t (Bin op e1 e2) = true -> let j := op_level op in follow j rest ->
  reads t j (Bin op e1 e2) ((print (Nat.min j 6) e1 ++ op_text op ++ print (j - 1) e2) ++ rest) rest.
Proof.
  intros IH1 IH2 Hw j F. cbn [writable] in Hw. bool_hyps. match goal with N : proper _ _ = true |- _ => rename N into Hp end.
  assert (Hj : (1 <= j <= 7)%nat) by (subst j; destruct op; cbn; lia).
  destruct (print_starts t e2 (j - 1) ltac:(assumption)) as (c & l & E & Hc).
  rewrite <- !app_assoc. assert (Er : print (j - 1) e2 ++ rest = c :: (l ++ rest)) by (rewrite E; reflexivity).
  destruct (op_follows t op c (l ++ rest) Hp Hc) as (O1 & O2 & O3). rewrite <- Er in *.
  assert (R1 : reads t (Nat.min j 6) e1 (print (Nat.min j 6) e1 ++ op_text op ++ print (j - 1) e2 ++ rest) (op_text op ++ print (j - 1) e2 ++ rest)).
  { apply IH1; [assumption | lia|]. rewrite Er. eapply follow_op; [exact Hp | exact Hc | fold j; lia | lia]. }
  assert (R2 : reads t (j - 1) e2 (drop (length (op_text op)) (skip (op_text op ++ print (j - 1) e2 ++ rest))) rest).
  { rewrite O1, drop_app_length. apply IH2; [assumption | lia | apply (follow_less j); [exact F | lia | lia]]. }
  rewrite <- O1 in O2. fold j in O2. destruct (Nat.eq_dec j 7%nat) as [E7|N7].
  - rewrite E7 in *. cbn [Nat.min Nat.sub] in *. eapply reads_cmp; [exact R1 | exact O2 | exact R2 | apply (fo_ops _ _ F); lia].
  - replace (Nat.min j 6) with j in * by lia. clearbody j. destruct j as [|i]; [lia|]. cbn [Nat.sub] in *. rewrite Nat.sub_0_r in *.
    eapply reads_bin; [lia | exact R1 | exact O2 | exact R2 |]. destruct i; [apply closed_0 | apply (fo_ops _ _ F); lia].
Qed.

Lemma print_reads t e : prints t e.
Proof.
  induction e as [ds|s|e IH|e IH|op e1 IH1 e2 IH2]; intros k rest Hw Hk [F1 F2 F3].
  1-4: apply (reads_up t 0); [| lia | intros [|i] Hi; [apply closed_0 | apply F2; lia] | intros _; exact F3].
  - apply num_reads; assumption.
  - apply var_reads; assumption.
  - cbn [print app]. eapply reads_neg; [apply skip_starts; reflexivity|]. apply IH; [exact Hw | lia | apply (follow_less k); [split; assumption | lia | lia]].
  - cbn [print app]. eapply reads_not; [apply skip_starts; reflexivity|]. apply IH; [exact Hw | lia | apply (follow_less k); [split; assumption | lia | lia]].
  - pose proof (fun rest => bin_reads t op e1 e2 rest IH1 IH2 Hw) as Hb. cbv zeta in Hb. cbn [print]. set (j := op_level op) in *.
    assert (Hj : (1 <= j <= 7)%nat) by (subst j; destruct op; cbn; lia). destruct (Nat.leb j k) eqn:El.
    + apply Nat.leb_le in El. apply (reads_up t j); [apply Hb | lia | intros i Hi; apply F2; lia | intros _; exact F3].
      destruct (Nat.eq_dec j 7%nat) as [E7|N7]; [replace j with k by lia; split; assumption | apply (follow_less k); [split; assumption | lia | lia]].
    + apply (reads_up t 0); [| lia | intros [|i] Hi; [apply closed_0 | apply F2; lia] | intros _; exact F3].
      cbn [app]. rewrite <- app_assoc. cbn [app]. eapply (reads_paren t _ _ _ (41 :: rest)); [apply skip_starts; reflexivity | | reflexivity].
      pose proof (follow_paren rest) as Fp. apply (reads_up t j); [apply Hb | lia | intros i Hi; apply (fo_ops _ _ Fp); lia | intros _ _; apply (fo_cmp _ _ Fp); reflexivity].
      destruct (Nat.eq_dec j 7%nat) as [E7|N7]; [rewrite E7; exact Fp | apply (follow_less 7); [exact Fp | lia | lia]].
Qed.

(** ** The HolyC front end and the stack-IR compiler together

    What the parser does with an integer expression, and what the machine does with the result. *)


(** The state at the start of an expression, nothing emitted yet. *)
Definition expr_start (text : list Z) (cap : Z) (t : tables) : front := mk_front text [] cap false false t.


(** The program of an expression is well typed, by the balance of the parser's output. *)
Lemma gen_typed (host_addr : String.string -> Z) (g_hc_mem : Z) t e text rest : (forall s, is_u 64 (host_addr s)) -> tabs_ok t -> reads t 7 e text rest -> ends_expr rest = true ->
  need e <= 7 -> well_typed (gen t e ++ [RET]) = true.
Proof.
  intros Hh Ht Hr He Hn. pose proof (reads_proper _ _ _ _ _ Hr) as Hp. set (cap := Z.of_nat (length (code (gen t e)))).
  assert (Hi : inv (expr_start text cap t)) by (split; [cbn; lia|]; split; [cbn; lia | exact Ht]).
  pose proof (hcf_parse_expr_parses host_addr g_hc_mem Hh (S (length text)) _ Hi ltac:(cbn; lia)) as H.
  change (expr_start text cap t) with (at_ cap false t text [] false) in H. rewrite (parse_reads host_addr g_hc_mem cap false t e text rest [] false Hr He) in H by (unfold fits; cbn; lia).
  destruct H as [_ (cs & W & C)]. unfold wrote in W. cbn [at_ f_bc app] in W. unfold code in W.
  assert (E : Some (gen t e) = Some cs).
  { rewrite <- (parse_packed (gen t e)), <- (parse_packed cs); [congruence | apply insn_packable, (co_insns _ _ _ _ _ C) | apply insn_packable, gen_insns, Hp]. }
  injection E as <-. eapply balanced_typed; [exact C|]. rewrite <- (app_nil_r (gen t e)).
  apply gen_within; [exact Hp | lia | lia |]. cbn. rewrite andb_true_r. apply Z.leb_le. lia.
Qed.

(** C21: from text to machine.  An integer expression that needs at most seven values at once is
    parsed; and if the stack-IR compiler accepts its bytes, followed by a return, then the machine
    code, called under the AAPCS64 conventions, returns the expression's value, computed on 64-bit
    two's complement with the variables in memory, and leaves the memory as it was. *)
Theorem expression_runs `{Fpu} `{HostFns} (host_addr : String.string -> Z) g_hc_fp g_hc_alloc g_hc_mem lo hi t e text rest bcap cap words base host entry m
  (Hhost_addr : forall s, is_u 64 (host_addr s)) (Htabs : tabs_ok t)
  (Hreads : reads t 7 e text rest) (Hends : ends_expr rest = true) (Hneed : need e <= 7)
  (Hroom : Z.of_nat (length (code (gen t e))) <= bcap)
  (Hglobals : globals_ok g_hc_fp g_hc_alloc g_hc_mem lo hi)
  (Hvars : reachable t g_hc_fp g_hc_mem m lo hi e = true)
  (Hplaced_lo : 0 <= base) (Hplaced_hi : base + 4 * Z.of_nat (length words) < 2 ^ 64) (Hplaced_len : Z.of_nat (length words) < 2 ^ 18)
  (Hhost : host_ok lo hi (in_code words base) host) (Hcalled : called entry base hi) (Hmem : agree lo hi (m_mem entry) m) :
  let parsed := hcf_parse_expr host_addr g_hc_mem (expr_start text bcap t) in
  fst parsed = Done tt /\
  (hc_ir_compile g_hc_fp g_hc_alloc g_hc_mem cap (f_bc (snd parsed) ++ [hc_code HC_RET]) = inr words ->
   exists s, rtc (mstep words base host) entry s /\ returned lo hi entry (eval t g_hc_fp g_hc_mem m e) m s).
Proof.
  cbv zeta. change (expr_start text bcap t) with (at_ bcap false t text [] false). rewrite (parse_reads host_addr g_hc_mem bcap false t e text rest [] false Hreads Hends) by (unfold fits; cbn; lia).
  cbn [fst snd f_bc app at_]. split; [reflexivity|]. intros Hcompile.
  pose proof (reads_proper _ _ _ _ _ Hreads) as Hp. destruct (gen_insns t e Hp) as [Hok Hcalls].
  assert (Hparse : hc_parse (code (gen t e) ++ [hc_code HC_RET]) = Some (gen t e ++ [RET])).
  { replace (code (gen t e) ++ [hc_code HC_RET]) with (concat (map pack_insn (gen t e ++ [RET]))) by (rewrite map_app, concat_app; reflexivity).
    apply parse_packed. rewrite forallb_app, (insn_packable _ Hok). reflexivity. }
  eapply (compiled_runs g_hc_fp g_hc_alloc g_hc_mem cap lo hi _ words _ base host entry m); try eassumption.
  - exact (gen_typed host_addr g_hc_mem t e text rest Hhost_addr Htabs Hreads Hends Hneed).
  - split; try assumption. intros i Hin Hc. exfalso. apply in_app_iff in Hin as [Hin|[<-|[]]].
    + rewrite List.Forall_forall in Hcalls. exact (Hcalls i Hin Hc).
    + revert Hc. cbn. intuition discriminate.
  - apply (gen_exec t g_hc_fp g_hc_alloc g_hc_mem lo hi _ e); [exact Hp | exact Hvars | exists [], [RET]; auto|].
    apply ir_exec_done. unfold ir_step. cbn [i_pc ir_start]. rewrite lookup_app_r, Nat.sub_diag by lia. reflexivity.
Qed.

(** C25: what is printed is read back.  Every expression of known variables, written with the
    parentheses its levels ask for and no others, is read by the parser as itself, wherever
    nothing that follows belongs to it. *)
Theorem print_parse (host_addr : String.string -> Z) (g_hc_mem : Z) t e rest cap
  (Hwritable : writable t e = true) (Hfollow : follow 7 rest) (Hends : ends_expr rest = true)
  (Hroom : Z.of_nat (length (code (gen t e))) <= cap) :
  hcf_parse_expr host_addr g_hc_mem (expr_start (print 7 e ++ rest) cap t) =
    (Done tt, mk_front (skip rest) (code (gen t e)) cap false false t).
Proof. apply (parse_reads host_addr g_hc_mem cap false t e _ rest [] false); [apply print_reads; auto | exact Hends | exact Hroom]. Qed.

(** ** An expression, for the witnesses *)

Definition demo_tables : tables := mk_tables 0 [mk_var (S_ "x") 3 1 8 HC_TYPE_NONE false false false] 4 0 256 [] [] [] [] [] [] [].
Definition demo_expr : iexpr := Bin HC_MOD (Bin HC_MUL (Bin HC_ADD (Var (S_ "x")) (Num (S_ "6"))) (Num (S_ "7"))) (Num (S_ "10")).
Definition demo_text : list Z := S_ "(x+6)*7%10".
Definition demo_host_addr (_ : String.string) : Z := 0x9000.

Lemma demo_follow : follow 7 (S_ " ; // done").
Proof. split; [reflexivity | |]; intros; vm_compute; exact I. Qed.

Lemma demo_reads : reads demo_tables 7 demo_expr (demo_text ++ S_ " ; // done") (S_ " ; // done").
Proof. apply (print_reads demo_tables demo_expr 7%nat); [reflexivity | lia | apply demo_follow]. Qed.

Lemma demo_tables_ok : tabs_ok demo_tables.
Proof. split; cbn; try (split; vm_compute; congruence); repeat constructor; vm_compute; congruence. Qed.


Lemma print_parse_witness :
  f_p (snd (hcf_parse_expr demo_host_addr 0 (expr_start (print 7 demo_expr ++ S_ " ; // done") 60 demo_tables))) = [59; 32; 47; 47; 32; 100; 111; 110; 101].
Proof.
  rewrite (print_parse demo_host_addr 0 demo_tables demo_expr (S_ " ; // done") 60); [reflexivity | reflexivity | apply demo_follow | reflexivity | vm_compute; discriminate].
Defined.

#[local] Existing Instances demo_fpu demo_fns.
Definition demo_expr_code : list Z :=
  match hc_ir_compile 0x20000 0x20008 0x30000 200 (code (gen demo_tables demo_expr) ++ [hc_code HC_RET]) with inr c => c | inl _ => [] end.

Lemma expression_runs_witness :
  exists s, rtc (mstep demo_expr_code 0x4000 demo_host) demo_entry s /\ returned 0x10000 0x11000 demo_entry 2 (fun _ => 0) s.
Proof.
  assert (Hl : length demo_expr_code = 41%nat) by (vm_compute; reflexivity).
  refine (proj2 (expression_runs demo_host_addr 0x20000 0x20008 0x30000 0x10000 0x11000 demo_tables demo_expr (demo_text ++ S_ " ; // done")
    (S_ " ; // done") 60 200 demo_expr_code 0x4000 demo_host demo_entry (fun _ => 0) _ demo_tables_ok demo_reads eq_refl _ _ _ eq_refl _ _ _ _ _ _) _).
  - intros s. split; vm_compute; congruence.
  - vm_compute. discriminate.
  - vm_compute. discriminate.
  - split; first [split; lia | lia | reflexivity].
  - lia.
  - rewrite Hl. reflexivity.
  - rewrite Hl. reflexivity.
  - apply demo_host_ok.
  - split; [reflexivity..|]. intros r Hr. split; cbn; lia.
  - intros a _. reflexivity.
  - vm_compute. reflexivity.
Defined.
