(* ===== verification/HcFrontStmt.v ===== *)
(** * The HolyC front end ([src/src/hc_front.h]): statements

    [hcf_parse_block] and [hcf_parse_stmt]: the control statements, declarations of constants,
    classes and variables, labels, assignments and calls.  The parsers of expressions and of
    nested statements are arguments; [HcFrontFile] ties the knot. *)

From S2P Require Import Prelude A64 HcIr HcFront HcFrontPrim HcFrontOps.
#[local] Open Scope Z_scope.
#[local] Open Scope front_scope.

(** ** Tables *)

Definition update_var (id : Z) (g : hc_var -> hc_var) (t : tables) : tables := with_vars (<[Z.to_nat id := g (nth_var t id)]> (vars t)) t.

(** [f->is_f64\[id\] = 1;] *)
Definition mark_f64 (id : Z) : tables -> tables :=
  update_var id (fun v => mk_var (v_name v) (v_base v) (v_count v) (v_stride v) (v_type v) (v_is_ptr v) (v_is_global v) true).
(** [f->is_ptr\[id\] = 1; f->stride\[id\] = pointee;] *)
Definition mark_ptr (id pointee : Z) : tables -> tables :=
  update_var id (fun v => mk_var (v_name v) (v_base v) (v_count v) (u8 pointee) (v_type v) true (v_is_global v) (v_is_f64 v)).

(** [f->brk_tgt\[f->nbrk++\] = l;] *)
Definition push_break (l : Z) : P unit := on_tabs (fun t => with_targets (l :: brk_tgt t) (cont_tgt t) t).
Definition pop_break : P unit := on_tabs (fun t => with_targets (tail (brk_tgt t)) (cont_tgt t) t).
Definition push_loop (l_brk l_cont : Z) : P unit := on_tabs (fun t => with_targets (l_brk :: brk_tgt t) (l_cont :: cont_tgt t) t).
Definition pop_loop : P unit := on_tabs (fun t => with_targets (tail (brk_tgt t)) (tail (cont_tgt t)) t).

Definition breaks_full (t : tables) : bool := HC_MAX_LOOPS <=? Z.of_nat (length (brk_tgt t)).
Definition loops_full (t : tables) : bool := breaks_full t || (HC_MAX_LOOPS <=? Z.of_nat (length (cont_tgt t))).
Definition enter_loop (l_brk l_cont : Z) : P unit :=
  let* full := tget loops_full in
  if full : bool then refuse else push_loop l_brk l_cont.
Definition enter_switch (l_brk : Z) : P unit :=
  let* full := tget breaks_full in
  if full : bool then refuse else push_break l_brk.

Section Stmt.
Context (host_addr : String.string -> Z) (parse_prim parse_expr parse_stmt : P unit).

(** [{ ... }] *)
Definition block_turn (_ : unit) : P (bool * unit) :=
  hcf_skip ;;;
  let* c := peek 0 in
  if c =? 125 then advance 1 ;;; pret (false, tt)
  else if c =? 0 then bad
  else parse_stmt ;;; pret (true, tt).
Definition hcf_parse_block : P unit := hcf_expect 123 ;;; forever block_turn tt.

(** ** Control *)

Definition qualifier_turn (_ : unit) : P (bool * unit) := let* q := any_kw ["const"; "volatile"]%string in pret (q, tt).

Definition stmt_return : P unit :=
  hcf_skip ;;;
  let* c := peek 0 in
  if c =? 59 then advance 1 ;;; hcf_imm 0 ;;; hcf_emit HC_RET
  else parse_expr ;;; hcf_emit HC_RET ;;; hcf_expect 59.

(** An F64 condition is converted to an I64. *)
Definition condition_i64 : P unit :=
  let* e := pget expr_f64 in
  if e : bool then hcf_emit HC_F2I ;;; pmod (set_f64 false) else pret tt.

Definition stmt_if : P unit :=
  let* (l_else, l_end) := new_label_pair in
  hcf_expect 40 ;;; parse_expr ;;; hcf_expect 41 ;;;
  condition_i64 ;;;
  hcf_emit_u8 HC_JZ l_else ;;; parse_stmt ;;;
  hcf_emit_u8 HC_JMP l_end ;;; hcf_emit_u8 HC_LABEL l_else ;;;
  let* k := hcf_kw "else" in
  (if k : bool then parse_stmt else pret tt) ;;;
  hcf_emit_u8 HC_LABEL l_end.

Definition stmt_while : P unit :=
  let* (l_top, l_end) := new_label_pair in
  hcf_emit_u8 HC_LABEL l_top ;;; hcf_expect 40 ;;; parse_expr ;;; hcf_expect 41 ;;;
  hcf_emit_u8 HC_JZ l_end ;;;
  enter_loop l_end l_top ;;;
  parse_stmt ;;; hcf_emit_u8 HC_JMP l_top ;;;
  pop_loop ;;;
  hcf_emit_u8 HC_LABEL l_end.

Definition stmt_do : P unit :=
  let* l_top := hcf_new_label in
  let* l_cond := hcf_new_label in
  let* l_end := hcf_new_label in
  if (l_top <? 0) || (l_cond <? 0) || (l_end <? 0) then bad
  else
    enter_loop l_end l_cond ;;;
    hcf_emit_u8 HC_LABEL l_top ;;; parse_stmt ;;;
    let* k := hcf_kw "while" in
    (if k : bool then or_refuse (hcf_expect 40) else refuse) ;;;
    hcf_emit_u8 HC_LABEL l_cond ;;; parse_expr ;;; hcf_expect 41 ;;; hcf_expect 59 ;;;
    hcf_emit_u8 HC_JNZ l_top ;;;
    pop_loop ;;;
    hcf_emit_u8 HC_LABEL l_end.

(** ** for *)

(** [id++] and [id--]. *)
Definition incdec_named (id : Z) (op : hc_op) : P unit :=
  hcf_ld_named id ;;; hcf_imm 1 ;;; hcf_emit op ;;; hcf_st_named id.

(** The operator of an assignment, for F64s or for I64s. *)
Definition bin_op (is_f64 : bool) (b : hc_op) : P hc_op :=
  if is_f64 then match float_op b with Some o => pret o | None => refuse end else pret b.

(** [id op= e] and [id = e] of a step. *)
Definition step_assign (id : Z) (bin : option hc_op) : P unit :=
  match bin with
  | Some b =>
      hcf_ld_named id ;;; parse_expr ;;;
      let* v := var id in
      let* op := bin_op (v_is_f64 v) b in
      hcf_emit op ;;; hcf_st_named id
  | None => parse_expr ;;; hcf_st_named id
  end.

Definition step_ident : P unit :=
  let* start := pget f_p in
  let* s := ident in
  hcf_skip ;;;
  let* t := tget (fun t => t) in
  let id := hcf_lookup t s in
  let* a := peek 0 in let* b := peek 1 in
  if (0 <=? id) && (a =? 43) && (b =? 43) then advance 2 ;;; incdec_named id HC_ADD
  else if (0 <=? id) && (a =? 45) && (b =? 45) then advance 2 ;;; incdec_named id HC_SUB
  else
    let* bin := attempt hcf_parse_assign_op in
    match bin with
    | Some bin' =>
        if id <? 0 then pmod (fun f => set_err false (set_p start f)) ;;; parse_expr ;;; hcf_emit HC_DROP
        else step_assign id bin'
    | None => pmod (fun f => set_err false (set_p start f)) ;;; parse_expr ;;; hcf_emit HC_DROP
    end.

Definition for_step : P unit :=
  hcf_skip ;;;
  let* c := peek 0 in
  if c =? 41 then pret tt
  else if hcf_ident_start c then step_ident
  else if c =? 42 then advance 1 ;;; parse_prim ;;; hcf_expect 61 ;;; parse_expr ;;; hcf_emit HC_STORE
  else parse_expr ;;; hcf_emit HC_DROP.

Definition stmt_for : P unit :=
  let* (l_top, l_end) := new_label_pair in
  hcf_expect 40 ;;;
  hcf_skip ;;;
  let* c := peek 0 in
  (if negb (c =? 59) then parse_stmt else advance 1) ;;;
  hcf_emit_u8 HC_LABEL l_top ;;;
  hcf_skip ;;;
  let* c := peek 0 in
  (if negb (c =? 59) then parse_expr else hcf_imm 1) ;;;
  hcf_expect 59 ;;; hcf_emit_u8 HC_JZ l_end ;;;
  let* (l_body, l_step) := new_label_pair in
  hcf_emit_u8 HC_JMP l_body ;;; hcf_emit_u8 HC_LABEL l_step ;;;
  for_step ;;;
  hcf_emit_u8 HC_JMP l_top ;;; hcf_expect 41 ;;; hcf_emit_u8 HC_LABEL l_body ;;;
  enter_loop l_end l_step ;;;
  parse_stmt ;;; hcf_emit_u8 HC_JMP l_step ;;;
  pop_loop ;;;
  hcf_emit_u8 HC_LABEL l_end.

(** ** switch *)

(** The label and the bounds of a case; the cases so far and the label of [default], -1 without one. *)
Record switch_case := mk_case { case_lab : Z; case_lo : Z; case_hi : Z }.

Definition case_turn (cases : list switch_case) : P (list switch_case) :=
  let* lo := or_refuse hcf_parse_case_val in
  if 32 <=? Z.of_nat (length cases) then refuse
  else
    hcf_skip ;;;
    let* a := peek 0 in let* b := peek 1 in let* c := peek 2 in
    let* hi := if (a =? 46) && (b =? 46) && (c =? 46) then advance 3 ;;; hcf_parse_case_val else pret lo in
    hcf_expect 58 ;;;
    let* lab := hcf_new_label in
    if lab <? 0 then bad
    else hcf_emit_u8 HC_LABEL lab ;;; pret (cases ++ [mk_case lab lo hi]).

Definition default_turn (l_def : Z) : P Z :=
  (if 0 <=? l_def then refuse else or_refuse (hcf_expect 58)) ;;;
  let* l := hcf_new_label in
  if l <? 0 then bad else hcf_emit_u8 HC_LABEL l ;;; pret l.

Definition switch_turn (st : list switch_case * Z) : P (bool * (list switch_case * Z)) :=
  let '(cases, l_def) := st in
  hcf_skip ;;;
  let* c := peek 0 in
  if c =? 125 then advance 1 ;;; pret (false, st)
  else
    let* k := hcf_kw "case" in
    if k : bool then let* cases := case_turn cases in pret (true, (cases, l_def))
    else
      let* k := hcf_kw "default" in
      if k : bool then let* l := default_turn l_def in pret (true, (cases, l))
      else parse_stmt ;;; pret (true, st).

(** [(uint64_t)(int64_t)v] of an [int]. *)
Definition imm_int (v : Z) : P unit := hcf_imm (u64 v).

Definition dispatch_case (tmp : Z) (c : switch_case) : P unit :=
  if case_lo c =? case_hi c then
    hcf_emit_u8 HC_LD_SLOT tmp ;;; imm_int (case_lo c) ;;; hcf_emit HC_EQ ;;; hcf_emit_u8 HC_JNZ (case_lab c)
  else
    hcf_emit_u8 HC_LD_SLOT tmp ;;; imm_int (case_lo c) ;;; hcf_emit HC_GE ;;;
    hcf_emit_u8 HC_LD_SLOT tmp ;;; imm_int (case_hi c) ;;; hcf_emit HC_LE ;;;
    hcf_emit HC_AND ;;; hcf_emit_u8 HC_JNZ (case_lab c).
Fixpoint dispatch (tmp : Z) (cases : list switch_case) : P unit :=
  match cases with [] => pret tt | c :: cases' => dispatch_case tmp c ;;; dispatch tmp cases' end.

Definition stmt_switch : P unit :=
  let* l_disp := hcf_new_label in
  let* l_end := hcf_new_label in
  (if (l_disp <? 0) || (l_end <? 0) then bad else pret tt) ;;;
  hcf_expect 40 ;;; parse_expr ;;; hcf_expect 41 ;;;
  let* tmp := new_tmp in
  hcf_emit_u8 HC_ST_SLOT tmp ;;; hcf_emit_u8 HC_JMP l_disp ;;; hcf_expect 123 ;;;
  enter_switch l_end ;;;
  let* (cases, l_def) := forever switch_turn ([], -1) in
  pop_break ;;;
  hcf_emit_u8 HC_JMP l_end ;;; hcf_emit_u8 HC_LABEL l_disp ;;;
  dispatch tmp cases ;;;
  (if 0 <=? l_def then hcf_emit_u8 HC_JMP l_def else pret tt) ;;;
  hcf_emit_u8 HC_LABEL l_end.

(** ** Jumps *)

Definition stmt_goto : P unit :=
  hcf_skip ;;;
  let* c := peek 0 in
  if negb (hcf_ident_start c) then refuse
  else
    let* s := ident in
    let* lab := hcf_get_glab s in
    if lab <? 0 then bad else hcf_emit_u8 HC_JMP lab ;;; hcf_expect 59.

(** A jump to the innermost of [targets]. *)
Definition jump_out (targets : tables -> list Z) : P unit :=
  let* l := tget targets in
  match l with [] => refuse | l0 :: _ => or_refuse (hcf_emit_u8 HC_JMP l0) ;;; hcf_expect 59 end.

(** ** enum *)

Definition enum_turn (next : Z) : P (bool * Z) :=
  hcf_skip ;;;
  let* c := peek 0 in
  if c =? 125 then advance 1 ;;; pret (false, next)
  else if negb (hcf_ident_start c) then refuse
  else
    let* s := ident in
    hcf_skip ;;;
    let* c := peek 0 in
    let* val := if c =? 61 then advance 1 ;;; let* lit := hcf_parse_int_lit in hcf_skip ;;; pret (signed 64 lit) else pret next in
    hcf_add_enum s val ;;;
    hcf_skip ;;;
    let* c := peek 0 in
    if c =? 44 then advance 1 ;;; pret (true, signed 64 (val + 1))
    else if c =? 125 then advance 1 ;;; pret (false, next)
    else refuse.

Definition stmt_enum : P unit :=
  hcf_skip ;;;
  let* c := peek 0 in
  (if hcf_ident_start c then let* _ := ident in hcf_skip else pret tt) ;;;
  hcf_expect 123 ;;;
  let* _ := forever enum_turn 0 in
  hcf_skip ;;;
  let* c := peek 0 in
  if c =? 59 then advance 1 else pret tt.

(** ** class and union *)

(** The size, the class and the F64 flag of a member's type. *)
Record member_type := mk_mtype { mt_stride : Z; mt_type : Z; mt_f64 : bool }.

Definition class_member_type : P member_type :=
  let* k := any_kw ["U8"; "u8"]%string in
  if k : bool then pret (mk_mtype 1 HC_TYPE_NONE false)
  else
    let* k := any_kw ["U32"; "u32"]%string in
    if k : bool then pret (mk_mtype 4 HC_TYPE_NONE false)
    else
      let* k := any_kw ["F64"; "f64"]%string in
      if k : bool then pret (mk_mtype 8 HC_TYPE_NONE true)
      else
        let* k := any_kw ["I64"; "i64"; "Bool"; "bool"; "CColorROPU16"]%string in
        if k : bool then pret (mk_mtype 8 HC_TYPE_NONE false)
        else
          let* c := peek 0 in
          if negb (hcf_ident_start c) then refuse
          else
            let* s := ident in
            let* t := tget (fun t => t) in
            let tci := hcf_find_class t s in
            if tci <? 0 then refuse else pret (mk_mtype (c_size (nth_class t tci)) tci false).

(** The class with one more member. *)
Definition add_member (is_union : bool) (mt : member_type) (name : list Z) (c : hc_class) : hc_class :=
  let nested := negb (mt_type mt =? HC_TYPE_NONE) in
  let align := if nested then 8 else mt_stride mt in
  let off := if is_union then 0 else hcf_align_up (c_size c) align in
  let m := mk_member name (wrap 16 off) (u8 (if nested then 8 else mt_stride mt)) (u8 (mt_type mt)) (if nested then false else mt_f64 mt) in
  mk_class (c_name c) (c_mem c ++ [m])
    (if is_union then (if c_size c <? mt_stride mt then mt_stride mt else c_size c) else off + mt_stride mt).

(** One name of a comma-separated list. *)
Definition member_turn (is_union : bool) (mt : member_type) (c : hc_class) : P (bool * hc_class) :=
  let* ch := peek 0 in
  if negb (hcf_ident_start ch) || (HC_MAX_MEMBERS <=? Z.of_nat (length (c_mem c))) then refuse
  else
    let* s := ident in
    if (15 <=? Z.of_nat (length s)) || (0 <=? hcf_find_member c s) then refuse
    else
      let c := add_member is_union mt s c in
      hcf_skip ;;;
      let* ch := peek 0 in
      if ch =? 44 then advance 1 ;;; hcf_skip ;;; pret (true, c)
      else hcf_expect 59 ;;; pret (false, c).

Definition class_turn (is_union : bool) (c : hc_class) : P (bool * hc_class) :=
  hcf_skip ;;;
  let* ch := peek 0 in
  if ch =? 125 then advance 1 ;;; pret (false, c)
  else
    let* mt := class_member_type in
    hcf_skip ;;;
    let* c := forever (member_turn is_union mt) c in
    pret (true, c).

(** Padded to whole words, one at least. *)
Definition finish_class (c : hc_class) : hc_class :=
  let size := hcf_align_up (c_size c) 8 in
  mk_class (c_name c) (c_mem c) (if size <? 8 then 8 else size).

(** [} a, b;]: a file-scope instance. *)
Definition instance_turn (ci words : Z) (_ : unit) : P (bool * unit) :=
  let* s := ident in
  let* gid := hcf_decl_global_n s words 8 in
  on_tabs (retype gid (u8 ci) false) ;;;
  hcf_skip ;;;
  let* c := peek 0 in
  if c =? 44 then
    advance 1 ;;; hcf_skip ;;;
    let* d := peek 0 in
    if negb (hcf_ident_start d) then refuse else pret (true, tt)
  else hcf_expect 59 ;;; pret (false, tt).

Definition stmt_class (is_union : bool) : P unit :=
  let* t := tget (fun t => t) in
  if HC_MAX_CLASSES <=? Z.of_nat (length (classes t)) then refuse
  else
    hcf_skip ;;;
    let* ch := peek 0 in
    if negb (hcf_ident_start ch) then refuse
    else
      let* s := ident in
      if (15 <=? Z.of_nat (length s)) || (0 <=? hcf_find_class t s) then refuse
      else
        hcf_expect 123 ;;;
        let* c := forever (class_turn is_union) (mk_class s [] 0) in
        let c := finish_class c in
        on_tabs (fun t => with_classes (classes t ++ [c]) t) ;;;
        hcf_skip ;;;
        let* ch := peek 0 in
        if hcf_ident_start ch then
          let* t := tget (fun t => t) in
          let words := Z.quot (c_size c + 7) 8 in
          forever (instance_turn (Z.of_nat (length (classes t)) - 1) (if words <? 1 then 1 else words)) tt
        else if ch =? 59 then advance 1 else pret tt.

(** ** Stores through pointers *)

(** [ *p = e;], behind the sign. *)
Definition stmt_star : P unit :=
  hcf_skip ;;;
  let* start := pget f_p in
  let* c := peek 0 in
  let* named :=
    if hcf_ident_start c then
      let* s := ident in
      let* t := tget (fun t => t) in
      let id := hcf_lookup t s in
      if (0 <=? id) && v_is_ptr (nth_var t id) then pret (Some id) else pmod (set_p start) ;;; pret None
    else pret None in
  match named with
  | Some id => hcf_ld_named id ;;; hcf_expect 61 ;;; parse_expr ;;; hcf_emit_store_at id ;;; hcf_expect 59
  | None => parse_prim ;;; hcf_expect 61 ;;; parse_expr ;;; hcf_emit HC_STORE ;;; hcf_expect 59
  end.

(** ** Declarations *)

(** The width and the F64 flag of a declared type. *)
Definition decl_type : P (option (Z * bool)) :=
  let* k := any_kw ["U8"; "u8"]%string in
  if k : bool then pret (Some (1, false))
  else
    let* k := any_kw ["U32"; "u32"]%string in
    if k : bool then pret (Some (4, false))
    else
      let* k := any_kw ["F64"; "f64"]%string in
      if k : bool then pret (Some (8, true))
      else
        let* k := any_kw ["I64"; "i64"; "Bool"; "bool"; "U0"; "u0"]%string in
        pret (if k : bool then Some (8, false) else None).

(** [\[N\]] *)
Definition array_size : P Z :=
  or_refuse (
    advance 1 ;;; hcf_skip ;;;
    let* n := hcf_parse_case_val in
    if (n <? 1) || (255 <? n) then bad else hcf_expect 93 ;;; pret n).

(** [= e], [= { ... }], or the zero of a scalar. *)
Definition decl_init (id nelem : Z) : P unit :=
  hcf_skip ;;;
  let* c := peek 0 in
  if c =? 61 then
    advance 1 ;;; hcf_skip ;;;
    let* d := peek 0 in
    if d =? 123 then hcf_parse_brace_init parse_expr id
    else if nelem =? 1 then parse_expr ;;; hcf_st_named id
    else refuse
  else if nelem =? 1 then hcf_imm 0 ;;; hcf_st_named id
  else pret tt.

Definition decl_turn (stride : Z) (is_f64 : bool) (_ : unit) : P (bool * unit) :=
  hcf_skip ;;;
  let* c := peek 0 in
  let* as_iptr := if c =? 42 then advance 1 ;;; hcf_skip ;;; pret true else pret false in
  let* c := peek 0 in
  if negb (hcf_ident_start c) then refuse
  else
    let* s := ident in
    hcf_skip ;;;
    let* c := peek 0 in
    let* nelem := if negb as_iptr && (c =? 91) then array_size else pret 1 in
    let* id := hcf_decl_n s nelem (if as_iptr : bool then 8 else stride) in
    (if is_f64 then on_tabs (mark_f64 id) else pret tt) ;;;
    (if as_iptr then on_tabs (mark_ptr id stride) else pret tt) ;;;
    decl_init id nelem ;;;
    hcf_skip ;;;
    let* c := peek 0 in
    if c =? 44 then advance 1 ;;; pret (true, tt) else pret (false, tt).

Definition stmt_decl (stride : Z) (is_f64 : bool) : P unit := forever (decl_turn stride is_f64) tt ;;; hcf_expect 59.

(** [Class name;], [Class *name = e;], behind the class. *)
Definition stmt_decl_class (ci : Z) : P unit :=
  let* c := peek 0 in
  let* as_ptr := if c =? 42 then advance 1 ;;; hcf_skip ;;; pret true else pret false in
  let* c := peek 0 in
  if negb (hcf_ident_start c) then refuse
  else
    let* s := ident in
    let* id := hcf_decl_class s ci as_ptr in
    hcf_skip ;;;
    let* c := peek 0 in
    (if (as_ptr : bool) && (c =? 61) then advance 1 ;;; parse_expr ;;; hcf_st_named id
     else if as_ptr then hcf_imm 0 ;;; hcf_st_named id
     else pret tt) ;;;
    hcf_expect 59.

(** ** Assignments and calls *)

(** [e;] *)
Definition stmt_expr : P unit := parse_expr ;;; hcf_emit HC_DROP ;;; hcf_expect 59.

(** [Fs->m = e;], behind [Fs->]. *)
Definition stmt_fs : P unit :=
  hcf_skip ;;;
  let* c := peek 0 in
  if negb (hcf_ident_start c) then refuse
  else
    let* m := ident in
    match fs_addr m with
    | None => refuse
    | Some g =>
        hcf_skip ;;;
        let* eq := at_assign in
        if negb eq then refuse
        else advance 1 ;;; hcf_imm (host_addr g) ;;; parse_expr ;;; hcf_emit HC_STORE ;;; hcf_expect 59
    end.

(** [id\[i\] = e;], behind the bracket. *)
Definition stmt_index (id : Z) : P unit :=
  hcf_parse_index_addr parse_expr id ;;;
  let* bin := hcf_parse_assign_op in
  let* v := var id in
  hcf_finish_mem_assign parse_expr bin (sized_load (v_stride v)) (sized_store (v_stride v)) (v_is_f64 v).

(** [id.m ...;] and [id->m ...;], behind the sign. *)
Definition stmt_member (addr : P field_info) : P unit :=
  let* fd := or_refuse addr in
  if negb (fd_type fd =? HC_TYPE_NONE) then refuse
  else
    hcf_skip ;;;
    let ld := sized_load (fd_stride fd) in
    let st := sized_store (fd_stride fd) in
    let* a := peek 0 in let* b := peek 1 in
    if (a =? 43) && (b =? 43) then advance 2 ;;; hcf_finish_mem_incdec ld st (fd_is_f64 fd) true
    else if (a =? 45) && (b =? 45) then advance 2 ;;; hcf_finish_mem_incdec ld st (fd_is_f64 fd) false
    else
      let* bin := or_refuse hcf_parse_assign_op in
      hcf_finish_mem_assign parse_expr bin ld st (fd_is_f64 fd).

(** [id = e;] and [id op= e;], behind the name. *)
Definition stmt_assign (id : Z) : P unit :=
  let* bin := hcf_parse_assign_op in
  let* v := var id in
  match bin with
  | Some b =>
      hcf_ld_named id ;;; parse_expr ;;;
      coerce (v_is_f64 v) false ;;;
      let* op := bin_op (v_is_f64 v) b in
      hcf_emit op ;;; hcf_st_named id
  | None => parse_expr ;;; coerce (v_is_f64 v) true ;;; hcf_st_named id
  end ;;;
  hcf_expect 59.

(** A statement that begins with the variable [id]. *)
Definition stmt_var (id : Z) : P unit :=
  let* a := peek 0 in let* b := peek 1 in
  if (a =? 43) && (b =? 43) then advance 2 ;;; incdec_named id HC_ADD ;;; hcf_expect 59
  else if (a =? 45) && (b =? 45) then advance 2 ;;; incdec_named id HC_SUB ;;; hcf_expect 59
  else if a =? 91 then advance 1 ;;; stmt_index id
  else if a =? 46 then advance 1 ;;; stmt_member (hcf_parse_dot_addr id)
  else if (a =? 45) && (b =? 62) then advance 2 ;;; stmt_member (hcf_parse_arrow_addr id)
  else stmt_assign id.

(** A statement that begins with a name. *)
Definition stmt_ident : P unit :=
  let* start := pget f_p in
  let* s := ident in
  hcf_skip ;;;
  let* c := peek 0 in
  if c =? 58 then
    advance 1 ;;;
    let* lab := hcf_get_glab s in
    if lab <? 0 then bad else hcf_emit_u8 HC_LABEL lab
  else
    let* t := tget (fun t => t) in
    let ci := hcf_find_class t s in
    if 0 <=? ci then stmt_decl_class ci
    else if c =? 40 then pmod (set_p start) ;;; stmt_expr
    else
      let id := hcf_lookup t s in
      let* b := peek 1 in
      if 0 <=? id then stmt_var id
      else if is_name "Fs" s && (c =? 45) && (b =? 62) then advance 2 ;;; stmt_fs
      else pmod (set_p start) ;;; stmt_expr.

(** ** Statements *)

(** Behind the keywords of control. *)
Definition stmt_simple : P unit :=
  let* c := peek 0 in
  if c =? 42 then advance 1 ;;; stmt_star
  else
    let* d := decl_type in
    match d with
    | Some (stride, is_f64) => stmt_decl stride is_f64
    | None =>
        let* c := peek 0 in
        if hcf_ident_start c then stmt_ident else refuse
    end.

(** The statements of a keyword, in the order the code tries them. *)
Definition keywords : list (list String.string * P unit) :=
  [(["try"; "catch"], parse_stmt); (["return"], stmt_return); (["if"], stmt_if); (["while"], stmt_while); (["do"], stmt_do);
   (["for"], stmt_for); (["switch"], stmt_switch); (["goto"], stmt_goto); (["break"], jump_out brk_tgt); (["continue"], jump_out cont_tgt);
   (["enum"], stmt_enum); (["union"], stmt_class true); (["class"], stmt_class false)]%string.

Fixpoint by_keyword (l : list (list String.string * P unit)) : P unit :=
  match l with
  | [] => stmt_simple
  | (ks, m) :: l' => let* k := any_kw ks in if k : bool then m else by_keyword l'
  end.

Definition stmt_body : P unit :=
  hcf_skip ;;;
  let* c := peek 0 in
  if c =? 123 then hcf_parse_block
  else forever qualifier_turn tt ;;; by_keyword keywords.
End Stmt.
