(* ===== verification/HcFrontFile.v ===== *)
(** * The HolyC front end ([src/src/hc_front.h]): whole files

    [hc_front_compile_ex]: functions, file-scope variables and statements, one after the other.  A
    function is parsed by a front end of its own, which sees the classes, constants and globals
    declared above it, and is compiled at once by [jit_into]; the statements at file scope make up
    the main program. *)

From S2P Require Import Prelude A64 HcIr HcFront HcFrontPrim HcFrontOps HcFrontStmt.
#[local] Open Scope Z_scope.
#[local] Open Scope front_scope.

(** ** The recursion of statements *)

Section File.
Context (host_addr : String.string -> Z) (g_hc_mem : Z).

Definition parse_prim : P unit := fun f => fst (parsers host_addr g_hc_mem (2 * length (f_p f) + 5)) f.

(** Statements at most [fuel] deep. *)
Fixpoint stmts (fuel : nat) : P unit :=
  match fuel with
  | O => out_of_fuel
  | S fuel' => stmt_body host_addr parse_prim (hcf_parse_expr host_addr g_hc_mem) (stmts fuel')
  end.

(** Every nested statement is shorter. *)
Definition hcf_parse_stmt : P unit := fun f => stmts (S (length (f_p f))) f.

(** ** Parameters *)

(** The type of a parameter: its width, the width it points to, the class or -1. *)
Record param_type := mk_param { pt_stride : Z; pt_pointee : Z; pt_f64 : bool; pt_ptr : bool; pt_class : Z }.

Definition parse_param_type : P param_type :=
  let* k := any_kw ["F64"; "f64"]%string in
  if k : bool then pret (mk_param 8 8 true false (-1))
  else
    let* k := any_kw ["U32"; "u32"]%string in
    if k : bool then pret (mk_param 4 4 false false (-1))
    else
      let* k := any_kw ["U8"; "u8"]%string in
      if k : bool then pret (mk_param 1 1 false false (-1))
      else
        let* k := any_kw ["I64"; "i64"; "Bool"; "bool"; "CColorROPU16"]%string in
        if k : bool then pret (mk_param 8 8 false false (-1))
        else
          let* c := peek 0 in
          if negb (hcf_ident_start c) then bad
          else
            let* s := ident in
            let* t := tget (fun t => t) in
            let pci := hcf_find_class t s in
            if pci <? 0 then
              hcf_skip ;;;
              let* c := peek 0 in
              if negb (c =? 42) then bad else pret (mk_param 8 8 false true pci)
            else pret (mk_param 8 8 false true pci).

(** [*], which a class must have. *)
Definition param_star (pt : param_type) : P param_type :=
  hcf_skip ;;;
  let* c := peek 0 in
  if c =? 42 then
    advance 1 ;;; hcf_skip ;;; pret (mk_param (pt_stride pt) (pt_pointee pt) (pt_f64 pt) true (pt_class pt))
  else if 0 <=? pt_class pt then bad
  else pret pt.

(** A parameter without a name is called [_a] and its number. *)
Definition param_name (nargs : Z) : P (list Z) :=
  let* c := peek 0 in
  if negb (hcf_ident_start c) then pret [95; 97; u8 (48 + nargs)] else ident.

Definition param_turn (nargs : Z) : P (bool * Z) :=
  let* pt := parse_param_type in
  let* pt := param_star pt in
  let* s := param_name nargs in
  let* id := if 0 <=? pt_class pt then hcf_decl_class s (pt_class pt) true
             else hcf_decl_n s 1 (if pt_ptr pt then 8 else pt_stride pt) in
  if 7 <=? nargs then bad
  else
    (if pt_f64 pt then on_tabs (mark_f64 id) else pret tt) ;;;
    (if pt_ptr pt && (pt_class pt <? 0) then on_tabs (mark_ptr id (pt_pointee pt)) else pret tt) ;;;
    let* v := var id in
    hcf_emit_u8u8 HC_INARG (v_base v) nargs ;;;
    hcf_skip ;;;
    let* c := peek 0 in
    if c =? 44 then advance 1 ;;; pret (true, nargs + 1) else pret (false, nargs + 1).

Definition params : P Z :=
  hcf_skip ;;;
  let* c := peek 0 in
  if negb (c =? 41) then forever param_turn 0 else pret 0.

(** ** Functions *)

(** The front end of a function: an empty frame, and the globals in scope. *)
Definition enter_function (f : front) : front :=
  let t := tabs f in
  mk_front (f_p f) [] 8192 false false
    (mk_tables 0 (filter (fun v => v_is_global v = true) (vars t)) 0 (glob_used t) (str_top t) (strs t) (fns t) (classes t) (enums t) [] [] []).

(** [bc\[1\] = mem_used;] *)
Definition patch_frame : P unit :=
  let* m := tget mem_used in
  pmod (fun f => set_out (<[1%nat := u8 m]> (f_bc f)) f).

(** [fn->bc\[fb.n++\] = HC_END;], without a test: behind the array if the code fills it. *)
Definition store_end : P unit := fun f =>
  if f_cap f <=? Z.of_nat (length (f_bc f)) then (Wild, f) else raw [hc_code HC_END] f.

(** A function from its parenthesis on: the number of parameters; the bytes are the code. *)
Definition function_body : P Z :=
  hcf_emit_u8 HC_ENTER 0 ;;;
  let* nargs := params in
  hcf_expect 41 ;;;
  hcf_parse_block hcf_parse_stmt ;;;
  let* e := pget f_err in
  if e : bool then bad
  else
    let* m := tget mem_used in
    if 255 <? m then bad
    else patch_frame ;;; store_end ;;; pret nargs.

Context (fn_code_at : Z -> Z) (jit_into : option (list Z -> Z + list Z)).

(** What the function leaves to its file: the text behind it, the strings and the function itself. *)
Definition leave_function (name : list Z) (nargs : Z) (words : list Z) (fb f : front) : front :=
  let t := tabs f in
  set_tabs (with_fns (fns t ++ [mk_fn name nargs (fn_code_at (Z.of_nat (length (fns t)))) (f_bc fb) words])
    (with_strs (str_top (tabs fb)) (strs (tabs fb)) t)) (set_p (f_p fb) f).

(** A definition of a function, at its parenthesis. *)
Definition define_function (name : list Z) : P unit := fun f =>
  match jit_into with
  | None => bad f
  | Some jit =>
      if (HC_MAX_FNS <=? Z.of_nat (length (fns (tabs f)))) || (23 <=? Z.of_nat (length name)) then bad f
      else
        match function_body (enter_function (set_p (drop 1 (f_p f)) f)) with
        | (Done nargs, fb) =>
            match jit (f_bc fb) with
            | inl _ => bad f
            | inr words => (Done tt, leave_function name nargs words fb f)
            end
        | (Bad, _) => bad f
        | (Wild, fb) => (Wild, fb)
        | (NoFuel, _) => out_of_fuel f
        end
  end.

(** ** File scope *)

(** The type at the head of a declaration: its width, [U0] and F64. *)
Record file_type := mk_ftype { ft_stride : Z; ft_u0 : bool; ft_f64 : bool }.

Definition parse_file_type : P (option file_type) :=
  let* k := any_kw ["U0"; "u0"]%string in
  if k : bool then pret (Some (mk_ftype 8 true false))
  else
    let* k := any_kw ["I64"; "i64"; "Bool"; "bool"]%string in
    if k : bool then pret (Some (mk_ftype 8 false false))
    else
      let* k := any_kw ["U32"; "u32"]%string in
      if k : bool then pret (Some (mk_ftype 4 false false))
      else
        let* k := any_kw ["U8"; "u8"]%string in
        if k : bool then pret (Some (mk_ftype 1 false false))
        else
          let* k := any_kw ["F64"; "f64"]%string in
          pret (if k : bool then Some (mk_ftype 8 false true) else None).

Definition global_size : P Z :=
  advance 1 ;;;
  let* n := hcf_parse_int_lit in
  if (n <? 1) || (255 <? n) then bad else hcf_expect 93 ;;; pret n.

Definition global_init (gid nelem : Z) : P unit :=
  hcf_skip ;;;
  let* c := peek 0 in
  if c =? 61 then
    advance 1 ;;; hcf_skip ;;;
    let* d := peek 0 in
    (if d =? 123 then hcf_parse_brace_init (hcf_parse_expr host_addr g_hc_mem) gid
     else if nelem =? 1 then hcf_parse_expr host_addr g_hc_mem ;;; hcf_st_named gid
     else bad) ;;;
    hcf_skip
  else pret tt.

(** One variable, behind its name. *)
Definition global_turn (ft : file_type) (name : list Z) : P (bool * list Z) :=
  let* c := peek 0 in
  let* nelem := if c =? 91 then global_size else pret 1 in
  let* gid := hcf_decl_global_n name nelem (ft_stride ft) in
  (if ft_f64 ft then on_tabs (mark_f64 gid) else pret tt) ;;;
  global_init gid nelem ;;;
  let* c := peek 0 in
  if c =? 44 then
    advance 1 ;;; hcf_skip ;;;
    let* d := peek 0 in
    if negb (hcf_ident_start d) then bad
    else let* s := ident in hcf_skip ;;; pret (true, s)
  else hcf_expect 59 ;;; pret (false, name).

Definition file_stmt : P (bool * unit) :=
  hcf_parse_stmt ;;;
  let* e := pget f_err in
  if e : bool then bad else pret (true, tt).

(** A function, variables or a statement. *)
Definition file_turn (_ : unit) : P (bool * unit) :=
  let* c := peek 0 in
  if c =? 0 then pret (false, tt)
  else
    hcf_skip ;;;
    let* c := peek 0 in
    if c =? 0 then pret (false, tt)
    else
      let* start := pget f_p in
      let* ft := parse_file_type in
      match ft with
      | None => pmod (set_p start) ;;; file_stmt
      | Some ft =>
          hcf_skip ;;;
          let* c := peek 0 in
          if negb (hcf_ident_start c) then pmod (set_p start) ;;; file_stmt
          else
            let* s := ident in
            hcf_skip ;;;
            let* c := peek 0 in
            if c =? 40 then define_function s ;;; pret (true, tt)
            else if ft_u0 ft then pmod (set_p start) ;;; file_stmt
            else let* _ := forever (global_turn ft) s in pret (true, tt)
      end.

(** ** The compiler *)

Definition CDC : hc_class :=
  mk_class (S_ "CDC") [mk_member (S_ "color") 0 8 HC_TYPE_NONE false; mk_member (S_ "depth_buf") 8 8 HC_TYPE_NONE false] 16.
Definition CMenuEntry : hc_class := mk_class (S_ "CMenuEntry") [mk_member (S_ "checked") 0 8 HC_TYPE_NONE false] 8.

Definition compile_start (src : list Z) (cap : Z) : front :=
  mk_front src [] cap false false (mk_tables 0 [] 0 0 HC_IR_MEM_WORDS [] [] [CDC; CMenuEntry] [] [] [] []).

(** [while ( *f.p)] and what follows it; the result is the number of bytes. *)
Definition file_body : P Z :=
  hcf_emit_u8 HC_ENTER 0 ;;;
  forever file_turn tt ;;;
  let* m := tget mem_used in
  if 255 <? m then bad
  else
    patch_frame ;;;
    let* n := pget (fun f => Z.of_nat (length (f_bc f))) in
    let* cap := pget f_cap in
    if cap <? n + 1 then bad
    else raw [hc_code HC_END] ;;; pret (n + 1).

Definition hc_front_compile_ex (src : list Z) (cap : Z) : result Z * front := file_body (compile_start src cap).
End File.

Definition hc_front_compile (host_addr : String.string -> Z) (g_hc_mem : Z) (src : list Z) (cap : Z) : result Z * front :=
  hc_front_compile_ex host_addr g_hc_mem (fun _ => 0) None src cap.
