(* ===== verification/HcFrontStmtSpec.v ===== *)
(** * The HolyC front end: the flow of control, and what a run of a statement promises

    The code of a statement starts and ends with an empty stack, but it may jump out: to the ends
    of the loops around it and to the labels of [goto].  [flow n0 n1 G W T cs b]: the code [cs],
    written while the labels from [n0] to [n1] were allocated, leads from depth 0 to depth [b]; it
    jumps to labels of its own, to those of [G] (the labels of [goto]), of [W] (allocated, and not
    placed yet) and of [T] (outside), with an empty stack. *)

From S2P Require Import Prelude A64 A64Sem HcIr HcIrSem HcFrontCode.
#[local] Open Scope Z_scope.

(** How often a label is placed. *)
Definition times (id : Z) (D : list (Z * Z)) : nat := count_occ Z.eq_dec (map fst D) id.

Record flow (n0 n1 : Z) (G W T : list Z) (cs : list hinsn) (b : Z) : Prop := mk_flow {
  fl_range : n0 <= n1;
  fl_walk : walk cs 0 = Some b;
  fl_jumps : forall id d, In (id, d) (jumps cs 0) -> In (id, d) (labels cs 0) \/ d = 0 /\ (In id W \/ In id T \/ In id G);
  fl_labels : forall id d, In (id, d) (labels cs 0) -> n0 <= id < n1 /\ ~ In id G /\ ~ In id W \/ In id G /\ d = 0;
  fl_unique : forall id, ~ In id G -> (times id (labels cs 0) <= 1)%nat;
  fl_pending : forall id, In id W -> n0 <= id < n1 /\ ~ In id G;
  fl_gotos : forall id, In id G -> id < n1;
  fl_packable : forallb packable cs = true;
  fl_operands : forallb operand_ok cs = true }.

(** ** Counting *)

Lemma times_app id D1 D2 : times id (D1 ++ D2) = (times id D1 + times id D2)%nat.
Proof. unfold times. rewrite map_app. apply count_occ_app. Qed.

Lemma times_zero id D : (forall d, ~ In (id, d) D) -> times id D = 0%nat.
Proof.
  intros H. unfold times. apply count_occ_not_In. intros Hin. apply in_map_iff in Hin as ([i d] & E & Hin). cbn in E. subst i. exact (H d Hin).
Qed.

Lemma times_in id D : (0 < times id D)%nat -> exists d, In (id, d) D.
Proof.
  intros H. apply count_occ_In in H. apply in_map_iff in H as ([i d] & E & Hin). cbn in E. subst i. eauto.
Qed.

Lemma times_nodup id D : List.NoDup (map fst D) -> (times id D <= 1)%nat.
Proof. intros H. apply (NoDup_count_occ Z.eq_dec). exact H. Qed.

Lemma nodup_times D : (forall id, (times id D <= 1)%nat) -> List.NoDup (map fst D).
Proof. intros H. apply (NoDup_count_occ Z.eq_dec). exact H. Qed.

(** ** Building *)

Lemma flow_nil n G T : (forall id, In id G -> id < n) -> flow n n G [] T [] 0.
Proof. intros HG. split; cbn; try reflexivity; try tauto; lia. Qed.

(** A piece behind the code so far, by its walk, jumps and labels. *)
Lemma flow_app n0 n1 n2 G G' W W' T cs cs2 b b2 : flow n0 n1 G W T cs b -> n1 <= n2 ->
  walk cs2 b = Some b2 -> forallb packable cs2 = true -> forallb operand_ok cs2 = true ->
  (forall id, In id G -> In id G') -> (forall id, In id G' -> In id G \/ n1 <= id) -> (forall id, In id G' -> id < n2) ->
  (forall id, In id W' -> In id W \/ n1 <= id < n2 /\ ~ In id G') ->
  (forall id d, In (id, d) (labels cs2 b) -> n1 <= id < n2 /\ ~ In id G' /\ ~ In id W' \/ In id W /\ ~ In id W' \/ In id G' /\ d = 0) ->
  (forall id, ~ In id G' -> (times id (labels cs2 b) <= 1)%nat) ->
  (forall id, In id W -> In id W' \/ In (id, 0) (labels cs2 b)) ->
  (forall id d, In (id, d) (jumps cs2 b) -> In (id, d) (labels cs2 b) \/ d = 0 /\ (In id W \/ In id W' \/ In id T \/ In id G' \/ In (id, 0) (labels cs 0))) ->
  flow n0 n2 G' W' T (cs ++ cs2) b2.
Proof.
  intros [F0 F1 F2 F3 F4 F5 F6 F7 F8] Hn Hw Hp Ho HG HG' Hg HW HL HU HP HJ.
  assert (Hold : forall id d, In (id, d) (labels cs 0) -> n0 <= id < n1 /\ ~ In id G /\ ~ In id W -> ~ In id G' /\ ~ In id W').
  { intros id d _ (R & N1 & N2). split; [intros X; apply HG' in X; destruct X; [tauto | lia]|].
    intros X. apply HW in X as [X|[X _]]; [tauto | lia]. }
  split; rewrite ?(jumps_app cs cs2 0 b F1), ?(labels_app cs cs2 0 b F1).
  - lia.
  - rewrite walk_app, F1. exact Hw.
  - intros id d Hin. rewrite in_app_iff in *. destruct Hin as [Hin|Hin].
    + destruct (F2 id d Hin) as [L|(-> & [HW0|[HT|HG0]])]; [auto 10| | auto 10 | auto 10].
      destruct (HP id HW0); auto 10.
    + destruct (HJ id d Hin) as [L|(-> & [HW0|[HW1|[HT|[HG0|HD]]]])]; auto 10. destruct (HP id HW0); auto 10.
  - intros id d Hin. apply in_app_iff in Hin as [Hin|Hin].
    + destruct (F3 id d Hin) as [R|[X ->]]; [|auto]. pose proof (Hold id d Hin R). destruct R as (R & _). left. split; [lia | assumption].
    + destruct (HL id d Hin) as [(R & N)|[(X & N)|X]]; [left; split; [lia | assumption] | | auto].
      destruct (F5 id X) as [R NG]. left. split; [lia|]. split; [|exact N]. intros Y. apply HG' in Y as [Y|Y]; [tauto | lia].
  - intros id HN. rewrite times_app. assert (HNG : ~ In id G) by auto. specialize (F4 id HNG). specialize (HU id HN).
    destruct (Nat.eq_dec (times id (labels cs 0)) 0%nat) as [Z1|Z1]; [lia|]. destruct (Nat.eq_dec (times id (labels cs2 b)) 0%nat) as [Z2|Z2]; [lia|].
    destruct (times_in id (labels cs 0) ltac:(lia)) as [d1 D1].
    destruct (times_in id (labels cs2 b) ltac:(lia)) as [d2 D2]. exfalso.
    destruct (F3 id d1 D1) as [(R & _ & NW)|[X _]]; [|tauto].
    destruct (HL id d2 D2) as [(R2 & _)|[(X & _)|[X _]]]; [lia | tauto | tauto].
  - intros id X. apply HW in X as [X|(X & N)]; [|split; [lia | exact N]]. destruct (F5 id X) as [R N]. split; [lia|].
    intros Y. apply HG' in Y as [Y|Y]; [tauto | lia].
  - exact Hg.
  - rewrite forallb_app, F7, Hp. reflexivity.
  - rewrite forallb_app, F8, Ho. reflexivity.
Qed.

(** Balanced code of an expression. *)
Lemma flow_code n0 n1 n2 G W T cs b cs2 c d : flow n0 n1 G W T cs b -> n1 <= n2 -> code_ok n1 n2 cs2 c d -> c <= b ->
  flow n0 n2 G W T (cs ++ cs2) (b - c + d).
Proof.
  intros F Hn Hc Hb. assert (C2 : code_ok n1 n2 cs2 b (b - c + d)).
  { replace b with (c + (b - c)) at 1 by lia. replace (b - c + d) with (d + (b - c)) by lia. apply code_ok_deeper; [lia | exact Hc]. }
  destruct C2 as [C1 C2 C3 C4 C5]. rewrite List.Forall_forall in C4. pose proof (fl_pending _ _ _ _ _ _ _ F) as FP. pose proof (fl_gotos _ _ _ _ _ _ _ F) as FG.
  eapply flow_app; [exact F | exact Hn | exact C1 | apply insn_packable, C5 | apply insn_operands, C5 | | | | | | | |]; auto.
  - intros id X. specialize (FG id X). lia.
  - intros id x Hin. left. specialize (C4 _ Hin). cbn in C4. split; [exact C4|]. split; intros X; [specialize (FG id X); lia | destruct (FP id X); lia].
  - intros id _. apply times_nodup, C3.
Qed.

(** A label is allocated. *)
Lemma flow_new n0 n1 G W T cs b : flow n0 n1 G W T cs b -> flow n0 (n1 + 1) G (n1 :: W) T cs b.
Proof.
  intros F. pose proof (fl_gotos _ _ _ _ _ _ _ F) as FG. rewrite <- (app_nil_r cs).
  eapply flow_app; [exact F | lia | reflexivity | reflexivity | reflexivity | | | | | | | |]; cbn [In jumps labels]; auto; try tauto; try (intros; unfold times; cbn; lia).
  - intros id X. specialize (FG id X). lia.
  - intros id [<-|X]; [right; split; [lia|]; intros X; specialize (FG n1 X); lia | auto].
Qed.

(** A label of [goto] is allocated. *)
Lemma flow_new_goto n0 n1 G W T cs b : flow n0 n1 G W T cs b -> flow n0 (n1 + 1) (G ++ [n1]) W T cs b.
Proof.
  intros F. pose proof (fl_gotos _ _ _ _ _ _ _ F) as FG. rewrite <- (app_nil_r cs).
  eapply flow_app; [exact F | lia | reflexivity | reflexivity | reflexivity | | | | | | | |]; cbn [In jumps labels]; try tauto; try (intros; unfold times; cbn; lia).
  - intros id X. apply in_app_iff. auto.
  - intros id X. apply in_app_iff in X as [X|[<-|[]]]; [auto | right; lia].
  - intros id X. apply in_app_iff in X as [X|[<-|[]]]; [specialize (FG id X); lia | lia].
Qed.

(** Labels are allocated and not used. *)
Lemma flow_up n0 n1 n2 G W T cs b : flow n0 n1 G W T cs b -> n1 <= n2 -> flow n0 n2 G W T cs b.
Proof.
  intros F Hn. rewrite <- (app_nil_r cs). replace b with (b - 0 + 0) by lia.
  destruct (Z_le_gt_dec 0 b) as [Hb|Hb]; [eapply flow_code; [exact F | exact Hn | apply code_ok_nil | exact Hb]|].
  pose proof (fl_gotos _ _ _ _ _ _ _ F) as FG.
  replace (b - 0 + 0) with b by lia. eapply flow_app; [exact F | lia | reflexivity | reflexivity | reflexivity | | | | | | | |]; cbn [In jumps labels]; auto; try tauto; try (intros; unfold times; cbn; lia).
  - intros id X. specialize (FG id X). lia.
Qed.

(** Labels of an expression are not pending. *)
Definition is_branch (op : hc_op) (b : Z) : Prop := op = HC_JMP /\ b = 0 \/ (op = HC_JZ \/ op = HC_JNZ) /\ b = 1.

Lemma flow_one n0 n1 G W W' T cs b b' i : flow n0 n1 G W T cs b -> step_depth i b = Some b' -> packable i = true -> operand_ok i = true ->
  (forall id, In id W' -> In id W) ->
  (forall d, In (h_a i, d) (labels [i] b) -> In (h_a i) W /\ ~ In (h_a i) W' \/ In (h_a i) G /\ d = 0) ->
  (forall id, In id W -> In id W' \/ In (id, 0) (labels [i] b)) ->
  (forall d, In (h_a i, d) (jumps [i] b) -> d = 0 /\ (In (h_a i) W \/ In (h_a i) T \/ In (h_a i) G \/ In (h_a i, 0) (labels cs 0))) ->
  flow n0 n1 G W' T (cs ++ [i]) b'.
Proof.
  intros F Hs Hp Ho HW HL HP HJ. eapply flow_app; [exact F | lia | cbn; rewrite Hs; reflexivity | cbn; rewrite Hp; reflexivity | cbn; rewrite Ho; reflexivity | | | | | | | |]; auto.
  - exact (fl_gotos _ _ _ _ _ _ _ F).
  - intros id d Hin. assert (E : id = h_a i) by (cbn in Hin; destruct (bool_decide _); cbn in Hin; [destruct Hin as [[= <- _]|[]]; reflexivity | destruct Hin]).
    subst id. destruct (HL d Hin); tauto.
  - intros id _. unfold times. cbn. destruct (bool_decide _); cbn; [destruct (Z.eq_dec (h_a i) id); lia | lia].
  - intros id d Hin. assert (E : id = h_a i) by (cbn in Hin; destruct (is_jump _); cbn in Hin; [destruct Hin as [[= <- _]|[]]; reflexivity | destruct Hin]).
    subst id. destruct (HJ d Hin); tauto.
Qed.

Lemma flow_jump n0 n1 G W T cs b op id : flow n0 n1 G W T cs b -> is_branch op b -> 0 <= id < 256 -> In id W \/ In id T \/ In id G \/ In (id, 0) (labels cs 0) ->
  flow n0 n1 G W T (cs ++ [mk_h op id 0]) 0.
Proof.
  intros F Hb Hid Hin. assert (Hs : step_depth (mk_h op id 0) b = Some 0) by (destruct Hb as [[-> ->]|[[-> | ->] ->]]; reflexivity).
  assert (Ho : packable (mk_h op id 0) = true /\ operand_ok (mk_h op id 0) = true /\ bool_decide (op = HC_LABEL) = false).
  { destruct Hb as [[-> _]|[[-> | ->] _]]; unfold packable, operand_ok; cbn [operands_of h_op h_a h_b]; (split; [|split; [|reflexivity]]; zgoal). }
  destruct Ho as (O1 & O2 & O3). eapply flow_one; [exact F | exact Hs | exact O1 | exact O2 | auto | | auto |].
  - cbn. rewrite O3. intros d [].
  - cbn. unfold after. rewrite Hs. intros d Hd. destruct (is_jump op); [destruct Hd as [[= <-]|[]]; auto | destruct Hd].
Qed.

Lemma flow_place n0 n1 G W W' T cs id : flow n0 n1 G W T cs 0 -> 0 <= id < 256 -> In id W \/ In id G ->
  (forall x, In x W -> x = id \/ In x W') -> (forall x, In x W' -> x <> id /\ In x W) ->
  flow n0 n1 G W' T (cs ++ [mk_h HC_LABEL id 0]) 0.
Proof.
  intros F Hid Hin H1 H2. assert (EL : labels [mk_h HC_LABEL id 0] 0 = [(id, 0)]) by reflexivity.
  eapply flow_one; [exact F | reflexivity | unfold packable; cbn [operands_of h_op h_a h_b]; zgoal |
    unfold operand_ok; cbn [h_op h_a h_b]; zgoal | intros x Hx; apply H2, Hx | | |].
  - rewrite EL. intros d [[= <-]|[]]. cbn [h_a]. destruct Hin as [Hin|Hin]; [left; split; [exact Hin|]; intros X; apply H2 in X; tauto | auto].
  - intros x Hx. rewrite EL. cbn [In]. destruct (H1 x Hx) as [->|]; auto.
  - cbn. intros d [].
Qed.

Lemma flow_return n0 n1 G W T cs : flow n0 n1 G W T cs 1 -> flow n0 n1 G W T (cs ++ [RET]) 0.
Proof. 
  intros F. assert (EL : labels [RET] 1 = [] /\ jumps [RET] 1 = []) by (split; reflexivity). destruct EL as [EL EJ].
  eapply flow_one; [exact F | reflexivity | reflexivity | reflexivity | auto | | auto |]; rewrite ?EL, ?EJ; intros d []. Qed.

(** A statement inside. *)
Lemma flow_nested n0 n1 n2 G G' W T T' cs cs2 : flow n0 n1 G W T cs 0 -> flow n1 n2 G' [] T' cs2 0 ->
  (forall id, In id G -> In id G') -> (forall id, In id G' -> In id G \/ n1 <= id) -> (forall id, In id T' -> In id W \/ In id T \/ In (id, 0) (labels cs 0)) ->
  flow n0 n2 G' W T (cs ++ cs2) 0.
Proof.
  intros F [E0 E1 E2 E3 E4 E5 E6 E7 E8] HG HG' HT. pose proof (fl_pending _ _ _ _ _ _ _ F) as FP.
  eapply flow_app; [exact F | exact E0 | exact E1 | exact E7 | exact E8 | exact HG | exact HG' | exact E6 | auto | | exact E4 | auto |].
  - intros id d Hin. destruct (E3 id d Hin) as [(R & N & _)|X]; [left; split; [exact R|]; split; [exact N|]; intros X; destruct (FP id X); lia | auto].
  - intros id d Hin. destruct (E2 id d Hin) as [L|(-> & [[]|[X|X]])]; [auto | apply HT in X; tauto | tauto].
Qed.

(** ** The HolyC front end: what a run of a statement promises

    [stmt_at f0 W D B K b f]: the run that started in [f0] with an empty stack has come to [f],
    every table within its array, the code since [f0] a [flow] to depth [b]; the labels [W] wait to
    be placed, the labels [D] have been, and [B] and [K] are the targets of [break] and
    [continue].  [spost] is [post] for such runs: a refused run leaves the bounds of the output
    intact.  Expressions run at the promise of [HcFrontSpec], and are taken up by [stmt_commit]. *)

From S2P Require Import HcFront HcFrontPrim HcFrontOps HcFrontStmt HcFrontSpec HcFrontRun.

(** ** The arrays *)

(** A name of at most [n] characters. *)
Definition short (n : Z) (s : list Z) : Prop := Z.of_nat (length s) <= n.
(** [HC_TYPE_NONE], or one of the first [n] classes. *)
Definition type_ok (n : nat) (ty : Z) : Prop := ty = HC_TYPE_NONE \/ 0 <= ty < Z.of_nat n.

(** Class number [i]. *)
Record class_fits (i : nat) (c : hc_class) : Prop := mk_class_fits {
  cf_name : short 14 (c_name c);
  cf_members : Z.of_nat (length (c_mem c)) <= HC_MAX_MEMBERS;
  cf_names : Forall (fun m => short 14 (mb_name m)) (c_mem c);
  cf_types : Forall (fun m => type_ok i (mb_type m)) (c_mem c);
  cf_size : 8 <= c_size c <= 8 * 16 ^ Z.of_nat i * 16;
  cf_words : c_size c mod 8 = 0 }.

(** The bytes of a whole function: [ENTER] and code that starts and ends with an empty stack, whose
    jumps go to its own labels, or to labels of [goto]. *)
Definition framed (bytes : list Z) : Prop :=
  exists m n G cs, hc_parse bytes = Some (mk_h HC_ENTER m 0 :: cs) /\ 0 <= m < 256 /\ flow 0 n G [] [] cs 0.

Record fn_fits (g : hc_fn) : Prop := mk_fn_fits {
  ff_name : short 22 (fn_name g);
  ff_nargs : 0 <= fn_nargs g <= 7;
  ff_len : Z.of_nat (length (fn_bc g)) <= 8192;
  ff_code : framed (fn_bc g) }.

Definition goto_ids (t : tables) : list Z := map snd (glabs t).

(** Every table fits its array, every name its buffer, and every index is in range. *)
Record arrays_ok (t : tables) : Prop := mk_arrays_ok {
  ao_vars : Z.of_nat (length (vars t)) <= HC_IR_MAX_NAMES;
  ao_var_names : Forall (fun v => short 14 (v_name v)) (vars t);
  ao_var_types : Forall (fun v => type_ok (length (classes t)) (v_type v)) (vars t);
  ao_classes : Z.of_nat (length (classes t)) <= HC_MAX_CLASSES;
  ao_class : forall i c, classes t !! i = Some c -> class_fits i c;
  ao_enums : Z.of_nat (length (enums t)) <= HC_MAX_ENUMS;
  ao_enum_names : Forall (fun e => short 14 (e_name e)) (enums t);
  ao_glabs : Z.of_nat (length (glabs t)) <= HC_IR_MAX_LABELS;
  ao_glab_names : Forall (fun l => short 14 (fst l)) (glabs t);
  ao_glab_ids : Forall (fun id => 0 <= id < next_label t) (goto_ids t);
  ao_breaks : Z.of_nat (length (brk_tgt t)) <= HC_MAX_LOOPS;
  ao_conts : Z.of_nat (length (cont_tgt t)) <= HC_MAX_LOOPS;
  ao_targets : Forall (fun id => 0 <= id < next_label t) (brk_tgt t ++ cont_tgt t);
  ao_glob : 0 <= glob_used t <= HC_IR_MAX_GLOBS;
  ao_fns : Z.of_nat (length (fns t)) <= HC_MAX_FNS;
  ao_fn_fits : Forall fn_fits (fns t) }.

Lemma arrays_ext t t' : tabs_ext t t' -> arrays_ok t -> arrays_ok t'.
Proof.
  intros [E1 E2 E3 E4 E5 E6 E7 E8 E9] [A1 A2 A3 A4 A5 A6 A7 A8 A9 A10 A11 A12 A13 A14 A15 A16].
  assert (Hup : forall l, Forall (fun id => 0 <= id < next_label t) l -> Forall (fun id => 0 <= id < next_label t') l)
    by (intros l Hl; eapply Forall_impl; [|exact Hl]; cbn; intros; lia).
  split; unfold goto_ids in *; rewrite ?E2, ?E3, ?E4, ?E5, ?E6, ?E7, ?E8, ?E9; auto.
Qed.

(** ** Runs of statements *)

Definition outer (f : front) : list Z := brk_tgt (tabs f) ++ cont_tgt (tabs f).

Record stmt_at (f0 : front) (W D B K : list Z) (b : Z) (f : front) : Prop := mk_stmt_at {
  sa_first : 0 <= next_label (tabs f0);
  sa_inv : inv f;
  sa_arrays : arrays_ok (tabs f);
  sa_cap : f_cap f = f_cap f0;
  sa_len : (length (f_p f) <= length (f_p f0))%nat;
  sa_gotos : exists new, goto_ids (tabs f) = goto_ids (tabs f0) ++ new /\ Forall (fun id => next_label (tabs f0) <= id) new;
  sa_brk : brk_tgt (tabs f) = B;
  sa_cont : cont_tgt (tabs f) = K;
  sa_targets : forall id, In id (B ++ K) -> In id W \/ In id D \/ In id (outer f0);
  sa_code : exists cs, wrote f0 f cs /\ flow (next_label (tabs f0)) (next_label (tabs f)) (goto_ids (tabs f)) W (outer f0) cs b /\
    forall id, In id D -> In (id, 0) (labels cs 0) }.

(** The front end of a function whose whole code fills [fn->bc], so that the end marker goes behind it. *)
Definition overrun (f : front) : Prop :=
  f_cap f = 8192 /\ 8192 <= Z.of_nat (length (f_bc f)) <= 8192 + 9 /\ framed (f_bc f ++ [hc_code HC_END]).

Definition spost {A} (f0 : front) (Q : A -> front -> Prop) (r : result A * front) : Prop :=
  match r with (Done a, f) => Q a f | (Bad, f) => inv f /\ f_cap f = f_cap f0 | (Wild, f) => overrun f | (NoFuel, _) => False end.

(** A statement of a text of less than [n] characters. *)
Definition sparses (n : nat) (m : P unit) : Prop :=
  forall f, inv f -> arrays_ok (tabs f) -> (length (f_p f) < n)%nat ->
    spost f (fun _ f' => stmt_at f [] [] (brk_tgt (tabs f)) (cont_tgt (tabs f)) 0 f' /\ (length (f_p f') < length (f_p f))%nat) (m f).

(** ** Rules *)

Lemma spost_bind {A B} f0 (Q : B -> front -> Prop) (m : P A) (k : A -> P B) f :
  spost f0 (fun a f' => spost f0 Q (k a f')) (m f) -> spost f0 Q (pbind m k f).
Proof. unfold pbind. destruct (m f) as [[a| | |] f']; cbn; auto. Qed.

Lemma spost_mono {A} f0 (Q Q' : A -> front -> Prop) r : (forall a f, Q a f -> Q' a f) -> spost f0 Q r -> spost f0 Q' r.
Proof. destruct r as [[a| | |] f]; cbn; auto. Qed.

Lemma spost_or_refuse {A} f0 (Q : A -> front -> Prop) m f : spost f0 Q (m f) -> spost f0 Q (or_refuse m f).
Proof. unfold or_refuse. destruct (m f) as [[x| | |] g]; cbn; auto. Qed.

Lemma stmt_start f : inv f -> arrays_ok (tabs f) -> stmt_at f [] [] (brk_tgt (tabs f)) (cont_tgt (tabs f)) 0 f.
Proof.
  intros Hi Ha. split; auto.
  - destruct Hi as (_ & _ & [HL _ _ _ _ _ _]). lia.
  - exists []. rewrite app_nil_r. auto.
  - exists []. split; [symmetry; apply app_nil_r|]. split; [|intros id []]. apply flow_nil. pose proof (ao_glab_ids _ Ha) as Hg.
    rewrite List.Forall_forall in Hg. intros id Hin. apply Hg in Hin. lia.
Qed.

Section At.
Context {A : Type} (f0 : front) (W D B K : list Z) (b : Z) (f : front) (S : stmt_at f0 W D B K b f).

(** A run that reads an expression, or less. *)
Lemma spost_lift (Q : A -> front -> Prop) r : post f Q r -> spost f0 Q r.
Proof using S.
  destruct r as [[a| | |] g]; cbn; [auto | | contradiction..]. intros (Hi & (Hc & _) & _). split; [exact Hi|]. rewrite Hc. apply (sa_cap _ _ _ _ _ _ _ S).
Qed.

Lemma spost_refuse (Q : A -> front -> Prop) e g : inv g -> f_cap g = f_cap f -> spost f0 Q (Bad, set_err e g).
Proof using S. intros Hi Hc. split; [exact Hi|]. cbn. rewrite Hc. apply (sa_cap _ _ _ _ _ _ _ S). Qed.
End At.

Lemma stmt_commit f0 W D B K b c d f f' : stmt_at f0 W D B K b f -> at_depth f c d f' -> c <= b -> stmt_at f0 W D B K (b - c + d) f'.
Proof.
  intros [S0 S1 S2 S3 S4 (new & S5 & S6) S7 S8 S9 (cs & W1 & F1 & D1)] [(P1 & (P2 & P3) & P4 & P5) (cs2 & W2 & C2)] Hc.
  pose proof (te_label _ _ P3) as HL. split.
  - exact S0.
  - exact P1.
  - eapply arrays_ext; eassumption.
  - congruence.
  - lia.
  - exists new. unfold goto_ids in *. rewrite (te_glabs _ _ P3). auto.
  - rewrite (te_brk _ _ P3). exact S7.
  - rewrite (te_cont _ _ P3). exact S8.
  - exact S9.
  - exists (cs ++ cs2). unfold wrote in *. split; [rewrite W2, W1, map_app, concat_app, app_assoc; reflexivity|].
    unfold goto_ids in *. rewrite (te_glabs _ _ P3). split; [eapply flow_code; eassumption|].
    intros id Hid. rewrite (labels_app cs cs2 0 b (fl_walk _ _ _ _ _ _ _ F1)). apply in_app_iff. left. apply D1, Hid.
Qed.

(** A whole statement inside. *)
Lemma stmt_nested f0 W D B K f f' : stmt_at f0 W D B K 0 f -> stmt_at f [] [] (brk_tgt (tabs f)) (cont_tgt (tabs f)) 0 f' -> stmt_at f0 W D B K 0 f'.
Proof.
  intros [S0 S1 S2 S3 S4 (new & S5 & S6) S7 S8 S9 (cs & W1 & F1 & D1)] [R0 R1 R2 R3 R4 (new2 & R5 & R6) R7 R8 R9 (cs2 & W2 & F2 & _)].
  pose proof (fl_range _ _ _ _ _ _ _ F1) as Hr. split.
  - exact S0.
  - exact R1.
  - exact R2.
  - congruence.
  - lia.
  - exists (new ++ new2). rewrite R5, S5, app_assoc. split; [reflexivity|]. apply Forall_app. split; [exact S6|].
    eapply Forall_impl; [|exact R6]. cbn. intros. lia.
  - congruence.
  - congruence.
  - exact S9.
  - exists (cs ++ cs2). unfold wrote in *. split; [rewrite W2, W1, map_app, concat_app, app_assoc; reflexivity|]. split.
    + rewrite R5 in F2 |- *. eapply flow_nested; [exact F1 | exact F2 | | |].
      * intros id Hin. apply in_app_iff. auto.
      * intros id Hin. apply in_app_iff in Hin as [Hin|Hin]; [auto|]. rewrite List.Forall_forall in R6. right. apply R6, Hin.
      * unfold outer. rewrite S7, S8. intros id Hin. destruct (S9 id Hin) as [X|[X|X]]; [auto | right; right; apply D1, X | auto].
    + intros id Hid. rewrite (labels_app cs cs2 0 0 (fl_walk _ _ _ _ _ _ _ F1)). apply in_app_iff. left. apply D1, Hid.
Qed.

(** The end of a statement. *)
Lemma stmt_end f0 D f : stmt_at f0 [] D (brk_tgt (tabs f0)) (cont_tgt (tabs f0)) 0 f ->
  stmt_at f0 [] [] (brk_tgt (tabs f0)) (cont_tgt (tabs f0)) 0 f.
Proof.
  intros [S0 S1 S2 S3 S4 S5 S7 S8 S9 (cs & W1 & F1 & D1)]. split; auto. exists cs. split; [exact W1|]. split; [exact F1 | intros id []].
Qed.

Lemma spost_call n m f0 W D B K f (Q : unit -> front -> Prop) : sparses n m -> stmt_at f0 W D B K 0 f -> (length (f_p f) < n)%nat ->
  (forall f', stmt_at f0 W D B K 0 f' -> (length (f_p f') < length (f_p f))%nat -> Q tt f') -> spost f0 Q (m f).
Proof.
  intros Hm S Hn HQ. pose proof (Hm f (sa_inv _ _ _ _ _ _ _ S) (sa_arrays _ _ _ _ _ _ _ S) Hn) as H.
  destruct (m f) as [[[]| | |] f']; cbn in *; [|split; [apply H | rewrite (proj2 H); apply (sa_cap _ _ _ _ _ _ _ S)] | exact H..].
  apply HQ; [eapply stmt_nested; [exact S | apply H] | apply H].
Qed.

(** ** Labels *)

Lemma stmt_label_range f0 W D B K b f id : stmt_at f0 W D B K b f ->
  In id W \/ In id D \/ In id B \/ In id K \/ In id (goto_ids (tabs f)) -> 0 <= id < 256.
Proof.
  intros [S0 S1 S2 S3 S4 S5 S7 S8 S9 (cs & W1 & F1 & D1)] Hin. destruct S1 as (_ & _ & [HL _ _ _ _ _ _]). unfold HC_IR_MAX_LABELS in HL.
  pose proof (ao_glab_ids _ S2) as Hg. pose proof (ao_targets _ S2) as Ht. rewrite S7, S8 in Ht. rewrite List.Forall_forall in Hg, Ht.
  assert (Hl : forall x, 0 <= x < next_label (tabs f) -> 0 <= x < 256) by (intros; lia). apply Hl.
  destruct Hin as [X|[X|[X|[X|X]]]].
  - destruct (fl_pending _ _ _ _ _ _ _ F1 id X). lia.
  - destruct (fl_labels _ _ _ _ _ _ _ F1 id 0 (D1 id X)) as [(R & _)|[G _]]; [lia | apply Hg, G].
  - apply Ht, in_app_iff. auto.
  - apply Ht, in_app_iff. auto.
  - apply Hg, X.
Qed.

(** Other tables, with the same labels of [goto] and targets. *)
Lemma stmt_tabs f0 W D B K b f t : stmt_at f0 W D B K b f -> tabs_ok t -> arrays_ok t -> glabs t = glabs (tabs f) ->
  brk_tgt t = brk_tgt (tabs f) -> cont_tgt t = cont_tgt (tabs f) -> next_label (tabs f) <= next_label t -> stmt_at f0 W D B K b (set_tabs t f).
Proof.
  intros [S0 (I1 & I2 & _) S2 S3 S4 S5 S7 S8 S9 (cs & W1 & F1 & D1)] Ht Ha Eg Eb Ec Hn. split; cbn [set_tabs tabs f_p f_cap] in *; unfold goto_ids in *;
    rewrite ?Eg, ?Eb, ?Ec; auto.
  - split; [exact I1 | split; [exact I2 | exact Ht]].
  - exists cs. split; [exact W1|]. split; [eapply flow_up; eassumption | exact D1].
Qed.

Lemma arrays_label n t : next_label t <= n -> arrays_ok t -> arrays_ok (with_label n t).
Proof. intros Hn. apply arrays_ext, with_label_ext, Hn. Qed.

Section Labels.
Context (f0 : front) (W D B K : list Z) (b : Z) (f : front) (S : stmt_at f0 W D B K b f).

Lemma stmt_pending x : In x W -> x < next_label (tabs f).
Proof using S. destruct S as [_ _ _ _ _ _ _ _ _ (cs & _ & F1 & _)]. intros Hx. apply (fl_pending _ _ _ _ _ _ _ F1 x Hx). Qed.

Lemma spost_new_label (Q : Z -> front -> Prop) :
  (forall f', stmt_at f0 (next_label (tabs f) :: W) D B K b f' -> f_p f' = f_p f -> tabs f' = with_label (next_label (tabs f) + 1) (tabs f) ->
     0 <= next_label (tabs f) < 128 -> Q (next_label (tabs f)) f') ->
  (forall f', stmt_at f0 W D B K b f' -> f_p f' = f_p f -> Q (-1) f') -> spost f0 Q (hcf_new_label f).
Proof using S.
  intros HQ HQ'. rewrite new_label_eq. pose proof S as [S0 S1 S2 S3 S4 (new & S5 & S6) S7 S8 S9 (cs & W1 & F1 & D1)].
  pose proof (to_label _ (proj2 (proj2 S1))) as HL. case_if; zbool; cbn [spost].
  - apply HQ'; [|reflexivity]. split; auto; [exists new; auto | exists cs; auto].
  - pose proof (stmt_tabs f0 W D B K b f (with_label (next_label (tabs f) + 1) (tabs f)) S) as St.
    assert (Ht : tabs_ok (with_label (next_label (tabs f) + 1) (tabs f))) by (apply tabs_label_ok'; [apply S1 | lia]).
    assert (Ha : arrays_ok (with_label (next_label (tabs f) + 1) (tabs f))) by (apply arrays_label; [lia | exact S2]).
    assert (E : glabs (with_label (next_label (tabs f) + 1) (tabs f)) = glabs (tabs f) /\ brk_tgt (with_label (next_label (tabs f) + 1) (tabs f)) = brk_tgt (tabs f)
      /\ cont_tgt (with_label (next_label (tabs f) + 1) (tabs f)) = cont_tgt (tabs f)) by (destruct (tabs f); auto).
    destruct E as (E1 & E2 & E3). apply HQ; [|reflexivity | reflexivity | unfold HC_IR_MAX_LABELS in *; lia].
    destruct (St Ht Ha E1 E2 E3 ltac:(rewrite with_label_next; lia)) as [T0 T1 T2 T3 T4 T5 T7 T8 T9 _]. split; auto.
    + intros id Hid. destruct (T9 id Hid); [left; right; assumption | auto].
    + exists cs. cbn [set_tabs tabs] in *. rewrite with_label_next. unfold goto_ids in *. rewrite E1. split; [exact W1|]. split; [apply flow_new, F1 | exact D1].
Qed.

(** A label whose number is known is placed. *)
Lemma spost_label id W' (Q : unit -> front -> Prop) : b = 0 -> In id W \/ In id (goto_ids (tabs f)) ->
  (forall x, In x W -> x = id \/ In x W') -> (forall x, In x W' -> x <> id /\ In x W) ->
  (forall f', stmt_at f0 W' (id :: D) B K 0 f' -> f_p f' = f_p f -> tabs f' = tabs f -> Q tt f') -> spost f0 Q (hcf_emit_u8 HC_LABEL id f).
Proof using S.
  intros -> Hin H1 H2 HQ. assert (Hr : 0 <= id < 256) by (eapply stmt_label_range; [exact S | tauto]).
  apply (spost_lift f0 W D B K 0 f S), post_emit_bytes; [apply safe_refl, S | cbn; lia|]. intros g Sg Eb Ep Et _. rewrite u8_id in Eb by exact Hr.
  apply HQ; [|exact Ep | exact Et]. destruct S as [S0 S1 S2 S3 S4 S5 S7 S8 S9 (cs & W1 & F1 & D1)].
  assert (EL : labels (cs ++ [mk_h HC_LABEL id 0]) 0 = labels cs 0 ++ [(id, 0)]) by (rewrite (labels_app cs _ 0 0 (fl_walk _ _ _ _ _ _ _ F1)); reflexivity).
  split; rewrite ?Et; auto.
  - apply Sg.
  - destruct Sg as (_ & (Ec & _) & _). congruence.
  - rewrite Ep. exact S4.
  - intros x Hx. destruct (S9 x Hx) as [X|[X|X]]; [destruct (H1 x X) as [->|]; cbn; auto | cbn; auto | auto].
  - exists (cs ++ [mk_h HC_LABEL id 0]). unfold wrote in *. split; [rewrite Eb, W1, map_app, concat_app; cbn; rewrite <- app_assoc; reflexivity|].
    split; [eapply flow_place; eassumption|]. rewrite EL. intros x Hx. apply in_app_iff. destruct Hx as [<-|Hx]; [right; left; reflexivity | left; apply D1, Hx].
Qed.

Lemma spost_jump op id (Q : unit -> front -> Prop) : is_branch op b ->
  In id W \/ In id D \/ In id B \/ In id K \/ In id (goto_ids (tabs f)) ->
  (forall f', stmt_at f0 W D B K 0 f' -> f_p f' = f_p f -> tabs f' = tabs f -> Q tt f') -> spost f0 Q (hcf_emit_u8 op id f).
Proof using S.
  intros Hb Hin HQ. assert (Hr : 0 <= id < 256) by (eapply stmt_label_range; eassumption).
  apply (spost_lift f0 W D B K b f S), post_emit_bytes; [apply safe_refl, S | cbn; lia|]. intros g Sg Eb Ep Et _. rewrite u8_id in Eb by exact Hr.
  apply HQ; [|exact Ep | exact Et]. destruct S as [S0 S1 S2 S3 S4 S5 S7 S8 S9 (cs & W1 & F1 & D1)].
  split; rewrite ?Et; auto.
  - apply Sg.
  - destruct Sg as (_ & (Ec & _) & _). congruence.
  - rewrite Ep. exact S4.
  - exists (cs ++ [mk_h op id 0]). unfold wrote in *. split.
    { rewrite Eb, W1, map_app, concat_app; cbn. rewrite <- app_assoc. destruct Hb as [[-> _]|[[-> | ->] _]]; reflexivity. }
    split.
    + eapply flow_jump; [exact F1 | exact Hb | exact Hr|].
      assert (HBK : In id (B ++ K) -> In id W \/ In id (outer f0) \/ In id (goto_ids (tabs f)) \/ In (id, 0) (labels cs 0)).
      { intros X. destruct (S9 id X) as [Y|[Y|Y]]; [auto | right; right; right; apply D1, Y | auto]. }
      rewrite in_app_iff in HBK. destruct Hin as [X|[X|[X|[X|X]]]]; [auto | right; right; right; apply D1, X | apply HBK; auto | apply HBK; auto | auto].
    + intros x Hx. rewrite (labels_app cs _ 0 b (fl_walk _ _ _ _ _ _ _ F1)). apply in_app_iff. left. apply D1, Hx.
Qed.

Lemma spost_return (Q : unit -> front -> Prop) : b = 1 ->
  (forall f', stmt_at f0 W D B K 0 f' -> f_p f' = f_p f -> tabs f' = tabs f -> Q tt f') -> spost f0 Q (hcf_emit HC_RET f).
Proof using S.
  intros -> HQ. apply (spost_lift f0 W D B K 1 f S), post_emit_bytes; [apply safe_refl, S | cbn; lia|]. intros g Sg Eb Ep Et _.
  apply HQ; [|exact Ep | exact Et]. destruct S as [S0 S1 S2 S3 S4 S5 S7 S8 S9 (cs & W1 & F1 & D1)]. split; rewrite ?Et; auto.
  - apply Sg.
  - destruct Sg as (_ & (Ec & _) & _). congruence.
  - rewrite Ep. exact S4.
  - exists (cs ++ [RET]). unfold wrote in *. split; [rewrite Eb, W1, map_app, concat_app; cbn; rewrite <- app_assoc; reflexivity|].
    split; [apply flow_return, F1|]. intros x Hx. rewrite (labels_app cs _ 0 1 (fl_walk _ _ _ _ _ _ _ F1)). apply in_app_iff. left. apply D1, Hx.
Qed.
End Labels.
