(* ===== verification/HcFrontTables.v ===== *)
(** * The HolyC front end: statements and the tables

    Declarations keep every table within its array, and leave the code alone. *)

From S2P Require Import Prelude A64 A64Sem HcIr HcIrSem HcFront HcFrontPrim HcFrontOps HcFrontStmt HcFrontCode HcFrontSpec HcFrontRun HcFrontStmtSpec.
#[local] Open Scope Z_scope.

(** ** Updates *)

Lemma Forall_update {A} (R : A -> Prop) (g : A -> A) l i d : Forall R l -> (forall v, R v -> R (g v)) -> Forall R (<[i := g (nth i l d)]> l).
Proof.
  intros Hl Hg. destruct (Nat.lt_ge_cases i (length l)) as [Hi|Hi]; [|rewrite list_insert_ge by exact Hi; exact Hl].
  apply Forall_insert; [exact Hl|]. apply Hg. rewrite List.Forall_forall in Hl. apply Hl, nth_In, Hi.
Qed.

Lemma update_fields id g t : let t' := update_var id g t in
  next_label t' = next_label t /\ mem_used t' = mem_used t /\ glob_used t' = glob_used t /\ str_top t' = str_top t /\ strs t' = strs t /\
  fns t' = fns t /\ classes t' = classes t /\ enums t' = enums t /\ glabs t' = glabs t /\ brk_tgt t' = brk_tgt t /\ cont_tgt t' = cont_tgt t /\
  vars t' = <[Z.to_nat id := g (nth_var t id)]> (vars t).
Proof. destruct t. repeat split. Qed.

Lemma update_tabs id g t : tabs_ok t -> (forall v, var_ok v -> var_ok (g v)) -> tabs_ok (update_var id g t).
Proof.
  intros [L1 L2 L3 L4 L5 L6 L7] Hg. destruct t. split; cbn in *; try assumption. apply (Forall_update var_ok g); assumption.
Qed.

Lemma update_arrays id g t : arrays_ok t -> (forall v, v_name (g v) = v_name v) ->
  (forall v, type_ok (length (classes t)) (v_type v) -> type_ok (length (classes t)) (v_type (g v))) -> arrays_ok (update_var id g t).
Proof.
  intros [A1 A2 A3 A4 A5 A6 A7 A8 A9 A10 A11 A12 A13 A14 A15 A16] Hn Ht. destruct t. split; cbn in *; try assumption.
  - rewrite length_insert. exact A1.
  - apply (Forall_update _ g); [exact A2|]. intros v. rewrite Hn. auto.
  - apply (Forall_update _ g); assumption.
Qed.

Section At.
Context (f0 : front) (W D B K : list Z) (b : Z) (f : front) (S : stmt_at f0 W D B K b f).

Lemma stmt_update id g : (forall v, var_ok v -> var_ok (g v)) -> (forall v, v_name (g v) = v_name v) ->
  (forall v, type_ok (length (classes (tabs f))) (v_type v) -> type_ok (length (classes (tabs f))) (v_type (g v))) ->
  stmt_at f0 W D B K b (set_tabs (update_var id g (tabs f)) f).
Proof using S.
  intros H1 H2 H3. pose proof (update_fields id g (tabs f)) as (E1 & _ & _ & _ & _ & _ & _ & _ & E2 & E3 & E4 & _).
  apply stmt_tabs; auto; [apply update_tabs; [apply (sa_inv _ _ _ _ _ _ _ S) | exact H1] |
    apply update_arrays; [apply (sa_arrays _ _ _ _ _ _ _ S) | assumption..] | lia].
Qed.

Lemma spost_mark_f64 id (Q : unit -> front -> Prop) :
  (forall f', stmt_at f0 W D B K b f' -> f_p f' = f_p f -> Q tt f') -> spost f0 Q (on_tabs (mark_f64 id) f).
Proof using S. intros HQ. apply HQ; [|reflexivity]. apply stmt_update; [intros v [? ? ?]; split; assumption | reflexivity | auto]. Qed.

Lemma spost_mark_ptr id pointee (Q : unit -> front -> Prop) :
  (forall f', stmt_at f0 W D B K b f' -> f_p f' = f_p f -> Q tt f') -> spost f0 Q (on_tabs (mark_ptr id pointee) f).
Proof using S.
  intros HQ. apply HQ; [|reflexivity]. apply stmt_update; [|reflexivity | auto].
  intros v [? ? ?]. split; cbn; try assumption. apply wrap_range. lia.
Qed.

Lemma spost_retype id ty p (Q : unit -> front -> Prop) : type_ok (length (classes (tabs f))) ty ->
  (forall f', stmt_at f0 W D B K b f' -> f_p f' = f_p f -> classes (tabs f') = classes (tabs f) -> Q tt f') -> spost f0 Q (on_tabs (retype id ty p) f).
Proof using S.
  intros Ht HQ. apply HQ; [|reflexivity|].
  - apply (stmt_update id (fun v => mk_var (v_name v) (v_base v) (v_count v) (v_stride v) ty p (v_is_global v) (v_is_f64 v))); [intros v [? ? ?]; split; assumption | reflexivity | auto].
  - cbn. unfold retype. destruct (tabs f). reflexivity.
Qed.

(** ** Declarations *)

Lemma decl_words_pos nelem stride : 1 <= nelem -> 1 <= stride -> 0 <= decl_words nelem stride.
Proof. intros H1 H2. unfold decl_words. repeat case_if; zbool; try apply Z.mul_nonneg_nonneg; try apply Z.quot_pos; lia. Qed.

Lemma new_var_ok name x nelem stride g : var_ok (mk_var name (u8 x) (u8 nelem) (u8 stride) HC_TYPE_NONE false g false).
Proof. split; cbn; apply wrap_range; lia. Qed.

Lemma spost_decl name nelem stride (Q : Z -> front -> Prop) :
  (forall id f', stmt_at f0 W D B K b f' -> f_p f' = f_p f -> classes (tabs f') = classes (tabs f) -> Q id f') ->
  spost f0 Q (hcf_decl_n name nelem stride f).
Proof using S.
  intros HQ. pose proof S as [S0 (I1 & I2 & [L1 L2 L3 L4 L5 L6 L7]) [A1 A2 A3 A4 A5 A6 A7 A8 A9 A10 A11 A12 A13 A14 A15 A16] S3 S4 S5 S7 S8 S9 S10].
  unfold hcf_decl_n. apply spost_bind. cbn [spost tget pget id]. case_if; [apply HQ; auto|]. cbv zeta.
  case_if; [split; [apply S | exact S3]|]. bool_hyps. repeat match goal with E : _ || _ = false |- _ => apply orb_false_iff in E as [? E] end. zbool.
  apply spost_bind. cbn [spost on_tabs pmod pret]. apply HQ; [|reflexivity|]; [|cbn; destruct (tabs f); reflexivity].
  pose proof (decl_words_pos nelem stride ltac:(lia) ltac:(lia)).
  apply stmt_tabs; try (destruct (tabs f); reflexivity); [exact S | |].
  - destruct (tabs f). split; cbn in *; try assumption; [lia|]. apply Forall_app. split; [exact L5|]. repeat constructor; cbn; apply wrap_range; lia.
  - destruct (tabs f). split; cbn in *; try assumption; rewrite ?length_app; cbn [length]; try lia; apply Forall_app; (split; [assumption|]); repeat constructor; cbn.
    unfold short. lia.
Qed.

Lemma spost_decl_global name nelem stride (Q : Z -> front -> Prop) :
  (forall id f', stmt_at f0 W D B K b f' -> f_p f' = f_p f -> classes (tabs f') = classes (tabs f) -> Q id f') ->
  spost f0 Q (hcf_decl_global_n name nelem stride f).
Proof using S.
  intros HQ. pose proof S as [S0 (I1 & I2 & [L1 L2 L3 L4 L5 L6 L7]) [A1 A2 A3 A4 A5 A6 A7 A8 A9 A10 A11 A12 A13 A14 A15 A16] S3 S4 S5 S7 S8 S9 S10].
  unfold hcf_decl_global_n. apply spost_bind. cbn [spost tget pget id]. case_if; [apply HQ; auto|]. cbv zeta.
  case_if; [split; [apply S | exact S3]|]. bool_hyps. repeat match goal with E : _ || _ = false |- _ => apply orb_false_iff in E as [? E] end. zbool.
  apply spost_bind. cbn [spost on_tabs pmod pret]. apply HQ; [|reflexivity|]; [|cbn; destruct (tabs f); reflexivity].
  pose proof (decl_words_pos nelem stride ltac:(lia) ltac:(lia)).
  apply stmt_tabs; try (destruct (tabs f); reflexivity); [exact S | |].
  - destruct (tabs f). split; cbn in *; try assumption. apply Forall_app. split; [exact L5|]. repeat constructor; cbn; apply wrap_range; lia.
  - destruct (tabs f). split; cbn in *; try assumption; rewrite ?length_app; cbn [length]; try lia; apply Forall_app; (split; [assumption|]); repeat constructor; cbn.
    unfold short. lia.
Qed.
End At.

(** ** Classes, labels and constants *)

Section Names.
Context (f0 : front) (W D B K : list Z) (b : Z) (f : front) (S : stmt_at f0 W D B K b f).

Lemma type_index n ci : 0 <= ci < Z.of_nat n -> Z.of_nat n <= HC_MAX_CLASSES -> type_ok n (u8 ci).
Proof. unfold HC_MAX_CLASSES. intros H1 H2. right. rewrite u8_id by lia. lia. Qed.

Lemma spost_decl_class name ci p (Q : Z -> front -> Prop) :
  (forall id f', stmt_at f0 W D B K b f' -> f_p f' = f_p f -> Q id f') -> spost f0 Q (hcf_decl_class name ci p f).
Proof using S.
  intros HQ. unfold hcf_decl_class. apply spost_bind. cbn [spost tget pget id].
  case_if; [split; [apply S | apply (sa_cap _ _ _ _ _ _ _ S)]|]. bool_hyps. zbool.
  assert (Ht : type_ok (length (classes (tabs f))) (u8 ci)) by (apply type_index; [lia | apply (sa_arrays _ _ _ _ _ _ _ S)]).
  apply spost_bind. destruct p.
  - eapply spost_decl; [exact S|]. intros id g Sg Eg Cg. apply spost_bind. eapply spost_retype; [exact Sg | rewrite Cg; exact Ht|].
    intros h Sh Eh _. apply HQ; [exact Sh | congruence].
  - cbv zeta. eapply spost_decl; [exact S|]. intros id g Sg Eg Cg. apply spost_bind. eapply spost_retype; [exact Sg | rewrite Cg; exact Ht|].
    intros h Sh Eh _. apply HQ; [exact Sh | congruence].
Qed.

Lemma spost_get_glab name (Q : Z -> front -> Prop) :
  (forall id f', stmt_at f0 W D B K b f' -> f_p f' = f_p f -> In id (goto_ids (tabs f')) -> Q id f') -> spost f0 Q (hcf_get_glab name f).
Proof using S.
  intros HQ. unfold hcf_get_glab. apply spost_bind. cbn [spost tget pget id]. cbv zeta.
  case_if.
  - apply HQ; [exact S | reflexivity|]. unfold hcf_find_glab in *. destruct (find _ _) as [[s id]|] eqn:E; [|zbool; lia].
    apply find_some in E as [E _]. apply (in_map snd) in E. exact E.
  - case_if; [split; [apply S | apply (sa_cap _ _ _ _ _ _ _ S)]|]. repeat match goal with E : _ || _ = false |- _ => apply orb_false_iff in E as [E ?] end. zbool. apply spost_bind. rewrite new_label_eq.
    pose proof S as [S0 S1 S2 S3 S4 (new & S5 & S6) S7 S8 S9 (cs & W1 & F1 & D1)].
    pose proof (to_label _ (proj2 (proj2 S1))) as HL. set (n := next_label (tabs f)) in *. case_if; zbool.
    + change (spost f0 Q ((if -1 <? 0 then bad else on_tabs (fun t => with_glabs (glabs t ++ [(name, -1)]) t) ;;; pret (-1))%front (set_err true f))).
      change (-1 <? 0) with true. split; [apply S | exact S3].
    + cbn [spost]. replace (n <? 0) with false by lia. apply spost_bind. cbn [spost on_tabs pmod pret].
      set (t' := with_glabs _ _). assert (Et : t' = with_glabs (glabs (tabs f) ++ [(name, n)]) (with_label (n + 1) (tabs f))) by (subst t'; cbn; destruct (tabs f); reflexivity).
      rewrite Et. clear t' Et. set (t' := with_glabs _ _).
      assert (E : next_label t' = n + 1 /\ glabs t' = glabs (tabs f) ++ [(name, n)] /\ brk_tgt t' = brk_tgt (tabs f) /\ cont_tgt t' = cont_tgt (tabs f))
        by (subst t'; destruct (tabs f); auto). destruct E as (E1 & E2 & E3 & E4).
      assert (Eg : goto_ids t' = goto_ids (tabs f) ++ [n]) by (unfold goto_ids; rewrite E2, map_app; reflexivity).
      apply HQ; [|reflexivity | cbn; rewrite Eg; apply in_app_iff; right; left; reflexivity].
      split; cbn [set_tabs tabs f_p f_cap]; rewrite ?E3, ?E4; auto.
      * destruct S1 as (I1 & I2 & I3). split; [exact I1 | split; [exact I2|]]. unfold set_tabs. cbn [tabs]. subst t'.
        assert (I4 : tabs_ok (with_label (n + 1) (tabs f))) by (apply tabs_label_ok'; [exact I3 | lia]). destruct I4. destruct (tabs f). split; assumption.
      * pose proof (arrays_label (n + 1) (tabs f) ltac:(lia) S2) as [A1 A2 A3 A4 A5 A6 A7 A8 A9 A10 A11 A12 A13 A14 A15 A16].
        split; subst t'; destruct (tabs f); unfold goto_ids in *; cbn in *; auto.
        -- rewrite length_app. cbn [length]. lia.
        -- apply Forall_app. split; [exact A9|]. repeat constructor. unfold short. cbn [fst]. lia.
        -- rewrite map_app. apply Forall_app. split; [exact A10|]. repeat constructor; cbn in *; lia.
      * exists (new ++ [n]). rewrite Eg, S5, app_assoc. split; [reflexivity|]. apply Forall_app. split; [exact S6|]. repeat constructor.
        pose proof (fl_range _ _ _ _ _ _ _ F1). lia.
      * exists cs. split; [exact W1|]. rewrite E1, Eg. split; [apply flow_new_goto, F1 | exact D1].
Qed.

Lemma spost_add_enum name val (Q : unit -> front -> Prop) :
  (forall f', stmt_at f0 W D B K b f' -> f_p f' = f_p f -> Q tt f') -> spost f0 Q (hcf_add_enum name val f).
Proof using S.
  intros HQ. unfold hcf_add_enum. apply spost_bind. cbn [spost tget pget id]. cbv zeta.
  case_if; [split; [apply S | apply (sa_cap _ _ _ _ _ _ _ S)]|].
  repeat match goal with E : _ || _ = false |- _ => apply orb_false_iff in E as [E ?] end. zbool.
  apply HQ; [|reflexivity]. pose proof S as [S0 (I1 & I2 & [L1 L2 L3 L4 L5 L6 L7]) [A1 A2 A3 A4 A5 A6 A7 A8 A9 A10 A11 A12 A13 A14 A15 A16] _ _ _ _ _ _ _].
  apply stmt_tabs; try (destruct (tabs f); reflexivity); [exact S | |]; destruct (tabs f); split; cbn in *; try assumption.
  - rewrite length_app. cbn. lia.
  - apply Forall_app. split; [assumption|]. repeat constructor. unfold short. cbn. lia.
Qed.

(** ** Loops *)

Lemma stmt_next id : In id W \/ In id D -> 0 <= id < next_label (tabs f).
Proof using S.
  intros Hin. assert (0 <= id < 256) by (eapply stmt_label_range; [exact S | tauto]). split; [lia|].
  destruct Hin as [Hin|Hin]; [eapply stmt_pending; eassumption|]. destruct S as [_ _ A _ _ _ _ _ _ (cs & _ & F1 & D1)].
  destruct (fl_labels _ _ _ _ _ _ _ F1 id 0 (D1 id Hin)) as [(R & _)|[G _]]; [lia|].
  pose proof (ao_glab_ids _ A) as Hg. rewrite List.Forall_forall in Hg. apply Hg, G.
Qed.

(** The targets of [break] and [continue] change. *)
Lemma stmt_targets B' K' : Z.of_nat (length B') <= HC_MAX_LOOPS -> Z.of_nat (length K') <= HC_MAX_LOOPS ->
  (forall id, In id (B' ++ K') -> In id (B ++ K) \/ In id W \/ In id D) ->
  stmt_at f0 W D B' K' b (set_tabs (with_targets B' K' (tabs f)) f).
Proof using S.
  intros H1 H2 H3. pose proof S as [S0 (I1 & I2 & [L1 L2 L3 L4 L5 L6 L7]) [A1 A2 A3 A4 A5 A6 A7 A8 A9 A10 A11 A12 A13 A14 A15 A16] S3 S4 S5 S7 S8 S9 S10].
  assert (E : next_label (with_targets B' K' (tabs f)) = next_label (tabs f) /\ goto_ids (with_targets B' K' (tabs f)) = goto_ids (tabs f) /\
    brk_tgt (with_targets B' K' (tabs f)) = B' /\ cont_tgt (with_targets B' K' (tabs f)) = K') by (destruct (tabs f); auto). destruct E as (E1 & E2 & E3 & E4).
  split; cbn [set_tabs tabs f_p f_cap]; rewrite ?E1, ?E2; auto.
  - split; [exact I1|]. split; [exact I2|]. cbn [set_tabs tabs]. destruct (tabs f). split; assumption.
  - assert (Hr : forall id, In id (B' ++ K') -> 0 <= id < next_label (tabs f)).
    { intros id Hin. destruct (H3 id Hin) as [X|X]; [|apply stmt_next, X]. rewrite S7, S8 in A13. rewrite List.Forall_forall in A13. apply A13, X. }
    destruct (tabs f). split; cbn in *; try assumption. apply List.Forall_forall, Hr.
  - intros id Hin. destruct (H3 id Hin) as [X|X]; [apply S9, X | tauto].
Qed.
End Names.

Lemma spost_enter_loop f0 W D B K b f lb lc (Q : unit -> front -> Prop) : stmt_at f0 W D B K b f -> In lb (W ++ D) -> In lc (W ++ D) ->
  (forall f', stmt_at f0 W D (lb :: B) (lc :: K) b f' -> f_p f' = f_p f -> Q tt f') -> spost f0 Q (enter_loop lb lc f).
Proof.
  intros S H1 H2 HQ. rewrite in_app_iff in H1, H2. unfold enter_loop. apply spost_bind. cbn [spost tget pget]. unfold loops_full, breaks_full.
  case_if; [split; [apply S | apply (sa_cap _ _ _ _ _ _ _ S)]|]. match goal with E : _ || _ = false |- _ => apply orb_false_iff in E as [Hb Hk] end. zbool.
  pose proof (sa_brk _ _ _ _ _ _ _ S) as Eb. pose proof (sa_cont _ _ _ _ _ _ _ S) as Ec.
  cbn [spost push_loop on_tabs pmod]. rewrite Eb, Ec in *. apply HQ; [|reflexivity].
  eapply stmt_targets; [exact S | cbn [length]; lia | cbn [length]; lia|]. intros id. rewrite !in_app_iff. cbn [In].
  intros [[<-|X]|[<-|X]]; tauto.
Qed.

Lemma spost_push_break f0 W D B K b f lb (Q : unit -> front -> Prop) : stmt_at f0 W D B K b f -> In lb (W ++ D) ->
  (forall f', stmt_at f0 W D (lb :: B) K b f' -> f_p f' = f_p f -> Q tt f') ->
  spost f0 Q (enter_switch lb f).
Proof.
  intros S H1 HQ. rewrite in_app_iff in H1. unfold enter_switch. apply spost_bind. cbn [spost tget pget]. unfold breaks_full.
  case_if; [split; [apply S | apply (sa_cap _ _ _ _ _ _ _ S)]|]. zbool.
  pose proof (sa_brk _ _ _ _ _ _ _ S) as Eb. pose proof (sa_cont _ _ _ _ _ _ _ S) as Ec. pose proof (ao_conts _ (sa_arrays _ _ _ _ _ _ _ S)) as Hc.
  cbn [spost push_break on_tabs pmod]. rewrite Eb, Ec in *. apply HQ; [|reflexivity].
  eapply stmt_targets; [exact S | cbn [length]; lia | lia|]. intros id. rewrite !in_app_iff. cbn [In]. intros [[<-|X]|X]; tauto.
Qed.

Lemma spost_pop f0 W D B K lb lc b f pop (Q : unit -> front -> Prop) :
  (stmt_at f0 W D (lb :: B) (lc :: K) b f /\ pop = pop_loop \/ stmt_at f0 W D (lb :: B) K b f /\ pop = pop_break) ->
  (forall f', stmt_at f0 W D B K b f' -> f_p f' = f_p f -> Q tt f') -> spost f0 Q (pop f).
Proof.
  intros H HQ.
  assert (E : exists X K', stmt_at f0 W D X K' b f /\ pop f = (Done tt, set_tabs (with_targets B K (tabs f)) f) /\ incl (B ++ K) (X ++ K')).
  { destruct H as [[S ->]|[S ->]]; pose proof (sa_brk _ _ _ _ _ _ _ S) as Eb; pose proof (sa_cont _ _ _ _ _ _ _ S) as Ec;
      [exists (lb :: B), (lc :: K) | exists (lb :: B), K]; (split; [exact S|]; split;
      [unfold pop_loop, pop_break, on_tabs, pmod; rewrite Eb, Ec; reflexivity | intros x; rewrite !in_app_iff; cbn [In]; tauto]). }
  destruct E as (X & K' & S & -> & Hi). cbn [spost]. apply HQ; [|reflexivity].
  pose proof (ao_breaks _ (sa_arrays _ _ _ _ _ _ _ S)) as Lb. pose proof (ao_conts _ (sa_arrays _ _ _ _ _ _ _ S)) as Lc.
  rewrite (sa_brk _ _ _ _ _ _ _ S) in Lb. rewrite (sa_cont _ _ _ _ _ _ _ S) in Lc.
  eapply stmt_targets; [exact S | | | auto].
  - destruct H as [[S' _]|[S' _]]; pose proof (ao_breaks _ (sa_arrays _ _ _ _ _ _ _ S')) as L; rewrite (sa_brk _ _ _ _ _ _ _ S') in L; cbn [length] in L; lia.
  - destruct H as [[S' _]|[S' _]]; pose proof (ao_conts _ (sa_arrays _ _ _ _ _ _ _ S')) as L; rewrite (sa_cont _ _ _ _ _ _ _ S') in L; cbn [length] in L; lia.
Qed.

(** Loops of the parser. *)
Lemma spost_forever {A} f0 (I : A -> front -> Prop) (Q : A -> front -> Prop) body :
  (forall x f, I x f -> spost f0 (fun r f' => if (fst r : bool) then I (snd r) f' /\ (length (f_p f') < length (f_p f))%nat else Q (snd r) f') (body x f)) ->
  forall x f, I x f -> spost f0 Q (forever body x f).
Proof.
  intros Hb. assert (Hn : forall n x f, I x f -> (length (f_p f) < n)%nat -> spost f0 Q (turns n body x f)).
  { induction n as [|n IH]; intros x f Hi Hn; [lia|]. cbn [turns]. apply spost_bind. eapply spost_mono; [|apply Hb, Hi].
    intros [[] y] f'; cbn; [intros [Hi' Hl]; apply IH; [exact Hi' | lia] | auto]. }
  intros x f Hi. apply Hn; [exact Hi | lia].
Qed.
