(* ===== verification/HcFrontStmtRun.v ===== *)
(** * The HolyC front end: the pieces of statements, and the statements that contain others

    First the parsers of a statement that promise what expressions promise: case values, assignments to
    addresses, initialisers, the step of [for] and the comparisons of [switch]. *)

From S2P Require Import Prelude A64 A64Sem HcIr HcIrSem HcFront HcFrontPrim HcFrontOps HcFrontStmt HcFrontCode HcFrontSpec HcFrontRun.
#[local] Open Scope Z_scope.

(** ** Parsers that only read *)

Definition same_output (f g : front) : Prop := f_bc g = f_bc f /\ f_cap g = f_cap f /\ tabs g = tabs f.
Definition quiet {A} (m : P A) : Prop := forall f, same_output f (snd (m f)).

Lemma quiet_bind {A B} (m : P A) (k : A -> P B) : quiet m -> (forall a, quiet (k a)) -> quiet (pbind m k).
Proof.
  intros Hm Hk f. unfold pbind. specialize (Hm f). destruct (m f) as [[a| | |] g]; cbn in *; try exact Hm.
  specialize (Hk a g). destruct Hm as (E1 & E2 & E3), Hk as (K1 & K2 & K3). repeat split; congruence.
Qed.
Lemma quiet_if {A} (b : bool) (m n : P A) : quiet m -> quiet n -> quiet (if b then m else n).
Proof. destruct b; auto. Qed.
Lemma quiet_ret {A} (a : A) : quiet (pret a).
Proof. repeat split. Qed.
Lemma quiet_refuse {A} : quiet (@refuse A).
Proof. repeat split. Qed.
Lemma quiet_fuel {A} : quiet (@out_of_fuel A).
Proof. repeat split. Qed.
Lemma quiet_peek i : quiet (peek i).
Proof. repeat split. Qed.
Lemma quiet_advance k : quiet (advance k).
Proof. repeat split. Qed.
Lemma quiet_skip : quiet hcf_skip.
Proof. repeat split. Qed.
Lemma quiet_scan test : quiet (scan test).
Proof. intros f. unfold scan. destruct (span _ _). repeat split. Qed.
Create HintDb quiet.
#[export] Hint Resolve quiet_bind quiet_if quiet_ret quiet_refuse quiet_fuel quiet_peek quiet_advance quiet_skip quiet_scan : quiet.
Ltac hush := repeat first [apply quiet_bind; intros | apply quiet_if | solve [eauto with quiet] | match goal with |- quiet (match ?l with [] => _ | _ => _ end) => destruct l end].

Lemma quiet_assign_op : quiet hcf_parse_assign_op.
Proof. unfold hcf_parse_assign_op. hush. Qed.
Lemma quiet_char_lit : quiet char_lit.
Proof. unfold char_lit. hush. Qed.
Lemma quiet_hex_lit : quiet hex_lit.
Proof. unfold hex_lit. hush. Qed.
Lemma quiet_int_lit n : quiet (int_lit n).
Proof.
  pose proof quiet_char_lit. pose proof quiet_hex_lit.
  induction n as [|n IH]; cbn [int_lit]; unfold is_0x; hush.
Qed.

(** A parser that is tried. *)
Lemma post_attempt {A} (R : A -> Prop) (m : P A) f0 a b f (Q : option A -> front -> Prop) : quiet m ->
  post f0 (fun x g => at_depth f0 a b g /\ (length (f_p g) <= length (f_p f))%nat /\ R x) (m f) ->
  (forall x g, at_depth f0 a b g -> same_output f g -> (length (f_p g) <= length (f_p f))%nat -> R x -> Q (Some x) g) ->
  (forall g, same_output f g -> Q None g) -> post f0 Q (attempt m f).
Proof.
  intros Hq Hm HS HN. specialize (Hq f). unfold attempt. destruct (m f) as [[x| | |] g]; cbn [post snd] in *; [| | exact Hm..].
  - destruct Hm as (A1 & L1 & H1). auto.
  - apply HN, Hq.
Qed.

(** Back to a text of before. *)
Lemma at_back f0 a b f g p : at_depth f0 a b f -> same_output f g -> (length p <= length (f_p f0))%nat -> at_depth f0 a b (set_err false (set_p p g)).
Proof.
  intros [((I1 & I2 & I3) & (S1 & S2) & S3 & S4) (cs & W & C)] (E1 & E2 & E3) Hp. split.
  - split; [split; [|split]; cbn; rewrite ?E1, ?E2, ?E3; assumption|]. cbn. rewrite E1, E2, E3. split; [auto|]. split; [exact Hp | exact S4].
  - exists cs. unfold wrote in *. cbn. rewrite E1, E3. auto.
Qed.

Lemma post_case_val f0 a b f (Q : Z -> front -> Prop) : at_depth f0 a b f ->
  (forall v g, at_depth f0 a b g -> tabs g = tabs f -> (length (f_p g) <= length (f_p f))%nat -> Q v g) -> post f0 Q (hcf_parse_case_val f).
Proof.
  intros A0 HQ. unfold hcf_parse_case_val. do 5 pstep. pose proof (at_len _ _ _ _ A0).
  match goal with A1 : at_depth f0 a b ?g |- _ => eapply (post_attempt (fun _ => True)); [intros h; apply quiet_int_lit | | |] end.
  - unfold hcf_parse_int_lit. eapply post_int_lit; [eassumption | lia|]. intros v g A1 _ L1 _. split; [exact A1 | split; [text_lia | exact I]].
  - intros v g A1 (_ & _ & T1) L1 _. repeat pstep. apply HQ; [exact A1 | congruence | text_lia].
  - intros g Hg. pstep.
    match goal with A1 : at_depth f0 a b ?h, Hg : same_output ?h g |- _ =>
      pose proof (at_back f0 a b h g (f_p h) A1 Hg ltac:(text_lia)) as A2; assert (T2 : tabs g = tabs f) by (destruct Hg as (_ & _ & ->); congruence) end.
    cbn [post pmod]. set (h := set_err _ _) in *. assert (T3 : tabs h = tabs f) by exact T2. assert (L3 : (length (f_p h) <= length (f_p f))%nat) by (cbn; text_lia).
    clearbody h. repeat pstep; try (apply HQ; [assumption | congruence | text_lia]).
    destruct (lookup_const case_consts s) as [v|]; repeat pstep. apply HQ; [assumption | congruence | text_lia].
Qed.

Lemma assign_op_reads f0 a b f (Q : option hc_op -> front -> Prop) : at_depth f0 a b f ->
  (forall o g, at_depth f0 a b g -> tabs g = tabs f -> (length (f_p g) < length (f_p f))%nat -> o = None \/ o = Some HC_ADD \/ o = Some HC_SUB \/ o = Some HC_MUL -> Q o g) ->
  post f0 Q (hcf_parse_assign_op f).
Proof.
  intros A0 HQ. unfold hcf_parse_assign_op. repeat pstep; (apply HQ; [assumption | congruence | text_lia | auto]).
Qed.

(** ** Stores *)

Section Recursive.
Context (n : nat) (parse_prim parse_expr : P unit) (HP : parses n parse_prim 0 1) (HE : parses n parse_expr 0 1).

Lemma coerce_any m is_f64 strict : parses m (coerce is_f64 strict) 1 1.
Proof. enter. unfold coerce. parser. Qed.
#[local] Hint Resolve coerce_any : front.

Definition assign_bin (bin : option hc_op) : Prop := bin = None \/ bin = Some HC_ADD \/ bin = Some HC_SUB \/ bin = Some HC_MUL.

Lemma post_bin_op f0 a d f is_f64 b (Q : hc_op -> front -> Prop) : at_depth f0 a d f -> assign_bin (Some b) ->
  (forall o, pops_two o -> Q o f) -> post f0 Q (bin_op is_f64 b f).
Proof.
  intros A0 Hb HQ. destruct Hb as [Hb|[Hb|[Hb|Hb]]]; [discriminate Hb|..]; injection Hb as ->; destruct is_f64; cbn; apply HQ; repeat split.
Qed.

Lemma finish_assign_parses bin ld st is_f64 : assign_bin bin -> parses n (hcf_emit (sized_load ld)) 1 1 ->
  parses n (hcf_finish_mem_assign parse_expr bin (sized_load ld) (sized_store st) is_f64) 1 0.
Proof using HE.
  intros Hb Hl. enter. unfold hcf_finish_mem_assign. destruct bin as [b|]; [|parser].
  pstep. pstep. fold (bin_op is_f64 b). eapply post_bin_op; [eassumption | exact Hb|]. intros o Ho. pose proof (fun m => emit_binop_parses m o Ho). parser.
Qed.

Lemma finish_incdec_parses ld st is_f64 is_inc : parses n (hcf_finish_mem_incdec (sized_load ld) (sized_store st) is_f64 is_inc) 1 0.
Proof using. enter. unfold hcf_finish_mem_incdec. parser. Qed.

Lemma stmt_index_parses id : parses n (stmt_index parse_expr id) 0 0.
Proof using HE.
  pose proof (index_addr_parses n parse_expr HE id). enter. unfold stmt_index. repeat pstep. eapply assign_op_reads; [eassumption|].
  intros o g Ag Tg Lg Ho. pose proof (fun ld st fl => finish_assign_parses o ld st fl Ho (sized_load_parses n ld)). parser.
Qed.

Lemma stmt_member_parses addr : parses n addr 0 1 -> parses n (stmt_member parse_expr addr) 0 0.
Proof using HE.
  intros Ha. pose proof finish_incdec_parses. enter. unfold stmt_member. repeat pstep; try pdone.
  eapply assign_op_reads; [eassumption|]. intros o g Ag Tg Lg Ho.
  pose proof (fun ld st fl => finish_assign_parses o ld st fl Ho (sized_load_parses n ld)). parser.
Qed.

Lemma incdec_named_parses id op : op = HC_ADD \/ op = HC_SUB -> parses n (incdec_named id op) 0 0.
Proof using. intros [-> | ->]; enter; unfold incdec_named; parser. Qed.

(** [mstep]: a step, or the operator of an assignment. *)
Ltac mstep := first [match goal with |- post _ _ (bin_op _ _ _) => eapply post_bin_op; [eassumption | eassumption | intros ? ?] end | pstep].

Lemma step_assign_parses id bin : assign_bin bin -> parses n (step_assign parse_expr id bin) 0 0.
Proof using HE. intros Hb. enter. unfold step_assign. destruct bin as [b|]; repeat mstep; pdone. Qed.

Lemma stmt_assign_parses id : parses n (stmt_assign parse_expr id) 0 0.
Proof using HE.
  enter. unfold stmt_assign. repeat pstep. eapply assign_op_reads; [eassumption|]. intros [b|] g Ag Tg Lg Ho; repeat mstep; pdone.
Qed.
#[local] Hint Resolve stmt_index_parses incdec_named_parses step_assign_parses stmt_assign_parses stmt_member_parses : front.

Lemma stmt_var_parses id : parses n (stmt_var parse_expr id) 0 0.
Proof using HE.
  pose proof (stmt_member_parses _ (dot_addr_parses n id)). pose proof (stmt_member_parses _ (arrow_addr_parses n id)).
  enter. unfold stmt_var. parser.
Qed.

(** ** The step of [for] *)

Lemma step_ident_parses : parses n (step_ident parse_expr) 0 0.
Proof using HE.
  enter. unfold step_ident. repeat pstep; try pdone.
  match goal with A1 : at_depth f 0 0 ?g |- post f _ (attempt hcf_parse_assign_op ?g) =>
    assert (Hback : forall h, same_output g h -> at_depth f 0 0 (set_err false (set_p (f_p f) h))) by (intros h Hh; apply (at_back f 0 0 g); [exact A1 | exact Hh | lia]);
    assert (Hfall : forall h, at_depth f 0 0 (set_err false (set_p (f_p f) h)) ->
      post f (fun _ f' => at_depth f 0 0 f') ((pmod (fun g => set_err false (set_p (f_p f) g)) ;;; parse_expr ;;; hcf_emit HC_DROP)%front h));
    [intros h Ah; pstep; cbn [post pmod]; assert (Lh : length (f_p (set_err false (set_p (f_p f) h))) = length (f_p f)) by reflexivity;
     set (h2 := set_err _ _) in *; clearbody h2; parser|];
    eapply (post_attempt assign_bin); [exact quiet_assign_op | eapply assign_op_reads; [exact A1|]; intros o h Ah Th Lh Ho; split; [exact Ah | split; [lia | exact Ho]] | |] end.
  - intros o h Ah Sh Lh Ho. apply Hback in Sh. repeat mstep; try pdone. apply Hfall, Sh.
  - intros h Sh. pstep. apply Hfall, Hback, Sh.
Qed.
#[local] Hint Resolve step_ident_parses : front.

Lemma for_step_parses : parses n (for_step parse_prim parse_expr) 0 0.
Proof using HE HP. enter. unfold for_step. parser. Qed.

(** ** Initialisers *)

Lemma element_addr_parses id i : 0 <= i < 256 -> parses n (element_addr id i) 0 1.
Proof using. intros Hi. enter. unfold element_addr. parser. Qed.

Lemma store_at_parses id : parses n (hcf_emit_store_at id) 2 0.
Proof using. enter. unfold hcf_emit_store_at. parser. Qed.
#[local] Hint Resolve store_at_parses element_addr_parses : front.

Lemma zero_elements_parses k : forall id i, 0 <= i -> i + Z.of_nat k <= 256 -> parses n (zero_elements k id i) 0 0.
Proof using.
  induction k as [|k IH]; intros id i H0 H1; enter; cbn [zero_elements]; [parser|].
  pose proof (element_addr_parses id i ltac:(lia)). pose proof (IH id (i + 1) ltac:(lia) ltac:(lia)). parser.
Qed.

Lemma brace_init_parses id : parses n (hcf_parse_brace_init parse_expr id) 0 0.
Proof using HE.
  enter. unfold hcf_parse_brace_init. do 2 pstep. cbv zeta. set (k := v_count _). assert (Hk : k < 256) by (subst k; destruct (nth_var_ok (tabs f) id (at_tabs _ _ _ _ H)) as [_ _ [_ Hc]]; exact Hc).
  assert (Hz : forall i, 0 <= i <= k -> parses n (zero_elements (Z.to_nat (k - i)) id i) 0 0) by (intros; apply zero_elements_parses; lia).
  repeat pstep; zbool; [|pose proof (Hz 0 ltac:(lia)); parser].
  eapply (post_forever f (fun i g => (0 <= i <= k) /\ at_depth f 0 0 g /\ (length (f_p g) < n)%nat)); [|split; [lia | split; [eassumption | text_lia]]].
  intros i g (Hr & Ag & Lg). unfold init_element. pstep; [repeat pstep|]. zbool. pose proof (element_addr_parses id i ltac:(lia)).
  repeat pstep; cbn [fst snd]; first [split; [split; [lia | split; [assumption | text_lia]] | text_lia] | pose proof (Hz (i + 1) ltac:(lia)); parser].
Qed.

(** ** The comparisons of [switch] *)

Lemma imm_int_parses m v : parses m (imm_int v) 0 1.
Proof using. enter. unfold imm_int. parser. Qed.
End Recursive.

(** Pieces of several of the parsers below. *)
#[export] Hint Resolve stmt_index_parses incdec_named_parses step_assign_parses stmt_assign_parses stmt_member_parses stmt_var_parses
  for_step_parses brace_init_parses store_at_parses imm_int_parses : front.

(** ** The HolyC front end: control statements keep their promise

    Blocks, conditions, loops, [switch], [goto] and [return], for any statements inside. *)

From S2P Require Import HcFrontStmtSpec HcFrontTables.

(** ** Keywords *)

Lemma strip_lt kw : forall l r, strip kw l = Some r -> kw <> [] -> (length r < length l)%nat.
Proof.
  destruct kw as [|k kw]; intros l r; [contradiction|]. cbn. destruct l as [|c l]; [discriminate|]. case_if; [|discriminate].
  intros E _. apply strip_le in E. cbn. lia.
Qed.

Section Reading.
Context (f0 : front) (a b : Z).

Lemma post_kw_strict f kw (Q : bool -> front -> Prop) : at_depth f0 a b f -> S_ kw <> [] ->
  (forall r f', at_depth f0 a b f' -> tabs f' = tabs f -> (length (f_p f') <= length (f_p f))%nat -> (r = true -> (length (f_p f') < length (f_p f))%nat) -> Q r f') ->
  post f0 Q (hcf_kw kw f).
Proof.
  intros A Hkw HQ. unfold hcf_kw. do 4 pstep. destruct (strip _ _) as [r|] eqn:E; [|repeat pstep; apply HQ; [assumption | congruence | lia | discriminate]].
  apply strip_lt in E; [|exact Hkw]. repeat pstep; (apply HQ; [assumption | congruence | text_lia | first [discriminate | intros _; text_lia]]).
Qed.

Definition nonempty (l : list String.string) : Prop := Forall (fun k => S_ k <> []) l.

Lemma post_any_kw l : forall f (Q : bool -> front -> Prop), nonempty l -> at_depth f0 a b f ->
  (forall r f', at_depth f0 a b f' -> tabs f' = tabs f -> (length (f_p f') <= length (f_p f))%nat -> (r = true -> (length (f_p f') < length (f_p f))%nat) -> Q r f') ->
  post f0 Q (any_kw l f).
Proof.
  induction l as [|k l IH]; intros f Q Hl A HQ; cbn [any_kw]; [pstep; apply HQ; [assumption | reflexivity | lia | discriminate]|].
  inversion Hl as [|? ? Hk Hl']; subst. pstep. eapply post_kw_strict; [exact A | exact Hk|]. intros [] g Ag Tg Lg Cg; [repeat pstep; apply HQ; auto|].
  apply IH; [exact Hl' | exact Ag|]. intros r h Ah Th Lh Ch. apply HQ; [exact Ah | congruence | lia | intros Hr; specialize (Ch Hr); lia].
Qed.
End Reading.

Ltac nonempty_kw := repeat constructor; vm_compute; discriminate.

(** ** The tactic

    [sstep] executes one action of a statement.  The hypotheses are the state of the statement,
    [S : stmt_at ...  g], and the expression since then, [A : at_depth g ... f]. *)

Lemma at_classes f0 a b g : at_depth f0 a b g -> classes (tabs g) = classes (tabs f0).
Proof. intros [(_ & (_ & E) & _) _]. apply (te_classes _ _ E). Qed.

(** The expression is taken up. *)
Ltac take_up :=
  lazymatch goal with
  | S : stmt_at ?f0 ?W ?D ?B ?K ?b ?g, A : at_depth ?g ?c ?d ?f |- spost ?f0 _ _ =>
      let S' := fresh "S" in pose proof (stmt_commit f0 W D B K b c d g f S A ltac:(lia)) as S';
      pose proof (at_classes _ _ _ _ A); clear A; clear S; rename S' into S
  end.
(** A new expression. *)
Ltac begin_expr :=
  lazymatch goal with
  | S : stmt_at ?f0 _ _ _ _ _ ?g |- spost ?f0 _ _ => pose proof (at_start 0 g (sa_inv _ _ _ _ _ _ _ S))
  | |- _ => idtac
  end.

Ltac in_ids := cbn [In app]; rewrite ?in_app_iff; auto 12.
Ltac remove_id l W := lazymatch W with l :: ?W1 => W1 | ?y :: ?W1 => let r := remove_id l W1 in constr:(y :: r) end.

Lemma spost_new_pair f0 W D B K b f (Q : Z * Z -> front -> Prop) : stmt_at f0 W D B K b f ->
  (forall l1 l2 f', stmt_at f0 (l2 :: l1 :: W) D B K b f' -> f_p f' = f_p f -> l1 < l2 -> (forall y, In y W -> y < l1) -> Q (l1, l2) f') ->
  spost f0 Q (new_label_pair f).
Proof.
  intros S HQ. unfold new_label_pair. apply spost_bind. eapply spost_new_label; [exact S | |].
  - intros g Sg Eg Tg Hg. apply spost_bind. eapply spost_new_label; [exact Sg | |].
    + intros h Sh Eh Th Hh. rewrite Tg, with_label_next in *. replace (_ || _) with false by lia. cbn [spost pret]. eapply HQ; [exact Sh | congruence | lia|].
      intros y Hy. eapply stmt_pending; eassumption.
    + intros h Sh Eh. rewrite orb_true_r. split; [apply Sh | apply (sa_cap _ _ _ _ _ _ _ Sh)].
  - intros g Sg Eg. apply spost_bind. eapply spost_new_label; [exact Sg | |]; intros h Sh *; (split; [apply Sh | apply (sa_cap _ _ _ _ _ _ _ Sh)]).
Qed.

(** A label, or -1. *)
Lemma spost_new f0 W D B K b f (Q : Z -> front -> Prop) : stmt_at f0 W D B K b f ->
  (forall l f', stmt_at f0 (l :: W) D B K b f' -> f_p f' = f_p f -> 0 <= l -> (forall y, In y W -> y < l) -> Q l f') ->
  (forall l f', stmt_at f0 W D B K b f' -> f_p f' = f_p f -> l = -1 -> True -> Q l f') -> spost f0 Q (hcf_new_label f).
Proof.
  intros S H1 H2. eapply spost_new_label; [exact S | |].
  - intros g Sg Eg Tg Hg. apply H1; [exact Sg | exact Eg | lia |]. intros y Hy. eapply stmt_pending; eassumption.
  - intros g Sg Eg. apply H2; auto.
Qed.

(** A test of labels that contradicts what is known of them. *)
Ltac no_label :=
  exfalso; match goal with H : ?c = _ |- _ =>
    lazymatch c with context [_ <? 0] => idtac end;
    repeat rewrite ?orb_false_iff, ?orb_true_iff, ?Z.ltb_lt, ?Z.ltb_ge in H; lia end.

(** Distinct labels. *)
Ltac label_facts := repeat match goal with
  | Hlt : forall y, In y (?l :: ?W) -> y < _ |- _ =>
      pose proof (Hlt l (or_introl eq_refl)); let H := fresh "Hlt" in pose proof (fun y Hy => Hlt y (or_intror Hy)) as H; clear Hlt
  | Hlt : forall y, In y [] -> y < _ |- _ => clear Hlt
  end.
Ltac labels_differ := label_facts; cbn [In]; intros ? Hy;
  repeat match type of Hy with _ \/ _ => destruct Hy as [Hy|Hy] end; try match type of Hy with False => destruct Hy end;
  try match goal with Hlt : forall y, In y _ -> y < _ |- _ => pose proof (Hlt _ Hy) end;
  subst; split_and?; first [lia | auto 8].

Ltac branch_ok := first [left; split; [reflexivity | lia] | right; split; [auto | lia]].

Ltac sstep :=
  lazymatch goal with
  | |- spost _ _ (pbind _ _ _) => apply spost_bind
  | |- spost _ _ (pret _ _) => cbn [spost pret]
  | |- spost _ _ (or_refuse _ _) => apply spost_or_refuse
  | |- spost _ _ ((let _ := _ in _) _) => cbv zeta
  | |- spost _ _ ((if ?c then _ else _) _) => destruct c eqn:?; try no_label
  | S : stmt_at _ _ _ _ _ _ _ |- spost _ _ (new_label_pair _) => take_up; eapply spost_new_pair; [eassumption|]; clear S; intros ? ? ? S ? ? ?; begin_expr
  | S : stmt_at _ _ _ _ _ _ _ |- spost _ _ (hcf_new_label _) => take_up; eapply spost_new; [eassumption | |]; clear S; intros ? ? S ? ? ?; begin_expr
  | S : stmt_at _ ?W _ _ _ _ _ |- spost _ _ (hcf_emit_u8 HC_LABEL ?l _) =>
      take_up; let W' := remove_id l W in
      eapply (fun f0 D B K b f S => spost_label f0 W D B K b f S l W'); [eassumption | lia | in_ids | labels_differ | labels_differ |];
      clear S; intros ? S ? ?; begin_expr
  | S : stmt_at _ _ _ _ _ _ _ |- spost _ _ (hcf_emit_u8 HC_JMP _ _) => take_up; eapply spost_jump; [eassumption | branch_ok | in_ids |]; clear S; intros ? S ? ?; begin_expr
  | S : stmt_at _ _ _ _ _ _ _ |- spost _ _ (hcf_emit_u8 HC_JZ _ _) => take_up; eapply spost_jump; [eassumption | branch_ok | in_ids |]; clear S; intros ? S ? ?; begin_expr
  | S : stmt_at _ _ _ _ _ _ _ |- spost _ _ (hcf_emit_u8 HC_JNZ _ _) => take_up; eapply spost_jump; [eassumption | branch_ok | in_ids |]; clear S; intros ? S ? ?; begin_expr
  | S : stmt_at _ _ _ _ _ _ _ |- spost _ _ (hcf_emit HC_RET _) => take_up; eapply spost_return; [eassumption | lia |]; clear S; intros ? S ? ?; begin_expr
  | S : stmt_at _ _ _ _ _ _ _ |- spost _ _ (enter_loop _ _ _) => take_up; eapply spost_enter_loop; [eassumption | in_ids | in_ids |]; clear S; intros ? S ?; begin_expr
  | S : stmt_at _ _ _ _ _ _ _ |- spost _ _ (enter_switch _ _) => take_up; eapply spost_push_break; [eassumption | in_ids |]; clear S; intros ? S ?; begin_expr
  | S : stmt_at _ _ _ _ _ _ _ |- spost _ _ (pop_loop _) => take_up; eapply spost_pop; [left; split; [eassumption | reflexivity] |]; clear S; intros ? S ?; begin_expr
  | S : stmt_at _ _ _ _ _ _ _ |- spost _ _ (pop_break _) => take_up; eapply (fun f0 W D B K lb => spost_pop f0 W D B K lb 0); [right; split; [eassumption | reflexivity] |]; clear S; intros ? S ?; begin_expr
  | Hm : sparses _ ?m, S : stmt_at _ _ _ _ _ _ _ |- spost _ _ (?m _) => take_up; eapply (spost_call _ _ _ _ _ _ _ _ _ Hm); [replace 0 with (0 - 0 + 0) by lia; eassumption | text_lia |]; clear S; intros ? S ?; begin_expr
  | S : stmt_at _ _ _ _ _ _ _ |- spost _ _ (hcf_get_glab _ _) => take_up; eapply spost_get_glab; [eassumption |]; clear S; intros ? ? S ? ?; begin_expr
  | S : stmt_at _ _ _ _ _ _ _ |- spost _ _ (hcf_decl_n _ _ _ _) => take_up; eapply spost_decl; [eassumption |]; clear S; intros ? ? S ? ?; begin_expr
  | S : stmt_at _ _ _ _ _ _ _ |- spost _ _ (hcf_decl_global_n _ _ _ _) => take_up; eapply spost_decl_global; [eassumption |]; clear S; intros ? ? S ? ?; begin_expr
  | S : stmt_at _ _ _ _ _ _ _ |- spost _ _ (hcf_decl_class _ _ _ _) => take_up; eapply spost_decl_class; [eassumption |]; clear S; intros ? ? S ?; begin_expr
  | S : stmt_at _ _ _ _ _ _ _ |- spost _ _ (hcf_add_enum _ _ _) => take_up; eapply spost_add_enum; [eassumption |]; clear S; intros ? S ?; begin_expr
  | S : stmt_at _ _ _ _ _ _ _ |- spost _ _ (on_tabs (mark_f64 _) _) => take_up; eapply spost_mark_f64; [eassumption |]; clear S; intros ? S ?; begin_expr
  | S : stmt_at _ _ _ _ _ _ _ |- spost _ _ (on_tabs (mark_ptr _ _) _) => take_up; eapply spost_mark_ptr; [eassumption |]; clear S; intros ? S ?; begin_expr
  | |- spost _ _ (on_tabs _ _) => fail
  | |- spost _ _ (dispatch _ _ _) => fail
  | |- spost _ _ (forever _ _ _) => fail
  | S : stmt_at _ _ _ _ _ _ _ |- spost _ _ _ => apply (spost_lift _ _ _ _ _ _ _ S)
  | |- post _ _ (any_kw _ _) => eapply post_any_kw; [nonempty_kw | eassumption |]; intros ? ? ? ? ? ?
  | |- post _ _ (hcf_kw _ _) => eapply post_kw_strict; [eassumption | vm_compute; discriminate |]; intros ? ? ? ? ? ?
  | |- post _ _ (new_tmp _) => eapply post_new_tmp; [eassumption|]; intros ? ? ? ? ?
  | |- post _ _ (hcf_parse_case_val _) => eapply post_case_val; [eassumption|]; intros ? ? ? ? ?
  | |- post _ _ _ => pstep
  end.

(** The end of a part of a statement. *)
Definition part_done (f0 f f' : front) : Prop :=
  stmt_at f0 [] [] (brk_tgt (tabs f0)) (cont_tgt (tabs f0)) 0 f' /\ (length (f_p f') <= length (f_p f))%nat.
Ltac stmt_here :=
  match goal with
  | S : stmt_at ?f0 _ _ _ _ ?e ?f |- stmt_at ?f0 _ _ _ _ ?e' ?f => replace e' with e by lia; exact S
  | S : stmt_at ?f0 ?W ?D ?B ?K ?b ?g, A : at_depth ?g ?c ?d ?f |- stmt_at ?f0 _ _ _ _ ?e' ?f =>
      replace e' with (b - c + d) by lia; exact (stmt_commit f0 W D B K b c d g f S A ltac:(lia))
  end.
Ltac sdone := split; [eapply stmt_end; stmt_here | text_lia].

(** A part of a statement, of a text of less than [n] characters. *)
Definition part (n : nat) (m : P unit) : Prop :=
  forall f0 f, stmt_at f0 [] [] (brk_tgt (tabs f0)) (cont_tgt (tabs f0)) 0 f -> (length (f_p f) < n)%nat ->
    spost f0 (fun _ f' => part_done f0 f f') (m f).
(** A part that reads at least one character, from a character of [head] on. *)
Definition eats (n : nat) (m : P unit) (head : Z -> bool) : Prop :=
  forall f0 f, stmt_at f0 [] [] (brk_tgt (tabs f0)) (cont_tgt (tabs f0)) 0 f -> (length (f_p f) < n)%nat -> head (nth 0 (f_p f) 0) = true ->
    spost f0 (fun _ f' => stmt_at f0 [] [] (brk_tgt (tabs f0)) (cont_tgt (tabs f0)) 0 f' /\ (length (f_p f') < length (f_p f))%nat) (m f).
Ltac part_enter := let f0 := fresh "f0" in let f := fresh "f" in let S := fresh "S" in let Hn := fresh "Hn" in
  intros f0 f S Hn; begin_expr.

Section Control.
Context (n : nat) (parse_prim parse_expr parse_stmt : P unit).
Context (HP : forall n, parses n parse_prim 0 1) (HE : forall n, parses n parse_expr 0 1) (HS : sparses n parse_stmt).

Lemma return_part : part n (stmt_return parse_expr).
Proof using HE. part_enter. unfold stmt_return. repeat sstep; sdone. Qed.

Lemma if_part : part n (stmt_if parse_expr parse_stmt).
Proof using HE HS. part_enter. unfold stmt_if, condition_i64. repeat sstep; sdone. Qed.

Lemma while_part : part n (stmt_while parse_expr parse_stmt).
Proof using HE HS. part_enter. unfold stmt_while. repeat sstep; sdone. Qed.

Lemma for_part : part n (stmt_for parse_prim parse_expr parse_stmt).
Proof using HP HE HS.
  assert (Hstep : forall m, parses m (for_step parse_prim parse_expr) 0 0) by (intros m; apply for_step_parses; auto).
  part_enter. unfold stmt_for. repeat sstep; sdone.
Qed.

Lemma do_part : part n (stmt_do parse_expr parse_stmt).
Proof using HE HS.
  part_enter. unfold stmt_do. repeat sstep; sdone.
Qed.

(** ** switch *)

Lemma spost_dispatch f0 W D B K tmp cases : forall f (Q : unit -> front -> Prop), 0 <= tmp < 256 -> stmt_at f0 W D B K 0 f ->
  Forall (fun c => In (case_lab c) D) cases -> (forall f', stmt_at f0 W D B K 0 f' -> f_p f' = f_p f -> Q tt f') -> spost f0 Q (dispatch tmp cases f).
Proof using.
  induction cases as [|c cases IH]; intros f Q Ht S Hc HQ; cbn [dispatch]; [apply HQ; auto|].
  inversion Hc as [|? ? H1 H2]; subst. begin_expr. unfold dispatch_case, imm_int. repeat sstep;
    (eapply IH; [exact Ht | eassumption | exact H2 | intros g Sg Eg; apply HQ; [exact Sg | congruence]]).
Qed.

(** The cases and [default] have been placed, at most [k] characters are left. *)
Definition switch_at (f0 : front) (W B K : list Z) (k : nat) (st : list switch_case * Z) (f : front) : Prop :=
  exists D, stmt_at f0 W D B K 0 f /\ (length (f_p f) <= k)%nat /\ Forall (fun c => In (case_lab c) D) (fst st) /\ (snd st = -1 \/ In (snd st) D).

Lemma cases_more (D : list Z) l cases : Forall (fun c => In (case_lab c) D) cases -> Forall (fun c => In (case_lab c) (l :: D)) cases.
Proof using. intros H. eapply Forall_impl; [|exact H]. cbn. auto. Qed.

Lemma case_added (D : list Z) l lo hi cases : Forall (fun c => In (case_lab c) D) cases ->
  Forall (fun c => In (case_lab c) (l :: D)) (cases ++ [mk_case l lo hi]).
Proof using. intros H. apply Forall_app. split; [apply cases_more, H|]. repeat constructor. Qed.

Lemma switch_turn_at f0 W B K k (Q : list switch_case * Z -> front -> Prop) st f : (k < n)%nat ->
  (forall st f, switch_at f0 W B K k st f -> Q st f) -> switch_at f0 W B K k st f ->
  spost f0 (fun r f' => if (fst r : bool) then switch_at f0 W B K k (snd r) f' /\ (length (f_p f') < length (f_p f))%nat else Q (snd r) f')
    (switch_turn parse_stmt st f).
Proof using HS.
  intros Hk HQ (D & S & Hl & Hc & Hd). destruct st as [cases l_def]. cbn [fst snd] in *. begin_expr. unfold switch_turn, case_turn, default_turn. repeat sstep.
  all: cbn [fst snd]; try apply HQ; try (split; [|text_lia]); (eexists; split; [stmt_here|]; split; [text_lia|]; cbn [fst snd]).
  all: split; [|first [exact Hd | cbn [In]; tauto]]; first [exact Hc | apply cases_more, Hc | apply case_added, Hc].
Qed.

Lemma spost_switch f0 W B K k (Q : list switch_case * Z -> front -> Prop) st f : (k < n)%nat -> switch_at f0 W B K k st f ->
  (forall st f, switch_at f0 W B K k st f -> Q st f) -> spost f0 Q (forever (switch_turn parse_stmt) st f).
Proof using HS.
  intros Hk Hs HQ. apply (spost_forever f0 (switch_at f0 W B K k) Q); [intros st' g Hg; apply switch_turn_at; assumption | exact Hs].
Qed.

Lemma switch_part : part n (stmt_switch parse_expr parse_stmt).
Proof using HE HS.
  part_enter. unfold stmt_switch. repeat sstep. take_up.
  match goal with |- spost _ _ (forever _ _ ?g) =>
    eapply (spost_switch f0 [l0; l] (l0 :: brk_tgt (tabs f0)) (cont_tgt (tabs f0)) (length (f_p g))) end;
    [text_lia | exists []; split; [stmt_here | auto] |].
  clear S. intros [cases l_def] h (D & S & Hl & Hc & Hd). cbn [fst snd] in *. begin_expr. repeat sstep. take_up.
  eapply spost_dispatch; [eassumption | stmt_here | apply cases_more, Hc|]. clear S. intros f3 S E3. begin_expr.
  destruct Hd as [-> | Hd]; [change (0 <=? -1) with false; cbv iota|]; repeat sstep; sdone.
Qed.

(** ** Jumps and blocks *)

Lemma goto_part : part n stmt_goto.
Proof using.
  part_enter. unfold stmt_goto. repeat sstep; sdone.
Qed.

Lemma jump_out_part targets : targets = brk_tgt \/ targets = cont_tgt -> part n (jump_out targets).
Proof using.
  intros Ht f0 f S Hn. unfold jump_out. apply spost_bind. cbn [spost tget pget].
  assert (Hin : forall l L, targets (tabs f) = l :: L -> In l (brk_tgt (tabs f0)) \/ In l (cont_tgt (tabs f0))).
  { intros l L E. destruct Ht as [-> | ->]; [rewrite (sa_brk _ _ _ _ _ _ _ S) in E; left | rewrite (sa_cont _ _ _ _ _ _ _ S) in E; right]; rewrite E; left; reflexivity. }
  destruct (targets (tabs f)) as [|l L]; [split; [apply S | apply (sa_cap _ _ _ _ _ _ _ S)]|]. specialize (Hin l L eq_refl).
  begin_expr. destruct Hin; repeat sstep; sdone.
Qed.

Lemma block_eats : eats (S n) (hcf_parse_block parse_stmt) (fun _ => true).
Proof using HS.
  intros f0 f S Hn _. begin_expr. unfold hcf_parse_block. repeat sstep. take_up.
  match goal with |- spost _ _ (forever _ _ ?g) =>
    eapply (spost_forever f0 (fun _ h => stmt_at f0 [] [] (brk_tgt (tabs f0)) (cont_tgt (tabs f0)) 0 h /\ (length (f_p h) <= length (f_p g))%nat)); [|split; [stmt_here | lia]] end.
  clear S. intros u h [S Hl]. begin_expr. unfold block_turn. repeat sstep; cbn [fst snd].
  - sdone.
  - split; [split; [stmt_here | text_lia] | text_lia].
Qed.
End Control.

(** ** The HolyC front end: classes keep their bounds

    The layout of a class: members are added one by one, aligned, and the size never passes what
    the number of members and the classes before allow. *)

(** ** Alignment *)

Lemma align_up_pow k v : 0 <= k -> hcf_align_up v (2 ^ k) = 2 ^ k * ((v + 2 ^ k - 1) / 2 ^ k).
Proof.
  intros Hk. unfold hcf_align_up. rewrite <- Z.ldiff_land. replace (2 ^ k - 1) with (Z.ones k) by (rewrite Z.ones_equiv; lia).
  rewrite Z.ldiff_ones_r, Z.shiftl_mul_pow2, Z.shiftr_div_pow2 by exact Hk. replace (v + 2 ^ k - 1) with (v + Z.ones k) by (rewrite Z.ones_equiv; lia). lia.
Qed.

Lemma align_up_8 v : hcf_align_up v 8 = 8 * ((v + 7) / 8).
Proof. change 8 with (2 ^ 3) at 1. rewrite align_up_pow by lia. change (2 ^ 3) with 8. f_equal. f_equal. lia. Qed.
Lemma align_up_4 v : hcf_align_up v 4 = 4 * ((v + 3) / 4).
Proof. change 4 with (2 ^ 2) at 1. rewrite align_up_pow by lia. change (2 ^ 2) with 4. f_equal. f_equal. lia. Qed.
Lemma align_up_1 v : hcf_align_up v 1 = v.
Proof. change 1 with (2 ^ 0) at 1. rewrite align_up_pow by lia. change (2 ^ 0) with 1. rewrite Z.div_1_r. lia. Qed.

(** ** Building a class *)

(** A member's type in class number [i]: a scalar, or a class before it. *)
Definition mtype_ok (i : nat) (mt : member_type) : Prop :=
  mt_type mt = HC_TYPE_NONE /\ (mt_stride mt = 1 \/ mt_stride mt = 4 \/ mt_stride mt = 8) \/
  0 <= mt_type mt < Z.of_nat i /\ 8 <= mt_stride mt <= 8 * 16 ^ Z.of_nat i /\ mt_stride mt mod 8 = 0.

Record building (i : nat) (c : hc_class) : Prop := mk_building {
  bu_name : short 14 (c_name c);
  bu_members : Z.of_nat (length (c_mem c)) <= HC_MAX_MEMBERS;
  bu_names : Forall (fun m => short 14 (mb_name m)) (c_mem c);
  bu_types : Forall (fun m => type_ok i (mb_type m)) (c_mem c);
  bu_offs : Forall member_ok (c_mem c);
  bu_size : 0 <= c_size c /\ 8 * ((c_size c + 7) / 8) <= Z.of_nat (length (c_mem c)) * (8 * 16 ^ Z.of_nat i) }.

Lemma building_empty i s : short 14 s -> building i (mk_class s [] 0).
Proof.
  intros Hs. split; cbn [c_name c_mem c_size length]; [exact Hs | unfold HC_MAX_MEMBERS; lia | apply Forall_nil_2.. |].
  change (8 * ((0 + 7) / 8)) with 0. lia.
Qed.

Lemma unit_pos i : 1 <= 16 ^ Z.of_nat i.
Proof. pose proof (Z.pow_pos_nonneg 16 (Z.of_nat i) ltac:(lia) ltac:(lia)). lia. Qed.

(** Sizes with a member of [s] bytes more, [u] the most a member takes. *)
Lemma size_struct u size s k : 1 <= u -> 0 <= size -> 8 * ((size + 7) / 8) <= k * (8 * u) ->
  (s = 1 \/ s = 4 \/ s = 8) \/ (8 <= s <= 8 * u /\ s mod 8 = 0) ->
  let off := hcf_align_up size (if s =? 1 then 1 else if s =? 4 then 4 else 8) in
  0 <= off /\ 8 * ((off + s + 7) / 8) <= (k + 1) * (8 * u).
Proof.
  intros Hu Hs Hb Hk off. subst off. destruct Hk as [[-> | [-> | ->]]|[Hs1 Hs2]]; cbn [Z.eqb Pos.eqb].
  - rewrite align_up_1. Z.to_euclidean_division_equations. nia.
  - rewrite align_up_4. Z.to_euclidean_division_equations. nia.
  - rewrite align_up_8. Z.to_euclidean_division_equations. nia.
  - replace (s =? 1) with false by lia. replace (s =? 4) with false by lia. rewrite align_up_8. Z.to_euclidean_division_equations. nia.
Qed.

Lemma size_union u size s k : 1 <= u -> 0 <= k -> 0 <= size -> 8 * ((size + 7) / 8) <= k * (8 * u) ->
  (s = 1 \/ s = 4 \/ s = 8) \/ (8 <= s <= 8 * u /\ s mod 8 = 0) ->
  let size' := if size <? s then s else size in 0 <= size' /\ 8 * ((size' + 7) / 8) <= (k + 1) * (8 * u).
Proof.
  intros Hu Hk0 Hs Hb Hk size'. subst size'. case_if; zbool; destruct Hk as [[-> | [-> | ->]]|[Hs1 Hs2]]; Z.to_euclidean_division_equations; nia.
Qed.

Lemma add_member_ok is_union mt i c s : mtype_ok i mt -> building i c -> Z.of_nat i <= 7 -> short 14 s ->
  Z.of_nat (length (c_mem c)) < HC_MAX_MEMBERS -> building i (add_member is_union mt s c).
Proof.
  intros Hmt [B1 B2 B3 B4 B5 [B6 B7]] Hi Hs Hl. pose proof (unit_pos i) as Hu. set (u := 16 ^ Z.of_nat i) in *.
  assert (Hk : (mt_stride mt = 1 \/ mt_stride mt = 4 \/ mt_stride mt = 8) \/ (8 <= mt_stride mt <= 8 * u /\ mt_stride mt mod 8 = 0)) by (destruct Hmt as [[_ H]|(_ & H)]; auto).
  assert (Hsz : let off := if is_union then 0 else hcf_align_up (c_size c) (if negb (mt_type mt =? HC_TYPE_NONE) then 8 else mt_stride mt) in
    0 <= (if is_union then (if c_size c <? mt_stride mt then mt_stride mt else c_size c) else off + mt_stride mt) /\
    8 * (((if is_union then (if c_size c <? mt_stride mt then mt_stride mt else c_size c) else off + mt_stride mt) + 7) / 8) <= (Z.of_nat (length (c_mem c)) + 1) * (8 * u)).
  { cbv zeta. destruct is_union; [apply size_union; auto; lia|].
    assert (Ea : (if negb (mt_type mt =? HC_TYPE_NONE) then 8 else mt_stride mt) = (if mt_stride mt =? 1 then 1 else if mt_stride mt =? 4 then 4 else 8)).
    { destruct Hmt as [[-> [-> | [-> | ->]]]|(H1 & H2 & _)]; try reflexivity. unfold HC_TYPE_NONE.
      replace (mt_type mt =? 255) with false by lia. replace (mt_stride mt =? 1) with false by lia. replace (mt_stride mt =? 4) with false by lia. reflexivity. }
    rewrite Ea. pose proof (size_struct u (c_size c) (mt_stride mt) _ Hu B6 B7 Hk) as [H1 H2]. split; [|exact H2].
    assert (0 <= mt_stride mt) by lia. lia. }
  unfold add_member. split; cbn [c_name c_mem c_size].
  - exact B1.
  - rewrite length_app. cbn [length]. lia.
  - apply Forall_app. split; [exact B3|]. apply Forall_singleton. exact Hs.
  - apply Forall_app. split; [exact B4|]. apply Forall_singleton. cbn [mb_type].
    destruct Hmt as [[-> _]|(H1 & _)]; [left; reflexivity | right; rewrite u8_id by lia; exact H1].
  - apply Forall_app. split; [exact B5|]. apply Forall_singleton. unfold member_ok. cbn [mb_off].
    match goal with |- is_u 64 (wrap 16 ?off) => pose proof (wrap_range 16 off ltac:(lia)) as Hw end.
    unfold is_u in *. change (2 ^ 16) with 65536 in Hw. change (2 ^ 64) with 18446744073709551616. lia.
  - cbv zeta in Hsz. rewrite length_app, Nat2Z.inj_add. exact Hsz.
Qed.

Lemma finish_class_ok i c : building i c -> class_fits i (finish_class c) /\ Forall member_ok (c_mem (finish_class c)).
Proof.
  intros [B1 B2 B3 B4 B5 [B6 B7]]. pose proof (unit_pos i) as Hu. unfold finish_class, HC_MAX_MEMBERS in *. split; [|exact B5].
  split; cbn [c_name c_mem c_size]; auto; rewrite align_up_8; set (e := (c_size c + 7) / 8) in *.
  - case_if; zbool; [nia|]. split; [lia|]. nia.
  - case_if; zbool; [reflexivity|]. rewrite Z.mul_comm. apply Z.mod_mul. lia.
Qed.
