(* ===== verification/HcFrontFileRun.v ===== *)
(** * The HolyC front end: declarations and simple statements keep their promise

    [enum], [class] and [union], variables, labels, assignments and calls; and with them every
    statement, whatever its nesting; then parameters, functions, globals and the file. *)

From S2P Require Import Prelude A64 A64Sem HcIr HcIrSem HcFront HcFrontPrim HcFrontOps HcFrontStmt HcFrontFile HcFrontCode HcFrontSpec HcFrontRun HcFrontStmtSpec HcFrontTables HcFrontStmtRun.
#[local] Open Scope Z_scope.

(** A class is added to the tables. *)
Lemma spost_add_class f0 W D B K b f c (Q : unit -> front -> Prop) : stmt_at f0 W D B K b f ->
  Z.of_nat (length (classes (tabs f))) < HC_MAX_CLASSES -> class_fits (length (classes (tabs f))) c -> Forall member_ok (c_mem c) ->
  (forall f', stmt_at f0 W D B K b f' -> f_p f' = f_p f -> classes (tabs f') = classes (tabs f) ++ [c] -> Q tt f') ->
  spost f0 Q (on_tabs (fun t => with_classes (classes t ++ [c]) t) f).
Proof.
  intros S Hl Hc Hm HQ. assert (Hty : forall k ty, type_ok k ty -> type_ok (k + 1) ty) by (intros k ty [->|]; [left; reflexivity | right; lia]).
  apply HQ; [|reflexivity | cbn; destruct (tabs f); reflexivity].
  pose proof S as [S0 (I1 & I2 & [L1 L2 L3 L4 L5 L6 L7]) [A1 A2 A3 A4 A5 A6 A7 A8 A9 A10 A11 A12 A13 A14 A15 A16] _ _ _ _ _ _ _].
  apply stmt_tabs; try (destruct (tabs f); reflexivity); [exact S | |]; destruct (tabs f); split; cbn in *; try assumption; rewrite ?length_app; cbn [length]; try lia.
  - apply Forall_app. split; [exact L7|]. apply Forall_singleton. split; [|exact Hm]. destruct Hc as [_ _ _ _ Hs _].
    unfold is_u, HC_MAX_CLASSES in *. change (2 ^ 64) with 18446744073709551616.
    assert (16 ^ Z.of_nat (length classes) <= 16 ^ 8) by (apply Z.pow_le_mono_r; lia). change (16 ^ 8) with 4294967296 in *. lia.
  - eapply Forall_impl; [|exact A3]. intros v. apply Hty.
  - intros i d Hd. apply lookup_app_Some in Hd as [Hd|[Hge Hd]]; [apply A5, Hd|].
    apply list_lookup_singleton_Some in Hd as [Hi <-]. replace i with (length classes) by lia. exact Hc.
Qed.

(** A part inside another. *)
Lemma part_call n m f0 f (Q : unit -> front -> Prop) : part n m -> stmt_at f0 [] [] (brk_tgt (tabs f0)) (cont_tgt (tabs f0)) 0 f -> (length (f_p f) < n)%nat ->
  (forall f', part_done f0 f f' -> Q tt f') -> spost f0 Q (m f).
Proof. intros Hm S Hn HQ. eapply spost_mono; [|apply Hm; eassumption]. cbn. intros [] g. apply HQ. Qed.

(** A part that declares nothing. *)
Lemma expr_part n m : (forall k, parses k m 0 0) -> part n m.
Proof. intros Hm. part_enter. repeat sstep. sdone. Qed.

Section Decl.
Context (n : nat) (host_addr : String.string -> Z) (parse_prim parse_expr parse_stmt : P unit) (host_ok : forall s, is_u 64 (host_addr s)).
Context (HP : forall n, parses n parse_prim 0 1) (HE : forall n, parses n parse_expr 0 1) (HS : sparses n parse_stmt).

(** ** enum *)

Lemma post_parse_int f0 a b f (Q : Z -> front -> Prop) : at_depth f0 a b f ->
  (forall v g, at_depth f0 a b g -> tabs g = tabs f -> (length (f_p g) <= length (f_p f))%nat -> Q v g) -> post f0 Q (hcf_parse_int_lit f).
Proof using. intros A HQ. unfold hcf_parse_int_lit. eapply post_int_lit; [exact A | lia|]. intros v g A1 T1 L1 _. apply HQ; assumption. Qed.

Ltac dstep := first [match goal with
  | |- post _ _ (hcf_parse_int_lit _) => eapply post_parse_int; [eassumption|]; intros ? ? ? ? ?
  end | sstep].

(** A loop whose turns keep the state of the statement. *)
Ltac stmt_loop :=
  take_up;
  match goal with |- spost ?f0 _ (forever _ _ ?g) =>
    eapply (spost_forever f0 (fun _ h => stmt_at f0 [] [] (brk_tgt (tabs f0)) (cont_tgt (tabs f0)) 0 h /\ (length (f_p h) <= length (f_p g))%nat)); [|split; [stmt_here | lia]] end;
  match goal with S : stmt_at _ _ _ _ _ _ _ |- _ => clear S; intros ? ? [S ?] end; begin_expr.
Ltac turn_done := split; [split; [stmt_here | text_lia] | text_lia].

Lemma enum_part : part n stmt_enum.
Proof using.
  part_enter. unfold stmt_enum. repeat dstep; stmt_loop; unfold enum_turn; repeat dstep; cbn [fst snd]; try turn_done; repeat dstep; sdone.
Qed.

(** ** class *)

Lemma class_index t s : arrays_ok t -> 0 <= hcf_find_class t s -> exists c, classes t !! Z.to_nat (hcf_find_class t s) = Some c /\
  nth_class t (hcf_find_class t s) = c /\ hcf_find_class t s < Z.of_nat (length (classes t)).
Proof using.
  intros _ Hf. unfold hcf_find_class, nth_class in *. assert (Hr : forall l i, 0 <= i -> find_index (fun c => name_eq (c_name c) s) l i < i + Z.of_nat (length l)).
  { induction l as [|c l IH]; intros i Hi; cbn [find_index length]; [lia|]. case_if; [lia|]. specialize (IH (i + 1) ltac:(lia)). lia. }
  specialize (Hr (classes t) 0 ltac:(lia)). set (k := find_index _ _ _) in *.
  destruct (lookup_lt_is_Some_2 (classes t) (Z.to_nat k) ltac:(lia)) as [c Hc]. exists c. split; [exact Hc|]. split; [|lia].
  apply nth_lookup_Some with (d := mk_class [] [] 0) in Hc. exact Hc.
Qed.

Lemma class_type_ok t s : arrays_ok t -> 0 <= hcf_find_class t s ->
  mtype_ok (length (classes t)) (mk_mtype (c_size (nth_class t (hcf_find_class t s))) (hcf_find_class t s) false).
Proof using.
  intros A Hf. destruct (class_index t s A Hf) as (c & Hc & -> & Hlt). destruct (ao_class _ A _ _ Hc) as [_ _ _ _ Hs Hw].
  right. cbn [mt_type mt_stride]. split; [lia|]. split; [|exact Hw]. split; [lia|].
  assert (Hp : 16 ^ Z.of_nat (Z.to_nat (hcf_find_class t s)) * 16 <= 16 ^ Z.of_nat (length (classes t))).
  { replace (16 ^ Z.of_nat (Z.to_nat (hcf_find_class t s)) * 16) with (16 ^ (Z.of_nat (Z.to_nat (hcf_find_class t s)) + 1)) by (rewrite Z.pow_add_r by lia; reflexivity).
    apply Z.pow_le_mono_r; lia. }
  lia.
Qed.

(** The type of a member. *)
Lemma post_member_type f0 a b f (Q : member_type -> front -> Prop) : arrays_ok (tabs f) -> at_depth f0 a b f ->
  (forall mt g, at_depth f0 a b g -> tabs g = tabs f -> (length (f_p g) <= length (f_p f))%nat -> mtype_ok (length (classes (tabs f))) mt -> Q mt g) ->
  post f0 Q (class_member_type f).
Proof using.
  intros Ha A HQ. unfold class_member_type. repeat sstep; (apply HQ; [assumption | congruence | text_lia |]);
    try (left; split; [reflexivity | cbn; auto]).
  match goal with |- context [nth_class (tabs ?g)] => assert (Et : tabs g = tabs f) by congruence end. rewrite Et in *. zbool. apply class_type_ok; assumption.
Qed.

Lemma post_members f0 i is_union mt f c (Q : hc_class -> front -> Prop) : mtype_ok i mt -> Z.of_nat i <= 7 -> at_depth f0 0 0 f -> building i c ->
  (forall c' g, at_depth f0 0 0 g -> (length (f_p g) < length (f_p f))%nat -> building i c' -> Q c' g) -> post f0 Q (forever (member_turn is_union mt) c f).
Proof using.
  intros Hmt Hi A Hb HQ.
  eapply (post_forever f0 (fun c' g => at_depth f0 0 0 g /\ building i c' /\ (length (f_p g) <= length (f_p f))%nat)); [|split; [exact A | split; [exact Hb | lia]]].
  clear A Hb c. intros c g (A & Hb & Hl). unfold member_turn. repeat sstep; cbn [fst snd].
  all: repeat match goal with E : _ || _ = false |- _ => apply orb_false_iff in E as [? E] end; zbool.
  all: assert (Hb' : building i (add_member is_union mt s c)) by (apply add_member_ok; auto; unfold short; lia).
  - split; [split; [assumption | split; [exact Hb' | text_lia]] | text_lia].
  - apply HQ; [assumption | text_lia | exact Hb'].
Qed.

Lemma at_arrays f0 a b g : arrays_ok (tabs f0) -> at_depth f0 a b g -> arrays_ok (tabs g) /\ classes (tabs g) = classes (tabs f0).
Proof using. intros Ha A. split; [|eapply at_classes, A]. destruct A as [(_ & (_ & E) & _) _]. eapply arrays_ext; eassumption. Qed.

Lemma post_class_body f0 is_union f c (Q : hc_class -> front -> Prop) : arrays_ok (tabs f0) -> Z.of_nat (length (classes (tabs f0))) < HC_MAX_CLASSES ->
  at_depth f0 0 0 f -> building (length (classes (tabs f0))) c ->
  (forall c' g, at_depth f0 0 0 g -> (length (f_p g) < length (f_p f))%nat -> building (length (classes (tabs f0))) c' -> Q c' g) ->
  post f0 Q (forever (class_turn is_union) c f).
Proof using.
  intros Ha Hi A Hb HQ. unfold HC_MAX_CLASSES in Hi. set (i := length (classes (tabs f0))) in *.
  eapply (post_forever f0 (fun c' g => at_depth f0 0 0 g /\ building i c' /\ (length (f_p g) <= length (f_p f))%nat)); [|split; [exact A | split; [exact Hb | lia]]].
  clear A Hb c. intros c g (A & Hb & Hl). unfold class_turn. repeat sstep; cbn [fst snd]; [apply HQ; [assumption | text_lia | exact Hb]|].
  match goal with A1 : at_depth f0 0 0 ?h |- post f0 _ (class_member_type ?h) => destruct (at_arrays _ _ _ _ Ha A1) as [Ha1 Ec1];
    eapply post_member_type; [exact Ha1 | exact A1|] end.
  intros mt h Ah Th Lh Hmt. rewrite Ec1 in Hmt. fold i in Hmt. repeat sstep.
  eapply post_members; [exact Hmt | lia | eassumption | exact Hb|]. intros c' h2 A2 L2 B2. repeat sstep. cbn [fst snd].
  split; [split; [exact A2 | split; [exact B2 | text_lia]] | text_lia].
Qed.

Lemma spost_instances f0 ci words f (Q : unit -> front -> Prop) : stmt_at f0 [] [] (brk_tgt (tabs f0)) (cont_tgt (tabs f0)) 0 f ->
  type_ok (length (classes (tabs f))) (u8 ci) -> (forall g, part_done f0 f g -> Q tt g) -> spost f0 Q (forever (instance_turn ci words) tt f).
Proof using.
  intros S Ht HQ. set (k := length (classes (tabs f))) in *.
  eapply (spost_forever f0 (fun _ h => stmt_at f0 [] [] (brk_tgt (tabs f0)) (cont_tgt (tabs f0)) 0 h /\ (length (f_p h) <= length (f_p f))%nat /\ length (classes (tabs h)) = k));
    [|split; [exact S | split; [lia | reflexivity]]].
  clear S. intros u h (S & Hl & Hk). begin_expr. unfold instance_turn. repeat sstep. take_up.
  match goal with |- spost _ _ (on_tabs _ ?g) => assert (Eg : classes (tabs g) = classes (tabs h)) by congruence end.
  eapply spost_retype; [eassumption | rewrite Eg, Hk; exact Ht|]. clear S. intros g S E1 E2. begin_expr. repeat sstep; cbn [fst snd].
  - match goal with A1 : at_depth g 0 0 ?r |- _ => pose proof (at_classes _ _ _ _ A1) as E3 end.
    split; [split; [stmt_here | split; [text_lia | rewrite E3, E2, Eg; exact Hk]] | text_lia].
  - apply HQ. sdone.
Qed.

Lemma class_part is_union : part n (stmt_class is_union).
Proof using.
  part_enter. unfold stmt_class. do 15 sstep; [repeat sstep|]. match goal with E : _ || _ = false |- _ => apply orb_false_iff in E as [Es _] end. zbool.
  pose proof (sa_arrays _ _ _ _ _ _ _ S) as Ha. do 4 sstep. apply (spost_lift _ _ _ _ _ _ _ S).
  eapply post_class_body; [exact Ha | assumption | eassumption | apply building_empty; unfold short; lia|].
  intros c g Ag Lg Hb. destruct (finish_class_ok _ _ Hb) as [Hc Hm]. destruct (at_arrays _ _ _ _ Ha Ag) as [_ Eg]. rewrite <- Eg in Hc.
  repeat sstep. take_up. eapply spost_add_class; [eassumption | congruence | exact Hc | exact Hm|]. clear S. intros h S E1 E2. begin_expr.
  repeat sstep; try sdone. take_up.
  match goal with |- spost _ _ (forever _ _ ?k) => assert (Ek : length (classes (tabs k)) = (length (classes (tabs f)) + 1)%nat)
    by (replace (classes (tabs k)) with (classes (tabs f) ++ [finish_class c]) by congruence; rewrite length_app; reflexivity) end.
  apply spost_instances; [stmt_here | apply type_index; unfold HC_MAX_CLASSES in *; lia|]. intros k [Sk Lk]. split; [exact Sk | text_lia].
Qed.

(** ** Variables *)

Lemma star_part : part n (stmt_star parse_prim parse_expr).
Proof using HP HE.
  apply expr_part. intros m. enter. unfold stmt_star. repeat pstep; pdone.
Qed.

Lemma decl_part stride is_f64 : part n (stmt_decl parse_expr stride is_f64).
Proof using HE.
  assert (Hb : forall m id, parses m (hcf_parse_brace_init parse_expr id) 0 0) by (intros; apply brace_init_parses; auto).
  part_enter. unfold stmt_decl. sstep. stmt_loop. unfold decl_turn, array_size, decl_init. repeat sstep; cbn [fst snd]; try turn_done; repeat sstep; sdone.
Qed.

Lemma decl_class_part ci : part n (stmt_decl_class parse_expr ci).
Proof using HE. part_enter. unfold stmt_decl_class. repeat sstep; sdone. Qed.

(** ** Names *)

Lemma stmt_expr_parses m : parses m (stmt_expr parse_expr) 0 0.
Proof using HE. enter. unfold stmt_expr. parser. Qed.

Lemma stmt_fs_parses m : parses m (stmt_fs host_addr parse_expr) 0 0.
Proof using HE host_ok.
  enter. unfold stmt_fs. repeat pstep. destruct (fs_addr s) as [g|]; repeat pstep. apply post_at_assign. intros eq Heq.
  repeat pstep; [|apply host_ok|pdone]. intros HN. destruct eq; [|discriminate]. apply Heq in HN; [exact HN | reflexivity].
Qed.

Lemma ident_shorter l : hcf_ident_start (nth 0 l 0) = true -> (length (snd (span hcf_ident_char l)) < length l)%nat.
Proof using.
  destruct l as [|c l]; [discriminate|]. cbn [nth span]. intros Hc. unfold hcf_ident_char at 1. rewrite Hc. cbn [orb].
  pose proof (span_le hcf_ident_char l). destruct (span hcf_ident_char l). cbn in *. lia.
Qed.

Lemma ident_eats : eats n (stmt_ident host_addr parse_expr) hcf_ident_start.
Proof using HE host_ok.
  pose proof (fun m => stmt_var_parses m parse_expr (HE m)). pose proof stmt_fs_parses.
  intros f0 f S Hn Hc. begin_expr. pose proof (ident_shorter _ Hc). unfold stmt_ident, stmt_expr.
  repeat lazymatch goal with |- spost _ _ (stmt_decl_class _ _ _) => fail | |- _ => sstep end; try sdone; take_up.
  - eapply (fun f0 W D B K b f S => spost_label f0 W D B K b f S _ []); [eassumption | lia | right; assumption | intros x [] | intros x [] |].
    clear S. intros g S Eg Tg. begin_expr. sdone.
  - eapply part_call; [apply decl_class_part | stmt_here | text_lia|]. intros g [Sg Lg]. split; [exact Sg | text_lia].
Qed.
End Decl.

(** ** Statements *)

Section Statement.
Context (n : nat) (host_addr : String.string -> Z) (parse_prim parse_expr parse_stmt : P unit) (host_ok : forall s, is_u 64 (host_addr s)).
Context (HP : forall n, parses n parse_prim 0 1) (HE : forall n, parses n parse_expr 0 1) (HS : sparses n parse_stmt).

Lemma post_decl_type f0 a b f (Q : option (Z * bool) -> front -> Prop) : at_depth f0 a b f ->
  (forall d g, at_depth f0 a b g -> tabs g = tabs f -> (length (f_p g) <= length (f_p f))%nat -> (d <> None -> (length (f_p g) < length (f_p f))%nat) -> Q d g) ->
  post f0 Q (decl_type f).
Proof using.
  intros A HQ. unfold decl_type. repeat sstep; try match goal with |- Q (if ?r then _ else _) _ => destruct r end;
    (apply HQ; [assumption | congruence | text_lia | intros Hd; try congruence; repeat match goal with X : true = true -> _ |- _ => specialize (X eq_refl) end; text_lia]).
Qed.

Lemma simple_eats m : eats m (stmt_simple host_addr parse_prim parse_expr) (fun _ => true).
Proof using HP HE host_ok.
  intros f0 f S Hn _. begin_expr. unfold stmt_simple. do 4 sstep.
  - do 3 sstep. take_up. eapply part_call; [apply (star_part m); assumption | stmt_here | text_lia|]. intros g [Sg Lg]. split; [exact Sg | text_lia].
  - sstep. apply (spost_lift _ _ _ _ _ _ _ S). eapply post_decl_type; [eassumption|]. intros d g Ag Tg Lg Cg. destruct d as [[stride is_f64]|].
    + specialize (Cg ltac:(discriminate)). take_up. eapply part_call; [apply (decl_part m); assumption | stmt_here | text_lia|].
      intros h [Sh Lh]. split; [exact Sh | text_lia].
    + do 4 sstep; [|repeat sstep]. take_up.
      eapply spost_mono; [|apply (ident_eats m host_addr parse_expr); [assumption | assumption | stmt_here | text_lia | assumption]].
      intros [] h [Sh Lh]. split; [exact Sh | text_lia].
Qed.

Lemma keywords_nonempty : Forall (fun k => nonempty (fst k)) (keywords parse_prim parse_expr parse_stmt).
Proof using. unfold keywords. repeat constructor; vm_compute; discriminate. Qed.

(** The statement behind each keyword; behind [try] and [catch], any statement. *)
Lemma keyword_parts : Forall (fun k => part n (snd k)) (keywords parse_prim parse_expr parse_stmt).
Proof using HP HE HS.
  assert (Hs : part n parse_stmt) by (intros f0 f S Hn; eapply spost_call; [exact HS | exact S | exact Hn |]; intros g Sg Lg; split; [exact Sg | lia]).
  unfold keywords. repeat (apply List.Forall_cons; [cbn [snd]|]); try apply List.Forall_nil; auto.
  all: first [apply return_part | apply if_part | apply while_part | apply do_part | apply for_part | apply switch_part | apply goto_part |
    apply jump_out_part | apply enum_part | apply class_part]; auto.
Qed.

Lemma by_keyword_eats l : Forall (fun k => nonempty (fst k)) l -> Forall (fun k => part n (snd k)) l -> eats (S n) (by_keyword host_addr parse_prim parse_expr l) (fun _ => true).
Proof using HP HE host_ok.
  induction l as [|[ks m] l IH]; intros Hk Hm; [apply simple_eats|]. inversion Hk; inversion Hm; subst. cbn [fst snd] in *.
  intros f0 f S Hn _. begin_expr. cbn [by_keyword]. sstep. apply (spost_lift _ _ _ _ _ _ _ S). eapply post_any_kw; [assumption | eassumption|].
  intros r g Ag Tg Lg Cg. take_up. destruct r.
  - specialize (Cg eq_refl). eapply part_call; [eassumption | stmt_here | text_lia|]. intros h [Sh Lh]. split; [exact Sh | text_lia].
  - eapply spost_mono; [|apply IH; [assumption.. | stmt_here | text_lia | reflexivity]]. intros [] h [Sh Lh]. split; [exact Sh | text_lia].
Qed.

Lemma body_parses : sparses (S n) (stmt_body host_addr parse_prim parse_expr parse_stmt).
Proof using HP HE HS host_ok.
  intros f0 Hi Ha Hn. pose proof (stmt_start f0 Hi Ha) as S. begin_expr. unfold stmt_body. do 7 sstep.
  - take_up. eapply spost_mono; [|apply (block_eats n parse_stmt HS); [stmt_here | text_lia | reflexivity]].
    intros [] h [Sh Lh]. split; [exact Sh | text_lia].
  - sstep. apply (spost_lift _ _ _ _ _ _ _ S).
    match goal with A : at_depth _ _ _ ?g |- post _ _ (forever _ _ ?g) =>
      eapply (post_forever f0 (fun _ h => at_depth f0 0 0 h /\ (length (f_p h) <= length (f_p g))%nat)); [|split; [exact A | lia]] end.
    intros u h [Ah Lh]. unfold qualifier_turn. repeat sstep. cbn [fst snd]. destruct r; [split; [split; [assumption | text_lia] | auto]|].
    take_up. eapply spost_mono; [|apply by_keyword_eats; [apply keywords_nonempty | apply keyword_parts | stmt_here | text_lia | reflexivity]].
    intros [] k [Sk Lk]. split; [exact Sk | text_lia].
Qed.
End Statement.

(** ** The HolyC front end: functions and files keep their promise

    The recursion of statements is tied, and with every statement, whatever its nesting, functions,
    file-scope variables and whole files keep the bounds, and their code the flow of control. *)

(** ** Packed code with an end *)

Lemma parse_loop_then prog rest k : forallb packable prog = true ->
  parse_loop (length prog + k) (concat (map pack_insn prog) ++ rest) = option_map (app prog) (parse_loop k rest).
Proof.
  induction prog as [|i prog IH]; intros Hp; cbn [length map concat app Nat.add]; [destruct (parse_loop k rest); reflexivity|].
  cbn [forallb] in Hp. apply andb_true_iff in Hp as [Hi Hp]. rewrite <- app_assoc.
  destruct (pack_insn_parse i (concat (map pack_insn prog) ++ rest) Hi) as (bc & -> & E). cbn [parse_loop]. rewrite hc_opcode_code, E, (IH Hp).
  unfold packable in Hi. destruct (h_op i) eqn:Eop; try (destruct (parse_loop k rest); reflexivity). cbn in Hi. rewrite andb_false_r in Hi. discriminate.
Qed.

Lemma packed_length prog : forallb packable prog = true -> (length prog <= length (concat (map pack_insn prog)))%nat.
Proof.
  induction prog as [|i prog IH]; intros Hp; [cbn; lia|]. cbn [forallb] in Hp. apply andb_true_iff in Hp as [Hi Hp]. specialize (IH Hp).
  destruct (pack_insn_parse i [] Hi) as (bc & E & _). rewrite app_nil_r in E. cbn [map concat length]. rewrite length_app, E. cbn [length]. lia.
Qed.

Lemma parse_packed_end prog : forallb packable prog = true -> hc_parse (concat (map pack_insn prog) ++ [hc_code HC_END]) = Some prog.
Proof.
  intros Hp. unfold hc_parse. pose proof (packed_length prog Hp). rewrite length_app. cbn [length].
  replace (_ + 1)%nat with (length prog + S (length (concat (map pack_insn prog)) - length prog))%nat by lia.
  rewrite (parse_loop_then prog _ _ Hp). cbn [parse_loop]. rewrite hc_opcode_code. cbn. rewrite app_nil_r. reflexivity.
Qed.

(** ** The recursion of statements *)

Section Knot.
Context (host_addr : String.string -> Z) (g_hc_mem : Z) (host_ok : forall s, is_u 64 (host_addr s)).

Lemma file_prim_parses n : parses n (parse_prim host_addr g_hc_mem) 0 1.
Proof using host_ok.
  intros f Hi _. unfold parse_prim. destruct (parsers_parse host_addr g_hc_mem host_ok (2 * length (f_p f) + 5) (S (length (f_p f)))) as [H _].
  apply H; [lia | exact Hi | lia].
Qed.

Lemma stmts_parse fuel : sparses fuel (stmts host_addr g_hc_mem fuel).
Proof using host_ok.
  induction fuel as [|fuel IH]; [intros f _ _ Hn; lia|]. cbn [stmts].
  apply body_parses; [exact host_ok | apply file_prim_parses | intros; apply hcf_parse_expr_parses, host_ok | exact IH].
Qed.

Lemma hcf_parse_stmt_parses n : sparses n (hcf_parse_stmt host_addr g_hc_mem).
Proof using host_ok. intros f Hi Ha _. apply stmts_parse; [assumption.. | lia]. Qed.
End Knot.

(** ** Parameters *)

Section Params.
Context (f0 : front).

Lemma stmt_text W D B K b f p : stmt_at f0 W D B K b f -> (length p <= length (f_p f0))%nat -> stmt_at f0 W D B K b (set_p p f).
Proof using. intros [S0 S1 S2 S3 S4 S5 S7 S8 S9 S10] Hp. split; auto. Qed.

Lemma spost_inarg W D B K f slot i (Q : unit -> front -> Prop) : stmt_at f0 W D B K 0 f -> 0 <= slot < 256 -> 0 <= i <= 6 ->
  (forall f', stmt_at f0 W D B K 0 f' -> f_p f' = f_p f -> Q tt f') -> spost f0 Q (hcf_emit_u8u8 HC_INARG slot i f).
Proof using.
  intros S Hs Hi HQ. apply (spost_lift f0 W D B K 0 f S), post_emit_bytes; [apply safe_refl, S | cbn; lia|]. intros g Sg Eb Ep Et _.
  rewrite !u8_id in Eb by lia. apply HQ; [|exact Ep]. replace 0 with (0 - 0 + 0) by lia. eapply stmt_commit; [exact S | | lia].
  eapply (at_emitted f 0 0 f g (mk_h HC_INARG slot i) 0); [apply at_start, S | exact Sg | exact Eb | exact Et | reflexivity | | reflexivity].
  unfold insn_ok, packable, operand_ok. cbn [operands_of h_op h_a h_b]. zgoal.
Qed.

Lemma stmt_base W D B K b f id : stmt_at f0 W D B K b f -> 0 <= v_base (nth_var (tabs f) id) < 256.
Proof using. intros S. destruct (nth_var_ok (tabs f) id (proj2 (proj2 (sa_inv _ _ _ _ _ _ _ S)))) as [Hb _ _]. exact Hb. Qed.

Lemma post_param_type a b f (Q : param_type -> front -> Prop) : at_depth f0 a b f ->
  (forall pt g, at_depth f0 a b g -> tabs g = tabs f -> (length (f_p g) <= length (f_p f))%nat -> Q pt g) -> post f0 Q (parse_param_type f).
Proof using. intros A HQ. unfold parse_param_type. repeat sstep; (apply HQ; [assumption | congruence | text_lia]). Qed.

Lemma post_param_star a b f pt (Q : param_type -> front -> Prop) : at_depth f0 a b f ->
  (forall pt g, at_depth f0 a b g -> tabs g = tabs f -> (length (f_p g) <= length (f_p f))%nat -> Q pt g) -> post f0 Q (param_star pt f).
Proof using. intros A HQ. unfold param_star. repeat sstep; (apply HQ; [assumption | congruence | text_lia]). Qed.

Lemma post_param_name a b f i (Q : list Z -> front -> Prop) : at_depth f0 a b f ->
  (forall s g, at_depth f0 a b g -> tabs g = tabs f -> (length (f_p g) <= length (f_p f))%nat -> Q s g) -> post f0 Q (param_name i f).
Proof using. intros A HQ. unfold param_name. repeat sstep; (apply HQ; [assumption | congruence | text_lia]). Qed.
End Params.

(** [fstep]: an action of a statement, of a parameter or of a declaration at file scope. *)
Ltac fstep :=
  lazymatch goal with
  | S : stmt_at _ _ _ _ _ _ _ |- spost _ _ (hcf_emit_u8u8 HC_INARG _ _ _) =>
      take_up; eapply spost_inarg; [stmt_here | eapply stmt_base; eassumption | lia |]; clear S; intros ? S ?; begin_expr
  | |- post _ _ (parse_param_type _) => eapply post_param_type; [eassumption|]; intros ? ? ? ? ?
  | |- post _ _ (param_star _ _) => eapply post_param_star; [eassumption|]; intros ? ? ? ? ?
  | |- post _ _ (param_name _ _) => eapply post_param_name; [eassumption|]; intros ? ? ? ? ?
  | |- post _ _ (hcf_parse_int_lit _) => eapply post_parse_int; [eassumption|]; intros ? ? ? ? ?
  | |- spost _ _ (var _ _) => cbn [spost var tget pget id]
  | |- _ => sstep
  end.

Lemma spost_params f0 f (Q : Z -> front -> Prop) : stmt_at f0 [] [] (brk_tgt (tabs f0)) (cont_tgt (tabs f0)) 0 f ->
  (forall nargs g, part_done f0 f g -> 0 <= nargs <= 7 -> Q nargs g) -> spost f0 Q (params f).
Proof.
  intros S HQ. begin_expr. unfold params. repeat fstep; [|apply HQ; [sdone | lia]]. take_up.
  match goal with |- spost _ _ (forever _ _ ?g) => assert (Sg : part_done f0 f g) by sdone end.
  eapply (spost_forever f0 (fun nargs h => part_done f0 f h /\ 0 <= nargs <= 7)); [|split; [exact Sg | lia]].
  clear - HQ. intros nargs g ((S & Lg) & Hn). begin_expr. unfold param_turn. repeat fstep; cbn [fst snd]; zbool.
  all: lazymatch goal with |- _ (_ + 1) _ => apply HQ; [sdone | lia] | |- _ => split; [split; [sdone | lia] | text_lia] end.
Qed.

(** ** Functions *)

Lemma filter_all {A} (R T : A -> Prop) `{!forall x, Decision (T x)} l : Forall R l -> Forall R (filter T l).
Proof. rewrite !list.Forall_forall. intros Hl x Hx. apply list_elem_of_filter in Hx as [_ Hx]. apply Hl, Hx. Qed.

(** Whole code: the frame's size is filled in, and the end is marked. *)
Lemma framed_code g0 f m : stmt_at g0 [] [] [] [] 0 f -> next_label (tabs g0) = 0 -> outer g0 = [] -> f_bc g0 = [hc_code HC_ENTER; 0] -> 0 <= m <= 255 ->
  framed (<[1%nat := u8 m]> (f_bc f) ++ [hc_code HC_END]).
Proof.
  intros S Hl Ho Eb Hm. destruct (sa_code _ _ _ _ _ _ _ S) as (cs & W & F & _). unfold wrote in W. rewrite Eb in W. rewrite Hl, Ho in F.
  exists m, (next_label (tabs f)), (goto_ids (tabs f)), cs. split; [|split; [lia | exact F]].
  rewrite W, u8_id by lia. change (hc_parse (concat (map pack_insn (mk_h HC_ENTER m 0 :: cs)) ++ [hc_code HC_END]) = Some (mk_h HC_ENTER m 0 :: cs)).
  apply parse_packed_end. cbn [forallb]. rewrite (fl_packable _ _ _ _ _ _ _ F). reflexivity.
Qed.

Lemma enter_inv f : inv f -> inv (enter_function f).
Proof.
  intros (_ & _ & [T1 T2 T3 T4 T5 T6 T7]). split; [cbn; lia|]. split; [cbn; lia|]. unfold enter_function. destruct (tabs f).
  split; cbn in *; try assumption; try (unfold HC_IR_MAX_LABELS, HC_IR_MEM_WORDS; lia). apply filter_all, T5.
Qed.

Lemma enter_arrays f : arrays_ok (tabs f) -> arrays_ok (tabs (enter_function f)).
Proof.
  intros [A1 A2 A3 A4 A5 A6 A7 A8 A9 A10 A11 A12 A13 A14 A15 A16]. unfold enter_function. destruct (tabs f).
  split; cbn in *; try assumption; try apply filter_all; try assumption; try constructor; try (unfold HC_IR_MAX_LABELS, HC_MAX_LOOPS; lia).
  pose proof (length_filter (fun v => v_is_global v = true) vars). lia.
Qed.

(** What a run of [function_body] promises. *)
Definition function_ok (f : front) (r : result Z * front) : Prop :=
  match r with
  | (Done nargs, g) => 0 <= nargs <= 7 /\ framed (f_bc g) /\ Z.of_nat (length (f_bc g)) <= 8192 /\ (length (f_p g) < length (f_p f))%nat /\
      0 <= str_top (tabs g) <= HC_IR_MEM_WORDS /\ Forall str_ok (strs (tabs g))
  | (Bad, _) => True
  | (Wild, g) => overrun g
  | (NoFuel, _) => False
  end.

Section Functions.
Context (host_addr : String.string -> Z) (g_hc_mem : Z) (host_ok : forall s, is_u 64 (host_addr s)).

Lemma function_body_ok f : inv f -> arrays_ok (tabs f) -> function_ok f (function_body host_addr g_hc_mem (enter_function f)).
Proof using host_ok.
  intros Hi Ha. set (g0 := set_out [hc_code HC_ENTER; 0] (enter_function f)).
  assert (S : stmt_at g0 [] [] (brk_tgt (tabs g0)) (cont_tgt (tabs g0)) 0 g0).
  { apply stmt_start; [|apply enter_arrays, Ha]. destruct (enter_inv f Hi) as (I1 & I2 & I3). split; [exact I1|]. split; [cbn; lia | exact I3]. }
  change (function_body host_addr g_hc_mem (enter_function f)) with
    ((let* nargs := params in hcf_expect 41 ;;; hcf_parse_block (hcf_parse_stmt host_addr g_hc_mem) ;;;
      let* e := pget f_err in
      if e : bool then bad else
      let* m := tget mem_used in
      if 255 <? m then bad else patch_frame ;;; store_end ;;; pret nargs)%front g0).
  assert (H : forall r, spost g0 (fun nargs g => function_ok f (Done nargs, g)) r -> function_ok f r) by (intros [[]]; cbn; auto).
  apply H. clear H. apply spost_bind. apply (spost_params g0 g0); [exact S|]. clear S. intros nargs g [S Lg] Hn. begin_expr.
  repeat lazymatch goal with |- spost _ _ (hcf_parse_block _ _) => fail | |- _ => fstep end. take_up.
  eapply spost_mono; [|apply (block_eats (length (f_p f')) _ (hcf_parse_stmt_parses host_addr g_hc_mem host_ok _)); [stmt_here | lia | reflexivity]].
  cbn beta. clear S. intros [] h [S Lh]. begin_expr.
  repeat lazymatch goal with |- spost _ _ (patch_frame _) => fail | |- _ => fstep end. cbn [spost patch_frame pbind tget pget pmod store_end raw pret]. zbool.
  pose proof S as [_ (I1 & I2 & [_ Im Is Iss _ _ _]) _ Ec _ _ _ _ _ _]. cbn [set_out f_cap] in Ec. change (f_cap g0) with 8192 in Ec.
  assert (Fr : framed (<[1%nat := u8 (mem_used (tabs h))]> (f_bc h) ++ [hc_code HC_END])) by (eapply framed_code; [exact S | reflexivity.. | lia]).
  apply spost_bind. unfold store_end. cbn [set_out f_bc f_cap] in *. set (bc := <[1%nat := _]> (f_bc h)) in *.
  assert (Hl : length bc = length (f_bc h)) by apply length_insert. case_if; cbn [spost function_ok raw pmod pret]; zbool.
  { unfold overrun. cbn [set_out f_bc f_cap]. split; [exact Ec|]. split; [lia | exact Fr]. }
  split; [exact Hn|]. split; [|split; [|split; [|split; [exact Is | exact Iss]]]].
  - exact Fr.
  - cbn [set_out f_bc]. rewrite length_app. cbn [length]. lia.
  - cbn [set_out f_p]. change (f_p g0) with (f_p f) in Lg. text_lia.
Qed.

Context (fn_code_at : Z -> Z) (jit_into : option (list Z -> Z + list Z)) (codes_ok : forall i, is_u 64 (fn_code_at i)).

Lemma stmt_leave f0 W D B K f name nargs words fb : stmt_at f0 W D B K 0 f -> short 22 name -> Z.of_nat (length (fns (tabs f))) < HC_MAX_FNS ->
  function_ok f (Done nargs, fb) -> stmt_at f0 W D B K 0 (leave_function fn_code_at name nargs words fb f).
Proof using codes_ok.
  intros S Hname Hroom (Hn & Hc & Hb & Hp & Hs & Hss). unfold leave_function. set (t := with_fns _ _).
  change (set_tabs t (set_p (f_p fb) f)) with (set_p (f_p fb) (set_tabs t f)). apply stmt_text; [|pose proof (sa_len _ _ _ _ _ _ _ S); lia].
  pose proof S as [S0 (I1 & I2 & [L1 L2 L3 L4 L5 L6 L7]) [A1 A2 A3 A4 A5 A6 A7 A8 A9 A10 A11 A12 A13 A14 A15 A16] _ _ _ _ _ _ _].
  apply stmt_tabs; subst t; try (destruct (tabs f); reflexivity); [exact S | |]; destruct (tabs f); split; cbn in *; try assumption.
  - apply Forall_app. split; [assumption|]. apply Forall_singleton, codes_ok.
  - rewrite length_app. cbn. lia.
  - apply Forall_app. split; [assumption|]. apply Forall_singleton. split; assumption.
Qed.

Lemma spost_define f0 W D B K f name (Q : unit -> front -> Prop) : stmt_at f0 W D B K 0 f ->
  (forall g, stmt_at f0 W D B K 0 g -> (length (f_p g) < length (f_p f))%nat -> Q tt g) ->
  spost f0 Q (define_function host_addr g_hc_mem fn_code_at jit_into name f).
Proof using host_ok codes_ok.
  intros S HQ. assert (Hbad : spost f0 Q (bad f)) by (split; [apply S | apply (sa_cap _ _ _ _ _ _ _ S)]).
  unfold define_function. destruct jit_into as [jit|]; [|exact Hbad]. destruct (_ || _) eqn:E; [exact Hbad|]. apply orb_false_iff in E as [E1 E2]. zbool.
  set (f1 := set_p (drop 1 (f_p f)) f). pose proof (function_body_ok f1 (sa_inv _ _ _ _ _ _ _ S) (sa_arrays _ _ _ _ _ _ _ S)) as H.
  destruct (function_body _ _ _) as [[nargs| | |] fb]; [|exact Hbad | exact H..]. destruct (jit (f_bc fb)) as [z|words]; [exact Hbad|].
  assert (Hf : function_ok f (Done nargs, fb)).
  { destruct H as (H1 & H2 & H3 & H4 & H5). subst f1. cbn [set_p f_p] in H4. rewrite length_drop in H4. split; [exact H1|]. split; [exact H2|]. split; [exact H3|]. split; [lia | exact H5]. }
  cbn [spost]. apply HQ; [apply stmt_leave; [exact S | unfold short; lia | lia | exact Hf] | apply Hf].
Qed.
End Functions.

(** ** File scope *)

Section Files.
Context (host_addr : String.string -> Z) (g_hc_mem : Z) (host_ok : forall s, is_u 64 (host_addr s)).
Context (fn_code_at : Z -> Z) (jit_into : option (list Z -> Z + list Z)) (codes_ok : forall i, is_u 64 (fn_code_at i)).

Lemma post_file_type f0 a b f (Q : option file_type -> front -> Prop) : at_depth f0 a b f ->
  (forall d g, at_depth f0 a b g -> tabs g = tabs f -> (length (f_p g) <= length (f_p f))%nat -> Q d g) -> post f0 Q (parse_file_type f).
Proof using. intros A HQ. unfold parse_file_type. repeat sstep; (apply HQ; [assumption | congruence | text_lia]). Qed.

Lemma global_init_parses m gid nelem : parses m (global_init host_addr g_hc_mem gid nelem) 0 0.
Proof using host_ok.
  assert (HE : forall n, parses n (hcf_parse_expr host_addr g_hc_mem) 0 1) by (intros; apply hcf_parse_expr_parses, host_ok).
  enter. unfold global_init. parser.
Qed.

Lemma spost_globals ft f0 s f (Q : list Z -> front -> Prop) : stmt_at f0 [] [] (brk_tgt (tabs f0)) (cont_tgt (tabs f0)) 0 f ->
  (forall s g, stmt_at f0 [] [] (brk_tgt (tabs f0)) (cont_tgt (tabs f0)) 0 g -> (length (f_p g) < length (f_p f))%nat -> Q s g) ->
  spost f0 Q (forever (global_turn host_addr g_hc_mem ft) s f).
Proof using host_ok.
  intros S HQ. pose proof (fun m => global_init_parses m).
  eapply (spost_forever f0 (fun _ h => part_done f0 f h)); [|split; [exact S | lia]].
  clear - HQ H. intros s g [S Lg]. begin_expr. unfold global_turn, global_size. repeat fstep; cbn [fst snd]; zbool.
  all: lazymatch goal with |- _ /\ _ => split; [sdone | text_lia] | |- _ => apply HQ; [stmt_here | text_lia] end.
Qed.

Definition file_at (f0 f : front) : Prop := stmt_at f0 [] [] (brk_tgt (tabs f0)) (cont_tgt (tabs f0)) 0 f.

Lemma file_stmt_turn f0 f k (Q : bool * unit -> front -> Prop) : file_at f0 f -> (length (f_p f) <= k)%nat ->
  (forall g, file_at f0 g -> (length (f_p g) < k)%nat -> Q (true, tt) g) -> spost f0 Q (file_stmt host_addr g_hc_mem f).
Proof using host_ok.
  intros S Hk HQ. pose proof (hcf_parse_stmt_parses host_addr g_hc_mem host_ok (Datatypes.S k)) as HS. unfold file_at in *. begin_expr. unfold file_stmt.
  repeat fstep. apply HQ; [stmt_here | text_lia].
Qed.

Lemma file_turn_at f0 f : file_at f0 f ->
  spost f0 (fun r g => file_at f0 g /\ ((fst r : bool) = true -> (length (f_p g) < length (f_p f))%nat))
    (file_turn host_addr g_hc_mem fn_code_at jit_into tt f).
Proof using host_ok codes_ok.
  intros S. unfold file_at in S. begin_expr. unfold file_turn.
  repeat lazymatch goal with
  | |- spost _ _ (file_stmt _ _ _) => fail
  | |- spost _ _ (define_function _ _ _ _ _ _) => fail
  | |- post _ _ (parse_file_type _) => eapply post_file_type; [eassumption|]; intros [ft|] ? ? ? ?
  | |- _ => fstep end.
  all: try (match goal with |- _ /\ _ => split; [unfold file_at; stmt_here | discriminate] end).
  all: try (take_up; eapply (file_stmt_turn f0 _ (length (f_p f))); [unfold file_at; stmt_here | text_lia | intros h Sh Lh; split; [exact Sh | intros _; exact Lh]]).
  - take_up. eapply spost_define; [assumption | assumption | stmt_here |]. intros h Sh Lh. split; [exact Sh | intros _; text_lia].
  - take_up. eapply spost_globals; [stmt_here|]. intros s' h Sh Lh. split; [exact Sh | intros _; text_lia].
Qed.

Lemma builtin_classes i c : [CDC; CMenuEntry] !! i = Some c -> class_fits i c.
Proof using.
  assert (Hn : forall m, mb_type m = HC_TYPE_NONE -> type_ok i (mb_type m)) by (intros m ->; left; reflexivity).
  destruct i as [|[|i]]; cbn; intros [= <-]; split; cbn [c_name c_mem c_size CDC CMenuEntry length];
    try (unfold short, HC_MAX_MEMBERS; cbn; lia); try reflexivity; repeat (constructor; [first [apply Hn; reflexivity | unfold short; cbn; lia]|]); try constructor.
  all: cbn; lia.
Qed.

Lemma compile_start_ok src cap : 0 <= cap -> inv (compile_start src cap) /\ arrays_ok (tabs (compile_start src cap)).
Proof using.
  intros Hc. assert (Hm : forall c, In c [CDC; CMenuEntry] -> Forall member_ok (c_mem c)).
  { intros c [<-|[<-|[]]]; cbn [c_mem CDC CMenuEntry]; repeat (constructor; [unfold member_ok, is_u; cbn [mb_off]; lia|]); constructor. }
  split; [split; [exact Hc|]; split; [cbn; lia|]|]; split; cbn [tabs compile_start next_label mem_used str_top strs vars fns classes enums glabs glob_used brk_tgt cont_tgt length goto_ids map app];
    unfold HC_IR_MAX_LABELS, HC_IR_MEM_WORDS, HC_MAX_ENUMS, HC_IR_MAX_NAMES, HC_IR_MAX_GLOBS, HC_MAX_LOOPS, HC_MAX_FNS, HC_MAX_CLASSES;
    try apply List.Forall_nil; try exact builtin_classes; try lia.
  apply List.Forall_forall. intros c Hin. split; [destruct Hin as [<-|[<-|[]]]; unfold is_u; cbn [c_size CDC CMenuEntry]; change (2 ^ 64) with 18446744073709551616; lia | apply Hm, Hin].
Qed.

(** What a run of [hc_front_compile_ex] promises. *)
Definition file_ok (cap : Z) (r : result Z * front) : Prop :=
  match r with
  | (Done n, f) => n = Z.of_nat (length (f_bc f)) /\ n <= cap /\ framed (f_bc f) /\ arrays_ok (tabs f)
  | (Bad, f) => Z.of_nat (length (f_bc f)) <= cap + 9
  | (Wild, f) => overrun f
  | (NoFuel, _) => False
  end.

Lemma compile_ok src cap : 0 <= cap -> file_ok cap (hc_front_compile_ex host_addr g_hc_mem fn_code_at jit_into src cap).
Proof using host_ok codes_ok.
  intros Hc. destruct (compile_start_ok src cap Hc) as [Hi Ha]. unfold hc_front_compile_ex, file_body, pbind at 1. unfold hcf_emit_u8, emit_bytes.
  set (f1 := compile_start src cap) in *. change (f_cap f1) with cap. change (f_bc f1) with (@nil Z). case_if; [cbn; lia|]. zbool.
  set (g0 := set_out ([] ++ [hc_code HC_ENTER; u8 0]) f1).
  assert (S : file_at g0 g0) by (apply stmt_start; [destruct Hi as (I1 & I2 & I3); split; [exact I1|]; split; [cbn; lia | exact I3] | exact Ha]).
  assert (H : forall r, spost g0 (fun n g => file_ok cap (Done n, g)) r -> file_ok cap r).
  { intros [[]]; cbn; auto. intros [(_ & I2 & _) Ec]. change (f_cap g0) with cap in Ec. lia. }
  apply H. clear H. apply spost_bind. eapply (spost_forever g0 (fun _ h => file_at g0 h)); [|exact S].
  clear S. intros [] h S. eapply spost_mono; [|apply file_turn_at, S]. cbn beta. clear S. intros [[] []] g [S Lg]; cbn [fst snd] in *; [split; auto|].
  apply spost_bind. cbn [spost tget pget]. case_if; [split; [apply S | apply (sa_cap _ _ _ _ _ _ _ S)]|]. zbool.
  pose proof S as [_ (I1 & I2 & I3) Ia Ec _ _ _ _ _ _]. change (f_cap g0) with cap in Ec. cbn [spost patch_frame pbind tget pget pmod].
  set (g1 := set_out _ g). change (f_cap g1) with (f_cap g). rewrite Ec. case_if; [split; [|exact Ec]|]; subst g1.
  - split; [exact I1|]. split; [cbn [set_out f_bc f_cap]; rewrite length_insert; lia | exact I3].
  - zbool. cbn [spost pbind pret raw pmod file_ok set_out f_bc tabs f_cap] in *. rewrite !length_app. cbn [length]. split; [lia|]. split; [lia|].
    split; [|exact Ia]. eapply framed_code; [exact S | reflexivity.. | split; [apply I3 | lia]].
Qed.
End Files.
