(* ===== verification/HcFrontFileThms.v ===== *)
(** * The HolyC front end: properties of whole files

    Whatever the text, the compiler of files ends, the tables of what it accepts are within their
    arrays, and what is accepted is code the stack-IR compiler can rely on; where the end marker of a
    function overruns its array, and where declarations, steps of loops and conditions are not what
    the code means. *)

From S2P Require Import Prelude A64 A64Sem HcIr HcIrSem HcFront HcFrontPrim HcFrontOps HcFrontStmt HcFrontFile HcFrontCode HcFrontSpec HcFrontThms HcFrontStmtSpec HcFrontFileRun.
#[local] Open Scope Z_scope.

(** ** From the flow of control to the stack discipline *)

(** No label is placed twice, and every jump goes to a label that is placed: what a text with a
    label of [goto] defined twice, or not at all, does not satisfy. *)
Definition resolved (cs : list hinsn) : bool :=
  bool_decide (NoDup (map fst (labels cs 0))) && forallb (fun j => bool_decide (fst j ∈ map fst (labels cs 0))) (jumps cs 0).

Lemma flow_typed m n0 n1 G cs : flow n0 n1 G [] [] cs 0 -> 0 <= m < 256 -> resolved cs = true -> within 7 cs 0 = true ->
  well_typed (mk_h HC_ENTER m 0 :: cs) = true.
Proof.
  intros [_ W J L _ _ _ _ O] Hm Hr Hw. apply andb_true_iff in Hr as [Hn Hj]. apply bool_decide_eq_true in Hn. rewrite forallb_forall in Hj.
  apply (framed_typed m cs 0 W); [| apply NoDup_ListNoDup, Hn | exact O | exact Hw | exact Hm].
  intros [id d] Hin. destruct (J id d Hin) as [X|(-> & [[]|[[]|HG]])]; [exact X|].
  specialize (Hj _ Hin). apply bool_decide_eq_true in Hj. cbn [fst] in Hj. apply list_elem_of_In in Hj. apply in_map_iff in Hj as ([i d] & E & Hl). cbn in E. subst i.
  destruct (L id d Hl) as [(_ & N & _)|[_ ->]]; [contradiction | exact Hl].
Qed.

(** *** Paths

    [reaches cs k d]: some path leads to instruction [k] with [d] values on the stack; a jump may go
    to any label with its number. *)
Inductive reaches (cs : list hinsn) : nat -> Z -> Prop :=
| rc_start : reaches cs 0%nat 0
| rc_next k d i d' : reaches cs k d -> cs !! k = Some i -> h_op i <> HC_JMP -> is_return i = false -> step_depth i d = Some d' -> reaches cs (S k) d'
| rc_jump k d i d' j l : reaches cs k d -> cs !! k = Some i -> is_jump (h_op i) = true -> step_depth i d = Some d' ->
    cs !! j = Some l -> h_op l = HC_LABEL -> h_a l = h_a i -> reaches cs j d'.

(** The instruction at [k] and what is in front of it. *)
Lemma depth_at cs k i d : cs !! k = Some i -> walk (take k cs) 0 = Some d -> forall d', step_depth i d = Some d' ->
  walk (take (S k) cs) 0 = Some d' /\ (is_jump (h_op i) = true -> In (h_a i, d') (jumps cs 0)).
Proof.
  intros Hi Hd d' Hs. split; [rewrite (take_S_r _ _ _ Hi), walk_app, Hd; cbn [walk]; rewrite Hs; reflexivity|]. intros Hj.
  rewrite <- (take_drop_middle cs k i Hi), (jumps_app _ _ _ _ Hd). apply in_or_app. right. cbn [jumps]. unfold after. rewrite Hj, Hs. left. reflexivity.
Qed.

Lemma label_at cs j l b : cs !! j = Some l -> h_op l = HC_LABEL -> walk cs 0 = Some b -> exists d, walk (take j cs) 0 = Some d /\ In (h_a l, d) (labels cs 0).
Proof.
  intros Hl Ho Hw. rewrite <- (take_drop_middle cs j l Hl), walk_app in Hw. destruct (walk (take j cs) 0) as [d|] eqn:E; [|discriminate]. exists d. split; [reflexivity|].
  rewrite <- (take_drop_middle cs j l Hl), (labels_app _ _ _ _ E). apply in_or_app. right. cbn [labels]. rewrite bool_decide_eq_true_2 by exact Ho. left. reflexivity.
Qed.

(** A jump and the labels with its number have the same depth: a label of a statement is placed once,
    and those of [goto] are jumped to and placed with an empty stack. *)
Lemma flow_joins n0 n1 G cs b id d d' : flow n0 n1 G [] [] cs b -> In (id, d) (jumps cs 0) -> In (id, d') (labels cs 0) -> d = d'.
Proof.
  intros [_ _ J L U _ _ _ _] Hj Hl. destruct (in_dec Z.eq_dec id G) as [HG|HG].
  - assert (Z0 : forall e, In (id, e) (labels cs 0) -> e = 0) by (intros e He; destruct (L _ _ He) as [(_ & N & _)|[_ ->]]; [contradiction | reflexivity]).
    rewrite (Z0 d' Hl). destruct (J _ _ Hj) as [X|[-> _]]; auto.
  - destruct (J _ _ Hj) as [X|(_ & [[]|[[]|X]])]; [|contradiction]. specialize (U id HG). revert X Hl U. unfold times. generalize (labels cs 0). intros D.
    induction D as [|[x e] D IH]; [intros []|]. cbn [map fst count_occ In]. intros H1 H2. destruct (Z.eq_dec x id) as [->|Nx].
    + intros U. assert (N : forall e', ~ In (id, e') D) by (intros e' He; apply (in_map fst) in He; apply (count_occ_In Z.eq_dec) in He; cbn [fst] in He; lia).
      destruct H1 as [[= <-]|H1]; [|contradiction (N _ H1)]. destruct H2 as [[= <-]|H2]; [reflexivity | contradiction (N _ H2)].
    + destruct H1 as [[= ? _]|H1]; [contradiction|]. destruct H2 as [[= ? _]|H2]; [contradiction|]. auto.
Qed.

Lemma flow_paths n0 n1 G cs b k d : flow n0 n1 G [] [] cs b -> reaches cs k d -> walk (take k cs) 0 = Some d.
Proof.
  intros F. induction 1 as [|k d i d' _ IH Hi _ _ Hs|k d i d' j l _ IH Hi Hj Hs Hl Ho Ha]; [reflexivity | exact (proj1 (depth_at _ _ _ _ Hi IH _ Hs))|].
  destruct (label_at cs j l b Hl Ho (fl_walk _ _ _ _ _ _ _ F)) as (e & We & Le). rewrite We. f_equal. symmetry. rewrite Ha in Le.
  exact (flow_joins _ _ _ _ _ _ _ _ F (proj2 (depth_at _ _ _ _ Hi IH _ Hs) Hj) Le).
Qed.

Section Soundness.
Context (host_addr : String.string -> Z) (g_hc_mem : Z) (host_ok : forall s, is_u 64 (host_addr s)).
Context (fn_code_at : Z -> Z) (jit_into : option (list Z -> Z + list Z)) (codes_ok : forall i, is_u 64 (fn_code_at i)).


(** C23: what is accepted is well-typed code.  The bytes of the file, and of each of its functions,
    read back as a frame and instructions whose stack is as deep at each point as reading the code
    from its start to that point says, whatever the path that leads there, jumps to any of the labels
    of their number included; it is never popped when empty, and empty at the end.  If the labels of
    [goto] are defined once each and no expression holds more than seven values, the stack discipline
    that the stack-IR compiler relies on without checking it holds. *)
Theorem accepted_file_well_typed src cap n f bytes (Hcap : 0 <= cap)
  (Hrun : hc_front_compile_ex host_addr g_hc_mem fn_code_at jit_into src cap = (Done n, f)) (Hbytes : In bytes (f_bc f :: map fn_bc (fns (tabs f)))) :
  exists m cs, hc_parse bytes = Some (mk_h HC_ENTER m 0 :: cs) /\ walk cs 0 = Some 0 /\ (forall k d, reaches cs k d -> walk (take k cs) 0 = Some d) /\
    (resolved cs = true -> within 7 cs 0 = true -> well_typed (mk_h HC_ENTER m 0 :: cs) = true).
Proof using host_ok codes_ok.
  pose proof (compile_ok host_addr g_hc_mem host_ok fn_code_at jit_into codes_ok src cap Hcap) as H. rewrite Hrun in H. destruct H as (_ & _ & Hf & Ha).
  assert (Hb : framed bytes).
  { destruct Hbytes as [<-|Hin]; [exact Hf|]. apply in_map_iff in Hin as (g & <- & Hg). pose proof (ao_fn_fits _ Ha) as Hfit.
    rewrite List.Forall_forall in Hfit. apply Hfit, Hg. }
  destruct Hb as (m & n1 & G & cs & E & Hm & Fl). exists m, cs. split; [exact E|]. split; [apply Fl|].
  split; [intros k d; eapply flow_paths, Fl|]. intros H1 H2. eapply flow_typed; eassumption.
Qed.
End Soundness.

(** ** An example *)

Definition demo_file : list Z := S_
"enum {A = 3, B};
class CPair {I64 a; U8 b, c;};
I64 total;
I64 Sum(I64 n, CPair *p) {
  I64 i, s = 0;
  for (i = 0; i < n; i++) { if (i == 5) continue; s += i * p->b; }
  switch (s) { case 1...9: return s; default: goto out; }
out:
  return -s;
}
CPair pr;
pr.b = B;
total = Sum(10, &pr);
do { total--; } while (total > 0);
return total;".

Definition demo_compile : result Z * front :=
  hc_front_compile_ex demo_addr 0x30000 (fun _ => 0x5000) (Some (hc_ir_compile 0x20000 0x20008 0x30000 400)) demo_file 600.

Lemma demo_codes_ok (i : Z) : is_u 64 ((fun _ : Z => 0x5000) i).
Proof. split; [lia | reflexivity]. Qed.


(** The function of the example. *)
Definition demo_sum : hc_fn := nth 0 (fns (tabs (snd demo_compile))) (mk_fn [] 0 0 [] []).

Lemma only_one (x : list Z) l g : l = [g] -> In (fn_bc g) (x :: map fn_bc l).
Proof. intros ->. right. left. reflexivity. Qed.

Lemma accepted_file_well_typed_witness : exists m cs, hc_parse (fn_bc demo_sum) = Some (mk_h HC_ENTER m 0 :: cs) /\ well_typed (mk_h HC_ENTER m 0 :: cs) = true.
Proof.
  destruct (accepted_file_well_typed demo_addr 0x30000 demo_addr_ok (fun _ => 0x5000) (Some (hc_ir_compile 0x20000 0x20008 0x30000 400)) demo_codes_ok
    demo_file 600 84 (snd demo_compile) (fn_bc demo_sum) ltac:(lia)) as (m & cs & E & _ & _ & Hw).
  - vm_compute. reflexivity.
  - apply only_one. vm_compute. reflexivity.
  - exists m, cs. split; [exact E|]. assert (Ecs : cs = tail (default [] (hc_parse (fn_bc demo_sum)))) by (rewrite E; reflexivity).
    apply Hw; rewrite Ecs; vm_compute; reflexivity.
Defined.

(** ** Where the code falls short *)

(** The code of the only function, or of the file. *)
Definition compiled (text : String.string) : option (list hinsn * list (list hinsn)) :=
  match hc_front_compile_ex demo_addr 0x30000 (fun _ => 0x5000) (Some (hc_ir_compile 0x20000 0x20008 0x30000 400)) (S_ text) 600 with
  | (Done _, f) => match hc_parse (f_bc f) with Some p => Some (p, map (fun g => default [] (hc_parse (fn_bc g))) (fns (tabs f))) | None => None end
  | _ => None
  end.
Definition insn (op : hc_op) (a : Z) : hinsn := mk_h op a 0.

(** The frame (2 bytes), 740 stores (11 bytes each, one of the declaration) and 5 returns (10 bytes each) fill the 8192
    bytes of a function: the end marker is stored behind them. *)
Definition full_function : list Z :=
  S_ "I64 F() {I64 i;" ++ concat (repeat (S_ "i=1;") 739) ++ concat (repeat (S_ "return 1;") 5) ++ S_ "}".
Theorem full_function_overruns :
  match hc_front_compile_ex demo_addr 0x30000 (fun _ => 0x5000) (Some (hc_ir_compile 0x20000 0x20008 0x30000 16384)) full_function 600 with
  | (Wild, f) => f_cap f = 8192 /\ Z.of_nat (length (f_bc f)) = 8192
  | _ => False
  end.
Proof. vm_compute. split; reflexivity. Qed.

(** A parameter with the name of a global is the global: the argument is stored in word 0 of a frame
    of no words, and the global is read. *)
Theorem parameter_aliases_global :
  compiled "I64 x; I64 F(I64 x) { return x; }" =
  Some ([insn HC_ENTER 0], [[insn HC_ENTER 0; mk_h HC_INARG 0 0; insn HC_LD_ABS 0; insn HC_RET 0]]).
Proof. vm_compute. reflexivity. Qed.

(** [y++] adds the integer 1 to the bits of an F64 variable; for a member it adds 1.0. *)
Theorem f64_increment_is_integer :
  compiled "F64 y; y++;" = Some ([insn HC_ENTER 0; insn HC_LD_ABS 0; insn HC_IMM64 1; insn HC_ADD 0; insn HC_ST_ABS 0], []).
Proof. vm_compute. reflexivity. Qed.

(** The initial value of an F64 is not converted; the value of an assignment is. *)
Theorem f64_initialiser_not_converted :
  compiled "F64 y = 1;" = Some ([insn HC_ENTER 0; insn HC_IMM64 1; insn HC_ST_ABS 0], []) /\
  compiled "F64 y; y = 1;" = Some ([insn HC_ENTER 0; insn HC_IMM64 1; insn HC_I2F 0; insn HC_ST_ABS 0], []).
Proof. vm_compute. split; reflexivity. Qed.

(** [if] truncates an F64 condition to an integer, [while] tests its bits. *)
Theorem f64_conditions_differ :
  let half := [insn HC_IMM64 0; insn HC_I2F 0; insn HC_IMM64 5; insn HC_I2F 0; insn HC_IMM64 10; insn HC_I2F 0; insn HC_FDIV 0; insn HC_FADD 0] in
  compiled "if (0.5) return 1;" = Some ([insn HC_ENTER 0] ++ half ++
    [insn HC_F2I 0; insn HC_JZ 0; insn HC_IMM64 1; insn HC_RET 0; insn HC_JMP 1; insn HC_LABEL 0; insn HC_LABEL 1], []) /\
  compiled "while (0.5) return 1;" = Some ([insn HC_ENTER 0; insn HC_LABEL 0] ++ half ++
    [insn HC_JZ 1; insn HC_IMM64 1; insn HC_RET 0; insn HC_JMP 0; insn HC_LABEL 1], []).
Proof. vm_compute. split; reflexivity. Qed.
