(* ===== verification/Arena.v ===== *)
(** * The arenas of the run-time library ([src/src/zc/runtime.c])

    [malloc] and [free] of the HolyC run-time: two arenas of blocks, each behind a header, chained
    by address; the free blocks are linked a second time, through the fields an allocated block
    uses for its owner and its call site.  Headers live in memory, so a neighbour's update and the
    block's own may be the same write.  Payloads and the accounts of the heaps are kept apart from
    the headers: what a header says at an address inside a payload is left open. *)

From S2P Require Import Prelude.
#[local] Open Scope Z_scope.

(** ** Loops

    A C loop of at most [p] turns; [inl] is a loop that goes on. *)
Fixpoint turns_pos {A B} (body : A -> A + B) (p : positive) (a : A) : A + B :=
  match p with
  | xH => body a
  | xO q => match turns_pos body q a with inl a' => turns_pos body q a' | r => r end
  | xI q => match body a with inl a' => match turns_pos body q a' with inl a'' => turns_pos body q a'' | r => r end | r => r end
  end.

(** ** State *)

Definition DATA_BYTES : Z := 96 * 1024 * 1024.
Definition CODE_BYTES : Z := 16 * 1024 * 1024.
Definition BLOCK_MAGIC : Z := 0x5a43424c4f434b31.
(** [sizeof(struct block)] *)
Definition HEADER : Z := 64.

Record block := mk_block { magic : Z; size : Z; requested : Z; prev : Z; next : Z; owner : Z; used : Z; pad : Z }.

Record CHeapCtrl := mk_heap { used_u8s : Z; is_code_heap : Z; mem_task : Z }.

(** A task of the guest: the addresses of its three heaps, whether it is in use, and the word of
    the guest's heap that repeats [used_u8s]. *)
Record guest_fiber := mk_fiber { heap_owner : Z; compiler_heap : Z; compiler_code_heap : Z; in_use : bool; heap_word : Z }.

(** [mem a] is what the 64 bytes at [a] say as a header; [data] are the bytes of the payloads. *)
Record heap := mk_state {
  mem : Z -> block;
  data : Z -> Z;
  free_data : Z;                (* arena_free_heads[0] *)
  free_code : Z;                (* arena_free_heads[1] *)
  ctrl : Z -> CHeapCtrl;
  guest_task_bound : bool;
  guest_fibers : list guest_fiber;
  Fs : Z;                       (* the current task, and its heap *)
  Fs_heap : Z }.

Definition set_mem (m : Z -> block) (h : heap) : heap :=
  mk_state m (data h) (free_data h) (free_code h) (ctrl h) (guest_task_bound h) (guest_fibers h) (Fs h) (Fs_heap h).
Definition set_data (d : Z -> Z) (h : heap) : heap :=
  mk_state (mem h) d (free_data h) (free_code h) (ctrl h) (guest_task_bound h) (guest_fibers h) (Fs h) (Fs_heap h).
Definition set_ctrl (c : Z -> CHeapCtrl) (h : heap) : heap :=
  mk_state (mem h) (data h) (free_data h) (free_code h) c (guest_task_bound h) (guest_fibers h) (Fs h) (Fs_heap h).
Definition set_fibers (l : list guest_fiber) (h : heap) : heap :=
  mk_state (mem h) (data h) (free_data h) (free_code h) (ctrl h) (guest_task_bound h) l (Fs h) (Fs_heap h).

Definition free_head (a : bool) (h : heap) : Z := if a then free_code h else free_data h.
Definition set_free_head (a : bool) (x : Z) (h : heap) : heap :=
  mk_state (mem h) (data h) (if a then free_data h else x) (if a then x else free_code h) (ctrl h) (guest_task_bound h) (guest_fibers h) (Fs h) (Fs_heap h).

(** A write to the header at [a], or to some of its fields. *)
Definition put {A} (a : Z) (b : A) (m : Z -> A) : Z -> A := fun x => if x =? a then b else m x.
Definition set_block (a : Z) (f : block -> block) (h : heap) : heap := set_mem (put a (f (mem h a)) (mem h)) h.

Definition set_size (x : Z) (b : block) : block := mk_block (magic b) x (requested b) (prev b) (next b) (owner b) (used b) (pad b).
Definition set_prev (x : Z) (b : block) : block := mk_block (magic b) (size b) (requested b) x (next b) (owner b) (used b) (pad b).
Definition set_next (x : Z) (b : block) : block := mk_block (magic b) (size b) (requested b) (prev b) x (owner b) (used b) (pad b).
Definition set_owner (x : Z) (b : block) : block := mk_block (magic b) (size b) (requested b) (prev b) (next b) x (used b) (pad b).
Definition set_pad (x : Z) (b : block) : block := mk_block (magic b) (size b) (requested b) (prev b) (next b) (owner b) (used b) x.
Definition set_magic (x : Z) (b : block) : block := mk_block x (size b) (requested b) (prev b) (next b) (owner b) (used b) (pad b).
Definition set_links (x y : Z) (b : block) : block := set_owner x (set_pad y b).

(** ** Failure

    [zc_fail] does not return: it leaves by a jump to the guard of the shell. *)
Inductive failure := OutOfRange | Exhausted | InvalidPointer | InvalidFree | Overflow.
Inductive outcome (A : Type) := Ret (a : A) (h : heap) | Failed (why : failure) (h : heap) | Hangs.
Arguments Ret {A}.
Arguments Failed {A}.
Arguments Hangs {A}.
Definition bind {A B} (r : outcome A) (k : A -> heap -> outcome B) : outcome B :=
  match r with Ret a h => k a h | Failed w h => Failed w h | Hangs => Hangs end.

Definition of_loop {A B C} (r : A + B) (k : B -> outcome C) : outcome C := match r with inl _ => Hangs | inr b => k b end.
(** More turns than an arena has blocks. *)
Definition TURNS : positive := 134217728.

(** ** The list of free blocks *)

Section Arenas.
Context (data_arena code_arena : Z).

Definition arena (a : bool) : Z := if a then code_arena else data_arena.
Definition arena_bytes (a : bool) : Z := if a then CODE_BYTES else DATA_BYTES.

Definition arena_init (a : bool) (p bytes : Z) (h : heap) : heap :=
  set_free_head a p (set_mem (put p (mk_block BLOCK_MAGIC (u64 (bytes - HEADER)) 0 0 0 0 0 0) (mem h)) h).

Definition free_prev (b : Z) (h : heap) : Z := owner (mem h b).
Definition free_next (b : Z) (h : heap) : Z := pad (mem h b).

(** [if (p) p->pad = x; else arena_free_heads\[a\] = x;] and [if (n) n->owner = x;] *)
Definition link_next (a : bool) (p x : Z) (h : heap) : heap := if p =? 0 then set_free_head a x h else set_block p (set_pad x) h.
Definition link_prev (n x : Z) (h : heap) : heap := if n =? 0 then h else set_block n (set_owner x) h.

Definition free_list_remove (a : bool) (b : Z) (h : heap) : heap :=
  let p := free_prev b h in
  let n := free_next b h in
  set_block b (set_links 0 0) (link_prev n p (link_next a p n h)).

Definition free_list_replace (a : bool) (old replacement : Z) (h : heap) : heap :=
  let p := free_prev old h in
  let n := free_next old h in
  link_prev n replacement (link_next a p replacement (set_block replacement (set_links p n) h)).

(** [while (next && (uintptr_t)next < address)] *)
Definition insert_turn (address : Z) (h : heap) (st : Z * Z) : (Z * Z) + (Z * Z) :=
  let '(p, n) := st in
  if negb (n =? 0) && (n <? address) then inl (n, free_next n h) else inr (p, n).
Definition free_list_insert (a : bool) (b : Z) (h : heap) : outcome unit :=
  of_loop (turns_pos (insert_turn b h) TURNS (0, free_head a h)) (fun '(p, n) =>
    Ret tt (link_prev n b (link_next a p b (set_block b (set_links p n) h)))).

(** ** Owners *)

Context (data_heap : Z).

Definition heap_for (t : Z) (h : heap) : Z :=
  if (t =? 0) || (t =? Fs h) then (if negb (Fs h =? 0) && negb (Fs_heap h =? 0) then Fs_heap h else data_heap) else t.

Fixpoint sync_fibers (o used : Z) (l : list guest_fiber) : list guest_fiber :=
  match l with
  | [] => []
  | f :: l' => if (o =? heap_owner f) && in_use f then mk_fiber (heap_owner f) (compiler_heap f) (compiler_code_heap f) (in_use f) used :: l' else f :: sync_fibers o used l'
  end.
Definition sync_guest_heap (o : Z) (h : heap) : heap :=
  if guest_task_bound h then set_fibers (sync_fibers o (used_u8s (ctrl h o)) (guest_fibers h)) h else h.

(** [owner->used_u8s += n;] *)
Definition charge (o n : Z) (h : heap) : heap :=
  let c := ctrl h o in set_ctrl (put o (mk_heap (signed 64 (used_u8s c + n)) (is_code_heap c) (mem_task c)) (ctrl h)) h.

(** ** Allocation *)

(** A multiple of 16, one at least. *)
Definition round16 (count : Z) : Z :=
  let n := Z.land (u64 (count + 15)) (u64 (Z.lnot 15)) in if n =? 0 then 16 else n.

Definition search_turn (n : Z) (h : heap) (b : Z) : Z + Z :=
  if b =? 0 then inr 0 else if size (mem h b) <? n then inl (free_next b h) else inr b.

(** The block at [b] is split, or taken as it is. *)
Definition take_block (a : bool) (b n : Z) (h : heap) : heap :=
  if u64 (n + HEADER + 16) <=? size (mem h b) then
    let tail := b + HEADER + n in
    let h := set_mem (put tail (mk_block BLOCK_MAGIC (u64 (size (mem h b) - n - HEADER)) 0 b (next (mem h b)) 0 0 0) (mem h)) h in
    let h := if next (mem h tail) =? 0 then h else set_block (next (mem h tail)) (set_prev tail) h in
    free_list_replace a b tail (set_block b (fun x => set_size n (set_next tail x)) h)
  else free_list_remove a b h.

Definition allocated (count o caller : Z) (b : block) : block := mk_block (magic b) (size b) count (prev b) (next b) o 1 caller.

Definition arena_alloc (count t caller_pc : Z) (h : heap) : outcome Z :=
  if (count <? 0) || (DATA_BYTES <? count) then Failed OutOfRange h
  else
    let o := heap_for t h in
    let a := negb (is_code_heap (ctrl h o) =? 0) in
    let n := round16 count in
    of_loop (turns_pos (search_turn n h) TURNS (free_head a h)) (fun b =>
      if b =? 0 then Failed Exhausted h
      else
        let h := set_block b (allocated count o caller_pc) (take_block a b n h) in
        Ret (b + HEADER) (sync_guest_heap o (charge o (size (mem h b)) h))).

(** ** Release *)

Definition in_arena (a : bool) (v : Z) : bool := (arena a + HEADER <=? v) && (v <? arena a + arena_bytes a).

Definition get_block (p : Z) (h : heap) : outcome Z :=
  if negb (in_arena false p || in_arena true p) || negb (p mod 16 =? 0) then Failed InvalidPointer h
  else
    let b := p - HEADER in
    if negb (magic (mem h b) =? BLOCK_MAGIC) || (used (mem h b) =? 0) then Failed InvalidFree h else Ret b h.

(** The block [n] behind [b] becomes part of it. *)
Definition absorb (b n : Z) (h : heap) : heap :=
  let h := set_block b (fun x => set_next (next (mem h n)) (set_size (u64 (size x + u64 (HEADER + size (mem h n)))) x)) h in
  let h := set_block n (set_magic 0) h in
  if next (mem h b) =? 0 then h else set_block (next (mem h b)) (set_prev b) h.

Definition is_free (b : Z) (h : heap) : bool := negb (b =? 0) && (used (mem h b) =? 0).

Definition merge_next (a : bool) (b : Z) (h : heap) : heap :=
  let n := next (mem h b) in if is_free n h then absorb b n (free_list_remove a n h) else h.
(** The merged block. *)
Definition merge_prev (a : bool) (b : Z) (h : heap) : Z * heap :=
  let p := prev (mem h b) in if is_free p h then (p, absorb p b (free_list_remove a b h)) else (b, h).

Definition released (b : block) : block := mk_block (magic b) (size b) 0 (prev b) (next b) 0 0 0.

Definition release (b : Z) (h : heap) : outcome Z :=
  let o := owner (mem h b) in
  let a := (code_arena <=? b) && (b <? code_arena + CODE_BYTES) in
  let h := sync_guest_heap o (charge o (- size (mem h b)) h) in
  let h := set_block b released h in
  bind (free_list_insert a b h) (fun _ h => let '(b', h') := merge_prev a b (merge_next a b h) in Ret b' h').

(** ** The interface *)

Definition Free (p : Z) (h : heap) : outcome unit :=
  if p =? 0 then Ret tt h else bind (get_block p h) (fun b h => bind (release b h) (fun _ h => Ret tt h)).

(** [memset(p, 0, n)] and [memcpy(q, p, n)]. *)
Definition fill0 (p n : Z) (d : Z -> Z) : Z -> Z := fun x => if (p <=? x) && (x <? p + n) then 0 else d x.
Definition copy (q p n : Z) (d : Z -> Z) : Z -> Z := fun x => if (q <=? x) && (x <? q + n) then d (p + (x - q)) else d x.

Definition CAlloc (n t caller : Z) (h : heap) : outcome Z :=
  bind (arena_alloc n t caller h) (fun p h => Ret p (set_data (fill0 p n (data h)) h)).

Definition MSize (p : Z) (h : heap) : outcome Z :=
  if p =? 0 then Ret 0 h else bind (get_block p h) (fun b h => Ret (requested (mem h b)) h).

(** [realloc(p, n)] *)
Definition realloc (p n caller : Z) (h : heap) : outcome Z :=
  if n =? 0 then bind (Free p h) (fun _ h => Ret 0 h)
  else
    bind (arena_alloc (signed 64 n) 0 caller h) (fun q h =>
    if p =? 0 then Ret q h
    else
      bind (MSize p h) (fun old h =>
      bind (Free p (set_data (copy q p (Z.min n old) (data h)) h)) (fun _ h => Ret q h))).

(** [calloc(n, s)] *)
Definition calloc (n s caller : Z) (h : heap) : outcome Z :=
  if negb (s =? 0) && (UINT64_MAX / s <? n) then Failed Overflow h else CAlloc (signed 64 (n * s)) 0 caller h.

(** Every block of [o] is released. *)
Definition reclaim_turn (o : Z) (st : Z * heap) : (Z * heap) + outcome unit :=
  let '(b, h) := st in
  if b =? 0 then inr (Ret tt h)
  else if negb (used (mem h b) =? 0) && (owner (mem h b) =? o) then
    match release b h with Ret b' h' => inl (next (mem h' b'), h') | Failed w h' => inr (Failed w h') | Hangs => inr Hangs end
  else inl (next (mem h b), h).
Definition reclaim_arena (o : Z) (a : bool) (h : heap) : outcome unit := of_loop (turns_pos (reclaim_turn o) TURNS (arena a, h)) (fun r => r).
Definition reclaim_guest_heap (o : Z) (h : heap) : outcome unit := bind (reclaim_arena o false h) (fun _ h => reclaim_arena o true h).

Definition HeapCtrlDel (o : Z) (h : heap) : outcome unit := bind (reclaim_guest_heap o h) (fun _ h => Free o h).

(** [HeapCtrlInit(o, t, code)]; [bytes] is [sizeof(CHeapCtrl)], a type of the AIWNIOS headers.  A
    fresh record is all zero before its fields are set. *)
Definition HeapCtrlInit (bytes o t code caller : Z) (h : heap) : outcome Z :=
  bind (if o =? 0 then bind (CAlloc bytes 0 caller h) (fun q h => Ret q (set_ctrl (put q (mk_heap 0 0 0) (ctrl h)) h)) else Ret o h)
    (fun o h => Ret o (set_ctrl (put o (mk_heap (used_u8s (ctrl h o)) (signed 32 code) t) (ctrl h)) h)).

(** The owner of the code at [p]; 0 without one. *)
Definition code_owner_turn (p : Z) (h : heap) (b : Z) : Z + Z :=
  if b =? 0 then inr 0
  else if negb (used (mem h b) =? 0) && (b + HEADER <=? p) && (p - (b + HEADER) <? requested (mem h b)) then inr (owner (mem h b))
  else inl (next (mem h b)).
Definition code_owner (p : Z) (h : heap) : outcome Z := of_loop (turns_pos (code_owner_turn p h) TURNS (arena true)) (fun o => Ret o h).
End Arenas.
