(* ===== verification/ArenaSpec.v ===== *)
(** * Arenas: blocks as a list

    An arena is a list of cells, holes and live blocks, that tile it; [image] is the headers they
    have in memory, links included, and [rep] says that memory and the head of the free list are
    those of a list.  The reference allocator walks this list. *)

From S2P Require Import Prelude Arena.
#[local] Open Scope Z_scope.

(** ** Cells *)

Inductive cell :=
| Hole (s : Z)
| Live (s req own pc : Z).

Definition csize (c : cell) : Z := match c with Hole s | Live s _ _ _ => s end.
Definition hole (c : cell) : bool := match c with Hole _ => true | Live _ _ _ _ => false end.
Fixpoint has_hole (l : list cell) : bool := match l with [] => false | c :: l' => hole c || has_hole l' end.
Definition span (c : cell) : Z := HEADER + csize c.
Fixpoint extent (l : list cell) : Z := match l with [] => 0 | c :: l' => span c + extent l' end.

Definition cell_ok (c : cell) : Prop :=
  16 <= csize c /\ csize c mod 16 = 0 /\ match c with Hole _ => True | Live s r _ _ => 0 <= r <= s end.

(** The first and the last block, and the first and the last hole. *)
Definition first_block (a : Z) (l : list cell) (nx : Z) : Z := match l with [] => nx | _ => a end.
Fixpoint last_block (a p : Z) (l : list cell) : Z := match l with [] => p | c :: l' => last_block (a + span c) a l' end.
Fixpoint first_free (a : Z) (l : list cell) (nf : Z) : Z :=
  match l with [] => nf | c :: l' => if hole c then a else first_free (a + span c) l' nf end.
Fixpoint last_free (a fp : Z) (l : list cell) : Z :=
  match l with [] => fp | c :: l' => last_free (a + span c) (if hole c then a else fp) l' end.

(** The header of a cell between the blocks [p] and [n] and the holes [fp] and [nf]. *)
Definition header (p n fp nf : Z) (c : cell) : block :=
  match c with Hole s => mk_block BLOCK_MAGIC s 0 p n fp 0 nf | Live s r o pc => mk_block BLOCK_MAGIC s r p n o 1 pc end.

Fixpoint image (a p fp : Z) (l : list cell) (nx nf : Z) : list (Z * block) :=
  match l with
  | [] => []
  | c :: l' =>
      let a' := a + span c in
      (a, header p (first_block a' l' nx) fp (first_free a' l' nf) c) :: image a' a (if hole c then a else fp) l' nx nf
  end.
Definition sat (m : Z -> block) (L : list (Z * block)) : Prop := Forall (fun x => m (fst x) = snd x) L.

Definition blocks_ok (l : list cell) : Prop := Forall cell_ok l.

(** ** Pieces side by side *)

Lemma extent_app l1 l2 : extent (l1 ++ l2) = extent l1 + extent l2.
Proof. induction l1 as [|c l1 IH]; cbn; [reflexivity | rewrite IH; lia]. Qed.

Lemma span_pos c : cell_ok c -> 80 <= span c.
Proof. intros (H & _). unfold span, HEADER. lia. Qed.

Lemma extent_nonneg l : blocks_ok l -> 0 <= extent l.
Proof. induction 1 as [|c l Hc _ IH]; cbn; [lia | pose proof (span_pos c Hc); lia]. Qed.

Lemma extent_mod16 l : blocks_ok l -> extent l mod 16 = 0.
Proof.
  induction 1 as [|c l (_ & Hd & _) _ IH]; [reflexivity|]. cbn [extent]. unfold span, HEADER.
  rewrite Z.add_mod, IH, (Z.add_mod 64), Hd by lia. reflexivity.
Qed.

Lemma first_free_app a l1 l2 nf : first_free a (l1 ++ l2) nf = first_free a l1 (first_free (a + extent l1) l2 nf).
Proof.
  revert a. induction l1 as [|c l1 IH]; intros a; cbn; [f_equal; lia|]. case_if; [reflexivity|]. rewrite IH. do 2 f_equal. lia.
Qed.

Lemma last_free_app a fp l1 l2 : last_free a fp (l1 ++ l2) = last_free (a + extent l1) (last_free a fp l1) l2.
Proof. revert a fp. induction l1 as [|c l1 IH]; intros a fp; cbn; [f_equal; lia|]. rewrite IH. f_equal. lia. Qed.

Lemma last_block_app a p l1 l2 : last_block a p (l1 ++ l2) = last_block (a + extent l1) (last_block a p l1) l2.
Proof. revert a p. induction l1 as [|c l1 IH]; intros a p; cbn; [f_equal; lia|]. rewrite IH. f_equal. lia. Qed.

Lemma first_block_app a l1 l2 nx : first_block a (l1 ++ l2) nx = first_block a l1 (first_block (a + extent l1) l2 nx).
Proof. destruct l1; [cbn; f_equal; lia | reflexivity]. Qed.

Lemma image_app a p fp l1 l2 nx nf :
  image a p fp (l1 ++ l2) nx nf =
  image a p fp l1 (first_block (a + extent l1) l2 nx) (first_free (a + extent l1) l2 nf) ++
  image (a + extent l1) (last_block a p l1) (last_free a fp l1) l2 nx nf.
Proof.
  revert a p fp. induction l1 as [|c l1 IH]; intros a p fp; cbn [image extent app last_block last_free]; [f_equal; lia|].
  rewrite IH, first_block_app, first_free_app. replace (a + span c + extent l1) with (a + (span c + extent l1)) by lia. reflexivity.
Qed.

Lemma sat_app m L1 L2 : sat m (L1 ++ L2) <-> sat m L1 /\ sat m L2.
Proof. apply Forall_app. Qed.

Lemma image_range l : blocks_ok l -> forall a p fp nx nf x b, In (x, b) (image a p fp l nx nf) -> a <= x < a + extent l.
Proof.
  induction 1 as [|c l Hc Hl IH]; intros a p fp nx nf x b; cbn; [intros []|]. pose proof (span_pos c Hc). pose proof (extent_nonneg l Hl).
  intros [[= <- _]|Hin]; [lia|]. apply IH in Hin. lia.
Qed.

(** Memory that agrees with another on the cells. *)
Lemma sat_same m m' l a p fp nx nf : blocks_ok l -> (forall x, a <= x < a + extent l -> m' x = m x) ->
  sat m (image a p fp l nx nf) -> sat m' (image a p fp l nx nf).
Proof.
  intros Hl Hm Hs. unfold sat in *. rewrite List.Forall_forall in *. intros [x b] Hin. cbn. rewrite Hm by (eapply image_range; eassumption).
  exact (Hs _ Hin).
Qed.

Lemma put_eq {A} a (b : A) m : put a b m a = b.
Proof. unfold put. rewrite Z.eqb_refl. reflexivity. Qed.
Lemma put_ne {A} a (b : A) m x : x <> a -> put a b m x = m x.
Proof. intros H. unfold put. destruct (Z.eqb_spec x a); [contradiction | reflexivity]. Qed.

(** ** Holes and their links *)

Lemma no_hole_free a l nf : has_hole l = false -> first_free a l nf = nf.
Proof. revert a. induction l as [|c l IH]; intros a; cbn; [reflexivity|]. intros E. apply orb_false_iff in E as [-> E]. apply IH, E. Qed.
Lemma no_hole_last a fp l : has_hole l = false -> last_free a fp l = fp.
Proof. revert a. induction l as [|c l IH]; intros a; cbn; [reflexivity|]. intros E. apply orb_false_iff in E as [-> E]. apply IH, E. Qed.
Lemma no_hole_image l : has_hole l = false -> forall a p fp fp' nx nf nf', image a p fp l nx nf = image a p fp' l nx nf'.
Proof.
  induction l as [|c l IH]; [reflexivity|]. cbn. intros E a p fp fp' nx nf nf'. apply orb_false_iff in E as [Ec E]. rewrite Ec.
  rewrite (IH E _ _ fp fp' nx nf nf'), !no_hole_free by exact E. destruct c; [discriminate Ec | reflexivity].
Qed.

Lemma first_free_range l : blocks_ok l -> has_hole l = true -> forall a nf, a <= first_free a l nf < a + extent l.
Proof.
  induction 1 as [|c l Hc Hl IH]; cbn; [discriminate|]. pose proof (span_pos c Hc). pose proof (extent_nonneg l Hl). intros E a nf.
  destruct (hole c); cbn in E; [lia|]. specialize (IH E (a + span c) nf). lia.
Qed.
Lemma last_free_range l : blocks_ok l -> has_hole l = true -> forall a fp, a <= last_free a fp l < a + extent l.
Proof.
  induction 1 as [|c l Hc Hl IH]; cbn; [discriminate|]. pose proof (span_pos c Hc). pose proof (extent_nonneg l Hl). intros E a fp.
  destruct (has_hole l) eqn:El; [specialize (IH eq_refl (a + span c) (if hole c then a else fp)); lia|].
  rewrite no_hole_last by exact El. destruct (hole c); [lia | discriminate E].
Qed.
Lemma first_free_any a l nf nf' : has_hole l = true -> first_free a l nf = first_free a l nf'.
Proof. revert a. induction l as [|c l IH]; intros a; cbn; [discriminate|]. destruct (hole c); [reflexivity | apply IH]. Qed.
Lemma last_free_any l : has_hole l = true -> forall a fp fp', last_free a fp l = last_free a fp' l.
Proof.
  induction l as [|c l IH]; cbn; [discriminate|]. intros E a fp fp'. destruct (has_hole l) eqn:El; [apply IH; reflexivity|].
  rewrite !no_hole_last by exact El. destruct (hole c); [reflexivity | discriminate E].
Qed.

(** The link of the last hole to the next one. *)
Lemma sat_set_pad nf' l : blocks_ok l -> has_hole l = true -> forall m a p fp nx nf, sat m (image a p fp l nx nf) ->
  sat (put (last_free a fp l) (set_pad nf' (m (last_free a fp l))) m) (image a p fp l nx nf').
Proof.
  induction 1 as [|c l Hc Hl IH]; [discriminate|]. cbn [has_hole]. intros E m a p fp nx nf Hs. cbn [image last_free] in *.
  inversion Hs as [|? ? H1 H2]; subst. cbn [fst snd] in H1. pose proof (span_pos c Hc).  destruct (has_hole l) eqn:El.
  - pose proof (last_free_range l Hl El (a + span c) (if hole c then a else fp)). constructor.
    + cbn [fst snd]. rewrite put_ne by lia. rewrite H1, (first_free_any _ l nf nf') by exact El. reflexivity.
    + apply IH with (nf := nf); [reflexivity | exact H2].
  - rewrite orb_false_r in E. destruct c as [s|]; [|discriminate E]. cbn [hole] in *. rewrite no_hole_last by exact El. constructor.
    + cbn [fst snd]. rewrite put_eq, H1, !no_hole_free by exact El. reflexivity.
    + eapply sat_same with (m := m); [exact Hl | intros x Hx; apply put_ne; lia|]. rewrite (no_hole_image l El _ _ _ a nx _ nf). exact H2.
Qed.

(** The link of the first hole to the one before. *)
Lemma sat_set_owner fp' l : blocks_ok l -> has_hole l = true -> forall m a p fp nx nf, sat m (image a p fp l nx nf) ->
  sat (put (first_free a l nf) (set_owner fp' (m (first_free a l nf))) m) (image a p fp' l nx nf).
Proof.
  induction 1 as [|c l Hc Hl IH]; [discriminate|]. cbn [has_hole]. intros E m a p fp nx nf Hs. cbn [image first_free] in *.
  inversion Hs as [|? ? H1 H2]; subst. cbn [fst snd] in H1. pose proof (span_pos c Hc).  destruct (hole c) eqn:Ec.
  - constructor; [cbn [fst snd]; rewrite put_eq, H1; destruct c; [reflexivity | discriminate Ec]|].
    eapply sat_same with (m := m); [exact Hl | intros x Hx; apply put_ne; lia | exact H2].
  - cbn in E. pose proof (first_free_range l Hl E (a + span c) nf). constructor; [|apply IH with (fp := fp); assumption].
    cbn [fst snd]. rewrite put_ne by lia. rewrite H1. destruct c; [discriminate Ec | reflexivity].
Qed.

(** The link of the first block to the one before. *)
Lemma sat_set_prev p' l : blocks_ok l -> l <> [] -> forall m a p fp nx nf, sat m (image a p fp l nx nf) ->
  sat (put a (set_prev p' (m a)) m) (image a p' fp l nx nf).
Proof.
  intros Hl Hn m a p fp nx nf Hs. destruct l as [|c l]; [contradiction|]. cbn [image] in *. inversion Hs as [|? ? H1 H2]; subst.
  inversion Hl as [|? ? Hc Hl']; subst. pose proof (span_pos c Hc). constructor.
  - cbn [fst snd] in *. rewrite put_eq, H1. destruct c; reflexivity.
  - eapply sat_same with (m := m); [exact Hl' | intros x Hx; apply put_ne; lia | exact H2].
Qed.

(** ** The reference allocator

    First fit over all the blocks: the pieces around the first hole of [n] bytes or more. *)
Fixpoint find_fit (n : Z) (l : list cell) : option (list cell * Z * list cell) :=
  match l with
  | [] => None
  | c :: l' =>
      match c with
      | Hole s => if n <=? s then Some ([], s, l') else option_map (fun '(l1, s', l2) => (c :: l1, s', l2)) (find_fit n l')
      | Live _ _ _ _ => option_map (fun '(l1, s', l2) => (c :: l1, s', l2)) (find_fit n l')
      end
  end.

(** A hole of [s] bytes gives [n] of them; what is left is a hole if a block fits in. *)
Definition carve (s n req own pc : Z) : list cell :=
  if n + HEADER + 16 <=? s then [Live n req own pc; Hole (s - n - HEADER)] else [Live s req own pc].

(** Two holes side by side become one. *)
Definition merge_hole (s : Z) (l : list cell) : list cell :=
  match l with Hole s' :: l' => Hole (s + HEADER + s') :: l' | _ => Hole s :: l end.
Fixpoint normal (l : list cell) : list cell :=
  match l with [] => [] | Hole s :: l' => merge_hole s (normal l') | c :: l' => c :: normal l' end.
Fixpoint calm (l : list cell) : bool :=
  match l with
  | [] => true
  | Hole _ :: l' => match l' with Hole _ :: _ => false | _ => calm l' end
  | _ :: l' => calm l'
  end.

Lemma merge_hole_assoc s s' l : merge_hole s (merge_hole s' l) = merge_hole (s + HEADER + s') l.
Proof. destruct l as [|[t|] l]; cbn; try reflexivity. do 2 f_equal. lia. Qed.

Lemma normal_map f l : (forall s, f (Hole s) = Hole s) -> normal (map f (normal l)) = normal (map f l).
Proof.
  intros Hf. induction l as [|[s|s r o pc] l IH]; [reflexivity | |].
  - cbn [map normal]. rewrite Hf. cbn [normal]. rewrite <- IH. destruct (normal l) as [|[t|] l']; cbn [merge_hole map]; rewrite ?Hf; cbn [normal]; rewrite ?merge_hole_assoc; reflexivity.
  - cbn [map normal]. destruct (f (Live s r o pc)); cbn [normal]; rewrite IH; reflexivity.
Qed.

Lemma normal_idem l : normal (normal l) = normal l.
Proof. pose proof (normal_map (fun c => c) l (fun _ => eq_refl)) as H. rewrite !map_id in H. exact H. Qed.

Lemma merge_hole_calm s l : calm l = true -> calm (merge_hole s l) = true.
Proof. destruct l as [|[t|] l]; cbn; try reflexivity; [|exact id]. destruct l as [|[]]; cbn; [reflexivity | discriminate | exact id]. Qed.

Lemma normal_calm l : calm (normal l) = true.
Proof. induction l as [|[s|] l IH]; [reflexivity | apply merge_hole_calm, IH | exact IH]. Qed.

Lemma calm_normal l : calm l = true -> normal l = l.
Proof.
  induction l as [|[s|] l IH]; [reflexivity | |]; cbn [normal].
  - intros E. destruct l as [|[t|] l]; [reflexivity | discriminate E|]. rewrite IH by exact E. reflexivity.
  - intros E. rewrite IH by exact E. reflexivity.
Qed.

Lemma calm_app_r l1 l2 : calm (l1 ++ l2) = true -> calm l2 = true.
Proof.
  induction l1 as [|[s|] l1 IH]; [exact id | |]; cbn [app calm]; [|exact IH].
  destruct (l1 ++ l2) as [|[]] eqn:E; intros H; [apply app_eq_nil in E as [-> ->]; reflexivity | discriminate H | apply IH, H].
Qed.

Lemma calm_cons c l : calm l = true -> (hole c = true -> match l with Hole _ :: _ => False | _ => True end) -> calm (c :: l) = true.
Proof. destruct c; cbn; intros E H; [|exact E]. destruct l as [|[]]; [reflexivity | destruct (H eq_refl) | exact E]. Qed.

Lemma calm_app l1 c l2 : hole c = false -> calm (l1 ++ c :: l2) = calm l1 && calm l2.
Proof.
  intros Hc. induction l1 as [|d l1 IH]; [destruct c; [discriminate Hc | reflexivity]|]. cbn [app calm]. rewrite IH.
  destruct d; [|reflexivity]. destruct l1 as [|[] l1]; [destruct c; [discriminate Hc | reflexivity] | reflexivity | reflexivity].
Qed.

Lemma normal_app l1 c l2 : hole c = false -> normal (l1 ++ c :: l2) = normal l1 ++ c :: normal l2.
Proof.
  intros Hc. induction l1 as [|d l1 IH]; [destruct c; [discriminate Hc | reflexivity]|]. cbn [app normal]. rewrite IH.
  destruct d; [|reflexivity]. destruct (normal l1) as [|[] l1']; [destruct c; [discriminate Hc | reflexivity] | reflexivity | reflexivity].
Qed.

(** ** The reference keeps a list well formed *)

Lemma merge_hole_extent s l : extent (merge_hole s l) = HEADER + s + extent l.
Proof. destruct l as [|[]]; cbn; unfold span; cbn; lia. Qed.

Lemma normal_extent l : extent (normal l) = extent l.
Proof. induction l as [|[s|] l IH]; [reflexivity | cbn [normal]; rewrite merge_hole_extent, IH; cbn; unfold span; cbn; lia | cbn; rewrite IH; reflexivity]. Qed.

Lemma hole_ok s : 16 <= s -> s mod 16 = 0 -> cell_ok (Hole s).
Proof. intros H1 H2. split; [exact H1 | split; [exact H2 | exact I]]. Qed.

Lemma mod16_merge s s' : s mod 16 = 0 -> s' mod 16 = 0 -> (s + HEADER + s') mod 16 = 0.
Proof. unfold HEADER. intros H1 H2. Z.div_mod_to_equations. lia. Qed.

Lemma merge_hole_ok s l : cell_ok (Hole s) -> blocks_ok l -> blocks_ok (merge_hole s l).
Proof.
  intros Hs Hl. destruct Hl as [|[t|] l Ht Hl]; cbn; [constructor; [exact Hs | constructor] | | constructor; [exact Hs | constructor; assumption]].
  constructor; [|exact Hl]. destruct Hs as (S1 & S2 & _), Ht as (T1 & T2 & _). cbn in *. apply hole_ok; [unfold HEADER; lia | apply mod16_merge; assumption].
Qed.

Lemma normal_ok l : blocks_ok l -> blocks_ok (normal l).
Proof. induction 1 as [|[s|] l Hc Hl IH]; [constructor | apply merge_hole_ok; assumption | constructor; assumption]. Qed.

Lemma find_fit_split n l l1 s l2 : find_fit n l = Some (l1, s, l2) -> l = l1 ++ Hole s :: l2 /\ n <= s.
Proof.
  revert l1. induction l as [|c l IH]; [discriminate|]. intros l1. cbn [find_fit].
  assert (K : option_map (fun '(l1, s', l2) => (c :: l1, s', l2)) (find_fit n l) = Some (l1, s, l2) -> c :: l = l1 ++ Hole s :: l2 /\ n <= s).
  { destruct (find_fit n l) as [[[m1 t] m2]|]; [|discriminate]. cbn. intros [= <- <- <-]. destruct (IH m1 eq_refl) as [-> Hn]. split; [reflexivity | exact Hn]. }
  destruct c as [t|]; [|exact K]. destruct (Z.leb_spec n t); [intros [= <- <- <-]; split; [reflexivity | assumption] | exact K].
Qed.

(** Nothing before the hole found would do. *)
Lemma find_fit_first n l l1 s l2 : find_fit n l = Some (l1, s, l2) -> forall t, In (Hole t) l1 -> t < n.
Proof.
  revert l1. induction l as [|c l IH]; [discriminate|]. intros l1. cbn [find_fit].
  assert (K : option_map (fun '(l1, s', l2) => (c :: l1, s', l2)) (find_fit n l) = Some (l1, s, l2) ->
    (forall t, c = Hole t -> t < n) -> forall t, In (Hole t) l1 -> t < n).
  { destruct (find_fit n l) as [[[m1 u] m2]|]; [|discriminate]. cbn. intros [= <- <- <-] Hc t [E|Hin]; [apply Hc, E | exact (IH m1 eq_refl t Hin)]. }
  destruct c as [u|]; [|intros E; apply (K E); discriminate].
  destruct (Z.leb_spec n u); [intros [= <- <- <-] t [] | intros E; apply (K E); intros t [= <-]; lia].
Qed.

Lemma find_fit_none n l : find_fit n l = None -> forall t, In (Hole t) l -> t < n.
Proof.
  induction l as [|c l IH]; [intros _ t []|]. cbn [find_fit]. intros E t [->|Hin].
  - destruct (Z.leb_spec n t); [discriminate E | assumption].
  - apply IH; [|exact Hin]. destruct (find_fit n l) as [[[]]|]; [|reflexivity]. destruct c as [u|]; [destruct (n <=? u)|]; discriminate E.
Qed.

Lemma carve_extent s n req own pc : extent (carve s n req own pc) = span (Hole s).
Proof. unfold carve, span, HEADER. destruct (_ <=? s); cbn; unfold span, HEADER; cbn; lia. Qed.

Lemma carve_ok s n req own pc : cell_ok (Hole s) -> 16 <= n <= s -> n mod 16 = 0 -> 0 <= req <= n -> blocks_ok (carve s n req own pc).
Proof.
  intros (S1 & S2 & _) Hn Hm Hr. unfold carve, HEADER in *. cbn in *. destruct (Z.leb_spec (n + 64 + 16) s); repeat constructor; cbn; try lia.
  Z.div_mod_to_equations. lia.
Qed.

(** ** Pieces that end at a live block *)

Definition settled (l : list cell) : Prop := l = [] \/ exists l' c, l = l' ++ [c] /\ hole c = false.

Lemma calm_app_l l1 l2 : calm (l1 ++ l2) = true -> calm l1 = true.
Proof.
  induction l1 as [|[s|] l1 IH]; [reflexivity | |]; cbn [app calm]; [|exact IH].
  destruct l1 as [|[] l1]; [reflexivity | discriminate | exact IH].
Qed.

Lemma calm_snoc l s : calm (l ++ [Hole s]) = true -> calm l = true /\ settled l.
Proof.
  intros E. split; [exact (calm_app_l _ _ E)|]. destruct l as [|c l _] using rev_ind; [left; reflexivity|]. right. exists l, c. split; [reflexivity|].
  rewrite <- app_assoc in E. apply calm_app_r in E. destruct c; [discriminate E | reflexivity].
Qed.

Lemma settled_normal l y : settled l -> calm l = true -> normal (l ++ y) = l ++ normal y.
Proof.
  intros [->|(l' & c & -> & Hc)] E; [reflexivity|]. rewrite <- !app_assoc. cbn [app]. rewrite normal_app by exact Hc.
  rewrite calm_app in E by exact Hc. apply andb_prop in E as [E _]. rewrite (calm_normal l' E). reflexivity.
Qed.

(** The piece before a block is settled, or it ends at a hole. *)
Lemma before_block l : calm l = true -> settled l \/ exists l0 s0, l = l0 ++ [Hole s0] /\ calm l0 = true /\ settled l0.
Proof.
  intros E. destruct l as [|c l _] using rev_ind; [left; left; reflexivity|]. destruct c as [s|s r o pc].
  - right. exists l, s. split; [reflexivity | exact (calm_snoc l s E)].
  - left. right. exists l, (Live s r o pc). split; reflexivity.
Qed.

(** ** The live blocks: their pointers and the sizes asked for *)

Fixpoint blocks (a : Z) (l : list cell) : list (Z * Z) :=
  match l with
  | [] => []
  | c :: l' => match c with Hole _ => blocks (a + span c) l' | Live _ r _ _ => (a + HEADER, r) :: blocks (a + span c) l' end
  end.

Lemma blocks_app a l1 l2 : blocks a (l1 ++ l2) = blocks a l1 ++ blocks (a + extent l1) l2.
Proof.
  revert a. induction l1 as [|c l1 IH]; intros a; cbn [app blocks extent]; [rewrite Z.add_0_r; reflexivity|].
  rewrite IH, Z.add_assoc. destruct c; reflexivity.
Qed.

Lemma blocks_merge a s l : blocks a (merge_hole s l) = blocks (a + span (Hole s)) l.
Proof. destruct l as [|[t|] l]; cbn; try reflexivity. unfold span. cbn. f_equal. lia. Qed.

Lemma blocks_normal a l : blocks a (normal l) = blocks a l.
Proof.
  revert a. induction l as [|[s|] l IH]; intros a; [reflexivity | cbn [normal]; rewrite blocks_merge; apply IH | cbn; rewrite IH; reflexivity].
Qed.

Lemma blocks_in p r l : forall a, In (p, r) (blocks a l) -> exists l1 s o pc l2, l = l1 ++ Live s r o pc :: l2 /\ p = a + extent l1 + HEADER.
Proof.
  induction l as [|c l IH]; intros a; [intros []|]. cbn [blocks].
  assert (K : In (p, r) (blocks (a + span c) l) -> exists l1 s o pc l2, c :: l = l1 ++ Live s r o pc :: l2 /\ p = a + extent l1 + HEADER).
  { intros H. destruct (IH _ H) as (l1 & s & o & pc & l2 & -> & ->). exists (c :: l1), s, o, pc, l2. split; [reflexivity | cbn; lia]. }
  destruct c as [s|s r' o pc]; [exact K|]. intros [[= <- <-]|H]; [|exact (K H)]. exists [], s, o, pc, l. split; [reflexivity | cbn; lia].
Qed.

Lemma blocks_range p r l : blocks_ok l -> forall a, In (p, r) (blocks a l) -> a + HEADER <= p /\ 0 <= r /\ p + r <= a + extent l /\ p < a + extent l.
Proof.
  intros B a H. destruct (blocks_in _ _ _ _ H) as (l1 & s & o & pc & l2 & -> & ->). apply Forall_app in B as [B1 B2].
  pose proof (Forall_inv B2) as (C & _ & C'). pose proof (extent_nonneg l1 B1). pose proof (extent_nonneg l2 (Forall_inv_tail B2)).
  rewrite extent_app. cbn [extent]. unfold span, HEADER. cbn in C |- *. lia.
Qed.

(** Blocks come in the order of their addresses, a header at least between two of them. *)
Fixpoint apart (L : list (Z * Z)) : Prop :=
  match L with [] => True | (p, r) :: L' => Forall (fun y => p + r + HEADER <= fst y) L' /\ apart L' end.

Lemma blocks_apart l : blocks_ok l -> forall a, apart (blocks a l).
Proof.
  induction 1 as [|c l Hc Hl IH]; intros a; cbn [blocks]; [exact I|]. destruct c as [s|s r o pc]; [apply IH|]. split; [|apply IH].
  apply List.Forall_forall. intros [q m] H. destruct (blocks_range _ _ _ Hl _ H) as (H1 & _). destruct Hc as (_ & _ & C). unfold span, HEADER in *. cbn in *. lia.
Qed.

(** Without live blocks an arena at rest is one hole. *)
Lemma no_blocks a l : blocks_ok l -> calm l = true -> blocks a l = [] -> 0 < extent l -> l = [Hole (extent l - HEADER)].
Proof.
  intros B C E X. destruct l as [|[s|] l]; [cbn in X; lia | | discriminate E]. cbn [blocks] in E.
  destruct l as [|[t|] l]; [|discriminate C | discriminate E]. cbn. unfold span. cbn. do 2 f_equal. lia.
Qed.

Lemma normal_both l1 l2 : normal (normal l1 ++ normal l2) = normal (l1 ++ l2).
Proof.
  induction l1 as [|[s|] l1 IH]; [apply normal_idem | | cbn; rewrite IH; reflexivity].
  cbn [app normal]. rewrite <- IH. destruct (normal l1) as [|[t|] l]; cbn [merge_hole app normal]; [reflexivity | rewrite merge_hole_assoc; reflexivity | reflexivity].
Qed.

(** The blocks of a heap become holes. *)
Definition owned (o : Z) (c : cell) : bool := match c with Hole _ => false | Live _ _ w _ => w =? o end.
Definition kill (o : Z) (c : cell) : cell := if owned o c then Hole (csize c) else c.
