(* ===== verification/ArenaRun.v ===== *)
(** * The arenas: every operation on a list of cells

    [rep] says that memory holds the headers of a list of cells and that the head of the free list
    is its first hole; [around] is the same with a gap between two pieces of the list, whose links
    across the gap are arguments.  The operations on links move one argument each. *)

From S2P Require Import Prelude Arena ArenaSpec.
#[local] Open Scope Z_scope.

(** ** Loops that end *)

Fixpoint turns {A B} (body : A -> A + B) (n : nat) (a : A) : A + B :=
  match n with O => inl a | Datatypes.S n' => match body a with inl a' => turns body n' a' | r => r end end.

Lemma turns_add {A B} (body : A -> A + B) n m a :
  turns body (n + m) a = match turns body n a with inl a' => turns body m a' | r => r end.
Proof. revert a. induction n as [|n IH]; intros a; cbn; [reflexivity|]. destruct (body a); [apply IH | reflexivity]. Qed.

Lemma turns_pos_nat {A B} (body : A -> A + B) p : forall a, turns_pos body p a = turns body (Pos.to_nat p) a.
Proof.
  induction p as [q IH|q IH|]; intros a; cbn [turns_pos].
  - rewrite Pos2Nat.inj_xI. replace (Datatypes.S (2 * Pos.to_nat q)) with (1 + (Pos.to_nat q + Pos.to_nat q))%nat by lia.
    cbn [turns plus]. destruct (body a) as [a'|]; [|reflexivity]. rewrite turns_add, <- IH. destruct (turns_pos body q a'); [apply IH | reflexivity].
  - rewrite Pos2Nat.inj_xO. replace (2 * Pos.to_nat q)%nat with (Pos.to_nat q + Pos.to_nat q)%nat by lia.
    rewrite turns_add, <- IH. destruct (turns_pos body q a); [apply IH | reflexivity].
  - change (Pos.to_nat 1) with 1%nat. cbn. destruct (body a); reflexivity.
Qed.

(** The loop ends with [b] in at most [k] turns. *)
Inductive runs {A B} (body : A -> A + B) : nat -> A -> B -> Prop :=
| runs_stop k a b : body a = inr b -> runs body (Datatypes.S k) a b
| runs_go k a a' b : body a = inl a' -> runs body k a' b -> runs body (Datatypes.S k) a b.

Lemma runs_weaken {A B} (body : A -> A + B) k k' a b : (k <= k')%nat -> runs body k a b -> runs body k' a b.
Proof.
  intros Hk H. revert k' Hk. induction H as [k a b E | k a a' b E _ IH]; intros k' Hk; (destruct k' as [|k']; [lia|]).
  - apply runs_stop, E.
  - eapply runs_go; [exact E | apply IH; lia].
Qed.

Lemma runs_turns {A B} (body : A -> A + B) k a b : runs body k a b -> forall n, (k <= n)%nat -> turns body n a = inr b.
Proof.
  induction 1 as [k a b E | k a a' b E _ IH]; intros n Hn; (destruct n as [|n]; [lia|]); cbn; rewrite E; [reflexivity | apply IH; lia].
Qed.

Lemma runs_pos {A B} (body : A -> A + B) k a b p : runs body k a b -> Z.of_nat k <= Z.pos p -> turns_pos body p a = inr b.
Proof. intros H Hk. rewrite turns_pos_nat. apply (runs_turns _ _ _ _ H). lia. Qed.

Section Arenas.
Context (data_arena code_arena data_heap : Z).
#[local] Abbreviation arena := (arena data_arena code_arena).

(** Where the linker puts the arenas. *)
Definition placed : Prop :=
  0 < data_arena /\ 0 < code_arena /\ data_arena mod 16 = 0 /\ code_arena mod 16 = 0 /\
  data_arena + DATA_BYTES < 2 ^ 63 /\ code_arena + CODE_BYTES < 2 ^ 63 /\
  (data_arena + DATA_BYTES <= code_arena \/ code_arena + CODE_BYTES <= data_arena).
Context (P : placed).

Lemma arena_pos a : 0 < arena a.
Proof. destruct P as (? & ? & _), a; assumption. Qed.

(** ** The state and the list *)

Definition rep (a : bool) (h : heap) (l : list cell) : Prop :=
  blocks_ok l /\ extent l = arena_bytes a /\
  free_head a h = first_free (arena a) l 0 /\ sat (mem h) (image (arena a) 0 0 l 0 0).

(** [l1], then a gap, then [l2] from [e] on.  [nx] is the block after [l1] and [nf] the next hole;
    [px] the block before [l2] and [fp] the hole before. *)
Record around (a : bool) (h : heap) (l1 : list cell) (nx nf e px fp : Z) (l2 : list cell) : Prop := mk_around {
  around_l : blocks_ok l1;
  around_r : blocks_ok l2;
  around_gap : arena a + extent l1 <= e;
  around_end : e + extent l2 = arena a + arena_bytes a;
  around_head : free_head a h = first_free (arena a) l1 nf;
  around_left : sat (mem h) (image (arena a) 0 0 l1 nx nf);
  around_right : sat (mem h) (image e px fp l2 0 0) }.

(** Nothing but the headers from [lo] to [hi] and the head of one free list changes. *)
Definition within (a : bool) (lo hi : Z) (h h' : heap) : Prop :=
  (forall x, ~ lo <= x < hi -> mem h' x = mem h x) /\ free_head (negb a) h' = free_head (negb a) h /\
  data h' = data h /\ ctrl h' = ctrl h /\ guest_task_bound h' = guest_task_bound h /\ guest_fibers h' = guest_fibers h /\
  Fs h' = Fs h /\ Fs_heap h' = Fs_heap h.

Lemma within_refl a lo hi h : within a lo hi h h.
Proof. repeat split. Qed.

Lemma within_trans a lo hi h1 h2 h3 : within a lo hi h1 h2 -> within a lo hi h2 h3 -> within a lo hi h1 h3.
Proof.
  intros (M1 & F1 & D1 & C1 & G1 & B1 & S1 & T1) (M2 & F2 & D2 & C2 & G2 & B2 & S2 & T2). repeat split; try congruence.
  intros x Hx. rewrite M2, M1 by exact Hx. reflexivity.
Qed.

Lemma within_wider a lo hi lo' hi' h h' : lo' <= lo -> hi <= hi' -> within a lo hi h h' -> within a lo' hi' h h'.
Proof. intros Hl Hh (M & R). split; [intros x Hx; apply M; lia | exact R]. Qed.

Lemma within_block a lo hi b f h : lo <= b < hi -> within a lo hi h (set_block b f h).
Proof. intros Hb. split; [intros x Hx; cbn; apply put_ne; lia|]. repeat split; destruct a; reflexivity. Qed.

Lemma within_free_head a lo hi x h : within a lo hi h (set_free_head a x h).
Proof. repeat split; destruct a; reflexivity. Qed.

(** ** The links across a gap *)

Lemma around_frame a h h' l1 nx nf e px fp l2 : around a h l1 nx nf e px fp l2 ->
  within a (arena a + extent l1) e h h' -> free_head a h' = free_head a h -> around a h' l1 nx nf e px fp l2.
Proof.
  intros [B1 B2 G E H L R] (M & _) F. constructor; try assumption; [congruence | |].
  - eapply sat_same; [exact B1 | | exact L]. intros x Hx. apply M. lia.
  - eapply sat_same; [exact B2 | | exact R]. intros x Hx. apply M. lia.
Qed.

Lemma link_next_within a l1 x h : blocks_ok l1 ->
  within a (arena a) (arena a + extent l1) h (link_next a (last_free (arena a) 0 l1) x h).
Proof.
  intros B. pose proof (arena_pos a). unfold link_next. destruct (has_hole l1) eqn:E.
  - pose proof (last_free_range l1 B E (arena a) 0). destruct (Z.eqb_spec (last_free (arena a) 0 l1) 0); [lia|]. apply within_block. lia.
  - rewrite no_hole_last by exact E. apply within_free_head.
Qed.

Lemma link_next_around a h l1 nx nf e px fp l2 x : around a h l1 nx nf e px fp l2 ->
  around a (link_next a (last_free (arena a) 0 l1) x h) l1 nx x e px fp l2.
Proof.
  intros [B1 B2 G E H L R]. pose proof (arena_pos a). pose proof (link_next_within a l1 x h B1) as (M & _).
  constructor; try assumption; [| | eapply sat_same; [exact B2 | intros y Hy; apply M; lia | exact R]].
  all: unfold link_next; destruct (has_hole l1) eqn:E1.
  all: try (pose proof (last_free_range l1 B1 E1 (arena a) 0); destruct (Z.eqb_spec (last_free (arena a) 0 l1) 0); [lia|]).
  - destruct a; cbn in *; rewrite H; apply first_free_any, E1.
  - rewrite no_hole_last, no_hole_free by exact E1. destruct a; reflexivity.
  - cbn [set_block set_mem mem]. apply sat_set_pad with (nf := nf); assumption.
  - rewrite no_hole_last by exact E1. cbn [set_free_head mem]. rewrite (no_hole_image l1 E1 _ _ _ 0 nx x nf). exact L.
Qed.

Lemma link_prev_within a e l2 x h : 0 < e -> blocks_ok l2 -> within a e (e + extent l2) h (link_prev (first_free e l2 0) x h).
Proof.
  intros He B. unfold link_prev. destruct (has_hole l2) eqn:E.
  - pose proof (first_free_range l2 B E e 0). destruct (Z.eqb_spec (first_free e l2 0) 0); [lia|]. apply within_block. lia.
  - rewrite no_hole_free by exact E. apply within_refl.
Qed.

Lemma link_prev_head a n x h : free_head a (link_prev n x h) = free_head a h.
Proof. unfold link_prev. destruct (n =? 0), a; reflexivity. Qed.

Lemma link_prev_around a h l1 nx nf e px fp l2 x : around a h l1 nx nf e px fp l2 ->
  around a (link_prev (first_free e l2 0) x h) l1 nx nf e px x l2.
Proof.
  intros [B1 B2 G E H L R]. pose proof (arena_pos a). pose proof (extent_nonneg l1 B1).
  pose proof (link_prev_within a e l2 x h ltac:(lia) B2) as (M & _).
  constructor; try assumption; [rewrite link_prev_head; exact H | eapply sat_same; [exact B1 | intros y Hy; apply M; lia | exact L] |].
  unfold link_prev. destruct (has_hole l2) eqn:E2.
  - pose proof (first_free_range l2 B2 E2 e 0). destruct (Z.eqb_spec (first_free e l2 0) 0); [lia|]. apply sat_set_owner with (fp := fp); assumption.
  - rewrite no_hole_free by exact E2. cbn. rewrite (no_hole_image l2 E2 _ _ x fp _ 0 0). exact R.
Qed.

(** [if (n) n->prev = x;] *)
Definition back_link (n x : Z) (h : heap) : heap := if n =? 0 then h else set_block n (set_prev x) h.

Lemma back_link_within a e l2 x h : 0 < e -> blocks_ok l2 -> within a e (e + extent l2) h (back_link (first_block e l2 0) x h).
Proof.
  intros He B. unfold back_link. destruct l2 as [|c l2]; [apply within_refl|]. cbn [first_block]. destruct (Z.eqb_spec e 0); [lia|].
  apply within_block. inversion B as [|? ? Hc Hl]; subst. pose proof (span_pos c Hc). pose proof (extent_nonneg l2 Hl). cbn. lia.
Qed.

Lemma back_link_around a h l1 nx nf e px fp l2 x : around a h l1 nx nf e px fp l2 ->
  around a (back_link (first_block e l2 0) x h) l1 nx nf e x fp l2.
Proof.
  intros [B1 B2 G E H L R]. pose proof (arena_pos a). pose proof (extent_nonneg l1 B1).
  pose proof (back_link_within a e l2 x h ltac:(lia) B2) as (M & _).
  assert (F : free_head a (back_link (first_block e l2 0) x h) = free_head a h).
  { unfold back_link. destruct (_ =? 0), a; reflexivity. }
  constructor; try assumption; [congruence | eapply sat_same; [exact B1 | intros y Hy; apply M; lia | exact L] |].
  unfold back_link. destruct l2 as [|c l2]; [exact R|]. cbn [first_block]. destruct (Z.eqb_spec e 0); [lia|].
  cbn [set_block set_mem mem]. apply sat_set_prev with (p := px); [exact B2 | discriminate | exact R].
Qed.

(** ** Opening and closing a gap *)

#[local] Abbreviation top a l := (arena a + extent l).
#[local] Abbreviation lb a l := (last_block (arena a) 0 l).
#[local] Abbreviation lf a l := (last_free (arena a) 0 l).

Lemma rep_ok a h l : rep a h l -> blocks_ok l.
Proof. intros (B & _). exact B. Qed.

Lemma rep_header a h l1 c l2 : rep a h (l1 ++ c :: l2) ->
  mem h (top a l1) = header (lb a l1) (first_block (top a l1 + span c) l2 0) (lf a l1) (first_free (top a l1 + span c) l2 0) c.
Proof.
  intros (_ & _ & _ & S). rewrite image_app in S. apply sat_app in S as [_ S]. inversion S as [|? ? E _]; subst. exact E.
Qed.

Lemma rep_open a h l1 c l2 : rep a h (l1 ++ c :: l2) ->
  around a h l1 (top a l1) (first_free (top a l1) (c :: l2) 0) (top a l1 + span c) (top a l1) (if hole c then top a l1 else lf a l1) l2 /\
  cell_ok c.
Proof.
  intros (B & E & F & S). apply Forall_app in B as [B1 B2]. inversion B2 as [|? ? Bc B2']; subst. split; [|exact Bc].
  rewrite extent_app in E. cbn [extent] in E. rewrite first_free_app in F. rewrite image_app in S. apply sat_app in S as [S1 S2].
  inversion S2 as [|? ? _ S3]; subst. pose proof (span_pos c Bc).
  constructor; [exact B1 | exact B2' | lia | lia | exact F | exact S1 | exact S3].
Qed.

Lemma rep_close a h l1 mid e l2 : around a h l1 (top a l1) (first_free (top a l1) mid (first_free e l2 0)) e
    (last_block (top a l1) (lb a l1) mid) (last_free (top a l1) (lf a l1) mid) l2 ->
  mid <> [] -> blocks_ok mid -> top a l1 + extent mid = e ->
  sat (mem h) (image (top a l1) (lb a l1) (lf a l1) mid (first_block e l2 0) (first_free e l2 0)) -> rep a h (l1 ++ mid ++ l2).
Proof.
  intros [B1 B2 G E H L R] N B Ee S. subst e. split; [apply Forall_app; split; [exact B1 | apply Forall_app; split; assumption]|].
  split; [rewrite !extent_app; lia|]. split; [rewrite !first_free_app; exact H|].
  rewrite !image_app. apply sat_app. split; [|apply sat_app; split; [exact S | exact R]].
  destruct mid as [|c mid]; [contradiction|]. rewrite first_free_app. exact L.
Qed.

Lemma around_block a h l1 nx nf e px fp l2 f : around a h l1 nx nf e px fp l2 -> forall b, top a l1 <= b < e ->
  around a (set_block b f h) l1 nx nf e px fp l2.
Proof. intros A b Hb. apply (around_frame _ _ _ _ _ _ _ _ _ _ A); [apply within_block; lia | destruct a; reflexivity]. Qed.

Lemma links_mem a h l1 nx nf e px fp l2 x y b : around a h l1 nx nf e px fp l2 -> top a l1 <= b < e ->
  mem (link_prev (first_free e l2 0) y (link_next a (lf a l1) x h)) b = mem h b.
Proof.
  intros A Hb. pose proof (arena_pos a). pose proof (extent_nonneg l1 (around_l _ _ _ _ _ _ _ _ _ A)).
  destruct (link_prev_within a e l2 y (link_next a (lf a l1) x h) ltac:(lia) (around_r _ _ _ _ _ _ _ _ _ A)) as (M2 & _).
  destruct (link_next_within a l1 x h (around_l _ _ _ _ _ _ _ _ _ A)) as (M1 & _). rewrite M2, M1 by lia. reflexivity.
Qed.

Lemma links_within a h l1 nx nf e px fp l2 x y : around a h l1 nx nf e px fp l2 ->
  within a (arena a) (arena a + arena_bytes a) h (link_prev (first_free e l2 0) y (link_next a (lf a l1) x h)).
Proof.
  intros A. pose proof (arena_pos a). pose proof (extent_nonneg l1 (around_l _ _ _ _ _ _ _ _ _ A)).
  pose proof (extent_nonneg l2 (around_r _ _ _ _ _ _ _ _ _ A)). pose proof (around_gap _ _ _ _ _ _ _ _ _ A). pose proof (around_end _ _ _ _ _ _ _ _ _ A).
  eapply within_trans.
  - eapply within_wider; [| | apply (link_next_within a l1 x h (around_l _ _ _ _ _ _ _ _ _ A))]; lia.
  - eapply within_wider; [| | apply (link_prev_within a e l2 y _ ltac:(lia) (around_r _ _ _ _ _ _ _ _ _ A))]; lia.
Qed.

Lemma links_around a h l1 nx nf e px fp l2 x y : around a h l1 nx nf e px fp l2 ->
  around a (link_prev (first_free e l2 0) y (link_next a (lf a l1) x h)) l1 nx x e px y l2.
Proof. intros A. apply link_prev_around with (fp := fp), link_next_around with (nf := nf). exact A. Qed.

(** ** The list of holes *)

(** A hole leaves the list of holes. *)
Lemma remove_rep a h l1 s l2 : rep a h (l1 ++ Hole s :: l2) ->
  let b := top a l1 in
  let e := b + span (Hole s) in
  let h' := free_list_remove a b h in
  around a h' l1 b (first_free e l2 0) e b (lf a l1) l2 /\
  mem h' b = mk_block BLOCK_MAGIC s 0 (lb a l1) (first_block e l2 0) 0 0 0 /\
  within a (arena a) (arena a + arena_bytes a) h h'.
Proof.
  intros R b e h'. destruct (rep_open _ _ _ _ _ R) as [A Bc]. pose proof (rep_header _ _ _ _ _ R) as E. fold b e in A, E.
  pose proof (span_pos _ Bc). cbn [hole header] in *. subst h'. unfold free_list_remove, free_prev, free_next. rewrite E. cbn [owner pad].
  pose proof (around_l _ _ _ _ _ _ _ _ _ A) as B1. pose proof (extent_nonneg l1 B1).
  pose proof (around_end _ _ _ _ _ _ _ _ _ A). pose proof (extent_nonneg l2 (around_r _ _ _ _ _ _ _ _ _ A)).
  split; [apply around_block; [eapply links_around, A | subst b e; lia]|]. split.
  - cbn [set_block set_mem mem]. rewrite put_eq, (links_mem _ _ _ _ _ _ _ _ _ _ _ _ A) by (subst b e; lia). rewrite E. reflexivity.
  - eapply within_trans; [eapply links_within, A | apply within_block; subst b e; lia].
Qed.

Lemma top_snoc a l c : top a (l ++ [c]) = top a l + span c.
Proof. rewrite extent_app. cbn. lia. Qed.

Lemma lf_snoc a l c : lf a (l ++ [c]) = if hole c then top a l else lf a l.
Proof. rewrite last_free_app. reflexivity. Qed.

Lemma length_bound a l : blocks_ok l -> extent l <= arena_bytes a -> Z.of_nat (length l) < Z.pos TURNS - 2.
Proof.
  intros B E. assert (80 * Z.of_nat (length l) <= extent l).
  { clear E. induction B as [|c l Hc _ IH]; cbn [extent length]; [lia|]. pose proof (span_pos c Hc). lia. }
  assert (arena_bytes a <= DATA_BYTES) by (destruct a; discriminate). unfold DATA_BYTES, TURNS in *. lia.
Qed.

Lemma around_header a h l1 c l1' nx nf e px fp l2 : around a h (l1 ++ c :: l1') nx nf e px fp l2 ->
  mem h (top a l1) = header (lb a l1) (first_block (top a (l1 ++ [c])) l1' nx) (lf a l1) (first_free (top a (l1 ++ [c])) l1' nf) c.
Proof.
  intros A. pose proof (around_left _ _ _ _ _ _ _ _ _ A) as S. rewrite image_app in S. apply sat_app in S as [_ S].
  rewrite top_snoc. inversion S as [|? ? E _]; subst. exact E.
Qed.

Lemma insert_runs a h nx e px fp l2 b : b < e -> forall l1' l1, around a h (l1 ++ l1') nx (first_free e l2 0) e px fp l2 ->
  b = top a (l1 ++ l1') ->
  runs (insert_turn b h) (1 + length l1') (lf a l1, first_free (top a l1) l1' (first_free e l2 0)) (lf a (l1 ++ l1'), first_free e l2 0).
Proof.
  intros Hb. induction l1' as [|c l1' IH]; intros l1 A Eb.
  - rewrite app_nil_r in *. apply runs_stop. cbn [first_free insert_turn]. replace (_ && _) with false; [reflexivity|]. symmetry.
    destruct (has_hole l2) eqn:E; [|rewrite no_hole_free by exact E; reflexivity].
    pose proof (first_free_range l2 (around_r _ _ _ _ _ _ _ _ _ A) E e 0). apply andb_false_intro2, Z.ltb_ge. lia.
  - specialize (IH (l1 ++ [c])). rewrite <- app_assoc in IH. cbn [app] in IH. specialize (IH A Eb). rewrite lf_snoc in IH.
    pose proof (around_l _ _ _ _ _ _ _ _ _ A) as B. apply Forall_app in B as [B1 B2]. pose proof (Forall_inv B2) as Hc. pose proof (Forall_inv_tail B2) as B3.
    pose proof (span_pos c Hc). pose proof (extent_nonneg l1' B3). pose proof (extent_nonneg l1 B1). pose proof (arena_pos a).
    cbn [length first_free]. destruct (hole c) eqn:Ec; [|rewrite <- top_snoc; eapply runs_weaken; [|exact IH]; lia].
    eapply runs_go; [|exact IH]. unfold insert_turn. rewrite extent_app in Eb. cbn [extent] in Eb.
    destruct (Z.eqb_spec (top a l1) 0); [lia|]. destruct (Z.ltb_spec (top a l1) b); [|lia]. cbn [negb andb]. unfold free_next.
    rewrite (around_header _ _ _ _ _ _ _ _ _ _ _ A). destruct c; [reflexivity | discriminate Ec].
Qed.

(** A block out of the list of holes goes back. *)
Lemma insert_rep a h l1 s l2 : let b := top a l1 in let e := b + span (Hole s) in
  around a h l1 b (first_free e l2 0) e b (lf a l1) l2 -> cell_ok (Hole s) ->
  mem h b = mk_block BLOCK_MAGIC s 0 (lb a l1) (first_block e l2 0) 0 0 0 ->
  exists h', free_list_insert a b h = Ret tt h' /\ rep a h' (l1 ++ Hole s :: l2) /\ within a (arena a) (arena a + arena_bytes a) h h'.
Proof.
  intros b e A Bc E. pose proof (span_pos _ Bc). pose proof (around_l _ _ _ _ _ _ _ _ _ A) as B1. pose proof (extent_nonneg l1 B1).
  pose proof (around_end _ _ _ _ _ _ _ _ _ A). pose proof (extent_nonneg l2 (around_r _ _ _ _ _ _ _ _ _ A)).
  pose proof (length_bound a l1 B1 ltac:(subst b e; lia)). unfold free_list_insert.
  pose proof (insert_runs a h b e b (lf a l1) l2 b ltac:(subst b e; lia) l1 [] A eq_refl) as W.
  cbn [app extent last_free] in W. rewrite Z.add_0_r, <- (around_head _ _ _ _ _ _ _ _ _ A) in W.
  rewrite (runs_pos _ _ _ _ TURNS W) by lia. cbn [of_loop].
  set (f := set_links (lf a l1) (first_free e l2 0)).
  pose proof (around_block _ _ _ _ _ _ _ _ _ f A b ltac:(subst b e; lia)) as A1.
  pose proof (links_around _ _ _ _ _ _ _ _ _ b b A1) as A2.
  eexists. split; [reflexivity|]. split.
  - apply (rep_close a _ l1 [Hole s] e l2); [exact A2 | discriminate | constructor; [exact Bc | constructor] | cbn; subst e b; lia|].
    constructor; [|constructor]. cbn [fst snd image extent first_block first_free]. rewrite (links_mem _ _ _ _ _ _ _ _ _ _ _ _ A1) by (subst b e; lia).
    cbn [set_block set_mem mem]. rewrite put_eq, E. subst f. reflexivity.
  - eapply within_trans; [apply (within_block _ _ _ b f); subst b e; lia | eapply links_within, A1].
Qed.
End Arenas.
