(* ===== verification/ArenaOps.v ===== *)
(** * The arenas: allocation and release on a list of cells *)

From S2P Require Import Prelude Arena ArenaSpec ArenaRun.
#[local] Open Scope Z_scope.

Section Arenas.
Context (data_arena code_arena : Z) (P : placed data_arena code_arena).
#[local] Abbreviation arena := (Arena.arena data_arena code_arena).
#[local] Abbreviation rep := (ArenaRun.rep data_arena code_arena).
#[local] Abbreviation around := (ArenaRun.around data_arena code_arena).
#[local] Abbreviation top a l := (arena a + extent l).
#[local] Abbreviation lb a l := (last_block (arena a) 0 l).
#[local] Abbreviation lf a l := (last_free (arena a) 0 l).
#[local] Abbreviation inside a := (within a (arena a) (arena a + arena_bytes a)).

(** ** Where a block is *)

Lemma top_range a h l1 c l2 : rep a h (l1 ++ c :: l2) ->
  0 <= extent l1 /\ 80 <= span c /\ top a l1 + span c <= arena a + arena_bytes a /\ 0 < arena a.
Proof.
  intros (B & E & _). apply Forall_app in B as [B1 B2]. pose proof (Forall_inv B2) as Bc. pose proof (Forall_inv_tail B2) as B3.
  pose proof (span_pos c Bc). pose proof (extent_nonneg l1 B1). pose proof (extent_nonneg l2 B3).
  rewrite extent_app in E. cbn in E. pose proof (arena_pos _ _ P a). lia.
Qed.

(** A write to one block that changes its cell and none of the links. *)
Lemma rep_block a h l1 s r o pc s' r' o' pc' l2 f : rep a h (l1 ++ Live s r o pc :: l2) ->
  (forall p n fp nf, f (header p n fp nf (Live s r o pc)) = header p n fp nf (Live s' r' o' pc')) ->
  s' = s -> cell_ok (Live s' r' o' pc') -> rep a (set_block (top a l1) f h) (l1 ++ Live s' r' o' pc' :: l2).
Proof.
  intros R Hf -> Hc. pose proof (top_range _ _ _ _ _ R). destruct (rep_open _ _ _ _ _ _ _ R) as [A _].
  pose proof (rep_header _ _ _ _ _ _ _ R) as E.
  apply (rep_close _ _ a _ l1 [Live s r' o' pc'] (top a l1 + span (Live s r o pc)) l2); try discriminate.
  - apply around_block; [exact A | lia].
  - constructor; [exact Hc | constructor].
  - cbn. unfold span. cbn. lia.
  - constructor; [|constructor]. cbn. rewrite put_eq, E, Hf. reflexivity.
Qed.

(** ** The search *)

Lemma search_runs a h n : forall l2 l1, rep a h (l1 ++ l2) ->
  runs (search_turn n h) (1 + length l2) (first_free (top a l1) l2 0)
    (match find_fit n l2 with Some (m1, _, _) => top a (l1 ++ m1) | None => 0 end).
Proof.
  induction l2 as [|c l2 IH]; intros l1 R; [apply runs_stop; reflexivity|].
  specialize (IH (l1 ++ [c])). rewrite <- app_assoc in IH. cbn [app] in IH. specialize (IH R).
  pose proof (top_range _ _ _ _ _ R). pose proof (rep_header _ _ _ _ _ _ _ R) as E. rewrite <- top_snoc in E.
  assert (W : forall m, runs (search_turn n h) (1 + length l2) m
    (match find_fit n l2 with Some (m1, _, _) => top a ((l1 ++ [c]) ++ m1) | None => 0 end) ->
    runs (search_turn n h) (1 + length l2) m (match option_map (fun '(l1, s', l2) => (c :: l1, s', l2)) (find_fit n l2) with
      Some (m1, _, _) => top a (l1 ++ m1) | None => 0 end)).
  { intros m. destruct (find_fit n l2) as [[[m1 s1] m2]|]; cbn [option_map]; [|exact id]. rewrite <- app_assoc. exact id. }
  cbn [length first_free find_fit]. destruct c as [s|s r o pc]; cbn [hole].
  - assert (Z0 : (top a l1 =? 0) = false) by (apply Z.eqb_neq; lia). destruct (Z.leb_spec n s).
    + apply runs_stop. unfold search_turn. rewrite Z0, E, app_nil_r. cbn [header size]. destruct (Z.ltb_spec s n); [lia | reflexivity].
    + eapply runs_go; [|apply W, IH]. unfold search_turn, free_next. rewrite Z0, E. cbn [header size pad].
      destruct (Z.ltb_spec s n); [reflexivity | lia].
  - rewrite <- top_snoc. eapply runs_weaken; [|apply W, IH]. lia.
Qed.

Lemma search_rep a h n l : rep a h l ->
  turns_pos (search_turn n h) TURNS (free_head a h) = inr (match find_fit n l with Some (l1, _, _) => top a l1 | None => 0 end).
Proof.
  intros R. pose proof R as (B & E & F & _). pose proof (length_bound a l B ltac:(lia)).
  pose proof (search_runs a h n l [] R) as W. cbn [app extent] in W. rewrite Z.add_0_r, <- F in W.
  apply (runs_pos _ _ _ _ TURNS W). lia.
Qed.

(** ** A block is taken *)

Lemma take_whole a h l1 s l2 n req own pc : rep a h (l1 ++ Hole s :: l2) -> 0 <= req <= n -> n <= s ->
  let b := top a l1 in
  rep a (set_block b (allocated req own pc) (free_list_remove a b h)) (l1 ++ Live s req own pc :: l2) /\
  inside a h (set_block b (allocated req own pc) (free_list_remove a b h)).
Proof.
  intros R Hr Hn b. pose proof (top_range _ _ _ _ _ R). destruct (rep_open _ _ _ _ _ _ _ R) as [_ (C1 & C2 & _)].
  destruct (remove_rep _ _ P _ _ _ _ _ R) as (A & E & W). fold b in A, E, W. change (span (Hole s)) with (span (Live s req own pc)) in *.
  pose proof (extent_nonneg l2 (around_r _ _ _ _ _ _ _ _ _ _ _ A)). split.
  - apply (rep_close _ _ a _ l1 [Live s req own pc] (b + span (Live s req own pc)) l2); try discriminate.
    + apply around_block; [exact A | subst b; lia].
    + repeat constructor; cbn in *; lia.
    + cbn. subst b. lia.
    + constructor; [|constructor]. cbn [fst snd image extent set_block set_mem mem]. rewrite put_eq, E. reflexivity.
  - eapply within_trans; [exact W | apply within_block; subst b; lia].
Qed.

Lemma take_block_split a b n h : b <> 0 -> (u64 (n + HEADER + 16) <=? size (mem h b)) = true ->
  let tail := b + HEADER + n in
  take_block a b n h =
  (let h1 := set_block tail (fun _ => mk_block BLOCK_MAGIC (u64 (size (mem h b) - n - HEADER)) 0 b (next (mem h b)) 0 0 0) h in
   free_list_replace a b tail (set_block b (fun x => set_size n (set_next tail x)) (back_link (next (mem h b)) tail h1))).
Proof.
  intros Hb H tail. unfold take_block. rewrite H. fold tail. unfold back_link, set_block at 2. cbn [set_mem mem].
  assert (E : next (put tail (mk_block BLOCK_MAGIC (u64 (size (mem h b) - n - HEADER)) 0 b (next (mem h b)) 0 0 0) (mem h) tail) = next (mem h b)) by (rewrite put_eq; reflexivity).
  rewrite !E. reflexivity.
Qed.

Lemma take_split a h l1 s l2 n req own pc : rep a h (l1 ++ Hole s :: l2) -> 0 <= req <= n -> 16 <= n -> n mod 16 = 0 ->
  n + HEADER + 16 <= s ->
  let b := top a l1 in
  rep a (set_block b (allocated req own pc) (take_block a b n h)) (l1 ++ [Live n req own pc; Hole (s - n - HEADER)] ++ l2) /\
  inside a h (set_block b (allocated req own pc) (take_block a b n h)).
Proof.
  intros R Hr Hn Hm Hs b. pose proof (top_range _ _ _ _ _ R) as T. destruct (rep_open _ _ _ _ _ _ _ R) as [A Bc].
  pose proof (rep_header _ _ _ _ _ _ _ R) as E. fold b in A, E. set (e := b + span (Hole s)) in *. cbn [hole header] in A, E.
  assert (He : e = b + HEADER + s) by (subst e; unfold span; cbn; lia).
  pose proof (around_end _ _ _ _ _ _ _ _ _ _ _ A) as Hend. pose proof (around_r _ _ _ _ _ _ _ _ _ _ _ A) as B2.
  pose proof (extent_nonneg l2 B2). assert (Hbytes : arena_bytes a < 2 ^ 63) by (destruct a; reflexivity).
  assert (U : u64 (n + HEADER + 16) = n + HEADER + 16) by (apply u64_id; unfold HEADER in *; lia).
  rewrite (take_block_split a b n h); [|subst b; lia | rewrite E, U; cbn [size]; apply Z.leb_le; exact Hs].
  cbv zeta. set (t := b + HEADER + n). assert (Ht : b < t < e) by (subst t; unfold HEADER in *; lia).
  rewrite E. cbn [size next]. rewrite (u64_id (s - n - HEADER)) by (unfold HEADER in *; lia).
  set (x := fun _ : block => mk_block BLOCK_MAGIC (s - n - HEADER) 0 b (first_block e l2 0) 0 0 0).
  pose proof (around_block _ _ _ _ _ _ _ _ _ _ _ x A t ltac:(lia)) as A1.
  pose proof (back_link_around _ _ P _ _ _ _ _ _ _ _ _ t A1) as A2. set (h2 := back_link _ _ _) in *.
  pose proof (back_link_within a e l2 t (set_block t x h) ltac:(subst b; lia) B2) as W2. fold h2 in W2.
  set (y := fun x => set_size n (set_next t x)). pose proof (around_block _ _ _ _ _ _ _ _ _ _ _ y A2 b ltac:(subst b; lia)) as A3.
  assert (Eb : mem h2 b = mem h b). { rewrite (proj1 W2) by lia. cbn. rewrite put_ne by lia. reflexivity. }
  assert (Et : mem h2 t = x (mem h t)). { rewrite (proj1 W2) by lia. cbn. rewrite put_eq. reflexivity. }
  unfold free_list_replace, free_prev, free_next.
  assert (E3 : mem (set_block b y h2) b = y (mem h b)) by (cbn; rewrite put_eq, Eb; reflexivity).
  rewrite E3, E. cbn [y set_size set_next owner pad].
  set (z := set_links (lf a l1) (first_free e l2 0)).
  pose proof (around_block _ _ _ _ _ _ _ _ _ _ _ z A3 t ltac:(lia)) as A4.
  pose proof (links_around _ _ P _ _ _ _ _ _ _ _ _ t t A4) as A5.
  pose proof (around_block _ _ _ _ _ _ _ _ _ _ _ (allocated req own pc) A5 b ltac:(subst b; lia)) as A6.
  split.
  - apply (rep_close _ _ a _ l1 [Live n req own pc; Hole (s - n - HEADER)] e l2); try discriminate.
    + cbn [last_block last_free hole first_free]. unfold span at 1 2 3. cbn [csize]. rewrite Z.add_assoc. exact A6.
    + pose proof (carve_ok s n req own pc Bc ltac:(unfold HEADER in *; lia) Hm Hr) as K. unfold carve in K.
      rewrite (proj2 (Z.leb_le _ _) Hs) in K. exact K.
    + cbn. unfold span. cbn. unfold HEADER in *. lia.
    + constructor; [|constructor; [|constructor]]; cbn [fst snd image extent first_block first_free last_free last_block hole header]; cbn [set_block set_mem mem].
      * rewrite put_eq, (links_mem _ _ P _ _ _ _ _ _ _ _ _ _ _ _ A4) by (subst b; lia). cbn [set_block set_mem mem].
        rewrite put_ne by lia. rewrite put_eq, Eb, E. unfold span. cbn [csize]. rewrite Z.add_assoc. reflexivity.
      * unfold span. cbn [csize]. rewrite !Z.add_assoc. fold t. rewrite put_ne by lia.
        rewrite (links_mem _ _ P _ _ _ _ _ _ _ _ _ _ _ _ A4) by (subst b; lia). cbn [set_block set_mem mem].
        rewrite put_eq, put_ne by lia. rewrite Et. replace (t + HEADER + (s - n - HEADER)) with e by (subst t; lia). reflexivity.
  - eapply within_trans; [|apply within_block; subst b; lia]. eapply within_trans; [|eapply links_within; [exact P | exact A4]].
    eapply within_trans; [|apply within_block; subst b; lia]. eapply within_trans; [|apply within_block; subst b; lia].
    eapply within_trans; [apply (within_block a _ _ t x); subst b; lia|]. eapply within_wider; [| | exact W2]; subst b; lia.
Qed.

Lemma take_rep a h l1 s l2 n req own pc : rep a h (l1 ++ Hole s :: l2) -> 0 <= req <= n -> 16 <= n <= s -> n mod 16 = 0 ->
  let b := top a l1 in
  let h' := set_block b (allocated req own pc) (take_block a b n h) in
  rep a h' (l1 ++ carve s n req own pc ++ l2) /\ inside a h h' /\
  size (mem h' b) = (if n + HEADER + 16 <=? s then n else s).
Proof.
  intros R Hr Hn Hm b h'. assert (K : rep a h' (l1 ++ carve s n req own pc ++ l2) /\ inside a h h').
  { unfold carve. destruct (Z.leb_spec (n + HEADER + 16) s) as [Hs|Hs].
    - apply take_split; tauto || lia.
    - pose proof (rep_header _ _ _ _ _ _ _ R) as E. subst h'. unfold take_block. fold b in E. rewrite E. cbn [header size].
      destruct (Z.leb_spec (u64 (n + HEADER + 16)) s) as [Hs'|_]; [|apply (take_whole a h l1 s l2 n); tauto || lia].
      rewrite u64_id in Hs'; [lia|]. pose proof (top_range _ _ _ _ _ R) as T. destruct (rep_open _ _ _ _ _ _ _ R) as [_ (C & _)].
      assert (arena_bytes a < 2 ^ 63) by (destruct a; reflexivity). unfold span, HEADER in *. cbn in T. lia. }
  destruct K as [K W]. split; [exact K | split; [exact W|]].
  unfold carve in K. destruct (n + HEADER + 16 <=? s); cbn [app] in K; pose proof (rep_header _ _ _ _ _ _ _ K) as F; fold b in F; rewrite F; reflexivity.
Qed.

(** ** Two holes become one *)

Lemma absorb_back b n h : n <> b -> absorb b n h =
  (let h1 := set_block b (fun x => set_next (next (mem h n)) (set_size (u64 (size x + u64 (HEADER + size (mem h n)))) x)) h in
   let h2 := set_block n (set_magic 0) h1 in back_link (next (mem h n)) b h2).
Proof.
  intros Hn. unfold absorb, back_link. cbn [set_block set_mem mem]. rewrite (put_ne n _ _ b) by lia. rewrite !put_eq. reflexivity.
Qed.

Lemma merge_pair a h l1 s s' l2 : rep a h (l1 ++ Hole s :: Hole s' :: l2) ->
  let b := top a l1 in
  let n := b + span (Hole s) in
  let h' := absorb b n (free_list_remove a n h) in
  rep a h' (l1 ++ Hole (s + HEADER + s') :: l2) /\ inside a h h' /\ magic (mem h' n) = 0.
Proof.
  intros R b n h'. pose proof (top_range _ _ _ _ _ R) as T. destruct (rep_open _ _ _ _ _ _ _ R) as [_ (S1 & S2 & _)].
  assert (R2 : rep a h ((l1 ++ [Hole s]) ++ Hole s' :: l2)) by (rewrite <- app_assoc; exact R).
  pose proof (top_range _ _ _ _ _ R2) as T2. destruct (rep_open _ _ _ _ _ _ _ R2) as [_ (S1' & S2' & _)]. cbn [csize] in *.
  destruct (remove_rep _ _ P _ _ _ _ _ R2) as (A & En & W). rewrite top_snoc in A, En, W, T2. fold b n in A, En, W, T2.
  change (first_free (n + span (Hole s')) l2 0) with (first_free (n + span (Hole s')) l2 0) in A.
  set (g := free_list_remove a n h) in *. set (e := n + span (Hole s')) in *. rewrite lf_snoc in A. cbn [hole] in A. fold b in A.
  pose proof (around_header _ _ _ _ _ _ [] _ _ _ _ _ _ A) as Eb. cbn [first_block first_free header] in Eb. fold b in Eb.
  pose proof (around_end _ _ _ _ _ _ _ _ _ _ _ A) as Hend. pose proof (around_r _ _ _ _ _ _ _ _ _ _ _ A) as B2.
  pose proof (extent_nonneg l2 B2). assert (Hb : b < n < e) by (subst n e; unfold span, HEADER in *; cbn; lia).
  assert (Hne : e = b + HEADER + (s + HEADER + s')) by (subst e n; unfold span; cbn; lia).
  assert (Hbytes : arena_bytes a < 2 ^ 63) by (destruct a; reflexivity).
  assert (A0 : around a g l1 b b e n b l2).
  { destruct A as [B1 _ G E0 F L Rr]. apply Forall_app in B1 as [B1 _]. rewrite first_free_app in F. rewrite image_app in L. apply sat_app in L as [L _].
    rewrite extent_app in G. constructor; try assumption; lia. }
  subst h'. rewrite absorb_back by lia. cbv zeta. rewrite En. cbn [next size].
  set (x := fun y => set_next (first_block e l2 0) (set_size (u64 (size y + u64 (HEADER + s'))) y)).
  pose proof (around_block _ _ _ _ _ _ _ _ _ _ _ x A0 b ltac:(subst b; lia)) as A1.
  pose proof (around_block _ _ _ _ _ _ _ _ _ _ _ (set_magic 0) A1 n ltac:(subst b; lia)) as A2.
  pose proof (back_link_around _ _ P _ _ _ _ _ _ _ _ _ b A2) as A3.
  pose proof (back_link_within a e l2 b (set_block n (set_magic 0) (set_block b x g)) ltac:(subst b; lia) B2) as W3.
  split; [|split].
  - apply (rep_close _ _ a _ l1 [Hole (s + HEADER + s')] e l2); try discriminate; [exact A3 | | cbn; unfold span; cbn; lia |].
    + constructor; [|constructor]. apply hole_ok; [unfold HEADER; lia | apply mod16_merge; assumption].
    + constructor; [|constructor]. cbn [fst snd image extent first_block first_free header]. rewrite (proj1 W3) by lia. cbn [set_block set_mem mem].
      rewrite put_ne, put_eq by lia. rewrite Eb. subst x. cbn [set_size set_next size magic requested prev owner used pad].
      assert (U1 : u64 (HEADER + s') = HEADER + s') by (apply u64_id; unfold HEADER in *; lia).
      assert (U2 : u64 (s + (HEADER + s')) = s + HEADER + s') by (rewrite u64_id; unfold HEADER in *; lia).
      rewrite U1, U2. replace (b + span (Hole (s + HEADER + s'))) with e by (unfold span; cbn; lia). reflexivity.
  - eapply within_trans; [exact W|]. eapply within_trans; [apply (within_block a _ _ b x); subst b; lia|].
    eapply within_trans; [apply (within_block a _ _ n (set_magic 0)); subst b; lia|]. eapply within_wider; [| | exact W3]; subst b; lia.
  - rewrite (proj1 W3) by lia. cbn [set_block set_mem mem]. rewrite put_eq. reflexivity.
Qed.

(** ** Release *)

Lemma first_used a h l1 c l2 : rep a h (l1 ++ c :: l2) ->
  is_free (first_block (top a (l1 ++ [c])) l2 0) h = match l2 with Hole _ :: _ => true | _ => false end.
Proof.
  intros R. unfold is_free. destruct l2 as [|d l2]; [reflexivity|]. cbn [first_block].
  assert (R2 : rep a h ((l1 ++ [c]) ++ d :: l2)) by (rewrite <- app_assoc; exact R).
  pose proof (top_range _ _ _ _ _ R2) as T. destruct (Z.eqb_spec (top a (l1 ++ [c])) 0); [lia|].
  rewrite (rep_header _ _ _ _ _ _ _ R2). destruct d; reflexivity.
Qed.

Lemma merge_next_rep a h l1 s l2 : rep a h (l1 ++ Hole s :: l2) ->
  rep a (merge_next a (top a l1) h) (l1 ++ merge_hole s l2) /\ inside a h (merge_next a (top a l1) h).
Proof.
  intros R. pose proof (first_used _ _ _ _ _ R) as F. unfold merge_next. rewrite (rep_header _ _ _ _ _ _ _ R). cbn [header next].
  rewrite <- top_snoc, F. destruct l2 as [|[s'|] l2]; cbn [merge_hole]; try (split; [exact R | apply within_refl]).
  cbn [first_block]. rewrite top_snoc. destruct (merge_pair _ _ _ _ _ _ R) as (R' & W & _). split; assumption.
Qed.

(** The hole at [b] is gone or a hole. *)
Definition dead (b : Z) (h : heap) : Prop := magic (mem h b) = 0 \/ used (mem h b) = 0.

Lemma merge_prev_rep a h l1 s l2 : rep a h (l1 ++ Hole s :: l2) -> calm l1 = true ->
  exists l0 t h', merge_prev a (top a l1) h = (top a l0, h') /\ rep a h' (l0 ++ Hole t :: l2) /\ inside a h h' /\
    dead (top a l1) h' /\ settled l0 /\ calm l0 = true /\
    (l0 = l1 /\ t = s \/ exists s0, l1 = l0 ++ [Hole s0] /\ t = s0 + HEADER + s).
Proof.
  intros R E. pose proof (rep_header _ _ _ _ _ _ _ R) as Eb. unfold merge_prev. rewrite Eb. cbn [header prev].
  destruct (before_block l1 E) as [St|(l0 & s0 & -> & E0 & St)].
  - assert (N : is_free (lb a l1) h = false).
    { destruct St as [->|(l' & c & -> & Hc)]; [reflexivity|]. rewrite last_block_app. cbn [last_block]. rewrite <- app_assoc in R.
      unfold is_free. rewrite (rep_header _ _ _ _ _ _ _ R). destruct c; [discriminate Hc|]. apply andb_false_r. }
    rewrite N. exists l1, s, h. refine (conj eq_refl (conj R (conj (within_refl _ _ _ _) (conj _ (conj St (conj E (or_introl (conj eq_refl eq_refl)))))))).
    right. rewrite Eb. reflexivity.
  - rewrite <- app_assoc in R. cbn [app] in R. rewrite last_block_app. cbn [last_block].
    destruct (merge_pair _ _ _ _ _ _ R) as (R' & W & M). pose proof (top_range _ _ _ _ _ R) as T.
    unfold is_free. rewrite (rep_header _ _ _ _ _ _ _ R). cbn [header used]. rewrite Z.eqb_refl. destruct (Z.eqb_spec (top a l0) 0); [lia|]. cbn [negb andb].
    rewrite top_snoc. eexists l0, (s0 + HEADER + s), _. split; [reflexivity|]. split; [exact R' |]. split; [exact W|].
    split; [left; exact M|]. split; [exact St|]. split; [exact E0|]. right. exists s0. split; reflexivity.
Qed.

(** Only the accounts and the copies of them in the guest change. *)
Definition same_headers (h h' : heap) : Prop := mem h' = mem h /\ forall a, free_head a h' = free_head a h.

Lemma rep_same a h h' l : same_headers h h' -> rep a h l -> rep a h' l.
Proof. intros (M & F) (B & E & H & S). unfold ArenaRun.rep. rewrite M, F. repeat split; assumption. Qed.

Definition account (o n : Z) (h : heap) : heap := sync_guest_heap o (charge o n h).

Lemma account_same o n h : same_headers h (account o n h).
Proof. unfold account, sync_guest_heap, charge. cbn. destruct (guest_task_bound h); split; try reflexivity; intros []; reflexivity. Qed.

Lemma which_arena a b : arena a <= b < arena a + arena_bytes a -> (code_arena <=? b) && (b <? code_arena + CODE_BYTES) = a.
Proof.
  intros H. destruct P as (_ & _ & _ & _ & _ & _ & D). destruct a; cbn [Arena.arena arena_bytes] in H.
  - apply andb_true_intro. split; [apply Z.leb_le | apply Z.ltb_lt]; lia.
  - apply andb_false_iff. rewrite Z.leb_gt, Z.ltb_ge. lia.
Qed.

Lemma release_rep a h l1 s r o pc l2 : rep a h (l1 ++ Live s r o pc :: l2) -> calm (l1 ++ Live s r o pc :: l2) = true ->
  exists l0 t l3 h', release code_arena (top a l1) h = Ret (top a l0) h' /\
    rep a h' (l0 ++ Hole t :: l3) /\ l0 ++ Hole t :: l3 = normal (l1 ++ Hole s :: l2) /\
    (l3 = l2 \/ exists s', l2 = Hole s' :: l3) /\ (l0 = l1 \/ exists s0, l1 = l0 ++ [Hole s0]) /\
    dead (top a l1) h' /\ inside a (account o (- s) h) h'.
Proof.
  intros R E. rewrite calm_app in E by reflexivity. apply andb_prop in E as [E1 E2].
  pose proof (rep_header _ _ _ _ _ _ _ R) as Eb. pose proof (top_range _ _ _ _ _ R) as T. unfold release. rewrite Eb. cbn [header owner size].
  rewrite (which_arena a (top a l1)) by lia. fold (account o (- s) h). set (h0 := account o (- s) h).
  pose proof (rep_same _ _ _ _ (account_same o (- s) h) R) as R0. fold h0 in R0.
  destruct (rep_open _ _ _ _ _ _ _ R0) as [A (C1 & C2 & _)]. cbn [hole csize first_free] in A, C1, C2. change (span (Live s r o pc)) with (span (Hole s)) in *.
  destruct (insert_rep _ _ P a (set_block (top a l1) released h0) l1 s l2) as (h1 & -> & R1 & W1).
  { apply around_block; [exact A | lia]. }
  { apply hole_ok; assumption. }
  { cbn [set_block set_mem mem]. rewrite put_eq, (rep_header _ _ _ _ _ _ _ R0). reflexivity. }
  cbn [bind]. destruct (merge_next_rep _ _ _ _ _ R1) as [R2 W2]. set (h2 := merge_next a (top a l1) h1) in *.
  assert (K : exists t l3, merge_hole s l2 = Hole t :: l3 /\ (l3 = l2 \/ exists s', l2 = Hole s' :: l3)).
  { destruct l2 as [|[s'|] l2]; cbn [merge_hole]; eauto 6. }
  destruct K as (t & l3 & Em & Hl3). rewrite Em in R2.
  destruct (merge_prev_rep _ _ _ _ _ R2 E1) as (l0 & u & h3 & -> & R3 & W3 & D & St & E0 & Hl0).
  exists l0, u, l3, h3. split; [reflexivity|]. split; [exact R3|]. split; [|split; [exact Hl3 | split; [|split; [exact D|]]]].
  - destruct Hl0 as [[-> ->]|(s0 & -> & ->)].
    + rewrite settled_normal by assumption. cbn [normal]. rewrite (calm_normal l2 E2), Em. reflexivity.
    + rewrite <- app_assoc. cbn [app]. rewrite settled_normal by assumption. cbn [normal]. rewrite (calm_normal l2 E2), Em. reflexivity.
  - destruct Hl0 as [[-> _]|(s0 & -> & _)]; eauto.
  - assert (W0 : inside a h0 (set_block (top a l1) released h0)) by (apply within_block; lia).
    exact (within_trans _ _ _ _ _ _ (within_trans _ _ _ _ _ _ (within_trans _ _ _ _ _ _ W0 W1) W2) W3).
Qed.
End Arenas.
