(* ===== verification/ArenaThms.v ===== *)
(** * The arenas: the invariant of the allocator

    [inv h cs] says that both arenas are those of the lists [cs], that no two holes are adjacent,
    that every heap is charged for the blocks it owns, and that the guest's copies of these sums
    agree with them.  Allocation, release and the removal of a heap's blocks keep it. *)

From Stdlib Require Import Permutation.
From S2P Require Import Prelude Arena ArenaSpec ArenaRun ArenaOps.
#[local] Open Scope Z_scope.

Lemma signed64_id x : 0 <= x < 2 ^ 63 -> signed 64 x = x.
Proof.
  intros H. unfold signed. change (wrap 64 x) with (u64 x). rewrite u64_id by lia. change (64 - 1) with 63.
  destruct (Z.ltb_spec x (2 ^ 63)); [reflexivity | lia].
Qed.

(** ** What a heap is charged *)

Fixpoint charged (o : Z) (l : list cell) : Z := match l with [] => 0 | c :: l' => (if owned o c then csize c else 0) + charged o l' end.

Lemma charged_app o l1 l2 : charged o (l1 ++ l2) = charged o l1 + charged o l2.
Proof. induction l1 as [|c l1 IH]; cbn; [reflexivity | rewrite IH; lia]. Qed.

Lemma charged_bound o l : blocks_ok l -> 0 <= charged o l <= extent l.
Proof. induction 1 as [|c l Hc _ IH]; cbn; [lia|]. pose proof (span_pos c Hc). unfold span, HEADER in *. destruct (owned o c); lia. Qed.

Lemma charged_merge o s l : charged o (merge_hole s l) = charged o l.
Proof. destruct l as [|[]]; reflexivity. Qed.

Lemma charged_normal o l : charged o (normal l) = charged o l.
Proof. induction l as [|[s|] l IH]; [reflexivity | cbn [normal]; rewrite charged_merge; exact IH | cbn; rewrite IH; reflexivity]. Qed.

(** ** The guest's copies *)

Definition synced (h : heap) : Prop :=
  guest_task_bound h = true ->
  NoDup (map heap_owner (guest_fibers h)) /\ Forall (fun f => in_use f = true -> heap_word f = used_u8s (ctrl h (heap_owner f))) (guest_fibers h).

Lemma sync_fibers_owners o u l : map heap_owner (sync_fibers o u l) = map heap_owner l.
Proof. induction l as [|f l IH]; [reflexivity|]. cbn. destruct (_ && _); [reflexivity | cbn; rewrite IH; reflexivity]. Qed.

Lemma sync_fibers_other o c c' l : (forall x, x <> o -> used_u8s (c' x) = used_u8s (c x)) -> ~ In o (map heap_owner l) ->
  Forall (fun f => in_use f = true -> heap_word f = used_u8s (c (heap_owner f))) l ->
  Forall (fun f => in_use f = true -> heap_word f = used_u8s (c' (heap_owner f))) l.
Proof.
  intros Hc Hn H. rewrite List.Forall_forall in *. intros f Hf U. rewrite Hc; [apply H; assumption|].
  intros E. apply Hn. rewrite <- E. apply in_map. exact Hf.
Qed.

Lemma sync_fibers_ok o c c' l : (forall x, x <> o -> used_u8s (c' x) = used_u8s (c x)) -> NoDup (map heap_owner l) ->
  Forall (fun f => in_use f = true -> heap_word f = used_u8s (c (heap_owner f))) l ->
  Forall (fun f => in_use f = true -> heap_word f = used_u8s (c' (heap_owner f))) (sync_fibers o (used_u8s (c' o)) l).
Proof.
  intros Hc. induction l as [|f l IH]; intros N H; [constructor|]. cbn [sync_fibers map] in *.
  inversion N as [|? ? Nf N']; subst. clear N. rename N' into N. pose proof (Forall_inv H) as Hf. pose proof (Forall_inv_tail H) as Ht.
  destruct (Z.eqb_spec o (heap_owner f)) as [->|No]; cbn [andb].
  - assert (K : Forall (fun f => in_use f = true -> heap_word f = used_u8s (c' (heap_owner f))) l).
    { apply (sync_fibers_other (heap_owner f) c); [exact Hc | intros Hin; apply Nf, list_elem_of_In, Hin | exact Ht]. }
    destruct (in_use f) eqn:U; [constructor; [intros _; reflexivity | exact K]|]. constructor; [intros U'; congruence|].
    replace (sync_fibers _ _ l) with l; [exact K|]. symmetry. clear - Nf. induction l as [|g l IHl]; [reflexivity|]. cbn in *.
    apply not_elem_of_cons in Nf as [Ng Nf]. destruct (Z.eqb_spec (heap_owner f) (heap_owner g)); [contradiction|]. cbn. rewrite IHl by exact Nf. reflexivity.
  - constructor; [|apply IH; assumption]. intros U. rewrite Hc by congruence. exact (Hf U).
Qed.

Lemma account_synced o n h : synced h -> synced (account o n h).
Proof.
  unfold synced, account, sync_guest_heap. destruct (guest_task_bound (charge o n h)) eqn:G; [|congruence]. cbn in G |- *.
  intros H _. destruct (H G) as [N F]. rewrite sync_fibers_owners. split; [exact N|].
  apply sync_fibers_ok with (c := ctrl h); [|exact N | exact F]. intros x Hx. rewrite put_ne by exact Hx. reflexivity.
Qed.

Section Arenas.
Context (data_arena code_arena : Z) (P : placed data_arena code_arena).
#[local] Abbreviation arena := (Arena.arena data_arena code_arena).
#[local] Abbreviation rep := (ArenaRun.rep data_arena code_arena).
#[local] Abbreviation top a l := (arena a + extent l).
#[local] Abbreviation inside a := (within a (arena a) (arena a + arena_bytes a)).

Definition set_cells (a : bool) (l : list cell) (cs : bool -> list cell) : bool -> list cell := fun x => if Bool.eqb x a then l else cs x.

Lemma set_cells_eq a l cs : set_cells a l cs a = l.
Proof. unfold set_cells. rewrite Bool.eqb_reflx. reflexivity. Qed.
Lemma set_cells_ne a l cs : set_cells a l cs (negb a) = cs (negb a).
Proof. destruct a; reflexivity. Qed.

Record inv (h : heap) (cs : bool -> list cell) : Prop := mk_inv {
  inv_rep : forall a, rep a h (cs a);
  inv_calm : forall a, calm (cs a) = true;
  inv_books : forall o, used_u8s (ctrl h o) = charged o (cs false) + charged o (cs true);
  inv_synced : synced h }.

(** One arena changes and [n] is charged to [o]. *)
Definition moved (a : bool) (o n : Z) (h h' : heap) : Prop :=
  (forall x, ~ arena a <= x < arena a + arena_bytes a -> mem h' x = mem h x) /\ free_head (negb a) h' = free_head (negb a) h /\
  data h' = data h /\ ctrl h' = ctrl (account o n h) /\ guest_task_bound h' = guest_task_bound h /\
  guest_fibers h' = guest_fibers (account o n h) /\ Fs h' = Fs h /\ Fs_heap h' = Fs_heap h.

Lemma account_rest o n h :
  mem (account o n h) = mem h /\ (forall a, free_head a (account o n h) = free_head a h) /\ data (account o n h) = data h /\
  guest_task_bound (account o n h) = guest_task_bound h /\ Fs (account o n h) = Fs h /\ Fs_heap (account o n h) = Fs_heap h.
Proof. unfold account, sync_guest_heap, charge. cbn. destruct (guest_task_bound h) eqn:G; cbn; repeat split; try (intros []; reflexivity); exact G. Qed.

Lemma account_ctrl o n h :
  ctrl (account o n h) = put o (mk_heap (signed 64 (used_u8s (ctrl h o) + n)) (is_code_heap (ctrl h o)) (mem_task (ctrl h o))) (ctrl h).
Proof. unfold account, sync_guest_heap, charge. cbn. destruct (guest_task_bound h); reflexivity. Qed.

Lemma moved_before a o n h h' : inside a (account o n h) h' -> moved a o n h h'.
Proof.
  destruct (account_rest o n h) as (M & F & D & G & S & T). intros (M' & F' & D' & C' & G' & B' & S' & T').
  split; [intros x Hx; rewrite M' by exact Hx; rewrite M; reflexivity|]. rewrite F', F, D', D, C', G', G, B', S', S, T', T. repeat split.
Qed.

Lemma moved_after a o n h h' : inside a h h' -> moved a o n h (account o n h').
Proof.
  destruct (account_rest o n h') as (M & F & D & G & S & T). intros (M' & F' & D' & C' & G' & B' & S' & T').
  split; [intros x Hx; rewrite M; apply M', Hx|]. rewrite F, F', D, D', G, G', S, S', T, T'. repeat split.
  all: unfold account, sync_guest_heap, charge; cbn; rewrite ?G', ?C', ?B'; destruct (guest_task_bound h); cbn; rewrite ?G', ?C', ?B'; reflexivity.
Qed.

Lemma other_arena a h h' l : (forall x, ~ arena a <= x < arena a + arena_bytes a -> mem h' x = mem h x) ->
  free_head (negb a) h' = free_head (negb a) h -> rep (negb a) h l -> rep (negb a) h' l.
Proof.
  intros M F (B & E & H & S). split; [exact B|]. split; [exact E|]. split; [congruence|].
  eapply sat_same; [exact B | | exact S]. intros x Hx. apply M. destruct P as (_ & _ & _ & _ & _ & _ & D). destruct a; cbn in *; lia.
Qed.

Lemma inv_moved a o n h h' cs l' : inv h cs -> moved a o n h h' -> rep a h' l' -> calm l' = true ->
  (forall o', charged o' l' = charged o' (cs a) + if o' =? o then n else 0) -> inv h' (set_cells a l' cs).
Proof.
  intros [R C B Y] (M & F & _ & Ec & G & Ef & _) R' C' Hc.
  assert (K : forall b, rep b h' (set_cells a l' cs b)).
  { intros b. destruct (Bool.eqb b a) eqn:E; [apply Bool.eqb_prop in E as ->; rewrite set_cells_eq; exact R'|].
    replace b with (negb a) by (destruct a, b; try reflexivity; discriminate E). rewrite set_cells_ne. apply (other_arena a h); [exact M | exact F | apply R]. }
  constructor; [exact K | | |].
  - intros b. destruct (Bool.eqb b a) eqn:E; [apply Bool.eqb_prop in E as ->; rewrite set_cells_eq; exact C'|].
    replace b with (negb a) by (destruct a, b; try reflexivity; discriminate E). rewrite set_cells_ne. apply C.
  - intros o'. rewrite Ec, account_ctrl.
    assert (T : charged o' (set_cells a l' cs false) + charged o' (set_cells a l' cs true) = used_u8s (ctrl h o') + if o' =? o then n else 0).
    { rewrite B. destruct a; unfold set_cells; cbn [Bool.eqb]; rewrite Hc; lia. }
    assert (Bd : 0 <= charged o' (set_cells a l' cs false) + charged o' (set_cells a l' cs true) < 2 ^ 63).
    { destruct (K false) as (K1 & K2 & _), (K true) as (K3 & K4 & _). pose proof (charged_bound o' _ K1). pose proof (charged_bound o' _ K3).
      rewrite K2, K4 in *. cbn [arena_bytes] in *. unfold DATA_BYTES, CODE_BYTES in *. lia. }
    rewrite T in Bd. rewrite T. clear K. unfold put. destruct (Z.eqb_spec o' o) as [E|E]; [subst o'|]; cbn [used_u8s]; [apply signed64_id, Bd | lia].
  - unfold synced. rewrite G, Ec, Ef. pose proof (account_synced o n h Y) as Y'. unfold synced in Y'. destruct (account_rest o n h) as (_ & _ & _ & G0 & _).
    rewrite G0 in Y'. exact Y'.
Qed.
End Arenas.

(** ** The arenas: allocation, release and the removal of a heap keep the invariant *)


(** ** Sizes *)

Lemma round16_eq count : 0 <= count <= DATA_BYTES -> round16 count = 16 * Z.max 1 ((count + 15) / 16).
Proof.
  intros H. unfold DATA_BYTES in H. unfold round16. rewrite u64_id by lia.
  assert (E : Z.land (count + 15) (u64 (Z.lnot 15)) = 16 * ((count + 15) / 16)).
  { change (u64 (Z.lnot 15)) with (Z.shiftl (Z.ones 60) 4).
    replace (Z.land (count + 15) (Z.shiftl (Z.ones 60) 4)) with (Z.shiftl (Z.land (Z.shiftr (count + 15) 4) (Z.ones 60)) 4).
    - rewrite Z.land_ones by lia. rewrite Z.shiftl_mul_pow2, Z.shiftr_div_pow2 by lia. change (2 ^ 4) with 16.
      rewrite Z.mod_small; [lia|]. split; [apply Z.div_pos; lia | apply Z.div_lt_upper_bound; lia].
    - apply Z.bits_inj'. intros i Hi. rewrite Z.shiftl_spec, !Z.land_spec, Z.shiftl_spec by lia. destruct (Z.ltb_spec i 4).
      + rewrite !(Z.testbit_neg_r _ (i - 4)) by lia. rewrite !andb_false_r. reflexivity.
      + rewrite Z.shiftr_spec by lia. replace (i - 4 + 4) with i by lia. reflexivity. }
  rewrite E. pose proof (Z.div_pos (count + 15) 16 ltac:(lia) ltac:(lia)). destruct (Z.eqb_spec (16 * ((count + 15) / 16)) 0); lia.
Qed.

Lemma round16_ok count : 0 <= count <= DATA_BYTES -> count <= round16 count /\ 16 <= round16 count <= DATA_BYTES /\ round16 count mod 16 = 0.
Proof.
  intros H. rewrite round16_eq by exact H. unfold DATA_BYTES in *. split; [|split]; [Z.div_mod_to_equations; lia | Z.div_mod_to_equations; lia |].
  rewrite Z.mul_comm. apply Z.mod_mul. lia.
Qed.

Section Arenas.
Context (data_arena code_arena data_heap : Z) (P : placed data_arena code_arena).
#[local] Abbreviation arena := (Arena.arena data_arena code_arena).
#[local] Abbreviation rep := (ArenaRun.rep data_arena code_arena).
#[local] Abbreviation inv := (ArenaThms.inv data_arena code_arena).
#[local] Abbreviation top a l := (arena a + extent l).

(** ** Allocation *)

(** The list after an allocation, and where the bytes are. *)
Definition ref_alloc (count own pc : Z) (l : list cell) : option (Z * list cell) :=
  if (count <? 0) || (DATA_BYTES <? count) then None
  else match find_fit (16 * Z.max 1 ((count + 15) / 16)) l with
       | Some (l1, s, l2) => Some (extent l1 + HEADER, l1 ++ carve s (16 * Z.max 1 ((count + 15) / 16)) count own pc ++ l2)
       | None => None
       end.

Lemma carve_calm l1 s n req own pc l2 : calm (l1 ++ Hole s :: l2) = true -> calm (l1 ++ carve s n req own pc ++ l2) = true.
Proof.
  intros E. pose proof (calm_app_l _ _ E) as E1. pose proof (calm_app_r _ _ E) as E2. unfold carve. destruct (_ <=? s); cbn [app].
  - rewrite calm_app by reflexivity. rewrite E1. cbn [andb calm] in *. exact E2.
  - rewrite calm_app by reflexivity. rewrite E1. cbn [andb]. exact (calm_app_r [Hole s] l2 E2).
Qed.

Lemma carve_charged o' s n req own pc :
  charged o' (carve s n req own pc) = if o' =? own then (if n + HEADER + 16 <=? s then n else s) else 0.
Proof. unfold carve. rewrite (Z.eqb_sym o'). destruct (_ <=? s); cbn; destruct (own =? o'); lia. Qed.

Definition owner_of (t : Z) (h : heap) : Z := heap_for data_heap t h.
Definition arena_of (o : Z) (h : heap) : bool := negb (is_code_heap (ctrl h o) =? 0).

Lemma alloc_inv count t pc h cs : inv h cs ->
  let o := owner_of t h in
  let a := arena_of o h in
  match ref_alloc count o pc (cs a) with
  | Some (off, l') => exists h', arena_alloc data_heap count t pc h = Ret (arena a + off) h' /\ inv h' (set_cells a l' cs) /\
      (exists n, moved data_arena code_arena a o n h h')
  | None => exists why, arena_alloc data_heap count t pc h = Failed why h
  end.
Proof.
  intros I o a. unfold ref_alloc, arena_alloc. destruct ((count <? 0) || (DATA_BYTES <? count)) eqn:Er; [eexists; reflexivity|].
  apply orb_false_iff in Er as [E1 E2]. apply Z.ltb_ge in E1, E2. pose proof (round16_ok count ltac:(lia)) as (N1 & N2 & N3).
  rewrite <- round16_eq by lia. fold (owner_of t h). fold o. fold (arena_of o h). fold a.
  pose proof (inv_rep _ _ _ _ I a) as R. rewrite (search_rep _ _ P _ _ _ _ R). cbn [of_loop].
  destruct (find_fit (round16 count) (cs a)) as [[[l1 s] l2]|] eqn:F; [|eexists; reflexivity].
  pose proof (find_fit_split _ _ _ _ _ F) as [El Hs]. rewrite El in R.
  pose proof (top_range _ _ P _ _ _ _ _ R) as T. destruct (Z.eqb_spec (top a l1) 0) as [E0|_]; [lia|].
  destruct (take_rep _ _ P a h l1 s l2 (round16 count) count o pc R ltac:(lia) ltac:(lia) N3) as (R' & W & Sz).
  set (h1 := set_block _ _ _) in *. rewrite Sz. set (n := if _ <=? s then _ else s) in *.
  exists (account o n h1). split; [unfold account; f_equal; lia|].
  pose proof (moved_after data_arena code_arena a o n h h1 W) as Mv. split; [|exists n; exact Mv].
  apply (inv_moved _ _ P a o n h _ cs _ I Mv).
  - apply (rep_same _ _ _ _ _ _ (account_same o n h1) R').
  - apply carve_calm. rewrite <- El. apply (inv_calm _ _ _ _ I).
  - intros o'. rewrite El, !charged_app. cbn [charged owned]. rewrite carve_charged. subst n. lia.
Qed.

(** ** Release *)

Lemma in_arena_top a l1 c l2 h : rep a h (l1 ++ c :: l2) ->
  in_arena data_arena code_arena false (top a l1 + HEADER) || in_arena data_arena code_arena true (top a l1 + HEADER) = true /\
  (top a l1 + HEADER) mod 16 = 0.
Proof.
  intros R. pose proof (top_range _ _ P _ _ _ _ _ R) as T. split.
  - apply orb_true_iff. unfold in_arena. rewrite !andb_true_iff, !Z.leb_le, !Z.ltb_lt.
    destruct R as (B & _). apply Forall_app in B as [_ B]. pose proof (Forall_inv B) as (C & _). unfold span, HEADER in *. cbn in C.
    destruct a; [right | left]; cbn [Arena.arena] in *; lia.
  - destruct P as (_ & _ & M1 & M2 & _). assert (Ma : arena a mod 16 = 0) by (destruct a; assumption).
    assert (Ml : extent l1 mod 16 = 0) by (destruct R as (B & _); apply Forall_app in B as [B _]; apply extent_mod16, B).
    unfold HEADER. rewrite Z.add_mod, (Z.add_mod (arena a)), Ma, Ml by lia. reflexivity.
Qed.

Lemma get_block_live a h l1 s r o pc l2 : rep a h (l1 ++ Live s r o pc :: l2) ->
  get_block data_arena code_arena (top a l1 + HEADER) h = Ret (top a l1) h.
Proof.
  intros R. destruct (in_arena_top _ _ _ _ _ R) as [E1 E2]. unfold get_block. rewrite E1, E2. cbn [negb orb Z.eqb].
  replace (top a l1 + HEADER - HEADER) with (top a l1) by lia. rewrite (rep_header _ _ _ _ _ _ _ R). reflexivity.
Qed.

Lemma get_block_dead a h h' l1 c l2 : rep a h (l1 ++ c :: l2) -> dead (top a l1) h' ->
  get_block data_arena code_arena (top a l1 + HEADER) h' = Failed InvalidFree h'.
Proof.
  intros R D. destruct (in_arena_top _ _ _ _ _ R) as [E1 E2]. unfold get_block. rewrite E1, E2. cbn [negb orb Z.eqb].
  replace (top a l1 + HEADER - HEADER) with (top a l1) by lia. destruct D as [-> | ->]; [reflexivity|]. rewrite orb_true_r. reflexivity.
Qed.

Lemma release_inv h cs a l1 s r o pc l2 : inv h cs -> cs a = l1 ++ Live s r o pc :: l2 ->
  exists l0 t l3 h', release code_arena (top a l1) h = Ret (top a l0) h' /\
    cs a <> [] /\ inv h' (set_cells a (l0 ++ Hole t :: l3) cs) /\ l0 ++ Hole t :: l3 = normal (l1 ++ Hole s :: l2) /\
    (l3 = l2 \/ exists s', l2 = Hole s' :: l3) /\ (l0 = l1 \/ exists s0, l1 = l0 ++ [Hole s0]) /\
    dead (top a l1) h' /\ moved data_arena code_arena a o (- s) h h'.
Proof.
  intros I El. pose proof (inv_rep _ _ _ _ I a) as R. pose proof (inv_calm _ _ _ _ I a) as C. rewrite El in R, C.
  destruct (release_rep _ _ P _ _ _ _ _ _ _ _ R C) as (l0 & t & l3 & h' & E & R' & En & H2 & H1 & D & W).
  pose proof (moved_before data_arena code_arena a o (- s) h h' W) as Mv.
  exists l0, t, l3, h'. split; [exact E|]. split; [rewrite El; destruct l1; discriminate|]. split; [|repeat (split; [assumption|]); exact Mv].
  apply (inv_moved _ _ P a o (- s) h h' cs _ I Mv R').
  - rewrite En. apply normal_calm.
  - intros o'. rewrite En, charged_normal, El, !charged_app. cbn [charged owned csize]. rewrite (Z.eqb_sym o' o). destruct (o =? o'); lia.
Qed.

Lemma Free_inv h cs a l1 s r o pc l2 : inv h cs -> cs a = l1 ++ Live s r o pc :: l2 ->
  exists h', Free data_arena code_arena (top a l1 + HEADER) h = Ret tt h' /\
    inv h' (set_cells a (normal (l1 ++ Hole s :: l2)) cs) /\ moved data_arena code_arena a o (- s) h h' /\
    Free data_arena code_arena (top a l1 + HEADER) h' = Failed InvalidFree h'.
Proof.
  intros I El. pose proof (inv_rep _ _ _ _ I a) as R. rewrite El in R. pose proof (top_range _ _ P _ _ _ _ _ R) as T.
  destruct (release_inv _ _ _ _ _ _ _ _ _ I El) as (l0 & t & l3 & h' & E & _ & I' & En & _ & _ & D & Mv).
  assert (Z0 : (top a l1 + HEADER =? 0) = false) by (apply Z.eqb_neq; unfold HEADER; lia).
  exists h'. unfold Free. rewrite Z0, (get_block_live _ _ _ _ _ _ _ _ R). cbn [bind]. rewrite E. cbn [bind].
  rewrite (get_block_dead _ _ _ _ _ _ R D). split; [reflexivity|]. split; [rewrite <- En; exact I'|]. split; [exact Mv | reflexivity].
Qed.

(** ** The blocks of a heap *)

Lemma inv_ext h cs cs' : (forall a, cs' a = cs a) -> inv h cs -> inv h cs'.
Proof. intros E [R C B Y]. constructor; [intros a; rewrite E; apply R | intros a; rewrite E; apply C | intros o; rewrite !E; apply B | exact Y]. Qed.

Lemma set_cells_twice a l l' cs b : set_cells a l' (set_cells a l cs) b = set_cells a l' cs b.
Proof. unfold set_cells. destruct (Bool.eqb b a); reflexivity. Qed.

Lemma kill_idle o l : Forall (fun c => owned o c = false) l -> map (kill o) l = l.
Proof. induction 1 as [|c l H _ IH]; [reflexivity|]. cbn [map]. unfold kill at 1. rewrite H, IH. reflexivity. Qed.

Lemma reclaim_runs o a : forall n l2, (length l2 <= n)%nat -> forall l1 h cs, inv h cs -> cs a = l1 ++ l2 -> Forall (fun c => owned o c = false) l1 ->
  exists h', runs (reclaim_turn code_arena o) (1 + n) (first_block (top a l1) l2 0, h) (Ret tt h') /\
    inv h' (set_cells a (normal (map (kill o) (cs a))) cs) /\ data h' = data h.
Proof.
  induction n as [|n IH]; intros [|c l2] Hn l1 h cs I El H1; cbn in Hn; try lia.
  1,2: exists h; split; [apply runs_stop; reflexivity|]; split; [|reflexivity]; apply (inv_ext h cs); [|exact I]; intros b;
       rewrite El, app_nil_r, kill_idle by exact H1; pose proof (inv_calm _ _ _ _ I a) as C; rewrite El, app_nil_r in C; rewrite calm_normal by exact C;
       unfold set_cells; destruct (Bool.eqb b a) eqn:Eb; [apply Bool.eqb_prop in Eb as ->; rewrite El, app_nil_r; reflexivity | reflexivity].
  cbn [first_block]. pose proof (inv_rep _ _ _ _ I a) as R. rewrite El in R. pose proof (top_range _ _ P _ _ _ _ _ R) as T.
  assert (Z0 : (top a l1 =? 0) = false) by (apply Z.eqb_neq; lia). destruct (owned o c) eqn:Eo.
  - destruct c as [|s r o' pc]; [discriminate Eo|]. cbn [owned] in Eo. apply Z.eqb_eq in Eo as ->.
    destruct (release_inv _ _ _ _ _ _ _ _ _ I El) as (l0 & t & l3 & h1 & E & _ & I1 & En & H3 & H0 & _ & Mv).
    assert (F0 : Forall (fun c => owned o c = false) (l0 ++ [Hole t])).
    { apply Forall_app. split; [|repeat constructor]. destruct H0 as [->|(s0 & ->)]; [exact H1 | apply Forall_app in H1 as [H1 _]; exact H1]. }
    assert (E1 : set_cells a (l0 ++ Hole t :: l3) cs a = (l0 ++ [Hole t]) ++ l3) by (rewrite set_cells_eq, <- app_assoc; reflexivity).
    destruct (IH l3 ltac:(destruct H3 as [->|(s' & ->)]; cbn in *; lia) _ h1 _ I1 E1 F0) as (h' & Rn & I' & D').
    exists h'. split; [|split].
    + eapply runs_go; [|exact Rn]. cbn [reclaim_turn]. rewrite Z0, (rep_header _ _ _ _ _ _ _ R). cbn [header used owner]. rewrite Z.eqb_refl. cbn [negb andb Z.eqb].
      rewrite E. pose proof (inv_rep _ _ _ _ I1 a) as R1. rewrite set_cells_eq in R1. rewrite (rep_header _ _ _ _ _ _ _ R1). cbn [header next].
      rewrite top_snoc. reflexivity.
    + apply (inv_ext h' _ _ (fun b => eq_sym (set_cells_twice a _ _ cs b))) in I'. rewrite set_cells_eq, En, normal_map in I' by reflexivity.
      rewrite El, map_app in *. cbn [map] in *. unfold kill at 2 in I'. unfold kill at 2. cbn [owned csize] in *. rewrite Z.eqb_refl. exact I'.
    + rewrite D'. apply Mv.
  - destruct (IH l2 ltac:(lia) (l1 ++ [c]) h cs I ltac:(rewrite El, <- app_assoc; reflexivity)) as (h' & Rn & I' & D').
    { apply Forall_app. split; [exact H1 | repeat constructor; exact Eo]. }
    exists h'. split; [|split; assumption]. eapply runs_go; [|exact Rn]. cbn [reclaim_turn]. rewrite Z0, (rep_header _ _ _ _ _ _ _ R). rewrite top_snoc.
    destruct c as [s|s r o' pc]; cbn [header used owner next owned] in *; [reflexivity|]. rewrite Eo. reflexivity.
Qed.

Lemma reclaim_arena_inv o a h cs : inv h cs -> exists h', reclaim_arena data_arena code_arena o a h = Ret tt h' /\
  inv h' (set_cells a (normal (map (kill o) (cs a))) cs) /\ data h' = data h.
Proof.
  intros I. pose proof (inv_rep _ _ _ _ I a) as (B & E & _). pose proof (length_bound a _ B ltac:(lia)) as L.
  destruct (reclaim_runs o a (length (cs a)) (cs a) ltac:(lia) [] h cs I eq_refl ltac:(constructor)) as (h' & Rn & I' & D).
  exists h'. split; [|split; assumption]. unfold reclaim_arena. cbn [extent] in Rn. rewrite Z.add_0_r in Rn.
  assert (F : first_block (arena a) (cs a) 0 = arena a).
  { destruct (cs a); [|reflexivity]. cbn in E. destruct a; discriminate E. }
  rewrite F in Rn. rewrite (runs_pos _ _ _ _ TURNS Rn) by lia. reflexivity.
Qed.

Lemma charged_kill o l : charged o (map (kill o) l) = 0.
Proof. induction l as [|c l IH]; [reflexivity|]. cbn [map charged]. unfold kill at 1 2. destruct (owned o c) eqn:E; cbn; rewrite ?E, IH; reflexivity. Qed.

Lemma reclaim_inv o h cs : inv h cs -> exists h', reclaim_guest_heap data_arena code_arena o h = Ret tt h' /\
  inv h' (fun a => normal (map (kill o) (cs a))) /\ used_u8s (ctrl h' o) = 0 /\ data h' = data h.
Proof.
  intros I. destruct (reclaim_arena_inv o false h cs I) as (h1 & E1 & I1 & D1). destruct (reclaim_arena_inv o true h1 _ I1) as (h2 & E2 & I2 & D2).
  assert (I' : inv h2 (fun a => normal (map (kill o) (cs a)))) by (eapply inv_ext; [|exact I2]; intros []; reflexivity).
  exists h2. unfold reclaim_guest_heap. rewrite E1. cbn [bind]. split; [exact E2|]. split; [exact I'|]. split; [|congruence].
  rewrite (inv_books _ _ _ _ I'), !charged_normal, !charged_kill. reflexivity.
Qed.
End Arenas.

(** ** The arenas: what the run-time library promises its clients

    First fit over all the blocks, release with complete coalescing, the removal of a heap, and
    sessions of allocations and releases in any order. *)

Section Arenas.
Context (data_arena code_arena data_heap : Z).
#[local] Abbreviation arena := (Arena.arena data_arena code_arena).
#[local] Abbreviation inv := (ArenaThms.inv data_arena code_arena).
#[local] Abbreviation placed := (ArenaRun.placed data_arena code_arena).

(** ** Sessions

    [session h ps]: the program holds the blocks [ps], pointers with the sizes it asked for, which
    it was given and has not given back, after any sequence of requests, refused ones included, of
    writes to payloads and of changes of the current task. *)

Definition start (h : heap) : heap := arena_init true code_arena CODE_BYTES (arena_init false data_arena DATA_BYTES h).

Inductive session : heap -> list (Z * Z) -> Prop :=
| session_start h : (forall o, used_u8s (ctrl h o) = 0) -> guest_task_bound h = false -> session (start h) []
| session_malloc h ps count t pc p h' : session h ps -> arena_alloc data_heap count t pc h = Ret p h' -> session h' ((p, count) :: ps)
| session_calloc h ps n t pc p h' : session h ps -> CAlloc data_heap n t pc h = Ret p h' -> session h' ((p, n) :: ps)
| session_refused h ps count t pc why h' : session h ps -> arena_alloc data_heap count t pc h = Failed why h' -> session h' ps
| session_free h ps1 p n ps2 h' : session h (ps1 ++ (p, n) :: ps2) -> Free data_arena code_arena p h = Ret tt h' -> session h' (ps1 ++ ps2)
| session_realloc h ps1 p r ps2 n pc q h' : session h (ps1 ++ (p, r) :: ps2) -> n <> 0 ->
    realloc data_arena code_arena data_heap p n pc h = Ret q h' -> session h' ((q, signed 64 n) :: ps1 ++ ps2)
| session_write h ps d : session h ps -> session (set_data d h) ps
| session_switch h ps t hp : session h ps ->
    session (mk_state (mem h) (data h) (free_data h) (free_code h) (ctrl h) (guest_task_bound h) (guest_fibers h) t hp) ps.

(** The live blocks, those of the data arena first. *)
Definition held (cs : bool -> list cell) : list (Z * Z) := blocks data_arena (cs false) ++ blocks code_arena (cs true).

Context (P : placed).

Lemma inv_same h h' cs : same_headers h h' -> ctrl h' = ctrl h -> guest_task_bound h' = guest_task_bound h -> guest_fibers h' = guest_fibers h ->
  inv h cs -> inv h' cs.
Proof.
  intros S E G F [R C B Y]. constructor; [|exact C | rewrite E; exact B | unfold synced; rewrite E, G, F; exact Y].
  intros a. apply (rep_same _ _ _ h); [exact S | apply R].
Qed.

Lemma inv_data h cs d : inv h cs -> inv (set_data d h) cs.
Proof. apply inv_same; try reflexivity. split; [reflexivity | intros []; reflexivity]. Qed.

(** One piece of an arena changes: the blocks of the rest stay. *)
Lemma held_upd a l1 mid l2 l' mid' cs : cs a = l1 ++ mid ++ l2 -> extent mid' = extent mid -> blocks (arena a) l' = blocks (arena a) (l1 ++ mid' ++ l2) ->
  exists rest, Permutation (held cs) (blocks (arena a + extent l1) mid ++ rest) /\ Permutation (held (set_cells a l' cs)) (blocks (arena a + extent l1) mid' ++ rest).
Proof.
  intros E Em El. set (b := arena a + extent l1).
  assert (K : forall m, extent m = extent mid -> blocks (arena a) (l1 ++ m ++ l2) = blocks (arena a) l1 ++ blocks b m ++ blocks (b + extent mid) l2)
    by (intros m Hm; rewrite !blocks_app, Hm; reflexivity).
  rewrite (K _ Em) in El. apply (f_equal (blocks (arena a))) in E. rewrite (K _ eq_refl) in E.
  assert (Q : forall u v w x : list (Z * Z), Permutation (u ++ v ++ w) (v ++ u ++ w) /\ Permutation (x ++ u ++ v ++ w) (v ++ x ++ u ++ w)).
  { intros u v w x. assert (Q : forall u v w : list (Z * Z), Permutation (u ++ v ++ w) (v ++ u ++ w)) by (intros; apply Permutation_app_swap_app).
    split; [apply Q|]. rewrite (Q u v w), (Q x v). reflexivity. }
  unfold held, set_cells. destruct a; cbn [Bool.eqb Arena.arena] in *; rewrite E, El.
  - eexists. split; apply (Q _ _ _ (blocks data_arena (cs false))).
  - eexists. rewrite <- !app_assoc. split; apply Q; exact [].
Qed.

Lemma alloc_held count t pc h cs p h' : inv h cs -> arena_alloc data_heap count t pc h = Ret p h' ->
  exists cs', inv h' cs' /\ Permutation (held cs') ((p, count) :: held cs) /\ data h' = data h.
Proof.
  intros I E. pose proof (alloc_inv _ _ data_heap P count t pc h cs I) as K. cbv zeta in K. set (o := owner_of data_heap t h) in *. set (a := arena_of o h) in *.
  destruct (ref_alloc count o pc (cs a)) as [[off l']|] eqn:Er; [|destruct K as (why & K); congruence].
  destruct K as (h1 & E1 & I1 & n & Mv). rewrite E1 in E. injection E as <- <-. exists (set_cells a l' cs). split; [exact I1|]. split; [|apply Mv].
  unfold ref_alloc in Er. destruct (_ || _); [discriminate Er|].
  destruct (find_fit _ (cs a)) as [[[l1 s] l2]|] eqn:F; [|discriminate Er]. injection Er as <- <-. destruct (find_fit_split _ _ _ _ _ F) as [El _].
  set (n' := 16 * _). destruct (held_upd a l1 [Hole s] l2 (l1 ++ carve s n' count o pc ++ l2) (carve s n' count o pc) cs El) as (rest & P1 & P2).
  { rewrite carve_extent. cbn. lia. }
  { reflexivity. }
  rewrite P1, P2, Z.add_assoc. unfold carve. destruct (_ <=? s); reflexivity.
Qed.

Lemma held_in p r cs : In (p, r) (held cs) -> exists a l1 s o pc l2, cs a = l1 ++ Live s r o pc :: l2 /\ p = arena a + extent l1 + HEADER.
Proof.
  intros H. apply in_app_or in H as [H|H]; apply blocks_in in H as (l1 & s & o & pc & l2 & E1 & E2); [exists false | exists true];
  exists l1, s, o, pc, l2; split; assumption.
Qed.

(** A held block is given back. *)
Lemma free_held h cs p r qs : inv h cs -> Permutation ((p, r) :: qs) (held cs) ->
  exists h' cs', Free data_arena code_arena p h = Ret tt h' /\ inv h' cs' /\ Permutation qs (held cs') /\ data h' = data h.
Proof.
  intros I Pm. assert (Hin : In (p, r) (held cs)) by (apply (Permutation_in _ Pm); left; reflexivity).
  destruct (held_in _ _ _ Hin) as (a & l1 & s & o & pc & l2 & El & ->).
  destruct (Free_inv _ _ P _ _ _ _ _ _ _ _ _ I El) as (h' & E & I' & Mv & _). exists h', (set_cells a (normal (l1 ++ Hole s :: l2)) cs).
  split; [exact E|]. split; [exact I'|]. split; [|apply Mv].
  destruct (held_upd a l1 [Live s r o pc] l2 (normal (l1 ++ Hole s :: l2)) [Hole s] cs El) as (rest & P1 & P2); [reflexivity | apply blocks_normal|].
  rewrite P2. rewrite P1 in Pm. cbn in Pm |- *. exact (Permutation_cons_inv Pm).
Qed.

(** ** The start *)

Definition empty (a : bool) : list cell := [Hole (arena_bytes a - HEADER)].

Lemma start_inv h : (forall o, used_u8s (ctrl h o) = 0) -> guest_task_bound h = false -> inv (start h) empty.
Proof.
  intros B G. destruct P as (_ & _ & _ & _ & _ & _ & D).
  constructor.
  - intros a. split; [repeat constructor; destruct a; (reflexivity || discriminate)|]. split; [destruct a; reflexivity|]. split; [destruct a; reflexivity|].
    constructor; [|constructor]. cbn. destruct a; cbn [Arena.arena]; [rewrite put_eq; reflexivity|].
    rewrite put_ne by (unfold DATA_BYTES, CODE_BYTES in D; lia). rewrite put_eq. reflexivity.
  - intros []; reflexivity.
  - intros o. cbn. apply B.
  - intros E. cbn in E. congruence.
Qed.

(** ** Sizes and changes of size *)

Lemma MSize_held h cs p r : inv h cs -> In (p, r) (held cs) -> p <> 0 /\ p mod 16 = 0 /\ MSize data_arena code_arena p h = Ret r h.
Proof.
  intros I H. destruct (held_in _ _ _ H) as (a & l1 & s & o & pc & l2 & El & ->). pose proof (inv_rep _ _ _ _ I a) as R. rewrite El in R.
  pose proof (top_range _ _ P _ _ _ _ _ R) as T. assert (N : arena a + extent l1 + HEADER <> 0) by (unfold HEADER; lia).
  split; [exact N|]. split; [apply (in_arena_top _ _ P _ _ _ _ _ R)|]. unfold MSize. apply Z.eqb_neq in N. rewrite N.
  rewrite (get_block_live _ _ P _ _ _ _ _ _ _ _ R). cbn [bind]. rewrite (rep_header _ _ _ _ _ _ _ R). reflexivity.
Qed.

Lemma arena_alloc_failed count t pc h why h' : arena_alloc data_heap count t pc h = Failed why h' -> h' = h.
Proof.
  unfold arena_alloc. destruct (_ || _); [congruence|]. unfold of_loop. destruct (turns_pos _ _ _) as [|b]; [discriminate|].
  destruct (b =? 0); [congruence | discriminate].
Qed.

Lemma realloc_held h cs p r qs n pc q h' : inv h cs -> Permutation ((p, r) :: qs) (held cs) -> n <> 0 ->
  realloc data_arena code_arena data_heap p n pc h = Ret q h' ->
  exists cs', inv h' cs' /\ Permutation ((q, signed 64 n) :: qs) (held cs') /\ data h' = copy q p (Z.min n r) (data h).
Proof.
  intros I Pm Hn. unfold realloc. destruct (Z.eqb_spec n 0); [contradiction|].
  destruct (arena_alloc data_heap (signed 64 n) 0 pc h) as [q1 h1| |] eqn:Ea; cbn [bind]; [|discriminate | discriminate].
  destruct (alloc_held _ _ _ _ _ _ _ I Ea) as (cs1 & I1 & Pm1 & D1). rewrite <- Pm in Pm1.
  assert (Hin : In (p, r) (held cs1)) by (apply (Permutation_in _ (Permutation_sym Pm1)); right; left; reflexivity).
  destruct (MSize_held _ _ _ _ I1 Hin) as (Hp & _ & Em). apply Z.eqb_neq in Hp. rewrite Hp, Em. cbn [bind].
  set (h2 := set_data _ h1). pose proof (inv_data h1 cs1 (copy q1 p (Z.min n r) (data h1)) I1) as I2. fold h2 in I2.
  destruct (free_held h2 cs1 p r ((q1, signed 64 n) :: qs) I2) as (h3 & cs3 & E3 & I3 & Pm3 & D3); [rewrite Pm1; apply perm_swap|].
  rewrite E3. cbn [bind]. intros [= <- <-]. exists cs3. split; [exact I3|]. split; [exact Pm3|]. rewrite D3. subst h2. cbn. rewrite D1. reflexivity.
Qed.

Lemma session_inv h ps : session h ps -> exists cs, inv h cs /\ Permutation ps (held cs).
Proof.
  induction 1 as [h B G | h ps count t pc p h' _ (cs & I & Pm) E | h ps n t pc p h' _ (cs & I & Pm) E | h ps count t pc why h' _ (cs & I & Pm) E
    | h ps1 p n ps2 h' _ (cs & I & Pm) E | h ps1 p r ps2 n pc q h' _ (cs & I & Pm) Hn E | h ps d _ (cs & I & Pm) | h ps t hp _ (cs & I & Pm)].
  - exists empty. split; [apply start_inv; assumption | reflexivity].
  - destruct (alloc_held _ _ _ _ _ _ _ I E) as (cs' & I' & Pm' & _). exists cs'. split; [exact I'|]. rewrite Pm', Pm. reflexivity.
  - unfold CAlloc in E. destruct (arena_alloc _ _ _ _ _) as [q h1| |] eqn:Ea; cbn in E; [injection E as <- <- | discriminate | discriminate].
    destruct (alloc_held _ _ _ _ _ _ _ I Ea) as (cs' & I' & Pm' & _). exists cs'. split; [apply inv_data, I'|]. rewrite Pm', Pm. reflexivity.
  - rewrite (arena_alloc_failed _ _ _ _ _ _ E). exists cs. split; assumption.
  - rewrite <- Permutation_middle in Pm. destruct (free_held _ _ _ _ _ I Pm) as (h1 & cs' & E1 & I' & Pm' & _). rewrite E1 in E. injection E as <-.
    exists cs'. split; assumption.
  - rewrite <- Permutation_middle in Pm. destruct (realloc_held _ _ _ _ _ _ _ _ _ I Pm Hn E) as (cs' & I' & Pm' & _). exists cs'. split; assumption.
  - exists cs. split; [apply inv_data, I | exact Pm].
  - exists cs. split; [apply (inv_same h); try reflexivity; [split; [reflexivity | intros []; reflexivity] | exact I] | exact Pm].
Qed.
End Arenas.
