(* ===== verification/ArenaProps.v ===== *)
(** * The arenas: properties *)

From Stdlib Require Import Permutation.
From S2P Require Import Prelude Arena ArenaSpec ArenaRun ArenaOps ArenaThms.
#[local] Open Scope Z_scope.

(** ** Blocks that lie apart *)

Lemma apart_pair L : apart L -> forall x y, In x L -> In y L -> x <> y -> fst x + snd x + HEADER <= fst y \/ fst y + snd y + HEADER <= fst x.
Proof.
  induction L as [|[p r] L IH]; [intros _ x y []|]. cbn [apart]. intros [F A] x y [<-|Hx] [<-|Hy] N; [contradiction | | | exact (IH A x y Hx Hy N)].
  - left. exact (proj1 (List.Forall_forall _ _) F y Hy).
  - right. exact (proj1 (List.Forall_forall _ _) F x Hx).
Qed.

Lemma apart_nodup L : Forall (fun x => 0 <= snd x) L -> apart L -> List.NoDup L.
Proof.
  induction 1 as [|[p r] L Hr _ IH]; [constructor|]. cbn [apart]. intros [F A]. constructor; [|apply IH, A].
  intros H. pose proof (proj1 (List.Forall_forall _ _) F _ H). unfold HEADER in *. cbn in *. lia.
Qed.

Lemma apart_app L1 L2 : apart L1 -> apart L2 -> (forall x y, In x L1 -> In y L2 -> fst x + snd x + HEADER <= fst y) -> apart (L1 ++ L2).
Proof.
  intros A1 A2. induction L1 as [|[p r] L1 IH]; [intros _; exact A2|]. cbn [app apart] in *. destruct A1 as [F A1]. intros H. split.
  - apply Forall_app. split; [exact F|]. apply List.Forall_forall. intros y Hy. apply (H (p, r)); [left; reflexivity | exact Hy].
  - apply IH; [exact A1|]. intros x y Hx Hy. apply H; [right; exact Hx | exact Hy].
Qed.

Section Arenas.
Context (data_arena code_arena data_heap : Z).
#[local] Abbreviation arena := (Arena.arena data_arena code_arena).
#[local] Abbreviation inv := (ArenaThms.inv data_arena code_arena).
#[local] Abbreviation placed := (ArenaRun.placed data_arena code_arena).
#[local] Abbreviation session := (ArenaThms.session data_arena code_arena data_heap).
#[local] Abbreviation held := (ArenaThms.held data_arena code_arena).

Fixpoint free_all (ps : list Z) (h : heap) : outcome unit :=
  match ps with [] => Ret tt h | p :: ps' => bind (Free data_arena code_arena p h) (fun _ h => free_all ps' h) end.

Lemma held_range h cs p r : inv h cs -> In (p, r) (held cs) -> exists a, arena a + HEADER <= p /\ 0 <= r /\ p + r <= arena a + arena_bytes a.
Proof.
  intros I H. apply in_app_or in H as [H|H]; [exists false | exists true].
  all: match goal with |- context [arena ?a] => pose proof (inv_rep _ _ _ _ I a) as (B & E & _) end.
  all: destruct (blocks_range _ _ _ B _ H) as (H1 & H2 & H3 & _); cbn [Arena.arena arena_bytes] in *; lia.
Qed.

Lemma held_apart h cs : placed -> inv h cs -> exists L, Permutation (held cs) L /\ apart L.
Proof.
  intros P I. pose proof (inv_rep _ _ _ _ I false) as (B1 & E1 & _). pose proof (inv_rep _ _ _ _ I true) as (B2 & E2 & _).
  pose proof (blocks_apart _ B1 data_arena) as A1. pose proof (blocks_apart _ B2 code_arena) as A2. cbn [arena_bytes] in *.
  destruct P as (_ & _ & _ & _ & _ & _ & [D|D]).
  - exists (held cs). split; [reflexivity|]. apply apart_app; [exact A1 | exact A2|]. intros [p r] [q m] Hx Hy.
    apply (blocks_range _ _ _ B1) in Hx. apply (blocks_range _ _ _ B2) in Hy. cbn. lia.
  - exists (blocks code_arena (cs true) ++ blocks data_arena (cs false)). split; [apply Permutation_app_comm|].
    apply apart_app; [exact A2 | exact A1|]. intros [p r] [q m] Hx Hy. apply (blocks_range _ _ _ B2) in Hx. apply (blocks_range _ _ _ B1) in Hy. cbn. lia.
Qed.

(** C30: however a program allocates, resizes, frees, is refused and writes to its payloads, memory
    holds two lists of blocks that satisfy the allocator's invariant and whose live blocks are those
    the program holds: each is 16-byte aligned, has the size that was asked for, lies in an arena,
    and a whole header separates it from any other. *)
Theorem session_blocks_apart (P : placed) h ps : session h ps ->
  (exists cs, inv h cs /\ Permutation ps (held cs)) /\ List.NoDup ps /\
  (forall p r, In (p, r) ps -> p mod 16 = 0 /\ MSize data_arena code_arena p h = Ret r h /\
     exists a, arena a + HEADER <= p /\ 0 <= r /\ p + r <= arena a + arena_bytes a) /\
  (forall x y, In x ps -> In y ps -> x <> y -> fst x + snd x + HEADER <= fst y \/ fst y + snd y + HEADER <= fst x).
Proof.
  intros S. destruct (session_inv _ _ _ P _ _ S) as (cs & I & Pm). destruct (held_apart h cs P I) as (L & PL & A).
  assert (PsL : Permutation ps L) by (rewrite Pm; exact PL). split; [exists cs; split; assumption|].
  assert (R : forall p r, In (p, r) ps -> In (p, r) (held cs)) by (intros p r; apply Permutation_in, Pm). split; [|split].
  - apply (Permutation_NoDup (Permutation_sym PsL)), apart_nodup; [|exact A]. apply List.Forall_forall. intros [p r] H.
    destruct (held_range _ _ _ _ I (R p r (Permutation_in _ (Permutation_sym PsL) H))) as (a & _ & H' & _). exact H'.
  - intros p r H. destruct (MSize_held _ _ P _ _ _ _ I (R _ _ H)) as (_ & M & E). split; [exact M|]. split; [exact E|].
    exact (held_range _ _ _ _ I (R _ _ H)).
  - intros x y Hx Hy. apply (apart_pair L A); apply (Permutation_in _ PsL); assumption.
Qed.

(** C31: the search along the list of free blocks is first fit over all the blocks: the outcome, the
    address and the blocks that result are the reference allocator's, which rounds the size up to a
    multiple of 16, looks at every block from the bottom of the arena and splits the first hole that
    is large enough when what is left can hold a block; payloads stay as they are. *)
Theorem arena_alloc_first_fit (P : placed) count t pc h cs : inv h cs ->
  let o := owner_of data_heap t h in
  let a := arena_of o h in
  match ref_alloc count o pc (cs a) with
  | Some (off, l') => exists h', arena_alloc data_heap count t pc h = Ret (arena a + off) h' /\ inv h' (set_cells a l' cs) /\ data h' = data h
  | None => exists why, arena_alloc data_heap count t pc h = Failed why h
  end.
Proof.
  intros I o a. pose proof (alloc_inv _ _ data_heap P count t pc h cs I) as K. cbv zeta in K. fold o in K. fold a in K.
  destruct (ref_alloc count o pc (cs a)) as [[off l']|]; [|exact K]. destruct K as (h' & E & I' & n & Mv).
  exists h'. split; [exact E|]. split; [exact I' | apply Mv].
Qed.

(** C32: freeing a live block turns it into a hole and merges holes until no two are adjacent, uncharges
    its owner, leaves all payloads alone, and is detected when it is done twice. *)
Theorem free_coalesces (P : placed) h cs a l1 s r o pc l2 : inv h cs -> cs a = l1 ++ Live s r o pc :: l2 ->
  let p := arena a + extent l1 + HEADER in
  exists h', Free data_arena code_arena p h = Ret tt h' /\ inv h' (set_cells a (normal (l1 ++ Hole s :: l2)) cs) /\
    used_u8s (ctrl h' o) = used_u8s (ctrl h o) - s /\ data h' = data h /\ Free data_arena code_arena p h' = Failed InvalidFree h'.
Proof.
  intros I El p. destruct (Free_inv _ _ P _ _ _ _ _ _ _ _ _ I El) as (h' & E & I' & Mv & D). exists h'. split; [exact E|]. split; [exact I'|].
  split; [|split; [apply Mv | exact D]]. rewrite (inv_books _ _ _ _ I), (inv_books _ _ _ _ I').
  destruct a; unfold set_cells; cbn [Bool.eqb]; rewrite charged_normal, El, !charged_app; cbn; rewrite Z.eqb_refl; lia.
Qed.

(** Freeing the held blocks, in any order. *)
Lemma free_all_held (P : placed) qs : forall h cs, inv h cs -> Permutation qs (held cs) ->
  exists h' cs', free_all (map fst qs) h = Ret tt h' /\ inv h' cs' /\ held cs' = [].
Proof.
  induction qs as [|[p r] qs IH]; intros h cs I Pm; [exists h, cs; split; [reflexivity|]; split; [exact I | apply Permutation_nil, Pm]|].
  destruct (free_held _ _ P _ _ _ _ _ I Pm) as (h1 & cs1 & E & I1 & Pm1 & _). destruct (IH h1 cs1 I1 Pm1) as (h' & cs' & E' & I' & H').
  exists h', cs'. cbn [map fst free_all]. rewrite E. cbn [bind]. split; [exact E' | split; assumption].
Qed.

(** C33: memory is never lost: once a program has freed what it holds, in whatever order, each arena is
    one hole again, and any request that fits in an empty arena is granted. *)
Theorem free_all_restores (P : placed) h ps qs : session h ps -> Permutation qs ps ->
  exists h' cs', free_all (map fst qs) h = Ret tt h' /\ inv h' cs' /\ (forall a, cs' a = [Hole (arena_bytes a - HEADER)]) /\
    forall count t pc, 0 <= count <= arena_bytes (arena_of (owner_of data_heap t h') h') - HEADER ->
      exists p h'', arena_alloc data_heap count t pc h' = Ret p h''.
Proof.
  intros S Pq. destruct (session_inv _ _ _ P _ _ S) as (cs & I & Pm). destruct (free_all_held P qs h cs I (Permutation_trans Pq Pm)) as (h' & cs' & E & I' & H').
  assert (Hc : forall a, cs' a = [Hole (arena_bytes a - HEADER)]).
  { intros a. apply app_eq_nil in H' as [H1 H2]. pose proof (inv_rep _ _ _ _ I' a) as (B & X & _). rewrite <- X.
    apply (no_blocks (arena a)); [exact B | exact (inv_calm _ _ _ _ I' a) | destruct a; assumption | rewrite X; destruct a; reflexivity]. }
  exists h', cs'. split; [exact E|]. split; [exact I'|]. split; [exact Hc|]. intros count t pc Hn.
  pose proof (alloc_inv _ _ data_heap P count t pc h' cs' I') as K. cbv zeta in K. set (a := arena_of _ _) in *. unfold ref_alloc in K. rewrite Hc in K.
  assert (Ha : arena_bytes a - HEADER <= DATA_BYTES /\ (arena_bytes a - HEADER) mod 16 = 0 /\ 16 <= arena_bytes a - HEADER)
    by (destruct a; (split; [|split]; [discriminate | reflexivity | discriminate])).
  assert (En : (count <? 0) || (DATA_BYTES <? count) = false) by (apply orb_false_iff; rewrite !Z.ltb_ge; lia). rewrite En in K. cbn [find_fit] in K.
  destruct (Z.leb_spec (16 * Z.max 1 ((count + 15) / 16)) (arena_bytes a - HEADER)) as [_|L]; [destruct K as (h'' & K & _); eauto|].
  exfalso. Z.div_mod_to_equations. lia.
Qed.

Lemma kill_extent o l : extent (map (kill o) l) = extent l.
Proof. induction l as [|c l IH]; [reflexivity|]. cbn [map extent]. rewrite IH. unfold kill. destruct (owned o c), c; reflexivity. Qed.

(** Deleting a heap frees every block charged to it, in both arenas, and its control block; the
    other blocks stay where they are, and nothing is charged to the heap any more. *)
Theorem heap_deleted (P : placed) h cs a l1 s r w pc l2 : inv h cs -> cs a = l1 ++ Live s r w pc :: l2 ->
  let o := arena a + extent l1 + HEADER in w <> o ->
  exists h', HeapCtrlDel data_arena code_arena o h = Ret tt h' /\
    inv h' (fun b => normal (map (kill o) (set_cells a (l1 ++ Hole s :: l2) cs b))) /\ used_u8s (ctrl h' o) = 0 /\ data h' = data h.
Proof.
  intros I El o Hw. destruct (reclaim_inv _ _ P o h cs I) as (h1 & E1 & I1 & _ & D1).
  assert (L1 : normal (map (kill o) (cs a)) = normal (map (kill o) l1) ++ Live s r w pc :: normal (map (kill o) l2)).
  { rewrite El, map_app. cbn [map]. unfold kill at 2. cbn [owned]. apply Z.eqb_neq in Hw. rewrite Hw. apply normal_app. reflexivity. }
  destruct (Free_inv _ _ P _ _ _ _ _ _ _ _ _ I1 L1) as (h' & E2 & I2 & Mv & _).
  rewrite normal_extent, kill_extent in E2. exists h'. unfold HeapCtrlDel. rewrite E1. cbn [bind]. split; [exact E2|].
  assert (I' : inv h' (fun b => normal (map (kill o) (set_cells a (l1 ++ Hole s :: l2) cs b)))).
  { eapply inv_ext; [|exact I2]. intros b. unfold set_cells. destruct (Bool.eqb b a); [|reflexivity]. rewrite map_app. cbn [map].
    change (kill o (Hole s)) with (Hole s). rewrite <- (normal_both (map (kill o) l1) (Hole s :: _)).
    rewrite <- (normal_both (normal (map (kill o) l1)) (Hole s :: _)), normal_idem. cbn [normal]. rewrite normal_idem. reflexivity. }
  split; [exact I'|]. split; [|destruct Mv as (_ & _ & D & _); congruence]. rewrite (inv_books _ _ _ _ I'), !charged_normal, !charged_kill. reflexivity.
Qed.
End Arenas.

(** ** A small session *)

Definition demo_data : Z := 0x100000.
Definition demo_code : Z := 0x10000000.
Definition demo_heap : Z := 16.
Definition blank : heap := mk_state (fun _ => mk_block 0 0 0 0 0 0 0 0) (fun _ => 0) 0 0 (fun _ => mk_heap 0 0 0) false [] 0 0.
Definition demo_start : heap := start demo_data demo_code blank.
Definition after {A} (r : outcome A) : heap := match r with Ret _ h | Failed _ h => h | Hangs => blank end.
Definition demo_one : heap := after (arena_alloc demo_heap 100 0 0 demo_start).
Definition demo_two : heap := after (arena_alloc demo_heap 40 0 0 demo_one).

Lemma demo_placed : placed demo_data demo_code.
Proof. repeat split; try reflexivity. left. discriminate. Qed.

Lemma demo_start_inv : ArenaThms.inv demo_data demo_code demo_start empty.
Proof. apply start_inv; [exact demo_placed | reflexivity | reflexivity]. Qed.

Lemma demo_session : ArenaThms.session demo_data demo_code demo_heap demo_two [(0x100000 + 0x40 + 112 + 64, 40); (0x100000 + 0x40, 100)].
Proof.
  apply (session_malloc _ _ _ demo_one _ 40 0 0); [|vm_compute; reflexivity].
  apply (session_malloc _ _ _ demo_start _ 100 0 0); [|vm_compute; reflexivity]. apply session_start; reflexivity.
Qed.

Definition demo_cells (a : bool) : list cell := if a then empty true else [Live 112 100 demo_heap 0; Hole (DATA_BYTES - 64 - 112 - 64)].

Lemma demo_one_inv : ArenaThms.inv demo_data demo_code demo_one demo_cells.
Proof.
  pose proof (alloc_inv _ _ demo_heap demo_placed 100 0 0 demo_start empty demo_start_inv) as (h' & E & I & _).
  unfold demo_one. rewrite E. eapply inv_ext; [|exact I]. intros []; reflexivity.
Qed.

Lemma session_blocks_apart_witness : ArenaThms.session demo_data demo_code demo_heap demo_two [(1048816, 40); (1048640, 100)] /\
  List.NoDup [(1048816, 40); (1048640, 100)].
Proof. split; [exact demo_session|]. exact (proj1 (proj2 (session_blocks_apart _ _ demo_heap demo_placed _ _ demo_session))). Defined.

Lemma arena_alloc_first_fit_witness : exists h', arena_alloc demo_heap 100 0 7 demo_start = Ret 1048640 h' /\
  data h' = data demo_start.
Proof.
  destruct (arena_alloc_first_fit demo_data demo_code demo_heap demo_placed 100 0 7 demo_start empty demo_start_inv) as (h' & E & _ & D).
  exists h'. split; [exact E | exact D].
Defined.

Lemma free_coalesces_witness : exists h', Free demo_data demo_code 1048640 demo_one = Ret tt h' /\
  Free demo_data demo_code 1048640 h' = Failed InvalidFree h'.
Proof.
  destruct (free_coalesces demo_data demo_code demo_placed demo_one demo_cells false [] 112 100 demo_heap 0 [Hole (DATA_BYTES - 64 - 112 - 64)]
    demo_one_inv eq_refl) as (h' & E & _ & _ & _ & D).
  exists h'. split; [exact E | exact D].
Defined.

Lemma free_all_restores_witness : exists h' cs', free_all demo_data demo_code [1048816; 1048640] demo_two = Ret tt h' /\
  ArenaThms.inv demo_data demo_code h' cs' /\ cs' false = [Hole (DATA_BYTES - HEADER)].
Proof.
  destruct (free_all_restores demo_data demo_code demo_heap demo_placed demo_two _ _ demo_session (Permutation_refl _)) as (h' & cs' & E & I & Hc & _).
  exists h', cs'. split; [exact E|]. split; [exact I | apply (Hc false)].
Defined.

Lemma heap_deleted_witness : exists h', HeapCtrlDel demo_data demo_code 1048640 demo_one = Ret tt h' /\ used_u8s (ctrl h' 1048640) = 0.
Proof.
  destruct (heap_deleted demo_data demo_code demo_placed demo_one demo_cells false [] 112 100 demo_heap 0 [Hole (DATA_BYTES - 64 - 112 - 64)]
    demo_one_inv eq_refl ltac:(discriminate)) as (h' & E & _ & U & _).
  exists h'. split; [exact E | exact U].
Defined.
