(* ===== verification/ArenaCheckpoint.v ===== *)
(** * Checkpoints of the compiler ([src/src/zc/runtime.c])

    Before a statement is compiled both arenas are copied; when the parser fails they are copied
    back, except for the payloads that hold stacks, so that whatever the parser allocated, freed or
    changed is undone. *)

From S2P Require Import Prelude Arena ArenaSpec ArenaRun ArenaOps ArenaThms.
#[local] Open Scope Z_scope.

(** What a checkpoint holds besides the arenas: the task the parser runs in and the state of its
    exceptions.  The words of a task are those of a type of the AIWNIOS headers. *)
Record parser_state := mk_parser {
  task_words : list Z; last_fun : Z; except_top : Z; except_caught : Z; except_ch : Z; catch_except : Z;
  switch_depth : Z; fun_depth : Z }.

Record checkpoint := mk_checkpoint {
  saved_mem : Z -> block;       (* compiler_saved_data and compiler_saved_code, *)
  saved_data : Z -> Z;          (* by the address a byte was copied from *)
  saved_ctrl : Z -> CHeapCtrl;
  saved_bytes : bool -> Z;
  saved_free_heads : bool -> Z;
  saved_sp : Z;
  saved_parser : parser_state;
  saved_heap_used : list Z }.

Section Checkpoint.
Context (data_arena code_arena data_heap code_heap guest_stack_heap : Z).
#[local] Abbreviation arena := (Arena.arena data_arena code_arena).

Definition compiler_checkpoint_heaps (h : heap) : list Z :=
  data_heap :: code_heap :: guest_stack_heap :: flat_map (fun f => [heap_owner f; compiler_heap f; compiler_code_heap f]) (guest_fibers h).

(** Up to the end of the last block, or of its header if it is free. *)
Definition span_turn (a : bool) (h : heap) (st : Z * Z) : (Z * Z) + Z :=
  let '(b, n) := st in
  if b =? 0 then inr n else inl (next (mem h b), b + HEADER - arena a + (if used (mem h b) =? 0 then 0 else size (mem h b))).
Definition arena_span (a : bool) (h : heap) : outcome Z := of_loop (turns_pos (span_turn a h) TURNS (arena a, 0)) (fun n => Ret n h).

(** [old] is what an earlier checkpoint left in the variables; without a guest task those of the
    exceptions are not written. *)
Definition compiler_checkpoint_save (sp : Z) (old ps : parser_state) (h : heap) : outcome checkpoint :=
  bind (arena_span false h) (fun n0 h => bind (arena_span true h) (fun n1 h =>
    Ret (mk_checkpoint (mem h) (data h) (ctrl h) (fun a => if a then n1 else n0) (fun a => free_head a h) sp
      (if guest_task_bound h then ps else mk_parser (task_words ps) 0 (except_top old) (except_caught old) (except_ch old) (catch_except old) (switch_depth ps) (fun_depth ps))
      (map (fun o => used_u8s (ctrl h o)) (compiler_checkpoint_heaps h))) h)).

(** [memcpy(arena + lo, saved + lo, hi - lo)].  A header is copied if all of it is. *)
Definition in_range (a : bool) (lo hi x w : Z) : bool := (arena a + lo <=? x) && (x + w <=? arena a + hi).
Definition copy_back (a : bool) (lo hi : Z) (s : checkpoint) (h : heap) : heap :=
  set_ctrl (fun x => if in_range a lo hi x 1 then saved_ctrl s x else ctrl h x)
    (set_data (fun x => if in_range a lo hi x 1 then saved_data s x else data h x)
      (set_mem (fun x => if in_range a lo hi x HEADER then saved_mem s x else mem h x) h)).

Definition active_stack (s : checkpoint) (payload size : Z) : bool := (payload <=? saved_sp s) && (saved_sp s - payload <? size).

Definition restore_turn (s : checkpoint) (st : Z * Z * heap) : (Z * Z * heap) + (Z * heap) :=
  let '(b, copied, h) := st in
  if b =? 0 then inr (copied, h)
  else
    let x := saved_mem s b in
    let payload := b - data_arena + HEADER in
    if negb (used x =? 0) && ((owner x =? guest_stack_heap) || active_stack s (data_arena + payload) (size x))
    then inl (next x, payload + size x, copy_back false copied payload s h)
    else inl (next x, copied, h).

Definition set_used (o v : Z) (h : heap) : heap :=
  set_ctrl (put o (mk_heap v (is_code_heap (ctrl h o)) (mem_task (ctrl h o))) (ctrl h)) h.
Fixpoint restore_used (l : list (Z * Z)) (h : heap) : heap :=
  match l with [] => h | (o, v) :: l' => restore_used l' (sync_guest_heap o (set_used o v h)) end.

Definition restore_parser (s : checkpoint) (bound : bool) (ps : parser_state) : parser_state :=
  let q := saved_parser s in
  if bound then mk_parser (task_words q) (last_fun q) (except_top q) (except_caught q) (except_ch q) (catch_except q) (switch_depth q) (fun_depth q)
  else mk_parser (task_words q) (last_fun ps) (except_top ps) (except_caught ps) (except_ch ps) (catch_except ps) (switch_depth q) (fun_depth q).

Definition compiler_checkpoint_restore (s : checkpoint) (ps : parser_state) (h : heap) : outcome parser_state :=
  of_loop (turns_pos (restore_turn s) TURNS (data_arena, 0, h)) (fun '(copied, h) =>
    let h := copy_back true 0 (saved_bytes s true) s (copy_back false copied (saved_bytes s false) s h) in
    let h := set_free_head true (saved_free_heads s true) (set_free_head false (saved_free_heads s false) h) in
    Ret (restore_parser s (guest_task_bound h) ps) (restore_used (combine (compiler_checkpoint_heaps h) (saved_heap_used s)) h)).

(** ** What is copied *)

(** The span of a list, and the blocks whose payloads are left alone. *)
Fixpoint used_span (l : list cell) : Z :=
  match l with
  | [] => 0
  | c :: l' => match l' with [] => HEADER + (if hole c then 0 else csize c) | _ => span c + used_span l' end
  end.

Definition retained (s : checkpoint) (b : Z) (c : cell) : bool :=
  match c with Hole _ => false | Live n _ o _ => (o =? guest_stack_heap) || active_stack s (b + HEADER) n end.

Fixpoint ranges (s : checkpoint) (off c lim : Z) (l : list cell) : list (Z * Z) :=
  match l with
  | [] => [(c, lim)]
  | x :: l' =>
      if retained s (data_arena + off) x then (c, off + HEADER) :: ranges s (off + span x) (off + span x) lim l'
      else ranges s (off + span x) c lim l'
  end.

Definition covered (a : bool) (rs : list (Z * Z)) (x w : Z) : bool := existsb (fun '(lo, hi) => in_range a lo hi x w) rs.
Definition copy_all (a : bool) (rs : list (Z * Z)) (s : checkpoint) (h : heap) : heap :=
  fold_left (fun h '(lo, hi) => copy_back a lo hi s h) rs h.

Lemma copy_all_spec a rs s : forall h,
  (forall x, mem (copy_all a rs s h) x = if covered a rs x HEADER then saved_mem s x else mem h x) /\
  (forall x, data (copy_all a rs s h) x = if covered a rs x 1 then saved_data s x else data h x) /\
  (forall x, ctrl (copy_all a rs s h) x = if covered a rs x 1 then saved_ctrl s x else ctrl h x) /\
  (forall b, free_head b (copy_all a rs s h) = free_head b h) /\
  guest_task_bound (copy_all a rs s h) = guest_task_bound h /\ guest_fibers (copy_all a rs s h) = guest_fibers h.
Proof.
  induction rs as [|[lo hi] rs IH]; intros h; [repeat split|]. cbn [copy_all fold_left]. fold (copy_all a rs s (copy_back a lo hi s h)).
  destruct (IH (copy_back a lo hi s h)) as (M & D & C & F & G & B). cbn [covered existsb]. fold (covered a rs).
  split; [|split; [|split; [|split; [|split]]]]; [intros x; rewrite M | intros x; rewrite D | intros x; rewrite C | intros b; etransitivity; [apply F | destruct b; reflexivity] | exact G | exact B].
  all: cbn [copy_back set_ctrl set_data set_mem mem data ctrl]; unfold covered; destruct (in_range a lo hi x _), (existsb _ rs); reflexivity.
Qed.

Lemma covered_cons a lo hi rs x w : covered a ((lo, hi) :: rs) x w = in_range a lo hi x w || covered a rs x w.
Proof. reflexivity. Qed.

Lemma in_range_yes a lo hi x w : arena a + lo <= x -> x + w <= arena a + hi -> in_range a lo hi x w = true.
Proof. intros H1 H2. unfold in_range. rewrite (proj2 (Z.leb_le _ _) H1), (proj2 (Z.leb_le _ _) H2). reflexivity. Qed.

Lemma in_range_no a lo hi x w : x < arena a + lo \/ arena a + hi < x + w -> in_range a lo hi x w = false.
Proof. unfold in_range. rewrite andb_false_iff, !Z.leb_gt. exact id. Qed.

Lemma ranges_before s l : forall off c lim x w, 0 <= w -> c <= off -> blocks_ok l -> x < data_arena + c -> covered false (ranges s off c lim l) x w = false.
Proof.
  induction l as [|y l IH]; intros off c lim x w Hw Hc B Hx; cbn [ranges].
  - rewrite covered_cons, in_range_no by (left; exact Hx). reflexivity.
  - pose proof (Forall_inv B) as By. pose proof (Forall_inv_tail B) as B'. pose proof (span_pos y By). destruct (retained _ _ _).
    + rewrite covered_cons, in_range_no by (left; exact Hx). apply IH; try assumption; lia.
    + apply IH; try assumption; lia.
Qed.

Lemma ranges_below s l : forall off c lim x w, data_arena + c <= x -> x + w <= data_arena + off -> x + w <= data_arena + lim -> blocks_ok l ->
  covered false (ranges s off c lim l) x w = true.
Proof.
  induction l as [|y l IH]; intros off c lim x w H1 H2 H3 B; cbn [ranges].
  - rewrite covered_cons, in_range_yes by assumption. reflexivity.
  - pose proof (span_pos y (Forall_inv B)). destruct (retained _ _ _).
    + rewrite covered_cons, in_range_yes by (cbn; unfold HEADER; lia). reflexivity.
    + apply IH; try lia. exact (Forall_inv_tail B).
Qed.

(** At a block: its header and, unless it is retained, its payload are copied. *)
Lemma ranges_block s y l2 lim : forall l1 off c, 0 <= c <= off -> blocks_ok (l1 ++ y :: l2) ->
  let b := data_arena + off + extent l1 in
  b + HEADER <= data_arena + lim ->
  covered false (ranges s off c lim (l1 ++ y :: l2)) b HEADER = true /\
  forall x, b + HEADER <= x < b + span y ->
    (retained s b y = true -> covered false (ranges s off c lim (l1 ++ y :: l2)) x 1 = false) /\
    (retained s b y = false -> x < data_arena + lim -> covered false (ranges s off c lim (l1 ++ y :: l2)) x 1 = true).
Proof.
  induction l1 as [|z l1 IH]; intros off c Hc B b Hb; subst b; cbn [app extent] in *.
  - rewrite Z.add_0_r in *. pose proof (span_pos y (Forall_inv B)). pose proof (Forall_inv_tail B) as B2. cbn [ranges].
    destruct (retained s (data_arena + off) y).
    + rewrite covered_cons, in_range_yes by (cbn; lia). split; [reflexivity|]. intros x Hx. split; [intros _ | discriminate].
      rewrite covered_cons, in_range_no by (right; cbn; lia). apply ranges_before; try assumption; lia.
    + split; [apply ranges_below; try assumption; unfold HEADER in *; lia|]. intros x Hx. split; [discriminate|]. intros _ Hl.
      apply ranges_below; try assumption; unfold HEADER in *; lia.
  - pose proof (span_pos z (Forall_inv B)). pose proof (Forall_inv_tail B) as B2.
    assert (0 <= extent l1) by (apply Forall_app in B2 as [B1 _]; apply extent_nonneg, B1).
    replace (data_arena + off + (span z + extent l1)) with (data_arena + (off + span z) + extent l1) in * by lia. cbn [ranges].
    destruct (retained s (data_arena + off) z); [|exact (IH (off + span z) c ltac:(lia) B2 ltac:(lia))].
    destruct (IH (off + span z) (off + span z) ltac:(lia) B2 ltac:(lia)) as [K1 K2]. rewrite covered_cons, K1. split; [apply orb_true_r|].
    intros x Hx. destruct (K2 x Hx) as [K3 K4]. rewrite covered_cons. split; [intros R | intros R Hl; rewrite (K4 R Hl); apply orb_true_r].
    rewrite (K3 R), in_range_no by (right; cbn; unfold HEADER in *; lia). reflexivity.
Qed.
End Checkpoint.
