(* ===== verification/ArenaRollback.v ===== *)
(** * Rolling back to a checkpoint

    Whatever happens to the memory of both arenas after a checkpoint, restoring it brings back every
    block, every account and every payload but the stacks'. *)

From S2P Require Import Prelude Arena ArenaSpec ArenaRun ArenaOps ArenaThms ArenaProps ArenaCheckpoint.
#[local] Open Scope Z_scope.

(** ** The span of the blocks *)

Lemma used_span_cons c d l : used_span (c :: d :: l) = span c + used_span (d :: l).
Proof. reflexivity. Qed.

Lemma used_span_le l : blocks_ok l -> used_span l <= extent l.
Proof.
  induction 1 as [|c l Hc Hl IH]; [reflexivity|]. pose proof (span_pos c Hc). destruct l as [|d l]; [|rewrite used_span_cons; cbn [extent] in *; lia].
  cbn. unfold span in *. destruct Hc as (C & _). destruct (hole c); lia.
Qed.

Lemma used_span_block l1 c l2 : blocks_ok (l1 ++ c :: l2) ->
  extent l1 + HEADER <= used_span (l1 ++ c :: l2) /\ (hole c = false -> extent l1 + span c <= used_span (l1 ++ c :: l2)).
Proof.
  induction l1 as [|d l1 IH]; intros B.
  - cbn [app extent]. pose proof (span_pos c (Forall_inv B)). pose proof (Forall_inv B) as (C & _). destruct l2 as [|e l2].
    + cbn. unfold span. destruct (hole c); split; intros; try discriminate; lia.
    + rewrite used_span_cons. pose proof (Forall_inv_tail B) as B2. pose proof (span_pos e (Forall_inv B2)).
      assert (0 <= used_span (e :: l2)).
      { clear - B2. induction B2 as [|x l Hx _ IH]; [cbn; lia|]. pose proof (span_pos x Hx). destruct Hx as (Hx & _).
        destruct l; [cbn; destruct (hole x); unfold HEADER; lia | rewrite used_span_cons; lia]. }
      unfold span in *. split; intros; lia.
  - destruct (IH (Forall_inv_tail B)) as [K1 K2]. cbn [app]. destruct (l1 ++ c :: l2) as [|e l] eqn:E; [destruct l1; discriminate E|].
    rewrite used_span_cons. cbn [extent]. split; [lia | intros Hc; specialize (K2 Hc); lia].
Qed.

(** ** The accounts *)

Lemma sync_fibers_word o u l : NoDup (map heap_owner l) -> forall f, In f (sync_fibers o u l) ->
  (heap_owner f = o -> in_use f = true -> heap_word f = u) /\ (heap_owner f <> o -> In f l).
Proof.
  induction l as [|g l IH]; [intros _ f []|]. cbn [sync_fibers map]. intros N f. inversion N as [|? ? Ng N']; subst.
  destruct ((o =? heap_owner g) && in_use g) eqn:E.
  - apply andb_prop in E as [Eo Eu]. apply Z.eqb_eq in Eo. intros [<-|H]; cbn; [split; [reflexivity | intros K; congruence]|].
    split; [|right; exact H]. intros Ef. exfalso. apply Ng. rewrite <- Eo, <- Ef. apply list_elem_of_In, in_map, H.
  - intros [<-|H]; [split; [|left; reflexivity]|].
    + intros Ef Eu. rewrite Ef, Z.eqb_refl, Eu in E. discriminate E.
    + destruct (IH N' f H) as [K1 K2]. split; [exact K1 | intros Hf; right; exact (K2 Hf)].
Qed.

Definition addresses (f : guest_fiber) : list Z := [heap_owner f; compiler_heap f; compiler_code_heap f].

Lemma sync_fibers_addresses o u l : map addresses (sync_fibers o u l) = map addresses l.
Proof. induction l as [|f l IH]; [reflexivity|]. cbn. destruct (_ && _); [reflexivity | cbn; rewrite IH; reflexivity]. Qed.

Lemma addresses_owners l l' : map addresses l = map addresses l' -> map heap_owner l = map heap_owner l'.
Proof. revert l'. induction l as [|f l IH]; intros [|g l'] E; try discriminate; [reflexivity|]. injection E as E1 _ _ E2. cbn. rewrite E1, (IH _ E2). reflexivity. Qed.

Lemma sync_rest o h : let h' := sync_guest_heap o h in
  ctrl h' = ctrl h /\ mem h' = mem h /\ data h' = data h /\ guest_task_bound h' = guest_task_bound h /\
  (forall a, free_head a h' = free_head a h) /\ map addresses (guest_fibers h') = map addresses (guest_fibers h).
Proof.
  unfold sync_guest_heap. destruct (guest_task_bound h) eqn:E; cbn zeta; repeat split; try (intros []; reflexivity); [exact E | apply sync_fibers_addresses | exact E].
Qed.

(** [restore_used] sets the accounts of a list of heaps, and only these. *)
Lemma restore_used_spec v L : forall h,
  let h' := restore_used (map (fun o => (o, v o)) L) h in
  same_headers h h' /\ data h' = data h /\ guest_task_bound h' = guest_task_bound h /\
  map addresses (guest_fibers h') = map addresses (guest_fibers h) /\
  (forall o, used_u8s (ctrl h' o) = if existsb (Z.eqb o) L then v o else used_u8s (ctrl h o)).
Proof.
  induction L as [|o L IH]; intros h; [repeat split; reflexivity|]. cbn [map restore_used]. set (h1 := sync_guest_heap o (set_used o (v o) h)).
  destruct (IH h1) as ([M F] & D & G & A & U).
  destruct (sync_rest o (set_used o (v o) h)) as (E1 & E2 & E4 & E5 & E6 & E3). fold h1 in E1, E2, E3, E4, E5, E6.
  cbn zeta. split; [split; [rewrite M; exact E2 | intros a; rewrite F, E6; destruct a; reflexivity]|].
  split; [rewrite D; exact E4|]. split; [rewrite G; exact E5|]. split; [rewrite A; exact E3|]. intros x. rewrite U, E1. cbn [existsb set_used set_ctrl ctrl]. unfold put.
  destruct (Z.eqb_spec x o) as [->|]; cbn [orb]; [destruct (existsb _ L); reflexivity | reflexivity].
Qed.

(** Afterwards the guest's copies agree for every heap of the list. *)
Lemma restore_used_synced v L : forall D h, guest_task_bound h = true -> NoDup (map heap_owner (guest_fibers h)) ->
  (forall f, In f (guest_fibers h) -> in_use f = true -> In (heap_owner f) D -> heap_word f = used_u8s (ctrl h (heap_owner f))) ->
  let h' := restore_used (map (fun o => (o, v o)) L) h in
  forall f, In f (guest_fibers h') -> in_use f = true -> In (heap_owner f) (L ++ D) -> heap_word f = used_u8s (ctrl h' (heap_owner f)).
Proof.
  induction L as [|o L IH]; intros D h G N H h'; [exact H|]. subst h'. cbn [map restore_used].
  set (h1 := sync_guest_heap o (set_used o (v o) h)). intros f Hf Uf Lf. revert f Hf Uf Lf.
  assert (E : h1 = set_fibers (sync_fibers o (v o) (guest_fibers h)) (set_used o (v o) h)).
  { subst h1. unfold sync_guest_heap. cbn [set_used set_ctrl guest_task_bound]. rewrite G. cbn. rewrite put_eq. reflexivity. }
  assert (K : forall f, In f (guest_fibers h1) -> in_use f = true -> In (heap_owner f) (o :: D) -> heap_word f = used_u8s (ctrl h1 (heap_owner f))).
  { rewrite E. cbn. intros f Hf Uf Lf. destruct (sync_fibers_word _ _ _ N f Hf) as [K1 K2]. unfold put. destruct (Z.eqb_spec (heap_owner f) o) as [Eo|No].
    - apply K1; assumption.
    - destruct Lf as [Lf|Lf]; [congruence|]. exact (H f (K2 No) Uf Lf). }
  intros f Hf Uf Lf. refine (IH (o :: D) h1 _ _ K f Hf Uf _).
  - rewrite E. exact G.
  - rewrite E. cbn. rewrite sync_fibers_owners. exact N.
  - apply in_or_app. apply in_app_or in Lf as [[Lf|Lf]|Lf]; [right; left; exact Lf | left; exact Lf | right; right; exact Lf].
Qed.

Section Checkpoint.
Context (data_arena code_arena data_heap code_heap guest_stack_heap : Z).
#[local] Abbreviation arena := (Arena.arena data_arena code_arena).
#[local] Abbreviation rep := (ArenaRun.rep data_arena code_arena).
#[local] Abbreviation inv := (ArenaThms.inv data_arena code_arena).
#[local] Abbreviation top a l := (arena a + extent l).
#[local] Abbreviation heaps := (compiler_checkpoint_heaps data_heap code_heap guest_stack_heap).
#[local] Abbreviation retained := (ArenaCheckpoint.retained guest_stack_heap).
#[local] Abbreviation ranges := (ArenaCheckpoint.ranges data_arena guest_stack_heap).
#[local] Abbreviation covered := (ArenaCheckpoint.covered data_arena code_arena).
#[local] Abbreviation copy_back := (ArenaCheckpoint.copy_back data_arena code_arena).
#[local] Abbreviation copy_all := (ArenaCheckpoint.copy_all data_arena code_arena).
#[local] Abbreviation save := (compiler_checkpoint_save data_arena code_arena data_heap code_heap guest_stack_heap).
#[local] Abbreviation restore := (compiler_checkpoint_restore data_arena code_arena data_heap code_heap guest_stack_heap).

(** The payload bytes a restore brings back, and those it leaves alone. *)
Definition payload (cs : bool -> list cell) (keep : bool -> Z -> cell -> bool) (x : Z) : Prop :=
  exists a l1 s r o pc l2, cs a = l1 ++ Live s r o pc :: l2 /\ top a l1 + HEADER <= x < top a l1 + HEADER + s /\
    keep a (top a l1) (Live s r o pc) = true.
Definition a_stack (s : checkpoint) (a : bool) (b : Z) (c : cell) : bool := negb a && retained s b c.

Context (P : placed data_arena code_arena).

(** ** The loops *)

Lemma span_runs a h : forall l2 l1 n, rep a h (l1 ++ l2) ->
  runs (span_turn data_arena code_arena a h) (1 + length l2) (first_block (top a l1) l2 0, n) (match l2 with [] => n | _ => extent l1 + used_span l2 end).
Proof.
  induction l2 as [|c l2 IH]; intros l1 n R; [apply runs_stop; reflexivity|].
  pose proof (top_range _ _ P _ _ _ _ _ R) as T. pose proof (rep_header _ _ _ _ _ _ _ R) as E. specialize (IH (l1 ++ [c])).
  rewrite <- app_assoc in IH. specialize (IH (extent l1 + HEADER + (if hole c then 0 else csize c)) R). rewrite top_snoc in IH.
  eapply runs_go.
  - unfold span_turn. cbn [first_block]. destruct (Z.eqb_spec (top a l1) 0); [lia|]. rewrite E.
    replace (top a l1 + HEADER - arena a) with (extent l1 + HEADER) by lia. replace (next _) with (first_block (top a l1 + span c) l2 0) by (destruct c; reflexivity).
    replace (if used _ =? 0 then 0 else _) with (if hole c then 0 else csize c) by (destruct c; reflexivity). reflexivity.
  - replace (extent l1 + used_span (c :: l2)) with (match l2 with [] => extent l1 + HEADER + (if hole c then 0 else csize c) | _ => extent (l1 ++ [c]) + used_span l2 end); [exact IH|].
    destruct l2; [cbn; lia|]. rewrite used_span_cons, extent_app. cbn [extent]. lia.
Qed.

Lemma arena_span_rep a h l : rep a h l -> arena_span data_arena code_arena a h = Ret (used_span l) h.
Proof.
  intros R. pose proof R as (B & E & _). pose proof (length_bound a l B ltac:(lia)). pose proof (span_runs a h l [] 0 R) as W. cbn [extent] in W.
  rewrite Z.add_0_r in W. unfold arena_span. assert (F : first_block (arena a) l 0 = arena a) by (destruct l; [destruct a; discriminate E | reflexivity]).
  rewrite F in W. rewrite (runs_pos _ _ _ _ TURNS W) by lia. destruct l; [destruct a; discriminate E | reflexivity].
Qed.

Lemma restore_runs s h0 : saved_mem s = mem h0 -> forall l2 l1 c h, rep false h0 (l1 ++ l2) ->
  exists c' h', runs (restore_turn data_arena code_arena guest_stack_heap s) (1 + length l2) (first_block (top false l1) l2 0, c, h) (c', h') /\
    forall lim, copy_back false c' lim s h' = copy_all false (ranges s (extent l1) c lim l2) s h.
Proof.
  intros Es. induction l2 as [|x l2 IH]; intros l1 c h R; [exists c, h; split; [apply runs_stop; reflexivity | reflexivity]|].
  pose proof (top_range _ _ P _ _ _ _ _ R) as T. pose proof (rep_header _ _ _ _ _ _ _ R) as E.
  set (p := extent l1 + HEADER). set (keep := retained s (top false l1) x).
  destruct (IH (l1 ++ [x]) (if keep then p + csize x else c) (if keep then copy_back false c p s h else h)) as (c' & h' & Rn & K); [rewrite <- app_assoc; exact R|].
  exists c', h'. split.
  - eapply runs_go; [|exact Rn]. unfold restore_turn. cbn [first_block]. destruct (Z.eqb_spec (top false l1) 0); [lia|]. rewrite Es, E.
    replace (top false l1 - data_arena + HEADER) with p by (subst p; cbn [Arena.arena]; lia). rewrite top_snoc.
    replace (data_arena + p) with (top false l1 + HEADER) by (subst p; cbn [Arena.arena]; lia). subst keep. destruct x as [z|z r o pc]; cbn [header used owner size next csize ArenaCheckpoint.retained]; [reflexivity|].
    cbn [Z.eqb negb andb]. destruct (_ || _); reflexivity.
  - intros lim. rewrite K. rewrite extent_app. cbn [extent ArenaCheckpoint.ranges]. rewrite Z.add_0_r.
    change (retained s (data_arena + extent l1) x) with keep. destruct keep; [|reflexivity].
    replace (p + csize x) with (extent l1 + span x) by (subst p; unfold span; lia). reflexivity.
Qed.

(** ** What comes back *)

Lemma image_in x b l : forall a p fp nx nf, In (x, b) (image a p fp l nx nf) -> exists l1 c l2, l = l1 ++ c :: l2 /\ x = a + extent l1.
Proof.
  induction l as [|c l IH]; intros a p fp nx nf; [intros []|]. cbn [image]. intros [[= <- _]|H]; [exists [], c, l; split; [reflexivity | cbn; lia]|].
  destruct (IH _ _ _ _ _ H) as (l1 & d & l2 & -> & ->). exists (c :: l1), d, l2. split; [reflexivity | cbn; lia].
Qed.

(** Memory that has the headers of all the blocks has the list. *)
Lemma rep_back a h h' l : rep a h l -> free_head a h' = free_head a h -> (forall l1 c l2, l = l1 ++ c :: l2 -> mem h' (top a l1) = mem h (top a l1)) -> rep a h' l.
Proof.
  intros (B & E & F & S) Eh Em. split; [exact B|]. split; [exact E|]. split; [congruence|]. unfold sat in *. rewrite List.Forall_forall in *.
  intros [x b] H. destruct (image_in _ _ _ _ _ _ _ _ H) as (l1 & c & l2 & El & ->). cbn [fst snd]. rewrite (Em _ _ _ El). exact (S _ H).
Qed.

Lemma combine_map {A B} (f : A -> B) (l : list A) : combine l (map f l) = map (fun o => (o, f o)) l.
Proof. induction l as [|x l IH]; [reflexivity|]. cbn. rewrite IH. reflexivity. Qed.

Lemma heaps_same h h' : map addresses (guest_fibers h') = map addresses (guest_fibers h) -> heaps h' = heaps h.
Proof.
  intros E. unfold compiler_checkpoint_heaps. do 3 f_equal. change (fun f => [heap_owner f; compiler_heap f; compiler_code_heap f]) with addresses.
  rewrite !flat_map_concat_map, E. reflexivity.
Qed.

Lemma heap_owner_in h f : In f (guest_fibers h) -> In (heap_owner f) (heaps h).
Proof. intros H. right. right. right. apply in_flat_map. exists f. split; [exact H | left; reflexivity]. Qed.

(** The state before the accounts are restored. *)
Definition copied_back (s : checkpoint) (cs : bool -> list cell) (h2 : heap) : heap :=
  copy_all true [(0, used_span (cs true))] s (copy_all false (ranges s 0 0 (used_span (cs false)) (cs false)) s h2).

Lemma copied_spec s cs h2 x : let R := ranges s 0 0 (used_span (cs false)) (cs false) in
  let h := copied_back s cs h2 in
  let c w := covered true [(0, used_span (cs true))] x w || covered false R x w in
  mem h x = (if c HEADER then saved_mem s x else mem h2 x) /\ data h x = (if c 1 then saved_data s x else data h2 x) /\
  ctrl h x = (if c 1 then saved_ctrl s x else ctrl h2 x) /\ guest_task_bound h = guest_task_bound h2 /\ guest_fibers h = guest_fibers h2.
Proof.
  intros R h c. unfold copied_back in h. fold R in h. set (h1 := copy_all false R s h2) in h.
  destruct (copy_all_spec data_arena code_arena false R s h2) as (M1 & D1 & C1 & _ & G1 & B1). fold h1 in M1, D1, C1, G1, B1.
  destruct (copy_all_spec data_arena code_arena true [(0, used_span (cs true))] s h1) as (M & D & C & _ & G & B). fold h in M, D, C, G, B.
  rewrite M, M1, D, D1, C, C1, G, G1, B, B1. subst c. cbv beta.
  split; [|split; [|split; [|split; reflexivity]]]; destruct (covered true _ _ _); reflexivity.
Qed.

(** Headers are copied; payloads are, unless they are a stack's. *)
Lemma block_copied s h cs a l1 c l2 : inv h cs -> cs a = l1 ++ c :: l2 ->
  let cov x w := covered true [(0, used_span (cs true))] x w || covered false (ranges s 0 0 (used_span (cs false)) (cs false)) x w in
  cov (top a l1) HEADER = true /\
  (hole c = false -> forall x, top a l1 + HEADER <= x < top a l1 + span c -> cov x 1 = negb (a_stack s a (top a l1) c)).
Proof.
  intros I El cov. subst cov. pose proof (inv_rep _ _ _ _ I a) as R. pose proof R as (B & E & _). rewrite El in B, R.
  destruct (used_span_block l1 c l2 B) as [S1 S2]. pose proof (top_range _ _ P _ _ _ _ _ R) as T. destruct a; unfold a_stack; cbn [negb andb].
  - rewrite <- El in S1, S2. split; [rewrite covered_cons, in_range_yes by lia; reflexivity|].
    intros Hc x Hx. specialize (S2 Hc). rewrite covered_cons, in_range_yes by (unfold HEADER in *; lia). reflexivity.
  - pose proof (ranges_block data_arena code_arena guest_stack_heap s c l2 (used_span (cs false)) l1 0 0 ltac:(lia) B) as K. cbv zeta in K.
    rewrite Z.add_0_r, <- El in K. rewrite <- El in S1, S2. destruct (K ltac:(lia)) as [K1 K2]. cbn [Arena.arena] in *. split; [rewrite K1; apply orb_true_r|].
    intros Hc x Hx. destruct (K2 x Hx) as [K3 K4]. specialize (S2 Hc). destruct (retained s (data_arena + extent l1) c).
    + rewrite (K3 eq_refl), covered_cons, in_range_no; [reflexivity|]. pose proof (inv_rep _ _ _ _ I true) as (Bt & Et & _).
      pose proof (used_span_le _ Bt). destruct P as (_ & _ & _ & _ & _ & _ & D). cbn [Arena.arena arena_bytes] in *. unfold HEADER in *. lia.
    + rewrite (K4 eq_refl ltac:(lia)). apply orb_true_r.
Qed.

(** The state a restore ends in. *)
Definition rolled_back (s : checkpoint) (cs : bool -> list cell) (h h2 : heap) : heap :=
  restore_used (map (fun o => (o, used_u8s (ctrl h o))) (heaps h))
    (set_free_head true (saved_free_heads s true) (set_free_head false (saved_free_heads s false) (copied_back s cs h2))).

Lemma restore_runs_to h cs s ps2 h2 : inv h cs -> saved_mem s = mem h -> saved_bytes s = (fun a => if a then used_span (cs true) else used_span (cs false)) ->
  saved_heap_used s = map (fun o => used_u8s (ctrl h o)) (heaps h) -> map addresses (guest_fibers h2) = map addresses (guest_fibers h) ->
  restore s ps2 h2 = Ret (restore_parser s (guest_task_bound h2) ps2) (rolled_back s cs h h2).
Proof.
  intros I Em Eb Eu Ea. pose proof (inv_rep _ _ _ _ I false) as R. pose proof R as (B & E & _). pose proof (length_bound false _ B ltac:(lia)).
  destruct (restore_runs s h Em (cs false) [] 0 h2 R) as (c' & h' & Rn & K). cbn [extent] in Rn, K. rewrite Z.add_0_r in Rn.
  assert (F : first_block (arena false) (cs false) 0 = data_arena) by (destruct (cs false); [discriminate E | reflexivity]). rewrite F in Rn.
  unfold compiler_checkpoint_restore. rewrite (runs_pos _ _ _ _ TURNS Rn) by lia. cbn [of_loop]. rewrite Eb, K.
  change (copy_back true 0 (used_span (cs true)) s ?x) with (copy_all true [(0, used_span (cs true))] s x). fold (copied_back s cs h2).
  destruct (copied_spec s cs h2 0) as (_ & _ & _ & G & Bf). cbv zeta. rewrite Eu. cbn [set_free_head guest_task_bound]. rewrite G. f_equal.
  unfold rolled_back. set (h3 := set_free_head true _ _). rewrite (heaps_same h h3); [rewrite combine_map; reflexivity|].
  subst h3. cbn [set_free_head guest_fibers]. rewrite Bf. exact Ea.
Qed.

Lemma rolled_back_inv h cs s h2 : inv h cs -> saved_mem s = mem h -> saved_ctrl s = ctrl h -> saved_free_heads s = (fun a => free_head a h) ->
  NoDup (map heap_owner (guest_fibers h)) -> map addresses (guest_fibers h2) = map addresses (guest_fibers h) ->
  (forall o, ~ In o (heaps h) -> ~ payload cs (fun a b c => negb (a_stack s a b c)) o -> used_u8s (ctrl h2 o) = used_u8s (ctrl h o)) ->
  inv (rolled_back s cs h h2) cs.
Proof.
  intros I Em Ec Eh N Ea U. unfold rolled_back. set (h3 := set_free_head true _ _).
  assert (S3 : forall x, mem h3 x = mem (copied_back s cs h2) x /\ ctrl h3 x = ctrl (copied_back s cs h2) x) by (intros x; split; reflexivity).
  assert (Bd : guest_task_bound h3 = guest_task_bound h2 /\ guest_fibers h3 = guest_fibers h2) by (destruct (copied_spec s cs h2 0) as (_ & _ & _ & K); exact K).
  destruct Bd as [Gd Fd]. destruct (restore_used_spec (fun o => used_u8s (ctrl h o)) (heaps h) h3) as (Sm & _ & G & A & V). cbv zeta in *.
  set (h4 := restore_used _ h3) in *. constructor.
  - intros a. apply (rep_same _ _ _ _ _ _ Sm). apply (rep_back a h h3 (cs a) (inv_rep _ _ _ _ I a)); [subst h3; rewrite Eh; destruct a; reflexivity|].
    intros l1 c l2 El. rewrite (proj1 (S3 _)). destruct (copied_spec s cs h2 (top a l1)) as (M & _). rewrite M, Em.
    destruct (block_copied s h cs a l1 c l2 I El) as [K _]. rewrite K. reflexivity.
  - apply (inv_calm _ _ _ _ I).
  - intros o. rewrite V, <- (inv_books _ _ _ _ I). destruct (existsb (Z.eqb o) (heaps h)) eqn:Eo; [reflexivity|].
    rewrite (proj2 (S3 o)). destruct (copied_spec s cs h2 o) as (_ & _ & C & _). rewrite C, Ec. destruct (_ || _) eqn:Ev; [reflexivity|]. apply U.
    + intros Hin. assert (K : existsb (Z.eqb o) (heaps h) = true) by (apply existsb_exists; exists o; split; [exact Hin | apply Z.eqb_refl]). congruence.
    + intros (a & l1 & z & r & w & pc & l2 & El & Hx & Hk). destruct (block_copied s h cs a l1 _ l2 I El) as [_ K].
      rewrite (K eq_refl o) in Ev by (unfold span; cbn [csize]; lia). congruence.
  - intros Bnd. rewrite G, Gd in Bnd. assert (N' : NoDup (map heap_owner (guest_fibers h3))) by (rewrite Fd, (addresses_owners _ _ Ea); exact N).
    split; [rewrite (addresses_owners _ _ A); exact N'|]. apply List.Forall_forall. intros f Hf Uf.
    refine (restore_used_synced (fun o => used_u8s (ctrl h o)) (heaps h) [] h3 _ N' _ f Hf Uf _); [congruence | intros g _ _ [] |].
    rewrite app_nil_r. assert (Eh4 : heaps h4 = heaps h) by (apply heaps_same; rewrite A, Fd; exact Ea). rewrite <- Eh4. apply heap_owner_in, Hf.
Qed.

(** C34: a failed compilation leaves no trace in the heap.  Whatever happened to the arenas, the accounts
    and the lists of free blocks after a checkpoint, restoring it brings back all blocks with the
    allocator's invariant, every account, and every byte of a payload, except the payloads that
    are stacks, which stay as they are; the state of the parser's task comes back as well. *)
Theorem checkpoint_rolls_back h cs sp old ps : inv h cs -> NoDup (map heap_owner (guest_fibers h)) ->
  exists s, save sp old ps h = Ret s h /\
    forall h2 ps2, map addresses (guest_fibers h2) = map addresses (guest_fibers h) ->
    (forall o, ~ In o (heaps h) -> ~ payload cs (fun a b c => negb (a_stack s a b c)) o -> used_u8s (ctrl h2 o) = used_u8s (ctrl h o)) ->
    exists h3 ps3, restore s ps2 h2 = Ret ps3 h3 /\ inv h3 cs /\
      (forall x, payload cs (fun a b c => negb (a_stack s a b c)) x -> data h3 x = data h x) /\
      (forall x, payload cs (a_stack s) x -> data h3 x = data h2 x) /\
      (guest_task_bound h = true -> guest_task_bound h2 = true -> ps3 = ps).
Proof.
  intros I N. set (s := mk_checkpoint (mem h) (data h) (ctrl h) (fun a : bool => if a then used_span (cs true) else used_span (cs false)) (fun a => free_head a h) sp
      (if guest_task_bound h then ps else mk_parser (task_words ps) 0 (except_top old) (except_caught old) (except_ch old) (catch_except old) (switch_depth ps) (fun_depth ps)) (map (fun o => used_u8s (ctrl h o)) (heaps h))).
  exists s. split.
  { unfold compiler_checkpoint_save. rewrite (arena_span_rep false h (cs false) (inv_rep _ _ _ _ I false)). cbn [bind].
    rewrite (arena_span_rep true h (cs true) (inv_rep _ _ _ _ I true)). reflexivity. }
  intros h2 ps2 Ea U. exists (rolled_back s cs h h2), (restore_parser s (guest_task_bound h2) ps2).
  split; [apply restore_runs_to; try reflexivity; assumption|]. split; [apply rolled_back_inv; try reflexivity; assumption|].
  assert (D : forall x, data (rolled_back s cs h h2) x = data (copied_back s cs h2) x).
  { intros x. unfold rolled_back. destruct (restore_used_spec (fun o => used_u8s (ctrl h o)) (heaps h)
      (set_free_head true (saved_free_heads s true) (set_free_head false (saved_free_heads s false) (copied_back s cs h2)))) as (_ & -> & _). reflexivity. }
  split; [|split].
  - intros x (a & l1 & z & r & w & pc & l2 & El & Hx & Hk). rewrite D. destruct (copied_spec s cs h2 x) as (_ & -> & _).
    destruct (block_copied s h cs a l1 _ l2 I El) as [_ K]. rewrite (K eq_refl x) by (unfold span; cbn [csize]; lia). rewrite Hk. reflexivity.
  - intros x (a & l1 & z & r & w & pc & l2 & El & Hx & Hk). rewrite D. destruct (copied_spec s cs h2 x) as (_ & -> & _).
    destruct (block_copied s h cs a l1 _ l2 I El) as [_ K]. rewrite (K eq_refl x) by (unfold span; cbn [csize]; lia). rewrite Hk. reflexivity.
  - intros Gh ->. unfold restore_parser, s. cbn. rewrite Gh. destruct ps. reflexivity.
Qed.
End Checkpoint.

(** ** A small rollback: all memory is wiped after the checkpoint *)

Lemma checkpoint_rolls_back_witness : exists s h3 ps3,
  compiler_checkpoint_save demo_data demo_code demo_heap 32 48 0 (mk_parser [] 0 0 0 0 0 0 0) (mk_parser [] 0 0 0 0 0 0 0) demo_one = Ret s demo_one /\
  compiler_checkpoint_restore demo_data demo_code demo_heap 32 48 s (mk_parser [] 1 1 1 1 1 1 1) blank = Ret ps3 h3 /\
  ArenaThms.inv demo_data demo_code h3 demo_cells.
Proof.
  destruct (checkpoint_rolls_back demo_data demo_code demo_heap 32 48 demo_placed demo_one demo_cells 0 (mk_parser [] 0 0 0 0 0 0 0) (mk_parser [] 0 0 0 0 0 0 0) demo_one_inv
    ltac:(constructor)) as (s & E & K).
  destruct (K blank (mk_parser [] 1 1 1 1 1 1 1) eq_refl) as (h3 & ps3 & E3 & I & _).
  - intros o Ho _. rewrite (inv_books _ _ _ _ demo_one_inv o). cbn [charged demo_cells owned empty csize].
    destruct (Z.eqb_spec demo_heap o) as [E0|_]; [destruct Ho; left; exact E0 | reflexivity].
  - exists s, h3, ps3. split; [exact E|]. split; [exact E3 | exact I].
Defined.
