(* ===== verification/RedSea.v ===== *)
(** * The RedSea root of the kernel ([src/src/kernel_stub.c])

    A volume of at most 128 blocks of 512 bytes: a boot record, a bitmap of the blocks in use, a
    root directory of eight entries, and files that are runs of blocks.  Buffers are lists of
    bytes; an access outside a buffer is a run without a result. *)

From S2P Require Import Prelude.
#[local] Open Scope Z_scope.
#[local] Open Scope sm_scope.

(** ** The device

    [answer] is what the block driver does with the [n]-th request it is given. *)
Inductive reply := Served | Refused | Lost.
Record dev := mk_dev { blocks : Z -> list Z; ready : bool; capacity : Z; clock : nat }.

Definition HC_RAM_N_BLKS : Z := 128.

Definition store (b : Z) (s : list Z) (d : dev) : dev := mk_dev (fun x => if x =? b then s else blocks d x) (ready d) (capacity d) (clock d).
Definition tick (d : dev) : dev := mk_dev (blocks d) (ready d) (capacity d) (Datatypes.S (clock d)).

Abbreviation M := (SM dev).
Definition wild {A} : M A := diverge.
Definition of_option {A} (o : option A) : M A := match o with Some a => ret a | None => wild end.

(** ** Words and strings *)

Fixpoint le_value (l : list Z) : Z := match l with [] => 0 | b :: l' => b + 256 * le_value l' end.
Fixpoint le_bytes (n : nat) (x : Z) : list Z := match n with O => [] | Datatypes.S n' => u8 x :: le_bytes n' (x / 256) end.
(** [w\[i\]] for [w = (int64_t * )(p + o)], as the unsigned value. *)
Definition word (p : list Z) (o i : nat) : Z := le_value (take 8 (drop (o + 8 * i) p)).

Definition str_lower (c : Z) : Z := if (65 <=? c) && (c <=? 90) then c + 32 else c.

(** [str_ieq(p, name)] for a string in a buffer. *)
Fixpoint str_ieq (p name : list Z) : option bool :=
  match p with
  | [] => None
  | c :: p' =>
      if c =? 0 then Some (match name with [] => true | _ => false end)
      else match name with [] => Some false | n :: name' => if str_lower c =? str_lower n then str_ieq p' name' else Some false end
  end.

Definition str (s : list Z) : list Z := s ++ [0].

Section RedSea.
Context (answer : nat -> reply).

(** ** Blocks *)

Definition hc_builtin_blkread (blk : Z) : M (option (list Z)) := fun d =>
  if ready d then
    if capacity d <? u64 (blk + 1) then Some (None, d)
    else match answer (clock d) with Served => Some (Some (blocks d blk), tick d) | _ => Some (None, tick d) end
  else if HC_RAM_N_BLKS <? u64 (blk + 1) then Some (None, d)
  else if HC_RAM_N_BLKS <=? blk then None
  else Some (Some (blocks d blk), d).

Definition hc_builtin_blkwrite (s : list Z) (blk : Z) : M bool := fun d =>
  if ready d then
    if capacity d <? u64 (blk + 1) then Some (false, d)
    else match answer (clock d) with
         | Served => Some (true, store blk s (tick d))
         | Refused => Some (false, tick d)
         | Lost => Some (false, store blk s (tick d))
         end
  else if HC_RAM_N_BLKS <? u64 (blk + 1) then Some (false, d)
  else if HC_RAM_N_BLKS <=? blk then None
  else Some (true, store blk s d).

(** ** The directory *)

Record root_dir := mk_root { r_code : Z; r_dir : list Z; r_root : Z; r_sects : Z }.
Definition no_root (c : Z) : root_dir := mk_root c [] 0 0.

Definition rs_read_root : M root_dir :=
  let! b := hc_builtin_blkread 0 in
  match b with
  | None => ret (no_root (-1))
  | Some br =>
      if negb (byte_at br 3 =? 0x88) || negb (byte_at br 510 =? 0x55) || negb (byte_at br 511 =? 0xaa) then ret (no_root (-2))
      else
        let root := word br 8 2 in
        let w := signed 64 (word br 8 1) in
        let sects := if (0 <? w) && (w <=? 128) then w else 16 in
        if root =? 0 then ret (no_root (-3))
        else
          let! b := hc_builtin_blkread root in
          match b with
          | None => ret (no_root (-4))
          | Some dir => ret (mk_root 0 dir root sects)
          end
  end.

(** The slots from [i] on: slot, first block and length. *)
Fixpoint find_from (n i : nat) (dir name : list Z) : option (option (nat * Z * Z)) :=
  match n with
  | O => Some None
  | Datatypes.S n' =>
      let e := drop (64 * i) dir in
      if byte_at e 2 =? 0 then find_from n' (i + 1) dir name
      else match str_ieq (drop 2 e) name with
           | None => None
           | Some true => Some (Some (i, word e 40 0, word e 40 1))
           | Some false => find_from n' (i + 1) dir name
           end
  end.
Definition rs_find_slot (dir name : list Z) : option (option (nat * Z * Z)) := find_from 8 0 dir name.

(** [(len + 511) / 512] *)
Definition clusters (len : Z) : Z := u64 (len + 511) / 512.

(** ** Loading *)

Fixpoint load_loop (n : nat) (blk off flen : Z) (acc : list Z) : M (option (list Z)) :=
  match n with
  | O => ret (Some acc)
  | Datatypes.S n' =>
      if off <? flen then
        let! b := hc_builtin_blkread blk in
        match b with
        | None => ret None
        | Some s => load_loop n' (blk + 1) (off + Z.min 512 (flen - off)) flen (acc ++ take (Z.to_nat (Z.min 512 (flen - off))) s)
        end
      else ret (Some acc)
  end.

Definition rs_load_file (name : list Z) (cap : Z) : M (Z * list Z) :=
  if cap <? 2 then ret (-1, [])
  else
    let! r := rs_read_root in
    if negb (r_code r =? 0) then ret (-2, [])
    else
      let! f := of_option (rs_find_slot (r_dir r) name) in
      match f with
      | None => ret (-6, [])
      | Some (_, fblk, flen) =>
          if (fblk <? 3) || (flen =? 0) || (cap <=? flen) || (r_sects r <? fblk) || (u64 (r_sects r - fblk) <? clusters flen) then ret (-6, [])
          else
            let! b := load_loop (Z.to_nat (clusters flen)) fblk 0 flen [] in
            match b with None => ret (-7, []) | Some dst => ret (0, dst) end
      end.

(** ** Formatting *)

Fixpoint zero_blocks (n : nat) (i : Z) : M bool :=
  match n with
  | O => ret true
  | Datatypes.S n' => let! ok := hc_builtin_blkwrite (zeros 512) i in if ok : bool then zero_blocks n' (i + 1) else ret false
  end.

Definition boot_record (sects uid : Z) : list Z :=
  write_at (write_at (write_at (zeros 512) 3 [0x88]) 8 (le_bytes 8 0 ++ le_bytes 8 sects ++ le_bytes 8 2 ++ le_bytes 8 1 ++ le_bytes 8 uid)) 510 [0x55; 0xaa].

Definition rs_fmt_host (sects uid : Z) : M Z :=
  if (sects <? 4) || (128 <? sects) then ret (-1)
  else
    let! ok := hc_builtin_blkwrite (boot_record sects uid) 0 in
    if negb ok then ret (-2)
    else
      let! ok := hc_builtin_blkwrite (write_at (zeros 512) 0 [7]) 1 in
      if negb ok then ret (-3)
      else
        let! ok := hc_builtin_blkwrite (zeros 512) 2 in
        if negb ok then ret (-4)
        else
          let! ok := zero_blocks (Z.to_nat (sects - 3)) 3 in
          ret (if ok : bool then 0 else -5).

(** ** The bitmap *)

Definition bit (map : list Z) (b : Z) : bool := negb (Z.land (byte_at map (Z.shiftr b 3)) (Z.shiftl 1 (Z.land b 7)) =? 0).
(** [map\[b >> 3\] |= 1u << (b & 7)] and [map\[b >> 3\] &= ~(1u << (b & 7))]; [b] is an [unsigned]. *)
Definition change_bit (f : Z -> Z -> Z) (map : list Z) (b : Z) : option (list Z) :=
  let k := Z.to_nat (Z.shiftr (u32 b) 3) in
  match map !! k with None => None | Some x => Some (<[k := u8 (f x (Z.shiftl 1 (Z.land (u32 b) 7)))]> map) end.
Fixpoint change_bits (f : Z -> Z -> Z) (n : nat) (map : list Z) (b : Z) : option (list Z) :=
  match n with O => Some map | Datatypes.S n' => match change_bit f map b with None => None | Some map' => change_bits f n' map' (b + 1) end end.
Definition set_run (n : Z) (map : list Z) (b : Z) : option (list Z) := change_bits Z.lor (Z.to_nat n) map b.
(** A run that is longer than the bitmap leaves it: no more than 4097 turns happen. *)
Definition clear_run (n : Z) (map : list Z) (b : Z) : option (list Z) := change_bits Z.ldiff (Z.to_nat (Z.min n 4097)) map b.

(** The first run of [n] free blocks. *)
Fixpoint free_run (n : nat) (map : list Z) (b : Z) : bool :=
  match n with O => true | Datatypes.S n' => negb (bit map b) && free_run n' map (b + 1) end.
Fixpoint find_run (fuel : nat) (n sects : Z) (map : list Z) (i : Z) : option Z :=
  match fuel with
  | O => None
  | Datatypes.S fuel' =>
      if i + n <=? sects then (if free_run (Z.to_nat n) map i then Some i else find_run fuel' n sects map (i + 1)) else None
  end.

(** ** Writing *)

Definition data_block (src : list Z) (j : nat) : list Z := let s := take 512 (drop (512 * j) src) in s ++ zeros (512 - length s).
Fixpoint write_data (n j : nat) (src : list Z) (fblk : Z) : M bool :=
  match n with
  | O => ret true
  | Datatypes.S n' => let! ok := hc_builtin_blkwrite (data_block src j) (fblk + Z.of_nat j) in if ok : bool then write_data n' (j + 1) src fblk else ret false
  end.

Definition set_entry (dir : list Z) (slot : nat) (e : list Z) : list Z := write_at dir (64 * slot) e.
Definition new_entry (name : list Z) : list Z := write_at (write_at (zeros 64) 0 [0x20; 0x04]) 2 (str name).
Definition set_words (e : list Z) (fblk len : Z) : list Z := write_at e 40 (le_bytes 8 fblk ++ le_bytes 8 len ++ le_bytes 8 0).

(** The first slot that is free. *)
Fixpoint free_slot (n i : nat) (dir : list Z) : option nat :=
  match n with O => None | Datatypes.S n' => if byte_at dir (Z.of_nat (64 * i + 2)) =? 0 then Some i else free_slot n' (i + 1) dir end.

(** What a put found: the slot, whether the file exists, and its old run. *)
Record target := mk_target { t_slot : nat; t_existing : bool; t_blk : Z; t_clus : Z }.

Definition put_target (r : root_dir) (name : list Z) : M (Z + target) :=
  let! f := of_option (rs_find_slot (r_dir r) name) in
  match f with
  | Some (slot, old_blk, old_len) =>
      if (old_len =? 0) || (old_blk <? 3) || (r_sects r <? u64 (old_blk + clusters old_len)) then ret (inl (-3))
      else ret (inr (mk_target slot true old_blk (clusters old_len)))
  | None => match free_slot 8 0 (r_dir r) with Some slot => ret (inr (mk_target slot false 0 0)) | None => ret (inl (-6)) end
  end.

(** The directory is written last; then the blocks that are no longer used are freed. *)
Definition put_commit (r : root_dir) (t : target) (name : list Z) (len nclus fblk : Z) (new_run : bool) (old_map map : list Z) : M Z :=
  let e := if t_existing t then take 64 (drop (64 * t_slot t) (r_dir r)) else new_entry name in
  let dir := set_entry (r_dir r) (t_slot t) (set_words e fblk len) in
  let! ok := hc_builtin_blkwrite dir (r_root r) in
  if negb ok then (if new_run then let! _ := hc_builtin_blkwrite old_map 1 in ret (-10) else ret (-10))
  else if t_existing t && (new_run || (nclus <? t_clus t)) then
    let first := if new_run then t_blk t else t_blk t + nclus in
    let count := if new_run then t_clus t else t_clus t - nclus in
    let! map := of_option (clear_run count map first) in
    let! ok := hc_builtin_blkwrite map 1 in
    ret (if ok : bool then 0 else -13)
  else ret 0.

Definition put_write (r : root_dir) (t : target) (name src : list Z) (nclus fblk : Z) (new_run : bool) (old_map map : list Z) : M Z :=
  let! ok := write_data (Z.to_nat nclus) 0 src fblk in
  if negb ok then ret (-12)
  else
    let! ok := (if new_run then hc_builtin_blkwrite map 1 else ret true) in
    if negb ok then ret (-9) else put_commit r t name (Z.of_nat (length src)) nclus fblk new_run old_map map.

Definition rs_put_file (name src : list Z) : M Z :=
  let len := Z.of_nat (length src) in
  if (len =? 0) || (37 <? Z.of_nat (length name)) || (65536 <? len) then ret (-1)
  else
    let nclus := (len + 511) / 512 in
    let! r := rs_read_root in
    if negb (r_code r =? 0) || (r_sects r <? 4) || (128 <? r_sects r) then ret (-2)
    else
      let! b := hc_builtin_blkread 1 in
      match b with
      | None => ret (-7)
      | Some old_map =>
          let! t := put_target r name in
          match t with
          | inl c => ret c
          | inr t =>
              if negb (t_existing t) || (t_clus t <? nclus) then
                match find_run 128 nclus (r_sects r) old_map 3 with
                | None => ret (-8)
                | Some fblk => let! map := of_option (set_run nclus old_map fblk) in put_write r t name src nclus fblk true old_map map
                end
              else put_write r t name src nclus (t_blk t) false old_map old_map
          end
      end.

(** [rs_file_exists]: the length, if the file exists. *)
Definition rs_file_exists (name : list Z) : M (option Z) :=
  let! r := rs_read_root in
  if negb (r_code r =? 0) then ret None
  else let! f := of_option (rs_find_slot (r_dir r) name) in ret (match f with None => None | Some (_, _, flen) => Some flen end).

Definition rs_put_file_if_absent (name src : list Z) : M Z :=
  let! e := rs_file_exists name in
  match e with Some elen => if 0 <? elen then ret 0 else rs_put_file name src | None => rs_put_file name src end.

Definition is_dots (name : list Z) : bool := match name with [46] | [46; 46] => true | _ => false end.

Definition rs_del_file (name : list Z) : M Z :=
  if is_dots name then ret (-1)
  else
    let! r := rs_read_root in
    if negb (r_code r =? 0) then ret (-2)
    else
      let! f := of_option (rs_find_slot (r_dir r) name) in
      match f with
      | None => ret (-3)
      | Some (slot, fblk, flen) =>
          if fblk =? 0 then ret (-3)
          else
            let! b := hc_builtin_blkread 1 in
            match b with
            | None => ret (-4)
            | Some map =>
                let! map := of_option (clear_run (u32 (Z.max 1 (clusters flen))) map fblk) in
                let! ok := hc_builtin_blkwrite map 1 in
                if negb ok then ret (-5)
                else
                  let! ok := hc_builtin_blkwrite (set_entry (r_dir r) slot (zeros 64)) (r_root r) in
                  ret (if ok : bool then 0 else -6)
            end
      end.

Definition rs_rename_file (oldn newn : list Z) : M Z :=
  if is_dots oldn || (length newn =? 0)%nat || (37 <? Z.of_nat (length newn)) then ret (-1)
  else
    let! r := rs_read_root in
    if negb (r_code r =? 0) then ret (-2)
    else
      let! f := of_option (rs_find_slot (r_dir r) oldn) in
      match f with
      | None => ret (-3)
      | Some (slot, _, _) =>
          let! same := of_option (str_ieq (str oldn) newn) in
          let! g := (if same : bool then ret None else of_option (rs_find_slot (r_dir r) newn)) in
          match g with
          | Some _ => ret (-4)
          | None =>
              let e := take 64 (drop (64 * slot) (r_dir r)) in
              let! ok := hc_builtin_blkwrite (set_entry (r_dir r) slot (write_at (write_at e 2 (zeros 38)) 2 (str newn))) (r_root r) in
              ret (if ok : bool then 0 else -5)
          end
      end.
End RedSea.
