(* ===== verification/RedSeaVol.v ===== *)
(** * RedSea volumes

    What the words, the bitmap and the directory of a volume say: a list of entries, the blocks
    each file has, and the map from names, up to case, to contents. *)

From S2P Require Import Prelude RedSea.
#[local] Open Scope Z_scope.

(** ** Words *)

Lemma length_le_bytes n x : length (le_bytes n x) = n.
Proof. revert x. induction n as [|n IH]; intros x; cbn; [reflexivity | rewrite IH; reflexivity]. Qed.

Lemma le_bytes_ok n x : bytes_ok (le_bytes n x).
Proof. revert x. induction n as [|n IH]; intros x; constructor; [apply u8_is_u | apply IH]. Qed.

Lemma le_value_bytes n x : 0 <= x < 256 ^ Z.of_nat n -> le_value (le_bytes n x) = x.
Proof.
  revert x. induction n as [|n IH]; intros x Hx; [cbn in *; lia|]. cbn [le_bytes le_value]. rewrite Nat2Z.inj_succ, Z.pow_succ_r in Hx by lia.
  rewrite IH by (split; [apply Z.div_pos; lia | apply Z.div_lt_upper_bound; lia]). unfold u8, wrap. change (2 ^ 8) with 256.
  pose proof (Z.div_mod x 256). lia.
Qed.

Lemma value_range l : bytes_ok l -> 0 <= le_value l < 256 ^ Z.of_nat (length l).
Proof.
  induction 1 as [|b l Hb _ IH]; [cbn; lia|]. cbn [le_value length]. rewrite Nat2Z.inj_succ, Z.pow_succ_r by lia. unfold is_u in Hb. change (2 ^ 8) with 256 in Hb. lia.
Qed.

(** ** Bits *)

Definition mbit (map : list Z) (b : Z) : bool := Z.testbit (byte_at map (b / 8)) (b mod 8).

Lemma land_bit x k : 0 <= k -> negb (Z.land x (Z.shiftl 1 k) =? 0) = Z.testbit x k.
Proof.
  intros Hk. rewrite Z.shiftl_1_l. destruct (Z.testbit x k) eqn:E.
  - apply negb_true_iff, Z.eqb_neq. intros H. assert (K : Z.testbit (Z.land x (2 ^ k)) k = true)
      by (rewrite Z.land_spec, E, Z.pow2_bits_eqb, Z.eqb_refl by lia; reflexivity).
    rewrite H, Z.bits_0 in K. discriminate.
  - apply negb_false_iff, Z.eqb_eq. apply Z.bits_inj'. intros i Hi. rewrite Z.bits_0, Z.land_spec, Z.pow2_bits_eqb by lia.
    destruct (Z.eqb_spec k i) as [->|N]; [rewrite E; reflexivity | apply andb_false_r].
Qed.

Lemma bit_mbit map b : 0 <= b -> bit map b = mbit map b.
Proof.
  intros Hb. unfold bit, mbit. rewrite shiftr_div by lia. change 7 with (2 ^ 3 - 1). rewrite land_ones_mod by lia. apply land_bit.
  apply Z.mod_pos_bound. lia.
Qed.

(** A change of one bit: [on] says what becomes of it. *)
Lemma change_bit_spec f (on : bool) map b : (forall x k i, 0 <= k -> 0 <= i -> Z.testbit (f x (Z.shiftl 1 k)) i = if k =? i then on else Z.testbit x i) ->
  bytes_ok map -> 0 <= b < 8 * Z.of_nat (length map) -> b < 2 ^ 32 ->
  exists map', change_bit f map b = Some map' /\ bytes_ok map' /\ length map' = length map /\
    forall c, 0 <= c -> mbit map' c = if c =? b then on else mbit map c.
Proof.
  intros Hf B Hb Hu. unfold change_bit. rewrite u32_id by lia. rewrite shiftr_div by lia. change (2 ^ 3) with 8.
  change 7 with (2 ^ 3 - 1). rewrite land_ones_mod by lia. change (2 ^ 3) with 8.
  assert (H8 : 0 <= b / 8 < Z.of_nat (length map)) by (split; [apply Z.div_pos; lia | apply Z.div_lt_upper_bound; lia]).
  pose proof (Z.mod_pos_bound b 8 ltac:(lia)). destruct (map !! Z.to_nat (b / 8)) as [x|] eqn:E; [|apply lookup_ge_None in E; lia].
  eexists. split; [reflexivity|]. split; [apply bytes_ok_insert; [exact B | apply u8_is_u]|]. split; [apply length_insert|].
  intros c Hc. unfold mbit. rewrite !byte_at_lookup by (apply Z.div_pos; lia). pose proof (Z.mod_pos_bound c 8 ltac:(lia)).
  destruct (Z.eq_dec (c / 8) (b / 8)) as [Ed|Nd].
  - rewrite Ed, list_lookup_insert_eq, E by lia. cbn [from_option id]. unfold id, u8, wrap. rewrite Z.mod_pow2_bits_low by lia. rewrite Hf by lia.
    destruct (Z.eqb_spec (b mod 8) (c mod 8)) as [Em|Nm].
    + replace (c =? b) with true; [reflexivity|]. symmetry. apply Z.eqb_eq. pose proof (Z.div_mod b 8). pose proof (Z.div_mod c 8). lia.
    + replace (c =? b) with false; [reflexivity|]. symmetry. apply Z.eqb_neq. intros ->. lia.
  - rewrite list_lookup_insert_ne by (pose proof (Z.div_pos c 8); lia). replace (c =? b) with false; [reflexivity|]. symmetry. apply Z.eqb_neq. intros ->. lia.
Qed.

Lemma lor_bit x k i : 0 <= k -> 0 <= i -> Z.testbit (Z.lor x (Z.shiftl 1 k)) i = if k =? i then true else Z.testbit x i.
Proof. intros Hk Hi. rewrite Z.lor_spec, Z.shiftl_1_l, Z.pow2_bits_eqb by lia. destruct (k =? i); [apply orb_true_r | apply orb_false_r]. Qed.

Lemma ldiff_bit x k i : 0 <= k -> 0 <= i -> Z.testbit (Z.ldiff x (Z.shiftl 1 k)) i = if k =? i then false else Z.testbit x i.
Proof. intros Hk Hi. rewrite Z.ldiff_spec, Z.shiftl_1_l, Z.pow2_bits_eqb by lia. destruct (k =? i); [apply andb_false_r | apply andb_true_r]. Qed.

Lemma change_bits_spec f (on : bool) : (forall x k i, 0 <= k -> 0 <= i -> Z.testbit (f x (Z.shiftl 1 k)) i = if k =? i then on else Z.testbit x i) ->
  forall n map b, bytes_ok map -> 0 <= b -> b + Z.of_nat n <= 8 * Z.of_nat (length map) -> 8 * Z.of_nat (length map) <= 2 ^ 32 ->
  exists map', change_bits f n map b = Some map' /\ bytes_ok map' /\ length map' = length map /\
    forall c, 0 <= c -> mbit map' c = if (b <=? c) && (c <? b + Z.of_nat n) then on else mbit map c.
Proof.
  intros Hf. induction n as [|n IH]; intros map b B Hb Hn Hu.
  - exists map. split; [reflexivity|]. split; [exact B|]. split; [reflexivity|]. intros c Hc. destruct (Z.leb_spec b c), (Z.ltb_spec c (b + Z.of_nat 0)); try reflexivity; lia.
  - cbn [change_bits]. destruct (change_bit_spec f on map b Hf B) as (m1 & -> & B1 & L1 & K1); [lia | lia |].
    destruct (IH m1 (b + 1) B1) as (m2 & -> & B2 & L2 & K2); [lia | lia | lia |]. exists m2. split; [reflexivity|]. split; [exact B2|]. split; [congruence|].
    intros c Hc. rewrite K2, K1 by lia. destruct (Z.leb_spec (b + 1) c), (Z.ltb_spec c (b + 1 + Z.of_nat n)), (Z.leb_spec b c), (Z.ltb_spec c (b + Z.of_nat (S n))), (Z.eqb_spec c b); cbn; try reflexivity; lia.
Qed.

Lemma free_run_spec n map b : 0 <= b -> free_run n map b = true <-> forall c, b <= c < b + Z.of_nat n -> mbit map c = false.
Proof.
  revert b. induction n as [|n IH]; intros b Hb; cbn [free_run]; [split; [intros _ c Hc; lia | reflexivity]|].
  rewrite andb_true_iff, negb_true_iff, bit_mbit, IH by lia. split.
  - intros [H1 H2] c Hc. destruct (Z.eq_dec c b) as [->|]; [exact H1 | apply H2; lia].
  - intros H. split; [apply H; lia | intros c Hc; apply H; lia].
Qed.

Lemma find_run_spec fuel n sects map : forall i b, 0 <= i -> 0 <= n -> find_run fuel n sects map i = Some b ->
  i <= b /\ b + n <= sects /\ forall c, b <= c < b + n -> mbit map c = false.
Proof.
  induction fuel as [|fuel IH]; intros i b Hi Hn; [discriminate|]. cbn [find_run]. destruct (Z.leb_spec (i + n) sects) as [H|]; [|discriminate].
  destruct (free_run (Z.to_nat n) map i) eqn:E; [|intros K; apply IH in K; [|lia..]; destruct K as (K1 & K2 & K3); split; [lia|]; split; assumption].
  intros [= <-]. rewrite free_run_spec in E by lia. split; [lia|]. split; [exact H|]. intros c Hc. apply E. lia.
Qed.

(** ** Names *)

Definition key (s : list Z) : list Z := map str_lower s.

Lemma str_ieq_string s rest : Forall (fun c => c <> 0) s -> forall name, str_ieq (s ++ 0 :: rest) name = Some (bool_decide (key s = key name)).
Proof.
  induction 1 as [|c s Hc _ IH]; intros name; cbn [app str_ieq].
  - cbn. destruct name; reflexivity.
  - destruct (Z.eqb_spec c 0); [contradiction|]. destruct name as [|m name]; [reflexivity|]. cbn [key map]. destruct (Z.eqb_spec (str_lower c) (str_lower m)) as [E|N].
    + rewrite IH. f_equal. apply bool_decide_ext. fold (key s) (key name). rewrite E. split; [intros ->; reflexivity | intros [= ->]; reflexivity].
    + f_equal. symmetry. apply bool_decide_eq_false. intros [= K _]. contradiction.
Qed.

(** ** Entries *)

Record ent := mk_ent { e_name : list Z; e_blk : Z; e_len : Z }.
Definition nclus (e : ent) : Z := (e_len e + 511) / 512.
Definition in_run (e : ent) (c : Z) : Prop := e_blk e <= c < e_blk e + nclus e.

Definition read_ent (p : list Z) : option ent :=
  if byte_at p 2 =? 0 then None else Some (mk_ent (cstr (take 38 (drop 2 p))) (word p 40 0) (word p 40 1)).
Definition entry (dir : list Z) (i : nat) : list Z := take 64 (drop (64 * i) dir).
Definition ents (dir : list Z) : list (option ent) := map (fun i => read_ent (entry dir i)) (seq 0 8).

Lemma ents_lookup dir i : (i < 8)%nat -> ents dir !! i = Some (read_ent (entry dir i)).
Proof.
  intros H. unfold ents. rewrite list_lookup_fmap, lookup_seq_lt by exact H. reflexivity.
Qed.

Lemma ents_lookup_inv dir i e : ents dir !! i = Some e -> (i < 8)%nat /\ e = read_ent (entry dir i).
Proof.
  intros H. assert (Hi : (i < 8)%nat) by (apply lookup_lt_Some in H; unfold ents in H; rewrite length_map, length_seq in H; exact H).
  split; [exact Hi|]. rewrite ents_lookup in H by exact Hi. congruence.
Qed.

Lemma word_take p o i n : (o + 8 * i + 8 <= n)%nat -> word (take n p) o i = word p o i.
Proof. intros H. unfold word. rewrite skipn_firstn_comm, firstn_firstn. do 2 f_equal. lia. Qed.

Lemma word_ok p o i : bytes_ok p -> 0 <= word p o i < 2 ^ 64.
Proof.
  intros B. unfold word. assert (B' : bytes_ok (take 8 (drop (o + 8 * i) p))) by auto with buf. pose proof (value_range _ B') as H.
  rewrite length_take in H. assert (256 ^ Z.of_nat (8 `min` length (drop (o + 8 * i) p)) <= 256 ^ 8) by (apply Z.pow_le_mono_r; lia). lia.
Qed.

Lemma cstr_split l : (length (cstr l) < length l)%nat -> exists rest, l = cstr l ++ 0 :: rest.
Proof.
  induction l as [|c l IH]; cbn; [lia|]. destruct (Z.eqb_spec c 0) as [->|]; [exists l; reflexivity|]. cbn. intros H.
  destruct IH as (rest & E); [lia|]. exists rest. rewrite E at 1. reflexivity.
Qed.

(** A name that ends inside its field is a string in the directory. *)
Lemma name_in_dir dir i e : length dir = 512%nat -> ents dir !! i = Some (Some e) -> (length (e_name e) <= 37)%nat ->
  exists rest, drop (64 * i + 2) dir = e_name e ++ 0 :: rest.
Proof.
  intros L H Hn. apply ents_lookup_inv in H as [Hi H]. unfold read_ent in H. destruct (_ =? 0); [discriminate|]. injection H as ->. cbn [e_name] in *.
  set (s := take 38 (drop 2 (entry dir i))) in *. assert (Ls : length s = 38%nat).
  { subst s. unfold entry. rewrite length_take, length_drop, length_take, length_drop. lia. }
  destruct (cstr_split s) as (rest & E); [lia|]. assert (Es : s = take 38 (drop (64 * i + 2) dir)).
  { subst s. unfold entry. rewrite skipn_firstn_comm, firstn_firstn, drop_drop. reflexivity. }
  exists (rest ++ drop 38 (drop (64 * i + 2) dir)). rewrite <- (take_drop 38 (drop (64 * i + 2) dir)) at 1. rewrite <- Es, E at 1. rewrite <- app_assoc. reflexivity.
Qed.

(** The entry of a name. *)
Fixpoint find_ent (n i : nat) (L : list (option ent)) (k : list Z) : option (nat * ent) :=
  match n with
  | O => None
  | Datatypes.S n' =>
      match L !! i with
      | Some (Some e) => if bool_decide (key (e_name e) = k) then Some (i, e) else find_ent n' (i + 1) L k
      | _ => find_ent n' (i + 1) L k
      end
  end.

Definition tidy (L : list (option ent)) : Prop := forall i e, L !! i = Some (Some e) -> (length (e_name e) <= 37)%nat.

Lemma find_from_spec dir name : length dir = 512%nat -> tidy (ents dir) -> forall n i, (i + n <= 8)%nat ->
  find_from n i dir name = Some (option_map (fun '(j, e) => (j, e_blk e, e_len e)) (find_ent n i (ents dir) (key name))).
Proof.
  intros L T. induction n as [|n IH]; intros i Hi; [reflexivity|]. cbn [find_from find_ent].
  rewrite ents_lookup by lia. assert (Eb : byte_at (drop (64 * i) dir) 2 = byte_at (entry dir i) 2).
  { unfold entry. rewrite !byte_at_lookup by lia. rewrite lookup_take_lt by (cbn; lia). reflexivity. }
  unfold read_ent. rewrite Eb. destruct (byte_at (entry dir i) 2 =? 0) eqn:E0; [apply IH; lia|].
  set (e := mk_ent _ _ _). assert (He : ents dir !! i = Some (Some e)) by (rewrite ents_lookup by lia; unfold read_ent; rewrite E0; reflexivity).
  destruct (name_in_dir dir i e L He (T i e He)) as (rest & Er). rewrite drop_drop. rewrite Er.
  rewrite str_ieq_string by (apply cstr_nonzero). destruct (bool_decide _); [|apply IH; lia]. cbn [option_map]. do 3 f_equal.
  - f_equal. cbn [e_blk e]. unfold entry. rewrite word_take by lia. reflexivity.
  - cbn [e_len e]. unfold entry. rewrite word_take by lia. reflexivity.
Qed.

Lemma find_ent_some k L n i j e : find_ent n i L k = Some (j, e) -> L !! j = Some (Some e) /\ key (e_name e) = k /\ (i <= j < i + n)%nat.
Proof.
  revert i. induction n as [|n IH]; intros i; [discriminate|]. cbn [find_ent]. destruct (L !! i) as [[e'|]|] eqn:E.
  - destruct (bool_decide_reflect (key (e_name e') = k)) as [K|K]; [intros [= <- <-]; split; [exact E | split; [exact K | lia]]|].
    intros H. apply IH in H as (H1 & H2 & H3). split; [exact H1 | split; [exact H2 | lia]].
  - intros H. apply IH in H as (H1 & H2 & H3). split; [exact H1 | split; [exact H2 | lia]].
  - intros H. apply IH in H as (H1 & H2 & H3). split; [exact H1 | split; [exact H2 | lia]].
Qed.

Lemma find_ent_none k L n i : find_ent n i L k = None -> forall j e, (i <= j < i + n)%nat -> L !! j = Some (Some e) -> key (e_name e) <> k.
Proof.
  revert i. induction n as [|n IH]; intros i H j e Hj He; [lia|]. cbn [find_ent] in H.
  destruct (Nat.eq_dec j i) as [->|N].
  - rewrite He in H. destruct (bool_decide_reflect (key (e_name e) = k)) as [K|K]; [discriminate H | exact K].
  - apply (IH (i + 1)%nat) with (j := j); [|lia | exact He]. destruct (L !! i) as [[e'|]|]; [|exact H | exact H].
    destruct (bool_decide _); [discriminate H | exact H].
Qed.

(** Names are unique, so the place of an entry does not matter. *)
Definition unique (L : list (option ent)) : Prop :=
  forall i j e e', L !! i = Some (Some e) -> L !! j = Some (Some e') -> i <> j -> key (e_name e) <> key (e_name e').

Lemma find_ent_unique L i e : unique L -> length L = 8%nat -> L !! i = Some (Some e) -> find_ent 8 0 L (key (e_name e)) = Some (i, e).
Proof.
  intros U Ll He. pose proof (lookup_lt_Some _ _ _ He). destruct (find_ent 8 0 L (key (e_name e))) as [[j e']|] eqn:F.
  - apply find_ent_some in F as (F1 & F2 & _). destruct (Nat.eq_dec i j) as [<-|N]; [congruence|]. destruct (U i j e e' He F1 N). congruence.
  - destruct (find_ent_none _ _ _ _ F i e ltac:(lia) He). reflexivity.
Qed.

Lemma free_slot_spec dir n i j : length dir = 512%nat -> (i + n <= 8)%nat -> free_slot n i dir = Some j -> (j < 8)%nat /\ ents dir !! j = Some None.
Proof.
  intros L. revert i. induction n as [|n IH]; intros i Hi; [discriminate|]. cbn [free_slot].
  destruct (byte_at dir (Z.of_nat (64 * i + 2)) =? 0) eqn:E; [intros [= <-] | intros H; apply (IH (i + 1)%nat); [lia | exact H]].
  split; [lia|]. rewrite ents_lookup by lia. unfold read_ent, entry. rewrite byte_at_lookup in * by lia. rewrite lookup_take_lt, lookup_drop by (cbn; lia).
  replace (64 * i + Z.to_nat 2)%nat with (Z.to_nat (Z.of_nat (64 * i + 2))) by lia. rewrite E. reflexivity.
Qed.

(** ** Changing an entry *)

Lemma set_entry_same dir i e : length dir = 512%nat -> length e = 64%nat -> (i < 8)%nat -> entry (set_entry dir i e) i = e.
Proof.
  intros L Le Hi. unfold set_entry, entry. apply list_eq. intros k. destruct (Nat.lt_ge_cases k 64).
  - rewrite lookup_take_lt, lookup_drop by lia. rewrite write_at_lookup_in by lia. f_equal. lia.
  - rewrite lookup_take_ge by lia. symmetry. apply lookup_ge_None. lia.
Qed.

Lemma set_entry_other dir i j e : length dir = 512%nat -> length e = 64%nat -> (i < 8)%nat -> j <> i -> entry (set_entry dir i e) j = entry dir j.
Proof.
  intros L Le Hi N. unfold set_entry, entry. apply list_eq. intros k. destruct (Nat.lt_ge_cases k 64); [|rewrite !lookup_take_ge by lia; reflexivity].
  rewrite !lookup_take_lt, !lookup_drop by lia. destruct (Nat.lt_ge_cases j i); [apply write_at_lookup_lt; lia | apply write_at_lookup_ge; lia].
Qed.

Lemma set_entry_ents dir i e : length dir = 512%nat -> length e = 64%nat -> (i < 8)%nat -> ents (set_entry dir i e) = <[i := read_ent e]> (ents dir).
Proof.
  intros L Le Hi. assert (Ls : length (set_entry dir i e) = 512%nat) by (unfold set_entry; rewrite length_write_at; exact L).
  assert (Ln : forall d, length (ents d) = 8%nat) by (intros d; unfold ents; rewrite length_map, length_seq; reflexivity).
  apply list_eq. intros j. destruct (Nat.lt_ge_cases j 8) as [Hj|Hj].
  - destruct (Nat.eq_dec i j) as [<-|N].
    + rewrite list_lookup_insert_eq by (rewrite Ln; exact Hi). rewrite ents_lookup, set_entry_same by assumption. reflexivity.
    + rewrite list_lookup_insert_ne by exact N. rewrite !ents_lookup by exact Hj. rewrite set_entry_other by (assumption || congruence). reflexivity.
  - rewrite !(proj2 (lookup_ge_None _ _)); [reflexivity | rewrite length_insert, Ln; lia | rewrite Ln; lia].
Qed.

(** ** RedSea volumes: what a write does to the files *)

(** ** Contents *)

Fixpoint run (v : Z -> list Z) (b : Z) (n : nat) : list Z :=
  match n with O => [] | Datatypes.S n' => v b ++ run v (b + 1) n' end.
Definition contents (v : Z -> list Z) (e : ent) : list Z := take (Z.to_nat (e_len e)) (run v (e_blk e) (Z.to_nat (nclus e))).
Definition look (v : Z -> list Z) (L : list (option ent)) (k : list Z) : option (list Z) :=
  option_map (fun '(_, e) => contents v e) (find_ent 8 0 L k).

Definition bput (b : Z) (s : list Z) (v : Z -> list Z) : Z -> list Z := fun x => if x =? b then s else v x.

Lemma bput_eq b s v : bput b s v b = s.
Proof. unfold bput. rewrite Z.eqb_refl. reflexivity. Qed.
Lemma bput_ne b s v x : x <> b -> bput b s v x = v x.
Proof. intros H. unfold bput. destruct (Z.eqb_spec x b); [contradiction | reflexivity]. Qed.

Lemma run_ext v v' n : forall b, (forall c, b <= c < b + Z.of_nat n -> v' c = v c) -> run v' b n = run v b n.
Proof.
  induction n as [|n IH]; intros b H; [reflexivity|]. cbn [run]. rewrite (H b) by lia. f_equal. apply IH. intros c Hc. apply H. lia.
Qed.

Lemma contents_ext v v' e : 0 <= nclus e -> (forall c, in_run e c -> v' c = v c) -> contents v' e = contents v e.
Proof. intros Hn H. unfold contents. f_equal. apply run_ext. intros c Hc. apply H. unfold in_run. lia. Qed.

Lemma data_block_drop src j : data_block src (Datatypes.S j) = data_block (drop 512 src) j.
Proof. unfold data_block. rewrite drop_drop. replace (512 + 512 * j)%nat with (512 * Datatypes.S j)%nat by lia. reflexivity. Qed.

Lemma length_data_block src j : length (data_block src j) = 512%nat.
Proof. unfold data_block. rewrite length_app, length_zeros, length_take. lia. Qed.

Lemma data_block_ok src j : bytes_ok src -> bytes_ok (data_block src j).
Proof. intros B. unfold data_block. apply bytes_ok_app. split; auto with buf. Qed.

(** The blocks a put writes are the file. *)
Lemma run_data n : forall src v b, (forall j, (j < n)%nat -> v (b + Z.of_nat j) = data_block src j) -> (length src <= 512 * n)%nat ->
  take (length src) (run v b n) = src.
Proof.
  induction n as [|n IH]; intros src v b H L; [destruct src; [reflexivity | cbn in L; lia]|]. cbn [run].
  pose proof (H 0%nat ltac:(lia)) as H0. rewrite Z.add_0_r in H0. rewrite H0. unfold data_block. change (512 * 0)%nat with 0%nat. rewrite drop_0.
  destruct (Nat.lt_ge_cases (length src) 512) as [Hs|Hs].
  - rewrite (take_ge src 512) by lia. rewrite <- app_assoc, take_app_length. reflexivity.
  - rewrite length_take, Nat.min_l by lia. cbn [zeros repeat Nat.sub]. change (512 - 512)%nat with 0%nat. cbn [zeros repeat]. rewrite app_nil_r.
    assert (E : take (length (drop 512 src)) (run v (b + 1) n) = drop 512 src).
    { apply IH; [|rewrite length_drop; lia]. intros j Hj. rewrite <- data_block_drop, <- H by lia. f_equal. lia. }
    rewrite length_drop in E. replace (length src) with (length (take 512 src) + (length src - 512))%nat at 1 by (rewrite length_take; lia).
    rewrite take_app_add, E. apply take_drop.
Qed.

(** ** Well-formed directories *)

Record wf (L : list (option ent)) (sects : Z) (mp : list Z) : Prop := mk_wf {
  wf_length : length L = 8%nat;
  wf_tidy : tidy L;
  wf_unique : unique L;
  wf_range : forall i e, L !! i = Some (Some e) -> 3 <= e_blk e /\ 0 < e_len e /\ e_blk e + nclus e <= sects;
  wf_apart : forall i j e e', L !! i = Some (Some e) -> L !! j = Some (Some e') -> i <> j -> forall c, in_run e c -> ~ in_run e' c;
  wf_bits : forall i e c, L !! i = Some (Some e) -> in_run e c -> mbit mp c = true }.

Lemma nclus_pos e : 0 < e_len e -> 1 <= nclus e.
Proof. intros H. unfold nclus. apply Z.div_le_lower_bound; lia. Qed.

(** What is found, for unique names. *)
Lemma find_ent_iff L k i e : unique L -> length L = 8%nat -> find_ent 8 0 L k = Some (i, e) <-> L !! i = Some (Some e) /\ key (e_name e) = k.
Proof.
  intros U Ll. split; [intros H; apply find_ent_some in H as (H1 & H2 & _); split; assumption|].
  intros [H1 <-]. apply find_ent_unique; assumption.
Qed.

Lemma find_ent_absent L k : (forall i e, L !! i = Some (Some e) -> key (e_name e) <> k) -> find_ent 8 0 L k = None.
Proof.
  intros H. destruct (find_ent 8 0 L k) as [[i e]|] eqn:E; [|reflexivity]. apply find_ent_some in E as (E1 & E2 & _). destruct (H i e E1 E2).
Qed.

(** The map after an entry is written: the slot was free or had the same name, up to case. *)
Lemma look_set v L slot e k : unique L -> length L = 8%nat -> (slot < 8)%nat -> unique (<[slot := Some e]> L) ->
  (L !! slot = Some None \/ exists e0, L !! slot = Some (Some e0) /\ key (e_name e0) = key (e_name e)) ->
  look v (<[slot := Some e]> L) k = if bool_decide (k = key (e_name e)) then Some (contents v e) else look v L k.
Proof.
  intros U Ll Hs U' Hold. set (L' := <[slot := Some e]> L) in *. assert (Ll' : length L' = 8%nat) by (subst L'; rewrite length_insert; exact Ll).
  assert (E : L' !! slot = Some (Some e)) by (subst L'; apply list_lookup_insert_eq; lia). unfold look.
  destruct (bool_decide_reflect (k = key (e_name e))) as [->|N].
  - rewrite (find_ent_unique L' slot e U' Ll' E). reflexivity.
  - destruct (find_ent 8 0 L k) as [[i x]|] eqn:F.
    + apply find_ent_iff in F as [F1 F2]; [|assumption..]. assert (Ni : slot <> i).
      { intros <-. destruct Hold as [H|(e0 & H & Hk)]; [congruence|]. rewrite F1 in H. injection H as <-. congruence. }
      assert (F' : find_ent 8 0 L' k = Some (i, x)) by (apply find_ent_iff; [assumption..|]; split; [subst L'; rewrite list_lookup_insert_ne by exact Ni; exact F1 | exact F2]).
      rewrite F'. reflexivity.
    + rewrite find_ent_absent; [reflexivity|]. intros i x Hx. subst L'. destruct (Nat.eq_dec slot i) as [<-|Ni].
      * rewrite E in Hx. injection Hx as <-. congruence.
      * rewrite list_lookup_insert_ne in Hx by exact Ni. apply (find_ent_none _ _ _ _ F i x); [apply lookup_lt_Some in Hx; lia | exact Hx].
Qed.

(** The map after an entry is removed. *)
Lemma look_clear v L slot e k : unique L -> length L = 8%nat -> L !! slot = Some (Some e) ->
  look v (<[slot := None]> L) k = if bool_decide (k = key (e_name e)) then None else look v L k.
Proof.
  intros U Ll He. set (L' := <[slot := None]> L). assert (Ll' : length L' = 8%nat) by (subst L'; rewrite length_insert; exact Ll).
  pose proof (lookup_lt_Some _ _ _ He) as Hs. assert (U' : unique L').
  { intros i j x y Hx Hy N. subst L'. destruct (Nat.eq_dec slot i) as [<-|Ni]; [rewrite list_lookup_insert_eq in Hx by lia; discriminate|].
    destruct (Nat.eq_dec slot j) as [<-|Nj]; [rewrite list_lookup_insert_eq in Hy by lia; discriminate|].
    rewrite list_lookup_insert_ne in Hx, Hy by assumption. exact (U i j x y Hx Hy N). }
  unfold look. destruct (bool_decide_reflect (k = key (e_name e))) as [->|N].
  - rewrite find_ent_absent; [reflexivity|]. intros i x Hx. subst L'. destruct (Nat.eq_dec slot i) as [<-|Ni]; [rewrite list_lookup_insert_eq in Hx by lia; discriminate|].
    rewrite list_lookup_insert_ne in Hx by exact Ni. intros K. exact (U i slot x e Hx He ltac:(congruence) K).
  - destruct (find_ent 8 0 L k) as [[i x]|] eqn:F.
    + apply find_ent_iff in F as [F1 F2]; [|assumption..]. assert (Ni : slot <> i) by (intros <-; congruence).
      assert (F' : find_ent 8 0 L' k = Some (i, x)) by (apply find_ent_iff; [assumption..|]; split; [subst L'; rewrite list_lookup_insert_ne by exact Ni; exact F1 | exact F2]).
      rewrite F'. reflexivity.
    + rewrite find_ent_absent; [reflexivity|]. intros i x Hx. subst L'. destruct (Nat.eq_dec slot i) as [<-|Ni]; [rewrite list_lookup_insert_eq in Hx by lia; discriminate|].
      rewrite list_lookup_insert_ne in Hx by exact Ni. apply (find_ent_none _ _ _ _ F i x); [apply lookup_lt_Some in Hx; lia | exact Hx].
Qed.

(** ** RedSea volumes: the operations *)

(** ** Volumes

    [vol sects d F]: the device holds a volume of [sects] blocks, root in block 2, whose files are
    the map [F] from lower-case names to contents. *)

Definition boot (sects : Z) (br : list Z) : Prop :=
  byte_at br 3 = 0x88 /\ byte_at br 510 = 0x55 /\ byte_at br 511 = 0xaa /\ word br 8 1 = sects /\ word br 8 2 = 2.

Record vol (sects : Z) (d : dev) (F : list Z -> option (list Z)) : Prop := mk_vol {
  v_sects : 4 <= sects <= 128;
  v_cap : ready d = true -> sects <= capacity d;
  v_len : forall i, 0 <= i < sects -> length (blocks d i) = 512%nat /\ bytes_ok (blocks d i);
  v_boot : boot sects (blocks d 0);
  v_wf : wf (ents (blocks d 2)) sects (blocks d 1);
  v_map : forall k, look (blocks d) (ents (blocks d 2)) k = F k }.

(** Same device, other blocks. *)
Definition moves (d : dev) (v : Z -> list Z) (d' : dev) : Prop := blocks d' = v /\ ready d' = ready d /\ capacity d' = capacity d.

Lemma vol_same sects d d' F : vol sects d F -> moves d (blocks d) d' -> vol sects d' F.
Proof. intros [] (E & R & C). constructor; rewrite ?E, ?R, ?C; assumption. Qed.

Lemma vol_ext sects d F F' : vol sects d F -> (forall k, F' k = F k) -> vol sects d F'.
Proof. intros [] H. constructor; try assumption. intros k. rewrite H. auto. Qed.

(** Equal blocks, equal files. *)
Lemma vol_pointwise sects d d' F : vol sects d F -> (forall x, blocks d' x = blocks d x) -> ready d' = ready d -> capacity d' = capacity d -> vol sects d' F.
Proof.
  intros [S C L B W Mp] E R Cp. constructor; rewrite ?E, ?R, ?Cp; try assumption; [intros i Hi; rewrite E; apply L, Hi|].
  intros k. rewrite <- Mp. unfold look. destruct (find_ent 8 0 _ k) as [[i e]|]; [|reflexivity]. cbn. unfold contents. do 2 f_equal. apply run_ext. intros c _. apply E.
Qed.

Section RedSea.
Context (answer : nat -> reply).

Lemma blkread_ok sects d F blk : vol sects d F -> 0 <= blk < sects ->
  exists r d', hc_builtin_blkread answer blk d = Some (r, d') /\ moves d (blocks d) d' /\ (r = None \/ r = Some (blocks d blk)).
Proof.
  intros V Hb. pose proof (v_sects _ _ _ V). pose proof (v_cap _ _ _ V) as Hc. unfold hc_builtin_blkread. rewrite u64_id by lia.
  destruct (ready d) eqn:Er.
  - specialize (Hc eq_refl). destruct (Z.ltb_spec (capacity d) (blk + 1)); [lia|].
    destruct (answer (clock d)); (do 2 eexists; split; [reflexivity|]; split; [split; [reflexivity | split; reflexivity] | auto]).
  - unfold HC_RAM_N_BLKS. destruct (Z.ltb_spec 128 (blk + 1)); [lia|]. destruct (Z.leb_spec 128 blk); [lia|].
    do 2 eexists. split; [reflexivity|]. split; [split; [reflexivity | split; reflexivity] | auto].
Qed.

(** A refused write has no effect. *)
Context (honest : forall n, answer n <> Lost).

(** The volume is on the device. *)
Definition fits (sects : Z) (d : dev) : Prop := sects <= 128 /\ (ready d = true -> sects <= capacity d).

Lemma vol_fits sects d F : vol sects d F -> fits sects d.
Proof. intros V. split; [apply (v_sects _ _ _ V) | exact (v_cap _ _ _ V)]. Qed.

Lemma blkwrite_fits sects d blk s : fits sects d -> 0 <= blk < sects ->
  exists ok d', hc_builtin_blkwrite answer s blk d = Some (ok, d') /\ moves d (if ok : bool then bput blk s (blocks d) else blocks d) d'.
Proof.
  intros [H Hc] Hb. unfold hc_builtin_blkwrite. rewrite u64_id by lia. destruct (ready d) eqn:Er.
  - specialize (Hc eq_refl). destruct (Z.ltb_spec (capacity d) (blk + 1)); [lia|]. pose proof (honest (clock d)).
    destruct (answer (clock d)); [| | contradiction]; (do 2 eexists; split; [reflexivity|]; split; [reflexivity | split; reflexivity]).
  - unfold HC_RAM_N_BLKS. destruct (Z.ltb_spec 128 (blk + 1)); [lia|]. destruct (Z.leb_spec 128 blk); [lia|].
    do 2 eexists. split; [reflexivity|]. split; [reflexivity | split; reflexivity].
Qed.

Lemma blkwrite_ok sects d F blk s : vol sects d F -> 0 <= blk < sects ->
  exists ok d', hc_builtin_blkwrite answer s blk d = Some (ok, d') /\ moves d (if ok : bool then bput blk s (blocks d) else blocks d) d'.
Proof. intros V. apply blkwrite_fits, (vol_fits _ _ _ V). Qed.

(** ** Single writes *)

Lemma len_bput (sects b : Z) s (v : Z -> list Z) : length s = 512%nat -> bytes_ok s -> (forall i, 0 <= i < sects -> length (v i) = 512%nat /\ bytes_ok (v i)) ->
  forall i, 0 <= i < sects -> length (bput b s v i) = 512%nat /\ bytes_ok (bput b s v i).
Proof. intros Ls Bs H i Hi. unfold bput. destruct (i =? b); [split; assumption | apply H, Hi]. Qed.

Lemma run_high L sects mp i e c : wf L sects mp -> L !! i = Some (Some e) -> in_run e c -> 3 <= c < sects.
Proof. intros W He Hc. destruct (wf_range _ _ _ W i e He) as (H1 & _ & H3). unfold in_run in Hc. lia. Qed.

(** A block in no file's run. *)
Lemma vol_free_write sects d F b s d' : vol sects d F -> 3 <= b < sects -> length s = 512%nat -> bytes_ok s ->
  (forall i e, ents (blocks d 2) !! i = Some (Some e) -> ~ in_run e b) -> moves d (bput b s (blocks d)) d' -> vol sects d' F.
Proof.
  intros [S C L B W Mp] Hb Ls Bs Hf (E & R & Cp). constructor; rewrite ?E, ?R, ?Cp; try assumption.
  - apply len_bput; assumption.
  - rewrite bput_ne by lia. exact B.
  - rewrite !bput_ne by lia. exact W.
  - intros k. rewrite bput_ne by lia. rewrite <- Mp. unfold look. destruct (find_ent 8 0 (ents (blocks d 2)) k) as [[i e]|] eqn:Ef; [|reflexivity]. cbn.
    f_equal. apply find_ent_some in Ef as (Ef & _ & _). destruct (wf_range _ _ _ W i e Ef) as (_ & Hl & _). apply contents_ext; [pose proof (nclus_pos e Hl); lia|].
    intros c Hc. apply bput_ne. intros ->. exact (Hf i e Ef Hc).
Qed.

(** A block of the file in slot [i]: only that file changes. *)
Lemma vol_own_write sects d F b s d' i e : vol sects d F -> ents (blocks d 2) !! i = Some (Some e) -> in_run e b -> length s = 512%nat -> bytes_ok s ->
  moves d (bput b s (blocks d)) d' ->
  vol sects d' (fun k => if bool_decide (k = key (e_name e)) then Some (contents (blocks d') e) else F k).
Proof.
  intros [S C L B W Mp] He Hb Ls Bs (E & R & Cp). pose proof (run_high _ _ _ _ _ _ W He Hb) as Hr. constructor; rewrite ?E, ?R, ?Cp; try assumption.
  - apply len_bput; assumption.
  - rewrite bput_ne by lia. exact B.
  - rewrite !bput_ne by lia. exact W.
  - intros k. rewrite bput_ne by lia. unfold look. destruct (bool_decide_reflect (k = key (e_name e))) as [->|N].
    + rewrite (find_ent_unique _ i e (wf_unique _ _ _ W) (wf_length _ _ _ W) He). reflexivity.
    + rewrite <- Mp. unfold look. destruct (find_ent 8 0 (ents (blocks d 2)) k) as [[j x]|] eqn:Ef; [|reflexivity]. cbn. f_equal.
      apply find_ent_some in Ef as (Ef & Ek & _). destruct (wf_range _ _ _ W j x Ef) as (_ & Hl & _). apply contents_ext; [pose proof (nclus_pos x Hl); lia|].
      intros c Hc. apply bput_ne. intros ->. assert (Nj : i <> j) by (intros <-; congruence). exact (wf_apart _ _ _ W i j e x He Ef Nj b Hb Hc).
Qed.

(** The bitmap, as long as the blocks of all files stay marked. *)
Lemma vol_map_write sects d F mp d' : vol sects d F -> length mp = 512%nat -> bytes_ok mp ->
  (forall i e c, ents (blocks d 2) !! i = Some (Some e) -> in_run e c -> mbit mp c = true) -> moves d (bput 1 mp (blocks d)) d' -> vol sects d' F.
Proof.
  intros [S C L B W Mp] Lm Bm Hb (E & R & Cp). constructor; rewrite ?E, ?R, ?Cp; try assumption.
  - apply len_bput; assumption.
  - rewrite bput_eq, (bput_ne 1 mp (blocks d) 2) by lia. destruct W. constructor; assumption.
  - intros k. rewrite (bput_ne 1 mp (blocks d) 2) by lia. rewrite <- Mp. unfold look.
    destruct (find_ent 8 0 (ents (blocks d 2)) k) as [[i e]|] eqn:Ef; [|reflexivity]. cbn. f_equal.
    apply find_ent_some in Ef as (Ef & _ & _). destruct (wf_range _ _ _ W i e Ef) as (_ & Hl & _). apply contents_ext; [pose proof (nclus_pos e Hl); lia|].
    intros c Hc. pose proof (run_high _ _ _ _ _ _ W Ef Hc). apply bput_ne. lia.
Qed.

(** The directory. *)
Lemma vol_dir_write sects d F dir d' : vol sects d F -> length dir = 512%nat -> bytes_ok dir -> wf (ents dir) sects (blocks d 1) ->
  moves d (bput 2 dir (blocks d)) d' -> vol sects d' (look (blocks d) (ents dir)).
Proof.
  intros [S C L B W Mp] Ld Bd W' (E & R & Cp). constructor; rewrite ?E, ?R, ?Cp; try assumption.
  - apply len_bput; assumption.
  - intros k. rewrite bput_eq. unfold look. destruct (find_ent 8 0 (ents dir) k) as [[i e]|] eqn:Ef; [|reflexivity]. cbn. f_equal.
    apply find_ent_some in Ef as (Ef & _ & _). destruct (wf_range _ _ _ W' i e Ef) as (_ & Hl & _). apply contents_ext; [pose proof (nclus_pos e Hl); lia|].
    intros c Hc. pose proof (run_high _ _ _ _ _ _ W' Ef Hc). apply bput_ne. lia.
Qed.

(** ** The root *)

Lemma read_root_ok sects d F : vol sects d F -> exists r d', rs_read_root answer d = Some (r, d') /\ moves d (blocks d) d' /\
  (r_code r <> 0 \/ r = mk_root 0 (blocks d 2) 2 sects).
Proof.
  intros V. pose proof (v_sects _ _ _ V) as S. destruct (v_boot _ _ _ V) as (B1 & B2 & B3 & B4 & B5). unfold rs_read_root, bind.
  destruct (blkread_ok sects d F 0 V ltac:(lia)) as (r & d1 & -> & M1 & [->| ->]); [exists (no_root (-1)), d1; split; [reflexivity | split; [exact M1 | left; discriminate]]|].
  rewrite B1, B2, B3, B4, B5. cbn [Z.eqb negb orb Pos.eqb]. pose proof (vol_same _ _ _ _ V M1) as V1.
  destruct (blkread_ok sects d1 F 2 V1 ltac:(lia)) as (r & d2 & -> & M2 & Hr). destruct M1 as (E1 & R1 & C1), M2 as (E2 & R2 & C2).
  assert (M2 : moves d (blocks d) d2) by (split; [congruence | split; congruence]).
  destruct Hr as [->| ->]; [exists (no_root (-4)), d2; split; [reflexivity | split; [exact M2 | left; discriminate]]|].
  eexists _, d2. split; [reflexivity|]. split; [exact M2|]. right. rewrite E1. f_equal. unfold signed. change (wrap 64 sects) with (u64 sects). rewrite u64_id by lia.
  change (64 - 1) with 63. destruct (Z.ltb_spec sects (2 ^ 63)); [|lia]. destruct (Z.ltb_spec 0 sects); [|lia]. destruct (Z.leb_spec sects 128); [reflexivity | lia].
Qed.

Lemma find_slot_ok sects d F name : vol sects d F ->
  rs_find_slot (blocks d 2) name = Some (option_map (fun '(j, e) => (j, e_blk e, e_len e)) (find_ent 8 0 (ents (blocks d 2)) (key name))).
Proof.
  intros V. pose proof (v_sects _ _ _ V). destruct (v_len _ _ _ V 2 ltac:(lia)) as [L _].
  exact (find_from_spec _ name L (wf_tidy _ _ _ (v_wf _ _ _ V)) 8 0 ltac:(lia)).
Qed.
End RedSea.
