(* ===== verification/RedSeaThms.v ===== *)
(** * RedSea volumes: writing and loading files *)

From S2P Require Import Prelude RedSea RedSeaVol.
#[local] Open Scope Z_scope.

(** ** The entry that is written *)

Lemma length_words b l : length (le_bytes 8 b ++ le_bytes 8 l ++ le_bytes 8 0) = 24%nat.
Proof. rewrite !length_app, !length_le_bytes. reflexivity. Qed.

Lemma set_words_eq e b l : length e = 64%nat -> set_words e b l = take 40 e ++ le_bytes 8 b ++ le_bytes 8 l ++ le_bytes 8 0.
Proof.
  intros L. unfold set_words. set (ws := le_bytes 8 b ++ _). assert (Lw : length ws = 24%nat) by apply length_words.
  pose proof (write_at_app ws (take 40 e) (drop 40 e) []) as H. rewrite !app_nil_r, take_drop, length_take, Nat.min_l in H by lia.
  apply H. rewrite length_drop. lia.
Qed.

Lemma length_set_words e b l : length (set_words e b l) = length e.
Proof. apply length_write_at. Qed.

Lemma read_set_words e b l name : length e = 64%nat -> byte_at e 2 <> 0 -> cstr (take 38 (drop 2 e)) = name -> 0 <= b < 2 ^ 64 -> 0 <= l < 2 ^ 64 ->
  read_ent (set_words e b l) = Some (mk_ent name b l).
Proof.
  intros L H2 Hn Hb Hl. rewrite set_words_eq by exact L. assert (L40 : length (take 40 e) = 40%nat) by (rewrite length_take; lia).
  unfold read_ent. replace (byte_at _ 2) with (byte_at e 2).
  - apply Z.eqb_neq in H2. rewrite H2. f_equal. f_equal.
    + rewrite <- Hn. f_equal. rewrite skipn_app, L40. cbn [Nat.sub]. rewrite drop_0, firstn_app, length_drop, L40. cbn [Nat.sub]. rewrite firstn_O, app_nil_r.
      rewrite skipn_firstn_comm, firstn_firstn. reflexivity.
    + unfold word. cbn [Nat.mul Nat.add]. rewrite skipn_app, L40, drop_ge by lia. rewrite Nat.sub_diag, drop_0. cbn [app].
      replace 8%nat with (length (le_bytes 8 b)) at 1 by apply length_le_bytes. rewrite take_app_length. apply le_value_bytes. exact Hb.
    + unfold word. change (40 + 8 * 1)%nat with 48%nat. rewrite skipn_app, L40, drop_ge by lia. change (48 - 40)%nat with 8%nat. cbn [app].
      replace 8%nat with (length (le_bytes 8 b)) at 2 by apply length_le_bytes. rewrite drop_app_length.
      replace 8%nat with (length (le_bytes 8 l)) at 1 by apply length_le_bytes. rewrite take_app_length. apply le_value_bytes. exact Hl.
  - rewrite !byte_at_lookup by lia. rewrite lookup_app_l by lia. rewrite lookup_take_lt by (cbn; lia). reflexivity.
Qed.

Lemma new_entry_eq name : (length name <= 37)%nat -> new_entry name = [0x20; 0x04] ++ (name ++ [0]) ++ zeros (61 - length name).
Proof.
  intros L. unfold new_entry, str. set (z := write_at (zeros 64) 0 [32; 4]). assert (E : z = [0x20; 0x04] ++ zeros (length name + 1) ++ zeros (61 - length name)).
  { subst z. unfold zeros. rewrite <- repeat_app. replace (length name + 1 + (61 - length name))%nat with 62%nat by lia. reflexivity. }
  rewrite E. apply (write_at_app (name ++ [0]) [0x20; 0x04]). rewrite length_zeros, length_app. cbn. lia.
Qed.

Lemma length_new_entry name : length (new_entry name) = 64%nat.
Proof. unfold new_entry. rewrite !length_write_at, length_zeros. reflexivity. Qed.

Lemma new_entry_ok name : bytes_ok name -> bytes_ok (new_entry name).
Proof. intros B. unfold new_entry, str. apply bytes_ok_write_at; [apply bytes_ok_write_at; [apply bytes_ok_zeros | repeat constructor; lia] | apply bytes_ok_app; split; [exact B | repeat constructor; lia]]. Qed.

Lemma cstr_string s rest : Forall (fun c => c <> 0) s -> cstr (s ++ 0 :: rest) = s.
Proof. induction 1 as [|c s Hc _ IH]; [reflexivity|]. cbn. destruct (Z.eqb_spec c 0); [contradiction | rewrite IH; reflexivity]. Qed.

Lemma new_entry_name name : (length name <= 37)%nat -> Forall (fun c => c <> 0) name -> name <> [] ->
  byte_at (new_entry name) 2 <> 0 /\ cstr (take 38 (drop 2 (new_entry name))) = name.
Proof.
  intros L N E. rewrite new_entry_eq by exact L. split.
  - destruct name as [|c name]; [contradiction|]. exact (Forall_inv N).
  - change (drop 2 ([32; 4] ++ (name ++ [0]) ++ zeros (61 - length name))) with ((name ++ [0]) ++ zeros (61 - length name)).
    rewrite <- app_assoc. rewrite firstn_app, (take_ge name) by lia. destruct (38 - length name)%nat as [|m] eqn:Em; [lia|]. cbn [app take].
    apply cstr_string, N.
Qed.

Lemma set_words_ok e b l : bytes_ok e -> bytes_ok (set_words e b l).
Proof. intros B. unfold set_words. apply bytes_ok_write_at; [exact B|]. rewrite !bytes_ok_app. auto using le_bytes_ok. Qed.

(** ** The directory that is written *)

Lemma wf_set L sects mp0 mp slot e : wf L sects mp0 -> (slot < 8)%nat -> (length (e_name e) <= 37)%nat ->
  3 <= e_blk e /\ 0 < e_len e /\ e_blk e + nclus e <= sects ->
  (forall i x, L !! i = Some (Some x) -> i <> slot -> key (e_name x) <> key (e_name e) /\ (forall c, in_run x c -> ~ in_run e c) /\ forall c, in_run x c -> mbit mp c = true) ->
  (forall c, in_run e c -> mbit mp c = true) -> wf (<[slot := Some e]> L) sects mp.
Proof.
  intros [Ll T U R A B] Hs Hn Hr Ho Hb. assert (E : forall i x, <[slot := Some e]> L !! i = Some (Some x) -> i = slot /\ x = e \/ i <> slot /\ L !! i = Some (Some x)).
  { intros i x H. destruct (Nat.eq_dec slot i) as [<-|N]; [rewrite list_lookup_insert_eq in H by lia; left; split; congruence|].
    rewrite list_lookup_insert_ne in H by exact N. right. split; [congruence | exact H]. }
  constructor.
  - rewrite length_insert. exact Ll.
  - intros i x H. destruct (E i x H) as [[_ ->]|[_ H']]; [exact Hn | exact (T i x H')].
  - intros i j x y Hx Hy N. destruct (E i x Hx) as [[-> ->]|[Ni Hx']], (E j y Hy) as [[-> ->]|[Nj Hy']]; [contradiction | | |].
    + intros K. exact (proj1 (Ho j y Hy' Nj) (eq_sym K)).
    + exact (proj1 (Ho i x Hx' Ni)).
    + exact (U i j x y Hx' Hy' N).
  - intros i x H. destruct (E i x H) as [[_ ->]|[_ H']]; [exact Hr | exact (R i x H')].
  - intros i j x y Hx Hy N c Hc Hc'. destruct (E i x Hx) as [[-> ->]|[Ni Hx']], (E j y Hy) as [[-> ->]|[Nj Hy']]; [contradiction | | |].
    + exact (proj1 (proj2 (Ho j y Hy' Nj)) c Hc' Hc).
    + exact (proj1 (proj2 (Ho i x Hx' Ni)) c Hc Hc').
    + exact (A i j x y Hx' Hy' N c Hc Hc').
  - intros i x c H Hc. destruct (E i x H) as [[_ ->]|[Ni H']]; [exact (Hb c Hc) | exact (proj2 (proj2 (Ho i x H' Ni)) c Hc)].
Qed.

Section RedSea.
Context (answer : nat -> reply) (honest : forall n, answer n <> Lost).

(** ** The data *)

Lemma moves_trans d d1 d2 v w : moves d v d1 -> moves d1 w d2 -> moves d w d2.
Proof. intros (_ & R1 & C1) (E2 & R2 & C2). split; [exact E2 | split; congruence]. Qed.

Lemma write_data_ok sects (Inv : dev -> Prop) src fblk N :
  (forall d, Inv d -> exists F, vol sects d F) ->
  (forall d d', Inv d -> moves d (blocks d) d' -> Inv d') ->
  (forall d b s d', Inv d -> fblk <= b < fblk + N -> length s = 512%nat -> bytes_ok s -> moves d (bput b s (blocks d)) d' -> Inv d') ->
  bytes_ok src -> 0 <= fblk -> fblk + N <= sects ->
  forall n j d, Inv d -> Z.of_nat j + Z.of_nat n <= N -> (forall i, (i < j)%nat -> blocks d (fblk + Z.of_nat i) = data_block src i) ->
  exists ok d', write_data answer n j src fblk d = Some (ok, d') /\ Inv d' /\ moves d (blocks d') d' /\
    (forall x, ~ fblk <= x < fblk + N -> blocks d' x = blocks d x) /\
    (ok = true -> forall i, (i < j + n)%nat -> blocks d' (fblk + Z.of_nat i) = data_block src i).
Proof.
  intros HV HS HW Bs H0 HN. induction n as [|n IH]; intros j d I Hj Hw.
  - exists true, d. split; [reflexivity|]. split; [exact I|]. split; [split; [reflexivity | split; reflexivity]|]. split; [reflexivity|]. intros _ i Hi. apply Hw. lia.
  - destruct (HV d I) as (F & V). cbn [write_data]. unfold bind.
    destruct (blkwrite_ok answer honest sects d F (fblk + Z.of_nat j) (data_block src j) V ltac:(lia)) as (ok & d1 & -> & M1). destruct ok.
    + assert (I1 : Inv d1) by (apply (HW d (fblk + Z.of_nat j) (data_block src j)); [exact I | lia | apply length_data_block | apply data_block_ok, Bs | exact M1]).
      destruct (IH (j + 1)%nat d1 I1) as (ok & d2 & E & I2 & M2 & O2 & W2); [lia | |].
      * intros i Hi. destruct M1 as (-> & _). destruct (Nat.eq_dec i j) as [->|Ni]; [apply bput_eq | rewrite bput_ne by lia; apply Hw; lia].
      * exists ok, d2. split; [exact E|]. split; [exact I2|]. split; [exact (moves_trans _ _ _ _ _ M1 M2)|]. split.
        -- intros x Hx. rewrite O2 by exact Hx. destruct M1 as (-> & _). apply bput_ne. lia.
        -- intros Hok i Hi. apply W2; [exact Hok | lia].
    + exists false, d1. split; [reflexivity|]. split; [exact (HS d d1 I M1)|]. pose proof M1 as (E1 & R1 & C1).
      split; [split; [reflexivity | split; [exact R1 | exact C1]]|]. split; [intros x _; rewrite E1; reflexivity | discriminate].
Qed.

(** ** The directory and the bitmap *)

(** The entry a put leaves in slot [slot] of [L]. *)
Definition placed (L : list (option ent)) (sects : Z) (mp : list Z) (slot : nat) (e : ent) : Prop :=
  (slot < 8)%nat /\ (length (e_name e) <= 37)%nat /\ (3 <= e_blk e /\ 0 < e_len e /\ e_blk e + nclus e <= sects) /\
  (forall i x, L !! i = Some (Some x) -> i <> slot -> key (e_name x) <> key (e_name e) /\ forall c, in_run x c -> ~ in_run e c) /\
  (forall c, in_run e c -> mbit mp c = true) /\
  (L !! slot = Some None \/ exists e0, L !! slot = Some (Some e0) /\ key (e_name e0) = key (e_name e)).

Definition with_file (F : list Z -> option (list Z)) (k0 src : list Z) : list Z -> option (list Z) :=
  fun k => if bool_decide (k = k0) then Some src else F k.

Lemma vol_set_entry sects d F slot p e d' : vol sects d F -> placed (ents (blocks d 2)) sects (blocks d 1) slot e ->
  length p = 64%nat -> bytes_ok p -> read_ent p = Some e -> moves d (bput 2 (set_entry (blocks d 2) slot p) (blocks d)) d' ->
  vol sects d' (with_file F (key (e_name e)) (contents (blocks d) e)) /\ ents (blocks d' 2) = <[slot := Some e]> (ents (blocks d 2)).
Proof.
  intros V (Hs & Hn & Hr & Ho & Hb & Hold) Lp Bp Ep M. pose proof (v_sects _ _ _ V). destruct (v_len _ _ _ V 2 ltac:(lia)) as [Ld Bd].
  pose proof (v_wf _ _ _ V) as W. assert (E : ents (set_entry (blocks d 2) slot p) = <[slot := Some e]> (ents (blocks d 2))) by (rewrite set_entry_ents, Ep by assumption; reflexivity).
  assert (W' : wf (<[slot := Some e]> (ents (blocks d 2))) sects (blocks d 1)).
  { apply (wf_set _ _ (blocks d 1)); try assumption. intros i x Hx Ni. destruct (Ho i x Hx Ni) as [H1 H2]. split; [exact H1 | split; [exact H2|]]. intros c. apply (wf_bits _ _ _ W i x c Hx). }
  split; [|destruct M as (-> & _); rewrite bput_eq; exact E]. eapply vol_ext.
  - apply (vol_dir_write sects d F (set_entry (blocks d 2) slot p) d' V); [unfold set_entry; rewrite length_write_at; exact Ld | unfold set_entry; auto with buf | rewrite E; exact W' | exact M].
  - intros k. rewrite E. rewrite look_set; [|apply (wf_unique _ _ _ W) | apply (wf_length _ _ _ W) | exact Hs | apply (wf_unique _ _ _ W') | exact Hold].
    unfold with_file. destruct (bool_decide _); [reflexivity|]. symmetry. apply (v_map _ _ _ V).
Qed.

(** Freeing blocks that no entry has any more. *)
Lemma clear_run_ok n mp b : bytes_ok mp -> length mp = 512%nat -> 0 <= b -> 0 <= n -> b + n <= 128 ->
  exists mp', clear_run n mp b = Some mp' /\ bytes_ok mp' /\ length mp' = 512%nat /\ forall c, 0 <= c -> mbit mp' c = if (b <=? c) && (c <? b + n) then false else mbit mp c.
Proof.
  intros B L Hb Hn Hs. unfold clear_run. rewrite Z.min_l by lia. destruct (change_bits_spec Z.ldiff false ldiff_bit (Z.to_nat n) mp b B Hb) as (m & -> & B' & L' & K); [lia | lia |].
  exists m. split; [reflexivity|]. split; [exact B'|]. split; [congruence|]. intros c Hc. rewrite K, Z2Nat.id by lia. reflexivity.
Qed.

Lemma set_run_ok n mp b : bytes_ok mp -> length mp = 512%nat -> 0 <= b -> 0 <= n -> b + n <= 128 ->
  exists mp', set_run n mp b = Some mp' /\ bytes_ok mp' /\ length mp' = 512%nat /\ forall c, 0 <= c -> mbit mp' c = if (b <=? c) && (c <? b + n) then true else mbit mp c.
Proof.
  intros B L Hb Hn Hs. unfold set_run. destruct (change_bits_spec Z.lor true lor_bit (Z.to_nat n) mp b B Hb) as (m & -> & B' & L' & K); [lia | lia |].
  exists m. split; [reflexivity|]. split; [exact B'|]. split; [congruence|]. intros c Hc. rewrite K, Z2Nat.id by lia. reflexivity.
Qed.

Lemma put_commit_ok sects d F t name src fblk (new_run : bool) old_map e :
  let nc := (Z.of_nat (length src) + 511) / 512 in
  let r := mk_root 0 (blocks d 2) 2 sects in
  vol sects d F -> placed (ents (blocks d 2)) sects (blocks d 1) (t_slot t) e -> e_blk e = fblk -> e_len e = Z.of_nat (length src) ->
  (let p := if t_existing t then take 64 (drop (64 * t_slot t) (blocks d 2)) else new_entry name in read_ent (set_words p fblk (Z.of_nat (length src))) = Some e /\ length p = 64%nat /\ bytes_ok p) ->
  contents (blocks d) e = src ->
  (length old_map = 512%nat /\ bytes_ok old_map /\ forall i x c, ents (blocks d 2) !! i = Some (Some x) -> in_run x c -> mbit old_map c = true) ->
  (t_existing t = true -> exists e0, ents (blocks d 2) !! t_slot t = Some (Some e0) /\ t_blk t = e_blk e0 /\ t_clus t = nclus e0 /\
     (if new_run then forall c, in_run e0 c -> ~ in_run e c else fblk = e_blk e0 /\ nc <= nclus e0)) ->
  exists c d' F', put_commit answer r t name (Z.of_nat (length src)) nc fblk new_run old_map (blocks d 1) d = Some (c, d') /\ vol sects d' F' /\
    ((forall k, F' k = F k) /\ c <> 0 \/ forall k, F' k = with_file F (key (e_name e)) src k).
Proof.
  intros nc r V Hp Eb El Hw Ec (Lo & Bo & Ho) Ht. pose proof (v_sects _ _ _ V) as S. pose proof (v_wf _ _ _ V) as W. unfold put_commit.
  set (p := if t_existing t then _ else _) in *. destruct Hw as (Er & Lp & Bp). cbn [r_dir r_root r]. unfold bind at 1.
  set (dir := set_entry _ _ _). destruct (blkwrite_ok answer honest sects d F 2 dir V ltac:(lia)) as (ok & d1 & -> & M1). destruct ok; cbn [negb].
  2:{ pose proof (vol_same _ _ _ _ V M1) as V1. destruct new_run; [|exists (-10), d1, F; split; [reflexivity | split; [exact V1 | left; split; [reflexivity | discriminate]]]].
      unfold bind. destruct (blkwrite_ok answer honest sects d1 F 1 old_map V1 ltac:(lia)) as (ok & d2 & -> & M2). exists (-10), d2, F. split; [reflexivity|].
      split; [|left; split; [reflexivity | discriminate]]. destruct ok; [|exact (vol_same _ _ _ _ V1 M2)]. destruct M1 as (E1 & _).
      apply (vol_map_write sects d1 F old_map d2 V1 Lo Bo); [rewrite E1; exact Ho | exact M2]. }
  destruct (vol_set_entry sects d F (t_slot t) _ e d1 V Hp (eq_trans (length_set_words _ _ _) Lp) (set_words_ok _ _ _ Bp) Er M1) as [V1 En1]. rewrite Ec in V1.
  destruct (t_existing t && (new_run || (nc <? t_clus t))) eqn:Ex; [|exists 0, d1, (with_file F (key (e_name e)) src); split; [reflexivity | split; [exact V1 | right; reflexivity]]].
  apply andb_prop in Ex as [Ex Ey]. destruct (Ht Ex) as (e0 & He0 & Tb & Tc & Hrun). destruct (wf_range _ _ _ W _ e0 He0) as (R1 & R2 & R3).
  pose proof (nclus_pos e0 R2) as R4. destruct Hp as (Hs & Hn & Hr & Hothers & Hbits & _). destruct (v_len _ _ _ V 1 ltac:(lia)) as [L1 B1].
  assert (Hnc : nclus e = nc) by (unfold nclus; rewrite El; reflexivity). assert (Hnc0 : 0 <= nc) by (rewrite <- Hnc; pose proof (nclus_pos e ltac:(lia)); lia).
  set (first := if new_run then t_blk t else t_blk t + nc). set (count := if new_run then t_clus t else t_clus t - nc).
  assert (Hfc : e_blk e0 <= first /\ 0 <= count /\ first + count = e_blk e0 + nclus e0).
  { subst first count. rewrite Tb, Tc. destruct new_run; [lia|]. destruct Hrun as [_ Hle]. lia. }
  destruct (clear_run_ok count (blocks d 1) first B1 L1) as (mp & -> & Bm & Lm & Km); [lia | lia | lia |]. cbn [of_option]. unfold ret, bind.
  destruct (blkwrite_ok answer honest sects d1 _ 1 mp V1 ltac:(lia)) as (ok & d2 & -> & M2). eexists _, d2, _. split; [reflexivity|].
  split; [|right; reflexivity]. destruct ok; [|exact (vol_same _ _ _ _ V1 M2)].
  apply (vol_map_write sects d1 _ mp d2 V1 Lm Bm); [|exact M2]. intros i x c Hx Hc. rewrite En1 in Hx.
  destruct (Nat.eq_dec (t_slot t) i) as [<-|Ni].
  - rewrite list_lookup_insert_eq in Hx by (rewrite (wf_length _ _ _ W); exact Hs). injection Hx as <-. rewrite Km by (unfold in_run in Hc; lia).
    destruct (Z.leb_spec first c); [|exact (Hbits c Hc)]. destruct (Z.ltb_spec c (first + count)); [|exact (Hbits c Hc)]. exfalso.
    destruct new_run; [exact (Hrun c ltac:(unfold in_run; lia) Hc)|]. destruct Hrun as [Hf _]. unfold in_run in Hc. rewrite Hnc in Hc. subst first. lia.
  - rewrite list_lookup_insert_ne in Hx by exact Ni. pose proof (run_high _ _ _ _ _ _ W Hx Hc). rewrite Km by lia.
    destruct (Z.leb_spec first c); [|exact (wf_bits _ _ _ W i x c Hx Hc)]. destruct (Z.ltb_spec c (first + count)); [|exact (wf_bits _ _ _ W i x c Hx Hc)]. exfalso.
    exact (wf_apart _ _ _ W i (t_slot t) x e0 Hx He0 ltac:(congruence) c Hc ltac:(unfold in_run; lia)).
Qed.
End RedSea.

(** ** Runs *)

Lemma clusters_nclus L sects mp i e : wf L sects mp -> sects <= 128 -> L !! i = Some (Some e) ->
  clusters (e_len e) = nclus e /\ 1 <= nclus e <= 125 /\ 0 < e_len e <= 512 * nclus e.
Proof.
  intros W S H. destruct (wf_range _ _ _ W i e H) as (H1 & H2 & H3). pose proof (nclus_pos e H2).
  assert (e_len e <= 512 * nclus e) by (unfold nclus in *; pose proof (Z.div_mod (e_len e + 511) 512); pose proof (Z.mod_pos_bound (e_len e + 511) 512); lia).
  unfold clusters, nclus in *. rewrite u64_id by lia. lia.
Qed.

Lemma run_length sects v : (forall i, 0 <= i < sects -> length (v i) = 512%nat) -> forall n b, 0 <= b -> b + Z.of_nat n <= sects -> length (run v b n) = (512 * n)%nat.
Proof.
  intros H. induction n as [|n IH]; intros b Hb Hn; [reflexivity|]. cbn [run]. rewrite length_app, (H b), IH by lia. lia.
Qed.

Section RedSea.
Context (answer : nat -> reply) (honest : forall n, answer n <> Lost).

(** What a failed put may leave under the name itself. *)
Definition undone (F : list Z -> option (list Z)) (k0 src : list Z) (F' : list Z -> option (list Z)) : Prop :=
  F' k0 = F k0 \/ F' k0 = Some src \/ exists old, F k0 = Some old /\ (Z.of_nat (length src) + 511) / 512 <= (Z.of_nat (length old) + 511) / 512.

Definition put_result (sects : Z) (F : list Z -> option (list Z)) (k0 src : list Z) (r : option (Z * dev)) : Prop :=
  exists c d' F', r = Some (c, d') /\ vol sects d' F' /\ (forall k, k <> k0 -> F' k = F k) /\ (c = 0 -> F' k0 = Some src) /\ undone F k0 src F'.

Lemma put_nothing sects F k0 src c d' : vol sects d' F -> c <> 0 -> put_result sects F k0 src (Some (c, d')).
Proof. intros V Hc. exists c, d', F. split; [reflexivity|]. split; [exact V|]. split; [reflexivity|]. split; [intros; contradiction | left; reflexivity]. Qed.

Lemma commit_result sects F F1 k0 src c d' F' : vol sects d' F' -> (forall k, k <> k0 -> F1 k = F k) ->
  (forall k, F' k = F1 k) /\ c <> 0 \/ (forall k, F' k = with_file F1 k0 src k) -> undone F k0 src F1 -> put_result sects F k0 src (Some (c, d')).
Proof.
  intros V H1 H U. exists c, d', F'. split; [reflexivity|]. split; [exact V|]. unfold with_file in H. split; [|split].
  - intros k Hk. destruct H as [[H _]|H]; rewrite H; [exact (H1 k Hk)|]. rewrite bool_decide_false by exact Hk. exact (H1 k Hk).
  - intros ->. destruct H as [[_ H]|H]; [contradiction|]. rewrite H, bool_decide_true by reflexivity. reflexivity.
  - destruct H as [[H _]|H]; unfold undone; rewrite H; [exact U|]. rewrite bool_decide_true by reflexivity. right. left. reflexivity.
Qed.

(** The target of a put, and the entry it will have. *)
Definition target_ok (sects : Z) (d : dev) (name : list Z) (t : target) (nm : list Z) : Prop :=
  (t_slot t < 8)%nat /\ key nm = key name /\ (length nm <= 37)%nat /\
  (if t_existing t
   then exists e0, ents (blocks d 2) !! t_slot t = Some (Some e0) /\ e_name e0 = nm /\ t_blk t = e_blk e0 /\ t_clus t = nclus e0
   else nm = name /\ t_clus t = 0 /\ ents (blocks d 2) !! t_slot t = Some None /\ forall i x, ents (blocks d 2) !! i = Some (Some x) -> key (e_name x) <> key name) /\
  forall d', blocks d' 2 = blocks d 2 -> forall b l, 0 <= b < 2 ^ 64 -> 0 <= l < 2 ^ 64 ->
    let p := if t_existing t then take 64 (drop (64 * t_slot t) (blocks d' 2)) else new_entry name in
    read_ent (set_words p b l) = Some (mk_ent nm b l) /\ length p = 64%nat /\ bytes_ok p.

Lemma put_target_ok sects d F name : vol sects d F -> (length name <= 37)%nat -> name <> [] -> Forall (fun c => c <> 0) name -> bytes_ok name ->
  exists r, put_target (mk_root 0 (blocks d 2) 2 sects) name d = Some (r, d) /\
    match r with inl c => c <> 0 | inr t => exists nm, target_ok sects d name t nm end.
Proof.
  intros V Ln Nn Zn Bn. pose proof (v_wf _ _ _ V) as W. pose proof (v_sects _ _ _ V) as S. destruct (v_len _ _ _ V 2 ltac:(lia)) as [Ld Bd].
  unfold put_target. cbn [r_dir r_sects]. rewrite (find_slot_ok _ _ _ name V). cbn [of_option]. unfold bind, ret at 1.
  destruct (find_ent 8 0 (ents (blocks d 2)) (key name)) as [[i e]|] eqn:Fe; cbn [option_map].
  - apply find_ent_some in Fe as (Fe & Ke & Hi). destruct (wf_range _ _ _ W i e Fe) as (R1 & R2 & R3).
    destruct (clusters_nclus _ _ _ i e W ltac:(lia) Fe) as (C1 & C2 & C3). rewrite C1, u64_id by lia.
    destruct (Z.eqb_spec (e_len e) 0); [lia|]. destruct (Z.ltb_spec (e_blk e) 3); [lia|]. destruct (Z.ltb_spec sects (e_blk e + nclus e)); [lia|]. cbn [orb].
    eexists. split; [reflexivity|]. exists (e_name e). unfold target_ok. cbn [t_slot t_existing t_blk t_clus]. split; [lia|]. split; [exact Ke|].
    split; [exact (wf_tidy _ _ _ W i e Fe)|]. split; [exists e; repeat split; exact Fe|]. intros d' -> b l Hb Hl. fold (entry (blocks d 2) i).
    assert (L64 : length (entry (blocks d 2) i) = 64%nat) by (unfold entry; rewrite length_take, length_drop; lia).
    apply ents_lookup_inv in Fe as [_ Fe]. unfold read_ent in Fe. destruct (byte_at (entry (blocks d 2) i) 2 =? 0) eqn:E0; [discriminate|].
    apply Z.eqb_neq in E0. injection Fe as ->. split; [apply read_set_words; try assumption; reflexivity|]. split; [exact L64 | unfold entry; auto with buf].
  - destruct (free_slot 8 0 (blocks d 2)) as [i|] eqn:Fs; [|exists (inl (-6)); split; [reflexivity | discriminate]].
    destruct (free_slot_spec _ 8 0 i Ld ltac:(lia) Fs) as [Hi Hf]. eexists. split; [reflexivity|]. exists name. unfold target_ok. cbn [t_slot t_existing t_blk t_clus].
    split; [exact Hi|]. split; [reflexivity|]. split; [exact Ln|]. split.
    + repeat split; [exact Hf|]. intros j x Hx. apply (find_ent_none _ _ _ _ Fe j x); [|exact Hx]. apply lookup_lt_Some in Hx. rewrite (wf_length _ _ _ W) in Hx. lia.
    + intros d' E b l Hb Hl. destruct (new_entry_name name Ln Zn Nn) as [K1 K2].
      split; [apply read_set_words; try assumption; apply length_new_entry|]. split; [apply length_new_entry | apply new_entry_ok, Bn].
Qed.

Lemma target_others sects d F name t nm : vol sects d F -> target_ok sects d name t nm ->
  forall i x, ents (blocks d 2) !! i = Some (Some x) -> i <> t_slot t -> key (e_name x) <> key nm.
Proof.
  intros V (_ & Hk & _ & Ht & _) i x Hx Ni. destruct (t_existing t).
  - destruct Ht as (e0 & He & <- & _). exact (wf_unique _ _ _ (v_wf _ _ _ V) i _ x e0 Hx He Ni).
  - destruct Ht as (-> & _ & _ & H). exact (H i x Hx).
Qed.

Lemma target_old sects d name t nm e : target_ok sects d name t nm -> e_name e = nm ->
  ents (blocks d 2) !! t_slot t = Some None \/ exists e0, ents (blocks d 2) !! t_slot t = Some (Some e0) /\ key (e_name e0) = key (e_name e).
Proof.
  intros (_ & _ & _ & Ht & _) ->. destruct (t_existing t); [right; destruct Ht as (e0 & H & Hn & _); exists e0; split; [exact H | rewrite Hn; reflexivity] | left; apply Ht].
Qed.

(** A run of blocks that were free. *)
Lemma put_new_run sects d F name src t nm fblk mp : let nc := (Z.of_nat (length src) + 511) / 512 in
  vol sects d F -> target_ok sects d name t nm -> (0 < length src)%nat -> bytes_ok src -> 3 <= fblk -> fblk + nc <= sects ->
  (forall c, fblk <= c < fblk + nc -> mbit (blocks d 1) c = false) -> length mp = 512%nat -> bytes_ok mp ->
  (forall c, 0 <= c -> mbit mp c = if (fblk <=? c) && (c <? fblk + nc) then true else mbit (blocks d 1) c) ->
  put_result sects F (key name) src (put_write answer (mk_root 0 (blocks d 2) 2 sects) t name src nc fblk true (blocks d 1) mp d).
Proof.
  intros nc V T Ls Bs Hf Hn Hfree Lm Bm Hm. pose proof (v_wf _ _ _ V) as W. pose proof (v_sects _ _ _ V) as S.
  pose proof T as (Ts & Tk & Tn & Tt & Tp). set (e := mk_ent nm fblk (Z.of_nat (length src))).
  assert (Hnc : nclus e = nc) by reflexivity. assert (Hnc1 : 1 <= nc) by (apply (nclus_pos e); cbn; lia).
  assert (Hlen : Z.of_nat (length src) <= 512 * nc) by (subst nc; pose proof (Z.div_mod (Z.of_nat (length src) + 511) 512); pose proof (Z.mod_pos_bound (Z.of_nat (length src) + 511) 512); lia).
  assert (Hap : forall i x, ents (blocks d 2) !! i = Some (Some x) -> forall c, in_run x c -> ~ in_run e c).
  { intros i x Hx c Hc He. pose proof (wf_bits _ _ _ W i x c Hx Hc). rewrite Hfree in *; [discriminate|]. unfold in_run in He. rewrite Hnc in He. exact He. }
  set (Inv := fun d1 => vol sects d1 F /\ blocks d1 1 = blocks d 1 /\ blocks d1 2 = blocks d 2).
  destruct (write_data_ok answer honest sects Inv src fblk nc) with (n := Z.to_nat nc) (j := 0%nat) (d := d) as (ok & d1 & E & (V1 & E11 & E12) & M1 & O1 & W1);
    [intros d1 (V1 & _); exists F; exact V1 | | | exact Bs | lia | lia | split; [exact V | split; reflexivity] | lia | lia |].
  { intros d1 d2 (V1 & I1 & I2) M. destruct M as (E & R & C). split; [apply (vol_same _ _ _ _ V1); split; [exact E | split; assumption]|]. rewrite E. split; assumption. }
  { intros d1 b s d2 (V1 & I1 & I2) Hb Lb Bb M. split; [|destruct M as (-> & _); rewrite !bput_ne by lia; split; assumption].
    apply (vol_free_write sects d1 F b s d2 V1); [lia | exact Lb | exact Bb | | exact M]. rewrite I2. intros i x Hx Hc. apply (Hap i x Hx b Hc). unfold in_run. rewrite Hnc. exact Hb. }
  unfold put_write. unfold bind at 1. rewrite E. destruct ok; cbn [negb]; [|apply put_nothing; [exact V1 | discriminate]].
  unfold bind at 1. destruct (blkwrite_ok answer honest sects d1 F 1 mp V1 ltac:(lia)) as (ok & d2 & -> & M2).
  destruct ok; cbn [negb]; [|apply put_nothing; [exact (vol_same _ _ _ _ V1 M2) | discriminate]].
  assert (V2 : vol sects d2 F).
  { apply (vol_map_write sects d1 F mp d2 V1 Lm Bm); [|exact M2]. rewrite E12. intros i x c Hx Hc. pose proof (run_high _ _ _ _ _ _ W Hx Hc).
    rewrite Hm by lia. rewrite (wf_bits _ _ _ W i x c Hx Hc). destruct (_ && _); reflexivity. }
  destruct M2 as (E2 & _). assert (E21 : blocks d2 1 = mp) by (rewrite E2; apply bput_eq). assert (E22 : blocks d2 2 = blocks d 2) by (rewrite E2, bput_ne by lia; exact E12).
  destruct (put_commit_ok answer honest sects d2 F t name src fblk true (blocks d 1) e) as (c & d3 & F3 & E3 & V3 & H3); try rewrite E22.
  - exact V2.
  - unfold placed. cbn [e_name e]. split; [exact Ts|]. split; [exact Tn|]. split; [rewrite Hnc; cbn; lia|].
    split; [intros i x Hx Ni; split; [exact (target_others sects d F name t nm V T i x Hx Ni) | exact (Hap i x Hx)]|].
    split; [|exact (target_old sects d name t nm e T eq_refl)]. intros c Hc. rewrite E21, Hm by (unfold in_run in Hc; cbn in Hc; lia).
    unfold in_run in Hc. rewrite Hnc in Hc. cbn [e_blk e] in Hc. destruct (Z.leb_spec fblk c); [|lia]. destruct (Z.ltb_spec c (fblk + nc)); [reflexivity | lia].
  - reflexivity.
  - reflexivity.
  - pose proof (Tp d2 E22 fblk (Z.of_nat (length src)) ltac:(lia) ltac:(lia)) as Tp'. rewrite E22 in Tp'. exact Tp'.
  - unfold contents. rewrite Hnc. cbn [e_len e_blk e]. rewrite Nat2Z.id. apply run_data; [|lia]. intros j Hj. rewrite E2, bput_ne by lia. apply W1; [reflexivity | lia].
  - destruct (v_len _ _ _ V 1 ltac:(lia)). split; [assumption|]. split; [assumption|]. intros i x c. apply (wf_bits _ _ _ W).
  - intros Ex. rewrite Ex in Tt. destruct Tt as (e0 & He0 & _ & Tb & Tc). exists e0. split; [exact He0|]. split; [exact Tb|]. split; [exact Tc|]. exact (Hap _ e0 He0).
  - rewrite E21 in E3. fold nc in E3. rewrite E22 in E3. rewrite E3. apply (commit_result sects F F _ _ _ _ F3); [exact V3 | reflexivity | | left; reflexivity].
    cbn [e_name e] in H3. rewrite Tk in H3. exact H3.
Qed.

(** The blocks the file has already. *)
Lemma put_in_place sects d F name src t nm : let nc := (Z.of_nat (length src) + 511) / 512 in
  vol sects d F -> target_ok sects d name t nm -> t_existing t = true -> nc <= t_clus t -> (0 < length src)%nat -> bytes_ok src ->
  put_result sects F (key name) src (put_write answer (mk_root 0 (blocks d 2) 2 sects) t name src nc (t_blk t) false (blocks d 1) (blocks d 1) d).
Proof.
  intros nc V T Ex Hle Ls Bs. pose proof (v_wf _ _ _ V) as W. pose proof (v_sects _ _ _ V) as S.
  pose proof T as (Ts & Tk & Tn & Tt & Tp). rewrite Ex in Tt. destruct Tt as (e0 & He0 & En0 & Tb & Tc). rewrite Tb, Tc in *.
  set (e := mk_ent nm (e_blk e0) (Z.of_nat (length src))). destruct (wf_range _ _ _ W _ e0 He0) as (R1 & R2 & R3).
  assert (Hnc : nclus e = nc) by reflexivity. assert (Hnc1 : 1 <= nc) by (apply (nclus_pos e); cbn; lia).
  assert (Hlen : Z.of_nat (length src) <= 512 * nc) by (subst nc; pose proof (Z.div_mod (Z.of_nat (length src) + 511) 512); pose proof (Z.mod_pos_bound (Z.of_nat (length src) + 511) 512); lia).
  assert (Hin : forall c, in_run e c -> in_run e0 c) by (unfold in_run; rewrite Hnc; cbn [e_blk e]; intros; lia).
  assert (K0 : key (e_name e0) = key name) by (rewrite En0; exact Tk).
  set (Inv := fun d1 => (exists F1, vol sects d1 F1 /\ forall k, k <> key name -> F1 k = F k) /\ blocks d1 1 = blocks d 1 /\ blocks d1 2 = blocks d 2).
  destruct (write_data_ok answer honest sects Inv src (e_blk e0) nc) with (n := Z.to_nat nc) (j := 0%nat) (d := d) as (ok & d1 & E & ((F1 & V1 & HF1) & E11 & E12) & M1 & O1 & W1);
    [intros d1 ((F1 & V1 & _) & _); exists F1; exact V1 | | | exact Bs | lia | lia | split; [exists F; split; [exact V | reflexivity] | split; reflexivity] | lia | lia |].
  { intros d1 d2 ((F1 & V1 & H1) & I1 & I2) M. destruct M as (E & R & C). split; [exists F1; split; [apply (vol_same _ _ _ _ V1); split; [exact E | split; assumption] | exact H1]|].
    rewrite E. split; assumption. }
  { intros d1 b s d2 ((F1 & V1 & H1) & I1 & I2) Hb Lb Bb M. split; [|destruct M as (-> & _); rewrite !bput_ne by lia; split; assumption].
    rewrite <- I2 in He0. eexists. split; [apply (vol_own_write sects d1 F1 b s d2 _ e0 V1 He0); [unfold in_run; lia | exact Lb | exact Bb | exact M]|].
    intros k Hk. cbv beta. rewrite K0, bool_decide_false by exact Hk. exact (H1 k Hk). }
  assert (U : undone F (key name) src F1).
  { right. right. exists (contents (blocks d) e0). rewrite <- (v_map _ _ _ V). unfold look. rewrite <- K0.
    rewrite (find_ent_unique _ _ e0 (wf_unique _ _ _ W) (wf_length _ _ _ W) He0). split; [reflexivity|]. fold nc.
    replace (length (contents (blocks d) e0)) with (Z.to_nat (e_len e0)); [rewrite Z2Nat.id by lia; exact Hle|].
    symmetry. unfold contents. rewrite length_take. destruct (clusters_nclus _ _ _ _ e0 W ltac:(lia) He0) as (_ & _ & C3).
    rewrite (run_length sects); [lia | | lia | lia]. intros i Hi. apply (v_len _ _ _ V i Hi). }
  unfold put_write. unfold bind at 1. rewrite E. destruct ok; cbn [negb].
  2:{ exists (-12), d1, F1. split; [reflexivity|]. split; [exact V1|]. split; [exact HF1|]. split; [discriminate | exact U]. }
  unfold bind at 1. unfold ret at 1. cbn [negb].
  destruct (put_commit_ok answer honest sects d1 F1 t name src (e_blk e0) false (blocks d 1) e) as (c & d3 & F3 & E3 & V3 & H3); try rewrite E12.
  - exact V1.
  - unfold placed. cbn [e_name e]. split; [exact Ts|]. split; [exact Tn|]. split; [rewrite Hnc; cbn; lia|].
    split; [intros i x Hx Ni; split; [exact (target_others sects d F name t nm V T i x Hx Ni)|]; intros c Hc Hc'; exact (wf_apart _ _ _ W i _ x e0 Hx He0 Ni c Hc (Hin c Hc'))|].
    split; [|exact (target_old sects d name t nm e T eq_refl)]. intros c Hc. rewrite E11. exact (wf_bits _ _ _ W _ e0 c He0 (Hin c Hc)).
  - reflexivity.
  - reflexivity.
  - pose proof (Tp d1 E12 (e_blk e0) (Z.of_nat (length src)) ltac:(lia) ltac:(lia)) as Tp'. rewrite E12 in Tp'. exact Tp'.
  - unfold contents. rewrite Hnc. cbn [e_len e_blk e]. rewrite Nat2Z.id. apply run_data; [|lia]. intros j Hj. apply W1; [reflexivity | lia].
  - destruct (v_len _ _ _ V 1 ltac:(lia)). split; [assumption|]. split; [assumption|]. intros i x c. apply (wf_bits _ _ _ W).
  - intros _. exists e0. split; [exact He0|]. split; [exact Tb|]. split; [exact Tc|]. split; [reflexivity | exact Hle].
  - rewrite E11, E12 in E3. fold nc in E3. rewrite E3. apply (commit_result sects F F1 _ _ _ _ F3); [exact V3 | exact HF1 | | exact U].
    cbn [e_name e] in H3. rewrite Tk in H3. exact H3.
Qed.

Lemma find_run_range fuel n sects mp : forall i b, find_run fuel n sects mp i = Some b -> i <= b.
Proof.
  induction fuel as [|fuel IH]; intros i b; [discriminate|]. cbn [find_run]. destruct (i + n <=? sects); [|discriminate].
  destruct (free_run _ _ _); [intros [= <-]; lia | intros H; apply IH in H; lia].
Qed.

Lemma put_file_ok sects d F name src : vol sects d F -> name <> [] -> Forall (fun c => c <> 0) name -> bytes_ok name -> bytes_ok src ->
  put_result sects F (key name) src (rs_put_file answer name src d).
Proof.
  intros V Nn Zn Bn Bs. pose proof (v_sects _ _ _ V) as S. unfold rs_put_file.
  destruct (Z.eqb_spec (Z.of_nat (length src)) 0); [apply put_nothing; [exact V | discriminate]|].
  destruct (Z.ltb_spec 37 (Z.of_nat (length name))); [apply put_nothing; [exact V | discriminate]|].
  destruct (Z.ltb_spec 65536 (Z.of_nat (length src))); [apply put_nothing; [exact V | discriminate]|]. cbn [orb].
  set (nc := (Z.of_nat (length src) + 511) / 512). assert (Hnc : 0 <= nc) by (apply Z.div_pos; lia).
  unfold bind at 1. destruct (read_root_ok answer sects d F V) as (r & d1 & -> & M1 & Hr). pose proof (vol_same _ _ _ _ V M1) as V1.
  destruct Hr as [Hr| ->]; [apply Z.eqb_neq in Hr; rewrite Hr; apply put_nothing; [exact V1 | discriminate]|]. cbn [r_code r_sects Z.eqb negb orb].
  destruct (Z.ltb_spec sects 4); [lia|]. destruct (Z.ltb_spec 128 sects); [lia|]. cbn [orb].
  unfold bind at 1. destruct (blkread_ok answer sects d1 F 1 V1 ltac:(lia)) as (b & d2 & -> & M2 & Hb). pose proof (vol_same _ _ _ _ V1 M2) as V2.
  destruct Hb as [->| ->]; [apply put_nothing; [exact V2 | discriminate]|].
  assert (E1 : blocks d2 1 = blocks d1 1) by (destruct M2 as (-> & _); reflexivity). assert (E2 : blocks d2 2 = blocks d 2) by (destruct M1 as (M1 & _), M2 as (-> & _); rewrite M1; reflexivity).
  rewrite <- E1, <- E2. unfold bind at 1. destruct (put_target_ok sects d2 F name V2 ltac:(lia) Nn Zn Bn) as (t & -> & Ht).
  destruct t as [c|t]; [apply put_nothing; assumption|]. destruct Ht as (nm & T).
  destruct (negb (t_existing t) || (t_clus t <? nc)) eqn:En.
  - destruct (find_run 128 nc sects (blocks d2 1) 3) as [fblk|] eqn:Ef; [|apply put_nothing; [exact V2 | discriminate]].
    apply find_run_spec in Ef as (F1 & F2 & F3); [|lia|lia]. destruct (v_len _ _ _ V2 1 ltac:(lia)) as [L1 B1].
    destruct (set_run_ok nc (blocks d2 1) fblk B1 L1) as (mp & Em & Bm & Lm & Km); [lia | exact Hnc | lia|].
    cbn [r_sects]. unfold bind at 1. rewrite Em. cbn [of_option]. unfold ret at 1.
    apply put_new_run with (nm := nm); try assumption; lia.
  - apply orb_false_iff in En as [Ex En]. apply negb_false_iff in Ex. apply Z.ltb_ge in En.
    apply put_in_place with (nm := nm); try assumption; lia.
Qed.
End RedSea.
