(* ===== verification/RedSeaNames.v ===== *)
(** * RedSea volumes: loading, deleting and renaming *)

From S2P Require Import Prelude RedSea RedSeaVol RedSeaThms.
#[local] Open Scope Z_scope.
#[local] Open Scope sm_scope.

(** ** The entry a rename writes *)

Lemma write_at_middle e o xs : (o + length xs <= length e)%nat -> write_at e o xs = take o e ++ xs ++ drop (o + length xs) e.
Proof.
  intros H. assert (Lo : length (take o e) = o) by (rewrite length_take; lia).
  pose proof (write_at_app xs (take o e) (take (length xs) (drop o e)) (drop (length xs) (drop o e))) as K.
  rewrite take_drop, take_drop, drop_drop, Lo in K. apply K. rewrite length_take, length_drop. lia.
Qed.

Definition renamed (e nm : list Z) : list Z := write_at (write_at e 2 (zeros 38)) 2 (str nm).

Lemma renamed_eq e nm : length e = 64%nat -> (length nm <= 37)%nat -> renamed e nm = take 2 e ++ (nm ++ [0]) ++ zeros (37 - length nm) ++ drop 40 e.
Proof.
  intros L Ln. unfold renamed, str. rewrite (write_at_middle e 2 (zeros 38)) by (rewrite length_zeros; lia). rewrite length_zeros. change (2 + 38)%nat with 40%nat.
  assert (Ez : zeros 38 = zeros (length nm + 1) ++ zeros (37 - length nm)) by (unfold zeros; rewrite <- repeat_app; f_equal; lia).
  rewrite Ez, <- app_assoc. assert (L2 : length (take 2 e) = 2%nat) by (rewrite length_take; lia).
  pose proof (write_at_app (nm ++ [0]) (take 2 e) (zeros (length nm + 1)) (zeros (37 - length nm) ++ drop 40 e)) as K. rewrite L2 in K.
  apply K. rewrite length_zeros, length_app. cbn. lia.
Qed.

Lemma length_renamed e nm : length (renamed e nm) = length e.
Proof. unfold renamed. rewrite !length_write_at. reflexivity. Qed.

Lemma read_renamed e nm : length e = 64%nat -> (length nm <= 37)%nat -> nm <> [] -> Forall (fun c => c <> 0) nm ->
  read_ent (renamed e nm) = Some (mk_ent nm (word e 40 0) (word e 40 1)).
Proof.
  intros L Ln Nn Zn. rewrite renamed_eq by assumption. assert (L2 : length (take 2 e) = 2%nat) by (rewrite length_take; lia).
  set (tl := zeros (37 - length nm) ++ drop 40 e). assert (Ltl : length tl = (61 - length nm)%nat) by (subst tl; rewrite length_app, length_zeros, length_drop; lia).
  assert (D2 : drop 2 (take 2 e ++ (nm ++ [0]) ++ tl) = (nm ++ [0]) ++ tl) by (rewrite <- L2 at 1; apply drop_app_length).
  assert (Dw : forall i, word (take 2 e ++ (nm ++ [0]) ++ tl) 40 i = word e 40 i).
  { intros i. unfold word. assert (Ed : drop 40 (take 2 e ++ (nm ++ [0]) ++ tl) = drop 40 e).
    { subst tl. rewrite !app_assoc. apply drop_app_length'. rewrite !length_app, length_zeros, L2. cbn. lia. }
    rewrite <- !drop_drop, Ed. reflexivity. }
  unfold read_ent. assert (B2 : byte_at (take 2 e ++ (nm ++ [0]) ++ tl) 2 <> 0).
  { rewrite byte_at_lookup by lia. change (Z.to_nat 2) with 2%nat. rewrite lookup_app_r by lia. rewrite L2. destruct nm as [|c nm]; [contradiction|]. exact (Forall_inv Zn). }
  apply Z.eqb_neq in B2. rewrite B2, D2, !Dw. do 2 f_equal. rewrite <- app_assoc. rewrite firstn_app, (take_ge nm) by lia.
  destruct (38 - length nm)%nat as [|m] eqn:Em; [lia|]. cbn [app take]. apply cstr_string, Zn.
Qed.

Section RedSea.
Context (answer : nat -> reply).

(** ** Loading *)

(** The device answers every request. *)
Definition served (d : dev) : Prop := ready d = false \/ forall n, answer n = Served.

Lemma served_moves d v d' : served d -> moves d v d' -> served d'.
Proof. intros [H|H] (_ & R & _); [left; congruence | right; exact H]. Qed.

Lemma blkread_served sects d F blk r d' : vol sects d F -> 0 <= blk < sects -> hc_builtin_blkread answer blk d = Some (r, d') -> served d -> r <> None.
Proof.
  intros V Hb K Hs. pose proof (v_sects _ _ _ V). pose proof (v_cap _ _ _ V) as Hc. revert K. unfold hc_builtin_blkread. rewrite u64_id by lia.
  destruct (ready d) eqn:Er.
  - specialize (Hc eq_refl). destruct (Z.ltb_spec (capacity d) (blk + 1)); [lia|]. destruct Hs as [Hs|Hs]; [congruence|]. rewrite Hs. intros [= <- _]. discriminate.
  - unfold HC_RAM_N_BLKS. destruct (Z.ltb_spec 128 (blk + 1)); [lia|]. destruct (Z.leb_spec 128 blk); [lia|]. intros [= <- _]. discriminate.
Qed.

Lemma load_loop_ok sects F flen : forall n blk off acc d, vol sects d F -> 0 <= blk -> blk + Z.of_nat n <= sects -> 0 <= flen - off <= 512 * Z.of_nat n ->
  exists r d', load_loop answer n blk off flen acc d = Some (r, d') /\ moves d (blocks d) d' /\
    (r = None /\ ~ served d \/ r = Some (acc ++ take (Z.to_nat (flen - off)) (run (blocks d) blk n))).
Proof.
  induction n as [|n IH]; intros blk off acc d V Hb Hn Ho.
  - exists (Some acc), d. split; [reflexivity|]. split; [split; [reflexivity | split; reflexivity]|]. right. replace (Z.to_nat (flen - off)) with 0%nat by lia. rewrite app_nil_r. reflexivity.
  - cbn [load_loop]. destruct (Z.ltb_spec off flen) as [H|H].
    + unfold bind at 1. destruct (blkread_ok answer sects d F blk V ltac:(lia)) as (r & d1 & E & M1 & Hr). rewrite E. pose proof (blkread_served sects d F blk r d1 V ltac:(lia) E) as Hs.
      destruct Hr as [->| ->]; [exists None, d1; split; [reflexivity|]; split; [exact M1|]; left; split; [reflexivity | intros K; exact (Hs K eq_refl)]|].
      pose proof (vol_same _ _ _ _ V M1) as V1. destruct (v_len _ _ _ V blk ltac:(lia)) as [Lb _]. set (s := blocks d blk) in *.
      destruct (IH (blk + 1) (off + Z.min 512 (flen - off)) (acc ++ take (Z.to_nat (Z.min 512 (flen - off))) s) d1 V1) as (r & d2 & E2 & M2 & Hr); [lia | lia | lia |].
      exists r, d2. split; [exact E2|]. split; [destruct M1 as (E1 & R1 & C1), M2 as (E3 & R2 & C2); split; [congruence | split; congruence]|].
      destruct Hr as [[-> Hns]| ->]; [left; split; [reflexivity | intros K; exact (Hns (served_moves _ _ _ K M1))]|]. right. f_equal. rewrite <- app_assoc. f_equal.
      destruct M1 as (-> & _). cbn [run]. fold s. destruct (Z.le_gt_cases 512 (flen - off)) as [Hk|Hk].
      * rewrite Z.min_l by lia. replace (Z.to_nat 512) with (length s) by lia. rewrite firstn_all. rewrite firstn_app, (take_ge s) by lia. do 2 f_equal. lia.
      * rewrite Z.min_r by lia. replace (Z.to_nat (flen - (off + (flen - off)))) with 0%nat by lia. rewrite firstn_O, app_nil_r, take_app_le by lia. reflexivity.
    + exists (Some acc), d. split; [reflexivity|]. split; [split; [reflexivity | split; reflexivity]|]. right. replace (Z.to_nat (flen - off)) with 0%nat by lia. rewrite app_nil_r. reflexivity.
Qed.

Lemma read_root_served sects d F r d' : vol sects d F -> rs_read_root answer d = Some (r, d') -> served d -> r_code r = 0.
Proof.
  intros V H Hs. pose proof (v_sects _ _ _ V) as S. destruct (v_boot _ _ _ V) as (B1 & B2 & B3 & B4 & B5). unfold rs_read_root, bind in H.
  destruct (blkread_ok answer sects d F 0 V ltac:(lia)) as (x & d1 & E & M1 & Hx). pose proof (blkread_served sects d F 0 x d1 V ltac:(lia) E Hs) as N. rewrite E in H.
  destruct Hx as [->| ->]; [contradiction|]. rewrite B1, B2, B3, B4, B5 in H. cbn [Z.eqb negb orb Pos.eqb] in H. pose proof (vol_same _ _ _ _ V M1) as V1.
  destruct (blkread_ok answer sects d1 F 2 V1 ltac:(lia)) as (y & d2 & E2 & M2 & Hy). pose proof (blkread_served sects d1 F 2 y d2 V1 ltac:(lia) E2 (served_moves _ _ _ Hs M1)) as N2.
  rewrite E2 in H. destruct Hy as [->| ->]; [contradiction|]. injection H as <- _. reflexivity.
Qed.

Lemma load_file_ok sects d F name cap : vol sects d F -> 2 <= cap < 2 ^ 64 ->
  exists c dst d', rs_load_file answer name cap d = Some ((c, dst), d') /\ moves d (blocks d) d' /\
    (c = 0 -> F (key name) = Some dst /\ Z.of_nat (length dst) < cap) /\
    (served d -> match F (key name) with Some x => if Z.of_nat (length x) <? cap then c = 0 else c = -6 | None => c = -6 end).
Proof.
  intros V Hcap. pose proof (v_sects _ _ _ V) as S. pose proof (v_wf _ _ _ V) as W. unfold rs_load_file. destruct (Z.ltb_spec cap 2); [lia|].
  unfold bind at 1. destruct (read_root_ok answer sects d F V) as (r & d1 & E & M1 & Hr). pose proof (read_root_served _ _ _ _ _ V E) as Hrs. rewrite E.
  destruct Hr as [Hr| ->].
  { pose proof (proj2 (Z.eqb_neq _ _) Hr) as Hz. rewrite Hz. exists (-2), [], d1. split; [reflexivity|]. split; [exact M1|]. split; [discriminate|]. intros K. destruct (Hr (Hrs K)). }
  cbn [r_code r_dir r_sects Z.eqb negb]. rewrite (find_slot_ok _ _ _ name V). cbn [of_option]. unfold bind at 1. unfold ret at 1.
  pose proof (v_map _ _ _ V (key name)) as HF. unfold look in HF. destruct (find_ent 8 0 (ents (blocks d 2)) (key name)) as [[i e]|] eqn:Fe; cbn [option_map] in *.
  2:{ exists (-6), [], d1. split; [reflexivity|]. split; [exact M1|]. split; [discriminate|]. intros _. rewrite <- HF. reflexivity. }
  apply find_ent_some in Fe as (Fe & _ & _). destruct (wf_range _ _ _ W i e Fe) as (R1 & R2 & R3). destruct (clusters_nclus _ _ _ i e W ltac:(lia) Fe) as (C1 & C2 & C3).
  assert (Lc : Z.of_nat (length (contents (blocks d) e)) = e_len e).
  { unfold contents. rewrite length_take, (run_length sects); [lia | intros j Hj; apply (v_len _ _ _ V j Hj) | lia | lia]. }
  rewrite C1, u64_id by lia. destruct (Z.ltb_spec (e_blk e) 3); [lia|]. destruct (Z.eqb_spec (e_len e) 0); [lia|]. destruct (Z.ltb_spec sects (e_blk e)); [lia|].
  destruct (Z.ltb_spec (sects - e_blk e) (nclus e)); [lia|]. cbn [orb]. rewrite orb_false_r. destruct (Z.leb_spec cap (e_len e)) as [Hle|Hlt].
  { exists (-6), [], d1. split; [reflexivity|]. split; [exact M1|]. split; [discriminate|]. intros _. rewrite <- HF. destruct (Z.ltb_spec (Z.of_nat (length (contents (blocks d) e))) cap); [lia | reflexivity]. }
  cbn [orb]. pose proof (vol_same _ _ _ _ V M1) as V1.
  destruct (load_loop_ok sects F (e_len e) (Z.to_nat (nclus e)) (e_blk e) 0 [] d1 V1) as (b & d2 & E2 & M2 & Hb); [lia | lia | lia |]. unfold bind. rewrite E2.
  assert (M : moves d (blocks d) d2) by (destruct M1 as (E1 & R4 & C4), M2 as (E3 & R5 & C5); split; [congruence | split; congruence]).
  destruct Hb as [[-> Hb]| ->].
  - exists (-7), [], d2. split; [reflexivity|]. split; [exact M|]. split; [discriminate|]. intros K. destruct (Hb (served_moves _ _ _ K M1)).
  - eexists 0, _, d2. split; [reflexivity|]. split; [exact M|]. cbn [app]. rewrite Z.sub_0_r. destruct M1 as (-> & _). fold (contents (blocks d) e).
    split; [intros _; split; [symmetry; exact HF | lia]|]. intros _. rewrite <- HF. destruct (Z.ltb_spec (Z.of_nat (length (contents (blocks d) e))) cap); [reflexivity | lia].
Qed.

(** ** Deleting *)

Context (honest : forall n, answer n <> Lost).

Definition without (F : list Z -> option (list Z)) (k0 : list Z) : list Z -> option (list Z) := fun k => if bool_decide (k = k0) then None else F k.

Lemma wf_clear L sects mp slot e : wf L sects mp -> L !! slot = Some (Some e) -> wf (<[slot := None]> L) sects mp.
Proof.
  intros [Ll T U R A B] He. pose proof (lookup_lt_Some _ _ _ He) as Hs.
  assert (E : forall i x, <[slot := None]> L !! i = Some (Some x) -> i <> slot /\ L !! i = Some (Some x)).
  { intros i x H. destruct (Nat.eq_dec slot i) as [<-|N]; [rewrite list_lookup_insert_eq in H by lia; discriminate|].
    rewrite list_lookup_insert_ne in H by exact N. split; [congruence | exact H]. }
  constructor; [rewrite length_insert; exact Ll | | | | |].
  - intros i x H. apply E in H as [_ H]. exact (T i x H).
  - intros i j x y Hx Hy. apply E in Hx as [_ Hx]. apply E in Hy as [_ Hy]. exact (U i j x y Hx Hy).
  - intros i x H. apply E in H as [_ H]. exact (R i x H).
  - intros i j x y Hx Hy. apply E in Hx as [_ Hx]. apply E in Hy as [_ Hy]. exact (A i j x y Hx Hy).
  - intros i x c H. apply E in H as [_ H]. exact (B i x c H).
Qed.

Lemma del_file_ok sects d F name : vol sects d F ->
  exists c d', rs_del_file answer name d = Some (c, d') /\ ready d' = ready d /\ capacity d' = capacity d /\
    (c = 0 -> vol sects d' (without F (key name)) /\ F (key name) <> None) /\ (c <> 0 -> c <> -6 -> vol sects d' F).
Proof.
  intros V. pose proof (v_sects _ _ _ V) as S. pose proof (v_wf _ _ _ V) as W. unfold rs_del_file.
  assert (Stop : forall c d', vol sects d' F -> moves d (blocks d') d' -> c <> 0 -> exists c' d'', Some (c, d') = Some (c', d'') /\ ready d'' = ready d /\ capacity d'' = capacity d /\
    (c' = 0 -> vol sects d'' (without F (key name)) /\ F (key name) <> None) /\ (c' <> 0 -> c' <> -6 -> vol sects d'' F)).
  { intros c d' V' (_ & R & C) Hc. exists c, d'. split; [reflexivity|]. split; [exact R|]. split; [exact C|]. split; [intros; contradiction | intros; exact V']. }
  assert (M0 : moves d (blocks d) d) by (split; [reflexivity | split; reflexivity]).
  destruct (is_dots name); [apply Stop; [exact V | exact M0 | discriminate]|].
  unfold bind at 1. destruct (read_root_ok answer sects d F V) as (r & d1 & -> & M1 & Hr). pose proof (vol_same _ _ _ _ V M1) as V1.
  assert (M1' : moves d (blocks d1) d1) by (destruct M1 as (_ & R1 & C1); split; [reflexivity | split; assumption]).
  destruct Hr as [Hr| ->]; [apply Z.eqb_neq in Hr; rewrite Hr; apply Stop; [exact V1 | exact M1' | discriminate]|]. cbn [r_code r_dir r_root Z.eqb negb].
  rewrite (find_slot_ok _ _ _ name V). cbn [of_option]. unfold bind at 1. unfold ret at 1. pose proof (v_map _ _ _ V (key name)) as HF. unfold look in HF.
  destruct (find_ent 8 0 (ents (blocks d 2)) (key name)) as [[i e]|] eqn:Fe; cbn [option_map] in *; [|apply Stop; [exact V1 | exact M1' | discriminate]].
  apply find_ent_some in Fe as (Fe & Ke & Hi). destruct (wf_range _ _ _ W i e Fe) as (R1 & R2 & R3). destruct (clusters_nclus _ _ _ i e W ltac:(lia) Fe) as (C1 & C2 & C3).
  destruct (Z.eqb_spec (e_blk e) 0); [lia|]. unfold bind at 1. destruct (blkread_ok answer sects d1 F 1 V1 ltac:(lia)) as (b & d2 & -> & M2 & Hb).
  pose proof (moves_trans _ _ _ _ _ M1' M2) as M2'. pose proof (vol_same _ _ _ _ V1 M2) as V2. assert (M2'' : moves d (blocks d2) d2) by (destruct M2' as (_ & Ra & Ca); split; [reflexivity | split; assumption]).
  destruct Hb as [->| ->]; [apply Stop; [exact V2 | exact M2'' | discriminate]|].
  assert (Eb : blocks d2 = blocks d) by (destruct M1 as (E1 & _), M2 as (E2 & _); congruence). assert (E11 : blocks d1 1 = blocks d 1) by (destruct M1 as (-> & _); reflexivity).
  destruct (v_len _ _ _ V 1 ltac:(lia)) as [L1 B1]. destruct (v_len _ _ _ V 2 ltac:(lia)) as [L2 B2]. rewrite C1, Z.max_r, u32_id, E11 by lia.
  destruct (clear_run_ok (nclus e) (blocks d 1) (e_blk e) B1 L1) as (mp & Em & Bm & Lm & Km); [lia | lia | lia |]. unfold bind at 1. rewrite Em. cbn [of_option]. unfold ret at 1.
  unfold bind at 1. destruct (blkwrite_ok answer honest sects d2 F 1 mp V2 ltac:(lia)) as (ok & d3 & -> & M3). pose proof (moves_trans _ _ _ _ _ M2'' M3) as M3'.
  destruct ok; cbn [negb]; [|apply Stop; [exact (vol_same _ _ _ _ V2 M3) | destruct M3' as (_ & Ra & Ca); split; [reflexivity | split; assumption] | discriminate]].
  destruct M3' as (E3 & R3' & C3'). assert (Ft : fits sects d3) by (destruct (vol_fits _ _ _ V) as [Fa Fb]; split; [exact Fa | rewrite R3', C3'; exact Fb]).
  set (dir := set_entry (blocks d 2) i (zeros 64)). unfold bind. destruct (blkwrite_fits answer honest sects d3 2 dir Ft ltac:(lia)) as (ok & d4 & -> & (E4 & R4 & C4)).
  unfold ret. exists (if ok : bool then 0 else -6), d4. split; [reflexivity|]. split; [congruence|]. split; [congruence|]. destruct ok; [|split; [discriminate | intros _ H; contradiction]].
  split; [|intros H; contradiction]. intros _. split; [|rewrite <- HF; discriminate].
  assert (Ed : ents dir = <[i := None]> (ents (blocks d 2))) by (unfold dir; rewrite set_entry_ents; [reflexivity | exact L2 | reflexivity | lia]).
  assert (Ld : length dir = 512%nat) by (unfold dir, set_entry; rewrite length_write_at; exact L2). assert (Bd : bytes_ok dir) by (unfold dir, set_entry; auto with buf).
  set (da := mk_dev (bput 2 dir (blocks d)) (ready d) (capacity d) 0). set (db := mk_dev (bput 1 mp (blocks da)) (ready d) (capacity d) 0).
  assert (Va : vol sects da (without F (key name))).
  { eapply vol_ext; [apply (vol_dir_write sects d F dir da V Ld Bd); [rewrite Ed; apply (wf_clear _ _ _ i e W Fe) | split; [reflexivity | split; reflexivity]]|].
    intros k. rewrite Ed, (look_clear _ _ i e k (wf_unique _ _ _ W) (wf_length _ _ _ W) Fe), Ke. unfold without. destruct (bool_decide _); [reflexivity|]. symmetry. apply (v_map _ _ _ V). }
  assert (Vb : vol sects db (without F (key name))).
  { apply (vol_map_write sects da _ mp db Va Lm Bm); [|split; [reflexivity | split; reflexivity]]. intros j x c Hx Hc. cbn [da blocks] in Hx. rewrite bput_eq, Ed in Hx.
    destruct (Nat.eq_dec i j) as [<-|Nj]; [rewrite list_lookup_insert_eq in Hx by (rewrite (wf_length _ _ _ W); lia); discriminate|].
    rewrite list_lookup_insert_ne in Hx by exact Nj. pose proof (run_high _ _ _ _ _ _ W Hx Hc). rewrite Km by lia. rewrite (wf_bits _ _ _ W j x c Hx Hc).
    destruct (Z.leb_spec (e_blk e) c); [|reflexivity]. destruct (Z.ltb_spec c (e_blk e + nclus e)); [|reflexivity]. exfalso.
    exact (wf_apart _ _ _ W j i x e Hx Fe ltac:(congruence) c Hc ltac:(unfold in_run; lia)). }
  apply (vol_pointwise sects db d4 _ Vb); [|cbn; congruence | cbn; congruence]. intros x. rewrite E4, E3. cbn [db da blocks]. rewrite Eb. unfold bput. destruct (Z.eqb_spec x 2), (Z.eqb_spec x 1); try reflexivity. lia.
Qed.

(** ** Renaming *)

Definition move_file (F : list Z -> option (list Z)) (k1 k2 : list Z) : list Z -> option (list Z) :=
  fun k => if bool_decide (k = k2) then F k1 else if bool_decide (k = k1) then None else F k.

Lemma rename_file_ok sects d F oldn newn : vol sects d F -> Forall (fun c => c <> 0) oldn -> Forall (fun c => c <> 0) newn -> bytes_ok newn ->
  exists c d', rs_rename_file answer oldn newn d = Some (c, d') /\
    (c = 0 -> vol sects d' (move_file F (key oldn) (key newn)) /\ F (key oldn) <> None /\ (key oldn <> key newn -> F (key newn) = None)) /\ (c <> 0 -> vol sects d' F).
Proof.
  intros V Zo Zn Bn. pose proof (v_sects _ _ _ V) as S. pose proof (v_wf _ _ _ V) as W. unfold rs_rename_file.
  set (Good := fun r : option (Z * dev) => exists c d', r = Some (c, d') /\
    (c = 0 -> vol sects d' (move_file F (key oldn) (key newn)) /\ F (key oldn) <> None /\ (key oldn <> key newn -> F (key newn) = None)) /\ (c <> 0 -> vol sects d' F)).
  assert (Stop : forall c d', vol sects d' F -> c <> 0 -> Good (Some (c, d'))).
  { intros c d' V' Hc. exists c, d'. split; [reflexivity|]. split; [intros; contradiction | intros; exact V']. }
  change (Good ((if is_dots oldn || (length newn =? 0)%nat || (37 <? Z.of_nat (length newn)) then ret (-1) else
    let! r := rs_read_root answer in if negb (r_code r =? 0) then ret (-2) else
      let! f := of_option (rs_find_slot (r_dir r) oldn) in
      match f with
      | None => ret (-3)
      | Some (slot, _, _) =>
          let! same := of_option (str_ieq (str oldn) newn) in
          let! g := (if same : bool then ret None else of_option (rs_find_slot (r_dir r) newn)) in
          match g with
          | Some _ => ret (-4)
          | None =>
              let! ok := hc_builtin_blkwrite answer (set_entry (r_dir r) slot (renamed (take 64 (drop (64 * slot) (r_dir r))) newn)) (r_root r) in
              ret (if ok : bool then 0 else -5)
          end
      end) d)).
  destruct (is_dots oldn); [apply Stop; [exact V | discriminate]|]. destruct (Nat.eqb_spec (length newn) 0) as [|Nl]; [apply Stop; [exact V | discriminate]|].
  destruct (Z.ltb_spec 37 (Z.of_nat (length newn))) as [|Ln]; [apply Stop; [exact V | discriminate]|]. cbn [orb].
  unfold bind at 1. destruct (read_root_ok answer sects d F V) as (r & d1 & -> & M1 & Hr). pose proof (vol_same _ _ _ _ V M1) as V1.
  destruct Hr as [Hr| ->]; [apply Z.eqb_neq in Hr; rewrite Hr; apply Stop; [exact V1 | discriminate]|]. cbn [r_code r_dir r_root Z.eqb negb].
  rewrite (find_slot_ok _ _ _ oldn V). cbn [of_option]. unfold bind at 1. unfold ret at 1. pose proof (v_map _ _ _ V (key oldn)) as HF. unfold look in HF.
  destruct (find_ent 8 0 (ents (blocks d 2)) (key oldn)) as [[i e]|] eqn:Fe; cbn [option_map] in *; [|apply Stop; [exact V1 | discriminate]].
  apply find_ent_some in Fe as (Fe & Ke & Hi). destruct (wf_range _ _ _ W i e Fe) as (R1 & R2 & R3). destruct (v_len _ _ _ V 2 ltac:(lia)) as [L2 B2].
  unfold str. rewrite (str_ieq_string oldn [] Zo newn). cbn [of_option]. unfold bind at 1. unfold ret at 1.
  unfold bind at 1. set (g := if bool_decide (key oldn = key newn) then ret None else of_option (rs_find_slot (blocks d 2) newn)).
  assert (Hg : exists o, g d1 = Some (o, d1) /\ (o = None -> forall j x, ents (blocks d 2) !! j = Some (Some x) -> j <> i -> key (e_name x) <> key newn)).
  { subst g. destruct (bool_decide_reflect (key oldn = key newn)) as [Ek|Nk].
    - exists None. split; [reflexivity|]. intros _ j x Hx Nj. rewrite <- Ek, <- Ke. exact (wf_unique _ _ _ W j i x e Hx Fe Nj).
    - rewrite (find_slot_ok _ _ _ newn V). cbn [of_option]. eexists. split; [reflexivity|]. intros Hn j x Hx Nj.
      destruct (find_ent 8 0 (ents (blocks d 2)) (key newn)) as [[? ?]|] eqn:Fn; [discriminate|]. apply (find_ent_none _ _ _ _ Fn j x); [|exact Hx].
      apply lookup_lt_Some in Hx. rewrite (wf_length _ _ _ W) in Hx. lia. }
  destruct Hg as (o & -> & Ho). destruct o as [o|]; [apply Stop; [exact V1 | discriminate]|]. specialize (Ho eq_refl). fold (entry (blocks d 2) i).
  set (dir := set_entry (blocks d 2) i (renamed (entry (blocks d 2) i) newn)). assert (L64 : length (entry (blocks d 2) i) = 64%nat) by (unfold entry; rewrite length_take, length_drop; lia).
  assert (Nn : newn <> []) by (intros ->; apply Nl; reflexivity). set (e' := mk_ent newn (e_blk e) (e_len e)).
  assert (Er : read_ent (renamed (entry (blocks d 2) i) newn) = Some e').
  { rewrite read_renamed by (assumption || lia). pose proof Fe as Fe'. apply ents_lookup_inv in Fe' as [_ Fe']. unfold read_ent in Fe'. destruct (_ =? 0); [discriminate|]. injection Fe' as ->. reflexivity. }
  assert (Ed : ents dir = <[i := Some e']> (ents (blocks d 2))) by (unfold dir; rewrite set_entry_ents, Er; [reflexivity | exact L2 | rewrite length_renamed; exact L64 | lia]).
  assert (Wn : wf (ents dir) sects (blocks d 1)).
  { rewrite Ed. apply (wf_set _ _ (blocks d 1)); [exact W | lia | cbn; lia | exact (wf_range _ _ _ W i e Fe) | |].
    - intros j x Hx Nj. split; [exact (Ho j x Hx Nj)|]. split; [exact (wf_apart _ _ _ W j i x e Hx Fe Nj) | intros c; apply (wf_bits _ _ _ W j x c Hx)].
    - intros c Hc. exact (wf_bits _ _ _ W i e c Fe Hc). }
  unfold bind. destruct (blkwrite_ok answer honest sects d1 F 2 dir V1 ltac:(lia)) as (ok & d2 & -> & M2). destruct ok; [|apply Stop; [exact (vol_same _ _ _ _ V1 M2) | discriminate]].
  exists 0, d2. split; [reflexivity|]. split; [intros _ | intros H; contradiction]. split; [|split; [rewrite <- HF; discriminate|]].
  - destruct M1 as (E1 & R4 & C4), M2 as (E2 & R5 & C5). rewrite E1 in E2. eapply vol_ext.
    + apply (vol_dir_write sects d F dir d2 V); [unfold dir, set_entry; rewrite length_write_at; exact L2 | | exact Wn | split; [exact E2 | split; congruence]].
      unfold dir, set_entry, renamed. apply bytes_ok_write_at; [exact B2|]. apply bytes_ok_write_at; [apply bytes_ok_write_at; [unfold entry; auto with buf | auto with buf]|].
      unfold str. apply bytes_ok_app. split; [exact Bn | repeat constructor; lia].
    + intros k. rewrite Ed. assert (Ei : <[i := Some e']> (ents (blocks d 2)) = <[i := Some e']> (<[i := None]> (ents (blocks d 2)))) by (rewrite list_insert_insert_eq; reflexivity).
      pose proof (wf_clear _ _ _ i e W Fe) as Wc. rewrite Ed in Wn. rewrite Ei in Wn |- *. rewrite look_set.
      * unfold move_file. cbn [e_name e']. destruct (decide (k = key newn)) as [Ek|Nk]; [rewrite !(bool_decide_true _ Ek), <- HF; reflexivity|].
        rewrite !(bool_decide_false _ Nk). rewrite (look_clear _ _ i e k (wf_unique _ _ _ W) (wf_length _ _ _ W) Fe), Ke.
        destruct (decide (k = key oldn)) as [Eo|No]; [rewrite !(bool_decide_true _ Eo); reflexivity|]. rewrite !(bool_decide_false _ No). apply eq_sym, (v_map _ _ _ V).
      * apply (wf_unique _ _ _ Wc).
      * apply (wf_length _ _ _ Wc).
      * lia.
      * apply (wf_unique _ _ _ Wn).
      * left. apply list_lookup_insert_eq. rewrite (wf_length _ _ _ W). lia.
  - intros Nk. rewrite <- (v_map _ _ _ V). unfold look. rewrite find_ent_absent; [reflexivity|]. intros j x Hx. destruct (Nat.eq_dec j i) as [->|Nj]; [|exact (Ho j x Hx Nj)].
    rewrite Fe in Hx. injection Hx as <-. congruence.
Qed.
End RedSea.
