(* ===== verification/RedSeaProps.v ===== *)
(** * RedSea volumes: properties, and the failures that are not handled *)

From S2P Require Import Prelude RedSea RedSeaVol RedSeaThms RedSeaNames.
#[local] Open Scope Z_scope.

(** ** Formatting *)

Lemma boot_record_ok sects uid : 0 <= sects < 2 ^ 63 -> boot sects (boot_record sects uid) /\ length (boot_record sects uid) = 512%nat /\ bytes_ok (boot_record sects uid).
Proof.
  intros H. split; [|split].
  - split; [reflexivity|]. split; [reflexivity|]. split; [reflexivity|]. split.
    + transitivity (le_value (le_bytes 8 sects)); [reflexivity | apply le_value_bytes; lia].
    + reflexivity.
  - unfold boot_record. rewrite !length_write_at. reflexivity.
  - unfold boot_record. apply bytes_ok_write_at; [|repeat constructor; lia]. apply bytes_ok_write_at; [|rewrite !bytes_ok_app; auto using le_bytes_ok].
    apply bytes_ok_write_at; [apply bytes_ok_zeros | repeat constructor; lia].
Qed.

Lemma no_ents : ents (zeros 512) = repeat None 8.
Proof. reflexivity. Qed.

Section RedSea.
Context (answer : nat -> reply) (honest : forall n, answer n <> Lost).

Lemma zero_blocks_ok sects n : forall i d, fits sects d -> 0 <= i -> i + Z.of_nat n <= sects ->
  exists ok d', zero_blocks answer n i d = Some (ok, d') /\ ready d' = ready d /\ capacity d' = capacity d /\
    (ok = true -> forall x, blocks d' x = if (i <=? x) && (x <? i + Z.of_nat n) then zeros 512 else blocks d x).
Proof.
  induction n as [|n IH]; intros i d Ft Hi Hn.
  - exists true, d. split; [reflexivity|]. split; [reflexivity|]. split; [reflexivity|]. intros _ x. destruct (Z.leb_spec i x), (Z.ltb_spec x (i + Z.of_nat 0)); try reflexivity; lia.
  - cbn [zero_blocks]. unfold bind at 1. destruct (blkwrite_fits answer honest sects d i (zeros 512) Ft ltac:(lia)) as (ok & d1 & -> & (E1 & R1 & C1)). destruct ok.
    + assert (Ft1 : fits sects d1) by (destruct Ft as [Fa Fb]; split; [exact Fa | rewrite R1, C1; exact Fb]).
      destruct (IH (i + 1) d1 Ft1) as (ok & d2 & E2 & R2 & C2 & W2); [lia | lia |]. exists ok, d2. split; [exact E2|]. split; [congruence|]. split; [congruence|].
      intros Hok x. rewrite (W2 Hok), E1. unfold bput. destruct (Z.leb_spec (i + 1) x), (Z.ltb_spec x (i + 1 + Z.of_nat n)), (Z.leb_spec i x), (Z.ltb_spec x (i + Z.of_nat (Datatypes.S n))), (Z.eqb_spec x i); cbn; try reflexivity; lia.
    + exists false, d1. split; [reflexivity|]. split; [exact R1|]. split; [exact C1 | discriminate].
Qed.

Lemma fmt_host_ok sects uid d : 4 <= sects -> fits sects d ->
  exists c d', rs_fmt_host answer sects uid d = Some (c, d') /\ (c = 0 -> vol sects d' (fun _ => None)).
Proof.
  intros S Ft. pose proof Ft as [Fa Fb]. unfold rs_fmt_host. destruct (Z.ltb_spec sects 4); [lia|]. destruct (Z.ltb_spec 128 sects); [lia|]. cbn [orb].
  assert (Step : forall d1 v d2, fits sects d1 -> moves d1 v d2 -> fits sects d2) by (intros d1 v d2 [Ga Gb] (_ & R & C); split; [exact Ga | rewrite R, C; exact Gb]).
  unfold bind at 1. destruct (blkwrite_fits answer honest sects d 0 (boot_record sects uid) Ft ltac:(lia)) as (ok & d1 & -> & M1).
  destruct ok; cbn [negb]; [|exists (-2), d1; split; [reflexivity | discriminate]]. pose proof (Step _ _ _ Ft M1) as F1.
  unfold bind at 1. destruct (blkwrite_fits answer honest sects d1 1 (write_at (zeros 512) 0 [7]) F1 ltac:(lia)) as (ok & d2 & -> & M2).
  destruct ok; cbn [negb]; [|exists (-3), d2; split; [reflexivity | discriminate]]. pose proof (Step _ _ _ F1 M2) as F2.
  unfold bind at 1. destruct (blkwrite_fits answer honest sects d2 2 (zeros 512) F2 ltac:(lia)) as (ok & d3 & -> & M3).
  destruct ok; cbn [negb]; [|exists (-4), d3; split; [reflexivity | discriminate]]. pose proof (Step _ _ _ F2 M3) as F3.
  unfold bind. destruct (zero_blocks_ok sects (Z.to_nat (sects - 3)) 3 d3 F3) as (ok & d4 & -> & R4 & C4 & W4); [lia | lia |].
  unfold ret. destruct ok; [|exists (-5), d4; split; [reflexivity | discriminate]]. exists 0, d4. split; [reflexivity|]. intros _. specialize (W4 eq_refl).
  destruct M1 as (E1 & R1 & C1), M2 as (E2 & R2 & C2), M3 as (E3 & R3 & C3). destruct (boot_record_ok sects uid ltac:(lia)) as (B1 & B2 & B3).
  assert (W : forall x, 0 <= x < sects -> blocks d4 x = if x =? 0 then boot_record sects uid else if x =? 1 then write_at (zeros 512) 0 [7] else zeros 512).
  { intros x Hx. rewrite W4, E3, E2, E1. unfold bput. destruct (Z.leb_spec 3 x), (Z.ltb_spec x (3 + Z.of_nat (Z.to_nat (sects - 3)))), (Z.eqb_spec x 2), (Z.eqb_spec x 1), (Z.eqb_spec x 0); cbn; try reflexivity; lia. }
  assert (W2 : blocks d4 2 = zeros 512) by (rewrite W by lia; reflexivity). assert (W0 : blocks d4 0 = boot_record sects uid) by (rewrite W by lia; reflexivity).
  constructor; [lia | rewrite R4, R3, R2, R1, C4, C3, C2, C1; exact Fb | | rewrite W0; exact B1 | | intros k; rewrite W2, no_ents; reflexivity].
  - intros x Hx. rewrite W by exact Hx. destruct (x =? 0); [split; assumption|]. destruct (x =? 1); (split; [reflexivity|]); [apply bytes_ok_write_at; [apply bytes_ok_zeros | repeat constructor; lia] | apply bytes_ok_zeros].
  - rewrite W2, no_ents. assert (N : forall i e, repeat (@None ent) 8 !! i = Some (Some e) -> False).
    { intros i e He. apply list_elem_of_lookup_2, list_elem_of_In, repeat_spec in He. discriminate. }
    constructor; [reflexivity | intros i e He | intros i j e e' He | intros i e He | intros i j e e' He | intros i e c He]; destruct (N _ _ He).
Qed.

(** ** Properties *)

(** C12: writing a file changes nothing but that file, whatever requests the device refuses and from
    whatever point on it refuses all of them: the volume stays sound, every other file keeps its
    contents, and a reported success means the file has the new contents.  After a failure a new
    file, or one that needed more blocks, is as before or as written; only a file that was
    overwritten in its own blocks may hold something else.  No access leaves a buffer. *)
Theorem rs_put_file_atomic sects d F name src : vol sects d F -> name <> [] -> Forall (fun c => c <> 0) name -> bytes_ok name -> bytes_ok src ->
  exists c d' F', rs_put_file answer name src d = Some (c, d') /\ vol sects d' F' /\
    (forall k, k <> key name -> F' k = F k) /\ (c = 0 -> F' (key name) = Some src) /\ undone F (key name) src F'.
Proof. exact (put_file_ok answer honest sects d F name src). Qed.

(** C13: loading returns exactly the contents the volume has under a name, up to case, and never a part
    of them; on a device that answers it fails only if there is no such file or no room for it. *)
Theorem rs_load_file_reads sects d F name cap : vol sects d F -> 2 <= cap < 2 ^ 64 ->
  exists c dst d', rs_load_file answer name cap d = Some ((c, dst), d') /\ vol sects d' F /\
    (c = 0 -> F (key name) = Some dst /\ Z.of_nat (length dst) < cap) /\
    (served answer d -> match F (key name) with Some x => if Z.of_nat (length x) <? cap then c = 0 else c = -6 | None => c = -6 end).
Proof.
  intros V H. destruct (load_file_ok answer sects d F name cap V H) as (c & dst & d' & E & M & H1 & H2). exists c, dst, d'. split; [exact E|].
  split; [exact (vol_same _ _ _ _ V M) | split; assumption].
Qed.

End RedSea.

(** ** Examples *)

Definition ram : dev := mk_dev (fun _ => zeros 512) false 0 0.
Definition all_served (n : nat) : reply := Served.
Definition A_ : list Z := [65].
Definition B_ : list Z := [66].

Lemma all_honest n : all_served n <> Lost.
Proof. discriminate. Qed.

Definition device {A} (r : option (A * dev)) : dev := match r with Some (_, d) => d | None => ram end.
Definition result {A} (r : option (A * dev)) : option A := match r with Some (a, _) => Some a | None => None end.

(** An empty volume of 16 blocks. *)
Definition demo_vol : dev := device (rs_fmt_host all_served 16 1 ram).

Lemma demo_vol_ok : vol 16 demo_vol (fun _ => None).
Proof.
  destruct (fmt_host_ok all_served all_honest 16 1 ram) as (c & d' & E & H); [lia | split; [lia | discriminate]|].
  unfold demo_vol. rewrite E. apply H. apply (f_equal result) in E. vm_compute in E. congruence.
Qed.

Lemma rs_put_file_atomic_witness : exists d' F', rs_put_file all_served A_ [1; 2; 3] demo_vol = Some (0, d') /\ vol 16 d' F' /\ F' [97] = Some [1; 2; 3].
Proof.
  destruct (rs_put_file_atomic all_served all_honest 16 demo_vol _ A_ [1; 2; 3] demo_vol_ok) as (c & d' & F' & E & V & _ & H & _);
    [discriminate | repeat constructor; discriminate | repeat constructor; lia | repeat constructor; lia|].
  assert (Hc : c = 0) by (apply (f_equal result) in E; vm_compute in E; congruence). rewrite Hc in E. exists d', F'. split; [exact E|]. split; [exact V | exact (H Hc)].
Defined.

Lemma rs_load_file_reads_witness : exists d', rs_load_file all_served A_ 100 demo_vol = Some ((-6, []), d') /\ vol 16 d' (fun _ => None).
Proof.
  destruct (rs_load_file_reads all_served 16 demo_vol _ A_ 100 demo_vol_ok ltac:(lia)) as (c & dst & d' & E & V & _).
  assert (Hc : (c, dst) = (-6, [])) by (apply (f_equal result) in E; vm_compute in E; congruence). rewrite Hc in E. exists d'. split; [exact E | exact V].
Defined.


(** ** Failures that are not handled

    Devices that answer every request but one. *)

Definition fails_at (n : nat) (r : reply) (k : nat) : reply := if (k =? n)%nat then r else Served.
Definition disk : dev := mk_dev (fun _ => zeros 512) true 128 0.
(** The volume of 16 blocks with the file [A], on a disk; what follows is request [22]. *)
Definition disk_vol (answer : nat -> reply) : dev := device (rs_put_file answer A_ [1; 2; 3] (device (rs_fmt_host answer 16 1 disk))).
Definition bits (d : dev) : list bool := map (mbit (blocks d 1)) [3; 4].

Example disk_vol_good : result (rs_load_file all_served A_ 100 (disk_vol all_served)) = Some (0, [1; 2; 3]) /\ clock (disk_vol all_served) = 22%nat.
Proof. vm_compute. split; reflexivity. Qed.

(** A delete whose last write, that of the directory, is refused leaves the file with free
    blocks; the next file is written over it. *)
Theorem del_refused_overwrites :
  let a := fails_at 26 Refused in let d := disk_vol a in
  let r1 := rs_del_file a A_ d in let r2 := rs_put_file a B_ [9; 9; 9] (device r1) in
  result r1 = Some (-6) /\ result r2 = Some 0 /\ result (rs_load_file a A_ 100 (device r2)) = Some (0, [9; 9; 9]).
Proof. vm_compute. repeat split; reflexivity. Qed.

(** A put whose directory write is reported as failed but took place rolls back the bitmap under
    the entry that is on the disk. *)
Theorem put_lost_reply_frees_live_run :
  let a := fails_at 21 Lost in let d := disk_vol a in
  result (rs_load_file a A_ 100 d) = Some (0, [1; 2; 3]) /\ bits d = [false; false] /\
  result (rs_load_file a A_ 100 (device (rs_put_file a B_ [9; 9; 9] d))) = Some (0, [9; 9; 9]).
Proof. vm_compute. repeat split; reflexivity. Qed.

(** The empty name is accepted: the put succeeds, no file is there, and its block stays in use. *)
Theorem put_empty_name_leaks :
  let r := rs_put_file all_served [] [9; 9; 9] (disk_vol all_served) in
  result r = Some 0 /\ result (rs_load_file all_served [] 100 (device r)) = Some (-6, []) /\ bits (device r) = [true; true] /\ bits (disk_vol all_served) = [true; false].
Proof. vm_compute. repeat split; reflexivity. Qed.

(** The range test of the RAM disk wraps: the last block number there is passes it. *)
Theorem ram_block_range_wraps : hc_builtin_blkread all_served (2 ^ 64 - 1) ram = None.
Proof. reflexivity. Qed.
