(* ===== verification/Zinstall.v ===== *)
(** * The disk installer ([zinstall] of [src/src/kernel_stub.c])

    An image of extents is written over a whole disk, which is then read back and compared, sector
    by sector.  The medium is a function from byte addresses to bytes.  Reading the image or the
    transfer buffer outside its bytes is a run without a result. *)

From S2P Require Import Prelude.
#[local] Open Scope Z_scope.
#[local] Open Scope sm_scope.

(** ** The driver and the console

    [served] says which requests are answered with success, [wrote] what the [n]-th request does
    to the medium when it is a write: of which sector, and of which bytes. *)
Inductive msg :=
  | NoImage | NoTarget | NoFlush | Confirm | BadWindow | Erasing | EraseFailed (sector : Z) | ErasedPct (p : Z)
  | EraseFlushFailed | WriteFailed (sector : Z) | WrotePct (p : Z) | WriteFlushFailed | Checking | ReadFailed (sector : Z)
  | CompareFailed (sector : Z) | NonzeroGap (sector : Z) | VerifiedPct (p : Z) | LastFlushFailed | Installed.

Record machine := mk_machine {
  ready : bool;              (* g_vb.ready *)
  pci : bool;                (* g_vb.xport == VB_XPORT_PCI *)
  flush_supported : bool;
  full_capacity : Z;
  capacity : Z;
  max_sectors : Z;           (* virtio_blk_max_sectors() *)
  media : Z -> Z;
  clock : nat;
  console : list msg }.

Abbreviation M := (SM machine).

Definition with_media (v : Z -> Z) (d : machine) : machine :=
  mk_machine (ready d) (pci d) (flush_supported d) (full_capacity d) (capacity d) (max_sectors d) v (clock d) (console d).
Definition tick (d : machine) : machine :=
  mk_machine (ready d) (pci d) (flush_supported d) (full_capacity d) (capacity d) (max_sectors d) (media d) (S (clock d)) (console d).
Definition con_puts (m : msg) : M unit := fun d =>
  Some (tt, mk_machine (ready d) (pci d) (flush_supported d) (full_capacity d) (capacity d) (max_sectors d) (media d) (clock d) (console d ++ [m])).
Definition of_option {A} (o : option A) : M A := match o with Some a => ret a | None => diverge end.

Definition ZEAL_DISK_SECTS : Z := 262144.
Definition VB_SECT : Z := 512.
(** [sizeof(g_install_io)] *)
Definition IO_BYTES : Z := 65536.

Definition virtio_blk_absolute_ready (d : machine) : bool := ready d && pci d.

(** What a request must satisfy to be sent. *)
Definition rw_allowed (d : machine) (sector count : Z) : bool :=
  negb (count =? 0) && (sector <? full_capacity d) && (count <=? full_capacity d - sector) && negb (capacity d =? 0) && (count <=? max_sectors d).

Section Driver.
Context (served : nat -> bool) (wrote : nat -> Z -> list Z -> (Z -> Z) -> Z -> Z).

Definition virtio_blk_read_abs_many (sector count : Z) : M (option (list Z)) := fun d =>
  if virtio_blk_absolute_ready d && rw_allowed d sector count then
    Some (if served (clock d) then Some (map (fun i => media d (sector * VB_SECT + Z.of_nat i)) (seq 0 (Z.to_nat (count * VB_SECT)))) else None, tick d)
  else Some (None, d).

Definition virtio_blk_write_abs_many (buf : list Z) (sector count : Z) : M bool := fun d =>
  if virtio_blk_absolute_ready d && rw_allowed d sector count then
    Some (served (clock d), tick (with_media (wrote (clock d) sector buf (media d)) d))
  else Some (false, d).

Definition virtio_blk_flush_disk : M bool := fun d =>
  if virtio_blk_absolute_ready d && flush_supported d then Some (served (clock d), tick d) else Some (false, d).

(** ** The image *)

Definition get (l : list Z) (i : Z) : option Z := if i <? 0 then None else l !! Z.to_nat i.
(** [n] bytes from [i] on. *)
Definition slice (l : list Z) (i n : Z) : option (list Z) :=
  if (0 <=? i) && (i + n <=? Z.of_nat (length l)) then Some (take (Z.to_nat n) (drop (Z.to_nat i) l)) else None.

Definition zinstall_u32 (l : list Z) (o : Z) : option Z :=
  match get l o, get l (o + 1), get l (o + 2), get l (o + 3) with
  | Some a, Some b, Some c, Some d => Some (Z.lor (Z.lor (Z.lor a (Z.shiftl b 8)) (Z.shiftl c 16)) (Z.shiftl d 24))
  | _, _, _, _ => None
  end.
Definition zinstall_u64 (l : list Z) (o : Z) : option Z :=
  match zinstall_u32 l o, zinstall_u32 l (o + 4) with Some a, Some b => Some (Z.lor a (Z.shiftl b 32)) | _, _ => None end.

Definition magic : list Z := bytes_of_string "ZINST001"%string.

Fixpoint valid_extents (n : nat) (i : Z) (image : list Z) (data_start data_bytes previous_end : Z) : option (option Z) :=
  match n with
  | O => Some (Some data_bytes)
  | S n' =>
      let size := Z.of_nat (length image) in
      match zinstall_u64 image (40 + i * 16), zinstall_u32 image (40 + i * 16 + 8), zinstall_u32 image (40 + i * 16 + 12) with
      | Some lba, Some cnt, Some pad =>
          if (cnt =? 0) || negb (pad =? 0) || (lba <? previous_end) || (ZEAL_DISK_SECTS <=? lba) || (u64 (ZEAL_DISK_SECTS - lba) <? cnt)
             || (u64 (size - data_start - data_bytes) / VB_SECT <? cnt) then Some None
          else valid_extents n' (i + 1) image data_start (u64 (data_bytes + cnt * VB_SECT)) (u64 (lba + cnt))
      | _, _, _ => None
      end
  end.

(** The number of extents and the place of their data. *)
Definition zinstall_image_valid (image : option (list Z)) : option (option (Z * Z)) :=
  match image with
  | None => Some None
  | Some image =>
      let size := Z.of_nat (length image) in
      if (size <? 40) || (64 * 1024 * 1024 <? size) then Some None
      else if negb (bool_decide (take 8 image = magic)) then Some None
      else
        match zinstall_u32 image 8, zinstall_u32 image 12, zinstall_u64 image 16, zinstall_u32 image 28, zinstall_u64 image 32, zinstall_u32 image 24 with
        | Some version, Some sect, Some sectors, Some entry, Some total, Some count =>
            if negb (version =? 1) || negb (sect =? VB_SECT) || negb (sectors =? ZEAL_DISK_SECTS) || negb (entry =? 16) || negb (total =? size) then Some None
            else if (size - 40) / 16 <? count then Some None
            else
              let data_start := 40 + count * 16 in
              if size <? data_start then Some None
              else
                match valid_extents (Z.to_nat count) 0 image data_start 0 0 with
                | None => None
                | Some None => Some None
                | Some (Some data_bytes) => if negb (data_start + data_bytes =? size) then Some None else Some (Some (count, data_start))
                end
        | _, _, _, _, _, _ => None
        end
  end.

(** ** Installing *)

(** The progress line: the next limit to report at. *)
Definition progress (m : Z -> msg) (sectors done next_report : Z) : M Z :=
  if next_report <=? done then con_puts (m (done * 100 / sectors));; ret (next_report + sectors / 8) else ret next_report.

Fixpoint erase_loop (fuel : nat) (max_batch sectors sector next_report : Z) : M bool :=
  match fuel with
  | O => diverge
  | S fuel' =>
      if sector <? sectors then
        let batch := Z.min (u32 (sectors - sector)) max_batch in
        let! src := of_option (slice (zeros (Z.to_nat IO_BYTES)) 0 (batch * VB_SECT)) in
        let! ok := virtio_blk_write_abs_many src sector batch in
        if negb ok then con_puts (EraseFailed sector);; ret false
        else
          let! next_report := progress ErasedPct sectors (sector + batch) next_report in
          erase_loop fuel' max_batch sectors (sector + batch) next_report
      else ret true
  end.

(** The batches of one extent; the number of sectors written so far. *)
Fixpoint extent_loop (fuel : nat) (image : list Z) (max_batch lba payload_off todo done written : Z) : M (option Z) :=
  match fuel with
  | O => diverge
  | S fuel' =>
      if todo =? 0 then ret (Some written)
      else
        let batch := if todo <? max_batch then todo else max_batch in
        let! src := of_option (slice image (payload_off + done * VB_SECT) (batch * VB_SECT)) in
        let! ok := virtio_blk_write_abs_many src (lba + done) batch in
        if negb ok then con_puts (WriteFailed (lba + done));; ret None
        else extent_loop fuel' image max_batch lba payload_off (todo - batch) (done + batch) (written + batch)
  end.

Fixpoint write_loop (n : nat) (e : Z) (image : list Z) (max_batch sectors payload_off written next_report : Z) : M bool :=
  match n with
  | O => ret true
  | S n' =>
      let! lba := of_option (zinstall_u64 image (40 + e * 16)) in
      let! todo := of_option (zinstall_u32 image (40 + e * 16 + 8)) in
      let! w := extent_loop (S (Z.to_nat todo)) image max_batch lba payload_off todo 0 written in
      match w with
      | None => ret false
      | Some written =>
          let! next_report := progress WrotePct sectors written next_report in
          write_loop n' (e + 1) image max_batch sectors (payload_off + todo * VB_SECT) written next_report
      end
  end.

(** ** Reading back *)

(** To the extent that ends behind [current]: its index and the place of its data. *)
Fixpoint advance (fuel : nat) (image : list Z) (count current index extent_data : Z) : option (Z * Z) :=
  match fuel with
  | O => Some (index, extent_data)
  | S fuel' =>
      if index <? count then
        match zinstall_u64 image (40 + index * 16), zinstall_u32 image (40 + index * 16 + 8) with
        | Some start, Some cnt => if current <? start + cnt then Some (index, extent_data) else advance fuel' image count current (index + 1) (extent_data + cnt * VB_SECT)
        | _, _ => None
        end
      else Some (index, extent_data)
  end.

Fixpoint same_bytes (n : nat) (a : list Z) (i : Z) (b : list Z) (j : Z) : option bool :=
  match n with
  | O => Some true
  | S n' => match get a i, get b j with Some x, Some y => if x =? y then same_bytes n' a (i + 1) b (j + 1) else Some false | _, _ => None end
  end.
Fixpoint zero_bytes (n : nat) (a : list Z) (i : Z) : option bool :=
  match n with
  | O => Some true
  | S n' => match get a i with Some x => if x =? 0 then zero_bytes n' a (i + 1) else Some false | None => None end
  end.

(** One sector of the read-back: [None] if it is as it should be, or what is reported. *)
Definition check_sector (image io : list Z) (n current count index extent_data : Z) : option (option msg) :=
  let gap := match zero_bytes (Z.to_nat VB_SECT) io (n * VB_SECT) with Some ok => Some (if ok : bool then None else Some (NonzeroGap current)) | None => None end in
  if index <? count then
    match zinstall_u64 image (40 + index * 16), zinstall_u32 image (40 + index * 16 + 8) with
    | Some start, Some cnt =>
        if (start <=? current) && (current <? start + cnt) then
          match same_bytes (Z.to_nat VB_SECT) io (n * VB_SECT) image (extent_data + (current - start) * VB_SECT) with
          | Some ok => Some (if ok : bool then None else Some (CompareFailed current))
          | None => None
          end
        else gap
    | _, _ => None
    end
  else gap.

Fixpoint check_batch (k : nat) (image io : list Z) (n sector count index extent_data : Z) : M (option (Z * Z)) :=
  match k with
  | O => ret (Some (index, extent_data))
  | S k' =>
      let! (index, extent_data) := of_option (advance (Z.to_nat count) image count (sector + n) index extent_data) in
      let! r := of_option (check_sector image io n (sector + n) count index extent_data) in
      match r with
      | Some m => con_puts m;; ret None
      | None => check_batch k' image io (n + 1) sector count index extent_data
      end
  end.

Fixpoint verify_loop (fuel : nat) (image : list Z) (max_batch sectors count sector index extent_data next_report : Z) : M bool :=
  match fuel with
  | O => diverge
  | S fuel' =>
      if sector <? sectors then
        let batch := Z.min (u32 (sectors - sector)) max_batch in
        let! r := virtio_blk_read_abs_many sector batch in
        match r with
        | None => con_puts (ReadFailed sector);; ret false
        | Some io =>
            let! c := check_batch (Z.to_nat batch) image io 0 sector count index extent_data in
            match c with
            | None => ret false
            | Some (index, extent_data) =>
                let! next_report := progress VerifiedPct sectors (sector + batch) next_report in
                verify_loop fuel' image max_batch sectors count (sector + batch) index extent_data next_report
            end
        end
      else ret true
  end.

(** ** The command *)

Definition zinstall_verify (image : list Z) (max_batch sectors count data_start : Z) : M unit :=
  con_puts Checking;;
  let! ok := verify_loop (S (Z.to_nat sectors)) image max_batch sectors count 0 0 data_start (sectors / 8) in
  if negb ok then ret tt
  else
    let! ok := virtio_blk_flush_disk in
    if negb ok then con_puts LastFlushFailed else con_puts Installed.

Definition zinstall_write (image : list Z) (max_batch sectors count data_start : Z) : M unit :=
  let! ok := write_loop (Z.to_nat count) 0 image max_batch sectors data_start 0 (sectors / 8) in
  if negb ok then ret tt
  else
    let! ok := virtio_blk_flush_disk in
    if negb ok then con_puts WriteFlushFailed else zinstall_verify image max_batch sectors count data_start.

Definition zinstall_erase (image : list Z) (sectors count data_start : Z) : M unit :=
  let! max_batch := gets max_sectors in
  if (max_batch =? 0) || (IO_BYTES <? max_batch * VB_SECT) then con_puts BadWindow
  else
    con_puts Erasing;;
    let! ok := erase_loop (S (Z.to_nat sectors)) max_batch sectors 0 (sectors / 8) in
    if negb ok then ret tt
    else
      let! ok := virtio_blk_flush_disk in
      if negb ok then con_puts EraseFlushFailed else zinstall_write image max_batch sectors count data_start.

Definition zinstall_handle (image : option (list Z)) (args : list Z) : M unit :=
  let! v := of_option (zinstall_image_valid image) in
  match v, image with
  | Some (count, data_start), Some img =>
      let! is_ready := gets virtio_blk_absolute_ready in
      let! full := gets full_capacity in
      if negb is_ready || negb (full =? ZEAL_DISK_SECTS) then con_puts NoTarget
      else
        let! ok := virtio_blk_flush_disk in
        if negb ok then con_puts NoFlush
        else if negb (bool_decide (args = bytes_of_string "ERASE"%string)) then con_puts Confirm
        else zinstall_erase img ZEAL_DISK_SECTS count data_start
  | _, _ => con_puts NoImage
  end.
End Driver.
