(* ===== verification/ZinstallThms.v ===== *)
(** * The disk installer: what a successful installation means

    A well-formed image, the bytes it asks for on the disk, and the handler against both. *)

From S2P Require Import Prelude Zinstall.
#[local] Open Scope Z_scope.

(** ** Reading the image *)

Definition u32_at (l : list Z) (o : Z) : Z := byte_at l o + byte_at l (o + 1) * 256 + byte_at l (o + 2) * 65536 + byte_at l (o + 3) * 16777216.
Definition u64_at (l : list Z) (o : Z) : Z := u32_at l o + 2 ^ 32 * u32_at l (o + 4).

Lemma get_ok l i : 0 <= i < Z.of_nat (length l) -> get l i = Some (byte_at l i).
Proof.
  intros H. unfold get. destruct (Z.ltb_spec i 0); [lia|]. rewrite byte_at_lookup by lia.
  destruct (lookup_lt_is_Some_2 l (Z.to_nat i) ltac:(lia)) as [x ->]. reflexivity.
Qed.

Lemma u32_at_range l o : bytes_ok l -> 0 <= u32_at l o < 2 ^ 32.
Proof.
  intros B. unfold u32_at. pose proof (byte_at_range l o B). pose proof (byte_at_range l (o + 1) B). pose proof (byte_at_range l (o + 2) B). pose proof (byte_at_range l (o + 3) B). lia.
Qed.

Lemma u32_ok l o : bytes_ok l -> 0 <= o -> o + 4 <= Z.of_nat (length l) -> zinstall_u32 l o = Some (u32_at l o).
Proof. intros B H1 H2. unfold zinstall_u32. rewrite !get_ok by lia. rewrite lor4_bytes by (apply byte_at_range; exact B). reflexivity. Qed.

Lemma u64_ok l o : bytes_ok l -> 0 <= o -> o + 8 <= Z.of_nat (length l) -> zinstall_u64 l o = Some (u64_at l o).
Proof.
  intros B H1 H2. unfold zinstall_u64. rewrite !u32_ok by (assumption || lia). f_equal. unfold u64_at. rewrite Z.mul_comm.
  apply (lor_shiftl_add _ _ 32); [lia | apply u32_at_range; exact B].
Qed.

Lemma u64_at_range l o : bytes_ok l -> 0 <= u64_at l o < 2 ^ 64.
Proof. intros B. unfold u64_at. pose proof (u32_at_range l o B). pose proof (u32_at_range l (o + 4) B). lia. Qed.

Lemma slice_ok l i n : 0 <= i -> 0 <= n -> i + n <= Z.of_nat (length l) -> slice l i n = Some (take (Z.to_nat n) (drop (Z.to_nat i) l)).
Proof. intros H1 H2 H3. unfold slice. destruct (Z.leb_spec 0 i), (Z.leb_spec (i + n) (Z.of_nat (length l))); cbn; try lia. reflexivity. Qed.

(** ** Well-formed images *)

Definition count_of (img : list Z) : Z := u32_at img 24.
Definition extent_at (img : list Z) (i : nat) : Z * Z := (u64_at img (40 + Z.of_nat i * 16), u32_at img (40 + Z.of_nat i * 16 + 8)).
(** The extents from the [i]-th on: first sector and number of sectors. *)
Definition extents (img : list Z) (i n : nat) : list (Z * Z) := map (extent_at img) (seq i n).
Definition all_extents (img : list Z) : list (Z * Z) := extents img 0 (Z.to_nat (count_of img)).
Definition data_start (img : list Z) : Z := 40 + count_of img * 16.

Fixpoint total (es : list (Z * Z)) : Z := match es with [] => 0 | (_, n) :: es' => n + total es' end.
(** Nonempty extents in ascending order, inside the disk. *)
Fixpoint ordered (prev : Z) (es : list (Z * Z)) : Prop :=
  match es with [] => True | (lba, n) :: es' => prev <= lba /\ 0 < n /\ lba + n <= ZEAL_DISK_SECTS /\ ordered (lba + n) es' end.
Definition pads_zero (img : list Z) (i n : nat) : Prop := forall k, (i <= k < i + n)%nat -> u32_at img (40 + Z.of_nat k * 16 + 12) = 0.

Record well_formed (img : list Z) : Prop := mk_wf {
  wf_size : 40 <= Z.of_nat (length img) <= 67108864;
  wf_magic : take 8 img = magic;
  wf_version : u32_at img 8 = 1;
  wf_sect : u32_at img 12 = VB_SECT;
  wf_sectors : u64_at img 16 = ZEAL_DISK_SECTS;
  wf_entry : u32_at img 28 = 16;
  wf_total : u64_at img 32 = Z.of_nat (length img);
  wf_pads : pads_zero img 0 (Z.to_nat (count_of img));
  wf_ordered : ordered 0 (all_extents img);
  wf_data : data_start img + VB_SECT * total (all_extents img) = Z.of_nat (length img) }.

(** What the image says of byte [a] of the disk: the bytes of an extent, and zero elsewhere. *)
Fixpoint expect (img : list Z) (es : list (Z * Z)) (off a : Z) : Z :=
  match es with
  | [] => 0
  | (lba, n) :: es' => if (VB_SECT * lba <=? a) && (a <? VB_SECT * (lba + n)) then byte_at img (off + (a - VB_SECT * lba)) else expect img es' (off + VB_SECT * n) a
  end.
Definition disk_byte (img : list Z) (a : Z) : Z := expect img (all_extents img) (data_start img) a.

Lemma extents_cons img i n : extents img i (S n) = extent_at img i :: extents img (S i) n.
Proof. reflexivity. Qed.

Lemma total_nonneg img i n : bytes_ok img -> 0 <= total (extents img i n).
Proof. intros B. revert i. induction n as [|n IH]; intros i; [cbn; lia|]. rewrite extents_cons. cbn [total extent_at]. pose proof (u32_at_range img (40 + Z.of_nat i * 16 + 8) B). specialize (IH (S i)). lia. Qed.

Lemma valid_extents_ok img ds : bytes_ok img -> Z.of_nat (length img) <= 67108864 -> forall n i db prev,
  40 + Z.of_nat (i + n) * 16 <= Z.of_nat (length img) -> 0 <= db -> 0 <= ds -> ds + db <= Z.of_nat (length img) -> 0 <= prev <= ZEAL_DISK_SECTS ->
  exists r, valid_extents n (Z.of_nat i) img ds db prev = Some r /\
    forall x, r = Some x <-> pads_zero img i n /\ ordered prev (extents img i n) /\ x = db + VB_SECT * total (extents img i n) /\ ds + x <= Z.of_nat (length img).
Proof.
  intros B Hs. assert (D : ZEAL_DISK_SECTS = 262144) by reflexivity. assert (V : VB_SECT = 512) by reflexivity.
  induction n as [|n IH]; intros i db prev Hn Hdb Hds Hle Hp.
  - exists (Some db). split; [reflexivity|]. intros x. unfold extents. cbn. split; [intros [= <-] | intros (_ & _ & -> & _); f_equal; lia].
    split; [intros k Hk; lia | split; [exact I | split; lia]].
  - cbn [valid_extents]. rewrite u64_ok, !u32_ok by (assumption || lia). rewrite extents_cons. cbn [ordered total extent_at].
    pose proof (u64_at_range img (40 + Z.of_nat i * 16) B) as Hl. pose proof (u32_at_range img (40 + Z.of_nat i * 16 + 8) B) as Hc. pose proof (total_nonneg img (S i) n B) as Ht.
    set (lba := u64_at img _) in *. set (cnt := u32_at img (_ + 8)) in *. set (pad := u32_at img _).
    assert (Hpad : pads_zero img i (S n) <-> pad = 0 /\ pads_zero img (S i) n).
    { split; [intros H; split; [apply H; lia | intros k Hk; apply H; lia]|]. intros [H0 H] k Hk. destruct (Nat.eq_dec k i) as [->|]; [exact H0 | apply H; lia]. }
    setoid_rewrite Hpad. destruct (_ || _) eqn:E.
    + exists None. split; [reflexivity|]. intros x. split; [discriminate|]. intros ((P0 & _) & (O1 & O2 & O3 & _) & Hx & Hle').
      apply Z.eqb_eq in P0. rewrite P0 in E. rewrite (u64_id (ZEAL_DISK_SECTS - lba)), (u64_id (Z.of_nat (length img) - ds - db)) in E by lia.
      assert (G : cnt <= (Z.of_nat (length img) - ds - db) / VB_SECT) by (apply Z.div_le_lower_bound; lia).
      repeat (apply orb_true_iff in E as [E|E]); zbool; try discriminate; lia.
    + repeat (apply orb_false_iff in E; destruct E as [E ?]). rewrite negb_false_iff in *. zbool.
      assert (L1 : lba < ZEAL_DISK_SECTS) by assumption. rewrite (u64_id (ZEAL_DISK_SECTS - lba)), (u64_id (Z.of_nat (length img) - ds - db)) in * by lia.
      assert (G : cnt * VB_SECT <= Z.of_nat (length img) - ds - db).
      { etransitivity; [apply Z.mul_le_mono_nonneg_r; [lia | eassumption]|]. rewrite Z.mul_comm. apply Z.mul_div_le. lia. }
      rewrite (u64_id (db + _)), (u64_id (lba + cnt)) by lia. replace (Z.of_nat i + 1) with (Z.of_nat (S i)) by lia.
      destruct (IH (S i) (db + cnt * VB_SECT) (lba + cnt)) as (r & -> & Hr); [lia | lia | lia | lia | lia |]. exists r. split; [reflexivity|].
      intros x. rewrite Hr. split; [intros (A1 & A2 & A3 & A4) | intros ((A0 & A1) & (_ & _ & _ & A2) & A3 & A4)].
      * split; [split; assumption|]. split; [split; [lia | split; [lia | split; [lia | exact A2]]] | split; [lia | lia]].
      * split; [exact A1 | split; [exact A2 | split; [lia | lia]]].
Qed.

Lemma image_valid_ok img : bytes_ok img ->
  exists r, zinstall_image_valid (Some img) = Some r /\ forall c s, r = Some (c, s) <-> well_formed img /\ c = count_of img /\ s = data_start img.
Proof.
  intros B. unfold zinstall_image_valid. assert (No : forall P : Prop, (well_formed img -> P) -> ~ P -> exists r, Some (@None (Z * Z)) = Some r /\ forall c s, r = Some (c, s) <-> well_formed img /\ c = count_of img /\ s = data_start img).
  { intros P H N. exists None. split; [reflexivity|]. intros c s. split; [discriminate | intros (W & _); destruct (N (H W))]. }
  destruct (_ || _) eqn:E1.
  { apply (No _ (wf_size img)). apply orb_true_iff in E1 as [E1|E1]; zbool; lia. }
  apply orb_false_iff in E1 as [E1 E2]. zbool. destruct (bool_decide_reflect (take 8 img = magic)) as [Em|Nm]; [|exact (No _ (wf_magic img) Nm)].
  cbn [negb]. rewrite !u32_ok, !u64_ok by (assumption || lia).
  destruct (_ || _) eqn:E3.
  { apply (No _ (fun W => conj (wf_version img W) (conj (wf_sect img W) (conj (wf_sectors img W) (conj (wf_entry img W) (wf_total img W)))))).
    intros (Q1 & Q2 & Q3 & Q4 & Q5). rewrite Q1, Q2, Q3, Q4, Q5, !Z.eqb_refl in E3. discriminate. }
  repeat (apply orb_false_iff in E3; destruct E3 as [E3 ?]). rewrite negb_false_iff in *. zbool. fold (count_of img).
  pose proof (u32_at_range img 24 B) as Hc. fold (count_of img) in Hc. pose proof (total_nonneg img 0 (Z.to_nat (count_of img)) B) as Ht. fold (all_extents img) in Ht.
  destruct (Z.ltb_spec ((Z.of_nat (length img) - 40) / 16) (count_of img)) as [E4|E4].
  { apply (No _ (wf_data img)). unfold data_start. change VB_SECT with 512. intros H5. assert (count_of img <= (Z.of_nat (length img) - 40) / 16) by (apply Z.div_le_lower_bound; lia). lia. }
  assert (Hd : data_start img <= Z.of_nat (length img)).
  { unfold data_start. pose proof (Z.mul_div_le (Z.of_nat (length img) - 40) 16). lia. }
  fold (data_start img). destruct (Z.ltb_spec (Z.of_nat (length img)) (data_start img)); [lia|].
  destruct (valid_extents_ok img (data_start img) B E2 (Z.to_nat (count_of img)) 0 0 0) as (r & Er & Hr); [unfold data_start in Hd; lia | lia | unfold data_start; lia | lia | split; [lia | discriminate]|].
  change (Z.of_nat 0) with 0 in Er. rewrite Er. fold (all_extents img) in Hr. destruct r as [x|].
  - destruct (proj1 (Hr x) eq_refl) as (P & O & -> & _). destruct (Z.eqb_spec (data_start img + (0 + VB_SECT * total (all_extents img))) (Z.of_nat (length img))) as [E|N]; cbn [negb].
    + exists (Some (count_of img, data_start img)). split; [reflexivity|]. intros c s. split; [intros [= <- <-] | intros (_ & -> & ->); reflexivity].
      split; [constructor; try assumption; lia | split; reflexivity].
    + apply (No _ (wf_data img)). lia.
  - apply (No _ (fun W => conj (wf_pads img W) (conj (wf_ordered img W) (wf_data img W)))). intros (Q1 & Q2 & Q3).
    enough (@None Z = Some (0 + VB_SECT * total (all_extents img))) by discriminate. apply Hr. split; [exact Q1 | split; [exact Q2 | lia]].
Qed.

(** ** The bytes of extents *)

Lemma expect_below img es off a p : ordered p es -> a < VB_SECT * p -> expect img es off a = 0.
Proof.
  revert off p. induction es as [|[lba n] es IH]; intros off p; [reflexivity|]. cbn [ordered expect]. intros (H1 & H2 & _ & H3) Ha. unfold VB_SECT in *.
  destruct (Z.leb_spec (512 * lba) a); [lia|]. cbn [andb]. apply (IH _ (lba + n) H3). lia.
Qed.

Lemma expect_app img es es' off a : expect img (es ++ es') off a =
  if forallb (fun '(lba, n) => negb ((VB_SECT * lba <=? a) && (a <? VB_SECT * (lba + n)))) es then expect img es' (off + VB_SECT * total es) a else expect img es off a.
Proof.
  revert off. induction es as [|[lba n] es IH]; intros off; cbn [app expect forallb total]; [f_equal; lia|].
  destruct (_ && _) eqn:E; cbn [negb andb]; [reflexivity|]. rewrite IH. replace (off + VB_SECT * n + VB_SECT * total es) with (off + VB_SECT * (n + total es)) by lia. reflexivity.
Qed.

(** ** Comparing *)

Lemma same_bytes_ok n : forall a i b j, 0 <= i -> i + Z.of_nat n <= Z.of_nat (length a) -> 0 <= j -> j + Z.of_nat n <= Z.of_nat (length b) ->
  exists ok, same_bytes n a i b j = Some ok /\ (ok = true <-> forall k, 0 <= k < Z.of_nat n -> byte_at a (i + k) = byte_at b (j + k)).
Proof.
  induction n as [|n IH]; intros a i b j Hi Ha Hj Hb.
  - exists true. split; [reflexivity|]. split; [intros _ k Hk; lia | reflexivity].
  - cbn [same_bytes]. rewrite !get_ok by lia. destruct (Z.eqb_spec (byte_at a i) (byte_at b j)) as [E|N].
    + destruct (IH a (i + 1) b (j + 1)) as (ok & -> & H); [lia | lia | lia | lia |]. exists ok. split; [reflexivity|]. rewrite H. split.
      * intros K k Hk. destruct (Z.eq_dec k 0) as [->|]; [rewrite !Z.add_0_r; exact E|]. specialize (K (k - 1) ltac:(lia)). replace (i + 1 + (k - 1)) with (i + k) in K by lia. replace (j + 1 + (k - 1)) with (j + k) in K by lia. exact K.
      * intros K k Hk. replace (i + 1 + k) with (i + (k + 1)) by lia. replace (j + 1 + k) with (j + (k + 1)) by lia. apply K. lia.
    + exists false. split; [reflexivity|]. split; [discriminate|]. intros K. specialize (K 0 ltac:(lia)). rewrite !Z.add_0_r in K. contradiction.
Qed.

Lemma zero_bytes_ok n : forall a i, 0 <= i -> i + Z.of_nat n <= Z.of_nat (length a) ->
  exists ok, zero_bytes n a i = Some ok /\ (ok = true <-> forall k, 0 <= k < Z.of_nat n -> byte_at a (i + k) = 0).
Proof.
  induction n as [|n IH]; intros a i Hi Ha.
  - exists true. split; [reflexivity|]. split; [intros _ k Hk; lia | reflexivity].
  - cbn [zero_bytes]. rewrite get_ok by lia. destruct (Z.eqb_spec (byte_at a i) 0) as [E|N].
    + destruct (IH a (i + 1)) as (ok & -> & H); [lia | lia |]. exists ok. split; [reflexivity|]. rewrite H. split.
      * intros K k Hk. destruct (Z.eq_dec k 0) as [->|]; [rewrite !Z.add_0_r; exact E|]. specialize (K (k - 1) ltac:(lia)). replace (i + 1 + (k - 1)) with (i + k) in K by lia. exact K.
      * intros K k Hk. replace (i + 1 + k) with (i + (k + 1)) by lia. apply K. lia.
    + exists false. split; [reflexivity|]. split; [discriminate|]. intros K. specialize (K 0 ltac:(lia)). rewrite !Z.add_0_r in K. contradiction.
Qed.

(** ** Reading back *)

Section Image.
Context (img : list Z) (B : bytes_ok img) (W : well_formed img).
#[local] Abbreviation cnt := (Z.to_nat (count_of img)).

(** The extents from [i] on, with their data from [ed] on, say what the sectors from [cur] on hold. *)
Record at_extent (i : nat) (ed cur : Z) : Prop := mk_at {
  ae_index : (i <= cnt)%nat;
  ae_data : ed + VB_SECT * total (extents img i (cnt - i)) = Z.of_nat (length img);
  ae_pos : 0 <= ed;
  ae_ordered : ordered 0 (extents img i (cnt - i));
  ae_expect : forall a, VB_SECT * cur <= a -> disk_byte img a = expect img (extents img i (cnt - i)) ed a }.

Lemma start_extent : at_extent 0 (data_start img) 0.
Proof using B W.
  pose proof (u32_at_range img 24 B) as Hc. fold (count_of img) in Hc.
  constructor; rewrite ?Nat.sub_0_r; [lia | exact (wf_data img W) | unfold data_start; lia | exact (wf_ordered img W) | reflexivity].
Qed.

Lemma header_room : 40 + count_of img * 16 <= Z.of_nat (length img).
Proof using B W. pose proof (wf_data img W) as H. pose proof (total_nonneg img 0 cnt B) as Ht. unfold all_extents, data_start, VB_SECT in H. lia. Qed.

Lemma extent_read i : (i < cnt)%nat -> zinstall_u64 img (40 + Z.of_nat i * 16) = Some (fst (extent_at img i)) /\ zinstall_u32 img (40 + Z.of_nat i * 16 + 8) = Some (snd (extent_at img i)).
Proof using B W. intros Hi. pose proof header_room. split; [apply u64_ok | apply u32_ok]; (exact B || lia). Qed.

Lemma extents_step i : (i < cnt)%nat -> extents img i (cnt - i) = extent_at img i :: extents img (S i) (cnt - S i).
Proof using. intros Hi. replace (cnt - i)%nat with (S (cnt - S i)) by lia. apply extents_cons. Qed.

Lemma advance_ok cur : forall fuel i ed, at_extent i ed cur -> (cnt - i <= fuel)%nat ->
  exists i' ed', advance fuel img (count_of img) cur (Z.of_nat i) ed = Some (Z.of_nat i', ed') /\ at_extent i' ed' cur /\ ((i' < cnt)%nat -> cur < fst (extent_at img i') + snd (extent_at img i')).
Proof using B W.
  induction fuel as [|fuel IH]; intros i ed A Hf.
  - exists i, ed. split; [reflexivity|]. split; [exact A | destruct A; lia].
  - cbn [advance]. destruct (Z.ltb_spec (Z.of_nat i) (count_of img)) as [Hi|Hi]; [|exists i, ed; split; [reflexivity | split; [exact A | lia]]].
    destruct (extent_read i) as [-> ->]; [lia|]. destruct (Z.ltb_spec cur (fst (extent_at img i) + snd (extent_at img i))) as [Hl|Hl].
    + exists i, ed. split; [reflexivity|]. split; [exact A | intros _; exact Hl].
    + replace (Z.of_nat i + 1) with (Z.of_nat (S i)) by lia. apply IH; [|lia]. destruct A as [A1 A2 A3 A4 A5]. rewrite extents_step in * by lia.
      destruct (extent_at img i) as [lba n]. cbn [fst snd total ordered expect] in *. destruct A4 as (O1 & O2 & O3 & O4).
      constructor; [lia | lia | unfold VB_SECT; lia | |].
      * destruct (extents img (S i) _) as [|[l2 n2] es]; [exact I|]. cbn [ordered] in *. destruct O4 as (? & ? & ? & ?). split; [lia|]. auto.
      * intros a Ha. rewrite (A5 a Ha). unfold VB_SECT in *. destruct (Z.ltb_spec a (512 * (lba + n))); [lia|]. rewrite andb_false_r. f_equal. lia.
Qed.

(** A sector of the transfer buffer holds what the image says. *)
Definition holds (io : list Z) (n cur : Z) : Prop := forall b, 0 <= b < VB_SECT -> byte_at io (n * VB_SECT + b) = disk_byte img (VB_SECT * cur + b).

Lemma check_sector_ok io n cur i ed : at_extent i ed cur -> ((i < cnt)%nat -> cur < fst (extent_at img i) + snd (extent_at img i)) -> 0 <= cur ->
  0 <= n -> (n + 1) * VB_SECT <= Z.of_nat (length io) ->
  exists r, check_sector img io n cur (count_of img) (Z.of_nat i) ed = Some r /\ r <> Some Installed /\ (r = None <-> holds io n cur).
Proof using B W.
  intros [A1 A2 A3 A4 A5] Hl Hc Hn Hio. unfold check_sector.
  assert (Gap : (forall b, 0 <= b < VB_SECT -> disk_byte img (VB_SECT * cur + b) = 0) -> exists r,
    match zero_bytes (Z.to_nat VB_SECT) io (n * VB_SECT) with Some ok => Some (if ok : bool then None else Some (NonzeroGap cur)) | None => None end = Some r /\ r <> Some Installed /\ (r = None <-> holds io n cur)).
  { intros Hz. unfold VB_SECT in *. destruct (zero_bytes_ok (Z.to_nat 512) io (n * 512)) as (ok & -> & H); [lia | lia |].
    exists (if ok then None else Some (NonzeroGap cur)). split; [reflexivity|]. split; [destruct ok; discriminate|]. unfold holds, VB_SECT. destruct ok.
    - split; [|reflexivity]. intros _ b Hb. rewrite (proj1 H eq_refl) by lia. symmetry. apply Hz. exact Hb.
    - split; [discriminate|]. intros K. enough (false = true) by discriminate. apply H. intros k Hk. rewrite K by lia. apply Hz. lia. }
  destruct (Z.ltb_spec (Z.of_nat i) (count_of img)) as [Hi|Hi].
  - destruct (extent_read i) as [-> ->]; [lia|]. specialize (Hl ltac:(lia)). rewrite extents_step in * by lia. destruct (extent_at img i) as [lba m] eqn:Ex. cbn [fst snd total ordered expect] in *.
    destruct A4 as (O1 & O2 & O3 & O4). pose proof (total_nonneg img (S i) (cnt - S i) B) as Ht. destruct (Z.leb_spec lba cur) as [Hs|Hs]; cbn [andb].
    + destruct (Z.ltb_spec cur (lba + m)); [|lia]. cbn [andb]. unfold VB_SECT in *.
      destruct (same_bytes_ok (Z.to_nat 512) io (n * 512) img (ed + (cur - lba) * 512)) as (ok & -> & H0); [lia | lia | lia | lia |].
      exists (if ok then None else Some (CompareFailed cur)). split; [reflexivity|]. split; [destruct ok; discriminate|].
      assert (X : forall b, 0 <= b < 512 -> disk_byte img (512 * cur + b) = byte_at img (ed + (cur - lba) * 512 + b)).
      { intros b Hb. rewrite A5 by lia. destruct (Z.leb_spec (512 * lba) (512 * cur + b)), (Z.ltb_spec (512 * cur + b) (512 * (lba + m))); cbn [andb]; try lia. f_equal. lia. }
      unfold holds, VB_SECT. destruct ok.
      * split; [|reflexivity]. intros _ b Hb. rewrite X by exact Hb. apply H0; [reflexivity | lia].
      * split; [discriminate|]. intros K. enough (false = true) by discriminate. apply H0. intros k Hk. rewrite K, X by lia. reflexivity.
    + apply Gap. intros b Hb. rewrite A5 by (unfold VB_SECT in *; lia). apply (expect_below img ((lba, m) :: extents img (S i) (cnt - S i)) ed _ lba); [|unfold VB_SECT in *; lia].
      cbn [ordered]. split; [lia | auto].
  - apply Gap. intros b Hb. rewrite A5 by (unfold VB_SECT in *; lia). replace (cnt - i)%nat with 0%nat by lia. reflexivity.
Qed.
End Image.

(** ** Requests *)

Definition driver (d : machine) : bool * bool * bool * Z * Z * Z := (ready d, pci d, flush_supported d, full_capacity d, capacity d, max_sectors d).

(** A run that changes the medium to [v] and the console by lines other than the last one. *)
Definition goes (d : machine) (v : Z -> Z) (d' : machine) : Prop :=
  media d' = v /\ driver d' = driver d /\ exists l, console d' = console d ++ l /\ ~ In Installed l.

Lemma goes_trans d v d1 w d2 : goes d v d1 -> goes d1 w d2 -> goes d w d2.
Proof.
  intros (_ & D1 & l1 & C1 & N1) (M2 & D2 & l2 & C2 & N2). split; [exact M2|]. split; [congruence|]. exists (l1 ++ l2).
  rewrite C2, C1, app_assoc. split; [reflexivity|]. rewrite in_app_iff. tauto.
Qed.

Lemma goes_nil d d' : media d' = media d -> driver d' = driver d -> console d' = console d -> goes d (media d') d'.
Proof. intros M D C. split; [reflexivity|]. split; [exact D|]. exists []. rewrite app_nil_r. split; [exact C | intros []]. Qed.

Lemma say_ok m d : m <> Installed -> exists d', con_puts m d = Some (tt, d') /\ goes d (media d) d'.
Proof. intros N. eexists. split; [reflexivity|]. split; [reflexivity|]. split; [reflexivity|]. exists [m]. split; [reflexivity|]. intros [H|[]]. contradiction. Qed.

Lemma progress_ok (m : Z -> msg) sectors done next d : (forall z, m z <> Installed) ->
  exists next' d', progress m sectors done next d = Some (next', d') /\ goes d (media d) d'.
Proof.
  intros N. unfold progress. destruct (next <=? done).
  - unfold bind. destruct (say_ok (m (done * 100 / sectors)) d (N _)) as (d' & -> & G). eexists _, d'. split; [reflexivity | exact G].
  - exists next, d. split; [reflexivity | apply goes_nil; reflexivity].
Qed.

Section Run.
Context (served : nat -> bool) (wrote : nat -> Z -> list Z -> (Z -> Z) -> Z -> Z).

(** The bytes of [buf] at sector [s]. *)
Definition put_bytes (s : Z) (buf : list Z) (v : Z -> Z) (a : Z) : Z :=
  if (VB_SECT * s <=? a) && (a <? VB_SECT * s + Z.of_nat (length buf)) then byte_at buf (a - VB_SECT * s) else v a.
(** A device that does every request it is sent, and a driver that sends them. *)
Definition obedient : Prop := forall n, served n = true /\ forall s buf v a, wrote n s buf v a = put_bytes s buf v a.
Definition able (d : machine) : Prop := ready d = true /\ pci d = true /\ flush_supported d = true /\ full_capacity d = ZEAL_DISK_SECTS /\ capacity d <> 0.

Lemma able_same d d' : driver d' = driver d -> able d -> able d'.
Proof using. intros [= R P F C Q _] (A1 & A2 & A3 & A4 & A5). repeat split; congruence. Qed.

Lemma able_rw d s c : able d -> 0 <= s -> 0 < c <= max_sectors d -> s + c <= ZEAL_DISK_SECTS -> virtio_blk_absolute_ready d && rw_allowed d s c = true.
Proof using.
  intros (A1 & A2 & _ & A4 & A5) Hs Hc Hle. unfold virtio_blk_absolute_ready, rw_allowed. rewrite A1, A2, A4.
  destruct (Z.eqb_spec c 0), (Z.ltb_spec s ZEAL_DISK_SECTS), (Z.leb_spec c (ZEAL_DISK_SECTS - s)), (Z.eqb_spec (capacity d) 0), (Z.leb_spec c (max_sectors d)); cbn; try lia; reflexivity.
Qed.

Lemma write_ok d buf s c : exists ok d', virtio_blk_write_abs_many served wrote buf s c d = Some (ok, d') /\ goes d (media d') d' /\
  (obedient -> able d -> 0 <= s -> 0 < c <= max_sectors d -> s + c <= ZEAL_DISK_SECTS -> ok = true /\ forall a, media d' a = put_bytes s buf (media d) a).
Proof using.
  unfold virtio_blk_write_abs_many. destruct (_ && _) eqn:E.
  - eexists _, _. split; [reflexivity|]. split; [split; [reflexivity|]; split; [reflexivity|]; exists []; rewrite app_nil_r; split; [reflexivity | intros []]|].
    intros O A H1 H2 H3. destruct (O (clock d)) as [-> Ow]. split; [reflexivity | intros a; apply Ow].
  - exists false, d. split; [reflexivity|]. split; [apply goes_nil; reflexivity|]. intros O A H1 H2 H3. rewrite able_rw in E by assumption. discriminate.
Qed.

Lemma flush_ok d : exists ok d', virtio_blk_flush_disk served d = Some (ok, d') /\ goes d (media d) d' /\ (obedient -> able d -> ok = true).
Proof using.
  unfold virtio_blk_flush_disk, virtio_blk_absolute_ready. destruct (_ && _) eqn:E.
  - eexists _, _. split; [reflexivity|]. split; [apply (goes_nil d (tick d)); reflexivity|]. intros O _. apply (O (clock d)).
  - exists false, d. split; [reflexivity|]. split; [apply goes_nil; reflexivity|]. intros _ (A1 & A2 & A3 & _). rewrite A1, A2, A3 in E. discriminate.
Qed.

Lemma read_ok d s c : 0 <= s -> exists r d', virtio_blk_read_abs_many served s c d = Some (r, d') /\ goes d (media d) d' /\
  (forall io, r = Some io -> 0 <= c -> Z.of_nat (length io) = c * VB_SECT /\ forall i, 0 <= i < c * VB_SECT -> byte_at io i = media d (VB_SECT * s + i)) /\
  (obedient -> able d -> 0 < c <= max_sectors d -> s + c <= ZEAL_DISK_SECTS -> r <> None).
Proof using.
  intros Hs. unfold virtio_blk_read_abs_many. destruct (_ && _) eqn:E.
  - eexists _, _. split; [reflexivity|]. split; [apply (goes_nil d (tick d)); reflexivity|]. split.
    + intros io. destruct (served (clock d)); [|discriminate]. intros [= <-] Hc. unfold VB_SECT in *. split; [rewrite length_map, length_seq; lia|].
      intros i Hi. rewrite byte_at_lookup by lia. rewrite list_lookup_fmap, lookup_seq_lt by lia. cbn. f_equal. lia.
    + intros O _ _ _. destruct (O (clock d)) as [-> _]. discriminate.
  - exists None, d. split; [reflexivity|]. split; [apply goes_nil; reflexivity|]. split; [discriminate|]. intros _ A H1 H2. rewrite able_rw in E by assumption. discriminate.
Qed.

(** ** Erasing *)

Lemma erase_ok max : 0 < max -> max * VB_SECT <= IO_BYTES -> forall fuel s next d, max_sectors d = max -> 0 <= s <= ZEAL_DISK_SECTS -> ZEAL_DISK_SECTS - s < Z.of_nat fuel ->
  exists ok d', erase_loop served wrote fuel max ZEAL_DISK_SECTS s next d = Some (ok, d') /\ goes d (media d') d' /\
    (obedient -> able d -> (forall a, 0 <= a < VB_SECT * s -> media d a = 0) -> ok = true /\ forall a, 0 <= a < VB_SECT * ZEAL_DISK_SECTS -> media d' a = 0).
Proof using.
  assert (D : ZEAL_DISK_SECTS = 262144) by reflexivity. assert (V : VB_SECT = 512) by reflexivity. assert (I : IO_BYTES = 65536) by reflexivity.
  intros Hm Hio. induction fuel as [|fuel IH]; intros s next d Hd Hs Hf; [lia|]. cbn [erase_loop]. destruct (Z.ltb_spec s ZEAL_DISK_SECTS) as [Hlt|Hge].
  2: { exists true, d. split; [reflexivity|]. split; [apply goes_nil; reflexivity|]. intros _ _ H. split; [reflexivity|]. intros a Ha. apply H. lia. }
  rewrite u32_id by lia. set (b := Z.min (ZEAL_DISK_SECTS - s) max). assert (Hb : 0 < b <= max /\ s + b <= ZEAL_DISK_SECTS) by lia. clearbody b.
  rewrite slice_ok; [|lia | lia | rewrite length_zeros, Z2Nat.id; lia]. cbn [of_option]. unfold bind at 1, ret at 1. change (Z.to_nat 0) with 0%nat. rewrite drop_0.
  set (buf := take _ _). assert (Lb : Z.of_nat (length buf) = b * VB_SECT) by (subst buf; rewrite length_take, length_zeros; lia).
  assert (Zb : forall i, byte_at buf i = 0).
  { intros i. unfold byte_at. destruct (nth_in_or_default (Z.to_nat i) buf 0) as [H|H]; [|exact H]. subst buf. apply list_elem_of_In, elem_of_take in H as (k & H & _). apply list_elem_of_lookup_2, list_elem_of_In, repeat_spec in H. exact H. }
  clearbody buf. unfold bind at 1. destruct (write_ok d buf s b) as (ok & d1 & -> & G1 & W1). pose proof G1 as (_ & D1 & _). destruct ok; cbn [negb].
  - unfold bind at 1. destruct (progress_ok ErasedPct ZEAL_DISK_SECTS (s + b) next d1 ltac:(discriminate)) as (next' & d2 & -> & G2). pose proof G2 as (M2 & D2 & _).
    destruct (IH (s + b) next' d2) as (ok & d3 & E3 & G3 & H3); [injection D1; injection D2; congruence | lia | lia |].
    exists ok, d3. split; [exact E3|]. split; [exact (goes_trans _ _ _ _ _ (goes_trans _ _ _ _ _ G1 G2) G3)|]. intros O A H.
    apply H3; [exact O | exact (able_same _ _ (eq_trans D2 D1) A)|]. intros a Ha. rewrite M2. destruct (W1 O A ltac:(lia) ltac:(lia) ltac:(lia)) as [_ ->]. unfold put_bytes.
    destruct (Z.leb_spec (VB_SECT * s) a), (Z.ltb_spec a (VB_SECT * s + Z.of_nat (length buf))); cbn [andb]; [apply Zb | lia | apply H; lia | apply H; lia].
  - unfold bind at 1. destruct (say_ok (EraseFailed s) d1 ltac:(discriminate)) as (d2 & -> & G2). pose proof G2 as (M2 & _).
    exists false, d2. split; [reflexivity|]. split; [rewrite M2; exact (goes_trans _ _ _ _ _ G1 G2)|]. intros O A _. destruct (W1 O A ltac:(lia) ltac:(lia) ltac:(lia)). discriminate.
Qed.

(** ** Writing the extents *)

Lemma expect_none es : forall off a img, forallb (fun '(lba, n) => negb ((VB_SECT * lba <=? a) && (a <? VB_SECT * (lba + n)))) es = true -> expect img es off a = 0.
Proof using. induction es as [|[lba n] es IH]; intros off a img; [reflexivity|]. cbn [forallb expect]. destruct ((VB_SECT * lba <=? a) && _); cbn [negb andb]; [discriminate | apply IH]. Qed.

Lemma ordered_before es lba n rest : forall p, ordered p (es ++ (lba, n) :: rest) -> p <= lba /\ Forall (fun e => fst e + snd e <= lba) es.
Proof using.
  induction es as [|[l m] es IH]; intros p; cbn [app ordered]; [intros (H & _); split; [exact H | constructor]|].
  intros (H1 & H2 & _ & H3). apply IH in H3 as [H3 H4]. split; [lia | constructor; [exact H3 | exact H4]].
Qed.

(** Writing the next bytes of the last extent. *)
Lemma put_extends img es lba done b off len a : Forall (fun e => fst e + snd e <= lba) es -> 0 <= done -> 0 <= b -> 0 <= off ->
  len = b * VB_SECT -> off + VB_SECT * total es + (done + b) * VB_SECT <= Z.of_nat (length img) -> 0 <= off + VB_SECT * total es ->
  put_bytes (lba + done) (take (Z.to_nat len) (drop (Z.to_nat (off + VB_SECT * total es + done * VB_SECT)) img)) (expect img (es ++ [(lba, done)]) off) a = expect img (es ++ [(lba, done + b)]) off a.
Proof using.
  intros F Hd Hb Ho -> Hl Hp. unfold put_bytes. unfold VB_SECT in *. rewrite length_take, length_drop. rewrite !expect_app. unfold VB_SECT. destruct (forallb _ es) eqn:Q.
  - cbn [expect]. destruct (Z.leb_spec (512 * (lba + done)) a) as [Hx|Hx]; cbn [andb].
    + match goal with |- context [a <? ?x] => destruct (Z.ltb_spec a x) as [Hy|Hy] end.
      * unfold VB_SECT. destruct (Z.leb_spec (512 * lba) a), (Z.ltb_spec a (512 * (lba + (done + b)))); cbn [andb]; try lia.
        rewrite !byte_at_lookup by lia. rewrite lookup_take_lt, lookup_drop by lia. do 2 f_equal. lia.
      * unfold VB_SECT. destruct (Z.ltb_spec a (512 * (lba + done))), (Z.ltb_spec a (512 * (lba + (done + b)))); rewrite ?andb_false_r; lia.
    + unfold VB_SECT. destruct (Z.leb_spec (512 * lba) a), (Z.ltb_spec a (512 * (lba + done))), (Z.ltb_spec a (512 * (lba + (done + b)))); cbn [andb]; try lia; reflexivity.
  - assert (a < 512 * lba).
    { apply not_true_iff_false in Q. destruct (Z.lt_ge_cases a (512 * lba)) as [?|Hge]; [assumption|]. destruct Q. apply forallb_forall. intros [l n] Hin.
      rewrite List.Forall_forall in F. specialize (F _ Hin). cbn in F. destruct (Z.ltb_spec a (512 * (l + n))); [lia | rewrite andb_false_r; reflexivity]. }
    destruct (Z.leb_spec (512 * (lba + done)) a); [lia | reflexivity].
Qed.

Section Writing.
Context (img : list Z) (B : bytes_ok img) (W : well_formed img) (max : Z) (Hmax : 0 < max).
#[local] Abbreviation cnt := (Z.to_nat (count_of img)).

(** The disk holds the extents [es] and zeros. *)
Definition has_extents (es : list (Z * Z)) (v : Z -> Z) : Prop := forall a, 0 <= a < VB_SECT * ZEAL_DISK_SECTS -> v a = expect img es (data_start img) a.

Lemma has_none es lba v : has_extents es v -> has_extents (es ++ [(lba, 0)]) v.
Proof using.
  intros H a Ha. rewrite H by exact Ha. rewrite expect_app. destruct (forallb _ _) eqn:Q; [|reflexivity]. rewrite (expect_none _ _ _ _ Q). cbn [expect].
  destruct (Z.leb_spec (VB_SECT * lba) a), (Z.ltb_spec a (VB_SECT * (lba + 0))); cbn [andb]; try reflexivity. lia.
Qed.

Lemma extent_ok es lba n : Forall (fun e => fst e + snd e <= lba) es -> 0 <= lba -> lba + n <= ZEAL_DISK_SECTS -> 0 <= total es ->
  data_start img + VB_SECT * total es + n * VB_SECT <= Z.of_nat (length img) ->
  forall fuel todo done w d, todo + done = n -> 0 <= todo -> 0 <= done -> todo < Z.of_nat fuel -> max_sectors d = max ->
  exists r d', extent_loop served wrote fuel img max lba (data_start img + VB_SECT * total es) todo done w d = Some (r, d') /\ goes d (media d') d' /\
    (obedient -> able d -> has_extents (es ++ [(lba, done)]) (media d) -> r <> None /\ has_extents (es ++ [(lba, n)]) (media d')).
Proof using B W Hmax.
  intros F Hlba Hle Ht Hlen. pose proof (u32_at_range img 24 B) as Hc. assert (Hds : 0 <= data_start img) by (unfold data_start, count_of; lia).
  assert (V : VB_SECT = 512) by reflexivity.
  induction fuel as [|fuel IH]; intros todo done w d E H0 H1 Hf Hd; [lia|]. cbn [extent_loop]. destruct (Z.eqb_spec todo 0) as [->|N].
  { exists (Some w), d. split; [reflexivity|]. split; [apply goes_nil; reflexivity|]. intros _ _ H. split; [discriminate|]. replace n with done by lia. exact H. }
  set (b := if todo <? max then todo else max). assert (Hb : 0 < b <= max /\ b <= todo) by (unfold b; destruct (Z.ltb_spec todo max); lia). clearbody b.
  rewrite slice_ok by lia. cbn [of_option]. unfold bind at 1, ret at 1. set (buf := take _ _). unfold bind at 1.
  destruct (write_ok d buf (lba + done) b) as (ok & d1 & -> & G1 & W1). pose proof G1 as (_ & D1 & _). destruct ok; cbn [negb].
  - destruct (IH (todo - b) (done + b) (w + b) d1) as (r & d2 & -> & G2 & H2); [lia | lia | lia | lia | injection D1; congruence|]. exists r, d2. split; [reflexivity|].
    split; [exact (goes_trans _ _ _ _ _ G1 G2)|]. intros O A H. apply H2; [exact O | exact (able_same _ _ D1 A)|]. intros a Ha.
    destruct (W1 O A ltac:(lia) ltac:(lia) ltac:(lia)) as [_ ->]. rewrite <- (put_extends img es lba done b (data_start img) (b * VB_SECT) a) by (assumption || lia).
    fold buf. unfold put_bytes. destruct (_ && _); [reflexivity | apply H; exact Ha].
  - unfold bind at 1. destruct (say_ok (WriteFailed (lba + done)) d1 ltac:(discriminate)) as (d2 & -> & G2). pose proof G2 as (M2 & _).
    exists None, d2. split; [reflexivity|]. split; [rewrite M2; exact (goes_trans _ _ _ _ _ G1 G2)|]. intros O A _. destruct (W1 O A ltac:(lia) ltac:(lia) ltac:(lia)). discriminate.
Qed.

Lemma extents_snoc i : extents img 0 (S i) = extents img 0 i ++ [extent_at img i].
Proof using. unfold extents. rewrite seq_S, map_app. reflexivity. Qed.
Lemma total_app es es' : total (es ++ es') = total es + total es'.
Proof using. induction es as [|[l n] es IH]; cbn [app total]; [lia | rewrite IH; lia]. Qed.
Lemma extents_split i : (i < cnt)%nat -> all_extents img = extents img 0 i ++ extent_at img i :: extents img (S i) (cnt - S i).
Proof using.
  intros Hi. unfold all_extents, extents. replace cnt with (i + (S (cnt - S i)))%nat at 1 by lia. rewrite seq_app, map_app. reflexivity.
Qed.

Lemma write_loop_ok : forall n i w next d, (i + n = cnt)%nat -> max_sectors d = max ->
  exists ok d', write_loop served wrote n (Z.of_nat i) img max ZEAL_DISK_SECTS (data_start img + VB_SECT * total (extents img 0 i)) w next d = Some (ok, d') /\ goes d (media d') d' /\
    (obedient -> able d -> has_extents (extents img 0 i) (media d) -> ok = true /\ has_extents (all_extents img) (media d')).
Proof using B W Hmax.
  induction n as [|n IH]; intros i w next d Hi Hd.
  - exists true, d. split; [reflexivity|]. split; [apply goes_nil; reflexivity|]. intros _ _ H. split; [reflexivity|]. unfold all_extents. rewrite <- Hi, Nat.add_0_r. exact H.
  - cbn [write_loop]. destruct (extent_read img B W i ltac:(lia)) as [-> ->]. cbn [of_option]. unfold bind at 1, ret at 1. unfold bind at 1, ret at 1.
    pose proof (wf_ordered img W) as Or. pose proof (wf_data img W) as Da. rewrite (extents_split i) in Or, Da by lia. rewrite total_app in Da.
    pose proof (extents_snoc i) as Sn. pose proof (total_nonneg img 0 i B) as T0. pose proof (total_nonneg img (S i) (cnt - S i) B) as T1.
    destruct (extent_at img i) as [lba m]. cbn [fst snd total] in *. apply ordered_before in Or as Ob. destruct Ob as [Ob1 Ob2].
    assert (Om : 0 < m /\ lba + m <= ZEAL_DISK_SECTS).
    { clear -Or. revert Or. generalize 0 at 1. induction (extents img 0 i) as [|[l k] es IH]; intros p; cbn [app ordered]; [intros (_ & H1 & H2 & _); lia | intros (_ & _ & _ & H); exact (IH _ H)]. }
    unfold bind at 1. destruct (extent_ok (extents img 0 i) lba m Ob2 Ob1 (proj2 Om) T0 ltac:(unfold VB_SECT in *; lia) (S (Z.to_nat m)) m 0 w d ltac:(lia) ltac:(lia) ltac:(lia) ltac:(lia) Hd) as (r & d1 & -> & G1 & H1).
    pose proof G1 as (_ & D1 & _). destruct r as [w'|].
    + unfold bind at 1. destruct (progress_ok WrotePct ZEAL_DISK_SECTS w' next d1 ltac:(discriminate)) as (next' & d2 & -> & G2). pose proof G2 as (M2 & D2 & _).
      destruct (IH (S i) w' next' d2) as (ok & d3 & E3 & G3 & H3); [lia | injection D1; injection D2; congruence|]. rewrite Sn, total_app in E3. cbn [total] in E3.
      replace (Z.of_nat (S i)) with (Z.of_nat i + 1) in E3 by lia. replace (VB_SECT * (total (extents img 0 i) + (m + 0))) with (VB_SECT * total (extents img 0 i) + m * VB_SECT) in E3 by lia. rewrite Z.add_assoc in E3.
      exists ok, d3. split; [exact E3|]. split; [exact (goes_trans _ _ _ _ _ (goes_trans _ _ _ _ _ G1 G2) G3)|]. intros O A H.
      apply H3; [exact O | exact (able_same _ _ (eq_trans D2 D1) A)|]. rewrite Sn, M2. apply H1; [exact O | exact A|]. exact (has_none _ _ _ H).
    + exists false, d1. split; [reflexivity|]. split; [exact G1|]. intros O A H. destruct H1 as [N _]; [exact O | exact A | | contradiction]. exact (has_none _ _ _ H).
Qed.
End Writing.

(** ** Verifying *)

Section Verifying.
Context (img : list Z) (B : bytes_ok img) (W : well_formed img).
#[local] Abbreviation cnt := (Z.to_nat (count_of img)).

Lemma at_later i ed cur cur' : at_extent img i ed cur -> cur <= cur' -> at_extent img i ed cur'.
Proof using. intros [A1 A2 A3 A4 A5] H. constructor; try assumption. intros a Ha. apply A5. unfold VB_SECT in *. lia. Qed.

Lemma check_batch_ok io b s : 0 <= s -> Z.of_nat (length io) = Z.of_nat b * VB_SECT -> forall k n i ed d, (n + k = b)%nat -> at_extent img i ed (s + Z.of_nat n) ->
  exists r d', check_batch k img io (Z.of_nat n) s (count_of img) (Z.of_nat i) ed d = Some (r, d') /\ goes d (media d) d' /\
    match r with
    | Some (i', ed') => (exists j, i' = Z.of_nat j /\ at_extent img j ed' (s + Z.of_nat b)) /\ forall m, Z.of_nat n <= m < Z.of_nat b -> holds img io m (s + m)
    | None => exists m, Z.of_nat n <= m < Z.of_nat b /\ ~ holds img io m (s + m)
    end.
Proof using B W.
  intros Hs Hio. induction k as [|k IH]; intros n i ed d Hn A.
  - exists (Some (Z.of_nat i, ed)), d. split; [reflexivity|]. split; [apply goes_nil; reflexivity|]. split; [exists i; split; [reflexivity|]; replace b with n by lia; exact A | lia].
  - cbn [check_batch]. destruct (advance_ok img B W (s + Z.of_nat n) cnt i ed A ltac:(lia)) as (j & ed' & -> & A' & Hl). cbn [of_option]. unfold bind at 1, ret at 1.
    destruct (check_sector_ok img B W io (Z.of_nat n) (s + Z.of_nat n) j ed' A' Hl ltac:(lia) ltac:(lia)) as (r & -> & Nr & Hr); [unfold VB_SECT in *; lia|].
    cbn [of_option]. unfold bind at 1, ret at 1. destruct r as [m|].
    + unfold bind. destruct (say_ok m d ltac:(congruence)) as (d1 & -> & G1). exists None, d1. split; [reflexivity|]. split; [exact G1|]. exists (Z.of_nat n). split; [lia|]. intros H. apply Hr in H. discriminate.
    + destruct (IH (S n) j ed' d) as (r & d1 & E1 & G1 & H1); [lia | apply (at_later _ _ _ _ A'); lia|]. replace (Z.of_nat (S n)) with (Z.of_nat n + 1) in * by lia.
      exists r, d1. split; [exact E1|]. split; [exact G1|]. destruct r as [[i' ed'']|].
      * destruct H1 as [H1 H2]. split; [exact H1|]. intros m Hm. destruct (Z.eq_dec m (Z.of_nat n)) as [->|]; [apply Hr; reflexivity | apply H2; lia].
      * destruct H1 as (m & Hm & H2). exists m. split; [lia | exact H2].
Qed.

(** The disk holds what the image says from sector [s] on. *)
Definition installed_from (s : Z) (v : Z -> Z) : Prop := forall a, VB_SECT * s <= a < VB_SECT * ZEAL_DISK_SECTS -> v a = disk_byte img a.

(** A batch in the transfer buffer says what the disk holds. *)
Lemma batch_holds io v s b : 0 <= b -> (forall i, 0 <= i < b * VB_SECT -> byte_at io i = v (VB_SECT * s + i)) ->
  (forall m, 0 <= m < b -> holds img io m (s + m)) <-> forall a, VB_SECT * s <= a < VB_SECT * (s + b) -> v a = disk_byte img a.
Proof using.
  intros Hb R. unfold holds, VB_SECT in *. split.
  - intros H a Ha. pose proof (Z.mod_pos_bound (a - 512 * s) 512 ltac:(lia)). pose proof (Z.div_mod (a - 512 * s) 512 ltac:(lia)).
    assert (Hq : 0 <= (a - 512 * s) / 512 < b) by (split; [apply Z.div_pos; lia | apply Z.div_lt_upper_bound; lia]).
    specialize (H _ Hq ((a - 512 * s) mod 512) ltac:(lia)). rewrite R in H by lia. replace (512 * s + ((a - 512 * s) / 512 * 512 + (a - 512 * s) mod 512)) with a in H by lia. rewrite H. f_equal. lia.
  - intros H m Hm c Hc. rewrite R by lia. replace (512 * s + (m * 512 + c)) with (512 * (s + m) + c) by lia. apply H. lia.
Qed.

Lemma verify_loop_ok max : 0 < max -> forall fuel s i ed next d, max_sectors d = max -> at_extent img i ed s -> 0 <= s <= ZEAL_DISK_SECTS -> ZEAL_DISK_SECTS - s < Z.of_nat fuel ->
  exists ok d', verify_loop served fuel img max ZEAL_DISK_SECTS (count_of img) s (Z.of_nat i) ed next d = Some (ok, d') /\ goes d (media d) d' /\
    (ok = true -> installed_from s (media d)) /\ (obedient -> able d -> installed_from s (media d) -> ok = true).
Proof using B W.
  intros Hm. assert (D : ZEAL_DISK_SECTS = 262144) by reflexivity. induction fuel as [|fuel IH]; intros s i ed next d Hd A Hs Hf; [lia|].
  cbn [verify_loop]. destruct (Z.ltb_spec s ZEAL_DISK_SECTS) as [Hlt|Hge].
  2: { exists true, d. split; [reflexivity|]. split; [apply goes_nil; reflexivity|]. split; [intros _ a Ha; unfold VB_SECT in *; lia | reflexivity]. }
  rewrite u32_id by lia. set (b := Z.min (ZEAL_DISK_SECTS - s) max). assert (Hb : 0 < b <= max /\ s + b <= ZEAL_DISK_SECTS) by lia. clearbody b.
  unfold bind at 1. destruct (read_ok d s b ltac:(lia)) as (r & d1 & -> & G1 & R1 & S1). pose proof G1 as (M1 & D1 & _). destruct r as [io|].
  2: { unfold bind at 1. destruct (say_ok (ReadFailed s) d1 ltac:(discriminate)) as (d2 & -> & G2). exists false, d2. split; [reflexivity|]. rewrite M1 in G2.
       split; [exact (goes_trans _ _ _ _ _ G1 G2)|]. split; [discriminate|]. intros O A' _. destruct (S1 O A' ltac:(lia) ltac:(lia) eq_refl). }
  destruct (R1 io eq_refl ltac:(lia)) as [Lio Rio]. unfold bind at 1.
  destruct (check_batch_ok io (Z.to_nat b) s ltac:(lia) ltac:(lia) (Z.to_nat b) 0 i ed d1 ltac:(lia)) as (r & d2 & E2 & G2 & H2); [rewrite Z.add_0_r; exact A|].
  change (Z.of_nat 0) with 0 in *. rewrite E2. rewrite M1 in G2. pose proof (goes_trans _ _ _ _ _ G1 G2) as G12. pose proof G12 as (M2 & D2 & _). rewrite Z2Nat.id in H2 by lia. pose proof (batch_holds io (media d) s b ltac:(lia) Rio) as BH.
  destruct r as [[i' ed']|].
  - destruct H2 as [(j & -> & A2) H2]. unfold bind at 1. destruct (progress_ok VerifiedPct ZEAL_DISK_SECTS (s + b) next d2 ltac:(discriminate)) as (next' & d3 & -> & G3). rewrite M2 in G3.
    pose proof (goes_trans _ _ _ _ _ G12 G3) as G13. pose proof G13 as (M3 & D3 & _).
    destruct (IH (s + b) j ed' next' d3) as (ok & d4 & E4 & G4 & H4 & H5); [injection D3; congruence | exact A2 | lia | lia|]. rewrite M3 in *. exists ok, d4. split; [exact E4|].
    split; [exact (goes_trans _ _ _ _ _ G13 G4)|]. split.
    + intros Hok a Ha. destruct (Z.lt_ge_cases a (VB_SECT * (s + b))); [apply (proj1 BH H2); lia | apply (H4 Hok); lia].
    + intros O A' H. apply H5; [exact O | exact (able_same _ _ D3 A')|]. intros a Ha. apply H. unfold VB_SECT in *. lia.
  - exists false, d2. split; [reflexivity|]. split; [exact G12|]. split; [discriminate|]. intros O A' H. destruct H2 as (m & Hm2 & N). destruct N. apply (proj2 BH); [|exact Hm2].
    intros a Ha. apply H. unfold VB_SECT in *. lia.
Qed.

(** ** The handler *)

(** What the handler guarantees of its state and of what it printed: success is printed only over
    a disk that holds the image, and an obedient device gets there. *)
Definition outcome (d d' : machine) : Prop := exists out, console d' = console d ++ out /\ driver d' = driver d /\
  (In Installed out -> installed_from 0 (media d')) /\ (obedient -> able d -> In Installed out).

Lemma outcome_failed d v d' : goes d v d' -> (obedient -> able d -> False) -> outcome d d'.
Proof using. intros (_ & D & l & C & N) H. exists l. split; [exact C|]. split; [exact D|]. split; [intros K; contradiction | intros O A; destruct (H O A)]. Qed.
Lemma outcome_after d v d1 d' : goes d v d1 -> outcome d1 d' -> outcome d d'.
Proof using.
  intros (_ & D & l & C & N) (out & C' & D' & H1 & H2). exists (l ++ out). rewrite C', C, app_assoc. split; [reflexivity|]. split; [congruence|]. split.
  - rewrite in_app_iff. intros [K|K]; [contradiction | exact (H1 K)].
  - intros O A. rewrite in_app_iff. right. apply H2; [exact O | exact (able_same _ _ D A)].
Qed.

Lemma verify_outcome max d : 0 < max -> max_sectors d = max -> (obedient -> able d -> installed_from 0 (media d)) ->
  exists d', zinstall_verify served img max ZEAL_DISK_SECTS (count_of img) (data_start img) d = Some (tt, d') /\ outcome d d'.
Proof using B W.
  intros Hm Hd H. unfold zinstall_verify. unfold bind at 1. destruct (say_ok Checking d ltac:(discriminate)) as (d1 & -> & G1). pose proof G1 as (M1 & D1 & _).
  unfold bind at 1. destruct (verify_loop_ok max Hm (S (Z.to_nat ZEAL_DISK_SECTS)) 0 0 (data_start img) (ZEAL_DISK_SECTS / 8) d1) as (ok & d2 & E2 & G2 & H2 & H3); [injection D1; congruence | exact (start_extent img B W) | unfold ZEAL_DISK_SECTS; lia | lia|].
  change (Z.of_nat 0) with 0 in E2. rewrite E2. rewrite M1 in *. pose proof (goes_trans _ _ _ _ _ G1 G2) as G12. pose proof G12 as (M2 & D2 & _). destruct ok; cbn [negb].
  - unfold bind. destruct (flush_ok d2) as (ok & d3 & -> & G3 & H4). rewrite M2 in G3. pose proof (goes_trans _ _ _ _ _ G12 G3) as G13. pose proof G13 as (M3 & D3 & l & C3 & N3). destruct ok; cbn [negb].
    + eexists. split; [reflexivity|]. exists (l ++ [Installed]). cbn [console]. rewrite C3, app_assoc. split; [reflexivity|]. split; [exact D3|].
      split; [intros _; cbn [media]; rewrite M3; apply H2; reflexivity | intros _ _; apply in_or_app; right; left; reflexivity].
    + destruct (say_ok LastFlushFailed d3 ltac:(discriminate)) as (d4 & -> & G4). exists d4. split; [reflexivity|]. apply (outcome_failed _ _ _ (goes_trans _ _ _ _ _ G13 G4)).
      intros O A. enough (false = true) by discriminate. apply H4; [exact O | exact (able_same _ _ D2 A)].
  - exists d2. split; [reflexivity|]. apply (outcome_failed _ _ _ G12). intros O A. enough (false = true) by discriminate. apply H3; [exact O | exact (able_same _ _ D1 A) | exact (H O A)].
Qed.

Lemma write_outcome max d : 0 < max -> max_sectors d = max -> (obedient -> able d -> has_extents img [] (media d)) ->
  exists d', zinstall_write served wrote img max ZEAL_DISK_SECTS (count_of img) (data_start img) d = Some (tt, d') /\ outcome d d'.
Proof using B W.
  intros Hm Hd H. unfold zinstall_write. unfold bind at 1. destruct (write_loop_ok img B W max Hm cnt 0 0 (ZEAL_DISK_SECTS / 8) d ltac:(lia) Hd) as (ok & d1 & E1 & G1 & H1).
  cbn [extents seq map total] in *. change (data_start img + VB_SECT * total (extents img 0 0)) with (data_start img + VB_SECT * 0) in E1. rewrite Z.mul_0_r, Z.add_0_r in E1. change (Z.of_nat 0) with 0 in E1. rewrite E1.
  pose proof G1 as (_ & D1 & _). destruct ok; cbn [negb].
  - unfold bind at 1. destruct (flush_ok d1) as (ok & d2 & -> & G2 & H2). pose proof (goes_trans _ _ _ _ _ G1 G2) as G12. pose proof G12 as (M2 & D2 & _). destruct ok; cbn [negb].
    + destruct (verify_outcome max d2 Hm) as (d3 & E3 & H3); [injection D2; congruence | | exists d3; split; [exact E3 | exact (outcome_after _ _ _ _ G12 H3)]].
      intros O A. rewrite M2. apply (able_same _ d) in A; [|congruence]. destruct (H1 O A (H O A)) as [_ He]. intros a Ha. apply He. unfold VB_SECT in *. lia.
    + destruct (say_ok WriteFlushFailed d2 ltac:(discriminate)) as (d3 & -> & G3). exists d3. split; [reflexivity|]. apply (outcome_failed _ _ _ (goes_trans _ _ _ _ _ G12 G3)).
      intros O A. enough (false = true) by discriminate. apply H2; [exact O | exact (able_same _ _ D1 A)].
  - exists d1. split; [reflexivity|]. apply (outcome_failed _ _ _ G1). intros O A. destruct (H1 O A (H O A)). discriminate.
Qed.

Lemma erase_outcome d : 0 <= max_sectors d ->
  exists d', zinstall_erase served wrote img ZEAL_DISK_SECTS (count_of img) (data_start img) d = Some (tt, d') /\
    ((0 < max_sectors d /\ max_sectors d * VB_SECT <= IO_BYTES) /\ outcome d d' \/ ~ (0 < max_sectors d /\ max_sectors d * VB_SECT <= IO_BYTES) /\ goes d (media d) d').
Proof using B W.
  intros Hm. unfold zinstall_erase. rewrite bind_gets. destruct (_ || _) eqn:E.
  - destruct (say_ok BadWindow d ltac:(discriminate)) as (d1 & -> & G1). exists d1. split; [reflexivity|]. right. split; [|exact G1]. apply orb_true_iff in E as [E|E]; zbool; lia.
  - apply orb_false_iff in E as [E1 E2]. zbool. unfold bind at 1. destruct (say_ok Erasing d ltac:(discriminate)) as (d1 & -> & G1). pose proof G1 as (M1 & D1 & _).
    unfold bind at 1. destruct (erase_ok (max_sectors d) ltac:(lia) E2 (S (Z.to_nat ZEAL_DISK_SECTS)) 0 (ZEAL_DISK_SECTS / 8) d1) as (ok & d2 & -> & G2 & H2); [injection D1; congruence | unfold ZEAL_DISK_SECTS; lia | lia|].
    pose proof (goes_trans _ _ _ _ _ G1 G2) as G12. pose proof G12 as (_ & D2 & _). destruct ok; cbn [negb].
    + unfold bind at 1. destruct (flush_ok d2) as (ok & d3 & -> & G3 & H3). pose proof (goes_trans _ _ _ _ _ G12 G3) as G13. pose proof G13 as (M3 & D3 & _). destruct ok; cbn [negb].
      * destruct (write_outcome (max_sectors d) d3) as (d4 & E4 & H4); [lia | injection D3; congruence | | exists d4; split; [exact E4 | left; split; [lia | exact (outcome_after _ _ _ _ G13 H4)]]].
        intros O A a Ha. rewrite M3. cbn [expect]. apply H2; [exact O | apply (able_same _ _ D1); apply (able_same d3); [congruence | exact A] | intros x Hx; lia | exact Ha].
      * destruct (say_ok EraseFlushFailed d3 ltac:(discriminate)) as (d4 & -> & G4). exists d4. split; [reflexivity|]. left. split; [lia|]. apply (outcome_failed _ _ _ (goes_trans _ _ _ _ _ G13 G4)).
        intros O A. enough (false = true) by discriminate. apply H3; [exact O | exact (able_same _ _ D2 A)].
    + exists d2. split; [reflexivity|]. left. split; [lia|]. apply (outcome_failed _ _ _ G12). intros O A. destruct (H2 O (able_same _ _ D1 A) ltac:(lia)). discriminate.
Qed.
End Verifying.

(** ** Properties *)

Definition ERASE : list Z := bytes_of_string "ERASE"%string.
(** The target disk and the transfer window are what the installer asks for. *)
Definition target_ok (d : machine) : Prop :=
  ready d = true /\ pci d = true /\ full_capacity d = ZEAL_DISK_SECTS /\ 0 < max_sectors d /\ max_sectors d * VB_SECT <= IO_BYTES.

Lemma handle_ok image args d : (forall img, image = Some img -> bytes_ok img) -> 0 <= max_sectors d ->
  exists d', zinstall_handle served wrote image args d = Some (tt, d') /\
    ((exists img, image = Some img /\ well_formed img /\ args = ERASE /\ target_ok d /\ outcome img d d') \/
     goes d (media d) d' /\ forall img, image = Some img -> well_formed img -> args = ERASE -> target_ok d -> obedient -> able d -> False).
Proof using.
  intros Hb Hm. unfold zinstall_handle.
  destruct image as [img|]; [|cbn [zinstall_image_valid of_option]; unfold bind, ret; destruct (say_ok NoImage d ltac:(discriminate)) as (d1 & -> & G1); exists d1; split; [reflexivity | right; split; [exact G1 | discriminate]]].
  specialize (Hb img eq_refl). destruct (image_valid_ok img Hb) as (r & -> & Hr). cbn [of_option]. unfold bind at 1, ret at 1.
  destruct r as [[c s]|].
  2: { destruct (say_ok NoImage d ltac:(discriminate)) as (d1 & -> & G1). exists d1. split; [reflexivity|]. right. split; [exact G1|].
       intros img' [= <-] W _ _ _ _. enough (None = Some (count_of img, data_start img)) by discriminate. apply Hr. auto. }
  destruct (proj1 (Hr c s) eq_refl) as (W & -> & ->). rewrite !bind_gets. destruct (_ || _) eqn:E.
  { destruct (say_ok NoTarget d ltac:(discriminate)) as (d1 & -> & G1). exists d1. split; [reflexivity|]. right. split; [exact G1|]. intros img' _ _ _ (T1 & T2 & T3 & _) _ _.
    unfold virtio_blk_absolute_ready in E. rewrite T1, T2, T3, Z.eqb_refl in E. discriminate. }
  apply orb_false_iff in E as [E1 E2]. apply negb_false_iff in E1. apply negb_false_iff, Z.eqb_eq in E2. unfold virtio_blk_absolute_ready in E1. apply andb_true_iff in E1 as [R P].
  unfold bind at 1. destruct (flush_ok d) as (ok & d1 & -> & G1 & H1). pose proof G1 as (M1 & D1 & _). destruct ok; cbn [negb].
  2: { destruct (say_ok NoFlush d1 ltac:(discriminate)) as (d2 & -> & G2). rewrite M1 in G2. exists d2. split; [reflexivity|]. right. split; [exact (goes_trans _ _ _ _ _ G1 G2)|].
       intros img' _ _ _ _ O A. specialize (H1 O A). discriminate. }
  fold ERASE. destruct (bool_decide_reflect (args = ERASE)) as [Ea|Na]; cbn [negb].
  2: { destruct (say_ok Confirm d1 ltac:(discriminate)) as (d2 & -> & G2). rewrite M1 in G2. exists d2. split; [reflexivity|]. right. split; [exact (goes_trans _ _ _ _ _ G1 G2)|]. intros img' _ _ K. contradiction. }
  assert (Ex : max_sectors d1 = max_sectors d) by (injection D1; congruence).
  destruct (erase_outcome img Hb W d1 ltac:(lia)) as (d2 & -> & [[Hw H2]|[Hw G2]]); exists d2; (split; [reflexivity|]).
  - left. exists img. split; [reflexivity|]. split; [exact W|]. split; [exact Ea|]. split; [unfold target_ok; rewrite <- Ex; tauto | exact (outcome_after img _ _ _ _ G1 H2)].
  - right. rewrite M1 in G2. split; [exact (goes_trans _ _ _ _ _ G1 G2)|]. intros img' _ _ _ (_ & _ & _ & T) _ _. rewrite Ex in Hw. contradiction.
Qed.

(** C7: whatever the device does with the requests it is sent, and whatever the bytes of the image
    are, the installer comes to an end and reads nothing outside the image and its buffer; it
    prints that the disk is installed only when every byte of the disk is the one the image asks
    for, and it sends no write unless the image is well formed, the target is the one disk of the
    right size and the command was confirmed. *)
Theorem zinstall_verified image args d : (forall img, image = Some img -> bytes_ok img) -> 0 <= max_sectors d ->
  exists d' out, zinstall_handle served wrote image args d = Some (tt, d') /\ console d' = console d ++ out /\
    (In Installed out -> exists img, image = Some img /\ well_formed img /\ forall a, 0 <= a < VB_SECT * ZEAL_DISK_SECTS -> media d' a = disk_byte img a) /\
    (~ (exists img, image = Some img /\ well_formed img /\ args = ERASE /\ target_ok d) -> media d' = media d).
Proof using.
  intros Hb Hm. destruct (handle_ok image args d Hb Hm) as (d' & E & [(img & -> & W & Ea & T & out & C & _ & H & _)|[(M & _ & out & C & N) _]]); exists d', out; (split; [exact E|]); (split; [exact C|]).
  - split; [intros K; exists img; split; [reflexivity|]; split; [exact W | intros a Ha; apply (H K); lia] | intros N; destruct N; exists img; auto].
  - split; [intros K; contradiction | intros _; exact M].
Qed.

(** C8: on a device that does what it is sent, with a flush and room for the transfers, a confirmed
    installation of a well-formed image ends with the disk installed. *)
Theorem zinstall_completes img d : bytes_ok img -> well_formed img -> obedient -> able d -> 0 < max_sectors d -> max_sectors d * VB_SECT <= IO_BYTES ->
  exists d' out, zinstall_handle served wrote (Some img) ERASE d = Some (tt, d') /\ console d' = console d ++ out /\ In Installed out /\
    forall a, 0 <= a < VB_SECT * ZEAL_DISK_SECTS -> media d' a = disk_byte img a.
Proof using.
  intros Hb W O A H1 H2. assert (T : target_ok d) by (destruct A as (A1 & A2 & _ & A4 & _); repeat split; assumption).
  destruct (handle_ok (Some img) ERASE d) as (d' & E & [(img' & [= <-] & _ & _ & _ & out & C & _ & H & K)|[_ F]]); [intros x [= <-]; exact Hb | lia | | destruct (F img eq_refl W eq_refl T O A)].
  specialize (K O A). exists d', out. split; [exact E|]. split; [exact C|]. split; [exact K|]. intros a Ha. apply (H K). lia.
Qed.
End Run.

(** The check of the image reads only its bytes and accepts exactly the well-formed images:
    extents that are not empty, ascending and inside the disk, whose data fill the image. *)
Theorem zinstall_image_valid_iff img : bytes_ok img ->
  exists r, zinstall_image_valid (Some img) = Some r /\ forall count start, r = Some (count, start) <-> well_formed img /\ count = count_of img /\ start = data_start img.
Proof. exact (image_valid_ok img). Qed.

(** ** An image of one sector *)

Definition demo_image : list Z :=
  magic ++ [1; 0; 0; 0; 0; 2; 0; 0] ++ [0; 0; 4; 0; 0; 0; 0; 0] ++ [1; 0; 0; 0; 16; 0; 0; 0] ++ [56; 2; 0; 0; 0; 0; 0; 0] ++ [3; 0; 0; 0; 0; 0; 0; 0; 1; 0; 0; 0; 0; 0; 0; 0] ++ repeat 7 512.
Definition demo_disk : machine := mk_machine true true true 262144 128 64 (fun _ => 255) 0 [].
Definition plain_wrote (n : nat) : Z -> list Z -> (Z -> Z) -> Z -> Z := put_bytes.

Lemma demo_image_bytes : bytes_ok demo_image.
Proof.
  unfold demo_image. rewrite !bytes_ok_app. do 6 (split; [repeat constructor; lia|]). apply List.Forall_forall. intros x Hx. apply repeat_spec in Hx as ->. split; lia.
Qed.

Lemma demo_image_wf : well_formed demo_image.
Proof.
  constructor; try reflexivity; try (vm_compute; split; discriminate).
  - intros k Hk. change (Z.to_nat (count_of demo_image)) with 1%nat in Hk. replace k with 0%nat by lia. reflexivity.
  - vm_compute. repeat split; discriminate.
Qed.

Lemma demo_obedient : obedient (fun _ => true) plain_wrote.
Proof. intros n. split; reflexivity. Qed.
Lemma demo_able : able demo_disk.
Proof. repeat split; discriminate. Qed.

Lemma zinstall_verified_witness : exists d' out, zinstall_handle (fun _ => true) plain_wrote (Some demo_image) ERASE demo_disk = Some (tt, d') /\ console d' = out /\ In Installed out /\
  forall a, 0 <= a < VB_SECT * ZEAL_DISK_SECTS -> media d' a = disk_byte demo_image a.
Proof.
  destruct (zinstall_verified (fun _ => true) plain_wrote (Some demo_image) ERASE demo_disk) as (d' & out & E & C & H & _); [intros img [= <-]; exact demo_image_bytes | cbn; lia|].
  destruct (handle_ok (fun _ => true) plain_wrote (Some demo_image) ERASE demo_disk) as (d1 & E1 & K); [intros img [= <-]; exact demo_image_bytes | cbn; lia|].
  rewrite E in E1. injection E1 as <-. exists d', out. split; [exact E|]. split; [exact C|].
  assert (I : In Installed out).
  { destruct K as [(img & _ & _ & _ & _ & out' & C' & _ & _ & L)|[_ F]].
    - rewrite C in C'. apply app_inv_head in C' as ->. exact (L demo_obedient demo_able).
    - destruct (F demo_image eq_refl demo_image_wf eq_refl); [repeat split; cbn; unfold VB_SECT, IO_BYTES; lia | exact demo_obedient | exact demo_able]. }
  split; [exact I|]. destruct (H I) as (img & [= <-] & _ & Hd). exact Hd.
Defined.

Lemma zinstall_completes_witness : exists d' out, zinstall_handle (fun _ => true) plain_wrote (Some demo_image) ERASE demo_disk = Some (tt, d') /\ console d' = [] ++ out /\ In Installed out /\
  forall a, 0 <= a < VB_SECT * ZEAL_DISK_SECTS -> media d' a = disk_byte demo_image a.
Proof. apply (zinstall_completes (fun _ => true) plain_wrote demo_image demo_disk demo_image_bytes demo_image_wf demo_obedient demo_able); cbn; unfold VB_SECT, IO_BYTES; lia. Defined.

Lemma zinstall_image_valid_iff_witness : zinstall_image_valid (Some demo_image) = Some (Some (1, 56)) /\ well_formed demo_image.
Proof.
  destruct (zinstall_image_valid_iff demo_image demo_image_bytes) as (r & E & H). assert (r = Some (1, 56)) as -> by (vm_compute in E; congruence).
  split; [exact E | apply (proj1 (H 1 56) eq_refl)].
Defined.
