(* ===== verification/HcMacro.v ===== *)
(** * The HolyC preprocessor ([hc_expand_includes] of [src/src/kernel_stub.c])

    [#include] lines are replaced by files of the RedSea root, [#define] lines collected, macro
    names outside strings replaced by their bodies until none is left, and two UTF-8 letters
    recoded.  A text is the list of its characters without the NUL, so that [*p] is
    [nth 0 p 0]. *)

From S2P Require Import Prelude RedSea.
#[local] Open Scope Z_scope.
#[local] Open Scope sm_scope.

Definition HC_MAX_MACROS : Z := 24.
Definition HC_MACRO_NAME : Z := 32.
Definition HC_MACRO_BODY : Z := 96.
(** [sizeof(tmp_a)] and [sizeof(g_hc_src_mid)] *)
Definition HC_SRC_MAX : Z := 16384.

Record hc_macro := mk_macro { m_name : list Z; m_body : list Z }.

Definition hc_mac_ident_char (c : Z) : bool :=
  (97 <=? c) && (c <=? 122) || (65 <=? c) && (c <=? 90) || (48 <=? c) && (c <=? 57) || (c =? 95).
Definition hc_mac_ident_start (c : Z) : bool := (97 <=? c) && (c <=? 122) || (65 <=? c) && (c <=? 90) || (c =? 95).

Definition is_blank (c : Z) : bool := (c =? 32) || (c =? 9).
Fixpoint drop_while (f : Z -> bool) (p : list Z) : list Z := match p with c :: p' => if f c then drop_while f p' else p | [] => [] end.
Fixpoint take_while (f : Z -> bool) (p : list Z) : list Z := match p with c :: p' => if f c then c :: take_while f p' else [] | [] => [] end.
Definition skip_blanks (p : list Z) : list Z := drop_while is_blank p.

(** The text behind [s], if it begins with [s]. *)
Fixpoint after (s p : list Z) : option (list Z) :=
  match s, p with [], _ => Some p | c :: s', d :: p' => if c =? d then after s' p' else None | _ :: _, [] => None end.

(** [# keyword], up to what follows the blanks behind it. *)
Definition directive (keyword p : list Z) : option (list Z) :=
  match skip_blanks p with
  | 35 :: q => match after keyword (skip_blanks q) with Some q => Some (skip_blanks q) | None => None end
  | _ => None
  end.

Definition in_line (c : Z) : bool := negb (c =? 10).
Definition next_line (p : list Z) : list Z := match drop_while in_line p with _ :: q => q | [] => [] end.
Definition is_trailing (c : Z) : bool := (c =? 32) || (c =? 9) || (c =? 13).
Definition trim (l : list Z) : list Z := rev (drop_while is_trailing (rev l)).

(** The rest of the text and the macro, if [p] begins with a definition. *)
Definition hc_parse_define (nmacros : Z) (p : list Z) : option (list Z * hc_macro) :=
  match directive (bytes_of_string "define"%string) p with
  | None => None
  | Some q =>
      if negb (hc_mac_ident_start (nth 0 q 0)) || (HC_MAX_MACROS <=? nmacros) then None
      else
        let name := take_while hc_mac_ident_char q in
        let nlen := Z.of_nat (length name) in
        if (nlen <=? 0) || (HC_MACRO_NAME <=? nlen) then None
        else
          let bs := skip_blanks (drop_while hc_mac_ident_char q) in
          let body := trim (take_while in_line bs) in
          let blen := Z.of_nat (length body) in
          if (blen <=? 0) || (HC_MACRO_BODY <=? blen) then None else Some (next_line bs, mk_macro name body)
  end.

Fixpoint hc_find_macro (ms : list hc_macro) (s : list Z) : option hc_macro :=
  match ms with [] => None | m :: ms' => if bool_decide (m_name m = s) then Some m else hc_find_macro ms' s end.

(** ** Macros *)

(** One pass over [p], with [out] written so far: [None] when the buffer is full. *)
Fixpoint expand_pass (fuel : nat) (ms : list hc_macro) (p : list Z) (in_str changed : bool) (out : list Z) : option (list Z * bool) :=
  match fuel, p with
  | _, [] => Some (out, changed)
  | O, _ :: _ => None
  | S fuel', c :: p' =>
      let n := Z.of_nat (length out) in
      if c =? 34 then (if HC_SRC_MAX <=? n + 1 then None else expand_pass fuel' ms p' (negb in_str) changed (out ++ [c]))
      else if negb in_str && hc_mac_ident_start c then
        let s := take_while hc_mac_ident_char p in
        let rest := drop_while hc_mac_ident_char p in
        match hc_find_macro ms s with
        | Some m => if HC_SRC_MAX <=? n + Z.of_nat (length (m_body m)) + 1 then None else expand_pass fuel' ms rest in_str true (out ++ m_body m)
        | None => if HC_SRC_MAX <=? n + Z.of_nat (length s) + 1 then None else expand_pass fuel' ms rest in_str changed (out ++ s)
        end
      else if HC_SRC_MAX <=? n + 1 then None
      else expand_pass fuel' ms p' in_str changed (out ++ [c])
  end.

Fixpoint expand_passes (k : nat) (ms : list hc_macro) (inbuf : list Z) (cap : Z) : option (list Z) :=
  match k with
  | O => None
  | S k' =>
      match expand_pass (length inbuf) ms inbuf false false [] with
      | None => None
      | Some (outbuf, changed) =>
          if changed : bool then expand_passes k' ms outbuf cap
          else if cap <? Z.of_nat (length outbuf) + 1 then None
          else Some outbuf
      end
  end.

Definition hc_expand_macros (ms : list hc_macro) (src : list Z) (cap : Z) : option (list Z) :=
  if HC_SRC_MAX <=? Z.of_nat (length src) + 1 then None else expand_passes 8 ms src cap.

(** ** Files *)

(** At most [k] characters of a name. *)
Fixpoint name_chars (k : nat) (fin : Z) (p : list Z) : list Z * list Z :=
  match k, p with
  | S k', c :: p' => if (c =? fin) || (c =? 10) then ([], p) else let '(s, q) := name_chars k' fin p' in (c :: s, q)
  | _, _ => ([], p)
  end.

Definition hc_parse_include (nmax : Z) (p : list Z) : option (list Z * list Z) :=
  match directive (bytes_of_string "include"%string) p with
  | Some (c :: q) =>
      if (c =? 34) || (c =? 60) then
        let fin := if c =? 34 then 34 else 62 in
        let '(name, q) := name_chars (Z.to_nat (nmax - 1)) fin q in
        match name, q with
        | _ :: _, d :: q' => if d =? fin then Some (name, next_line q') else None
        | _, _ => None
        end
      else None
  | _ => None
  end.

Record pp := mk_pp { macros : list hc_macro; disk : dev }.

Section Files.
Context (answer : nat -> reply).

Definition load (name : list Z) (cap : Z) : SM pp (Z * list Z) := fun s =>
  match rs_load_file answer name cap (disk s) with Some (r, d) => Some (r, mk_pp (macros s) d) | None => None end.

(** The loop of [hc_expand_includes_r] over [p], at the beginning of a line or not, with the
    expansion of the next depth for the files: a code, and the text written. *)
Fixpoint expand_loop (deeper : list Z -> Z -> SM pp (Z * list Z)) (fuel : nat) (bol : bool) (p : list Z) (cap : Z) (out : list Z) : SM pp (Z * list Z) :=
  match fuel, p with
  | _, [] => ret (0, out)
  | O, _ :: _ => diverge
  | S fuel', c :: p' =>
      let! ms := gets macros in
      let copy := if cap <=? Z.of_nat (length out) + 1 then ret (-4, out) else expand_loop deeper fuel' (c =? 10) p' cap (out ++ [c]) in
      if bol then
        match hc_parse_define (Z.of_nat (length ms)) p with
        | Some (dafter, m) =>
            modify (fun s => mk_pp (macros s ++ [m]) (disk s));;
            expand_loop deeper fuel' true dafter cap out
        | None =>
            match hc_parse_include 40 p with
            | Some (iname, next) =>
                let! (rc, ibuf) := load iname 4096 in
                if negb (rc =? 0) then ret (-2, out)
                else
                  let! (rc, sub) := deeper (cstr ibuf) (cap - Z.of_nat (length out)) in
                  if negb (rc =? 0) then ret (-3, out)
                  else
                    let out := out ++ sub in
                    if cap <=? Z.of_nat (length out) + 1 then ret (-4, out) else expand_loop deeper fuel' true next cap out
            | None => copy
            end
        end
      else copy
  end.

(** [levels] more depths are allowed. *)
Fixpoint hc_expand_includes_r (levels : nat) (src : list Z) (cap : Z) : SM pp (Z * list Z) :=
  match levels with
  | O => ret (-1, [])
  | S levels' => expand_loop (hc_expand_includes_r levels') (length src) true src cap []
  end.

(** Theta and pi in UTF-8, one byte each. *)
Fixpoint recode (p : list Z) : list Z :=
  match p with
  | 206 :: (184 :: r) => 233 :: recode r
  | 207 :: (128 :: r) => 227 :: recode r
  | c :: r => c :: recode r
  | [] => []
  end.

(** The text, or -1. *)
Definition hc_expand_includes (src : list Z) (cap : Z) : SM pp (option (list Z)) :=
  if cap <? 2 then ret None
  else
    modify (fun s => mk_pp [] (disk s));;
    let! (rc, mid) := hc_expand_includes_r 5 src HC_SRC_MAX in
    if negb (rc =? 0) then ret None
    else
      let! ms := gets macros in
      match hc_expand_macros ms mid cap with
      | None => ret None
      | Some dst => ret (Some (recode dst))
      end.
End Files.
