(* ===== verification/HcMacroThms.v ===== *)
(** * The HolyC preprocessor: what the expanded text is *)

From S2P Require Import Prelude RedSea RedSeaVol RedSeaThms RedSeaNames RedSeaProps HcMacro.
#[local] Open Scope Z_scope.

(** The condition the goal tests first. *)
#[local] Ltac cond E := match goal with |- (if ?b then _ else _) = _ -> _ => destruct b eqn:E end.

(** ** Characters and lines *)

Lemma take_drop_while f p : take_while f p ++ drop_while f p = p.
Proof. induction p as [|c p IH]; [reflexivity|]. cbn. destruct (f c); [cbn; rewrite IH; reflexivity | reflexivity]. Qed.

Lemma drop_while_length f p : (length (drop_while f p) <= length p)%nat.
Proof. induction p as [|c p IH]; cbn; [lia|]. destruct (f c); cbn; lia. Qed.

Lemma take_while_forall f p : Forall (fun c => f c = true) (take_while f p).
Proof. induction p as [|c p IH]; cbn; [constructor|]. destruct (f c) eqn:E; constructor; assumption. Qed.

Definition first_line (p : list Z) : list Z := take (length p - length (next_line p)) p.

Lemma next_line_length p : (length (next_line p) <= length p)%nat.
Proof. unfold next_line. pose proof (drop_while_length in_line p). destruct (drop_while in_line p); cbn in *; lia. Qed.

Lemma next_line_cons c p : next_line (c :: p) = if c =? 10 then p else next_line p.
Proof. unfold next_line at 1, in_line. cbn. destruct (c =? 10) eqn:E; cbn; [reflexivity|]. reflexivity. Qed.

Lemma first_line_cons c p : first_line (c :: p) = if c =? 10 then [c] else c :: first_line p.
Proof.
  unfold first_line. rewrite next_line_cons. pose proof (next_line_length p). destruct (c =? 10); cbn [length].
  - replace (S (length p) - length p)%nat with 1%nat by lia. reflexivity.
  - replace (S (length p) - length (next_line p))%nat with (S (length p - length (next_line p))) by lia. reflexivity.
Qed.

(** A prefix without line ends does not matter to the line. *)
Lemma next_line_app l p : Forall (fun c => c <> 10) l -> next_line (l ++ p) = next_line p.
Proof. induction 1 as [|c l Hc _ IH]; [reflexivity|]. cbn [app]. rewrite next_line_cons. destruct (Z.eqb_spec c 10); [contradiction | exact IH]. Qed.

Lemma next_line_skip f p : f 10 = false -> next_line (drop_while f p) = next_line p.
Proof.
  intros H. rewrite <- (take_drop_while f p) at 2. rewrite next_line_app; [reflexivity|]. pose proof (take_while_forall f p) as T. revert T. apply List.Forall_impl. intros c Hc ->. congruence.
Qed.

Lemma after_app s p q : after s p = Some q -> p = s ++ q.
Proof. revert p. induction s as [|c s IH]; intros p; cbn; [congruence|]. destruct p as [|d p]; [discriminate|]. destruct (Z.eqb_spec c d) as [->|]; [intros H; apply IH in H as ->; reflexivity | discriminate]. Qed.

Lemma directive_line k p q : directive k p = Some q -> Forall (fun c => c <> 10) k -> next_line q = next_line p /\ (length q < length p)%nat.
Proof.
  unfold directive, skip_blanks. intros H Hk. destruct (drop_while is_blank p) as [|c r] eqn:E; [discriminate|].
  destruct (after k (drop_while is_blank r)) as [t|] eqn:A; [|destruct c as [|c|c]; [discriminate | do 6 (destruct c as [c|c|]; try discriminate) | discriminate]].
  assert (c = 35 /\ q = drop_while is_blank t) as [-> ->].
  { destruct c as [|c|c]; [discriminate | | discriminate]. do 6 (destruct c as [c|c|]; try discriminate). injection H as <-. auto. }
  apply after_app in A. pose proof (drop_while_length is_blank p) as L1. rewrite E in L1. pose proof (drop_while_length is_blank r) as L2. rewrite A, length_app in L2. pose proof (drop_while_length is_blank t). cbn in L1. split; [|lia].
  rewrite next_line_skip by reflexivity. rewrite <- (next_line_app k t Hk), <- A. rewrite next_line_skip by reflexivity. transitivity (next_line (35 :: r)); [rewrite next_line_cons; reflexivity|]. rewrite <- E. apply next_line_skip. reflexivity.
Qed.

(** ** Definitions *)

Record macro_ok (m : hc_macro) : Prop := mk_macro_ok {
  mo_name : 1 <= Z.of_nat (length (m_name m)) < HC_MACRO_NAME;
  mo_body : 1 <= Z.of_nat (length (m_body m)) < HC_MACRO_BODY;
  mo_chars : Forall (fun c => hc_mac_ident_char c = true) (m_name m) }.
Definition macros_ok (ms : list hc_macro) : Prop := Z.of_nat (length ms) <= HC_MAX_MACROS /\ Forall macro_ok ms.

Lemma parse_define_ok n p r m : hc_parse_define n p = Some (r, m) -> r = next_line p /\ (length r < length p)%nat /\ n < HC_MAX_MACROS /\ macro_ok m.
Proof.
  unfold hc_parse_define. destruct (directive _ p) as [q|] eqn:D; [|discriminate]. apply directive_line in D as [D1 D2]; [|repeat constructor; discriminate].
  cond E1; [discriminate|]. cond E2; [discriminate|]. cond E3; [discriminate|]. intros [= <- <-].
  apply orb_false_iff in E1 as [_ E1]. apply orb_false_iff in E2 as [E2 E2']. apply orb_false_iff in E3 as [E3 E3']. zbool.
  unfold skip_blanks in *. rewrite !next_line_skip by reflexivity. split; [exact D1|].
  split; [pose proof (next_line_length q); lia|]. split; [lia|]. constructor; cbn [m_name m_body]; [lia | lia | apply take_while_forall].
Qed.

Lemma name_chars_app k fin p s q : name_chars k fin p = (s, q) -> p = s ++ q /\ Forall (fun c => c <> 10) s.
Proof.
  revert p s q. induction k as [|k IH]; intros p s q; cbn; [intros [= <- <-]; auto|]. destruct p as [|c p]; [intros [= <- <-]; auto|].
  cond E; [intros [= <- <-]; auto|]. destruct (name_chars k fin p) as [s' q'] eqn:N. intros [= <- <-]. apply IH in N as [-> F].
  apply orb_false_iff in E as [_ E]. zbool. split; [reflexivity | constructor; assumption].
Qed.

Lemma parse_include_ok n p name r : hc_parse_include n p = Some (name, r) -> r = next_line p /\ (length r < length p)%nat.
Proof.
  unfold hc_parse_include. destruct (directive _ p) as [[|c q]|] eqn:D; try discriminate. apply directive_line in D as [D1 D2]; [|repeat constructor; discriminate].
  cond E; [|discriminate]. set (fin := if c =? 34 then 34 else 62). destruct (name_chars _ fin q) as [s t] eqn:N. apply name_chars_app in N as [-> F].
  destruct s as [|s0 s]; [discriminate|]. destruct t as [|d t]; [discriminate|]. destruct (Z.eqb_spec d fin) as [->|]; [|discriminate]. intros [= <- <-].
  assert (Hfin : fin <> 10) by (unfold fin; destruct (c =? 34); discriminate). assert (Hc : c <> 10) by (intros ->; discriminate).
  rewrite <- D1. rewrite next_line_cons. destruct (Z.eqb_spec c 10); [contradiction|]. rewrite next_line_app by exact F. rewrite next_line_cons. destruct (Z.eqb_spec fin 10); [contradiction|].
  split; [reflexivity|]. pose proof (next_line_length t). cbn [length] in D2. rewrite length_app in D2. cbn [length] in D2. lia.
Qed.

(** ** Files *)

(** [included F n ms p ms' out]: with the files [F] and the macros [ms], and [n] levels of files
    allowed, the text [p] is, line by line, [out], and leaves the macros [ms']. *)
Inductive included (F : list Z -> option (list Z)) : nat -> list hc_macro -> list Z -> list hc_macro -> list Z -> Prop :=
  | inc_nil n ms : included F (S n) ms [] ms []
  | inc_define n ms p r m ms' out : hc_parse_define (Z.of_nat (length ms)) p = Some (r, m) ->
      included F (S n) (ms ++ [m]) (next_line p) ms' out -> included F (S n) ms p ms' out
  | inc_include n ms p r name data ms1 sub ms2 out : hc_parse_define (Z.of_nat (length ms)) p = None -> hc_parse_include 40 p = Some (name, r) ->
      F (key name) = Some data -> Z.of_nat (length data) < 4096 -> included F n ms (cstr data) ms1 sub ->
      included F (S n) ms1 (next_line p) ms2 out -> included F (S n) ms p ms2 (sub ++ out)
  | inc_line n ms p ms' out : p <> [] -> hc_parse_define (Z.of_nat (length ms)) p = None -> hc_parse_include 40 p = None ->
      included F (S n) ms (next_line p) ms' out -> included F (S n) ms p ms' (first_line p ++ out).

Section Includes.
Context (answer : nat -> reply) (sects : Z) (F : list Z -> option (list Z)).

(** What a run over [p] that appends to [out] does. *)
Definition includes (n : nat) (p : list Z) (cap : Z) (out : list Z) (m : SM pp (Z * list Z)) : Prop := forall s, vol sects (disk s) F -> macros_ok (macros s) ->
  exists rc o s', m s = Some ((rc, o), s') /\ vol sects (disk s') F /\ macros_ok (macros s') /\ ready (disk s') = ready (disk s) /\
    (rc = 0 -> exists x, o = out ++ x /\ included F n (macros s) p (macros s') x /\ Z.of_nat (length o) < cap) /\
    (served answer (disk s) -> forall ms' x, included F n (macros s) p ms' x -> Z.of_nat (length out) + Z.of_nat (length x) + 1 < cap -> rc = 0 /\ o = out ++ x /\ macros s' = ms').

Lemma loop_nil deeper fuel bol cap out : expand_loop answer deeper fuel bol [] cap out = ret (0, out).
Proof using. destruct fuel; reflexivity. Qed.

(** The rest of a line is copied. *)
Lemma copy_line deeper cap s : forall p fuel out, (length p <= fuel)%nat ->
  (exists o, expand_loop answer deeper fuel false p cap out s = Some ((-4, o), s) /\ cap <= Z.of_nat (length out) + Z.of_nat (length (first_line p))) \/
  (exists fuel', (length (next_line p) <= fuel')%nat /\ expand_loop answer deeper fuel false p cap out s = expand_loop answer deeper fuel' true (next_line p) cap (out ++ first_line p) s /\
     (Z.of_nat (length out) < cap -> Z.of_nat (length out) + Z.of_nat (length (first_line p)) < cap)).
Proof using.
  induction p as [|c p IH]; intros fuel out Hf.
  - right. exists fuel. split; [cbn; lia|]. change (next_line []) with (@nil Z). change (first_line []) with (@nil Z). rewrite !loop_nil, app_nil_r. split; [reflexivity | cbn; lia].
  - destruct fuel as [|fuel]; [cbn in Hf; lia|]. cbn [expand_loop]. rewrite bind_gets. cbn [length] in Hf. rewrite next_line_cons, first_line_cons.
    destruct (Z.leb_spec cap (Z.of_nat (length out) + 1)) as [H|H].
    + left. exists out. split; [reflexivity|]. destruct (c =? 10); cbn [length]; lia.
    + destruct (Z.eqb_spec c 10) as [->|N]; cbv iota.
      * right. exists fuel. split; [lia|]. split; [reflexivity | cbn [length]; lia].
      * destruct (IH fuel (out ++ [c])) as [(o & E & Hc)|(f' & Hf' & E & Hc)]; [lia | |]; rewrite length_app in Hc; cbn [length] in Hc.
        -- left. exists o. split; [exact E | cbn [length]; lia].
        -- right. exists f'. split; [exact Hf'|]. rewrite E, <- app_assoc. split; [reflexivity | cbn [length]; lia].
Qed.

Lemma macros_ok_snoc ms m : macros_ok ms -> Z.of_nat (length ms) < HC_MAX_MACROS -> macro_ok m -> macros_ok (ms ++ [m]).
Proof using. intros [H1 H2] H M. split; [rewrite length_app; cbn; lia | apply Forall_app; split; [exact H2 | constructor; [exact M | constructor]]]. Qed.

Lemma included_nil n ms ms' x : included F n ms [] ms' x -> ms' = ms /\ x = [].
Proof using.
  intros H. inversion H as [|? ? ? ? ? ? ? P|? ? ? ? ? ? ? ? ? ? P Q|]; subst; [auto | apply parse_define_ok in P as (_ & P & _); cbn in P; lia | apply parse_include_ok in Q as (_ & Q); cbn in Q; lia | contradiction].
Qed.

Lemma included_levels n ms p ms' x : included F n ms p ms' x -> exists k, n = S k.
Proof using. destruct 1; eauto. Qed.

(** The loop over the lines, given the expansion of files and of shorter texts. *)
Section Loop.
Context (n : nat) (deeper : list Z -> Z -> SM pp (Z * list Z)) (cap : Z) (HD : forall src c, 1 <= c -> includes n src c [] (deeper src c)).
#[local] Abbreviation loop fuel p out := (expand_loop answer deeper fuel true p cap out).
Context (k : nat) (IH : forall p fuel out, (length p <= k)%nat -> (length p <= fuel)%nat -> Z.of_nat (length out) < cap -> includes (S n) p cap out (loop fuel p out)).
Context (c : Z) (p : list Z) (fuel : nat) (out : list Z) (s : pp) (Hk : (length (c :: p) <= S k)%nat) (Hf : (length (c :: p) <= S fuel)%nat) (Hc : Z.of_nat (length out) < cap)
  (V : vol sects (disk s) F) (Ms : macros_ok (macros s)).

Definition turn : Prop := exists rc o s', loop (S fuel) (c :: p) out s = Some ((rc, o), s') /\ vol sects (disk s') F /\ macros_ok (macros s') /\ ready (disk s') = ready (disk s) /\
  (rc = 0 -> exists x, o = out ++ x /\ included F (S n) (macros s) (c :: p) (macros s') x /\ Z.of_nat (length o) < cap) /\
  (served answer (disk s) -> forall ms' x, included F (S n) (macros s) (c :: p) ms' x -> Z.of_nat (length out) + Z.of_nat (length x) + 1 < cap -> rc = 0 /\ o = out ++ x /\ macros s' = ms').

Lemma define_turn r m : hc_parse_define (Z.of_nat (length (macros s))) (c :: p) = Some (r, m) -> turn.
Proof using IH Hk Hf Hc V Ms.
  intros Pd. unfold turn.
  pose proof (parse_define_ok _ _ _ _ Pd) as (Er & Lr & Hn & Mo). cbn [expand_loop]. rewrite bind_gets, Pd. unfold bind, modify. cbn [length] in Lr, Hk, Hf.
  destruct (IH r fuel out ltac:(lia) ltac:(lia) Hc (mk_pp (macros s ++ [m]) (disk s)) V (macros_ok_snoc _ _ Ms Hn Mo)) as (rc & o & s' & E & V' & M' & R' & H1 & H2).
  exists rc, o, s'. split; [exact E|]. split; [exact V'|]. split; [exact M'|]. split; [exact R'|]. split.
  - intros Hrc. destruct (H1 Hrc) as (x & Ex & Hx & Lx). exists x. split; [exact Ex|]. split; [|exact Lx]. subst r. econstructor 2; [exact Pd | exact Hx].
  - intros Sv ms' x Hx. apply H2; [exact Sv|]. subst r. inversion Hx as [|? ? ? r' m' ? ? Pd' Hx'|? ? ? ? ? ? ? ? ? ? Pd'|? ? ? ? ? _ Pd']; subst; rewrite Pd in Pd'; try discriminate. injection Pd' as <- <-. exact Hx'.
Qed.

Lemma include_turn name r : hc_parse_define (Z.of_nat (length (macros s))) (c :: p) = None -> hc_parse_include 40 (c :: p) = Some (name, r) -> turn.
Proof using HD IH Hk Hf Hc V Ms.
  intros Pd Pi. unfold turn.
  pose proof (parse_include_ok _ _ _ _ Pi) as (Er & Lr). cbn [expand_loop]. rewrite bind_gets, Pd, Pi. unfold bind at 1, load. cbn [length] in Lr, Hk, Hf.
  destruct (load_file_ok answer sects (disk s) F name 4096 V ltac:(lia)) as (rc & data & d1 & -> & Mv & L1 & L2). pose proof (vol_same _ _ _ _ V Mv) as V1. pose proof Mv as (_ & R1 & _).
  destruct (Z.eqb_spec rc 0) as [->|Nrc]; cbn [negb].
  2: { exists (-2), out, (mk_pp (macros s) d1). split; [reflexivity|]. split; [exact V1|]. split; [exact Ms|]. split; [exact R1|]. split; [discriminate|]. intros Sv ms' x Hx _. specialize (L2 Sv).
       inversion Hx as [|? ? ? ? ? ? ? Pd'|? ? ? r' nm dt ? ? ? ? _ Pi' Fd Ld|? ? ? ? ? _ _ Pi']; subst; try congruence. rewrite Pi in Pi'. injection Pi' as <- <-. rewrite Fd in L2. destruct (Z.ltb_spec (Z.of_nat (length dt)) 4096); [contradiction | lia]. }
  destruct (L1 eq_refl) as [Fd Ld]. unfold bind at 1.
  destruct (HD (cstr data) (cap - Z.of_nat (length out)) ltac:(lia) (mk_pp (macros s) d1) V1 Ms) as (rc & sub & s2 & -> & V2 & M2 & R2 & H1 & H2). cbn [macros disk] in *.
  assert (Inv : forall ms' x, included F (S n) (macros s) (c :: p) ms' x -> exists ms1 y z, x = y ++ z /\ included F n (macros s) (cstr data) ms1 y /\ included F (S n) ms1 r ms' z).
  { intros ms' x Hx. inversion Hx as [|? ? ? ? ? ? ? Pd'|? ? ? r' nm dt ms1 y ? z _ Pi' Fd' _ Hy Hz|? ? ? ? ? _ _ Pi']; subst; try congruence. rewrite Pi in Pi'. injection Pi' as <- <-. rewrite Fd in Fd'. injection Fd' as <-. exists ms1, y, z. auto. }
  assert (Sv2 : served answer (disk s) -> served answer d1) by (intros [Sv|Sv]; [left; congruence | right; exact Sv]).
  destruct (Z.eqb_spec rc 0) as [->|Nrc]; cbn [negb].
  2: { exists (-3), out, s2. split; [reflexivity|]. split; [exact V2|]. split; [exact M2|]. split; [congruence|]. split; [discriminate|]. intros Sv ms' x Hx Lx. destruct (Inv _ _ Hx) as (ms1 & y & z & -> & Hy & _).
       rewrite length_app in Lx. destruct (H2 (Sv2 Sv) ms1 y Hy ltac:(cbn; lia)) as [K _]. contradiction. }
  destruct (H1 eq_refl) as (y & -> & Hy & Ly). cbn [app] in *. destruct (Z.leb_spec cap (Z.of_nat (length (out ++ y)) + 1)) as [Hfull|Hroom].
  { exists (-4), (out ++ y), s2. split; [reflexivity|]. split; [exact V2|]. split; [exact M2|]. split; [congruence|]. split; [discriminate|]. intros Sv ms' x Hx Lx. destruct (Inv _ _ Hx) as (ms1 & y' & z & -> & Hy' & _).
    rewrite length_app in *. destruct (H2 (Sv2 Sv) ms1 y' Hy' ltac:(cbn; lia)) as (_ & -> & _). lia. }
  destruct (IH r fuel (out ++ y) ltac:(lia) ltac:(lia) ltac:(lia) s2 V2 M2) as (rc & o & s3 & E3 & V3 & M3 & R3 & H3 & H4).
  exists rc, o, s3. split; [exact E3|]. split; [exact V3|]. split; [exact M3|]. split; [congruence|]. split.
  - intros Hrc. destruct (H3 Hrc) as (z & -> & Hz & Lz). exists (y ++ z). split; [rewrite app_assoc; reflexivity|]. split; [|exact Lz]. subst r. econstructor 3; eassumption.
  - intros Sv ms' x Hx Lx. destruct (Inv _ _ Hx) as (ms1 & y' & z & -> & Hy' & Hz). rewrite length_app in Lx. destruct (H2 (Sv2 Sv) ms1 y' Hy' ltac:(cbn; lia)) as (_ & <- & E1). rewrite <- E1 in Hz.
     destruct (H4 ltac:(destruct Sv as [Sv|Sv]; [left; congruence | right; exact Sv]) ms' z Hz) as (-> & -> & Em); [rewrite length_app; lia|]. rewrite app_assoc. auto.
Qed.

Lemma line_turn : hc_parse_define (Z.of_nat (length (macros s))) (c :: p) = None -> hc_parse_include 40 (c :: p) = None -> turn.
Proof using IH Hk Hf Hc V Ms.
  intros Pd Pi. unfold turn.
  assert (E : expand_loop answer deeper (S fuel) true (c :: p) cap out s = expand_loop answer deeper (S fuel) false (c :: p) cap out s) by (cbn [expand_loop]; rewrite !bind_gets, Pd, Pi; reflexivity).
  rewrite E. clear E.
  assert (Inv : forall ms' x, included F (S n) (macros s) (c :: p) ms' x -> exists z, x = first_line (c :: p) ++ z /\ included F (S n) (macros s) (next_line (c :: p)) ms' z).
  { intros ms' x Hx. inversion Hx as [|? ? ? ? ? ? ? Pd'|? ? ? ? ? ? ? ? ? ? _ Pi'|? ? ? ? z _ _ _ Hz]; subst; try congruence. exists z. auto. }
  destruct (copy_line deeper cap s (c :: p) (S fuel) out Hf) as [(o & -> & Hfull)|(f' & Hf' & -> & Hroom)].
  - exists (-4), o, s. split; [reflexivity|]. split; [exact V|]. split; [exact Ms|]. split; [reflexivity|]. split; [discriminate|]. intros Sv ms' x Hx Lx. destruct (Inv _ _ Hx) as (z & -> & _). rewrite length_app in Lx. lia.
  - assert (Ln : (length (next_line (c :: p)) <= k)%nat).
     { rewrite next_line_cons. pose proof (next_line_length p). cbn [length] in Hk. destruct (c =? 10); lia. }
     destruct (IH (next_line (c :: p)) f' (out ++ first_line (c :: p)) Ln Hf' ltac:(rewrite length_app; lia) s V Ms) as (rc & o & s3 & E3 & V3 & M3 & R3 & H3 & H4).
     exists rc, o, s3. split; [exact E3|]. split; [exact V3|]. split; [exact M3|]. split; [exact R3|]. split.
    + intros Hrc. destruct (H3 Hrc) as (z & -> & Hz & Lz). exists (first_line (c :: p) ++ z). split; [rewrite app_assoc; reflexivity|]. split; [|exact Lz]. constructor 4; [discriminate | exact Pd | exact Pi | exact Hz].
    + intros Sv ms' x Hx Lx. destruct (Inv _ _ Hx) as (z & -> & Hz). rewrite length_app in Lx. destruct (H4 Sv ms' z Hz) as (-> & -> & Em); [rewrite length_app; lia|]. rewrite app_assoc. auto.
Qed.
End Loop.

Lemma loop_includes n deeper cap : (forall src c, 1 <= c -> includes n src c [] (deeper src c)) -> forall k p fuel out, (length p <= k)%nat -> (length p <= fuel)%nat -> Z.of_nat (length out) < cap ->
  includes (S n) p cap out (expand_loop answer deeper fuel true p cap out).
Proof using.
  intros HD. induction k as [|k IH]; intros p fuel out Hk Hf Hc s V Ms.
  - destruct p; [|cbn in Hk; lia]. rewrite loop_nil. exists 0, out, s. split; [reflexivity|]. split; [exact V|]. split; [exact Ms|]. split; [reflexivity|]. split.
    + intros _. exists []. rewrite app_nil_r. split; [reflexivity|]. split; [constructor | exact Hc].
    + intros _ ms' x H _. apply included_nil in H as [-> ->]. rewrite app_nil_r. auto.
  - destruct p as [|c p]; [exact (IH [] fuel out ltac:(cbn; lia) Hf Hc s V Ms)|]. destruct fuel as [|fuel]; [cbn in Hf; lia|].
    destruct (hc_parse_define (Z.of_nat (length (macros s))) (c :: p)) as [[r m]|] eqn:Pd; [exact (define_turn n deeper cap k IH c p fuel out s Hk Hf Hc V Ms r m Pd)|].
    destruct (hc_parse_include 40 (c :: p)) as [[name r]|] eqn:Pi; [exact (include_turn n deeper cap HD k IH c p fuel out s Hk Hf Hc V Ms name r Pd Pi) | exact (line_turn n deeper cap k IH c p fuel out s Hk Hf Hc V Ms Pd Pi)].
Qed.

Lemma includes_ok n : forall src cap, 1 <= cap -> includes n src cap [] (hc_expand_includes_r answer n src cap).
Proof using.
  induction n as [|n IH]; intros src cap Hc.
  - intros s V Ms. exists (-1), [], s. split; [reflexivity|]. split; [exact V|]. split; [exact Ms|]. split; [reflexivity|]. split; [discriminate|]. intros _ ms' x Hx. apply included_levels in Hx as (k & Hx). discriminate.
  - cbn [hc_expand_includes_r]. apply (loop_includes n _ cap IH (length src)); cbn; lia.
Qed.
End Includes.

(** ** Macros *)

Section Macros.
Context (ms : list hc_macro).

(** A word outside strings: its body, if it is the name of a macro. *)
Definition body_of (w : list Z) : list Z := match hc_find_macro ms w with Some m => m_body m | None => w end.
Definition flush (w : list Z) : list Z := match w with [] => [] | _ => body_of w end.

(** The text with its macros replaced: [w] is the word that has been read so far. *)
Fixpoint subst (w : list Z) (in_str : bool) (p : list Z) : list Z :=
  match p with
  | [] => flush w
  | c :: p' =>
      if bool_decide (w <> []) && hc_mac_ident_char c then subst (w ++ [c]) in_str p'
      else flush w ++
        (if c =? 34 then c :: subst [] (negb in_str) p'
         else if negb in_str && hc_mac_ident_start c then subst [c] in_str p'
         else c :: subst [] in_str p')
  end.

(** The words outside strings. *)
Fixpoint words (w : list Z) (in_str : bool) (p : list Z) : list (list Z) :=
  let done := match w with [] => [] | _ => [w] end in
  match p with
  | [] => done
  | c :: p' =>
      if bool_decide (w <> []) && hc_mac_ident_char c then words (w ++ [c]) in_str p'
      else done ++
        (if c =? 34 then words [] (negb in_str) p'
         else if negb in_str && hc_mac_ident_start c then words [c] in_str p'
         else words [] in_str p')
  end.

(** No word outside strings is the name of a macro. *)
Definition clean (p : list Z) : Prop := Forall (fun w => hc_find_macro ms w = None) (words [] false p).

Lemma subst_word w in_str p : w <> [] -> subst w in_str p = body_of (w ++ take_while hc_mac_ident_char p) ++ subst [] in_str (drop_while hc_mac_ident_char p) /\
  words w in_str p = (w ++ take_while hc_mac_ident_char p) :: words [] in_str (drop_while hc_mac_ident_char p).
Proof using.
  revert w. induction p as [|c p IH]; intros w Hw.
  - cbn. rewrite !app_nil_r. destruct w; [contradiction | split; reflexivity].
  - cbn [subst words take_while drop_while]. rewrite bool_decide_true by exact Hw. cbn [andb]. destruct (hc_mac_ident_char c) eqn:E.
    + destruct (IH (w ++ [c])) as [H1 H2]; [destruct w; discriminate|]. rewrite H1, H2, <- app_assoc. split; reflexivity.
    + rewrite app_nil_r. cbn [subst words]. rewrite (bool_decide_false (@nil Z <> [])) by tauto. cbn [andb flush app]. destruct w; [contradiction | split; reflexivity].
Qed.

Lemma start_char c : hc_mac_ident_start c = true -> hc_mac_ident_char c = true.
Proof using. unfold hc_mac_ident_start, hc_mac_ident_char. intros H. apply orb_true_iff in H as [H|H]; [apply orb_true_iff in H as [H|H]|]; rewrite H; rewrite ?orb_true_r; reflexivity. Qed.

(** A pass is a substitution, and notices whether it replaced anything. *)
Lemma pass_subst : forall fuel p in_str changed out, (length p <= fuel)%nat ->
  match expand_pass fuel ms p in_str changed out with
  | Some (o, ch) => o = out ++ subst [] in_str p /\ (ch = false <-> changed = false /\ Forall (fun w => hc_find_macro ms w = None) (words [] in_str p)) /\
      (Z.of_nat (length out) < HC_SRC_MAX -> Z.of_nat (length o) < HC_SRC_MAX)
  | None => HC_SRC_MAX <= Z.of_nat (length out) + Z.of_nat (length (subst [] in_str p)) + 1
  end.
Proof using.
  induction fuel as [|fuel IH]; intros p in_str changed out Hf; (destruct p as [|c p]; [cbn; rewrite app_nil_r; split; [reflexivity | split; [split; [intros ->; auto | tauto] | tauto]] | cbn [length] in Hf]); [lia|].
  cbn [expand_pass subst words]. rewrite (bool_decide_false (@nil Z <> [])) by tauto. cbn [andb flush app].
  assert (Copy : forall in_str', match (if HC_SRC_MAX <=? Z.of_nat (length out) + 1 then None else expand_pass fuel ms p in_str' changed (out ++ [c])) with
    | Some (o, ch) => o = out ++ c :: subst [] in_str' p /\ (ch = false <-> changed = false /\ Forall (fun w => hc_find_macro ms w = None) (words [] in_str' p)) /\
        (Z.of_nat (length out) < HC_SRC_MAX -> Z.of_nat (length o) < HC_SRC_MAX)
    | None => HC_SRC_MAX <= Z.of_nat (length out) + Z.of_nat (length (c :: subst [] in_str' p)) + 1 end).
  { intros in_str'. destruct (Z.leb_spec HC_SRC_MAX (Z.of_nat (length out) + 1)); [cbn [length]; lia|]. specialize (IH p in_str' changed (out ++ [c]) ltac:(lia)).
    destruct (expand_pass _ _ _ _ _ _) as [[o ch]|]; rewrite <- ?app_assoc in IH; rewrite length_app in IH; cbn [length app] in *; [|lia]. destruct IH as (H1 & H2 & H3). split; [exact H1 | split; [exact H2 | lia]]. }
  destruct (c =? 34); [apply Copy|]. destruct (negb in_str && hc_mac_ident_start c) eqn:E; [|apply Copy]. apply andb_true_iff in E as [_ Es]. cbn [take_while drop_while]. rewrite (start_char c Es).
  destruct (subst_word [c] in_str p) as [-> ->]; [discriminate|]. cbn [app]. set (w := c :: take_while hc_mac_ident_char p). set (rest := drop_while hc_mac_ident_char p).
  assert (Lr : (length rest <= fuel)%nat) by (pose proof (drop_while_length hc_mac_ident_char p); subst rest; lia).
  unfold body_of. destruct (hc_find_macro ms w) as [m|] eqn:Fm.
  - destruct (Z.leb_spec HC_SRC_MAX (Z.of_nat (length out) + Z.of_nat (length (m_body m)) + 1)); [rewrite length_app; lia|]. specialize (IH rest in_str true (out ++ m_body m) Lr).
    destruct (expand_pass _ _ _ _ _ _) as [[o ch]|]; rewrite <- ?app_assoc in IH; rewrite !length_app in *; [|lia]. destruct IH as (H1 & H2 & H3). split; [exact H1|]. split; [|lia].
    split; [intros ->; destruct (proj1 H2 eq_refl); discriminate | intros [_ K]; apply List.Forall_cons_iff in K as [K _]; congruence].
  - destruct (Z.leb_spec HC_SRC_MAX (Z.of_nat (length out) + Z.of_nat (length w) + 1)); [rewrite length_app; lia|]. specialize (IH rest in_str changed (out ++ w) Lr).
    destruct (expand_pass _ _ _ _ _ _) as [[o ch]|]; rewrite <- ?app_assoc in IH; rewrite !length_app in *; [|lia]. destruct IH as (H1 & H2 & H3). split; [exact H1|]. split; [|lia].
    rewrite H2, List.Forall_cons_iff. tauto.
Qed.

Definition subst_all (p : list Z) : list Z := subst [] false p.
Fixpoint rounds (k : nat) (p : list Z) : list Z := match k with O => p | S k' => rounds k' (subst_all p) end.

(** A text without macros is as it was. *)
Lemma subst_clean : forall p w in_str, Forall (fun w => hc_find_macro ms w = None) (words w in_str p) -> subst w in_str p = w ++ p.
Proof using.
  induction p as [|c p IH]; intros w in_str; cbn [subst words].
  - destruct w; [reflexivity|]. cbn [flush]. intros H. apply List.Forall_cons_iff in H as [H _]. unfold body_of. rewrite H, app_nil_r. reflexivity.
  - destruct (bool_decide (w <> []) && hc_mac_ident_char c); [intros H; rewrite IH, <- app_assoc by exact H; reflexivity|]. intros H. apply Forall_app in H as [H1 H2].
    assert (flush w = w) as ->. { destruct w; [reflexivity|]. apply List.Forall_cons_iff in H1 as [H1 _]. cbn [flush]. unfold body_of. rewrite H1. reflexivity. }
    f_equal. destruct (c =? 34); [rewrite IH by exact H2; reflexivity|]. destruct (_ && _); rewrite IH by exact H2; reflexivity.
Qed.

Lemma passes_ok : forall k p cap, (length p < Z.to_nat HC_SRC_MAX)%nat ->
  (forall dst, expand_passes k ms p cap = Some dst -> exists j, (j < k)%nat /\ dst = rounds j p /\ clean dst /\ Z.of_nat (length dst) < cap) /\
  (forall j, (j < k)%nat -> clean (rounds j p) -> (forall i, (i <= j)%nat -> Z.of_nat (length (rounds i p)) + 1 < HC_SRC_MAX) -> Z.of_nat (length (rounds j p)) < cap -> expand_passes k ms p cap = Some (rounds j p)).
Proof using.
  induction k as [|k IH]; intros p cap Hp; [split; [discriminate | lia]|]. cbn [expand_passes]. pose proof (pass_subst (length p) p false false [] (le_n _)) as H.
  destruct (expand_pass _ _ _ _ _ _) as [[o ch]|] eqn:E.
  - destruct H as (-> & Hch & Ho). cbn [app] in *. fold (subst_all p) in *. assert (Lo : (length (subst_all p) < Z.to_nat HC_SRC_MAX)%nat) by (cbn [length] in Ho; unfold HC_SRC_MAX in *; lia).
    destruct ch.
    + destruct (IH (subst_all p) cap Lo) as [H1 H2]. split.
      * intros dst Hd. apply H1 in Hd as (j & Hj & -> & Hc & Hl). exists (S j). split; [lia|]. auto.
      * intros j Hj Hc Hs Hl. destruct j as [|j]; [|apply H2; [lia | exact Hc | intros i Hi; apply (Hs (S i)); lia | exact Hl]].
        enough (true = false) by discriminate. apply Hch. split; [reflexivity | exact Hc].
    + destruct (proj1 Hch eq_refl) as [_ Cl]. assert (Es : subst_all p = p) by (apply (subst_clean p [] false Cl)). rewrite Es. split.
      * intros dst. destruct (Z.ltb_spec cap (Z.of_nat (length p) + 1)); [discriminate|]. intros [= <-]. exists 0%nat. split; [lia|]. split; [reflexivity|]. split; [exact Cl | lia].
      * intros j Hj Hc Hs Hl. assert (Er : forall i, rounds i p = p) by (induction i as [|i IHi]; [reflexivity | cbn [rounds]; rewrite Es; exact IHi]). rewrite Er in *.
        destruct (Z.ltb_spec cap (Z.of_nat (length p) + 1)); [lia | reflexivity].
  - split; [discriminate|]. intros j Hj Hc Hs Hl. cbn [length] in H. fold (subst_all p) in H. destruct j as [|j].
    + specialize (Hs 0%nat (le_n _)). cbn [rounds] in *. rewrite (subst_clean p [] false Hc : subst_all p = p) in H. lia.
    + specialize (Hs 1%nat ltac:(lia)). cbn [rounds] in Hs. lia.
Qed.
End Macros.

(** ** The preprocessor *)

Lemma recode_ind (P : list Z -> list Z -> Prop) : P [] [] -> (forall r, P r (recode r) -> P (206 :: 184 :: r) (233 :: recode r)) -> (forall r, P r (recode r) -> P (207 :: 128 :: r) (227 :: recode r)) ->
  (forall c r, P r (recode r) -> (forall r', c :: r <> 206 :: 184 :: r') -> (forall r', c :: r <> 207 :: 128 :: r') -> P (c :: r) (c :: recode r)) -> forall p, P p (recode p).
Proof.
  intros H0 H1 H2 H3 p. remember (length p) as n eqn:En. assert (Hn : (length p <= n)%nat) by lia. clear En. revert p Hn. induction n as [|n IH]; intros p Hn; [destruct p; [exact H0 | cbn in Hn; lia]|].
  destruct p as [|c [|d r]]; [exact H0 | |]; cbn [length] in Hn.
  - assert (recode [c] = [c]) as ->; [|apply (H3 c [] H0); discriminate]. destruct c as [|c|c]; try reflexivity. do 9 (destruct c as [c|c|]; try reflexivity).
  - destruct (decide (c = 206 /\ d = 184)) as [[-> ->]|N1]; [apply H1, IH; lia|]. destruct (decide (c = 207 /\ d = 128)) as [[-> ->]|N2]; [apply H2, IH; lia|].
    assert (recode (c :: d :: r) = c :: recode (d :: r)) as ->.
    { cbn [recode]. destruct c as [|c|c]; try reflexivity. do 8 (destruct c as [c|c|]; try reflexivity); (destruct d as [|d|d]; try reflexivity; do 8 (destruct d as [d|d|]; try reflexivity); exfalso; tauto). }
    apply H3; [apply IH; cbn [length]; lia | intros r' [= -> -> _]; tauto | intros r' [= -> -> _]; tauto].
Qed.

Lemma recode_length p : (length (recode p) <= length p)%nat.
Proof. apply (recode_ind (fun p q => (length q <= length p)%nat)); cbn [length]; intros; lia. Qed.

Lemma recode_plain p : Forall (fun c => c <> 206 /\ c <> 207) p -> recode p = p.
Proof.
  apply (recode_ind (fun p q => Forall (fun c => c <> 206 /\ c <> 207) p -> q = p)); [reflexivity | intros r _ H | intros r _ H | intros c r H _ _ K];
    [apply List.Forall_cons_iff in H as [[H _] _]; contradiction | apply List.Forall_cons_iff in H as [[_ H] _]; contradiction | apply List.Forall_cons_iff in K as [_ K]; rewrite (H K); reflexivity].
Qed.

(** C9: the preprocessor comes to an end on every text and every sound volume and leaves the
    volume alone.  A text it returns is the given one with its includes, at most four deep,
    replaced by the files and its definitions taken out, then with the macros replaced in at most
    seven rounds, until no word outside strings is the name of a macro, and recoded; it fits its
    buffer.  If the device answers, every text that has such an expansion gets it, unless a round
    of it is too long for the buffers. *)
Theorem hc_expand_includes_ok answer sects F src cap s : vol sects (disk s) F -> 2 <= cap ->
  exists r s', hc_expand_includes answer src cap s = Some (r, s') /\ vol sects (disk s') F /\
    (forall dst, r = Some dst -> exists ms mid k, included F 5 [] src ms mid /\ macros_ok ms /\ (k < 8)%nat /\ clean ms (rounds ms k mid) /\ dst = recode (rounds ms k mid) /\ Z.of_nat (length dst) < cap) /\
    (served answer (disk s) -> forall ms mid k, included F 5 [] src ms mid -> (k < 8)%nat -> clean ms (rounds ms k mid) ->
       (forall i, (i <= k)%nat -> Z.of_nat (length (rounds ms i mid)) + 1 < HC_SRC_MAX) -> Z.of_nat (length (rounds ms k mid)) < cap -> r = Some (recode (rounds ms k mid))).
Proof.
  intros V Hc. unfold hc_expand_includes. destruct (Z.ltb_spec cap 2); [lia|]. unfold bind at 1, modify.
  assert (M0 : macros_ok []) by (split; [discriminate | constructor]). unfold bind at 1.
  destruct (includes_ok answer sects F 5 src HC_SRC_MAX ltac:(discriminate) (mk_pp [] (disk s)) V M0) as (rc & mid & s1 & -> & V1 & M1 & R1 & H1 & H2). cbn [macros disk app] in *.
  destruct (Z.eqb_spec rc 0) as [->|N]; cbn [negb].
  - destruct (H1 eq_refl) as (x & -> & Hx & Lx). rewrite bind_gets. unfold hc_expand_macros. assert (Lx' : (length x < Z.to_nat HC_SRC_MAX)%nat) by (unfold HC_SRC_MAX in *; lia).
    destruct (passes_ok (macros s1) 8 x cap Lx') as [P1 P2]. destruct (Z.leb_spec HC_SRC_MAX (Z.of_nat (length x) + 1)) as [Hb|Hb].
    + exists None, s1. split; [reflexivity|]. split; [exact V1|]. split; [discriminate|]. intros Sv ms m k Hm Hk Hcl Hs Hl. specialize (Hs 0%nat ltac:(lia)). cbn [rounds] in Hs. destruct (H2 Sv ms m Hm ltac:(cbn; lia)) as (_ & -> & _). lia.
    + destruct (expand_passes 8 (macros s1) x cap) as [dst|] eqn:E.
      * exists (Some (recode dst)), s1. split; [reflexivity|]. split; [exact V1|]. destruct (P1 dst eq_refl) as (j & Hj & -> & Hcl & Hl). split.
        -- intros d [= <-]. exists (macros s1), x, j. split; [exact Hx|]. split; [exact M1|]. split; [exact Hj|]. split; [exact Hcl|]. split; [reflexivity|]. pose proof (recode_length (rounds (macros s1) j x)). lia.
        -- intros Sv ms m k Hm Hk Hcl' Hs Hl'. destruct (H2 Sv ms m Hm ltac:(specialize (Hs 0%nat ltac:(lia)); cbn [rounds] in Hs; cbn; lia)) as (_ & -> & <-). specialize (P2 k Hk Hcl' Hs Hl'). congruence.
      * exists None, s1. split; [reflexivity|]. split; [exact V1|]. split; [discriminate|]. intros Sv ms m k Hm Hk Hcl Hs Hl.
        destruct (H2 Sv ms m Hm ltac:(specialize (Hs 0%nat ltac:(lia)); cbn [rounds] in Hs; cbn; lia)) as (_ & -> & <-). specialize (P2 k Hk Hcl Hs Hl). discriminate.
  - exists None, s1. split; [reflexivity|]. split; [exact V1|]. split; [discriminate|]. intros Sv ms m k Hm Hk Hcl Hs Hl. specialize (Hs 0%nat ltac:(lia)). cbn [rounds] in Hs. destruct (H2 Sv ms m Hm ltac:(cbn; lia)) as [-> _]. contradiction.
Qed.

(** ** Examples *)

Definition S_ (s : String.string) : list Z := bytes_of_string s.
Definition NL_ : list Z := [10].
(** A volume with a file that defines a macro. *)
Definition lib_vol : dev := device (rs_put_file all_served (S_ "L.HC") (S_ "#define TWO ONE+ONE" ++ NL_ ++ S_ "#define ONE 1" ++ NL_) demo_vol).
Definition expand (src : list Z) : option (option (list Z)) := match hc_expand_includes all_served src 16384 (mk_pp [] lib_vol) with Some (r, _) => Some r | None => None end.
Definition demo_src : list Z := S_ "#include <l.hc>" ++ NL_ ++ S_ "TWO;".

Example expand_demo : expand demo_src = Some (Some (S_ "1+1;")).
Proof. vm_compute. reflexivity. Qed.

(** A character constant [34] between apostrophes is taken for the end of a string: the macros
    behind it are not replaced. *)
Theorem quote_constant_hides_macros :
  expand (S_ "#define N 5" ++ NL_ ++ S_ "N+'" ++ [34] ++ S_ "'+N;") = Some (Some (S_ "5+'" ++ [34] ++ S_ "'+N;")).
Proof. vm_compute. reflexivity. Qed.

(** A macro that mentions itself is never settled: the text is refused. *)
Theorem recursive_macro_refused : expand (S_ "#define N N+1" ++ NL_ ++ S_ "N;") = Some None.
Proof. vm_compute. reflexivity. Qed.

Lemma lib_vol_ok : exists F, vol 16 lib_vol F.
Proof.
  destruct (put_file_ok all_served all_honest 16 demo_vol _ (S_ "L.HC") (S_ "#define TWO ONE+ONE" ++ NL_ ++ S_ "#define ONE 1" ++ NL_) demo_vol_ok) as (c & d' & F' & E & V & _);
    [discriminate | repeat constructor; discriminate | repeat constructor; lia | repeat constructor; lia|].
  exists F'. unfold lib_vol. rewrite E. exact V.
Qed.

Lemma hc_expand_includes_ok_witness : exists s' F ms mid k, hc_expand_includes all_served demo_src 16384 (mk_pp [] lib_vol) = Some (Some (S_ "1+1;"), s') /\
  included F 5 [] demo_src ms mid /\ clean ms (rounds ms k mid) /\ S_ "1+1;" = recode (rounds ms k mid).
Proof.
  destruct lib_vol_ok as [F V]. destruct (hc_expand_includes_ok all_served 16 F demo_src 16384 (mk_pp [] lib_vol) V ltac:(lia)) as (r & s' & E & _ & H & _).
  assert (Hr : r = Some (S_ "1+1;")). { pose proof expand_demo as K. unfold expand in K. rewrite E in K. congruence. }
  rewrite Hr in E. destruct (H _ Hr) as (ms & mid & k & H1 & _ & _ & H2 & H3 & _). exists s', F, ms, mid, k. split; [exact E|]. split; [exact H1|]. split; [exact H2 | exact H3].
Defined.
