(* ===== verification/HcStr.v ===== *)
(** * HolyC's string, formatting and heap functions ([hc_builtin_] in [src/src/kernel_stub.c])

    Memory is a function from addresses to bytes.  A walk over a string takes [fuel], more than the
    characters of any string it meets; a signed integer that overflows is a run without a result,
    as in C. *)

From S2P Require Import Prelude.
#[local] Open Scope Z_scope.
#[local] Open Scope sm_scope.

Record hc_state := mk_hc { mem : Z -> Z; g_hc_heap_top : Z; g_hc_heap_last : Z }.
Abbreviation M := (SM hc_state).

Definition set_mem (v : Z -> Z) (s : hc_state) : hc_state := mk_hc v (g_hc_heap_top s) (g_hc_heap_last s).
Definition poke (a b : Z) (v : Z -> Z) : Z -> Z := fun x => if x =? a then u8 b else v x.
(** [*p] of a string that may be NULL, which stands for the empty one. *)
Definition peek (p i : Z) : M Z := gets (fun s => if p =? 0 then 0 else mem s (p + i)).
Definition put (a b : Z) : M unit := modify (fun s => set_mem (poke a b (mem s)) s).

Definition is_i64 (v : Z) : bool := (- 2 ^ 63 <=? v) && (v <? 2 ^ 63).

(** ** Strings *)

Fixpoint strlen_loop (fuel : nat) (p n : Z) : M Z :=
  match fuel with
  | O => diverge
  | S fuel' => let! c := peek p n in if c =? 0 then ret n else strlen_loop fuel' p (n + 1)
  end.
Definition hc_builtin_strlen (fuel : nat) (s : Z) : M Z := if s =? 0 then ret 0 else strlen_loop fuel s 0.

Fixpoint strcmp_loop (fuel : nat) (a b i : Z) : M Z :=
  match fuel with
  | O => diverge
  | S fuel' =>
      let! x := peek a i in
      let! y := peek b i in
      if negb (x =? 0) && (x =? y) then strcmp_loop fuel' a b (i + 1) else ret (u64 (x - y))
  end.
Definition hc_builtin_strcmp (fuel : nat) (a b : Z) : M Z := strcmp_loop fuel a b 0.

(** Copies up to and with the NUL. *)
Fixpoint copy_loop (fuel : nat) (d s i : Z) : M unit :=
  match fuel with
  | O => diverge
  | S fuel' => let! c := peek s i in put (d + i) c;; if c =? 0 then ret tt else copy_loop fuel' d s (i + 1)
  end.
Definition hc_builtin_strcpy (fuel : nat) (dst src : Z) : M Z := if dst =? 0 then ret 0 else copy_loop fuel dst src 0;; ret dst.
Definition hc_builtin_strcat (fuel : nat) (dst src : Z) : M Z :=
  if dst =? 0 then ret 0 else let! n := strlen_loop fuel dst 0 in copy_loop fuel (dst + n) src 0;; ret dst.

Definition is_dec (c : Z) : bool := (48 <=? c) && (c <=? 57).
Definition is_hex (c : Z) : bool := is_dec c || (97 <=? c) && (c <=? 102) || (65 <=? c) && (c <=? 70).
Definition hex_digit (c : Z) : Z := if is_dec c then c - 48 else if (97 <=? c) && (c <=? 102) then c - 97 + 10 else c - 65 + 10.

Fixpoint skip_loop (fuel : nat) (s i : Z) : M Z :=
  match fuel with
  | O => diverge
  | S fuel' => let! c := peek s i in if (c =? 32) || (c =? 9) then skip_loop fuel' s (i + 1) else ret i
  end.
Fixpoint hex_loop (fuel : nat) (s i v : Z) : M Z :=
  match fuel with
  | O => diverge
  | S fuel' =>
      let! c := peek s i in
      if is_hex c then (if is_i64 (16 * v) then hex_loop fuel' s (i + 1) (Z.lor (16 * v) (hex_digit c)) else diverge) else ret v
  end.
Fixpoint dec_loop (fuel : nat) (s i v : Z) : M Z :=
  match fuel with
  | O => diverge
  | S fuel' =>
      let! c := peek s i in
      if is_dec c then (if is_i64 (v * 10 + (c - 48)) then dec_loop fuel' s (i + 1) (v * 10 + (c - 48)) else diverge) else ret v
  end.

Definition hc_builtin_str2i64 (fuel : nat) (s : Z) : M Z :=
  if s =? 0 then ret 0
  else
    let! i := skip_loop fuel s 0 in
    let! c := peek s i in
    let neg := c =? 45 in
    let i := if (c =? 45) || (c =? 43) then i + 1 else i in
    let! c0 := peek s i in
    let! c1 := (if c0 =? 48 then peek s (i + 1) else ret 0) in
    let! v := (if (c0 =? 48) && ((c1 =? 120) || (c1 =? 88)) then hex_loop fuel s (i + 2) 0 else dec_loop fuel s i 0) in
    ret (u64 (if neg then - v else v)).

Fixpoint hash_loop (fuel : nat) (s i h : Z) : M Z :=
  match fuel with
  | O => diverge
  | S fuel' => let! c := peek s i in if c =? 0 then ret h else hash_loop fuel' s (i + 1) (u64 (u64 (Z.shiftl h 5) + h + c))
  end.
Definition hc_builtin_hashstr (fuel : nat) (s : Z) : M Z := if s =? 0 then ret 5381 else hash_loop fuel s 0 5381.

Fixpoint memcpy_loop (n : nat) (d s i : Z) : M unit :=
  match n with O => ret tt | S n' => let! c := peek s i in put (d + i) c;; memcpy_loop n' d s (i + 1) end.
Definition hc_builtin_memcpy (dst src n : Z) : M Z := if (dst =? 0) || (src =? 0) then ret dst else memcpy_loop (Z.to_nat n) dst src 0;; ret dst.

Fixpoint memset_loop (n : nat) (d v i : Z) : M unit :=
  match n with O => ret tt | S n' => put (d + i) v;; memset_loop n' d v (i + 1) end.
Definition hc_builtin_memset (dst val n : Z) : M Z := if dst =? 0 then ret dst else memset_loop (Z.to_nat n) dst (Z.land val 255) 0;; ret dst.

(** ** Numbers *)

(** The digits of [u], the last one first; [tmp] has 24 characters. *)
Fixpoint digits (fuel : nat) (base u : Z) : list Z :=
  match fuel with
  | O => []
  | S fuel' => if u =? 0 then [] else (let d := u mod base in if d <? 10 then 48 + d else 65 + (d - 10)) :: digits fuel' base (u / base)
  end.
Definition number (base u : Z) : list Z := if u =? 0 then [48] else rev (digits 64 base u).
(** The characters of [hc_fmt_i64]; [v] is the argument's pattern. *)
Definition fmt_i64 (v : Z) (hex : bool) : list Z :=
  if hex then number 16 (u64 v)
  else if signed 64 v <? 0 then 45 :: number 10 (u64 (- (signed 64 v + 1)) + 1) else number 10 (u64 v).

Fixpoint put_chars (l : list Z) (d : Z) : M Z :=
  match l with [] => ret d | c :: l' => put d c;; put_chars l' (d + 1) end.
Definition hc_fmt_i64 (d v : Z) (hex : bool) : M Z := put_chars (fmt_i64 v hex) d.

(** ** Formatting *)

(** Copies up to the NUL. *)
Fixpoint cat_loop (fuel : nat) (s i d : Z) : M Z :=
  match fuel with
  | O => diverge
  | S fuel' => let! c := peek s i in if c =? 0 then ret d else put d c;; cat_loop fuel' s (i + 1) (d + 1)
  end.

Fixpoint catprint_loop (fuel : nat) (f i d : Z) (args : list Z) : M Z :=
  match fuel with
  | O => diverge
  | S fuel' =>
      let! c := peek f i in
      if c =? 0 then ret d
      else if negb (c =? 37) then put d c;; catprint_loop fuel' f (i + 1) (d + 1) args
      else
        let! k := peek f (i + 1) in
        if k =? 37 then put d 37;; catprint_loop fuel' f (i + 2) (d + 1) args
        else
          match args with
          | [] => ret d
          | av :: args =>
              if k =? 100 then let! d := hc_fmt_i64 d av false in catprint_loop fuel' f (i + 2) d args
              else if (k =? 88) || (k =? 120) then let! d := hc_fmt_i64 d av true in catprint_loop fuel' f (i + 2) d args
              else if k =? 99 then put d (Z.land av 255);; catprint_loop fuel' f (i + 2) (d + 1) args
              else if k =? 115 then let! d := cat_loop fuel av 0 d in catprint_loop fuel' f (i + 2) d args
              else
                put d 37;;
                if k =? 0 then catprint_loop fuel' f (i + 1) (d + 1) args
                else put (d + 1) k;; catprint_loop fuel' f (i + 2) (d + 2) args
          end
  end.

Definition hc_builtin_catprint (fuel : nat) (dst fmt a0 a1 : Z) : M Z :=
  if dst =? 0 then ret 0
  else
    let! n := strlen_loop fuel dst 0 in
    let! d := catprint_loop fuel fmt 0 (dst + n) [a0; a1] in
    put d 0;; ret dst.

Definition hc_builtin_strprint (fuel : nat) (dst fmt a0 a1 : Z) : M Z :=
  (if dst =? 0 then ret tt else put dst 0);; hc_builtin_catprint fuel dst fmt a0 a1.

(** ** The heap of a program *)

Definition HC_HEAP_BYTES : Z := 65536.

Section Heap.
Context (g_hc_heap : Z).

Definition set_heap (top last : Z) (s : hc_state) : hc_state := mk_hc (mem s) top last.

(** [(n + 15u) & ~15u]: the mask has 32 bits. *)
Definition hc_round (n : Z) : Z := Z.land (u64 (n + 15)) 4294967280.

Definition hc_builtin_malloc (n : Z) : M Z :=
  let n := hc_round (if n =? 0 then 1 else n) in
  let! top := gets g_hc_heap_top in
  if HC_HEAP_BYTES <? u64 (top + n) then ret 0
  else modify (set_heap (top + n) top);; ret (u64 (g_hc_heap + top)).

Definition hc_builtin_free (p : Z) : M Z :=
  if p =? 0 then modify (set_heap 0 0);; ret 0
  else
    let! last := gets g_hc_heap_last in
    (if p =? u64 (g_hc_heap + last) then modify (set_heap last last) else ret tt);; ret 0.

Definition hc_builtin_strnew (fuel : nat) (src : Z) : M Z :=
  let! len := hc_builtin_strlen fuel src in
  let! p := hc_builtin_malloc (u64 (len + 1)) in
  if p =? 0 then ret 0
  else if src =? 0 then put p 0;; ret p
  else (let! r := hc_builtin_memcpy p src (u64 (len + 1)) in ret p).

Definition hc_builtin_mstrprint (fuel : nat) (fmt a0 a1 : Z) : M Z :=
  let! p := hc_builtin_malloc 128 in
  if p =? 0 then ret 0
  else
    put p 0;;
    let! r := hc_builtin_catprint fuel p fmt a0 a1 in
    ret p.
End Heap.
