(* ===== verification/HcStrThms.v ===== *)
(** * HolyC's string functions: what they do to memory *)

From S2P Require Import Prelude HcStr.
#[local] Open Scope Z_scope.
#[local] Open Scope sm_scope.

(** ** Strings in memory *)

Definition chars (s : list Z) : Prop := Forall (fun c => 0 < c < 256) s.
(** The characters [s] and a NUL are at [a]; NULL is the empty string. *)
Definition string_at (m : Z -> Z) (a : Z) (s : list Z) : Prop := a <> 0 /\ chars s /\ forall i, (i <= length s)%nat -> m (a + Z.of_nat i) = nth i s 0.
Definition text (m : Z -> Z) (a : Z) (s : list Z) : Prop := a = 0 /\ s = [] \/ string_at m a s.

Lemma peek_text st a s i : text (mem st) a s -> (i <= length s)%nat -> peek a (Z.of_nat i) st = Some (nth i s 0, st).
Proof.
  intros [[-> ->]|(Ha & _ & H)] Hi; unfold peek, gets; [cbn in Hi; replace i with 0%nat by lia; reflexivity|].
  destruct (Z.eqb_spec a 0); [contradiction|]. rewrite H by exact Hi. reflexivity.
Qed.

Lemma text_chars m a s : text m a s -> chars s.
Proof. intros [[_ ->]|(_ & H & _)]; [constructor | exact H]. Qed.

Lemma chars_nth s i : chars s -> (i < length s)%nat -> 0 < nth i s 0 < 256.
Proof. intros H Hi. unfold chars in H. rewrite List.Forall_forall in H. apply H. apply nth_In. exact Hi. Qed.

Lemma nth_end (s : list Z) : nth (length s) s 0 = 0.
Proof. apply nth_overflow. lia. Qed.

(** The bytes [l] at [d]; nothing else, and the heap not at all. *)
Definition wrote (st : hc_state) (d : Z) (l : list Z) (st' : hc_state) : Prop :=
  g_hc_heap_top st' = g_hc_heap_top st /\ g_hc_heap_last st' = g_hc_heap_last st /\
  forall x, mem st' x = if (d <=? x) && (x <? d + Z.of_nat (length l)) then byte_at l (x - d) else mem st x.

Lemma wrote_nil st d : wrote st d [] st.
Proof. split; [reflexivity|]. split; [reflexivity|]. intros x. cbn [length]. destruct (Z.leb_spec d x), (Z.ltb_spec x (d + Z.of_nat 0)); cbn [andb]; try reflexivity. lia. Qed.

Lemma wrote_app st d l st1 l' st2 : wrote st d l st1 -> wrote st1 (d + Z.of_nat (length l)) l' st2 -> wrote st d (l ++ l') st2.
Proof.
  intros (T1 & L1 & H1) (T2 & L2 & H2). split; [congruence|]. split; [congruence|]. intros x. rewrite H2, H1, length_app.
  destruct (Z.leb_spec (d + Z.of_nat (length l)) x) as [Hx|Hx]; cbn [andb].
  - destruct (Z.leb_spec d x); [|lia]. cbn [andb]. destruct (Z.ltb_spec x (d + Z.of_nat (length l) + Z.of_nat (length l'))), (Z.ltb_spec x (d + Z.of_nat (length l + length l'))); try lia.
    + rewrite !byte_at_lookup by lia. rewrite lookup_app_r by lia. do 2 f_equal. lia.
    + destruct (Z.ltb_spec x (d + Z.of_nat (length l))); [lia | reflexivity].
  - destruct (Z.leb_spec d x) as [Hd|Hd]; cbn [andb]; [|reflexivity]. destruct (Z.ltb_spec x (d + Z.of_nat (length l))); [|lia]. destruct (Z.ltb_spec x (d + Z.of_nat (length l + length l'))); [|lia].
    rewrite !byte_at_lookup by lia. rewrite lookup_app_l by lia. reflexivity.
Qed.

Lemma put_ok d c st : 0 <= c < 256 -> exists st', put d c st = Some (tt, st') /\ wrote st d [c] st'.
Proof.
  intros Hc. eexists. split; [reflexivity|]. split; [reflexivity|]. split; [reflexivity|]. intros x. cbn [mem set_mem length]. unfold poke. rewrite u8_id by lia.
  destruct (Z.eqb_spec x d) as [->|N]; [rewrite Z.leb_refl, Z.sub_diag; destruct (Z.ltb_spec d (d + Z.of_nat 1)); [reflexivity | lia]|].
  destruct (Z.leb_spec d x), (Z.ltb_spec x (d + Z.of_nat 1)); cbn [andb]; try reflexivity. lia.
Qed.

(** A string away from the [n] bytes at [d] stays. *)
Definition away (a : Z) (s : list Z) (d n : Z) : Prop := a = 0 \/ a + Z.of_nat (length s) < d \/ d + n <= a.

Lemma away_mono a s d n d' n' : away a s d n -> d <= d' -> d' + n' <= d + n -> away a s d' n'.
Proof. intros [H|[H|H]] H1 H2; [left; exact H | right; left; lia | right; right; lia]. Qed.

Lemma text_wrote st d l st' a s : text (mem st) a s -> wrote st d l st' -> away a s d (Z.of_nat (length l)) -> text (mem st') a s.
Proof.
  intros [[-> ->]|(Ha & Hc & H)] (_ & _ & W) Hd; [left; auto|]. right. split; [exact Ha|]. split; [exact Hc|]. intros i Hi. rewrite W, <- (H i Hi).
  destruct Hd as [Hd|Hd]; [contradiction|]. destruct (Z.leb_spec d (a + Z.of_nat i)), (Z.ltb_spec (a + Z.of_nat i) (d + Z.of_nat (length l))); cbn [andb]; try reflexivity. lia.
Qed.

(** ** Walks *)

Lemma strlen_loop_ok st a s : text (mem st) a s -> forall fuel i, (i <= length s)%nat -> (length s - i < fuel)%nat -> strlen_loop fuel a (Z.of_nat i) st = Some (Z.of_nat (length s), st).
Proof.
  intros T. induction fuel as [|fuel IH]; intros i Hi Hf; [lia|]. cbn [strlen_loop]. rewrite (bind_some _ _ _ _ _ (peek_text st a s i T Hi)).
  destruct (Nat.eq_dec i (length s)) as [->|N]; [rewrite nth_end; reflexivity|]. pose proof (chars_nth s i (text_chars _ _ _ T) ltac:(lia)). destruct (Z.eqb_spec (nth i s 0) 0); [lia|].
  replace (Z.of_nat i + 1) with (Z.of_nat (S i)) by lia. apply IH; lia.
Qed.

(** The characters from [i] on, and the NUL. *)
Definition rest_of (s : list Z) (i : nat) : list Z := drop i s.

Lemma drop_nth (s : list Z) i : (i < length s)%nat -> drop i s = nth i s 0 :: drop (S i) s.
Proof. revert i. induction s as [|c s IH]; intros [|i] Hi; cbn in *; try lia; [reflexivity | apply IH; lia]. Qed.

Lemma cat_loop_ok a s : forall fuel i st d, text (mem st) a s -> (i <= length s)%nat -> (length s - i < fuel)%nat -> away a s d (Z.of_nat (length s - i)) ->
  exists st', cat_loop fuel a (Z.of_nat i) d st = Some (d + Z.of_nat (length s - i), st') /\ wrote st d (drop i s) st'.
Proof.
  induction fuel as [|fuel IH]; intros i st d T Hi Hf Aw; [lia|]. cbn [cat_loop]. rewrite (bind_some _ _ _ _ _ (peek_text st a s i T Hi)).
  destruct (Nat.eq_dec i (length s)) as [->|N].
  - rewrite nth_end. exists st. rewrite Nat.sub_diag, Z.add_0_r, drop_ge by lia. split; [reflexivity | apply wrote_nil].
  - pose proof (chars_nth s i (text_chars _ _ _ T) ltac:(lia)) as Hc. destruct (Z.eqb_spec (nth i s 0) 0); [lia|]. destruct (put_ok d (nth i s 0) st ltac:(lia)) as (st1 & E1 & W1).
    unfold bind at 1. rewrite E1. destruct (IH (S i) st1 (d + 1)) as (st2 & E2 & W2); [apply (text_wrote _ _ _ _ _ _ T W1), (away_mono _ _ _ _ _ _ Aw); cbn [length]; lia | lia | lia | apply (away_mono _ _ _ _ _ _ Aw); lia|].
    replace (Z.of_nat i + 1) with (Z.of_nat (S i)) by lia. exists st2. rewrite E2. split; [do 2 f_equal; lia|]. rewrite (drop_nth s i) by lia. exact (wrote_app _ _ [_] _ _ _ W1 W2).
Qed.

Lemma put_chars_ok l : forall st d, bytes_ok l -> exists st', put_chars l d st = Some (d + Z.of_nat (length l), st') /\ wrote st d l st'.
Proof.
  induction l as [|c l IH]; intros st d B; [exists st; cbn [put_chars length]; rewrite Z.add_0_r; split; [reflexivity | apply wrote_nil]|].
  apply List.Forall_cons_iff in B as [Bc Bl]. destruct (put_ok d c st Bc) as (st1 & E1 & W1). cbn [put_chars]. unfold bind. rewrite E1. destruct (IH st1 (d + 1) Bl) as (st2 & E2 & W2).
  exists st2. rewrite E2. split; [do 2 f_equal; cbn [length]; lia | exact (wrote_app _ _ [_] _ _ _ W1 W2)].
Qed.

(** ** Numbers *)

Lemma digits_ok base u fuel : 2 <= base <= 16 -> Forall (fun c => 48 <= c < 48 + 10 \/ 65 <= c < 65 + 6) (digits fuel base u).
Proof.
  intros Hb. revert u. induction fuel as [|fuel IH]; intros u; [constructor|]. cbn [digits]. destruct (u =? 0); [constructor|]. constructor; [|apply IH].
  pose proof (Z.mod_pos_bound u base ltac:(lia)). destruct (Z.ltb_spec (u mod base) 10); lia.
Qed.

Lemma number_chars base u : 2 <= base <= 16 -> Forall (fun c => 48 <= c < 48 + 10 \/ 65 <= c < 65 + 6) (number base u).
Proof. intros Hb. unfold number. destruct (u =? 0); [repeat constructor; lia | apply Forall_rev, digits_ok, Hb]. Qed.

Lemma fmt_bytes v hex : bytes_ok (fmt_i64 v hex).
Proof.
  assert (N : forall base u, 2 <= base <= 16 -> bytes_ok (number base u)) by (intros base u Hb; eapply List.Forall_impl; [|exact (number_chars base u Hb)]; intros c Hc; cbv beta in Hc; unfold is_u; change (2 ^ 8) with 256; lia).
  unfold fmt_i64. destruct hex; [apply N; lia|]. destruct (_ <? 0); [constructor; [unfold is_u; lia | apply N; lia] | apply N; lia].
Qed.

Definition digit_value (c : Z) : Z := if c <? 65 then c - 48 else c - 55.
Definition value (base : Z) (l : list Z) : Z := fold_left (fun v c => base * v + digit_value c) l 0.

Lemma value_snoc base l c : value base (l ++ [c]) = base * value base l + digit_value c.
Proof. unfold value. rewrite fold_left_app. reflexivity. Qed.

Lemma digits_value base : 2 <= base <= 16 -> forall fuel u, 0 <= u < base ^ Z.of_nat fuel -> value base (rev (digits fuel base u)) = u.
Proof.
  intros Hb. induction fuel as [|fuel IH]; intros u Hu; [cbn in *; lia|]. cbn [digits]. destruct (Z.eqb_spec u 0) as [->|N]; [reflexivity|]. rewrite Nat2Z.inj_succ, Z.pow_succ_r in Hu by lia.
  cbn [rev]. rewrite value_snoc, IH by (split; [apply Z.div_pos; lia | apply Z.div_lt_upper_bound; lia]).
  pose proof (Z.div_mod u base ltac:(lia)). pose proof (Z.mod_pos_bound u base ltac:(lia)). unfold digit_value. destruct (Z.ltb_spec (u mod base) 10).
  - destruct (Z.ltb_spec (48 + u mod base) 65); lia.
  - destruct (Z.ltb_spec (65 + (u mod base - 10)) 65); lia.
Qed.

(** The digits of a number have its value. *)
Lemma number_value base u : 2 <= base <= 16 -> 0 <= u < 2 ^ 64 -> value base (number base u) = u.
Proof.
  intros Hb Hu. unfold number. destruct (Z.eqb_spec u 0) as [->|N]; [unfold value; cbn [fold_left]; change (digit_value 48) with 0; lia|]. apply digits_value; [exact Hb|]. split; [lia|].
  assert (2 ^ 64 <= base ^ 64) by (apply Z.pow_le_mono_l; lia). change (Z.of_nat 64) with 64. lia.
Qed.

Lemma digits_short base : 2 <= base -> forall n fuel u, 0 <= u < base ^ Z.of_nat n -> (length (digits fuel base u) <= n)%nat.
Proof.
  intros Hb. induction n as [|n IH]; intros fuel u Hu; [cbn in Hu; destruct fuel; [cbn; lia|]; cbn [digits]; replace u with 0 by lia; cbn; lia|].
  destruct fuel as [|fuel]; [cbn; lia|]. cbn [digits]. destruct (u =? 0); [cbn; lia|]. cbn [length]. rewrite Nat2Z.inj_succ, Z.pow_succ_r in Hu by lia.
  specialize (IH fuel (u / base) ltac:(split; [apply Z.div_pos; lia | apply Z.div_lt_upper_bound; lia])). lia.
Qed.

(** Every number fits the 24 characters of [tmp]. *)
Lemma number_fits base u : 10 <= base -> 0 <= u < 2 ^ 64 -> (length (number base u) <= 20)%nat.
Proof.
  intros Hb Hu. unfold number. destruct (u =? 0); [cbn; lia|]. rewrite length_rev. apply digits_short; [lia|]. change (Z.of_nat 20) with 20.
  assert (10 ^ 20 <= base ^ 20) by (apply Z.pow_le_mono_l; lia). lia.
Qed.

(** ** Reading a number *)

Lemma value_from base l v : 0 <= v -> 2 <= base -> Forall (fun c => 0 <= digit_value c) l -> v <= fold_left (fun v c => base * v + digit_value c) l v.
Proof.
  intros Hv Hb F. revert v Hv. induction F as [|c l Hc _ IH]; intros v Hv; [cbn; lia|]. cbn [fold_left]. etransitivity; [|apply IH; nia]. nia.
Qed.

Lemma dec_value c : is_dec c = true -> digit_value c = c - 48 /\ 0 <= digit_value c < 10.
Proof. unfold is_dec, digit_value. intros H. bool_hyps. zbool. destruct (Z.ltb_spec c 65); lia. Qed.

Lemma hex_value c : is_hex c = true -> c < 97 -> digit_value c = hex_digit c /\ 0 <= digit_value c < 16.
Proof.
  unfold is_hex, hex_digit. intros H Hc. destruct (is_dec c) eqn:D; [destruct (dec_value c D); lia|]. destruct (Z.leb_spec 97 c); [lia|]. cbn [andb orb] in *. bool_hyps. zbool.
  unfold digit_value. destruct (Z.ltb_spec c 65); lia.
Qed.

Lemma i64_ok v : 0 <= v -> is_i64 v = (v <? 2 ^ 63).
Proof. intros H. unfold is_i64. rewrite (proj2 (Z.leb_le _ _)) by lia. reflexivity. Qed.

Lemma nth_drop_cons (s : list Z) i c l : drop i s = c :: l -> nth i s 0 = c /\ drop (S i) s = l /\ (i < length s)%nat.
Proof.
  intros H. assert (Hi : (i < length s)%nat) by (destruct (Nat.lt_ge_cases i (length s)) as [?|Hge]; [assumption | rewrite drop_ge in H by lia; discriminate]).
  rewrite (drop_nth s i Hi) in H. injection H as -> ->. auto.
Qed.

(** The loops read the digits [l] up to a character that is none, and overflow exactly if their value
    does. *)
Lemma dec_loop_ok st a s l r : text (mem st) a s -> Forall (fun c => is_dec c = true) l -> is_dec (nth 0 r 0) = false ->
  forall fuel i v, drop i s = l ++ r -> (i <= length s)%nat -> (length l < fuel)%nat -> 0 <= v < 2 ^ 63 ->
  let w := fold_left (fun v c => 10 * v + digit_value c) l v in
  dec_loop fuel a (Z.of_nat i) v st = if w <? 2 ^ 63 then Some (w, st) else None.
Proof.
  intros T F Hr. cbv zeta. induction F as [|c l Hc F IH]; intros fuel i v Hd Hi Hf Hv; (destruct fuel as [|fuel]; [cbn in Hf; lia|]); cbn [dec_loop]; rewrite (bind_some _ _ _ _ _ (peek_text st a s i T Hi)).
  - rewrite <- (Nat.add_0_r i), <- nth_skipn, Hd. cbn [app]. rewrite Hr. cbn [fold_left]. rewrite (proj2 (Z.ltb_lt v _)) by lia. reflexivity.
  - destruct (nth_drop_cons s i c (l ++ r) Hd) as (-> & Hd' & Hi'). rewrite Hc. destruct (dec_value c Hc) as [Ec Hr']. cbn [fold_left] in *. rewrite <- Ec. replace (v * 10 + digit_value c) with (10 * v + digit_value c) by lia.
    assert (Le : 10 * v + digit_value c <= fold_left (fun v c => 10 * v + digit_value c) l (10 * v + digit_value c)).
    { apply value_from; [lia | lia|]. revert F. apply List.Forall_impl. intros x Hx. apply dec_value in Hx. lia. }
    rewrite i64_ok by lia. destruct (Z.ltb_spec (10 * v + digit_value c) (2 ^ 63)); [|rewrite (proj2 (Z.ltb_ge _ _)) by lia; reflexivity].
    replace (Z.of_nat i + 1) with (Z.of_nat (S i)) by lia. apply IH; [exact Hd' | lia | cbn in Hf; lia | lia].
Qed.

Lemma hex_loop_ok st a s l r : text (mem st) a s -> Forall (fun c => is_hex c = true /\ c < 97) l -> is_hex (nth 0 r 0) = false ->
  forall fuel i v, drop i s = l ++ r -> (i <= length s)%nat -> (length l < fuel)%nat -> 0 <= v < 2 ^ 63 ->
  let w := fold_left (fun v c => 16 * v + digit_value c) l v in
  hex_loop fuel a (Z.of_nat i) v st = if w <? 2 ^ 63 then Some (w, st) else None.
Proof.
  intros T F Hr. cbv zeta. induction F as [|c l [Hc H97] F IH]; intros fuel i v Hd Hi Hf Hv; (destruct fuel as [|fuel]; [cbn in Hf; lia|]); cbn [hex_loop]; rewrite (bind_some _ _ _ _ _ (peek_text st a s i T Hi)).
  - rewrite <- (Nat.add_0_r i), <- nth_skipn, Hd. cbn [app]. rewrite Hr. cbn [fold_left]. rewrite (proj2 (Z.ltb_lt v _)) by lia. reflexivity.
  - destruct (nth_drop_cons s i c (l ++ r) Hd) as (-> & Hd' & Hi'). rewrite Hc. destruct (hex_value c Hc H97) as [Ec Hr']. cbn [fold_left] in *. rewrite <- Ec.
    assert (Eo : Z.lor (16 * v) (digit_value c) = 16 * v + digit_value c).
    { replace (16 * v) with (Z.shiftl v 4) by (rewrite Z.shiftl_mul_pow2 by lia; lia). rewrite Z.lor_comm, (lor_shiftl_add _ v 4) by lia. rewrite Z.shiftl_mul_pow2 by lia. lia. }
    rewrite Eo. assert (Le : 16 * v + digit_value c <= fold_left (fun v c => 16 * v + digit_value c) l (16 * v + digit_value c)).
    { apply value_from; [lia | lia|]. revert F. apply List.Forall_impl. intros x [Hx H9]. apply hex_value in Hx; lia. }
    rewrite i64_ok by lia. destruct (Z.ltb_spec (16 * v) (2 ^ 63)); [|rewrite (proj2 (Z.ltb_ge _ _)) by lia; reflexivity].
    replace (Z.of_nat i + 1) with (Z.of_nat (S i)) by lia. apply IH; [exact Hd' | lia | cbn in Hf; lia | lia].
Qed.

Lemma number_dec u : Forall (fun c => is_dec c = true) (number 10 u).
Proof.
  assert (D : forall fuel u, Forall (fun c => is_dec c = true) (digits fuel 10 u)).
  { induction fuel as [|fuel IH]; intros w; [constructor|]. cbn [digits]. destruct (w =? 0); [constructor|]. constructor; [|apply IH]. pose proof (Z.mod_pos_bound w 10 ltac:(lia)).
    destruct (Z.ltb_spec (w mod 10) 10); [|lia]. unfold is_dec. apply andb_true_iff. split; apply Z.leb_le; lia. }
  unfold number. destruct (u =? 0); [repeat constructor | apply Forall_rev, D].
Qed.

Lemma number_hex u : Forall (fun c => is_hex c = true /\ c < 97) (number 16 u).
Proof.
  eapply List.Forall_impl; [|exact (number_chars 16 u ltac:(lia))]. intros c Hc. cbv beta in Hc. split; [|lia]. unfold is_hex, is_dec.
  destruct Hc as [Hc|Hc]; [replace ((48 <=? c) && (c <=? 57)) with true by (symmetry; apply andb_true_iff; split; apply Z.leb_le; lia); reflexivity|].
  replace ((65 <=? c) && (c <=? 70)) with true by (symmetry; apply andb_true_iff; split; apply Z.leb_le; lia). rewrite !orb_true_r. reflexivity.
Qed.

Lemma digits_cons fuel base u : u <> 0 -> exists c l, rev (digits (S fuel) base u) = c :: l.
Proof.
  intros N. cbn [digits]. destruct (Z.eqb_spec u 0); [contradiction|]. cbn [rev]. destruct (rev (digits fuel base (u / base))) as [|c l]; cbn [app]; do 2 eexists; reflexivity.
Qed.

Lemma number_cons base u : exists c l, number base u = c :: l.
Proof. unfold number. destruct (Z.eqb_spec u 0) as [->|N]; [eauto | exact (digits_cons 63 base u N)]. Qed.

Definition digit_char (c : Z) : Prop := 48 <= c < 48 + 10 \/ 65 <= c < 65 + 6.

(** A sign, decimal digits, and what follows them. *)
Lemma str2i64_dec st a s fuel (neg : bool) l r : text (mem st) a s -> a <> 0 -> s = (if neg then [45] else []) ++ l ++ r -> l ++ r <> [] -> Forall digit_char (l ++ r) ->
  Forall (fun c => is_dec c = true) l -> is_dec (nth 0 r 0) = false -> (length s + 1 < fuel)%nat ->
  hc_builtin_str2i64 fuel a st = if value 10 l <? 2 ^ 63 then Some (u64 (if neg then - value 10 l else value 10 l), st) else None.
Proof.
  intros T Ha Es Ne C F Hr Hf. unfold hc_builtin_str2i64. destruct (Z.eqb_spec a 0); [contradiction|]. destruct fuel as [|fuel]; [lia|].
  assert (P : forall i, (i <= length s)%nat -> peek a (Z.of_nat i) st = Some (nth i s 0, st)) by (intros i Hi; exact (peek_text st a s i T Hi)).
  destruct (l ++ r) as [|c l'] eqn:El; [contradiction|]. apply List.Forall_cons_iff in C as [Dc C]. unfold digit_char in Dc.
  set (k := if neg then 1%nat else 0%nat). assert (Hk : drop k s = c :: l' /\ (k < length s)%nat) by (rewrite Es; unfold k; destruct neg; cbn; split; try reflexivity; lia). destruct Hk as [Hk Lk].
  assert (H0 : nth 0 s 0 = if neg then 45 else c) by (rewrite Es; destruct neg; reflexivity).
  destruct (nth_drop_cons s k c l' Hk) as (Hc0 & Hd & _). pose proof (P 0%nat ltac:(lia)) as P0. change (Z.of_nat 0) with 0 in P0.
  assert (H1 : nth (S k) s 0 <> 120 /\ nth (S k) s 0 <> 88).
  { assert (Hn : nth (S k) s 0 = nth 0 l' 0) by (rewrite <- Hd, nth_skipn, Nat.add_0_r; reflexivity). rewrite Hn.
    destruct l' as [|x l']; [cbn; lia|]. apply List.Forall_cons_iff in C as [C _]. cbn [nth]. unfold digit_char in C. lia. }
  cbn [skip_loop]. unfold bind at 1. rewrite (bind_some _ _ _ _ _ P0), H0.
  replace ((_ =? 32) || (_ =? 9)) with false by (destruct neg; [reflexivity|]; symmetry; apply orb_false_iff; split; apply Z.eqb_neq; lia). unfold ret at 1.
  rewrite (bind_some _ _ _ _ _ P0), H0.
  assert (Ei : (if ((if neg then 45 else c) =? 45) || ((if neg then 45 else c) =? 43) then 0 + 1 else 0) = Z.of_nat k).
  { unfold k. destruct neg; [reflexivity|]. destruct (Z.eqb_spec c 45), (Z.eqb_spec c 43); cbn [orb]; lia. }
  rewrite Ei. rewrite (bind_some _ _ _ _ _ (P k ltac:(lia))). rewrite Hc0. replace ((if neg then 45 else c) =? 45) with neg by (destruct neg; [reflexivity | symmetry; apply Z.eqb_neq; lia]).
  assert (E1 : exists x, (if c =? 48 then peek a (Z.of_nat k + 1) else ret 0) st = Some (x, st) /\ (x =? 120) || (x =? 88) = false).
  { destruct (c =? 48); [|exists 0; split; reflexivity]. replace (Z.of_nat k + 1) with (Z.of_nat (S k)) by lia. exists (nth (S k) s 0). split; [apply P; lia|]. apply orb_false_iff. split; apply Z.eqb_neq; tauto. }
  destruct E1 as (x & E1 & Ex). rewrite (bind_some _ _ _ _ _ E1), Ex, andb_false_r. rewrite <- El in Hk. unfold bind.
  rewrite (dec_loop_ok st a s l r T F Hr (S fuel) k 0 Hk) by (try lia; assert (length (l ++ r) <= length s)%nat by (rewrite <- Hk, length_drop; lia); rewrite length_app in *; lia).
  fold (value 10 l). destruct (value 10 l <? 2 ^ 63); reflexivity.
Qed.

Lemma str2i64_hex st a s fuel l : text (mem st) a s -> a <> 0 -> s = 48 :: 120 :: l -> Forall (fun c => is_hex c = true /\ c < 97) l -> (length s + 1 < fuel)%nat ->
  hc_builtin_str2i64 fuel a st = if value 16 l <? 2 ^ 63 then Some (u64 (value 16 l), st) else None.
Proof.
  intros T Ha Es F Hf. unfold hc_builtin_str2i64. destruct (Z.eqb_spec a 0); [contradiction|]. destruct fuel as [|fuel]; [lia|].
  assert (P : forall i, (i <= length s)%nat -> peek a (Z.of_nat i) st = Some (nth i s 0, st)) by (intros i Hi; exact (peek_text st a s i T Hi)).
  assert (L : length s = S (S (length l))) by (rewrite Es; reflexivity). cbn [skip_loop]. unfold bind at 1. change 0 with (Z.of_nat 0).
  assert (N0 : nth 0 s 0 = 48) by (rewrite Es; reflexivity). assert (N1 : nth 1 s 0 = 120) by (rewrite Es; reflexivity).
  rewrite (bind_some _ _ _ _ _ (P 0%nat ltac:(lia))), N0. change ((48 =? 32) || (48 =? 9)) with false. cbv iota. unfold ret at 1.
  rewrite (bind_some _ _ _ _ _ (P 0%nat ltac:(lia))), N0. change ((48 =? 45) || (48 =? 43)) with false. cbv iota.
  rewrite (bind_some _ _ _ _ _ (P 0%nat ltac:(lia))), N0. change (48 =? 48) with true. cbv iota. change (Z.of_nat 0 + 1) with (Z.of_nat 1). rewrite (bind_some _ _ _ _ _ (P 1%nat ltac:(lia))), N1.
  change (true && ((120 =? 120) || (120 =? 88))) with true. cbv iota. change (Z.of_nat 0 + 2) with (Z.of_nat 2). unfold bind.
  rewrite (hex_loop_ok st a s l [] T F eq_refl (S fuel) 2 (Z.of_nat 0)) by (try lia; rewrite Es, app_nil_r; reflexivity).
  change (Z.of_nat 0) with 0. fold (value 16 l). destruct (value 16 l <? 2 ^ 63); reflexivity.
Qed.

(** The decimal digits at the head of a text. *)
Fixpoint leading (l : list Z) : list Z := match l with c :: l' => if is_dec c then c :: leading l' else [] | [] => [] end.

Lemma leading_split l : exists r, l = leading l ++ r /\ Forall (fun c => is_dec c = true) (leading l) /\ is_dec (nth 0 r 0) = false.
Proof.
  induction l as [|c l (r & IH)]; [exists []; repeat split; constructor|]. cbn [leading]. destruct (is_dec c) eqn:E; [|exists (c :: l); repeat split; [constructor | exact E]].
  destruct IH as (E1 & F & R). exists r. split; [cbn; f_equal; exact E1 | split; [constructor; assumption | exact R]].
Qed.

Lemma dec_bound l : Forall (fun c => is_dec c = true) l -> value 10 l < 10 ^ Z.of_nat (length l).
Proof.
  induction l as [|c l IH] using rev_ind; intros F; [reflexivity|]. apply List.Forall_app in F as [F Fc]. apply List.Forall_cons_iff in Fc as [Fc _]. specialize (IH F).
  rewrite value_snoc, length_app. cbn [length]. destruct (dec_value c Fc) as [_ Hc]. rewrite Nat2Z.inj_add, Z.pow_add_r by lia. change (10 ^ Z.of_nat 1) with 10. lia.
Qed.

(** C10: what [Str2I64] makes of the texts of [%d] and [%X], for every 64-bit number.  It reads back
    what [%d] writes, except for the least number, whose digits overflow (no result).  Behind [0x],
    which [%X] does not write, it reads back what [%X] writes for a number that is not negative;
    the digits of a negative one overflow.  Of what [%X] writes alone it reads the decimal digits up
    to the first letter.  Nothing is changed, and no conversion needs more than 21 characters of the
    24 there are. *)
Theorem str2i64_reads_number st a v fuel : a <> 0 -> - 2 ^ 63 <= v < 2 ^ 63 -> (24 < fuel)%nat ->
  let d := fmt_i64 (u64 v) false in let x := fmt_i64 (u64 v) true in
  (string_at (mem st) a d -> hc_builtin_str2i64 fuel a st = if v =? - 2 ^ 63 then None else Some (u64 v, st)) /\
  (string_at (mem st) a (48 :: 120 :: x) -> hc_builtin_str2i64 fuel a st = if v <? 0 then None else Some (v, st)) /\
  (string_at (mem st) a x -> hc_builtin_str2i64 fuel a st = Some (value 10 (leading x), st)) /\
  (length d <= 21)%nat /\ (length x <= 16)%nat.
Proof.
  intros Ha Hv Hf d x. pose proof (u64_range v) as Ru. unfold is_u in Ru.
  assert (Wv : u64 v = if v <? 0 then v + 2 ^ 64 else v).
  { unfold u64, wrap. destruct (Z.ltb_spec v 0); [rewrite <- (Z_mod_plus_full v 1)|]; rewrite Z.mod_small; lia. }
  assert (Sg : signed 64 (u64 v) = v).
  { unfold signed. change (wrap 64 (u64 v)) with (u64 (u64 v)). rewrite u64_id by exact Ru. rewrite Wv. change (64 - 1) with 63.
    destruct (Z.ltb_spec v 0); [destruct (Z.ltb_spec (v + 2 ^ 64) (2 ^ 63)) | destruct (Z.ltb_spec v (2 ^ 63))]; lia. }
  assert (Fd : d = (if v <? 0 then [45] else []) ++ number 10 (Z.abs v) ++ []).
  { subst d. unfold fmt_i64. rewrite Sg, app_nil_r, (u64_id (u64 v)), Wv by exact Ru.
    destruct (Z.ltb_spec v 0); cbn [app]; do 2 f_equal; rewrite ?u64_id by (unfold is_u; lia); lia. }
  assert (Fx : x = number 16 (u64 v)) by (subst x; cbn [fmt_i64]; rewrite u64_id by exact Ru; reflexivity).
  assert (Ld : (length (number 10 (Z.abs v)) <= 20)%nat) by (apply number_fits; lia).
  assert (Lx : (length x <= 16)%nat).
  { rewrite Fx. unfold number. destruct (u64 v =? 0); [cbn; lia|]. rewrite length_rev. apply digits_short; [lia|]. exact Ru. }
  assert (Ne : forall base u, number base u <> []) by (intros base u; destruct (number_cons base u) as (c & l & ->); discriminate).
  split; [|split; [|split; [|split; [rewrite Fd, !length_app; destruct (v <? 0); cbn [length]; lia | exact Lx]]]]; intros T.
  - rewrite (str2i64_dec st a d fuel (v <? 0) (number 10 (Z.abs v)) [] (or_intror T) Ha Fd); rewrite ?app_nil_r; auto using number_dec, number_chars.
    + rewrite number_value by lia. destruct (Z.ltb_spec (Z.abs v) (2 ^ 63)), (Z.eqb_spec v (- 2 ^ 63)); try lia; [|reflexivity]. do 3 f_equal. destruct (Z.ltb_spec v 0); lia.
    + apply number_chars. lia.
    + rewrite Fd, !length_app. destruct (v <? 0); cbn [length]; lia.
  - rewrite (str2i64_hex st a _ fuel x (or_intror T) Ha eq_refl); [|rewrite Fx; apply number_hex | cbn [length]; lia].
    rewrite Fx, number_value, (u64_id (u64 v)), Wv by (lia || exact Ru). destruct (Z.ltb_spec v 0), (Z.ltb_spec (v + 2 ^ 64) (2 ^ 63)), (Z.ltb_spec v (2 ^ 63)); try lia; reflexivity.
  - destruct (leading_split x) as (r & Ex & F & R).
    rewrite (str2i64_dec st a x fuel false (leading x) r (or_intror T) Ha Ex); rewrite <- ?Ex; auto; try lia; [|rewrite Fx; apply Ne | rewrite Fx; apply number_chars; lia].
    assert (B : value 10 (leading x) < 10 ^ 16).
    { eapply Z.lt_le_trans; [apply dec_bound, F|]. apply Z.pow_le_mono_r; [lia|]. apply (f_equal length) in Ex. rewrite length_app in Ex. lia. }
    assert (0 <= value 10 (leading x)) by (apply value_from; [lia | lia|]; revert F; apply List.Forall_impl; intros y Hy; apply dec_value in Hy; lia).
    rewrite (proj2 (Z.ltb_lt _ (2 ^ 63))) by lia. cbv iota. rewrite u64_id by (unfold is_u; lia). reflexivity.
Qed.

(** ** Formatting *)

(** What [CatPrint] appends: [sa] is the string at an address. *)
Fixpoint format (sa : Z -> list Z) (fs : list Z) (args : list Z) : list Z :=
  match fs with
  | [] => []
  | c :: fs' =>
      if negb (c =? 37) then c :: format sa fs' args
      else
        match fs' with
        | [] => match args with [] => [] | _ :: _ => [37] end
        | k :: fs'' =>
            if k =? 37 then 37 :: format sa fs'' args
            else
              match args with
              | [] => []
              | av :: args =>
                  (if k =? 100 then fmt_i64 av false
                   else if (k =? 88) || (k =? 120) then fmt_i64 av true
                   else if k =? 99 then [Z.land av 255]
                   else if k =? 115 then sa av
                   else [37; k]) ++ format sa fs'' args
              end
        end
  end.

(** The addresses of the strings it reads. *)
Fixpoint str_args (fs args : list Z) : list Z :=
  match fs, args with
  | c :: ((k :: fs'') as fs'), av :: args' =>
      if negb (c =? 37) then str_args fs' args
      else if k =? 37 then str_args fs'' args
      else (if k =? 115 then [av] else []) ++ str_args fs'' args'
  | _, _ => []
  end.

Lemma str_args_nil fs : str_args fs [] = [].
Proof. destruct fs as [|c [|k fs]]; reflexivity. Qed.

Section Format.
Context (sa : Z -> list Z) (f : Z) (fs : list Z) (L : nat).

(** The format and the strings are in memory, away from the [n] bytes at [d]. *)
Record sources (st : hc_state) (d : Z) (n : nat) (strs : list Z) : Prop := mk_sources {
  so_text : text (mem st) f fs;
  so_away : away f fs d (Z.of_nat n);
  so_strs : Forall (fun av => text (mem st) av (sa av) /\ away av (sa av) d (Z.of_nat n) /\ (length (sa av) <= L)%nat) strs }.

Lemma sources_step st d l n strs strs' st' : sources st d (length l + n) (strs ++ strs') -> wrote st d l st' -> sources st' (d + Z.of_nat (length l)) n strs'.
Proof using.
  intros [T A S] W. constructor.
  - apply (text_wrote _ _ _ _ _ _ T W), (away_mono _ _ _ _ _ _ A); lia.
  - apply (away_mono _ _ _ _ _ _ A); lia.
  - apply Forall_app in S as [_ S]. revert S. apply List.Forall_impl. intros av (Ta & Aa & La). split; [apply (text_wrote _ _ _ _ _ _ Ta W), (away_mono _ _ _ _ _ _ Aa); lia|].
    split; [apply (away_mono _ _ _ _ _ _ Aa); lia | exact La].
Qed.

(** The result of the loop from the [i]-th character on. *)
Definition formats (fuel i : nat) (args : list Z) : Prop := forall st d, sources st d (length (format sa (drop i fs) args)) (str_args (drop i fs) args) ->
  exists st', catprint_loop fuel f (Z.of_nat i) d args st = Some (d + Z.of_nat (length (format sa (drop i fs) args)), st') /\ wrote st d (format sa (drop i fs) args) st'.

(** A piece [l] is written, then the loop goes on. *)
Lemma formats_step fuel j args st d l strs (m : M Z) st1 : wrote st d l st1 -> formats fuel j args -> sources st d (length l + length (format sa (drop j fs) args)) (strs ++ str_args (drop j fs) args) ->
  m st = catprint_loop fuel f (Z.of_nat j) (d + Z.of_nat (length l)) args st1 ->
  exists st', m st = Some (d + Z.of_nat (length (l ++ format sa (drop j fs) args)), st') /\ wrote st d (l ++ format sa (drop j fs) args) st'.
Proof using.
  intros W IH S E. destruct (IH st1 (d + Z.of_nat (length l)) (sources_step _ _ _ _ _ _ _ S W)) as (st' & E' & W'). exists st'. rewrite E, E', length_app. split; [do 2 f_equal; lia | exact (wrote_app _ _ _ _ _ _ W W')].
Qed.

(** One conversion. *)
Lemma catprint_arg fuel0 fuel i av args st d c k : c = 37 -> k <> 37 -> 0 < k < 256 -> drop (S i) fs = k :: drop (S (S i)) fs -> (S (S i) <= length fs)%nat -> (L < fuel0)%nat ->
  formats fuel (S (S i)) args -> sources st d (length (format sa (c :: drop (S i) fs) (av :: args))) (str_args (c :: drop (S i) fs) (av :: args)) ->
  exists st', (if k =? 100 then let! d := hc_fmt_i64 d av false in catprint_loop fuel f (Z.of_nat (S (S i))) d args
     else if (k =? 88) || (k =? 120) then let! d := hc_fmt_i64 d av true in catprint_loop fuel f (Z.of_nat (S (S i))) d args
     else if k =? 99 then put d (Z.land av 255);; catprint_loop fuel f (Z.of_nat (S (S i))) (d + 1) args
     else if k =? 115 then let! d := cat_loop fuel0 av 0 d in catprint_loop fuel f (Z.of_nat (S (S i))) d args
     else put d 37;; (if k =? 0 then catprint_loop fuel f (Z.of_nat (S i)) (d + 1) args else put (d + 1) k;; catprint_loop fuel f (Z.of_nat (S (S i))) (d + 2) args)) st =
    Some (d + Z.of_nat (length (format sa (c :: drop (S i) fs) (av :: args))), st') /\ wrote st d (format sa (c :: drop (S i) fs) (av :: args)) st'.
Proof using.
  intros Ec Nk Hk Ed Hi HL IH So. rewrite Ed in *. cbn [format str_args] in *. rewrite Ec in *. cbn [Z.eqb Pos.eqb negb] in *. destruct (Z.eqb_spec k 37); [contradiction|].
  assert (Fmt : forall hex strs, sources st d (length (fmt_i64 av hex ++ format sa (drop (S (S i)) fs) args)) (strs ++ str_args (drop (S (S i)) fs) args) ->
    exists st', (let! d := hc_fmt_i64 d av hex in catprint_loop fuel f (Z.of_nat (S (S i))) d args) st = Some (d + Z.of_nat (length (fmt_i64 av hex ++ format sa (drop (S (S i)) fs) args)), st') /\ wrote st d (fmt_i64 av hex ++ format sa (drop (S (S i)) fs) args) st').
  { intros hex strs S'. rewrite length_app in S'. destruct (put_chars_ok (fmt_i64 av hex) st d (fmt_bytes av hex)) as (st1 & E1 & W1).
    apply (formats_step fuel (S (S i)) args st d _ strs _ st1 W1 IH S'). unfold bind, hc_fmt_i64. rewrite E1. reflexivity. }
  destruct (Z.eqb_spec k 100) as [E|N1]; [exact (Fmt false _ So)|]. destruct ((k =? 88) || (k =? 120)); [exact (Fmt true _ So)|]. rewrite length_app in So.
  destruct (Z.eqb_spec k 99) as [E|N2].
  { assert (Hx : 0 <= Z.land av 255 < 256) by (change 255 with (2 ^ 8 - 1); rewrite land_ones_mod by lia; apply Z.mod_pos_bound; lia).
    destruct (put_ok d _ st Hx) as (st1 & E1 & W1). apply (formats_step fuel (S (S i)) args st d [_] _ _ st1 W1 IH So). unfold bind. rewrite E1. reflexivity. }
  destruct (Z.eqb_spec k 115) as [E|N3].
  { pose proof (so_strs _ _ _ _ So) as F. cbn [app] in F. apply List.Forall_cons_iff in F as [(Ta & Aa & La) _].
    destruct (cat_loop_ok av (sa av) fuel0 0 st d Ta ltac:(lia) ltac:(lia)) as (st1 & E1 & W1); [apply (away_mono _ _ _ _ _ _ Aa); lia|]. rewrite Nat.sub_0_r in E1. change (Z.of_nat 0) with 0 in E1. rewrite drop_0 in W1.
    apply (formats_step fuel (S (S i)) args st d _ _ _ st1 W1 IH So). unfold bind. rewrite E1. reflexivity. }
  destruct (put_ok d 37 st ltac:(lia)) as (st1 & E1 & W1). destruct (put_ok (d + 1) k st1 ltac:(lia)) as (st2 & E2 & W2). destruct (Z.eqb_spec k 0); [lia|].
  apply (formats_step fuel (S (S i)) args st d [37; k] _ _ st2 (wrote_app _ _ [37] _ [k] _ W1 W2) IH So). unfold bind. rewrite E1, E2. reflexivity.
Qed.

Lemma catprint_loop_ok : forall fuel i args, (i <= length fs)%nat -> (length fs - i + L < fuel)%nat -> formats fuel i args.
Proof using.
  induction fuel as [|fuel IH]; intros i args Hi Hf st d So; [lia|]. cbn [catprint_loop]. pose proof (so_text _ _ _ _ So) as T.
  rewrite (bind_some _ _ _ _ _ (peek_text st f fs i T Hi)). destruct (Nat.eq_dec i (length fs)) as [->|Ni].
  { rewrite nth_end, drop_ge by lia. exists st. cbn [format length]. rewrite Z.add_0_r. split; [reflexivity | apply wrote_nil]. }
  pose proof (chars_nth fs i (text_chars _ _ _ T) ltac:(lia)) as Hc. destruct (Z.eqb_spec (nth i fs 0) 0); [lia|]. rewrite (drop_nth fs i) in * by lia. set (c := nth i fs 0) in *.
  assert (Put : forall x j (rest : list Z), 0 <= x < 256 -> (i < j <= length fs)%nat -> format sa (c :: drop (S i) fs) args = x :: format sa (drop j fs) rest -> str_args (c :: drop (S i) fs) args = str_args (drop j fs) rest ->
    exists st', (put d x;; catprint_loop fuel f (Z.of_nat j) (d + 1) rest) st = Some (d + Z.of_nat (length (format sa (c :: drop (S i) fs) args)), st') /\ wrote st d (format sa (c :: drop (S i) fs) args) st').
  { intros x j rest Hx Hj Ef Es. rewrite Ef, Es in *. destruct (put_ok d x st Hx) as (st1 & E1 & W1). apply (formats_step fuel j rest st d [x] [] _ st1 W1 (IH j rest ltac:(lia) ltac:(lia)) So). unfold bind. rewrite E1. reflexivity. }
  destruct (Z.eqb_spec c 37) as [Ec|Nc]; cbn [negb].
  2: { replace (Z.of_nat i + 1) with (Z.of_nat (S i)) by lia. apply Put; [lia | lia | cbn [format]; destruct (Z.eqb_spec c 37); [contradiction | reflexivity]|].
       cbn [str_args]. destruct (drop (S i) fs) as [|k l] eqn:Ed; [reflexivity|]. destruct args; [rewrite str_args_nil; reflexivity|]. destruct (Z.eqb_spec c 37); [contradiction | reflexivity]. }
  replace (Z.of_nat i + 1) with (Z.of_nat (S i)) by lia. rewrite (bind_some _ _ _ _ _ (peek_text st f fs (S i) T ltac:(lia))).
  destruct (Nat.eq_dec (S i) (length fs)) as [Ee|Ne].
  { replace (nth (S i) fs 0) with 0 by (rewrite Ee, nth_end; reflexivity). cbn [Z.eqb orb]. assert (Ed : drop (S i) fs = []) by (apply drop_ge; lia). destruct args as [|av args].
    - rewrite Ed. cbn [format]. rewrite Ec. exists st. cbn. rewrite Z.add_0_r. split; [reflexivity | apply wrote_nil].
    - apply Put; [lia | lia | rewrite Ed; cbn [format]; rewrite Ec; reflexivity | rewrite Ed; destruct args; reflexivity]. }
  pose proof (chars_nth fs (S i) (text_chars _ _ _ T) ltac:(lia)) as Hk. assert (Ed : drop (S i) fs = nth (S i) fs 0 :: drop (S (S i)) fs) by (apply drop_nth; lia).
  set (k := nth (S i) fs 0) in *. replace (Z.of_nat i + 2) with (Z.of_nat (S (S i))) by lia.
  destruct (Z.eqb_spec k 37) as [Ek|Nk].
  { apply Put; [lia | lia | rewrite Ed; cbn [format]; rewrite Ec, Ek; reflexivity|]. rewrite Ed. cbn [str_args]. destruct args; [rewrite str_args_nil; reflexivity|]. rewrite Ec, Ek. reflexivity. }
  destruct args as [|av args]; [rewrite Ed; cbn [format]; rewrite Ec; destruct (Z.eqb_spec k 37); [contradiction|]; exists st; cbn; rewrite Z.add_0_r; split; [reflexivity | apply wrote_nil]|].
  exact (catprint_arg (S fuel) fuel i av args st d c k Ec Nk Hk Ed ltac:(lia) ltac:(lia) (IH (S (S i)) args ltac:(lia) ltac:(lia)) So).
Qed.
End Format.

Lemma string_app m m' a s t : string_at m a s -> chars t -> (forall x, m' x = if (a + Z.of_nat (length s) <=? x) && (x <? a + Z.of_nat (length s) + Z.of_nat (length (t ++ [0]))) then byte_at (t ++ [0]) (x - (a + Z.of_nat (length s))) else m x) ->
  string_at m' a (s ++ t).
Proof.
  intros (Ha & Hs & Hm) Ht H. split; [exact Ha|]. split; [apply Forall_app; split; assumption|]. intros i Hi. rewrite H. rewrite length_app in *. cbn [length].
  destruct (Nat.lt_ge_cases i (length s)) as [Hl|Hl].
  - destruct (Z.leb_spec (a + Z.of_nat (length s)) (a + Z.of_nat i)); [lia|]. cbn [andb]. rewrite (Hm i) by lia. rewrite app_nth1 by lia. reflexivity.
  - destruct (Z.leb_spec (a + Z.of_nat (length s)) (a + Z.of_nat i)); [|lia]. destruct (Z.ltb_spec (a + Z.of_nat i) (a + Z.of_nat (length s) + Z.of_nat (length t + 1))); [|lia]. cbn [andb].
    replace (a + Z.of_nat i - (a + Z.of_nat (length s))) with (Z.of_nat (i - length s)) by lia. rewrite byte_at_nth, (app_nth2 s) by lia.
    destruct (Nat.eq_dec (i - length s)%nat (length t)) as [->|N]; [rewrite nth_middle, nth_overflow by lia; reflexivity | rewrite app_nth1 by lia; reflexivity].
Qed.

(** C11: [CatPrint] ends, appends to the string at [dst] the text the format and its arguments ask
    for, with a NUL, and writes nothing else, if the format and the strings it reads are not in
    the way of the bytes it writes. *)
Theorem catprint_formats sa L fuel dst ds fmt fs a0 a1 st : string_at (mem st) dst ds -> (length ds < fuel)%nat -> (length fs + L < fuel)%nat ->
  sources sa fmt fs L st (dst + Z.of_nat (length ds)) (length (format sa fs [a0; a1])) (str_args fs [a0; a1]) ->
  exists st', hc_builtin_catprint fuel dst fmt a0 a1 st = Some (dst, st') /\ wrote st (dst + Z.of_nat (length ds)) (format sa fs [a0; a1] ++ [0]) st' /\
    (chars (format sa fs [a0; a1]) -> string_at (mem st') dst (ds ++ format sa fs [a0; a1])).
Proof.
  intros T Hd Hf S. unfold hc_builtin_catprint. destruct (Z.eqb_spec dst 0) as [E|_]; [destruct T; contradiction|].
  rewrite (bind_some _ _ _ _ _ (strlen_loop_ok st dst ds (or_intror T) fuel 0 ltac:(lia) ltac:(lia))).
  destruct (catprint_loop_ok sa fmt fs L fuel 0 [a0; a1] ltac:(lia) ltac:(lia) st _ S) as (st1 & E1 & W1). rewrite drop_0 in *. change (Z.of_nat 0) with 0 in E1. rewrite (bind_some _ _ _ _ _ E1).
  destruct (put_ok (dst + Z.of_nat (length ds) + Z.of_nat (length (format sa fs [a0; a1]))) 0 st1 ltac:(lia)) as (st2 & E2 & W2). unfold bind. rewrite E2. exists st2. split; [reflexivity|].
  pose proof (wrote_app _ _ _ _ _ _ W1 W2) as W. split; [exact W|]. intros C. destruct W as (_ & _ & W). exact (string_app _ _ _ _ _ T C W).
Qed.

(** ** The heap of a program *)

Section Heap.
Context (base : Z) (Hbase : 0 < base /\ base mod 16 = 0 /\ base + HC_HEAP_BYTES < 2 ^ 64).

(** What a program does with its heap: [live] are the blocks it has. *)
Inductive heap_session : hc_state -> list (Z * Z) -> Prop :=
  | hs_start v : heap_session (mk_hc v 0 0) []
  | hs_malloc st live n p st' : heap_session st live -> 0 <= n <= 2 ^ 32 - 16 -> hc_builtin_malloc base n st = Some (p, st') ->
      heap_session st' (if p =? 0 then live else (p, n) :: live)
  | hs_free st live p r st' : heap_session st live -> hc_builtin_free base p st = Some (r, st') ->
      heap_session st' (if p =? 0 then [] else filter (fun b => fst b <> p) live)
  | hs_write st live v : heap_session st live -> heap_session (set_mem v st) live.

(** A block at an offset, behind the last one or the last one. *)
Definition in_heap (top last : Z) (b : Z * Z) : Prop := exists o, fst b = base + o /\ 0 <= o /\ o mod 16 = 0 /\ 0 <= snd b /\ (o + snd b <= last \/ o = last /\ o + snd b <= top).
Definition apart (b b' : Z * Z) : Prop := fst b + snd b <= fst b' \/ fst b' + snd b' <= fst b.

Record heap_inv (st : hc_state) (live : list (Z * Z)) : Prop := mk_heap_inv {
  hi_top : g_hc_heap_top st mod 16 = 0 /\ g_hc_heap_last st mod 16 = 0 /\ 0 <= g_hc_heap_last st <= g_hc_heap_top st /\ g_hc_heap_top st <= HC_HEAP_BYTES;
  hi_blocks : Forall (in_heap (g_hc_heap_top st) (g_hc_heap_last st)) live;
  hi_apart : ForallOrdPairs apart live }.

Lemma round_ok n : 0 <= n <= 2 ^ 32 - 16 -> exists r, hc_round (if n =? 0 then 1 else n) = r /\ n <= r /\ 16 <= r <= 2 ^ 32 /\ r mod 16 = 0.
Proof using.
  intros Hn. set (k := if n =? 0 then 1 else n). assert (Hk : 1 <= k <= 2 ^ 32 - 16 /\ n <= k) by (unfold k; destruct (Z.eqb_spec n 0); lia). clearbody k.
  unfold hc_round. rewrite u64_id by lia. exists (16 * ((k + 15) / 16)). pose proof (Z.div_mod (k + 15) 16 ltac:(lia)). pose proof (Z.mod_pos_bound (k + 15) 16 ltac:(lia)).
  split; [|split; [lia | split; [lia | rewrite Z.mul_comm; apply Z.mod_mul; lia]]].
  apply Z.bits_inj'. intros i Hi. rewrite Z.land_spec. change 4294967280 with (Z.shiftl (Z.ones 28) 4). rewrite Z.shiftl_spec by lia.
  replace (16 * ((k + 15) / 16)) with (Z.shiftl (Z.shiftr (k + 15) 4) 4) by (rewrite Z.shiftl_mul_pow2, Z.shiftr_div_pow2 by lia; change (2 ^ 4) with 16; lia). rewrite Z.shiftl_spec by lia.
  destruct (Z.lt_ge_cases i 4); [rewrite !(Z.testbit_neg_r _ (i - 4)) by lia; apply andb_false_r|]. rewrite Z.shiftr_spec by lia. replace (i - 4 + 4) with i by lia.
  destruct (Z.lt_ge_cases i 32); [rewrite Z.ones_spec_low by lia; apply andb_true_r|]. rewrite Z.ones_spec_high by lia. rewrite andb_false_r. symmetry. apply (testbit_above 32); [unfold is_u; lia | lia].
Qed.

Lemma in_heap_below top last top' b : in_heap top last b -> last <= top -> in_heap top' top b.
Proof using. intros (o & E & H1 & H2 & H3 & H) L. exists o. split; [exact E|]. split; [exact H1|]. split; [exact H2|]. split; [exact H3|]. left. destruct H as [H|[_ H]]; lia. Qed.

Lemma malloc_inv st live n p st' : heap_inv st live -> 0 <= n <= 2 ^ 32 - 16 -> hc_builtin_malloc base n st = Some (p, st') -> heap_inv st' (if p =? 0 then live else (p, n) :: live).
Proof using Hbase.
  intros [(T1 & T2 & T3 & T4) B A] Hn. unfold hc_builtin_malloc. destruct (round_ok n Hn) as (r & -> & R1 & R2 & R3). rewrite bind_gets. unfold HC_HEAP_BYTES in *. rewrite u64_id by lia.
  destruct (Z.ltb_spec 65536 (g_hc_heap_top st + r)) as [H|H]; [intros [= <- <-]; constructor; auto|]. unfold bind, modify, ret. rewrite u64_id by lia. intros [= <- <-].
  destruct (Z.eqb_spec (base + g_hc_heap_top st) 0); [lia|]. constructor; cbn [set_heap g_hc_heap_top g_hc_heap_last].
  - split; [rewrite Z.add_mod, T1, R3 by lia; reflexivity|]. split; [exact T1 | unfold HC_HEAP_BYTES; split; lia].
  - constructor; [|revert B; apply List.Forall_impl; intros b Hb; apply (in_heap_below _ _ _ _ Hb); lia]. exists (g_hc_heap_top st). cbn [fst snd]. split; [reflexivity|]. split; [lia|]. split; [exact T1|]. split; [lia|]. right. split; [reflexivity | lia].
  - constructor; [|exact A]. revert B. apply List.Forall_impl. intros b (o & E & O1 & O2 & O3 & O4). right. cbn [fst snd]. rewrite E. destruct O4 as [O4|[_ O4]]; lia.
Qed.

Lemma apart_filter (P : Z * Z -> Prop) `{forall b, Decision (P b)} l : ForallOrdPairs apart l -> ForallOrdPairs apart (filter P l).
Proof using.
  induction 1 as [|b l Hb _ IH]; [constructor|]. rewrite filter_cons. destruct (decide (P b)); [|exact IH]. constructor; [|exact IH].
  apply List.Forall_forall. intros x Hx. apply list_elem_of_In, list_elem_of_filter in Hx as [_ Hx]. rewrite List.Forall_forall in Hb. apply Hb, list_elem_of_In, Hx.
Qed.

Lemma free_inv st live p r st' : heap_inv st live -> hc_builtin_free base p st = Some (r, st') -> heap_inv st' (if p =? 0 then [] else filter (fun b => fst b <> p) live).
Proof using Hbase.
  intros [(T1 & T2 & T3 & T4) B A]. unfold hc_builtin_free. destruct (Z.eqb_spec p 0) as [->|N].
  - unfold bind, modify, ret. intros [= <- <-]. constructor; cbn [set_heap g_hc_heap_top g_hc_heap_last]; [unfold HC_HEAP_BYTES; repeat split; try reflexivity; lia | constructor | constructor].
  - rewrite bind_gets. unfold HC_HEAP_BYTES in *. rewrite u64_id by lia. destruct (Z.eqb_spec p (base + g_hc_heap_last st)) as [->|Np]; unfold bind, modify, ret; intros [= <- <-].
    + constructor; cbn [set_heap g_hc_heap_top g_hc_heap_last]; [split; [exact T2 | split; [exact T2 | unfold HC_HEAP_BYTES; split; lia]] | | apply apart_filter, A].
      apply List.Forall_forall. intros b Hb. apply list_elem_of_In, list_elem_of_filter in Hb as [Hne Hb]. rewrite List.Forall_forall in B. specialize (B b (proj1 (list_elem_of_In _ _) Hb)) as (o & E & O1 & O2 & O3 & O4).
      exists o. split; [exact E|]. split; [exact O1|]. split; [exact O2|]. split; [exact O3|]. left. destruct O4 as [O4|[O4 _]]; [exact O4|]. subst o. congruence.
    + constructor; [repeat split; assumption || lia | | apply apart_filter, A]. apply List.Forall_forall. intros b Hb. apply list_elem_of_In, list_elem_of_filter in Hb as [_ Hb]. rewrite List.Forall_forall in B. exact (B b (proj1 (list_elem_of_In _ _) Hb)).
Qed.

(** Whatever a program allocates, frees and writes, its live blocks are aligned, inside the heap
    and apart from each other. *)
Theorem program_heap_apart st live : heap_session st live ->
  Forall (fun b => fst b mod 16 = 0 /\ base <= fst b /\ fst b + snd b <= base + HC_HEAP_BYTES) live /\ ForallOrdPairs apart live.
Proof using Hbase.
  intros H. assert (I : heap_inv st live).
  { induction H as [v|st live n p st' _ IH Hn E|st live p r st' _ IH E|st live v _ IH]; [|exact (malloc_inv _ _ _ _ _ IH Hn E) | exact (free_inv _ _ _ _ _ IH E) | destruct IH; constructor; assumption].
    constructor; [cbn; unfold HC_HEAP_BYTES; repeat split; lia | constructor | constructor]. }
  destruct I as [(T1 & T2 & T3 & T4) B A]. split; [|exact A]. revert B. apply List.Forall_impl. intros b (o & E & O1 & O2 & O3 & O4). rewrite E. split; [rewrite Z.add_mod, O2, (proj1 (proj2 Hbase)) by lia; reflexivity|].
  split; [lia|]. destruct O4 as [O4|[_ O4]]; lia.
Qed.
End Heap.

(** ** Examples *)

(** Memory with a text at an address, and zeros. *)
Definition at_addr (a : Z) (l : list Z) (m : Z -> Z) : Z -> Z := fun x => if (a <=? x) && (x <? a + Z.of_nat (length l)) then byte_at l (x - a) else m x.
Definition no_mem : Z -> Z := fun _ => 0.

Lemma string_at_addr a l m : a <> 0 -> chars l -> m (a + Z.of_nat (length l)) = 0 -> string_at (at_addr a l m) a l.
Proof.
  intros Ha Hc Hm. split; [exact Ha|]. split; [exact Hc|]. intros i Hi. unfold at_addr. destruct (Z.leb_spec a (a + Z.of_nat i)); [|lia]. destruct (Z.ltb_spec (a + Z.of_nat i) (a + Z.of_nat (length l))); cbn [andb].
  - replace (a + Z.of_nat i - a) with (Z.of_nat i) by lia. apply byte_at_nth.
  - replace i with (length l) by lia. rewrite Hm, nth_end. reflexivity.
Qed.

Definition demo_number : hc_state := mk_hc (at_addr 100 (fmt_i64 (u64 (-42)) false) no_mem) 0 0.

Lemma str2i64_reads_number_witness : hc_builtin_str2i64 25 100 demo_number = Some (u64 (-42), demo_number).
Proof.
  destruct (str2i64_reads_number demo_number 100 (-42) 25 ltac:(lia) ltac:(lia) ltac:(lia)) as [H _]. apply H. apply string_at_addr; [lia | repeat constructor; lia | reflexivity].
Defined.

Definition demo_format : list Z := bytes_of_string "%s=%d;"%string.
Definition demo_text : hc_state := mk_hc (at_addr 100 [62] (at_addr 200 demo_format (at_addr 300 [120] no_mem))) 0 0.

Lemma catprint_formats_witness : exists st', hc_builtin_catprint 10 100 200 300 7 demo_text = Some (100, st') /\ string_at (mem st') 100 (bytes_of_string ">x=7;"%string).
Proof.
  destruct (catprint_formats (fun _ => [120]) 1 10 100 [62] 200 demo_format 300 7 demo_text) as (st' & E & _ & H).
  - apply string_at_addr; [lia | repeat constructor; lia | reflexivity].
  - cbn. lia.
  - cbn. lia.
  - constructor.
    + right. split; [lia|]. split; [repeat constructor; lia|]. intros i Hi. cbn in Hi. do 7 (destruct i as [|i]; [reflexivity|]). lia.
    + right. right. vm_compute. discriminate.
    + constructor; [|constructor]. split; [|split; [right; right; vm_compute; discriminate | cbn; lia]]. right. split; [lia|]. split; [repeat constructor; lia|]. intros i Hi. cbn in Hi. do 2 (destruct i as [|i]; [reflexivity|]). lia.
  - exists st'. split; [exact E|]. apply H. repeat constructor; lia.
Defined.

Lemma program_heap_apart_witness : heap_session 4096 (mk_hc no_mem 48 16) [(4112, 20); (4096, 5)] /\ apart (4112, 20) (4096, 5).
Proof.
  assert (H : heap_session 4096 (mk_hc no_mem 48 16) [(4112, 20); (4096, 5)]).
  { refine (hs_malloc 4096 (mk_hc no_mem 16 0) [(4096, 5)] 20 4112 _ _ _ eq_refl); [|lia]. refine (hs_malloc 4096 (mk_hc no_mem 0 0) [] 5 4096 _ (hs_start 4096 no_mem) _ eq_refl). lia. }
  split; [exact H|]. destruct (program_heap_apart 4096 ltac:(unfold HC_HEAP_BYTES; repeat split; lia) _ _ H) as [_ A]. inversion A as [|b l F _]. inversion F. assumption.
Defined.

(** ** What goes wrong *)

(** The mask of [MAlloc] has 32 bits: a request of 4 GiB and one byte is granted 16 bytes. *)
Theorem malloc_truncates_size : exists st', hc_builtin_malloc 4096 (2 ^ 32 + 1) (mk_hc no_mem 0 0) = Some (4096, st') /\ g_hc_heap_top st' = 16.
Proof. eexists. split; reflexivity. Qed.

(** [MStrPrint] formats into 128 bytes and does not look at their end. *)
Theorem mstrprint_overflows_block :
  let st := mk_hc (at_addr 200 [37; 115] (at_addr 300 (repeat 65 150) no_mem)) 0 0 in
  match hc_builtin_mstrprint 4096 200 200 300 0 st with Some (p, st') => p = 4096 /\ g_hc_heap_top st' = 128 /\ mem st' (4096 + 149) = 65 | None => False end.
Proof. vm_compute. repeat split; reflexivity. Qed.

(** The least number is printed, and cannot be read: its digits overflow. *)
Theorem str2i64_least_overflows :
  let l := fmt_i64 (2 ^ 63) false in
  l = bytes_of_string "-9223372036854775808"%string /\ hc_builtin_str2i64 50 100 (mk_hc (at_addr 100 l no_mem) 0 0) = None.
Proof. vm_compute. split; reflexivity. Qed.
